(* ===== verification/_CoqProject ===== *)
-Q . S2P
Prelude.v
Bytes.v
LinkedList.v
Pmm.v
Alloc.v
PageAlloc.v
Vmm.v
VmmWalk.v
VmmOwned.v
VmmSpec.v
VmmSpace.v
PageOwner.v
Heap.v
KernelHeap.v
Vma.v
Mmap.v
Syscall.v
ModuleAlloc.v
Elf.v
ElfLoad.v
ElfStack.v
Process.v
ProcessSpec.v
Lifecycle.v
Ksym.v
ModuleRegistry.v
ModuleLoad.v
ModuleLink.v
ModuleSpec.v
RunQueue.v
Sched.v
Priority.v
Mutex.v
Rcu.v
CString.v
Cpio.v
BootFiles.v
BlockDevice.v
Lafs.v
LafsSpec.v
Printf.v
PrintfSpec.v
PrintfCorrect.v
Font.v
Console.v
ConsoleSpec.v
TaskParser.v
TaskPrint.v
TaskArgs.v
TaskLaunch.v
LaunchSpec.v
Protocol.v
ProtocolSpec.v
Nic.v
NicSpec.v
NicRx.v
NicRxSpec.v
NicTheorems.v
Pci.v
PciSpec.v
Virtio.v
VirtioSpec.v
VirtioInit.v
NicInit.v
PciMachine.v
Acpi.v
AcpiSpec.v
Interrupt.v
InterruptSpec.v
Segments.v
SegmentsSpec.v
SegmentsRun.v
Trap.v
TrapSpec.v
