(* ===== verification/Prelude.v ===== *)
(** * LaOS: a verification development for the x86_64 kernel

    Work in progress: the header is completed with the components. *)

From Stdlib Require Export ZArith Lia Bool.
From stdpp Require Export base tactics numbers list list_numbers option gmap.

#[export] Set Default Goal Selector "!".
Global Open Scope Z_scope.

(** ** Outcomes of kernel code

    A kernel operation returns a value, calls [panic()] or touches memory that
    belongs to no object the model knows ([Fault]: undefined behaviour in C). *)
Inductive res (A : Type) : Type :=
  | Ok (a : A)
  | Panic
  | Fault.
Arguments Ok {A} a.
Arguments Panic {A}.
Arguments Fault {A}.

Definition res_bind {A B} (m : res A) (f : A -> res B) : res B :=
  match m with
  | Ok a => f a
  | Panic => Panic
  | Fault => Fault
  end.

Declare Scope laos_scope.
Delimit Scope laos_scope with laos.
Notation "'let!' x ':=' m 'in' k" := (res_bind m (fun x => k))
  (at level 10, x pattern, m at level 100, k at level 200) : laos_scope.
Open Scope laos_scope.

Lemma res_bind_ok {A B} (m : res A) (f : A -> res B) b :
  res_bind m f = Ok b -> exists a, m = Ok a /\ f a = Ok b.
Proof. destruct m; simpl; [eauto | done | done]. Qed.

(** ** Machine integers: a w-bit value is a [Z], wrapped where C wraps *)

Abbreviation UINT16_MAX := 65535 (only parsing).
Abbreviation UINT64_MAX := 18446744073709551615 (only parsing).

Definition u8 (z : Z) : Z := z mod 256.
Definition u16 (z : Z) : Z := z mod 65536.
Definition u32 (z : Z) : Z := z mod 4294967296.
Definition u64 (z : Z) : Z := z mod 18446744073709551616.
(** two's complement reading of the low 32 (64) bits *)
Definition i32 (z : Z) : Z := (z + 2147483648) mod 4294967296 - 2147483648.
Definition i64 (z : Z) : Z :=
  (z + 9223372036854775808) mod 18446744073709551616 - 9223372036854775808.

Definition is_u8 (z : Z) : Prop := 0 <= z < 256.
Definition is_u32 (z : Z) : Prop := 0 <= z < 4294967296.
Definition is_u64 (z : Z) : Prop := 0 <= z < 18446744073709551616.

(** [x & ~(a - 1)] and [(x + a - 1) & ~(a - 1)] for [a] a power of two, the two
    rounding idioms of the kernel. *)
Definition align_down (a x : Z) : Z := Z.land x (u64 (Z.lnot (a - 1))).
Definition align_up (a x : Z) : Z := align_down a (u64 (x + a - 1)).

(** ** Tactics *)

(** linear arithmetic with division and modulo by constants *)
Ltac zlia := Z.div_mod_to_equations; lia.

(** turn the boolean comparisons of the code into propositions *)
Ltac zbool :=
  repeat match goal with
  | H : context [?a =? ?b] |- _ => destruct (Z.eqb_spec a b)
  | H : context [?a <? ?b] |- _ => destruct (Z.ltb_spec a b)
  | H : context [?a <=? ?b] |- _ => destruct (Z.leb_spec a b)
  | |- context [?a =? ?b] => destruct (Z.eqb_spec a b)
  | |- context [?a <? ?b] => destruct (Z.ltb_spec a b)
  | |- context [?a <=? ?b] => destruct (Z.leb_spec a b)
  end.

(** case analysis on the guard of the first [if] or [match] of the goal *)
Ltac split_if :=
  match goal with
  | |- context [if ?b then _ else _] => let E := fresh "E" in destruct b eqn:E
  | H : context [if ?b then _ else _] |- _ => let E := fresh "E" in destruct b eqn:E
  end.

(** membership in lists built with [::] and [++] *)
Ltac lmem_simpl :=
  repeat match goal with
  | H : context [_ ∈ _ :: _] |- _ => rewrite elem_of_cons in H
  | H : context [_ ∈ _ ++ _] |- _ => rewrite elem_of_app in H
  | H : context [_ ∈ []] |- _ => rewrite elem_of_nil in H
  | |- context [_ ∈ _ :: _] => rewrite elem_of_cons
  | |- context [_ ∈ _ ++ _] => rewrite elem_of_app
  | |- context [_ ∈ []] => rewrite elem_of_nil
  end.
Ltac lmem := lmem_simpl; intuition (subst; eauto; try congruence).

Create HintDb laos discriminated.

(** ** Word lemmas *)

Lemma u64_small z : is_u64 z -> u64 z = z.
Proof. intros H. apply Z.mod_small. exact H. Qed.

Lemma u32_small z : is_u32 z -> u32 z = z.
Proof. intros H. apply Z.mod_small. exact H. Qed.

Lemma u64_range z : is_u64 (u64 z).
Proof. apply Z.mod_pos_bound. lia. Qed.

Lemma u32_range z : is_u32 (u32 z).
Proof. apply Z.mod_pos_bound. lia. Qed.

Lemma i32_small z : -2147483648 <= z < 2147483648 -> i32 z = z.
Proof. intros H. unfold i32. rewrite Z.mod_small; lia. Qed.
#[export] Hint Resolve u64_range u32_range : laos.

(** masking off [k] low bits of a 64-bit value *)
Lemma land_lnot_ones k x :
  0 <= k < 64 -> is_u64 x ->
  Z.land x (u64 (Z.lnot (2 ^ k - 1))) = x - x mod 2 ^ k.
Proof.
  intros Hk Hx.
  assert (Hp : 0 < 2 ^ k) by (apply Z.pow_pos_nonneg; lia).
  replace (x - x mod 2 ^ k) with (x / 2 ^ k * 2 ^ k)
    by (pose proof (Z.div_mod x (2 ^ k)); lia).
  rewrite <- Z.shiftl_mul_pow2, <- Z.shiftr_div_pow2 by lia.
  apply Z.bits_inj'. intros n Hn. unfold u64.
  change 18446744073709551616 with (2 ^ 64).
  rewrite Z.land_spec, Z.shiftl_spec by lia.
  destruct (Z.ltb_spec n 64).
  - rewrite Z.mod_pow2_bits_low, Z.lnot_spec by lia.
    replace (2 ^ k - 1) with (Z.ones k) by (rewrite Z.ones_equiv; lia).
    rewrite Z.testbit_ones_nonneg by lia.
    destruct (Z.ltb_spec n k); simpl.
    + rewrite andb_false_r, Z.testbit_neg_r by lia. done.
    + rewrite andb_true_r, Z.shiftr_spec by lia. f_equal. lia.
  - rewrite Z.mod_pow2_bits_high, andb_false_r by lia.
    rewrite Z.shiftr_spec by lia.
    replace (n - k + k) with n by lia.
    symmetry. unfold is_u64 in Hx.
    destruct (decide (x = 0)) as [-> | Hne]; [apply Z.testbit_0_l |].
    apply Z.bits_above_log2; [lia |].
    apply Z.log2_lt_pow2; [lia |].
    apply Z.lt_le_trans with (2 ^ 64); [lia |].
    apply Z.pow_le_mono_r; lia.
Qed.

Lemma align_down_spec k x :
  0 <= k < 64 -> is_u64 x -> align_down (2 ^ k) x = x - x mod 2 ^ k.
Proof. exact (land_lnot_ones k x). Qed.

Lemma align_down_4096 x : is_u64 x -> align_down 4096 x = x - x mod 4096.
Proof. exact (align_down_spec 12 x ltac:(lia)). Qed.

Lemma align_down_16 x : is_u64 x -> align_down 16 x = x - x mod 16.
Proof. exact (align_down_spec 4 x ltac:(lia)). Qed.

Lemma align_up_4096 x :
  0 <= x -> x + 4095 < 18446744073709551616 ->
  align_up 4096 x = (x + 4095) / 4096 * 4096.
Proof.
  intros H1 H2. unfold align_up.
  rewrite u64_small by (unfold is_u64; lia).
  rewrite align_down_4096 by (unfold is_u64; lia). zlia.
Qed.

Lemma align_up_16 x :
  0 <= x -> x + 15 < 18446744073709551616 ->
  align_up 16 x = (x + 15) / 16 * 16.
Proof.
  intros H1 H2. unfold align_up.
  rewrite u64_small by (unfold is_u64; lia).
  rewrite align_down_16 by (unfold is_u64; lia). zlia.
Qed.

(** ** Pairwise relations on lists *)

Fixpoint pairwise {A} (R : A -> A -> Prop) (l : list A) : Prop :=
  match l with
  | [] => True
  | x :: l => Forall (R x) l /\ pairwise R l
  end.

Lemma pairwise_app {A} (R : A -> A -> Prop) l1 l2 :
  pairwise R (l1 ++ l2) <->
  pairwise R l1 /\ pairwise R l2 /\ Forall (fun x => Forall (R x) l2) l1.
Proof.
  induction l1 as [| x l1 IH]; simpl.
  - split; [intros H; split_and!; [done | done | constructor] | tauto].
  - rewrite IH, Forall_app, Forall_cons. tauto.
Qed.

(** taking out or putting in an element at any place *)
Lemma pairwise_middle {A} (R : A -> A -> Prop) l1 x l2 :
  (forall a b, R a b -> R b a) ->
  pairwise R (l1 ++ x :: l2) <-> Forall (R x) (l1 ++ l2) /\ pairwise R (l1 ++ l2).
Proof.
  intros Hsym. induction l1 as [| y l1 IH]; simpl; [done |].
  rewrite IH, !Forall_app, !Forall_cons, !Forall_app.
  assert (R y x <-> R x y) by (split; apply Hsym). tauto.
Qed.

Lemma pairwise_perm {A} (R : A -> A -> Prop) l l' :
  (forall a b, R a b -> R b a) -> l ≡ₚ l' -> pairwise R l -> pairwise R l'.
Proof.
  intros Hsym. induction 1 as [| x l l' Hp IH | x y l | l l' l'' _ IH1 _ IH2]; simpl.
  - done.
  - intros [Hx Hl]. split; [by rewrite <- Hp | auto].
  - rewrite !Forall_cons. intros [[Hyx Hy] [Hx Hl]]. split_and!; try done. by apply Hsym.
  - auto.
Qed.

Lemma pairwise_impl {A} (R R' : A -> A -> Prop) l :
  (forall a b, R a b -> R' a b) -> pairwise R l -> pairwise R' l.
Proof.
  intros HR. induction l as [| x l IH]; simpl; [done |]. intros [Hx Hl].
  split; [| auto]. apply (Forall_impl _ _ _ Hx). auto.
Qed.
