(* ===== verification/Bytes.v ===== *)
(** * Byte strings

    Files and archives are lists of bytes, and a read outside them is a fault.
    The fields of binary headers are little-endian numbers. *)

From stdpp Require Import base list.
From S2P Require Import Prelude.

Definition byte_at (a : list Z) (i : Z) : res Z :=
  if i <? 0 then Fault else match a !! Z.to_nat i with Some b => Ok b | None => Fault end.

Definition slice (a : list Z) (i n : Z) : list Z := take (Z.to_nat n) (drop (Z.to_nat i) a).
Definition zlen (l : list Z) : Z := Z.of_nat (length l).

(** the [n] bytes at [i] *)
Definition bytes_at (a : list Z) (i n : Z) : res (list Z) :=
  if (0 <=? i) && (0 <=? n) && (i + n <=? zlen a) then Ok (slice a i n) else Fault.

(** the [n]-byte little-endian number at [i] *)
Fixpoint le (n : nat) (a : list Z) (i : Z) : res Z :=
  match n with
  | O => Ok 0
  | S n => let! b := byte_at a i in let! h := le n a (i + 1) in Ok (b + 256 * h)
  end.

(** the [n] low bytes of a number, in memory order *)
Fixpoint enc (n : nat) (x : Z) : list Z :=
  match n with
  | O => []
  | S n => x mod 256 :: enc n (x / 256)
  end.

(** [memcpy] of [l] to offset [i] *)
Definition write_bytes (f : list Z) (i : Z) (l : list Z) : res (list Z) :=
  if (0 <=? i) && (i + zlen l <=? zlen f) then Ok (take (Z.to_nat i) f ++ l ++ drop (Z.to_nat (i + zlen l)) f) else Fault.

(** ** Lemmas *)

Definition inside (a : list Z) (i n : Z) : Prop := 0 <= i /\ 0 <= n /\ i + n <= Z.of_nat (length a).
Definition bytes (a : list Z) : Prop := Forall is_u8 a.

Lemma bytes_check a : forallb (fun b => (0 <=? b) && (b <? 256)) a = true -> bytes a.
Proof.
  intros H. apply Forall_forall. intros b Hb. rewrite forallb_forall in H. specialize (H b (proj1 (list_elem_of_In _ _) Hb)).
  red. lia.
Qed.

Lemma byte_at_inside a i : inside a i 1 -> exists b, a !! Z.to_nat i = Some b /\ byte_at a i = Ok b.
Proof.
  intros (? & _ & ?). destruct (lookup_lt_is_Some_2 a (Z.to_nat i)) as [b Hb]; [lia |].
  exists b. unfold byte_at. rewrite Hb. zbool; [lia | done].
Qed.

Lemma byte_at_app pre x post : byte_at (pre ++ x :: post) (zlen pre) = Ok x.
Proof.
  unfold byte_at, zlen. rewrite Nat2Z.id, list_lookup_middle by done. zbool; [lia | done].
Qed.

Lemma slice_snoc a i n b : inside a i (n + 1) -> 0 <= n -> a !! Z.to_nat (i + n) = Some b ->
  slice a i (n + 1) = slice a i n ++ [b].
Proof.
  intros (? & _ & ?) Hn Hb. unfold slice. rewrite Z2Nat.inj_add, Nat.add_1_r by lia.
  apply take_S_r. rewrite lookup_drop, <- Z2Nat.inj_add by lia. done.
Qed.

Lemma slice_length a i n : inside a i n -> Z.of_nat (length (slice a i n)) = n.
Proof. intros (? & ? & ?). unfold slice. rewrite length_take, length_drop. lia. Qed.

Lemma slice_app a i n pre l post : a = pre ++ l ++ post -> i = zlen pre -> n = zlen l -> slice a i n = l.
Proof.
  intros -> -> ->. unfold slice, zlen. rewrite !Nat2Z.id, drop_app_length. apply take_app_length.
Qed.

Lemma slice_nth a i n k : inside a i n -> 0 <= k < n -> nth (Z.to_nat k) (slice a i n) 0 = nth (Z.to_nat (i + k)) a 0.
Proof.
  intros (? & ? & ?) Hk. unfold slice. rewrite !nth_lookup, lookup_take_lt, lookup_drop by lia. do 2 f_equal. lia.
Qed.

Lemma nth_zeros n k : nth k (replicate n 0) 0 = 0.
Proof. revert k. induction n as [| n IH]; intros [| k]; simpl; auto. Qed.

Lemma zlen_nonneg l : 0 <= zlen l.
Proof. unfold zlen. lia. Qed.

Lemma zlen_app l k : zlen (l ++ k) = zlen l + zlen k.
Proof. unfold zlen. rewrite length_app. lia. Qed.

Lemma bytes_at_inside a i n : inside a i n -> bytes_at a i n = Ok (slice a i n).
Proof. intros (? & ? & ?). unfold bytes_at, zlen. zbool; simpl; done || lia. Qed.

Lemma le_inside n a i : bytes a -> inside a i (Z.of_nat n) -> exists v, le n a i = Ok v /\ 0 <= v < 256 ^ Z.of_nat n.
Proof.
  intros HB. revert i. induction n as [| n IH]; intros i Hi; [by exists 0 |]. destruct Hi as (H1 & _ & H2).
  cbn [le]. destruct (byte_at_inside a i) as (b & Hb & ->); [red; lia |].
  destruct (IH (i + 1)) as (v & -> & Hv); [red; lia |]. cbn [res_bind]. exists (b + 256 * v). split; [done |].
  assert (Hb' : is_u8 b) by (unfold bytes in HB; rewrite Forall_lookup in HB; by eapply HB). red in Hb'.
  rewrite Nat2Z.inj_succ, Z.pow_succ_r by lia. lia.
Qed.

Lemma enc_length n x : length (enc n x) = n.
Proof. revert x. induction n; intros x; simpl; congruence. Qed.

Lemma enc_bytes n x : bytes (enc n x).
Proof.
  revert x. induction n as [| n IH]; intros x; [constructor |]. constructor; [| apply IH].
  apply Z.mod_pos_bound. lia.
Qed.

Lemma le_cons n b a i : 0 <= i -> le n (b :: a) (i + 1) = le n a i.
Proof.
  revert i. induction n as [| n IH]; intros i Hi; [done |]. cbn [le]. rewrite IH by lia.
  assert (byte_at (b :: a) (i + 1) = byte_at a i) as ->; [| done].
  unfold byte_at. zbool; [lia | lia | lia |]. replace (Z.to_nat (i + 1)) with (S (Z.to_nat i)) by lia. done.
Qed.

(** what is stored reads back *)
Lemma le_enc n x : 0 <= x < 256 ^ Z.of_nat n -> le n (enc n x) 0 = Ok x.
Proof.
  revert x. induction n as [| n IH]; intros x Hx; [simpl in *; f_equal; lia |]. cbn [le enc].
  rewrite (le_cons n _ _ 0) by lia. rewrite Nat2Z.inj_succ, Z.pow_succ_r in Hx by lia. rewrite IH by zlia.
  change (byte_at (x mod 256 :: enc n (x / 256)) 0) with (Ok (x mod 256)). cbn [res_bind]. f_equal. zlia.
Qed.

(** ** Writing and reading back *)

Lemma write_bytes_inside f i l : inside f i (zlen l) ->
  exists f', write_bytes f i l = Ok f' /\ zlen f' = zlen f /\
    (forall k, f' !! k = if decide (Z.to_nat i <= k < Z.to_nat i + length l)%nat then l !! (k - Z.to_nat i)%nat else f !! k).
Proof.
  intros (H1 & _ & H2). unfold write_bytes, zlen in *. rewrite (proj2 (Z.leb_le 0 i)), (proj2 (Z.leb_le _ _)) by lia. simpl.
  eexists. split; [reflexivity |]. rewrite !length_app, length_take, length_drop. split; [lia |]. intros k.
  destruct (decide _) as [Hd | Hd].
  - rewrite lookup_app_r, length_take by (rewrite length_take; lia). rewrite lookup_app_l by lia.
    f_equal. lia.
  - destruct (decide (k < Z.to_nat i)%nat) as [Hk | Hk].
    + rewrite lookup_app_l, lookup_take_lt by (rewrite ?length_take; lia). done.
    + rewrite lookup_app_r, length_take by (rewrite length_take; lia).
      rewrite lookup_app_r by lia. rewrite lookup_drop. f_equal. lia.
Qed.

Lemma le_ext n f g i j : (forall k, (k < n)%nat -> byte_at f (i + Z.of_nat k) = byte_at g (j + Z.of_nat k)) -> le n f i = le n g j.
Proof.
  revert i j. induction n as [| n IH]; intros i j H; [done |]. cbn [le].
  pose proof (H 0%nat ltac:(lia)) as H0. rewrite !Z.add_0_r in H0. rewrite H0.
  rewrite (IH (i + 1) (j + 1)); [done |]. intros k Hk. specialize (H (S k) ltac:(lia)).
  replace (i + 1 + Z.of_nat k) with (i + Z.of_nat (S k)) by lia. replace (j + 1 + Z.of_nat k) with (j + Z.of_nat (S k)) by lia. done.
Qed.

Lemma le_written f i n x f' : 0 <= i -> i + Z.of_nat n <= zlen f -> 0 <= x < 256 ^ Z.of_nat n ->
  write_bytes f i (enc n x) = Ok f' -> le n f' i = Ok x.
Proof.
  intros Hi Hn Hx E. destruct (write_bytes_inside f i (enc n x)) as (g & E' & HL & HK).
  { unfold zlen in *. red. rewrite enc_length. lia. }
  rewrite E in E'. injection E' as <-. rewrite <- (le_enc n x Hx). apply le_ext. intros k Hk. unfold byte_at.
  rewrite !(proj2 (Z.ltb_ge _ 0)) by lia. rewrite HK, enc_length, decide_True by lia.
  replace (Z.to_nat (i + Z.of_nat k) - Z.to_nat i)%nat with (Z.to_nat (0 + Z.of_nat k)) by lia. done.
Qed.

(** reading elsewhere *)
Lemma byte_elsewhere f i l f' j : inside f i (zlen l) -> write_bytes f i l = Ok f' -> j < i \/ i + zlen l <= j ->
  byte_at f' j = byte_at f j.
Proof.
  intros HI E Hd. destruct (write_bytes_inside f i l HI) as (g & E' & HL & HK). rewrite E in E'. injection E' as <-.
  destruct HI as (H1 & _). unfold zlen in *. unfold byte_at. destruct (Z.ltb_spec j 0); [done |].
  rewrite HK, decide_False by lia. done.
Qed.
