(* ===== verification/LinkedList.v ===== *)
(** * Intrusive circular doubly linked lists (src/kernel/list.h)

    The store maps the address of a [struct list_node] to its two links; an
    access to an address that holds no node is a [None] (a wild pointer in C).
    Each primitive is the sequence of the stores of the C function, in order.

    [dll s h l] says that the list with head [h] contains exactly the nodes [l],
    in order.  The theorems show that every primitive implements the
    corresponding operation on lists, so that the other components of the
    development may keep their queues as lists. *)

From S2P Require Import Prelude.

(** ** Data *)

Record list_node := mk_node { next : Z; prev : Z }.

(** the NULL pointer [list_del] stores in a removed node *)
Definition NULL : Z := 0.

Abbreviation store := (gmap Z list_node).

(** ** Field accesses *)

Definition get_next (p : Z) (s : store) : option Z := next <$> s !! p.
Definition get_prev (p : Z) (s : store) : option Z := prev <$> s !! p.

Definition set_next (p v : Z) (s : store) : option store :=
  match s !! p with
  | Some n => Some (<[p := mk_node v (prev n)]> s)
  | None => None
  end.

Definition set_prev (p v : Z) (s : store) : option store :=
  match s !! p with
  | Some n => Some (<[p := mk_node (next n) v]> s)
  | None => None
  end.

(** ** Operations *)

Definition list_init (p : Z) (s : store) : option store :=
  s ← set_next p p s;
  set_prev p p s.

Definition __list_add (newn prv nxt : Z) (s : store) : option store :=
  s ← set_prev nxt newn s;
  s ← set_next newn nxt s;
  s ← set_prev newn prv s;
  set_next prv newn s.

Definition list_add (newn head : Z) (s : store) : option store :=
  hn ← get_next head s;
  __list_add newn head hn s.

Definition list_add_tail (newn head : Z) (s : store) : option store :=
  hp ← get_prev head s;
  __list_add newn hp head s.

Definition __list_del (prv nxt : Z) (s : store) : option store :=
  s ← set_prev nxt prv s;
  set_next prv nxt s.

Definition list_del (entry : Z) (s : store) : option store :=
  ep ← get_prev entry s;
  en ← get_next entry s;
  s ← __list_del ep en s;
  s ← set_next entry NULL s;
  set_prev entry NULL s.

Definition list_del_init (entry : Z) (s : store) : option store :=
  ep ← get_prev entry s;
  en ← get_next entry s;
  s ← __list_del ep en s;
  s ← set_prev entry entry s;
  set_next entry entry s.

Definition list_empty (head : Z) (s : store) : option bool :=
  hn ← get_next head s;
  Some (hn =? head).

(** [list_for_each]: the nodes visited from [pos] until [head] comes back;
    the fuel bounds the number of nodes visited. *)
Fixpoint list_for_each_from (fuel : nat) (pos head : Z) (s : store)
    : option (list Z) :=
  match fuel with
  | O => None
  | S fuel =>
      if pos =? head then Some []
      else
        nx ← get_next pos s;
        r ← list_for_each_from fuel nx head s;
        Some (pos :: r)
  end.

Definition list_for_each (fuel : nat) (head : Z) (s : store) : option (list Z) :=
  hn ← get_next head s;
  list_for_each_from fuel hn head s.

Definition list_size (fuel : nat) (head : Z) (s : store) : option Z :=
  l ← list_for_each fuel head s;
  Some (Z.of_nat (length l)).

(** ** RCU variants

    A concurrent reader may run between two stores of the writer, so the
    writers are kept as the list of the stores they perform. *)

Definition wstep := store -> option store.

Definition __list_add_rcu (newn prv nxt : Z) : list wstep :=
  [ set_next newn nxt; set_prev newn prv; set_prev nxt newn; set_next prv newn ].

Definition list_add_rcu (newn head : Z) (s : store) : option (list wstep) :=
  hn ← get_next head s;
  Some (__list_add_rcu newn head hn).

Definition list_add_tail_rcu (newn head : Z) (s : store) : option (list wstep) :=
  hp ← get_prev head s;
  Some (__list_add_rcu newn hp head).

Definition list_del_rcu (entry : Z) (s : store) : option (list wstep) :=
  ep ← get_prev entry s;
  en ← get_next entry s;
  Some [ set_next ep en; set_prev en ep ].

Fixpoint run_steps (ws : list wstep) (s : store) : option store :=
  match ws with
  | [] => Some s
  | w :: ws => s ← w s; run_steps ws s
  end.

(** ** The abstract list a store represents *)

Definition fwd (s : store) (x y : Z) : Prop := get_next x s = Some y.
Definition bwd (s : store) (x y : Z) : Prop := get_prev y s = Some x.
Definition link (s : store) (x y : Z) : Prop := fwd s x y /\ bwd s x y.

Fixpoint chain (R : Z -> Z -> Prop) (x : Z) (l : list Z) : Prop :=
  match l with
  | [] => True
  | y :: r => R x y /\ chain R y r
  end.

(** [h] heads a circular list of exactly the nodes [l] *)
Definition dll (s : store) (h : Z) (l : list Z) : Prop :=
  NoDup (h :: l) /\ chain (link s) h (l ++ [h]).

(** the forward links only, all a reader of the RCU variants follows *)
Definition fwd_list (s : store) (h : Z) (l : list Z) : Prop :=
  NoDup (h :: l) /\ chain (fwd s) h (l ++ [h]).

(** ** Lemmas on chains *)

Lemma chain_app R x l1 y l2 :
  chain R x (l1 ++ y :: l2) <-> chain R x (l1 ++ [y]) /\ chain R y l2.
Proof.
  revert x. induction l1 as [| z l1 IH]; intros x; simpl; [tauto |].
  rewrite IH. tauto.
Qed.

Lemma chain_impl (R R' : Z -> Z -> Prop) x l :
  (forall a b, a ∈ x :: removelast l -> b ∈ l -> R a b -> R' a b) ->
  chain R x l -> chain R' x l.
Proof.
  revert x. induction l as [| y l IH]; intros x HR; simpl; [done |].
  intros [Hxy Hl]. split.
  - apply HR; [left | left | exact Hxy].
  - apply IH; [| exact Hl]. intros a b Ha Hb.
    apply HR; [| right; exact Hb].
    destruct l as [| z l]; [by inversion Hb |]. right. exact Ha.
Qed.

Lemma removelast_snoc {A} (l : list A) x : removelast (l ++ [x]) = l.
Proof. apply removelast_last. Qed.

(** the predecessor and the successor of a position of the cycle *)
Definition last_or (h : Z) (l : list Z) : Z := default h (last l).
Definition head_or (h : Z) (l : list Z) : Z := default h (head l).

Lemma chain_first R h l : chain R h (l ++ [h]) -> R h (head_or h l).
Proof. destruct l; simpl; tauto. Qed.

Lemma chain_last R x l h : chain R x (l ++ [h]) -> R (last_or x l) h.
Proof.
  unfold last_or. revert x. induction l as [| y l IH]; intros x; simpl; [tauto |].
  intros [_ Hl]. apply IH in Hl. rewrite last_cons. destruct (last l); exact Hl.
Qed.

Lemma last_or_in h l : last_or h l ∈ h :: l.
Proof.
  unfold last_or. destruct (last l) eqn:E; simpl; [| left].
  right. apply last_Some_elem_of in E. exact E.
Qed.

Lemma head_or_in h l : head_or h l ∈ h :: l.
Proof. destruct l; simpl; lmem. Qed.

(** ** Store updates *)

Lemma set_next_get p v s s' x :
  set_next p v s = Some s' ->
  get_next x s' = (if decide (x = p) then Some v else get_next x s) /\
  get_prev x s' = get_prev x s.
Proof.
  unfold set_next, get_next, get_prev. destruct (s !! p) as [n |] eqn:E; [| done].
  intros [= <-]. destruct (decide (x = p)) as [-> |].
  - rewrite lookup_insert_eq, E. done.
  - rewrite lookup_insert_ne by done. done.
Qed.

Lemma set_prev_get p v s s' x :
  set_prev p v s = Some s' ->
  get_prev x s' = (if decide (x = p) then Some v else get_prev x s) /\
  get_next x s' = get_next x s.
Proof.
  unfold set_prev, get_next, get_prev. destruct (s !! p) as [n |] eqn:E; [| done].
  intros [= <-]. destruct (decide (x = p)) as [-> |].
  - rewrite lookup_insert_eq, E. done.
  - rewrite lookup_insert_ne by done. done.
Qed.

Lemma set_next_total p v s : is_Some (s !! p) -> is_Some (set_next p v s).
Proof. intros [n Hn]. unfold set_next. rewrite Hn. eauto. Qed.

Lemma set_prev_total p v s : is_Some (s !! p) -> is_Some (set_prev p v s).
Proof. intros [n Hn]. unfold set_prev. rewrite Hn. eauto. Qed.

Lemma set_next_dom p v s s' x :
  set_next p v s = Some s' -> is_Some (s' !! x) <-> is_Some (s !! x).
Proof.
  unfold set_next. destruct (s !! p) as [n |] eqn:E; [| done]. intros [= <-].
  destruct (decide (x = p)) as [-> |].
  - rewrite lookup_insert_eq, E. split; eauto.
  - rewrite lookup_insert_ne by done. done.
Qed.

Lemma set_prev_dom p v s s' x :
  set_prev p v s = Some s' -> is_Some (s' !! x) <-> is_Some (s !! x).
Proof.
  unfold set_prev. destruct (s !! p) as [n |] eqn:E; [| done]. intros [= <-].
  destruct (decide (x = p)) as [-> |].
  - rewrite lookup_insert_eq, E. split; eauto.
  - rewrite lookup_insert_ne by done. done.
Qed.

Lemma fwd_is_Some s x y : fwd s x y -> is_Some (s !! x).
Proof. unfold fwd, get_next. destruct (s !! x); [eauto | done]. Qed.

Lemma bwd_is_Some s x y : bwd s x y -> is_Some (s !! y).
Proof. unfold bwd, get_prev. destruct (s !! y); [eauto | done]. Qed.

(** a new node between two linked neighbours; both directions, all other
    links untouched *)
Lemma __list_add_spec newn prv nxt s :
  is_Some (s !! newn) -> is_Some (s !! prv) -> is_Some (s !! nxt) ->
  newn <> prv -> newn <> nxt ->
  exists s', __list_add newn prv nxt s = Some s' /\
    link s' prv newn /\ link s' newn nxt /\
    (forall a, a <> newn -> a <> prv -> get_next a s' = get_next a s) /\
    (forall a, a <> newn -> a <> nxt -> get_prev a s' = get_prev a s).
Proof.
  intros H1 H2 H3 N1 N2. unfold __list_add.
  destruct (set_prev_total nxt newn s H3) as [s1 E1]. rewrite E1. simpl.
  destruct (set_next_total newn nxt s1) as [s2 E2]; [by eapply set_prev_dom |].
  rewrite E2. simpl.
  destruct (set_prev_total newn prv s2) as [s3 E3].
  { eapply set_next_dom; [exact E2 |]. by eapply set_prev_dom. }
  rewrite E3. simpl.
  destruct (set_next_total prv newn s3) as [s4 E4].
  { eapply set_prev_dom; [exact E3 |]. eapply set_next_dom; [exact E2 |].
    by eapply set_prev_dom. }
  exists s4. split; [exact E4 |].
  assert (HN : forall a, get_next a s4 =
      if decide (a = prv) then Some newn
      else if decide (a = newn) then Some nxt else get_next a s).
  { intros a. rewrite (proj1 (set_next_get _ _ _ _ a E4)). case_decide; [done |].
    rewrite (proj2 (set_prev_get _ _ _ _ a E3)), (proj1 (set_next_get _ _ _ _ a E2)).
    case_decide; [done |]. apply (set_prev_get _ _ _ _ a E1). }
  assert (HP : forall a, get_prev a s4 =
      if decide (a = newn) then Some prv
      else if decide (a = nxt) then Some newn else get_prev a s).
  { intros a. rewrite (proj2 (set_next_get _ _ _ _ a E4)).
    rewrite (proj1 (set_prev_get _ _ _ _ a E3)). case_decide; [done |].
    rewrite (proj2 (set_next_get _ _ _ _ a E2)). apply (set_prev_get _ _ _ _ a E1). }
  unfold link, fwd, bwd. rewrite !HN, !HP.
  repeat split; intros; rewrite ?HN, ?HP; repeat case_decide; congruence.
Qed.

(** unlinking the node between [prv] and [nxt] *)
Lemma __list_del_spec prv nxt s :
  is_Some (s !! prv) -> is_Some (s !! nxt) ->
  exists s', __list_del prv nxt s = Some s' /\ link s' prv nxt /\
    (forall a, a <> prv -> get_next a s' = get_next a s) /\
    (forall a, a <> nxt -> get_prev a s' = get_prev a s) /\
    (forall a, is_Some (s' !! a) <-> is_Some (s !! a)).
Proof.
  intros H1 H2. unfold __list_del.
  destruct (set_prev_total nxt prv s H2) as [s1 E1]. rewrite E1. simpl.
  destruct (set_next_total prv nxt s1) as [s2 E2]; [by eapply set_prev_dom |].
  exists s2. split; [exact E2 |]. unfold link, fwd, bwd.
  assert (HN : forall a, get_next a s2 = if decide (a = prv) then Some nxt else get_next a s).
  { intros a. rewrite (proj1 (set_next_get _ _ _ _ a E2)). case_decide; [done |].
    apply (set_prev_get _ _ _ _ a E1). }
  assert (HP : forall a, get_prev a s2 = if decide (a = nxt) then Some prv else get_prev a s).
  { intros a. rewrite (proj2 (set_next_get _ _ _ _ a E2)). apply (set_prev_get _ _ _ _ a E1). }
  rewrite HN, HP. repeat split; intros; rewrite ?HN, ?HP; repeat case_decide; try congruence.
  - apply (set_prev_dom _ _ _ _ a E1), (set_next_dom _ _ _ _ a E2). done.
  - apply (set_next_dom _ _ _ _ a E2), (set_prev_dom _ _ _ _ a E1). done.
Qed.

(** the links inside a segment survive an update that touches neither the
    forward link of [p] nor the backward link of [q], when [p] is not a
    source and [q] not a target of the segment *)
Lemma chain_frame s s' p q x l :
  (forall a, a <> p -> a ∈ x :: removelast l -> get_next a s' = get_next a s) ->
  (forall a, a <> q -> a ∈ l -> get_prev a s' = get_prev a s) ->
  p ∉ x :: removelast l -> q ∉ l ->
  chain (link s) x l -> chain (link s') x l.
Proof.
  intros HN HP Hp Hq. apply chain_impl. intros a b Ha Hb [Hf Hb'].
  unfold link, fwd, bwd in *. rewrite HN, HP; [done | | done | | done]; congruence.
Qed.

(** the nodes after the successor of a position, up to the head *)
Definition rest_or (h : Z) (l2 : list Z) : list Z :=
  match l2 with
  | [] => []
  | _ :: r => r ++ [h]
  end.

Lemma chain_cut R x l y r :
  chain R x (l ++ y :: r) <-> chain R x l /\ R (last_or x l) y /\ chain R y r.
Proof.
  unfold last_or. revert x. induction l as [| z l IH]; intros x; simpl; [tauto |].
  rewrite last_cons. specialize (IH z). destruct (last l); simpl in *; tauto.
Qed.

(** two segments of a cycle around a position *)
Lemma dll_split s h l1 l2 :
  dll s h (l1 ++ l2) <->
  NoDup (h :: l1 ++ l2) /\ chain (link s) h l1 /\
  link s (last_or h l1) (head_or h l2) /\
  chain (link s) (head_or h l2) (rest_or h l2).
Proof.
  unfold dll. rewrite <- app_assoc.
  destruct l2 as [| y l2]; simpl; rewrite chain_cut; simpl; tauto.
Qed.

(** the two segments around a position do not see an update of the links
    that cross the position *)
Lemma dll_segments_frame s s' h l1 l2 :
  NoDup (h :: l1 ++ l2) ->
  (forall a, a ∈ h :: l1 ++ l2 -> a <> last_or h l1 -> get_next a s' = get_next a s) ->
  (forall a, a ∈ h :: l1 ++ l2 -> a <> head_or h l2 -> get_prev a s' = get_prev a s) ->
  chain (link s) h l1 -> chain (link s) (head_or h l2) (rest_or h l2) ->
  chain (link s') h l1 /\ chain (link s') (head_or h l2) (rest_or h l2).
Proof.
  intros HND HN HP C1 C2.
  apply NoDup_cons in HND as [Hh HND]. apply NoDup_app in HND as (ND1 & ND12 & ND2).
  split.
  - destruct l1 as [| x l1 _] using rev_ind; [done |].
    assert (Hl : last_or h (l1 ++ [x]) = x) by (unfold last_or; by rewrite last_snoc).
    rewrite Hl in *. apply NoDup_app in ND1 as (_ & Hx & _).
    revert C1. apply chain_frame with x (head_or h l2).
    + intros a Ha Hin. apply HN; [| done]. rewrite removelast_snoc in Hin. lmem.
    + intros a Ha Hin. apply HP; [lmem | done].
    + rewrite removelast_snoc. intros [-> | Hin]%elem_of_cons; [apply Hh; lmem |].
      apply (Hx x Hin). lmem.
    + pose proof (head_or_in h l2) as [Heq | Hin]%elem_of_cons.
      * rewrite Heq. lmem.
      * intros H12. exact (ND12 _ H12 Hin).
  - destruct l2 as [| y l2]; [done |]. simpl in *.
    apply NoDup_cons in ND2 as [Hy _].
    pose proof (last_or_in h l1) as Hlast.
    revert C2. apply chain_frame with (last_or h l1) y.
    + intros a Ha Hin. apply HN; [| done]. rewrite removelast_snoc in Hin. lmem.
    + intros a Ha Hin. apply HP; [lmem | done].
    + rewrite removelast_snoc. apply elem_of_cons in Hlast as [-> | Hin]; [lmem |].
      intros H2. exact (ND12 _ Hin H2).
    + lmem.
Qed.

(** ** Insertion and removal refine the list operations *)

(** insertion at an arbitrary position *)
Lemma __list_add_dll s h l1 l2 newn :
  dll s h (l1 ++ l2) -> newn ∉ h :: l1 ++ l2 -> is_Some (s !! newn) ->
  exists s', __list_add newn (last_or h l1) (head_or h l2) s = Some s' /\
    dll s' h (l1 ++ newn :: l2) /\
    (forall a, a ∉ newn :: h :: l1 ++ l2 -> get_next a s' = get_next a s /\
                                            get_prev a s' = get_prev a s).
Proof.
  intros Hd Hnew Hs. apply dll_split in Hd as (ND & C1 & [Lf Lb] & C2).
  pose proof (last_or_in h l1) as Hl. pose proof (head_or_in h l2) as Hh.
  destruct (__list_add_spec newn (last_or h l1) (head_or h l2) s)
    as (s' & E & L1 & L2 & HN & HP); try done.
  { by eapply fwd_is_Some. }
  { by eapply bwd_is_Some. }
  { lmem. }
  { lmem. }
  exists s'. split; [exact E |]. split.
  - destruct (dll_segments_frame s s' h l1 l2) as [C1' C2']; try done.
    { intros a Ha Hne. apply HN; [lmem | done]. }
    { intros a Ha Hne. apply HP; [lmem | done]. }
    apply dll_split. split_and!; [| done | exact L1 |].
    + rewrite <- Permutation_middle. rewrite Permutation_swap.
      apply NoDup_cons. split; [lmem | done].
    + simpl. destruct l2 as [| y l2]; simpl in *; [split; [exact L2 | done] |].
      split; [exact L2 | exact C2'].
  - intros a Ha. split; [apply HN | apply HP]; lmem.
Qed.

(** removal of a node of the list; its own links are still those it had *)
Lemma __list_del_dll s h l1 e l2 :
  dll s h (l1 ++ e :: l2) ->
  exists s', __list_del (last_or h l1) (head_or h l2) s = Some s' /\
    get_prev e s = Some (last_or h l1) /\ get_next e s = Some (head_or h l2) /\
    dll s' h (l1 ++ l2) /\ is_Some (s' !! e) /\
    (forall a, a ∉ h :: l1 ++ l2 -> get_next a s' = get_next a s /\
                                    get_prev a s' = get_prev a s).
Proof.
  intros Hd. pose proof Hd as [HND _].
  apply dll_split in Hd as (_ & C1 & [Lf Lb] & C2). simpl in *.
  assert (Ce : link s e (head_or h l2) /\ chain (link s) (head_or h l2) (rest_or h l2)).
  { destruct l2; simpl in *; tauto. }
  destruct Ce as [[Ef Eb] C2'].
  assert (ND : (e ∉ h :: l1 ++ l2) /\ NoDup (h :: l1 ++ l2)).
  { rewrite <- Permutation_middle, Permutation_swap in HND.
    apply NoDup_cons in HND. exact HND. }
  destruct ND as [He ND].
  pose proof (last_or_in h l1) as Hl. pose proof (head_or_in h l2) as Hh.
  destruct (__list_del_spec (last_or h l1) (head_or h l2) s)
    as (s' & E & L & HN & HP & HD).
  { by eapply fwd_is_Some. }
  { by eapply bwd_is_Some. }
  exists s'. split_and!; try done.
  - destruct (dll_segments_frame s s' h l1 l2) as [C1' C2'']; try done; auto.
    apply dll_split. auto.
  - apply HD. by eapply fwd_is_Some.
  - intros a Ha. split; [apply HN | apply HP]; lmem.
Qed.

(** a list is not affected by stores to nodes that are not in it *)
Lemma dll_frame s s' h l :
  (forall a, a ∈ h :: l -> get_next a s' = get_next a s /\ get_prev a s' = get_prev a s) ->
  dll s h l -> dll s' h l.
Proof.
  intros Heq [ND C]. split; [done |]. revert C. apply chain_impl.
  intros a b Ha Hb [Hf Hb']. rewrite removelast_snoc in Ha.
  unfold link, fwd, bwd in *.
  rewrite (proj1 (Heq a Ha)), (proj2 (Heq b ltac:(lmem))). done.
Qed.

Lemma list_init_dll s p :
  is_Some (s !! p) ->
  exists s', list_init p s = Some s' /\ dll s' p [] /\
    (forall a, a <> p -> get_next a s' = get_next a s /\ get_prev a s' = get_prev a s).
Proof.
  intros H. unfold list_init.
  destruct (set_next_total p p s H) as [s1 E1]. rewrite E1. simpl.
  destruct (set_prev_total p p s1) as [s2 E2].
  { by apply (set_next_dom _ _ _ _ p E1). }
  exists s2. split; [exact E2 |].
  assert (HN : forall a, get_next a s2 = if decide (a = p) then Some p else get_next a s).
  { intros a. rewrite (proj2 (set_prev_get _ _ _ _ a E2)). apply (set_next_get _ _ _ _ a E1). }
  assert (HP : forall a, get_prev a s2 = if decide (a = p) then Some p else get_prev a s).
  { intros a. rewrite (proj1 (set_prev_get _ _ _ _ a E2)).
    by rewrite (proj2 (set_next_get _ _ _ _ a E1)). }
  split.
  - split; [apply NoDup_singleton |]. simpl. unfold link, fwd, bwd.
    rewrite HN, HP. case_decide; [tauto | done].
  - intros a Ha. rewrite HN, HP, !decide_False by done. done.
Qed.

Lemma list_add_dll s h l newn :
  dll s h l -> newn ∉ h :: l -> is_Some (s !! newn) ->
  exists s', list_add newn h s = Some s' /\ dll s' h (newn :: l) /\
    (forall a, a ∉ newn :: h :: l -> get_next a s' = get_next a s /\
                                     get_prev a s' = get_prev a s).
Proof.
  intros Hd Hn Hs. destruct (__list_add_dll s h [] l newn Hd Hn Hs) as (s' & E & R).
  exists s'. split; [| exact R]. unfold list_add.
  destruct Hd as [_ C]. apply chain_first in C as [-> _]. exact E.
Qed.

Lemma list_add_tail_dll s h l newn :
  dll s h l -> newn ∉ h :: l -> is_Some (s !! newn) ->
  exists s', list_add_tail newn h s = Some s' /\ dll s' h (l ++ [newn]) /\
    (forall a, a ∉ newn :: h :: l -> get_next a s' = get_next a s /\
                                     get_prev a s' = get_prev a s).
Proof.
  intros Hd Hn Hs.
  destruct (__list_add_dll s h l [] newn) as (s' & E & R); rewrite ?app_nil_r in *; try done.
  exists s'. split; [| exact R]. unfold list_add_tail.
  destruct Hd as [_ C]. apply chain_last in C as [_ ->]. exact E.
Qed.

(** after [list_del] the node is out of the list and its links are NULL *)
Lemma list_del_dll s h l1 e l2 :
  dll s h (l1 ++ e :: l2) ->
  exists s', list_del e s = Some s' /\ dll s' h (l1 ++ l2) /\
    get_next e s' = Some NULL /\ get_prev e s' = Some NULL /\
    (forall a, a ∉ h :: l1 ++ e :: l2 -> get_next a s' = get_next a s /\
                                         get_prev a s' = get_prev a s).
Proof.
  intros Hd. pose proof (proj1 Hd) as ND.
  rewrite <- Permutation_middle, Permutation_swap in ND. apply NoDup_cons in ND as [He _].
  destruct (__list_del_dll s h l1 e l2 Hd) as (s1 & E1 & Ep & En & Hd' & Hs & HF).
  unfold list_del. rewrite Ep, En. simpl. rewrite E1. simpl.
  destruct (set_next_total e NULL s1 Hs) as [s2 E2]. rewrite E2. simpl.
  destruct (set_prev_total e NULL s2) as [s3 E3].
  { by apply (set_next_dom _ _ _ _ e E2). }
  exists s3. split; [exact E3 |].
  assert (HN : forall a, get_next a s3 = if decide (a = e) then Some NULL else get_next a s1).
  { intros a. rewrite (proj2 (set_prev_get _ _ _ _ a E3)). apply (set_next_get _ _ _ _ a E2). }
  assert (HP : forall a, get_prev a s3 = if decide (a = e) then Some NULL else get_prev a s1).
  { intros a. rewrite (proj1 (set_prev_get _ _ _ _ a E3)).
    by rewrite (proj2 (set_next_get _ _ _ _ a E2)). }
  split_and!.
  - revert Hd'. apply dll_frame. intros a Ha.
    rewrite HN, HP, !decide_False by (intros ->; done). done.
  - by rewrite HN, decide_True.
  - by rewrite HP, decide_True.
  - intros a Ha. rewrite HN, HP, !decide_False by lmem. apply HF. lmem.
Qed.

(** after [list_del_init] the node is out of the list and heads an empty list *)
Lemma list_del_init_dll s h l1 e l2 :
  dll s h (l1 ++ e :: l2) ->
  exists s', list_del_init e s = Some s' /\ dll s' h (l1 ++ l2) /\ dll s' e [] /\
    (forall a, a ∉ h :: l1 ++ e :: l2 -> get_next a s' = get_next a s /\
                                         get_prev a s' = get_prev a s).
Proof.
  intros Hd. pose proof (proj1 Hd) as ND.
  rewrite <- Permutation_middle, Permutation_swap in ND. apply NoDup_cons in ND as [He _].
  destruct (__list_del_dll s h l1 e l2 Hd) as (s1 & E1 & Ep & En & Hd' & Hs & HF).
  unfold list_del_init. rewrite Ep, En. simpl. rewrite E1. simpl.
  destruct (set_prev_total e e s1 Hs) as [s2 E2]. rewrite E2. simpl.
  destruct (set_next_total e e s2) as [s3 E3].
  { by apply (set_prev_dom _ _ _ _ e E2). }
  exists s3. split; [exact E3 |].
  assert (HN : forall a, get_next a s3 = if decide (a = e) then Some e else get_next a s1).
  { intros a. rewrite (proj1 (set_next_get _ _ _ _ a E3)). case_decide; [done |].
    apply (set_prev_get _ _ _ _ a E2). }
  assert (HP : forall a, get_prev a s3 = if decide (a = e) then Some e else get_prev a s1).
  { intros a. rewrite (proj2 (set_next_get _ _ _ _ a E3)). apply (set_prev_get _ _ _ _ a E2). }
  split_and!.
  - revert Hd'. apply dll_frame. intros a Ha.
    rewrite HN, HP, !decide_False by (intros ->; done). done.
  - split; [apply NoDup_singleton |]. simpl. unfold link, fwd, bwd.
    rewrite HN, HP. case_decide; [tauto | done].
  - intros a Ha. rewrite HN, HP, !decide_False by lmem. apply HF. lmem.
Qed.

Lemma list_empty_dll s h l :
  dll s h l -> list_empty h s = Some (match l with [] => true | _ => false end).
Proof.
  intros [ND C]. unfold list_empty. apply chain_first in C as [-> _]. simpl.
  destruct l as [| x l]; unfold head_or; simpl; [by rewrite Z.eqb_refl |].
  apply NoDup_cons in ND as [Hh _].
  destruct (Z.eqb_spec x h) as [-> | Hx]; [lmem | done].
Qed.

(** ** Traversals *)

(** a forward walk from [x] visits the segment up to the head *)
Lemma for_each_from_chain s h x r fuel :
  h ∉ x :: r -> chain (fwd s) x (r ++ [h]) -> (length r + 2 <= fuel)%nat ->
  list_for_each_from fuel x h s = Some (x :: r).
Proof.
  revert x fuel. induction r as [| y r IH]; intros x fuel Hh C Hf;
    destruct fuel as [| fuel]; simpl in *; try lia;
    destruct C as [Hx C]; (destruct (Z.eqb_spec x h) as [-> |]; [lmem |]);
    unfold fwd in Hx; rewrite Hx; simpl.
  - destruct fuel as [| fuel]; [lia |]. simpl. by rewrite Z.eqb_refl.
  - rewrite (IH y fuel); [done | lmem | done | lia].
Qed.

Lemma for_each_fwd_list s h l fuel :
  fwd_list s h l -> (length l + 1 <= fuel)%nat -> list_for_each fuel h s = Some l.
Proof.
  intros [ND C] Hf. apply NoDup_cons in ND as [Hh _]. unfold list_for_each.
  destruct l as [| x l]; simpl in *; destruct C as [Hx C]; unfold fwd in Hx; rewrite Hx; simpl.
  - destruct fuel; [lia |]. simpl. by rewrite Z.eqb_refl.
  - apply for_each_from_chain; [exact Hh | exact C | lia].
Qed.

Lemma dll_fwd_list s h l : dll s h l -> fwd_list s h l.
Proof.
  intros [ND C]. split; [done |]. revert C. apply chain_impl. by intros a b _ _ [].
Qed.

(** a reader standing on a node of the list reaches the rest of the list *)
Lemma for_each_from_fwd_list s h l1 x l2 fuel :
  fwd_list s h (l1 ++ x :: l2) -> (length l2 + 2 <= fuel)%nat ->
  list_for_each_from fuel x h s = Some (x :: l2).
Proof.
  intros [ND C] Hf. apply for_each_from_chain; [| | done].
  - apply NoDup_cons in ND as [Hh _]. lmem.
  - rewrite <- app_assoc in C. simpl in C. apply chain_cut in C. tauto.
Qed.

(** ** Publication and removal under readers *)

(** a store to the forward link of a node outside a forward list, or to any
    backward link, is invisible to its readers *)
Lemma fwd_list_frame s s' h l :
  (forall a, a ∈ h :: l -> get_next a s' = get_next a s) ->
  fwd_list s h l -> fwd_list s' h l.
Proof.
  intros Heq [ND C]. split; [done |]. revert C. apply chain_impl.
  intros a b Ha _. rewrite removelast_snoc in Ha. unfold fwd. by rewrite Heq.
Qed.

Lemma set_next_fwd_list p v s s' h l :
  p ∉ h :: l -> set_next p v s = Some s' -> fwd_list s h l -> fwd_list s' h l.
Proof.
  intros Hp E. apply fwd_list_frame. intros a Ha.
  rewrite (proj1 (set_next_get _ _ _ _ a E)), decide_False; [done | by intros ->].
Qed.

Lemma set_prev_fwd_list p v s s' h l :
  set_prev p v s = Some s' -> fwd_list s h l -> fwd_list s' h l.
Proof.
  intros E. apply fwd_list_frame. intros a _. apply (set_prev_get _ _ _ _ a E).
Qed.

Lemma fwd_list_split s h l1 l2 :
  fwd_list s h (l1 ++ l2) <->
  NoDup (h :: l1 ++ l2) /\ chain (fwd s) h l1 /\
  fwd s (last_or h l1) (head_or h l2) /\
  chain (fwd s) (head_or h l2) (rest_or h l2).
Proof.
  unfold fwd_list. rewrite <- app_assoc.
  destruct l2 as [| y l2]; simpl; rewrite chain_cut; simpl; tauto.
Qed.

Lemma set_next_fwd p v s s' : set_next p v s = Some s' -> fwd s' p v.
Proof.
  intros E. unfold fwd. rewrite (proj1 (set_next_get _ _ _ _ p E)). by case_decide.
Qed.

(** redirecting the link that leaves the first segment: the segments stay *)
Lemma fwd_segments_frame s s' h l1 l2 y :
  NoDup (h :: l1 ++ l2) -> set_next (last_or h l1) y s = Some s' ->
  chain (fwd s) h l1 -> chain (fwd s) (head_or h l2) (rest_or h l2) ->
  chain (fwd s') h l1 /\ chain (fwd s') (head_or h l2) (rest_or h l2).
Proof.
  intros HND E C1 C2.
  apply NoDup_cons in HND as [Hh HND]. apply NoDup_app in HND as (ND1 & ND12 & ND2).
  assert (HN : forall a, a <> last_or h l1 -> get_next a s' = get_next a s).
  { intros a Ha. rewrite (proj1 (set_next_get _ _ _ _ a E)). by rewrite decide_False. }
  split.
  - destruct l1 as [| x l1 _] using rev_ind; [done |].
    assert (Hl : last_or h (l1 ++ [x]) = x) by (unfold last_or; by rewrite last_snoc).
    rewrite Hl in HN. apply NoDup_app in ND1 as (_ & Hx & _).
    revert C1. apply chain_impl. intros a b Ha _. rewrite removelast_snoc in Ha.
    unfold fwd. rewrite HN; [done |]. intros ->.
    apply elem_of_cons in Ha as [-> | Ha]; [apply Hh; lmem |]. apply (Hx x Ha). lmem.
  - destruct l2 as [| z l2]; [done |]. simpl in *.
    revert C2. apply chain_impl. intros a b Ha _. rewrite removelast_snoc in Ha.
    unfold fwd. rewrite HN; [done |]. intros ->.
    pose proof (last_or_in h l1) as [Heq | Hin]%elem_of_cons.
    + rewrite Heq in Ha. lmem.
    + exact (ND12 _ Hin Ha).
Qed.

(** publication: before its last store the writer is invisible, after it the
    new node is in the list *)
Lemma __list_add_rcu_fwd s h l1 l2 newn :
  dll s h (l1 ++ l2) -> newn ∉ h :: l1 ++ l2 -> is_Some (s !! newn) ->
  forall k, (k <= 4)%nat ->
  exists sk,
    run_steps (take k (__list_add_rcu newn (last_or h l1) (head_or h l2))) s = Some sk /\
    fwd_list sk h (l1 ++ (if decide (k = 4%nat) then [newn] else []) ++ l2).
Proof.
  intros Hd Hnew Hs k Hk. pose proof (dll_fwd_list _ _ _ Hd) as F0.
  apply dll_split in Hd as (ND & _ & [Lf Lb] & _).
  destruct (set_next_total newn (head_or h l2) s Hs) as [s1 E1].
  pose proof (set_next_fwd_list _ _ _ _ _ _ Hnew E1 F0) as F1.
  destruct (set_prev_total newn (last_or h l1) s1) as [s2 E2].
  { by apply (set_next_dom _ _ _ _ newn E1). }
  pose proof (set_prev_fwd_list _ _ _ _ _ _ E2 F1) as F2.
  destruct (set_prev_total (head_or h l2) newn s2) as [s3 E3].
  { apply (set_prev_dom _ _ _ _ _ E2), (set_next_dom _ _ _ _ _ E1). by eapply bwd_is_Some. }
  pose proof (set_prev_fwd_list _ _ _ _ _ _ E3 F2) as F3.
  destruct (set_next_total (last_or h l1) newn s3) as [s4 E4].
  { apply (set_prev_dom _ _ _ _ _ E3), (set_prev_dom _ _ _ _ _ E2), (set_next_dom _ _ _ _ _ E1).
    by eapply fwd_is_Some. }
  do 4 (destruct k as [| k];
    [eexists; split; [cbn [take __list_add_rcu run_steps]; rewrite ?E1; cbn; rewrite ?E2; cbn;
                      rewrite ?E3; reflexivity | exact F0 || exact F1 || exact F2 || exact F3] |]).
  destruct k as [| k]; [| lia].
  exists s4. split.
  { cbn. rewrite E1. cbn. rewrite E2. cbn. rewrite E3. cbn. by rewrite E4. }
  simpl. apply fwd_list_split in F3 as (_ & C1 & _ & C2).
  destruct (fwd_segments_frame s3 s4 h l1 l2 newn ND E4 C1 C2) as [C1' C2'].
  apply fwd_list_split. split_and!; [| done | |].
  - rewrite <- Permutation_middle, Permutation_swap. by apply NoDup_cons.
  - exact (set_next_fwd _ _ _ _ E4).
  - assert (Hfn : fwd s4 newn (head_or h l2)).
    { unfold fwd. assert (newn <> last_or h l1).
      { intros ->. pose proof (last_or_in h l1). lmem. }
      rewrite (proj1 (set_next_get _ _ _ _ _ E4)), decide_False by done.
      rewrite (proj2 (set_prev_get _ _ _ _ _ E3)), (proj2 (set_prev_get _ _ _ _ _ E2)).
      exact (set_next_fwd _ _ _ _ E1). }
    simpl. destruct l2 as [| y l2]; simpl in *; tauto.
Qed.

(** stores to different fields commute, so an RCU writer leaves the memory the
    plain primitive leaves *)
Lemma set_next_prev_comm p v q w s :
  (s ← set_next p v s; set_prev q w s) = (s ← set_prev q w s; set_next p v s).
Proof.
  unfold set_next, set_prev. destruct (decide (p = q)) as [-> | Hne].
  - destruct (s !! q) as [n |] eqn:E; simpl; [| done].
    rewrite !lookup_insert_eq. simpl. by rewrite !insert_insert_eq.
  - destruct (s !! p) as [n |] eqn:Ep; destruct (s !! q) as [m |] eqn:Eq; simpl;
      rewrite ?lookup_insert_ne by done; rewrite ?Ep, ?Eq; try done.
    by rewrite insert_insert_ne.
Qed.

Lemma set_prev_comm p v q w s :
  p <> q -> (s ← set_prev p v s; set_prev q w s) = (s ← set_prev q w s; set_prev p v s).
Proof.
  unfold set_prev. intros Hne.
  destruct (s !! p) as [n |] eqn:Ep; destruct (s !! q) as [m |] eqn:Eq; simpl;
    rewrite ?lookup_insert_ne by done; rewrite ?Ep, ?Eq; try done.
  by rewrite insert_insert_ne.
Qed.

Lemma list_add_rcu_same newn prv nxt s :
  newn <> nxt -> run_steps (__list_add_rcu newn prv nxt) s = __list_add newn prv nxt s.
Proof.
  intros Hne. unfold __list_add. cbn [run_steps __list_add_rcu].
  transitivity (s1 ← (s0 ← set_next newn nxt s; set_prev nxt newn s0);
                s2 ← set_prev newn prv s1; set_next prv newn s2).
  - destruct (set_next newn nxt s) as [s1 |]; simpl; [| done].
    pose proof (set_prev_comm newn prv nxt newn s1 Hne) as HC.
    destruct (set_prev newn prv s1) as [s2 |]; simpl in *.
    + destruct (set_prev nxt newn s1) as [s3 |]; simpl in *.
      * rewrite <- HC. destruct (set_prev nxt newn s2); simpl; [| done].
        by destruct (set_next prv newn _).
      * by rewrite HC.
    + destruct (set_prev nxt newn s1) as [s3 |]; simpl in *; [by rewrite <- HC | done].
  - rewrite set_next_prev_comm. by destruct (set_prev nxt newn s).
Qed.

Lemma list_del_rcu_same prv nxt s :
  run_steps [set_next prv nxt; set_prev nxt prv] s = __list_del prv nxt s.
Proof.
  unfold __list_del. rewrite <- set_next_prev_comm. simpl.
  destruct (set_next prv nxt s) as [s1 |]; simpl; [| done]. by destruct (set_prev nxt prv s1).
Qed.

(** unlinking: from the first store on new readers miss the node, and a reader
    that stands on it still reaches the rest of the list *)
Lemma list_del_rcu_fwd s h l1 e l2 :
  dll s h (l1 ++ e :: l2) ->
  exists s1 s2,
    list_del_rcu e s = Some [set_next (last_or h l1) (head_or h l2);
                             set_prev (head_or h l2) (last_or h l1)] /\
    set_next (last_or h l1) (head_or h l2) s = Some s1 /\
    set_prev (head_or h l2) (last_or h l1) s1 = Some s2 /\
    (forall s', s' = s1 \/ s' = s2 ->
       fwd_list s' h (l1 ++ l2) /\ chain (fwd s') e (l2 ++ [h])) /\
    dll s2 h (l1 ++ l2).
Proof.
  intros Hd. pose proof (proj1 Hd) as ND. pose proof (dll_fwd_list _ _ _ Hd) as F0.
  destruct (__list_del_dll s h l1 e l2 Hd) as (sd & Ed & Ep & En & Hd' & Hs & HF).
  pose proof Ed as Erun. rewrite <- list_del_rcu_same in Erun. cbn in Erun.
  destruct (set_next (last_or h l1) (head_or h l2) s) as [s1 |] eqn:E1; [| done]. cbn in Erun.
  destruct (set_prev (head_or h l2) (last_or h l1) s1) as [s2 |] eqn:E2; [| done].
  injection Erun as <-. exists s1, s2. unfold list_del_rcu. rewrite Ep, En.
  split_and!; try done.
  apply fwd_list_split in F0 as (_ & C1 & _ & C2). simpl in C2.
  assert (HND' : NoDup (h :: l1 ++ l2)) by apply Hd'.
  assert (C2' : chain (fwd s) (head_or h l2) (rest_or h l2)).
  { destruct l2; simpl in *; tauto. }
  destruct (fwd_segments_frame _ _ _ _ _ _ HND' E1 C1 C2') as [D1 D2].
  assert (F1 : fwd_list s1 h (l1 ++ l2)).
  { apply fwd_list_split. split_and!; try done. exact (set_next_fwd _ _ _ _ E1). }
  assert (Hne : e <> last_or h l1).
  { intros ->. rewrite <- Permutation_middle, Permutation_swap in ND.
    apply NoDup_cons in ND as [He _]. apply He. pose proof (last_or_in h l1). lmem. }
  assert (Fe : fwd s1 e (head_or h l2)).
  { unfold fwd. by rewrite (proj1 (set_next_get _ _ _ _ e E1)), decide_False. }
  assert (Ce : chain (fwd s1) e (l2 ++ [h])) by (destruct l2; simpl in *; tauto).
  intros s' [-> | ->]; [done |].
  split; [exact (set_prev_fwd_list _ _ _ _ _ _ E2 F1) |].
  revert Ce. apply chain_impl. intros a b _ _. unfold fwd.
  by rewrite (proj2 (set_prev_get _ _ _ _ a E2)).
Qed.

Lemma dll_for_each s h l fuel :
  dll s h l -> (length l < fuel)%nat -> list_for_each fuel h s = Some l.
Proof. intros Hd Hf. apply for_each_fwd_list; [by apply dll_fwd_list | lia]. Qed.

Lemma dll_list_size s h l fuel :
  dll s h l -> (length l < fuel)%nat -> list_size fuel h s = Some (Z.of_nat (length l)).
Proof. intros Hd Hf. unfold list_size. by rewrite (dll_for_each _ _ _ _ Hd Hf). Qed.

(** a list that shares no node with an updated one is the same list *)
Lemma dll_frame_disjoint s s' h l (l0 : list Z) :
  (forall a, a ∉ l0 -> get_next a s' = get_next a s /\ get_prev a s' = get_prev a s) ->
  (forall a, a ∈ h :: l -> a ∉ l0) -> dll s h l -> dll s' h l.
Proof. intros HF Hdis. apply dll_frame. intros a Ha. apply HF, Hdis, Ha. Qed.

(** ** Theorems *)

(** inserting a node. [list_add] puts a fresh node first and [list_add_tail]
    puts it last; a traversal of the new list visits exactly its nodes in
    order, and every list that shares no node with this one is untouched. *)
Lemma list_add_refines s h l newn :
  dll s h l -> newn ∉ h :: l -> is_Some (s !! newn) ->
  exists s1 s2,
    list_add newn h s = Some s1 /\ dll s1 h (newn :: l) /\
    list_for_each (length l + 2) h s1 = Some (newn :: l) /\
    list_add_tail newn h s = Some s2 /\ dll s2 h (l ++ [newn]) /\
    list_size (length l + 2) h s2 = Some (Z.of_nat (length l) + 1) /\
    (forall h' l', (forall a, a ∈ h' :: l' -> a ∉ newn :: h :: l) ->
       dll s h' l' -> dll s1 h' l' /\ dll s2 h' l').
Proof.
  intros Hd Hn Hs.
  destruct (list_add_dll s h l newn Hd Hn Hs) as (s1 & E1 & D1 & F1).
  destruct (list_add_tail_dll s h l newn Hd Hn Hs) as (s2 & E2 & D2 & F2).
  exists s1, s2. split_and!; try done.
  - apply dll_for_each; [done | simpl; lia].
  - rewrite (dll_list_size _ _ _ _ D2); rewrite length_app; simpl; [f_equal; lia | lia].
  - intros h' l' Hdis Hd'.
    split; [apply (dll_frame_disjoint s s1 h' l' _ F1 Hdis Hd')
           | apply (dll_frame_disjoint s s2 h' l' _ F2 Hdis Hd')].
Qed.

Definition ex_store : store :=
  {[ 1 := mk_node 2 3; 2 := mk_node 3 1; 3 := mk_node 1 2; 4 := mk_node 0 0 ]}.

Lemma ex_store_dll : dll ex_store 1 [2; 3].
Proof.
  split; [apply (bool_decide_unpack _); vm_compute; exact I |].
  repeat split; vm_compute; reflexivity.
Defined.

Lemma list_add_refines_witness :
  exists s1 s2, list_add 4 1 ex_store = Some s1 /\ list_add_tail 4 1 ex_store = Some s2 /\
    dll s1 1 [4; 2; 3] /\ dll s2 1 [2; 3; 4].
Proof.
  destruct (list_add_refines ex_store 1 [2; 3] 4) as (s1 & s2 & H).
  - exact ex_store_dll.
  - apply (bool_decide_unpack _). vm_compute. exact I.
  - vm_compute. eauto.
  - exists s1, s2. tauto.
Defined.

(** removing a node. [list_del] and [list_del_init] take exactly the given
    node out of its list wherever it stands; [list_del] leaves its links NULL,
    [list_del_init] leaves it an empty list of its own, on which [list_empty]
    answers true, and so it can be inserted again. *)
Lemma list_del_refines s h l1 e l2 :
  dll s h (l1 ++ e :: l2) ->
  exists s1 s2,
    list_del e s = Some s1 /\ dll s1 h (l1 ++ l2) /\
    get_next e s1 = Some NULL /\ get_prev e s1 = Some NULL /\
    list_del_init e s = Some s2 /\ dll s2 h (l1 ++ l2) /\ dll s2 e [] /\
    list_empty e s2 = Some true /\
    list_for_each (length l1 + length l2 + 1) h s2 = Some (l1 ++ l2).
Proof.
  intros Hd.
  destruct (list_del_dll s h l1 e l2 Hd) as (s1 & E1 & D1 & N1 & P1 & _).
  destruct (list_del_init_dll s h l1 e l2 Hd) as (s2 & E2 & D2 & De & _).
  exists s1, s2. split_and!; try done.
  - apply (list_empty_dll _ _ _ De).
  - apply dll_for_each; [done |]. rewrite length_app. lia.
Qed.

Lemma list_del_refines_witness :
  exists s2, list_del_init 2 ex_store = Some s2 /\ dll s2 1 [3] /\ list_empty 2 s2 = Some true.
Proof.
  destruct (list_del_refines ex_store 1 [] 2 [3] ex_store_dll) as (s1 & s2 & H).
  exists s2. tauto.
Defined.

(** publication of a node to concurrent readers. Whatever prefix of its four
    stores the writer of [__list_add_rcu] has performed, a reader that walks
    the list from its head sees either the old list (before the last store) or
    the complete new list (after it), never a broken chain; when the writer is
    done the memory is the one the plain insertion leaves. *)
Lemma list_add_rcu_atomic s h l1 l2 newn k :
  dll s h (l1 ++ l2) -> newn ∉ h :: l1 ++ l2 -> is_Some (s !! newn) -> (k <= 4)%nat ->
  exists sk sf,
    run_steps (take k (__list_add_rcu newn (last_or h l1) (head_or h l2))) s = Some sk /\
    list_for_each (length (l1 ++ l2) + 2) h sk =
      Some (if decide (k = 4%nat) then l1 ++ newn :: l2 else l1 ++ l2) /\
    run_steps (__list_add_rcu newn (last_or h l1) (head_or h l2)) s = Some sf /\
    dll sf h (l1 ++ newn :: l2).
Proof.
  intros Hd Hn Hs Hk.
  destruct (__list_add_rcu_fwd s h l1 l2 newn Hd Hn Hs k Hk) as (sk & Ek & Fk).
  destruct (__list_add_dll s h l1 l2 newn Hd Hn Hs) as (sf & Ef & Df & _).
  exists sk, sf. split_and!; try done.
  - rewrite (for_each_fwd_list _ _ _ _ Fk).
    + by case_decide.
    + rewrite !length_app. case_decide; simpl; lia.
  - rewrite list_add_rcu_same; [done |]. intros ->. pose proof (head_or_in h l2). lmem.
Qed.

Lemma list_add_rcu_atomic_witness :
  exists sk, run_steps (take 3 (__list_add_rcu 4 2 3)) ex_store = Some sk /\
    list_for_each 4 1 sk = Some [2; 3].
Proof.
  destruct (list_add_rcu_atomic ex_store 1 [2] [3] 4 3) as (sk & sf & H).
  - exact ex_store_dll.
  - apply (bool_decide_unpack _). vm_compute. exact I.
  - vm_compute. eauto.
  - lia.
  - exists sk. tauto.
Defined.

(** removal under concurrent readers. From the first store of
    [list_del_rcu] on, a reader that starts at the head misses the node, while
    a reader standing on the removed node still walks to the end of the list
    (its forward link is kept, where [list_del] stores NULL there); when the
    writer is done the list is the one the plain removal leaves. *)
Lemma list_del_rcu_readers s h l1 e l2 k :
  dll s h (l1 ++ e :: l2) -> (1 <= k <= 2)%nat ->
  exists ws sk sf,
    list_del_rcu e s = Some ws /\ run_steps (take k ws) s = Some sk /\
    list_for_each (length (l1 ++ l2) + 1) h sk = Some (l1 ++ l2) /\
    list_for_each_from (length l2 + 2) e h sk = Some (e :: l2) /\
    run_steps ws s = Some sf /\ dll sf h (l1 ++ l2).
Proof.
  intros Hd Hk. pose proof (proj1 (proj1 (NoDup_cons _ _) (proj1 Hd))) as Hh.
  destruct (list_del_rcu_fwd s h l1 e l2 Hd) as (s1 & s2 & Ew & E1 & E2 & HR & D2).
  assert (Hk' : exists sk, (sk = s1 \/ sk = s2) /\
    run_steps (take k [set_next (last_or h l1) (head_or h l2);
                       set_prev (head_or h l2) (last_or h l1)]) s = Some sk).
  { destruct k as [| [| [| k]]]; try lia; cbn; rewrite E1; cbn; rewrite ?E2; eauto. }
  destruct Hk' as (sk & Hor & Ek). destruct (HR sk Hor) as [F C].
  eexists _, sk, s2. split_and!; try done.
  - apply for_each_fwd_list; [done | lia].
  - apply for_each_from_chain; [lmem | done | lia].
  - cbn. rewrite E1. cbn. by rewrite E2.
Qed.

Lemma list_del_rcu_readers_witness :
  exists ws sk, list_del_rcu 2 ex_store = Some ws /\ run_steps (take 1 ws) ex_store = Some sk /\
    list_for_each 2 1 sk = Some [3] /\ list_for_each_from 3 2 1 sk = Some [2; 3].
Proof.
  destruct (list_del_rcu_readers ex_store 1 [] 2 [3] 1 ex_store_dll) as (ws & sk & sf & H).
  - lia.
  - exists ws, sk. tauto.
Defined.
