(* ===== verification/Pmm.v ===== *)
(** * The physical page allocator (src/kernel/pmm.c, pmm.h)

    The allocator keeps one bit per physical page (1 = used) in a byte array
    and the counters of [struct pmm_info]; [pmm] is that state.  Every public
    entry runs under [pinfo.pmm_lock] with interrupts off, so an operation is
    one function from state to state.  A bitmap access outside the array is
    [Fault], a call of [panic()] is [Panic].

    [wf] is the invariant (the array covers [pmm_total_pages] pages, [freed] is
    the number of clear bits); [used s i] reads the state as the set of used
    pages, against which the operations are specified. *)

From stdpp Require Import relations.
From S2P Require Import Prelude.

(** ** Data *)

Definition PAGE_SIZE : Z := 4096.
Definition PMM_MEMMAP_USABLE : Z := 0.
Definition PMM_LOWMEM_LIMIT : Z := 1048576.
Definition PMM_LOWMEM_PAGES : Z := PMM_LOWMEM_LIMIT / PAGE_SIZE.

Record pmm_memmap_entry := mk_entry { base : Z; elength : Z; type : Z }.

Record pmm_page := mk_page {
  total : Z; none : Z; self : Z; usable : Z; freed : Z }.

Record pmm := mk_pmm {
  pmm_bitmap : list Z; pmm_total_pages : Z; page : pmm_page }.

Definition with_bitmap (b : list Z) (s : pmm) : pmm :=
  mk_pmm b (pmm_total_pages s) (page s).
Definition with_page (p : pmm_page) (s : pmm) : pmm :=
  mk_pmm (pmm_bitmap s) (pmm_total_pages s) p.
Definition set_freed (v : Z) (p : pmm_page) : pmm_page :=
  mk_page (total p) (none p) (self p) (usable p) v.

(** ** Bitmap macros *)

Definition bmask (idx : Z) : Z := Z.shiftl 1 (idx mod 8).
Definition bbyte (idx : Z) : nat := Z.to_nat (idx / 8).

Definition BITMAP_SET (idx : Z) (s : pmm) : res pmm :=
  match pmm_bitmap s !! bbyte idx with
  | Some b => Ok (with_bitmap (<[bbyte idx := u8 (Z.lor b (bmask idx))]> (pmm_bitmap s)) s)
  | None => Fault
  end.

Definition BITMAP_CLEAR (idx : Z) (s : pmm) : res pmm :=
  match pmm_bitmap s !! bbyte idx with
  | Some b =>
      Ok (with_bitmap (<[bbyte idx := u8 (Z.land b (Z.lnot (bmask idx)))]> (pmm_bitmap s)) s)
  | None => Fault
  end.

Definition BITMAP_TEST (idx : Z) (s : pmm) : res bool :=
  match pmm_bitmap s !! bbyte idx with
  | Some b => Ok (negb (Z.land b (bmask idx) =? 0))
  | None => Fault
  end.

Definition pmm_idx_safe (idx : Z) (s : pmm) : bool :=
  (PMM_LOWMEM_PAGES <=? idx) && (idx <? pmm_total_pages s).

Definition pmm_account_alloc (count : Z) (s : pmm) : pmm :=
  with_page (set_freed (u64 (freed (page s) - count)) (page s)) s.

Definition pmm_account_free (count : Z) (s : pmm) : pmm :=
  with_page (set_freed (u64 (freed (page s) + count)) (page s)) s.

Definition pmm_mark_used (page_idx : Z) (s : pmm) : res pmm :=
  if pmm_total_pages s <=? page_idx then Panic else BITMAP_SET page_idx s.

Definition pmm_mark_free (page_idx : Z) (s : pmm) : res pmm :=
  if pmm_total_pages s <=? page_idx then Panic else BITMAP_CLEAR page_idx s.

(** ** Allocation *)

(** the loop of [pmm_find_run]; [n] iterations are left, [None] is
    [(uint64_t)-1] *)
Fixpoint find_run_loop (n : nat) (i st cnt count : Z) (s : pmm) : res (option Z) :=
  match n with
  | O => Ok None
  | S n =>
      let! t := BITMAP_TEST i s in
      if negb t && pmm_idx_safe i s then
        let st := if cnt =? 0 then i else st in
        let cnt := cnt + 1 in
        if count <=? cnt then Ok (Some st)
        else find_run_loop n (i + 1) st cnt count s
      else find_run_loop n (i + 1) st 0 count s
  end.

Definition pmm_find_run (lo hi count : Z) (s : pmm) : res (option Z) :=
  find_run_loop (Z.to_nat (hi - lo)) lo 0 0 count s.

Fixpoint set_run (n : nat) (i : Z) (s : pmm) : res pmm :=
  match n with
  | O => Ok s
  | S n => let! s := BITMAP_SET i s in set_run n (u64 (i + 1)) s
  end.

(** the result is the physical address, 0 for NULL *)
Definition pmm_alloc_run (count : Z) (s : pmm) : res (Z * pmm) :=
  let! start := pmm_find_run 0 (pmm_total_pages s) count s in
  match start with
  | None => Ok (0, s)
  | Some start =>
      let! s := set_run (Z.to_nat count) start s in
      Ok (u64 (start * PAGE_SIZE), pmm_account_alloc count s)
  end.

Definition pmm_alloc (s : pmm) : res (Z * pmm) := pmm_alloc_run 1 s.

Definition pmm_alloc_pages (count : Z) (s : pmm) : res (Z * pmm) :=
  if count =? 0 then Ok (0, s) else pmm_alloc_run count s.

(** ** Release *)

Definition pmm_free (addr : Z) (s : pmm) : res pmm :=
  if addr =? 0 then Ok s
  else if negb (Z.land addr (PAGE_SIZE - 1) =? 0) then Panic
  else
    let page_idx := addr / PAGE_SIZE in
    if pmm_total_pages s <=? page_idx then Panic
    else
      let! t := BITMAP_TEST page_idx s in
      if negb t then Panic
      else
        let! s := BITMAP_CLEAR page_idx s in
        Ok (pmm_account_free 1 s).

Fixpoint free_run_loop (n : nat) (idx : Z) (s : pmm) : res pmm :=
  match n with
  | O => Ok s
  | S n =>
      let! t := BITMAP_TEST idx s in
      if negb t then Panic
      else let! s := BITMAP_CLEAR idx s in free_run_loop n (u64 (idx + 1)) s
  end.

Definition pmm_free_pages (ptr count : Z) (s : pmm) : res pmm :=
  if (ptr =? 0) || (count =? 0) then Ok s
  else
    let start := ptr / PAGE_SIZE in
    if pmm_total_pages s <=? start then Panic
    else if pmm_total_pages s <? u64 (start + count) then Panic
    else
      let! s := free_run_loop (Z.to_nat count) start s in
      Ok (pmm_account_free count s).

(** ** Initialisation from the boot memory map *)

Definition pmm_scan_entry (p : pmm_page) (e : pmm_memmap_entry) : pmm_page :=
  let pages := elength e / PAGE_SIZE in
  if negb (type e =? PMM_MEMMAP_USABLE)
  then mk_page (u64 (total p + pages)) (u64 (none p + pages)) (self p) (usable p) (freed p)
  else mk_page (u64 (total p + pages)) (none p) (self p) (u64 (usable p + pages)) (freed p).

Definition pmm_scan (mmap : list pmm_memmap_entry) : pmm_page :=
  let p := fold_left pmm_scan_entry mmap (mk_page 0 0 0 0 0) in
  set_freed (usable p) p.

(** the accumulators of the loop: the largest usable entry so far, its length,
    the largest end address *)
Definition pick_max_step (acc : option pmm_memmap_entry * Z * Z) (e : pmm_memmap_entry)
    : option pmm_memmap_entry * Z * Z :=
  let '(max_entry, max_length, max_end_addr) := acc in
  if negb (type e =? PMM_MEMMAP_USABLE) then acc
  else
    let '(max_entry, max_length) :=
      if max_length <? elength e then (Some e, elength e) else (max_entry, max_length) in
    let end_ := u64 (base e + elength e) in
    (max_entry, max_length, if max_end_addr <? end_ then end_ else max_end_addr).

Definition pmm_pick_max_entry (mmap : list pmm_memmap_entry) : res (pmm_memmap_entry * Z) :=
  let '(max_entry, _, max_end_addr) := fold_left pick_max_step mmap (None, 0, 0) in
  match max_entry with
  | None => Panic
  | Some e => Ok (e, max_end_addr)
  end.

(** the bitmap's own pages; the bytes start as 0xff *)
Definition pmm_install_bitmap (max_entry : pmm_memmap_entry) (max_end_addr : Z) (p : pmm_page)
    : res (Z * pmm) :=
  let total_pages := u64 (max_end_addr + (PAGE_SIZE - 1)) / PAGE_SIZE in
  let bitmap_size := (total_pages + 7) / 8 in
  let bitmap_pages := (bitmap_size + (PAGE_SIZE - 1)) / PAGE_SIZE in
  if elength max_entry <? bitmap_size then Panic
  else Ok (bitmap_pages, mk_pmm (replicate (Z.to_nat bitmap_size) 255) total_pages p).

(** one pass over the pages of a usable entry; [n] iterations are left, [j] is
    the offset; the two counters are [dont_touch_page] and [lost_page] *)
Fixpoint release_entry (n : nat) (j : Z) (e : pmm_memmap_entry) (dont_touch lost : Z) (s : pmm)
    : res (Z * Z * pmm) :=
  match n with
  | O => Ok (dont_touch, lost, s)
  | S n =>
      let page_phys := u64 (base e + j) in
      let idx := page_phys / PAGE_SIZE in
      if pmm_total_pages s <=? idx then release_entry n (j + PAGE_SIZE) e dont_touch (lost + 1) s
      else if page_phys <? PMM_LOWMEM_LIMIT
      then release_entry n (j + PAGE_SIZE) e (dont_touch + 1) lost s
      else
        let! s := pmm_mark_free idx s in
        release_entry n (j + PAGE_SIZE) e dont_touch lost s
  end.

(** the number of iterations of [for (j = 0; j < length; j += PAGE_SIZE)] *)
Definition entry_iters (e : pmm_memmap_entry) : nat :=
  Z.to_nat ((elength e + (PAGE_SIZE - 1)) / PAGE_SIZE).

Fixpoint pmm_release_usable (mmap : list pmm_memmap_entry) (dont_touch lost : Z) (s : pmm)
    : res (Z * Z * pmm) :=
  match mmap with
  | [] => Ok (dont_touch, lost, s)
  | e :: mmap =>
      if negb (type e =? PMM_MEMMAP_USABLE) then pmm_release_usable mmap dont_touch lost s
      else
        let! (dont_touch, lost, s) := release_entry (entry_iters e) 0 e dont_touch lost s in
        pmm_release_usable mmap dont_touch lost s
  end.

Fixpoint protected_entry (n : nat) (idx : Z) (s : pmm) : res unit :=
  match n with
  | O => Ok tt
  | S n =>
      if pmm_total_pages s <=? idx then Ok tt
      else
        let! t := BITMAP_TEST idx s in
        if negb t then Panic else protected_entry n (idx + 1) s
  end.

Fixpoint pmm_mark_protected (mmap : list pmm_memmap_entry) (max_end_addr : Z) (s : pmm)
    : res unit :=
  match mmap with
  | [] => Ok tt
  | e :: mmap =>
      if max_end_addr <=? base e then pmm_mark_protected mmap max_end_addr s
      else if type e =? PMM_MEMMAP_USABLE then pmm_mark_protected mmap max_end_addr s
      else
        let! _ := protected_entry (entry_iters e) (base e / PAGE_SIZE) s in
        pmm_mark_protected mmap max_end_addr s
  end.

(** the pages of the bitmap itself are taken back *)
Fixpoint reserve_bitmap (n : nat) (idx : Z) (s : pmm) : res pmm :=
  match n with
  | O => Ok s
  | S n =>
      let! t := BITMAP_TEST idx s in
      let! s := if negb t then pmm_mark_used idx s else Ok s in
      reserve_bitmap n (idx + 1) s
  end.

(** the counter updates between the release and the reservation loop *)
Definition init_counters (bitmap_pages dont_touch lost : Z) (p : pmm_page) : pmm_page :=
  let usable1 := u64 (usable p - dont_touch) in
  let freed1 := u64 (freed p - dont_touch) in
  let usable2 := u64 (usable1 - lost) in
  let freed2 := u64 (freed1 - lost) in
  mk_page (total p) (none p) bitmap_pages usable2 (u64 (freed2 - bitmap_pages)).

Definition pmm_init_from_memmap (mmap : list pmm_memmap_entry) : res pmm :=
  let p := pmm_scan mmap in
  let! (max_entry, max_end_addr) := pmm_pick_max_entry mmap in
  let! (bitmap_pages, s) := pmm_install_bitmap max_entry max_end_addr p in
  let! (dont_touch, lost, s) := pmm_release_usable mmap 0 0 s in
  let s := with_page (init_counters bitmap_pages dont_touch lost (page s)) s in
  let! s := reserve_bitmap (Z.to_nat bitmap_pages) (base max_entry / PAGE_SIZE) s in
  let! _ := pmm_mark_protected mmap max_end_addr s in
  Ok s.

(** ** The set of used pages and the invariant *)

Definition used (s : pmm) (i : Z) : bool :=
  match pmm_bitmap s !! bbyte i with
  | Some b => Z.testbit b (i mod 8)
  | None => true
  end.

Definition shape (s : pmm) : Prop :=
  0 <= pmm_total_pages s < 4503599627370496 /\
  Z.of_nat (length (pmm_bitmap s)) = (pmm_total_pages s + 7) / 8 /\
  Forall is_u8 (pmm_bitmap s).

(** the free pages among [i, i + n) *)
Fixpoint count_free (n : nat) (i : Z) (s : pmm) : Z :=
  match n with
  | O => 0
  | S n => (if used s i then 0 else 1) + count_free n (i + 1) s
  end.

Definition free_pages (s : pmm) : Z := count_free (Z.to_nat (pmm_total_pages s)) 0 s.

Definition wf (s : pmm) : Prop := shape s /\ freed (page s) = free_pages s.

(** [count] allocatable pages from [start] on *)
Definition free_run (s : pmm) (start count : Z) : Prop :=
  PMM_LOWMEM_PAGES <= start /\ start + count <= pmm_total_pages s /\
  forall i, start <= i < start + count -> used s i = false.

(** [s'] is [s] where the pages of [start, start + count) have the status [b] *)
Definition updated (s s' : pmm) (start count : Z) (b : bool) : Prop :=
  pmm_total_pages s' = pmm_total_pages s /\ page s' = page s /\
  forall j, 0 <= j -> used s' j = if (start <=? j) && (j <? start + count) then b else used s j.

(** ** Bits *)

Lemma land_bit b k : 0 <= k -> negb (Z.land b (Z.shiftl 1 k) =? 0) = Z.testbit b k.
Proof.
  intros Hk. rewrite Z.shiftl_1_l. destruct (Z.testbit b k) eqn:E.
  - destruct (Z.eqb_spec (Z.land b (2 ^ k)) 0) as [H |]; [| done].
    assert (Hb : Z.testbit (Z.land b (2 ^ k)) k = false) by (rewrite H; apply Z.testbit_0_l).
    rewrite Z.land_spec, E, Z.pow2_bits_true in Hb by lia. done.
  - apply negb_false_iff, Z.eqb_eq, Z.bits_inj'. intros n Hn.
    rewrite Z.land_spec, Z.testbit_0_l, Z.pow2_bits_eqb by lia.
    destruct (Z.eqb_spec k n) as [<- |]; [by rewrite E | apply andb_false_r].
Qed.

Lemma u8_bits z m : 0 <= m < 8 -> Z.testbit (u8 z) m = Z.testbit z m.
Proof. intros Hm. unfold u8. change 256 with (2 ^ 8). apply Z.mod_pow2_bits_low. lia. Qed.

Lemma lor_mask_bit b k m :
  0 <= k -> 0 <= m < 8 ->
  Z.testbit (u8 (Z.lor b (Z.shiftl 1 k))) m = if m =? k then true else Z.testbit b m.
Proof.
  intros Hk Hm. rewrite u8_bits, Z.lor_spec, Z.shiftl_1_l, Z.pow2_bits_eqb, Z.eqb_sym by lia.
  destruct (Z.eqb_spec m k); [apply orb_true_r | apply orb_false_r].
Qed.

Lemma land_mask_bit b k m :
  0 <= k -> 0 <= m < 8 ->
  Z.testbit (u8 (Z.land b (Z.lnot (Z.shiftl 1 k)))) m = if m =? k then false else Z.testbit b m.
Proof.
  intros Hk Hm.
  rewrite u8_bits, Z.land_spec, Z.lnot_spec, Z.shiftl_1_l, Z.pow2_bits_eqb, Z.eqb_sym by lia.
  destruct (Z.eqb_spec m k); [apply andb_false_r | apply andb_true_r].
Qed.

Lemma u8_is_u8 z : is_u8 (u8 z).
Proof. apply Z.mod_pos_bound. lia. Qed.

Lemma byte_ext a b :
  is_u8 a -> is_u8 b -> (forall m, 0 <= m < 8 -> Z.testbit a m = Z.testbit b m) -> a = b.
Proof.
  intros Ha Hb H. rewrite <- (Z.mod_small a 256), <- (Z.mod_small b 256) by done.
  change 256 with (2 ^ 8). apply Z.bits_inj'. intros n Hn.
  destruct (Z.ltb_spec n 8).
  - rewrite !Z.mod_pow2_bits_low by lia. apply H. lia.
  - rewrite !Z.mod_pow2_bits_high by lia. done.
Qed.

(** ** The bitmap macros against [used] *)

Lemma shape_byte s i :
  shape s -> 0 <= i < pmm_total_pages s -> exists b, pmm_bitmap s !! bbyte i = Some b /\ is_u8 b.
Proof.
  intros (Ht & Hl & HF) Hi. destruct (lookup_lt_is_Some_2 (pmm_bitmap s) (bbyte i)) as [b Hb].
  - unfold bbyte. zlia.
  - exists b. split; [done |]. by eapply Forall_lookup_1.
Qed.

Lemma test_used s i :
  shape s -> 0 <= i < pmm_total_pages s -> BITMAP_TEST i s = Ok (used s i).
Proof.
  intros Hs Hi. destruct (shape_byte s i Hs Hi) as (b & Hb & _).
  unfold BITMAP_TEST, used, bmask. rewrite Hb. f_equal. apply land_bit. zlia.
Qed.

(** replacing the byte of page [i] changes the pages of that byte only *)
Lemma used_insert s i j b v :
  0 <= i -> 0 <= j -> pmm_bitmap s !! bbyte i = Some b ->
  used (with_bitmap (<[bbyte i := v]> (pmm_bitmap s)) s) j =
    if j / 8 =? i / 8 then Z.testbit v (j mod 8) else used s j.
Proof.
  intros Hi Hj Hb. unfold used. simpl.
  destruct (Z.eqb_spec (j / 8) (i / 8)) as [E | E].
  - replace (bbyte j) with (bbyte i) by (unfold bbyte; congruence).
    rewrite list_lookup_insert_eq; [done |]. by eapply lookup_lt_Some.
  - rewrite list_lookup_insert_ne; [done |]. unfold bbyte. zlia.
Qed.

Lemma shape_insert s k v : shape s -> is_u8 v -> shape (with_bitmap (<[k := v]> (pmm_bitmap s)) s).
Proof.
  intros (Ht & Hl & HF) Hv. split_and!; simpl; [lia | lia | by rewrite length_insert |].
  by apply Forall_insert.
Qed.

Lemma same_byte_bit i j : j / 8 = i / 8 -> (j mod 8 =? i mod 8) = (j =? i).
Proof. intros E. destruct (Z.eqb_spec j i), (Z.eqb_spec (j mod 8) (i mod 8)); zlia. Qed.

Lemma bitmap_set_ok s i :
  shape s -> 0 <= i < pmm_total_pages s ->
  exists s', BITMAP_SET i s = Ok s' /\ shape s' /\ updated s s' i 1 true.
Proof.
  intros Hs Hi. destruct (shape_byte s i Hs Hi) as (b & Hb & _).
  unfold BITMAP_SET. rewrite Hb. eexists. split; [done |].
  split; [apply shape_insert; [done | apply u8_is_u8] |].
  split_and!; [done | done |]. intros j Hj. erewrite used_insert by (done || lia).
  unfold bmask. destruct (Z.eqb_spec (j / 8) (i / 8)) as [E |].
  - rewrite lor_mask_bit, same_byte_bit by (done || zlia).
    destruct (Z.eqb_spec j i) as [-> |]; zbool; simpl; try lia; try done.
    all: unfold used, bbyte; rewrite E; unfold bbyte in Hb; rewrite Hb; done.
  - zbool; simpl; try lia; try done. exfalso. apply n. f_equal. lia.
Qed.

Lemma bitmap_clear_ok s i :
  shape s -> 0 <= i < pmm_total_pages s ->
  exists s', BITMAP_CLEAR i s = Ok s' /\ shape s' /\ updated s s' i 1 false.
Proof.
  intros Hs Hi. destruct (shape_byte s i Hs Hi) as (b & Hb & _).
  unfold BITMAP_CLEAR. rewrite Hb. eexists. split; [done |].
  split; [apply shape_insert; [done | apply u8_is_u8] |].
  split_and!; [done | done |]. intros j Hj. erewrite used_insert by (done || lia).
  unfold bmask. destruct (Z.eqb_spec (j / 8) (i / 8)) as [E |].
  - rewrite land_mask_bit, same_byte_bit by (done || zlia).
    destruct (Z.eqb_spec j i) as [-> |]; zbool; simpl; try lia; try done.
    all: unfold used, bbyte; rewrite E; unfold bbyte in Hb; rewrite Hb; done.
  - zbool; simpl; try lia; try done. exfalso. apply n. f_equal. lia.
Qed.

(** ** Counting *)

Lemma count_free_app n m i s :
  count_free (n + m) i s = count_free n i s + count_free m (i + Z.of_nat n) s.
Proof.
  revert i. induction n as [| n IH]; intros i; simpl.
  - by rewrite Z.add_0_r.
  - rewrite IH. replace (i + 1 + Z.of_nat n) with (i + Z.of_nat (S n)) by lia. lia.
Qed.

Lemma count_free_ext n i s s' :
  (forall j, i <= j < i + Z.of_nat n -> used s' j = used s j) -> count_free n i s' = count_free n i s.
Proof.
  revert i. induction n as [| n IH]; intros i H; simpl; [done |].
  rewrite H, IH by (try intros; try apply H; lia). done.
Qed.

Lemma free_pages_with_page p s : free_pages (with_page p s) = free_pages s.
Proof. apply count_free_ext. done. Qed.

Lemma count_free_const n i s b :
  (forall j, i <= j < i + Z.of_nat n -> used s j = b) ->
  count_free n i s = if b then 0 else Z.of_nat n.
Proof.
  revert i. induction n as [| n IH]; intros i H; simpl; [by destruct b |].
  rewrite H, IH by (try intros; try apply H; lia). destruct b; lia.
Qed.

Lemma count_free_bounds n i s : 0 <= count_free n i s <= Z.of_nat n.
Proof.
  revert i. induction n as [| n IH]; intros i; simpl; [lia |].
  specialize (IH (i + 1)). destruct (used s i); lia.
Qed.

(** changing the status of a uniform run moves the count by its length *)
Lemma free_pages_updated s s' start count b :
  0 <= start -> 0 <= count -> start + count <= pmm_total_pages s ->
  (forall i, start <= i < start + count -> used s i = negb b) ->
  updated s s' start count b ->
  free_pages s' = free_pages s + if b then - count else count.
Proof.
  intros H0 H1 H2 Hrun (Ht & _ & Hu). unfold free_pages. rewrite Ht.
  replace (Z.to_nat (pmm_total_pages s)) with
    (Z.to_nat start + (Z.to_nat count + Z.to_nat (pmm_total_pages s - start - count)))%nat by lia.
  rewrite !count_free_app.
  rewrite (count_free_ext (Z.to_nat start) 0 s s').
  2: { intros j Hj. rewrite Hu by lia. zbool; simpl; done || lia. }
  rewrite (count_free_ext (Z.to_nat (pmm_total_pages s - start - count)) _ s s').
  2: { intros j Hj. rewrite Hu by lia. zbool; simpl; done || lia. }
  rewrite (count_free_const (Z.to_nat count) _ s' b).
  2: { intros j Hj. rewrite Hu by lia. zbool; simpl; done || lia. }
  rewrite (count_free_const (Z.to_nat count) _ s (negb b)).
  2: { intros j Hj. apply Hrun. lia. }
  destruct b; simpl; lia.
Qed.

Lemma updated_free_run s start count :
  free_run s start count -> 0 <= count -> 0 <= free_pages s - count.
Proof.
  intros (H1 & H2 & H3) Hc. unfold free_pages. unfold PMM_LOWMEM_PAGES in H1. simpl in H1.
  assert (0 <= start) by (unfold PMM_LOWMEM_LIMIT, PAGE_SIZE in H1; zlia).
  replace (Z.to_nat (pmm_total_pages s)) with
    (Z.to_nat start + (Z.to_nat count + Z.to_nat (pmm_total_pages s - start - count)))%nat by lia.
  rewrite !count_free_app, (count_free_const (Z.to_nat count) _ s false).
  2: { intros j Hj. apply H3. lia. }
  pose proof (count_free_bounds (Z.to_nat start) 0 s).
  pose proof (count_free_bounds (Z.to_nat (pmm_total_pages s - start - count))
    (0 + Z.of_nat (Z.to_nat start) + Z.of_nat (Z.to_nat count)) s).
  lia.
Qed.

(** ** Loops over a run *)

Lemma updated_nil s i b : updated s s i 0 b.
Proof. split_and!; [done | done |]. intros j Hj. zbool; simpl; done || lia. Qed.

Lemma updated_step s s1 s2 i n b :
  0 <= n -> updated s s1 i 1 b -> updated s1 s2 (i + 1) n b -> updated s s2 i (n + 1) b.
Proof.
  intros Hn (T1 & P1 & U1) (T2 & P2 & U2). split_and!; [congruence | congruence |].
  intros j Hj. rewrite U2, U1 by done. zbool; simpl; done || lia.
Qed.

Lemma set_run_ok n s i :
  shape s -> 0 <= i -> i + Z.of_nat n <= pmm_total_pages s ->
  exists s', set_run n i s = Ok s' /\ shape s' /\ updated s s' i (Z.of_nat n) true.
Proof.
  revert s i. induction n as [| n IH]; intros s i Hs Hi Hn.
  - exists s. split_and!; [done | done | apply updated_nil].
  - destruct (bitmap_set_ok s i Hs) as (s1 & E1 & Hs1 & U1); [lia |].
    destruct (IH s1 (i + 1) Hs1) as (s2 & E2 & Hs2 & U2); [lia | rewrite (proj1 U1); lia |].
    exists s2. simpl. rewrite E1. simpl. rewrite u64_small by (destruct Hs; red; lia).
    split_and!; [done | done |]. rewrite Nat2Z.inj_succ. by apply updated_step with s1; [lia | |].
Qed.

Lemma free_run_loop_ok n s i :
  shape s -> 0 <= i -> i + Z.of_nat n <= pmm_total_pages s ->
  (forall j, i <= j < i + Z.of_nat n -> used s j = true) ->
  exists s', free_run_loop n i s = Ok s' /\ shape s' /\ updated s s' i (Z.of_nat n) false.
Proof.
  revert s i. induction n as [| n IH]; intros s i Hs Hi Hn Hu.
  - exists s. split_and!; [done | done | apply updated_nil].
  - destruct (bitmap_clear_ok s i Hs) as (s1 & E1 & Hs1 & U1); [lia |].
    destruct (IH s1 (i + 1) Hs1) as (s2 & E2 & Hs2 & U2); [lia | rewrite (proj1 U1); lia | |].
    { intros j Hj. destruct U1 as (_ & _ & U1). rewrite U1, Hu by lia. zbool; simpl; done || lia. }
    exists s2. simpl. rewrite test_used, Hu by (done || lia). simpl. rewrite E1. simpl.
    rewrite u64_small by (destruct Hs; red; lia).
    split_and!; [done | done |]. rewrite Nat2Z.inj_succ. by apply updated_step with s1; [lia | |].
Qed.

(** a run that contains a free page is refused *)
Lemma free_run_loop_double n s i j :
  shape s -> 0 <= i -> i + Z.of_nat n <= pmm_total_pages s ->
  i <= j < i + Z.of_nat n -> used s j = false -> free_run_loop n i s = Panic.
Proof.
  revert s i. induction n as [| n IH]; intros s i Hs Hi Hn Hj Hu; [lia |].
  simpl. rewrite test_used by (done || lia). simpl.
  destruct (used s i) eqn:Ei; simpl; [| done].
  destruct (bitmap_clear_ok s i Hs) as (s1 & E1 & Hs1 & U1 & _ & U2); [lia |].
  rewrite E1. simpl. rewrite u64_small by (destruct Hs; red; lia).
  assert (i <> j) by congruence.
  apply IH; [done | lia | lia | lia |]. rewrite U2, Hu by lia. zbool; simpl; done || lia.
Qed.

(** ** First fit *)

Definition allocatable (s : pmm) (i : Z) : bool := negb (used s i) && pmm_idx_safe i s.

Lemma free_run_iff s x count :
  1 <= count ->
  free_run s x count <-> (forall i, x <= i < x + count -> allocatable s i = true).
Proof.
  intros Hc. unfold free_run, allocatable, pmm_idx_safe. split.
  - intros (H1 & H2 & H3) i Hi. rewrite H3 by lia. zbool; simpl; done || lia.
  - intros H.
    assert (Hs : forall i, x <= i < x + count ->
      used s i = false /\ PMM_LOWMEM_PAGES <= i < pmm_total_pages s).
    { intros i Hi. specialize (H i Hi). destruct (used s i); [done |]. zbool; simpl in *; done. }
    split_and!; [apply (Hs x); lia | | intros i Hi; by apply Hs].
    assert (x + count - 1 < pmm_total_pages s) by (apply Hs; lia). lia.
Qed.

(** the states of the loop: [cnt] pages before [i] are allocatable, and no run
    starts before them *)
Lemma find_run_loop_ok n s i st cnt count :
  shape s -> 1 <= count -> 0 <= i -> i + Z.of_nat n = pmm_total_pages s ->
  0 <= cnt < count -> (0 < cnt -> st = i - cnt) ->
  (forall j, i - cnt <= j < i -> allocatable s j = true) ->
  (forall x, x < i - cnt -> ~ free_run s x count) ->
  exists r, find_run_loop n i st cnt count s = Ok r /\
    match r with
    | Some x => free_run s x count /\ forall y, y < x -> ~ free_run s y count
    | None => forall y, ~ free_run s y count
    end.
Proof.
  intros Hs Hc. revert i st cnt.
  induction n as [| n IH]; intros i st cnt Hi Hn Hcnt Hst Hrun Hno; simpl.
  { eexists. split; [done |]. simpl. intros y Hy.
    destruct (decide (y < i - cnt)); [by apply (Hno y) |]. destruct Hy as (_ & ? & _). lia. }
  rewrite test_used by (done || lia). simpl.
  fold (allocatable s i). destruct (allocatable s i) eqn:Ei.
  - destruct (Z.leb_spec count (cnt + 1)).
    + eexists. split; [done |]. simpl.
      replace (if cnt =? 0 then i else st) with (i - cnt)
        by (destruct (Z.eqb_spec cnt 0); lia).
      split; [| exact Hno]. apply free_run_iff; [done |]. intros j Hj.
      destruct (decide (j = i)) as [-> |]; [done | apply Hrun; lia].
    + apply IH; try lia.
      * intros _. destruct (Z.eqb_spec cnt 0); lia.
      * intros j Hj. destruct (decide (j = i)) as [-> |]; [done | apply Hrun; lia].
      * intros x Hx. apply Hno. lia.
  - apply IH; try lia. intros x Hx.
    destruct (decide (x < i - cnt)); [apply Hno; lia |].
    rewrite free_run_iff by done. intros H. rewrite H in Ei by lia. done.
Qed.

Lemma pmm_find_run_ok s count :
  shape s -> 1 <= count ->
  exists r, pmm_find_run 0 (pmm_total_pages s) count s = Ok r /\
    match r with
    | Some x => free_run s x count /\ forall y, y < x -> ~ free_run s y count
    | None => forall y, ~ free_run s y count
    end.
Proof.
  intros Hs Hc. apply find_run_loop_ok; try done; try lia.
  - destruct Hs. lia.
  - intros x Hx (H & _). unfold PMM_LOWMEM_PAGES, PMM_LOWMEM_LIMIT, PAGE_SIZE in H. zlia.
Qed.

(** ** Operations against the set of used pages *)

Lemma lowmem_pages : PMM_LOWMEM_PAGES = 256.
Proof. reflexivity. Qed.

(** [alloc_result s count a s']: [a] is the first run of [count] allocatable
    pages, now used, or NULL when there is none *)
Definition alloc_result (s : pmm) (count a : Z) (s' : pmm) : Prop :=
  (exists start, a = start * PAGE_SIZE /\ free_run s start count /\
     (forall y, y < start -> ~ free_run s y count) /\
     pmm_total_pages s' = pmm_total_pages s /\
     page s' = set_freed (freed (page s) - count) (page s) /\
     (forall j, 0 <= j ->
        used s' j = if (start <=? j) && (j <? start + count) then true else used s j)) \/
  (a = 0 /\ s' = s /\ forall y, ~ free_run s y count).

Lemma pmm_alloc_run_ok s count :
  wf s -> 1 <= count ->
  exists a s', pmm_alloc_run count s = Ok (a, s') /\ wf s' /\ alloc_result s count a s'.
Proof.
  intros [Hs Hf] Hc. unfold pmm_alloc_run.
  destruct (pmm_find_run_ok s count Hs Hc) as (r & -> & Hr). simpl.
  destruct r as [start |]; [| exists 0, s; split_and!; [done | done | right; done]].
  destruct Hr as [Hr Hleast]. pose proof Hr as (Hlo & Hhi & Hall). rewrite lowmem_pages in Hlo.
  pose proof (updated_free_run s start count Hr) as Hge.
  destruct (set_run_ok (Z.to_nat count) s start Hs) as (s1 & E1 & Hs1 & U1); [lia | lia |].
  rewrite Z2Nat.id in U1 by lia.
  pose proof (free_pages_updated s s1 start count true ltac:(lia) ltac:(lia) Hhi Hall U1) as Hfp.
  destruct U1 as (T1 & P1 & U1). rewrite E1. simpl.
  assert (Hb : 0 <= free_pages s <= pmm_total_pages s).
  { destruct Hs. pose proof (count_free_bounds (Z.to_nat (pmm_total_pages s)) 0 s).
    unfold free_pages. lia. }
  assert (Ha : u64 (start * PAGE_SIZE) = start * PAGE_SIZE).
  { apply u64_small. destruct Hs. red. unfold PAGE_SIZE. lia. }
  assert (Hfr : u64 (freed (page s1) - count) = freed (page s) - count).
  { rewrite P1, Hf. apply u64_small. destruct Hs. red. lia. }
  eexists _, _. split; [done |]. split.
  - split; [done |]. unfold pmm_account_alloc. rewrite free_pages_with_page. simpl. rewrite Hfr, Hfp, Hf. lia.
  - left. exists start. split_and!; try done. simpl. by rewrite Hfr, P1.
Qed.

Lemma pmm_free_ok s addr :
  wf s -> addr mod PAGE_SIZE = 0 -> 0 < addr -> addr / PAGE_SIZE < pmm_total_pages s ->
  used s (addr / PAGE_SIZE) = true ->
  exists s', pmm_free addr s = Ok s' /\ wf s' /\
    pmm_total_pages s' = pmm_total_pages s /\
    page s' = set_freed (freed (page s) + 1) (page s) /\
    (forall j, 0 <= j -> used s' j = if j =? addr / PAGE_SIZE then false else used s j).
Proof.
  intros [Hs Hf] Hal Hpos Hlt Hu. unfold pmm_free, PAGE_SIZE in *.
  change (4096 - 1) with (Z.ones 12). rewrite Z.land_ones by lia. change (2 ^ 12) with 4096.
  rewrite Hal. destruct (Z.eqb_spec addr 0); [lia |]. simpl.
  destruct (Z.leb_spec (pmm_total_pages s) (addr / 4096)); [lia |].
  assert (0 <= addr / 4096) by zlia.
  rewrite test_used, Hu by (done || lia). simpl.
  destruct (bitmap_clear_ok s (addr / 4096) Hs) as (s1 & E1 & Hs1 & U1); [lia |].
  assert (Hfp : free_pages s1 = free_pages s + 1).
  { apply (free_pages_updated s s1 (addr / 4096) 1 false); try done; try lia.
    intros i Hi. replace i with (addr / 4096) by lia. done. }
  destruct U1 as (T1 & P1 & U1). rewrite E1. simpl.
  pose proof (count_free_bounds (Z.to_nat (pmm_total_pages s1)) 0 s1).
  assert (Hfr : u64 (freed (page s1) + 1) = freed (page s) + 1).
  { rewrite P1, Hf. unfold free_pages in Hfp |- *. apply u64_small. destruct Hs1. red. lia. }
  eexists. split; [done |]. split_and!; try done.
  - split; [done |]. unfold pmm_account_free. rewrite free_pages_with_page. simpl. rewrite Hfr, Hfp, Hf. lia.
  - unfold pmm_account_free. simpl. by rewrite Hfr, P1.
  - intros j Hj. transitivity (used s1 j); [done |]. rewrite U1 by done. zbool; simpl; done || lia.
Qed.

Lemma free_pages_le s : shape s -> 0 <= free_pages s <= pmm_total_pages s.
Proof.
  intros Hs. destruct Hs. pose proof (count_free_bounds (Z.to_nat (pmm_total_pages s)) 0 s).
  unfold free_pages. lia.
Qed.

Lemma pmm_free_pages_ok s ptr count :
  wf s -> 0 < ptr -> 1 <= count -> ptr / PAGE_SIZE + count <= pmm_total_pages s ->
  (forall j, ptr / PAGE_SIZE <= j < ptr / PAGE_SIZE + count -> used s j = true) ->
  exists s', pmm_free_pages ptr count s = Ok s' /\ wf s' /\
    pmm_total_pages s' = pmm_total_pages s /\
    page s' = set_freed (freed (page s) + count) (page s) /\
    (forall j, 0 <= j -> used s' j =
       if (ptr / PAGE_SIZE <=? j) && (j <? ptr / PAGE_SIZE + count) then false else used s j).
Proof.
  intros [Hs Hf] Hp Hc Hhi Hu. unfold pmm_free_pages.
  assert (0 <= ptr / PAGE_SIZE) by (unfold PAGE_SIZE; zlia).
  destruct (Z.eqb_spec ptr 0); [lia |]. destruct (Z.eqb_spec count 0); [lia |]. simpl.
  rewrite u64_small by (destruct Hs; red; lia).
  destruct (Z.leb_spec (pmm_total_pages s) (ptr / PAGE_SIZE)); [lia |].
  destruct (Z.ltb_spec (pmm_total_pages s) (ptr / PAGE_SIZE + count)); [lia |].
  destruct (free_run_loop_ok (Z.to_nat count) s (ptr / PAGE_SIZE) Hs) as (s1 & E1 & Hs1 & U1);
    [lia | lia | intros j Hj; apply Hu; lia |].
  rewrite Z2Nat.id in U1 by lia.
  pose proof (free_pages_updated s s1 (ptr / PAGE_SIZE) count false ltac:(lia) ltac:(lia) Hhi Hu U1) as Hfp. simpl in Hfp.
  destruct U1 as (T1 & P1 & U1). rewrite E1. simpl.
  pose proof (free_pages_le s1 Hs1).
  assert (Hfr : u64 (freed (page s1) + count) = freed (page s) + count).
  { rewrite P1, Hf. apply u64_small. destruct Hs1. red. lia. }
  eexists. split; [done |]. split_and!; try done.
  - split; [done |]. unfold pmm_account_free. rewrite free_pages_with_page. simpl.
    rewrite Hfr, Hfp, Hf. lia.
  - unfold pmm_account_free. simpl. by rewrite Hfr, P1.
Qed.

(** a state is determined by its counters and the status of every page *)
Lemma state_ext s s' :
  shape s -> shape s' -> pmm_total_pages s' = pmm_total_pages s -> page s' = page s ->
  (forall j, 0 <= j -> used s' j = used s j) -> s' = s.
Proof.
  intros (_ & L & F) (_ & L' & F') T P U. destruct s as [b t p], s' as [b' t' p']; simpl in *.
  subst. f_equal. apply list_eq_same_length with (length b); [done | apply Nat2Z.inj; congruence |].
  intros i x y Hi Hx Hy.
  apply byte_ext; [exact (Forall_lookup_1 _ _ _ _ F' Hx) | exact (Forall_lookup_1 _ _ _ _ F Hy) |].
  intros m Hm. specialize (U (Z.of_nat i * 8 + m)). unfold used, bbyte in U. simpl in U.
  replace ((Z.of_nat i * 8 + m) / 8) with (Z.of_nat i) in U by zlia.
  replace ((Z.of_nat i * 8 + m) mod 8) with m in U by zlia.
  rewrite Nat2Z.id, Hx, Hy in U. apply U. lia.
Qed.

(** a range that passes the check only because [start + count] wrapped ends in
    a panic or an access outside the bitmap, never in a return *)
Lemma free_run_loop_overrun n s i s' :
  shape s -> 0 <= i <= 8 * Z.of_nat (length (pmm_bitmap s)) ->
  8 * Z.of_nat (length (pmm_bitmap s)) < i + Z.of_nat n ->
  free_run_loop n i s <> Ok s'.
Proof.
  revert s i. induction n as [| n IH]; intros s i Hs Hi Hn; [lia |]. simpl.
  unfold BITMAP_TEST. destruct (pmm_bitmap s !! bbyte i) as [b |] eqn:Hb; simpl; [| done].
  destruct (negb (negb (Z.land b (bmask i) =? 0))); [done |].
  unfold BITMAP_CLEAR. rewrite Hb. simpl.
  assert (Hlt : i < 8 * Z.of_nat (length (pmm_bitmap s))).
  { apply lookup_lt_Some in Hb. unfold bbyte in Hb. zlia. }
  pose proof Hs as (Ht & Hl & _). rewrite u64_small by (red; zlia).
  apply IH; [by apply shape_insert, u8_is_u8 | |]; simpl; rewrite length_insert; lia.
Qed.

(** ** Clients: allocations held by the rest of the kernel *)

Abbreviation live := (list (Z * Z)).

Inductive client_step : pmm * live -> pmm * live -> Prop :=
  | step_alloc s L count a s' :
      1 <= count -> pmm_alloc_pages count s = Ok (a, s') -> a <> 0 ->
      client_step (s, L) (s', (a, count) :: L)
  | step_alloc_fail s L count s' :
      1 <= count -> pmm_alloc_pages count s = Ok (0, s') -> client_step (s, L) (s', L)
  | step_free s L1 L2 a count s' :
      pmm_free_pages a count s = Ok s' ->
      client_step (s, L1 ++ (a, count) :: L2) (s', L1 ++ L2).

Definition holds (p : Z * Z) (i : Z) : Prop :=
  p.1 / PAGE_SIZE <= i < p.1 / PAGE_SIZE + p.2.

Fixpoint held (L : live) : Z :=
  match L with
  | [] => 0
  | (_, count) :: L => count + held L
  end.

(** a held allocation: page-aligned, above 1 MiB, inside the bitmap, used *)
Definition live_ok (s : pmm) (p : Z * Z) : Prop :=
  p.1 mod PAGE_SIZE = 0 /\ PMM_LOWMEM_LIMIT <= p.1 /\ 1 <= p.2 /\
  p.1 / PAGE_SIZE + p.2 <= pmm_total_pages s /\
  forall i, holds p i -> used s i = true.

Definition apart (p q : Z * Z) : Prop := forall i, holds p i -> ~ holds q i.

Definition disjoint_live (L : live) : Prop := pairwise apart L.

Definition client_inv (F : Z) (st : pmm * live) : Prop :=
  wf st.1 /\ Forall (live_ok st.1) st.2 /\ disjoint_live st.2 /\
  freed (page st.1) + held st.2 = F.

Lemma alloc_pages_ok s count :
  wf s -> 1 <= count ->
  exists a s', pmm_alloc_pages count s = Ok (a, s') /\ wf s' /\ alloc_result s count a s'.
Proof.
  intros Hw Hc. unfold pmm_alloc_pages. destruct (Z.eqb_spec count 0); [lia |].
  by apply pmm_alloc_run_ok.
Qed.

Lemma apart_sym p q : apart p q <-> apart q p.
Proof. unfold apart. split; intros H i H1 H2; exact (H i H2 H1). Qed.

Lemma disjoint_live_middle L1 p L2 :
  disjoint_live (L1 ++ p :: L2) <-> Forall (apart p) (L1 ++ L2) /\ disjoint_live (L1 ++ L2).
Proof. apply pairwise_middle. intros a b. by rewrite apart_sym. Qed.

Lemma held_middle L1 a count L2 : held (L1 ++ (a, count) :: L2) = count + held (L1 ++ L2).
Proof. induction L1 as [| [b c] L1 IH]; simpl; lia. Qed.

Lemma live_ok_mono s s' p :
  pmm_total_pages s' = pmm_total_pages s ->
  (forall i, holds p i -> used s i = true -> used s' i = true) ->
  live_ok s p -> live_ok s' p.
Proof.
  intros T U (H1 & H2 & H3 & H4 & H5). split_and!; try done; [lia |]. intros i Hi. auto.
Qed.

Lemma live_pages_pos s p i : live_ok s p -> holds p i -> 0 <= i.
Proof.
  intros (_ & H & _) [Hi _]. unfold PMM_LOWMEM_LIMIT, PAGE_SIZE in *. zlia.
Qed.

(** an allocation that succeeds is disjoint from everything held *)
Lemma client_alloc F s L count a s' :
  client_inv F (s, L) -> 1 <= count -> wf s' -> a <> 0 -> alloc_result s count a s' ->
  client_inv F (s', (a, count) :: L).
Proof.
  intros (Hw & HL & Hd & HF) Hc Hw' Ha Hr. simpl in *.
  destruct Hr as [(start & -> & Hfree & _ & T & P & U) | (Ha0 & _)]; [| congruence].
  destruct Hfree as (Hlo & Hhi & Hall). rewrite lowmem_pages in Hlo.
  assert (Hdiv : start * PAGE_SIZE / PAGE_SIZE = start) by (unfold PAGE_SIZE; zlia).
  split_and!; simpl; [done | | |].
  - constructor.
    + unfold live_ok, holds. simpl. rewrite Hdiv. split_and!; try lia.
      * unfold PAGE_SIZE. zlia.
      * unfold PMM_LOWMEM_LIMIT, PAGE_SIZE. lia.
      * intros i Hi. rewrite U by lia. zbool; simpl; done || lia.
    + apply (Forall_impl _ _ _ HL). intros p Hp. apply (live_ok_mono s s' p T); [| done].
      intros i Hi Hu. rewrite U by (by eapply live_pages_pos). by split_if.
  - split; [| done]. apply (Forall_impl _ _ _ HL). intros p Hp i Hi Hi'.
    destruct Hp as (_ & _ & _ & _ & Hp). specialize (Hp i Hi'). red in Hi. simpl in Hi.
    rewrite Hdiv in Hi. rewrite Hall in Hp by lia. done.
  - rewrite P. simpl. lia.
Qed.

(** releasing a held allocation succeeds and leaves the others alone *)
Lemma client_free F s L1 L2 a count :
  client_inv F (s, L1 ++ (a, count) :: L2) ->
  exists s', pmm_free_pages a count s = Ok s' /\ client_inv F (s', L1 ++ L2).
Proof.
  intros (Hw & HL & Hd & HF). simpl in *.
  rewrite disjoint_live_middle in Hd. destruct Hd as [Hap Hd]. rewrite held_middle in HF.
  rewrite Forall_app, Forall_cons in HL. destruct HL as (HL1 & Ha & HL2).
  assert (HL : Forall (live_ok s) (L1 ++ L2)) by (by apply Forall_app). clear HL1 HL2.
  destruct Ha as (Hal & Hlo & Hc & Hhi & Hu). simpl in *.
  destruct (pmm_free_pages_ok s a count) as (s' & E & Hw' & T & P & U); try done.
  { unfold PMM_LOWMEM_LIMIT in Hlo. lia. }
  exists s'. split; [done |]. split_and!; simpl; try done.
  - rewrite Forall_forall in HL, Hap |- *. intros p Hp.
    apply (live_ok_mono s s' p T); [| by apply HL]. intros i Hi Hui.
    rewrite U by (eapply live_pages_pos; [by apply (HL p) | done]).
    split_if; [| done]. exfalso. apply (Hap p Hp i); [| done]. red. simpl. zbool; done || lia.
  - rewrite P. simpl. lia.
Qed.

Lemma client_step_inv F st st' : client_inv F st -> client_step st st' -> client_inv F st'.
Proof.
  intros Hi Hst. inversion Hst as [s L count a s' Hc E Ha | s L count s' Hc E | s L1 L2 a count s' E];
    subst.
  - destruct (alloc_pages_ok s count) as (a1 & s1 & E1 & Hw1 & Hr); [apply Hi | done |].
    rewrite E in E1. injection E1 as <- <-. by eapply client_alloc.
  - destruct (alloc_pages_ok s count) as (a1 & s1 & E1 & Hw1 & Hr); [apply Hi | done |].
    rewrite E in E1. injection E1 as <- <-.
    destruct Hr as [(start & Ha & (Hlo & _) & _) | (_ & -> & _)]; [| done].
    exfalso. rewrite lowmem_pages in Hlo. unfold PAGE_SIZE in Ha. lia.
  - destruct (client_free F s L1 L2 a count Hi) as (s1 & E1 & Hi1).
    rewrite E in E1. by injection E1 as <-.
Qed.

Lemma client_inv_rtc F st st' : rtc client_step st st' -> client_inv F st -> client_inv F st'.
Proof. induction 1; [done |]. eauto using client_step_inv. Qed.

(** ** Initialisation *)

(** what the boot protocol promises of the map: regions below 2^51, usable
    regions made of whole pages and overlapping no other region *)
Definition is_usable (e : pmm_memmap_entry) : bool := type e =? PMM_MEMMAP_USABLE.

Definition entry_ok (e : pmm_memmap_entry) : Prop :=
  0 <= base e /\ 0 <= elength e /\ base e + elength e <= 2251799813685248 /\
  (is_usable e = true -> base e mod PAGE_SIZE = 0 /\ elength e mod PAGE_SIZE = 0).

Definition entry_has (e : pmm_memmap_entry) (b : Z) : Prop :=
  base e <= b < base e + elength e.

Definition entries_apart (e e' : pmm_memmap_entry) : Prop :=
  is_usable e || is_usable e' = true -> forall b, entry_has e b -> ~ entry_has e' b.

Definition memmap_apart (mmap : list pmm_memmap_entry) : Prop := pairwise entries_apart mmap.

Definition first_page (e : pmm_memmap_entry) : Z := base e / PAGE_SIZE.
Definition pages (e : pmm_memmap_entry) : Z := elength e / PAGE_SIZE.

(** page [x] belongs to a usable region of the map *)
Definition in_usable (mmap : list pmm_memmap_entry) (x : Z) : bool :=
  existsb (fun e => is_usable e && (first_page e <=? x) && (x <? first_page e + pages e)) mmap.

(** the pages of [p, p + n) below 1 MiB *)
Definition low (p n : Z) : Z := Z.max 0 (Z.min n (PMM_LOWMEM_PAGES - p)).

Fixpoint usable_pages (mmap : list pmm_memmap_entry) : Z :=
  match mmap with
  | [] => 0
  | e :: mmap => (if is_usable e then pages e else 0) + usable_pages mmap
  end.

Fixpoint low_pages (mmap : list pmm_memmap_entry) : Z :=
  match mmap with
  | [] => 0
  | e :: mmap => (if is_usable e then low (first_page e) (pages e) else 0) + low_pages mmap
  end.

Lemma release_entry_ok n s e j d l p :
  shape s -> base e + j = p * PAGE_SIZE -> 0 <= p -> p + Z.of_nat n <= pmm_total_pages s ->
  (forall x, p <= x < p + Z.of_nat n -> used s x = true) ->
  exists s', release_entry n j e d l s = Ok (d + low p (Z.of_nat n), l, s') /\ shape s' /\
    pmm_total_pages s' = pmm_total_pages s /\ page s' = page s /\
    (forall x, 0 <= x -> used s' x =
       used s x && negb ((p <=? x) && (x <? p + Z.of_nat n) && (PMM_LOWMEM_PAGES <=? x))) /\
    free_pages s' = free_pages s + Z.of_nat n - low p (Z.of_nat n).
Proof.
  revert s j d p. induction n as [| n IH]; intros s j d p Hs Hj Hp Hn Hu.
  { exists s. simpl. unfold low. split_and!; try done.
    - do 3 f_equal. rewrite lowmem_pages. lia.
    - intros x Hx. zbool; simpl; try lia; by rewrite andb_true_r.
    - rewrite lowmem_pages. lia. }
  cbn [release_entry]. rewrite u64_small by (destruct Hs; red; unfold PAGE_SIZE in *; lia).
  replace ((base e + j) / PAGE_SIZE) with p by (rewrite Hj; unfold PAGE_SIZE; zlia).
  destruct (Z.leb_spec (pmm_total_pages s) p); [lia |].
  assert (Hj' : base e + (j + PAGE_SIZE) = (p + 1) * PAGE_SIZE) by lia.
  rewrite Hj. destruct (Z.ltb_spec (p * PAGE_SIZE) PMM_LOWMEM_LIMIT) as [Hlow | Hhigh];
    unfold PMM_LOWMEM_LIMIT, PAGE_SIZE in *.
  - destruct (IH s (j + 4096) (d + 1) (p + 1)) as (s' & E & Hs' & T & P & U & C);
      try done; try lia; [intros; apply Hu; lia |].
    exists s'. rewrite E. unfold low in *. rewrite lowmem_pages in *. split_and!; try done; try lia.
    + do 3 f_equal. lia.
    + intros x Hx. rewrite U by done. f_equal. f_equal. zbool; simpl; done || lia.
  - unfold pmm_mark_free. destruct (Z.leb_spec (pmm_total_pages s) p); [lia |].
    destruct (bitmap_clear_ok s p Hs) as (s1 & E1 & Hs1 & U1); [lia |]. rewrite E1. simpl.
    assert (C1 : free_pages s1 = free_pages s + 1).
    { apply (free_pages_updated s s1 p 1 false); try done; try lia. intros; apply Hu; lia. }
    destruct U1 as (T1 & P1 & U1).
    destruct (IH s1 (j + 4096) d (p + 1)) as (s' & E & Hs' & T & P & U & C); try done; try lia.
    { intros x Hx. rewrite U1, Hu by lia. zbool; simpl; done || lia. }
    exists s'. rewrite E. unfold low in *. rewrite lowmem_pages in *.
    split_and!; try done; try lia; try congruence.
    + do 3 f_equal. lia.
    + intros x Hx. rewrite U, U1 by done. zbool; simpl; rewrite ?andb_false_r, ?andb_true_r; done || lia.
Qed.

Lemma iters_usable e : entry_ok e -> is_usable e = true -> Z.of_nat (entry_iters e) = pages e.
Proof.
  intros (H1 & H2 & H3 & H4) Hu. destruct (H4 Hu) as [_ H5]. unfold entry_iters, pages, PAGE_SIZE in *.
  zlia.
Qed.

Lemma usable_page_bytes e x b :
  entry_ok e -> is_usable e = true -> first_page e <= x < first_page e + pages e ->
  x * PAGE_SIZE <= b < x * PAGE_SIZE + PAGE_SIZE -> entry_has e b.
Proof.
  intros (H1 & H2 & H3 & H4) Hu Hx Hb. destruct (H4 Hu) as [H5 H6].
  unfold first_page, pages, entry_has, PAGE_SIZE in *. zlia.
Qed.

Lemma in_usable_apart e mmap x b :
  Forall entry_ok mmap -> Forall (entries_apart e) mmap -> entry_has e b -> x = b / PAGE_SIZE ->
  in_usable mmap x = false.
Proof.
  intros Hok Hap Hb Hx. unfold in_usable. apply not_true_is_false.
  rewrite existsb_exists. intros (e' & Hin & H). apply list_elem_of_In in Hin.
  rewrite !andb_true_iff, Z.leb_le, Z.ltb_lt in H. destruct H as [[Hu H1] H2].
  rewrite Forall_forall in Hok, Hap. refine (Hap e' Hin _ b Hb _); [by rewrite Hu, orb_true_r |].
  apply (usable_page_bytes e' x); auto. subst x. unfold PAGE_SIZE. zlia.
Qed.

Lemma in_usable_other e mmap x :
  entry_ok e -> is_usable e = true -> Forall entry_ok mmap -> Forall (entries_apart e) mmap ->
  in_usable mmap x = true -> (first_page e <=? x) && (x <? first_page e + pages e) = false.
Proof.
  intros He Eu Hok Hap Hx. apply not_true_is_false. rewrite andb_true_iff, Z.leb_le, Z.ltb_lt.
  intros Hin. apply not_false_iff_true in Hx. apply Hx.
  apply (in_usable_apart e mmap x (x * PAGE_SIZE)); try done.
  - apply (usable_page_bytes e x); try done. unfold PAGE_SIZE. lia.
  - unfold PAGE_SIZE. zlia.
Qed.

Lemma release_usable_ok mmap s d l :
  shape s -> Forall entry_ok mmap -> memmap_apart mmap ->
  (forall e, e ∈ mmap -> is_usable e = true -> first_page e + pages e <= pmm_total_pages s) ->
  (forall x, 0 <= x -> in_usable mmap x = true -> used s x = true) ->
  exists s', pmm_release_usable mmap d l s = Ok (d + low_pages mmap, l, s') /\ shape s' /\
    pmm_total_pages s' = pmm_total_pages s /\ page s' = page s /\
    (forall x, 0 <= x -> used s' x =
       used s x && negb (in_usable mmap x && (PMM_LOWMEM_PAGES <=? x))) /\
    free_pages s' = free_pages s + usable_pages mmap - low_pages mmap.
Proof.
  revert s d. induction mmap as [| e mmap IH]; intros s d Hs Hok Hap Htot Hu; simpl.
  { exists s. split_and!; try done; try lia.
    - by rewrite Z.add_0_r.
    - intros x _. by rewrite andb_true_r. }
  inversion Hok as [| ? ? He Hok']; subst. destruct Hap as [Hap Hap'].
  fold (is_usable e). destruct (is_usable e) eqn:Eu; simpl.
  2: { destruct (IH s d) as (s' & E & R); try done.
       - intros e' He'. apply Htot. by right.
       - intros x H0 Hx. apply Hu; [done |]. simpl. by rewrite Eu.
       - exists s'. rewrite E. split_and!; try done; apply R || (intros; by apply R). }
  pose proof (iters_usable e He Eu) as Hit. pose proof He as (Hb & Hl & _ & Hal).
  destruct (Hal Eu) as [Hal1 _].
  destruct (release_entry_ok (entry_iters e) s e 0 d l (first_page e))
    as (s1 & E1 & Hs1 & T1 & P1 & U1 & C1); try done; rewrite ?Hit in *.
  { unfold first_page, PAGE_SIZE in *. zlia. }
  { unfold first_page, PAGE_SIZE. zlia. }
  { apply Htot; [left | done]. }
  { intros x Hx. apply Hu; [unfold first_page, PAGE_SIZE in Hx; zlia |]. simpl. rewrite Eu. zbool; simpl; done || lia. }
  destruct (IH s1 (d + low (first_page e) (pages e))) as (s2 & E2 & Hs2 & T2 & P2 & U2 & C2);
    try done.
  { intros e' He' Hu'. rewrite T1. apply Htot; [by right | done]. }
  { intros x H0 Hx. rewrite U1, Hu by (done || simpl; rewrite ?Hx, ?orb_true_r; done).
    by rewrite (in_usable_other e mmap x). }
  exists s2. rewrite E1. simpl. rewrite E2.
  split_and!; try done; try lia; try congruence.
  { do 3 f_equal. lia. }
  intros x H0. rewrite U2, U1 by done. fold (first_page e) (pages e).
  destruct ((first_page e <=? x) && (x <? first_page e + pages e)), (in_usable mmap x),
    (used s x), (PMM_LOWMEM_PAGES <=? x); done.
Qed.

Lemma scan_fold mmap p :
  let q := fold_left pmm_scan_entry mmap p in
  u64 (usable q) = u64 (usable p + usable_pages mmap) /\ self q = self p.
Proof.
  revert p. induction mmap as [| e mmap IH]; intros p; simpl.
  { by rewrite Z.add_0_r. }
  destruct (IH (pmm_scan_entry p e)) as [-> ->]. unfold pmm_scan_entry.
  fold (is_usable e). destruct (is_usable e); simpl; [| done].
  split; [| done]. unfold pages, u64. rewrite Zplus_mod_idemp_l. f_equal. lia.
Qed.

Lemma pick_max_fold mmap me ml mend :
  (forall e, me = Some e -> is_usable e = true) -> Forall entry_ok mmap ->
  0 <= mend <= 2251799813685248 /\ mend mod PAGE_SIZE = 0 ->
  let '(me', _, mend') := fold_left pick_max_step mmap (me, ml, mend) in
  (forall e, me' = Some e -> is_usable e = true /\ (me = Some e \/ e ∈ mmap)) /\
  mend <= mend' <= 2251799813685248 /\ mend' mod PAGE_SIZE = 0 /\
  (forall e, e ∈ mmap -> is_usable e = true -> base e + elength e <= mend').
Proof.
  revert me ml mend. induction mmap as [| e mmap IH]; intros me ml mend Hme Hok Hm; simpl.
  { split_and!; try lia; try done; [intros e He; auto |]. intros e He. by inversion He. }
  inversion Hok as [| ? ? He Hok']; subst. fold (is_usable e).
  destruct (is_usable e) eqn:Eu; simpl.
  2: { specialize (IH me ml mend Hme Hok' Hm). destruct (fold_left _ _ _) as [[me' ml'] mend'].
       destruct IH as (I1 & I2 & I3 & I4). split_and!; try done; try lia.
       - intros e' He'. destruct (I1 e' He') as (? & [| Hin]); auto. split; [done |]. right. by right.
       - intros e' [-> | Hin]%elem_of_cons Hu; [congruence |]. by apply I4. }
  pose proof He as (Hb & Hl & Hmax & Hal). destruct (Hal Eu) as [Ha1 Ha2].
  rewrite u64_small by (red; lia).
  set (end_ := base e + elength e) in *.
  set (me1 := if ml <? elength e then (Some e, elength e) else (me, ml)).
  assert (Hme1 : forall e', me1.1 = Some e' -> is_usable e' = true /\ (me = Some e' \/ e' = e)).
  { unfold me1. intros e' He'. destruct (ml <? elength e); simpl in He'; [| auto].
    injection He' as <-. auto. }
  destruct me1 as [me2 ml2]. simpl in Hme1.
  specialize (IH me2 ml2 (if mend <? end_ then end_ else mend)).
  destruct (fold_left _ _ _) as [[me' ml'] mend'].
  destruct IH as (I1 & I2 & I3 & I4); [intros e' He'; by apply Hme1 | done | |].
  { unfold end_ in *. split; [zbool; lia |]. unfold PAGE_SIZE in *. zbool; zlia. }
  split_and!; try done; try (revert I2; zbool; lia).
  - intros e' He'. destruct (I1 e' He') as (Hu' & Hor). split; [done |].
    destruct Hor as [H2 | Hin]; [| right; by right].
    destruct (proj2 (Hme1 e' H2)) as [| ->]; [by left | right; left].
  - intros e' [-> | Hin]%elem_of_cons Hu; [| by apply I4]. unfold end_ in *. revert I2. zbool; lia.
Qed.

Lemma pick_max_ok mmap me mend :
  Forall entry_ok mmap -> pmm_pick_max_entry mmap = Ok (me, mend) ->
  me ∈ mmap /\ is_usable me = true /\ 0 <= mend <= 2251799813685248 /\ mend mod PAGE_SIZE = 0 /\
  (forall e, e ∈ mmap -> is_usable e = true -> base e + elength e <= mend).
Proof.
  intros Hok. unfold pmm_pick_max_entry.
  pose proof (pick_max_fold mmap None 0 0) as H.
  destruct (fold_left _ _ _) as [[me' ml'] mend']. destruct me' as [e |]; [| done].
  intros [= <- <-]. destruct H as (I1 & I2 & I3 & I4); try done.
  destruct (I1 e eq_refl) as (? & [|]); done.
Qed.

Lemma reserve_bitmap_ok n s i :
  shape s -> 0 <= i -> i + Z.of_nat n <= pmm_total_pages s ->
  exists s', reserve_bitmap n i s = Ok s' /\ shape s' /\ updated s s' i (Z.of_nat n) true.
Proof.
  revert s i. induction n as [| n IH]; intros s i Hs Hi Hn.
  - exists s. split_and!; [done | done | apply updated_nil].
  - assert (H1 : exists s1, (let! t := BITMAP_TEST i s in
        if negb t then pmm_mark_used i s else Ok s) = Ok s1 /\ shape s1 /\ updated s s1 i 1 true).
    { rewrite test_used by (done || lia). simpl. destruct (used s i) eqn:Eu; simpl.
      - exists s. split; [done |]. split; [done |]. split_and!; try done. intros j Hj.
        split_if; [| done]. replace j with i; [done |]. zbool; simpl in *; done || lia.
      - unfold pmm_mark_used. destruct (Z.leb_spec (pmm_total_pages s) i); [lia |].
        apply bitmap_set_ok; [done | lia]. }
    destruct H1 as (s1 & E1 & Hs1 & U1).
    destruct (IH s1 (i + 1) Hs1) as (s2 & E2 & Hs2 & U2); [lia | rewrite (proj1 U1); lia |].
    exists s2. rewrite test_used in E1 by (done || lia).
    cbn [reserve_bitmap]. rewrite test_used by (done || lia). cbn [res_bind] in *.
    rewrite E1. cbn [res_bind]. rewrite E2.
    split_and!; [done | done |]. rewrite Nat2Z.inj_succ. by apply updated_step with s1; [lia | |].
Qed.

Lemma protected_entry_ok n s i :
  shape s -> 0 <= i ->
  (forall x, i <= x < i + Z.of_nat n -> x < pmm_total_pages s -> used s x = true) ->
  protected_entry n i s = Ok tt.
Proof.
  revert i. induction n as [| n IH]; intros i Hs Hi Hu; [done |]. simpl.
  destruct (Z.leb_spec (pmm_total_pages s) i); [done |].
  rewrite test_used, Hu by (done || lia). simpl. apply IH; [done | lia |]. intros. apply Hu; lia.
Qed.

Lemma touched_byte e x :
  entry_ok e -> first_page e <= x < first_page e + Z.of_nat (entry_iters e) ->
  exists b, entry_has e b /\ x = b / PAGE_SIZE.
Proof.
  intros (H1 & H2 & _) Hx. exists (Z.max (base e) (x * PAGE_SIZE)).
  unfold entry_has, first_page, entry_iters, PAGE_SIZE in *. zlia.
Qed.

Lemma memmap_apart_elem mmap e e' b :
  memmap_apart mmap -> e ∈ mmap -> e' ∈ mmap -> is_usable e = false -> is_usable e' = true ->
  entry_has e b -> ~ entry_has e' b.
Proof.
  induction mmap as [| f mmap IH]; intros Hap He He' Hu Hu' Hb Hb'; [by inversion He |].
  destruct Hap as [Hf Hap]. rewrite Forall_forall in Hf.
  apply elem_of_cons in He as [-> | He], He' as [-> | He']; [congruence | | | by eapply IH].
  - by apply (Hf e' He' ltac:(by rewrite Hu', orb_true_r) b).
  - by apply (Hf e He ltac:(by rewrite Hu') b).
Qed.

(** no page of a region that is not usable belongs to a usable region *)
Lemma in_usable_reserved mmap e x :
  Forall entry_ok mmap -> memmap_apart mmap -> e ∈ mmap -> is_usable e = false ->
  first_page e <= x < first_page e + Z.of_nat (entry_iters e) -> in_usable mmap x = false.
Proof.
  intros Hok Hap He Hu Hx. pose proof Hok as Hok'. rewrite Forall_forall in Hok'.
  destruct (touched_byte e x (Hok' e He) Hx) as (b & Hb & ->).
  apply not_true_is_false. unfold in_usable. rewrite existsb_exists. intros (e' & Hin & H).
  apply list_elem_of_In in Hin. rewrite !andb_true_iff, Z.leb_le, Z.ltb_lt in H.
  destruct H as [[Hu' H1] H2].
  apply (memmap_apart_elem mmap e e' b Hap He Hin Hu Hu' Hb).
  apply (usable_page_bytes e' (b / PAGE_SIZE)); auto. unfold PAGE_SIZE. zlia.
Qed.

Lemma mark_protected_ok mmap s mend :
  shape s -> Forall entry_ok mmap ->
  (forall e x, e ∈ mmap -> is_usable e = false ->
     first_page e <= x < first_page e + Z.of_nat (entry_iters e) ->
     x < pmm_total_pages s -> used s x = true) ->
  pmm_mark_protected mmap mend s = Ok tt.
Proof.
  intros Hs Hok Hu. induction mmap as [| e mmap IH]; simpl; [done |].
  inversion Hok as [| ? ? He Hok']; subst.
  rewrite IH; [| done | intros e' x He'; apply Hu; by right].
  fold (is_usable e). split_if; [done |]. destruct (is_usable e) eqn:Eu; [done |].
  rewrite protected_entry_ok; [done | done | |].
  - destruct He. unfold PAGE_SIZE. zlia.
  - intros x Hx. apply (Hu e x); [left | done | done].
Qed.

(** the bitmap all ones *)
Lemma install_bitmap_ok me mend p bp s :
  0 <= mend <= 2251799813685248 -> pmm_install_bitmap me mend p = Ok (bp, s) ->
  shape s /\ pmm_total_pages s = (mend + 4095) / 4096 /\ page s = p /\
  bp = ((pmm_total_pages s + 7) / 8 + 4095) / 4096 /\ (pmm_total_pages s + 7) / 8 <= elength me /\
  forall j, 0 <= j -> used s j = true.
Proof.
  intros Hm. unfold pmm_install_bitmap, PAGE_SIZE. change (4096 - 1) with 4095.
  rewrite u64_small by (red; lia).
  destruct (Z.ltb_spec (elength me) (((mend + 4095) / 4096 + 7) / 8)); [done |].
  intros [= <- <-]. simpl. split_and!; try done.
  - split_and!; simpl; [zlia | zlia | rewrite length_replicate; zlia |].
    apply Forall_replicate. red. lia.
  - intros j Hj. unfold used. simpl. destruct (replicate _ _ !! bbyte j) as [b |] eqn:E; [| done].
    apply lookup_replicate in E as [-> _]. change 255 with (Z.ones 8).
    apply Z.ones_spec_low. zlia.
Qed.

Lemma all_used_none s : (forall j, 0 <= j -> used s j = true) -> free_pages s = 0.
Proof. intros H. apply (count_free_const _ 0 s true). intros j Hj. apply H. lia. Qed.

(** the page bound and the pages of an entry of the map *)
Lemma entry_in_bitmap e mend :
  entry_ok e -> is_usable e = true -> base e + elength e <= mend -> mend mod PAGE_SIZE = 0 ->
  first_page e + pages e <= (mend + 4095) / 4096.
Proof.
  intros (H1 & H2 & H3 & H4) Hu Hle Hm. destruct (H4 Hu).
  unfold first_page, pages, PAGE_SIZE in *. zlia.
Qed.

Lemma in_usable_elem mmap e x :
  e ∈ mmap -> is_usable e = true -> first_page e <= x < first_page e + pages e ->
  in_usable mmap x = true.
Proof.
  intros He Hu Hx. unfold in_usable. apply existsb_exists. exists e.
  split; [by apply list_elem_of_In |]. rewrite Hu. zbool; simpl; done || lia.
Qed.

(** the counters after the release pass, before the pages of the bitmap are
    marked used *)
Lemma init_counters_ok mmap bp d :
  let n := usable_pages mmap - d in
  0 <= bp <= n -> n < 4503599627370496 ->
  let p := init_counters bp d 0 (pmm_scan mmap) in
  self p = bp /\ usable p = n /\ freed p = n - bp.
Proof.
  intros n Hb Hn p. unfold p, init_counters. simpl.
  destruct (scan_fold mmap (mk_page 0 0 0 0 0)) as [Hu _]. simpl in Hu.
  assert (Hd : forall a b, u64 (u64 a - b) = u64 (a - b)).
  { intros a b. unfold u64. apply Zminus_mod_idemp_l. }
  assert (E : u64 (u64 (usable (fold_left pmm_scan_entry mmap (mk_page 0 0 0 0 0)) - d) - 0) = n).
  { rewrite Hd, Z.sub_0_r, <- Hd, Hu, Hd. apply u64_small. red. unfold n in *. lia. }
  unfold pmm_scan. simpl. rewrite E. split_and!; try done. apply u64_small. red. lia.
Qed.

(** marking the bitmap's pages: they lie in its region, hence were free *)
Lemma init_reserve_ok mmap s me bp :
  shape s ->
  (forall x, 0 <= x -> used s x = negb (in_usable mmap x && (PMM_LOWMEM_PAGES <=? x))) ->
  me ∈ mmap -> is_usable me = true -> 256 <= first_page me -> 0 <= bp <= pages me ->
  first_page me + pages me <= pmm_total_pages s ->
  exists s2, reserve_bitmap (Z.to_nat bp) (first_page me) s = Ok s2 /\ shape s2 /\
    pmm_total_pages s2 = pmm_total_pages s /\ page s2 = page s /\
    (forall x, 0 <= x -> used s2 x =
       negb (in_usable mmap x && (PMM_LOWMEM_PAGES <=? x)) ||
       (first_page me <=? x) && (x <? first_page me + bp)) /\
    free_pages s2 = free_pages s - bp.
Proof.
  intros Hs U1 Hme Hmu Hfp Hbp Hin.
  destruct (reserve_bitmap_ok (Z.to_nat bp) s (first_page me)) as (s2 & E2 & Hs2 & U2);
    [done | lia | lia |].
  rewrite Z2Nat.id in U2 by lia.
  pose proof (free_pages_updated s s2 (first_page me) bp true ltac:(lia) ltac:(lia) ltac:(lia)) as C2.
  assert (Hf1 : forall i, first_page me <= i < first_page me + bp -> used s i = false).
  { intros i Hi. rewrite U1, (in_usable_elem mmap me i), lowmem_pages by (done || lia).
    zbool; simpl; done || lia. }
  specialize (C2 Hf1 U2). destruct U2 as (T2 & P2 & U2).
  exists s2. split_and!; try done. intros x Hx. rewrite U2, U1 by done.
  split_if; simpl; [by rewrite orb_true_r | by rewrite orb_false_r].
Qed.

(** ** Theorems *)

(** initialisation. On a memory map as the boot protocol promises it, whose
    largest usable region starts at or above 1 MiB and is large enough for the
    bitmap, [pmm_init_from_memmap] returns (no self-check panics) with the
    allocator's invariant: a page is free exactly when it lies in a usable
    region, above 1 MiB and outside the bitmap; [freed] counts the free pages,
    and the usable pages that are not free are exactly those of the bitmap. *)
Lemma pmm_init_establishes mmap me mend :
  Forall entry_ok mmap -> memmap_apart mmap ->
  pmm_pick_max_entry mmap = Ok (me, mend) ->
  PMM_LOWMEM_LIMIT <= base me -> (mend / PAGE_SIZE + 7) / 8 <= elength me ->
  exists s, pmm_init_from_memmap mmap = Ok s /\ wf s /\
    pmm_total_pages s = mend / PAGE_SIZE /\
    (forall x, 0 <= x -> used s x =
       negb (in_usable mmap x && (PMM_LOWMEM_PAGES <=? x)) ||
       (first_page me <=? x) && (x <? first_page me + self (page s))) /\
    usable (page s) = usable_pages mmap - low_pages mmap /\
    usable (page s) - freed (page s) = self (page s).
Proof.
  intros Hok Hap Epick Hlo Hfit. pose proof Hok as Hok'. rewrite Forall_forall in Hok'.
  destruct (pick_max_ok _ _ _ Hok Epick) as (Hme & Hmu & Hm & Hmod & Hends).
  assert (Hceil : (mend + 4095) / 4096 = mend / 4096) by (unfold PAGE_SIZE in Hmod; zlia).
  unfold pmm_init_from_memmap. rewrite Epick. cbn [res_bind].
  destruct (pmm_install_bitmap me mend (pmm_scan mmap)) as [[bp s0] | |] eqn:E0.
  2,3: exfalso; revert E0; unfold pmm_install_bitmap, PAGE_SIZE in *; change (4096 - 1) with 4095;
    rewrite u64_small, Hceil by (red; lia); split_if; [zbool; lia | done].
  destruct (install_bitmap_ok _ _ _ _ _ Hm E0) as (Hs0 & T0 & P0 & Hbp & Hsz & U0).
  cbn [res_bind].
  destruct (release_usable_ok mmap s0 0 0 Hs0 Hok Hap) as (s1 & E1 & Hs1 & T1 & P1 & U1 & C1).
  { intros e He Hu. rewrite T0. apply entry_in_bitmap; auto. }
  { intros x H0 _. by apply U0. }
  rewrite E1. cbn [res_bind]. rewrite (all_used_none s0 U0) in C1.
  pose proof (Hok' me Hme) as Hmeok. pose proof Hmeok as (Hb & Hl & _ & Hal).
  destruct (Hal Hmu) as [Hal1 Hal2].
  assert (Hbp' : 0 <= bp <= pages me) by (unfold pages, PAGE_SIZE in *; zlia).
  assert (Hfp : 256 <= first_page me)
    by (unfold first_page, PMM_LOWMEM_LIMIT, PAGE_SIZE in *; zlia).
  pose proof (entry_in_bitmap me mend Hmeok Hmu (Hends me Hme Hmu) Hmod) as Hin.
  set (s1' := with_page _ s1).
  destruct (init_reserve_ok mmap s1' me bp) as (s2 & E2 & Hs2 & T2 & P2 & U2 & C2); try done.
  { intros x Hx. transitivity (used s1 x); [done |]. by rewrite U1, U0. }
  { transitivity ((mend + 4095) / 4096); [done |]. simpl. lia. }
  assert (Cs1 : free_pages s1' = free_pages s1) by apply free_pages_with_page. rewrite Cs1 in C2.
  unfold first_page in E2. rewrite E2. cbn [res_bind].
  pose proof (free_pages_le s1 Hs1). pose proof (free_pages_le s2 Hs2). destruct Hs1 as [Hs1 _].
  destruct (init_counters_ok mmap bp (low_pages mmap)) as (I1 & I2 & I3); [lia | lia |].
  assert (Pf : page s2 = init_counters bp (low_pages mmap) 0 (pmm_scan mmap)).
  { rewrite P2. simpl. by rewrite P1, P0. }
  rewrite mark_protected_ok; [| done | done |].
  2: { intros e x He Hu Hx Hxt. pose proof (Hok' e He) as (Hbe & _).
       rewrite U2 by (unfold first_page, PAGE_SIZE in Hx; zlia).
       by rewrite (in_usable_reserved mmap e x Hok Hap He Hu Hx). }
  exists s2. rewrite Pf, I1, I2, I3. split_and!; try done; [| | lia].
  - split; [done |]. rewrite Pf, I3. lia.
  - rewrite T2. simpl. by rewrite T1, T0, Hceil.
Qed.

Definition ex_memmap : list pmm_memmap_entry :=
  [mk_entry 0 651264 0; mk_entry 654336 1024 1; mk_entry 983040 65536 1; mk_entry 1048576 1048576 0].

Lemma pmm_init_establishes_witness :
  exists s, pmm_init_from_memmap ex_memmap = Ok s /\ wf s /\
    usable (page s) - freed (page s) = self (page s).
Proof.
  destruct (pmm_init_establishes ex_memmap (mk_entry 1048576 1048576 0) 2097152) as (s & H).
  - repeat constructor; simpl; lia || reflexivity || discriminate.
  - unfold ex_memmap, memmap_apart, pairwise.
    repeat (split || constructor); intros _ b; unfold entry_has; simpl; lia.
  - vm_compute. reflexivity.
  - vm_compute. discriminate.
  - vm_compute. discriminate.
  - exists s. tauto.
Defined.

(** allocation is first fit. [pmm_alloc_pages] always returns; when the
    request is for at least one page it returns the lowest run of that many
    contiguous free pages at or above 1 MiB, marks exactly those pages used and
    subtracts them from [freed]; it returns NULL, with the state unchanged,
    exactly when no such run exists. The invariant is kept in both cases. *)
Lemma pmm_alloc_pages_first_fit s count :
  wf s -> 1 <= count ->
  exists a s', pmm_alloc_pages count s = Ok (a, s') /\ wf s' /\ alloc_result s count a s' /\
    (a = 0 <-> forall start, ~ free_run s start count).
Proof.
  intros Hw Hc. destruct (alloc_pages_ok s count Hw Hc) as (a & s' & E & Hw' & Hr).
  exists a, s'. split_and!; try done. destruct Hr as [(start & -> & Hf & _) | (-> & _ & Hno)].
  - split.
    + intros Ha. destruct Hf as [Hlo _]. rewrite lowmem_pages in Hlo. unfold PAGE_SIZE in Ha. lia.
    + intros Hno. by destruct (Hno start).
  - done.
Qed.

(** a state of 264 pages with pages 257, 258 and 260 to 263 free *)
Definition ex_pmm : pmm :=
  mk_pmm (replicate 32 255 ++ [9]) 264 (mk_page 264 0 1 7 6).

Lemma ex_pmm_wf : wf ex_pmm.
Proof.
  split; [| vm_compute; reflexivity]. split_and!; try (vm_compute; congruence).
  unfold ex_pmm. simpl. repeat constructor; vm_compute; congruence.
Defined.

Lemma pmm_alloc_pages_first_fit_witness :
  exists a s', pmm_alloc_pages 3 ex_pmm = Ok (a, s') /\ wf s' /\ alloc_result ex_pmm 3 a s' /\
    a = 260 * 4096.
Proof.
  destruct (pmm_alloc_pages_first_fit ex_pmm 3) as (a & s' & E & Hw & Hr & _).
  - exact ex_pmm_wf.
  - lia.
  - exists a, s'. split_and!; try assumption. vm_compute in E. injection E as <- _. reflexivity.
Defined.

(** release of one page, every branch. [pmm_free] ignores NULL, panics on
    an address that is not page-aligned, lies outside the bitmap or names a
    free page (double free), and otherwise frees exactly that page, counts it
    in [freed] and keeps the invariant. *)
Lemma pmm_free_behaviour s addr :
  wf s -> 0 <= addr ->
  if addr =? 0 then pmm_free addr s = Ok s
  else if (addr mod PAGE_SIZE =? 0) && (addr / PAGE_SIZE <? pmm_total_pages s) &&
          used s (addr / PAGE_SIZE)
  then exists s', pmm_free addr s = Ok s' /\ wf s' /\
         freed (page s') = freed (page s) + 1 /\
         (forall j, 0 <= j -> used s' j = if j =? addr / PAGE_SIZE then false else used s j)
  else pmm_free addr s = Panic.
Proof.
  intros Hw Ha. destruct (Z.eqb_spec addr 0) as [-> |]; [done |].
  destruct (Z.eqb_spec (addr mod PAGE_SIZE) 0) as [Hal | Hal]; simpl.
  2: { unfold pmm_free, PAGE_SIZE in *. change (4096 - 1) with (Z.ones 12).
       rewrite Z.land_ones by lia. change (2 ^ 12) with 4096.
       zbool; simpl; done || lia. }
  destruct (Z.ltb_spec (addr / PAGE_SIZE) (pmm_total_pages s)) as [Hlt | Hge]; simpl.
  - destruct (used s (addr / PAGE_SIZE)) eqn:Eu.
    + destruct (pmm_free_ok s addr Hw Hal ltac:(lia) Hlt Eu) as (s' & E & Hw' & _ & P & U).
      exists s'. rewrite P. done.
    + unfold pmm_free. rewrite test_used, Eu by (try apply Hw; unfold PAGE_SIZE in *; zlia).
      zbool; simpl; try lia; by destruct (Z.land addr (PAGE_SIZE - 1) =? 0).
  - unfold pmm_free. zbool; simpl; try lia; by destruct (Z.land addr (PAGE_SIZE - 1) =? 0).
Qed.

Lemma pmm_free_behaviour_witness :
  pmm_free (257 * 4096) ex_pmm = Panic /\
  exists s', pmm_free (256 * 4096) ex_pmm = Ok s' /\ wf s' /\ freed (page s') = 7.
Proof.
  pose proof (pmm_free_behaviour ex_pmm (257 * 4096) ex_pmm_wf ltac:(lia)) as H1.
  pose proof (pmm_free_behaviour ex_pmm (256 * 4096) ex_pmm_wf ltac:(lia)) as H2.
  split; [exact H1 |]. destruct H2 as (s' & E & Hw & Hf & _).
  exists s'. split_and!; [exact E | exact Hw | exact Hf].
Defined.

(** allocation and release are inverse. Releasing with [pmm_free_pages] a
    run just obtained from [pmm_alloc_pages] restores the allocator's state
    bit for bit, counters included. *)
Lemma pmm_alloc_free_roundtrip s count a s' :
  wf s -> 1 <= count -> pmm_alloc_pages count s = Ok (a, s') -> a <> 0 ->
  pmm_free_pages a count s' = Ok s.
Proof.
  intros Hw Hc E Ha. destruct (alloc_pages_ok s count Hw Hc) as (a1 & s1 & E1 & Hw' & Hr).
  rewrite E in E1. injection E1 as <- <-.
  destruct Hr as [(start & -> & (Hlo & Hhi & Hall) & _ & T & P & U) | (? & _)]; [| done].
  rewrite lowmem_pages in Hlo.
  assert (Hdiv : start * PAGE_SIZE / PAGE_SIZE = start) by (unfold PAGE_SIZE; zlia).
  destruct (pmm_free_pages_ok s' (start * PAGE_SIZE) count) as (s2 & E2 & Hw2 & T2 & P2 & U2);
    rewrite ?Hdiv in *; try done.
  { unfold PAGE_SIZE. lia. }
  { lia. }
  { intros j Hj. rewrite U by lia. zbool; simpl; done || lia. }
  rewrite E2. f_equal. apply state_ext; [apply Hw | apply Hw2 | congruence | |].
  - rewrite P2, P. destruct (page s). unfold set_freed. simpl. f_equal. lia.
  - intros j Hj. rewrite U2, U by done. split_if; [| done]. rewrite Hall; [done |].
    zbool; simpl in *; done || lia.
Qed.

Lemma pmm_alloc_free_roundtrip_witness :
  exists s', pmm_alloc_pages 2 ex_pmm = Ok (257 * 4096, s') /\
    pmm_free_pages (257 * 4096) 2 s' = Ok ex_pmm.
Proof.
  eexists. split; [vm_compute; reflexivity |].
  apply (pmm_alloc_free_roundtrip ex_pmm 2).
  - exact ex_pmm_wf.
  - lia.
  - vm_compute. reflexivity.
  - discriminate.
Defined.

(** C1: no page is ever owned twice. From any state that satisfies the
    invariant, after any sequence of allocations and releases of held runs, the
    runs held are page-aligned, above 1 MiB, pairwise disjoint and marked used,
    [freed] plus the held pages is constant, every further allocation returns,
    and releasing any held run succeeds (no double-free or range panic). *)
Theorem pmm_clients_safe s0 s L :
  wf s0 -> rtc client_step (s0, []) (s, L) ->
  Forall (live_ok s) L /\ disjoint_live L /\
  freed (page s) + held L = freed (page s0) /\
  (forall count, 1 <= count -> exists a s', pmm_alloc_pages count s = Ok (a, s')) /\
  (forall a count, (a, count) ∈ L -> exists s', pmm_free_pages a count s = Ok s').
Proof.
  intros Hw Hr.
  assert (Hi : client_inv (freed (page s0)) (s, L)).
  { apply (client_inv_rtc _ _ _ Hr). split_and!; simpl; try done. lia. }
  split_and!; try apply Hi.
  - intros count Hc. destruct (alloc_pages_ok s count) as (a & s' & E & _); [apply Hi | done |].
    by exists a, s'.
  - intros a count Hin. apply list_elem_of_split in Hin as (L1 & L2 & ->).
    destruct (client_free _ s L1 L2 a count Hi) as (s' & E & _). by exists s'.
Qed.

Lemma pmm_clients_safe_witness :
  let s := mk_pmm (replicate 32 255 ++ [127]) 264 (mk_page 264 0 1 7 1) in
  rtc client_step (ex_pmm, []) (s, [(260 * 4096, 3); (257 * 4096, 2)]) /\
  disjoint_live [(260 * 4096, 3); (257 * 4096, 2)].
Proof.
  intros s. assert (Hr : rtc client_step (ex_pmm, []) (s, [(260 * 4096, 3); (257 * 4096, 2)])).
  - eapply rtc_l; [eapply (step_alloc _ _ 2); [lia | vm_compute; reflexivity | discriminate] |].
    eapply rtc_l; [eapply (step_alloc _ _ 3); [lia | vm_compute; reflexivity | discriminate] |].
    apply rtc_refl.
  - split; [exact Hr |]. exact (proj1 (proj2 (pmm_clients_safe ex_pmm s _ ex_pmm_wf Hr))).
Defined.

(** an overflowing range is never released. When [start + count] wraps
    around 2^64 the range check of [pmm_free_pages] can pass, but the call does
    not return: the loop meets a free page and panics, or runs off the bitmap. *)
Lemma pmm_free_pages_overflow s ptr count s' :
  wf s -> 0 < ptr < 18446744073709551616 -> 0 < count < 18446744073709551616 ->
  18446744073709551616 <= ptr / PAGE_SIZE + count ->
  pmm_free_pages ptr count s <> Ok s'.
Proof.
  intros [Hs _] Hp Hc Hov. unfold pmm_free_pages.
  assert (0 <= ptr / PAGE_SIZE < 4503599627370496) by (unfold PAGE_SIZE; zlia).
  pose proof Hs as (Ht & Hl & _).
  destruct ((ptr =? 0) || (count =? 0)) eqn:E0; [zbool; simpl in *; done || lia |].
  destruct (Z.leb_spec (pmm_total_pages s) (ptr / PAGE_SIZE)); [done |].
  split_if; [done |].
  destruct (free_run_loop (Z.to_nat count) (ptr / PAGE_SIZE) s) as [s1 | |] eqn:E1; try done.
  exfalso. revert E1. apply free_run_loop_overrun; [done | |]; zlia.
Qed.

Lemma pmm_free_pages_overflow_witness :
  ~ exists s', pmm_free_pages (256 * 4096) 18446744073709551615 ex_pmm = Ok s'.
Proof.
  intros [s' E]. revert E. apply pmm_free_pages_overflow.
  - exact ex_pmm_wf.
  - lia.
  - lia.
  - vm_compute. discriminate.
Defined.
