(* ===== verification/Alloc.v ===== *)
(** * The allocator interface

    What the clients of kmalloc and kfree (src/kernel/heap.h) rely on, as a
    class: [live a L] says that exactly the blocks [L] (address, requested
    size) are allocated in the allocator state [a].  Heap.v gives the instance
    for the kernel heap; Vma.v and the other clients are proved against the
    class. *)

From S2P Require Import Prelude.

Class Allocator (A : Type) := {
  kmalloc : Z -> A -> res (Z * A);
  kfree : Z -> A -> res A;
  live : A -> list (Z * Z) -> Prop;
  live_perm a L L' : L ≡ₚ L' -> live a L -> live a L';
  (** an allocation returns NULL and changes nothing, or adds a block that
      overlaps none *)
  kmalloc_live a L sz : live a L -> 0 <= sz <= UINT64_MAX ->
    exists p a', kmalloc sz a = Ok (p, a') /\
      (p = 0 /\ live a' L \/ 0 < p <= UINT64_MAX - sz /\ live a' ((p, sz) :: L));
  (** an allocated block can be released *)
  kfree_live a L p sz : live a ((p, sz) :: L) -> exists a', kfree p a = Ok a' /\ live a' L;
  kfree_null a : kfree 0 a = Ok a;
  (** allocated blocks of positive size have different addresses *)
  live_nodup a L : live a L -> Forall (fun x => 0 < x.2) L -> NoDup L.*1
}.
