(* ===== verification/PageAlloc.v ===== *)
(** * The page allocator interface

    What the page tables and the memory system calls rely on of
    [kernel/pmm.c], as a class: [held p F] says that the frames [F] are
    allocated, by these clients, in the allocator state [p].  The instance is
    the bitmap allocator of Pmm.v. *)

From stdpp Require Import base list.
From S2P Require Import Prelude Pmm.

(** a page frame: its physical address, page-aligned and below 2^47, the bound that
    [vmm_get_phys] puts on the root of a space *)
Definition frame (a : Z) : Prop := 0 < a < 140737488355328 /\ a mod 4096 = 0.

Class PageAllocator (P : Type) := {
  page_alloc : P -> res (Z * P);
  page_free : Z -> P -> res P;
  pages_free : Z -> Z -> P -> res P;
  held : P -> list Z -> Prop;
  held_perm p F F' : F ≡ₚ F' -> held p F -> held p F';
  (** an allocation fails without effect, or yields a frame nobody holds *)
  page_alloc_held p F : held p F ->
    exists a p', page_alloc p = Ok (a, p') /\ (a = 0 /\ p' = p \/ frame a /\ (a ∉ F) /\ held p' (a :: F));
  (** a frame that is held can be released *)
  page_free_held p a F : held p (a :: F) -> exists p', page_free a p = Ok p' /\ held p' F;
  (** releasing a null pointer changes nothing *)
  page_free_null p : page_free 0 p = Ok p;
  held_frames p F : held p F -> NoDup F /\ Forall frame F
}.

(** ** The instance *)

Definition singles (F : list Z) : list (Z * Z) := map (fun a => (a, 1)) F.

Definition pmm_held (s : pmm) (F : list Z) : Prop :=
  pmm_total_pages s <= 34359738368 /\ exists tot, client_inv tot (s, singles F).

Lemma singles_perm F F' : F ≡ₚ F' -> singles F ≡ₚ singles F'.
Proof. apply Permutation_map. Qed.

Lemma held_perm_live L L' : L ≡ₚ L' -> Pmm.held L = Pmm.held L'.
Proof. induction 1 as [| [a c] | [a c] [b d] |]; simpl; lia. Qed.

Lemma frames_inv_perm tot s L L' : L ≡ₚ L' -> client_inv tot (s, L) -> client_inv tot (s, L').
Proof.
  intros P (Hw & HL & Hd & HF). split_and!; simpl in *; [done | by rewrite <- P | | by rewrite <- (held_perm_live L L')].
  clear HL HF. induction P as [| x l l' P IH | x y l | l1 l2 l3 P1 IH1 P2 IH2]; [done | | | auto].
  - destruct Hd as [Hx Hd]. split; [by rewrite <- P | exact (IH Hd)].
  - destruct Hd as [Hy [Hx Hd]]. apply Forall_cons in Hy as [Hyx Hy].
    split; [constructor; [by apply apart_sym | done] | split; done].
Qed.

Lemma live_frame s a : pmm_total_pages s <= 34359738368 -> live_ok s (a, 1) -> frame a.
Proof.
  intros HT (H1 & H2 & _ & H4 & _). simpl in *. unfold PMM_LOWMEM_LIMIT, PAGE_SIZE in *. split; [zlia | done].
Qed.

Lemma apart_single a b : apart (a, 1) (b, 1) -> a <> b.
Proof.
  intros H ->. apply (H (b / PAGE_SIZE)); unfold holds; simpl; lia.
Qed.

Lemma pmm_held_frames s F : pmm_held s F -> NoDup F /\ Forall frame F.
Proof.
  intros [HT (tot & Hw & HL & Hd & _)]. simpl in *. unfold singles in *. rewrite Forall_map in HL. split.
  - clear HL. induction F as [| a F IH]; [constructor |]. destruct Hd as [Ha Hd]. constructor; [| auto].
    intros Hin. rewrite Forall_map, Forall_forall in Ha. by apply (apart_single a a (Ha a Hin)).
  - eapply Forall_impl; [exact HL |]. intros a Ha. by apply (live_frame s).
Qed.

Lemma pmm_page_alloc_held s F : pmm_held s F ->
  exists a s', pmm_alloc s = Ok (a, s') /\ (a = 0 /\ s' = s \/ frame a /\ (a ∉ F) /\ pmm_held s' (a :: F)).
Proof.
  intros [HT (tot & Hi)]. destruct (pmm_alloc_run_ok s 1) as (a & s' & E & Hw & R); [apply Hi | lia |].
  exists a, s'. split; [exact E |]. pose proof R as [(start & Ha & (Hlo & _) & _ & HT' & _) | (-> & -> & _)]; [right | by left].
  assert (a <> 0) by (rewrite lowmem_pages in Hlo; unfold PAGE_SIZE in Ha; lia).
  assert (HH : pmm_held s' (a :: F)).
  { split; [lia |]. exists tot. by apply (client_alloc tot s (singles F) 1 a s'). }
  pose proof (pmm_held_frames s' (a :: F) HH) as [HN HF].
  apply NoDup_cons in HN as [HN _]. apply Forall_cons in HF as [HF _]. done.
Qed.

Lemma pmm_page_free_held s a F : pmm_held s (a :: F) -> exists s', pmm_free a s = Ok s' /\ pmm_held s' F.
Proof.
  intros [HT (tot & Hw & HL & Hd & HF)]. simpl in *. apply Forall_cons in HL as [Ha HL]. destruct Hd as [Hap Hd].
  destruct Ha as (Hal & Hlo & _ & Hhi & Hu). simpl in *.
  destruct (pmm_free_ok s a) as (s' & E & Hw' & T & P & U); [done | done | unfold PMM_LOWMEM_LIMIT in Hlo; lia | lia | |].
  { apply Hu. unfold holds. simpl. lia. }
  exists s'. split; [done |]. split; [lia |]. exists tot. split_and!; simpl; [done | | done | rewrite P; simpl; lia].
  rewrite Forall_forall in HL, Hap |- *. intros p Hp. apply (live_ok_mono s s' p T); [| by apply HL].
  intros i Hi Hui. rewrite U by (eapply live_pages_pos; [by apply (HL p) | done]).
  destruct (Z.eqb_spec i (a / PAGE_SIZE)) as [-> |]; [| done].
  exfalso. apply (Hap p Hp (a / PAGE_SIZE)); [unfold holds; simpl; lia | done].
Qed.

#[export, refine] Instance pmm_allocator : PageAllocator pmm := {|
  page_alloc := pmm_alloc; page_free := pmm_free; pages_free := pmm_free_pages; held := pmm_held |}.
Proof.
  - intros s F F' P [HT (tot & Hi)]. split; [done |]. exists tot.
    eapply frames_inv_perm; [by apply singles_perm | done].
  - exact pmm_page_alloc_held.
  - exact pmm_page_free_held.
  - done.
  - exact pmm_held_frames.
Defined.

(** ** Frames held for others

    The same allocator, seen by a client while the frames [D] are held by
    other clients. *)
Section Reserve.
Context {P : Type} (PA : PageAllocator P) (D : list Z).

#[refine] Definition reserve : PageAllocator P := {|
  page_alloc := page_alloc; page_free := page_free; pages_free := pages_free;
  held p F := held p (F ++ D) |}.
Proof.
  - intros p F F' HP. apply held_perm. by rewrite HP.
  - intros p F H. destruct (page_alloc_held p (F ++ D) H) as (a & p' & E & R). exists a, p'. split; [done |].
    destruct R as [R | (Hf & Hn & Hp)]; [by left | right]. split; [done |]. split; [| done].
    intros Ha. apply Hn, elem_of_app. by left.
  - intros p a F. apply (page_free_held p a (F ++ D)).
  - apply page_free_null.
  - intros p F H. destruct (held_frames p (F ++ D) H) as [HN HF]. apply NoDup_app in HN as (HN & _ & _).
    apply Forall_app in HF as [HF _]. done.
Defined.
End Reserve.
