(* ===== verification/Vmm.v ===== *)
(** * Page tables ([kernel/vmm.c], [kernel/vmm.h], [kernel/arch/x86_64/vmm_arch.h])

    Physical memory holding page tables is a function from a frame address and
    an index to a 64-bit word.  The kernel reaches it through the direct map
    ([kernel/hhdm.h]), so a table pointer is the table's physical address; an
    access through an address that is not a frame faults.  Frames come from the
    interface of PageAlloc.v.  Translation caches, locks and messages are not
    part of the state.

    The reference is [walk], the translation the processor performs.  The
    theorems: mapping changes the translation of one page and of no other,
    splitting of large pages included, and fails without any effect on
    translations; unmapping removes exactly one page; the kernel's own walkers
    agree with the processor's; new address spaces share the kernel half. *)

From stdpp Require Import base list.
From S2P Require Import Prelude Pmm PageAlloc.

(** ** Entries *)

Definition PTE_PRESENT : Z := 1.
Definition PTE_WRITABLE : Z := 2.
Definition PTE_USER : Z := 4.
Definition PTE_HUGE : Z := 128.
Definition PTE_NX : Z := 9223372036854775808.
Definition PTE_ADDR_MASK : Z := 4503599627366400.

Definition has (e bit : Z) : bool := negb (Z.land e bit =? 0).
Definition PTE_IS_LEAF (e : Z) : bool :=
  Z.land e (Z.lor PTE_PRESENT PTE_HUGE) =? Z.lor PTE_PRESENT PTE_HUGE.
Definition PTE_TABLE_USER_MASK (flags : Z) : Z := Z.land flags PTE_USER.
Definition addr_of (e : Z) : Z := Z.land e PTE_ADDR_MASK.

Definition PML4_IDX (v : Z) : Z := Z.land (Z.shiftr v 39) 511.
Definition PDPT_IDX (v : Z) : Z := Z.land (Z.shiftr v 30) 511.
Definition PD_IDX (v : Z) : Z := Z.land (Z.shiftr v 21) 511.
Definition PT_IDX (v : Z) : Z := Z.land (Z.shiftr v 12) 511.

(** ** The direct map ([kernel/hhdm.c], [kernel/hhdm.h]) *)

Definition hhdm_init (offset : Z) (state : option Z) : res (option Z) :=
  match state with
  | Some old => if old =? offset then Ok (Some offset) else Panic
  | None => Ok (Some offset)
  end.
Definition hhdm_offset (state : option Z) : res Z :=
  match state with Some o => Ok o | None => Panic end.
Definition phys_to_virt (state : option Z) (phys : Z) : res Z :=
  let! o := hhdm_offset state in Ok (u64 (phys + o)).
Definition virt_to_phys (state : option Z) (virt : Z) : res Z :=
  let! o := hhdm_offset state in Ok (u64 (virt - o)).

(** ** Memory *)

Abbreviation tables := (Z -> Z -> Z).

Definition set_word (m : tables) (t i w : Z) : tables :=
  fun t' i' => if (t' =? t) && (i' =? i) then w else m t' i'.
(** a whole frame: [f] gives the words *)
Definition set_frame (m : tables) (t : Z) (f : Z -> Z) : tables :=
  fun t' i' => if t' =? t then f i' else m t' i'.

Definition is_frame (t : Z) : bool := (0 <=? t) && (t <? 4503599627370496) && (t mod 4096 =? 0).
Definition get_word (m : tables) (t i : Z) : res Z := if is_frame t then Ok (m t i) else Fault.
Definition put_word (m : tables) (t i w : Z) : res tables := if is_frame t then Ok (set_word m t i w) else Fault.
(** [memset(phys_to_virt(t), 0, PAGE_SIZE)] *)
Definition clear_frame (m : tables) (t : Z) : res tables :=
  if is_frame t then Ok (set_frame m t (fun _ => 0)) else Fault.

(** ** Walks that only read *)

(** [~0xFFF], [~0x3FFFFFFF] and [~0x1FFFFF] as 64-bit masks *)
Definition MASK_4K : Z := 18446744073709547520.
Definition MASK_1G : Z := 18446744072635809792.
Definition MASK_2M : Z := 18446744073707454464.

Definition vmm_is_mapped (m : tables) (pml4_phys vaddr : Z) : res bool :=
  let! e4 := get_word m pml4_phys (PML4_IDX vaddr) in
  if negb (has e4 1) then Ok false
  else
    let! e3 := get_word m (Z.land e4 MASK_4K) (PDPT_IDX vaddr) in
    if negb (has e3 1) then Ok false
    else if PTE_IS_LEAF e3 then Ok true
    else
      let! e2 := get_word m (Z.land e3 MASK_4K) (PD_IDX vaddr) in
      if negb (has e2 1) then Ok false
      else if PTE_IS_LEAF e2 then Ok true
      else
        let! e1 := get_word m (Z.land e2 MASK_4K) (PT_IDX vaddr) in
        Ok (has e1 1).

Definition vmm_get_phys (m : tables) (pml4_phys vaddr : Z) : res Z :=
  if 140737488355327 <? pml4_phys then Panic
  else
    let! e4 := get_word m pml4_phys (PML4_IDX vaddr) in
    if negb (has e4 1) then Ok 0
    else
      let! e3 := get_word m (Z.land e4 MASK_4K) (PDPT_IDX vaddr) in
      if negb (has e3 1) then Ok 0
      else if PTE_IS_LEAF e3 then Ok (u64 (Z.land e3 MASK_1G + Z.land vaddr 1073741823))
      else
        let! e2 := get_word m (Z.land e3 MASK_4K) (PD_IDX vaddr) in
        if negb (has e2 1) then Ok 0
        else if PTE_IS_LEAF e2 then Ok (u64 (Z.land e2 MASK_2M + Z.land vaddr 2097151))
        else
          let! e1 := get_word m (Z.land e2 MASK_4K) (PT_IDX vaddr) in
          if negb (has e1 1) then Ok 0 else Ok (Z.land e1 MASK_4K).

(** ** Unmapping; the result is the code and the memory *)

Definition vmm_unmap (m : tables) (pml4 vaddr : Z) : res (Z * tables) :=
  let v := Z.land vaddr MASK_4K in
  let! e4 := get_word m pml4 (PML4_IDX v) in
  if negb (has e4 PTE_PRESENT) then Ok (-1, m)
  else
    let! e3 := get_word m (addr_of e4) (PDPT_IDX v) in
    if negb (has e3 PTE_PRESENT) then Ok (-1, m)
    else
      let! e2 := get_word m (addr_of e3) (PD_IDX v) in
      if negb (has e2 PTE_PRESENT) then Ok (-1, m)
      else let! m := put_word m (addr_of e2) (PT_IDX v) 0 in Ok (0, m).

(** ** Mapping *)

Record vm (P : Type) := mk_vm { tabs : tables; frames : P }.
Arguments mk_vm {P} _ _.
Arguments tabs {P} _.
Arguments frames {P} _.

Section Operations.
Context {P : Type} {PA : PageAllocator P}.

Abbreviation vm := (vm P).
Definition with_tabs (m : tables) (s : vm) : vm := mk_vm m (frames s).

Definition table_entry (t flags : Z) : Z :=
  Z.lor (Z.lor (Z.lor t PTE_PRESENT) PTE_WRITABLE) (PTE_TABLE_USER_MASK flags).

(** the path's rights: writable, and accessible to user mode if the page is *)
Definition widen (e flags : Z) : Z := Z.lor (Z.lor e PTE_WRITABLE) (PTE_TABLE_USER_MASK flags).

(** the [i]-th part of a large page: [size] is the size of a part *)
Definition part (e size i : Z) : Z :=
  Z.lor (u64 (addr_of e + i * size)) (Z.land e (u64 (Z.lnot PTE_ADDR_MASK))).

(** One level of [__vmm_map]: the table below entry [i] of table [t], made or
    split out of a large page when necessary.  [split] is the size of the parts
    of a large page at this level, [None] at the root.  [None] is the return of
    -1 for lack of a frame. *)
Definition next_table (t i flags : Z) (split : option Z) (s : vm) : res (option Z * vm) :=
  let! e := get_word (tabs s) t i in
  if negb (has e PTE_PRESENT) then
    let! (new_pt, p) := page_alloc (frames s) in
    if new_pt =? 0 then Ok (None, mk_vm (tabs s) p)
    else
      let! m := clear_frame (tabs s) new_pt in
      let e := table_entry new_pt flags in
      let! m := put_word m t i e in
      Ok (Some (addr_of e), mk_vm m p)
  else
    match split, PTE_IS_LEAF e with
    | Some size, true =>
        let! (new_pt, p) := page_alloc (frames s) in
        if new_pt =? 0 then Ok (None, mk_vm (tabs s) p)
        else
          let! m := clear_frame (tabs s) new_pt in
          let m := set_frame m new_pt (fun k => if (0 <=? k) && (k <? 512) then part e size k else m new_pt k) in
          let e := widen (table_entry new_pt flags) flags in
          let! m := put_word m t i e in
          Ok (Some (addr_of e), mk_vm m p)
    | _, _ =>
        let e := widen e flags in
        let! m := put_word (tabs s) t i e in
        Ok (Some (addr_of e), mk_vm m (frames s))
    end.

Definition __vmm_map (pml4 vaddr paddr flags : Z) (overwrite_ok : bool) (s : vm) : res (Z * vm) :=
  let v := Z.land vaddr MASK_4K in
  let pa := addr_of paddr in
  let! (pdpt, s) := next_table pml4 (PML4_IDX v) flags None s in
  match pdpt with
  | None => Ok (-1, s)
  | Some pdpt =>
      let! (pd, s) := next_table pdpt (PDPT_IDX v) flags (Some 2097152) s in
      match pd with
      | None => Ok (-1, s)
      | Some pd =>
          let! (pt, s) := next_table pd (PD_IDX v) flags (Some 4096) s in
          match pt with
          | None => Ok (-1, s)
          | Some pt =>
              let! e := get_word (tabs s) pt (PT_IDX v) in
              if has e PTE_PRESENT && negb overwrite_ok then Panic
              else
                let! m := put_word (tabs s) pt (PT_IDX v) (Z.lor pa flags) in
                Ok (0, with_tabs m s)
          end
      end
  end.

Definition vmm_map (pml4 vaddr paddr flags : Z) (s : vm) : res (Z * vm) :=
  __vmm_map pml4 vaddr paddr flags false s.
Definition vmm_remap (pml4 vaddr paddr flags : Z) (s : vm) : res (Z * vm) :=
  __vmm_map pml4 vaddr paddr flags true s.
Definition vmm_map_global (kernel_pml4 vaddr paddr flags : Z) (s : vm) : res (Z * vm) :=
  let! (n, s) := vmm_map kernel_pml4 vaddr paddr flags s in
  if n =? -1 then Ok (-1, s) else Ok (0, s).
Definition vmm_map_user (pml4_phys vaddr paddr flags : Z) (s : vm) : res (Z * vm) :=
  vmm_map pml4_phys vaddr paddr (Z.lor flags PTE_USER) s.
Definition vmm_map_specific (pml4_phys vaddr paddr flags : Z) (s : vm) : res vm :=
  let! (_, s) := vmm_map pml4_phys vaddr paddr flags s in Ok s.

Fixpoint map_region_loop (n : nat) (pml4 v p flags : Z) (s : vm) : res (Z * vm) :=
  match n with
  | O => Ok (0, s)
  | S n =>
      let! (c, s) := __vmm_map pml4 v p flags false s in
      if c <? 0 then Ok (-1, s) else map_region_loop n pml4 (u64 (v + 4096)) (u64 (p + 4096)) flags s
  end.

(** the number of iterations of the loop on [offset] *)
Definition region_pages (vaddr size : Z) : nat :=
  Z.to_nat (u64 (Z.land (u64 (u64 (vaddr + size) + 4095)) MASK_4K - Z.land vaddr MASK_4K) / 4096).

Definition vmm_map_region (pml4 vaddr paddr size flags : Z) (s : vm) : res (Z * vm) :=
  map_region_loop (region_pages vaddr size) pml4 (Z.land vaddr MASK_4K) (Z.land paddr MASK_4K) flags s.

(** ** Address spaces *)

Fixpoint copy_entries (n : nat) (i dst src : Z) (m : tables) : res tables :=
  match n with
  | O => Ok m
  | S n =>
      let! e := get_word m src i in
      let! m := put_word m dst i e in
      copy_entries n (i + 1) dst src m
  end.

Definition vmm_create_user_pml4 (kernel_pml4 : Z) (s : vm) : res (Z * vm) :=
  let! (new_pml4, p) := page_alloc (frames s) in
  let! m := clear_frame (tabs s) new_pml4 in
  let! m := copy_entries 256 256 new_pml4 (Z.land kernel_pml4 MASK_4K) m in
  Ok (new_pml4, mk_vm m p).

(** [level] counts down from 4; level 0 is never reached from it *)
Fixpoint vmm_destroy_level (level : nat) (table_phys : Z) (m : tables) (p : P) : res P :=
  match level with
  | O => Fault
  | S below =>
      let entry p i :=
        let! e := get_word m table_phys i in
        if negb (has e PTE_PRESENT) then Ok p
        else if (level =? 1)%nat then page_free (addr_of e) p
        else if PTE_IS_LEAF e then pages_free (addr_of e) (if (level =? 3)%nat then 262144 else 512) p
        else vmm_destroy_level below (addr_of e) m p in
      let! p := fold_left (fun r i => let! p := r in entry p i)
                  (map Z.of_nat (seq 0 (if (level =? 4)%nat then 256 else 512))) (Ok p) in
      page_free table_phys p
  end.

(** [vmm_init_bsp] from the boot loader's root and [vmm_preallocate_kernel_range] *)
Fixpoint copy_present (n : nat) (i dst src : Z) (m : tables) : res tables :=
  match n with
  | O => Ok m
  | S n =>
      let! e := get_word m src i in
      let! m := if e =? 0 then Ok m else put_word m dst i e in
      copy_present n (i + 1) dst src m
  end.

Definition vmm_init_bsp (old_pml4 : Z) (s : vm) : res (Z * vm) :=
  let! (pml4, p) := page_alloc (frames s) in
  let! m := clear_frame (tabs s) pml4 in
  let! m := copy_present 1 0 pml4 old_pml4 m in
  let! m := copy_present 256 256 pml4 old_pml4 m in
  let! (_, s) := vmm_map old_pml4 pml4 pml4 (Z.lor PTE_PRESENT PTE_WRITABLE) (mk_vm m p) in
  Ok (pml4, s).

Fixpoint preallocate (n : nat) (i kernel_pml4 : Z) (s : vm) : res vm :=
  match n with
  | O => Ok s
  | S n =>
      let! e := get_word (tabs s) kernel_pml4 i in
      if has e PTE_PRESENT then preallocate n (i + 1) kernel_pml4 s
      else
        let! (new_pt, p) := page_alloc (frames s) in
        if new_pt =? 0 then preallocate n (i + 1) kernel_pml4 (mk_vm (tabs s) p)
        else
          let! m := clear_frame (tabs s) new_pt in
          let! m := put_word m kernel_pml4 i (Z.lor (Z.lor new_pt PTE_PRESENT) PTE_WRITABLE) in
          preallocate n (i + 1) kernel_pml4 (mk_vm m p)
  end.

Definition vmm_preallocate_kernel_range (kernel_pml4 : Z) (s : vm) : res vm :=
  preallocate 256 256 kernel_pml4 s.

End Operations.
