(* ===== verification/VmmWalk.v ===== *)
(** * What the page tables mean

    [walk] is the processor's translation.  [descend] names the table at the
    end of a path of indices; a well-formed space reaches every table frame by
    exactly one path, so a write to one entry is seen on the paths through that
    entry only.  Also here: the entries that Vmm.v composes, as bit fields. *)

From stdpp Require Import base list.
From S2P Require Import Prelude Pmm PageAlloc Vmm.

(** ** Bit fields *)

(** a mask of [b] bits at position [a] *)
Lemma land_field a b x : 0 <= a -> 0 <= b ->
  Z.land x (Z.shiftl (Z.ones b) a) = x / 2 ^ a mod 2 ^ b * 2 ^ a.
Proof.
  intros Ha Hb. rewrite <- Z.land_ones, <- Z.shiftr_div_pow2, <- Z.shiftl_mul_pow2 by done.
  apply Z.bits_inj'. intros n Hn. rewrite Z.land_spec, !Z.shiftl_spec by done.
  destruct (Z.ltb_spec n a).
  - rewrite (Z.testbit_neg_r _ (n - a)), andb_false_r by lia. by rewrite Z.testbit_neg_r by lia.
  - rewrite Z.land_spec, Z.shiftr_spec by lia. do 2 f_equal. lia.
Qed.

Lemma addr_of_field e : addr_of e = e / 4096 mod 1099511627776 * 4096.
Proof. exact (land_field 12 40 e ltac:(lia) ltac:(lia)). Qed.

Lemma idx_field k v : 0 <= k -> Z.land (Z.shiftr v k) 511 = v / 2 ^ k mod 512.
Proof. intros Hk. change 511 with (Z.ones 9). rewrite Z.land_ones, Z.shiftr_div_pow2 by lia. done. Qed.

Lemma idx_range v :
  (0 <= PML4_IDX v < 512 /\ 0 <= PDPT_IDX v < 512) /\ (0 <= PD_IDX v < 512 /\ 0 <= PT_IDX v < 512).
Proof.
  unfold PML4_IDX, PDPT_IDX, PD_IDX, PT_IDX. rewrite !idx_field by lia.
  split; split; apply Z.mod_pos_bound; lia.
Qed.

(** a frame address is its own address field, also with flag bits added *)
Lemma addr_frame t : 0 <= t < 4503599627370496 -> t mod 4096 = 0 -> addr_of t = t.
Proof. intros H1 H2. rewrite addr_of_field. zlia. Qed.

Lemma addr_lor a b : addr_of (Z.lor a b) = Z.lor (addr_of a) (addr_of b).
Proof. apply Z.land_lor_distr_l. Qed.

Lemma addr_user_mask flags : addr_of (PTE_TABLE_USER_MASK flags) = 0.
Proof. unfold addr_of, PTE_TABLE_USER_MASK. rewrite <- Z.land_assoc. apply Z.land_0_r. Qed.

Lemma addr_is_frame e : is_frame (addr_of e) = true.
Proof.
  rewrite addr_of_field. unfold is_frame.
  pose proof (Z.mod_pos_bound (e / 4096) 1099511627776 ltac:(lia)).
  rewrite (proj2 (Z.leb_le _ _)), (proj2 (Z.ltb_lt _ _)), Z.mod_mul by lia. done.
Qed.

Lemma frame_is_frame t : frame t -> is_frame t = true.
Proof.
  intros [H1 H2]. unfold is_frame. rewrite (proj2 (Z.leb_le _ _)), (proj2 (Z.ltb_lt _ _)), H2 by lia. done.
Qed.

Lemma has_bit e k : 0 <= k -> has e (2 ^ k) = Z.testbit e k.
Proof.
  intros Hk. unfold has. rewrite <- (Z.shiftl_1_l k). apply land_bit. done.
Qed.

Lemma present_bit e : has e PTE_PRESENT = Z.testbit e 0.
Proof. exact (has_bit e 0 ltac:(lia)). Qed.

Lemma leaf_bits e : PTE_IS_LEAF e = Z.testbit e 0 && Z.testbit e 7.
Proof.
  unfold PTE_IS_LEAF. change (Z.lor PTE_PRESENT PTE_HUGE) with 129.
  apply eq_true_iff_eq. rewrite Z.eqb_eq, andb_true_iff. split.
  - intros H. assert (forall n, Z.testbit (Z.land e 129) n = Z.testbit 129 n) as B by (by rewrite H).
    pose proof (B 0) as B0. pose proof (B 7) as B7. rewrite Z.land_spec in B0, B7.
    change (Z.testbit 129 0) with true in B0. change (Z.testbit 129 7) with true in B7.
    by rewrite andb_true_r in B0, B7.
  - intros [B0 B7]. apply Z.bits_inj'. intros n Hn. rewrite Z.land_spec.
    destruct (decide (n = 0)) as [-> |]; [by rewrite B0 |]. destruct (decide (n = 7)) as [-> |]; [by rewrite B7 |].
    replace (Z.testbit 129 n) with false; [apply andb_false_r |]. symmetry.
    destruct (Z.leb_spec 8 n); [apply (Z.bits_above_log2 129 n); [lia | change (Z.log2 129) with 7; lia] |].
    assert (n ∈ [1; 2; 3; 4; 5; 6]) as M by (lmem_simpl; lia). lmem_simpl. by repeat destruct M as [-> | M].
Qed.

Lemma set_word_other m f i w t j : (t, j) <> (f, i) -> set_word m f i w t j = m t j.
Proof.
  intros H. unfold set_word. destruct (Z.eqb_spec t f) as [-> |]; [| done].
  destruct (Z.eqb_spec j i) as [-> |]; [by destruct H | done].
Qed.

Lemma set_word_same m f i w : set_word m f i w f i = w.
Proof. unfold set_word. by rewrite !Z.eqb_refl. Qed.

(** ** Walks *)

(** an entry of a table of level [l] (4 is the root) that points to a table *)
Definition is_table (l : nat) (e : Z) : bool :=
  (2 <=? l)%nat && has e PTE_PRESENT && negb ((l <? 4)%nat && PTE_IS_LEAF e).

Definition child (m : tables) (l : nat) (t i : Z) : option Z :=
  if is_table l (m t i) then Some (addr_of (m t i)) else None.

Fixpoint descend (m : tables) (l : nat) (t : Z) (p : list Z) : option Z :=
  match p with
  | [] => Some t
  | i :: p => match child m l t i with Some t => descend m (l - 1) t p | None => None end
  end.

(** the level and the entry that end the translation; [None] is a page fault *)
Fixpoint walk (m : tables) (l : nat) (t : Z) (p : list Z) : option (nat * Z) :=
  match p with
  | [] => None
  | i :: p =>
      if is_table l (m t i) then walk m (l - 1) (addr_of (m t i)) p
      else if has (m t i) PTE_PRESENT then Some (l, m t i) else None
  end.

Definition path (v : Z) : list Z := [PML4_IDX v; PDPT_IDX v; PD_IDX v; PT_IDX v].

(** the physical page behind [v], and its rights: writable, user, no-execute and the
    other bits above the address *)
Definition page_of (l : nat) (e v : Z) : Z :=
  match l with
  | 3%nat => e / 1073741824 mod 4194304 * 1073741824 + v / 4096 mod 262144 * 4096
  | 2%nat => e / 2097152 mod 2147483648 * 2097152 + v / 4096 mod 512 * 4096
  | _ => addr_of e
  end.
Definition RIGHTS : Z := Z.lor (Z.lor PTE_WRITABLE PTE_USER) (Z.lor PTE_NX 0x7ff0000000000000).

Definition translate (m : tables) (root v : Z) : option (Z * Z) :=
  match walk m 4 root (path v) with
  | Some (l, e) => Some (page_of l e v, Z.land e RIGHTS)
  | None => None
  end.

Lemma descend_app m l t p q : descend m l t (p ++ q) =
  match descend m l t p with Some t' => descend m (l - length p) t' q | None => None end.
Proof.
  revert l t. induction p as [| i p IH]; intros l t; simpl; [by rewrite Nat.sub_0_r |].
  destruct (child m l t i); [| done]. rewrite IH. by replace (l - 1 - length p)%nat with (l - S (length p))%nat by lia.
Qed.

Lemma walk_descend m l t p t' q : descend m l t p = Some t' -> walk m l t (p ++ q) = walk m (l - length p) t' q.
Proof.
  revert l t. induction p as [| i p IH]; intros l t; simpl; [intros [= ->]; by rewrite Nat.sub_0_r |].
  unfold child. destruct (is_table l (m t i)); [| done]. intros H. rewrite (IH _ _ H).
  by replace (l - 1 - length p)%nat with (l - S (length p))%nat by lia.
Qed.

(** two memories give the same tables along a path, and the same translation,
    when the entries they visit agree: the same, or pointing to the same table *)
Definition agree (l : nat) (e e' : Z) : Prop :=
  e' = e \/ is_table l e = true /\ is_table l e' = true /\ addr_of e' = addr_of e.

Definition agree_on (m m' : tables) (l : nat) (t : Z) (p : list Z) : Prop :=
  forall q j r u, p = q ++ j :: r -> descend m l t q = Some u -> agree (l - length q) (m u j) (m' u j).

Lemma agree_on_cons m m' l t i p : agree_on m m' l t (i :: p) ->
  agree l (m t i) (m' t i) /\ forall u, child m l t i = Some u -> agree_on m m' (l - 1) u p.
Proof.
  intros H. split.
  - specialize (H [] i p t eq_refl eq_refl). simpl in H. by rewrite Nat.sub_0_r in H.
  - intros u Hu q j r w -> Hd. specialize (H (i :: q) j r w eq_refl). simpl in H. rewrite Hu in H.
    replace (l - 1 - length q)%nat with (l - S (length q))%nat by lia. by apply H.
Qed.

Lemma agree_child l e e' : agree l e e' ->
  is_table l e' = is_table l e /\ (is_table l e = true -> addr_of e' = addr_of e) /\
  (is_table l e = false -> e' = e).
Proof. intros [-> | (H1 & H2 & H3)]; [done |]. rewrite H1, H2. done. Qed.

Lemma descend_agree m m' l t p : agree_on m m' l t p -> descend m' l t p = descend m l t p.
Proof.
  revert l t. induction p as [| i p IH]; intros l t H; [done |].
  apply agree_on_cons in H as [H1 H2]. apply agree_child in H1 as (E1 & E2 & _). simpl. unfold child in *.
  rewrite E1. destruct (is_table l (m t i)); [| done]. rewrite E2 by done. by apply IH, H2.
Qed.

Lemma walk_agree m m' l t p : agree_on m m' l t p -> walk m' l t p = walk m l t p.
Proof.
  revert l t. induction p as [| i p IH]; intros l t H; [done |].
  apply agree_on_cons in H as [H1 H2]. apply agree_child in H1 as (E1 & E2 & E3). simpl. unfold child in *.
  rewrite E1. destruct (is_table l (m t i)); [rewrite E2 by done; by apply IH, H2 | by rewrite E3].
Qed.

(** ** Well-formed address spaces *)

Definition index (i : Z) : Prop := 0 <= i < 512.
Definition tpath (p : list Z) : Prop := Forall index p /\ (length p <= 3)%nat.

(** pointers to tables have no bit above the address; large pages are aligned *)
Definition entry_ok (l : nat) (e : Z) : Prop :=
  is_u64 e /\
  (is_table l e = true -> e < 4503599627370496) /\
  (PTE_IS_LEAF e = true ->
     match l with 3%nat => e mod 1073741824 < 4096 | 2%nat => e mod 2097152 < 4096 | _ => True end).

Definition wf_table (m : tables) (F : list Z) (l : nat) (t : Z) : Prop :=
  t ∈ F /\ frame t /\ forall i, index i -> entry_ok l (m t i).

Record wf_space (m : tables) (root : Z) (F : list Z) : Prop := {
  ws_table p t : tpath p -> descend m 4 root p = Some t -> wf_table m F (4 - length p) t;
  ws_inj p q t : tpath p -> tpath q -> descend m 4 root p = Some t -> descend m 4 root q = Some t -> p = q }.

Lemma tpath_app p q : tpath (p ++ q) -> tpath p.
Proof. intros [H1 H2]. apply Forall_app in H1 as [H1 _]. rewrite length_app in H2. split; [done | lia]. Qed.

(** paths through entry [i] of the table at [p] *)
Definition through (p : list Z) (i : Z) (q : list Z) : Prop := exists r, q = p ++ i :: r.

#[global] Instance through_dec p i q : Decision (through p i q).
Proof.
  destruct (decide (p ++ [i] `prefix_of` q)) as [H | H]; [left | right].
  - destruct H as [r ->]. exists r. by rewrite <- app_assoc.
  - intros [r ->]. apply H. exists r. by rewrite <- app_assoc.
Defined.

Section Write.
Context (m : tables) (root : Z) (F : list Z) (W : wf_space m root F).
Context (p : list Z) (i f w : Z) (Hp : tpath p) (Hi : index i) (Hf : descend m 4 root p = Some f).

Let m' := set_word m f i w.

Lemma write_at : m' f i = w.
Proof. unfold m', set_word. by rewrite !Z.eqb_refl. Qed.

Lemma write_other t j : (t, j) <> (f, i) -> m' t j = m t j.
Proof.
  intros H. unfold m', set_word. destruct (Z.eqb_spec t f) as [E |]; [| done].
  destruct (Z.eqb_spec j i) as [E' |]; [| done]. exfalso. apply H. by rewrite E, E'.
Qed.

(** the entries visited by a path that does not go through the written one *)
Lemma write_agree q : Forall index q -> (length q <= 4)%nat -> ~ through p i q -> agree_on m m' 4 root q.
Proof.
  intros HI HL HN a j r u -> Hu. left. apply write_other. intros [= -> ->]. apply HN. exists r.
  rewrite length_app in HL. simpl in HL. apply Forall_app in HI as [HI _].
  f_equal. symmetry. apply (ws_inj m root F W p a f); [done | split; [done | lia] | done | done].
Qed.

Lemma write_off q : tpath q -> ~ through p i q -> descend m' 4 root q = descend m 4 root q.
Proof. intros [H1 H2] HN. apply descend_agree, write_agree; [done | lia | done]. Qed.

Lemma write_root : descend m' 4 root p = Some f.
Proof.
  rewrite write_off; [done | done |]. intros [r E]. apply (f_equal length) in E. rewrite length_app in E. simpl in E. lia.
Qed.

Lemma write_through r : descend m' 4 root (p ++ i :: r) =
  if is_table (4 - length p) w then descend m' (3 - length p) (addr_of w) r else None.
Proof.
  rewrite descend_app, write_root. cbn [descend]. unfold child. rewrite write_at.
  destruct (is_table (4 - length p) w); [| done].
  by replace (4 - length p - 1)%nat with (3 - length p)%nat by lia.
Qed.

Lemma walk_through r : walk m' 4 root (p ++ i :: r) = walk m' (4 - length p) f (i :: r).
Proof. apply walk_descend, write_root. Qed.

Lemma walk_off v : ~ through p i (path v) -> walk m' 4 root (path v) = walk m 4 root (path v).
Proof.
  intros HN. apply walk_agree, write_agree; [| simpl; lia | done].
  pose proof (idx_range v) as [[? ?] [? ?]]. repeat constructor; unfold index; tauto.
Qed.

(** a table that stays a table of the space keeps its well-formedness *)
Lemma write_table q t F' : F ⊆ F' -> entry_ok (4 - length p) w -> tpath q -> descend m 4 root q = Some t ->
  wf_table m' F' (4 - length q) t.
Proof.
  intros HF Hw Hq Ht. destruct (ws_table m root F W q t Hq Ht) as (H1 & H2 & H3).
  split; [by apply HF |]. split; [done |]. intros j Hj. destruct (decide ((t, j) = (f, i))) as [[= -> ->] | N].
  - rewrite write_at. by rewrite (ws_inj m root F W q p f).
  - rewrite write_other by done. by apply H3.
Qed.

(** the same table under the entry, with other rights *)
Lemma write_agree_all q : agree (4 - length p) (m f i) w -> Forall index q -> (length q <= 4)%nat ->
  agree_on m m' 4 root q.
Proof.
  intros HA HI HL a j r u -> Hu. destruct (decide ((u, j) = (f, i))) as [[= -> ->] | N].
  - rewrite write_at. rewrite length_app in HL. simpl in HL. apply Forall_app in HI as [HI _].
    rewrite (ws_inj m root F W a p f); [done | split; [done | lia] | done | done | done].
  - left. by apply write_other.
Qed.

Lemma write_same_wf : entry_ok (4 - length p) w -> agree (4 - length p) (m f i) w -> wf_space m' root F.
Proof.
  intros Hw HA.
  assert (E : forall q, tpath q -> descend m' 4 root q = descend m 4 root q)
    by (intros q [H1 H2]; apply descend_agree, write_agree_all; [done | done | lia]).
  split.
  - intros q t Hq. rewrite E by done. by apply write_table.
  - intros q1 q2 t H1 H2. rewrite !E by done. by apply (ws_inj m root F W).
Qed.

Lemma write_same_walk v : agree (4 - length p) (m f i) w -> walk m' 4 root (path v) = walk m 4 root (path v).
Proof.
  intros HA. apply walk_agree, write_agree_all; [done | | simpl; lia].
  pose proof (idx_range v) as [[? ?] [? ?]]. repeat constructor; unfold index; tauto.
Qed.

(** an entry that is not a pointer to a table *)
Lemma write_end_wf : entry_ok (4 - length p) w -> is_table (4 - length p) w = false -> wf_space m' root F.
Proof.
  intros Hw HN.
  assert (E : forall q t, tpath q -> descend m' 4 root q = Some t -> descend m 4 root q = Some t).
  { intros q t Hq. destruct (decide (through p i q)) as [[r ->] | N].
    - rewrite write_through, HN. done.
    - by rewrite write_off. }
  split.
  - intros q t Hq Ht. by apply write_table, E.
  - intros q1 q2 t H1 H2 E1 E2. apply (ws_inj m root F W q1 q2 t); auto.
Qed.

(** a table the space did not have, whose entries point to no table *)
Lemma write_new_wf g : entry_ok (4 - length p) w -> is_table (4 - length p) w = true -> addr_of w = g ->
  frame g -> (forall q, tpath q -> descend m 4 root q <> Some g) ->
  (forall j, index j -> entry_ok (3 - length p) (m g j) /\ is_table (3 - length p) (m g j) = false) ->
  wf_space m' root (g :: F).
Proof.
  intros Hw HT HG Hfr Hnew Hent.
  assert (Hgf : g <> f) by (intros ->; by apply (Hnew p)).
  assert (Eg : forall j, m' g j = m g j) by (intros j; apply write_other; congruence).
  assert (E : forall q t, tpath q -> descend m' 4 root q = Some t ->
    q = p ++ [i] /\ t = g \/ descend m 4 root q = Some t).
  { intros q t Hq. destruct (decide (through p i q)) as [[r ->] | N]; [| rewrite write_off by done; by right].
    rewrite write_through, HT, HG. destruct r as [| j r]; simpl; [intros [= ->]; by left |].
    unfold child. destruct Hq as [Hq _]. apply Forall_app in Hq as [_ Hq]. apply Forall_cons in Hq as [_ Hq].
    apply Forall_cons in Hq as [Hj _]. by rewrite Eg, (proj2 (Hent j Hj)). }
  assert (HL : forall q, tpath q -> q = p ++ [i] -> (4 - length q = 3 - length p)%nat)
    by (intros q [_ Hq] ->; rewrite length_app in *; simpl in *; lia).
  split.
  - intros q t Hq Ht. destruct (E q t Hq Ht) as [[Eq ->] | Ht']; [| by apply write_table; [set_solver | ..]].
    split; [lmem |]. split; [done |]. intros j Hj. rewrite Eg, (HL q Hq Eq). by apply Hent.
  - intros q1 q2 t H1 H2 E1 E2.
    destruct (E q1 t H1 E1) as [[-> ->] | D1], (E q2 _ H2 E2) as [[-> ?] | D2]; [done | | |].
    + by destruct (Hnew q2 H2).
    + subst. by destruct (Hnew q1 H1).
    + by apply (ws_inj m root F W q1 q2 t).
Qed.

End Write.

(** filling a frame that is no table of the space changes nothing *)
Section Fresh.
Context (m : tables) (root : Z) (F : list Z) (W : wf_space m root F) (g : Z) (Hg : g ∉ F).
Context (m' : tables) (Hm : forall t j, t <> g -> m' t j = m t j).

Lemma fresh_other t j : t ∈ F -> m' t j = m t j.
Proof. intros H. apply Hm. intros ->. by destruct Hg. Qed.

Lemma fresh_agree q : Forall index q -> (length q <= 4)%nat -> agree_on m m' 4 root q.
Proof.
  intros HI HL a j r u -> Hu. left. apply fresh_other. rewrite length_app in HL. simpl in HL.
  apply Forall_app in HI as [HI _]. apply (ws_table m root F W a u); [split; [done | lia] | done].
Qed.

Lemma fresh_descend q : tpath q -> descend m' 4 root q = descend m 4 root q.
Proof. intros [H1 H2]. apply descend_agree, fresh_agree; [done | lia]. Qed.

Lemma fresh_wf : wf_space m' root F.
Proof.
  split.
  - intros q t Hq. rewrite fresh_descend by done. intros Ht.
    destruct (ws_table m root F W q t Hq Ht) as (H1 & H2 & H3). split; [done |]. split; [done |].
    intros j Hj. rewrite fresh_other by done. by apply H3.
  - intros q1 q2 t H1 H2. rewrite !fresh_descend by done. by apply (ws_inj m root F W).
Qed.

Lemma fresh_walk v : walk m' 4 root (path v) = walk m 4 root (path v).
Proof.
  apply walk_agree, fresh_agree; [| simpl; lia].
  pose proof (idx_range v) as [[? ?] [? ?]]. repeat constructor; unfold index; tauto.
Qed.

Lemma fresh_not_table q : tpath q -> descend m' 4 root q <> Some g.
Proof. intros Hq. rewrite fresh_descend by done. intros E. apply Hg. by apply (ws_table m root F W q). Qed.

End Fresh.

(** ** The entries the code writes *)

Lemma lor_small n a b : 0 <= n -> 0 <= a < 2 ^ n -> 0 <= b < 2 ^ n -> 0 <= Z.lor a b < 2 ^ n.
Proof.
  intros Hn Ha Hb. assert (E : Z.lor a b = Z.lor a b mod 2 ^ n).
  { rewrite <- Z.land_ones, Z.land_lor_distr_l, !Z.land_ones, !Z.mod_small by done. done. }
  rewrite E. apply Z.mod_pos_bound. by apply Z.pow_pos_nonneg.
Qed.

Lemma land_small n a b : 0 <= n -> 0 <= b < 2 ^ n -> 0 <= Z.land a b < 2 ^ n.
Proof.
  intros Hn Hb. assert (E : Z.land a b = Z.land a b mod 2 ^ n).
  { rewrite <- Z.land_ones, <- Z.land_assoc, Z.land_ones, Z.mod_small by done. done. }
  rewrite E. apply Z.mod_pos_bound. by apply Z.pow_pos_nonneg.
Qed.

Lemma frame_low_bit t k : frame t -> 0 <= k < 12 -> Z.testbit t k = false.
Proof.
  intros [_ H] Hk. replace t with (t / 4096 * 2 ^ 12) by (change (2 ^ 12) with 4096; zlia).
  apply Z.mul_pow2_bits_low. lia.
Qed.

(** bits of an expression of [lor] and [land] with constants *)
Ltac flag_bits :=
  rewrite ?has_bit, ?present_bit, ?leaf_bits by lia;
  unfold table_entry, widen, PTE_TABLE_USER_MASK, PTE_PRESENT, PTE_WRITABLE, PTE_USER;
  rewrite ?Z.lor_spec, ?Z.land_spec.

Section Entries.
Context (g flags : Z) (Hg : frame g).

Lemma table_entry_addr : addr_of (table_entry g flags) = g.
Proof.
  unfold table_entry. rewrite !addr_lor, addr_user_mask, !Z.lor_0_r. apply addr_frame; [| apply Hg]. destruct Hg. lia.
Qed.

Lemma table_entry_small : 0 <= table_entry g flags < 4503599627370496.
Proof.
  destruct Hg as [? _]. unfold table_entry. change 4503599627370496 with (2 ^ 52) in *.
  repeat apply lor_small; unfold PTE_PRESENT, PTE_WRITABLE; try lia.
  unfold PTE_TABLE_USER_MASK. apply land_small; unfold PTE_USER; lia.
Qed.

Lemma table_entry_bits : has (table_entry g flags) PTE_PRESENT = true /\ PTE_IS_LEAF (table_entry g flags) = false.
Proof.
  split; flag_bits; rewrite !(frame_low_bit g) by (done || lia); [done |].
  change (Z.testbit 4 7) with false. by rewrite !andb_false_r.
Qed.

End Entries.

Lemma widen_addr e flags : addr_of (widen e flags) = addr_of e.
Proof. unfold widen. by rewrite !addr_lor, addr_user_mask, !Z.lor_0_r. Qed.

Lemma widen_small n e flags : 3 <= n -> 0 <= e < 2 ^ n -> 0 <= widen e flags < 2 ^ n.
Proof.
  intros Hn He. assert (2 ^ 3 <= 2 ^ n) by (apply Z.pow_le_mono_r; lia). change (2 ^ 3) with 8 in *.
  unfold widen. repeat apply lor_small; unfold PTE_WRITABLE; try lia.
  unfold PTE_TABLE_USER_MASK. apply land_small; unfold PTE_USER; lia.
Qed.

Lemma widen_bits e flags :
  has (widen e flags) PTE_PRESENT = has e PTE_PRESENT /\ PTE_IS_LEAF (widen e flags) = PTE_IS_LEAF e.
Proof.
  split; flag_bits; change (Z.testbit 2 0) with false; change (Z.testbit 4 0) with false;
    change (Z.testbit 2 7) with false; change (Z.testbit 4 7) with false; by rewrite !andb_false_r, !orb_false_r.
Qed.

Lemma widen_rights e flags :
  has (widen e flags) PTE_WRITABLE = true /\ (has flags PTE_USER = true -> has (widen e flags) PTE_USER = true).
Proof.
  change PTE_WRITABLE with (2 ^ 1). change PTE_USER with (2 ^ 2). rewrite !has_bit by lia.
  unfold widen, PTE_TABLE_USER_MASK, PTE_WRITABLE, PTE_USER. rewrite !Z.lor_spec, !Z.land_spec. split.
  - change (Z.testbit 2 1) with true. by rewrite orb_true_r.
  - intros ->. change (Z.testbit 4 2) with true. by rewrite orb_true_r.
Qed.

Lemma is_table_widen l e flags : is_table l (widen e flags) = is_table l e.
Proof. unfold is_table. by rewrite (proj1 (widen_bits e flags)), (proj2 (widen_bits e flags)). Qed.

Lemma widen_table_entry g flags : widen (table_entry g flags) flags = table_entry g flags.
Proof.
  unfold widen, table_entry. apply Z.bits_inj'. intros n Hn. rewrite !Z.lor_spec.
  destruct (Z.testbit g n), (Z.testbit PTE_PRESENT n), (Z.testbit PTE_WRITABLE n),
    (Z.testbit (PTE_TABLE_USER_MASK flags) n); done.
Qed.

Lemma table_entry_rights g flags : has (table_entry g flags) PTE_WRITABLE = true /\
  (has flags PTE_USER = true -> has (table_entry g flags) PTE_USER = true).
Proof. rewrite <- widen_table_entry. apply widen_rights. Qed.

Lemma table_entry_ok l g flags : frame g -> (2 <= l)%nat ->
  is_table l (table_entry g flags) = true /\ entry_ok l (table_entry g flags).
Proof.
  intros Hg Hl. destruct (table_entry_bits g flags Hg) as [B1 B2]. pose proof (table_entry_small g flags Hg) as B3.
  split.
  - unfold is_table. rewrite B1, B2, andb_false_r. by rewrite (proj2 (Nat.leb_le 2 l) Hl).
  - split; [red; lia |]. split; [lia |]. by rewrite B2.
Qed.

Lemma widen_ok l e flags : is_table l e = true -> entry_ok l e ->
  entry_ok l (widen e flags) /\ agree l e (widen e flags).
Proof.
  intros HT (H1 & H2 & H3). specialize (H2 HT). split.
  - pose proof (widen_small 52 e flags ltac:(lia)) as B. change (2 ^ 52) with 4503599627370496 in B.
    unfold is_u64 in H1. specialize (B ltac:(lia)).
    split; [red; lia |]. split; [lia |]. rewrite (proj2 (widen_bits e flags)). intros HL.
    unfold is_table in HT. rewrite HL in HT. destruct l as [| [| [| [| l]]]]; try done; simpl in HT;
      by rewrite andb_false_r in HT.
  - right. by rewrite is_table_widen, widen_addr.
Qed.

(** ** Splitting a large page *)

(** the size of a part of a large page of level [l] *)
Definition part_size (l : nat) : Z := match l with 3%nat => 2097152 | _ => 4096 end.

Section Split.
Context (l : nat) (e k : Z) (Hl : l = 3%nat \/ l = 2%nat) (He : entry_ok l e) (HL : PTE_IS_LEAF e = true) (Hk : index k).

Let A := addr_of e + k * part_size l.

Lemma part_base : 0 <= A < 4503599627370496 /\ A mod part_size l = 0.
Proof.
  destruct He as (_ & _ & H). specialize (H HL). unfold index in Hk. unfold A.
  rewrite addr_of_field. destruct Hl as [E | E]; rewrite E in *; unfold part_size; zlia.
Qed.

Lemma part_aligned : A mod 4096 = 0.
Proof. destruct part_base as [_ H]. destruct Hl as [E | E]; rewrite E in H; unfold part_size in H; zlia. Qed.

Lemma part_eq : part e (part_size l) k = Z.lor A (Z.land e (u64 (Z.lnot PTE_ADDR_MASK))).
Proof. unfold part. fold A. rewrite u64_small; [done |]. destruct part_base. red. lia. Qed.

Lemma part_addr : addr_of (part e (part_size l) k) = A.
Proof.
  rewrite part_eq, addr_lor, (addr_frame A) by (apply part_base || apply part_aligned).
  replace (addr_of (Z.land _ _)) with 0; [apply Z.lor_0_r |].
  unfold addr_of. rewrite <- Z.land_assoc. symmetry. apply Z.land_0_r.
Qed.

Lemma part_rights b : Z.land PTE_ADDR_MASK b = 0 -> Z.land (u64 (Z.lnot PTE_ADDR_MASK)) b = b ->
  Z.land (part e (part_size l) k) b = Z.land e b.
Proof.
  intros H1 H2. rewrite part_eq, Z.land_lor_distr_l, <- Z.land_assoc, H2.
  replace (Z.land A b) with 0; [done |].
  rewrite <- (addr_frame A) by (apply part_base || apply part_aligned).
  unfold addr_of. by rewrite <- Z.land_assoc, H1, Z.land_0_r.
Qed.

Lemma part_u64 : is_u64 (part e (part_size l) k).
Proof.
  rewrite part_eq. pose proof part_base. unfold is_u64. change 18446744073709551616 with (2 ^ 64).
  apply lor_small; [lia | lia |]. apply land_small; [lia |]. vm_compute. split; congruence.
Qed.

Lemma part_leaf : PTE_IS_LEAF (part e (part_size l) k) = true /\ has (part e (part_size l) k) PTE_PRESENT = true.
Proof.
  split.
  - unfold PTE_IS_LEAF. rewrite part_rights by done. exact HL.
  - unfold has. rewrite part_rights by done. pose proof HL as H. rewrite leaf_bits in H.
    apply andb_true_iff in H as [H _]. rewrite <- present_bit in H. exact H.
Qed.

Lemma part_entry : entry_ok (l - 1) (part e (part_size l) k) /\ is_table (l - 1) (part e (part_size l) k) = false.
Proof.
  assert (T : is_table (l - 1) (part e (part_size l) k) = false).
  { unfold is_table. rewrite (proj1 part_leaf). destruct Hl as [E | E]; rewrite E; [by rewrite andb_false_r | done]. }
  split; [| done]. split; [apply part_u64 |]. split; [by rewrite T |]. intros _.
  pose proof part_addr as PA. pose proof part_base as [B1 B2]. rewrite addr_of_field in PA.
  pose proof part_u64 as U. unfold is_u64 in U.
  destruct Hl as [E | E]; rewrite E in *; simpl; [| done]. unfold part_size in *. zlia.
Qed.

(** the part that [v] falls into translates [v] as the large page did *)
Lemma part_page v : k = nth (4 - l) [PDPT_IDX v; PD_IDX v; PT_IDX v] 0 ->
  page_of (l - 1) (part e (part_size l) k) v = page_of l e v.
Proof.
  intros Ek. pose proof part_addr as PA. pose proof part_base as [B1 B2]. pose proof He as (_ & _ & H). specialize (H HL).
  unfold A in *. unfold PDPT_IDX, PD_IDX, PT_IDX in Ek. rewrite !idx_field in Ek by lia.
  destruct Hl as [E | E]; rewrite E in *; simpl in Ek; cbn [page_of Nat.sub part_size] in *; rewrite !addr_of_field in PA.
  - change (2 ^ 21) with 2097152 in Ek. subst k. zlia.
  - change (2 ^ 12) with 4096 in Ek. subst k. rewrite addr_of_field, PA. zlia.
Qed.

End Split.
