(* ===== verification/VmmOwned.v ===== *)
(** * The frames of a user address space

    [owned] lists the frames of the tables and pages below a root, its lower half
    only: what [vmm_destroy_level] releases.  A write to one entry changes the
    list by the contribution of that entry. *)

From stdpp Require Import base list.
From S2P Require Import Prelude Pmm PageAlloc Vmm VmmWalk.

Definition slots (l : nat) : list Z := map Z.of_nat (seq 0 (if (l =? 4)%nat then 256 else 512)).

(** the frames of the tables and pages of a space (of its lower half, at the
    root), each as often as an entry refers to it *)
Fixpoint owned (l : nat) (m : tables) (t : Z) : list Z :=
  match l with
  | O => []
  | S b =>
      concat (map (fun i => let e := m t i in
        if has e PTE_PRESENT then (if (l =? 1)%nat then [addr_of e] else owned b m (addr_of e)) else [])
        (slots l)) ++ [t]
  end.

(** no large pages, as in every space built from [vmm_map_user] *)
Fixpoint no_large (l : nat) (m : tables) (t : Z) : Prop :=
  match l with
  | O => False
  | S b =>
      forall i, i ∈ slots l -> has (m t i) PTE_PRESENT = true -> (l =? 1)%nat = false ->
        PTE_IS_LEAF (m t i) = false /\ no_large b m (addr_of (m t i))
  end.

(** what one entry of a table of level [l] contributes *)
Definition contrib (l : nat) (m : tables) (e : Z) : list Z :=
  if has e PTE_PRESENT then (if (l =? 1)%nat then [addr_of e] else owned (l - 1) m (addr_of e)) else [].

Definition entry_fine (l : nat) (m : tables) (e : Z) : Prop :=
  has e PTE_PRESENT = true -> (l =? 1)%nat = false -> PTE_IS_LEAF e = false /\ no_large (l - 1) m (addr_of e).

Lemma owned_S b m t : owned (S b) m t = concat (map (fun i => contrib (S b) m (m t i)) (slots (S b))) ++ [t].
Proof. cbn [owned]. f_equal. f_equal. apply map_ext. intros i. unfold contrib. by rewrite Nat.sub_succ, Nat.sub_0_r. Qed.

Lemma no_large_S b m t : no_large (S b) m t <-> forall i, i ∈ slots (S b) -> entry_fine (S b) m (m t i).
Proof. unfold entry_fine. cbn [no_large]. by rewrite Nat.sub_succ, Nat.sub_0_r. Qed.

Lemma slots_index l i : i ∈ slots l -> index i.
Proof.
  unfold slots. rewrite list_elem_of_In, in_map_iff. intros (k & <- & Hk%in_seq).
  unfold index. destruct (l =? 4)%nat; lia.
Qed.

Lemma slots_nodup l : NoDup (slots l).
Proof. unfold slots. apply NoDup_fmap_2; [intros a b; lia | apply NoDup_seq]. Qed.

Lemma slots_elem l i : 0 <= i < (if (l =? 4)%nat then 256 else 512) -> i ∈ slots l.
Proof.
  intros Hi. unfold slots. rewrite list_elem_of_In, in_map_iff. exists (Z.to_nat i). split; [destruct (l =? 4)%nat; lia |].
  apply in_seq. destruct (l =? 4)%nat; lia.
Qed.

(** an entry that is fine points to a table exactly when it is present *)
Lemma fine_child l m t i : (2 <= l)%nat -> entry_fine l m (m t i) ->
  child m l t i = if has (m t i) PTE_PRESENT then Some (addr_of (m t i)) else None.
Proof.
  intros Hl HF. unfold child, is_table. rewrite (proj2 (Nat.leb_le 2 l) Hl). cbn [andb].
  destruct (has (m t i) PTE_PRESENT) eqn:E; [| done]. unfold entry_fine in HF. rewrite E in HF.
  destruct (HF eq_refl) as [-> _]; [apply Nat.eqb_neq; lia |]. by rewrite andb_false_r.
Qed.

(** ** Tables that are not written *)

(** the tables below [t] that [owned] visits *)
Definition below (l : nat) (m : tables) (t u : Z) : Prop :=
  exists q, Forall index q /\ (length q < l)%nat /\ (match q with [] => True | i :: _ => i ∈ slots l end) /\
    descend m l t q = Some u.

Lemma slots_low l : (l <> 4)%nat -> forall i, index i -> i ∈ slots l.
Proof. intros N i Hi. apply slots_elem. by rewrite (proj2 (Nat.eqb_neq l 4) N). Qed.

Lemma below_child l m t i u : (2 <= l <= 4)%nat -> i ∈ slots l -> entry_fine l m (m t i) -> has (m t i) PTE_PRESENT = true ->
  below (l - 1) m (addr_of (m t i)) u -> below l m t u.
Proof.
  intros Hl Hi HF HP (q & Hq & HL & _ & HD). exists (i :: q). split; [constructor; [by eapply slots_index | done] |].
  split; [simpl; lia |]. split; [done |]. cbn [descend]. rewrite fine_child by (lia || done). by rewrite HP.
Qed.

Lemma owned_ext l m m' t : (1 <= l <= 4)%nat -> no_large l m t ->
  (forall u j, below l m t u -> index j -> m' u j = m u j) -> owned l m' t = owned l m t /\ no_large l m' t.
Proof.
  revert t. induction l as [| b IH]; intros t Hl HN HE; [lia |]. rewrite !owned_S, no_large_S in *.
  assert (Ht : forall i, i ∈ slots (S b) -> m' t i = m t i).
  { intros i Hi. apply HE; [| by eapply slots_index]. exists []. split; [constructor |]. split; [simpl; lia | done]. }
  assert (HC : forall i, i ∈ slots (S b) -> contrib (S b) m' (m' t i) = contrib (S b) m (m t i) /\ entry_fine (S b) m' (m' t i)).
  { intros i Hi. rewrite Ht by done. specialize (HN i Hi). unfold contrib, entry_fine.
    destruct (has (m t i) PTE_PRESENT) eqn:HP; [| done]. destruct (S b =? 1)%nat eqn:H1; [done |].
    destruct (HN HP H1) as [HL HN']. rewrite Nat.sub_succ, Nat.sub_0_r in *. apply Nat.eqb_neq in H1.
    destruct (IH (addr_of (m t i))) as [E1 E2]; [lia | done | | by rewrite E1].
    intros u j Hu Hj. apply HE; [| done]. apply (below_child _ _ _ i); [lia | done | | done |].
    - unfold entry_fine. by rewrite Nat.sub_succ, Nat.sub_0_r.
    - by rewrite Nat.sub_succ, Nat.sub_0_r. }
  split; [| intros i Hi; exact (proj2 (HC i Hi))].
  f_equal. f_equal. apply map_ext_in. intros i Hi%list_elem_of_In. by apply HC.
Qed.

(** every table on the way is among the frames *)
Lemma below_owned l m t u : (1 <= l <= 4)%nat -> no_large l m t -> below l m t u -> u ∈ owned l m t.
Proof.
  intros Hl HN (q & Hq & HL & Hs & HD). revert l t Hl HN Hq HL Hs HD.
  induction q as [| j q IH]; intros l t Hl HN Hq HL Hs HD; (destruct l as [| b]; [lia |]); rewrite owned_S.
  { injection HD as ->. apply elem_of_app. right. by left. }
  rewrite no_large_S in HN. pose proof (HN j Hs) as HF. simpl in HL. cbn [descend] in HD.
  rewrite fine_child in HD by (lia || done). destruct (has (m t j) PTE_PRESENT) eqn:HP; [| done].
  assert (H1 : (S b =? 1)%nat = false) by (apply Nat.eqb_neq; lia). destruct (HF HP H1) as [_ HN'].
  apply Forall_cons in Hq as [_ Hq]. apply elem_of_app. left. rewrite list_elem_of_In, in_concat.
  exists (contrib (S b) m (m t j)). split; [apply in_map_iff; exists j; split; [done | by apply list_elem_of_In] |].
  unfold contrib. rewrite HP, H1. apply list_elem_of_In, IH; [lia | done | done | lia | | done].
  destruct q as [| x q]; [done |]. apply Forall_cons in Hq as [Hx _]. apply slots_low; [lia | done].
Qed.

(** ** One entry written *)

Lemma concat_write (g g' : Z -> list Z) ks k A B : NoDup ks -> k ∈ ks -> g' k ++ A ≡ₚ g k ++ B ->
  (forall j, j ∈ ks -> j <> k -> g' j = g j) -> concat (map g' ks) ++ A ≡ₚ concat (map g ks) ++ B.
Proof.
  intros HN Hk HP HE. induction ks as [| j ks IH]; [by inversion Hk |]. apply NoDup_cons in HN as [Hj HN].
  cbn [map concat]. rewrite <- !app_assoc. destruct (decide (j = k)) as [-> | N].
  - assert (map g' ks = map g ks) as ->.
    { apply map_ext_in. intros i Hi%list_elem_of_In. apply HE; [by right |]. by intros ->. }
    rewrite !(Permutation_app_comm (concat (map g ks))). by rewrite !app_assoc, HP.
  - rewrite (HE j) by (lmem || done). apply Permutation_app_head. apply IH; [done | | intros i Hi; apply HE; by right].
    apply elem_of_cons in Hk as [-> | Hk]; done.
Qed.

Section Written.
Context (m : tables) (f i w : Z).
Let m' := set_word m f i w.

Lemma written_other u j : u <> f -> m' u j = m u j.
Proof. intros N. apply set_word_other. congruence. Qed.

(** the entries of [t] through which [f] is not reached *)
Lemma contrib_other l t j : (1 <= l <= 4)%nat -> j ∈ slots l -> entry_fine l m (m t j) ->
  (forall q, Forall index q -> (S (length q) < l)%nat -> descend m l t (j :: q) <> Some f) ->
  contrib l m' (m t j) = contrib l m (m t j) /\ entry_fine l m' (m t j).
Proof.
  intros Hl Hj HF HQ. unfold contrib, entry_fine in *. destruct (has (m t j) PTE_PRESENT) eqn:HP; [| done].
  destruct (l =? 1)%nat eqn:H1; [done |]. destruct (HF eq_refl eq_refl) as [HL HN]. apply Nat.eqb_neq in H1.
  destruct (owned_ext (l - 1) m m' (addr_of (m t j))) as [-> HN']; [lia | done | | done].
  intros u x (q & Hq & HLq & _ & HD) _. apply written_other. intros ->. apply (HQ q); [done | lia |].
  cbn [descend]. rewrite fine_child, HP; [done | lia |]. intros _ _. done.
Qed.

Lemma owned_write p : forall l t, (1 <= l <= 4)%nat -> no_large l m t -> Forall index p -> (length p < l)%nat ->
  descend m l t p = Some f ->
  (forall q, Forall index q -> (length q < l)%nat -> descend m l t q = Some f -> q = p) ->
  index i -> match p ++ [i] with j :: _ => j ∈ slots l | [] => False end ->
  let k := (l - length p)%nat in entry_fine k m' w ->
  no_large l m' t /\ owned l m' t ++ contrib k m (m f i) ≡ₚ owned l m t ++ contrib k m' w.
Proof.
  induction p as [| j p IH]; intros l t Hl HN Hp HL HD HU Hi Hs k Hw; destruct l as [| b]; try lia.
  - injection HD as ->. simpl in Hs. subst k. rewrite Nat.sub_0_r in *. rewrite !owned_S, no_large_S in *.
    assert (Hoth : forall j, j ∈ slots (S b) -> j <> i ->
      contrib (S b) m' (m' f j) = contrib (S b) m (m f j) /\ entry_fine (S b) m' (m' f j)).
    { intros j Hj Nj. unfold m' at 2 4. rewrite set_word_other by congruence.
      apply contrib_other; [lia | done | by apply HN |]. intros q Hq HLq E.
      discriminate (HU (j :: q) ltac:(constructor; [by eapply slots_index | done]) ltac:(simpl; lia) E). }
    assert (Em : m' f i = w) by apply set_word_same. split.
    + intros j Hj. destruct (decide (j = i)) as [-> | Nj]; [by rewrite Em | by apply Hoth].
    + rewrite <- !app_assoc. rewrite !(Permutation_app_comm [f]), !app_assoc. apply Permutation_app_tail.
      apply (concat_write _ _ _ i); [apply slots_nodup | done | | intros j Hj Nj; by apply Hoth].
      rewrite Em. apply Permutation_app_comm.
  - simpl in HL. apply Forall_cons in Hp as [Hj Hp]. simpl in Hs. rewrite !owned_S, no_large_S in *.
    pose proof (HN j Hs) as HF. cbn [descend] in HD. rewrite fine_child in HD by (lia || done).
    destruct (has (m t j) PTE_PRESENT) eqn:HP; [| done].
    assert (Nt : t <> f) by (intros ->; discriminate (HU [] ltac:(constructor) ltac:(simpl; lia) eq_refl)).
    assert (H1 : (S b =? 1)%nat = false) by (apply Nat.eqb_neq; lia).
    pose proof HF as HF'. unfold entry_fine in HF'. destruct (HF' HP H1) as [HLf HNc].
    destruct (IH (S b - 1)%nat (addr_of (m t j))) as [HN' HPerm]; [lia | done | done | lia | done | | done | | |].
    { intros q Hq HLq Eq. assert (j :: q = j :: p) as E; [| by injection E].
      apply HU; [by constructor | simpl; lia |]. cbn [descend]. rewrite fine_child, HP; [done | lia | done]. }
    { destruct p as [| x p]; simpl; (apply slots_low; [lia |]); [done | by apply Forall_cons in Hp as [Hx _]]. }
    { by replace (S b - 1 - length p)%nat with k by (unfold k; simpl; lia). }
    replace (S b - 1 - length p)%nat with k in HPerm by (unfold k; simpl; lia).
    assert (Hoth : forall x, x ∈ slots (S b) -> x <> j ->
      contrib (S b) m' (m' t x) = contrib (S b) m (m t x) /\ entry_fine (S b) m' (m' t x)).
    { intros x Hx Nx. rewrite written_other by done. apply contrib_other; [lia | done | by apply HN |]. intros q Hq HLq E.
      assert (x :: q = j :: p) as E'; [| injection E'; congruence].
      apply HU; [constructor; [by eapply slots_index | done] | simpl; lia | done]. }
    split.
    + intros x Hx. destruct (decide (x = j)) as [-> | Nx]; [| by apply Hoth].
      rewrite written_other by done. intros _ _. done.
    + rewrite <- !app_assoc. rewrite !(Permutation_app_comm [t]), !app_assoc. apply Permutation_app_tail.
      apply (concat_write _ _ _ j); [apply slots_nodup | done | | intros x Hx Nx; by apply Hoth].
      rewrite written_other by done. unfold contrib at 1 3. by rewrite HP, H1.
Qed.
End Written.

(** ** Writes to a well-formed space *)

(** the path goes through the lower half of the root *)
Definition low (p : list Z) : Prop := match p with i :: _ => 0 <= i < 256 | [] => False end.

Section Space.
Context (m : tables) (root : Z) (F : list Z) (W : wf_space m root F) (HN : no_large 4 m root).

Lemma below_table u : below 4 m root u -> u ∈ F.
Proof.
  intros (q & Hq & HL & _ & HD). apply (ws_table m root F W q u); [| done]. split; [done | lia].
Qed.

(** a frame that is not of the space may be filled *)
Lemma owned_fresh g m1 : g ∉ F -> (forall u j, u <> g -> m1 u j = m u j) ->
  owned 4 m1 root = owned 4 m root /\ no_large 4 m1 root.
Proof.
  intros Hg Hm. apply owned_ext; [lia | done |]. intros u j Hu _. apply Hm. intros ->. by apply Hg, below_table.
Qed.

Lemma no_large_descend p f : tpath p -> (p = [] \/ low p) -> descend m 4 root p = Some f -> no_large (4 - length p) m f.
Proof.
  assert (G : forall q l t, (1 <= l <= 4)%nat -> no_large l m t -> Forall index q -> (length q < l)%nat ->
    (match q with [] => True | j :: _ => j ∈ slots l end) -> descend m l t q = Some f -> no_large (l - length q) m f).
  { induction q as [| j q IH]; intros l t Hl Ht Hq HL Hs HD; [injection HD as ->; by rewrite Nat.sub_0_r |].
    destruct l as [| b]; [lia |]. rewrite no_large_S in Ht. pose proof (Ht j Hs) as HF. simpl in HL.
    cbn [descend] in HD. rewrite fine_child in HD by (lia || done). destruct (has (m t j) PTE_PRESENT) eqn:HP; [| done].
    destruct (HF HP) as [_ HN']; [apply Nat.eqb_neq; lia |]. apply Forall_cons in Hq as [_ Hq].
    replace (S b - length (j :: q))%nat with (S b - 1 - length q)%nat by (simpl; lia).
    apply (IH _ (addr_of (m t j))); [lia | done | done | lia | | done].
    destruct q as [| x q]; [done |]. apply Forall_cons in Hq as [Hx _]. apply slots_low; [lia | done]. }
  intros [Hp HL] Hlow. apply G; [lia | done | done | lia |].
  destruct p as [| j p]; [done |]. destruct Hlow as [? | Hlow]; [done |]. by apply slots_elem.
Qed.

Context (p : list Z) (f i w : Z) (Hp : tpath p) (Hd : descend m 4 root p = Some f) (Hi : index i) (Hlow : low (p ++ [i])).
Let m' := set_word m f i w.
Let k := (4 - length p)%nat.

Lemma owned_entry : entry_fine k m' w ->
  no_large 4 m' root /\ owned 4 m' root ++ contrib k m (m f i) ≡ₚ owned 4 m root ++ contrib k m' w.
Proof.
  intros Hw. destruct Hp as [Hp1 Hp2]. apply owned_write; [lia | done | done | lia | done | | done | | done].
  - intros q Hq HL E. by apply (ws_inj m root F W q p f); [split; [done | lia] | | |].
  - destruct p; simpl in Hlow |- *; by apply slots_elem.
Qed.

Lemma entry_slot : i ∈ slots k.
Proof.
  unfold k. destruct p as [| j q]; [by apply slots_elem |]. apply slots_low; [simpl; lia | done].
Qed.

Lemma entry_old_fine : entry_fine k m (m f i).
Proof.
  assert (Hl : p = [] \/ low p) by (destruct p; [by left | right; exact Hlow]).
  pose proof (no_large_descend p f Hp Hl Hd) as HF. fold k in HF. pose proof entry_slot as Hs.
  destruct k as [| b] eqn:E; [unfold k in E; destruct Hp; lia |]. rewrite no_large_S in HF. by apply HF.
Qed.

(** a present entry keeps its table *)
Lemma owned_widen : (length p <= 2)%nat -> has (m f i) PTE_PRESENT = true -> has w PTE_PRESENT = true ->
  PTE_IS_LEAF w = false -> addr_of w = addr_of (m f i) ->
  no_large 4 m' root /\ owned 4 m' root ≡ₚ owned 4 m root.
Proof.
  intros HL HP HPw HLw EA. assert (H1 : (k =? 1)%nat = false) by (apply Nat.eqb_neq; unfold k; lia).
  destruct (entry_old_fine HP H1) as [HLf HNf].
  destruct (owned_ext (k - 1) m m' (addr_of (m f i))) as [EO HN']; [unfold k; lia | done | |].
  { intros u x (q & Hq & HLq & _ & HD) _. apply written_other. intros ->.
    assert (E : p ++ i :: q = p).
    { apply (ws_inj m root F W (p ++ i :: q) p f); [| done | | done].
      - split; [apply Forall_app; split; [apply Hp | by constructor] | rewrite length_app; simpl; unfold k in HLq; lia].
      - rewrite descend_app, Hd. fold k. cbn [descend]. rewrite fine_child, HP; [done | unfold k; lia | apply entry_old_fine]. }
    apply (f_equal length) in E. rewrite length_app in E. simpl in E. lia. }
  destruct owned_entry as [HN2 HPerm].
  { intros _ _. rewrite EA. done. }
  split; [done |]. unfold contrib in HPerm. rewrite HP, HPw, H1, EA, EO in HPerm. by apply Permutation_app_inv_r in HPerm.
Qed.

(** a new, empty table *)
Lemma owned_table g : (length p <= 2)%nat -> has (m f i) PTE_PRESENT = false -> has w PTE_PRESENT = true ->
  PTE_IS_LEAF w = false -> addr_of w = g -> g <> f -> (forall j, m g j = 0) ->
  no_large 4 m' root /\ owned 4 m' root ≡ₚ g :: owned 4 m root.
Proof.
  intros HL HP HPw HLw EA Ng HZ. assert (H1 : (k =? 1)%nat = false) by (apply Nat.eqb_neq; unfold k; lia).
  assert (HZ' : forall j, m' g j = 0) by (intros j; unfold m'; rewrite written_other by done; apply HZ).
  assert (Eg : owned (k - 1) m' g = [g] /\ no_large (k - 1) m' g).
  { destruct (k - 1)%nat as [| b] eqn:Ek; [unfold k in Ek; lia |]. rewrite owned_S, no_large_S. split.
    - replace (concat _) with (@nil Z); [done |]. symmetry. induction (slots (S b)) as [| x l IH]; [done |].
      cbn [map concat]. by rewrite HZ', IH.
    - intros x _. rewrite HZ'. done. }
  destruct owned_entry as [HN2 HPerm].
  { intros _ _. rewrite EA. split; [done | apply Eg]. }
  split; [done |]. unfold contrib in HPerm. rewrite HP, HPw, H1, EA, (proj1 Eg), app_nil_r in HPerm.
  rewrite HPerm. symmetry. apply Permutation_cons_append.
Qed.

(** a page entry *)
Definition page_part (e : Z) : list Z := if has e PTE_PRESENT then [addr_of e] else [].

Lemma owned_leaf : length p = 3%nat ->
  no_large 4 m' root /\ owned 4 m' root ++ page_part (m f i) ≡ₚ owned 4 m root ++ page_part w.
Proof.
  intros HL. assert (Ek : k = 1%nat) by (unfold k; lia).
  destruct owned_entry as [HN2 HPerm]; [intros _ H1; by rewrite Ek in H1 |].
  split; [done |]. unfold contrib in HPerm. rewrite Ek in HPerm. exact HPerm.
Qed.
End Space.
