(* ===== verification/VmmSpec.v ===== *)
(** * The operations of Vmm.v against the processor's translation

    Each operation is a sequence of writes to entries, and each write is one of
    the cases of VmmWalk.v; [owned] of VmmOwned.v accounts for the frames. *)

From stdpp Require Import base list.
From S2P Require Import Prelude Pmm PageAlloc Vmm VmmWalk VmmOwned.

(** ** One level of a mapping *)

(** no large page covers [v] *)
Definition fine (m : tables) (root v : Z) : Prop :=
  forall l e, walk m 4 root (path v) = Some (l, e) -> l = 1%nat.

(** every translation is kept, and large pages appear nowhere new *)
Definition keeps (m m' : tables) (root : Z) : Prop :=
  forall v, translate m' root v = translate m root v /\ (fine m root v -> fine m' root v).

Lemma keeps_eq m m' root v : keeps m m' root -> translate m' root v = translate m root v.
Proof. intros K. apply K. Qed.

Lemma keeps_fine m m' root v : keeps m m' root -> fine m root v -> fine m' root v.
Proof. intros K. apply K. Qed.

Lemma keeps_walk m m' root : (forall v, walk m' 4 root (path v) = walk m 4 root (path v)) -> keeps m m' root.
Proof. intros H v. unfold translate, fine. by rewrite H. Qed.

Lemma keeps_trans m1 m2 m3 root : keeps m1 m2 root -> keeps m2 m3 root -> keeps m1 m3 root.
Proof. intros H1 H2 v. destruct (H1 v) as [E1 F1], (H2 v) as [E2 F2]. rewrite E2. auto. Qed.

(** the frames [L] join those of the lower half *)
Definition grows (m m' : tables) (root : Z) (L : list Z) : Prop :=
  no_large 4 m root -> no_large 4 m' root /\ owned 4 m' root ≡ₚ L ++ owned 4 m root.

Lemma grows_trans m1 m2 m3 root L1 L2 : grows m1 m2 root L1 -> grows m2 m3 root L2 -> grows m1 m3 root (L2 ++ L1).
Proof.
  intros H1 H2 HN. destruct (H1 HN) as [HN1 E1]. destruct (H2 HN1) as [HN2 E2]. split; [done |].
  by rewrite E2, E1, app_assoc.
Qed.

Section Levels.
Context {P : Type} {PA : PageAllocator P}.

Definition space_ok (root : Z) (F : list Z) (s : vm P) : Prop := wf_space (tabs s) root F /\ held (frames s) F.

(** [s'] is [s] after the descent through entry [i] of table [t] at path [p] *)
Definition entered (root : Z) (p : list Z) (t i flags : Z) (F : list Z) (s s' : vm P) (t' : Z) : Prop :=
  exists N, space_ok root (N ++ F) s' /\ descend (tabs s') 4 root p = Some t /\
    descend (tabs s') 4 root (p ++ [i]) = Some t' /\ keeps (tabs s) (tabs s') root /\
    has (tabs s' t i) PTE_WRITABLE = true /\ (has flags PTE_USER = true -> has (tabs s' t i) PTE_USER = true) /\
    (forall u j, u ∈ F -> (u, j) <> (t, i) -> tabs s' u j = tabs s u j) /\
    (low (p ++ [i]) -> grows (tabs s) (tabs s') root N).

(** what the level splits, if anything *)
Definition split_of (l : nat) : option Z := match l with 4%nat => None | _ => Some (part_size l) end.

Section Enter.
Context (root : Z) (F : list Z) (s : vm P) (p : list Z) (i t flags : Z).
Context (OK : space_ok root F s) (Hp : tpath p) (Hl : (length p <= 2)%nat) (Hi : index i).
Context (Ht : descend (tabs s) 4 root p = Some t).

Let l := (4 - length p)%nat.

Lemma enter_table_facts : (t ∈ F) /\ is_frame t = true /\ entry_ok l (tabs s t i).
Proof.
  destruct OK as [W _]. destruct (ws_table _ _ _ W p t Hp Ht) as (H1 & H2 & H3).
  split; [done |]. split; [by apply frame_is_frame | by apply H3].
Qed.

Lemma enter_level : (l = 4 \/ l = 3 \/ l = 2)%nat.
Proof. unfold l. lia. Qed.

(** a new table [g] put under the entry *)
Lemma enter_new g fr m1 : frame g -> g ∉ F -> held fr (g :: F) ->
  (forall u j, u <> g -> m1 u j = tabs s u j) ->
  (forall j, index j -> entry_ok (l - 1) (m1 g j) /\ is_table (l - 1) (m1 g j) = false) ->
  let m' := set_word m1 t i (table_entry g flags) in
  keeps m1 m' root -> (low (p ++ [i]) -> grows (tabs s) m' root [g]) ->
  entered root p t i flags F s (mk_vm m' fr) g.
Proof.
  intros Hg Hn Hh Hm Hc m' HK HG. destruct OK as [W _]. destruct enter_table_facts as (HtF & _ & _).
  pose proof (fresh_wf _ _ _ W g Hn m1 Hm) as W1.
  assert (D1 : descend m1 4 root p = Some t) by (by rewrite (fresh_descend _ _ _ W g Hn m1 Hm)).
  assert (HT : is_table l (table_entry g flags) = true /\ entry_ok l (table_entry g flags))
    by (apply table_entry_ok; [done | unfold l; lia]). destruct HT as [HT HE].
  assert (Hl1 : (3 - length p = l - 1)%nat) by (unfold l; lia).
  assert (W' : wf_space m' root (g :: F)).
  { apply (write_new_wf m1 root F W1 p i t (table_entry g flags) Hp Hi D1 g HE HT (table_entry_addr g flags Hg) Hg).
    - intros q Hq. by apply (fresh_not_table _ _ _ W g Hn m1 Hm).
    - intros j Hj. rewrite Hl1. by apply Hc. }
  exists [g]. split; [done |].
  split; [by apply (write_root m1 root F W1 p i t _ Hp D1) |]. split.
  { cbn [tabs]. pose proof (write_through m1 root F W1 p i t (table_entry g flags) Hp D1 []) as D. fold l m' in D.
    by rewrite D, HT, table_entry_addr. }
  split; [eapply keeps_trans; [| exact HK]; apply keeps_walk; intros v; by apply (fresh_walk _ _ _ W g Hn) |].
  cbn [tabs]. unfold m' at 1 2. rewrite set_word_same. destruct (table_entry_rights g flags) as [R1 R2].
  split; [done |]. split; [done |]. split; [| exact HG]. intros u j Hu Hne. unfold m'. rewrite set_word_other by done.
  apply Hm. intros ->. by destruct Hn.
Qed.

(** the same entry with wider rights *)
Lemma enter_same : is_table l (tabs s t i) = true ->
  entered root p t i flags F s (mk_vm (set_word (tabs s) t i (widen (tabs s t i) flags)) (frames s))
    (addr_of (tabs s t i)).
Proof.
  intros HT. destruct OK as [W Hh]. destruct enter_table_facts as (HtF & _ & HE).
  destruct (widen_ok l _ flags HT HE) as [HE' HA].
  exists []. split.
  { split; [| done]. by apply (write_same_wf _ _ _ W p i t _ Hp Ht). }
  split; [by apply (write_root _ _ _ W p i t _ Hp Ht) |]. split.
  { cbn [tabs]. pose proof (write_through _ _ _ W p i t (widen (tabs s t i) flags) Hp Ht []) as D. fold l in D.
    by rewrite D, is_table_widen, HT, widen_addr. }
  split; [apply keeps_walk; intros v; by apply (write_same_walk _ _ _ W p i t _ Hp Ht) |].
  cbn [tabs]. rewrite set_word_same. destruct (widen_rights (tabs s t i) flags) as [R1 R2].
  split; [done |]. split; [done |]. split; [intros u j _ Hne; by apply set_word_other |]. intros Hlow HN.
  assert (HP : has (tabs s t i) PTE_PRESENT = true)
    by (unfold is_table in HT; apply andb_true_iff in HT as [HT _]; by apply andb_true_iff in HT as [_ HT]).
  assert (H1 : (4 - length p =? 1)%nat = false) by (apply Nat.eqb_neq; lia).
  destruct (entry_old_fine _ _ HN p t i Hp Ht Hi Hlow HP H1) as [HLf _].
  destruct (widen_bits (tabs s t i) flags) as [B1 B2].
  apply (owned_widen _ _ F W HN p t i); [done | done | done | done | done | done | | | apply widen_addr].
  - by rewrite B1.
  - by rewrite B2.
Qed.

(** ** Translations through a new table *)

Section NewTable.
Context (g : Z) (m1 : tables) (Hg : frame g) (Hn : g ∉ F) (Hm : forall u j, u <> g -> m1 u j = tabs s u j).

Let m' := set_word m1 t i (table_entry g flags).

Lemma new_table_off v : ~ through p i (path v) ->
  translate m' root v = translate m1 root v /\ (fine m1 root v -> fine m' root v).
Proof.
  intros N. unfold translate, fine, m'. destruct OK as [W _]. pose proof (fresh_wf _ _ _ W g Hn m1 Hm) as W1.
  assert (D1 : descend m1 4 root p = Some t) by (by rewrite (fresh_descend _ _ _ W g Hn m1 Hm)).
  by rewrite (walk_off m1 root F W1 p i t _ Hp D1).
Qed.

(** the old entry ends the walk, the new one continues it in [g] *)
Lemma new_table_through v r : path v = p ++ i :: r ->
  walk m1 4 root (path v) = walk m1 l t (i :: r) /\ walk m' 4 root (path v) = walk m' (l - 1) g r.
Proof.
  intros E. destruct OK as [W _]. pose proof (fresh_wf _ _ _ W g Hn m1 Hm) as W1.
  assert (D1 : descend m1 4 root p = Some t) by (by rewrite (fresh_descend _ _ _ W g Hn m1 Hm)).
  rewrite E. split; [by apply walk_descend |].
  unfold m'. rewrite (walk_through m1 root F W1 p i t _ Hp D1). fold l. cbn [walk]. rewrite set_word_same.
  assert (HT : is_table l (table_entry g flags) = true) by (apply table_entry_ok; [done | unfold l; lia]).
  by rewrite HT, table_entry_addr.
Qed.

Lemma new_table_words j : m' g j = m1 g j.
Proof.
  apply set_word_other. intros E. injection E as E _. apply Hn. rewrite E. by destruct enter_table_facts.
Qed.

Lemma new_table_old : m1 t i = tabs s t i.
Proof. apply Hm. intros E. apply Hn. rewrite <- E. by destruct enter_table_facts. Qed.

End NewTable.

Lemma path_rest v r : path v = p ++ i :: r ->
  exists j r', r = j :: r' /\ index j /\ j = nth (4 - l) [PDPT_IDX v; PD_IDX v; PT_IDX v] 0.
Proof.
  intros E. pose proof (idx_range v) as [[_ ?] [? ?]]. unfold l, path in *.
  destruct p as [| a [| b [| c q]]]; simpl in E, Hl |- *; [| | | lia]; injection E; intros; subst;
    eexists _, _; (split; [reflexivity | split; [done | reflexivity]]).
Qed.

Lemma enter_absent g fr : has (tabs s t i) PTE_PRESENT = false -> frame g -> g ∉ F -> held fr (g :: F) ->
  entered root p t i flags F s
    (mk_vm (set_word (set_frame (tabs s) g (fun _ => 0)) t i (table_entry g flags)) fr) g.
Proof.
  intros HA Hg Hn Hh. set (m1 := set_frame (tabs s) g (fun _ => 0)).
  assert (Hm : forall u j, u <> g -> m1 u j = tabs s u j)
    by (intros u j N; unfold m1, set_frame; by rewrite (proj2 (Z.eqb_neq u g))).
  assert (Z0 : forall j, m1 g j = 0) by (intros j; unfold m1, set_frame; by rewrite Z.eqb_refl).
  assert (N0 : forall k, is_table k 0 = false) by (intros k; unfold is_table; by rewrite andb_false_r).
  apply enter_new; [done | done | done | done | | |].
  - intros j _. rewrite Z0, N0. split; [| done]. split; [done |]. split; [by rewrite N0 | done].
  - intros v. destruct (decide (through p i (path v))) as [[r E] | N]; [| by apply new_table_off].
    destruct (new_table_through g m1 Hg Hn Hm v r E) as [W1 W2]. unfold translate, fine. rewrite W1, W2.
    destruct (path_rest v r E) as (j & r' & -> & _ & _). cbn [walk].
    rewrite (new_table_words g m1 Hn), Z0, N0, (new_table_old g m1 Hn Hm).
    replace (is_table l (tabs s t i)) with false by (unfold is_table; by rewrite HA, andb_false_r).
    by rewrite HA.
  - intros Hlow HN. destruct OK as [W _]. destruct enter_table_facts as (HtF & _ & _).
    destruct (owned_fresh _ _ F W HN g m1 Hn Hm) as [E1 HN1].
    assert (D1 : descend m1 4 root p = Some t) by (by rewrite (fresh_descend _ _ _ W g Hn m1 Hm)).
    destruct (table_entry_bits g flags Hg) as [B1 B2]. rewrite <- E1.
    apply (owned_table m1 root F (fresh_wf _ _ _ W g Hn m1 Hm) HN1 p t i); [done | done | done | done | done | | done | done
      | by apply table_entry_addr | | done].
    + by rewrite (new_table_old g m1 Hn Hm).
    + intros ->. by apply Hn.
Qed.

Lemma enter_split g fr m1 : (l = 3 \/ l = 2)%nat -> PTE_IS_LEAF (tabs s t i) = true ->
  frame g -> g ∉ F -> held fr (g :: F) ->
  (forall u j, u <> g -> m1 u j = tabs s u j) ->
  (forall j, index j -> m1 g j = part (tabs s t i) (part_size l) j) ->
  entered root p t i flags F s (mk_vm (set_word m1 t i (table_entry g flags)) fr) g.
Proof.
  intros Hl3 HL Hg Hn Hh Hm Hparts. destruct enter_table_facts as (_ & _ & HE).
  apply enter_new; [done | done | done | done | | |].
  - intros j Hj. rewrite Hparts by done. by apply part_entry.
  - intros v. destruct (decide (through p i (path v))) as [[r E] | N]; [| by apply new_table_off].
    destruct (new_table_through g m1 Hg Hn Hm v r E) as [W1 W2]. unfold translate, fine. rewrite W1, W2.
    destruct (path_rest v r E) as (j & r' & -> & Hj & Ej). cbn [walk].
    rewrite (new_table_words g m1 Hn), (new_table_old g m1 Hn Hm), Hparts by done.
    rewrite (proj2 (part_entry l _ j Hl3 HE HL Hj)), (proj2 (part_leaf l _ j Hl3 HE HL Hj)).
    replace (is_table l (tabs s t i)) with false
      by (unfold is_table; rewrite HL; by destruct Hl3 as [-> | ->]; rewrite ?andb_false_r).
    pose proof HL as HB. rewrite leaf_bits, <- present_bit in HB. apply andb_true_iff in HB as [-> _].
    rewrite (part_page l _ j Hl3 HE HL Hj v Ej), (part_rights l _ j Hl3 HE HL Hj); [| done | done].
    split; [done |]. intros HF. specialize (HF _ _ eq_refl). lia.
  - intros Hlow HN. exfalso. pose proof HL as HB. rewrite leaf_bits, <- present_bit in HB. apply andb_true_iff in HB as [HPr _].
    destruct OK as [W _]. destruct (entry_old_fine _ _ HN p t i Hp Ht Hi Hlow HPr) as [HLf _]; [apply Nat.eqb_neq; lia |].
    by rewrite HL in HLf.
Qed.

Lemma next_table_ok : exists r s', next_table t i flags (split_of l) s = Ok (r, s') /\
  match r with None => s' = s | Some t' => entered root p t i flags F s s' t' end.
Proof.
  destruct enter_table_facts as (HtF & HtT & HE). destruct OK as [W Hh].
  assert (Same : s = mk_vm (tabs s) (frames s)) by (by destruct s).
  unfold next_table, get_word, clear_frame, put_word. rewrite HtT. cbn [res_bind].
  destruct (has (tabs s t i) PTE_PRESENT) eqn:HPr; cbn [negb].
  2:{ destruct (page_alloc_held _ _ Hh) as (g & fr & -> & [[-> ->] | (Hg & Hn & Hh')]); cbn [res_bind].
      { rewrite Z.eqb_refl. exists None, s. by rewrite <- Same. }
      rewrite (proj2 (Z.eqb_neq g 0)), frame_is_frame by (done || (destruct Hg; lia)). cbn [res_bind].
      rewrite table_entry_addr by done. eexists (Some g), _. split; [done |]. by apply enter_absent. }
  destruct (PTE_IS_LEAF (tabs s t i)) eqn:HL, (split_of l) as [size |] eqn:HS.
  - assert (Hl3 : (l = 3 \/ l = 2)%nat) by (destruct enter_level as [E | E]; [by rewrite E in HS | done]).
    assert (size = part_size l) as -> by (destruct Hl3 as [E | E]; rewrite E in *; by injection HS).
    destruct (page_alloc_held _ _ Hh) as (g & fr & -> & [[-> ->] | (Hg & Hn & Hh')]); cbn [res_bind].
    { rewrite Z.eqb_refl. exists None, s. by rewrite <- Same. }
    rewrite (proj2 (Z.eqb_neq g 0)), frame_is_frame by (done || (destruct Hg; lia)). cbn [res_bind].
    rewrite widen_table_entry, table_entry_addr by done. eexists (Some g), _. split; [done |].
    apply enter_split; [done | done | done | done | done | |].
    + intros u j N. unfold set_frame. by rewrite !(proj2 (Z.eqb_neq u g)).
    + intros j Hj. unfold set_frame at 1. rewrite Z.eqb_refl. unfold index in Hj.
      by rewrite (proj2 (Z.leb_le 0 j)), (proj2 (Z.ltb_lt j 512)) by lia.
  - rewrite widen_addr. eexists (Some _), _. split; [done |]. apply enter_same.
    destruct enter_level as [E | [E | E]]; rewrite E in *; try done. unfold is_table. by rewrite HPr.
  - rewrite widen_addr. eexists (Some _), _. split; [done |]. apply enter_same.
    unfold is_table. rewrite HPr, HL, andb_false_r. by destruct enter_level as [-> | [-> | ->]].
  - rewrite widen_addr. eexists (Some _), _. split; [done |]. apply enter_same.
    unfold is_table. rewrite HPr, HL, andb_false_r. by destruct enter_level as [-> | [-> | ->]].
Qed.

End Enter.
Lemma masked v : is_u64 v -> Z.land v MASK_4K = v - v mod 4096.
Proof. intros H. exact (land_lnot_ones 12 v ltac:(lia) H). Qed.

Lemma path_masked v : is_u64 v -> path (Z.land v MASK_4K) = path v.
Proof.
  intros H. rewrite masked by done. unfold path, PML4_IDX, PDPT_IDX, PD_IDX, PT_IDX.
  rewrite !idx_field by lia. change (2 ^ 39) with 549755813888. change (2 ^ 30) with 1073741824.
  change (2 ^ 21) with 2097152. change (2 ^ 12) with 4096.
  f_equal; [zlia |]. f_equal; [zlia |]. f_equal; [zlia |]. f_equal. zlia.
Qed.

(** paths are the 36 bits that select a page *)
Lemma path_eq a b : path a = path b <-> a / 4096 mod 68719476736 = b / 4096 mod 68719476736.
Proof.
  unfold path, PML4_IDX, PDPT_IDX, PD_IDX, PT_IDX. rewrite !idx_field by lia.
  change (2 ^ 39) with 549755813888. change (2 ^ 30) with 1073741824.
  change (2 ^ 21) with 2097152. change (2 ^ 12) with 4096. split.
  - intros E. injection E as E4 E3 E2 E1. zlia.
  - intros E. f_equal; [zlia |]. f_equal; [zlia |]. f_equal; [zlia |]. f_equal. zlia.
Qed.

Lemma rights_addr a : Z.land (addr_of a) RIGHTS = 0.
Proof. unfold addr_of. rewrite <- Z.land_assoc. apply Z.land_0_r. Qed.

(** every table on the way to [v] is writable, and open to user mode if [user] *)
Definition open_entry (user : bool) (e : Z) : Prop :=
  has e PTE_WRITABLE = true /\ (user = true -> has e PTE_USER = true).
Definition open_path (m : tables) (root v : Z) (user : bool) : Prop :=
  exists t3 t2, descend m 4 root [PML4_IDX v] = Some t3 /\ descend m 4 root [PML4_IDX v; PDPT_IDX v] = Some t2 /\
    open_entry user (m root (PML4_IDX v)) /\ open_entry user (m t3 (PDPT_IDX v)) /\ open_entry user (m t2 (PD_IDX v)).

Definition PTE_FLAGS (flags : Z) : Prop := is_u64 flags /\ has flags PTE_PRESENT = true /\ addr_of flags = 0.

Section Map.
Context (root : Z) (vaddr paddr flags : Z) (Hv : is_u64 vaddr) (Hflags : PTE_FLAGS flags).

Let i4 := PML4_IDX vaddr.
Let i3 := PDPT_IDX vaddr.
Let i2 := PD_IDX vaddr.
Let i1 := PT_IDX vaddr.

(** tables on the way to the page *)
Definition on_path (m : tables) (u : Z) : Prop :=
  exists q r, path vaddr = q ++ r /\ (length q <= 3)%nat /\ descend m 4 root q = Some u.

(** [s'] is [s] with the tables [N] added and the tables [T] on the way written *)
Definition trail (T F : list Z) (s s' : vm P) (N : list Z) : Prop :=
  space_ok root (N ++ F) s' /\ keeps (tabs s) (tabs s') root /\
  (low (path vaddr) -> grows (tabs s) (tabs s') root N) /\
  forall u j, u ∈ F -> u ∉ T -> tabs s' u j = tabs s u j.

Definition path_trail (F : list Z) (s s' : vm P) (N : list Z) : Prop :=
  exists T, trail T F s s' N /\ Forall (on_path (tabs s')) T.

(** the state once the three tables exist *)
Definition reached (F : list Z) (s s' : vm P) (pt : Z) : Prop :=
  exists N, path_trail F s s' N /\
    descend (tabs s') 4 root [i4; i3; i2] = Some pt /\ open_path (tabs s') root vaddr (has flags PTE_USER).

Lemma tpaths : tpath [] /\ tpath [i4] /\ tpath [i4; i3] /\ tpath [i4; i3; i2] /\ index i4 /\ index i3 /\ index i2 /\ index i1.
Proof.
  pose proof (idx_range vaddr) as [[? ?] [? ?]]. unfold tpath, index, i4, i3, i2, i1.
  repeat split; repeat (apply Forall_cons; split); try apply Forall_nil; simpl; done || lia.
Qed.

(** tables at the different levels of the path are different *)
Lemma distinct_tables m F p q t u : wf_space m root F -> tpath p -> tpath q -> length p <> length q ->
  descend m 4 root p = Some t -> descend m 4 root q = Some u -> t <> u.
Proof. intros W Hp' Hq N Ht Hu ->. apply N. f_equal. by apply (ws_inj m root F W p q u). Qed.

Lemma on_path_owned m u : low (path vaddr) -> no_large 4 m root -> on_path m u -> u ∈ owned 4 m root.
Proof.
  intros Hlow HN (q & r & Eq & HL & HD). apply below_owned; [lia | done |].
  assert (HF : Forall index (path vaddr)) by (destruct tpaths as (_ & _ & _ & _ & ? & ? & ? & ?); repeat (apply Forall_cons; split; [done |]); constructor).
  rewrite Eq, Forall_app in HF. exists q. split; [apply HF |]. split; [lia |]. split; [| done].
  destruct q as [| j q]; [done |]. rewrite Eq in Hlow. by apply slots_elem.
Qed.

Lemma trail_refl F s : space_ok root F s -> trail [] F s s [].
Proof. intros OK. split; [done |]. split; [by apply keeps_walk |]. split; [| done]. by intros _ HN. Qed.

(** one more level *)
Lemma trail_enter T F s s1 s2 N p i t t' r : trail T F s s1 N -> path vaddr = p ++ i :: r ->
  entered root p t i flags (N ++ F) s1 s2 t' -> exists N', trail (t :: T) F s s2 N'.
Proof.
  intros (OK & K & G & Off) Ep (N1 & OK1 & D1 & D2 & K1 & R1 & R2 & Same & G1).
  exists (N1 ++ N). split; [by rewrite <- app_assoc |]. split; [by eapply keeps_trans |]. split.
  - intros Hlow. eapply grows_trans; [by apply G |]. apply G1. rewrite Ep in Hlow. by destruct p.
  - intros u j Hu [Hn Hn']%not_elem_of_cons. rewrite Same; [by apply Off | apply elem_of_app; by right | congruence].
Qed.

Definition three_levels (s : vm P) : res (option Z * vm P) :=
  let! (a, s) := next_table root i4 flags (split_of 4) s in
  match a with
  | None => Ok (None, s)
  | Some a =>
      let! (b, s) := next_table a i3 flags (split_of 3) s in
      match b with
      | None => Ok (None, s)
      | Some b => next_table b i2 flags (split_of 2) s
      end
  end.

(** the tables of the first two levels at the end *)
Lemma two_levels_kept F s1 s2 (s3 : vm P) t3 t2 N1 N2 : space_ok root (N1 ++ F) s1 -> space_ok root (N2 ++ F) s2 ->
  entered root [i4] t3 i3 flags (N1 ++ F) s1 s2 t2 ->
  descend (tabs s2) 4 root [i4; i3] = Some t2 ->
  (forall u j, u ∈ N2 ++ F -> (u, j) <> (t2, i2) -> tabs s3 u j = tabs s2 u j) ->
  tabs s3 root i4 = tabs s1 root i4 /\ tabs s3 t3 i3 = tabs s2 t3 i3.
Proof.
  intros OK1 OK2 (N & _ & D1 & _ & _ & _ & _ & Same2 & _) D2 Same3.
  destruct tpaths as (P0 & P1 & P2 & _).
  assert (Hroot : forall F0 s0, space_ok root F0 s0 -> root ∈ F0)
    by (intros F0 s0 [W0 _]; by apply (ws_table _ _ _ W0 [] root P0)).
  assert (root <> t3) by (eapply (distinct_tables _ (N2 ++ F) [] [i4]); [apply OK2 | done.. | reflexivity | done]).
  assert (root <> t2) by (eapply (distinct_tables _ (N2 ++ F) [] [i4; i3]); [apply OK2 | done.. | reflexivity | done]).
  assert (t3 <> t2) by (eapply (distinct_tables _ (N2 ++ F) [i4] [i4; i3]); [apply OK2 | done.. | done]).
  assert (t3 ∈ N2 ++ F) by (by apply (ws_table _ _ _ (proj1 OK2) [i4] t3)).
  split; [| apply Same3; [done | congruence]].
  rewrite Same3; [apply Same2; [by eapply Hroot | congruence] | by eapply Hroot | congruence].
Qed.

Lemma three_levels_ok F s : space_ok root F s ->
  exists r s', three_levels s = Ok (r, s') /\
    match r with Some pt => reached F s s' pt | None => exists N, path_trail F s s' N end.
Proof.
  intros OK. destruct tpaths as (P0 & P1 & P2 & P3 & I4 & I3 & I2 & I1). unfold three_levels.
  assert (Hpath : path vaddr = [i4; i3; i2; i1]) by done. pose proof (trail_refl F s OK) as Tr0.
  assert (On0 : forall m, on_path m root) by (intros m; by exists [], (path vaddr); split; [| split; [simpl; lia |]]).
  destruct (next_table_ok root F s [] i4 root flags OK P0 ltac:(simpl; lia) I4 eq_refl) as (r & s1 & E1 & R1).
  cbn [length Nat.sub] in E1. rewrite E1. cbn [res_bind].
  destruct r as [t3 |]; [| subst; exists None, s; split; [done |]; exists [], []; by split].
  destruct (trail_enter [] F s s s1 [] [] i4 root t3 [i3; i2; i1] Tr0 Hpath R1) as [N1 Tr1].
  pose proof R1 as (_ & _ & _ & D1 & _ & W4 & U4 & _). simpl in D1. pose proof (proj1 Tr1) as OK1.
  destruct (next_table_ok root (N1 ++ F) s1 [i4] i3 t3 flags OK1 P1 ltac:(simpl; lia) I3 D1) as (r & s2 & E2 & R2).
  cbn [length Nat.sub] in E2. rewrite E2. cbn [res_bind].
  destruct r as [t2 |]; [| subst; exists None, s1; split; [done |]; exists N1, [root]; by split; [| repeat constructor]].
  destruct (trail_enter _ F s s1 s2 N1 [i4] i3 t3 t2 [i2; i1] Tr1 Hpath R2) as [N2 Tr2].
  pose proof R2 as (_ & _ & D1' & D2 & _ & W3 & U3 & _). simpl in D2. pose proof (proj1 Tr2) as OK2.
  destruct (next_table_ok root (N2 ++ F) s2 [i4; i3] i2 t2 flags OK2 P2 ltac:(simpl; lia) I2 D2) as (r & s3 & E3 & R3).
  cbn [length Nat.sub] in E3. rewrite E3. exists r, s3. split; [done |].
  assert (On1 : forall m, descend m 4 root [i4] = Some t3 -> on_path m t3)
    by (intros m Dm; by exists [i4], [i3; i2; i1]; split; [| split; [simpl; lia |]]).
  destruct r as [pt |].
  2:{ subst. exists N2, [t3; root]. split; [done |]. repeat constructor; auto. }
  destruct (trail_enter _ F s s2 s3 N2 [i4; i3] i2 t2 pt [i1] Tr2 Hpath R3) as [N3 Tr3].
  pose proof R3 as (_ & _ & D2' & D3 & _ & W2 & U2 & Same3 & _).
  destruct (two_levels_kept F s1 s2 s3 t3 t2 N1 N2 OK1 OK2 R2 D2 Same3) as [R31 T32].
  assert (D13 : descend (tabs s3) 4 root [i4] = Some t3) by (simpl in D1 |- *; unfold child in *; by rewrite R31).
  exists N3. split; [| split; [done |]].
  - exists [t2; t3; root]. split; [done |]. repeat constructor; auto.
    by exists [i4; i3], [i2; i1]; split; [| split; [simpl; lia |]].
  - exists t3, t2. fold i4 i3 i2. split; [done |]. split; [done |]. rewrite R31, T32. done.
Qed.

Lemma vmm_map_levels ow s : __vmm_map root vaddr paddr flags ow s =
  let! (pt, s) := three_levels s in
  match pt with
  | None => Ok (-1, s)
  | Some pt =>
      let! e := get_word (tabs s) pt i1 in
      if has e PTE_PRESENT && negb ow then Panic
      else let! m := put_word (tabs s) pt i1 (Z.lor (addr_of paddr) flags) in Ok (0, with_tabs m s)
  end.
Proof.
  unfold __vmm_map, three_levels. pose proof (path_masked vaddr Hv) as E. unfold path in E.
  injection E as E4 E3 E2 E1. rewrite E4, E3, E2, E1. fold i4 i3 i2 i1.
  change (split_of 4) with (@None Z). change (split_of 3) with (Some 2097152). change (split_of 2) with (Some 4096).
  destruct (next_table root i4 flags None s) as [[[a |] s1] | |]; cbn [res_bind]; try done.
  destruct (next_table a i3 flags (Some 2097152) s1) as [[[b |] s2] | |]; cbn [res_bind]; done.
Qed.

(** the outcome of a mapping *)
Definition mapped (ow : bool) (F : list Z) (s : vm P) (r : res (Z * vm P)) : Prop :=
  r = Panic /\ ow = false /\ translate (tabs s) root vaddr <> None \/
  exists c s' N, r = Ok (c, s') /\ space_ok root (N ++ F) s' /\
    (forall u j, u ∈ F -> ~ on_path (tabs s') u -> tabs s' u j = tabs s u j) /\
    (c = -1 /\ keeps (tabs s) (tabs s') root /\ (low (path vaddr) -> grows (tabs s) (tabs s') root N) \/
     c = 0 /\ (ow = false -> translate (tabs s) root vaddr = None) /\
     translate (tabs s') root vaddr = Some (addr_of paddr, Z.land flags RIGHTS) /\
     (forall v, path v <> path vaddr -> translate (tabs s') root v = translate (tabs s) root v) /\
     (forall v, path v = path vaddr \/ fine (tabs s) root v -> fine (tabs s') root v) /\
     open_path (tabs s') root vaddr (has flags PTE_USER) /\
     (low (path vaddr) -> translate (tabs s) root vaddr = None -> grows (tabs s) (tabs s') root (addr_of paddr :: N))).


Lemma leaf_translate m pt : descend m 4 root [i4; i3; i2] = Some pt ->
  translate m root vaddr =
    if has (m pt i1) PTE_PRESENT then Some (addr_of (m pt i1), Z.land (m pt i1) RIGHTS) else None.
Proof.
  intros D. unfold translate. change (path vaddr) with ([i4; i3; i2] ++ [i1]).
  rewrite (walk_descend _ _ _ _ _ _ D). simpl. by destruct (has (m pt i1) PTE_PRESENT).
Qed.

(** writing the last entry of the path touches the translation of its page only *)
Lemma leaf_write F s pt w : space_ok root F s -> descend (tabs s) 4 root [i4; i3; i2] = Some pt -> is_u64 w ->
  let m' := set_word (tabs s) pt i1 w in
  wf_space m' root F /\ descend m' 4 root [i4; i3; i2] = Some pt /\
  (forall v, path v <> path vaddr -> translate m' root v = translate (tabs s) root v) /\
  (forall v, path v = path vaddr \/ fine (tabs s) root v -> fine m' root v) /\
  (forall user, open_path (tabs s) root vaddr user -> open_path m' root vaddr user) /\
  (forall u, on_path (tabs s) u -> on_path m' u) /\
  (low (path vaddr) -> no_large 4 (tabs s) root -> no_large 4 m' root /\
     owned 4 m' root ++ page_part (tabs s pt i1) ≡ₚ owned 4 (tabs s) root ++ page_part w).
Proof.
  intros [W _] D Hw m'. destruct tpaths as (P0 & P1 & P2 & P3 & I4 & I3 & I2 & I1).
  assert (D' : descend m' 4 root [i4; i3; i2] = Some pt) by (by apply (write_root _ _ _ W [i4; i3; i2] i1 pt w P3 D)).
  split; [apply (write_end_wf _ _ _ W [i4; i3; i2] i1 pt w P3 D); [| done]; split; [done | split; done] |].
  assert (Off : forall v, path v <> path vaddr -> walk m' 4 root (path v) = walk (tabs s) 4 root (path v)).
  { intros v N. unfold m'. rewrite (walk_off _ _ _ W [i4; i3; i2] i1 pt w P3 D); [done |].
    intros [r E]. apply N. rewrite E. destruct r; [done |]. apply (f_equal length) in E. simpl in E. lia. }
  assert (Hoff : forall q, tpath q -> (length q <= 3)%nat -> descend m' 4 root q = descend (tabs s) 4 root q).
  { intros q Hq HL. apply (write_off _ _ _ W [i4; i3; i2] i1 pt w P3 D q Hq). intros [r E].
    apply (f_equal length) in E. rewrite length_app in E. simpl in E. lia. }
  split; [done |]. split; [| split; [| split; [| split]]].
  - intros v N. unfold translate. by rewrite Off.
  - intros v HF l e. destruct (decide (path v = path vaddr)) as [E | N].
    + rewrite E. change (path vaddr) with ([i4; i3; i2] ++ [i1]). rewrite (walk_descend _ _ _ _ _ _ D'). simpl.
      destruct (has _ _); [| done]. congruence.
    + rewrite Off by done. destruct HF as [|HF]; [done |]. apply HF.
  - intros user (t3 & t2 & D1 & D2 & O4 & O3 & O2). exists t3, t2. fold i4 i3 i2 in D1, D2, O4, O3, O2 |- *.
    rewrite !Hoff by (done || simpl; lia). unfold m'.
    rewrite !set_word_other; [done | | |]; intros E; injection E as E _; revert E.
    + eapply (distinct_tables (tabs s) F [i4; i3] [i4; i3; i2]); done.
    + eapply (distinct_tables (tabs s) F [i4] [i4; i3; i2]); done.
    + eapply (distinct_tables (tabs s) F [] [i4; i3; i2]); done.
  - intros u (q & r & Eq & HL & HD). exists q, r. split; [done |]. split; [done |]. rewrite Hoff; [done | | done].
    assert (HF : Forall index (path vaddr)) by (repeat (apply Forall_cons; split; [done |]); constructor).
    rewrite Eq, Forall_app in HF. split; [apply HF | done].
  - intros Hlow HN. by apply (owned_leaf _ _ F W HN [i4; i3; i2] pt i1 w P3 D I1).
Qed.

(** the page entry [__vmm_map] writes *)
Lemma page_entry_ok : let w := Z.lor (addr_of paddr) flags in
  is_u64 w /\ has w PTE_PRESENT = true /\ addr_of w = addr_of paddr /\ Z.land w RIGHTS = Z.land flags RIGHTS.
Proof.
  destruct Hflags as (Hf & HPr & HA). intros w. split; [| split; [| split]].
  - unfold w, is_u64. change 18446744073709551616 with (2 ^ 64) in *. apply lor_small; [lia | | exact Hf].
    apply land_small; [lia |]. vm_compute. split; congruence.
  - unfold w, has. rewrite Z.land_lor_distr_l. replace (Z.land (addr_of paddr) PTE_PRESENT) with 0
      by (unfold addr_of; rewrite <- Z.land_assoc; symmetry; apply Z.land_0_r).
    by rewrite Z.lor_0_l.
  - unfold w. rewrite addr_lor, HA, Z.lor_0_r. unfold addr_of. by rewrite <- Z.land_assoc.
  - unfold w. by rewrite Z.land_lor_distr_l, rights_addr.
Qed.

Lemma vmm_map_ok ow F s : space_ok root F s -> mapped ow F s (__vmm_map root vaddr paddr flags ow s).
Proof.
  intros OK. rewrite vmm_map_levels. destruct (three_levels_ok F s OK) as (r & s1 & -> & R). cbn [res_bind].
  assert (Hon : forall N T s', trail T F s s' N -> Forall (on_path (tabs s')) T ->
    forall u j, u ∈ F -> ~ on_path (tabs s') u -> tabs s' u j = tabs s u j).
  { intros N T s' (_ & _ & _ & Off) HT u j Hu Hn. apply Off; [done |]. intros Hin. apply Hn.
    rewrite Forall_forall in HT. by apply HT. }
  destruct r as [pt |].
  2:{ destruct R as (N & T & Tr & HT). right. exists (-1), s1, N. split; [done |]. split; [apply Tr |].
      split; [by eapply Hon |]. left. split; [done |]. split; apply Tr. }
  destruct R as (N & (T & Tr & HT) & D & O). pose proof Tr as (OK' & K & G & _).
  destruct tpaths as (_ & _ & _ & P3 & _ & _ & _ & I1).
  destruct (ws_table _ _ _ (proj1 OK') _ _ P3 D) as (_ & Hfr & _). apply frame_is_frame in Hfr.
  unfold get_word, put_word. rewrite Hfr. cbn [res_bind]. pose proof (leaf_translate _ _ D) as TR. rewrite (keeps_eq _ _ _ _ K) in TR.
  destruct (has (tabs s1 pt i1) PTE_PRESENT && negb ow) eqn:E.
  { apply andb_true_iff in E as [E1 E2%negb_true_iff]. left. rewrite E1 in TR. by rewrite TR. }
  destruct page_entry_ok as (Hw & HPr & HA & HR). set (w := Z.lor (addr_of paddr) flags) in *.
  destruct (leaf_write (N ++ F) s1 pt w OK' D Hw) as (W' & D' & Koff & Kf & O' & Onp & Gl).
  right. eexists 0, _, N. split; [reflexivity |]. split; [split; [done | apply OK'] |]. cbn [tabs with_tabs]. split.
  { intros u j Hu Hn. rewrite set_word_other by (intros [= -> _]; apply Hn; by exists [i4; i3; i2], [i1]).
    apply (Hon N T s1 Tr HT u j Hu). intros Hp1. by apply Hn, Onp. }
  right. split; [done |]. split; [intros ->; rewrite TR; by rewrite andb_true_r in E; rewrite E |].
  split; [by rewrite (leaf_translate _ _ D'), set_word_same, HPr, HA, HR |].
  split; [intros v Nv; rewrite Koff by done; apply K |]. split; [| split; [by apply O' |]].
  - intros v [HE | HF]; apply Kf; [by left | right; by eapply keeps_fine].
  - intros Hlow HT0 HN. destruct (G Hlow HN) as [HN1 E1]. destruct (Gl Hlow HN1) as [HN2 E2]. split; [done |].
    rewrite HT0 in TR. destruct (has (tabs s1 pt i1) PTE_PRESENT) eqn:HP1; [done |].
    unfold page_part in E2. rewrite HP1, HPr, HA, app_nil_r in E2. rewrite E2, E1. symmetry. apply Permutation_cons_append.
Qed.

End Map.

(** ** The kernel's own walks *)

Section Walks.
Context (m : tables) (root : Z) (F : list Z) (W : wf_space m root F) (v : Z) (Hv : is_u64 v).

Let i4 := PML4_IDX v.
Let i3 := PDPT_IDX v.
Let i2 := PD_IDX v.
Let i1 := PT_IDX v.

Definition small (e : Z) : Prop := 0 <= e < 4503599627370496.

(** the six ways a walk of [v] can go *)
Inductive route : Prop :=
  | route_4 : has (m root i4) PTE_PRESENT = false -> walk m 4 root (path v) = None -> route
  | route_3 t3 : has (m root i4) PTE_PRESENT = true -> small (m root i4) -> t3 = addr_of (m root i4) ->
      has (m t3 i3) PTE_PRESENT = false -> walk m 4 root (path v) = None -> route
  | route_3_leaf t3 : has (m root i4) PTE_PRESENT = true -> small (m root i4) -> t3 = addr_of (m root i4) ->
      has (m t3 i3) PTE_PRESENT = true -> PTE_IS_LEAF (m t3 i3) = true -> entry_ok 3 (m t3 i3) ->
      walk m 4 root (path v) = Some (3%nat, m t3 i3) -> route
  | route_2 t3 t2 : has (m root i4) PTE_PRESENT = true -> small (m root i4) -> t3 = addr_of (m root i4) ->
      has (m t3 i3) PTE_PRESENT = true -> PTE_IS_LEAF (m t3 i3) = false -> small (m t3 i3) ->
      t2 = addr_of (m t3 i3) -> has (m t2 i2) PTE_PRESENT = false -> walk m 4 root (path v) = None -> route
  | route_2_leaf t3 t2 : has (m root i4) PTE_PRESENT = true -> small (m root i4) -> t3 = addr_of (m root i4) ->
      has (m t3 i3) PTE_PRESENT = true -> PTE_IS_LEAF (m t3 i3) = false -> small (m t3 i3) ->
      t2 = addr_of (m t3 i3) -> has (m t2 i2) PTE_PRESENT = true -> PTE_IS_LEAF (m t2 i2) = true ->
      entry_ok 2 (m t2 i2) -> walk m 4 root (path v) = Some (2%nat, m t2 i2) -> route
  | route_1 t3 t2 t1 : has (m root i4) PTE_PRESENT = true -> small (m root i4) -> t3 = addr_of (m root i4) ->
      has (m t3 i3) PTE_PRESENT = true -> PTE_IS_LEAF (m t3 i3) = false -> small (m t3 i3) ->
      t2 = addr_of (m t3 i3) -> has (m t2 i2) PTE_PRESENT = true -> PTE_IS_LEAF (m t2 i2) = false ->
      small (m t2 i2) -> t1 = addr_of (m t2 i2) -> descend m 4 root [i4; i3; i2] = Some t1 ->
      entry_ok 1 (m t1 i1) ->
      walk m 4 root (path v) = (if has (m t1 i1) PTE_PRESENT then Some (1%nat, m t1 i1) else None) -> route.

Lemma routes : route.
Proof.
  destruct (tpaths v) as (P0 & P1 & P2 & P3 & I4 & I3 & I2 & I1). fold i4 i3 i2 i1 in P1, P2, P3, I4, I3, I2, I1.
  assert (HE : forall p t j, tpath p -> descend m 4 root p = Some t -> index j -> entry_ok (4 - length p) (m t j))
    by (intros p t j Hp Ht Hj; by apply (ws_table m root F W p t Hp Ht)).
  assert (HB : forall l e, entry_ok l e -> is_table l e = true -> small e)
    by (intros l e (U & B & _) T; specialize (B T); unfold is_u64 in U; red; lia).
  pose proof (HB _ _ (HE [] root i4 P0 eq_refl I4)) as B4.
  destruct (has (m root i4) PTE_PRESENT) eqn:H4.
  2:{ apply route_4; [done |]. simpl. unfold is_table. fold i4. by rewrite H4. }
  assert (T4 : is_table 4 (m root i4) = true) by (unfold is_table; by rewrite H4). specialize (B4 T4).
  assert (D3 : descend m 4 root [i4] = Some (addr_of (m root i4))) by (simpl; unfold child; by rewrite T4).
  set (t3 := addr_of (m root i4)) in *.
  pose proof (HE [i4] t3 i3 P1 D3 I3) as E3. pose proof (HB _ _ E3) as B3.
  assert (Walk3 : walk m 4 root (path v) = walk m 3 t3 [i3; i2; i1]) by (simpl; fold i4; by rewrite T4).
  destruct (has (m t3 i3) PTE_PRESENT) eqn:H3.
  2:{ apply (route_3 t3); [done.. |]. rewrite Walk3. simpl. unfold is_table. by rewrite H3. }
  destruct (PTE_IS_LEAF (m t3 i3)) eqn:L3.
  { apply (route_3_leaf t3); [done.. |]. rewrite Walk3. simpl. unfold is_table. by rewrite H3, L3. }
  assert (T3 : is_table 3 (m t3 i3) = true) by (unfold is_table; by rewrite H3, L3). specialize (B3 T3).
  assert (D2 : descend m 4 root [i4; i3] = Some (addr_of (m t3 i3)))
    by (change [i4; i3] with ([i4] ++ [i3]); rewrite descend_app, D3; simpl; unfold child; by rewrite T3).
  set (t2 := addr_of (m t3 i3)) in *.
  pose proof (HE [i4; i3] t2 i2 P2 D2 I2) as E2. pose proof (HB _ _ E2) as B2.
  assert (Walk2 : walk m 4 root (path v) = walk m 2 t2 [i2; i1]) by (rewrite Walk3; cbn [walk]; by rewrite T3).
  destruct (has (m t2 i2) PTE_PRESENT) eqn:H2.
  2:{ apply (route_2 t3 t2); [done.. |]. rewrite Walk2. simpl. unfold is_table. by rewrite H2. }
  destruct (PTE_IS_LEAF (m t2 i2)) eqn:L2.
  { apply (route_2_leaf t3 t2); [done.. |]. rewrite Walk2. simpl. unfold is_table. by rewrite H2, L2. }
  assert (T2 : is_table 2 (m t2 i2) = true) by (unfold is_table; by rewrite H2, L2). specialize (B2 T2).
  assert (D1 : descend m 4 root [i4; i3; i2] = Some (addr_of (m t2 i2)))
    by (change [i4; i3; i2] with ([i4; i3] ++ [i2]); rewrite descend_app, D2; simpl; unfold child; by rewrite T2).
  apply (route_1 t3 t2 (addr_of (m t2 i2))); [done.. | exact (HE [i4; i3; i2] _ i1 P3 D1 I1) |].
  rewrite Walk2. cbn [walk]. by rewrite T2.
Qed.

Lemma small_mask e : small e -> is_frame (Z.land e MASK_4K) = true /\ Z.land e MASK_4K = addr_of e.
Proof.
  intros H. assert (E : Z.land e MASK_4K = addr_of e)
    by (rewrite masked, addr_of_field by (unfold small in H; red; lia); unfold small in H; zlia).
  rewrite E. split; [apply addr_is_frame | done].
Qed.

Lemma root_frame : is_frame root = true.
Proof.
  destruct (tpaths v) as (P0 & _). destruct (ws_table m root F W [] root P0 eq_refl) as (_ & H & _).
  by apply frame_is_frame.
Qed.

(** follow the route in the goal *)
Ltac follow :=
  unfold get_word; rewrite ?root_frame; fold i4 i3 i2 i1; cbn [res_bind];
  repeat match goal with
  | H : has ?e PTE_PRESENT = _ |- context [has ?e 1] => change (has e 1) with (has e PTE_PRESENT); rewrite H; cbn [negb]
  | H : PTE_IS_LEAF ?e = _ |- context [PTE_IS_LEAF ?e] => rewrite H
  | H : small ?e |- context [Z.land ?e MASK_4K] =>
      rewrite (proj1 (small_mask e H)), ?(proj2 (small_mask e H)); cbn [res_bind]
  end.

Lemma is_mapped_walk : vmm_is_mapped m root v = Ok (match walk m 4 root (path v) with Some _ => true | None => false end).
Proof.
  unfold vmm_is_mapped.
  destruct routes as [H4 -> | t3 H4 B4 -> H3 -> | t3 H4 B4 -> H3 L3 _ -> | t3 t2 H4 B4 -> H3 L3 B3 -> H2 ->
    | t3 t2 H4 B4 -> H3 L3 B3 -> H2 L2 _ -> | t3 t2 t1 H4 B4 -> H3 L3 B3 -> H2 L2 B2 -> _ _ ->]; follow; try done.
  unfold PTE_PRESENT. by destruct (has _ 1).
Qed.

Lemma get_phys_walk : root <= 140737488355327 ->
  exists r, vmm_get_phys m root v = Ok r /\
    match walk m 4 root (path v) with Some (l, e) => addr_of r = page_of l e v /\ (l = 1%nat -> r = Z.land e MASK_4K) | None => r = 0 end.
Proof.
  intros Hr. unfold vmm_get_phys. rewrite (proj2 (Z.ltb_ge _ root)) by done.
  destruct routes as [H4 -> | t3 H4 B4 -> H3 -> | t3 H4 B4 -> H3 L3 E3 -> | t3 t2 H4 B4 -> H3 L3 B3 -> H2 ->
    | t3 t2 H4 B4 -> H3 L3 B3 -> H2 L2 E2 -> | t3 t2 t1 H4 B4 -> H3 L3 B3 -> H2 L2 B2 -> D E1 ->]; follow;
    try (by exists 0).
  - eexists. split; [done |]. destruct E3 as (U & _ & A). specialize (A L3). unfold is_u64 in *.
    pose proof (land_lnot_ones 30 _ ltac:(lia) U) as M. change (u64 (Z.lnot (2 ^ 30 - 1))) with MASK_1G in M.
    rewrite M. change 1073741823 with (Z.ones 30). rewrite Z.land_ones by lia. change (2 ^ 30) with 1073741824 in *.
    split; [| done]. rewrite u64_small by (red; zlia). rewrite addr_of_field. simpl. zlia.
  - eexists. split; [done |]. destruct E2 as (U & _ & A). specialize (A L2). unfold is_u64 in *.
    pose proof (land_lnot_ones 21 _ ltac:(lia) U) as M. change (u64 (Z.lnot (2 ^ 21 - 1))) with MASK_2M in M.
    rewrite M. change 2097151 with (Z.ones 21). rewrite Z.land_ones by lia. change (2 ^ 21) with 2097152 in *.
    split; [| done]. rewrite u64_small by (red; zlia). rewrite addr_of_field. simpl. zlia.
  - unfold PTE_PRESENT. destruct E1 as (U & _). destruct (has (m _ i1) 1); cbn [negb]; [| by exists 0]. eexists. split; [done |].
    split; [| done]. cbn [page_of]. rewrite masked, !addr_of_field by done. unfold is_u64 in U. zlia.
Qed.

(** an entry without high bits: the frame itself *)
Lemma get_phys_exact pg r : root <= 140737488355327 -> fine m root v -> translate m root v = Some (pg, r) ->
  Z.land r 0xfff0000000000000 = 0 -> vmm_get_phys m root v = Ok pg.
Proof.
  intros Hr HF HT Hh. destruct (get_phys_walk Hr) as (raw & -> & R). unfold translate in HT.
  destruct (walk m 4 root (path v)) as [[l e] |] eqn:Wk; [| done]. injection HT as <- <-. destruct R as [_ R].
  rewrite (HF l e Wk) in *. rewrite (R eq_refl). f_equal. cbn [page_of].
  rewrite <- Z.land_assoc in Hh. change (Z.land RIGHTS _) with 0xfff0000000000000 in Hh. unfold addr_of.
  change MASK_4K with (Z.lor PTE_ADDR_MASK 0xfff0000000000000). by rewrite Z.land_lor_distr_r, Hh, Z.lor_0_r.
Qed.

Lemma unmap_walk : fine m root v ->
  vmm_unmap m root v = Ok (-1, m) /\ walk m 4 root (path v) = None \/
  exists pt, descend m 4 root [i4; i3; i2] = Some pt /\ vmm_unmap m root v = Ok (0, set_word m pt i1 0).
Proof.
  intros HL. unfold vmm_unmap. pose proof (path_masked v Hv) as E. unfold path in E. injection E as E4 E3 E2 E1.
  rewrite E4, E3, E2, E1. unfold get_word, put_word. rewrite root_frame. fold i4 i3 i2 i1. cbn [res_bind].
  destruct routes as [H4 Wk | t3 H4 B4 -> H3 Wk | t3 H4 B4 -> H3 L3 _ Wk | t3 t2 H4 B4 -> H3 L3 B3 -> H2 Wk
    | t3 t2 H4 B4 -> H3 L3 B3 -> H2 L2 _ Wk | t3 t2 t1 H4 B4 -> H3 L3 B3 -> H2 L2 B2 -> D _ Wk];
    rewrite ?H4; cbn [negb res_bind]; rewrite ?addr_is_frame; cbn [res_bind]; rewrite ?H3; cbn [negb res_bind];
    rewrite ?addr_is_frame; cbn [res_bind]; rewrite ?H2; cbn [negb res_bind]; rewrite ?addr_is_frame; cbn [res_bind].
  - by left.
  - by left.
  - by specialize (HL _ _ Wk).
  - by left.
  - by specialize (HL _ _ Wk).
  - right. by eexists.
Qed.

End Walks.




(** the frame that leaves the space *)
Definition shrinks (m m' : tables) (root v : Z) : Prop :=
  no_large 4 m root -> no_large 4 m' root /\
    owned 4 m root ≡ₚ match translate m root v with Some (pg, _) => [pg] | None => [] end ++ owned 4 m' root.

Lemma unmap_ok root vaddr F (s : vm P) :
  is_u64 vaddr -> space_ok root F s -> fine (tabs s) root vaddr ->
  exists c m', vmm_unmap (tabs s) root vaddr = Ok (c, m') /\ space_ok root F (with_tabs m' s) /\
    translate m' root vaddr = None /\
    (forall v, path v <> path vaddr -> translate m' root v = translate (tabs s) root v) /\
    (forall v, fine (tabs s) root v -> fine m' root v) /\
    (forall u j, ~ on_path root vaddr (tabs s) u -> m' u j = tabs s u j) /\
    (low (path vaddr) -> shrinks (tabs s) m' root vaddr) /\
    (c = -1 /\ m' = tabs s \/ c = 0).
Proof.
  intros Hv OK HL. pose proof OK as [W Hh].
  destruct (unmap_walk (tabs s) root F W vaddr Hv HL) as [[-> Wk] | (pt & D & ->)].
  - assert (T : translate (tabs s) root vaddr = None) by (unfold translate; by rewrite Wk).
    exists (-1), (tabs s). split; [done |]. split; [by destruct s |].
    split; [done |]. split; [done |]. split; [done |]. split; [done |]. split; [| by left]. intros _ HN. by rewrite T.
  - destruct (leaf_write root vaddr F s pt 0 OK D ltac:(by vm_compute)) as (W' & D' & Koff & Kf & _ & _ & Gl).
    eexists 0, _. split; [done |]. split; [done |].
    split; [by rewrite (leaf_translate root vaddr _ pt D'), set_word_same |]. split; [done |].
    split; [auto |]. split; [| split; [| by right]].
    + intros u j Hn. apply set_word_other. intros [= -> _]. apply Hn. by exists [PML4_IDX vaddr; PDPT_IDX vaddr; PD_IDX vaddr], [PT_IDX vaddr].
    + intros Hlow HN. destruct (Gl Hlow HN) as [HN' E]. split; [done |].
      rewrite (leaf_translate root vaddr _ pt D). unfold page_part in E. change (has 0 PTE_PRESENT) with false in E.
      rewrite app_nil_r in E. rewrite <- E. destruct (has _ PTE_PRESENT); [apply Permutation_app_comm | by rewrite app_nil_r].
Qed.


(** [vmm_unmap] of an address that no large page covers: it returns -1 and
    changes nothing when a table on the way is absent; otherwise it returns 0,
    the page is no longer mapped, every other page translates as before, no
    large page appears, only tables on the way to the page are written, the
    frames of the lower half lose exactly the page, and the space stays well
    formed. *)
Lemma vmm_unmap_correct root vaddr F (s : vm P) :
  is_u64 vaddr -> space_ok root F s ->
  fine (tabs s) root vaddr ->
  exists c m', vmm_unmap (tabs s) root vaddr = Ok (c, m') /\ space_ok root F (with_tabs m' s) /\
    translate m' root vaddr = None /\
    (forall v, path v <> path vaddr -> translate m' root v = translate (tabs s) root v) /\
    (forall v, fine (tabs s) root v -> fine m' root v) /\
    (forall u j, ~ on_path root vaddr (tabs s) u -> m' u j = tabs s u j) /\
    (low (path vaddr) -> shrinks (tabs s) m' root vaddr) /\
    (c = -1 /\ m' = tabs s \/ c = 0).
Proof. exact (unmap_ok root vaddr F s). Qed.

(** the kernel's software walks agree with the processor's translation:
    [vmm_is_mapped] tells whether the page is mapped, and the address field of
    [vmm_get_phys] is the page's frame, within large pages too, or 0 when the
    page is not mapped; neither leaves the tables. *)
Lemma vmm_walkers_agree m root F v :
  wf_space m root F -> is_u64 v -> root <= 140737488355327 ->
  vmm_is_mapped m root v = Ok (match translate m root v with Some _ => true | None => false end) /\
  exists r, vmm_get_phys m root v = Ok r /\
    match translate m root v with Some (pg, _) => addr_of r = pg | None => r = 0 end.
Proof.
  intros W Hv Hr. rewrite (is_mapped_walk m root F W v).
  destruct (get_phys_walk m root F W v) as (r & -> & H); [done | done |].
  unfold translate. destruct (walk m 4 root (path v)) as [[l e] |]; [destruct H as [H _] |]; split; eauto.
Qed.

End Levels.

(** ** An address space over a small memory *)

(** a space with no mappings *)
Lemma wf_empty m root : frame root -> (forall i, m root i = 0) -> wf_space m root [root].
Proof.
  intros Hr H0.
  assert (D : forall p t, descend m 4 root p = Some t -> p = [] /\ t = root).
  { intros [| i p] t; simpl; [by intros [= ->] |]. unfold child. by rewrite H0. }
  split.
  - intros p t _ [-> ->]%D. split; [by left |]. split; [done |]. intros i _. rewrite H0. by vm_compute.
  - by intros p q t _ _ [-> _]%D [-> _]%D.
Qed.

Definition ex_root : Z := 257 * 4096.
(** page 257 of [ex_pmm] is the root table, the memory is all zero *)
Definition ex_space : vm pmm :=
  {| tabs := fun _ _ => 0; frames := match pmm_alloc ex_pmm with Ok (_, p) => p | _ => ex_pmm end |}.

Lemma ex_space_ok : space_ok ex_root [ex_root] ex_space.
Proof.
  split; [apply wf_empty; [by vm_compute | done] |]. split; [by vm_compute |]. exists 6.
  apply (client_inv_rtc 6 (ex_pmm, [])).
  - eapply rtc_l; [| apply rtc_refl]. eapply (step_alloc _ _ 1); [lia | vm_compute; reflexivity | discriminate].
  - split_and!; [exact ex_pmm_wf | constructor | done | by vm_compute].
Qed.

Definition code {A} (r : res (Z * A)) : option Z := match r with Ok (c, _) => Some c | _ => None end.
Definition state {A} (d : A) (r : res (Z * A)) : A := match r with Ok (_, a) => a | _ => d end.

(** page 0x400000 mapped to frame 261, writable from user mode *)
Definition ex_mapped : vm pmm := state ex_space (__vmm_map ex_root 4194304 1069056 7 false ex_space).

Lemma ex_flags : PTE_FLAGS 7.
Proof. by vm_compute. Qed.

Lemma ex_mapped_ok : exists F, space_ok ex_root F ex_mapped.
Proof.
  destruct (vmm_map_ok ex_root 4194304 1069056 7 ltac:(by vm_compute) ex_flags false _ _ ex_space_ok) as [(_ & _ & N) | (c & s' & F' & E & OK & _)]; [by destruct N |].
  eexists. unfold ex_mapped. by rewrite E.
Qed.


Lemma vmm_unmap_correct_witness :
  translate (tabs ex_mapped) ex_root 4194304 = Some (1069056, 6) /\
  exists m', vmm_unmap (tabs ex_mapped) ex_root 4194304 = Ok (0, m') /\ translate m' ex_root 4194304 = None.
Proof.
  split; [by vm_compute |]. destruct ex_mapped_ok as [F OK].
  destruct (vmm_unmap_correct ex_root 4194304 F ex_mapped) as (c & m' & E & _ & T & _).
  - by vm_compute.
  - exact OK.
  - intros l e. vm_compute. congruence.
  - exists m'. split; [| exact T]. assert (code (vmm_unmap (tabs ex_mapped) ex_root 4194304) = Some 0) as C by (by vm_compute).
    rewrite E in C |- *. cbn [code] in C. congruence.
Defined.

Lemma vmm_walkers_agree_witness :
  vmm_is_mapped (tabs ex_mapped) ex_root 4194304 = Ok true /\
  exists r, vmm_get_phys (tabs ex_mapped) ex_root 4194304 = Ok r /\ addr_of r = 1069056.
Proof.
  destruct ex_mapped_ok as [F OK].
  destruct (vmm_walkers_agree (tabs ex_mapped) ex_root F 4194304) as [H1 (r & H2 & H3)].
  - exact (proj1 OK).
  - by vm_compute.
  - by vm_compute.
  - assert (translate (tabs ex_mapped) ex_root 4194304 = Some (1069056, 6)) as T by (by vm_compute).
    rewrite T in H1, H3. split; [exact H1 |]. exists r. split; [exact H2 | exact H3].
Defined.
