(* ===== verification/VmmSpace.v ===== *)
(** * Whole address spaces: creation, regions, destruction

    The theorems on the operations of Vmm.v that handle many entries: a new
    user space shares the kernel half and nothing else, a region is mapped page
    by page, and destroying a user space gives back exactly its frames. *)

From stdpp Require Import base list.
From S2P Require Import Prelude Pmm PageAlloc Vmm VmmWalk VmmOwned VmmSpec.

Section Spaces.
Context {P : Type} {PA : PageAllocator P}.

(** ** Creation *)

Lemma copy_entries_ok n i dst src m : is_frame dst = true -> is_frame src = true -> dst <> src ->
  exists m', copy_entries n i dst src m = Ok m' /\
    (forall t j, t <> dst -> m' t j = m t j) /\
    (forall j, m' dst j = if (i <=? j) && (j <? i + Z.of_nat n) then m src j else m dst j).
Proof.
  intros Hd Hs N. revert i m. induction n as [| n IH]; intros i m.
  - exists m. split; [done |]. split; [done |]. intros j. zbool; simpl; done || lia.
  - simpl. unfold get_word, put_word. rewrite Hs, Hd. cbn [res_bind].
    destruct (IH (i + 1) (set_word m dst i (m src i))) as (m' & E & H1 & H2). unfold get_word, put_word in E.
    exists m'. split; [done |]. split.
    + intros t j Ht. rewrite H1 by done. apply set_word_other. congruence.
    + intros j. rewrite H2. unfold set_word. rewrite !Z.eqb_refl. rewrite (proj2 (Z.eqb_neq src dst)) by done.
      simpl. zbool; simpl; subst; done || lia.
Qed.

(** the tables of a space that shares the upper half of [K] *)
Lemma shared_descend m m' K F g : wf_space m K F -> g ∉ F ->
  (forall t j, t <> g -> m' t j = m t j) ->
  (forall j, 256 <= j < 512 -> m' g j = m K j) ->
  forall i q, tpath (i :: q) -> 256 <= i -> descend m' 4 g (i :: q) = descend m 4 K (i :: q).
Proof.
  intros W Hg Hm Hs i q [HI HL] Hi. apply Forall_cons in HI as [Hii HI]. unfold index in Hii. simpl in HL.
  pose proof (fresh_descend m K F W g Hg m' Hm (i :: q)) as E. rewrite <- E.
  - simpl. unfold child. rewrite Hs by lia. rewrite (Hm K); [done |].
    intros ->. apply Hg. by apply (ws_table m g F W [] g); [split; [constructor | simpl; lia] |].
  - split; [by constructor | simpl; lia].
Qed.

Lemma shared_walk m m' K F g v : wf_space m K F -> g ∉ F ->
  (forall t j, t <> g -> m' t j = m t j) ->
  (forall j, 256 <= j < 512 -> m' g j = m K j) -> (forall j, 0 <= j < 256 -> m' g j = 0) ->
  translate m' g v = if PML4_IDX v <? 256 then None else translate m K v.
Proof.
  intros W Hg Hm Hs Hz. pose proof (fresh_walk m K F W g Hg m' Hm v) as E. unfold translate. rewrite <- E.
  pose proof (idx_range v) as [[H4 _] _]. assert (K <> g).
  { intros ->. apply Hg. by apply (ws_table m g F W [] g); [split; [constructor | simpl; lia] |]. }
  unfold path. cbn [walk]. destruct (Z.ltb_spec (PML4_IDX v) 256).
  - rewrite Hz by lia. done.
  - rewrite Hs by lia. by rewrite <- (Hm K).
Qed.

Lemma shared_wf m m' K F g : wf_space m K F -> g ∉ F -> frame g ->
  (forall t j, t <> g -> m' t j = m t j) ->
  (forall j, 256 <= j < 512 -> m' g j = m K j) -> (forall j, 0 <= j < 256 -> m' g j = 0) ->
  wf_space m' g (g :: F).
Proof.
  intros W Hg Hf Hm Hs Hz. assert (T0 : tpath []) by (split; [constructor | simpl; lia]).
  assert (D : forall p t, tpath p -> descend m' 4 g p = Some t ->
    p = [] /\ t = g \/ (exists i q, p = i :: q) /\ descend m 4 K p = Some t).
  { intros [| i q] t Hp; [intros [= ->]; by left |]. intros E. right. split; [by eexists _, _ |].
    destruct (Z.ltb_spec i 256).
    - exfalso. destruct Hp as [Hp _]. apply Forall_cons in Hp as [Hi _]. unfold index in Hi.
      simpl in E. unfold child in E. rewrite Hz in E by lia. done.
    - by rewrite <- (shared_descend m m' K F g W Hg Hm Hs i q). }
  split.
  - intros p t Hp E. destruct (D p t Hp E) as [[-> ->] | [_ E']].
    + split; [lmem |]. split; [done |]. intros i Hi. simpl. destruct (Z.ltb_spec i 256); unfold index in *.
      * rewrite Hz by lia. by split; [| split].
      * rewrite Hs by lia. by apply (ws_table m K F W [] K).
    + destruct (ws_table m K F W p t Hp E') as (H1 & H2 & H3). split; [lmem |]. split; [done |].
      intros i Hi. rewrite Hm by (intros ->; by apply Hg). by apply H3.
  - intros p q t Hp Hq E1 E2.
    destruct (D p t Hp E1) as [[-> Et] | [_ D1]], (D q t Hq E2) as [[-> Et'] | [_ D2]]; [done | | |].
    + exfalso. apply Hg. rewrite <- Et. by apply (ws_table m K F W q t).
    + exfalso. apply Hg. rewrite <- Et'. by apply (ws_table m K F W p t).
    + by apply (ws_inj m K F W p q t).
Qed.

(** the words of a new root: the kernel's in the upper half, zero in the lower *)
Definition new_root (m m' : tables) (K g : Z) : Prop :=
  (forall t j, t <> g -> m' t j = m t j) /\
  (forall j, 256 <= j < 512 -> m' g j = m K j) /\ (forall j, 0 <= j < 256 -> m' g j = 0).

Lemma create_root K F (s : vm P) : space_ok K F s ->
  exists g m' p, vmm_create_user_pml4 K s = Ok (g, mk_vm m' p) /\ new_root (tabs s) m' K g /\ (g ∉ F) /\
    (g = 0 /\ p = frames s \/ frame g /\ held p (g :: F)).
Proof.
  intros [W Hh]. assert (T0 : tpath []) by (split; [constructor | simpl; lia]).
  destruct (ws_table _ K F W [] K T0 eq_refl) as (HK & HKf & _). pose proof (frame_is_frame K HKf) as HKb.
  assert (EK : Z.land K MASK_4K = K) by (destruct HKf; rewrite masked by (red; lia); lia).
  unfold vmm_create_user_pml4. rewrite EK.
  destruct (page_alloc_held _ _ Hh) as (g & p & -> & R); cbn [res_bind].
  assert (is_frame g = true /\ (g ∉ F)) as (Gb & Gn).
  { destruct R as [[-> ->] | (Hf & Hn & Hp)]; [| split; [by apply frame_is_frame | done]].
    split; [done |]. intros H0. destruct (held_frames _ _ Hh) as [_ HFr]. rewrite Forall_forall in HFr. destruct (HFr 0 H0). lia. }
  assert (N : g <> K) by (by intros ->). unfold clear_frame. rewrite Gb. cbn [res_bind].
  destruct (copy_entries_ok 256 256 g K (set_frame (tabs s) g (fun _ => 0)) Gb HKb N) as (m' & -> & H1 & H2).
  cbn [res_bind]. change (256 + Z.of_nat 256) with 512 in H2.
  exists g, m', p. split; [done |]. split; [| split; [done | destruct R as [R | (Hf & _ & Hp)]; auto]]. split_and!.
  - intros t j Nt. rewrite H1 by done. unfold set_frame. by rewrite (proj2 (Z.eqb_neq t g)).
  - intros j Hj. rewrite H2. unfold set_frame. rewrite (proj2 (Z.eqb_neq K g)) by done. zbool; simpl; done || lia.
  - intros j Hj. rewrite H2. unfold set_frame. rewrite Z.eqb_refl. zbool; simpl; done || lia.
Qed.

(** [vmm_create_user_pml4] with a frame available: the new space is well
    formed, maps nothing in the lower half and translates the upper half as the
    kernel space does, whose own translations are unchanged; without a frame it
    returns NULL (after clearing physical page 0, which it does not check for). *)
Lemma create_user_space K F (s : vm P) :
  space_ok K F s ->
  exists g s', vmm_create_user_pml4 K s = Ok (g, s') /\ keeps (tabs s) (tabs s') K /\
    (g = 0 /\ space_ok K F s' /\ tabs s' 0 0 = 0 \/
     (g ∉ F) /\ space_ok K (g :: F) s' /\ space_ok g (g :: F) s' /\
     forall v, translate (tabs s') g v = if PML4_IDX v <? 256 then None else translate (tabs s) K v).
Proof.
  intros OK. pose proof OK as [W Hh]. destruct (create_root K F s OK) as (g & m' & p & -> & (Hm & Hs & Hz) & Gn & R).
  assert (WK : wf_space m' K F) by (by apply (fresh_wf _ _ _ W g Gn)).
  eexists g, _. split; [done |]. cbn [tabs]. split; [apply keeps_walk; intros v; by apply (fresh_walk _ _ _ W g Gn) |].
  destruct R as [[-> ->] | (Hf & Hp)]; [left | right].
  - split; [done |]. split; [done |]. apply Hz. lia.
  - split; [done |]. split; [| split].
    + split; [| done]. split; [| apply WK]. intros q t Hq E. destruct (ws_table _ _ _ WK q t Hq E) as (? & ? & ?).
      split; [lmem | done].
    + split; [| done]. by apply (shared_wf (tabs s) m' K F g).
    + intros v. by apply (shared_walk (tabs s) m' K F g).
Qed.

(** ** Destruction *)

Lemma fold_free (f : P -> Z -> res P) (g : Z -> list Z) ks p G :
  (forall i q G, i ∈ ks -> held q (g i ++ G) -> exists q', f q i = Ok q' /\ held q' G) ->
  held p (concat (map g ks) ++ G) ->
  exists p', fold_left (fun r i => let! q := r in f q i) ks (Ok p) = Ok p' /\ held p' G.
Proof.
  revert p. induction ks as [| i ks IH]; intros p Hf Hh; [by exists p |].
  simpl in *. rewrite <- app_assoc in Hh.
  destruct (Hf i p _ ltac:(lmem) Hh) as (q & -> & Hq). apply IH; [| done].
  intros k q' G' Hk. apply Hf. lmem.
Qed.

Lemma destroy_ok m l : forall t p F, is_frame t = true -> no_large l m t -> held p (owned l m t ++ F) ->
  exists p', vmm_destroy_level l t m p = Ok p' /\ held p' F.
Proof.
  induction l as [| b IH]; intros t p F Ht HN Hh; [done |]. cbn [vmm_destroy_level].
  cbn [owned] in Hh. rewrite <- app_assoc in Hh. cbn [no_large] in HN.
  match goal with |- context [fold_left (fun r i => let! q := r in @?f q i) _ _] => set (step := f) end.
  destruct (fold_free step (fun i => let e := m t i in
      if has e PTE_PRESENT then (if (S b =? 1)%nat then [addr_of e] else owned b m (addr_of e)) else [])
      (slots (S b)) p ([t] ++ F)) as (q & E & Hq); [| exact Hh |].
  - intros i q G Hi HG. unfold step, get_word. rewrite Ht. cbn [res_bind]. cbv zeta in HG.
    destruct (has (m t i) PTE_PRESENT) eqn:HP; cbn [negb]; [| by exists q].
    destruct (S b =? 1)%nat eqn:HB; [by apply page_free_held |].
    destruct (HN i Hi HP eq_refl) as [-> HN']. apply IH; [apply addr_is_frame | done | done].
  - unfold slots, step in E. cbv beta in E. rewrite E. cbn [res_bind]. by apply page_free_held.
Qed.

(** [vmm_destroy_level] on a user space without large pages, whose tables
    and pages are held and occur once, ends, releases every one of them exactly
    once, and leaves every other frame held; the shared kernel half is not
    touched. *)
Lemma destroy_releases_all root F (s : vm P) :
  frame root -> no_large 4 (tabs s) root -> held (frames s) (owned 4 (tabs s) root ++ F) ->
  exists p', vmm_destroy_level 4 root (tabs s) (frames s) = Ok p' /\ held p' F.
Proof. intros Hr. apply destroy_ok. by apply frame_is_frame. Qed.

(** ** Regions *)

Definition page_in (v w : Z) (k : nat) : Prop := exists j, (j < k)%nat /\ path w = path (v + 4096 * Z.of_nat j).

(** the first [k] pages of the region are mapped and nothing else has changed *)
Definition region_mapped (root v pa flags : Z) (k : nat) (s s' : vm P) : Prop :=
  (forall j, (j < k)%nat -> translate (tabs s') root (v + 4096 * Z.of_nat j) =
     Some (addr_of (pa + 4096 * Z.of_nat j), Z.land flags RIGHTS)) /\
  (forall w, ~ page_in v w k -> translate (tabs s') root w = translate (tabs s) root w).

Lemma region_loop_ok root flags n : PTE_FLAGS flags -> forall v pa F s,
  0 <= v -> 0 <= pa -> v + 4096 * Z.of_nat n < 18446744073709551616 ->
  pa + 4096 * Z.of_nat n < 18446744073709551616 -> Z.of_nat n <= 68719476736 -> space_ok root F s ->
  (map_region_loop n root v pa flags s = Panic /\
     exists j, (j < n)%nat /\ translate (tabs s) root (v + 4096 * Z.of_nat j) <> None) \/
  exists c s' F' k, map_region_loop n root v pa flags s = Ok (c, s') /\ F ⊆ F' /\ space_ok root F' s' /\
    region_mapped root v pa flags k s s' /\ (c = 0 /\ k = n \/ c = -1 /\ (k < n)%nat).
Proof.
  intros HF. induction n as [| n IH]; intros v pa F s Hv Hp Hvn Hpn Hn OK.
  { right. exists 0, s, F, 0%nat. split; [done |]. split; [done |]. split; [done |]. split; [| by left].
    split; [intros j Hj; lia | done]. }
  cbn [map_region_loop].
  destruct (vmm_map_ok root v pa flags ltac:(red; lia) HF false F s OK) as
    [(-> & _ & HM) | (c & s1 & N1 & -> & OK1 & _ & [(-> & K & _) | (-> & _ & T1 & O1 & _)])]; cbn [res_bind].
  { left. split; [done |]. exists 0%nat. split; [lia |]. by rewrite Z.mul_0_r, Z.add_0_r. }
  { right. exists (-1), s1, (N1 ++ F), 0%nat. split; [done |]. split; [set_solver |]. split; [done |]. split; [| right; lia].
    split; [intros j Hj; lia | intros w _; apply K]. }
  change (0 <? 0) with false. cbn iota. rewrite !u64_small by (red; lia).
  assert (Off : forall j, (j < n)%nat -> path (v + 4096 * Z.of_nat (S j)) <> path v).
  { intros j Hj E. apply path_eq in E. zlia. }
  assert (Sh : forall a j, a + 4096 + 4096 * Z.of_nat j = a + 4096 * Z.of_nat (S j)) by lia.
  destruct (IH (v + 4096) (pa + 4096) (N1 ++ F) s1) as [[-> (j & Hj & HM)] | (c & s2 & F2 & k & -> & S2 & OK2 & [R1 R2] & HC)];
    [lia | lia | lia | lia | lia | done | |].
  { left. split; [done |]. exists (S j). split; [lia |]. rewrite Sh in HM. by rewrite <- O1 by (apply Off; lia). }
  right. exists c, s2, F2, (S k). split; [done |]. split; [set_solver |]. split; [done |]. split; [| lia].
  assert (N0 : ~ page_in (v + 4096) v k).
  { intros (j & Hj & E). rewrite Sh in E. symmetry in E. revert E. apply Off. lia. }
  split.
  - intros [| j] Hj.
    + rewrite !Z.mul_0_r, !Z.add_0_r, R2 by done. exact T1.
    + rewrite <- !Sh. apply R1. lia.
  - intros w Hw. rewrite R2.
    + apply O1. intros E. apply Hw. exists 0%nat. split; [lia |]. by rewrite Z.mul_0_r, Z.add_0_r.
    + intros (j & Hj & E). apply Hw. exists (S j). split; [lia |]. by rewrite <- Sh.
Qed.

Lemma translate_path m root v w : path v = path w -> translate m root v = translate m root w.
Proof.
  intros E. unfold translate. rewrite E. destruct (walk m 4 root (path w)) as [[l e] |]; [| done].
  apply path_eq in E. f_equal. f_equal. unfold page_of.
  destruct l as [| [| [| [| l]]]]; [done | done | f_equal; zlia | f_equal; zlia | done].
Qed.

Lemma region_pages_eq v size : 0 <= v -> 0 <= size -> v + size + 4095 < 18446744073709551616 ->
  Z.of_nat (region_pages v size) = (v + size + 4095) / 4096 - v / 4096.
Proof.
  intros Hv Hs Hb. unfold region_pages. rewrite (u64_small (v + size)) by (red; lia).
  rewrite (u64_small (v + size + 4095)) by (red; lia). rewrite !masked by (red; lia).
  rewrite u64_small by (red; zlia). zlia.
Qed.

(** [w] is on one of the pages that [vaddr, vaddr + size) touches *)
Definition in_region (vaddr size w : Z) : Prop :=
  exists a, vaddr / 4096 * 4096 <= a < (vaddr + size + 4095) / 4096 * 4096 /\ path w = path a.

Lemma page_in_region v size w k : 0 <= v -> 0 <= size -> v + size + 4095 < 18446744073709551616 ->
  (k <= region_pages v size)%nat -> page_in (v - v mod 4096) w k -> in_region v size w.
Proof.
  intros Hv Hs Hb Hk (j & Hj & E). exists (v - v mod 4096 + 4096 * Z.of_nat j). split; [| done].
  pose proof (region_pages_eq v size Hv Hs Hb). zlia.
Qed.

(** [vmm_map_region] on a region that does not wrap around: it panics only when a page of the
    region is mapped already; when it returns 0, every address of the region translates to the
    corresponding physical page with the rights of [flags]; whatever it returns, no address outside
    the pages of the region changes its translation, and the space stays well-formed over frames
    that the page allocator holds. *)
Lemma vmm_map_region_correct root vaddr paddr size flags F s :
  0 <= vaddr -> 0 <= paddr -> 0 <= size <= 140737488355328 ->
  vaddr + size + 4096 < 18446744073709551616 -> paddr + size + 8192 < 18446744073709551616 ->
  PTE_FLAGS flags -> space_ok root F s ->
  (vmm_map_region root vaddr paddr size flags s = Panic /\
     exists a, in_region vaddr size a /\ translate (tabs s) root a <> None) \/
  exists c s' F', vmm_map_region root vaddr paddr size flags s = Ok (c, s') /\ F ⊆ F' /\ space_ok root F' s' /\
    (forall w, ~ in_region vaddr size w -> translate (tabs s') root w = translate (tabs s) root w) /\
    (c = -1 \/ c = 0 /\ forall a, vaddr <= a < vaddr + size -> translate (tabs s') root a =
       Some (addr_of ((paddr / 4096 + (a / 4096 - vaddr / 4096)) * 4096), Z.land flags RIGHTS)).
Proof.
  intros Hv Hp Hs Hvs Hps HF OK. pose proof (region_pages_eq vaddr size Hv ltac:(lia) ltac:(lia)) as En.
  pose proof (page_in_region vaddr size) as PR.
  unfold vmm_map_region. rewrite !masked by (red; lia). set (n := region_pages vaddr size) in *.
  destruct (region_loop_ok root flags n HF (vaddr - vaddr mod 4096) (paddr - paddr mod 4096) F s)
    as [[-> (j & Hj & HM)] | (c & s' & F' & k & -> & S' & OK' & [R1 R2] & HC)]; [zlia | zlia | zlia | zlia | zlia | done | |].
  - left. split; [done |]. eexists. split; [| exact HM].
    apply (PR _ n); [lia | lia | lia | lia |]. by exists j.
  - right. exists c, s', F'. do 3 (split; [done |]). split.
    + intros w Hw. apply R2. intros Pw. apply Hw, (PR _ k); [lia | lia | lia | lia | done].
    + destruct HC as [[-> ->] | [-> _]]; [right | by left]. split; [done |]. intros a Ha.
      set (j := Z.to_nat (a / 4096 - vaddr / 4096)).
      rewrite (translate_path _ _ a (vaddr - vaddr mod 4096 + 4096 * Z.of_nat j)).
      * rewrite R1 by (subst j; zlia). do 3 f_equal. subst j. zlia.
      * apply path_eq. subst j. f_equal. zlia.
Qed.

End Spaces.

Lemma create_user_space_witness :
  exists g s', vmm_create_user_pml4 ex_root ex_mapped = Ok (g, s') /\
    keeps (tabs ex_mapped) (tabs s') ex_root /\ translate (tabs s') g 4194304 = None.
Proof.
  destruct ex_mapped_ok as [F OK].
  destruct (create_user_space ex_root F ex_mapped OK) as (g & s' & E & K & R).
  exists g, s'. split; [exact E |]. split; [exact K |].
  assert (code (vmm_create_user_pml4 ex_root ex_mapped) = Some 1073152) as C by (by vm_compute).
  rewrite E in C. cbn [code] in C. injection C as ->. destruct R as [[R _] | (_ & _ & _ & T)]; [discriminate R |].
  exact (T 4194304).
Defined.

Lemma vmm_map_region_correct_witness :
  code (vmm_map_region ex_root 4194305 1069056 4096 7 ex_space) = Some 0 /\
  exists s', vmm_map_region ex_root 4194305 1069056 4096 7 ex_space = Ok (0, s') /\
    translate (tabs s') ex_root 4198400 = Some (1073152, 6).
Proof.
  assert (code (vmm_map_region ex_root 4194305 1069056 4096 7 ex_space) = Some 0) as C by (by vm_compute).
  split; [exact C |].
  destruct (vmm_map_region_correct ex_root 4194305 1069056 4096 7 [ex_root] ex_space)
    as [[E _] | (c & s' & F' & E & _ & _ & _ & R)]; try lia.
  - exact ex_flags.
  - exact ex_space_ok.
  - rewrite E in C. discriminate C.
  - rewrite E in C |- *. cbn [code] in C. injection C as ->. exists s'. split; [reflexivity |].
    destruct R as [R | [_ R]]; [discriminate R |]. rewrite R by lia. vm_compute. reflexivity.
Defined.

(** the page mapped at 0x400000 is frame 258, which the space owns *)
Definition ex_owner : vm pmm :=
  let s := {| tabs := tabs ex_space; frames := state ex_pmm (pmm_alloc (frames ex_space)) |} in
  state s (__vmm_map ex_root 4194304 1056768 7 false s).

Lemma ex_owner_held : pmm_held (frames ex_owner) ([1056768; 1073152; 1069056; 1064960; ex_root] ++ []).
Proof.
  split; [by vm_compute |]. exists 6.
  apply (frames_inv_perm _ _ (singles [1073152; 1069056; 1064960; 1056768; ex_root])).
  { apply singles_perm. symmetry. by apply (Permutation_middle [1073152; 1069056; 1064960] [ex_root] 1056768). }
  apply (client_inv_rtc 6 (ex_pmm, [])); [| split_and!; [exact ex_pmm_wf | constructor | done | by vm_compute]].
  do 5 (eapply rtc_l; [eapply (step_alloc _ _ 1); [lia | vm_compute; reflexivity | discriminate] |]).
  assert (frames ex_owner = mk_pmm (replicate 32 255 ++ [127]) 264 (mk_page 264 0 1 7 1)) as -> by (by vm_compute).
  apply rtc_refl.
Qed.

Fixpoint no_largeb (l : nat) (m : tables) (t : Z) : bool :=
  match l with
  | O => false
  | S b => forallb (fun i => if negb (has (m t i) PTE_PRESENT) then true else if (l =? 1)%nat then true
                             else if PTE_IS_LEAF (m t i) then false else no_largeb b m (addr_of (m t i))) (slots l)
  end.

Lemma no_largeb_ok l m t : no_largeb l m t = true -> no_large l m t.
Proof.
  revert t. induction l as [| b IH]; intros t; [done |]. cbn [no_largeb no_large]. rewrite forallb_forall.
  intros H i Hi%list_elem_of_In HP HB. apply H in Hi. rewrite HP, HB in Hi. cbn [negb] in Hi.
  destruct (PTE_IS_LEAF (m t i)); [done |]. split; [done | by apply IH].
Qed.

Lemma destroy_releases_all_witness :
  exists p', vmm_destroy_level 4 ex_root (tabs ex_owner) (frames ex_owner) = Ok p' /\ held p' [].
Proof.
  apply (destroy_releases_all ex_root [] ex_owner).
  - by vm_compute.
  - apply no_largeb_ok. vm_compute. reflexivity.
  - assert (owned 4 (tabs ex_owner) ex_root = [1056768; 1073152; 1069056; 1064960; ex_root]) as -> by (by vm_compute).
    exact ex_owner_held.
Defined.
