(* ===== verification/PageOwner.v ===== *)
(** * Pages that an address range owns

    The kernel heap and the memory system calls obtain frames from the page
    allocator and map them in a range of addresses.  [backed] relates the three:
    the tables [F] of the space, the pages [M] of the range, as pairs of a path
    and a frame, and the frames [D] of others are all held and all different,
    and every translation in the range goes to its own frame in [M]. *)

From stdpp Require Import base list.
From S2P Require Import Prelude Pmm PageAlloc Vmm VmmWalk VmmOwned VmmSpec VmmSpace.

Section Owner.
Context {P : Type} {PA : PageAllocator P} (root : Z) (range : Z -> Prop).

Record backed (s : vm P) (F : list Z) (M : list (list Z * Z)) (D : list Z) : Prop := {
  bk_space : wf_space (tabs s) root F;
  bk_held : held (frames s) (F ++ M.*2 ++ D);
  bk_pages w pg r : range w -> translate (tabs s) root w = Some (pg, r) -> (path w, pg) ∈ M;
  bk_fine w : range w -> fine (tabs s) root w }.

(** a frame more for others *)
Lemma backed_alloc s F M D : backed s F M D ->
  exists a p, page_alloc (frames s) = Ok (a, p) /\
    (a = 0 /\ p = frames s \/ frame a /\ backed (mk_vm (tabs s) p) F M (a :: D)).
Proof.
  intros [W H B Fi]. destruct (page_alloc_held _ _ H) as (a & p & -> & R). exists a, p. split; [done |].
  destruct R as [R | (Hf & Hn & Hp)]; [by left | right]. split; [done |]. split; [done | | done | done].
  eapply held_perm; [| exact Hp]. rewrite !app_assoc. apply Permutation_middle.
Qed.

Lemma backed_free s F M pa D : backed s F M (pa :: D) ->
  exists p, page_free pa (frames s) = Ok p /\ backed (mk_vm (tabs s) p) F M D.
Proof.
  intros [W H B Fi]. destruct (page_free_held (frames s) pa (F ++ M.*2 ++ D)) as (p & E & Hp).
  { eapply held_perm; [| exact H]. rewrite !app_assoc. symmetry. apply Permutation_middle. }
  exists p. by split.
Qed.

(** [vmm_map] of a frame just obtained *)
Lemma backed_map s F M D va pa flags : backed s F M (pa :: D) -> frame pa -> is_u64 va -> PTE_FLAGS flags ->
  translate (tabs s) root va = None ->
  exists c s' N, vmm_map root va pa flags s = Ok (c, s') /\
    (forall u j, u ∈ F -> ~ on_path root va (tabs s') u -> tabs s' u j = tabs s u j) /\
    (c = -1 /\ keeps (tabs s) (tabs s') root /\ backed s' (N ++ F) M (pa :: D) /\
       (low (path va) -> grows (tabs s) (tabs s') root N) \/
     c = 0 /\ backed s' (N ++ F) ((path va, pa) :: M) D /\
     translate (tabs s') root va = Some (pa, Z.land flags RIGHTS) /\
     (forall w, path w <> path va -> translate (tabs s') root w = translate (tabs s) root w) /\
     (low (path va) -> grows (tabs s) (tabs s') root (pa :: N))).
Proof.
  intros [W H B Fi] Hpa Hva Hfl HN.
  assert (Ep : addr_of pa = pa) by (destruct Hpa; apply addr_frame; [lia | done]).
  set (PD := reserve PA (M.*2 ++ pa :: D)).
  destruct (vmm_map_ok (PA := PD) root va pa flags Hva Hfl false F s (conj W H))
    as [(_ & _ & HM) | (c & s' & N & E & [W' H'] & Off & R)]; [done |].
  exists c, s', N. split; [exact E |]. split; [done |]. destruct R as [(-> & K & G) | (-> & _ & T & O & Kf & _ & G)].
  - left. split; [done |]. split; [done |]. split; [| done]. split; [done | exact H' | |].
    + intros w pg r Hw. rewrite (keeps_eq _ _ _ _ K). by apply B.
    + intros w Hw. eapply keeps_fine; [exact K | by apply Fi].
  - right. rewrite Ep in T, G. split; [done |]. split; [| split; [done | split; [done | auto]]]. split; [done | | | auto].
    + eapply (held_perm _ ((N ++ F) ++ M.*2 ++ pa :: D)); [| exact H']. apply Permutation_app_head.
      symmetry. apply Permutation_middle.
    + intros w pg r Hw. destruct (decide (path w = path va)) as [Ew | Ew].
      * rewrite (translate_path _ _ _ _ Ew), T, Ew. intros [= <- _]. lmem.
      * rewrite O by done. intros HT. right. by apply (B w pg r).
Qed.

(** [vmm_unmap]: the frame, if there was one, is no longer of the range *)
Lemma backed_unmap s F M D va : backed s F M D -> range va -> is_u64 va ->
  exists c m', vmm_unmap (tabs s) root va = Ok (c, m') /\ translate m' root va = None /\
    (forall w, path w <> path va -> translate m' root w = translate (tabs s) root w) /\
    (forall u j, ~ on_path root va (tabs s) u -> m' u j = tabs s u j) /\
    (low (path va) -> shrinks (tabs s) m' root va) /\
    match translate (tabs s) root va with
    | None => backed (with_tabs m' s) F M D
    | Some (pg, _) => exists M', M ≡ₚ (path va, pg) :: M' /\ backed (with_tabs m' s) F M' (pg :: D)
    end.
Proof.
  intros [W H B Fi] Hva Hv64. set (PD := reserve PA (M.*2 ++ D)).
  destruct (unmap_ok (PA := PD) root va F s Hv64 (conj W H) (Fi va Hva))
    as (c & m' & E & [W' _] & T & O & Kf & Off & G & _).
  exists c, m'. do 5 (split; [done |]).
  assert (Same : forall w pg r, range w -> translate m' root w = Some (pg, r) -> path w <> path va /\ (path w, pg) ∈ M).
  { intros w pg r Hw HT. assert (N : path w <> path va) by (intros Ew; by rewrite (translate_path _ _ _ _ Ew), T in HT).
    split; [done |]. rewrite O in HT by done. by apply (B w pg r). }
  destruct (translate (tabs s) root va) as [[pg r] |] eqn:ET.
  - pose proof (B va pg r Hva ET) as HM. apply list_elem_of_split in HM as (M1 & M2 & ->).
    assert (EP : M1 ++ (path va, pg) :: M2 ≡ₚ (path va, pg) :: M1 ++ M2) by (symmetry; apply Permutation_middle).
    exists (M1 ++ M2). split; [done |]. split; [done | | | auto].
    + eapply held_perm; [| exact H]. cbn [frames with_tabs]. apply Permutation_app_head. rewrite EP, fmap_cons. simpl.
      apply Permutation_middle.
    + intros w pg' r' Hw HT. destruct (Same w pg' r' Hw HT) as [N HM].
      rewrite elem_of_app, elem_of_cons in HM. rewrite elem_of_app. destruct HM as [HM | [HE | HM]]; auto.
      by apply (f_equal fst) in HE.
  - split; [done | done | | auto]. intros w pg r Hw HT. by apply (Same w pg r).
Qed.

(** the range's frames are frames, and no table is among them *)
Lemma backed_frame s F M D x pg r : backed s F M D -> range x ->
  translate (tabs s) root x = Some (pg, r) -> frame pg /\ pg ∉ F.
Proof.
  intros HB Hx HT. pose proof (bk_pages _ _ _ _ HB x pg r Hx HT) as HM.
  destruct (held_frames _ _ (bk_held _ _ _ _ HB)) as [HN HF].
  assert (Hin : pg ∈ M.*2) by (apply list_elem_of_fmap; by exists (path x, pg)). split.
  - rewrite Forall_forall in HF. apply HF. rewrite !elem_of_app. auto.
  - apply NoDup_app in HN as (_ & HN & _). intros HpF. apply (HN pg HpF). apply elem_of_app. by left.
Qed.

Lemma pages_unique (M : list (list Z * Z)) b p q : NoDup M.*2 -> (p, b) ∈ M -> (q, b) ∈ M -> p = q.
Proof.
  induction M as [| [r c] M IH]; intros HN H1 H2; [by inversion H1 |]. simpl in HN.
  apply NoDup_cons in HN as [Hc HN]. assert (Hno : forall p', (p', c) ∉ M).
  { intros p' Hp. apply Hc, list_elem_of_fmap. by exists (p', c). }
  apply elem_of_cons in H1, H2. destruct H1 as [[= -> ->] | H1], H2 as [[= ->] | H2]; subst; try done.
  - by destruct (Hno q).
  - by destruct (Hno p).
  - by apply IH.
Qed.

(** different pages of the range are in different frames *)
Lemma backed_inj s F M D x y pg r r' : backed s F M D -> range x -> range y ->
  translate (tabs s) root x = Some (pg, r) -> translate (tabs s) root y = Some (pg, r') -> path x = path y.
Proof.
  intros HB Hx Hy Tx Ty. apply (pages_unique M pg).
  - destruct (held_frames _ _ (bk_held _ _ _ _ HB)) as [HU _].
    by apply NoDup_app in HU as (_ & _ & (HU & _ & _)%NoDup_app).
  - by apply (bk_pages _ _ _ _ HB x pg r).
  - by apply (bk_pages _ _ _ _ HB y pg r').
Qed.

(** the physical address behind a virtual one *)
Definition physical (s : vm P) (x : Z) : option Z :=
  match translate (tabs s) root x with Some (pg, _) => Some (pg + x mod 4096) | None => None end.

Lemma backed_physical_inj s F M D x y : backed s F M D -> range x -> range y ->
  physical s x <> None -> physical s x = physical s y -> path x = path y /\ x mod 4096 = y mod 4096.
Proof.
  intros HB Hx Hy. unfold physical. destruct (translate (tabs s) root x) as [[a r] |] eqn:Ea; [| done].
  destruct (translate (tabs s) root y) as [[b r'] |] eqn:Eb; [| done]. intros _ [= E].
  destruct (backed_frame _ _ _ _ _ _ _ HB Hx Ea) as [[_ Ha] _], (backed_frame _ _ _ _ _ _ _ HB Hy Eb) as [[_ Hb] _].
  assert (a = b) as -> by zlia. split; [| lia]. by eapply backed_inj.
Qed.
End Owner.

(** ** User address spaces *)

Definition user_range (w : Z) : Prop := 0 <= w < 140737488355328.

Lemma user_low w : user_range w -> low (path w).
Proof.
  unfold user_range, low, path, PML4_IDX. intros Hw. rewrite idx_field by lia. change (2 ^ 39) with 549755813888. zlia.
Qed.

Lemma user_u64 w : user_range w -> is_u64 w.
Proof. unfold user_range. intros Hw. red. lia. Qed.

Lemma user_same_page x y : user_range x -> user_range y -> path x = path y <-> x / 4096 = y / 4096.
Proof. intros Hx Hy. rewrite path_eq. unfold user_range in *. split; intros H; [zlia | by rewrite H]. Qed.

(** The lower half of a process: [U] its tables, [M] its pages, which together
    are what [vmm_destroy_level] will release; [K] the tables of others, the
    kernel's among them, which hold the words [m0]; [D] the other frames. *)
Section User.
Context {P : Type} {PA : PageAllocator P} (root : Z) (K : list Z) (m0 : tables).

Record user_space (s : vm P) (U : list Z) (M : list (list Z * Z)) (D : list Z) : Prop := {
  us_backed : backed root user_range s (U ++ K) M D;
  us_fine : no_large 4 (tabs s) root;
  us_owned : owned 4 (tabs s) root ≡ₚ U ++ M.*2;
  us_kept u j : u ∈ K -> tabs s u j = m0 u j }.

(** what [vmm_destroy_level] needs *)
Lemma user_held s U M D : user_space s U M D -> held (frames s) (owned 4 (tabs s) root ++ K ++ D).
Proof.
  intros [HB _ HO _]. eapply held_perm; [| exact (bk_held _ _ _ _ _ _ HB)]. rewrite HO, <- !app_assoc.
  apply Permutation_app_head. rewrite !app_assoc. apply Permutation_app_tail, Permutation_app_comm.
Qed.

Lemma user_alloc s U M D : user_space s U M D ->
  exists a p, page_alloc (frames s) = Ok (a, p) /\
    (a = 0 /\ p = frames s \/ frame a /\ user_space (mk_vm (tabs s) p) U M (a :: D)).
Proof.
  intros [HB HF HO HK]. destruct (backed_alloc _ _ _ _ _ _ HB) as (a & p & E & R). exists a, p. split; [done |].
  destruct R as [R | [Hf R]]; [by left | right]. split; [done |]. by split.
Qed.

Lemma user_free s U M pa D : user_space s U M (pa :: D) ->
  exists p, page_free pa (frames s) = Ok p /\ user_space (mk_vm (tabs s) p) U M D.
Proof.
  intros [HB HF HO HK]. destruct (backed_free _ _ _ _ _ _ _ HB) as (p & E & R). exists p. split; [done |]. by split.
Qed.

Lemma user_root s U M D : user_space s U M D -> frame root.
Proof.
  intros HS. by apply (ws_table _ _ _ (bk_space _ _ _ _ _ _ (us_backed _ _ _ _ HS)) [] root); [split; [constructor | simpl; lia] |].
Qed.

(** what [vmm_get_phys] finds *)
Lemma user_get_phys s U M D va : user_space s U M D -> user_range va ->
  exists raw, vmm_get_phys (tabs s) root va = Ok raw /\
    match translate (tabs s) root va with Some (pg, _) => addr_of raw = pg /\ frame pg | None => addr_of raw = 0 end.
Proof.
  intros HS Hva. pose proof (us_backed _ _ _ _ HS) as HB. destruct (user_root _ _ _ _ HS) as [Hr _].
  destruct (get_phys_walk _ root (U ++ K) (bk_space _ _ _ _ _ _ HB) va (user_u64 _ Hva) ltac:(lia)) as (raw & E & R).
  exists raw. split; [done |]. destruct (translate (tabs s) root va) as [[pg r] |] eqn:ET.
  - split; [| by eapply backed_frame]. unfold translate in ET. destruct (walk _ _ _ _) as [[l e] |]; [| done].
    injection ET as <- _. apply R.
  - unfold translate in ET. destruct (walk _ _ _ _) as [[l e] |]; [done |]. by subst raw.
Qed.

(** a table on a user path is not one of [K] *)
Lemma path_not_kept s U M D va u : user_range va -> user_space s U M D -> on_path root va (tabs s) u -> u ∉ K.
Proof.
  intros Hva HS Hon HK. pose proof (held_frames _ _ (user_held _ _ _ _ HS)) as [HN _].
  apply NoDup_app in HN as (_ & HN & _). apply (HN u); [| apply elem_of_app; by left].
  eapply on_path_owned; [by apply user_low | apply HS | exact Hon].
Qed.

Lemma user_map s U M D va pa flags : user_space s U M (pa :: D) -> frame pa -> user_range va -> PTE_FLAGS flags ->
  translate (tabs s) root va = None ->
  exists c s' U', vmm_map root va pa flags s = Ok (c, s') /\
    (c = -1 /\ keeps (tabs s) (tabs s') root /\ user_space s' U' M (pa :: D) \/
     c = 0 /\ user_space s' U' ((path va, pa) :: M) D /\
     translate (tabs s') root va = Some (pa, Z.land flags RIGHTS) /\
     forall w, path w <> path va -> translate (tabs s') root w = translate (tabs s) root w).
Proof.
  intros HS Hpa Hva Hfl HN. pose proof HS as [HB HF HO HK]. pose proof (user_low va Hva) as Hlow.
  destruct (backed_map _ _ s (U ++ K) M D va pa flags HB Hpa (user_u64 _ Hva) Hfl HN) as (c & s' & N & E & Off & R).
  exists c, s', (N ++ U). split; [done |].
  assert (Kept : forall M' D', user_space s' (N ++ U) M' D' \/
    (backed root user_range s' (N ++ U ++ K) M' D' /\ no_large 4 (tabs s') root /\ owned 4 (tabs s') root ≡ₚ (N ++ U) ++ M'.*2) ->
    user_space s' (N ++ U) M' D').
  { intros M' D' [? | (HB' & HF' & HO')]; [done |]. assert (HB2 : backed root user_range s' ((N ++ U) ++ K) M' D') by (by rewrite <- app_assoc).
    split; [done | done | done |]. intros u j Hu. rewrite Off; [by apply HK | apply elem_of_app; by right |]. intros Hon.
    apply (on_path_owned root va (tabs s') u Hlow HF') in Hon. rewrite HO' in Hon.
    destruct (held_frames _ _ (bk_held _ _ _ _ _ _ HB2)) as [HND _].
    apply NoDup_app in HND as (HND & HD2 & _). apply elem_of_app in Hon as [Hon | Hon].
    - apply NoDup_app in HND as (_ & HD1 & _). by apply (HD1 u).
    - apply (HD2 u); apply elem_of_app; auto. }
  destruct R as [(-> & KP & HB' & G) | (-> & HB' & T & O & G)].
  - left. split; [done |]. split; [done |]. apply Kept. right. split; [done |]. destruct (G Hlow HF) as [HF' HO'].
    split; [done |]. by rewrite HO', HO, app_assoc.
  - right. split; [done |]. split; [| done]. apply Kept. right. split; [done |]. destruct (G Hlow HF) as [HF' HO'].
    split; [done |]. rewrite HO', HO. simpl. rewrite <- Permutation_middle. by rewrite app_assoc.
Qed.

Lemma user_unmap s U M D va : user_space s U M D -> user_range va ->
  exists c m', vmm_unmap (tabs s) root va = Ok (c, m') /\ translate m' root va = None /\
    (forall w, path w <> path va -> translate m' root w = translate (tabs s) root w) /\
    match translate (tabs s) root va with
    | None => user_space (with_tabs m' s) U M D
    | Some (pg, _) => exists M', user_space (with_tabs m' s) U M' (pg :: D)
    end.
Proof.
  intros HS Hva. pose proof HS as [HB HF HO HK].
  destruct (backed_unmap _ _ s (U ++ K) M D va HB Hva (user_u64 _ Hva)) as (c & m' & E & T & O & Off & G & R).
  exists c, m'. do 3 (split; [done |]). destruct (G (user_low va Hva) HF) as [HF' HO'].
  assert (Kept : forall u j, u ∈ K -> m' u j = m0 u j).
  { intros u j Hu. rewrite Off; [by apply HK |]. intros Hon. by apply (path_not_kept s U M D va u Hva HS Hon). }
  destruct (translate (tabs s) root va) as [[pg r] |].
  - destruct R as (M' & EM & HB'). exists M'. split; [done | done | | done].
    apply (Permutation_cons_inv (a := pg)). rewrite EM, fmap_cons in HO. cbn [app snd] in HO, HO'. rewrite <- HO', HO. symmetry. apply Permutation_middle.
  - split; [done | done | | done]. cbn [app] in HO'. by rewrite <- HO', HO.
Qed.

(** a frame of others is no page of the space *)
Lemma user_unshared s U M D x pg r : user_space s U M D -> user_range x ->
  translate (tabs s) root x = Some (pg, r) -> pg ∉ D.
Proof.
  intros HS Hx HT HD. destruct (held_frames _ _ (bk_held _ _ _ _ _ _ (us_backed _ _ _ _ HS))) as [HN _].
  apply NoDup_app in HN as (_ & _ & HN). apply NoDup_app in HN as (_ & HN & _). apply (HN pg); [| done].
  apply list_elem_of_fmap. exists (path x, pg). split; [done |]. by eapply bk_pages; [apply HS | |].
Qed.
End User.

(** ** New user spaces *)
Section NewSpace.
Context {P : Type} {PA : PageAllocator P} (kroot : Z) (K : list Z) (m0 : tables).

(** the kernel's space: its tables [K] with the words [m0], and frames [D] of others *)
Definition kernel_space (s : vm P) (D : list Z) : Prop :=
  wf_space (tabs s) kroot K /\ held (frames s) (K ++ D) /\ forall u j, u ∈ K -> tabs s u j = m0 u j.

Lemma empty_half m g : (forall j, 0 <= j < 256 -> m g j = 0) -> no_large 4 m g /\ owned 4 m g = [g].
Proof.
  intros Hz. assert (HS : forall i, i ∈ slots 4 -> m g i = 0).
  { intros i (j & -> & Hj%elem_of_seq)%list_elem_of_fmap. apply Hz. simpl in Hj. lia. }
  split.
  - cbn [no_large]. intros i Hi HP. by rewrite (HS i Hi) in HP.
  - cbn [owned]. rewrite (map_ext_in _ (fun _ => [])); [| intros i Hi%list_elem_of_In; by rewrite (HS i Hi)].
    by replace (concat (map (fun _ : Z => []) (slots 4))) with (@nil Z) by (generalize (slots 4); intros l; by induction l).
Qed.

Lemma new_user_space s D : kernel_space s D ->
  exists g s', vmm_create_user_pml4 kroot s = Ok (g, s') /\ (forall u j, u ∈ K -> tabs s' u j = m0 u j) /\
    (g = 0 /\ held (frames s') (K ++ D) \/
     user_space g K m0 s' [g] [] D /\ forall x, user_range x -> translate (tabs s') g x = None).
Proof.
  intros (W & Hh & HK). set (PD := reserve PA D).
  destruct (create_root (PA := PD) kroot K s (conj W Hh)) as (g & m' & p & E & (Hm & Hs & Hz) & Gn & R).
  exists g, (mk_vm m' p). split; [exact E |]. assert (HK' : forall u j, u ∈ K -> m' u j = m0 u j).
  { intros u j Hu. rewrite Hm by (by intros ->). by apply HK. }
  split; [done |]. destruct R as [[-> ->] | (Hf & Hp)]; [by left | right].
  assert (HW : forall x, user_range x -> walk m' 4 g (path x) = None).
  { intros x Hx. pose proof (user_low x Hx) as Hl. unfold low, path in *. cbn [walk].
    rewrite Hz; [done |]. pose proof (idx_range x) as [[? _] _]. lia. }
  assert (HT : forall x, user_range x -> translate m' g x = None) by (intros x Hx; unfold translate; by rewrite HW).
  split; [| exact HT]. destruct (empty_half m' g Hz) as [HN HO]. split; [| done | cbn [tabs]; rewrite HO; done | done]. split.
  - by apply (shared_wf (tabs s) m' kroot K g).
  - exact Hp.
  - intros w pg r Hw Ht. by rewrite HT in Ht.
  - intros w Hw l e El. by rewrite HW in El.
Qed.
End NewSpace.
