(* ===== verification/Heap.v ===== *)
(** * The kernel heap (src/kernel/heap.c, heap.h)

    The heap is a circular list of blocks headed by [kheap_g.head]; [blocks] is
    that list in list order (LinkedList.v shows that the list primitives
    implement lists).  A block carries its address, so list order and address
    order are separate notions and the invariant [heap_inv] has to relate them:
    the blocks tile an initial part of the heap region in list order, without
    gaps, and no two free blocks are neighbours.

    Physical pages and the kernel page table are behind the interface
    [PageBackend]; the operations are proved against its laws. *)

From stdpp Require Import relations.
From S2P Require Import Prelude Alloc.

(** ** The page backend: what the heap uses of pmm.c and vmm.c

    [vmm_is_mapped] and [vmm_map] are those of the kernel page table. *)
Class PageBackend (M : Type) := {
  vmm_is_mapped : Z -> M -> bool;
  pmm_alloc : M -> res (Z * M);
  pmm_free : Z -> M -> res M;
  vmm_map : Z -> Z -> M -> res (Z * M);
  backend_ok : M -> Prop;
  alloc_ok m : backend_ok m ->
    exists p m', pmm_alloc m = Ok (p, m') /\ backend_ok m' /\
      (forall va, vmm_is_mapped va m = true -> vmm_is_mapped va m' = true);
  map_ok va p m m1 : backend_ok m -> pmm_alloc m = Ok (p, m1) -> p <> 0 ->
    vmm_is_mapped va m = false -> va mod 4096 = 0 -> 0 <= va <= UINT64_MAX ->
    exists r m', vmm_map va p m1 = Ok (r, m') /\
      (forall va', vmm_is_mapped va' m = true -> vmm_is_mapped va' m' = true) /\
      (if r =? 0 then backend_ok m' /\ vmm_is_mapped va m' = true
       else exists m'', pmm_free p m' = Ok m'' /\ backend_ok m'' /\
         forall va', vmm_is_mapped va' m' = true -> vmm_is_mapped va' m'' = true)
}.

(** ** Data *)

Definition KHEAP_ALIGNMENT : Z := 16.
Definition KHEAP_MAGIC : Z := 0x48454150.
Definition HEAP_MAX_SIZE : Z := 1073741824.
Definition KHEAP_VBASE : Z := 0xffffa00000000000.
Definition HDR : Z := 48.
Definition PAGE_SIZE : Z := 4096.

Record kheap_node := mk_block {
  addr : Z; magic : Z; is_free : bool; size : Z; id : Z }.

Record kheap (M : Type) := mk_heap {
  blocks : list kheap_node; base : Z; max : Z; count : Z; pages : M }.
Arguments mk_heap {M}.
Arguments blocks {M}.
Arguments base {M}.
Arguments max {M}.
Arguments count {M}.
Arguments pages {M}.

Section heap.
Context {M : Type} `{PageBackend M}.

Definition with_blocks (l : list kheap_node) (h : kheap M) : kheap M :=
  mk_heap l (base h) (max h) (count h) (pages h).
Definition with_pages (mx : Z) (m : M) (h : kheap M) : kheap M :=
  mk_heap (blocks h) (base h) mx (count h) m.

(** ** Growth *)

Definition kheap_get_limit (h : kheap M) : option Z :=
  if UINT64_MAX - HEAP_MAX_SIZE <? base h then None else Some (base h + HEAP_MAX_SIZE).

(** the loop of [kheap_expand_to_addr]; running out of fuel is [Fault] *)
Fixpoint expand_loop (fuel : nat) (target_aligned heap_limit : Z) (h : kheap M)
    : res (bool * kheap M) :=
  match fuel with
  | O => Fault
  | S fuel =>
      if max h <? target_aligned then
        if (heap_limit <? max h) || (heap_limit - max h <? PAGE_SIZE) then Ok (false, h)
        else if negb (vmm_is_mapped (max h) (pages h)) then
          let! (phys, m) := pmm_alloc (pages h) in
          if phys =? 0 then Ok (false, with_pages (max h) m h)
          else
            let! (r, m) := vmm_map (max h) phys m in
            if negb (r =? 0) then
              let! m := pmm_free phys m in
              Ok (false, with_pages (max h) m h)
            else expand_loop fuel target_aligned heap_limit (with_pages (max h + PAGE_SIZE) m h)
        else
          expand_loop fuel target_aligned heap_limit (with_pages (max h + PAGE_SIZE) (pages h) h)
      else Ok (true, h)
  end.

Definition kheap_expand_to_addr (target_addr : Z) (h : kheap M) : res (bool * kheap M) :=
  match kheap_get_limit h with
  | None => Ok (false, h)
  | Some heap_limit =>
      if (target_addr <? base h) || (UINT64_MAX - (PAGE_SIZE - 1) <? target_addr) then Ok (false, h)
      else
        let target_aligned := align_down PAGE_SIZE (u64 (target_addr + PAGE_SIZE - 1)) in
        if heap_limit <? target_aligned then Ok (false, h)
        else expand_loop (S (Z.to_nat ((target_aligned - max h + 4095) / PAGE_SIZE)))
               target_aligned heap_limit h
  end.

(** ** Allocation *)

(** [cur] is the current thread of the CPU, if any *)
Definition kheap_node_set_id (cur : option Z) : Z := default 0 cur.

(** the block that serves a request: its tail when the rest is large enough to
    be a block, else the whole block; the result is the allocated block's
    address and what replaces the block in the list *)
Definition carve (total_needed tid : Z) (curr : kheap_node) : Z * list kheap_node :=
  if HDR + KHEAP_ALIGNMENT <=? size curr - total_needed then
    let free_size := size curr - total_needed in
    let allocated := u64 (addr curr + free_size) in
    (allocated, [mk_block (addr curr) (magic curr) (is_free curr) free_size (id curr);
                 mk_block allocated KHEAP_MAGIC false total_needed tid])
  else (addr curr, [mk_block (addr curr) KHEAP_MAGIC false (size curr) tid]).

(** the first-fit walk *)
Fixpoint first_fit (total_needed tid : Z) (l : list kheap_node)
    : option (Z * list kheap_node) :=
  match l with
  | [] => None
  | curr :: l =>
      if is_free curr && (total_needed <=? size curr) then
        let '(a, bs) := carve total_needed tid curr in Some (a, bs ++ l)
      else
        match first_fit total_needed tid l with
        | Some (a, l') => Some (a, curr :: l')
        | None => None
        end
  end.

(** the new block after the last one; the head of an empty list is a static
    object outside the heap region, so the address check refuses it *)
Definition kmalloc_grow (total_needed tid : Z) (h : kheap M) : res (Z * kheap M) :=
  match kheap_get_limit h, last (blocks h) with
  | Some heap_limit, Some lst =>
      if (addr lst <? base h) || (heap_limit <? addr lst) || (heap_limit - addr lst <? size lst)
      then Ok (0, h)
      else
        let new_node_addr := u64 (addr lst + size lst) in
        if (UINT64_MAX - total_needed <? new_node_addr) ||
           (heap_limit <? u64 (new_node_addr + total_needed))
        then Ok (0, h)
        else
          let! (ok, h) := kheap_expand_to_addr (new_node_addr + total_needed) h in
          if negb ok then Ok (0, h)
          else
            let vmn := mk_block new_node_addr KHEAP_MAGIC false total_needed tid in
            Ok (u64 (new_node_addr + HDR), with_blocks (blocks h ++ [vmn]) h)
  | _, _ => Ok (0, h)
  end.

Definition total_needed (sz : Z) : Z :=
  align_down KHEAP_ALIGNMENT (u64 (sz + HDR + (KHEAP_ALIGNMENT - 1))).

Definition kmalloc (sz : Z) (cur : option Z) (h : kheap M) : res (Z * kheap M) :=
  if sz =? 0 then Ok (0, h)
  else if UINT64_MAX - HDR - (KHEAP_ALIGNMENT - 1) <? sz then Ok (0, h)
  else
    match first_fit (total_needed sz) (kheap_node_set_id cur) (blocks h) with
    | Some (a, l) => Ok (u64 (a + HDR), with_blocks l h)
    | None => kmalloc_grow (total_needed sz) (kheap_node_set_id cur) h
    end.

(** ** Release *)

(** the list around the block at an address *)
Fixpoint find_block (a : Z) (l : list kheap_node)
    : option (list kheap_node * kheap_node * list kheap_node) :=
  match l with
  | [] => None
  | c :: l =>
      if addr c =? a then Some ([], c, l)
      else
        match find_block a l with
        | Some (pre, b, post) => Some (c :: pre, b, post)
        | None => None
        end
  end.

Definition adjacent (a b : kheap_node) : bool := u64 (addr a + size a) =? addr b.

Definition set_size (v : Z) (b : kheap_node) : kheap_node :=
  mk_block (addr b) (magic b) (is_free b) v (id b).

(** a free, adjacent list predecessor absorbs the block *)
Definition merge_prev (pre : list kheap_node) (curr : kheap_node)
    : list kheap_node * kheap_node :=
  match last pre with
  | Some prv =>
      if is_free prv && adjacent prv curr
      then (removelast pre, set_size (u64 (size prv + size curr)) prv)
      else (pre, curr)
  | None => (pre, curr)
  end.

(** [next_adj] is computed from the block as it was before the first merge *)
Definition merge_next (orig curr : kheap_node) (post : list kheap_node)
    : kheap_node * list kheap_node :=
  match post with
  | nxt :: post' =>
      if is_free nxt && adjacent orig nxt
      then (set_size (u64 (size curr + size nxt)) curr, post')
      else (curr, post)
  | [] => (curr, post)
  end.

Definition mark_free (b : kheap_node) : kheap_node :=
  mk_block (addr b) (magic b) true (size b) 0.

(** a pointer that is not the payload of a block is [Fault]: the header fields
    would be read from whatever the memory holds *)
Definition kfree (ptr : Z) (h : kheap M) : res (kheap M) :=
  if ptr =? 0 then Ok h
  else
    match find_block (u64 (ptr - HDR)) (blocks h) with
    | None => Fault
    | Some (pre, curr, post) =>
        if is_free curr then Panic
        else if negb (magic curr =? KHEAP_MAGIC) then Panic
        else
          let '(pre, curr') := merge_prev pre curr in
          let '(curr', post) := merge_next curr curr' post in
          Ok (with_blocks (pre ++ mark_free curr' :: post) h)
    end.

(** ** Initialisation *)

Definition kheap_init (m : M) : res (kheap M) :=
  let h := mk_heap [] KHEAP_VBASE KHEAP_VBASE 1 m in
  let! (ok, h) := kheap_expand_to_addr (base h + PAGE_SIZE) h in
  if negb ok then Panic
  else Ok (with_blocks [mk_block (base h) KHEAP_MAGIC true PAGE_SIZE 0] h).

(** ** The invariant *)

Definition block_ok (b : kheap_node) : Prop :=
  magic b = KHEAP_MAGIC /\ 64 <= size b /\ size b mod 16 = 0 /\ (is_free b = true -> id b = 0).

(** the blocks follow each other in memory from [a] to [e], in list order *)
Fixpoint tiles (a : Z) (l : list kheap_node) (e : Z) : Prop :=
  match l with
  | [] => a = e
  | b :: l => addr b = a /\ tiles (a + size b) l e
  end.

Definition both_free (a : kheap_node) (o : option kheap_node) : Prop :=
  match o with
  | Some b => is_free a = true /\ is_free b = true
  | None => False
  end.

(** no two neighbours are free *)
Fixpoint coalesced (l : list kheap_node) : Prop :=
  match l with
  | [] => True
  | a :: l => ~ both_free a (head l) /\ coalesced l
  end.

Definition layout_ok (lo hi : Z) (l : list kheap_node) : Prop :=
  l <> [] /\ Forall block_ok l /\ coalesced l /\ exists top, tiles lo l top /\ top <= hi.

(** the heap region: page-aligned bounds below the limit, mapped up to [max] *)
Definition region_ok (h : kheap M) : Prop :=
  0 < base h /\ base h + HEAP_MAX_SIZE <= UINT64_MAX /\ base h mod PAGE_SIZE = 0 /\
  max h mod PAGE_SIZE = 0 /\ base h <= max h <= base h + HEAP_MAX_SIZE /\
  backend_ok (pages h) /\
  forall va, base h <= va < max h -> va mod PAGE_SIZE = 0 -> vmm_is_mapped va (pages h) = true.

Definition heap_inv (h : kheap M) : Prop :=
  region_ok h /\ layout_ok (base h) (max h) (blocks h).

(** the blocks handed out, as (address, size) *)
Definition in_use (l : list kheap_node) : list (Z * Z) :=
  (fun b => (addr b, size b)) <$> filter (fun b => is_free b = false) l.

(** ** Tilings *)

Lemma tiles_app a l1 l2 e : tiles a (l1 ++ l2) e <-> exists m, tiles a l1 m /\ tiles m l2 e.
Proof.
  revert a. induction l1 as [| b l1 IH]; intros a; simpl.
  - split; [eauto | by intros (m & -> & ?)].
  - rewrite IH. split; [intros (-> & m & ? & ?); eauto | intros (m & (-> & ?) & ?); eauto].
Qed.

Lemma tiles_le a l e : Forall block_ok l -> tiles a l e -> a <= e.
Proof.
  revert a. induction l as [| b l IH]; intros a HF Ht; simpl in *; [lia |].
  inversion HF as [| ? ? (_ & Hs & _) HF']; subst. destruct Ht as [_ Ht].
  specialize (IH _ HF' Ht). lia.
Qed.

Lemma tiles_bounds a l e b :
  Forall block_ok l -> tiles a l e -> b ∈ l -> a <= addr b /\ addr b + size b <= e.
Proof.
  intros HF Ht (l1 & l2 & ->)%list_elem_of_split.
  apply tiles_app in Ht as (m & H1 & Hb & H2). rewrite Forall_app, Forall_cons in HF.
  destruct HF as (F1 & Fb & F2). apply tiles_le in H1; [| done]. apply tiles_le in H2; [| done]. lia.
Qed.

(** blocks at different places of the list do not overlap *)
Lemma tiles_disjoint a l1 b l2 c l3 e :
  Forall block_ok (l1 ++ b :: l2 ++ c :: l3) -> tiles a (l1 ++ b :: l2 ++ c :: l3) e ->
  addr b + size b <= addr c.
Proof.
  intros HF Ht. apply tiles_app in Ht as (m & _ & Hb & Ht).
  apply tiles_app in Ht as (m' & H2 & Hc & _). rewrite !Forall_app, !Forall_cons, Forall_app in HF.
  destruct HF as (_ & _ & HF & _). apply tiles_le in H2; [lia | done].
Qed.

Lemma tiles_aligned a l e b :
  Forall block_ok l -> tiles a l e -> b ∈ l -> a mod 16 = 0 -> addr b mod 16 = 0.
Proof.
  revert a. induction l as [| c l IH]; intros a HF Ht Hb Ha; [by inversion Hb |].
  inversion HF as [| ? ? (_ & Hs & Hm & _) HF']; subst. destruct Ht as [Hc Ht].
  apply elem_of_cons in Hb as [-> | Hb]; [congruence |].
  apply (IH _ HF' Ht Hb). zlia.
Qed.

Lemma in_use_app l1 l2 : in_use (l1 ++ l2) = in_use l1 ++ in_use l2.
Proof. unfold in_use. by rewrite filter_app, fmap_app. Qed.

Lemma in_use_cons b l :
  in_use (b :: l) = (if is_free b then [] else [(addr b, size b)]) ++ in_use l.
Proof.
  unfold in_use. rewrite filter_cons. destruct (is_free b) eqn:E.
  - rewrite decide_False by congruence. done.
  - rewrite decide_True by done. done.
Qed.

Lemma coalesced_app l1 l2 :
  coalesced (l1 ++ l2) <->
  coalesced l1 /\ coalesced l2 /\
  match last l1 with Some a => ~ both_free a (head l2) | None => True end.
Proof.
  induction l1 as [| a l1 IH]; simpl; [tauto |].
  rewrite IH. destruct l1 as [| b l1]; simpl; [tauto |].
  destruct l1; simpl; tauto.
Qed.

(** ** Growth *)

Lemma align_up_page z :
  0 <= z -> z <= UINT64_MAX - 4095 ->
  exists t, align_down PAGE_SIZE (u64 (z + PAGE_SIZE - 1)) = t /\
    z <= t < z + 4096 /\ t mod 4096 = 0.
Proof.
  intros H0 H1. unfold PAGE_SIZE. rewrite u64_small by (red; lia).
  rewrite align_down_4096 by (red; lia). eexists. split; [done |]. zlia.
Qed.

(** [h'] is [h] after some growth *)
Definition grown (h h' : kheap M) : Prop :=
  blocks h' = blocks h /\ base h' = base h /\ max h <= max h' /\ region_ok h'.

Lemma grown_trans h1 h2 h3 : grown h1 h2 -> grown h2 h3 -> grown h1 h3.
Proof. intros (? & ? & ? & ?) (? & ? & ? & ?). split_and!; try done; congruence || lia. Qed.

(** one iteration: the backend may change, and the region grows by a page that
    is mapped *)
Lemma region_step h m d :
  region_ok h -> d = 0 \/ d = PAGE_SIZE -> max h + d <= base h + HEAP_MAX_SIZE -> backend_ok m ->
  (forall va, vmm_is_mapped va (pages h) = true -> vmm_is_mapped va m = true) ->
  (d = PAGE_SIZE -> vmm_is_mapped (max h) m = true) ->
  grown h (with_pages (max h + d) m h).
Proof.
  intros (H1 & H2 & H3 & H4 & H5 & H6 & H7) Hd Hle Hb Hmono Hnew.
  unfold grown, region_ok. simpl. unfold PAGE_SIZE in *. split_and!; try done; try lia.
  - destruct Hd; subst; zlia.
  - intros va Hva Hal. destruct (decide (va < max h)); [apply Hmono, H7; [lia | done] |].
    destruct Hd as [-> | ->]; [lia |]. replace va with (max h) by zlia. by apply Hnew.
Qed.

Lemma expand_loop_ok fuel target limit h :
  region_ok h -> limit = base h + HEAP_MAX_SIZE -> target mod PAGE_SIZE = 0 -> target <= limit ->
  (target - max h + 4095) / PAGE_SIZE < Z.of_nat fuel -> (0 < fuel)%nat ->
  exists ok h', expand_loop fuel target limit h = Ok (ok, h') /\ grown h h' /\
    (ok = true -> target <= max h').
Proof.
  revert h. induction fuel as [| fuel IH]; intros h Hr Hl Htm Htl Hf Hf0; [lia |]. cbn [expand_loop].
  assert (Hrefl : grown h h) by (split_and!; done || lia).
  pose proof Hr as (H1 & H2 & H3 & H4 & H5 & H6 & H7).
  destruct (Z.ltb_spec (max h) target) as [Hlt | Hge]; [| exists true, h; done].
  destruct (Z.ltb_spec limit (max h)); [lia |].
  destruct (Z.ltb_spec (limit - max h) PAGE_SIZE); simpl; [by exists false, h |].
  assert (Hnext : forall m, grown h (with_pages (max h + PAGE_SIZE) m h) ->
    exists ok h', expand_loop fuel target limit (with_pages (max h + PAGE_SIZE) m h) = Ok (ok, h') /\
      grown h h' /\ (ok = true -> target <= max h')).
  { intros m Hg. destruct (IH (with_pages (max h + PAGE_SIZE) m h)) as (ok & h' & E & Hg' & Ht);
      try done; try apply Hg; simpl; try (unfold PAGE_SIZE in *; zlia).
    exists ok, h'. split_and!; try done. by eapply grown_trans. }
  assert (Hfail : forall m, backend_ok m ->
    (forall va, vmm_is_mapped va (pages h) = true -> vmm_is_mapped va m = true) ->
    grown h (with_pages (max h) m h)).
  { intros m Hb Hm. rewrite <- (Z.add_0_r (max h)) at 1.
    apply region_step; try done; [by left | lia]. }
  destruct (vmm_is_mapped (max h) (pages h)) eqn:Em; simpl.
  { apply Hnext, region_step; try done; [by right | lia]. }
  destruct (alloc_ok (pages h) H6) as (p & m1 & Ea & Hb1 & Hm1). rewrite Ea. simpl.
  destruct (Z.eqb_spec p 0) as [-> | Hp]; [by eexists _, _; split_and!; [done | apply Hfail |] |].
  destruct (map_ok (max h) p (pages h) m1 H6 Ea Hp Em H4 ltac:(unfold PAGE_SIZE in *; lia)) as (r & m2 & Er & Hm2 & Hr2).
  rewrite Er. simpl. destruct (r =? 0); simpl.
  - apply Hnext, region_step; try done; [by right | lia | apply Hr2 | intros _; apply Hr2].
  - destruct Hr2 as (m3 & Ef & Hb3 & Hm3). rewrite Ef. simpl.
    eexists _, _. split_and!; [done | apply Hfail; auto | done].
Qed.

Lemma expand_ok target h :
  region_ok h -> base h <= target ->
  exists ok h', kheap_expand_to_addr target h = Ok (ok, h') /\ grown h h' /\
    (ok = true -> target <= max h' /\ target <= base h + HEAP_MAX_SIZE).
Proof.
  intros Hr Hb. assert (Hrefl : grown h h) by (split_and!; done || lia).
  pose proof Hr as (H1 & H2 & H3 & H4 & H5 & H6 & H7).
  unfold kheap_expand_to_addr, kheap_get_limit.
  destruct (Z.ltb_spec (UINT64_MAX - HEAP_MAX_SIZE) (base h)); [lia |].
  destruct (Z.ltb_spec target (base h)); [lia |].
  destruct (Z.ltb_spec (UINT64_MAX - (PAGE_SIZE - 1)) target); simpl; [by exists false, h |].
  destruct (align_up_page target) as (t & -> & Ht & Htm); [lia | unfold PAGE_SIZE in *; lia |].
  destruct (Z.ltb_spec (base h + HEAP_MAX_SIZE) t); [by exists false, h |].
  destruct (expand_loop_ok (S (Z.to_nat ((t - max h + 4095) / PAGE_SIZE))) t
    (base h + HEAP_MAX_SIZE) h) as (ok & h' & E & Hg & Hok); try done; [| lia |].
  { unfold PAGE_SIZE. zlia. }
  exists ok, h'. split_and!; try done. intros ->. specialize (Hok eq_refl). lia.
Qed.

(** ** Allocation *)

Lemma total_needed_ok sz :
  1 <= sz <= UINT64_MAX - HDR - (KHEAP_ALIGNMENT - 1) ->
  sz + HDR <= total_needed sz <= sz + HDR + 15 /\ total_needed sz mod 16 = 0 /\ 64 <= total_needed sz.
Proof.
  intros Hs. unfold total_needed, KHEAP_ALIGNMENT, HDR in *. rewrite u64_small by (red; lia).
  rewrite align_down_16 by (red; lia). zlia.
Qed.

(** a segment of the list may be replaced by blocks over the same memory *)
Lemma layout_replace lo hi l1 seg l2 bs :
  layout_ok lo hi (l1 ++ seg ++ l2) -> bs <> [] ->
  (forall s e, tiles s seg e -> tiles s bs e) -> Forall block_ok bs ->
  coalesced (l1 ++ bs ++ l2) -> layout_ok lo hi (l1 ++ bs ++ l2).
Proof.
  intros (_ & HF & _ & top & Ht & Hle) Hne Hseg Hbs Hc.
  rewrite !Forall_app in HF. destruct HF as (F1 & _ & F2).
  split_and!; [| rewrite !Forall_app; done | done |].
  - intros E. apply app_eq_nil in E as [_ E]. apply app_eq_nil in E as [E _]. done.
  - exists top. split; [| done]. apply tiles_app in Ht as (m & H1 & Ht).
    apply tiles_app in Ht as (m' & H2 & H3). apply tiles_app. exists m. split; [done |].
    apply tiles_app. eauto.
Qed.

Lemma first_fit_some tn tid l a l' :
  first_fit tn tid l = Some (a, l') ->
  exists l1 c l2 bs, l = l1 ++ c :: l2 /\ l' = l1 ++ bs ++ l2 /\
    is_free c = true /\ tn <= size c /\ carve tn tid c = (a, bs).
Proof.
  revert l'. induction l as [| c l IH]; intros l' E; simpl in E; [done |].
  destruct (is_free c && (tn <=? size c)) eqn:Ef.
  - destruct (carve tn tid c) as [a' bs] eqn:Ec. injection E as -> <-.
    apply andb_true_iff in Ef as [Ef Hs%Z.leb_le]. by exists [], c, l, bs.
  - destruct (first_fit tn tid l) as [[a' l''] |]; [| done]. injection E as -> <-.
    destruct (IH l'' eq_refl) as (l1 & d & l2 & bs & -> & -> & ?).
    by exists (c :: l1), d, l2, bs.
Qed.

Lemma first_fit_none tn tid l :
  first_fit tn tid l = None <-> Forall (fun c => is_free c && (tn <=? size c) = false) l.
Proof.
  induction l as [| c l IH]; simpl; [split; done |].
  rewrite Forall_cons, <- IH. destruct (is_free c && (tn <=? size c)) eqn:Ef.
  - destruct (carve tn tid c). split; [done | by intros [? _]].
  - destruct (first_fit tn tid l) as [[a l'] |]; split; [done | by intros [_ ?] | done | done].
Qed.

(** what [carve] leaves in place of a free block [c] *)
Lemma carve_ok tn tid c a bs :
  block_ok c -> is_free c = true -> tn <= size c -> 64 <= tn -> tn mod 16 = 0 ->
  0 <= addr c -> addr c + size c <= UINT64_MAX -> carve tn tid c = (a, bs) ->
  exists sz, tn <= sz /\ in_use bs = [(a, sz)] /\ addr c <= a /\ a + sz = addr c + size c /\
    bs <> [] /\ (forall s e, tiles s [c] e -> tiles s bs e) /\ Forall block_ok bs /\
    coalesced bs /\ (exists b, head bs = Some b) /\ (exists b, last bs = Some b /\ is_free b = false).
Proof.
  intros (Hm & Hs & Hmod & Hid) Hf Hle Htn Htm H0 Hmax. unfold carve, HDR, KHEAP_ALIGNMENT.
  destruct (Z.leb_spec (48 + 16) (size c - tn)).
  - rewrite u64_small by (red; lia). intros [= <- <-]. exists tn. rewrite !in_use_cons. simpl.
    rewrite Hf. unfold block_ok. simpl. split_and!; try done; try lia; eauto.
    constructor; [split_and!; simpl; auto; zlia |]. constructor; [| done].
    split_and!; simpl; done || lia.
  - intros [= <- <-]. exists (size c). rewrite in_use_cons. simpl. unfold block_ok. simpl.
    split_and!; try done; try lia; eauto. constructor; [split_and!; simpl; done || lia | done].
Qed.

Lemma coalesced_carved l1 c l2 bs :
  coalesced (l1 ++ c :: l2) -> is_free c = true -> coalesced bs ->
  (exists b, head bs = Some b) -> (exists b, last bs = Some b /\ is_free b = false) ->
  coalesced (l1 ++ bs ++ l2).
Proof.
  intros (C1 & (_ & C2) & C3)%coalesced_app Hf Cb [b Hb] (b' & Hb' & Hf').
  assert (Hh : head (bs ++ l2) = Some b) by (destruct bs; [done | exact Hb]).
  apply coalesced_app. split_and!; [done | |].
  - apply coalesced_app. split_and!; try done. rewrite Hb'.
    destruct (head l2); simpl; [| tauto]. intros [? _]. congruence.
  - rewrite Hh. destruct (last l1) as [x |]; [| done]. simpl in *. tauto.
Qed.

(** [kmalloc]'s promise: nothing happened to the blocks in use, or one block
    joined them at some place of the list *)
Definition alloc_result (sz : Z) (h : kheap M) (p : Z) (h' : kheap M) : Prop :=
  (p = 0 /\ blocks h' = blocks h) \/
  (exists bsz L1 L2, p mod KHEAP_ALIGNMENT = 0 /\ sz + HDR <= bsz /\
     in_use (blocks h) = L1 ++ L2 /\ in_use (blocks h') = L1 ++ (p - HDR, bsz) :: L2 /\
     base h <= p - HDR /\ p - HDR + bsz <= max h').

Lemma inv_block h b :
  heap_inv h -> b ∈ blocks h ->
  block_ok b /\ base h <= addr b /\ addr b + size b <= max h /\ addr b mod 16 = 0 /\
  0 < addr b /\ max h <= UINT64_MAX.
Proof.
  intros [(H1 & H2 & H3 & H4 & H5 & H6 & H7) (_ & HF & _ & top & Ht & Hle)] Hb.
  destruct (tiles_bounds _ _ _ _ HF Ht Hb).
  pose proof (tiles_aligned _ _ _ _ HF Ht Hb) as Hal. rewrite Forall_forall in HF.
  split_and!; try lia; [by apply HF |]. apply Hal. unfold PAGE_SIZE in *. zlia.
Qed.

Lemma kmalloc_fit_ok tn tid sz h a l :
  heap_inv h -> 64 <= tn -> tn mod 16 = 0 -> sz + HDR <= tn ->
  first_fit tn tid (blocks h) = Some (a, l) ->
  heap_inv (with_blocks l h) /\ alloc_result sz h (u64 (a + HDR)) (with_blocks l h).
Proof.
  intros Hi Htn Htm Hsz Ef. pose proof Hi as [Hr Hl].
  apply first_fit_some in Ef as (l1 & c & l2 & bs & El & -> & Hf & Hle & Ec).
  destruct (inv_block h c Hi) as (Hok & Hlo & Hhi & Hal & Hpos & Hmax); [rewrite El; lmem |].
  destruct (carve_ok tn tid c a bs) as
    (bsz & Hb1 & Huse & Ha & Hend & Hne & Htile & HFb & Hcb & Hhd & Hlast); try done; try lia.
  pose proof Hok as (_ & Hsz' & Hsm & _).
  assert (Hbm : bsz mod 16 = 0).
  { assert (Hin : (a, bsz) ∈ in_use bs) by (rewrite Huse; lmem).
    unfold in_use in Hin. apply list_elem_of_fmap in Hin as (b & [= -> ->] & Hb).
    apply list_elem_of_filter in Hb as [_ Hb]. rewrite Forall_forall in HFb. by apply HFb. }
  rewrite El in Hl. split.
  - split; [done |]. simpl. apply layout_replace with [c]; try done.
    apply (coalesced_carved l1 c l2 bs); try done. apply Hl.
  - right. unfold HDR in *. rewrite u64_small by (red; lia). exists bsz, (in_use l1), (in_use l2).
    simpl. rewrite El, !in_use_app, in_use_cons, Hf, Huse. simpl.
    replace (a + 48 - 48) with a by lia. split_and!; try done; try lia.
    unfold KHEAP_ALIGNMENT. zlia.
Qed.

Lemma coalesced_snoc l b : coalesced l -> is_free b = false -> coalesced (l ++ [b]).
Proof.
  intros Hc Hf. apply coalesced_app. split_and!; simpl; try done; [tauto |].
  destruct (last l); [| done]. simpl. intros [_ ?]. congruence.
Qed.

Lemma layout_snoc lo hi l top b :
  Forall block_ok l -> coalesced l -> tiles lo l top -> addr b = top -> block_ok b ->
  is_free b = false -> top + size b <= hi -> layout_ok lo hi (l ++ [b]).
Proof.
  intros HF Hc Ht Ha Hb Hf Hle. split_and!.
  - by destruct l.
  - apply Forall_app. split; [done | by constructor].
  - by apply coalesced_snoc.
  - exists (top + size b). split; [| done]. apply tiles_app. by exists top.
Qed.

Lemma grown_inv h h' : heap_inv h -> grown h h' -> heap_inv h'.
Proof.
  intros [_ (? & ? & ? & top & ? & ?)] (E1 & E2 & E3 & Hr). split; [done |].
  rewrite E1, E2. split_and!; try done. exists top. split; [done | lia].
Qed.

Lemma kmalloc_grow_ok tn tid sz h :
  heap_inv h -> 64 <= tn -> tn mod 16 = 0 -> sz + HDR <= tn ->
  exists p h', kmalloc_grow tn tid h = Ok (p, h') /\ heap_inv h' /\ alloc_result sz h p h'.
Proof.
  intros Hi Htn Htm Hsz. pose proof Hi as [Hr (Hne & HF & Hc & top & Ht & Htop)].
  pose proof Hr as (H1 & H2 & H3 & H4 & H5 & _).
  assert (Hnull : alloc_result sz h 0 h) by (by left). unfold kmalloc_grow, kheap_get_limit.
  destruct (Z.ltb_spec (UINT64_MAX - HEAP_MAX_SIZE) (base h)); [lia |].
  destruct (blocks h) as [| lst l _] eqn:El using rev_ind; [done |]. rewrite last_snoc.
  destruct (inv_block h lst Hi) as (Hok & Hlo & Hhi & Hal & Hpos & Hmax); [rewrite El; lmem |].
  assert (Hend : addr lst + size lst = top).
  { apply tiles_app in Ht as (m & _ & -> & ?). done. }
  destruct Hok as (_ & Hs64 & Hs16 & _).
  replace ((addr lst <? base h) || (base h + HEAP_MAX_SIZE <? addr lst) ||
    (base h + HEAP_MAX_SIZE - addr lst <? size lst)) with false by (zbool; simpl; done || lia).
  rewrite u64_small by (red; lia). rewrite Hend.
  destruct (Z.ltb_spec (UINT64_MAX - tn) top); simpl; [by exists 0, h |].
  rewrite u64_small by (red; lia).
  destruct (Z.ltb_spec (base h + HEAP_MAX_SIZE) (top + tn)); [by exists 0, h |].
  destruct (expand_ok (top + tn) h Hr) as (ok & h' & E & Hg & Hok'); [lia |]. rewrite E. simpl.
  pose proof (grown_inv h h' Hi Hg) as Hi'. destruct Hg as (G1 & G2 & G3 & G4).
  destruct ok; simpl; [| by exists 0, h'; split_and!; [| | left]].
  destruct (Hok' eq_refl) as [Hcov _]. unfold HDR in *. rewrite u64_small by (red; lia).
  eexists _, _. split; [done |]. rewrite <- El in *. rewrite G1. split.
  - split; [exact G4 |]. simpl. rewrite G2. by apply layout_snoc with top.
  - right. exists tn, (in_use (blocks h)), []. simpl. unfold HDR, KHEAP_ALIGNMENT.
    rewrite in_use_app, in_use_cons, app_nil_r. simpl.
    replace (top + 48 - 48) with top by lia. split_and!; try done; try lia.
    subst top. zlia.
Qed.

Lemma kmalloc_ok sz cur h :
  heap_inv h -> 0 <= sz <= UINT64_MAX ->
  exists p h', kmalloc sz cur h = Ok (p, h') /\ heap_inv h' /\ alloc_result sz h p h'.
Proof.
  intros Hi Hsz. assert (Hnull : alloc_result sz h 0 h) by (by left). unfold kmalloc.
  destruct (Z.eqb_spec sz 0); [by exists 0, h |].
  destruct (Z.ltb_spec (UINT64_MAX - HDR - (KHEAP_ALIGNMENT - 1)) sz); [by exists 0, h |].
  destruct (total_needed_ok sz) as (T1 & T2 & T3); [lia |].
  destruct (first_fit _ _ _) as [[a l] |] eqn:Ef.
  - destruct (kmalloc_fit_ok _ _ sz h a l Hi T3 T2 ltac:(lia) Ef). eauto.
  - apply kmalloc_grow_ok; done || lia.
Qed.

(** ** Release *)

Lemma find_block_some a l pre c post :
  find_block a l = Some (pre, c, post) -> l = pre ++ c :: post /\ addr c = a.
Proof.
  revert pre. induction l as [| d l IH]; intros pre E; simpl in E; [done |].
  destruct (Z.eqb_spec (addr d) a); [by injection E as <- <- <- |].
  destruct (find_block a l) as [[[pre' b] post'] |]; [| done]. injection E as <- <- <-.
  by destruct (IH pre' eq_refl) as [-> ?].
Qed.

Lemma find_block_at lo pre c post e :
  Forall block_ok (pre ++ c :: post) -> tiles lo (pre ++ c :: post) e ->
  find_block (addr c) (pre ++ c :: post) = Some (pre, c, post).
Proof.
  revert lo. induction pre as [| d pre IH]; intros lo HF Ht; simpl.
  - by rewrite Z.eqb_refl.
  - pose proof (tiles_disjoint lo [] d pre c post e HF Ht).
    inversion HF as [| ? ? (_ & Hs & _) HF']; subst. destruct Ht as [_ Ht].
    destruct (Z.eqb_spec (addr d) (addr c)); [lia |]. by rewrite (IH _ HF' Ht).
Qed.

(** the free neighbours: [all_free P] is at most the block before, or after *)
Definition all_free (l : list kheap_node) : Prop := Forall (fun b => is_free b = true) l.

Lemma in_use_all_free l : all_free l -> in_use l = [].
Proof. induction 1 as [| b l Hb _ IH]; [done |]. by rewrite in_use_cons, Hb, IH. Qed.

Definition not_free (o : option kheap_node) : Prop :=
  match o with Some b => is_free b = false | None => True end.

(** a block that may replace a segment of the list, up to its flag *)
Definition covers (c' : kheap_node) (seg : list kheap_node) : Prop :=
  (forall s e, tiles s seg e -> tiles s [c'] e) /\ magic c' = KHEAP_MAGIC /\
  64 <= size c' /\ size c' mod 16 = 0.

Lemma merge_prev_ok lo pre c post top :
  Forall block_ok (pre ++ c :: post) -> coalesced (pre ++ c :: post) ->
  tiles lo (pre ++ c :: post) top -> 0 < lo -> top <= UINT64_MAX -> is_free c = false ->
  exists pre' P c', merge_prev pre c = (pre', c') /\ pre = pre' ++ P /\ all_free P /\
    covers c' (P ++ [c]) /\ not_free (last pre').
Proof.
  intros HF Hc Ht Hlo Htop Hf. unfold merge_prev.
  assert (Hself : covers c [c]).
  { rewrite Forall_app, Forall_cons in HF. destruct HF as (_ & (? & ? & ? & _) & _). by split_and!. }
  destruct pre as [| prv pre _] using rev_ind.
  { exists [], [], c. do 2 (split; [done |]). split; [constructor | done]. }
  rewrite last_snoc, <- app_assoc in *. simpl in *.
  destruct (tiles_bounds _ _ _ prv HF Ht ltac:(lmem)) as [B1 B2].
  destruct (tiles_bounds _ _ _ c HF Ht ltac:(lmem)) as [_ B3].
  rewrite Forall_app, !Forall_cons in HF.
  destruct HF as (_ & (Pg & Ps & Pm & _) & (_ & Cs & Cm & _) & _).
  apply tiles_app in Ht as (m & _ & Hprv & Haddr & _).
  unfold adjacent. rewrite !u64_small by (red; lia).
  destruct (Z.eqb_spec (addr prv + size prv) (addr c)); [| lia]. rewrite andb_true_r.
  apply coalesced_app in Hc as (_ & _ & Hl).
  destruct (is_free prv) eqn:Ep.
  - exists pre, [prv], (set_size (size prv + size c) prv). rewrite removelast_last.
    split; [done |]. split; [done |]. split; [by constructor |]. split.
    + split; [| split_and!; simpl; done || zlia].
      intros s e' (<- & Hs & He). simpl in *. split; [done | lia].
    + destruct (last pre) as [x |]; [| done]. simpl in *. destruct (is_free x); tauto.
  - exists (pre ++ [prv]), [], c. rewrite last_snoc, app_nil_r.
    do 2 (split; [done |]). split; [constructor | done].
Qed.

Lemma merge_next_ok m c c' seg post top s0 :
  Forall block_ok post -> coalesced post -> tiles m (c :: post) top ->
  0 < m -> top <= UINT64_MAX -> 0 <= size c -> covers c' seg ->
  tiles s0 seg (addr c + size c) -> 0 < s0 ->
  exists c'' N post', merge_next c c' post = (c'', post') /\ post = N ++ post' /\ all_free N /\
    covers c'' (seg ++ N) /\ not_free (head post').
Proof.
  intros HF Hc Ht Hm Htop Hsz Hcov Hse Hs0. unfold merge_next.
  destruct post as [| nxt post].
  { exists c', [], []. rewrite (app_nil_r seg). do 2 (split; [done |]). split; [constructor | done]. }
  inversion HF as [| ? ? (_ & Ns & Nm & _) HF']; subst. destruct Ht as (Ha & Hn & Ht).
  pose proof (tiles_le _ _ _ HF' Ht) as Hle.
  unfold adjacent. rewrite (u64_small (addr c + size c)) by (red; lia).
  destruct (Z.eqb_spec (addr c + size c) (addr nxt)); [| lia]. rewrite andb_true_r.
  destruct Hc as [Hh Hc]. destruct (is_free nxt) eqn:En.
  - destruct Hcov as (Hcov & Cg & Cs & Cm).
    destruct (Hcov _ _ Hse) as [Ea Ee].
    exists (set_size (size c' + size nxt) c'), [nxt], post.
    rewrite u64_small by (red; lia). split; [done |]. split; [done |]. split; [by constructor |]. split.
    + split; [| split_and!; simpl; done || zlia].
      intros s e' (mm & H1 & H2 & H3)%tiles_app. destruct (Hcov _ _ H1) as [<- He].
      split; [done |]. simpl in *. lia.
    + destruct (head post) as [x |]; [| done]. simpl in *. destruct (is_free x); tauto.
  - exists c', [], (nxt :: post). rewrite (app_nil_r seg). do 2 (split; [done |]). split; [constructor | done].
Qed.

Lemma kfree_ok h pre c post :
  heap_inv h -> blocks h = pre ++ c :: post -> is_free c = false ->
  exists h', kfree (addr c + HDR) h = Ok h' /\ heap_inv h' /\
    base h' = base h /\ max h' = max h /\ in_use (blocks h') = in_use pre ++ in_use post.
Proof.
  intros Hi El Hf. destruct (inv_block h c Hi) as (Hok & Hlo & Hhi & _ & Hpos & Hmax);
    [rewrite El; lmem |].
  pose proof Hok as (Cg & Cs & Cm & _).
  pose proof Hi as [Hr Hl]. pose proof Hl as (_ & HF & Hc & top & Ht & Htop). rewrite El in *.
  unfold kfree, HDR. destruct (Z.eqb_spec (addr c + 48) 0); [lia |].
  replace (addr c + 48 - 48) with (addr c) by lia. rewrite u64_small, El by (red; lia).
  rewrite (find_block_at _ _ _ _ _ HF Ht), Hf, Cg, Z.eqb_refl. simpl.
  assert (Hb0 : 0 < base h) by apply Hr.
  destruct (merge_prev_ok _ _ _ _ _ HF Hc Ht Hb0 ltac:(lia) Hf)
    as (pre' & P & c' & E1 & -> & HP & Hcov1 & Hl1). rewrite E1.
  apply Forall_app in HF as [HFp HF]. apply Forall_app in HFp as [HFp _].
  apply tiles_app in Ht as (m & Ht1 & Ht2).
  pose proof Hc as (_ & (_ & Hcp) & _)%coalesced_app.
  assert (Hm : addr c = m) by apply Ht2.
  apply tiles_app in Ht1 as (s0 & Hs0 & HtP). pose proof (tiles_le _ _ _ HFp Hs0) as Hs0'.
  assert (Hseg : tiles s0 (P ++ [c]) (addr c + size c)).
  { apply tiles_app. exists m. split; [done |]. simpl. split; [done | lia]. }
  destruct (merge_next_ok m c c' (P ++ [c]) post top s0)
    as (c'' & N & post' & E2 & -> & HN & (Hcov2 & Gg & Gs & Gm) & Hl2);
    try done; try lia; [by inversion HF |].
  rewrite E2. eexists. split; [done |].
  assert (Huse : in_use (pre' ++ mark_free c'' :: post') = in_use (pre' ++ P) ++ in_use (N ++ post')).
  { by rewrite !in_use_app, in_use_cons, (in_use_all_free P), (in_use_all_free N), app_nil_r. }
  split_and!; try done. split; [done |]. simpl.
  apply (layout_replace _ _ pre' (P ++ [c] ++ N) post' [mark_free c'']).
  - by rewrite <- !app_assoc in Hl |- *.
  - done.
  - intros s e' Hs. rewrite app_assoc in Hs. exact (Hcov2 _ _ Hs).
  - constructor; [by split_and! | done].
  - rewrite <- app_assoc in Hc. apply coalesced_app in Hc as (C1 & _ & _).
    apply coalesced_app in Hcp as (_ & C3 & _).
    apply coalesced_app. split_and!; try done.
    + simpl. split; [| done]. destruct (head post'); simpl in *; [intros [_ ?]; congruence | tauto].
    + destruct (last pre'); simpl in *; [| done]. intros [? _]. congruence.
Qed.

(** ** Initialisation *)

Lemma init_region m :
  backend_ok m -> region_ok (mk_heap [] KHEAP_VBASE KHEAP_VBASE 1 m).
Proof.
  intros Hb. unfold region_ok, KHEAP_VBASE, HEAP_MAX_SIZE, PAGE_SIZE. simpl.
  split_and!; try done; lia.
Qed.

Lemma kheap_init_ok m :
  backend_ok m ->
  kheap_init m = Panic \/
  exists h, kheap_init m = Ok h /\ heap_inv h /\ in_use (blocks h) = [].
Proof.
  intros Hb. pose proof (init_region m Hb) as Hr. unfold kheap_init.
  destruct (expand_ok (KHEAP_VBASE + PAGE_SIZE) _ Hr) as (ok & h' & E & (G1 & G2 & G3 & G4) & Hok).
  { simpl. unfold PAGE_SIZE. lia. }
  cbn [base]. rewrite E. cbn [res_bind]. destruct ok; simpl; [| by left].
  right. eexists. split; [done |]. simpl in *. split; [| by rewrite in_use_cons].
  split; [exact G4 |]. simpl. rewrite G2. destruct (Hok eq_refl) as [Hcov _]. unfold PAGE_SIZE in *.
  split; [done |]. split; [| split].
  - constructor; [| done]. split_and!; simpl; done || lia.
  - split; [simpl; tauto | done].
  - exists (KHEAP_VBASE + 4096). simpl. split_and!; done || lia.
Qed.

(** ** Clients *)

Abbreviation live := (list (Z * Z)).

Inductive client_step : kheap M * live -> kheap M * live -> Prop :=
  | step_alloc h L sz cur p h' :
      0 <= sz <= UINT64_MAX -> kmalloc sz cur h = Ok (p, h') -> p <> 0 ->
      client_step (h, L) (h', (p, sz) :: L)
  | step_alloc_fail h L sz cur h' :
      0 <= sz <= UINT64_MAX -> kmalloc sz cur h = Ok (0, h') -> client_step (h, L) (h', L)
  | step_free h L1 L2 p sz h' :
      kfree p h = Ok h' -> client_step (h, L1 ++ (p, sz) :: L2) (h', L1 ++ L2).

(** a pointer handed out and the block behind it *)
Definition backs (x : Z * Z) (b : Z * Z) : Prop := b.1 = x.1 - HDR /\ x.2 + HDR <= b.2.

Definition client_inv (st : kheap M * live) : Prop :=
  heap_inv st.1 /\ exists B, Forall2 backs st.2 B /\ B ≡ₚ in_use (blocks st.1).

Lemma in_use_elem l a n :
  (a, n) ∈ in_use l ->
  exists pre c post, l = pre ++ c :: post /\ is_free c = false /\ addr c = a /\ size c = n.
Proof.
  unfold in_use. intros (c & [= -> ->] & (Hf & Hin)%list_elem_of_filter)%list_elem_of_fmap.
  apply list_elem_of_split in Hin as (pre & post & ->). by exists pre, c, post.
Qed.

Lemma heap_client_free h L1 p sz L2 :
  client_inv (h, L1 ++ (p, sz) :: L2) ->
  exists h', kfree p h = Ok h' /\ client_inv (h', L1 ++ L2).
Proof.
  intros (Hi & B & HB & HP). simpl in *.
  apply Forall2_app_inv_l in HB as (B1 & B2' & HB1 & HB2 & ->).
  inversion HB2 as [| ? [a n] ? B2 [Ha Hn] HB2' ]; subst. simpl in *.
  destruct (in_use_elem (blocks h) a n) as (pre & c & post & El & Hf & Hca & Hcn).
  { rewrite <- HP. lmem. }
  destruct (kfree_ok h pre c post Hi El Hf) as (h' & E & Hi' & _ & _ & Hu).
  replace (addr c + HDR) with p in E by (unfold HDR in *; lia).
  exists h'. split; [done |]. split; [done |]. exists (B1 ++ B2). split; [by apply Forall2_app |].
  simpl. rewrite Hu. apply (Permutation_app_inv B1 B2 (in_use pre) (in_use post) (a, n)).
  rewrite HP, El, in_use_app, in_use_cons, Hf, Hca, Hcn. done.
Qed.

Lemma heap_client_step_inv st st' : client_inv st -> client_step st st' -> client_inv st'.
Proof.
  intros Hi Hst.
  inversion Hst as [h L sz cur p h' Hsz E Hp | h L sz cur h' Hsz E | h L1 L2 p sz h' E]; subst.
  - destruct Hi as (Hi & B & HB & HP). simpl in *.
    destruct (kmalloc_ok sz cur h Hi Hsz) as (p1 & h1 & E1 & Hi1 & Hr). rewrite E in E1.
    injection E1 as <- <-. destruct Hr as [[? _] | (n & L1 & L2 & _ & Hn & Hu & Hu' & _)]; [done |].
    split; [done |]. exists ((p - HDR, n) :: B). split; [by constructor |]. simpl.
    rewrite Hu', <- Permutation_middle, HP, Hu. done.
  - destruct Hi as (Hi & B & HB & HP). simpl in *.
    destruct (kmalloc_ok sz cur h Hi Hsz) as (p1 & h1 & E1 & Hi1 & Hr). rewrite E in E1.
    injection E1 as <- <-. destruct Hr as [[_ Hb] | (n & L1 & L2 & _ & _ & _ & _ & Hlo & _)].
    + split; [done |]. exists B. simpl. by rewrite Hb.
    + destruct Hi as [(? & _) _]. unfold HDR in Hlo. lia.
  - destruct (heap_client_free h L1 p sz L2 Hi) as (h1 & E1 & Hi1). rewrite E in E1.
    by injection E1 as <-.
Qed.

Lemma heap_client_inv_rtc st st' : rtc client_step st st' -> client_inv st -> client_inv st'.
Proof. induction 1; [done |]. eauto using heap_client_step_inv. Qed.

Lemma init_client_inv m h : backend_ok m -> kheap_init m = Ok h -> client_inv (h, []).
Proof.
  intros Hb E. destruct (kheap_init_ok m Hb) as [E' | (h1 & E' & Hi & Hu)];
    rewrite E in E'; [done |]. injection E' as <-. split; [done |]. exists []. simpl. by rewrite Hu.
Qed.

(** the memory of the blocks in use is disjoint *)
Definition apart (a b : Z * Z) : Prop := a.1 + a.2 <= b.1 \/ b.1 + b.2 <= a.1.

Lemma in_use_apart lo l e : Forall block_ok l -> tiles lo l e -> pairwise apart (in_use l).
Proof.
  revert lo. induction l as [| b l IH]; intros lo HF Ht; [done |].
  inversion HF as [| ? ? Hb HF']; subst. destruct Ht as [Ha Ht]. rewrite in_use_cons.
  destruct (is_free b); [by apply (IH _ HF' Ht) |]. split; [| by apply (IH _ HF' Ht)].
  apply Forall_forall. intros [a n] (pre & c & post & -> & _ & Hca & Hcn)%in_use_elem.
  left. simpl. destruct (tiles_bounds _ _ _ c HF' Ht); [lmem | lia].
Qed.

(** payloads inside disjoint blocks are disjoint *)
Lemma backs_apart L B : Forall2 backs L B -> pairwise apart B -> pairwise apart L.
Proof.
  induction 1 as [| x b L B Hx HL IH]; simpl; [done |]. intros [Hb HB]. split; [| auto].
  rewrite Forall_forall in Hb |- *. intros y Hy.
  apply list_elem_of_lookup in Hy as [i Hy].
  destruct (Forall2_lookup_l _ _ _ _ _ HL Hy) as (c & Hc & Hyc).
  specialize (Hb c (list_elem_of_lookup_2 _ _ _ Hc)).
  unfold apart, backs, HDR in *. simpl in *. lia.
Qed.

(** ** Allocation followed by release *)

Lemma not_free_around l1 c l2 :
  coalesced (l1 ++ c :: l2) -> is_free c = true -> not_free (last l1) /\ not_free (head l2).
Proof.
  intros (_ & (Hh & _) & Hl)%coalesced_app Hf. split.
  - destruct (last l1); simpl in *; [destruct (is_free k); tauto | done].
  - destruct (head l2); simpl in *; [destruct (is_free k); tauto | done].
Qed.

Lemma merge_next_used o c post : not_free (head post) -> merge_next o c post = (c, post).
Proof. destruct post as [| n post]; simpl; [done |]. by intros ->. Qed.

Lemma merge_prev_used pre c : not_free (last pre) -> merge_prev pre c = (pre, c).
Proof. unfold merge_prev. destruct (last pre); simpl; [by intros -> | done]. Qed.

(** a request some free block can serve *)
Lemma kmalloc_fits sz cur h :
  heap_inv h -> 0 < sz <= UINT64_MAX - 63 ->
  Exists (fun c => is_free c && (total_needed sz <=? size c) = true) (blocks h) ->
  exists a l, first_fit (total_needed sz) (kheap_node_set_id cur) (blocks h) = Some (a, l) /\
    kmalloc sz cur h = Ok (u64 (a + HDR), with_blocks l h) /\ u64 (a + HDR) <> 0.
Proof.
  intros Hi Hs Hex. unfold kmalloc, HDR, KHEAP_ALIGNMENT. destruct (Z.eqb_spec sz 0); [lia |].
  destruct (Z.ltb_spec (UINT64_MAX - 48 - (16 - 1)) sz); [lia |].
  destruct (total_needed_ok sz) as (_ & T2 & T3); [unfold HDR, KHEAP_ALIGNMENT; lia |].
  destruct (first_fit _ _ _) as [[a l] |] eqn:Ef.
  - exists a, l. split_and!; try done.
    apply first_fit_some in Ef as (l1 & c & l2 & bs & El & -> & Hf & Hle & Ec).
    destruct (inv_block h c Hi) as (Hok & Hlo & Hhi & _ & Hpos & Hmax); [rewrite El; lmem |].
    destruct (carve_ok _ _ c a bs Hok Hf Hle T3 T2 ltac:(lia) ltac:(lia) Ec) as (n' & ? & _ & ? & ? & _).
    rewrite u64_small by (red; lia). lia.
  - apply first_fit_none in Ef. apply Exists_exists in Hex as (c & Hc & Hfit).
    rewrite Forall_forall in Ef. rewrite (Ef c Hc) in Hfit. done.
Qed.

(** [kfree] at the block it finds *)
Lemma kfree_at h lo pre c post e :
  Forall block_ok (pre ++ c :: post) -> tiles lo (pre ++ c :: post) e -> blocks h = pre ++ c :: post ->
  0 < addr c -> addr c + HDR <= UINT64_MAX -> is_free c = false ->
  kfree (u64 (addr c + HDR)) h =
    Ok (let '(pre', c') := merge_prev pre c in
        let '(c', post') := merge_next c c' post in
        with_blocks (pre' ++ mark_free c' :: post') h).
Proof.
  intros HF Ht El Hpos Hmax Hf. unfold kfree, HDR in *. rewrite (u64_small (addr c + 48)) by (red; lia).
  destruct (Z.eqb_spec (addr c + 48) 0); [lia |].
  replace (addr c + 48 - 48) with (addr c) by lia. rewrite u64_small by (red; lia).
  rewrite El, (find_block_at _ _ _ _ _ HF Ht), Hf.
  rewrite Forall_app, Forall_cons in HF. destruct HF as (_ & (-> & _) & _). rewrite Z.eqb_refl.
  simpl. destruct (merge_prev pre c) as [pre' c']. by destruct (merge_next c c' post).
Qed.

Lemma fit_free_roundtrip tn tid h a l :
  heap_inv h -> 64 <= tn -> tn mod 16 = 0 ->
  first_fit tn tid (blocks h) = Some (a, l) -> kfree (u64 (a + HDR)) (with_blocks l h) = Ok h.
Proof.
  intros Hi Htn Htm Ef.
  destruct (kmalloc_fit_ok tn tid (tn - HDR) h a l Hi Htn Htm ltac:(lia) Ef) as [Hi' _].
  destruct Hi' as [_ (_ & HF' & _ & top' & Ht' & _)].
  apply first_fit_some in Ef as (l1 & c & l2 & bs & El & -> & Hf & Hle & Ec).
  destruct (inv_block h c Hi) as ((Cg & Cs & Cm & Cid) & Hlo & Hhi & Hal & Hpos & Hmax);
    [rewrite El; lmem |].
  pose proof Hi as [_ (_ & _ & Hc & _)]. rewrite El in Hc.
  destruct (not_free_around l1 c l2 Hc Hf) as [N1 N2].
  assert (Hc' : mk_block (addr c) (magic c) true (size c) 0 = c).
  { destruct c; simpl in *. rewrite Hf, Cid by done. done. }
  unfold carve, HDR, KHEAP_ALIGNMENT in *.
  destruct (Z.leb_spec (48 + 16) (size c - tn)); injection Ec as <- <-.
  - rewrite (u64_small (addr c + (size c - tn))) in * by (red; lia).
    set (fr := mk_block (addr c) (magic c) (is_free c) (size c - tn) (id c)) in *.
    set (al := mk_block (addr c + (size c - tn)) KHEAP_MAGIC false tn tid) in *.
    assert (E : l1 ++ [fr; al] ++ l2 = (l1 ++ [fr]) ++ al :: l2) by (by rewrite <- app_assoc).
    cbn [blocks with_blocks] in HF', Ht'. rewrite E in *.
    rewrite (kfree_at _ _ _ al _ _ HF' Ht') by (simpl; done || unfold HDR; lia).
    unfold merge_prev, adjacent. rewrite last_snoc, removelast_last. simpl.
    rewrite Hf, u64_small, Z.eqb_refl by (red; lia). simpl. rewrite merge_next_used by done.
    unfold mark_free, set_size. simpl. rewrite u64_small by (red; lia).
    replace (size c - tn + tn) with (size c) by lia. rewrite Hc', <- El. by destruct h.
  - set (al := mk_block (addr c) KHEAP_MAGIC false (size c) tid) in *.
    cbn [blocks with_blocks] in HF', Ht'.
    rewrite (kfree_at _ _ l1 al l2 _ HF' Ht') by (simpl; done || unfold HDR; lia).
    rewrite merge_prev_used, merge_next_used by done.
    unfold mark_free. simpl. rewrite <- Cg, Hc', <- El. by destruct h.
Qed.
End heap.

(** ** Theorems *)

Section theorems.
Context {M : Type} `{PageBackend M}.

(** C2: no byte of the heap is owned twice. From the state [kheap_init]
    leaves, after any sequence of allocations and releases of live pointers,
    every live pointer is 16-aligned and its payload lies in the mapped heap
    region, payloads are pairwise disjoint, every further [kmalloc] returns and
    [kfree] of any live pointer succeeds: it neither panics nor reads a header
    that is not one. *)
Theorem heap_clients_safe m h0 (h : kheap M) L :
  backend_ok m -> kheap_init m = Ok h0 -> rtc client_step (h0, []) (h, L) ->
  Forall (fun x => x.1 mod KHEAP_ALIGNMENT = 0 /\ base h + HDR <= x.1 /\ x.1 + x.2 <= max h) L /\
  pairwise apart L /\
  (forall va, base h <= va < max h -> va mod PAGE_SIZE = 0 -> vmm_is_mapped va (pages h) = true) /\
  (forall sz cur, 0 <= sz <= UINT64_MAX -> exists p h', kmalloc sz cur h = Ok (p, h')) /\
  (forall p sz, (p, sz) ∈ L -> exists h', kfree p h = Ok h').
Proof.
  intros Hb Hinit Hr.
  assert (Hi : client_inv (h, L)) by (by apply (heap_client_inv_rtc _ _ Hr), (init_client_inv m)).
  pose proof Hi as (Hinv & B & HB & HP). simpl in *.
  pose proof Hinv as [(_ & _ & _ & _ & _ & _ & Hmap) (_ & HF & _ & top & Ht & _)].
  split_and!; try done.
  - apply Forall_forall. intros x Hx. apply list_elem_of_lookup in Hx as [i Hx].
    destruct (Forall2_lookup_l _ _ _ _ _ HB Hx) as ([a n] & Hi' & [Ha Hn]). simpl in *.
    assert (Hin : (a, n) ∈ in_use (blocks h)).
    { rewrite <- HP. by apply list_elem_of_lookup_2 in Hi'. }
    apply in_use_elem in Hin as (pre & c & post & El & _ & Hca & Hcn).
    destruct (inv_block h c Hinv) as (_ & I1 & I2 & I3 & _); [rewrite El; lmem |].
    unfold HDR, KHEAP_ALIGNMENT in *. split_and!; [zlia | lia | lia].
  - apply (backs_apart L B HB). apply (pairwise_perm _ (in_use (blocks h))); [| done |].
    + unfold apart. intros. lia.
    + by apply (in_use_apart (base h) _ top).
  - intros sz cur Hsz. destruct (kmalloc_ok sz cur h Hinv Hsz) as (p & h' & E & _). eauto.
  - intros p sz Hin. apply list_elem_of_split in Hin as (L1 & L2 & ->).
    destruct (heap_client_free h L1 p sz L2 Hi) as (h' & E & _). eauto.
Qed.

(** allocation. [kmalloc] always returns and keeps the heap's invariant;
    when it returns a pointer, one block joined those in use, 16-aligned, with
    room for the request behind its header, inside the mapped region; when a
    free block is large enough the request is served from the list without
    growing the heap. *)
Lemma kmalloc_correct sz cur (h : kheap M) :
  heap_inv h -> 0 <= sz <= UINT64_MAX ->
  exists p h', kmalloc sz cur h = Ok (p, h') /\ heap_inv h' /\ alloc_result sz h p h' /\
    (0 < sz <= UINT64_MAX - 63 ->
     Exists (fun c => is_free c && (total_needed sz <=? size c) = true) (blocks h) ->
     p <> 0 /\ max h' = max h /\ pages h' = pages h).
Proof.
  intros Hi Hsz. destruct (kmalloc_ok sz cur h Hi Hsz) as (p & h' & E & Hi' & Hr).
  exists p, h'. split; [done |]. split; [done |]. split; [done |]. intros Hs Hex.
  destruct (kmalloc_fits sz cur h Hi Hs Hex) as (a & l & _ & E1 & Hp).
  rewrite E in E1. by injection E1 as -> ->.
Qed.

(** release, every branch. [kfree] ignores NULL; the payload pointer of a
    free block panics (double free); the pointer of a block in use is released:
    the invariant is kept, in particular the block is merged with its free
    neighbours, and exactly that block leaves the blocks in use. *)
Lemma kfree_correct (h : kheap M) pre c post :
  heap_inv h -> blocks h = pre ++ c :: post ->
  kfree 0 h = Ok h /\
  (is_free c = true -> kfree (addr c + HDR) h = Panic) /\
  (is_free c = false ->
   exists h', kfree (addr c + HDR) h = Ok h' /\ heap_inv h' /\ max h' = max h /\
     in_use (blocks h) = in_use pre ++ (addr c, size c) :: in_use post /\
     in_use (blocks h') = in_use pre ++ in_use post).
Proof.
  intros Hi El. split_and!; [done | |].
  - intros Hf. destruct (inv_block h c Hi) as (_ & _ & _ & _ & Hpos & _); [rewrite El; lmem |].
    destruct (inv_block h c Hi) as ((_ & Hs & _) & _ & Hhi & _ & _ & Hmax); [rewrite El; lmem |].
    destruct Hi as [_ (_ & HF & _ & top & Ht & _)]. rewrite El in HF, Ht.
    unfold kfree, HDR. destruct (Z.eqb_spec (addr c + 48) 0); [lia |].
    replace (addr c + 48 - 48) with (addr c) by lia. rewrite u64_small by (red; lia).
    by rewrite El, (find_block_at _ _ _ _ _ HF Ht), Hf.
  - intros Hf. destruct (kfree_ok h pre c post Hi El Hf) as (h' & E & Hi' & _ & Hm & Hu).
    exists h'. split_and!; try done. by rewrite El, in_use_app, in_use_cons, Hf.
Qed.

(** allocation and release are inverse. When a request is served from the
    free blocks, releasing the pointer at once restores the heap exactly: the
    carved block is merged back and every header field is as before. *)
Lemma kmalloc_kfree_roundtrip sz cur (h h' : kheap M) p :
  heap_inv h -> 0 < sz <= UINT64_MAX - 63 ->
  Exists (fun c => is_free c && (total_needed sz <=? size c) = true) (blocks h) ->
  kmalloc sz cur h = Ok (p, h') -> kfree p h' = Ok h.
Proof.
  intros Hi Hs Hex E. destruct (kmalloc_fits sz cur h Hi Hs Hex) as (a & l & Ef & E1 & _).
  rewrite E in E1. injection E1 as -> ->.
  destruct (total_needed_ok sz) as (_ & T2 & T3); [unfold HDR, KHEAP_ALIGNMENT; lia |].
  exact (fit_free_roundtrip _ _ h a l Hi T3 T2 Ef).
Qed.

(** list order is address order. In every reachable heap two neighbours of
    the block list are adjacent in memory and not both free, so the adjacency
    tests of [kfree] never reject a free neighbour. (The comment at the merge
    in heap.c says that the list does not keep this order.) *)
Lemma heap_list_is_address_order m h0 (h : kheap M) L pre a b post :
  backend_ok m -> kheap_init m = Ok h0 -> rtc client_step (h0, []) (h, L) ->
  blocks h = pre ++ a :: b :: post ->
  adjacent a b = true /\ ~ (is_free a = true /\ is_free b = true).
Proof.
  intros Hb Hinit Hr El.
  assert (Hi : client_inv (h, L)) by (by apply (heap_client_inv_rtc _ _ Hr), (init_client_inv m)).
  destruct Hi as [Hi _]. simpl in Hi.
  destruct (inv_block h a Hi) as (_ & _ & Hhi & _ & Hpos & Hmax); [rewrite El; lmem |].
  destruct (inv_block h b Hi) as ((_ & Hs & _) & _ & Hhib & _); [rewrite El; lmem |].
  destruct Hi as [_ (_ & HF & Hc & top & Ht & _)]. rewrite El in *.
  apply tiles_app in Ht as (k & _ & Ha & Hb' & _). split.
  - unfold adjacent. apply Z.eqb_eq. rewrite u64_small; [lia |]. red.
    rewrite Forall_app, !Forall_cons in HF. destruct HF as (_ & (_ & ? & _) & _). lia.
  - apply coalesced_app in Hc as (_ & (Hn & _) & _). exact Hn.
Qed.
End theorems.

(** ** Witnesses, on a backend with [k] free frames and the list of mapped pages *)

Definition frames := (nat * list Z)%type.

#[export] Program Instance frames_backend : PageBackend frames := {
  vmm_is_mapped va m := existsb (Z.eqb va) m.2;
  pmm_alloc m :=
    match m.1 with
    | O => Ok (0, m)
    | S k => Ok (Z.of_nat (S k) * 4096, (k, m.2))
    end;
  pmm_free p m := Ok (S m.1, m.2);
  vmm_map va p m := Ok (0, (m.1, va :: m.2));
  backend_ok m := True
}.
Next Obligation. intros [[| k] l] _; simpl; eauto 10. Qed.
Next Obligation.
  intros va p [[| k] l] m1 _ [= <- <-] Hp _ _ _; [done |]. simpl in *.
  exists 0, (k, va :: l). simpl. rewrite Z.eqb_refl. split_and!; try done.
  intros va' Hva. by rewrite Hva, orb_true_r.
Qed.

Definition ex_frames : frames := (4%nat, []).

Lemma ex_frames_ok : backend_ok ex_frames.
Proof. exact I. Defined.

Definition ex_heap : kheap frames :=
  mk_heap [mk_block KHEAP_VBASE KHEAP_MAGIC true 4096 0]
    KHEAP_VBASE (KHEAP_VBASE + 4096) 1 (3%nat, [KHEAP_VBASE]).

Definition ex_heap_2 : kheap frames :=
  mk_heap [mk_block KHEAP_VBASE KHEAP_MAGIC true 3936 0;
           mk_block (KHEAP_VBASE + 3936) KHEAP_MAGIC false 160 7]
    KHEAP_VBASE (KHEAP_VBASE + 4096) 1 (3%nat, [KHEAP_VBASE]).

Lemma ex_heap_init : kheap_init ex_frames = Ok ex_heap.
Proof. vm_compute. reflexivity. Defined.

Lemma ex_heap_steps : rtc client_step (ex_heap, []) (ex_heap_2, [(KHEAP_VBASE + 3984, 100)]).
Proof.
  eapply rtc_l; [| apply rtc_refl].
  eapply (step_alloc _ _ 100 (Some 7)); [lia | vm_compute; reflexivity | discriminate].
Defined.

Lemma ex_heap_inv : heap_inv ex_heap.
Proof.
  destruct (init_client_inv ex_frames ex_heap ex_frames_ok ex_heap_init) as [Hi _]. exact Hi.
Defined.

Lemma heap_clients_safe_witness :
  pairwise apart [(KHEAP_VBASE + 3984, 100)] /\
  exists h', kfree (KHEAP_VBASE + 3984) ex_heap_2 = Ok h'.
Proof.
  destruct (heap_clients_safe ex_frames ex_heap ex_heap_2 _ ex_frames_ok ex_heap_init ex_heap_steps)
    as (_ & Hd & _ & _ & Hf).
  split; [exact Hd | apply (Hf _ 100)]. left.
Defined.

Lemma kmalloc_correct_witness :
  exists p h', kmalloc 100 (Some 7) ex_heap = Ok (p, h') /\ heap_inv h' /\ p <> 0.
Proof.
  destruct (kmalloc_correct 100 (Some 7) ex_heap ex_heap_inv) as (p & h' & E & Hi & _ & Hp).
  - lia.
  - exists p, h'. split; [exact E |]. split; [exact Hi |]. apply Hp; [lia |].
    left. vm_compute. reflexivity.
Defined.

Lemma kfree_correct_witness :
  kfree (KHEAP_VBASE + 48) ex_heap = Panic.
Proof.
  exact (proj1 (proj2 (kfree_correct ex_heap [] _ [] ex_heap_inv eq_refl)) eq_refl).
Defined.

Lemma kmalloc_kfree_roundtrip_witness : kfree (KHEAP_VBASE + 3984) ex_heap_2 = Ok ex_heap.
Proof.
  apply (kmalloc_kfree_roundtrip 100 (Some 7)).
  - exact ex_heap_inv.
  - lia.
  - left. vm_compute. reflexivity.
  - vm_compute. reflexivity.
Defined.

Lemma heap_list_is_address_order_witness :
  adjacent (mk_block KHEAP_VBASE KHEAP_MAGIC true 3936 0)
           (mk_block (KHEAP_VBASE + 3936) KHEAP_MAGIC false 160 7) = true.
Proof.
  exact (proj1 (heap_list_is_address_order ex_frames ex_heap ex_heap_2 _ [] _ _ []
    ex_frames_ok ex_heap_init ex_heap_steps eq_refl)).
Defined.

(** ** The heap as an allocator *)

Lemma client_inv_perm {M} `{PageBackend M} (h : kheap M) L L' :
  L ≡ₚ L' -> client_inv (h, L) -> client_inv (h, L').
Proof.
  intros HP (Hi & B & HB & HPB). split; [done |]. simpl in *.
  destruct (Permutation_Forall2 HP HB) as (B' & HP' & HB').
  exists B'. split; [done |]. by rewrite <- HP'.
Qed.

Lemma heap_client_alloc {M} `{PageBackend M} (h : kheap M) L sz cur :
  client_inv (h, L) -> 0 <= sz <= UINT64_MAX ->
  exists p h', kmalloc sz cur h = Ok (p, h') /\
    (p = 0 /\ client_inv (h', L) \/ 0 < p <= UINT64_MAX - sz /\ client_inv (h', (p, sz) :: L)).
Proof.
  intros Hi Hsz. destruct (kmalloc_ok sz cur h (proj1 Hi) Hsz) as (p & h' & E & Hi' & Hr).
  exists p, h'. split; [done |]. destruct (decide (p = 0)) as [-> | Hp].
  - left. split; [done |]. apply (heap_client_step_inv (h, L)); [done |]. by apply (step_alloc_fail h L sz cur).
  - right. split; [| by apply (heap_client_step_inv (h, L)); [| apply (step_alloc h L sz cur)]].
    destruct Hr as [[? _] | (n & _ & _ & _ & Hn & _ & _ & Hlo & Hhi)]; [done |].
    destruct Hi' as [(_ & ? & _ & _ & ? & _) _]. destruct Hi as [[(? & _) _] _].
    unfold HDR in *. simpl in *. lia.
Qed.

Lemma client_inv_nodup {M} `{PageBackend M} (h : kheap M) L :
  client_inv (h, L) -> Forall (fun x => 0 < x.2) L -> NoDup L.*1.
Proof.
  intros (Hi & B & HB & HP) Hpos. simpl in *.
  assert (Hap : pairwise apart L).
  { apply (backs_apart L B HB). apply (pairwise_perm _ (in_use (blocks h))); [| done |].
    - unfold apart. intros. lia.
    - destruct Hi as [_ (_ & HF & _ & top & Ht & _)]. by apply (in_use_apart (base h) _ top). }
  clear HB. induction L as [| x L IH]; simpl; [constructor |].
  destruct Hap as [Hx HL]. inversion Hpos as [| ? ? Hp Hpos']; subst. constructor; [| auto].
  intros (y & Hy & Hin)%list_elem_of_fmap. rewrite Forall_forall in Hx, Hpos'.
  specialize (Hx y Hin). specialize (Hpos' y Hin). unfold apart in Hx. lia.
Qed.

(** the instance, for the thread [cur] that runs the calls *)
#[export] Instance heap_allocator {M} `{PageBackend M} (cur : option Z) : Allocator (kheap M) := {
  Alloc.kmalloc sz h := kmalloc sz cur h;
  Alloc.kfree p h := kfree p h;
  Alloc.live h L := client_inv (h, L);
  live_perm h L L' HP := client_inv_perm h L L' HP;
  kmalloc_live h L sz Hl Hs := heap_client_alloc h L sz cur Hl Hs;
  kfree_live h L p sz Hl := heap_client_free h [] p sz L Hl;
  kfree_null h := eq_refl;
  live_nodup h L Hl Hp := client_inv_nodup h L Hl Hp
}.
