(* ===== verification/KernelHeap.v ===== *)
(** * The kernel heap on page tables and the page allocator

    Heap.v is proved against the interface [PageBackend]; here the interface is
    implemented by the kernel's page table (Vmm.v) over any page allocator, and
    so by the bitmap allocator of Pmm.v.  The invariant keeps track of the
    frames behind the heap, which gives what the interface alone cannot say:
    two heap addresses never share a byte of physical memory, and no heap
    address reaches a page table. *)

From stdpp Require Import relations.
From S2P Require Import Prelude Alloc Heap Pmm PageAlloc Vmm VmmWalk VmmOwned VmmSpec VmmSpace PageOwner.

Section Backend.
Context {P : Type} {PA : PageAllocator P} (root : Z).

Definition HEAP_FLAGS : Z := Z.lor PTE_PRESENT PTE_WRITABLE.

(** what the heap calls, on the kernel page table *)
Definition heap_is_mapped (va : Z) (s : vm P) : bool :=
  match Vmm.vmm_is_mapped (tabs s) root va with Ok b => b | _ => false end.
Definition heap_page_alloc (s : vm P) : res (Z * vm P) :=
  let! (a, p) := page_alloc (frames s) in Ok (a, mk_vm (tabs s) p).
Definition heap_page_free (a : Z) (s : vm P) : res (vm P) :=
  let! p := page_free a (frames s) in Ok (mk_vm (tabs s) p).
Definition heap_map (va pa : Z) (s : vm P) : res (Z * vm P) := Vmm.vmm_map root va pa HEAP_FLAGS s.

Definition heap_range (va : Z) : Prop := KHEAP_VBASE <= va < KHEAP_VBASE + HEAP_MAX_SIZE.

Definition heap_backed (s : vm P) : Prop := exists F M D, backed root heap_range s F M D.

Lemma heap_mapped_iff s F va : wf_space (tabs s) root F ->
  heap_is_mapped va s = match translate (tabs s) root va with Some _ => true | None => false end.
Proof.
  intros W. unfold heap_is_mapped. rewrite (is_mapped_walk _ root F W va). unfold translate.
  by destruct (walk _ _ _ _) as [[l e] |].
Qed.

Lemma heap_flags_ok : PTE_FLAGS HEAP_FLAGS.
Proof. by vm_compute. Qed.

(** a heap address that was mapped stays mapped *)
Lemma mapped_mono s s' F F' : wf_space (tabs s) root F -> wf_space (tabs s') root F' ->
  (forall w, translate (tabs s) root w <> None -> translate (tabs s') root w <> None) ->
  forall va, heap_is_mapped va s = true -> heap_is_mapped va s' = true.
Proof.
  intros W W' H va. rewrite (heap_mapped_iff s F), (heap_mapped_iff s' F') by done. specialize (H va).
  destruct (translate (tabs s) root va); [| done]. by destruct (translate (tabs s') root va); [| destruct H].
Qed.

#[refine] Definition vmm_backend : PageBackend (vm P) := {|
  Heap.vmm_is_mapped := heap_is_mapped; Heap.pmm_alloc := heap_page_alloc;
  Heap.pmm_free := heap_page_free; Heap.vmm_map := heap_map; backend_ok := heap_backed |}.
Proof.
  - intros s (F & M & D & HB). destruct (backed_alloc _ _ s F M D HB) as (a & p & E & R).
    exists a, (mk_vm (tabs s) p). unfold heap_page_alloc. rewrite E. split; [done |]. split; [| done].
    destruct R as [[-> ->] | [_ R]]; [by exists F, M, D; destruct s | by exists F, M, (a :: D)].
  - intros va pa s s1 (F & M & D & HB) E Hpa HN Hal Hva.
    destruct (backed_alloc _ _ s F M D HB) as (a & p & Ea & R). unfold heap_page_alloc in E. rewrite Ea in E.
    injection E as -> <-. destruct R as [[-> _] | [Hf HB']]; [done |].
    pose proof (bk_space _ _ _ _ _ _ HB) as W. rewrite (heap_mapped_iff s F va W) in HN.
    assert (HT : translate (tabs s) root va = None) by (by destruct (translate (tabs s) root va)).
    destruct (backed_map _ _ _ F M D va pa HEAP_FLAGS HB' Hf ltac:(red; lia) heap_flags_ok HT)
      as (c & s' & N & Em & _ & [(-> & K & HB2 & _) | (-> & HB2 & HT2 & O & _)]);
      pose proof (bk_space _ _ _ _ _ _ HB2) as W2; set (F' := N ++ F) in *.
    + exists (-1), s'. split; [exact Em |].
      split; [apply (mapped_mono s s' F F' W W2); intros w; by rewrite (keeps_eq _ _ _ _ K) |]. simpl.
      destruct (backed_free _ _ s' F' M pa D HB2) as (p2 & Ef & HB3).
      exists (mk_vm (tabs s') p2). unfold heap_page_free. rewrite Ef. split; [done |]. split; [by exists F', M, D |].
      done.
    + exists 0, s'. split; [exact Em |]. split.
      { apply (mapped_mono s s' F F' W W2). intros w Hw. destruct (decide (path w = path va)) as [Ew |]; [| by rewrite O].
        by rewrite (translate_path _ _ _ _ Ew), HT2. }
      simpl. split; [by exists F', ((path va, pa) :: M), D |]. by rewrite (heap_mapped_iff s' F' va W2), HT2.
Defined.
End Backend.

(** ** The heap does not move *)

Section Base.
Context {M : Type} `{PageBackend M}.

Lemma kmalloc_base sz cur (h h' : kheap M) p :
  heap_inv h -> 0 <= sz <= UINT64_MAX -> Heap.kmalloc sz cur h = Ok (p, h') -> Heap.base h' = Heap.base h.
Proof.
  intros [Hr Hl] Hsz. unfold Heap.kmalloc. destruct (sz =? 0); [by intros [= <- <-] |].
  destruct (_ <? sz); [by intros [= <- <-] |].
  destruct (first_fit _ _ _) as [[a l] |]; [by intros [= <- <-] |]. unfold kmalloc_grow.
  destruct (kheap_get_limit h) as [lim |]; [| by intros [= <- <-]].
  destruct (last (blocks h)) as [lst |]; [| by intros [= <- <-]].
  destruct (_ || _ || _); [by intros [= <- <-] |]. cbv zeta.
  destruct (_ || _); [by intros [= <- <-] |].
  set (t := u64 (addr lst + size lst) + total_needed sz).
  destruct (Z.leb_spec (Heap.base h) t) as [Ht | Ht].
  - destruct (expand_ok t h Hr Ht) as (ok & h1 & -> & (_ & G & _) & _). cbn [res_bind].
    destruct ok; simpl; by intros [= <- <-].
  - unfold kheap_expand_to_addr. destruct (kheap_get_limit h); [| simpl; by intros [= <- <-]].
    rewrite (proj2 (Z.ltb_lt t (Heap.base h)) Ht). simpl. by intros [= <- <-].
Qed.

Lemma kfree_base ptr (h h' : kheap M) : Heap.kfree ptr h = Ok h' -> Heap.base h' = Heap.base h.
Proof.
  unfold Heap.kfree. destruct (ptr =? 0); [by intros [= <-] |].
  destruct (find_block _ _) as [[[pre c] post] |]; [| done]. destruct (is_free c); [done |].
  destruct (negb _); [done |]. destruct (merge_prev pre c) as [pre' c']. destruct (merge_next c c' post).
  by intros [= <-].
Qed.

Lemma init_base m (h : kheap M) : backend_ok m -> kheap_init m = Ok h -> Heap.base h = KHEAP_VBASE.
Proof.
  intros Hb. unfold kheap_init. cbn [Heap.base].
  destruct (expand_ok (KHEAP_VBASE + Heap.PAGE_SIZE) _ (init_region m Hb)) as (ok & h' & -> & (_ & G & _) & _).
  { simpl. unfold Heap.PAGE_SIZE. lia. }
  cbn [res_bind]. destruct ok; simpl; [| done]. by intros [= <-].
Qed.

Lemma clients_base (st st' : kheap M * list (Z * Z)) :
  rtc Heap.client_step st st' -> Heap.client_inv st -> Heap.base st'.1 = Heap.base st.1.
Proof.
  induction 1 as [| st1 st2 st3 Hs _ IH]; intros Hi; [done |].
  rewrite IH by (by eapply heap_client_step_inv).
  destruct Hs; simpl in *; [eapply kmalloc_base; [apply Hi | done | done].. | by eapply kfree_base].
Qed.
End Base.

(** ** The whole stack *)

Section Stack.
Context {P : Type} {PA : PageAllocator P} (root : Z).
#[local] Instance kernel_backend : PageBackend (vm P) := vmm_backend root.

Lemma same_page x y : heap_range x -> heap_range y -> path x = path y -> x mod 4096 = y mod 4096 -> x = y.
Proof.
  unfold heap_range, KHEAP_VBASE, HEAP_MAX_SIZE. intros Hx Hy HE%path_eq Hm.
  assert (x / 4096 = y / 4096) by zlia. zlia.
Qed.

(** C4: the kernel heap over the kernel page table and the page allocator.  Start from a well-formed
    kernel space whose heap range is not mapped yet.  After any sequence of [kmalloc] and [kfree]
    calls, every address of the heap translates to physical memory that is not a page table, and two
    different heap addresses never translate to the same byte: writing one live object changes neither
    another one nor a translation. *)
Theorem heap_memory_private (m : vm P) F h0 (h : kheap (vm P)) L :
  space_ok root F m -> (forall w, heap_range w -> translate (tabs m) root w = None) ->
  kheap_init m = Ok h0 -> rtc Heap.client_step (h0, []) (h, L) ->
  let s := Heap.pages h in
  (forall x, Heap.base h <= x < Heap.max h ->
     exists pg r, translate (tabs s) root x = Some (pg, r) /\ physical root s x = Some (pg + x mod 4096) /\
       forall p t, tpath p -> descend (tabs s) 4 root p = Some t -> t <> pg) /\
  (forall x y, Heap.base h <= x < Heap.max h -> Heap.base h <= y < Heap.max h ->
     physical root s x = physical root s y -> x = y).
Proof.
  intros [W Hh] HN Hinit Hr s.
  assert (Hb : backend_ok m).
  { exists F, [], []. split; [done | by rewrite !app_nil_r | |]; intros w; [by intros pg r Hw; rewrite HN |].
    intros Hw l e. specialize (HN w Hw). unfold translate in HN. destruct (walk _ _ _ _) as [[? ?] |]; done. }
  pose proof (init_client_inv m h0 Hb Hinit) as Hi0.
  pose proof (clients_base _ _ Hr Hi0) as Eb. pose proof (heap_client_inv_rtc _ _ Hr Hi0) as [[Hreg _] _].
  cbn [fst] in Eb, Hreg. rewrite (init_base m h0 Hb Hinit) in Eb.
  destruct Hreg as (_ & _ & _ & Hmx & Hmax & (F' & M & D & HB) & Hmap). fold s in HB, Hmap. rewrite Eb in *.
  assert (HR : forall x, KHEAP_VBASE <= x < Heap.max h -> heap_range x) by (unfold heap_range; lia).
  pose proof (bk_space _ _ _ _ _ _ HB) as W'.
  assert (HT : forall x, KHEAP_VBASE <= x < Heap.max h -> exists pg r, translate (tabs s) root x = Some (pg, r)).
  { intros x Hx. specialize (Hmap (x - x mod 4096)). cbn in Hmap. rewrite (heap_mapped_iff root s F' _ W') in Hmap.
    rewrite (translate_path _ _ (x - x mod 4096) x) in Hmap by (apply path_eq; f_equal; zlia).
    destruct (translate (tabs s) root x) as [[pg r] |]; [by eexists _, _ |].
    unfold KHEAP_VBASE, Heap.PAGE_SIZE in *. discriminate Hmap; zlia. }
  split.
  - intros x Hx. destruct (HT x Hx) as (pg & r & E). exists pg, r. split; [done |].
    split; [by unfold physical; rewrite E |]. intros p t Hp Ht ->.
    destruct (backed_frame _ _ _ _ _ _ _ _ _ HB (HR x Hx) E) as [_ Hn]. apply Hn, (ws_table _ _ _ W' p pg Hp Ht).
  - intros x y Hx Hy Ephys. destruct (HT x Hx) as (a & r & Ea).
    destruct (backed_physical_inj _ _ _ _ _ _ x y HB (HR x Hx) (HR y Hy)) as [Ep Em]; [| done | by apply same_page; [apply HR.. | |]].
    unfold physical. by rewrite Ea.
Qed.
End Stack.

(** the heap on the six free pages of [ex_pmm], with one live object *)
Definition ex_kheap : kheap (vm pmm) :=
  match kheap_init (H := vmm_backend ex_root) ex_space with
  | Ok h => h
  | _ => mk_heap [] 0 0 0 ex_space
  end.

Definition ex_kheap_1 : kheap (vm pmm) :=
  state ex_kheap (Heap.kmalloc (H := vmm_backend ex_root) 100 None ex_kheap).

Lemma ex_kheap_init : kheap_init (H := vmm_backend ex_root) ex_space = Ok ex_kheap.
Proof.
  unfold ex_kheap. assert (exists h, kheap_init (H := vmm_backend ex_root) ex_space = Ok h) as [h ->]; [| done].
  eexists. vm_compute. reflexivity.
Qed.

Lemma ex_kheap_step : Heap.kmalloc (H := vmm_backend ex_root) 100 None ex_kheap =
  Ok (KHEAP_VBASE + 3984, ex_kheap_1).
Proof.
  unfold ex_kheap_1.
  assert (exists h, Heap.kmalloc (H := vmm_backend ex_root) 100 None ex_kheap = Ok (KHEAP_VBASE + 3984, h)) as [h ->]; [| done].
  eexists. vm_compute. reflexivity.
Qed.

Lemma heap_memory_private_witness :
  physical ex_root (Heap.pages ex_kheap_1) (KHEAP_VBASE + 3984) <>
  physical ex_root (Heap.pages ex_kheap_1) (KHEAP_VBASE + 3985).
Proof.
  assert (E : Heap.base ex_kheap_1 = KHEAP_VBASE /\ Heap.max ex_kheap_1 = KHEAP_VBASE + 4096) by (by vm_compute).
  destruct (heap_memory_private ex_root ex_space [ex_root] ex_kheap ex_kheap_1 [(KHEAP_VBASE + 3984, 100)])
    as [_ H].
  - exact ex_space_ok.
  - intros w _. reflexivity.
  - exact ex_kheap_init.
  - eapply rtc_l; [| apply rtc_refl]. eapply (Heap.step_alloc _ _ _ None); [| exact ex_kheap_step |]; unfold KHEAP_VBASE; lia.
  - destruct E as [E1 E2]. rewrite E1, E2 in H.
    intros X. apply H in X; lia.
Defined.
