(* ===== verification/Vma.v ===== *)
(** * Virtual memory areas (src/kernel/vma.c, vma.h)

    A thread's [vma_list] is a singly linked list of nodes obtained from
    kmalloc; it is a list of records that carry their own address [ptr], and
    the allocator is any instance of [Allocator].  The list is walked through a
    pointer to the link to change ([struct vma **pp]); the recursive functions
    below rebuild the prefix that walk passes. *)

From S2P Require Import Prelude Heap Alloc.

(** ** Data *)

Record vma := mk_vma { ptr : Z; start : Z; vend : Z; prot : Z; flags : Z }.

Definition VMA_SIZE : Z := 32.
Definition USER_MMAP_BASE : Z := 0x04000000.
Definition USER_MMAP_END : Z := 0x10000000.

(** ** Operations *)

(** insertion in ascending order of the start address *)
Fixpoint vma_insert (v : vma) (l : list vma) : list vma :=
  match l with
  | [] => [v]
  | w :: l' => if start w <? start v then w :: vma_insert v l' else v :: l
  end.

Fixpoint vma_find (l : list vma) (addr : Z) : option vma :=
  match l with
  | [] => None
  | v :: l => if (start v <=? addr) && (addr <? vend v) then Some v else vma_find l addr
  end.

(** unlinking the first exact match *)
Fixpoint vma_unlink (s e : Z) (l : list vma) : option (vma * list vma) :=
  match l with
  | [] => None
  | v :: l =>
      if (start v =? s) && (vend v =? e) then Some (v, l)
      else
        match vma_unlink s e l with
        | Some (w, l') => Some (w, v :: l')
        | None => None
        end
  end.

Section vma_ops.
Context {A : Type} `{Allocator A}.

(** the result is the address of the node, 0 for NULL *)
Definition vma_alloc (s e prt flg : Z) (l : list vma) (a : A) : res (Z * list vma * A) :=
  let! (p, a) := kmalloc VMA_SIZE a in
  if p =? 0 then Ok (0, l, a)
  else Ok (p, vma_insert (mk_vma p s e prt flg) l, a).

Definition vma_free (s len : Z) (l : list vma) (a : A) : res (Z * list vma * A) :=
  match vma_unlink s (u64 (s + len)) l with
  | Some (v, l') => let! a := kfree (ptr v) a in Ok (0, l', a)
  | None => Ok (-1, l, a)
  end.

Fixpoint vma_destroy_all (l : list vma) (a : A) : res A :=
  match l with
  | [] => Ok a
  | v :: l => let! a := kfree (ptr v) a in vma_destroy_all l a
  end.
End vma_ops.

(** the loop of [vma_find_free]; [None] is a return of 0 inside the loop *)
Fixpoint find_free_loop (l : list vma) (cursor len : Z) : option (bool * Z) :=
  match l with
  | [] => Some (false, cursor)
  | v :: l =>
      if (u64 (cursor + len) <=? start v) && (cursor <? USER_MMAP_END) then Some (true, cursor)
      else if USER_MMAP_END <=? vend v then None
      else find_free_loop l (vend v) len
  end.

(** [cur] is the list of the thread running on this CPU, if there is one *)
Definition vma_find_free (length : Z) (cur : option (list vma)) : Z :=
  let len := align_down 4096 (u64 (length + 4095)) in
  match cur with
  | None => 0
  | Some l =>
      match find_free_loop l USER_MMAP_BASE len with
      | None => 0
      | Some (true, c) => c
      | Some (false, c) => if u64 (c + len) <=? USER_MMAP_END then c else 0
      end
  end.

(** ** The invariant *)

(** areas in ascending order, non-empty and disjoint, the first at or after
    [lo] and the last ending at or before [hi] *)
Fixpoint areas (lo : Z) (l : list vma) (hi : Z) : Prop :=
  match l with
  | [] => lo <= hi
  | v :: l => lo <= start v /\ start v < vend v /\ areas (vend v) l hi
  end.

Definition covers (v : vma) (x : Z) : Prop := start v <= x < vend v.

(** [s, e) overlaps no area *)
Definition gap (l : list vma) (s e : Z) : Prop :=
  Forall (fun v => vend v <= s \/ e <= start v) l.

(** every node is an allocated block *)
Definition nodes (l : list vma) : list (Z * Z) := (fun v => (ptr v, VMA_SIZE)) <$> l.

(** ** Lemmas *)

Lemma areas_le lo l hi : areas lo l hi -> lo <= hi.
Proof.
  revert lo. induction l as [| v l IH]; intros lo; simpl; [done |].
  intros (? & ? & Hl). specialize (IH _ Hl). lia.
Qed.

Lemma areas_weaken lo lo' l hi : lo' <= lo -> areas lo l hi -> areas lo' l hi.
Proof. destruct l; simpl; intuition lia. Qed.

Lemma areas_bounds lo l hi v :
  areas lo l hi -> v ∈ l -> lo <= start v /\ start v < vend v /\ vend v <= hi.
Proof.
  revert lo. induction l as [| w l IH]; intros lo HA Hv; [by inversion Hv |].
  destruct HA as (H1 & H2 & HA). apply elem_of_cons in Hv as [-> | Hv].
  - pose proof (areas_le _ _ _ HA). lia.
  - destruct (IH _ HA Hv). lia.
Qed.

Lemma areas_insert v l lo hi :
  areas lo l hi -> lo <= start v -> start v < vend v -> vend v <= hi ->
  gap l (start v) (vend v) -> areas lo (vma_insert v l) hi.
Proof.
  revert lo. induction l as [| w l IH]; intros lo HA H1 H2 H3 HG; simpl; [done |].
  destruct HA as (A1 & A2 & HA). inversion HG as [| ? ? Hw HG']; subst.
  destruct (Z.ltb_spec (start w) (start v)); simpl.
  - split_and!; try done. apply IH; try done. lia.
  - split_and!; try done. lia.
Qed.

Lemma insert_perm v l : vma_insert v l ≡ₚ v :: l.
Proof.
  induction l as [| w l IH]; simpl; [done |].
  destruct (start w <? start v); [| done]. rewrite IH. apply Permutation_swap.
Qed.

Lemma vma_find_spec lo l hi addr :
  areas lo l hi ->
  match vma_find l addr with
  | Some v => v ∈ l /\ covers v addr /\ forall w, w ∈ l -> covers w addr -> w = v
  | None => forall w, w ∈ l -> ~ covers w addr
  end.
Proof.
  unfold covers. revert lo. induction l as [| v l IH]; intros lo HA; simpl.
  { intros w Hw. by inversion Hw. }
  destruct HA as (A1 & A2 & HA).
  assert (Hl : forall w, w ∈ l -> vend v <= start w) by (intros w Hw; apply (areas_bounds _ _ _ w HA Hw)).
  destruct (Z.leb_spec (start v) addr), (Z.ltb_spec addr (vend v)); simpl.
  { split_and!; [left | lia | lia |]. intros w [-> | Hw]%elem_of_cons Hc; [done |].
    specialize (Hl w Hw). lia. }
  all: specialize (IH _ HA); destruct (vma_find l addr) as [u |].
  all: try (destruct IH as (I1 & I2 & I3); split_and!; [by right | lia | lia |];
            intros w [-> | Hw]%elem_of_cons Hc; [lia | by apply I3]).
  all: intros w [-> | Hw]%elem_of_cons Hc; [lia | by apply (IH w)].
Qed.

Lemma vma_unlink_spec lo l hi s e :
  areas lo l hi ->
  match vma_unlink s e l with
  | Some (v, l') =>
      exists l1 l2, l = l1 ++ v :: l2 /\ l' = l1 ++ l2 /\ start v = s /\ vend v = e /\ areas lo l' hi
  | None => forall v, v ∈ l -> ~ (start v = s /\ vend v = e)
  end.
Proof.
  revert lo. induction l as [| v l IH]; intros lo HA; simpl.
  { intros w Hw. by inversion Hw. }
  destruct HA as (A1 & A2 & HA).
  destruct (Z.eqb_spec (start v) s), (Z.eqb_spec (vend v) e); simpl.
  { exists [], l. split_and!; try done. apply areas_weaken with (vend v); [lia | done]. }
  all: specialize (IH _ HA); destruct (vma_unlink s e l) as [[w l'] |].
  all: try (destruct IH as (l1 & l2 & -> & -> & I1 & I2 & I3); exists (v :: l1), l2; by split_and!).
  all: intros w [-> | Hw]%elem_of_cons Hc; [lia | by apply (IH w)].
Qed.

(** ** The search for a free range *)

Lemma find_free_loop_spec l c len :
  areas c l USER_MMAP_END -> USER_MMAP_BASE <= c -> 1 <= len <= 9223372036854775808 ->
  match find_free_loop l c len with
  | Some (inside, r) =>
      c <= r <= USER_MMAP_END /\ gap l r (r + len) /\ (inside = true -> r + len <= USER_MMAP_END) /\
      forall x, c <= x -> gap l x (x + len) -> r <= x
  | None => forall x, c <= x -> gap l x (x + len) -> USER_MMAP_END < x + len
  end.
Proof.
  unfold USER_MMAP_BASE, USER_MMAP_END.
  revert c. induction l as [| v l IH]; intros c HA Hc Hlen; simpl.
  { split_and!; try done; simpl in *; try lia. by constructor. }
  pose proof (areas_bounds _ _ _ v HA ltac:(left)) as (B1 & B2 & B3).
  destruct HA as (A1 & A2 & HA). rewrite u64_small by (red; lia).
  destruct (Z.leb_spec (c + len) (start v)) as [Hfit | Hno];
    destruct (Z.ltb_spec c USER_MMAP_END) as [Hce | Hce]; unfold USER_MMAP_END in Hce;
    try lia; simpl.
  { split_and!; try lia. apply Forall_forall. intros w Hw. right.
    destruct (areas_bounds _ (v :: l) _ w (conj A1 (conj A2 HA)) Hw) as [Hs _].
    apply elem_of_cons in Hw as [-> | Hw]; [done |].
    destruct (areas_bounds _ _ _ w HA Hw). lia. }
  assert (Hskip : forall x, c <= x -> gap (v :: l) x (x + len) -> vend v <= x /\ gap l x (x + len)).
  { intros x Hx (Hv & Hg)%Forall_cons. split; [lia | done]. }
  destruct (Z.leb_spec USER_MMAP_END (vend v)) as [Hend | Hend]; unfold USER_MMAP_END in Hend.
  { intros x Hx Hg. destruct (Hskip x Hx Hg). lia. }
  specialize (IH (vend v) HA ltac:(lia) Hlen).
  destruct (find_free_loop l (vend v) len) as [[b r] |].
  - destruct IH as (I1 & I2 & I3 & I4). split_and!; try lia; try done.
    + constructor; [left; lia | done].
    + intros x Hx Hg. destruct (Hskip x Hx Hg). by apply I4.
  - intros x Hx Hg. destruct (Hskip x Hx Hg). by apply IH.
Qed.

Definition page_round (length : Z) : Z := align_down 4096 (u64 (length + 4095)).

Lemma page_round_spec length :
  0 <= length <= UINT64_MAX - 4095 ->
  length <= page_round length < length + 4096 /\ page_round length mod 4096 = 0.
Proof.
  intros Hl. unfold page_round. rewrite u64_small by (red; lia).
  rewrite align_down_4096 by (red; lia). zlia.
Qed.

(** ** Theorems *)

Lemma vma_find_free_ok l length :
  areas USER_MMAP_BASE l USER_MMAP_END -> 1 <= length <= 9223372036854771712 ->
  let len := page_round length in
  let fits x := USER_MMAP_BASE <= x /\ x + len <= USER_MMAP_END /\ gap l x (x + len) in
  let r := vma_find_free length (Some l) in
  (r = 0 /\ (forall x, ~ fits x)) \/ (r <> 0 /\ fits r /\ forall x, fits x -> r <= x).
Proof.
  intros HA Hl. cbn zeta. destruct (page_round_spec length) as [Hlen _]; [lia |].
  unfold vma_find_free. fold (page_round length). set (len := page_round length) in *.
  pose proof (find_free_loop_spec l USER_MMAP_BASE len HA ltac:(lia) ltac:(lia)) as HS.
  destruct (find_free_loop l USER_MMAP_BASE len) as [[inside r] |].
  2: { left. split; [done |]. intros x (X1 & X2 & X3). specialize (HS x X1 X3). lia. }
  destruct HS as (H1 & H2 & H3 & H4). unfold USER_MMAP_BASE, USER_MMAP_END in *.
  destruct inside.
  - right. split; [lia |]. split; [split_and!; try lia; auto |]. intros x (X1 & _ & X3). auto.
  - rewrite u64_small by (red; lia). destruct (Z.leb_spec (r + len) 268435456).
    + right. split; [lia |]. split; [split_and!; try lia; auto |]. intros x (X1 & _ & X3). auto.
    + left. split; [done |]. intros x (X1 & X2 & X3). specialize (H4 x X1 X3). lia.
Qed.

(** the search for a free range is sound, complete and first fit. On a
    thread whose areas are ordered, disjoint and inside the mmap window,
    [vma_find_free] returns the lowest address of the window at which the
    page-rounded length fits without overlapping any area, and 0 exactly when
    there is no such address. *)
Lemma vma_find_free_correct l length :
  areas USER_MMAP_BASE l USER_MMAP_END -> 1 <= length <= 9223372036854771712 ->
  let len := page_round length in
  let fits x := USER_MMAP_BASE <= x /\ x + len <= USER_MMAP_END /\ gap l x (x + len) in
  let r := vma_find_free length (Some l) in
  (r = 0 /\ (forall x, ~ fits x)) \/ (r <> 0 /\ fits r /\ forall x, fits x -> r <= x).
Proof. exact (vma_find_free_ok l length). Qed.

Definition ex_areas : list vma :=
  [mk_vma 4096 0x04000000 0x04002000 3 34; mk_vma 8192 0x04003000 0x04008000 3 34].

Lemma vma_find_free_correct_witness :
  vma_find_free 5000 (Some ex_areas) = 0x04008000 /\
  (forall x, 0x04000000 <= x /\ x + 8192 <= 0x10000000 /\ gap ex_areas x (x + 8192) -> 0x04008000 <= x).
Proof.
  destruct (vma_find_free_correct ex_areas 5000) as [[H _] | (_ & _ & H)].
  - vm_compute. intuition discriminate.
  - lia.
  - vm_compute in H. discriminate.
  - split; [vm_compute; reflexivity | exact H].
Defined.

Section theorems.
Context {A : Type} `{Allocator A}.

Lemma vma_find_insert lo l hi v x :
  areas lo l hi -> areas lo (vma_insert v l) hi ->
  vma_find (vma_insert v l) x =
    if (start v <=? x) && (x <? vend v) then Some v else vma_find l x.
Proof.
  intros HA HA'. pose proof (vma_find_spec _ _ _ x HA) as H1.
  pose proof (vma_find_spec _ _ _ x HA') as H2.
  assert (Hin : forall w, w ∈ vma_insert v l <-> w = v \/ w ∈ l).
  { intros w. rewrite insert_perm, elem_of_cons. done. }
  destruct ((start v <=? x) && (x <? vend v)) eqn:Ev.
  - assert (Hc : covers v x) by (red; zbool; simpl in *; done || lia).
    destruct (vma_find (vma_insert v l) x) as [w |].
    + destruct H2 as (_ & _ & H2). rewrite (H2 v); [done | | done]. apply Hin. by left.
    + exfalso. apply (H2 v); [apply Hin; by left | done].
  - assert (Hc : ~ covers v x) by (unfold covers; zbool; simpl in *; done || lia).
    destruct (vma_find (vma_insert v l) x) as [w |].
    + destruct H2 as (Hw & Hcw & _). apply Hin in Hw as [-> | Hw]; [done |].
      destruct (vma_find l x) as [u |]; [| by destruct (H1 w)].
      destruct H1 as (_ & _ & H1). f_equal. by apply H1.
    + destruct (vma_find l x) as [u |]; [| done]. destruct H1 as (Hu & Hcu & _).
      exfalso. apply (H2 u); [apply Hin; by right | done].
Qed.

(** registering and looking up areas. Registering [s, e) in a gap keeps the
    areas ordered and disjoint, allocates exactly one node, and changes lookups
    exactly on the new area: inside it [vma_find] answers the new area, elsewhere
    what it answered before. When kmalloc fails nothing changes. In either list
    a lookup answers the one area that contains the address, or NULL when none
    does. *)
Lemma vma_alloc_correct lo l hi (a : A) R s e prt flg :
  areas lo l hi -> live a (nodes l ++ R) -> lo <= s -> s < e -> e <= hi -> gap l s e ->
  exists p l' a', vma_alloc s e prt flg l a = Ok (p, l', a') /\ live a' (nodes l' ++ R) /\
    areas lo l' hi /\
    (p = 0 -> l' = l) /\
    (p <> 0 -> l' ≡ₚ mk_vma p s e prt flg :: l /\
       forall x, vma_find l' x =
         if (s <=? x) && (x <? e) then Some (mk_vma p s e prt flg) else vma_find l x) /\
    (forall x v, vma_find l' x = Some v <-> v ∈ l' /\ covers v x).
Proof.
  intros HA Hl H1 H2 H3 HG. unfold vma_alloc.
  assert (Hfind : forall m, areas lo m hi ->
    forall x v, vma_find m x = Some v <-> v ∈ m /\ covers v x).
  { intros m Hm x v. pose proof (vma_find_spec _ _ _ x Hm) as HS.
    destruct (vma_find m x) as [w |]; split.
    - intros [= <-]. tauto.
    - intros [Hv Hc]. f_equal. symmetry. by apply HS.
    - done.
    - intros [Hv Hc]. by destruct (HS v). }
  destruct (kmalloc_live a _ VMA_SIZE Hl) as (p & a' & -> & Hp); [unfold VMA_SIZE; lia |]. simpl.
  destruct Hp as [[-> Hl'] | [Hp Hl']].
  { exists 0, l, a'. split_and!; auto. done. }
  destruct (Z.eqb_spec p 0); [lia |].
  assert (HA' : areas lo (vma_insert (mk_vma p s e prt flg) l) hi) by (by apply areas_insert).
  eexists _, _, _. split; [done |]. split.
  { eapply live_perm; [| exact Hl']. unfold nodes. rewrite insert_perm. done. }
  split; [done |]. split; [done |]. split; [| auto]. intros _. split; [apply insert_perm |].
  intros x. apply (vma_find_insert lo l hi); done.
Qed.

(** the nodes of all areas are released, and nothing else *)
Lemma vma_destroy_all_ok l (a : A) R : live a (nodes l ++ R) -> exists a', vma_destroy_all l a = Ok a' /\ live a' R.
Proof.
  revert a. induction l as [| v l IH]; intros a Hl; simpl; [eauto |].
  destruct (kfree_live a (nodes l ++ R) (ptr v) VMA_SIZE Hl) as (a' & -> & Hl'). simpl. auto.
Qed.

(** removing areas. [vma_free] succeeds exactly when an area has the given
    bounds; it then takes that area out, keeps the order and releases its node,
    and otherwise returns -1 and changes nothing. *)
Lemma vma_free_correct lo l hi (a : A) R s len :
  areas lo l hi -> live a (nodes l ++ R) -> 0 <= s -> 0 <= len -> s + len <= UINT64_MAX ->
  exists r l' a', vma_free s len l a = Ok (r, l', a') /\ live a' (nodes l' ++ R) /\
     areas lo l' hi /\
     ((r = 0 /\ exists v, l ≡ₚ v :: l' /\ start v = s /\ vend v = s + len) \/
      (r = -1 /\ l' = l /\ a' = a /\ forall v, v ∈ l -> ~ (start v = s /\ vend v = s + len))).
Proof.
  intros HA Hl Hs Hlen Hmax. unfold vma_free. rewrite u64_small by (red; lia).
  pose proof (vma_unlink_spec lo l hi s (s + len) HA) as HS.
  destruct (vma_unlink s (s + len) l) as [[v l'] |].
  - destruct HS as (l1 & l2 & -> & -> & Hv1 & Hv2 & HA').
    destruct (kfree_live a (nodes (l1 ++ l2) ++ R) (ptr v) VMA_SIZE) as (a' & -> & Hl').
    { eapply live_perm; [| exact Hl]. unfold nodes. rewrite <- Permutation_middle. done. }
    exists 0, (l1 ++ l2), a'. split_and!; try done. left. split; [done |].
    exists v. split_and!; try done. symmetry. apply Permutation_middle.
  - exists (-1), l, a. split_and!; try done. right. done.
Qed.
End theorems.

(** ** Witnesses, on the kernel heap *)

#[local] Instance ex_allocator : Allocator (kheap frames) := heap_allocator (Some 1).

Lemma ex_live : live ex_heap [].
Proof. exact (init_client_inv ex_frames ex_heap ex_frames_ok ex_heap_init). Defined.

Lemma vma_alloc_correct_witness :
  exists p l' a', vma_alloc 0x04000000 0x04001000 3 34 [] ex_heap = Ok (p, l', a') /\
    areas 0x04000000 l' 0x10000000 /\ live a' (nodes l' ++ []).
Proof.
  destruct (vma_alloc_correct 0x04000000 [] 0x10000000 ex_heap [] 0x04000000 0x04001000 3 34)
    as (p & l' & a' & E & Hl & HA & _).
  - simpl. lia.
  - exact ex_live.
  - lia.
  - lia.
  - lia.
  - constructor.
  - exists p, l', a'. split_and!; assumption.
Defined.

Definition ex_heap_3 : kheap frames :=
  mk_heap [mk_block KHEAP_VBASE KHEAP_MAGIC true 4016 0;
           mk_block (KHEAP_VBASE + 4016) KHEAP_MAGIC false 80 1]
    KHEAP_VBASE (KHEAP_VBASE + 4096) 1 (3%nat, [KHEAP_VBASE]).

Definition ex_area : list vma := [mk_vma (KHEAP_VBASE + 4064) 0x04000000 0x04001000 3 34].

Lemma ex_live_3 : live ex_heap_3 (nodes ex_area ++ []).
Proof.
  destruct (kmalloc_live ex_heap [] 32 ex_live ltac:(lia)) as (p & a' & E & [[Hp _] | [_ Hl]]).
  - subst. vm_compute in E. discriminate.
  - vm_compute in E. injection E as <- <-. exact Hl.
Defined.

Lemma vma_free_correct_witness :
  exists l' a', vma_free 0x04000000 0x1000 ex_area ex_heap_3 = Ok (0, l', a') /\
    live a' (nodes l' ++ []).
Proof.
  destruct (vma_free_correct 0x04000000 ex_area 0x10000000 ex_heap_3 [] 0x04000000 0x1000)
    as (r & l' & a' & E & Hl & _).
  - vm_compute. intuition discriminate.
  - exact ex_live_3.
  - lia.
  - lia.
  - lia.
  - exists l', a'. split; [| exact Hl]. rewrite E. vm_compute in E. injection E as <- <- <-. reflexivity.
Defined.
