(* ===== verification/Mmap.v ===== *)
(** * Memory system calls and demand paging
      ([kernel/arch/x86_64/syscall.c], [kernel/arch/x86_64/page_fault.c])

    The composition of Vma.v, Vmm.v and the two allocator interfaces: [do_mmap],
    [do_munmap] and the page-fault handler on a process, that is the current
    thread's area list, the heap its nodes come from, and the page tables.
    Frames come from the interface of PageAlloc.v and nodes from that of
    Alloc.v; that the kernel heap itself grows with frames of the page allocator
    is the subject of KernelHeap.v.

    The invariant [proc_ok] ties the two data structures: in the mmap window,
    whatever is mapped lies in a registered area and has a frame of its own. *)

From stdpp Require Import base list.
From S2P Require Import Prelude Alloc Heap Vma Pmm PageAlloc Vmm VmmWalk VmmOwned VmmSpec VmmSpace PageOwner.

(** ** Data *)

Definition PROT_WRITE : Z := 2.
Definition PROT_EXEC : Z := 4.
Definition MAP_ANONYMOUS : Z := 32.
Definition MAP_PRIVATE : Z := 2.
Definition MAP_LAZY : Z := 256.

Record proc (A P : Type) := mk_proc { vma_list : list vma; kmem : A; space : vm P }.
Arguments mk_proc {A P} _ _ _.
Arguments vma_list {A P} _.
Arguments kmem {A P} _.
Arguments space {A P} _.

Section Calls.
Context {A : Type} `{Allocator A} {P : Type} {PA : PageAllocator P}.

(** [root] is the thread's [pml4_phys], 0 for NULL *)
Context (root : Z).

Abbreviation proc := (proc A P).
Definition with_space (s : vm P) (st : proc) : proc := mk_proc (vma_list st) (kmem st) s.

(** ** [do_mmap] *)

Definition page_flags (prot : Z) : Z :=
  let flags := Z.lor PTE_PRESENT PTE_USER in
  let flags := if has prot PROT_WRITE then Z.lor flags PTE_WRITABLE else flags in
  if negb (has prot PROT_EXEC) then Z.lor flags PTE_NX else flags.

(** the loop over [remaining], [n] pages of it; the result says whether all
    pages were mapped, and where the cursor stopped *)
Fixpoint map_pages (n : nat) (cursor flags : Z) (s : vm P) : res (bool * Z * vm P) :=
  match n with
  | O => Ok (true, cursor, s)
  | S n =>
      let! (phys, p) := page_alloc (frames s) in
      let s := mk_vm (tabs s) p in
      if phys =? 0 then Ok (false, cursor, s)
      else
        let! (c, s) := vmm_map_user root cursor phys flags s in
        if negb (c =? 0) then
          let! p := page_free phys (frames s) in
          Ok (false, cursor, mk_vm (tabs s) p)
        else map_pages n (u64 (cursor + 4096)) flags s
  end.

(** the loop that undoes mappings, of the rollback and of [do_munmap] *)
Fixpoint unmap_pages (n : nat) (va : Z) (s : vm P) : res (vm P) :=
  match n with
  | O => Ok s
  | S n =>
      let! raw := vmm_get_phys (tabs s) root va in
      let phys := addr_of raw in
      let! (_, m) := vmm_unmap (tabs s) root va in
      let s := mk_vm m (frames s) in
      let! s := if phys =? 0 then Ok s
                else let! p := page_free phys (frames s) in Ok (mk_vm (tabs s) p) in
      unmap_pages n (u64 (va + 4096)) s
  end.

Definition do_mmap (length prot mmap_flags : Z) (st : proc) : res (Z * proc) :=
  if root =? 0 then Ok (0, st)
  else if UINT64_MAX - 4095 <? length then Ok (0, st)
  else
    let length := align_down 4096 (u64 (length + 4095)) in
    if length =? 0 then Ok (0, st)
    else
      let vaddr := vma_find_free length (Some (vma_list st)) in
      if (vaddr =? 0) || (UINT64_MAX - length <? vaddr) then Ok (0, st)
      else
        let! (v, l, a) := vma_alloc vaddr (vaddr + length) (u32 prot)
          (Z.lor (Z.lor MAP_ANONYMOUS MAP_PRIVATE) (u32 mmap_flags)) (vma_list st) (kmem st) in
        if v =? 0 then Ok (0, mk_proc l a (space st))
        else if has mmap_flags MAP_LAZY then Ok (vaddr, mk_proc l a (space st))
        else
          let! (all, cursor, s) := map_pages (Z.to_nat (length / 4096)) vaddr (page_flags prot) (space st) in
          if all then Ok (vaddr, mk_proc l a s)
          else
            let! s := unmap_pages (Z.to_nat ((cursor - vaddr) / 4096)) vaddr s in
            let! (_, l, a) := vma_free vaddr length l a in
            Ok (0, mk_proc l a s).

(** ** [do_munmap] *)

Definition do_munmap (addr length : Z) (st : proc) : res (Z * proc) :=
  if root =? 0 then Ok (-1, st)
  else
    let length := align_down 4096 (u64 (length + 4095)) in
    if length =? 0 then Ok (-1, st)
    else
      let addr := align_down 4096 addr in
      if UINT64_MAX - addr <? length then Ok (-1, st)
      else
        match vma_find (vma_list st) addr with
        | None => Ok (-1, st)
        | Some v =>
            if negb (start v =? addr) || negb (vend v =? addr + length) then Ok (-1, st)
            else
              let! s := unmap_pages (Z.to_nat (length / 4096)) addr (space st) in
              let! (c, l, a) := vma_free addr length (vma_list st) (kmem st) in
              Ok (c, mk_proc l a s)
        end.

(** ** Page faults *)

Definition page_fault_demand (vaddr : Z) (st : proc) : res (Z * proc) :=
  let vaddr := align_down 4096 vaddr in
  let! m := vmm_is_mapped (tabs (space st)) root vaddr in
  if m then Ok (0, st)
  else
    let! (phys, p) := page_alloc (frames (space st)) in
    let s := mk_vm (tabs (space st)) p in
    if phys =? 0 then Ok (-1, with_space s st)
    else
      let flags := match vma_find (vma_list st) vaddr with
                   | Some v => page_flags (prot v)
                   | None => Z.lor PTE_PRESENT PTE_USER
                   end in
      let! (c, s) := vmm_map_user root vaddr phys flags s in
      if negb (c =? 0) then
        let! p := page_free phys (frames s) in
        Ok (-1, with_space (mk_vm (tabs s) p) st)
      else Ok (0, with_space s st).

(** what becomes of the thread: back to the instruction, killed, or the fault is
    one of the kernel and goes to the exception handler *)
Inductive fault_outcome := Resume | Kill | Exception.

(** [cur] is the current thread, with its [is_user] flag *)
Definition page_fault_handler (cr2 ec : Z) (cur : option (bool * proc)) : res (fault_outcome * option (bool * proc)) :=
  if negb (has ec 4) then Ok (Exception, cur)
  else
    match cur with
    | None => Ok (Exception, cur)
    | Some (is_user, st) =>
        if negb is_user || (match vma_list st with [] => true | _ => false end) then Ok (Kill, cur)
        else
          match vma_find (vma_list st) cr2 with
          | None => Ok (Kill, cur)
          | Some _ =>
              if negb (has ec 1) then
                let! (c, st) := page_fault_demand cr2 st in
                Ok (if c =? 0 then Resume else Kill, Some (is_user, st))
              else Ok (Kill, cur)
          end
    end.

(** ** The invariant *)

(** [Kt] are the tables of others, the kernel's among them, and [m0] their words *)
Context (Kt : list Z) (m0 : tables).

Definition window (w : Z) : Prop := USER_MMAP_BASE <= w < USER_MMAP_END.

Lemma window_user w : window w -> user_range w.
Proof. unfold window, user_range, USER_MMAP_BASE, USER_MMAP_END. lia. Qed.

Definition page_aligned (v : vma) : Prop := start v mod 4096 = 0 /\ vend v mod 4096 = 0.

(** areas in order on page boundaries, their nodes live next to the blocks [R] of
    others, the user half in the account of [user_space] (each mapped page in a
    frame of its own, tables and pages exactly what the destruction of the
    space releases, the tables [Kt] untouched), and each page mapped in the window
    in an area; [D] are frames of others *)
Definition proc_ok (R : list (Z * Z)) (D : list Z) (st : proc) : Prop :=
  areas USER_MMAP_BASE (vma_list st) USER_MMAP_END /\ Forall page_aligned (vma_list st) /\
  Alloc.live (kmem st) (nodes (vma_list st) ++ R) /\
  (exists F M, user_space root Kt m0 (space st) F M D) /\
  forall w, window w -> translate (tabs (space st)) root w <> None -> exists v, v ∈ vma_list st /\ covers v w.

Lemma page_flags_ok prot : PTE_FLAGS (Z.lor (page_flags prot) PTE_USER).
Proof. unfold page_flags. destruct (has prot PROT_WRITE), (has prot PROT_EXEC); by vm_compute. Qed.

Abbreviation moved m m' v k := (forall w, ~ page_in v w k -> translate m' root w = translate m root w).

Lemma page_in_0 v w : ~ page_in v w 0.
Proof. intros (j & Hj & _). lia. Qed.

Lemma page_in_S v w k : page_in v w (S k) <-> path w = path v \/ page_in (v + 4096) w k.
Proof.
  split.
  - intros ([| j] & Hj & E); [left; by rewrite Z.mul_0_r, Z.add_0_r in E |].
    right. exists j. split; [lia |]. rewrite E. f_equal. lia.
  - intros [E | (j & Hj & E)]; [exists 0%nat | exists (S j)]; (split; [lia |]); rewrite E; f_equal; lia.
Qed.

#[local] Instance page_in_dec v w k : Decision (page_in v w k).
Proof.
  revert v. induction k as [| k IH]; intros v; [right; apply page_in_0 |].
  destruct (decide (path w = path v)) as [E | E]; [left; apply page_in_S; by left |].
  destruct (IH (v + 4096)) as [Hp | Hp]; [left; apply page_in_S; by right | right].
  by intros [|]%page_in_S.
Defined.

(** pages of the window that differ have different paths *)
Lemma window_path x y : window x -> window y -> path x = path y -> x / 4096 = y / 4096.
Proof. unfold window, USER_MMAP_BASE, USER_MMAP_END. intros Hx Hy E%path_eq. zlia. Qed.

Lemma window_page_in v w k : window w -> window v -> v mod 4096 = 0 -> v + 4096 * Z.of_nat k <= USER_MMAP_END ->
  page_in v w k <-> v <= w < v + 4096 * Z.of_nat k.
Proof.
  intros Hw Hv Hal Hk. split.
  - intros (j & Hj & E). apply window_path in E; [zlia | done | unfold window in *; lia].
  - intros Hr. exists (Z.to_nat ((w - v) / 4096)). split; [zlia |]. apply path_eq. f_equal. zlia.
Qed.

(** ** The loops *)

Definition user_rights (flags : Z) : Z := Z.land (Z.lor flags PTE_USER) RIGHTS.

(** [k] of the [n] pages from [cursor] are mapped, all of them if [b] *)
Definition pages_mapped (flags : Z) (n : nat) (cursor : Z) (s : vm P) (D : list Z) (r : res (bool * Z * vm P)) : Prop :=
  exists b k s' F' M', r = Ok (b, cursor + 4096 * Z.of_nat k, s') /\
    user_space root Kt m0 s' F' M' D /\ (k <= n)%nat /\ (b = true -> k = n) /\
    (forall w, page_in cursor w k -> exists pg, translate (tabs s') root w = Some (pg, user_rights flags)) /\
    moved (tabs s) (tabs s') cursor k.

Lemma pages_none flags n cursor s D b s' F' M' :
  user_space root Kt m0 s' F' M' D -> keeps (tabs s) (tabs s') root -> (b = true -> n = 0%nat) ->
  pages_mapped flags n cursor s D (Ok (b, cursor, s')).
Proof.
  intros HB K Hb. exists b, 0%nat, s', F', M'. rewrite Z.mul_0_r, Z.add_0_r. split; [done |]. split; [done |].
  split; [lia |]. split; [intros ?; symmetry; auto |].
  split; [intros w Hw; by apply page_in_0 in Hw | intros w _; apply K].
Qed.

Lemma pages_next flags n cursor s s1 D pg r : window cursor -> cursor + 4096 * Z.of_nat (S n) <= USER_MMAP_END ->
  translate (tabs s1) root cursor = Some (pg, user_rights flags) ->
  (forall w, path w <> path cursor -> translate (tabs s1) root w = translate (tabs s) root w) ->
  pages_mapped flags n (cursor + 4096) s1 D r -> pages_mapped flags (S n) cursor s D r.
Proof.
  intros Hc Hn T O (b & k & s2 & F2 & M2 & -> & HB & Hk & Hb & HT & HO).
  exists b, (S k), s2, F2, M2. split; [do 2 f_equal; f_equal; lia |]. split; [done |]. split; [lia |].
  split; [intros Hb'; specialize (Hb Hb'); lia |]. split.
  - intros w Hw. destruct (decide (path w = path cursor)) as [Ew | Ew]; [| apply HT; by apply page_in_S in Hw as [|]].
    rewrite HO; [rewrite (translate_path _ _ _ _ Ew), T; eauto |]. intros (j & Hj & E). rewrite Ew in E.
    unfold window, USER_MMAP_BASE, USER_MMAP_END in *.
    apply window_path in E; [zlia | |]; unfold window, USER_MMAP_BASE, USER_MMAP_END; lia.
  - intros w Hw. rewrite HO by (intros Hw'; apply Hw, page_in_S; by right).
    apply O. intros Ew. apply Hw, page_in_S. by left.
Qed.

Lemma map_pages_ok flags n : PTE_FLAGS (Z.lor flags PTE_USER) -> forall cursor s F M D,
  user_space root Kt m0 s F M D -> (0 < n)%nat -> window cursor ->
  cursor + 4096 * Z.of_nat n <= USER_MMAP_END ->
  (forall w, page_in cursor w n -> translate (tabs s) root w = None) ->
  pages_mapped flags n cursor s D (map_pages n cursor flags s).
Proof.
  intros HF. induction n as [| n IH]; intros cursor s F M D HB Hn0 Hc Hn HN; [lia |].
  cbn [map_pages]. destruct (user_alloc _ _ _ s F M D HB) as (a & p & -> & R). cbn [res_bind].
  destruct R as [[-> ->] | [Hf HB1]]; [by apply (pages_none _ _ _ _ _ _ _ F M); [destruct s | |] |].
  rewrite (proj2 (Z.eqb_neq a 0)) by (destruct Hf; lia).
  assert (H0 : page_in cursor cursor (S n)) by (apply page_in_S; by left).
  destruct (user_map _ _ _ _ F M D cursor a _ HB1 Hf (window_user _ Hc) HF (HN _ H0)) as (c & s1 & F1 & E & R).
  unfold vmm_map_user. rewrite E. cbn [res_bind].
  destruct R as [(-> & K & HB2) | (-> & HB2 & T & O)]; cbn [negb Z.eqb].
  { destruct (user_free _ _ _ s1 F1 M a D HB2) as (p2 & -> & HB3). cbn [res_bind].
    by apply (pages_none _ _ _ _ _ _ _ F1 M). }
  unfold window, USER_MMAP_BASE, USER_MMAP_END in Hc, Hn. rewrite u64_small by (red; lia).
  apply (pages_next _ _ _ _ s1 _ a); [done | done | exact T | exact O |].
  destruct n as [| n]; [by apply (pages_none _ _ _ _ _ _ _ F1 ((path cursor, a) :: M)) |].
  apply (IH _ s1 F1 ((path cursor, a) :: M)); [done | lia | unfold window, USER_MMAP_BASE, USER_MMAP_END; lia
    | unfold USER_MMAP_END; lia |].
  intros w Hw. rewrite O; [apply HN, page_in_S; by right |].
  intros Ew. destruct Hw as (j & Hj & E'). rewrite Ew in E'.
  apply window_path in E'; [zlia | |]; unfold window, USER_MMAP_BASE, USER_MMAP_END; lia.
Qed.

(** one page: its frame, if it has one, is released *)
Lemma unmap_page va s F M D : user_space root Kt m0 s F M D -> window va ->
  exists raw c m s1 M', vmm_get_phys (tabs s) root va = Ok raw /\ vmm_unmap (tabs s) root va = Ok (c, m) /\
    (if addr_of raw =? 0 then Ok (mk_vm m (frames s))
     else let! p := page_free (addr_of raw) (frames s) in Ok (mk_vm m p)) = Ok s1 /\
    user_space root Kt m0 s1 F M' D /\ translate (tabs s1) root va = None /\
    forall w, path w <> path va -> translate (tabs s1) root w = translate (tabs s) root w.
Proof.
  intros HB Hw. pose proof (window_user _ Hw) as Hu.
  destruct (user_get_phys _ _ _ s F M D va HB Hu) as (raw & E1 & HR).
  destruct (user_unmap _ _ _ s F M D va HB Hu) as (c & m1 & E2 & T1 & O1 & HB1).
  exists raw, c, m1. destruct (translate (tabs s) root va) as [[pg r] |].
  - destruct HB1 as [M1 HB1]. destruct HR as [-> [Hpos _]]. rewrite (proj2 (Z.eqb_neq _ 0)) by lia.
    destruct (user_free _ _ _ _ _ _ _ _ HB1) as (p & E3 & HB2). cbn [frames with_tabs] in E3. rewrite E3.
    eexists _, M1. split; [done |]. split; [done |]. split; [reflexivity |]. split; [exact HB2 | done].
  - rewrite HR. eexists _, M. split; [done |]. split; [done |]. split; [reflexivity |]. split; [exact HB1 | done].
Qed.

Lemma unmap_pages_ok n : forall va s F M D,
  user_space root Kt m0 s F M D -> USER_MMAP_BASE <= va -> va + 4096 * Z.of_nat n <= USER_MMAP_END ->
  exists s' M', unmap_pages n va s = Ok s' /\ user_space root Kt m0 s' F M' D /\
    (forall w, page_in va w n -> translate (tabs s') root w = None) /\ moved (tabs s) (tabs s') va n.
Proof.
  induction n as [| n IH]; intros va s F M D HB Hv Hn.
  { exists s, M. split; [done |]. split; [done |]. split; [| done]. intros w Hw. by apply page_in_0 in Hw. }
  unfold USER_MMAP_BASE, USER_MMAP_END in *.
  destruct (unmap_page va s F M D HB) as (raw & c & m & s1 & M1 & E1 & E2 & E3 & HB1 & T1 & O1).
  { unfold window, USER_MMAP_BASE, USER_MMAP_END. lia. }
  cbn [unmap_pages]. rewrite E1. cbn [res_bind]. rewrite E2. cbn [res_bind tabs frames]. rewrite E3. cbn [res_bind].
  rewrite u64_small by (red; lia).
  destruct (IH (va + 4096) s1 F M1 D HB1) as (s2 & M2 & -> & HB3 & T2 & O2); [lia | lia |].
  exists s2, M2. split; [done |]. split; [done |]. split.
  - intros w Hpw. destruct (decide (page_in (va + 4096) w n)); [by apply T2 |]. rewrite O2 by done.
    apply page_in_S in Hpw as [Ew |]; [| done]. by rewrite (translate_path _ _ _ _ Ew).
  - intros w Hpw. rewrite O2 by (intros Hw'; apply Hpw, page_in_S; by right).
    apply O1. intros Ew. apply Hpw, page_in_S. by left.
Qed.

(** ** The search for a free range, for every length *)

Lemma page_round_aligned len : 0 <= len <= UINT64_MAX -> len mod 4096 = 0 -> page_round len = len.
Proof.
  intros Hl Hm. unfold page_round. assert (len + 4095 <= UINT64_MAX) by zlia.
  rewrite u64_small by (red; lia).
  rewrite align_down_4096 by (red; lia). zlia.
Qed.

Lemma find_free_loop_aligned l c len : Forall page_aligned l -> c mod 4096 = 0 ->
  match find_free_loop l c len with Some (_, r) => r mod 4096 = 0 | None => True end.
Proof.
  revert c. induction l as [| v l IH]; intros c HF Hc; [done |]. cbn [find_free_loop].
  apply Forall_cons in HF as [[_ Hv] HF]. destruct (_ && _); [done |]. destruct (_ <=? _); [done |]. by apply IH.
Qed.

(** for a length beyond the address space the sum wraps around *)
Lemma find_free_loop_huge l c len :
  areas c l USER_MMAP_END -> USER_MMAP_BASE <= c -> 9223372036854771712 < len <= UINT64_MAX ->
  match find_free_loop l c len with
  | Some (b, r) => USER_MMAP_BASE <= r <= USER_MMAP_END /\ (b = true -> UINT64_MAX < r + len)
  | None => True
  end.
Proof.
  unfold USER_MMAP_BASE, USER_MMAP_END. revert c.
  induction l as [| v l IH]; intros c HA Hc Hlen; cbn [find_free_loop].
  { simpl in HA. split; [lia | done]. }
  pose proof (areas_bounds _ _ _ v HA ltac:(left)) as (B1 & B2 & B3). destruct HA as (A1 & A2 & HA).
  destruct (_ && _) eqn:E.
  { split; [lia |]. intros _. apply andb_true_iff in E as [E%Z.leb_le _]. unfold u64 in E.
    destruct (Z.leb_spec 18446744073709551616 (c + len)); [lia |]. rewrite Z.mod_small in E by lia. lia. }
  destruct (_ <=? vend v); [done |]. apply IH; [done | lia | done].
Qed.

Lemma find_free_any l len : areas USER_MMAP_BASE l USER_MMAP_END -> Forall page_aligned l ->
  1 <= len <= UINT64_MAX -> len mod 4096 = 0 ->
  let r := vma_find_free len (Some l) in
  r = 0 \/ UINT64_MAX - len < r \/
  USER_MMAP_BASE <= r /\ r + len <= USER_MMAP_END /\ gap l r (r + len) /\ r mod 4096 = 0.
Proof.
  intros HA HF Hl Hm r. pose proof (page_round_aligned len ltac:(lia) Hm) as ER.
  pose proof (find_free_loop_aligned l USER_MMAP_BASE len HF eq_refl) as HAl.
  destruct (Z.le_gt_cases len 9223372036854771712).
  - pose proof (vma_find_free_ok l len HA ltac:(lia)) as HS. cbv zeta in HS. rewrite ER in HS. fold r in HS.
    destruct HS as [[HS _] | (_ & (H1 & H2 & H3) & _)]; [by left | right; right]. split; [done |]. split; [done |].
    split; [done |]. subst r. unfold vma_find_free in *. fold (page_round len) in *. rewrite ER in *.
    destruct (find_free_loop l USER_MMAP_BASE len) as [[[] c] |]; [done | | done].
    by destruct (_ <=? _).
  - pose proof (find_free_loop_huge l USER_MMAP_BASE len HA ltac:(lia) ltac:(lia)) as HS.
    subst r. unfold vma_find_free. fold (page_round len). rewrite ER.
    destruct (find_free_loop l USER_MMAP_BASE len) as [[[] c] |]; [| | by left].
    + right. left. destruct HS as [_ HS]. specialize (HS eq_refl). lia.
    + destruct (Z.leb_spec (u64 (c + len)) USER_MMAP_END) as [E |]; [| by left]. right. left.
      destruct HS as [HS _]. unfold USER_MMAP_BASE, USER_MMAP_END, u64 in *.
      destruct (Z.leb_spec 18446744073709551616 (c + len)); [lia |]. rewrite Z.mod_small in E by lia. lia.
Qed.

Lemma unlink_insert v l : gap l (start v) (vend v) -> start v < vend v ->
  Forall (fun w => start w < vend w) l -> vma_unlink (start v) (vend v) (vma_insert v l) = Some (v, l).
Proof.
  intros HG Hv HW. induction l as [| w l IH]; simpl; [by rewrite !Z.eqb_refl |].
  apply Forall_cons in HG as [Hw HG]. apply Forall_cons in HW as [Hne HW].
  destruct (Z.ltb_spec (start w) (start v)); simpl; [| by rewrite !Z.eqb_refl].
  rewrite (proj2 (Z.eqb_neq (start w) (start v))) by lia. simpl. by rewrite IH.
Qed.

(** ** [do_mmap] *)

Section Mmap.
Context (R : list (Z * Z)) (D : list Z) (st : proc) (OK : proc_ok R D st).
Context (r len prt flg : Z) (Hr : USER_MMAP_BASE <= r) (Hlen : 1 <= len) (Hm : len mod 4096 = 0)
  (Hend : r + len <= USER_MMAP_END) (HG : gap (vma_list st) r (r + len)) (Hal : r mod 4096 = 0).

Let n := Z.to_nat (len / 4096).

Lemma mmap_pages w : window w -> page_in r w n <-> r <= w < r + len.
Proof.
  intros Hw. replace (r + len) with (r + 4096 * Z.of_nat n) by (unfold n; zlia).
  apply window_page_in; [done | | done |]; unfold window, n in *; zlia.
Qed.

(** nothing is mapped in a gap *)
Lemma gap_unmapped w : page_in r w n -> translate (tabs (space st)) root w = None.
Proof.
  intros (k & Hk & E). rewrite (translate_path _ _ _ _ E). destruct OK as (HA & _ & _ & _ & HC).
  set (x := r + 4096 * Z.of_nat k). assert (Hx : r <= x < r + len) by (unfold x, n in *; zlia).
  destruct (translate (tabs (space st)) root x) eqn:ET; [| done].
  destruct (HC x) as (v & Hv & Hcov); [unfold window; lia | by rewrite ET |].
  unfold gap in HG. rewrite Forall_forall in HG. specialize (HG v Hv). unfold covers in Hcov. lia.
Qed.

Let node p := mk_vma p r (r + len) prt flg.

(** the list with the new area, its pages mapped or not *)
Lemma mmap_inserted p a s F M : Alloc.live a ((p, VMA_SIZE) :: nodes (vma_list st) ++ R) -> user_space root Kt m0 s F M D ->
  (forall w, ~ page_in r w n -> translate (tabs s) root w = translate (tabs (space st)) root w) ->
  proc_ok R D (mk_proc (vma_insert (node p) (vma_list st)) a s).
Proof.
  intros Hl HB HO. destruct OK as (HA & HF & _ & _ & HC). unfold proc_ok. cbn [vma_list kmem space]. split; [apply areas_insert; simpl; try done; lia |].
  split; [rewrite insert_perm; constructor; [split; simpl; [done | zlia] | done] |].
  split; [eapply live_perm; [| exact Hl]; unfold nodes; simpl; by rewrite insert_perm |].
  split; [by exists F, M |]. simpl. intros w Hw HT.
  destruct (decide (page_in r w n)) as [Hp | Hp].
  - exists (node p). rewrite insert_perm. split; [lmem |]. by apply mmap_pages in Hp.
  - rewrite HO in HT by done. destruct (HC w Hw HT) as (v & Hv & Hcv). exists v. split; [| done].
    rewrite insert_perm. by right.
Qed.

Lemma mmap_register : exists p a, vma_alloc r (r + len) prt flg (vma_list st) (kmem st) =
    Ok (p, if p =? 0 then vma_list st else vma_insert (node p) (vma_list st), a) /\
  (p = 0 /\ proc_ok R D (mk_proc (vma_list st) a (space st)) \/
   p <> 0 /\ Alloc.live a ((p, VMA_SIZE) :: nodes (vma_list st) ++ R)).
Proof.
  destruct OK as (HA & HF & Hl & HB & HC). unfold vma_alloc.
  destruct (kmalloc_live (kmem st) _ VMA_SIZE Hl) as (p & a & -> & Hp); [unfold VMA_SIZE; lia |]. cbn [res_bind].
  exists p, a. destruct (Z.eqb_spec p 0) as [-> | N]; (split; [done |]).
  - left. split; [done |]. destruct Hp as [[_ Hl'] | [Hp _]]; [by split_and! | lia].
  - right. destruct Hp as [[-> _] | [_ Hl']]; done.
Qed.

(** the rollback takes the area out of the list again *)
Lemma mmap_unregister p a : Alloc.live a ((p, VMA_SIZE) :: nodes (vma_list st) ++ R) ->
  exists a', vma_free r len (vma_insert (node p) (vma_list st)) a = Ok (0, vma_list st, a') /\
    Alloc.live a' (nodes (vma_list st) ++ R).
Proof.
  intros Hl. destruct OK as (HA & _). unfold vma_free. unfold USER_MMAP_BASE, USER_MMAP_END in *. rewrite u64_small by (red; lia).
  assert (HW : Forall (fun w => start w < vend w) (vma_list st)).
  { apply Forall_forall. intros w Hw. by destruct (areas_bounds _ _ _ w HA Hw) as (_ & ? & _). }
  pose proof (unlink_insert (node p) (vma_list st) HG ltac:(simpl; lia) HW) as E. cbn in E. rewrite E.
  destruct (kfree_live _ _ _ _ Hl) as (a' & E' & Hl'). cbn [ptr node]. rewrite E'. by exists a'.
Qed.

(** the result of an eager or lazy mapping at [r] *)
Definition mmap_done (lazy : bool) (prot : Z) (st' : proc) : Prop :=
  (exists p, vma_list st' = vma_insert (mk_vma p r (r + len) prt flg) (vma_list st)) /\
  (forall w, ~ page_in r w n -> translate (tabs (space st')) root w = translate (tabs (space st)) root w) /\
  (forall w, r <= w < r + len ->
     if lazy then translate (tabs (space st')) root w = None
     else exists pg, translate (tabs (space st')) root w = Some (pg, user_rights (page_flags prot))).

Definition unchanged (st' : proc) : Prop :=
  vma_list st' = vma_list st /\
  forall w, translate (tabs (space st')) root w = translate (tabs (space st)) root w.

Lemma mmap_at (lazy : bool) prot : exists c st', (
    let! (v, l, a) := vma_alloc r (r + len) prt flg (vma_list st) (kmem st) in
    if v =? 0 then Ok (0, mk_proc l a (space st))
    else if lazy then Ok (r, mk_proc l a (space st))
    else
      let! (all, cursor, s) := map_pages n r (page_flags prot) (space st) in
      if all then Ok (r, mk_proc l a s)
      else
        let! s := unmap_pages (Z.to_nat ((cursor - r) / 4096)) r s in
        let! (_, l, a) := vma_free r len l a in
        Ok (0, mk_proc l a s)) = Ok (c, st') /\ proc_ok R D st' /\
  (c = 0 /\ unchanged st' \/ c = r /\ mmap_done lazy prot st').
Proof.
  destruct mmap_register as (p & a & -> & HP). cbn [res_bind].
  destruct HP as [(-> & OK') | (Np & Hl)]; [eexists _, _; split; [reflexivity |]; split; [done | by left] |].
  rewrite (proj2 (Z.eqb_neq p 0) Np). pose proof OK as (_ & _ & _ & (F & M & HB) & _).
  assert (HN : forall w, r <= w < r + len -> page_in r w n)
    by (intros w Hw; apply mmap_pages; [unfold window; lia | done]).
  destruct lazy.
  { eexists _, _. split; [reflexivity |]. split; [by apply (mmap_inserted p a (space st) F M) |]. right. split; [done |].
    split; [by exists p |]. split; [done |]. intros w Hw. apply gap_unmapped, HN, Hw. }
  destruct (map_pages_ok (page_flags prot) n (page_flags_ok prot) r (space st) F M D HB)
    as (b & k & s1 & F1 & M1 & -> & HB1 & Hk & Hb & HT & HO);
    [unfold n; zlia | unfold window; lia | unfold n; zlia | exact gap_unmapped |]. cbn [res_bind].
  destruct b.
  - specialize (Hb eq_refl) as ->. eexists _, _. split; [reflexivity |].
    split; [by apply (mmap_inserted p a s1 F1 M1) |]. right. split; [done |]. split; [by exists p |]. split; [done |].
    intros w Hw. by apply HT, HN.
  - replace (Z.to_nat ((r + 4096 * Z.of_nat k - r) / 4096)) with k by zlia.
    destruct (unmap_pages_ok k r s1 F1 M1 D HB1 Hr) as (s2 & M2 & -> & HB2 & HT2 & HO2); [unfold n in *; zlia |].
    cbn [res_bind]. destruct (mmap_unregister p a Hl) as (a' & -> & Hl'). cbn [res_bind].
    assert (Same : forall w, translate (tabs s2) root w = translate (tabs (space st)) root w).
    { intros w. destruct (decide (page_in r w k)) as [Hp | Hp]; [| by rewrite HO2, HO].
      rewrite HT2 by done. symmetry. apply gap_unmapped. destruct Hp as (x & Hx & E). exists x. split; [lia | done]. }
    eexists _, _. split; [reflexivity |]. split; [| by left].
    destruct OK as (HA & HF & _ & _ & HC). split; [done |]. split; [done |]. split; [done |].
    split; [by exists F1, M2 |]. simpl. intros w Hw. rewrite Same. by apply HC.
Qed.
End Mmap.

Lemma do_mmap_ok R D st length prot mmap_flags :
  proc_ok R D st -> is_u64 length ->
  exists r st', do_mmap length prot mmap_flags st = Ok (r, st') /\ proc_ok R D st' /\
    (r = 0 /\ unchanged st st' \/
     let len := page_round length in
     USER_MMAP_BASE <= r /\ r + len <= USER_MMAP_END /\ r mod 4096 = 0 /\ length <= len /\
     gap (vma_list st) r (r + len) /\
     mmap_done st r len (u32 prot) (Z.lor (Z.lor MAP_ANONYMOUS MAP_PRIVATE) (u32 mmap_flags))
       (has mmap_flags MAP_LAZY) prot st').
Proof.
  intros OK Hl. assert (None' : exists r st', Ok (0, st) = Ok (r, st') /\ proc_ok R D st' /\ r = 0 /\ unchanged st st')
    by (by exists 0, st).
  destruct None' as (r0 & st0 & E0 & OK0 & -> & U0). unfold is_u64 in Hl. unfold do_mmap. cbv zeta.
  fold (page_round length). destruct (root =? 0); [exists 0, st0; auto |].
  destruct (Z.ltb_spec (UINT64_MAX - 4095) length); [exists 0, st0; auto |].
  destruct (page_round_spec length ltac:(lia)) as [HL Hm]. set (len := page_round length) in *.
  destruct (Z.eqb_spec len 0) as [| Nl]; [exists 0, st0; auto |].
  pose proof (find_free_any (vma_list st) len (proj1 OK) (proj1 (proj2 OK)) ltac:(lia) Hm) as HS. cbv zeta in HS.
  set (r := vma_find_free len (Some (vma_list st))) in *.
  destruct HS as [-> | [HS | (H1 & H2 & H3 & H4)]]; [exists 0, st0; auto | |].
  { rewrite (proj2 (Z.ltb_lt _ _) HS), orb_true_r. exists 0, st0; auto. }
  unfold USER_MMAP_BASE, USER_MMAP_END in H1, H2.
  rewrite (proj2 (Z.eqb_neq r 0)), (proj2 (Z.ltb_ge _ _)) by lia. cbn [orb].
  destruct (mmap_at R D st OK r len (u32 prot) (Z.lor (Z.lor MAP_ANONYMOUS MAP_PRIVATE) (u32 mmap_flags))
    H1 ltac:(lia) Hm H2 H3 H4 (has mmap_flags MAP_LAZY) prot) as (c & st' & E & OK' & HR).
  exists c, st'. split; [exact E |]. split; [done |]. destruct HR as [HR | [-> HD]]; [by left | right].
  by repeat (split; [done || lia |]).
Qed.

(** C17: [do_mmap] for any length, protection and flags, on a process in the
    invariant, which it keeps.  It returns 0 and changes neither the areas nor
    any translation, also when it ran out of frames halfway and rolled back; or
    it returns the address of a page-aligned range of the window that overlapped
    no area, registers it, and, unless the mapping is lazy, every address of it
    translates with the rights asked for (to a frame of its own, by the
    invariant), while no other translation changes. *)
Theorem do_mmap_correct R D st length prot mmap_flags :
  proc_ok R D st -> is_u64 length ->
  exists r st', do_mmap length prot mmap_flags st = Ok (r, st') /\ proc_ok R D st' /\
    (r = 0 /\ unchanged st st' \/
     let len := page_round length in
     USER_MMAP_BASE <= r /\ r + len <= USER_MMAP_END /\ r mod 4096 = 0 /\ length <= len /\
     gap (vma_list st) r (r + len) /\
     mmap_done st r len (u32 prot) (Z.lor (Z.lor MAP_ANONYMOUS MAP_PRIVATE) (u32 mmap_flags))
       (has mmap_flags MAP_LAZY) prot st').
Proof. exact (do_mmap_ok R D st length prot mmap_flags). Qed.

(** ** [do_munmap] *)

Lemma munmap_hit R D st v : proc_ok R D st -> v ∈ vma_list st ->
  let len := vend v - start v in
  exists st' s a, unmap_pages (Z.to_nat (len / 4096)) (start v) (space st) = Ok s /\
    vma_free (start v) len (vma_list st) (kmem st) = Ok (0, vma_list st', a) /\
    st' = mk_proc (vma_list st') a s /\ proc_ok R D st' /\ vma_list st ≡ₚ v :: vma_list st' /\
    (forall w, start v <= w < vend v -> translate (tabs s) root w = None) /\
    forall w, ~ page_in (start v) w (Z.to_nat (len / 4096)) ->
      translate (tabs s) root w = translate (tabs (space st)) root w.
Proof.
  intros (HA & HF & Hl & (F & M & HB) & HC) Hv len. destruct (areas_bounds _ _ _ v HA Hv) as (B1 & B2 & B3).
  assert (HVal : page_aligned v) by (rewrite Forall_forall in HF; by apply HF). destruct HVal as [V1 V2].
  unfold USER_MMAP_BASE, USER_MMAP_END in B1, B3. set (n := Z.to_nat (len / 4096)).
  assert (Hn : 4096 * Z.of_nat n = len) by (unfold n, len; zlia).
  destruct (unmap_pages_ok n (start v) (space st) F M D HB) as (s & M' & Es & HB' & HT & HO);
    [done | unfold USER_MMAP_END; lia |].
  pose proof (vma_free_correct _ _ _ (kmem st) R (start v) len HA Hl ltac:(lia) ltac:(lia) ltac:(lia)) as Hfree.
  destruct Hfree as (c & l' & a & Ef & Hl' & HA' & [(-> & u & HP & U1 & U2) | (_ & _ & _ & HN)]);
    [| exfalso; apply (HN v Hv); lia].
  assert (u = v) as ->.
  { assert (Hu : u ∈ vma_list st) by (rewrite HP; lmem). pose proof (vma_find_spec _ _ _ (start v) HA) as HS.
    destruct (vma_find (vma_list st) (start v)) as [x |].
    - destruct HS as (_ & _ & HS). rewrite (HS v Hv), (HS u Hu); [done | |]; unfold covers; lia.
    - exfalso. apply (HS v Hv). unfold covers. lia. }
  assert (In : forall w, window w -> page_in (start v) w n <-> start v <= w < vend v).
  { intros w Hw. rewrite window_page_in; [| done | unfold window, USER_MMAP_BASE, USER_MMAP_END; lia | done | unfold USER_MMAP_END; lia].
    by replace (start v + 4096 * Z.of_nat n) with (vend v) by lia. }
  exists (mk_proc l' a s), s, a. split; [done |]. split; [done |]. split; [done |]. split; [| split; [done | split; [| done]]].
  - split; [done |]. split; [rewrite HP in HF; by apply Forall_cons in HF as [_ HF] |]. split; [done |].
    split; [by exists F, M' |]. intros w Hw HTw. cbn [space vma_list] in HTw |- *.
    destruct (decide (page_in (start v) w n)) as [Hp | Hp]; [by rewrite HT in HTw |]. rewrite HO in HTw by done.
    destruct (HC w Hw HTw) as (x & Hx & Hcx). exists x. split; [| done]. rewrite HP in Hx.
    apply elem_of_cons in Hx as [-> | Hx]; [| done]. destruct Hp. by apply In.
  - intros w Hw. apply HT, In; [unfold window, USER_MMAP_BASE, USER_MMAP_END; lia | done].
Qed.

(** a call that refuses leaves the process as it is *)
Ltac miss :=
  match goal with OK : proc_ok _ _ ?st |- _ => exists (-1), st; split; [done |]; split; [exact OK |]; left; split_and!; [done | done |] end.

Lemma do_munmap_ok R D st addr length :
  proc_ok R D st -> is_u64 addr -> is_u64 length ->
  let a := align_down 4096 addr in let len := page_round length in
  exists c st', do_munmap addr length st = Ok (c, st') /\ proc_ok R D st' /\
    (c = -1 /\ st' = st /\ (forall v, v ∈ vma_list st -> ~ (start v = a /\ vend v = a + len)) \/
     c = 0 /\ (exists v, vma_list st ≡ₚ v :: vma_list st' /\ start v = a /\ vend v = a + len) /\
     (forall w, a <= w < a + len -> translate (tabs (space st')) root w = None) /\
     forall w, ~ page_in a w (Z.to_nat (len / 4096)) ->
       translate (tabs (space st')) root w = translate (tabs (space st)) root w).
Proof.
  intros OK Ha Hl a len. pose proof OK as (HA & _ & _ & (U & M & HU) & _). unfold is_u64 in *.
  destruct (user_root _ _ _ _ _ _ _ HU) as [Hroot _].
  unfold do_munmap. cbv zeta. fold (page_round length). fold a len. rewrite (proj2 (Z.eqb_neq root 0)) by lia.
  assert (Hlen : 0 <= len) by (unfold len, page_round, u64; rewrite align_down_4096 by (red; zlia); zlia).
  assert (Bd : forall v, v ∈ vma_list st -> USER_MMAP_BASE <= start v /\ start v < vend v /\ vend v <= USER_MMAP_END)
    by (intros v Hv; by apply (areas_bounds _ _ _ v HA Hv)).
  unfold USER_MMAP_BASE, USER_MMAP_END in Bd. pose proof (vma_find_spec _ _ _ a HA) as HS. unfold covers in HS.
  destruct (Z.eqb_spec len 0) as [E0 | Nl]; [miss; intros v Hv Hb; specialize (Bd v Hv); lia |].
  destruct (Z.ltb_spec (UINT64_MAX - a) len); [miss; intros v Hv Hb; specialize (Bd v Hv); lia |].
  destruct (vma_find (vma_list st) a) as [v |].
  2:{ miss. intros v Hv Hb. apply (HS v Hv). specialize (Bd v Hv). lia. }
  destruct HS as (Hv & Hcv & Hu).
  destruct (negb (start v =? a) || negb (vend v =? a + len)) eqn:E.
  { miss. intros w Hw Hb. rewrite (Hu w Hw) in Hb by (specialize (Bd w Hw); lia).
    destruct Hb as [Hb1 Hb2]. by rewrite Hb1, Hb2, !Z.eqb_refl in E. }
  apply orb_false_iff in E as [E1%negb_false_iff%Z.eqb_eq E2%negb_false_iff%Z.eqb_eq].
  destruct (munmap_hit R D st v OK Hv) as (st' & s & a' & Es & Ef & Est & OK' & HP & HT & HO).
  rewrite E1, E2 in *. replace (a + len - a) with len in * by lia. rewrite Es. cbn [res_bind]. rewrite Ef. cbn [res_bind].
  rewrite <- Est. exists 0, st'. split; [done |]. split; [done |]. right. split; [done |]. rewrite Est. cbn [space vma_list].
  split; [by exists v |]. done.
Qed.

(** C31: [do_munmap] for any address and length, on a process in the invariant,
    which it keeps.  Unless an area has exactly the page-rounded bounds it
    returns -1 and changes nothing; if one has, it returns 0, the area is gone,
    none of its addresses translates any more, its frames are released (they are
    no longer in the invariant), and no other translation changes. *)
Theorem do_munmap_correct R D st addr length :
  proc_ok R D st -> is_u64 addr -> is_u64 length ->
  let a := align_down 4096 addr in let len := page_round length in
  exists c st', do_munmap addr length st = Ok (c, st') /\ proc_ok R D st' /\
    (c = -1 /\ st' = st /\ (forall v, v ∈ vma_list st -> ~ (start v = a /\ vend v = a + len)) \/
     c = 0 /\ (exists v, vma_list st ≡ₚ v :: vma_list st' /\ start v = a /\ vend v = a + len) /\
     (forall w, a <= w < a + len -> translate (tabs (space st')) root w = None) /\
     forall w, ~ page_in a w (Z.to_nat (len / 4096)) ->
       translate (tabs (space st')) root w = translate (tabs (space st)) root w).
Proof. exact (do_munmap_ok R D st addr length). Qed.

(** ** Page faults *)

(** the page of an address of an area is in the same area *)
Lemma find_page R D st x v : proc_ok R D st -> vma_find (vma_list st) x = Some v ->
  let y := align_down 4096 x in
  vma_find (vma_list st) y = Some v /\ window y /\ v ∈ vma_list st /\ covers v y /\ path y = path x.
Proof.
  intros (HA & HF & _) E y. pose proof (vma_find_spec _ _ _ x HA) as HS. rewrite E in HS. destruct HS as (Hv & Hc & Hu).
  destruct (areas_bounds _ _ _ v HA Hv) as (B1 & B2 & B3). rewrite Forall_forall in HF. destruct (HF v Hv) as [V1 V2].
  unfold covers, USER_MMAP_BASE, USER_MMAP_END in *.
  assert (Ey : y = x - x mod 4096) by (unfold y; rewrite align_down_4096 by (red; lia); zlia).
  assert (Hy : start v <= y < vend v) by zlia.
  split; [| split; [unfold window, USER_MMAP_BASE, USER_MMAP_END; lia |]].
  - pose proof (vma_find_spec _ _ _ y HA) as HS. destruct (vma_find (vma_list st) y) as [u |].
    + f_equal. symmetry. by apply HS.
    + by destruct (HS v Hv).
  - split; [done |]. split; [done |]. apply path_eq. f_equal. zlia.
Qed.

(** more pages of the areas mapped, the areas as before *)
Lemma proc_ok_space R D st s F M : proc_ok R D st -> user_space root Kt m0 s F M D ->
  (forall w, window w -> translate (tabs s) root w <> None -> translate (tabs (space st)) root w <> None \/
     exists v, v ∈ vma_list st /\ covers v w) -> proc_ok R D (with_space s st).
Proof.
  intros (HA & HF & Hl & _ & HC) HB HS. split; [done |]. split; [done |]. split; [done |]. split; [by exists F, M |].
  intros w Hw HT. destruct (HS w Hw HT) as [HT' |]; [by apply HC | done].
Qed.

Lemma demand_ok R D st x v : proc_ok R D st -> is_u64 x -> vma_find (vma_list st) x = Some v ->
  exists c st', page_fault_demand x st = Ok (c, st') /\ proc_ok R D st' /\ vma_list st' = vma_list st /\
    (c = -1 /\ (forall w, translate (tabs (space st')) root w = translate (tabs (space st)) root w) \/
     c = 0 /\ (translate (tabs (space st)) root x <> None /\ st' = st \/
       (exists pg, translate (tabs (space st')) root x = Some (pg, user_rights (page_flags (prot v)))) /\
       forall w, path w <> path x -> translate (tabs (space st')) root w = translate (tabs (space st)) root w)).
Proof.
  intros OK Hx E. destruct (find_page R D st x v OK E) as (Ey & Hwin & Hv & Hcov & Ep). set (y := align_down 4096 x) in *.
  pose proof OK as (_ & _ & _ & (F & M & HB) & HC). unfold page_fault_demand. cbv zeta. fold y.
  rewrite (is_mapped_walk _ root (F ++ Kt) (bk_space _ _ _ _ _ _ (us_backed _ _ _ _ _ _ _ HB)) y). cbn [res_bind].
  destruct (walk (tabs (space st)) 4 root (path y)) as [[l e] |] eqn:EW.
  { exists 0, st. split; [done |]. split; [done |]. split; [done |]. right. split; [done |]. left. split; [| done].
    rewrite <- (translate_path _ _ _ _ Ep). unfold translate. by rewrite EW. }
  assert (HN : translate (tabs (space st)) root y = None) by (unfold translate; by rewrite EW).
  assert (Fail : forall s' F' M', user_space root Kt m0 s' F' M' D -> keeps (tabs (space st)) (tabs s') root ->
    proc_ok R D (with_space s' st) /\ forall w, translate (tabs s') root w = translate (tabs (space st)) root w).
  { intros s' F' M' HB' K. split; [| intros w; apply K]. apply (proc_ok_space _ _ _ _ F' M'); [done | done |].
    intros w _. rewrite (keeps_eq _ _ _ _ K). by left. }
  destruct (user_alloc _ _ _ (space st) F M D HB) as (a & p & -> & HR). cbn [res_bind].
  destruct HR as [[-> ->] | [Hf HB1]].
  { destruct (Fail (mk_vm (tabs (space st)) (frames (space st))) F M) as [OK' K'];
      [by destruct (space st) | done |]. eexists _, _. split; [reflexivity |]. split; [done |]. split; [done |]. by left. }
  rewrite (proj2 (Z.eqb_neq a 0)), Ey by (destruct Hf; lia). unfold vmm_map_user.
  destruct (user_map _ _ _ _ F M D y a _ HB1 Hf (window_user _ Hwin) (page_flags_ok (prot v)) HN)
    as (c & s1 & F1 & -> & [(-> & K & HB2) | (-> & HB2 & T & O)]); cbn [res_bind negb Z.eqb].
  { destruct (user_free _ _ _ s1 F1 M a D HB2) as (p2 & -> & HB3). cbn [res_bind].
    destruct (Fail _ _ _ HB3 K) as [OK' K']. eexists _, _. split; [reflexivity |]. split; [done |]. split; [done |]. by left. }
  eexists _, _. split; [reflexivity |]. split.
  { apply (proc_ok_space _ _ _ _ F1 ((path y, a) :: M)); [done | done |]. intros w Hw HT.
    destruct (decide (path w = path y)) as [Ew | Ew]; [right; exists v; split; [done |] | left; by rewrite <- O].
    apply window_path in Ew; [| done | done]. destruct OK as (HA & HF & _). rewrite Forall_forall in HF.
    destruct (HF v Hv). unfold covers in *. zlia. }
  split; [done |]. right. split; [done |]. right. cbn [space with_space]. rewrite <- (translate_path _ _ _ _ Ep), <- Ep. eauto.
Qed.

(** whatever the fault, the invariant is kept *)
Lemma page_fault_ok R D st x ec u : proc_ok R D st -> is_u64 x ->
  exists o st', page_fault_handler x ec (Some (u, st)) = Ok (o, Some (u, st')) /\ proc_ok R D st'.
Proof.
  intros OK Hx. unfold page_fault_handler. destruct (has ec 4); cbn [negb]; [| by exists Exception, st].
  destruct (negb u || _); [by exists Kill, st |].
  destruct (vma_find (vma_list st) x) as [v |] eqn:E; [| by exists Kill, st].
  destruct (has ec 1); cbn [negb]; [by exists Kill, st |].
  destruct (demand_ok R D st x v OK Hx E) as (c & st' & -> & OK' & _). cbn [res_bind]. by eexists _, st'.
Qed.

(** C32: the page-fault handler on a user thread with areas.  A fault of the
    kernel goes to the exception handler.  The thread is resumed only when a
    page was missing at an address of one of its areas and is there now: with
    the rights of the area in a frame of its own if the fault was the first, or
    as it was mapped in the meantime.  Otherwise, for an address outside the
    areas, a violation of rights or lack of memory, the thread is killed with no
    translation changed.  The invariant holds in any case. *)
Theorem page_fault_correct R D st cr2 ec :
  proc_ok R D st -> is_u64 cr2 -> vma_list st <> [] ->
  exists o st', page_fault_handler cr2 ec (Some (true, st)) = Ok (o, Some (true, st')) /\
    proc_ok R D st' /\ vma_list st' = vma_list st /\
    (o = Exception <-> has ec 4 = false) /\
    (o <> Resume -> forall w, translate (tabs (space st')) root w = translate (tabs (space st)) root w) /\
    (o = Resume -> has ec 4 = true /\ has ec 1 = false /\ exists v, vma_find (vma_list st) cr2 = Some v /\
       (translate (tabs (space st)) root cr2 <> None /\ st' = st \/
        (exists pg, translate (tabs (space st')) root cr2 = Some (pg, user_rights (page_flags (prot v)))) /\
        forall w, path w <> path cr2 -> translate (tabs (space st')) root w = translate (tabs (space st)) root w)).
Proof.
  intros OK Hc Hne. unfold page_fault_handler. destruct (has ec 4); cbn [negb]; [| by exists Exception, st].
  replace (match vma_list st with [] => true | _ => false end) with false by (by destruct (vma_list st)). cbn [orb negb].
  destruct (vma_find (vma_list st) cr2) as [v |] eqn:E; [| by exists Kill, st].
  destruct (has ec 1); cbn [negb]; [by exists Kill, st |].
  destruct (demand_ok R D st cr2 v OK Hc E) as (c & st' & -> & OK' & EV & HR). cbn [res_bind].
  destruct HR as [[-> K] | [-> HR]]; cbn [Z.eqb].
  - exists Kill, st'. by split_and!.
  - exists Resume, st'. split_and!; try done. intros _. split_and!; [done | done |]. by exists v.
Qed.

End Calls.

(** ** A process on the small memory of Pmm.v and the small heap of Heap.v *)

#[local] Instance ex_nodes : Allocator (kheap Heap.frames) := heap_allocator (Some 1).

Definition no_words : tables := fun _ _ => 0.

Definition ex_proc : proc (kheap Heap.frames) pmm := mk_proc [] ex_heap ex_space.

Lemma ex_proc_ok : proc_ok ex_root [] no_words [] [] ex_proc.
Proof.
  assert (HN : forall w, translate (tabs ex_space) ex_root w = None) by (intros w; reflexivity).
  assert (HW : forall w, walk (tabs ex_space) 4 ex_root (path w) = None) by (intros w; reflexivity).
  destruct ex_space_ok as [W Hh]. split; [by vm_compute |]. split; [constructor |]. split; [exact ex_live |].
  split; [| intros w _ HT; by rewrite HN in HT]. exists [ex_root], []. split.
  - split; [done | by rewrite app_nil_r | |].
    + intros w pg r _ HT. by rewrite HN in HT.
    + intros w _ l e E. by rewrite HW in E.
  - apply no_largeb_ok. vm_compute. reflexivity.
  - assert (EO : owned 4 (tabs ex_space) ex_root = [ex_root]) by (vm_compute; reflexivity).
    cbn [ex_proc space]. rewrite EO. done.
  - intros u j Hu. by apply not_elem_of_nil in Hu.
Qed.

Lemma do_mmap_correct_witness :
  exists st', do_mmap ex_root 4000 3 0 ex_proc = Ok (USER_MMAP_BASE, st') /\ proc_ok ex_root [] no_words [] [] st' /\
    exists pg, translate (tabs (space st')) ex_root USER_MMAP_BASE = Some (pg, user_rights (page_flags 3)).
Proof.
  assert (C : code (do_mmap ex_root 4000 3 0 ex_proc) = Some USER_MMAP_BASE) by (vm_compute; reflexivity).
  destruct (do_mmap_correct ex_root [] no_words [] [] ex_proc 4000 3 0 ex_proc_ok) as (r & st' & E & OK & HR).
  - vm_compute. split; [discriminate | reflexivity].
  - rewrite E in C. cbn [code] in C. injection C as ->. exists st'. split; [exact E |]. split; [exact OK |].
    destruct HR as [[HR _] | (_ & _ & _ & Hl & _ & _ & _ & HR)]; [discriminate HR |]. apply HR. lia.
Defined.

(** a page mapped at once, and one to be mapped on demand *)
Definition ex_mmap : proc (kheap Heap.frames) pmm := state ex_proc (do_mmap ex_root 4096 3 0 ex_proc).
Definition ex_lazy : proc (kheap Heap.frames) pmm := state ex_proc (do_mmap ex_root 4096 3 256 ex_proc).

Lemma ex_mmap_ok fl : proc_ok ex_root [] no_words [] [] (state ex_proc (do_mmap ex_root 4096 3 fl ex_proc)).
Proof.
  destruct (do_mmap_ok ex_root [] no_words [] [] ex_proc 4096 3 fl ex_proc_ok) as (r & st' & E & OK & _); [by vm_compute |].
  by rewrite E.
Qed.

Lemma do_munmap_correct_witness :
  exists st', do_munmap ex_root (USER_MMAP_BASE + 5) 4000 ex_mmap = Ok (0, st') /\ proc_ok ex_root [] no_words [] [] st' /\
    translate (tabs (space st')) ex_root USER_MMAP_BASE = None.
Proof.
  assert (C : code (do_munmap ex_root (USER_MMAP_BASE + 5) 4000 ex_mmap) = Some 0) by (vm_compute; reflexivity).
  destruct (do_munmap_correct ex_root [] no_words [] [] ex_mmap (USER_MMAP_BASE + 5) 4000 (ex_mmap_ok 0)) as (c & st' & E & OK & HR).
  - vm_compute. split; [discriminate | reflexivity].
  - vm_compute. split; [discriminate | reflexivity].
  - rewrite E in C. cbn [code] in C. injection C as ->. exists st'. split; [exact E |]. split; [exact OK |].
    destruct HR as [[HR _] | (_ & _ & HR & _)]; [discriminate HR |]. apply HR. vm_compute. split; [discriminate | reflexivity].
Defined.

Lemma page_fault_correct_witness :
  exists st' pg, page_fault_handler ex_root (USER_MMAP_BASE + 5) 4 (Some (true, ex_lazy)) = Ok (Resume, Some (true, st')) /\
    translate (tabs (space st')) ex_root (USER_MMAP_BASE + 5) = Some (pg, user_rights (page_flags 3)).
Proof.
  assert (C : match page_fault_handler ex_root (USER_MMAP_BASE + 5) 4 (Some (true, ex_lazy)) with
              | Ok (o, _) => Some o | _ => None end = Some Resume) by (vm_compute; reflexivity).
  assert (T : translate (tabs (space ex_lazy)) ex_root (USER_MMAP_BASE + 5) = None) by (vm_compute; reflexivity).
  destruct (page_fault_correct ex_root [] no_words [] [] ex_lazy (USER_MMAP_BASE + 5) 4 (ex_mmap_ok 256)) as (o & st' & E & _ & _ & _ & _ & HR).
  - vm_compute. split; [discriminate | reflexivity].
  - vm_compute. discriminate.
  - rewrite E in C. injection C as ->. destruct (HR eq_refl) as (_ & _ & v & Ev & HR').
    assert (Hv : prot v = 3) by (vm_compute in Ev; injection Ev as <-; reflexivity).
    destruct HR' as [[HN _] | [(pg & HT) _]]; [destruct (HN T) |]. exists st', pg. rewrite Hv in HT. split; [exact E | exact HT].
Defined.
