(* ===== verification/Syscall.v ===== *)
(** * System calls ([kernel/arch/x86_64/syscall.c])

    The dispatcher over [do_mmap] and [do_munmap] of Mmap.v and [sys_write].
    User memory is a function from addresses to bytes; what a call prints is a
    list of bytes; the addresses that [sys_write] reads are recorded.  Calls that
    end in the scheduler (yield, sleep, exit) are reported as the request they
    make to it; Sched.v models the scheduler.  Entry code, interrupt flags and
    the rescheduling loop on the way out are not part of the model. *)

From stdpp Require Import base list.
From S2P Require Import Prelude Alloc Heap Vma Pmm PageAlloc Vmm VmmSpec PageOwner Mmap.

Definition SYS_WRITE : Z := 1.
Definition SYS_YIELD : Z := 3.
Definition SYS_MMAP : Z := 5.
Definition SYS_MUNMAP : Z := 6.
Definition SYS_SLEEP : Z := 35.
Definition SYS_EXIT : Z := 60.

Definition USER_LIMIT : Z := 0xFFFF800000000000.
Definition SYS_WRITE_CHUNK : Z := 256.

(** ** [sys_write] *)

(** what [kprintf] prints of a chunk with ["%s"]: up to the first NUL *)
Fixpoint c_string (l : list Z) : list Z :=
  match l with
  | [] => []
  | c :: l => if c =? 0 then [] else c :: c_string l
  end.

(** the addresses of [n] bytes from [a] *)
Definition span (a : Z) (n : nat) : list Z := map (fun i => a + Z.of_nat i) (seq 0 n).

Record output := mk_output { printed : list Z; reads : list Z }.

(** the loop over [off]; a chunk is at least one byte, so [count] rounds suffice *)
Fixpoint write_loop (fuel : nat) (mem : Z -> Z) (buf count off : Z) (o : output) : res output :=
  if off <? count then
    match fuel with
    | O => Fault
    | S fuel =>
        let take := Z.min (count - off) (SYS_WRITE_CHUNK - 1) in
        let addrs := span (buf + off) (Z.to_nat take) in
        write_loop fuel mem buf count (off + take)
          (mk_output (printed o ++ c_string (map mem addrs)) (reads o ++ addrs))
    end
  else Ok o.

Definition sys_write (mem : Z -> Z) (fd buf count : Z) : res (Z * output) :=
  let none := mk_output [] [] in
  if negb (fd =? 1) && negb (fd =? 2) then Ok (-1, none)
  else if USER_LIMIT <=? buf then Ok (-1, none)
  else if count =? 0 then Ok (0, none)
  else if PAGE_SIZE <? count then Ok (-1, none)
  else if (u64 (buf + count) <? buf) || (USER_LIMIT <=? u64 (buf + count)) then Ok (-1, none)
  else let! o := write_loop (Z.to_nat count) mem buf count 0 none in Ok (count, o).

(** ** [sys_msleep]: [None] yields, otherwise the ticks to sleep, of [TIMER_HZ] = 100 a second *)

Definition sys_msleep (msec : Z) : option Z :=
  if msec =? 0 then None
  else
    let ticks := u64 (msec * 100) / 1000 in
    Some (if ticks =? 0 then 1 else ticks).

(** ** The dispatcher *)

(** the registers the dispatcher reads *)
Record trap_frame := mk_frame { rax : Z; rdi : Z; rsi : Z; rdx : Z }.

(** what is left to do: return [rax] to the user, or a request to the scheduler *)
Inductive request := Return (rax : Z) | Yield | Sleep (ticks : Z) | Exit (status : Z).

Section Dispatch.
Context {A : Type} `{Allocator A} {P : Type} {PA : PageAllocator P} (root : Z) (mem : Z -> Z).

Definition syscall_handler (regs : trap_frame) (st : proc A P) : res (request * output * proc A P) :=
  let none := mk_output [] [] in
  if rax regs =? SYS_WRITE then
    let! (ret, o) := sys_write mem (i32 (rdi regs)) (rsi regs) (rdx regs) in
    Ok (Return (u64 ret), o, st)
  else if rax regs =? SYS_SLEEP then
    match sys_msleep (rdi regs) with
    | None => Ok (Yield, none, st)
    | Some ticks => Ok (Sleep ticks, none, st)
    end
  else if rax regs =? SYS_YIELD then Ok (Yield, none, st)
  else if rax regs =? SYS_EXIT then Ok (Exit (i32 (rdi regs)), none, st)
  else if rax regs =? SYS_MMAP then
    let! (ret, st) := do_mmap root (rdi regs) (rsi regs) (rdx regs) st in
    Ok (Return (u64 ret), none, st)
  else if rax regs =? SYS_MUNMAP then
    let! (ret, st) := do_munmap root (rdi regs) (rsi regs) st in
    Ok (Return (u64 ret), none, st)
  else Ok (Return (u64 (-1)), none, st).
End Dispatch.

(** ** Lemmas *)

Lemma span_S a n : span a (S n) = a :: span (a + 1) n.
Proof.
  unfold span. cbn [seq map]. rewrite <- seq_shift, map_map. f_equal; [lia |]. apply map_ext. intros i. lia.
Qed.

Lemma span_app a n k : span a (n + k) = span a n ++ span (a + Z.of_nat n) k.
Proof.
  revert a. induction n as [| n IH]; intros a; [by rewrite Z.add_0_r |].
  cbn [Nat.add]. rewrite !span_S, IH. simpl. do 3 f_equal. lia.
Qed.

Lemma span_elem a n x : x ∈ span a n <-> a <= x < a + Z.of_nat n.
Proof.
  unfold span. rewrite list_elem_of_In, in_map_iff. split.
  - intros (i & <- & Hi%in_seq). lia.
  - intros Hx. exists (Z.to_nat (x - a)). split; [lia |]. apply in_seq. lia.
Qed.

Lemma c_string_id l : Forall (fun c => c <> 0) l -> c_string l = l.
Proof. induction 1 as [| c l Hc _ IH]; simpl; [done |]. by rewrite (proj2 (Z.eqb_neq c 0) Hc), IH. Qed.

(** the bytes printed when the chunks start at [off] of [l] *)
Fixpoint chunks (fuel : nat) (l : list Z) : list Z :=
  match fuel, l with
  | O, _ | _, [] => []
  | S fuel, _ => c_string (take 255 l) ++ chunks fuel (drop 255 l)
  end.

Lemma write_loop_ok mem buf count fuel : forall off o, 0 <= off <= count -> count - off <= Z.of_nat fuel ->
  let rest := span (buf + off) (Z.to_nat (count - off)) in
  write_loop fuel mem buf count off o =
    Ok (mk_output (printed o ++ chunks fuel (map mem rest)) (reads o ++ rest)).
Proof.
  induction fuel as [| fuel IH]; intros off o Ho Hf rest; unfold write_loop; fold write_loop.
  { rewrite (proj2 (Z.ltb_ge off count)) by lia. assert (rest = []) as ->
      by (unfold rest; by replace (Z.to_nat (count - off)) with 0%nat by lia).
    simpl. rewrite !app_nil_r. by destruct o. }
  destruct (Z.ltb_spec off count) as [Hlt | Hge].
  2:{ assert (rest = []) as -> by (unfold rest; by replace (Z.to_nat (count - off)) with 0%nat by lia).
      simpl. rewrite !app_nil_r. by destruct o. }
  unfold SYS_WRITE_CHUNK in *. cbv zeta. set (t := Z.min (count - off) (256 - 1)).
  assert (Er : rest = span (buf + off) (Z.to_nat t) ++ span (buf + (off + t)) (Z.to_nat (count - (off + t)))).
  { unfold rest. replace (Z.to_nat (count - off)) with (Z.to_nat t + Z.to_nat (count - (off + t)))%nat by lia.
    rewrite span_app. do 2 f_equal. lia. }
  rewrite IH by lia. cbn [printed reads]. rewrite <- !app_assoc. do 2 f_equal; [f_equal | by rewrite Er].
  assert (Hlen : length rest = Z.to_nat (count - off)) by (unfold rest, span; by rewrite length_map, length_seq).
  destruct rest as [| a r0] eqn:E0; [simpl in Hlen; lia |]. rewrite <- E0 in *. clear E0. rewrite Er. clear Er.
  rewrite map_app. set (h := map mem (span (buf + off) (Z.to_nat t))).
  assert (Hh : length h = Z.to_nat t) by (unfold h, span; by rewrite !length_map, length_seq).
  set (q := map mem (span (buf + (off + t)) (Z.to_nat (count - (off + t))))).
  assert (Hq : (255 <= length h)%nat \/ q = []).
  { destruct (Z.leb_spec 255 (count - off)); [left; lia | right]. unfold q.
    by replace (Z.to_nat (count - (off + t))) with 0%nat by lia. }
  destruct (h ++ q) as [| x l] eqn:E1; [apply app_eq_nil in E1 as [E1 _]; rewrite E1 in Hh; simpl in Hh; lia |].
  cbn [chunks]. rewrite <- E1. clear E1 x l.
  destruct Hq as [Hq | ->].
  - rewrite take_app_le, drop_app_le by lia. rewrite (take_ge h), (drop_ge h) by lia. done.
  - rewrite app_nil_r, (take_ge h), (drop_ge h) by lia. by destruct fuel.
Qed.

Lemma chunks_id fuel l : (length l <= fuel)%nat -> Forall (fun c => c <> 0) l -> chunks fuel l = l.
Proof.
  revert l. induction fuel as [| fuel IH]; intros [| x l] Hl HF; try done; [simpl in Hl; lia |].
  cbn [chunks]. rewrite c_string_id by (by apply Forall_take).
  rewrite IH; [by rewrite take_drop | rewrite length_drop; cbn [length] in *; lia | by apply Forall_drop].
Qed.

Lemma sys_write_ok mem fd buf count :
  is_u64 buf -> is_u64 count ->
  exists ret o, sys_write mem fd buf count = Ok (ret, o) /\
    ((ret = -1 \/ ret = 0 /\ count = 0) /\ printed o = [] /\ reads o = [] \/
     ret = count /\ (fd = 1 \/ fd = 2) /\ 1 <= count <= 4096 /\
     reads o = span buf (Z.to_nat count) /\ (forall a, a ∈ reads o -> buf <= a < USER_LIMIT) /\
     printed o = chunks (Z.to_nat count) (map mem (reads o)) /\
     (Forall (fun c => c <> 0) (map mem (reads o)) -> printed o = map mem (reads o))).
Proof.
  unfold is_u64. intros Hb Hc. unfold sys_write. cbv zeta.
  destruct (Z.eqb_spec fd 1), (Z.eqb_spec fd 2); cbn [negb andb]; try (eexists _, _; split; [reflexivity | by left; auto]).
  all: destruct (Z.leb_spec USER_LIMIT buf); [eexists _, _; split; [reflexivity | by left; auto] |].
  all: destruct (Z.eqb_spec count 0); [eexists _, _; split; [reflexivity | by left; auto] |].
  all: destruct (Z.ltb_spec PAGE_SIZE count); [eexists _, _; split; [reflexivity | by left; auto] |].
  all: unfold USER_LIMIT, PAGE_SIZE in *.
  all: rewrite (u64_small (buf + count)) by (red; lia).
  all: destruct (_ || _) eqn:E; [eexists _, _; split; [reflexivity | by left; auto] |].
  all: apply orb_false_iff in E as [_ E%Z.leb_gt].
  all: rewrite write_loop_ok by lia; cbn [res_bind printed reads]; rewrite !app_nil_l, Z.add_0_r, Z.sub_0_r.
  all: eexists _, _; split; [reflexivity | right]; cbn [printed reads].
  all: split; [done |]; split; [lia |]; split; [lia |]; split; [done |].
  all: split; [intros a Ha%span_elem; lia |]; split; [done |]; intros HF; apply chunks_id; [| done].
  all: unfold span; by rewrite !length_map, length_seq.
Qed.

(** [sys_write] on any arguments returns -1 or 0 without reading user memory
    or printing, or reads exactly the [count] bytes of the buffer, each once and
    in order, all below the user limit, prints the buffer up to the first NUL of
    each chunk, the whole of it when it has no NUL, and returns [count]; the
    loop ends. *)
Lemma sys_write_correct mem fd buf count :
  is_u64 buf -> is_u64 count ->
  exists ret o, sys_write mem fd buf count = Ok (ret, o) /\
    ((ret = -1 \/ ret = 0 /\ count = 0) /\ printed o = [] /\ reads o = [] \/
     ret = count /\ (fd = 1 \/ fd = 2) /\ 1 <= count <= 4096 /\
     reads o = span buf (Z.to_nat count) /\ (forall a, a ∈ reads o -> buf <= a < USER_LIMIT) /\
     printed o = chunks (Z.to_nat count) (map mem (reads o)) /\
     (Forall (fun c => c <> 0) (map mem (reads o)) -> printed o = map mem (reads o))).
Proof. exact (sys_write_ok mem fd buf count). Qed.

Lemma sys_write_correct_witness :
  exists o, sys_write (fun a => if a =? 5000 then 72 else 105) 1 5000 2 = Ok (2, o) /\ printed o = [72; 105].
Proof.
  destruct (sys_write_correct (fun a => if a =? 5000 then 72 else 105) 1 5000 2) as (ret & o & E & HR).
  - vm_compute. split; [discriminate | reflexivity].
  - vm_compute. split; [discriminate | reflexivity].
  - destruct HR as [(HR & _) | (-> & _ & _ & Er & _ & _ & HP)].
    + vm_compute in E. injection E as <- <-. destruct HR as [HR | [HR _]]; discriminate HR.
    + exists o. split; [exact E |]. rewrite Er in HP. apply HP.
      repeat (apply Forall_cons; split; [vm_compute; discriminate |]). apply Forall_nil; exact I.
Defined.

(** ** No system call breaks the process *)

Section Safety.
Context {A : Type} `{Allocator A} {P : Type} {PA : PageAllocator P} (root : Z) (mem : Z -> Z).
Context (Kt : list Z) (m0 : tables).

Definition frame_ok (regs : trap_frame) : Prop :=
  is_u64 (rax regs) /\ is_u64 (rdi regs) /\ is_u64 (rsi regs) /\ is_u64 (rdx regs).

(** how a user program enters the kernel *)
Inductive trap := Call (regs : trap_frame) | PageFault (cr2 ec : Z).
Definition trap_ok (t : trap) : Prop := match t with Call regs => frame_ok regs | PageFault cr2 _ => is_u64 cr2 end.

(** a user program: system calls and page faults, one after the other *)
Fixpoint run_traps (traps : list trap) (st : proc A P) : res (proc A P) :=
  match traps with
  | [] => Ok st
  | Call regs :: traps => let! (_, _, st) := syscall_handler root mem regs st in run_traps traps st
  | PageFault cr2 ec :: traps =>
      let! (_, cur) := page_fault_handler root cr2 ec (Some (true, st)) in
      match cur with Some (_, st) => run_traps traps st | None => Fault end
  end.

Lemma syscall_ok R D regs st : frame_ok regs -> proc_ok root Kt m0 R D st ->
  exists q o st', syscall_handler root mem regs st = Ok (q, o, st') /\ proc_ok root Kt m0 R D st'.
Proof.
  intros (H1 & H2 & H3 & H4) OK. unfold syscall_handler. cbv zeta.
  destruct (_ =? SYS_WRITE).
  { destruct (sys_write_ok mem (i32 (rdi regs)) (rsi regs) (rdx regs) H3 H4) as (ret & o & -> & _). by eexists _, _, st. }
  destruct (_ =? SYS_SLEEP); [destruct (sys_msleep _); by eexists _, _, st |].
  destruct (_ =? SYS_YIELD); [by eexists _, _, st |].
  destruct (_ =? SYS_EXIT); [by eexists _, _, st |].
  destruct (_ =? SYS_MMAP).
  { destruct (do_mmap_ok root Kt m0 R D st (rdi regs) (rsi regs) (rdx regs) OK) as (r & st' & -> & OK' & _); [done |].
    by eexists _, _, st'. }
  destruct (_ =? SYS_MUNMAP); [| by eexists _, _, st].
  destruct (do_munmap_ok root Kt m0 R D st (rdi regs) (rsi regs) OK H2 H3) as (c & st' & -> & OK' & _).
  by eexists _, _, st'.
Qed.

Lemma run_traps_ok R D traps st : Forall trap_ok traps -> proc_ok root Kt m0 R D st ->
  exists st', run_traps traps st = Ok st' /\ proc_ok root Kt m0 R D st'.
Proof.
  intros HF. revert st. induction HF as [| [regs | x ec] traps Hx _ IH]; intros st OK; cbn [run_traps]; [by exists st | |].
  - destruct (syscall_ok R D regs st Hx OK) as (q & o & st' & -> & OK'). by apply IH.
  - destruct (page_fault_ok root Kt m0 R D st x ec true OK Hx) as (o & st' & -> & OK'). by apply IH.
Qed.

End Safety.

#[local] Existing Instance ex_nodes.

(** a program that maps a page and a lazy range, touches the range, and unmaps the page *)
Definition ex_calls : list trap :=
  [Call (mk_frame 5 4096 3 0); Call (mk_frame 5 8192 1 256); PageFault 67112960 4; Call (mk_frame 6 67108864 4096 0)].

