(* ===== verification/ModuleAlloc.v ===== *)
(** * Memory for modules ([kernel/module_alloc.c], [kernel/module_alloc.h])

    A bump allocator in a region of kernel addresses, whose pages are mapped in
    the kernel space as the bump pointer passes them, with checkpoints to undo the
    allocations of a load that failed. *)

From stdpp Require Import base list.
From S2P Require Import Prelude Pmm PageAlloc Vmm VmmWalk VmmOwned VmmSpec VmmSpace PageOwner.

(** ** Data *)

Definition MODULE_REGION_SIZE : Z := 0x40000000.
(** [arch_module_alloc_base] *)
Definition MODULE_REGION_DEFAULT_BASE : Z := 0xffffffffc0000000.

(** the static variables: the next address, the bound of what is mapped, and the
    region's first and last address *)
Record module_area := mk_area { module_brk : Z; module_mapped : Z; module_base : Z; module_max : Z }.

Record checkpoint := mk_checkpoint { cp_brk : Z; cp_mapped : Z }.

Definition module_alloc_init : module_area :=
  mk_area MODULE_REGION_DEFAULT_BASE MODULE_REGION_DEFAULT_BASE MODULE_REGION_DEFAULT_BASE (u64 (u64 (MODULE_REGION_DEFAULT_BASE + MODULE_REGION_SIZE) - 1)).

Definition module_region_contains (m : module_area) (address : Z) : bool :=
  (module_base m <=? address) && (address <=? module_max m).

Definition module_alloc_checkpoint (m : module_area) : checkpoint := mk_checkpoint (module_brk m) (module_mapped m).

Section Ops.
Context {P : Type} {PA : PageAllocator P}.
(** [kernel_pml4] *)
Context (root : Z).

Definition set_mapped (x : Z) (m : module_area) : module_area := mk_area (module_brk m) x (module_base m) (module_max m).
Definition set_brk (x : Z) (m : module_area) : module_area := mk_area x (module_mapped m) (module_base m) (module_max m).

(** the loop of [module_expand_to]; [n] bounds its iterations *)
Fixpoint module_expand_loop (n : nat) (target_aligned : Z) (m : module_area) (s : vm P) : res (bool * module_area * vm P) :=
  if negb (module_mapped m <? target_aligned) then Ok (true, m, s)
  else
    match n with
    | O => Fault
    | S n =>
        if u64 (module_max m - 4095) <? module_mapped m then Ok (false, m, s)
        else
          let! (phys, p) := page_alloc (frames s) in
          let s := mk_vm (tabs s) p in
          if phys =? 0 then Ok (false, m, s)
          else
            let! (_, s) := vmm_map root (module_mapped m) phys (Z.lor PTE_PRESENT PTE_WRITABLE) s in
            module_expand_loop n target_aligned (set_mapped (u64 (module_mapped m + 4096)) m) s
    end.

Definition module_expand_to (target : Z) (m : module_area) (s : vm P) : res (bool * module_area * vm P) :=
  let target_aligned := align_down 4096 (u64 (target + 4095)) in
  module_expand_loop (Z.to_nat ((target_aligned - module_mapped m + 4095) / 4096)) target_aligned m s.

(** the result is the address, 0 for NULL *)
Definition module_alloc (size : Z) (m : module_area) (s : vm P) : res (Z * module_area * vm P) :=
  if size =? 0 then Ok (0, m, s)
  else
    let need := align_down 16 (u64 (size + 15)) in
    let addr := module_brk m in
    if (need =? 0) || (u64 (module_max m - addr) <? need - 1) then Ok (0, m, s)
    else
      let next := u64 (addr + need) in
      let! (b, m, s) := module_expand_to next m s in
      if b then Ok (addr, set_brk next m, s) else Ok (0, m, s).

(** the loop of [module_alloc_rollback] over [va] *)
Fixpoint rollback_loop (n : nat) (va unmap_end : Z) (s : vm P) : res (vm P) :=
  match n with
  | O => Ok s
  | S n =>
      if negb (va <? unmap_end) then Ok s
      else
        let! phys := vmm_get_phys (tabs s) root va in
        let! s :=
          if phys =? 0 then Ok s
          else
            let! (_, m) := vmm_unmap (tabs s) root va in
            let! p := page_free phys (frames s) in
            Ok (mk_vm m p) in
        rollback_loop n (u64 (va + 4096)) unmap_end s
  end.

Definition module_alloc_rollback (c : checkpoint) (m : module_area) (s : vm P) : res (module_area * vm P) :=
  if (cp_brk c <? module_base m) || (module_brk m <? cp_brk c) || (cp_mapped c <? module_base m) ||
     (module_mapped m <? cp_mapped c) || (cp_mapped c <? cp_brk c) then Ok (m, s)
  else
    let! s := rollback_loop (Z.to_nat ((module_mapped m - cp_mapped c + 4095) / 4096)) (cp_mapped c) (module_mapped m) s in
    Ok (mk_area (cp_brk c) (cp_mapped c) (module_base m) (module_max m), s).
End Ops.

(** ** The region *)

Definition module_range (w : Z) : Prop := MODULE_REGION_DEFAULT_BASE <= w < 18446744073709551616.

(** the first address of the region's last page *)
Definition MODULE_LAST_PAGE : Z := 0xfffffffffffff000.

Definition MODULE_FLAGS : Z := Z.lor PTE_PRESENT PTE_WRITABLE.

Definition area_ok (m : module_area) : Prop :=
  module_base m = MODULE_REGION_DEFAULT_BASE /\ module_max m = UINT64_MAX /\
  MODULE_REGION_DEFAULT_BASE <= module_brk m <= module_mapped m /\ module_mapped m <= MODULE_LAST_PAGE /\
  module_mapped m mod 4096 = 0 /\ module_brk m mod 16 = 0.

Lemma module_same_page x y : module_range x -> module_range y -> path x = path y <-> x / 4096 = y / 4096.
Proof. unfold module_range, MODULE_REGION_DEFAULT_BASE. intros Hx Hy. rewrite path_eq. zlia. Qed.

(** the page [va] and the pages after it *)
Lemma module_page_or x va : module_range x -> module_range va -> va mod 4096 = 0 -> va <= x ->
  path x = path va \/ va + 4096 <= x.
Proof. intros Hx Hva Ha Hle. rewrite module_same_page by done. unfold module_range in *. zlia. Qed.

(** an address shares a page with one of [a, b), or with none of them *)
Lemma page_between a b w : MODULE_REGION_DEFAULT_BASE <= a -> b <= MODULE_LAST_PAGE -> a mod 4096 = 0 -> b mod 4096 = 0 ->
  (exists x, a <= x < b /\ path x = path w) \/ (forall x, a <= x < b -> path x <> path w).
Proof.
  unfold MODULE_REGION_DEFAULT_BASE, MODULE_LAST_PAGE. intros Ha Hb Ha' Hb'.
  set (y := (4503530907893760 + w / 4096 mod 68719476736) * 4096).
  assert (Hy : y / 4096 mod 68719476736 = w / 4096 mod 68719476736) by (unfold y; zlia).
  assert (Hr : 18446462598732840960 <= y < 18446744073709551616) by (unfold y; zlia).
  assert (Hd : (a <=? y) && (y <? b) = true \/ (a <=? y) && (y <? b) = false) by (destruct (_ && _); auto).
  destruct Hd as [Hd | Hd]; [left; exists y | right].
  - split; [zbool; simpl in Hd; done || lia |]. by apply path_eq.
  - intros x Hx Ex. apply path_eq in Ex. rewrite <- Hy in Ex. assert (x / 4096 = y / 4096) by zlia.
    assert (a <= y < b) by zlia. rewrite (proj2 (Z.leb_le a y)), (proj2 (Z.ltb_lt y b)) in Hd by lia. done.
Qed.

Lemma module_flags_ok : PTE_FLAGS MODULE_FLAGS.
Proof. by vm_compute. Qed.

Section Correct.
Context {P : Type} {PA : PageAllocator P} (root : Z).
Implicit Types (s : vm P) (m : module_area) (F D N : list Z) (M : list (list Z * Z)).

(** The frames behind the region are [M] and nothing else of the region is mapped;
    the tables are in the frames [F]; the frames [D] belong to others or are lost. *)
Record module_space m s F M D : Prop := {
  ms_area : area_ok m;
  ms_backed : backed root module_range s F M D;
  ms_below w pg r : module_range w -> translate (tabs s) root w = Some (pg, r) ->
    w < module_mapped m /\ r = Z.land MODULE_FLAGS RIGHTS;
  ms_exact p pg : (p, pg) ∈ M -> exists w r, module_range w /\ path w = p /\ translate (tabs s) root w = Some (pg, r) }.

(** every page below the bound is mapped *)
Definition complete m s : Prop := forall x, module_range x -> x < module_mapped m -> translate (tabs s) root x <> None.

(** nothing outside the pages of [a, b) has changed *)
Definition only_pages (a b : Z) s s' : Prop :=
  forall w, (forall x, a <= x < b -> path x <> path w) -> translate (tabs s') root w = translate (tabs s) root w.

Lemma only_pages_trans a b c s1 s2 s3 : a <= b <= c -> only_pages a b s1 s2 -> only_pages b c s2 s3 -> only_pages a c s1 s3.
Proof. intros H H1 H2 w Hw. rewrite H2, H1; [done | |]; intros x Hx; apply Hw; lia. Qed.

(** one more page *)
Lemma module_map_page m s F M D pa : module_space m s F M (pa :: D) -> frame pa -> module_mapped m < MODULE_LAST_PAGE ->
  let m' := set_mapped (module_mapped m + 4096) m in
  exists c s' F' M' N, vmm_map root (module_mapped m) pa MODULE_FLAGS s = Ok (c, s') /\ module_space m' s' F' M' (N ++ D) /\
    only_pages (module_mapped m) (module_mapped m') s s' /\ (c = 0 /\ N = [] /\ (complete m s -> complete m' s') \/ c = -1 /\ N = [pa]).
Proof.
  intros [HA HB Hlo Hex] Hpa Hlt m'. pose proof HA as (Eb & Em & Hbm & Hmx & Ha & Hb16). unfold MODULE_LAST_PAGE in *.
  assert (Hr : module_range (module_mapped m)) by (unfold module_range, MODULE_REGION_DEFAULT_BASE in *; lia).
  assert (HT : translate (tabs s) root (module_mapped m) = None).
  { destruct (translate _ _ _) as [[pg r] |] eqn:E; [| done]. destruct (Hlo _ _ _ Hr E). lia. }
  assert (HA' : area_ok m').
  { unfold area_ok, m', set_mapped, MODULE_LAST_PAGE. cbn [module_brk module_mapped module_base module_max]. repeat split; try done; zlia. }
  destruct (backed_map _ _ s F M D (module_mapped m) pa MODULE_FLAGS HB Hpa) as (c & s' & N & E & _ & R);
    [unfold module_range, MODULE_REGION_DEFAULT_BASE in Hr; red; lia | apply module_flags_ok | done |].
  assert (Hm' : module_mapped m' = module_mapped m + 4096) by done.
  destruct R as [(-> & K & HB' & _) | (-> & HB' & HT' & O & _)].
  - exists (-1), s', (N ++ F), M, [pa]. split; [done |]. split.
    + split; [done | done | |].
      * intros w pg r Hw. rewrite (keeps_eq _ _ _ _ K), Hm'. intros Ew. destruct (Hlo w pg r Hw Ew). lia.
      * intros p pg Hin. destruct (Hex p pg Hin) as (w & r & Hw & Ep & Ew). exists w, r. by rewrite (keeps_eq _ _ _ _ K).
    + split; [| by right]. intros w _. apply (keeps_eq _ _ _ _ K).
  - exists 0, s', (N ++ F), ((path (module_mapped m), pa) :: M), []. split; [done |]. split; [split; [done | done | |] | split; [| left]].
    + intros w pg r Hw. rewrite Hm'. destruct (decide (path w = path (module_mapped m))) as [Ew | Ew].
      * rewrite (translate_path _ _ _ _ Ew), HT'. intros [= _ <-]. apply module_same_page in Ew; [| done | done].
        split; [zlia | done].
      * rewrite O by done. intros Ew'. destruct (Hlo w pg r Hw Ew'). lia.
    + intros p pg [[= -> ->] | Hin]%elem_of_cons; [by eexists _, _ |].
      destruct (Hex p pg Hin) as (w & r & Hw & Ep & Ew). exists w, r. split; [done |]. split; [done |]. rewrite O; [done |].
      intros En. by rewrite (translate_path _ _ _ _ En), HT in Ew.
    + intros w Hw. apply O. intros Ew. apply (Hw (module_mapped m)); [lia | done].
    + split; [done |]. split; [done |]. intros Hc x Hx Hlx. destruct (decide (path x = path (module_mapped m))) as [Ex | Ex].
      * by rewrite (translate_path _ _ _ _ Ex), HT'.
      * rewrite O by done. apply Hc; [done |]. destruct (Z.lt_ge_cases x (module_mapped m)); [done |].
        destruct (module_page_or x (module_mapped m) Hx Hr Ha) as [? | ?]; [lia | done | lia].
Qed.

Lemma module_expand_loop_ok n T m s F M D : module_space m s F M D -> T mod 4096 = 0 -> T <= MODULE_LAST_PAGE ->
  T <= module_mapped m + 4096 * Z.of_nat n ->
  exists b m' s' F' M' N, module_expand_loop root n T m s = Ok (b, m', s') /\ module_space m' s' F' M' (N ++ D) /\
    module_brk m' = module_brk m /\ module_mapped m <= module_mapped m' /\ only_pages (module_mapped m) (module_mapped m') s s' /\
    (b = true -> T <= module_mapped m') /\ (N = [] -> complete m s -> complete m' s').
Proof.
  revert m s F M D. induction n as [| n IH]; intros m s F M D HS HT Hmax Hn; cbn [module_expand_loop];
    (destruct (Z.ltb_spec (module_mapped m) T) as [Hlt | Hge]; cbn [negb];
      [| by exists true, m, s, F, M, []; split_and!]).
  - lia.
  - pose proof (ms_area _ _ _ _ _ HS) as (Eb & Em & Hbm & Hmx & Ha & Hb16). rewrite Em. unfold MODULE_LAST_PAGE in Hmax.
    change (u64 (UINT64_MAX - 4095)) with MODULE_LAST_PAGE. rewrite (proj2 (Z.ltb_ge _ _)) by done.
    destruct (backed_alloc _ _ s F M D (ms_backed _ _ _ _ _ HS)) as (pa & p & -> & R). cbn [res_bind].
    destruct R as [[-> ->] | [Hpa HB]].
    { replace (mk_vm (tabs s) (frames s)) with s by (by destruct s). cbn [Z.eqb].
      by exists false, m, s, F, M, []; split_and!. }
    rewrite (proj2 (Z.eqb_neq pa 0)) by (destruct Hpa; lia).
    assert (HS1 : module_space m (mk_vm (tabs s) p) F M (pa :: D)) by (destruct HS; split; done).
    unfold MODULE_LAST_PAGE, MODULE_REGION_DEFAULT_BASE in *.
    destruct (module_map_page m _ F M D pa HS1 Hpa) as (c & s1 & F1 & M1 & N1 & E & HS2 & O1 & R1); [unfold MODULE_LAST_PAGE; zlia |].
    change (Z.lor PTE_PRESENT PTE_WRITABLE) with MODULE_FLAGS. rewrite E. cbn [res_bind].
    rewrite u64_small by (red; lia).
    destruct (IH _ s1 F1 M1 (N1 ++ D) HS2 HT) as (b & m' & s' & F' & M' & N & -> & HS' & Eb' & Hle & O & Hb & Hc).
    { unfold MODULE_LAST_PAGE. lia. }
    { cbn [set_mapped module_mapped]. lia. }
    cbn [set_mapped module_mapped module_brk] in *.
    exists b, m', s', F', M', (N ++ N1). split_and!; try done; [by rewrite <- app_assoc | lia | |].
    + eapply only_pages_trans; [| exact O1 | exact O]. lia.
    + intros [-> ->]%app_eq_nil Hcs. destruct R1 as [(_ & _ & Hc1) | (_ & ?)]; [| done]. by apply Hc, Hc1.
Qed.

(** the block [module_alloc] returns *)
Definition allocated (size p : Z) m m' : Prop :=
  p = 0 /\ module_brk m' = module_brk m \/
  p = module_brk m /\ p mod 16 = 0 /\ p + size <= module_brk m' < p + size + 16.

Lemma align16 z : 0 <= z < 18446744073709551600 -> align_down 16 (u64 (z + 15)) = (z + 15) / 16 * 16.
Proof.
  intros Hz. unfold align_down. rewrite u64_small by (red; lia). change (16 - 1) with (2 ^ 4 - 1).
  rewrite land_lnot_ones by (lia || (red; lia)). change (2 ^ 4) with 16. zlia.
Qed.

Lemma align4096 z : 0 <= z <= 18446744073709547520 -> align_down 4096 (u64 (z + 4095)) = (z + 4095) / 4096 * 4096.
Proof.
  intros Hz. unfold align_down. rewrite u64_small by (red; lia). change (4096 - 1) with (2 ^ 12 - 1).
  rewrite land_lnot_ones by (lia || (red; lia)). change (2 ^ 12) with 4096. zlia.
Qed.

Lemma module_alloc_ok size m s F M D : module_space m s F M D -> 0 <= size -> module_brk m + size <= MODULE_LAST_PAGE ->
  exists p m' s' F' M' N, module_alloc root size m s = Ok (p, m', s') /\ module_space m' s' F' M' (N ++ D) /\
    module_mapped m <= module_mapped m' /\ module_brk m <= module_brk m' /\ only_pages (module_mapped m) (module_mapped m') s s' /\
    (N = [] -> complete m s -> complete m' s') /\ allocated size p m m'.
Proof.
  intros HS H0 Hfit. unfold module_alloc. destruct (Z.eqb_spec size 0) as [-> | Hs].
  { exists 0, m, s, F, M, []. split_and!; try done. by left. }
  pose proof (ms_area _ _ _ _ _ HS) as (Eb & Em & Hbm & Hmx & Ha & Hb16).
  unfold MODULE_LAST_PAGE, MODULE_REGION_DEFAULT_BASE in *. rewrite align16 by lia. set (need := (size + 15) / 16 * 16).
  assert (Hneed : size <= need < size + 16) by (unfold need; zlia).
  assert (Hn16 : need mod 16 = 0) by (unfold need; apply Z.mod_mul; lia).
  rewrite (proj2 (Z.eqb_neq need 0)), Em, u64_small, (proj2 (Z.ltb_ge _ _)) by (lia || (red; lia)). cbn [orb].
  assert (Hnext : module_brk m + need <= 0xfffffffffffff000) by zlia.
  rewrite u64_small by (red; lia). unfold module_expand_to. rewrite align4096 by lia.
  set (T := (module_brk m + need + 4095) / 4096 * 4096).
  assert (HTm : T mod 4096 = 0) by (unfold T; apply Z.mod_mul; lia).
  assert (HTb : module_brk m + need <= T <= 0xfffffffffffff000) by (unfold T; zlia).
  destruct (module_expand_loop_ok (Z.to_nat ((T - module_mapped m + 4095) / 4096)) T m s F M D HS HTm)
    as (b & m' & s' & F' & M' & N & -> & HS' & Ebr & Hle & O & Hb & Hc); [unfold MODULE_LAST_PAGE; lia | zlia |].
  cbn [res_bind]. destruct b.
  - specialize (Hb eq_refl). pose proof (ms_area _ _ _ _ _ HS') as (Eb' & Em' & Hbm' & Hmx' & Ha' & _).
    exists (module_brk m), (set_brk (module_brk m + need) m'), s', F', M', N. cbn [set_brk module_mapped module_brk].
    split; [done |]. split.
    { destruct HS'. split; [| done | done | done]. unfold area_ok, MODULE_REGION_DEFAULT_BASE in *. cbn [set_brk module_mapped module_brk module_base module_max].
      repeat split; try done; zlia. }
    split_and!; try done; [lia |]. right. cbn [set_brk module_brk]. split; [done |]. split; [done |]. lia.
  - exists 0, m', s', F', M', N. split_and!; try done; [lia |]. left. done.
Qed.

(** one page less, if it is mapped *)
Lemma rollback_page va s F M D : backed root module_range s F M D ->
  (forall w pg r, module_range w -> translate (tabs s) root w = Some (pg, r) -> r = Z.land MODULE_FLAGS RIGHTS) ->
  (forall p pg, (p, pg) ∈ M -> exists w r, module_range w /\ path w = p /\ translate (tabs s) root w = Some (pg, r)) ->
  module_range va ->
  exists s' M',
    (let! phys := vmm_get_phys (tabs s) root va in
     if phys =? 0 then Ok s
     else let! (_, m) := vmm_unmap (tabs s) root va in let! p := page_free phys (frames s) in Ok (mk_vm m p)) = Ok s' /\
    backed root module_range s' F M' D /\ translate (tabs s') root va = None /\
    (forall w, path w <> path va -> translate (tabs s') root w = translate (tabs s) root w) /\
    (forall p pg, (p, pg) ∈ M' -> exists w r, module_range w /\ path w = p /\ translate (tabs s') root w = Some (pg, r)).
Proof.
  intros HB Hr Hex Hva. assert (Hv64 : is_u64 va) by (unfold module_range, MODULE_REGION_DEFAULT_BASE in Hva; red; lia).
  pose proof (bk_space _ _ _ _ _ _ HB) as W. pose proof (bk_fine _ _ _ _ _ _ HB va Hva) as Hf.
  assert (Hroot : root <= 140737488355327).
  { destruct (ws_table _ _ _ W [] root) as (_ & [Hroot _] & _); [split; [constructor | simpl; lia] | done | lia]. }
  destruct (backed_unmap _ _ s F M D va HB Hva Hv64) as (c & m' & E & T & O & _ & _ & R).
  destruct (translate (tabs s) root va) as [[pg r] |] eqn:ET.
  - destruct R as (M' & EM & HB').
    rewrite (get_phys_exact _ _ F W va Hv64 pg r Hroot Hf ET) by (rewrite (Hr va pg r Hva ET); done). cbn [res_bind].
    destruct (backed_frame _ _ _ _ _ _ _ _ _ HB Hva ET) as [[Hpg _] _]. rewrite (proj2 (Z.eqb_neq pg 0)), E by lia. cbn [res_bind].
    destruct (backed_free _ _ _ F M' pg D HB') as (p & E' & HB2). cbn [with_tabs frames tabs] in E', HB2. rewrite E'. cbn [res_bind].
    exists (mk_vm m' p), M'. split; [done |]. split; [done |]. split; [done |]. split; [done |]. cbn [tabs].
    intros q pg' Hin. destruct (Hex q pg') as (w & r' & Hw & Eq & Ew); [rewrite EM; by right |]. exists w, r'. split; [done |]. split; [done |].
    rewrite O; [done |]. intros En. rewrite (translate_path _ _ _ _ En), ET in Ew. injection Ew as -> _. rewrite <- Eq, En in Hin.
    destruct (held_frames _ _ (bk_held _ _ _ _ _ _ HB)) as [HN _]. rewrite EM in HN. apply NoDup_app in HN as (_ & _ & HN).
    rewrite fmap_cons in HN. apply NoDup_app in HN as (HN & _ & _). apply NoDup_cons in HN as [HN _]. apply HN.
    apply list_elem_of_fmap. by exists (path va, pg').
  - destruct (get_phys_walk _ root F W va Hv64 Hroot) as (raw & -> & Rr). cbn [res_bind].
    assert (raw = 0) as ->.
    { unfold translate in ET. destruct (walk _ _ _ _) as [[l e] |]; [done | exact Rr]. }
    exists s, M. split_and!; done.
Qed.

Lemma rollback_loop_ok n va e s F M D : backed root module_range s F M D ->
  (forall w pg r, module_range w -> translate (tabs s) root w = Some (pg, r) -> r = Z.land MODULE_FLAGS RIGHTS) ->
  (forall p pg, (p, pg) ∈ M -> exists w r, module_range w /\ path w = p /\ translate (tabs s) root w = Some (pg, r)) ->
  MODULE_REGION_DEFAULT_BASE <= va -> va <= e <= MODULE_LAST_PAGE -> va mod 4096 = 0 -> e mod 4096 = 0 ->
  e <= va + 4096 * Z.of_nat n ->
  exists s' M', rollback_loop root n va e s = Ok s' /\ backed root module_range s' F M' D /\ only_pages va e s s' /\
    (forall w, va <= w < e -> translate (tabs s') root w = None) /\
    (forall p pg, (p, pg) ∈ M' -> exists w r, module_range w /\ path w = p /\ translate (tabs s') root w = Some (pg, r)).
Proof.
  revert va s M. induction n as [| n IH]; intros va s M HB Hr Hex Hlo Hhi Hva He Hn; cbn [rollback_loop].
  - exists s, M. split_and!; try done. intros w Hw. lia.
  - destruct (Z.ltb_spec va e) as [Hlt | Hge]; cbn [negb]; [| exists s, M; split_and!; try done; intros w Hw; lia].
    unfold MODULE_LAST_PAGE in Hhi. assert (Rva : module_range va) by (unfold module_range; lia).
    destruct (rollback_page va s F M D HB Hr Hex Rva) as (s1 & M1 & E & HB1 & T1 & O1 & Hex1).
    destruct (vmm_get_phys (tabs s) root va) as [phys | |]; [| done | done]. cbn [res_bind] in E |- *.
    set (step := (if phys =? 0 then _ else _)) in *. destruct step as [s1' | |]; [| done | done]. injection E as ->. cbn [res_bind].
    unfold MODULE_REGION_DEFAULT_BASE in Hlo. rewrite u64_small by (red; lia).
    destruct (IH (va + 4096) s1 M1 HB1) as (s' & M' & -> & HB' & O' & T' & Hex'); [| done | | | | done | |];
      try (unfold MODULE_REGION_DEFAULT_BASE, MODULE_LAST_PAGE; zlia).
    { intros w pg r Hw Ew. destruct (decide (path w = path va)) as [En | En]; [by rewrite (translate_path _ _ _ _ En), T1 in Ew |].
      rewrite O1 in Ew by done. by eapply Hr. }
    exists s', M'. split; [done |]. split; [done |]. split; [| split; [| done]].
    + intros w Hw. rewrite O' by (intros x Hx; apply Hw; lia). apply O1. intros En. by apply (Hw va); [lia |].
    + intros w Hw. assert (Rw : module_range w) by (unfold module_range, MODULE_REGION_DEFAULT_BASE; lia).
      destruct (module_page_or w va Rw Rva Hva) as [En | ?]; [lia | | apply T'; lia].
      rewrite O', (translate_path _ _ _ _ En); [done |]. intros x Hx Ex. rewrite En in Ex.
      apply module_same_page in Ex; [zlia | unfold module_range, MODULE_REGION_DEFAULT_BASE; lia | done].
Qed.

(** undoing what happened since the state ([m], [s]) *)
Lemma module_rollback_ok m s F M D m' s' F' M' D' : module_space m s F M D -> module_space m' s' F' M' D' ->
  module_brk m <= module_brk m' -> module_mapped m <= module_mapped m' -> only_pages (module_mapped m) (module_mapped m') s s' ->
  exists s'', module_alloc_rollback root (module_alloc_checkpoint m) m' s' = Ok (m, s'') /\ module_space m s'' F' M D' /\
    (forall w, translate (tabs s'') root w = translate (tabs s) root w).
Proof.
  intros HS HS' Hb Hm O. pose proof (ms_area _ _ _ _ _ HS) as (Eb & Em & Hbm & Hmx & Ha & _).
  pose proof (ms_area _ _ _ _ _ HS') as (Eb' & Em' & Hbm' & Hmx' & Ha' & _).
  unfold module_alloc_rollback, module_alloc_checkpoint. cbn [cp_brk cp_mapped]. rewrite Eb'.
  rewrite !(proj2 (Z.ltb_ge _ _)) by lia. cbn [orb].
  destruct (rollback_loop_ok (Z.to_nat ((module_mapped m' - module_mapped m + 4095) / 4096)) (module_mapped m) (module_mapped m')
    s' F' M' D' (ms_backed _ _ _ _ _ HS')) as (s'' & M'' & -> & HB & O' & T & Hex); try (done || lia || zlia).
  { intros w pg r Hw Ew. by apply (ms_below _ _ _ _ _ HS' w pg r). }
  { apply (ms_exact _ _ _ _ _ HS'). }
  cbn [res_bind].
  assert (Eq : forall w, translate (tabs s'') root w = translate (tabs s) root w).
  { intros w. destruct (page_between (module_mapped m) (module_mapped m') w ltac:(lia) Hmx' Ha Ha') as [(x & Hx & Ex) | Hn].
    - rewrite <- !(translate_path _ _ _ _ Ex), T by done. destruct (translate (tabs s) root x) as [[pg r] |] eqn:E; [| done].
      unfold MODULE_LAST_PAGE, MODULE_REGION_DEFAULT_BASE in *.
      destruct (ms_below _ _ _ _ _ HS x pg r) as [Hlt _]; [unfold module_range, MODULE_REGION_DEFAULT_BASE; lia | done | lia].
    - by rewrite O', O. }
  exists s''. split; [| split; [| done]].
  { do 2 f_equal. rewrite Em', <- Eb, <- Em. by destruct m. }
  assert (Hiff : forall p pg, (p, pg) ∈ M'' <-> (p, pg) ∈ M).
  { intros p pg. split; intros Hin.
    - destruct (Hex p pg Hin) as (w & r & Hw & <- & Ew). rewrite Eq in Ew. by apply (bk_pages _ _ _ _ _ _ (ms_backed _ _ _ _ _ HS) w pg r).
    - destruct (ms_exact _ _ _ _ _ HS p pg Hin) as (w & r & Hw & <- & Ew). apply (bk_pages _ _ _ _ _ _ HB w pg r Hw). by rewrite Eq. }
  assert (EM : M'' ≡ₚ M).
  { apply NoDup_Permutation; [| | intros [p pg]; apply Hiff]; apply (NoDup_fmap_1 snd).
    - destruct (held_frames _ _ (bk_held _ _ _ _ _ _ HB)) as [HN _]. by apply NoDup_app in HN as (_ & _ & (HN & _ & _)%NoDup_app).
    - destruct (held_frames _ _ (bk_held _ _ _ _ _ _ (ms_backed _ _ _ _ _ HS))) as [HN _].
      by apply NoDup_app in HN as (_ & _ & (HN & _ & _)%NoDup_app). }
  split; [apply HS | | |].
  - destruct HB as [W Hh Hp Hf]. split; [done | | | done].
    + eapply held_perm; [| exact Hh]. by rewrite EM.
    + intros w pg r Hw Ew. apply Hiff. by apply (Hp w pg r).
  - intros w pg r Hw. rewrite Eq. by apply (ms_below _ _ _ _ _ HS).
  - intros p pg Hin. destruct (ms_exact _ _ _ _ _ HS p pg Hin) as (w & r & Hw & Ep & Ew). exists w, r. by rewrite Eq.
Qed.

(** a sequence of allocations: the addresses *)
Fixpoint module_allocs (sizes : list Z) (m : module_area) (s : vm P) : res (list Z * module_area * vm P) :=
  match sizes with
  | [] => Ok ([], m, s)
  | size :: sizes =>
      let! (p, m, s) := module_alloc root size m s in
      let! (ps, m, s) := module_allocs sizes m s in Ok (p :: ps, m, s)
  end.

(** the blocks lie one after the other from [b] on; 0 is a refusal *)
Fixpoint in_sequence (b : Z) (sizes ps : list Z) (e : Z) : Prop :=
  match sizes, ps with
  | [], [] => b <= e
  | size :: sizes, p :: ps => (p = 0 \/ b <= p /\ p mod 16 = 0) /\ in_sequence (if p =? 0 then b else p + size) sizes ps e
  | _, _ => False
  end.

(** room for the sizes below the last page *)
Fixpoint sizes_fit (b : Z) (sizes : list Z) : Prop :=
  match sizes with
  | [] => b <= MODULE_LAST_PAGE
  | size :: sizes => 0 <= size /\ b + size <= MODULE_LAST_PAGE /\ sizes_fit (b + size + 16) sizes
  end.

Lemma sizes_fit_mono b b' sizes : b' <= b -> sizes_fit b sizes -> sizes_fit b' sizes.
Proof.
  revert b b'. induction sizes as [| size sizes IH]; intros b b' Hb; cbn [sizes_fit]; [lia |].
  intros (H0 & H1 & H2). split; [done |]. split; [lia |]. eapply IH; [| exact H2]. lia.
Qed.

Lemma in_sequence_mono b b' sizes ps e e' : b' <= b -> e <= e' -> in_sequence b sizes ps e -> in_sequence b' sizes ps e'.
Proof.
  revert b b' ps. induction sizes as [| size sizes IH]; intros b b' [| p ps] Hb He; cbn [in_sequence]; try done; [lia |].
  intros [H1 H2]. split; [destruct H1; [by left | right; lia] |].
  destruct (p =? 0); [by eapply IH; [| | exact H2]; lia | by eapply IH; [| | exact H2]; lia].
Qed.

Lemma module_allocs_ok sizes m s F M D : module_space m s F M D -> sizes_fit (module_brk m) sizes ->
  exists ps m' s' F' M' N, module_allocs sizes m s = Ok (ps, m', s') /\ module_space m' s' F' M' (N ++ D) /\
    module_mapped m <= module_mapped m' /\ module_brk m <= module_brk m' /\ only_pages (module_mapped m) (module_mapped m') s s' /\
    (N = [] -> complete m s -> complete m' s') /\ in_sequence (module_brk m) sizes ps (module_brk m').
Proof.
  revert m s F M D. induction sizes as [| size sizes IH]; intros m s F M D HS Hfit; cbn [module_allocs sizes_fit] in *.
  { exists [], m, s, F, M, []. split_and!; try done. cbn [in_sequence]. lia. }
  destruct Hfit as (H0 & H1 & Hfit).
  destruct (module_alloc_ok size m s F M D HS H0 H1) as (p & m1 & s1 & F1 & M1 & N1 & -> & HS1 & Hm1 & Hb1 & O1 & Hc1 & HA).
  cbn [res_bind].
  assert (Hf1 : sizes_fit (module_brk m1) sizes).
  { eapply sizes_fit_mono; [| exact Hfit]. destruct HA as [(_ & ->) | (-> & _ & HA)]; lia. }
  destruct (IH m1 s1 F1 M1 (N1 ++ D) HS1 Hf1) as (ps & m' & s' & F' & M' & N & -> & HS' & Hm & Hb & O & Hc & Hseq). cbn [res_bind].
  exists (p :: ps), m', s', F', M', (N ++ N1). rewrite <- app_assoc. split_and!; try done; [lia | lia | | |].
  - eapply only_pages_trans; [| exact O1 | exact O]. lia.
  - intros [-> ->]%app_eq_nil Hcs. auto.
  - cbn [in_sequence]. pose proof (ms_area _ _ _ _ _ HS) as (_ & _ & Hbm & _). unfold MODULE_REGION_DEFAULT_BASE in *.
    destruct HA as [(-> & E) | (-> & H16 & HA)]; [cbn [Z.eqb] | rewrite (proj2 (Z.eqb_neq _ 0)) by lia].
    + split; [by left |]. by rewrite <- E.
    + split; [right; lia |]. eapply in_sequence_mono; [| | exact Hseq]; lia.
Qed.

(** memory for a module.  Any sequence of allocations from a well-formed
    state, below the last page of the region, returns without panic; the blocks
    are 16-byte aligned, in order and disjoint; no translation outside the new
    pages changes, and, unless [vmm_map] lacked memory for a table (the frames
    [N], which are then lost), every byte of the blocks is mapped, writable and
    not executable by user code, in frames of its own that are no page tables.
    Rolling back to the checkpoint taken before gives back the former allocator
    state, the former translation of every address and every frame but [N] and
    the new page tables. *)
Lemma module_memory_roundtrip sizes m s F M D : module_space m s F M D -> sizes_fit (module_brk m) sizes ->
  exists ps m' s' F' M' N s'', module_allocs sizes m s = Ok (ps, m', s') /\ module_space m' s' F' M' (N ++ D) /\
    in_sequence (module_brk m) sizes ps (module_brk m') /\ only_pages (module_mapped m) (module_mapped m') s s' /\
    (N = [] -> complete m s -> forall x, module_brk m <= x < module_brk m' ->
       exists pg, translate (tabs s') root x = Some (pg, Z.land MODULE_FLAGS RIGHTS) /\ pg ∉ F') /\
    module_alloc_rollback root (module_alloc_checkpoint m) m' s' = Ok (m, s'') /\ module_space m s'' F' M (N ++ D) /\
    (forall w, translate (tabs s'') root w = translate (tabs s) root w).
Proof.
  intros HS Hfit.
  destruct (module_allocs_ok sizes m s F M D HS Hfit) as (ps & m' & s' & F' & M' & N & E & HS' & Hm & Hb & O & Hc & Hseq).
  destruct (module_rollback_ok m s F M D m' s' F' M' (N ++ D) HS HS' Hb Hm O) as (s'' & E' & HS'' & Eq).
  exists ps, m', s', F', M', N, s''. split_and!; try done. intros HN Hcs x Hx.
  pose proof (ms_area _ _ _ _ _ HS) as (_ & _ & Hbm & _). pose proof (ms_area _ _ _ _ _ HS') as (_ & _ & Hbm' & Hmx' & _).
  assert (Hr : module_range x) by (unfold module_range, MODULE_LAST_PAGE in *; lia).
  specialize (Hc HN Hcs x Hr ltac:(lia)). destruct (translate (tabs s') root x) as [[pg r] |] eqn:Ex; [| done]. exists pg.
  destruct (ms_below _ _ _ _ _ HS' x pg r Hr Ex) as [_ ->]. split; [done |]. by eapply backed_frame; [apply HS' | |].
Qed.
End Correct.

(** ** A run on the bitmap allocator *)

Lemma ex_module_space : module_space ex_root module_alloc_init ex_space [ex_root] [] [].
Proof.
  destruct ex_space_ok as [W Hh].
  assert (HT : forall w, translate (tabs ex_space) ex_root w = None) by done.
  split; [by vm_compute | | by intros w pg r _; rewrite HT | by intros p pg ?%elem_of_nil].
  split; [done | done | by intros w pg r _; rewrite HT | done].
Qed.

Lemma module_memory_roundtrip_witness : exists ps m' s' F' N s'',
  module_allocs ex_root [100; 20; 5000] module_alloc_init ex_space = Ok (ps, m', s') /\
  in_sequence 0xffffffffc0000000 [100; 20; 5000] ps (module_brk m') /\
  module_alloc_rollback ex_root (module_alloc_checkpoint module_alloc_init) m' s' = Ok (module_alloc_init, s'') /\
  module_space ex_root module_alloc_init s'' F' [] (N ++ []).
Proof.
  destruct (module_memory_roundtrip ex_root [100; 20; 5000] module_alloc_init ex_space [ex_root] [] [] ex_module_space)
    as (ps & m' & s' & F' & M' & N & s'' & E & _ & Hseq & _ & _ & Er & HS & _).
  - vm_compute. repeat split; discriminate.
  - exists ps, m', s', F', N, s''. split; [exact E |]. split; [exact Hseq |]. split; [exact Er | exact HS].
Defined.

(** the addresses it returns *)
Example module_allocs_run : exists m' s', module_allocs ex_root [100; 20; 5000] module_alloc_init ex_space =
  Ok ([0xffffffffc0000000; 0xffffffffc0000070; 0xffffffffc0000090], m', s').
Proof. eexists _, _. vm_compute. reflexivity. Qed.

(** An allocation that ends in the region's last page: the rounded bound wraps to
    0, nothing is mapped and the address is returned all the same. *)
Example module_alloc_last_page : let m := mk_area 0xffffffffffffe000 0xffffffffffffe000 0xffffffffc0000000 0xffffffffffffffff in
  exists m', module_alloc ex_root 8192 m ex_space = Ok (0xffffffffffffe000, m', ex_space) /\ module_brk m' = 0 /\
    translate (tabs ex_space) ex_root 0xffffffffffffe000 = None.
Proof. eexists. vm_compute. split; [reflexivity | split; reflexivity]. Qed.

(** The checkpoint is that of the whole region: a load on another processor that
    allocates in between loses its memory to the rollback. *)
Example rollback_takes_all : exists p m1 s1 q m2 s2 s3,
  module_alloc ex_root 4096 module_alloc_init ex_space = Ok (p, m1, s1) /\
  module_alloc ex_root 4096 m1 s1 = Ok (q, m2, s2) /\
  module_alloc_rollback ex_root (module_alloc_checkpoint module_alloc_init) m2 s2 = Ok (module_alloc_init, s3) /\
  q = 0xffffffffc0001000 /\ translate (tabs s2) ex_root q <> None /\ translate (tabs s3) ex_root q = None.
Proof.
  eexists _, _, _, _, _, _, _. split; [vm_compute; reflexivity |]. split; [vm_compute; reflexivity |].
  split; [vm_compute; reflexivity |]. split; [reflexivity |]. vm_compute. split; [discriminate | reflexivity].
Qed.
