(* ===== verification/Elf.v ===== *)
(** * ELF images ([kernel/elf.c], [kernel/elf.h])

    The checks of the header, the loading of a segment into an address space and
    the user stack.  A file is its bytes and a read outside them is a fault; so is
    a write outside the page it is meant for.  Page frames are written through
    the direct map of physical memory: [ram] holds the bytes of the frames that
    are pages, by physical address, while the words of the frames that are page
    tables are those of Vmm.v.  That the two never meet is the disjointness in
    [user_space]: a page that is written is not a table. *)

From stdpp Require Import base list.
From S2P Require Import Prelude Bytes Heap Alloc Pmm PageAlloc Vmm VmmWalk VmmOwned VmmSpec VmmSpace PageOwner.

(** ** Headers *)

Record Elf64_Ehdr := mk_ehdr {
  e_ident : list Z; e_type : Z; e_machine : Z; e_version : Z; e_entry : Z; e_phoff : Z; e_shoff : Z;
  e_flags : Z; e_ehsize : Z; e_phentsize : Z; e_phnum : Z; e_shentsize : Z; e_shnum : Z; e_shstrndx : Z }.

Record Elf64_Phdr := mk_phdr {
  p_type : Z; p_flags : Z; p_offset : Z; p_vaddr : Z; p_paddr : Z; p_filesz : Z; p_memsz : Z; p_align : Z }.

Definition EHDR_SIZE : Z := 64.
Definition PHDR_SIZE : Z := 56.
Definition ET_REL : Z := 1.
Definition ET_EXEC : Z := 2.
Definition EM_X86_64 : Z := 62.
Definition EM_AARCH64 : Z := 183.
Definition PT_LOAD : Z := 1.
Definition PF_X : Z := 1.
Definition PF_W : Z := 2.
Definition USER_STACK_TOP : Z := 0x7FFFFFFFF000.

(** the structures at [i] in the file *)
Definition read_ehdr (f : list Z) (i : Z) : res Elf64_Ehdr :=
  let! ident := bytes_at f i 16 in
  let! ty := le 2 f (i + 16) in let! mc := le 2 f (i + 18) in let! ve := le 4 f (i + 20) in
  let! en := le 8 f (i + 24) in let! po := le 8 f (i + 32) in let! so := le 8 f (i + 40) in
  let! fl := le 4 f (i + 48) in let! es := le 2 f (i + 52) in let! ps := le 2 f (i + 54) in
  let! pn := le 2 f (i + 56) in let! ss := le 2 f (i + 58) in let! sn := le 2 f (i + 60) in
  let! sx := le 2 f (i + 62) in
  Ok (mk_ehdr ident ty mc ve en po so fl es ps pn ss sn sx).

Definition read_phdr (f : list Z) (i : Z) : res Elf64_Phdr :=
  let! ty := le 4 f i in let! fl := le 4 f (i + 4) in let! off := le 8 f (i + 8) in
  let! va := le 8 f (i + 16) in let! pa := le 8 f (i + 24) in let! fs := le 8 f (i + 32) in
  let! ms := le 8 f (i + 40) in let! al := le 8 f (i + 48) in
  Ok (mk_phdr ty fl off va pa fs ms al).

Definition ident (e : Elf64_Ehdr) (k : nat) : Z := nth k (e_ident e) 0.

(** 0 when the header is acceptable, -1 otherwise *)
Definition elf_check (ehdr : option Elf64_Ehdr) : Z :=
  match ehdr with
  | None => -1
  | Some e =>
      if negb (ident e 0 =? 127) || negb (ident e 1 =? 69) || negb (ident e 2 =? 76) || negb (ident e 3 =? 70) then -1
      else if negb (ident e 4 =? 2) then -1
      else if negb (ident e 5 =? 1) then -1
      else if negb (ident e 6 =? 1) then -1
      else if negb (e_type e =? ET_EXEC) && negb (e_type e =? ET_REL) then -1
      else if negb (e_machine e =? EM_X86_64) && negb (e_machine e =? EM_AARCH64) then -1
      else if negb (e_ehsize e =? EHDR_SIZE) then -1
      else if (e_type e =? ET_EXEC) && (e_phoff e =? 0) then -1
      else if (e_type e =? ET_REL) && (e_shoff e =? 0) then -1
      else 0
  end.

(** ** Page frames *)

Record machine (P : Type) := mk_machine { vmem : vm P; ram : Z -> Z }.
Arguments mk_machine {P} _ _.
Arguments vmem {P} _.
Arguments ram {P} _.

(** writing [l] at offset [off] of the page frame [phys] *)
Definition put_page (phys off : Z) (l : list Z) (r : Z -> Z) : res (Z -> Z) :=
  if is_frame phys && (0 <=? off) && (off + zlen l <=? 4096) then
    Ok (fun x => if (phys + off <=? x) && (x <? phys + off + zlen l) then nth (Z.to_nat (x - (phys + off))) l 0 else r x)
  else Fault.

Section Load.
Context {P : Type} {PA : PageAllocator P}.
Abbreviation machine := (machine P).

(** ** [elf_load_segment] *)

Definition segment_flags (p_flags : Z) (is_user : bool) : Z :=
  let flags := PTE_PRESENT in
  let flags := if has p_flags PF_W then Z.lor flags PTE_WRITABLE else flags in
  let flags := if is_user then Z.lor flags PTE_USER else flags in
  if negb (has p_flags PF_X) then Z.lor flags PTE_NX else flags.

(** the frame of a page of the segment, allocated and mapped if there is none; 0
    when there is no memory.  The result of mapping is ignored. *)
Definition segment_frame (pml4_phys page_vaddr flags : Z) (v : vm P) : res (Z * vm P) :=
  let! old := vmm_get_phys (tabs v) pml4_phys page_vaddr in
  if addr_of old =? 0 then
    let! (phys, p) := page_alloc (frames v) in
    let v := mk_vm (tabs v) p in
    if phys =? 0 then Ok (0, v)
    else let! v := vmm_map_specific pml4_phys page_vaddr phys flags v in Ok (phys, v)
  else Ok (addr_of old, v).

(** the part of the segment on page [i]: zeros, then the bytes of the file *)
Definition fill_segment (ph : Elf64_Phdr) (elf_raw : list Z) (i page_vaddr phys : Z) (r : Z -> Z) : res (Z -> Z) :=
  let vaddr := p_vaddr ph in
  let copy_start := if i =? 0 then Z.land vaddr 4095 else 0 in
  let space_in_page := 4096 - copy_start in
  let current_pos := u64 (page_vaddr + copy_start) in
  let mem_end := u64 (vaddr + p_memsz ph) in
  let fill_size := if current_pos <? mem_end then Z.min (mem_end - current_pos) space_in_page else 0 in
  let file_end := u64 (vaddr + p_filesz ph) in
  let copy_size := if current_pos <? file_end then Z.min (file_end - current_pos) fill_size else 0 in
  if fill_size =? 0 then Ok r
  else
    let! r := put_page phys copy_start (replicate (Z.to_nat fill_size) 0) r in
    if copy_size =? 0 then Ok r
    else
      let! l := bytes_at elf_raw (u64 (p_offset ph + u64 (current_pos - vaddr))) copy_size in
      put_page phys copy_start l r.

(** the body of the loop; false is the return of false for lack of a frame *)
Definition load_page (pml4_phys : Z) (ph : Elf64_Phdr) (elf_raw : list Z) (is_user : bool) (i : Z) (s : machine) :
  res (bool * machine) :=
  let page_vaddr := u64 (Z.land (p_vaddr ph) MASK_4K + i * 4096) in
  let! (phys, v) := segment_frame pml4_phys page_vaddr (segment_flags (p_flags ph) is_user) (vmem s) in
  if phys =? 0 then Ok (false, mk_machine v (ram s))
  else let! r := fill_segment ph elf_raw i page_vaddr phys (ram s) in Ok (true, mk_machine v r).

Fixpoint load_pages (n : nat) (i : Z) (pml4_phys : Z) (ph : Elf64_Phdr) (elf_raw : list Z) (is_user : bool) (s : machine) :
  res (bool * machine) :=
  match n with
  | O => Ok (true, s)
  | S n =>
      let! (b, s) := load_page pml4_phys ph elf_raw is_user i s in
      if b then load_pages n (i + 1) pml4_phys ph elf_raw is_user s else Ok (false, s)
  end.

Definition num_pages (ph : Elf64_Phdr) : Z :=
  u64 (u64 (p_vaddr ph + p_memsz ph) - Z.land (p_vaddr ph) MASK_4K + 4095) / 4096.

Definition elf_load_segment (pml4_phys : Z) (ph : Elf64_Phdr) (elf_raw : list Z) (is_user : bool) (s : machine) :
  res (bool * machine) :=
  load_pages (Z.to_nat (num_pages ph)) 0 pml4_phys ph elf_raw is_user s.

(** ** [setup_user_stack] *)

(** the loop over the arguments, the last one first: [k] is [current_k_ptr - stack],
    [u] is [current_user_vaddr]; [None] is the jump to [fail_args] *)
Fixpoint push_args (l : list (list Z)) (phys k u : Z) (arg_vaddrs : list Z) (r : Z -> Z) :
  res (option (Z * Z * list Z) * (Z -> Z)) :=
  match l with
  | [] => Ok (Some (k, u, arg_vaddrs), r)
  | arg :: l =>
      let len := zlen arg + 1 in
      if k <? len then Ok (None, r)
      else
        let! r := put_page phys (k - len) (arg ++ [0]) r in
        push_args l phys (k - len) (u - len) (u - len :: arg_vaddrs) r
  end.

Fixpoint put_qwords (phys k : Z) (l : list Z) (r : Z -> Z) : res (Z -> Z) :=
  match l with
  | [] => Ok r
  | q :: l => let! r := put_page phys k (enc 8 q) r in put_qwords phys (k + 8) l r
  end.

(** from the strings to the return; the result is the user stack pointer,
    [None] for [fail_args] *)
Definition fill_stack (argc : Z) (args : list (list Z)) (phys : Z) (r : Z -> Z) : res (option Z * (Z -> Z)) :=
  let cells := argc + 2 in
  let! (o, r) := push_args (rev args) phys 4096 USER_STACK_TOP [] r in
  match o with
  | None => Ok (None, r)
  | Some (k, u, arg_vaddrs) =>
      let align := u mod 8 in
      if k <? align then Ok (None, r)
      else
        let k := k - align in
        let u := u - align in
        if k / 8 <? cells then Ok (None, r)
        else
          let! r := put_qwords phys (k - cells * 8) (argc :: arg_vaddrs ++ [0]) r in
          Ok (Some (u - cells * 8), r)
  end.

(** [argv[0 .. argc)]; an argument is its bytes before the final zero *)
Definition read_args (argc : Z) (argv : list (list Z)) : res (list (list Z)) :=
  if argc <=? Z.of_nat (length argv) then Ok (take (Z.to_nat argc) argv) else Fault.

Section Stack.
Context {A : Type} {AL : Allocator A}.

Definition stack_fail (pml4_phys phys : Z) (s : machine) : res machine :=
  let! (_, m) := vmm_unmap (tabs (vmem s)) pml4_phys (USER_STACK_TOP - 4096) in
  let! p := page_free phys (frames (vmem s)) in
  Ok (mk_machine (mk_vm m p) (ram s)).

(** the results are the user stack pointer, 0 for failure, and [*phys_out] *)
Definition setup_user_stack (pml4_phys argc : Z) (argv : option (list (list Z))) (a : A) (s : machine) :
  res (Z * Z * A * machine) :=
  match argv with
  | None => Ok (0, 0, a, s)
  | Some argv =>
      if (argc <? 1) || (UINT64_MAX / 8 - 2 <? argc) then Ok (0, 0, a, s)
      else
        let! (phys, p) := page_alloc (frames (vmem s)) in
        let v := mk_vm (tabs (vmem s)) p in
        if phys =? 0 then Ok (0, 0, a, mk_machine v (ram s))
        else
          let! (c, v) := vmm_map_user pml4_phys (USER_STACK_TOP - 4096) phys (Z.lor PTE_PRESENT PTE_WRITABLE) v in
          if negb (c =? 0) then
            let! p := page_free phys (frames v) in Ok (0, 0, a, mk_machine (mk_vm (tabs v) p) (ram s))
          else
            let! (arg_vaddrs, a) := kmalloc (argc * 8) a in
            if arg_vaddrs =? 0 then
              let! s := stack_fail pml4_phys phys (mk_machine v (ram s)) in Ok (0, 0, a, s)
            else
              let! args := read_args argc argv in
              let! (u, r) := fill_stack argc args phys (ram s) in
              let! a := kfree arg_vaddrs a in
              match u with
              | None => let! s := stack_fail pml4_phys phys (mk_machine v r) in Ok (0, 0, a, s)
              | Some u => Ok (u, phys, a, mk_machine v r)
              end
  end.
End Stack.
End Load.
