(* ===== verification/ElfLoad.v ===== *)
(** * The image of a loaded ELF file

    What [elf_load_segment] leaves in the address space, as the process sees it:
    [user_byte] is the byte at a virtual address.  When every frame that was
    allocated is mapped, each address of a segment holds the byte of the file, or
    zero beyond [p_filesz]; nothing outside the segment changes. *)

From stdpp Require Import base list.
From S2P Require Import Prelude Bytes Heap Alloc Pmm PageAlloc Vmm VmmWalk VmmOwned VmmSpec VmmSpace PageOwner Elf.

Lemma put_page_ok phys off l r : frame phys -> 0 <= off -> off + zlen l <= 4096 ->
  exists r', put_page phys off l r = Ok r' /\
    forall x, r' x = if (phys + off <=? x) && (x <? phys + off + zlen l) then nth (Z.to_nat (x - (phys + off))) l 0 else r x.
Proof.
  intros Hf H1 H2. unfold put_page. rewrite (frame_is_frame _ Hf), (proj2 (Z.leb_le 0 off)), (proj2 (Z.leb_le _ 4096)) by done.
  simpl. by eexists.
Qed.

(** ** The bytes of a segment *)

(** what [create_elf_process] has checked *)
Definition seg_ok (f : list Z) (ph : Elf64_Phdr) : Prop :=
  0 <= p_vaddr ph < USER_STACK_TOP /\ 0 <= p_filesz ph <= p_memsz ph /\ p_vaddr ph + p_memsz ph <= USER_STACK_TOP /\
  0 <= p_offset ph /\ p_offset ph + p_filesz ph <= zlen f <= 2147483647.

Definition in_seg (ph : Elf64_Phdr) (x : Z) : bool := (p_vaddr ph <=? x) && (x <? p_vaddr ph + p_memsz ph).
Definition seg_byte (f : list Z) (ph : Elf64_Phdr) (x : Z) : Z :=
  if x <? p_vaddr ph + p_filesz ph then nth (Z.to_nat (p_offset ph + (x - p_vaddr ph))) f 0 else 0.

Definition seg_base (ph : Elf64_Phdr) : Z := p_vaddr ph - p_vaddr ph mod 4096.

Lemma num_pages_eq f ph : seg_ok f ph -> num_pages ph = (p_vaddr ph mod 4096 + p_memsz ph + 4095) / 4096.
Proof.
  intros (H1 & H2 & H3 & _). unfold num_pages, USER_STACK_TOP in *. rewrite masked by (red; lia).
  rewrite (u64_small (p_vaddr ph + p_memsz ph)) by (red; lia). rewrite u64_small by (red; zlia). f_equal. lia.
Qed.

(** on a page of its own the segment's bytes, elsewhere the old ones *)
Lemma fill_segment_ok f ph i phys r : seg_ok f ph -> 0 <= i < num_pages ph -> frame phys ->
  exists r', fill_segment ph f i (seg_base ph + i * 4096) phys r = Ok r' /\
    (forall o, 0 <= o < 4096 -> let x := seg_base ph + i * 4096 + o in
       r' (phys + o) = if in_seg ph x then seg_byte f ph x else r (phys + o)) /\
    (forall y, ~ phys <= y < phys + 4096 -> r' y = r y).
Proof.
  intros OK Hi Hf. rewrite (num_pages_eq f ph OK) in Hi. destruct OK as (H1 & H2 & H3 & H4 & H5).
  unfold fill_segment, in_seg, seg_byte, seg_base, USER_STACK_TOP in *.
  change (Z.land (p_vaddr ph) 4095) with (Z.land (p_vaddr ph) (Z.ones 12)). rewrite Z.land_ones by lia. change (2 ^ 12) with 4096.
  set (va := p_vaddr ph) in *. set (ms := p_memsz ph) in *. set (fs := p_filesz ph) in *. set (fo := p_offset ph) in *.
  set (pg := va - va mod 4096 + i * 4096). set (cs := if i =? 0 then va mod 4096 else 0). cbv zeta.
  assert (Hcs : pg + cs = Z.max pg va /\ 0 <= cs < 4096) by (unfold pg, cs; zbool; zlia).
  assert (Hpg : 0 <= pg < 140737488351232) by (unfold pg; zlia).
  rewrite (u64_small (pg + cs)), (u64_small (va + ms)), (u64_small (va + fs)) by (red; lia).
  set (fill := if pg + cs <? va + ms then Z.min (va + ms - (pg + cs)) (4096 - cs) else 0).
  set (copy := if pg + cs <? va + fs then Z.min (va + fs - (pg + cs)) fill else 0).
  assert (Hfill : 0 <= fill <= 4096 - cs) by (unfold fill; zbool; lia).
  assert (Hcopy : 0 <= copy <= fill) by (unfold copy, fill; zbool; lia).
  destruct (Z.eqb_spec fill 0) as [F0 | F0].
  { exists r. split; [done |]. split; [| done]. intros o Ho. unfold fill in F0. zbool; simpl; done || lia. }
  destruct (put_page_ok phys cs (replicate (Z.to_nat fill) 0) r Hf) as (r1 & -> & R1);
    [lia | unfold zlen; rewrite length_replicate; lia |]. cbn [res_bind].
  unfold zlen in R1. rewrite length_replicate, Z2Nat.id in R1 by lia.
  assert (R1' : forall x, r1 x = if (phys + cs <=? x) && (x <? phys + cs + fill) then 0 else r x).
  { intros x. rewrite R1. destruct ((phys + cs <=? x) && (x <? phys + cs + fill)); [| done]. apply nth_zeros. }
  destruct (Z.eqb_spec copy 0) as [C0 | C0].
  { exists r1. split; [done |]. split.
    - intros o Ho. rewrite R1'. unfold copy, fill in *. zbool; simpl; done || lia.
    - intros y Hy. rewrite R1'. zbool; simpl; done || lia. }
  assert (IN : inside f (fo + (pg + cs - va)) copy) by (unfold copy in *; split_and!; unfold zlen in *; zbool; lia).
  unfold zlen in H5. rewrite (u64_small (pg + cs - va)), u64_small by (red; destruct IN; lia).
  rewrite (bytes_at_inside _ _ _ IN). cbn [res_bind].
  pose proof (slice_length _ _ _ IN) as SL.
  destruct (put_page_ok phys cs (slice f (fo + (pg + cs - va)) copy) r1 Hf) as (r2 & -> & R2);
    [lia | unfold zlen; lia |]. unfold zlen in R2. rewrite SL in R2. exists r2. split; [done |]. split.
  - intros o Ho. rewrite R2, R1'. replace (phys + o - (phys + cs)) with (o - cs) by lia.
    unfold copy, fill in *. zbool; simpl; try done; try lia.
    rewrite slice_nth by (done || lia). f_equal. lia.
  - intros y Hy. rewrite R2, R1'. zbool; simpl; done || lia.
Qed.

(** page [i] of the segment, and the pages from [i] on *)
Definition on_page (ph : Elf64_Phdr) (i x : Z) : Prop := x / 4096 = seg_base ph / 4096 + i.
Definition on_pages (ph : Elf64_Phdr) (i : Z) (n : nat) (x : Z) : Prop := exists j, i <= j < i + Z.of_nat n /\ on_page ph j x.

Definition seg_rights (ph : Elf64_Phdr) (u : bool) : Z := Z.land (segment_flags (p_flags ph) u) RIGHTS.

Definition seg_pages (ph : Elf64_Phdr) : Z -> Prop := on_pages ph 0 (Z.to_nat (num_pages ph)).

Lemma page_range f ph i : seg_ok f ph -> 0 <= i < num_pages ph ->
  user_range (seg_base ph + i * 4096) /\ (seg_base ph + i * 4096) mod 4096 = 0 /\
  Z.land (p_vaddr ph) MASK_4K = seg_base ph /\ u64 (seg_base ph + i * 4096) = seg_base ph + i * 4096.
Proof.
  intros OK Hi. rewrite (num_pages_eq f ph OK) in Hi. destruct OK as (H1 & H2 & H3 & _).
  unfold user_range, seg_base, USER_STACK_TOP in *. split; [zlia |]. split; [zlia |].
  split; [apply masked; red; lia | apply u64_small; red; zlia].
Qed.

Lemma on_page_path f ph i x : seg_ok f ph -> 0 <= i < num_pages ph -> user_range x ->
  path x = path (seg_base ph + i * 4096) <-> on_page ph i x.
Proof.
  intros OK Hi Hx. destruct (page_range f ph i OK Hi) as (H1 & H2 & _). rewrite user_same_page by done.
  unfold on_page, seg_base. split; intros H; zlia.
Qed.

Lemma on_pages_S ph i n x : on_pages ph i (S n) x <-> on_page ph i x \/ on_pages ph (i + 1) n x.
Proof.
  unfold on_pages. split.
  - intros (j & Hj & Hx). destruct (decide (j = i)) as [-> | N]; [by left | right]. exists j. split; [lia | done].
  - intros [Hx | (j & Hj & Hx)]; [exists i | exists j]; (split; [lia | done]).
Qed.

Section Image.
Context {P : Type} {PA : PageAllocator P} (root : Z) (Kt : list Z) (m0 : tables).

(** ** Virtual bytes *)

Definition user_byte (s : machine P) (x : Z) : option Z := option_map (ram s) (physical root (vmem s) x).

(** ** One page *)

Lemma segment_flags_ok f u : PTE_FLAGS (segment_flags f u).
Proof. unfold segment_flags. destruct (has f PF_W), (has f PF_X), u; by vm_compute. Qed.

(** the frame of a page: there already, or new and mapped, or none to be had; a
    frame that could not be mapped stays allocated and unused *)
Lemma segment_frame_ok va flags v U M D : PTE_FLAGS flags -> user_range va ->
  user_space root Kt m0 v U M D ->
  exists phys v' U' M' N, segment_frame root va flags v = Ok (phys, v') /\ user_space root Kt m0 v' U' M' (N ++ D) /\
    (forall w, path w <> path va -> translate (tabs v') root w = translate (tabs v) root w) /\
    (translate (tabs v) root va <> None -> translate (tabs v') root va = translate (tabs v) root va) /\
    (phys = 0 /\ N = [] /\ translate (tabs v') root va = None \/
     frame phys /\ N = [phys] /\ translate (tabs v') root va = None \/
     frame phys /\ N = [] /\ exists q, translate (tabs v') root va = Some (phys, q) /\
       (translate (tabs v) root va = None -> q = Z.land flags RIGHTS)).
Proof.
  intros HF Hva HS. unfold segment_frame.
  destruct (user_get_phys _ _ _ v U M D va HS Hva) as (raw & -> & HR). cbn [res_bind].
  destruct (translate (tabs v) root va) as [[pg q] |] eqn:ET.
  { destruct HR as [-> Hf]. rewrite (proj2 (Z.eqb_neq pg 0)) by (destruct Hf; lia). exists pg, v, U, M, [].
    split; [done |]. split; [done |]. split; [done |]. split; [done |]. right; right. split; [done |]. split; [done |].
    by exists q. }
  rewrite HR. cbn [Z.eqb]. destruct (user_alloc _ _ _ v U M D HS) as (a & p & -> & HA). cbn [res_bind].
  destruct HA as [[-> ->] | [Hf HS1]].
  { exists 0, v, U, M, []. split; [by destruct v |]. split; [done |]. split; [done |]. split; [done |]. by left. }
  rewrite (proj2 (Z.eqb_neq a 0)) by (destruct Hf; lia). unfold vmm_map_specific.
  destruct (user_map _ _ _ _ U M D va a flags HS1 Hf Hva HF ET) as (c & v' & U' & -> & [(-> & KP & HS2) | (-> & HS2 & T & O)]);
    cbn [res_bind].
  - exists a, v', U', M, [a]. split; [done |]. split; [done |]. split; [intros w _; apply KP |]. split; [done |].
    right; left. split; [done |]. split; [done |]. rewrite <- ET. apply KP.
  - exists a, v', U', ((path va, a) :: M), []. split; [done |]. split; [done |]. split; [done |]. split; [done |].
    right; right. split; [done |]. split; [done |]. by exists (Z.land flags RIGHTS).
Qed.

(** ** Loading *)

Abbreviation trans s x := (translate (tabs (vmem s)) root x).

(** outside the pages nothing changes; a page that was mapped stays where it was
    and a new one has the segment's rights; bytes outside the segment are kept *)
Record advanced (ph : Elf64_Phdr) (u : bool) (pages : Z -> Prop) (s s' : machine P) : Prop := {
  adv_out x : user_range x -> ~ pages x -> trans s' x = trans s x;
  adv_old x : user_range x -> trans s x <> None -> trans s' x = trans s x;
  adv_new x pg q : user_range x -> trans s x = None -> trans s' x = Some (pg, q) -> q = seg_rights ph u;
  adv_byte x : user_range x -> ~ (pages x /\ in_seg ph x = true) -> trans s x <> None -> user_byte s' x = user_byte s x }.

(** the pages are all mapped and hold the segment *)
Definition complete (f : list Z) (ph : Elf64_Phdr) (pages : Z -> Prop) (s : machine P) : Prop :=
  forall x, user_range x -> pages x ->
    trans s x <> None /\ (in_seg ph x = true -> user_byte s x = Some (seg_byte f ph x)).

(** a step that maps at most the page of [va] and keeps the bytes outside the segment *)
Lemma frame_advanced ph u i va s v' r' :
  (forall x, user_range x -> path x = path va <-> on_page ph i x) ->
  (forall w, path w <> path va -> translate (tabs v') root w = trans s w) ->
  (trans s va <> None -> translate (tabs v') root va = trans s va) ->
  (trans s va = None -> forall pg q, translate (tabs v') root va = Some (pg, q) -> q = seg_rights ph u) ->
  (forall x pg q, user_range x -> translate (tabs v') root x = Some (pg, q) ->
     ~ (on_page ph i x /\ in_seg ph x = true) -> r' (pg + x mod 4096) = ram s (pg + x mod 4096)) ->
  advanced ph u (on_page ph i) s (mk_machine v' r').
Proof.
  intros PX O T Q HR. assert (Old : forall x, user_range x -> trans s x <> None -> translate (tabs v') root x = trans s x).
  { intros x Hx Hn. destruct (decide (path x = path va)) as [Ex | Ex]; [| by apply O].
    rewrite (translate_path _ _ x va Ex) in Hn. rewrite !(translate_path _ _ x va Ex). by apply T. }
  split; cbn [vmem]; [intros x Hx Hn; apply O; by rewrite (PX x Hx) | done | |].
  - intros x pg q Hx Hn Hs. destruct (decide (path x = path va)) as [Ex | Ex]; [| by rewrite O, Hn in Hs].
    rewrite (translate_path _ _ x va Ex) in Hn. rewrite (translate_path _ _ x va Ex) in Hs. by apply (Q Hn pg).
  - intros x Hx Hn Hm. unfold user_byte, physical. cbn [vmem ram]. rewrite (Old x Hx Hm).
    destruct (trans s x) as [[pg q] |] eqn:Et; [| done]. simpl. f_equal.
    apply (HR x pg q); [done | rewrite Old; [exact Et | done | by rewrite Et] | done].
Qed.

Lemma load_page_ok f ph u i s U M D : seg_ok f ph -> 0 <= i < num_pages ph ->
  user_space root Kt m0 (vmem s) U M D ->
  exists b s' U' M' N, load_page root ph f u i s = Ok (b, s') /\ user_space root Kt m0 (vmem s') U' M' (N ++ D) /\
    advanced ph u (on_page ph i) s s' /\ (b = true -> N = [] -> complete f ph (on_page ph i) s').
Proof.
  intros OK Hi HS. destruct (page_range f ph i OK Hi) as (Hva & Hal & E1 & E2).
  assert (PX := fun x => on_page_path f ph i x OK Hi). unfold load_page. cbv zeta. rewrite E1, E2.
  set (va := seg_base ph + i * 4096) in *.
  destruct (segment_frame_ok va _ (vmem s) U M D (segment_flags_ok (p_flags ph) u) Hva HS)
    as (phys & v' & U' & M' & N & -> & HS' & O & T & R). cbn [res_bind].
  assert (Adv : forall r', (forall x pg q, user_range x -> translate (tabs v') root x = Some (pg, q) ->
      ~ (on_page ph i x /\ in_seg ph x = true) -> r' (pg + x mod 4096) = ram s (pg + x mod 4096)) ->
      advanced ph u (on_page ph i) s (mk_machine v' r')).
  { intros r'. apply (frame_advanced ph u i va); [done | done | done |]. intros Hn pg q Hs.
    destruct R as [(_ & _ & R) | [(_ & _ & R) | (_ & _ & q' & R & Q)]]; [congruence.. |].
    rewrite R in Hs. injection Hs as _ <-. by apply Q. }
  destruct R as [(-> & -> & R) | R]; cbn [Z.eqb].
  { exists false. eexists _, U', M', []. split; [reflexivity |]. split; [done |]. split; [by apply Adv | done]. }
  assert (Hf : frame phys) by (by destruct R as [[? _] | [? _]]).
  rewrite (proj2 (Z.eqb_neq phys 0)) by (destruct Hf; lia).
  destruct (fill_segment_ok f ph i phys (ram s) OK Hi Hf) as (r' & E & F1 & F2). fold va in E, F1. rewrite E. cbn [res_bind].
  exists true. eexists _, U', M', N. split; [reflexivity |]. split; [done |].
  assert (Fr : forall x pg q, user_range x -> translate (tabs v') root x = Some (pg, q) -> frame pg)
    by (intros x pg q Hx Ht; by eapply backed_frame; [apply HS' | |]).
  destruct R as [(_ & -> & R) | (_ & -> & q & R & _)].
  - split; [| done]. apply Adv. intros x pg q Hx Ht _. destruct (Fr x pg q Hx Ht) as [_ Hg], Hf as [Hf0 Hf].
    apply F2. intros Hin. assert (pg = phys) as -> by zlia. exact (user_unshared _ _ _ _ _ _ _ x phys q HS' Hx Ht ltac:(lmem)).
  - assert (On : forall x q', user_range x -> translate (tabs v') root x = Some (phys, q') -> x = va + x mod 4096).
    { intros x q' Hx Ht. assert (Ex : path x = path va) by (eapply backed_inj; [apply HS' | done | done | done | exact R]).
      apply user_same_page in Ex; [zlia | done | done]. }
    assert (Wr : forall x pg q', user_range x -> translate (tabs v') root x = Some (pg, q') ->
      r' (pg + x mod 4096) = if (pg =? phys) && in_seg ph x then seg_byte f ph x else ram s (pg + x mod 4096)).
    { intros x pg q' Hx Ht. destruct (Z.eqb_spec pg phys) as [-> | Ng]; simpl.
      - rewrite F1 by (apply Z.mod_pos_bound; lia). by rewrite <- (On x q' Hx Ht).
      - destruct (Fr x pg q' Hx Ht) as [_ Hg], Hf as [_ Hf]. apply F2. intros Hin. apply Ng. zlia. }
    split.
    + apply Adv. intros x pg q' Hx Ht Hn. rewrite (Wr x pg q' Hx Ht). destruct (Z.eqb_spec pg phys) as [-> | _]; [| done].
      simpl. destruct (in_seg ph x) eqn:Ei; [| done]. destruct Hn. split; [| done]. apply PX; [done |].
      eapply backed_inj; [apply HS' | done | done | done | exact R].
    + intros _ _ x Hx Hp. apply PX in Hp; [| done]. rewrite <- (translate_path _ _ x va Hp) in R. cbn [vmem]. rewrite R.
      split; [done |]. intros Ei. unfold user_byte, physical. cbn [vmem ram]. rewrite R. simpl. f_equal.
      by rewrite (Wr x phys q Hx R), Z.eqb_refl, Ei.
Qed.

Lemma advanced_refl ph u pages s : advanced ph u pages s s.
Proof. split; [done | done | | done]. intros x pg q _ H1 H2. congruence. Qed.

Lemma advanced_trans ph u (A B C : Z -> Prop) s1 s2 s3 : (forall x, A x -> C x) -> (forall x, B x -> C x) ->
  advanced ph u A s1 s2 -> advanced ph u B s2 s3 -> advanced ph u C s1 s3.
Proof.
  intros HA HB [O1 L1 N1 Y1] [O2 L2 N2 Y2]. split.
  - intros x Hx Hn. rewrite O2, O1; auto.
  - intros x Hx Hn. rewrite L2; [by apply L1 | done | by rewrite L1].
  - intros x pg q Hx Hn Hs. destruct (trans s2 x) as [[pg' q'] |] eqn:E2.
    + rewrite (L2 x Hx), E2 in Hs by (by rewrite E2). injection Hs as <- <-. by eapply N1.
    + by eapply N2.
  - intros x Hx Hn Hm. rewrite Y2, Y1; [done | done | | done | done | | by rewrite L1]; naive_solver.
Qed.

Lemma load_pages_ok f ph u n : seg_ok f ph -> forall i s U M D, 0 <= i ->
  i + Z.of_nat n <= num_pages ph -> user_space root Kt m0 (vmem s) U M D ->
  exists b s' U' M' N, load_pages n i root ph f u s = Ok (b, s') /\ user_space root Kt m0 (vmem s') U' M' (N ++ D) /\
    advanced ph u (on_pages ph i n) s s' /\ (b = true -> N = [] -> complete f ph (on_pages ph i n) s').
Proof.
  intros OK. induction n as [| n IH]; intros i s U M D Hi Hn HS.
  { exists true, s, U, M, []. split; [done |]. split; [done |]. split; [apply advanced_refl |].
    intros _ _ x _ (j & Hj & _). lia. }
  cbn [load_pages]. destruct (load_page_ok f ph u i s U M D OK ltac:(lia) HS) as (b & s1 & U1 & M1 & N1 & -> & HS1 & A1 & C1).
  cbn [res_bind]. destruct b.
  2: { exists false, s1, U1, M1, N1. split; [done |]. split; [done |]. split; [| done].
       apply (advanced_trans ph u (on_page ph i) (on_page ph i) _ s s1 s1); [| | done | apply advanced_refl];
         intros x Hx; apply on_pages_S; by left. }
  destruct (IH (i + 1) s1 U1 M1 (N1 ++ D) ltac:(lia) ltac:(lia) HS1) as (b & s2 & U2 & M2 & N2 & -> & HS2 & A2 & C2).
  exists b, s2, U2, M2, (N2 ++ N1). split; [done |]. split; [by rewrite <- app_assoc |]. split.
  { apply (advanced_trans ph u (on_page ph i) (on_pages ph (i + 1) n) _ s s1 s2); [| | done | done];
      intros x Hx; apply on_pages_S; auto. }
  intros -> [-> ->]%app_nil x Hx [Hp | Hp]%on_pages_S; [| by apply C2].
  destruct (C1 eq_refl eq_refl x Hx Hp) as [Hm Hb]. split; [by rewrite (adv_old _ _ _ _ _ A2) |].
  intros Hin. rewrite (adv_byte _ _ _ _ _ A2 x); [by apply Hb | done | | done].
  intros [(j & Hj & Hq) _]. unfold on_page in *. lia.
Qed.

Lemma elf_load_segment_ok f ph u s U M D : seg_ok f ph ->
  user_space root Kt m0 (vmem s) U M D ->
  exists b s' U' M' N, elf_load_segment root ph f u s = Ok (b, s') /\ user_space root Kt m0 (vmem s') U' M' (N ++ D) /\
    advanced ph u (seg_pages ph) s s' /\ (b = true -> N = [] -> complete f ph (seg_pages ph) s').
Proof.
  intros OK HS. apply (load_pages_ok f ph u _ OK 0 s U M D); [done | | done].
  rewrite (num_pages_eq f ph OK). destruct OK as (? & ? & _). zlia.
Qed.
End Image.
