(* ===== verification/ElfStack.v ===== *)
(** * The first user stack

    What [setup_user_stack] leaves on the stack page of a new process: from the
    stack pointer up, the number of arguments, a pointer to each argument, a null
    pointer, and above them the strings that the pointers designate. *)

From stdpp Require Import base list.
From S2P Require Import Prelude Bytes Heap Alloc Pmm PageAlloc Vmm VmmWalk VmmOwned VmmSpec VmmSpace PageOwner Elf ElfLoad.

(** ** The bytes of the page *)

(** the bytes [l] are at offset [o] of the frame *)
Definition stored (r : Z -> Z) (phys o : Z) (l : list Z) : Prop :=
  forall j b, l !! j = Some b -> r (phys + o + Z.of_nat j) = b.

(** nothing outside the frame, and nothing at or above [hi] or below [lo] in it, has changed *)
Definition kept_outside (phys lo hi : Z) (r r' : Z -> Z) : Prop :=
  forall y, ~ phys + lo <= y < phys + hi -> r' y = r y.

Lemma kept_trans phys lo hi lo' hi' r r1 r2 : lo' <= lo -> hi <= hi' -> kept_outside phys lo hi r r1 ->
  forall lo1 hi1, lo' <= lo1 -> hi1 <= hi' -> kept_outside phys lo1 hi1 r1 r2 -> kept_outside phys lo' hi' r r2.
Proof. intros H1 H2 K1 lo1 hi1 H3 H4 K2 y Hy. rewrite K2, K1 by lia. done. Qed.

Lemma stored_kept phys lo hi r r' o l : kept_outside phys lo hi r r' -> o + zlen l <= lo \/ hi <= o ->
  stored r phys o l -> stored r' phys o l.
Proof.
  intros K H S j b Hj. rewrite K; [by apply S |]. apply lookup_lt_Some in Hj. unfold zlen in H. lia.
Qed.

Lemma put_stored phys off l r : frame phys -> 0 <= off -> off + zlen l <= 4096 ->
  exists r', put_page phys off l r = Ok r' /\ stored r' phys off l /\ kept_outside phys off (off + zlen l) r r'.
Proof.
  intros Hf H1 H2. destruct (put_page_ok phys off l r Hf H1 H2) as (r' & E & R). exists r'. split; [done |]. split.
  - intros j b Hj. pose proof (lookup_lt_Some _ _ _ Hj). rewrite R. unfold zlen.
    replace (phys + off + Z.of_nat j - (phys + off)) with (Z.of_nat j) by lia. rewrite Nat2Z.id, nth_lookup, Hj.
    zbool; simpl; done || lia.
  - intros y Hy. rewrite R. zbool; simpl; done || lia.
Qed.

Lemma stored_app r phys o l1 l2 : stored r phys o l1 -> stored r phys (o + zlen l1) l2 -> stored r phys o (l1 ++ l2).
Proof.
  intros S1 S2 j b [Hj | [Hj1 Hj2]]%lookup_app_Some; [by apply S1 |]. specialize (S2 _ _ Hj2). rewrite <- S2. unfold zlen.
  f_equal. lia.
Qed.

(** an argument at the user address [v], which is at offset [v - b] of the page *)
Definition string_at (r : Z -> Z) (phys b lo hi v : Z) (arg : list Z) : Prop :=
  stored r phys (v - b) (arg ++ [0]) /\ lo <= v - b /\ v - b + zlen arg + 1 <= hi.

Lemma push_args_ok phys b l : frame phys -> forall k vs r, 0 <= k <= 4096 ->
  exists o r', push_args l phys k (b + k) vs r = Ok (o, r') /\ kept_outside phys 0 k r r' /\
    match o with
    | None => True
    | Some (k', u', vs') => 0 <= k' <= k /\ u' = b + k' /\
        exists new, vs' = new ++ vs /\ Forall2 (string_at r' phys b k' k) new (rev l)
    end.
Proof.
  intros Hf. induction l as [| arg l IH]; intros k vs r Hk; cbn [push_args].
  { exists (Some (k, b + k, vs)), r. split; [done |]. split; [done |]. split; [lia |]. split; [done |]. by exists []. }
  set (len := zlen arg + 1). assert (0 <= zlen arg) by (unfold zlen; lia).
  destruct (Z.ltb_spec k len) as [Hlt | Hge]; [by exists None, r |].
  destruct (put_stored phys (k - len) (arg ++ [0]) r Hf) as (r1 & -> & S1 & K1);
    [lia | rewrite zlen_app; unfold zlen at 2; simpl; lia |].
  cbn [res_bind]. replace (b + k - len) with (b + (k - len)) by lia.
  assert (E1 : zlen (arg ++ [0]) = len) by (rewrite zlen_app; done). rewrite E1 in K1.
  destruct (IH (k - len) (b + (k - len) :: vs) r1 ltac:(lia)) as (o & r' & -> & K2 & R). exists o, r'. split; [done |].
  split; [by eapply (kept_trans phys (k - len) (k - len + len)); [| | exact K1 | | | exact K2]; lia |].
  destruct o as [[[k' u'] vs'] |]; [| done]. destruct R as (Hk' & -> & new & -> & HF). split; [lia |]. split; [done |].
  exists (new ++ [b + (k - len)]). split; [by rewrite <- app_assoc |]. cbn [rev]. apply Forall2_app.
  - eapply Forall2_impl; [exact HF |]. intros v s (S & L & H'). split_and!; [done | lia | lia].
  - constructor; [| constructor]. unfold string_at. replace (b + (k - len) - b) with (k - len) by lia.
    split_and!; [| lia | lia]. eapply stored_kept; [exact K2 | right; lia | exact S1].
Qed.

Definition qwords (l : list Z) : list Z := concat (map (enc 8) l).

Lemma qwords_length l : zlen (qwords l) = 8 * Z.of_nat (length l).
Proof. induction l as [| q l IH]; [done |]. unfold qwords. cbn [map concat]. rewrite zlen_app. fold (qwords l). rewrite IH.
  unfold zlen. rewrite enc_length. simpl length. lia. Qed.

Lemma put_qwords_ok phys l : frame phys -> forall k r, 0 <= k -> k + 8 * Z.of_nat (length l) <= 4096 ->
  exists r', put_qwords phys k l r = Ok r' /\ stored r' phys k (qwords l) /\
    kept_outside phys k (k + 8 * Z.of_nat (length l)) r r'.
Proof.
  intros Hf. induction l as [| q l IH]; intros k r Hk Hl; cbn [put_qwords length] in *; [by exists r |].
  assert (E8 : zlen (enc 8 q) = 8) by (unfold zlen; by rewrite enc_length).
  destruct (put_stored phys k (enc 8 q) r Hf Hk ltac:(lia)) as (r1 & -> & S1 & K1). cbn [res_bind]. rewrite E8 in K1.
  destruct (IH (k + 8) r1 ltac:(lia) ltac:(lia)) as (r' & -> & S2 & K2). exists r'. split; [done |]. split.
  - apply stored_app; [eapply stored_kept; [exact K2 | left; lia | exact S1] | by rewrite E8].
  - eapply (kept_trans phys k (k + 8)); [| | exact K1 | | | exact K2]; lia.
Qed.

Definition STACK_PAGE : Z := USER_STACK_TOP - 4096.

(** the words at the stack pointer [usp] and the strings above them *)
Definition stack_image (r : Z -> Z) (phys usp : Z) (args : list (list Z)) : Prop :=
  let n := Z.of_nat (length args) in
  STACK_PAGE <= usp /\ usp mod 8 = 0 /\ usp - STACK_PAGE + 8 * (n + 2) <= 4096 /\
  exists vs, stored r phys (usp - STACK_PAGE) (qwords (n :: vs ++ [0])) /\
    Forall2 (string_at r phys STACK_PAGE (usp - STACK_PAGE + 8 * (n + 2)) 4096) vs args.

Lemma fill_stack_ok args phys r : frame phys ->
  exists o r', fill_stack (Z.of_nat (length args)) args phys r = Ok (o, r') /\ kept_outside phys 0 4096 r r' /\
    match o with None => True | Some usp => stack_image r' phys usp args end.
Proof.
  intros Hf. unfold fill_stack. set (n := Z.of_nat (length args)).
  destruct (push_args_ok phys STACK_PAGE (rev args) Hf 4096 [] r ltac:(lia)) as (o & r1 & E & K1 & R).
  change (STACK_PAGE + 4096) with USER_STACK_TOP in E. rewrite E. cbn [res_bind].
  destruct o as [[[k u] vs] |]; [| by exists None, r1]. destruct R as (Hk & -> & new & -> & HF).
  rewrite rev_involutive in HF. rewrite app_nil_r. pose proof (Forall2_length _ _ _ HF) as HL.
  assert (Ha : 0 <= (STACK_PAGE + k) mod 8 < 8) by (apply Z.mod_pos_bound; lia). set (al := (STACK_PAGE + k) mod 8) in *.
  destruct (Z.ltb_spec k al); [by exists None, r1 |].
  destruct (Z.ltb_spec ((k - al) / 8) (n + 2)) as [Hc | Hc]; [by exists None, r1 |].
  assert (Hn : 8 * (n + 2) <= k - al) by zlia. set (o := k - al - (n + 2) * 8).
  assert (Hlen : length (n :: new ++ [0]) = S (S (length args))) by (cbn [length]; rewrite length_app, HL; simpl; lia).
  assert (HlenZ : 8 * Z.of_nat (length (n :: new ++ [0])) = 8 * (n + 2)) by (rewrite Hlen; unfold n; lia).
  destruct (put_qwords_ok phys (n :: new ++ [0]) Hf o r1) as (r2 & -> & S2 & K2); [unfold o; lia | unfold o; lia |].
  cbn [res_bind]. rewrite HlenZ in K2. eexists (Some _), r2. split; [reflexivity |].
  split; [by eapply (kept_trans phys 0 4096); [| | exact K1 | | | exact K2]; unfold o; lia |].
  unfold stack_image. fold n. replace (STACK_PAGE + k - al - (n + 2) * 8 - STACK_PAGE) with o by (unfold o; lia).
  split; [unfold o in *; lia |]. split; [unfold al; zlia |]. split; [unfold o; lia |]. exists new. split; [done |].
  eapply Forall2_impl; [exact HF |]. intros v s (S & L & H'). split_and!; [| unfold o; lia | lia].
  eapply stored_kept; [exact K2 | right; unfold o; lia | exact S].
Qed.

(** ** The stack of a process *)

Section Stack.
Context {A : Type} {AL : Allocator A} {P : Type} {PA : PageAllocator P} (root : Z) (Kt : list Z) (m0 : tables).

Abbreviation trans s x := (translate (tabs (vmem s)) root x).

(** the process finds the bytes [l] at the address [x] *)
Definition reads (s : machine P) (x : Z) (l : list Z) : Prop :=
  forall j b, l !! j = Some b -> user_byte root s (x + Z.of_nat j) = Some b.

Definition stack_layout (s : machine P) (usp : Z) (args : list (list Z)) : Prop :=
  let n := Z.of_nat (length args) in
  STACK_PAGE <= usp /\ usp mod 8 = 0 /\
  exists vs, reads s usp (qwords (n :: vs ++ [0])) /\
    Forall2 (fun v arg => reads s v (arg ++ [0]) /\ usp + 8 * (n + 2) <= v /\ v + zlen arg + 1 <= USER_STACK_TOP) vs args.

Lemma stack_page_range : user_range STACK_PAGE.
Proof. by vm_compute. Qed.

Lemma stack_page_path x : STACK_PAGE <= x < USER_STACK_TOP -> path x = path STACK_PAGE /\ x = STACK_PAGE + x mod 4096.
Proof.
  unfold STACK_PAGE, USER_STACK_TOP. intros Hx. split; [| zlia].
  rewrite user_same_page by (unfold user_range; lia). zlia.
Qed.

Lemma stored_reads v r phys q x l : translate (tabs v) root STACK_PAGE = Some (phys, q) ->
  stored r phys (x - STACK_PAGE) l -> STACK_PAGE <= x -> x + zlen l <= USER_STACK_TOP -> reads (mk_machine v r) x l.
Proof.
  intros T S H1 H2 j b Hj. pose proof (lookup_lt_Some _ _ _ Hj). unfold zlen in H2.
  destruct (stack_page_path (x + Z.of_nat j) ltac:(lia)) as [Ep Eo]. unfold user_byte, physical. cbn [vmem ram].
  rewrite (translate_path _ _ _ _ Ep), T. simpl. f_equal. rewrite <- (S j b Hj). f_equal. lia.
Qed.

Lemma image_layout v r phys q usp args : translate (tabs v) root STACK_PAGE = Some (phys, q) ->
  stack_image r phys usp args -> stack_layout (mk_machine v r) usp args.
Proof.
  intros T (H1 & H2 & H3 & vs & S & HF). split; [done |]. split; [done |]. exists vs.
  pose proof (Forall2_length _ _ _ HF) as HL. assert (EP : STACK_PAGE + 4096 = USER_STACK_TOP) by done. split.
  - eapply stored_reads; [exact T | exact S | done |]. rewrite qwords_length. cbn [length]. rewrite length_app, HL. simpl. lia.
  - eapply Forall2_impl; [exact HF |]. intros x arg (Sx & L & H). split; [| lia].
    eapply stored_reads; [exact T | exact Sx | lia |]. rewrite zlen_app. unfold zlen at 2. simpl. lia.
Qed.

(** addresses outside the stack page translate and read as before *)
Definition off_stack (s s' : machine P) : Prop :=
  forall x, user_range x -> path x <> path STACK_PAGE -> trans s' x = trans s x /\ user_byte root s' x = user_byte root s x.

(** frames other than the stack's keep their bytes *)
Lemma off_stack_ram s v r' phys : (forall x, path x <> path STACK_PAGE -> translate (tabs v) root x = trans s x) ->
  (forall x pg q, user_range x -> path x <> path STACK_PAGE -> translate (tabs v) root x = Some (pg, q) -> frame pg /\ pg <> phys) ->
  frame phys -> kept_outside phys 0 4096 (ram s) r' -> off_stack s (mk_machine v r').
Proof.
  intros T N [_ Hf] K x Hx Hp. cbn [vmem]. split; [by apply T |]. unfold user_byte, physical. cbn [vmem ram].
  rewrite <- (T x Hp). destruct (translate (tabs v) root x) as [[pg q] |] eqn:E; [| done]. simpl. f_equal.
  destruct (N x pg q Hx Hp E) as [[_ Hg] Ng]. apply K. intros Hin. apply Ng. zlia.
Qed.

(** the two error exits that undo the mapping *)
Lemma stack_fail_ok s v r' phys U M D : user_space root Kt m0 v U ((path STACK_PAGE, phys) :: M) D -> frame phys ->
  translate (tabs v) root STACK_PAGE = Some (phys, 6) ->
  (forall x, path x <> path STACK_PAGE -> translate (tabs v) root x = trans s x) ->
  kept_outside phys 0 4096 (ram s) r' ->
  exists s' M', stack_fail root phys (mk_machine v r') = Ok s' /\ user_space root Kt m0 (vmem s') U M' D /\
    trans s' STACK_PAGE = None /\ off_stack s s'.
Proof.
  intros HS Hf T O K. unfold stack_fail. cbn [vmem]. fold STACK_PAGE.
  destruct (user_unmap _ _ _ v U _ D STACK_PAGE HS stack_page_range) as (c & m' & -> & T' & O' & R).
  cbn [res_bind]. rewrite T in R. destruct R as (M' & HS').
  destruct (user_free _ _ _ _ _ _ _ _ HS') as (p & E & HS2). cbn [frames with_tabs] in E. rewrite E. cbn [res_bind].
  eexists _, M'. split; [reflexivity |]. split; [exact HS2 |]. split; [exact T' |].
  eapply (off_stack_ram _ (mk_vm m' p) _ phys); [| | done | done].
  - intros x Hp. cbn [tabs]. rewrite O' by done. by apply O.
  - intros x pg q Hx _ E2. cbn [tabs] in E2. split; [by eapply backed_frame; [apply HS2 | |] |].
    intros ->. apply (user_unshared _ _ _ _ _ _ _ x phys q HS' Hx E2). lmem.
Qed.

Lemma setup_user_stack_ok argc argv a s U M D R : user_space root Kt m0 (vmem s) U M D -> Alloc.live a R ->
  trans s STACK_PAGE = None -> (forall l, argv = Some l -> argc <= Z.of_nat (length l)) ->
  exists usp ph a' s' U' M', setup_user_stack root argc argv a s = Ok (usp, ph, a', s') /\ Alloc.live a' R /\
    user_space root Kt m0 (vmem s') U' M' D /\ off_stack s s' /\
    (usp = 0 /\ trans s' STACK_PAGE = None \/
     usp <> 0 /\ trans s' STACK_PAGE = Some (ph, Z.lor PTE_WRITABLE PTE_USER) /\
     exists l, argv = Some l /\ 1 <= argc /\ stack_layout s' usp (take (Z.to_nat argc) l)).
Proof.
  intros HS HL T Hargs. assert (Off : off_stack s s) by (by intros x _ _).
  destruct argv as [argv |]; [specialize (Hargs argv eq_refl) | by exists 0, 0, a, s, U, M; split_and!; auto].
  unfold setup_user_stack. change (UINT64_MAX / 8 - 2) with 2305843009213693949.
  destruct (Z.ltb_spec argc 1); [by exists 0, 0, a, s, U, M; split_and!; auto |].
  destruct (Z.ltb_spec 2305843009213693949 argc); [by exists 0, 0, a, s, U, M; split_and!; auto |]. cbn [orb].
  destruct (user_alloc _ _ _ (vmem s) U M D HS) as (phys & p & -> & HA). cbn [res_bind].
  destruct HA as [[-> ->] | [Hf HS1]].
  { eexists 0, 0, a, _, U, M. split; [reflexivity |]. cbn [vmem]. destruct s as [[m fr] r]. by split_and!; auto. }
  rewrite (proj2 (Z.eqb_neq phys 0)) by (destruct Hf; lia). unfold vmm_map_user. fold STACK_PAGE.
  destruct (user_map _ _ _ _ U M D STACK_PAGE phys (Z.lor (Z.lor PTE_PRESENT PTE_WRITABLE) PTE_USER) HS1 Hf stack_page_range
    ltac:(by vm_compute) T) as (c & v & U' & -> & [(-> & KP & HS2) | (-> & HS2 & T2 & O)]); cbn [res_bind negb Z.eqb].
  { destruct (user_free _ _ _ v U' M phys D HS2) as (p2 & -> & HS3). cbn [res_bind].
    eexists 0, 0, a, _, U', M. split; [reflexivity |]. split; [done |]. split; [exact HS3 |]. split.
    - intros x _ _. unfold user_byte, physical. cbn [vmem ram tabs]. by rewrite (keeps_eq _ _ _ _ KP).
    - left. split; [done |]. cbn [vmem tabs]. by rewrite (keeps_eq _ _ _ _ KP). }
  destruct (kmalloc_live a R (argc * 8) HL ltac:(lia)) as (av & a1 & -> & Hav). cbn [res_bind].
  assert (Fail : forall r', kept_outside phys 0 4096 (ram s) r' -> exists s' M', stack_fail root phys (mk_machine v r') = Ok s' /\
    user_space root Kt m0 (vmem s') U' M' D /\ trans s' STACK_PAGE = None /\ off_stack s s')
    by (intros r' Kr; by apply (stack_fail_ok s v r' phys U' M)).
  destruct Hav as [[-> HL1] | [Hav HL1]]; [cbn [Z.eqb] | rewrite (proj2 (Z.eqb_neq av 0)) by lia].
  { destruct (Fail (ram s) ltac:(done)) as (s' & M' & -> & HS3 & T3 & O3). cbn [res_bind].
    exists 0, 0, a1, s', U', M'. split_and!; auto. }
  unfold read_args. rewrite (proj2 (Z.leb_le argc _)) by done. cbn [res_bind]. set (args := take (Z.to_nat argc) argv).
  assert (En : Z.of_nat (length args) = argc) by (unfold args; rewrite length_take; lia).
  destruct (fill_stack_ok args phys (ram s) Hf) as (o & r' & E & Kr & R'). rewrite En in E. rewrite E. cbn [res_bind].
  destruct (kfree_live a1 R av (argc * 8) HL1) as (a2 & -> & HL2). cbn [res_bind].
  destruct o as [usp |].
  2:{ destruct (Fail r' Kr) as (s' & M' & -> & HS3 & T3 & O3). cbn [res_bind]. exists 0, 0, a2, s', U', M'. split_and!; auto. }
  exists usp, phys, a2. eexists _, U', _. split; [reflexivity |]. split; [done |]. split; [exact HS2 |]. split.
  { apply (off_stack_ram s v r' phys); [exact O | | done | done]. intros x pg q Hx Hp E2.
    split; [by eapply backed_frame; [apply HS2 | |] |]. intros ->. apply Hp.
    eapply backed_inj; [apply HS2 | done | exact stack_page_range | exact E2 | exact T2]. }
  right. split; [destruct R' as [Hu _]; unfold STACK_PAGE, USER_STACK_TOP in Hu; lia |]. split; [exact T2 |].
  exists argv. split; [done |]. split; [done |]. by eapply image_layout.
Qed.
End Stack.
