(* ===== verification/Process.v ===== *)
(** * Threads and user processes ([kernel/thread.c], [kernel/elf_loader.c])

    The composition of the loader of Elf.v with the address spaces of Vmm.v, the
    areas of Vma.v and the two allocators: [create_elf_process] builds a user
    thread from the bytes of a file, [thread_destroy] takes one apart.  A thread
    control block is a heap block; the record carries its address and the fields
    that own something or that the first switch to the thread uses.  [sys] is what
    the two functions change. *)

From stdpp Require Import base list.
From S2P Require Import Prelude Bytes Heap Alloc Vma Pmm PageAlloc Vmm VmmWalk VmmOwned VmmSpec VmmSpace PageOwner ModuleAlloc Elf ElfLoad.

(** ** Data *)

(** [sizeof(struct thread)] and the kernel stacks *)
Definition THREAD_SIZE : Z := 1024.
Definition STACK_SIZE : Z := 131072.
Definition KERNEL_STACK_SIZE : Z := 131072.

(** pointers are addresses, 0 for NULL; [saved] are the words of the first
    context on the kernel stack *)
Record thread := mk_thread {
  self : Z; id : Z; pml4_phys : Z; target_cpu : Z; is_idle : bool; is_user : bool; entry_point : Z;
  entry_args_owned : Z; user_stack : Z; kernel_stack : Z; kernel_stack_base : Z; elf_load_addr : Z; elf_size : Z;
  user_stack_phys : Z; rsp : Z; vma_list : list vma; saved : list (Z * Z) }.

Record sys (A P : Type) := mk_sys { heap : A; mach : machine P; user_count : Z; kernel_count : Z }.
Arguments mk_sys {A P} _ _ _ _.
Arguments heap {A P} _.
Arguments mach {A P} _.
Arguments user_count {A P} _.
Arguments kernel_count {A P} _.

(** after [memset]; the priorities are the subject of Priority.v *)
Definition blank (p : Z) : thread := mk_thread p 0 0 0 false false 0 0 0 0 0 0 0 0 0 [] [].

(** words pushed downwards from [top]: the stack pointer and the stores *)
Fixpoint push_words (top : Z) (l : list Z) : Z * list (Z * Z) :=
  match l with
  | [] => (top, [])
  | w :: l => let (sp, ws) := push_words (top - 8) l in (sp, (top - 8, w) :: ws)
  end.

(** the addresses of [arch_user_thread_entry_stub] and [ret_from_fork] *)
Section Threads.
Context (user_entry_stub ret_from_fork : Z).

Definition arch_thread_init_user_frame (t stack_top : Z) : Z * list (Z * Z) :=
  push_words (stack_top - 15 * 8) [user_entry_stub; 0x202; 0; 0; 0; 0; 0; 0; t].

(** a misaligned stack is a trap *)
Definition arch_thread_init_frame (stack_top entry data : Z) : res (Z * list (Z * Z)) :=
  if negb (Z.land stack_top 15 =? 0) then Fault
  else Ok (push_words stack_top [0; ret_from_fork; 0x202; 0; 0; 0; 0; 0; entry; data]).

(** the state of the module allocator, for the region's bounds *)
Context (area : module_area).
Context {A : Type} {AL : Allocator A} {P : Type} {PA : PageAllocator P}.
Abbreviation sys := (sys A P).

Definition with_heap (a : A) (st : sys) : sys := mk_sys a (mach st) (user_count st) (kernel_count st).
Definition with_mach (m : machine P) (st : sys) : sys := mk_sys (heap st) m (user_count st) (kernel_count st).

(** ** [thread_destroy] *)

Definition thread_destroy (t : option thread) (st : sys) : res sys :=
  match t with
  | None => Ok st
  | Some t =>
      let! a := kfree (entry_args_owned t) (heap st) in
      let! a := if negb (elf_load_addr t =? 0) && negb (module_region_contains area (elf_load_addr t))
                then kfree (elf_load_addr t) a else Ok a in
      let! a := vma_destroy_all (vma_list t) a in
      let! m := if pml4_phys t =? 0 then Ok (mach st)
                else
                  let v := vmem (mach st) in
                  let! p := vmm_destroy_level 4 (pml4_phys t) (tabs v) (frames v) in
                  Ok (mk_machine (mk_vm (tabs v) p) (ram (mach st))) in
      let! a := if negb (kernel_stack t =? 0) && negb (is_idle t) then kfree (kernel_stack_base t) a else Ok a in
      let! a := if is_idle t then Ok a else kfree (self t) a in
      Ok (mk_sys a m (user_count st) (kernel_count st))
  end.

(** ** Kernel threads *)

(** without a block for the thread NULL; without one for its stack, panic *)
Definition thread_create_common (entry data : Z) (st : sys) : res (option thread * sys) :=
  let! (p, a) := kmalloc THREAD_SIZE (heap st) in
  if p =? 0 then Ok (None, with_heap a st)
  else
    let! (stack, a) := kmalloc (STACK_SIZE + 16) a in
    if stack =? 0 then Panic
    else
      let stack_top := align_down 16 (u64 (stack + STACK_SIZE)) in
      let! (sp, words) := arch_thread_init_frame stack_top entry data in
      if negb (Z.land sp 15 =? 0) then Panic
      else Ok (Some (mk_thread p 0 0 (-1) false false entry 0 0 stack_top stack 0 0 0 sp [] words), with_heap a st).

Definition with_id (i : Z) (t : thread) : thread :=
  mk_thread (self t) i (pml4_phys t) (target_cpu t) (is_idle t) (is_user t) (entry_point t) (entry_args_owned t)
    (user_stack t) (kernel_stack t) (kernel_stack_base t) (elf_load_addr t) (elf_size t) (user_stack_phys t) (rsp t)
    (vma_list t) (saved t).

(** [THREAD_SET_KERNEL_PID] *)
Definition kernel_pid (st : sys) : Z * sys :=
  let n := i64 (kernel_count st + 1) in (i64 (- n), mk_sys (heap st) (mach st) (user_count st) n).

Definition thread_create (entry data : Z) (st : sys) : res (option thread * sys) :=
  let! (t, st) := thread_create_common entry data st in
  match t with
  | None => Ok (None, st)
  | Some t => let (i, st) := kernel_pid st in Ok (Some (with_id i t), st)
  end.

Definition thread_create_on (entry data cpu : Z) (st : sys) : res (option thread * sys) :=
  let! (t, st) := thread_create entry data st in
  match t with
  | None => Ok (None, st)
  | Some t =>
      Ok (Some (mk_thread (self t) (id t) (pml4_phys t) cpu (is_idle t) (is_user t) (entry_point t) (entry_args_owned t)
        (user_stack t) (kernel_stack t) (kernel_stack_base t) (elf_load_addr t) (elf_size t) (user_stack_phys t) (rsp t)
        (vma_list t) (saved t)), st)
  end.

(** an idle thread keeps the identifier 0 *)
Definition thread_create_idle (entry data : Z) (st : sys) : res (option thread * sys) :=
  let! (t, st) := thread_create_common entry data st in
  match t with
  | None => Ok (None, st)
  | Some t =>
      if negb (id t =? 0) then Panic
      else Ok (Some (mk_thread (self t) (id t) (pml4_phys t) (target_cpu t) true (is_user t) (entry_point t)
        (entry_args_owned t) (user_stack t) (kernel_stack t) (kernel_stack_base t) (elf_load_addr t) (elf_size t)
        (user_stack_phys t) (rsp t) (vma_list t) (saved t)), st)
  end.

(** ** User processes *)

(** the checks of the program headers; [None] is the return of NULL *)
Fixpoint check_phdrs (n : nat) (i : Z) (raw : list Z) (elf_size : Z) (h : Elf64_Ehdr) (entry_mapped : bool) :
  res (option bool) :=
  match n with
  | O => Ok (Some entry_mapped)
  | S n =>
      let! ph := read_phdr raw (e_phoff h + i * PHDR_SIZE) in
      if negb (p_type ph =? PT_LOAD) then check_phdrs n (i + 1) raw elf_size h entry_mapped
      else if (p_memsz ph <? p_filesz ph) || (elf_size <? p_offset ph) || (elf_size - p_offset ph <? p_filesz ph) ||
              (USER_STACK_TOP <=? p_vaddr ph) || (USER_STACK_TOP - p_vaddr ph <? p_memsz ph) then Ok None
      else
        let hit := has (p_flags ph) PF_X && (p_vaddr ph <=? e_entry h) && (e_entry h - p_vaddr ph <? p_memsz ph) in
        check_phdrs n (i + 1) raw elf_size h (entry_mapped || hit)
  end.

(** the validation before anything is allocated: the header, if all is well *)
Definition check_image (raw : list Z) (elf_size : Z) : res (option Elf64_Ehdr) :=
  if elf_size <? EHDR_SIZE then Ok None
  else
    let! h := read_ehdr raw 0 in
    if negb (elf_check (Some h) =? 0) || negb (e_type h =? ET_EXEC) || negb (e_phentsize h =? PHDR_SIZE) ||
       (e_phnum h =? 0) || (elf_size <? e_phoff h) || ((elf_size - e_phoff h) / PHDR_SIZE <? e_phnum h) then Ok None
    else if negb (e_machine h =? EM_X86_64) then Ok None
    else
      let! ok := check_phdrs (Z.to_nat (e_phnum h)) 0 raw elf_size h false in
      match ok with Some true => Ok (Some h) | _ => Ok None end.

(** the loading loop; false when [elf_load_segment] fails *)
Fixpoint load_segments (n : nat) (i : Z) (root phoff : Z) (mem : list Z) (m : machine P) : res (bool * machine P) :=
  match n with
  | O => Ok (true, m)
  | S n =>
      let! ph := read_phdr mem (phoff + i * PHDR_SIZE) in
      if negb (p_type ph =? PT_LOAD) then load_segments n (i + 1) root phoff mem m
      else
        let! (b, m) := elf_load_segment root ph mem true m in
        if b then load_segments n (i + 1) root phoff mem m else Ok (false, m)
  end.

(** from the page table on: [mem] is the copy of the file, [p] the block of the thread *)
Definition build_process (kernel_pml4 mem p : Z) (file : list Z) (argc : Z) (argv : option (list (list Z))) (st : sys) :
  res (option thread * sys) :=
  let! (root, v) := vmm_create_user_pml4 kernel_pml4 (vmem (mach st)) in
  let m := mk_machine v (ram (mach st)) in
  (** the thread as the error paths destroy it *)
  let t := mk_thread p 0 root 0 false false 0 0 0 0 0 mem (zlen file) 0 0 [] [] in
  let fail a m := let! st := thread_destroy (Some t) (mk_sys a m (user_count st) (kernel_count st)) in Ok (None, st) in
  if root =? 0 then fail (heap st) m
  else
    let! h := read_ehdr file 0 in
    let! (b, m) := load_segments (Z.to_nat (e_phnum h)) 0 root (e_phoff h) file m in
    if negb b then fail (heap st) m
    else
      let! (usp, phys, a, m) := setup_user_stack root argc argv (heap st) m in
      if usp =? 0 then fail a m
      else
        let n := i64 (user_count st + 1) in
        let! (stack, a) := kmalloc KERNEL_STACK_SIZE a in
        let st := mk_sys a m n (kernel_count st) in
        if stack =? 0 then
          let! st := thread_destroy (Some (mk_thread p n root 0 false true (e_entry h) 0 usp 0 0 mem (zlen file) phys 0 [] [])) st in
          Ok (None, st)
        else
          let stack_top := align_down 16 (u64 (stack + KERNEL_STACK_SIZE)) in
          let (sp, words) := arch_thread_init_user_frame p stack_top in
          Ok (Some (mk_thread p n root 0 false true (e_entry h) 0 usp stack_top stack mem (zlen file) phys sp [] words), st).

Definition create_elf_process (kernel_pml4 : Z) (elf_raw : option (list Z)) (elf_size argc : Z) (argv : option (list (list Z)))
  (st : sys) : res (option thread * sys) :=
  match elf_raw with
  | None => Ok (None, st)
  | Some raw =>
      let! ok := check_image raw elf_size in
      match ok with
      | None => Ok (None, st)
      | Some _ =>
          let! (mem, a) := kmalloc elf_size (heap st) in
          if mem =? 0 then Ok (None, with_heap a st)
          else
            let! file := bytes_at raw 0 elf_size in
            let! (p, a) := kmalloc THREAD_SIZE a in
            if p =? 0 then let! a := kfree mem a in Ok (None, with_heap a st)
            else build_process kernel_pml4 mem p file argc argv (with_heap a st)
      end
  end.
End Threads.
