(* ===== verification/ProcessSpec.v ===== *)
(** * Correctness of process creation and destruction

    The image that the loader builds from the whole file, what a new process
    owns, and that destroying it gives everything back. *)

From stdpp Require Import base list.
From S2P Require Import Prelude Bytes Heap Alloc Vma Pmm PageAlloc Vmm VmmWalk VmmOwned VmmSpec VmmSpace PageOwner.
From S2P Require Import ModuleAlloc Elf ElfLoad ElfStack Process.

(** ** Headers that lie in the file *)

Ltac read_le := repeat match goal with
  | HB : bytes ?f, HI : inside ?f _ _ |- context [le ?n ?f ?j] =>
      let v := fresh "v" in let Hv := fresh "Hv" in
      destruct (le_inside n f j HB) as (v & -> & Hv); [red in HI |- *; simpl; lia |]; cbn [res_bind]; simpl in Hv
  end.

Definition phdr_range (ph : Elf64_Phdr) : Prop :=
  is_u64 (p_offset ph) /\ is_u64 (p_vaddr ph) /\ is_u64 (p_filesz ph) /\ is_u64 (p_memsz ph).

Lemma read_phdr_inside f i : bytes f -> inside f i PHDR_SIZE -> exists ph, read_phdr f i = Ok ph /\ phdr_range ph.
Proof.
  intros HB HI. unfold PHDR_SIZE in HI. unfold read_phdr. read_le.
  eexists. split; [reflexivity |]. unfold phdr_range, is_u64. simpl. lia.
Qed.

Lemma read_ehdr_inside f i : bytes f -> inside f i EHDR_SIZE -> exists h, read_ehdr f i = Ok h /\
  0 <= e_phnum h < 65536 /\ is_u64 (e_phoff h) /\ is_u64 (e_entry h).
Proof.
  intros HB HI. unfold EHDR_SIZE in HI. unfold read_ehdr.
  rewrite bytes_at_inside by (red in HI |- *; lia). cbn [res_bind]. read_le.
  eexists. split; [reflexivity |]. unfold is_u64. simpl. lia.
Qed.

(** the program headers of the file *)
Definition phdr_table (f : list Z) (h : Elf64_Ehdr) (l : list Elf64_Phdr) : Prop :=
  Z.of_nat (length l) = e_phnum h /\
  forall j ph, l !! j = Some ph -> read_phdr f (e_phoff h + Z.of_nat j * PHDR_SIZE) = Ok ph.

Lemma table_exists f off n : bytes f -> inside f off (Z.of_nat n * PHDR_SIZE) ->
  exists l, length l = n /\ Forall phdr_range l /\
    forall j ph, l !! j = Some ph -> read_phdr f (off + Z.of_nat j * PHDR_SIZE) = Ok ph.
Proof.
  intros HB. unfold PHDR_SIZE. revert off. induction n as [| n IH]; intros off HI; [exists []; by split_and!; [| constructor |] |].
  destruct (read_phdr_inside f off HB) as (ph & E & Hr); [unfold PHDR_SIZE; red in HI |- *; lia |].
  destruct (IH (off + 56)) as (l & <- & HF & HL); [red in HI |- *; lia |]. exists (ph :: l). split; [done |].
  split; [by constructor |]. intros [| j] ph' Hj; [injection Hj as <-; by rewrite Z.add_0_r |].
  replace (off + Z.of_nat (S j) * 56) with (off + 56 + Z.of_nat j * 56) by lia. by apply HL.
Qed.

(** an executable segment contains the entry point *)
Definition entry_in (h : Elf64_Ehdr) (ph : Elf64_Phdr) : Prop := has (p_flags ph) PF_X = true /\ in_seg ph (e_entry h) = true.

Definition loadable (l : list Elf64_Phdr) : list Elf64_Phdr := List.filter (fun ph => p_type ph =? PT_LOAD) l.

Lemma check_phdrs_ok f h : zlen f <= 2147483647 -> forall l i em, Forall phdr_range l ->
  (forall j ph, l !! j = Some ph -> read_phdr f (e_phoff h + (i + Z.of_nat j) * PHDR_SIZE) = Ok ph) ->
  exists o, check_phdrs (length l) i f (zlen f) h em = Ok o /\
    forall b, o = Some b -> Forall (fun ph => p_type ph = PT_LOAD -> seg_ok f ph) l /\
      (b = true -> em = true \/ Exists (entry_in h) (loadable l)).
Proof.
  intros Hf. induction l as [| ph l IH]; intros i em HF HR.
  { exists (Some em). split; [done |]. intros b [= <-]. auto. }
  apply Forall_cons in HF as [HP HF]. cbn [length check_phdrs].
  pose proof (HR 0%nat ph eq_refl) as E0. rewrite Z.add_0_r in E0. rewrite E0. cbn [res_bind].
  assert (HR' : forall j ph', l !! j = Some ph' -> read_phdr f (e_phoff h + (i + 1 + Z.of_nat j) * PHDR_SIZE) = Ok ph').
  { intros j ph' Hj. replace (i + 1 + Z.of_nat j) with (i + Z.of_nat (S j)) by lia. by apply HR. }
  cbn [loadable List.filter]. destruct (Z.eqb_spec (p_type ph) PT_LOAD) as [Ep | Ep]; cbn [negb].
  2:{ destruct (IH (i + 1) em HF HR') as (o & -> & Ho). exists o. split; [done |]. intros b Hb.
      destruct (Ho b Hb) as [H1 H2]. split; [by constructor | done]. }
  destruct (_ || _ || _ || _ || _) eqn:Eb; [by exists None |]. repeat apply orb_false_iff in Eb as [Eb ?].
  assert (OK : seg_ok f ph).
  { destruct HP as (P1 & P2 & P3 & P4). unfold is_u64, seg_ok, zlen in *. zbool; try done; lia. }
  set (hit := has _ _ && _ && _). destruct (IH (i + 1) (em || hit) HF HR') as (o & -> & Ho). exists o. split; [done |].
  intros b Hb. destruct (Ho b Hb) as [H1' H2']. split; [by constructor |]. intros Hb'.
  destruct (H2' Hb') as [[He | He]%orb_prop | He]; [by left | right; left | right; by right].
  unfold hit in He. apply andb_prop in He as [[Hx He1%Z.leb_le]%andb_prop He2%Z.ltb_lt]. split; [done |].
  unfold in_seg. zbool; simpl; done || lia.
Qed.

(** what acceptance by the checks means *)
Definition image_ok (f : list Z) (h : Elf64_Ehdr) (l : list Elf64_Phdr) : Prop :=
  read_ehdr f 0 = Ok h /\ elf_check (Some h) = 0 /\ e_type h = ET_EXEC /\ e_machine h = EM_X86_64 /\ phdr_table f h l /\
  Forall (fun ph => p_type ph = PT_LOAD -> seg_ok f ph) l /\ Exists (entry_in h) (loadable l).

Lemma check_image_ok f : bytes f -> zlen f <= 2147483647 ->
  exists o, check_image f (zlen f) = Ok o /\ forall h, o = Some h -> exists l, image_ok f h l.
Proof.
  intros HB Hf. unfold check_image, EHDR_SIZE. destruct (Z.ltb_spec (zlen f) 64) as [| Hl]; [by exists None |].
  destruct (read_ehdr_inside f 0 HB) as (h & E & Hn & Hp & He); [unfold EHDR_SIZE; red; unfold zlen in *; lia |].
  rewrite E. cbn [res_bind]. destruct (_ || _ || _ || _ || _ || _) eqn:Eb; [by exists None |].
  repeat apply orb_false_iff in Eb as [Eb ?]. destruct (Z.eqb_spec (e_machine h) EM_X86_64); cbn [negb]; [| by exists None].
  apply negb_false_iff, Z.eqb_eq in Eb. unfold PHDR_SIZE, is_u64, zlen in *.
  destruct (table_exists f (e_phoff h) (Z.to_nat (e_phnum h)) HB) as (l & Hlen & HF & HR).
  { unfold PHDR_SIZE. red. zbool; try done. zlia. }
  destruct (check_phdrs_ok f h Hf l 0 false HF) as (o & Eo & Ho); [by intros j ph Hj; apply HR |].
  rewrite <- Hlen. unfold zlen in Eo. rewrite Eo. cbn [res_bind]. destruct o as [[|] |]; [| by exists None | by exists None].
  exists (Some h). split; [done |]. intros h' [= <-]. destruct (Ho true eq_refl) as [H1' H2']. exists l.
  split; [done |]. split; [done |]. split; [zbool; done |]. split; [done |]. split; [split; [lia | done] |].
  split; [done |]. by destruct (H2' eq_refl).
Qed.

(** ** The image of the file *)

(** [x] is on a page of the segment *)
Definition touches (ph : Elf64_Phdr) (x : Z) : bool :=
  (p_vaddr ph / 4096 <=? x / 4096) && (x / 4096 <? p_vaddr ph / 4096 + num_pages ph).

(** the byte of the last segment that contains [x], the rights of the first whose
    pages do *)
Fixpoint image_byte (f : list Z) (l : list Elf64_Phdr) (x : Z) : option Z :=
  match l with
  | [] => None
  | ph :: l =>
      match image_byte f l x with
      | Some c => Some c
      | None => if in_seg ph x then Some (seg_byte f ph x) else None
      end
  end.

Fixpoint image_rights (l : list Elf64_Phdr) (x : Z) : option Z :=
  match l with
  | [] => None
  | ph :: l => if touches ph x then Some (seg_rights ph true) else image_rights l x
  end.

Lemma touches_pages f ph x : seg_ok f ph -> seg_pages ph x <-> touches ph x = true.
Proof.
  intros OK. unfold seg_pages, on_pages, on_page, touches. pose proof (num_pages_eq f ph OK) as EN.
  destruct OK as (H1 & H2 & _). assert (0 <= num_pages ph) by (rewrite EN; zlia).
  assert (EB : seg_base ph / 4096 = p_vaddr ph / 4096) by (unfold seg_base; zlia). rewrite EB.
  rewrite andb_true_iff, Z.leb_le, Z.ltb_lt. split.
  - intros (j & Hj & E). lia.
  - intros [H3 H4]. exists (x / 4096 - p_vaddr ph / 4096). lia.
Qed.

Section Spec.
Context {A : Type} {AL : Allocator A} {P : Type} {PA : PageAllocator P}.

Section Image.
Context (root : Z) (Kt : list Z) (m0 : tables).
Abbreviation trans s x := (translate (tabs (vmem s)) root x).

(** what was there stays, what is new is the image of the segments [l] *)
Record loaded (f : list Z) (l : list Elf64_Phdr) (s s' : machine P) : Prop := {
  ld_old x q : user_range x -> trans s x = Some q -> trans s' x = Some q;
  ld_new x : user_range x -> trans s x = None ->
    match image_rights l x with Some q => exists pg, trans s' x = Some (pg, q) | None => trans s' x = None end;
  ld_byte x : user_range x ->
    match image_byte f l x with Some c => user_byte root s' x = Some c
    | None => trans s x <> None -> user_byte root s' x = user_byte root s x end }.

Lemma loaded_nil f s : loaded f [] s s.
Proof. by split. Qed.

Lemma loaded_cons f ph l s s1 s2 : seg_ok f ph -> advanced root ph true (seg_pages ph) s s1 ->
  complete root f ph (seg_pages ph) s1 -> loaded f l s1 s2 -> loaded f (ph :: l) s s2.
Proof.
  intros OK Ad Co [O N Y]. assert (Hold : forall x q, user_range x -> trans s x = Some q -> trans s1 x = Some q).
  { intros x q Hx E. rewrite (adv_old _ _ _ _ _ _ Ad x Hx); [done | by rewrite E]. }
  split.
  - intros x q Hx E. apply O; auto.
  - intros x Hx E. cbn [image_rights]. destruct (touches ph x) eqn:Et.
    + apply (touches_pages f ph x OK) in Et. destruct (Co x Hx Et) as [Hm _].
      destruct (trans s1 x) as [[pg q] |] eqn:E1; [| done]. exists pg.
      rewrite <- (adv_new _ _ _ _ _ _ Ad x pg q Hx E E1). by apply O.
    + apply N; [done |]. rewrite (adv_out _ _ _ _ _ _ Ad x Hx); [done |]. by rewrite (touches_pages f ph x OK), Et.
  - intros x Hx. cbn [image_byte]. specialize (Y x Hx). destruct (image_byte f l x) as [c |]; [done |].
    destruct (in_seg ph x) eqn:Ei.
    + assert (Ep : seg_pages ph x).
      { apply (touches_pages f ph x OK). unfold touches, in_seg in *. rewrite (num_pages_eq f ph OK).
        apply andb_prop in Ei as [H1%Z.leb_le H2%Z.ltb_lt]. apply andb_true_iff. rewrite Z.leb_le, Z.ltb_lt.
        destruct OK as (H3 & _). zlia. }
      destruct (Co x Hx Ep) as [Hm Hb]. rewrite Y by done. by apply Hb.
    + intros Hm. rewrite Y; [apply (adv_byte _ _ _ _ _ _ Ad x Hx); [by intros [_ ?]; congruence | done] |].
      by rewrite (adv_old _ _ _ _ _ _ Ad x Hx Hm).
Qed.

Lemma load_segments_ok f phoff l : forall i s U M D,
  (forall j ph, l !! j = Some ph -> read_phdr f (phoff + (i + Z.of_nat j) * PHDR_SIZE) = Ok ph) ->
  Forall (fun ph => p_type ph = PT_LOAD -> seg_ok f ph) l -> user_space root Kt m0 (vmem s) U M D ->
  exists b s' U' M' N, load_segments (length l) i root phoff f s = Ok (b, s') /\
    user_space root Kt m0 (vmem s') U' M' (N ++ D) /\
    (forall x, user_range x -> trans s x = None -> image_rights (loadable l) x = None -> trans s' x = None) /\
    (b = true -> N = [] -> loaded f (loadable l) s s').
Proof.
  induction l as [| ph l IH]; intros i s U M D HR HF HS.
  { exists true, s, U, M, []. split; [done |]. split; [done |]. split; [done |]. intros _ _. apply loaded_nil. }
  apply Forall_cons in HF as [HP HF]. cbn [length load_segments].
  pose proof (HR 0%nat ph eq_refl) as E0. rewrite Z.add_0_r in E0. rewrite E0. cbn [res_bind].
  assert (HR' : forall j ph', l !! j = Some ph' -> read_phdr f (phoff + (i + 1 + Z.of_nat j) * PHDR_SIZE) = Ok ph').
  { intros j ph' Hj. replace (i + 1 + Z.of_nat j) with (i + Z.of_nat (S j)) by lia. by apply HR. }
  cbn [loadable List.filter]. destruct (Z.eqb_spec (p_type ph) PT_LOAD) as [Ep | Ep]; cbn [negb]; [| by apply (IH (i + 1) s U M)].
  specialize (HP Ep). destruct (elf_load_segment_ok root Kt m0 f ph true s U M D HP HS) as (b & s1 & U1 & M1 & N1 & -> & HS1 & Ad & Co).
  cbn [res_bind image_rights]. fold (loadable l).
  assert (Out : forall x, user_range x -> trans s x = None -> touches ph x = false -> trans s1 x = None).
  { intros x Hx Hn Ht. rewrite (adv_out _ _ _ _ _ _ Ad x Hx); [done |]. by rewrite (touches_pages f ph x HP), Ht. }
  destruct b.
  2:{ exists false, s1, U1, M1, N1. split; [done |]. split; [done |]. split; [| done].
      intros x Hx Hn Hi. destruct (touches ph x) eqn:Et; [done |]. by apply Out. }
  destruct (IH (i + 1) s1 U1 M1 (N1 ++ D) HR' HF HS1) as (b & s2 & U2 & M2 & N2 & -> & HS2 & Out2 & Ld).
  exists b, s2, U2, M2, (N2 ++ N1). split; [done |]. split; [by rewrite <- app_assoc |]. split.
  - intros x Hx Hn Hi. destruct (touches ph x) eqn:Et; [done |]. apply Out2; [done | by apply Out | done].
  - intros -> [-> ->]%app_nil. by apply (loaded_cons f ph _ s s1 s2); [done | done | apply Co | apply Ld].
Qed.
End Image.

(** ** Destruction *)

Context (stub fork : Z) (area : module_area).

Definition opt_block (p n : Z) : list (Z * Z) := if p =? 0 then [] else [(p, n)].

(** the heap blocks of a thread: its arguments, of [n] bytes, the copy of the file,
    the nodes of its areas, its kernel stack, of [k] bytes, and itself *)
Definition thread_blocks (n k : Z) (t : thread) : list (Z * Z) :=
  opt_block (entry_args_owned t) n ++ opt_block (elf_load_addr t) (elf_size t) ++ nodes (vma_list t) ++
  (if kernel_stack t =? 0 then [] else [(kernel_stack_base t, k)]) ++ [(self t, THREAD_SIZE)].

(** memory of the module region is not given back *)
Definition retained (t : thread) : list (Z * Z) :=
  if module_region_contains area (elf_load_addr t) then opt_block (elf_load_addr t) (elf_size t) else [].

(** the address space of a thread, if it has one, next to the kernel's tables [Kt] and the frames [D] *)
Definition owns_space (Kt : list Z) (m0 : tables) (t : thread) (m : machine P) (D : list Z) : Prop :=
  pml4_phys t = 0 /\ held (frames (vmem m)) (Kt ++ D) \/
  exists U M, user_space (pml4_phys t) Kt m0 (vmem m) U M D.

Lemma kfree_opt (a : A) p n R : Alloc.live a (opt_block p n ++ R) -> exists a', kfree p a = Ok a' /\ Alloc.live a' R.
Proof.
  unfold opt_block. destruct (Z.eqb_spec p 0) as [-> | _]; intros HL; [rewrite kfree_null; eauto | by apply kfree_live in HL].
Qed.

Lemma destroy_space Kt m0 t m D : owns_space Kt m0 t m D ->
  exists m', (if pml4_phys t =? 0 then Ok m
              else let! p := vmm_destroy_level 4 (pml4_phys t) (tabs (vmem m)) (frames (vmem m)) in
                   Ok (mk_machine (mk_vm (tabs (vmem m)) p) (ram m))) = Ok m' /\
    held (frames (vmem m')) (Kt ++ D) /\ tabs (vmem m') = tabs (vmem m) /\ ram m' = ram m.
Proof.
  intros [[-> Hh] | (U & M & HS)]; [by exists m |].
  pose proof (user_root _ _ _ _ _ _ _ HS) as Hr. rewrite (proj2 (Z.eqb_neq _ 0)) by (destruct Hr; lia).
  destruct (destroy_ok (tabs (vmem m)) 4 (pml4_phys t) (frames (vmem m)) (Kt ++ D)) as (p & -> & Hp);
    [by apply frame_is_frame | apply HS | by eapply user_held |]. cbn [res_bind]. by eexists.
Qed.

Lemma thread_destroy_ok Kt m0 t n k (st : sys A P) R D : is_idle t = false ->
  Alloc.live (heap st) (thread_blocks n k t ++ R) -> owns_space Kt m0 t (mach st) D ->
  exists st', thread_destroy area (Some t) st = Ok st' /\ Alloc.live (heap st') (retained t ++ R) /\
    held (frames (vmem (mach st'))) (Kt ++ D) /\ tabs (vmem (mach st')) = tabs (vmem (mach st)) /\
    ram (mach st') = ram (mach st) /\ user_count st' = user_count st /\ kernel_count st' = kernel_count st.
Proof.
  intros Hi HL HO. unfold thread_blocks in HL. rewrite <- !app_assoc in HL. unfold thread_destroy. rewrite Hi.
  destruct (kfree_opt _ _ _ _ HL) as (a1 & -> & HL1). cbn [res_bind].
  set (rest := nodes (vma_list t) ++ (if kernel_stack t =? 0 then [] else [(kernel_stack_base t, k)]) ++ [(self t, THREAD_SIZE)] ++ R) in *.
  assert (exists a2, (if negb (elf_load_addr t =? 0) && negb (module_region_contains area (elf_load_addr t))
    then kfree (elf_load_addr t) a1 else Ok a1) = Ok a2 /\ Alloc.live a2 (retained t ++ rest)) as (a2 & -> & HL2).
  { unfold retained. destruct (Z.eqb_spec (elf_load_addr t) 0) as [E0 | E0]; cbn [negb andb].
    - exists a1. split; [done |]. unfold opt_block in *. rewrite E0 in *. by destruct (module_region_contains area 0).
    - destruct (module_region_contains area (elf_load_addr t)); cbn [negb]; [by exists a1 | by eapply kfree_opt]. }
  cbn [res_bind]. destruct (vma_destroy_all_ok (vma_list t) a2 (retained t ++ (if kernel_stack t =? 0 then [] else [(kernel_stack_base t, k)])
    ++ [(self t, THREAD_SIZE)] ++ R)) as (a3 & -> & HL3).
  { eapply live_perm; [| exact HL2]. unfold rest. rewrite !app_assoc. do 3 apply Permutation_app_tail. apply Permutation_app_comm. }
  cbn [res_bind]. destruct (destroy_space Kt m0 t (mach st) D HO) as (m' & -> & Hh & Ht & Hr). cbn [res_bind].
  assert (exists a4, (if negb (kernel_stack t =? 0) && negb false then kfree (kernel_stack_base t) a3 else Ok a3) = Ok a4 /\
    Alloc.live a4 ((self t, THREAD_SIZE) :: retained t ++ R)) as (a4 & -> & HL4).
  { assert (HP : forall l : list (Z * Z), retained t ++ l ++ [(self t, THREAD_SIZE)] ++ R ≡ₚ l ++ (self t, THREAD_SIZE) :: retained t ++ R).
    { intros l. rewrite app_assoc, (Permutation_app_comm (retained t) l), <- app_assoc. apply Permutation_app_head.
      cbn [app]. symmetry. apply Permutation_middle. }
    apply (live_perm _ _ _ (HP _)) in HL3. destruct (Z.eqb_spec (kernel_stack t) 0); cbn [negb andb]; [by exists a3 |].
    by apply kfree_live in HL3. }
  cbn [res_bind]. destruct (kfree_live _ _ _ _ HL4) as (a5 & -> & HL5). cbn [res_bind].
  eexists. split; [reflexivity |]. by split_and!.
Qed.

(** ** Creation *)

Context (kroot : Z) (Kt : list Z) (m0 : tables).

(** the user half of a process shows the image of the file; the stack page apart *)
Definition process_image (root : Z) (f : list Z) (l : list Elf64_Phdr) (m : machine P) : Prop :=
  forall x, user_range x -> path x <> path STACK_PAGE ->
    match image_rights l x with
    | Some q => exists pg, translate (tabs (vmem m)) root x = Some (pg, q)
    | None => translate (tabs (vmem m)) root x = None
    end /\
    forall c, image_byte f l x = Some c -> user_byte root m x = Some c.

(** a new process: [N] are frames that were allocated but could not be mapped *)
Record new_process (f : list Z) (h : Elf64_Ehdr) (l : list Elf64_Phdr) (args : list (list Z)) (N D : list Z) (R : list (Z * Z))
  (t : thread) (st : sys A P) : Prop := {
  np_fields : entry_point t = e_entry h /\ is_user t = true /\ is_idle t = false /\ vma_list t = [] /\ entry_args_owned t = 0;
  np_blocks : Alloc.live (heap st) (thread_blocks 0 KERNEL_STACK_SIZE t ++ R);
  np_space : exists U M, user_space (pml4_phys t) Kt m0 (vmem (mach st)) U M (N ++ D);
  np_only x : user_range x -> path x <> path STACK_PAGE -> image_rights (loadable l) x = None ->
    translate (tabs (vmem (mach st))) (pml4_phys t) x = None;
  np_image : N = [] -> process_image (pml4_phys t) f (loadable l) (mach st);
  np_stack_page : translate (tabs (vmem (mach st))) (pml4_phys t) STACK_PAGE = Some (user_stack_phys t, Z.lor PTE_WRITABLE PTE_USER);
  np_stack : stack_layout (pml4_phys t) (mach st) (user_stack t) args;
  np_kernel_stack : kernel_stack_base t <= rsp t /\ rsp t < kernel_stack t <= kernel_stack_base t + KERNEL_STACK_SIZE /\
    kernel_stack t mod 16 = 0 /\
    Forall (fun w => rsp t <= w.1 < kernel_stack t) (saved t) }.

(** everything is as before, but for [N] and heap blocks in the module region *)
Definition rolled_back (N D : list Z) (R : list (Z * Z)) (st : sys A P) : Prop :=
  held (frames (vmem (mach st))) (Kt ++ N ++ D) /\
  exists B, Alloc.live (heap st) (B ++ R) /\ Forall (fun b => module_region_contains area b.1 = true) B.

(** no segment reaches the page of the stack *)
Definition below_stack (l : list Elf64_Phdr) : Prop := Forall (fun ph => p_vaddr ph + p_memsz ph <= STACK_PAGE) (loadable l).

Lemma below_stack_rights f h l x : image_ok f h l -> below_stack l -> user_range x -> path x = path STACK_PAGE ->
  image_rights (loadable l) x = None.
Proof.
  intros (_ & _ & _ & _ & _ & HF & _) HB Hx Ep. rewrite (user_same_page x STACK_PAGE Hx stack_page_range) in Ep.
  unfold below_stack, loadable in *. induction l as [| ph l IH]; [done |]. apply Forall_cons in HF as [HP HF]. cbn [List.filter] in *.
  destruct (Z.eqb_spec (p_type ph) PT_LOAD) as [E | E]; [| by apply IH]. apply Forall_cons in HB as [H1 HB]. specialize (HP E).
  cbn [image_rights]. assert (touches ph x = false) as ->; [| by apply IH].
  unfold touches. rewrite Ep, (num_pages_eq f ph HP). destruct HP as ((H2 & H3) & (H4 & H5) & _).
  unfold STACK_PAGE, USER_STACK_TOP in *. apply andb_false_iff. right. apply Z.ltb_ge. zlia.
Qed.

Lemma init_user_frame_ok p base top : 0 < base <= UINT64_MAX - KERNEL_STACK_SIZE ->
  top = align_down 16 (u64 (base + KERNEL_STACK_SIZE)) ->
  let (sp, words) := arch_thread_init_user_frame stub p top in
  top <> 0 /\ base <= sp /\ sp < top <= base + KERNEL_STACK_SIZE /\ top mod 16 = 0 /\ Forall (fun w => sp <= w.1 < top) words.
Proof.
  unfold KERNEL_STACK_SIZE. intros Hb Ht. rewrite u64_small, align_down_16 in Ht by (red; lia).
  unfold arch_thread_init_user_frame. cbn [push_words]. split; [zlia |]. split; [zlia |]. split; [zlia |]. split; [zlia |].
  repeat (constructor; [cbn [fst]; lia |]). constructor.
Qed.

(** the error exits of [create_elf_process] once the thread exists *)
Lemma create_fail mem size p root a m uc kc N D R t : t = mk_thread p (id t) root 0 false (is_user t) (entry_point t) 0 (user_stack t) 0 0 mem size
    (user_stack_phys t) (rsp t) [] [] ->
  0 < mem -> Alloc.live a ((p, THREAD_SIZE) :: (mem, size) :: R) -> owns_space Kt m0 t m (N ++ D) ->
  (forall u j, u ∈ Kt -> tabs (vmem m) u j = m0 u j) ->
  exists st', (let! st := thread_destroy area (Some t) (mk_sys a m uc kc) in Ok (None, st)) = Ok (@None thread, st') /\
    (forall u j, u ∈ Kt -> tabs (vmem (mach st')) u j = m0 u j) /\ rolled_back N D R st'.
Proof.
  intros Et Hm HL HO HK.
  destruct (thread_destroy_ok Kt m0 t 0 0 (mk_sys a m uc kc) R (N ++ D)) as (st' & E & HL' & Hh & Ht & _); [by rewrite Et | | done |].
  { cbn [heap]. eapply live_perm; [| exact HL]. unfold thread_blocks, opt_block. rewrite Et. simpl.
    rewrite (proj2 (Z.eqb_neq mem 0)) by lia. apply Permutation_swap. }
  rewrite E. cbn [res_bind]. exists st'. split; [done |]. split; [by rewrite Ht |]. split; [done |].
  exists (retained t). split; [done |]. unfold retained. destruct (module_region_contains area (elf_load_addr t)) eqn:Em; [| constructor].
  unfold opt_block. destruct (elf_load_addr t =? 0); repeat constructor. done.
Qed.

(** the image after the stack has been added *)
Lemma image_after_stack root f l m1 m2 m3 : (forall x, user_range x -> translate (tabs (vmem m1)) root x = None) ->
  loaded root f l m1 m2 -> off_stack root m2 m3 -> process_image root f l m3.
Proof.
  intros H0 [_ Ln Lb] Off x Hx Hp. destruct (Off x Hx Hp) as [Et Eb]. rewrite Et, Eb. split; [by apply Ln; auto |].
  intros c Hc. specialize (Lb x Hx). by rewrite Hc in Lb.
Qed.

Definition creation (raw : list Z) (argc : Z) (argv : option (list (list Z))) (D : list Z) (R : list (Z * Z))
  (r : res (option thread * sys A P)) : Prop :=
  exists o st' N, r = Ok (o, st') /\ (forall u j, u ∈ Kt -> tabs (vmem (mach st')) u j = m0 u j) /\
    match o with
    | None => rolled_back N D R st'
    | Some t => exists h l av, image_ok raw h l /\ argv = Some av /\ 1 <= argc /\
        new_process raw h l (take (Z.to_nat argc) av) N D R t st'
    end.

Lemma build_process_ok f h l mem p argc argv (st : sys A P) D R : image_ok f h l -> below_stack l ->
  kernel_space kroot Kt m0 (vmem (mach st)) D -> 0 < mem -> 0 < p ->
  Alloc.live (heap st) ((p, THREAD_SIZE) :: (mem, zlen f) :: R) -> (forall l, argv = Some l -> argc <= Z.of_nat (length l)) ->
  creation f argc argv D R (build_process stub area kroot mem p f argc argv st).
Proof.
  intros Him Hbelow HK Hm Hp HL Hargs. unfold build_process, creation.
  destruct (new_user_space kroot Kt m0 (vmem (mach st)) D HK) as (root & v & -> & HKv & Hroot). cbn [res_bind].
  set (t0 := mk_thread p 0 root 0 false false 0 0 0 0 0 mem (zlen f) 0 0 [] []). set (m1 := mk_machine v (ram (mach st))).
  destruct Hroot as [[-> Hh1] | [HS Hempty]]; [cbn [Z.eqb] |].
  { destruct (create_fail mem (zlen f) p 0 (heap st) m1 (user_count st) (kernel_count st) [] D R t0) as (st' & -> & HK' & Hr);
      [done | lia | done | by left | done |]. by exists None, st', []. }
  pose proof (user_root _ _ _ _ _ _ _ HS) as Hfr. rewrite (proj2 (Z.eqb_neq root 0)) by (destruct Hfr; lia).
  pose proof Him as (Eh & _ & _ & _ & [Hn Ht] & HF & _). rewrite Eh. cbn [res_bind]. rewrite <- Hn, Nat2Z.id.
  destruct (load_segments_ok root Kt m0 f (e_phoff h) l 0 m1 [root] [] D) as (b & m2 & U2 & M2 & N & -> & HS2 & Out & Ld);
    [exact Ht | done | done |]. cbn [res_bind].
  destruct b; cbn [negb].
  2:{ destruct (create_fail mem (zlen f) p root (heap st) m2 (user_count st) (kernel_count st) N D R t0) as (st' & -> & HK' & Hr);
        [done | lia | done | right; by exists U2, M2 | by apply HS2 |]. by exists None, st', N. }
  assert (Hsp : translate (tabs (vmem m2)) root STACK_PAGE = None).
  { apply Out; [exact stack_page_range | by apply Hempty, stack_page_range |].
    apply (below_stack_rights f h l STACK_PAGE Him Hbelow stack_page_range eq_refl). }
  destruct (setup_user_stack_ok root Kt m0 argc argv (heap st) m2 U2 M2 (N ++ D) _ HS2 HL Hsp Hargs)
    as (usp & phys & a3 & m3 & U3 & M3 & -> & HL3 & HS3 & Off & Hst). cbn [res_bind].
  destruct Hst as [[-> _] | (Hu & Hpage & av & Eav & Hac & Hlay)]; [cbn [Z.eqb] | rewrite (proj2 (Z.eqb_neq usp 0)) by done].
  { destruct (create_fail mem (zlen f) p root a3 m3 (user_count st) (kernel_count st) N D R t0) as (st' & -> & HK' & Hr);
      [done | lia | done | right; by exists U3, M3 | by apply HS3 |]. by exists None, st', N. }
  destruct (kmalloc_live a3 _ KERNEL_STACK_SIZE HL3) as (stack & a4 & -> & [[-> HL4] | [Hk HL4]]); [by vm_compute | |]; cbn [res_bind].
  { cbn [Z.eqb]. match goal with |- context [thread_destroy area (Some ?t) (mk_sys _ _ ?uc ?kc)] =>
      destruct (create_fail mem (zlen f) p root a4 m3 uc kc N D R t) as (st' & -> & HK' & Hr) end;
      [done | lia | done | right; by exists U3, M3 | by apply HS3 |]. by exists None, st', N. }
  rewrite (proj2 (Z.eqb_neq stack 0)) by lia. pose proof (init_user_frame_ok p stack _ Hk eq_refl) as Hfrm.
  destruct (arch_thread_init_user_frame stub p _) as [sp words]. destruct Hfrm as (Ht0 & Hks).
  eexists (Some _), _, N. split; [reflexivity |]. split; [by apply HS3 |]. exists h, l, av. split_and!; [done.. |].
  split; cbn [entry_point is_user is_idle vma_list entry_args_owned heap mach pml4_phys user_stack user_stack_phys with_heap
    kernel_stack kernel_stack_base rsp saved]; [done | | by exists U3, M3 | | | done | done | done].
  - eapply live_perm; [| exact HL4]. unfold thread_blocks, opt_block. simpl. rewrite (proj2 (Z.eqb_neq mem 0)) by lia.
    rewrite (proj2 (Z.eqb_neq (align_down _ _) 0)) by exact Ht0. symmetry. exact (Permutation_middle [_; _] R _).
  - intros x Hx Hp' Hi. rewrite (proj1 (Off x Hx Hp')). apply Out; [done | by apply Hempty | done].
  - intros ->. eapply image_after_stack; [| by apply Ld | done]. done.
Qed.

Lemma create_elf_process_ok raw argc argv (st : sys A P) D R : bytes raw -> zlen raw <= 2147483647 ->
  kernel_space kroot Kt m0 (vmem (mach st)) D -> Alloc.live (heap st) R ->
  (forall l, argv = Some l -> argc <= Z.of_nat (length l)) -> (forall h l, image_ok raw h l -> below_stack l) ->
  creation raw argc argv D R (create_elf_process stub area kroot (Some raw) (zlen raw) argc argv st).
Proof.
  intros HB Hlen HK HL Hargs Hbelow. pose proof HK as (_ & Hh & HKw). unfold create_elf_process, creation.
  assert (Hsz : 0 <= zlen raw <= UINT64_MAX) by (unfold zlen in *; lia).
  assert (Same : forall a, Alloc.live a R -> rolled_back [] D R (with_heap a st)) by (intros a Ha; split; [done |]; by exists []).
  destruct (check_image_ok raw HB Hlen) as (o & -> & Ho). cbn [res_bind].
  destruct o as [h |]; [| exists None, st, []; split; [done |]; split; [done |]; split; [done |]; by exists []].
  destruct (Ho h eq_refl) as [l Him]. clear Ho.
  destruct (kmalloc_live (heap st) R (zlen raw) HL Hsz) as (mem & a1 & -> & [[-> HL1] | [Hm HL1]]); cbn [res_bind].
  { exists None. eexists _, []. split; [reflexivity |]. split; [done |]. by apply Same. }
  rewrite (proj2 (Z.eqb_neq mem 0)) by lia. rewrite bytes_at_inside by (red; unfold zlen; lia). cbn [res_bind].
  assert (Es : slice raw 0 (zlen raw) = raw) by (unfold slice, zlen; rewrite Nat2Z.id; apply firstn_all). rewrite Es.
  destruct (kmalloc_live a1 _ THREAD_SIZE HL1) as (p & a2 & -> & [[-> HL2] | [Hp HL2]]); [by vm_compute | |]; cbn [res_bind].
  { cbn [Z.eqb]. destruct (kfree_live _ _ _ _ HL2) as (a3 & -> & HL3). cbn [res_bind].
    exists None. eexists _, []. split; [reflexivity |]. split; [done |]. by apply Same. }
  rewrite (proj2 (Z.eqb_neq p 0)) by lia.
  by apply (build_process_ok raw h l mem p argc argv (with_heap a2 st) D R Him (Hbelow h l Him)); [| lia | lia | |].
Qed.
End Spec.
