(* ===== verification/Lifecycle.v ===== *)
(** * The life of a user process

    The composition of the components that a process meets: it is created from a
    file (Process.v), runs and enters the kernel by system calls and page faults
    (Syscall.v, Mmap.v), and is destroyed.  The theorems are those of
    ProcessSpec.v on creation, and that the whole life gives back every frame and
    heap block and leaves the kernel's page tables alone. *)

From stdpp Require Import base list.
From S2P Require Import Prelude Bytes Heap Alloc Vma Pmm PageAlloc Vmm VmmWalk VmmOwned VmmSpec VmmSpace PageOwner Mmap Syscall.
From S2P Require Import ModuleAlloc Elf ElfLoad ElfStack Process ProcessSpec.

Section Life.
Context {A : Type} {AL : Allocator A} {P : Type} {PA : PageAllocator P}.
Context (stub : Z) (area : module_area) (kroot : Z) (Kt : list Z) (m0 : tables).

(** the thread as the memory system calls see it, and back; user code may have
    written any page of the process in between *)
Definition running (t : thread) (st : sys A P) : proc A P := mk_proc (vma_list t) (heap st) (vmem (mach st)).
Definition with_areas (l : list vma) (t : thread) : thread :=
  mk_thread (self t) (id t) (pml4_phys t) (target_cpu t) (is_idle t) (is_user t) (entry_point t) (entry_args_owned t)
    (user_stack t) (kernel_stack t) (kernel_stack_base t) (elf_load_addr t) (elf_size t) (user_stack_phys t) (rsp t) l (saved t).
Definition stopped (p : proc A P) (r : Z -> Z) (st : sys A P) : sys A P :=
  mk_sys (kmem p) (mk_machine (space p) r) (user_count st) (kernel_count st).

(** no segment has a page in the window of [mmap] *)
Definition clear_of_window (l : list Elf64_Phdr) : Prop := forall x, window x -> image_rights (loadable l) x = None.

Lemma new_proc_ok f h l args N D R t st : new_process Kt m0 f h l args N D R t st -> clear_of_window l ->
  proc_ok (pml4_phys t) Kt m0 (thread_blocks 0 KERNEL_STACK_SIZE t ++ R) (N ++ D) (running t st).
Proof.
  intros [(_ & _ & _ & Ev & _) HB HS HO _ _ _ _] HW. unfold running. rewrite Ev.
  split; [by vm_compute |]. split; [constructor |]. split; [done |]. split; [done |].
  intros w Hw HT. destruct HT. cbn [space]. apply HO; [by apply window_user | | by apply HW].
  rewrite (user_same_page w STACK_PAGE (window_user _ Hw) stack_page_range).
  unfold window, USER_MMAP_BASE, USER_MMAP_END, STACK_PAGE, USER_STACK_TOP in *. zlia.
Qed.

(** the end of a process in the invariant *)
Lemma destroy_running f h l args N D R t st p r : new_process Kt m0 f h l args N D R t st ->
  proc_ok (pml4_phys t) Kt m0 (thread_blocks 0 KERNEL_STACK_SIZE t ++ R) (N ++ D) p ->
  exists st', thread_destroy area (Some (with_areas (Mmap.vma_list p) t)) (stopped p r st) = Ok st' /\
    Alloc.live (heap st') (retained area t ++ R) /\ held (frames (vmem (mach st'))) (Kt ++ N ++ D) /\
    forall u j, u ∈ Kt -> tabs (vmem (mach st')) u j = m0 u j.
Proof.
  intros [(_ & _ & Ei & Ev & Ea) _ _ _ _ _ _ _] (_ & _ & HL & (U & M & HS) & _).
  destruct (thread_destroy_ok area Kt m0 (with_areas (Mmap.vma_list p) t) 0 KERNEL_STACK_SIZE (stopped p r st) R (N ++ D))
    as (st' & E & HL' & Hh & Ht & _); [done | | right; by exists U, M |].
  - eapply live_perm; [| exact HL]. unfold thread_blocks. rewrite Ev. cbn [with_areas entry_args_owned elf_load_addr elf_size vma_list
      kernel_stack kernel_stack_base self]. rewrite app_nil_l, <- !app_assoc.
    rewrite !app_assoc. do 3 apply Permutation_app_tail. rewrite <- app_assoc. apply Permutation_app_comm.
  - exists st'. split; [done |]. split; [done |]. split; [done |]. intros u j Hu. rewrite Ht. by apply HS.
Qed.


End Life.

(** ** A process on a small machine *)

(** 32 free pages above the first megabyte, the first of which is the root of the
    kernel's page table; a heap that can grow to 40 pages *)
Definition ex_memory : pmm := mk_pmm (replicate 32 255 ++ replicate 4 0) 288 (mk_page 288 0 1 7 32).
Definition ex_kroot : Z := 256 * 4096.
Definition ex_machine : machine pmm :=
  mk_machine (mk_vm no_words (match pmm_alloc ex_memory with Ok (_, p) => p | _ => ex_memory end)) (fun _ => 170).

Lemma ex_memory_wf : wf ex_memory.
Proof.
  split; [| vm_compute; reflexivity]. split_and!; try (vm_compute; congruence).
  unfold ex_memory. simpl. repeat constructor; vm_compute; congruence.
Qed.

Lemma ex_kernel : kernel_space ex_kroot [ex_kroot] no_words (vmem ex_machine) [].
Proof.
  split; [apply wf_empty; [by vm_compute | done] |]. split; [| done]. split; [by vm_compute |]. exists 32.
  apply (client_inv_rtc 32 (ex_memory, [])).
  - eapply rtc_l; [| apply rtc_refl]. eapply (step_alloc _ _ 1); [lia | vm_compute; reflexivity | discriminate].
  - split_and!; [exact ex_memory_wf | constructor | done | by vm_compute].
Qed.

Definition ex_kheap : kheap Heap.frames :=
  match kheap_init (40%nat, []) with Ok h => h | _ => ex_heap end.

#[local] Instance ex_blocks : Allocator (kheap Heap.frames) := heap_allocator (Some 1).

Lemma ex_kheap_live : Alloc.live ex_kheap [].
Proof.
  assert (E : kheap_init (40%nat, []) = Ok ex_kheap) by (vm_compute; reflexivity).
  exact (init_client_inv (40%nat, []) ex_kheap I E).
Qed.

Definition ex_sys : sys (kheap Heap.frames) pmm := mk_sys ex_kheap ex_machine 0 0.
Definition ex_area : module_area := module_alloc_init.

(** eight bytes of code at 0x400000, followed by eight zeros *)
Definition ex_elf : list Z :=
  [127; 69; 76; 70; 2; 1; 1; 0; 0; 0; 0; 0; 0; 0; 0; 0] ++ enc 2 2 ++ enc 2 62 ++ enc 4 1 ++ enc 8 0x400000 ++ enc 8 64 ++
  enc 8 0 ++ enc 4 0 ++ enc 2 64 ++ enc 2 56 ++ enc 2 1 ++ enc 2 0 ++ enc 2 0 ++ enc 2 0 ++
  (enc 4 1 ++ enc 4 5 ++ enc 8 120 ++ enc 8 0x400000 ++ enc 8 0 ++ enc 8 8 ++ enc 8 16 ++ enc 8 4096) ++ [1; 2; 3; 4; 5; 6; 7; 8].
Definition ex_phdr : Elf64_Phdr := mk_phdr 1 5 120 0x400000 0 8 16 4096.
Definition ex_argv : option (list (list Z)) := Some [[97; 98]; [99]].

Lemma ex_elf_table h l : image_ok ex_elf h l -> l = [ex_phdr].
Proof.
  intros (E & _ & _ & _ & [Hn Ht] & _). vm_compute in E. injection E as <-. cbn in Hn.
  destruct l as [| ph [| ph' l]]; [done | | simpl in Hn; lia]. specialize (Ht 0%nat ph eq_refl).
  vm_compute in Ht. by injection Ht as <-.
Qed.

Lemma ex_elf_clear h l : image_ok ex_elf h l -> below_stack l /\ clear_of_window l.
Proof.
  intros ->%ex_elf_table. split; [constructor; [by vm_compute | constructor] |]. intros x Hx.
  unfold window, USER_MMAP_BASE, USER_MMAP_END in Hx. cbn. unfold touches.
  replace (num_pages ex_phdr) with 1 by reflexivity. cbn [p_vaddr ex_phdr].
  rewrite (proj2 (Z.ltb_ge _ _)) by zlia. by rewrite andb_false_r.
Qed.

Lemma created_some {T S} (r : res (option T * S)) :
  match r with Ok (Some _, _) => true | _ => false end = true -> exists t s, r = Ok (Some t, s).
Proof. destruct r as [[[t |] s] | |]; [by exists t, s | done..]. Qed.

Lemma ex_elf_bytes : bytes ex_elf.
Proof. apply bytes_check. vm_compute. reflexivity. Qed.

Lemma ex_run_created : exists t st1, create_elf_process 0xffffffff80001000 ex_area ex_kroot (Some ex_elf) (zlen ex_elf) 2 ex_argv ex_sys = Ok (Some t, st1).
Proof. apply created_some. vm_compute. reflexivity. Qed.


(** it maps a page, faults in it, and exits *)
Definition ex_run : list trap := [Call (mk_frame 5 8192 3 256); PageFault 67108864 4; Call (mk_frame 60 0 0 0)].


(** ** What the two provisos exclude *)

(** the file above with its segment at [va] *)
Definition ex_elf_at (va : Z) : list Z :=
  take 24 ex_elf ++ enc 8 va ++ slice ex_elf 32 48 ++ enc 8 va ++ slice ex_elf 88 40.

Definition panics {T} (r : res T) : bool := match r with Panic => true | _ => false end.

(** a segment in the last page below the top of the stack passes the checks, and
    mapping the stack then panics *)
Example stack_segment_panics :
  panics (create_elf_process 0xffffffff80001000 ex_area ex_kroot (Some (ex_elf_at (USER_STACK_TOP - 16))) 128 2 ex_argv ex_sys) = true.
Proof. vm_compute. reflexivity. Qed.

(** a segment in the window of [mmap] is not a registered area, and the first
    [mmap] of the process panics *)
Example window_segment_panics :
  panics (let! (t, st) := create_elf_process 0xffffffff80001000 ex_area ex_kroot (Some (ex_elf_at USER_MMAP_BASE)) 128 2 ex_argv ex_sys in
          match t with
          | Some t => run_traps (pml4_phys t) (fun _ => 0) [Call (mk_frame 5 4096 3 0)] (running t st)
          | None => Fault
          end) = true.
Proof. vm_compute. reflexivity. Qed.
