(* ===== verification/Ksym.v ===== *)
(** * Symbols and relocations ([kernel/ksym.c])

    The kernel's symbol table is generated by the build: it is a parameter, a list
    of names and addresses.  The image of a module is its bytes, loaded at the
    address [base]; a read or write outside it is a fault.  Strings in the image
    are compared byte by byte as [strcmp] does, up to the first difference. *)

From stdpp Require Import base list.
From S2P Require Import Prelude Bytes Heap Alloc Pmm PageAlloc Vmm Elf.

(** ** Data *)

Record Elf64_Shdr := mk_shdr {
  sh_name : Z; sh_type : Z; sh_flags : Z; sh_addr : Z; sh_offset : Z; sh_size : Z; sh_link : Z; sh_info : Z;
  sh_addralign : Z; sh_entsize : Z }.

Record Elf64_Sym := mk_sym { st_name : Z; st_info : Z; st_other : Z; st_shndx : Z; st_value : Z; st_size : Z }.

(** [r_addend] is signed *)
Record Elf64_Rela := mk_rela { r_offset : Z; r_info : Z; r_addend : Z }.

Definition SHDR_SIZE : Z := 64.
Definition SYM_SIZE : Z := 24.
Definition RELA_SIZE : Z := 24.

Definition ELF64_R_SYM (i : Z) : Z := Z.shiftr i 32.
Definition ELF64_R_TYPE (i : Z) : Z := Z.land i 0xffffffff.

Definition read_shdr (f : list Z) (i : Z) : res Elf64_Shdr :=
  let! nm := le 4 f i in let! ty := le 4 f (i + 4) in let! fl := le 8 f (i + 8) in let! ad := le 8 f (i + 16) in
  let! off := le 8 f (i + 24) in let! sz := le 8 f (i + 32) in let! lk := le 4 f (i + 40) in let! nf := le 4 f (i + 44) in
  let! al := le 8 f (i + 48) in let! es := le 8 f (i + 56) in
  Ok (mk_shdr nm ty fl ad off sz lk nf al es).

Definition read_sym (f : list Z) (i : Z) : res Elf64_Sym :=
  let! nm := le 4 f i in let! nf := le 1 f (i + 4) in let! ot := le 1 f (i + 5) in let! sx := le 2 f (i + 6) in
  let! va := le 8 f (i + 8) in let! sz := le 8 f (i + 16) in
  Ok (mk_sym nm nf ot sx va sz).

Definition read_rela (f : list Z) (i : Z) : res Elf64_Rela :=
  let! off := le 8 f i in let! nf := le 8 f (i + 8) in let! ad := le 8 f (i + 16) in
  Ok (mk_rela off nf (i64 ad)).

(** [strcmp(f + i, s) == 0] *)
Fixpoint str_eq (f : list Z) (i : Z) (s : list Z) : res bool :=
  let! b := byte_at f i in
  match s with
  | [] => Ok (b =? 0)
  | c :: s => if negb (b =? c) then Ok false else if b =? 0 then Ok true else str_eq f (i + 1) s
  end.

(** ** Kernel symbols *)

Record kernel_symbol := mk_ksym { k_addr : Z; k_name : list Z }.

(** the name is the string at [i] in the image; 0 when there is none *)
Fixpoint ksym_lookup (table : list kernel_symbol) (f : list Z) (i : Z) : res Z :=
  match table with
  | [] => Ok 0
  | s :: table => let! e := str_eq f i (k_name s) in if e then Ok (k_addr s) else ksym_lookup table f i
  end.

(** the two searches of [kallsyms_lookup]: the symbol with the greatest address
    above [best_addr] and not above [ret_addr] *)
Fixpoint nearest (table : list kernel_symbol) (ret_addr best_addr : Z) (best : option kernel_symbol) : Z * option kernel_symbol :=
  match table with
  | [] => (best_addr, best)
  | s :: table =>
      if (k_addr s <=? ret_addr) && (best_addr <? k_addr s) then nearest table ret_addr (k_addr s) (Some s)
      else nearest table ret_addr best_addr best
  end.

(** [offset] is where the caller wants the distance, if it does; the result is the
    name and what is stored there.  The second branch does not test [offset]. *)
Definition kallsyms_lookup (ksymtab kallsyms_all : list kernel_symbol) (ret_addr : Z) (offset : bool) :
  res (option (list Z) * option Z) :=
  let (best_addr, best) := nearest ksymtab ret_addr 0 None in
  let (all_addr, all) := nearest kallsyms_all ret_addr best_addr None in
  match all with
  | Some s => if offset then Ok (Some (k_name s), Some (ret_addr - all_addr)) else Fault
  | None =>
      match best with
      | Some s => Ok (Some (k_name s), if offset then Some (ret_addr - k_addr s) else None)
      | None => Ok (None, None)
      end
  end.

(** ** Sections and symbols of a module *)

(** the section header [idx] of the file [f] with header [h], as an element of the array *)
Definition shdr (f : list Z) (h : Elf64_Ehdr) (idx : Z) : res Elf64_Shdr := read_shdr f (e_shoff h + idx * SHDR_SIZE).

(** the index is cut to 16 bits *)
Definition elf_section (f : list Z) (h : Elf64_Ehdr) (idx : Z) : res Elf64_Shdr := shdr f h (u16 idx).

Fixpoint find_section_from (n : nat) (i : Z) (f : list Z) (h : Elf64_Ehdr) (shstrtab : Z) (name : list Z) : res (option Elf64_Shdr) :=
  match n with
  | O => Ok None
  | S n =>
      let! s := shdr f h i in
      let! e := str_eq f (shstrtab + sh_name s) name in
      if e then Ok (Some s) else find_section_from n (i + 1) f h shstrtab name
  end.

Definition find_section (f : list Z) (h : Elf64_Ehdr) (name : list Z) : res (option Elf64_Shdr) :=
  let! shstr_hdr := read_shdr f (e_shoff h + e_shstrndx h * e_shentsize h) in
  find_section_from (Z.to_nat (e_shnum h)) 0 f h (sh_offset shstr_hdr) name.

Fixpoint symbol_from (n : nat) (i : Z) (f : list Z) (h : Elf64_Ehdr) (base strtab symtab : Z) (name : list Z) : res Z :=
  match n with
  | O => Ok 0
  | S n =>
      let! sym := read_sym f (symtab + i * SYM_SIZE) in
      let! e := str_eq f (strtab + st_name sym) name in
      if e then let! sec := elf_section f h (st_shndx sym) in Ok (u64 (base + sh_offset sec + st_value sym))
      else symbol_from n (i + 1) f h base strtab symtab name
  end.

(** [".symtab"] *)
Definition SYMTAB : list Z := [46; 115; 121; 109; 116; 97; 98].

Definition ksym_in_module (f : list Z) (h : Elf64_Ehdr) (base : Z) (name : list Z) : res Z :=
  let! symtab := find_section f h SYMTAB in
  match symtab with
  | None => Ok 0
  | Some symtab =>
      let! strtab := elf_section f h (sh_link symtab) in
      symbol_from (Z.to_nat (sh_size symtab / SYM_SIZE)) 0 f h base (sh_offset strtab) (sh_offset symtab) name
  end.

(** [".rela.text"] *)
Definition RELA_TEXT : list Z := [46; 114; 101; 108; 97; 46; 116; 101; 120; 116].

(** the symbol of an entry of .rela.text; [get_sym] does not test that there is
    such a section *)
Definition get_sym (f : list Z) (h : Elf64_Ehdr) (e : Elf64_Rela) : res Elf64_Sym :=
  let! rela_shdr := find_section f h RELA_TEXT in
  match rela_shdr with
  | None => Fault
  | Some rela_shdr =>
      let! symtab_shdr := shdr f h (sh_link rela_shdr) in
      read_sym f (sh_offset symtab_shdr + ELF64_R_SYM (r_info e) * SYM_SIZE)
  end.

(** the place of its name; [None] is NULL *)
Definition get_sym_name (f : list Z) (h : Elf64_Ehdr) (e : Elf64_Rela) : res (option Z) :=
  let! rela_shdr := find_section f h RELA_TEXT in
  match rela_shdr with
  | None => Ok None
  | Some rela_shdr =>
      let! symtab_shdr := shdr f h (sh_link rela_shdr) in
      let! strtab_shdr := shdr f h (sh_link symtab_shdr) in
      let! sym := read_sym f (sh_offset symtab_shdr + ELF64_R_SYM (r_info e) * SYM_SIZE) in
      Ok (Some (sh_offset strtab_shdr + st_name sym))
  end.

(** ** Relocations *)

Definition R_X86_64_NONE : Z := 0.
Definition R_X86_64_64 : Z := 1.
Definition R_X86_64_PC32 : Z := 2.
Definition R_X86_64_PLT32 : Z := 4.
Definition R_X86_64_32 : Z := 10.
Definition R_X86_64_32S : Z := 11.
Definition R_X86_64_PC64 : Z := 24.
Definition R_AARCH64_ABS64 : Z := 257.
Definition R_AARCH64_ABS32 : Z := 258.
Definition R_AARCH64_PREL32 : Z := 261.
Definition R_AARCH64_ADR_PREL_PG_HI21 : Z := 275.
Definition R_AARCH64_ADD_ABS_LO12_NC : Z := 277.
Definition R_AARCH64_LDST8_ABS_LO12_NC : Z := 278.
Definition R_AARCH64_CONDBR19 : Z := 280.
Definition R_AARCH64_JUMP26 : Z := 282.
Definition R_AARCH64_CALL26 : Z := 283.
Definition R_AARCH64_LDST32_ABS_LO12_NC : Z := 285.
Definition R_AARCH64_LDST64_ABS_LO12_NC : Z := 286.
Definition R_AARCH64_RELATIVE : Z := 1027.

(** store [n] bytes of [x] at [p] *)
Definition patch (f : list Z) (p : Z) (n : nat) (x : Z) : res (option (list Z)) :=
  let! f := write_bytes f p (enc n x) in Ok (Some f).

(** replace the instruction at [p] *)
Definition patch_insn (f : list Z) (p : Z) (g : Z -> Z) : res (option (list Z)) :=
  let! insn := le 4 f p in patch f p 4 (u32 (g insn)).

(** [None] is the return of -1 *)
Definition apply_relocation_to (f : list Z) (mod_base target_sh_offset : Z) (e : Elf64_Rela) (sym_addr : Z) : res (option (list Z)) :=
  let p := u64 (target_sh_offset + r_offset e) in
  let P := u64 (mod_base + p) in
  let t := ELF64_R_TYPE (r_info e) in
  let val := u64 (sym_addr + r_addend e) in
  let sval := i64 val in
  let delta := i64 (val - P) in
  if (t =? R_X86_64_64) || (t =? R_AARCH64_ABS64) || (t =? R_AARCH64_RELATIVE) then patch f p 8 val
  else if t =? R_X86_64_32 then
    if negb (Z.shiftr val 32 =? 0) then Ok None else patch f p 4 (u32 val)
  else if t =? R_X86_64_32S then
    if negb (sval =? i32 sval) then Ok None else patch f p 4 (i32 sval)
  else if (t =? R_X86_64_PC32) || (t =? R_X86_64_PLT32) || (t =? R_AARCH64_PREL32) then
    if negb (delta =? i32 delta) then Ok None else patch f p 4 (i32 delta)
  else if t =? R_X86_64_PC64 then patch f p 8 delta
  else if t =? R_X86_64_NONE then Ok (Some f)
  else if t =? R_AARCH64_ABS32 then
    if 4294967295 <? val then Ok None else patch f p 4 (u32 val)
  else if (t =? R_AARCH64_CALL26) || (t =? R_AARCH64_JUMP26) then
    if negb (Z.land delta 3 =? 0) || (delta <? - 2 ^ 27) || (2 ^ 27 <=? delta) then Ok None
    else patch_insn f p (fun insn => Z.lor (Z.land insn 0xfc000000) (Z.land (u32 (Z.shiftr delta 2)) 0x03ffffff))
  else if t =? R_AARCH64_CONDBR19 then
    if negb (Z.land delta 3 =? 0) || (delta <? - 2 ^ 20) || (2 ^ 20 <=? delta) then Ok None
    else patch_insn f p (fun insn => Z.lor (Z.land insn 0xff00001f) (Z.shiftl (Z.land (u32 (Z.shiftr delta 2)) 0x7ffff) 5))
  else if t =? R_AARCH64_ADR_PREL_PG_HI21 then
    let page_delta := i64 (Z.land sval (Z.lnot 4095) - Z.land (i64 P) (Z.lnot 4095)) in
    let imm := Z.shiftr page_delta 12 in
    if negb (Z.land page_delta 4095 =? 0) || (imm <? - 2 ^ 20) || (2 ^ 20 <=? imm) then Ok None
    else patch_insn f p (fun insn => Z.lor (Z.lor (Z.land insn 0x9f00001f) (Z.shiftl (Z.land (u32 imm) 3) 29))
                                       (Z.shiftl (Z.land (Z.shiftr (u32 imm) 2) 0x7ffff) 5))
  else if t =? R_AARCH64_ADD_ABS_LO12_NC then
    patch_insn f p (fun insn => Z.lor (Z.land insn 0xffc003ff) (Z.shiftl (Z.land (u32 val) 4095) 10))
  else if (t =? R_AARCH64_LDST8_ABS_LO12_NC) || (t =? R_AARCH64_LDST32_ABS_LO12_NC) || (t =? R_AARCH64_LDST64_ABS_LO12_NC) then
    let scale := if t =? R_AARCH64_LDST8_ABS_LO12_NC then 0 else if t =? R_AARCH64_LDST32_ABS_LO12_NC then 2 else 3 in
    let low := Z.land val 4095 in
    if negb (Z.land low (2 ^ scale - 1) =? 0) then Ok None
    else patch_insn f p (fun insn => Z.lor (Z.land insn 0xffc003ff) (Z.shiftl (Z.shiftr low scale) 10))
  else Ok None.

(** ** What a relocation achieves, on x86-64 *)

Definition x86_type (t : Z) : Prop := t ∈ [R_X86_64_NONE; R_X86_64_64; R_X86_64_PC32; R_X86_64_PLT32; R_X86_64_32; R_X86_64_32S; R_X86_64_PC64].

(** the bytes of the field *)
Definition width (t : Z) : Z := if t =? R_X86_64_NONE then 0 else if (t =? R_X86_64_64) || (t =? R_X86_64_PC64) then 8 else 4.

(** the field at [p], whose address is [P], designates [val]: absolutely, or from its own address *)
Definition designates (t : Z) (f : list Z) (p P val : Z) : Prop :=
  if t =? R_X86_64_NONE then True
  else if t =? R_X86_64_64 then le 8 f p = Ok val
  else if t =? R_X86_64_PC64 then exists v, le 8 f p = Ok v /\ u64 (P + v) = val
  else if t =? R_X86_64_32 then le 4 f p = Ok val
  else if t =? R_X86_64_32S then exists v, le 4 f p = Ok v /\ u64 (i32 v) = val
  else exists v, le 4 f p = Ok v /\ u64 (P + i32 v) = val.

(** the field can hold it *)
Definition representable (t P val : Z) : Prop :=
  if t =? R_X86_64_32 then val < 4294967296
  else if t =? R_X86_64_32S then exists x, -2147483648 <= x < 2147483648 /\ u64 x = val
  else if (t =? R_X86_64_PC32) || (t =? R_X86_64_PLT32) then exists x, -2147483648 <= x < 2147483648 /\ u64 (P + x) = val
  else True.

(** the image is the old one but for the [n] bytes at [p] *)
Definition patched (f f' : list Z) (p n : Z) : Prop :=
  zlen f' = zlen f /\ forall j, j < p \/ p + n <= j -> byte_at f' j = byte_at f j.

Lemma enc_mod n x : enc n (x mod 256 ^ Z.of_nat n) = enc n x.
Proof.
  revert x. induction n as [| n IH]; intros x; [done |]. cbn [enc].
  assert (0 < 256 ^ Z.of_nat n) by (apply Z.pow_pos_nonneg; lia).
  rewrite Nat2Z.inj_succ, Z.pow_succ_r, Z.rem_mul_r by lia. f_equal.
  - rewrite Z.mul_comm, Z.mod_add, Z.mod_mod by lia. done.
  - rewrite Z.mul_comm, Z.div_add, (Z.div_small (x mod 256)) by (try apply Z.mod_pos_bound; lia). simpl. apply IH.
Qed.

Lemma patch_ok f p n x : inside f p (Z.of_nat n) ->
  exists f', patch f p n x = Ok (Some f') /\ le n f' p = Ok (x mod 256 ^ Z.of_nat n) /\ patched f f' p (Z.of_nat n).
Proof.
  intros HI. pose proof HI as (H1 & _ & H2). assert (EL : zlen (enc n x) = Z.of_nat n) by (unfold zlen; by rewrite enc_length).
  destruct (write_bytes_inside f p (enc n x)) as (f' & E & HL & _); [by rewrite EL |].
  exists f'. unfold patch. rewrite E. split; [done |]. split.
  - rewrite <- enc_mod in E. apply (le_written f p n _ f' H1); [unfold zlen; lia | | done].
    apply Z.mod_pos_bound, Z.pow_pos_nonneg; lia.
  - split; [done |]. intros j Hd. eapply byte_elsewhere; [| exact E | by rewrite EL]. by rewrite EL.
Qed.

Lemma signed_fit z : i64 z = i32 (i64 z) <-> exists x, -2147483648 <= x < 2147483648 /\ u64 x = u64 z.
Proof.
  unfold i32, i64, u64. split.
  - intros E. exists ((z + 9223372036854775808) mod 18446744073709551616 - 9223372036854775808). rewrite E at 1 2. split; zlia.
  - intros (x & Hx & E). zlia.
Qed.

Lemma field_u32 x : x mod 256 ^ Z.of_nat 4 = u32 x.
Proof. done. Qed.

Lemma field_u64 x : x mod 256 ^ Z.of_nat 8 = u64 x.
Proof. done. Qed.

Lemma i32_u32 x : -2147483648 <= x < 2147483648 -> i32 (u32 x) = x.
Proof. unfold i32, u32. intros H. zlia. Qed.

Ltac reloc_tests :=
  unfold representable, designates, width;
  cbv [R_X86_64_NONE R_X86_64_64 R_X86_64_PC32 R_X86_64_PLT32 R_X86_64_32 R_X86_64_32S R_X86_64_PC64 R_AARCH64_ABS64
       R_AARCH64_ABS32 R_AARCH64_PREL32 R_AARCH64_RELATIVE];
  cbn [Z.eqb Pos.eqb orb].

(** a signed 32-bit field holding the difference [z] *)
Lemma signed_field f p z (Q : Prop) : inside f p 4 -> (Q <-> i64 z = i32 (i64 z)) ->
  (Q -> exists f', (if negb (i64 z =? i32 (i64 z)) then Ok None else patch f p 4 (i32 (i64 z))) = Ok (Some f') /\ patched f f' p 4 /\
     exists v, le 4 f' p = Ok v /\ i32 v = i64 z) /\
  (~ Q -> (if negb (i64 z =? i32 (i64 z)) then Ok None else patch f p 4 (i32 (i64 z))) = Ok None).
Proof.
  intros HI HQ. split; intros H.
  - apply HQ in H. rewrite (proj2 (Z.eqb_eq _ _) H). cbn [negb].
    destruct (patch_ok f p 4 (i32 (i64 z)) HI) as (f' & -> & E & Hp). exists f'. split; [done |]. split; [done |].
    eexists. split; [exact E |]. rewrite field_u32, i32_u32, <- H; [done |]. unfold i32. zlia.
  - rewrite (proj2 (Z.eqb_neq _ _)); [done |]. tauto.
Qed.

Lemma u64_i64 z : u64 (i64 z) = u64 z.
Proof. unfold u64, i64. zlia. Qed.

Lemma pc_target P val v : 0 <= val < 18446744073709551616 -> u64 v = u64 (val - P) -> u64 (P + v) = val.
Proof. unfold u64. intros H E. zlia. Qed.

Lemma pc32_field f p P val : inside f p 4 -> 0 <= val < 18446744073709551616 ->
  ((exists x, -2147483648 <= x < 2147483648 /\ u64 (P + x) = val) ->
     exists f', (if negb (i64 (val - P) =? i32 (i64 (val - P))) then Ok None else patch f p 4 (i32 (i64 (val - P)))) = Ok (Some f') /\
       patched f f' p 4 /\ exists v, le 4 f' p = Ok v /\ u64 (P + i32 v) = val) /\
  (~ (exists x, -2147483648 <= x < 2147483648 /\ u64 (P + x) = val) ->
     (if negb (i64 (val - P) =? i32 (i64 (val - P))) then Ok None else patch f p 4 (i32 (i64 (val - P)))) = Ok None).
Proof.
  intros HI Hv. destruct (signed_field f p (val - P) (exists x, -2147483648 <= x < 2147483648 /\ u64 (P + x) = val) HI) as [H1 H2].
  { rewrite signed_fit. split; intros (x & Hx & E); exists x; (split; [done |]).
    - unfold u64 in *. zlia.
    - by apply pc_target. }
  split; [| done]. intros H. destruct (H1 H) as (f' & E & Hp & v & Ev & Hi). exists f'. split; [done |]. split; [done |].
  exists v. split; [done |]. rewrite Hi. apply pc_target; [done |]. apply u64_i64.
Qed.

Lemma relocation_ok f mod_base off e sym_addr t p val : t = ELF64_R_TYPE (r_info e) -> p = u64 (off + r_offset e) ->
  val = u64 (sym_addr + r_addend e) -> x86_type t -> inside f p (width t) ->
  (representable t (u64 (mod_base + p)) val ->
     exists f', apply_relocation_to f mod_base off e sym_addr = Ok (Some f') /\ patched f f' p (width t) /\
       designates t f' p (u64 (mod_base + p)) val) /\
  (~ representable t (u64 (mod_base + p)) val -> apply_relocation_to f mod_base off e sym_addr = Ok None).
Proof.
  intros Et Ep Ev Ht HI. unfold apply_relocation_to. cbv zeta. rewrite <- Et, <- Ep, <- Ev. set (P := u64 (mod_base + p)).
  assert (Hval : 0 <= val < 18446744073709551616) by (rewrite Ev; apply u64_range).
  assert (HP : 0 <= P < 18446744073709551616) by apply u64_range. clearbody P. clear Et Ep Ev.
  unfold x86_type in Ht. repeat (apply elem_of_cons in Ht as [-> | Ht]); [.. | by apply elem_of_nil in Ht];
    revert HI; reloc_tests; intros HI.
  - split; [intros _; exists f; split; [done |]; split; [by split |]; done | by intros []].
  - destruct (patch_ok f p 8 val HI) as (f' & -> & E & Hp). rewrite field_u64, u64_small in E by done.
    split; [intros _; by exists f' | by intros []].
  - by apply pc32_field.
  - by apply pc32_field.
  - rewrite Z.shiftr_div_pow2 by lia. change (2 ^ 32) with 4294967296. split; intros H.
    + rewrite (Z.div_small val) by lia. cbn [Z.eqb negb].
      destruct (patch_ok f p 4 (u32 val) HI) as (f' & -> & E & Hp). exists f'. split; [done |]. split; [done |].
      assert (is_u32 val) by (red; lia). by rewrite E, field_u32, !(u32_small val).
    + rewrite (proj2 (Z.eqb_neq _ 0)); [done | zlia].
  - destruct (signed_field f p val (exists x, -2147483648 <= x < 2147483648 /\ u64 x = val) HI) as [H1 H2].
    { rewrite signed_fit, (u64_small val) by done. done. }
    split; [| done]. intros H. destruct (H1 H) as (f' & E & Hp & v & Ev & Hv). exists f'. split; [done |]. split; [done |].
    exists v. split; [done |]. by rewrite Hv, u64_i64, u64_small.
  - split; [| by intros []]. intros _.
    destruct (patch_ok f p 8 (i64 (val - P)) HI) as (f' & -> & E & Hp). exists f'. split; [done |]. split; [done |].
    eexists. split; [exact E |]. rewrite field_u64, u64_i64. apply pc_target; [done |]. unfold u64. zlia.
Qed.

Lemma representable_dec t P val : 0 <= val < 18446744073709551616 -> representable t P val \/ ~ representable t P val.
Proof.
  intros Hv. unfold representable. destruct (t =? R_X86_64_32); [lia |].
  assert (H1 : (exists x, -2147483648 <= x < 2147483648 /\ u64 x = val) <-> i64 val = i32 (i64 val))
    by (rewrite signed_fit, (u64_small val) by done; done).
  assert (H2 : (exists x, -2147483648 <= x < 2147483648 /\ u64 (P + x) = val) <-> i64 (val - P) = i32 (i64 (val - P))).
  { rewrite signed_fit. split; intros (x & Hx & E); exists x; (split; [done |]); [unfold u64 in *; zlia | by apply pc_target]. }
  destruct (t =? R_X86_64_32S); [rewrite H1; lia |]. destruct (_ || _); [rewrite H2; lia | by left].
Qed.

(** a relocation of an x86-64 type, whose field is in the image, is refused
    exactly when the value does not fit the field; otherwise the field, read as
    the processor reads it, designates the symbol plus the addend, and no other
    byte of the image changes. *)
Lemma relocation_correct f mod_base off e sym_addr :
  let t := ELF64_R_TYPE (r_info e) in
  let p := u64 (off + r_offset e) in
  let val := u64 (sym_addr + r_addend e) in
  x86_type t -> inside f p (width t) ->
  (representable t (u64 (mod_base + p)) val ->
     exists f', apply_relocation_to f mod_base off e sym_addr = Ok (Some f') /\ patched f f' p (width t) /\
       designates t f' p (u64 (mod_base + p)) val) /\
  (~ representable t (u64 (mod_base + p)) val -> apply_relocation_to f mod_base off e sym_addr = Ok None).
Proof. intros t p val. by apply relocation_ok. Qed.

Lemma relocation_correct_witness : exists f',
  apply_relocation_to [0; 0; 0; 0; 0; 0; 0; 0; 0; 0; 0; 0] 0xffffffffc0000000 4 (mk_rela 2 (Z.lor (Z.shiftl 7 32) 2) (-4)) 0xffffffff80001000 =
    Ok (Some f') /\ patched [0; 0; 0; 0; 0; 0; 0; 0; 0; 0; 0; 0] f' 6 4 /\ designates 2 f' 6 0xffffffffc0000006 0xffffffff80000ffc.
Proof.
  refine (proj1 (relocation_correct [0; 0; 0; 0; 0; 0; 0; 0; 0; 0; 0; 0] 0xffffffffc0000000 4
                   (mk_rela 2 (Z.lor (Z.shiftl 7 32) 2) (-4)) 0xffffffff80001000 _ _) _).
  - vm_compute. apply elem_of_cons. right. apply elem_of_cons. right. apply elem_of_cons. by left.
  - vm_compute. repeat split; discriminate.
  - exists (-1073737738). split; [lia |]. vm_compute. reflexivity.
Defined.

(** ** The nearest symbol *)

(** a symbol at or below [ret_addr] *)
Definition below (ret_addr : Z) (s : kernel_symbol) : Prop := k_addr s <= ret_addr.

Lemma nearest_ok table ret best_addr best : let r := nearest table ret best_addr best in
  (r = (best_addr, best) \/ exists s, s ∈ table /\ r = (k_addr s, Some s) /\ below ret s /\ best_addr < k_addr s) /\
  (forall s, s ∈ table -> below ret s -> k_addr s <= fst r).
Proof.
  cbv zeta. revert best_addr best. induction table as [| s table IH]; intros b best; cbn [nearest].
  - split; [by left |]. intros s Hs. by apply elem_of_nil in Hs.
  - destruct (_ && _) eqn:C; [apply andb_prop in C as [C1 C2] |].
    + destruct (IH (k_addr s) (Some s)) as [H1 H2].
      assert (Hge : k_addr s <= fst (nearest table ret (k_addr s) (Some s))).
      { destruct H1 as [-> | (s' & _ & -> & _ & Hlt)]; cbn [fst]; lia. }
      split.
      * right. destruct H1 as [-> | (s' & Hs & -> & Hb & Hlt)]; [exists s | exists s']; unfold below in *.
        -- split; [left |]. split; [done |]. split; zbool; lia.
        -- split; [by right |]. split; [done |]. split; zbool; lia.
      * intros s' Hs Hb. apply elem_of_cons in Hs as [-> | Hs]; [done |]. by apply H2.
    + destruct (IH b best) as [H1 H2].
      assert (Hge : b <= fst (nearest table ret b best)).
      { destruct H1 as [-> | (s' & _ & -> & _ & Hlt)]; cbn [fst]; lia. }
      split.
      * destruct H1 as [-> | (s' & Hs & -> & Hb)]; [by left |]. right. exists s'. split; [by right | done].
      * intros s' Hs Hb. apply elem_of_cons in Hs as [-> | Hs]; [| by apply H2]. unfold below in Hb.
        apply andb_false_iff in C as [C | C]; zbool; lia.
Qed.

(** with somewhere to store the distance, [kallsyms_lookup] gives the
    symbol with the greatest address that is not above [ret_addr] in the two
    tables together, and the distance to it; it gives none exactly when the
    tables hold no symbol at or below [ret_addr] but at address 0. *)
Lemma kallsyms_lookup_nearest ksymtab kallsyms_all ret :
  (exists s, s ∈ ksymtab ++ kallsyms_all /\ 0 < k_addr s /\ below ret s /\
     (forall s', s' ∈ ksymtab ++ kallsyms_all -> below ret s' -> k_addr s' <= k_addr s) /\
     kallsyms_lookup ksymtab kallsyms_all ret true = Ok (Some (k_name s), Some (ret - k_addr s))) \/
  ((forall s, s ∈ ksymtab ++ kallsyms_all -> below ret s -> k_addr s <= 0) /\
   kallsyms_lookup ksymtab kallsyms_all ret true = Ok (None, None)).
Proof.
  unfold kallsyms_lookup. destruct (nearest_ok ksymtab ret 0 None) as [H1 H2].
  destruct (nearest ksymtab ret 0 None) as [b best]. cbn [fst] in H2.
  destruct (nearest_ok kallsyms_all ret b None) as [H3 H4]. destruct (nearest kallsyms_all ret b None) as [a all]. cbn [fst] in H4.
  destruct H3 as [[= -> ->] | (s & Hs & [= -> ->] & Hb & Hlt)].
  - destruct H1 as [[= -> ->] | (s & Hs & [= -> ->] & Hb & Hlt)].
    + right. split; [| done]. intros s Hs. apply elem_of_app in Hs as [Hs | Hs]; [by apply H2 | by apply H4].
    + left. exists s. rewrite elem_of_app. repeat split; [by left | done | done |].
      intros s' Hs'. apply elem_of_app in Hs' as [Hs' | Hs']; [by apply H2 | by apply H4].
  - left. exists s. rewrite elem_of_app.
    assert (0 <= b) by (destruct H1 as [[= -> ->] | (s0 & _ & [= -> _] & _ & ?)]; lia).
    repeat split; [by right | lia | done |].
    intros s' Hs' Hb'. apply elem_of_app in Hs' as [Hs' | Hs']; [| by apply H4]. specialize (H2 s' Hs' Hb'). lia.
Qed.
