(* ===== verification/ModuleRegistry.v ===== *)
(** * The module registry ([kernel/module.c])

    A fixed array of descriptors with a state per slot.  Every operation runs
    under one spin lock and is one step.  A name is the string at an address;
    the registry keeps copies it allocates.  The specification is a finite map
    from identifiers to descriptors, some of them not yet visible. *)

From stdpp Require Import base list gmap.
From S2P Require Import Prelude Bytes Heap Alloc.

(** ** Data *)

Inductive registry_state := REG_FREE | REG_RESERVED | REG_COMMITTED.

#[export] Instance registry_state_eq : EqDecision registry_state.
Proof. solve_decision. Defined.

Inductive module_kind := MODULE_KIND_KTHREAD | MODULE_KIND_SELFTEST.

Record cstring := mk_cstr { c_addr : Z; c_text : list Z }.

Record module_bss_segment := mk_seg { seg_base : Z; seg_size : Z }.

(** [None] is a null name *)
Record module_desc := mk_desc {
  d_name : option cstring; d_kind : module_kind; d_base : Z; d_size : Z; d_bss_segments : list module_bss_segment;
  d_bss_count : Z; d_entry : Z; d_init : Z; d_flags : Z; d_id : Z }.

(** the descriptor [memset] to 0 *)
Definition zero_desc : module_desc :=
  mk_desc None MODULE_KIND_KTHREAD 0 0 (replicate 8 (mk_seg 0 0)) 0 0 0 0 0.

Definition MODULE_REGISTRY_CAPACITY : nat := 32.

Record registry := mk_registry { g_registry : list module_desc; g_registry_state : list registry_state; g_next_id : Z }.

Definition new_registry : registry :=
  mk_registry (replicate MODULE_REGISTRY_CAPACITY zero_desc) (replicate MODULE_REGISTRY_CAPACITY REG_FREE) 0.

(** ** Operations *)

(** the first slot whose state and descriptor satisfy [p] *)
Fixpoint find_slot (p : registry_state -> module_desc -> bool) (st : list registry_state) (ds : list module_desc) : option nat :=
  match st, ds with
  | s :: st, d :: ds => if p s d then Some O else S <$> find_slot p st ds
  | _, _ => None
  end.

Definition search (p : registry_state -> module_desc -> bool) (r : registry) : option nat :=
  find_slot p (g_registry_state r) (g_registry r).

Definition set_name_id (d : module_desc) (name : option cstring) (id : Z) : module_desc :=
  mk_desc name (d_kind d) (d_base d) (d_size d) (d_bss_segments d) (d_bss_count d) (d_entry d) (d_init d) (d_flags d) id.

Definition is_state (st : registry_state) (s : registry_state) : bool := bool_decide (s = st).

Definition set_slot (i : nat) (s : registry_state) (d : module_desc) (r : registry) : registry :=
  mk_registry (<[i := d]> (g_registry r)) (<[i := s]> (g_registry_state r)) (g_next_id r).

(** fill the slot: the identifier drawn and the registry *)
Definition reserve_slot (slot : nat) (desc : module_desc) (name_copy : option cstring) (r : registry) : Z * registry :=
  let id := g_next_id r in
  (i32 id, set_slot slot REG_RESERVED (set_name_id desc name_copy id) (mk_registry (g_registry r) (g_registry_state r) (u32 (id + 1)))).

Section Ops.
Context {A : Type} {AL : Allocator A}.

Definition module_registry_reserve (desc : module_desc) (r : registry) (a : A) : res (Z * registry * A) :=
  match search (fun s _ => is_state REG_FREE s) r with
  | None => Ok (-1, r, a)
  | Some slot =>
      match d_name desc with
      | None => Ok (reserve_slot slot desc None r, a)
      | Some name =>
          let! (p, a) := kmalloc (u64 (zlen (c_text name) + 1)) a in
          if p =? 0 then Ok (-1, r, a) else Ok (reserve_slot slot desc (Some (mk_cstr p (c_text name))) r, a)
      end
  end.

Definition module_registry_commit (id : Z) (r : registry) : registry :=
  match search (fun s d => is_state REG_RESERVED s && (d_id d =? id)) r with
  | None => r
  | Some i => mk_registry (g_registry r) (<[i := REG_COMMITTED]> (g_registry_state r)) (g_next_id r)
  end.

Definition module_registry_cancel (id : Z) (r : registry) (a : A) : res (registry * A) :=
  match search (fun s d => is_state REG_RESERVED s && (d_id d =? id)) r with
  | None => Ok (r, a)
  | Some i =>
      let! a :=
        match g_registry r !! i with
        | Some d => match d_name d with Some name => kfree (c_addr name) a | None => Ok a end
        | None => Fault
        end in
      Ok (set_slot i REG_FREE zero_desc r, a)
  end.

(** the address of the slot is the slot's number *)
Definition module_registry_find_by_id (id : Z) (r : registry) : option nat :=
  search (fun s d => is_state REG_COMMITTED s && (d_id d =? id)) r.

Definition module_registry_count (r : registry) : Z := Z.of_nat (length (filter (fun s => s = REG_COMMITTED) (g_registry_state r))).
End Ops.

(** ** The specification

    A map from identifiers to the state and the descriptor; the next identifier;
    what an operation may answer. *)

Abbreviation rmap := (gmap Z (registry_state * module_desc)).

Inductive reg_op := Reserve (d : module_desc) | Commit (id : Z) | Cancel (id : Z) | FindById (id : Z) | Count.

Inductive reg_answer := Id (id : Z) | Done | Found (d : option module_desc) | Number (n : Z).

(** the descriptor kept for [d]: the same, under the name's copy *)
Definition registered (d d' : module_desc) (id : Z) : Prop :=
  exists name, d' = set_name_id d name id /\ c_text <$> name = c_text <$> d_name d.

Definition committed (x : registry_state * module_desc) : Prop := x.1 = REG_COMMITTED.
#[global] Instance committed_dec x : Decision (committed x) := decide (x.1 = REG_COMMITTED).

Inductive reg_spec (M : rmap) (next : Z) : reg_op -> reg_answer -> rmap -> Z -> Prop :=
  | spec_full d : base.size M = MODULE_REGISTRY_CAPACITY -> reg_spec M next (Reserve d) (Id (-1)) M next
  | spec_no_memory d name : d_name d = Some name -> reg_spec M next (Reserve d) (Id (-1)) M next
  | spec_reserve d d' : (base.size M < MODULE_REGISTRY_CAPACITY)%nat -> M !! next = None -> registered d d' next ->
      reg_spec M next (Reserve d) (Id next) (<[next := (REG_RESERVED, d')]> M) (next + 1)
  | spec_commit id d : M !! id = Some (REG_RESERVED, d) -> reg_spec M next (Commit id) Done (<[id := (REG_COMMITTED, d)]> M) next
  | spec_commit_not id : (forall d, M !! id <> Some (REG_RESERVED, d)) -> reg_spec M next (Commit id) Done M next
  | spec_cancel id d : M !! id = Some (REG_RESERVED, d) -> reg_spec M next (Cancel id) Done (delete id M) next
  | spec_cancel_not id : (forall d, M !! id <> Some (REG_RESERVED, d)) -> reg_spec M next (Cancel id) Done M next
  | spec_find id d : M !! id = Some (REG_COMMITTED, d) -> reg_spec M next (FindById id) (Found (Some d)) M next
  | spec_find_not id : (forall d, M !! id <> Some (REG_COMMITTED, d)) -> reg_spec M next (FindById id) (Found None) M next
  | spec_count : reg_spec M next Count (Number (Z.of_nat (base.size (filter (fun x => committed x.2) M)))) M next.

(** runs of the specification *)
Inductive reg_specs (M : rmap) (next : Z) : list reg_op -> list reg_answer -> rmap -> Z -> Prop :=
  | specs_nil : reg_specs M next [] [] M next
  | specs_cons op ops x xs M' next' M'' next'' : reg_spec M next op x M' next' -> reg_specs M' next' ops xs M'' next'' ->
      reg_specs M next (op :: ops) (x :: xs) M'' next''.

(** ** The slots as a map *)

Definition slots (r : registry) : list (registry_state * module_desc) := zip (g_registry_state r) (g_registry r).

Definition entry (x : registry_state * module_desc) : option (Z * (registry_state * module_desc)) :=
  if decide (x.1 = REG_FREE) then None else Some (d_id x.2, x).

Definition entries (l : list (registry_state * module_desc)) : list (Z * (registry_state * module_desc)) := omap entry l.

Definition view (r : registry) : rmap := list_to_map (entries (slots r)).

(** the blocks of the names *)
Definition name_block (x : Z * (registry_state * module_desc)) : option (Z * Z) :=
  (fun n => (c_addr n, zlen (c_text n) + 1)) <$> d_name x.2.2.

Definition names (r : registry) : list (Z * Z) := omap name_block (entries (slots r)).

(** the slots but the [i]-th *)
Definition others (i : nat) (r : registry) : list (Z * (registry_state * module_desc)) :=
  entries (take i (slots r)) ++ entries (drop (S i) (slots r)).

Record registry_wf (r : registry) : Prop := {
  wf_states : length (g_registry_state r) = MODULE_REGISTRY_CAPACITY;
  wf_descs : length (g_registry r) = MODULE_REGISTRY_CAPACITY;
  wf_ids : NoDup (entries (slots r)).*1;
  wf_next : Forall (fun x => 0 <= x.1 < g_next_id r) (entries (slots r)) }.

(** ** Slots and entries *)

Lemma slots_length r : registry_wf r -> length (slots r) = MODULE_REGISTRY_CAPACITY.
Proof. intros H. unfold slots. rewrite length_zip_with, (wf_states r H), (wf_descs r H). done. Qed.

Lemma slots_set i s d r : slots (set_slot i s d r) = <[i := (s, d)]> (slots r).
Proof. unfold slots, set_slot. cbn [g_registry_state g_registry]. by rewrite insert_zip_with. Qed.

Lemma entries_split i x r : slots r !! i = Some x -> entries (slots r) ≡ₚ option_list (entry x) ++ others i r.
Proof.
  intros E. unfold others, entries. rewrite <- (take_drop_middle (slots r) i x E) at 1.
  rewrite omap_app. cbn [omap list_omap]. destruct (entry x) as [e |]; cbn [option_list option_rect app]; [| done].
  by rewrite <- Permutation_middle.
Qed.

Lemma entries_set i x s d r : slots r !! i = Some x ->
  entries (slots (set_slot i s d r)) ≡ₚ option_list (entry (s, d)) ++ others i r.
Proof.
  intros E. rewrite slots_set, insert_take_drop by (apply lookup_lt_Some in E; lia). unfold others, entries.
  rewrite omap_app. cbn [omap list_omap]. destruct (entry (s, d)) as [e |]; cbn [option_list option_rect app]; [| done].
  by rewrite <- Permutation_middle.
Qed.

(** searching the two arrays is searching the slots *)
Lemma search_spec p r :
  match search p r with
  | Some i => exists s d, slots r !! i = Some (s, d) /\ p s d = true
  | None => registry_wf r -> forall s d, (s, d) ∈ slots r -> p s d = false
  end.
Proof.
  unfold search, slots.
  assert (H : forall st ds, match find_slot p st ds with
    | Some i => exists s d, zip st ds !! i = Some (s, d) /\ p s d = true
    | None => length st = length ds -> forall s d, (s, d) ∈ zip st ds -> p s d = false end).
  { induction st as [| s st IH]; intros [| d ds]; cbn [find_slot]; try done.
    - intros _ s d E. by apply elem_of_nil in E.
    - destruct (p s d) eqn:E; [by exists s, d |]. specialize (IH ds). destruct (find_slot p st ds) as [i |]; cbn [fmap option_fmap option_map].
      + destruct IH as (s' & d' & E' & Hp). by exists s', d'.
      + intros [= HL] s' d' Hin. cbn [zip] in Hin. apply elem_of_cons in Hin as [[= -> ->] | Hin]; [done |]. by apply IH. }
  specialize (H (g_registry_state r) (g_registry r)). destruct (find_slot _ _ _); [done |].
  intros HW. apply H. by rewrite (wf_states r HW), (wf_descs r HW).
Qed.

Lemma entry_some s d : s <> REG_FREE -> entry (s, d) = Some (d_id d, (s, d)).
Proof. intros H. unfold entry. cbn [fst snd]. by rewrite decide_False. Qed.

Lemma entry_free d : entry (REG_FREE, d) = None.
Proof. done. Qed.

Lemma is_state_true st s : is_state st s = true <-> s = st.
Proof. unfold is_state. apply bool_decide_eq_true. Qed.

Lemma omap_length {X Y} (f : X -> option Y) l : (length (omap f l) <= length l)%nat.
Proof. induction l as [| x l IH]; [done |]. cbn [omap list_omap]. destruct (f x); cbn [length]; lia. Qed.

Lemma omap_all {X Y} (f : X -> option Y) l : (forall x, x ∈ l -> f x <> None) -> length (omap f l) = length l.
Proof.
  induction l as [| x l IH]; intros H; [done |]. cbn [omap list_omap]. destruct (f x) as [y |] eqn:E.
  - cbn [length]. rewrite IH; [done |]. intros z Hz. apply H. by right.
  - exfalso. apply (H x); [left | done].
Qed.

Lemma view_size r : registry_wf r -> base.size (view r) = length (entries (slots r)).
Proof. intros H. unfold view. rewrite map_size_list_to_map; [done | by apply wf_ids]. Qed.

Lemma view_lookup r id x : registry_wf r -> view r !! id = Some x <-> (id, x) ∈ entries (slots r).
Proof. intros H. unfold view. symmetry. apply elem_of_list_to_map. by apply wf_ids. Qed.

Lemma in_entries id x l : (id, x) ∈ entries l <-> x ∈ l /\ d_id x.2 = id /\ x.1 <> REG_FREE.
Proof.
  unfold entries. rewrite list_elem_of_omap. split.
  - intros (y & Hy & E). unfold entry in E. destruct (decide (y.1 = REG_FREE)); [done |]. by injection E as <- <-.
  - intros (Hx & <- & Hf). exists x. split; [done |]. unfold entry. by rewrite decide_False.
Qed.

(** searching by state and identifier is looking the identifier up *)
Lemma search_id st id r : registry_wf r -> st <> REG_FREE ->
  match search (fun s d => is_state st s && (d_id d =? id)) r with
  | Some i => exists d, slots r !! i = Some (st, d) /\ d_id d = id /\ view r !! id = Some (st, d)
  | None => forall d, view r !! id <> Some (st, d)
  end.
Proof.
  intros HW Hst. pose proof (search_spec (fun s d => is_state st s && (d_id d =? id)) r) as H.
  destruct (search _ r) as [i |].
  - destruct H as (s & d & E & Hp). apply andb_prop in Hp as [Hp Hid]. apply is_state_true in Hp as ->. apply Z.eqb_eq in Hid.
    exists d. split; [done |]. split; [done |]. apply view_lookup; [done |]. apply in_entries.
    split; [by apply list_elem_of_lookup_2 in E | done].
  - intros d E. apply view_lookup in E; [| done]. apply in_entries in E as (Hin & Hid & _). cbn [fst snd] in *.
    specialize (H HW st d Hin). rewrite (proj2 (is_state_true st st) eq_refl), Hid, Z.eqb_refl in H. done.
Qed.

Lemma slots_lookup r i s d : slots r !! i = Some (s, d) -> g_registry_state r !! i = Some s /\ g_registry r !! i = Some d.
Proof. unfold slots. intros E. apply lookup_zip_Some in E as [E1 E2]. done. Qed.

(** replacing a slot *)
Lemma set_slot_wf i x s d r : registry_wf r -> slots r !! i = Some x ->
  NoDup (option_list (entry (s, d)) ++ others i r).*1 ->
  Forall (fun y => 0 <= y.1 < g_next_id r) (option_list (entry (s, d)) ++ others i r) ->
  registry_wf (set_slot i s d r).
Proof.
  intros HW E HN HF. pose proof (entries_set i x s d r E) as HP. split.
  - unfold set_slot. cbn [g_registry_state]. rewrite length_insert. apply (wf_states r HW).
  - unfold set_slot. cbn [g_registry]. rewrite length_insert. apply (wf_descs r HW).
  - by rewrite HP.
  - by rewrite HP.
Qed.

Lemma view_set i x s d r : registry_wf (set_slot i s d r) -> slots r !! i = Some x ->
  view (set_slot i s d r) = list_to_map (option_list (entry (s, d)) ++ others i r).
Proof. intros HW E. unfold view. apply list_to_map_proper; [by apply wf_ids | by apply (entries_set i x)]. Qed.

Lemma view_others i s d r : registry_wf r -> slots r !! i = Some (s, d) -> s <> REG_FREE ->
  NoDup (others i r).*1 /\ (forall y, (d_id d, y) ∉ others i r) /\ Forall (fun y => 0 <= y.1 < g_next_id r) ((d_id d, (s, d)) :: others i r) /\
  list_to_map (others i r) = delete (d_id d) (view r).
Proof.
  intros HW E Hs. pose proof (entries_split i _ r E) as HP. rewrite entry_some in HP by done. cbn [option_list option_rect app] in HP.
  pose proof (wf_ids r HW) as HN. rewrite HP, fmap_cons in HN. apply NoDup_cons in HN as [H1 H2].
  pose proof (wf_next r HW) as HF. rewrite HP in HF. split; [done |]. split.
  { intros y Hy. apply H1. apply list_elem_of_fmap. by exists (d_id d, y). }
  split; [done |]. unfold view. rewrite (list_to_map_proper _ _ (wf_ids r HW) HP). rewrite list_to_map_cons. cbn [fst snd].
  rewrite delete_insert_id; [done |]. apply not_elem_of_list_to_map_1. done.
Qed.

Lemma names_perm r l : entries (slots r) ≡ₚ l -> names r ≡ₚ omap name_block l.
Proof. unfold names. by intros ->. Qed.

(** ** The operations *)

(** a name fits the address space *)
Definition name_ok (d : module_desc) : Prop := forall n, d_name d = Some n -> zlen (c_text n) < UINT64_MAX.

Section Correct.
Context {A : Type} {AL : Allocator A}.
Implicit Types (r : registry) (a : A) (O : list (Z * Z)).

(** the registry with its names, beside the blocks [O] *)
Definition registry_ok r a O : Prop := registry_wf r /\ 0 <= g_next_id r /\ live a (names r ++ O).

Lemma reserve_slot_ok slot d name r d0 : registry_wf r -> 0 <= g_next_id r < 2147483647 ->
  slots r !! slot = Some (REG_FREE, d0) -> c_text <$> name = c_text <$> d_name d ->
  let id := g_next_id r in let r' := (reserve_slot slot d name r).2 in
  (reserve_slot slot d name r).1 = id /\ registry_wf r' /\ g_next_id r' = id + 1 /\
  names r' ≡ₚ option_list ((fun n => (c_addr n, zlen (c_text n) + 1)) <$> name) ++ names r /\
  reg_spec (view r) id (Reserve d) (Id id) (view r') (id + 1).
Proof.
  intros HW Hn E Ht. cbv zeta. unfold reserve_slot. cbn [fst snd]. set (id := g_next_id r) in *.
  set (r1 := mk_registry _ _ (u32 (id + 1))). set (d' := set_name_id d name id).
  assert (Hid : u32 (id + 1) = id + 1) by (apply u32_small; red; lia).
  assert (E1 : slots r1 !! slot = Some (REG_FREE, d0)) by exact E.
  pose proof (entries_split slot _ r E) as HP. rewrite entry_free in HP. cbn [option_list option_rect app] in HP.
  pose proof (entries_set slot _ REG_RESERVED d' r1 E1) as HS. rewrite entry_some in HS by done. cbn [option_list option_rect app] in HS.
  pose proof (wf_ids r HW) as HN. pose proof (wf_next r HW) as HF. rewrite HP in HN, HF.
  assert (Hfresh : id ∉ (others slot r).*1).
  { intros H. apply list_elem_of_fmap in H as (y & Hy & Hin). rewrite Forall_forall in HF. specialize (HF y Hin). lia. }
  assert (HW' : registry_wf (set_slot slot REG_RESERVED d' r1)).
  { split.
    - unfold set_slot. cbn [g_registry_state]. rewrite length_insert. apply (wf_states r HW).
    - unfold set_slot. cbn [g_registry]. rewrite length_insert. apply (wf_descs r HW).
    - rewrite HS, fmap_cons. apply NoDup_cons. done.
    - rewrite HS. cbn [g_next_id set_slot r1]. rewrite Hid. apply Forall_cons. split; [cbn; lia |].
      eapply Forall_impl; [exact HF |]. cbn beta. lia. }
  split; [apply i32_small; lia |]. split; [done |]. split; [done |]. split.
  { rewrite (names_perm _ _ HS), (names_perm _ _ HP). cbn [omap list_omap]. unfold name_block at 1. cbn [snd d' set_name_id d_name].
    by destruct name. }
  assert (EV : view (set_slot slot REG_RESERVED d' r1) = <[id := (REG_RESERVED, d')]> (view r)).
  { rewrite (view_set slot _ _ _ r1 HW' E1), entry_some by done. cbn [option_list option_rect app].
    rewrite list_to_map_cons. cbn [fst snd]. f_equal. unfold view. by rewrite (list_to_map_proper _ _ (wf_ids r HW) HP). }
  rewrite EV. apply spec_reserve.
  - rewrite view_size, HP by done. unfold others, entries. rewrite length_app.
    pose proof (omap_length entry (take slot (slots r))). pose proof (omap_length entry (drop (S slot) (slots r))).
    pose proof (slots_length r HW). apply lookup_lt_Some in E. rewrite length_take in *. rewrite length_drop in *. lia.
  - unfold view. rewrite (list_to_map_proper _ _ (wf_ids r HW) HP). by apply not_elem_of_list_to_map_1.
  - by exists name.
Qed.

Lemma reserve_ok d r a O : registry_ok r a O -> g_next_id r < 2147483647 -> name_ok d ->
  exists id r' a', module_registry_reserve d r a = Ok (id, r', a') /\ registry_ok r' a' O /\
    reg_spec (view r) (g_next_id r) (Reserve d) (Id id) (view r') (g_next_id r') /\
    (id = -1 /\ r' = r \/ id = g_next_id r /\ g_next_id r' = id + 1).
Proof.
  intros (HW & Hn & HL) Hlt Hok. unfold module_registry_reserve.
  pose proof (search_spec (fun s _ => is_state REG_FREE s) r) as HS. destruct (search _ r) as [slot |].
  - destruct HS as (s & d0 & E & Hs). apply is_state_true in Hs as ->.
    assert (Hok' : forall name, c_text <$> name = c_text <$> d_name d -> forall a',
      live a' (option_list ((fun n => (c_addr n, zlen (c_text n) + 1)) <$> name) ++ names r ++ O) ->
      exists id r' a'', Ok (reserve_slot slot d name r, a') = Ok (id, r', a'') /\ registry_ok r' a'' O /\
      reg_spec (view r) (g_next_id r) (Reserve d) (Id id) (view r') (g_next_id r') /\
      (id = -1 /\ r' = r \/ id = g_next_id r /\ g_next_id r' = id + 1)).
    { intros name Ht a' Ha. destruct (reserve_slot_ok slot d name r d0 HW ltac:(lia) E Ht) as (E1 & HW' & E2 & HP & Hsp).
      destruct (reserve_slot slot d name r) as [id r']. cbn [fst snd] in *. subst id. exists (g_next_id r), r', a'. split; [done |].
      split; [| split; [by rewrite E2 | right; by rewrite E2]]. split; [done |]. split; [lia |].
      eapply live_perm; [| exact Ha]. rewrite HP. by rewrite app_assoc. }
    destruct (d_name d) as [name |] eqn:En.
    + specialize (Hok name En). assert (0 <= zlen (c_text name)) by (unfold zlen; lia).
      rewrite u64_small by (red; lia).
      destruct (kmalloc_live a _ (zlen (c_text name) + 1) HL) as (p & a' & -> & [[-> Ha] | [Hp Ha]]); [lia | |]; cbn [res_bind].
      * exists (-1), r, a'. split; [done |]. split; [done |]. split; [by eapply spec_no_memory | by left].
      * rewrite (proj2 (Z.eqb_neq p 0)) by lia. by apply Hok'.
    + apply Hok'; [done |]. exact HL.
  - exists (-1), r, a. split; [done |]. split; [done |]. split; [| by left]. apply spec_full. rewrite view_size by done.
    unfold entries. rewrite omap_all; [by apply slots_length |]. intros [s d0] Hin. specialize (HS HW s d0 Hin).
    rewrite entry_some; [done |]. intros ->. done.
Qed.

Lemma commit_slot i id d r : registry_wf r -> slots r !! i = Some (REG_RESERVED, d) -> d_id d = id ->
  let r' := mk_registry (g_registry r) (<[i := REG_COMMITTED]> (g_registry_state r)) (g_next_id r) in
  registry_wf r' /\ names r' ≡ₚ names r /\ view r' = <[id := (REG_COMMITTED, d)]> (view r).
Proof.
  intros HW E Hid. cbv zeta. destruct (slots_lookup r i _ _ E) as [_ Ed].
  replace (mk_registry _ _ _) with (set_slot i REG_COMMITTED d r) by (unfold set_slot; by rewrite (list_insert_id _ _ _ Ed)).
  destruct (view_others i _ d r HW E ltac:(done)) as (HN & Hni & HF & EV). apply Forall_cons in HF as [H1 HF]. cbn [fst] in H1.
  assert (HW' : registry_wf (set_slot i REG_COMMITTED d r)).
  { apply (set_slot_wf i _ _ _ r HW E); rewrite entry_some by done; cbn [option_list option_rect app].
    - rewrite fmap_cons. apply NoDup_cons. split; [| done]. intros H. apply list_elem_of_fmap in H as ([x y] & Hx & Hin). cbn in Hx. subst x. by apply (Hni y).
    - by apply Forall_cons. }
  split; [done |]. split.
  - rewrite (names_perm _ _ (entries_set i _ REG_COMMITTED d r E)), (names_perm _ _ (entries_split i _ r E)).
    rewrite !entry_some by done. done.
  - rewrite (view_set i _ _ _ r HW' E), entry_some by done. cbn [option_list option_rect app]. rewrite list_to_map_cons. cbn [fst snd].
    rewrite EV, Hid. apply insert_delete_eq.
Qed.

Lemma commit_ok id r a O : registry_ok r a O -> let r' := module_registry_commit id r in
  registry_ok r' a O /\ g_next_id r' = g_next_id r /\ reg_spec (view r) (g_next_id r) (Commit id) Done (view r') (g_next_id r').
Proof.
  intros (HW & Hn & HL). cbv zeta. unfold module_registry_commit. pose proof (search_id REG_RESERVED id r HW ltac:(done)) as HS.
  destruct (search _ r) as [i |].
  - destruct HS as (d & E & Hid & Hv). destruct (commit_slot i id d r HW E Hid) as (HW' & HP & EV).
    split; [| split; [done |]].
    + split; [done |]. split; [done |]. eapply live_perm; [| exact HL]. by rewrite HP.
    + rewrite EV. by eapply spec_commit.
  - split; [done |]. split; [done |]. by apply spec_commit_not.
Qed.

Lemma cancel_ok id r a O : registry_ok r a O ->
  exists r' a', module_registry_cancel id r a = Ok (r', a') /\ registry_ok r' a' O /\ g_next_id r' = g_next_id r /\
    reg_spec (view r) (g_next_id r) (Cancel id) Done (view r') (g_next_id r').
Proof.
  intros (HW & Hn & HL). unfold module_registry_cancel. pose proof (search_id REG_RESERVED id r HW ltac:(done)) as HS.
  destruct (search _ r) as [i |].
  2:{ exists r, a. split; [done |]. split; [done |]. split; [done |]. by apply spec_cancel_not. }
  destruct HS as (d & E & Hid & Hv). destruct (slots_lookup r i _ _ E) as [_ ->].
  destruct (view_others i _ d r HW E ltac:(done)) as (HN & Hni & HF & EV). apply Forall_cons in HF as [H1 HF].
  assert (HW' : registry_wf (set_slot i REG_FREE zero_desc r)) by by apply (set_slot_wf i _ _ _ r HW E).
  assert (HN' : names (set_slot i REG_FREE zero_desc r) ≡ₚ omap name_block (others i r)).
  { rewrite (names_perm _ _ (entries_set i _ REG_FREE zero_desc r E)). done. }
  assert (Ha : exists a', (match d_name d with Some name => kfree (c_addr name) a | None => Ok a end) = Ok a' /\
    live a' (omap name_block (others i r) ++ O)).
  { eapply live_perm in HL; [| by rewrite (names_perm _ _ (entries_split i _ r E)), entry_some].
    cbn [option_list option_rect app omap list_omap] in HL.
    unfold name_block at 1 in HL. cbn [snd] in HL. destruct (d_name d) as [n |]; cbn [fmap option_fmap option_map] in HL.
    - by apply (kfree_live a _ (c_addr n) (zlen (c_text n) + 1)).
    - by exists a. }
  destruct Ha as (a' & -> & Ha). cbn [res_bind]. exists (set_slot i REG_FREE zero_desc r), a'. split; [done |]. split; [| split; [done |]].
  - split; [done |]. split; [done |]. eapply live_perm; [| exact Ha]. by rewrite HN'.
  - replace (view (set_slot i REG_FREE zero_desc r)) with (delete id (view r)); [by eapply spec_cancel |].
    rewrite (view_set i _ _ _ r HW' E), entry_free. cbn [option_list option_rect app]. by rewrite <- Hid, EV.
Qed.

Lemma find_ok id r : registry_wf r ->
  reg_spec (view r) (g_next_id r) (FindById id) (Found (module_registry_find_by_id id r ≫= fun i => g_registry r !! i)) (view r) (g_next_id r).
Proof.
  intros HW. unfold module_registry_find_by_id. pose proof (search_id REG_COMMITTED id r HW ltac:(done)) as HS.
  destruct (search _ r) as [i |]; [| by apply spec_find_not].
  destruct HS as (d & E & Hid & Hv). destruct (slots_lookup r i _ _ E) as [_ Ed]. cbn [mbind option_bind]. rewrite Ed. by apply spec_find.
Qed.

Lemma count_ok r : registry_wf r ->
  reg_spec (view r) (g_next_id r) Count (Number (module_registry_count r)) (view r) (g_next_id r).
Proof.
  intros HW.
  assert (E : forall st ds, length st = length ds ->
    length (filter (fun s => s = REG_COMMITTED) st) = length (filter (fun x : Z * (registry_state * module_desc) => committed x.2) (entries (zip st ds)))).
  { induction st as [| s st IH]; intros [| d ds] HL; try done. injection HL as HL. specialize (IH ds HL).
    cbn [zip zip_with]. unfold entries in *. cbn [omap list_omap]. destruct s.
    - rewrite entry_free. cbn [filter list_filter]. done.
    - rewrite entry_some by done. rewrite !filter_cons_False by done. done.
    - rewrite entry_some by done. rewrite !filter_cons_True by done. cbn [length]. by rewrite IH. }
  specialize (E (g_registry_state r) (g_registry r)). unfold module_registry_count. rewrite E.
  2:{ by rewrite (wf_states r HW), (wf_descs r HW). }
  replace (length _) with (base.size (filter (fun x => committed x.2) (view r))); [apply spec_count |].
  rewrite map_filter_alt, map_size_list_to_map.
  - unfold view. rewrite map_to_list_to_map by by apply wf_ids. done.
  - apply NoDup_fmap_fst; [| apply NoDup_filter, NoDup_map_to_list]. intros x y1 y2 H1 H2.
    apply list_elem_of_filter in H1 as [_ H1], H2 as [_ H2]. apply elem_of_map_to_list in H1, H2. congruence.
Qed.

(** ** Runs *)

Definition reg_step (op : reg_op) (r : registry) (a : A) : res (reg_answer * registry * A) :=
  match op with
  | Reserve d => let! (id, r, a) := module_registry_reserve d r a in Ok (Id id, r, a)
  | Commit id => Ok (Done, module_registry_commit id r, a)
  | Cancel id => let! (r, a) := module_registry_cancel id r a in Ok (Done, r, a)
  | FindById id => Ok (Found (module_registry_find_by_id id r ≫= fun i => g_registry r !! i), r, a)
  | Count => Ok (Number (module_registry_count r), r, a)
  end.

Fixpoint reg_run (ops : list reg_op) (r : registry) (a : A) : res (list reg_answer * registry * A) :=
  match ops with
  | [] => Ok ([], r, a)
  | op :: ops => let! (x, r, a) := reg_step op r a in let! (xs, r, a) := reg_run ops r a in Ok (x :: xs, r, a)
  end.

Definition op_ok (op : reg_op) : Prop := match op with Reserve d => name_ok d | _ => True end.

Lemma reg_step_ok op r a O : registry_ok r a O -> g_next_id r < 2147483647 -> op_ok op ->
  exists x r' a', reg_step op r a = Ok (x, r', a') /\ registry_ok r' a' O /\ g_next_id r <= g_next_id r' <= g_next_id r + 1 /\
    reg_spec (view r) (g_next_id r) op x (view r') (g_next_id r').
Proof.
  intros Hr Hlt Hop. destruct op as [d | id | id | id |]; cbn [reg_step].
  - destruct (reserve_ok d r a O Hr Hlt Hop) as (id & r' & a' & -> & Hr' & Hsp & Hn). exists (Id id), r', a'.
    split; [done |]. split; [done |]. split; [| done]. destruct Hn as [[_ ->] | [-> ->]]; lia.
  - destruct (commit_ok id r a O Hr) as (Hr' & En & Hsp). exists Done, (module_registry_commit id r), a. rewrite En in Hsp |- *. split; [done |]. split; [done |]. split; [lia | done].
  - destruct (cancel_ok id r a O Hr) as (r' & a' & -> & Hr' & En & Hsp). exists Done, r', a'. rewrite En in Hsp |- *. split; [done |]. split; [done |]. split; [lia | done].
  - eexists _, r, a. split; [done |]. split; [done |]. split; [lia |]. apply find_ok, Hr.
  - eexists _, r, a. split; [done |]. split; [done |]. split; [lia |]. apply count_ok, Hr.
Qed.

Lemma reg_run_ok ops r a O : registry_ok r a O -> g_next_id r + Z.of_nat (length ops) <= 2147483647 -> Forall op_ok ops ->
  exists xs r' a', reg_run ops r a = Ok (xs, r', a') /\ registry_ok r' a' O /\
    reg_specs (view r) (g_next_id r) ops xs (view r') (g_next_id r').
Proof.
  revert r a. induction ops as [| op ops IH]; intros r a Hr Hn HF; cbn [reg_run].
  - exists [], r, a. split; [done |]. split; [done |]. apply specs_nil.
  - apply Forall_cons in HF as [Hop HF]. cbn [length] in Hn.
    destruct (reg_step_ok op r a O Hr ltac:(lia) Hop) as (x & r1 & a1 & -> & Hr1 & Hn1 & Hs). cbn [res_bind].
    destruct (IH r1 a1 Hr1 ltac:(lia) HF) as (xs & r2 & a2 & -> & Hr2 & Hs2). cbn [res_bind].
    exists (x :: xs), r2, a2. split; [done |]. split; [done |]. by eapply specs_cons.
Qed.

(** C35: any sequence of calls of the module registry, from the empty registry
    and fewer than 2^31 of them, returns answers that the specification gives:
    a finite map from identifiers to descriptors, of at most 32, in which an
    identifier is never used twice, only committed descriptors are found and
    counted, and cancelling removes what was reserved; and exactly the copies of
    the names of the entries are allocated beside the former blocks. *)
Theorem module_registry_refines ops a O : live a O -> Z.of_nat (length ops) < 2 ^ 31 -> Forall op_ok ops ->
  exists xs r a' next, reg_run ops new_registry a = Ok (xs, r, a') /\ reg_specs ∅ 0 ops xs (view r) next /\
    live a' (names r ++ O).
Proof.
  intros HL Hn HF. destruct (reg_run_ok ops new_registry a O) as (xs & r & a' & E & (_ & _ & HL') & Hs); [| cbn; lia | done |].
  - split; [| split; [done | exact HL]]. split; [done | done | apply NoDup_nil_2 | apply Forall_nil_2].
  - by exists xs, r, a', (g_next_id r).
Qed.
End Correct.

(** ** A run on the kernel heap: three modules, one cancelled *)

#[local] Instance ex_registry_heap : Allocator (kheap Heap.frames) := heap_allocator (Some 1).

Definition ex_desc (name : list Z) : module_desc :=
  mk_desc (Some (mk_cstr 0 name)) MODULE_KIND_KTHREAD 0xffffffffc0000000 4096 (replicate 8 (mk_seg 0 0)) 0 0xffffffffc0000040 0 0 0.

Definition ex_ops : list reg_op :=
  [Reserve (ex_desc [102; 111; 111]); Commit 0; Reserve (ex_desc [98; 97; 114]); Cancel 1; Reserve zero_desc; FindById 0; FindById 2; Count].

Lemma module_registry_refines_witness : exists xs r a' next,
  reg_run ex_ops new_registry ex_heap = Ok (xs, r, a') /\ reg_specs ∅ 0 ex_ops xs (view r) next /\ live a' (names r ++ []).
Proof.
  apply (module_registry_refines ex_ops ex_heap []).
  - exact (init_client_inv ex_frames ex_heap ex_frames_ok ex_heap_init).
  - vm_compute. reflexivity.
  - repeat constructor; intros n [= <-]; vm_compute; reflexivity.
Defined.

(** what it answers *)
Example registry_run : exists d r a', reg_run ex_ops new_registry ex_heap =
  Ok ([Id 0; Done; Id 1; Done; Id 2; Found (Some d); Found None; Number 1], r, a').
Proof. eexists _, _, _. vm_compute. reflexivity. Qed.
