(* ===== verification/ModuleLoad.v ===== *)
(** * Loading modules ([kernel/elf_loader.c])

    A module is a relocatable file.  Its image is copied to memory of the module
    allocator and stays there as it is in the file, headers included; sections
    without contents get memory of their own.  The image is a list of bytes at
    the address [mem]: reading or writing outside it is a fault.  The loader
    reads the relocation entries in the original file and everything else in the
    copy it is patching. *)

From stdpp Require Import base list.
From S2P Require Import Prelude Bytes Heap Alloc Vma Pmm PageAlloc Vmm VmmWalk VmmOwned VmmSpec VmmSpace PageOwner ModuleAlloc.
From S2P Require Import Elf ElfLoad Process Ksym ModuleRegistry.

(** ** Constants *)

Definition SHT_RELA : Z := 4.
Definition SHT_NOBITS : Z := 8.
Definition SHN_UNDEF : Z := 0.
Definition SHN_ABS : Z := 0xfff1.
Definition SHF_ALLOC : Z := 2.
Definition MODULE_MAX_BSS_SECTIONS : Z := 8.

(** ** Memory for sections without contents *)

Record module_bss_map := mk_bss { bss_idx : Z; bss_addr : Z }.

Fixpoint module_bss_lookup (bss_map : list module_bss_map) (sh_idx : Z) : Z :=
  match bss_map with
  | [] => 0
  | b :: bss_map => if bss_idx b =? sh_idx then bss_addr b else module_bss_lookup bss_map sh_idx
  end.

(** a section [module_alloc_bss] allocates *)
Definition is_bss (s : Elf64_Shdr) : bool :=
  (sh_type s =? SHT_NOBITS) && negb (Z.land (sh_flags s) SHF_ALLOC =? 0) && negb (sh_size s =? 0).

Section Load.
Context {A : Type} {AL : Allocator A} {P : Type} {PA : PageAllocator P}.
(** [kernel_pml4], the table of exported symbols and the address of [ret_from_fork] *)
Context (root : Z) (table : list kernel_symbol) (ret_from_fork : Z).

(** the loop over the sections; [None] is the return of -1.  The memory is
    cleared: the map is the segments of zeros. *)
Fixpoint module_alloc_bss (n : nat) (i : Z) (f : list Z) (h : Elf64_Ehdr) (bss_map : list module_bss_map)
  (m : module_area) (s : vm P) : res (option (list module_bss_map) * module_area * vm P) :=
  match n with
  | O => Ok (Some bss_map, m, s)
  | S n =>
      let! sh := shdr f h i in
      if negb (is_bss sh) then module_alloc_bss n (i + 1) f h bss_map m s
      else if MODULE_MAX_BSS_SECTIONS <=? Z.of_nat (length bss_map) then Ok (None, m, s)
      else
        let! (vaddr, m, s) := module_alloc root (align_down 4096 (u64 (sh_size sh + 4095))) m s in
        if vaddr =? 0 then Ok (None, m, s)
        else module_alloc_bss n (i + 1) f h (bss_map ++ [mk_bss i vaddr]) m s
  end.

(** ** Relocations *)

Definition module_relocation_type_supported (t : Z) : bool :=
  (t =? R_X86_64_NONE) || (t =? R_X86_64_64) || (t =? R_X86_64_PC32) || (t =? R_X86_64_PLT32) || (t =? R_X86_64_32) ||
  (t =? R_X86_64_32S) || (t =? R_X86_64_PC64).

(** the entries of one section; false is the return of -1 *)
Fixpoint preflight_entries (n : nat) (i : Z) (f : list Z) (entries symtab strtab : Z) : res bool :=
  match n with
  | O => Ok true
  | S n =>
      let! e := read_rela f (entries + i * RELA_SIZE) in
      if negb (module_relocation_type_supported (ELF64_R_TYPE (r_info e))) then Ok false
      else
        let! sym := read_sym f (symtab + ELF64_R_SYM (r_info e) * SYM_SIZE) in
        let! a := if st_shndx sym =? SHN_UNDEF then ksym_lookup table f (strtab + st_name sym) else Ok 1 in
        if a =? 0 then Ok false else preflight_entries n (i + 1) f entries symtab strtab
  end.

Fixpoint preflight_sections (n : nat) (si : Z) (f : list Z) (h : Elf64_Ehdr) : res bool :=
  match n with
  | O => Ok true
  | S n =>
      let! rela := shdr f h si in
      if negb (sh_type rela =? SHT_RELA) then preflight_sections n (si + 1) f h
      else
        let! target := shdr f h (sh_info rela) in
        if Z.land (sh_flags target) SHF_ALLOC =? 0 then preflight_sections n (si + 1) f h
        else
          let! symtab_hdr := shdr f h (sh_link rela) in
          let! strtab_hdr := shdr f h (sh_link symtab_hdr) in
          let! b := preflight_entries (Z.to_nat (sh_size rela / RELA_SIZE)) 0 f (sh_offset rela) (sh_offset symtab_hdr) (sh_offset strtab_hdr) in
          if b then preflight_sections n (si + 1) f h else Ok false
  end.

Definition module_preflight_relocations (f : list Z) (h : Elf64_Ehdr) : res bool :=
  preflight_sections (Z.to_nat (e_shnum h)) 0 f h.

(** [strlen]: the distance to the first zero *)
Fixpoint str_len (n : nat) (f : list Z) (i : Z) : res Z :=
  match n with
  | O => Fault
  | S n => let! b := byte_at f i in if b =? 0 then Ok 0 else let! k := str_len n f (i + 1) in Ok (k + 1)
  end.

(** the address of a symbol; [None] is the return of -1 *)
Definition symbol_address (f : list Z) (h : Elf64_Ehdr) (mem : Z) (bss_map : list module_bss_map) (strtab : Z) (sym : Elf64_Sym) :
  res (option Z) :=
  if st_shndx sym =? SHN_UNDEF then
    let! a := ksym_lookup table f (strtab + st_name sym) in Ok (if a =? 0 then None else Some a)
  else if st_shndx sym =? SHN_ABS then Ok (Some (st_value sym))
  else
    let! sec := elf_section f h (st_shndx sym) in
    if sh_type sec =? SHT_NOBITS then
      let base := module_bss_lookup bss_map (st_shndx sym) in
      Ok (if base =? 0 then None else Some (u64 (base + st_value sym)))
    else Ok (Some (u64 (mem + sh_offset sec + st_value sym))).

(** the table of section headers is where the header [h0] says; the rest of the
    header, and the offset of the target section [tidx], are read anew for each entry *)
Fixpoint apply_entries (n : nat) (i : Z) (raw f : list Z) (h0 : Elf64_Ehdr) (mem : Z) (bss_map : list module_bss_map)
  (entries symtab strtab tidx : Z) : res (option (list Z)) :=
  match n with
  | O => Ok (Some f)
  | S n =>
      let! e := read_rela raw (entries + i * RELA_SIZE) in
      let! sym := read_sym f (symtab + ELF64_R_SYM (r_info e) * SYM_SIZE) in
      let! _ := str_len (S (length f)) f (strtab + st_name sym) in
      let! h := read_ehdr f 0 in
      let! a := symbol_address f h mem bss_map strtab sym in
      match a with
      | None => Ok None
      | Some sym_addr =>
          let! target := shdr f h0 tidx in
          let! r := apply_relocation_to f mem (sh_offset target) e sym_addr in
          match r with
          | None => Ok None
          | Some f => apply_entries n (i + 1) raw f h0 mem bss_map entries symtab strtab tidx
          end
      end
  end.

(** the loop runs while [si] is below the number of sections in the copy, which is a
    16-bit number *)
Fixpoint apply_sections (n : nat) (si : Z) (raw f : list Z) (h0 : Elf64_Ehdr) (mem : Z) (bss_map : list module_bss_map) :
  res (option (list Z)) :=
  let! h := read_ehdr f 0 in
  if negb (si <? e_shnum h) then Ok (Some f)
  else
    match n with
    | O => Fault
    | S n =>
        let! rela := shdr f h0 si in
        if negb (sh_type rela =? SHT_RELA) then apply_sections n (si + 1) raw f h0 mem bss_map
        else
          let! target := shdr f h0 (sh_info rela) in
          if Z.land (sh_flags target) SHF_ALLOC =? 0 then apply_sections n (si + 1) raw f h0 mem bss_map
          else
            let! _ := elf_section f h (e_shstrndx h) in
            let! symtab_shdr := shdr f h0 (sh_link rela) in
            let! strtab_shdr := shdr f h0 (sh_link symtab_shdr) in
            let! r := apply_entries (Z.to_nat (sh_size rela / RELA_SIZE)) 0 raw f h0 mem bss_map (sh_offset rela)
                        (sh_offset symtab_shdr) (sh_offset strtab_shdr) (sh_info rela) in
            match r with
            | None => Ok None
            | Some f => apply_sections n (si + 1) raw f h0 mem bss_map
            end
    end.

Definition module_apply_rela (raw f : list Z) (mem : Z) (bss_map : list module_bss_map) : res (option (list Z)) :=
  let! h0 := read_ehdr f 0 in apply_sections (Z.to_nat 65536) 0 raw f h0 mem bss_map.

(** ** The entry *)

(** ["laos_module_entry"], ["_start"] and ["selftest_init"] *)
Definition LAOS_MODULE_ENTRY : list Z := [108; 97; 111; 115; 95; 109; 111; 100; 117; 108; 101; 95; 101; 110; 116; 114; 121].
Definition START : list Z := [95; 115; 116; 97; 114; 116].
Definition SELFTEST_INIT : list Z := [115; 101; 108; 102; 116; 101; 115; 116; 95; 105; 110; 105; 116].

Definition module_find_entry (f : list Z) (h : Elf64_Ehdr) (mem : Z) : res Z :=
  let! entry := ksym_in_module f h mem LAOS_MODULE_ENTRY in
  if entry =? 0 then ksym_in_module f h mem START else Ok entry.

(** ** The whole load *)

Record kernel := mk_kernel { k_sys : sys A P; k_area : module_area; k_reg : registry }.

Definition k_vm (k : kernel) : vm P := vmem (mach (k_sys k)).
Definition with_vm (s : vm P) (k : kernel) : kernel :=
  mk_kernel (with_mach (mk_machine s (ram (mach (k_sys k)))) (k_sys k)) (k_area k) (k_reg k).
Definition with_area (m : module_area) (k : kernel) : kernel := mk_kernel (k_sys k) m (k_reg k).

(** give back the memory and fail *)
Definition load_fail {X} (c : checkpoint) (k : kernel) : res (option X * kernel) :=
  let! (m, s) := module_alloc_rollback root c (k_area k) (k_vm k) in Ok (None, with_area m (with_vm s k)).

(** the image in memory: its address, its bytes and its cleared segments *)
Record image := mk_image { i_mem : Z; i_bytes : list Z; i_bss : list module_bss_map }.

(** the steps that [kthread_load_elf_rel] and [selftest_load_payload] share, up to
    the relocated image *)
Definition load_image (raw : list Z) (c : checkpoint) (k : kernel) : res (option image * kernel) :=
  let! (mem, m, s) := module_alloc root (zlen raw) (k_area k) (k_vm k) in
  let k := with_area m (with_vm s k) in
  if mem =? 0 then load_fail c k
  else
    let! h := read_ehdr raw 0 in
    let! (bss, m, s) := module_alloc_bss (Z.to_nat (e_shnum h)) 0 raw h [] (k_area k) (k_vm k) in
    let k := with_area m (with_vm s k) in
    match bss with
    | None => load_fail c k
    | Some bss =>
        let! r := module_apply_rela raw raw mem bss in
        match r with
        | None => load_fail c k
        | Some f => Ok (Some (mk_image mem f bss), k)
        end
    end.

(** the segments of the descriptor: address and size in the section header *)
Fixpoint bss_segments (f : list Z) (h : Elf64_Ehdr) (bss : list module_bss_map) : res (list module_bss_segment) :=
  match bss with
  | [] => Ok []
  | b :: bss =>
      let! sh := shdr f h (bss_idx b) in let! l := bss_segments f h bss in Ok (mk_seg (bss_addr b) (sh_size sh) :: l)
  end.

Definition pad_segments (l : list module_bss_segment) : list module_bss_segment := l ++ replicate (8 - length l) (mk_seg 0 0).

Definition with_module (i entry mem size : Z) (t : thread) : thread :=
  mk_thread (self t) i (pml4_phys t) (target_cpu t) (is_idle t) (is_user t) entry (entry_args_owned t)
    (user_stack t) (kernel_stack t) (kernel_stack_base t) mem size (user_stack_phys t) (rsp t) (vma_list t) (saved t).

(** the steps of [kthread_load_elf_rel] after the link: [name] is the string at an
    address, or null *)
Definition start_module (raw : list Z) (name : option cstring) (data : Z) (c : checkpoint) (im : image) (k : kernel) :
  res (option (thread * image) * kernel) :=
  let f := i_bytes im in
  let! h := read_ehdr f 0 in
  let! entry := module_find_entry f h (i_mem im) in
  if entry =? 0 then load_fail c k
  else
    let! segs := bss_segments f h (i_bss im) in
    let desc := mk_desc name MODULE_KIND_KTHREAD (i_mem im) (zlen raw) (pad_segments segs) (Z.of_nat (length (i_bss im))) entry 0 0 0 in
    let! (mod_id, r, a) := module_registry_reserve desc (k_reg k) (heap (k_sys k)) in
    let k := mk_kernel (with_heap a (k_sys k)) (k_area k) r in
    if mod_id <? 0 then load_fail c k
    else
      let! (t, st) := thread_create_common ret_from_fork entry data (k_sys k) in
      match t with
      | Some t =>
          let (i, st) := kernel_pid st in
          Ok (Some (with_module i entry (i_mem im) (zlen raw) t, im), mk_kernel st (k_area k) (module_registry_commit mod_id (k_reg k)))
      | None =>
          let! (r, a) := module_registry_cancel mod_id (k_reg k) (heap st) in
          load_fail c (mk_kernel (with_heap a st) (k_area k) r)
      end.

Definition kthread_load_elf_rel (raw : list Z) (name : option cstring) (data : Z) (k : kernel) : res (option (thread * image) * kernel) :=
  let! h := read_ehdr raw 0 in
  if elf_check (Some h) =? -1 then Ok (None, k)
  else
    let! pre := module_preflight_relocations raw h in
    if negb pre then Ok (None, k)
    else
      let c := module_alloc_checkpoint (k_area k) in
      let! (im, k) := load_image raw c k in
      match im with
      | None => Ok (None, k)
      | Some im => start_module raw name data c im k
      end.

(** [selftest_init] is code of the module: [init] is what calling it at an address
    does to the kernel and what it returns *)
Definition selftest_load_payload (init : Z -> image -> kernel -> res (Z * kernel)) (raw : list Z) (module_name : option cstring) (k : kernel) :
  res (Z * kernel) :=
  let failed (x : res (option unit * kernel)) := let! (_, k) := x in Ok (-1, k) in
  let! h := read_ehdr raw 0 in
  if elf_check (Some h) =? -1 then Ok (-1, k)
  else
    let! pre := module_preflight_relocations raw h in
    if negb pre then Ok (-1, k)
    else
      let c := module_alloc_checkpoint (k_area k) in
      let! (im, k) := load_image raw c k in
      match im with
      | None => Ok (-1, k)
      | Some im =>
          let f := i_bytes im in
          let! h := read_ehdr f 0 in
          let! init_fn := ksym_in_module f h (i_mem im) SELFTEST_INIT in
          if init_fn =? 0 then failed (load_fail c k)
          else
            let! segs := bss_segments f h (i_bss im) in
            let desc := mk_desc module_name MODULE_KIND_SELFTEST (i_mem im) (zlen raw) (pad_segments segs) (Z.of_nat (length (i_bss im))) 0 init_fn 0 0 in
            let! (mod_id, r, a) := module_registry_reserve desc (k_reg k) (heap (k_sys k)) in
            let k := mk_kernel (with_heap a (k_sys k)) (k_area k) r in
            if mod_id <? 0 then failed (load_fail c k)
            else
              let! (ret, k) := init init_fn im k in
              if ret <? 0 then
                let! (r, a) := module_registry_cancel mod_id (k_reg k) (heap (k_sys k)) in
                failed (load_fail c (mk_kernel (with_heap a (k_sys k)) (k_area k) r))
              else Ok (mod_id, mk_kernel (k_sys k) (k_area k) (module_registry_commit mod_id (k_reg k)))
      end.

(** ** Kernel programs linked at their addresses *)

(** the segments of a program in the current page table *)
Fixpoint load_exec_segments (n : nat) (i : Z) (phoff : Z) (mem : list Z) (m : machine P) : res (bool * machine P) :=
  match n with
  | O => Ok (true, m)
  | S n =>
      let! ph := read_phdr mem (phoff + i * PHDR_SIZE) in
      if negb (p_type ph =? PT_LOAD) then load_exec_segments n (i + 1) phoff mem m
      else
        let! (b, m) := elf_load_segment root ph mem false m in
        if b then load_exec_segments n (i + 1) phoff mem m else Ok (false, m)
  end.

Definition kthread_load_elf_exec (raw : list Z) (data : Z) (st : sys A P) : res (option thread * sys A P) :=
  let! h := read_ehdr raw 0 in
  if elf_check (Some h) =? -1 then Ok (None, st)
  else
    let! (mem, a) := kmalloc (zlen raw) (heap st) in
    let st := with_heap a st in
    if mem =? 0 then Ok (None, st)
    else
      let! (b, m) := load_exec_segments (Z.to_nat (e_phnum h)) 0 (e_phoff h) raw (mach st) in
      let st := with_mach m st in
      if negb b then let! a := kfree mem (heap st) in Ok (None, with_heap a st)
      else
        let! (t, st) := thread_create ret_from_fork (e_entry h) data st in
        match t with
        | None => Ok (None, st)
        | Some t => let (i, st) := kernel_pid st in Ok (Some (with_module i (entry_point t) mem (zlen raw) t), st)
        end.

Definition KTHREAD_ELF_EXEC : Z := 0.
Definition KTHREAD_ELF_REL : Z := 1.

Definition kthread_load_elf (raw : list Z) (flags : Z) (name : option cstring) (data : Z) (k : kernel) : res (option thread * kernel) :=
  if flags =? KTHREAD_ELF_EXEC then
    let! (t, st) := kthread_load_elf_exec raw data (k_sys k) in Ok (t, mk_kernel st (k_area k) (k_reg k))
  else if flags =? KTHREAD_ELF_REL then
    let! (r, k) := kthread_load_elf_rel raw name data k in Ok (fst <$> r, k)
  else Ok (None, k).
End Load.
