(* ===== verification/ModuleLink.v ===== *)
(** * Linking a module

    What a well-formed module file is, and what [module_preflight_relocations] and
    [module_apply_rela] make of one: the copy being patched still has the headers,
    symbols and names of the file, so every entry is resolved as in the file, and
    the patches do not disturb each other. *)

From stdpp Require Import base list.
From S2P Require Import Prelude Bytes Heap Alloc Vma Pmm PageAlloc Vmm VmmWalk VmmOwned VmmSpec VmmSpace PageOwner ModuleAlloc.
From S2P Require Import Elf ElfLoad Process Ksym ModuleRegistry ModuleLoad.

(** ** Reading a copy *)

(** [f'] has the [n] bytes at [a] of [f] *)
Definition same (f f' : list Z) (a n : Z) : Prop := forall k, a <= k < a + n -> byte_at f' k = byte_at f k.

Lemma same_sub f f' a n b m : same f f' a n -> a <= b -> b + m <= a + n -> same f f' b m.
Proof. intros H H1 H2 k Hk. apply H. lia. Qed.

Lemma le_same f f' n i : same f f' i (Z.of_nat n) -> le n f' i = le n f i.
Proof. intros H. apply le_ext. intros k Hk. apply H. lia. Qed.

Ltac same_fields H :=
  repeat match goal with
  | |- context [le ?n ?g ?i] =>
      match g with
      | ?f' => match type of H with same ?f f' _ _ => rewrite (le_same f f' n i) by (eapply same_sub; [exact H | lia | lia]) end
      end
  end.

Lemma read_shdr_same f f' i : same f f' i 64 -> read_shdr f' i = read_shdr f i.
Proof. intros H. unfold read_shdr. same_fields H. done. Qed.

Lemma read_sym_same f f' i : same f f' i 24 -> read_sym f' i = read_sym f i.
Proof. intros H. unfold read_sym. same_fields H. done. Qed.

Lemma bytes_same f f' i n : zlen f' = zlen f -> same f f' i n -> bytes_at f' i n = bytes_at f i n.
Proof.
  intros HL H. unfold bytes_at. rewrite HL. destruct (_ && _) eqn:E; [| done]. f_equal. apply andb_prop in E as [E E3].
  apply andb_prop in E as [E1 E2]. unfold slice. apply list_eq. intros k. rewrite !lookup_take, !lookup_drop.
  destruct (decide (k < Z.to_nat n)%nat) as [Hk |]; [| done]. specialize (H (i + Z.of_nat k) ltac:(lia)). unfold byte_at in H.
  rewrite (proj2 (Z.ltb_ge _ 0)) in H by lia. replace (Z.to_nat (i + Z.of_nat k)) with (Z.to_nat i + k)%nat in H by lia.
  destruct (f' !! _), (f !! _); congruence.
Qed.

Lemma read_ehdr_same f f' i : zlen f' = zlen f -> same f f' i 64 -> read_ehdr f' i = read_ehdr f i.
Proof.
  intros HL H. unfold read_ehdr. rewrite (bytes_same f f') by (done || (eapply same_sub; [exact H | lia | lia])).
  destruct (bytes_at f i 16); cbn [res_bind]; [| done | done]. same_fields H. done.
Qed.

(** a string of [k] characters ends before the [n]-th byte from [i] *)
Definition terminated (f : list Z) (i n : Z) : Prop := exists k, str_len (S (length f)) f i = Ok k /\ k < n.

Lemma str_len_range m f i k : str_len m f i = Ok k -> 0 <= k /\ (forall j, 0 <= j <= k -> exists b, byte_at f (i + j) = Ok b /\ (b = 0 <-> j = k)).
Proof.
  revert i k. induction m as [| m IH]; intros i k; cbn [str_len]; [done |].
  destruct (byte_at f i) as [b | |] eqn:E; cbn [res_bind]; [| done | done]. destruct (Z.eqb_spec b 0) as [-> | Hb].
  - intros [= <-]. split; [done |]. intros j Hj. assert (j = 0) as -> by lia. rewrite Z.add_0_r. by exists 0.
  - destruct (str_len m f (i + 1)) as [k' | |] eqn:E'; cbn [res_bind]; [| done | done]. intros [= <-].
    destruct (IH _ _ E') as [H0 H]. split; [lia |]. intros j Hj. destruct (decide (j = 0)) as [-> | Hj0].
    + rewrite Z.add_0_r. exists b. split; [done |]. split; [done | lia].
    + destruct (H (j - 1) ltac:(lia)) as (b' & Eb & Hb'). replace (i + 1 + (j - 1)) with (i + j) in Eb by lia.
      exists b'. split; [done |]. rewrite Hb'. lia.
Qed.

Lemma str_len_same m f f' i k : str_len m f i = Ok k -> same f f' i (k + 1) -> str_len m f' i = Ok k.
Proof.
  revert i k. induction m as [| m IH]; intros i k; [done |]. intros E H. pose proof (str_len_range _ _ _ _ E) as [H0 _].
  cbn [str_len] in *. rewrite (H i) by lia. destruct (byte_at f i) as [b | |]; cbn [res_bind] in *; [| done | done].
  destruct (b =? 0); [done |]. destruct (str_len m f (i + 1)) as [k' | |] eqn:E'; cbn [res_bind] in *; [| done | done].
  injection E as <-. rewrite (IH (i + 1) k' E'); [done |]. eapply same_sub; [exact H | lia | lia].
Qed.

Lemma str_eq_terminated m f i k s : str_len m f i = Ok k -> exists b, str_eq f i s = Ok b.
Proof.
  revert i k s. induction m as [| m IH]; intros i k s; [done |]. cbn [str_len].
  destruct (byte_at f i) as [b | |] eqn:E; cbn [res_bind]; [| done | done].
  destruct s as [| c s]; cbn [str_eq]; rewrite E; cbn [res_bind]; [by eexists |].
  destruct (negb (b =? c)); [by eexists |]. destruct (b =? 0); [by eexists |].
  destruct (str_len m f (i + 1)) as [k' | |] eqn:E'; cbn [res_bind]; [| done | done]. intros _. by eapply IH.
Qed.

Lemma str_eq_same m f f' i k s : str_len m f i = Ok k -> same f f' i (k + 1) -> str_eq f' i s = str_eq f i s.
Proof.
  revert i k s. induction m as [| m IH]; intros i k s; [done |]. intros E H. pose proof (str_len_range _ _ _ _ E) as [H0 _].
  cbn [str_len] in E. destruct s as [| c s]; cbn [str_eq]; rewrite (H i) by lia; [done |].
  destruct (byte_at f i) as [b | |]; cbn [res_bind] in *; [| done | done].
  destruct (negb (b =? c)); [done |]. destruct (b =? 0); [done |].
  destruct (str_len m f (i + 1)) as [k' | |] eqn:E'; cbn [res_bind] in *; [| done | done]. injection E as <-.
  apply (IH (i + 1) k' s E'). eapply same_sub; [exact H | lia | lia].
Qed.

Lemma ksym_lookup_terminated table f i n : terminated f i n -> exists a, ksym_lookup table f i = Ok a.
Proof.
  intros (k & E & _). induction table as [| s table IH]; cbn [ksym_lookup]; [by eexists |].
  destruct (str_eq_terminated _ _ _ _ (k_name s) E) as [b ->]. cbn [res_bind]. destruct b; [by eexists | done].
Qed.

Lemma ksym_lookup_same table f f' i n : terminated f i n -> same f f' i n -> ksym_lookup table f' i = ksym_lookup table f i.
Proof.
  intros (k & E & Hk) H. induction table as [| s table IH]; cbn [ksym_lookup]; [done |].
  rewrite (str_eq_same _ f f' i k (k_name s) E) by (eapply same_sub; [exact H | lia | lia]). by rewrite IH.
Qed.

(** ** The relocations of a file

    The entries that the loader looks at, in its order, with what they refer to. *)

Record reloc := mk_reloc {
  rl_entry : Elf64_Rela; rl_sym : Elf64_Sym; rl_symtab : Elf64_Shdr; rl_strtab : Elf64_Shdr; rl_target : Elf64_Shdr }.

(** the type, the place in the image and its width *)
Definition rl_type (x : reloc) : Z := ELF64_R_TYPE (r_info (rl_entry x)).
Definition rl_place (x : reloc) : Z := u64 (sh_offset (rl_target x) + r_offset (rl_entry x)).
Definition rl_width (x : reloc) : Z := width (rl_type x).

Fixpoint section_relocs (n : nat) (i : Z) (f : list Z) (rela symtab strtab target : Elf64_Shdr) : res (list reloc) :=
  match n with
  | O => Ok []
  | S n =>
      let! e := read_rela f (sh_offset rela + i * RELA_SIZE) in
      let! sym := read_sym f (sh_offset symtab + ELF64_R_SYM (r_info e) * SYM_SIZE) in
      let! l := section_relocs n (i + 1) f rela symtab strtab target in
      Ok (mk_reloc e sym symtab strtab target :: l)
  end.

Fixpoint file_relocs (n : nat) (si : Z) (f : list Z) (h : Elf64_Ehdr) : res (list reloc) :=
  match n with
  | O => Ok []
  | S n =>
      let! rela := shdr f h si in
      let! l :=
        if negb (sh_type rela =? SHT_RELA) then Ok []
        else
          let! target := shdr f h (sh_info rela) in
          if Z.land (sh_flags target) SHF_ALLOC =? 0 then Ok []
          else
            let! symtab := shdr f h (sh_link rela) in
            let! strtab := shdr f h (sh_link symtab) in
            section_relocs (Z.to_nat (sh_size rela / RELA_SIZE)) 0 f rela symtab strtab target in
      let! l' := file_relocs n (si + 1) f h in Ok (l ++ l')
  end.

Definition relocs (f : list Z) (h : Elf64_Ehdr) : res (list reloc) := file_relocs (Z.to_nat (e_shnum h)) 0 f h.

(** ** Well-formed modules *)

Definition SHT_SYMTAB : Z := 2.
Definition SHT_STRTAB : Z := 3.

Section Layout.
Context (f : list Z) (h : Elf64_Ehdr).

Definition section (i : Z) (s : Elf64_Shdr) : Prop := 0 <= i < e_shnum h /\ shdr f h i = Ok s.

(** the header, the section headers, the symbols and the names *)
Definition meta (a n : Z) : Prop :=
  a = 0 /\ n = 64 \/ a = e_shoff h /\ n = e_shnum h * SHDR_SIZE \/
  exists i s, section i s /\ (sh_type s = SHT_SYMTAB \/ sh_type s = SHT_STRTAB) /\ a = sh_offset s /\ n = sh_size s.

(** a symbol table with its table of names *)
Definition symbols (i : Z) (symtab strtab : Elf64_Shdr) : Prop :=
  section i symtab /\ sh_type symtab = SHT_SYMTAB /\ section (sh_link symtab) strtab /\ sh_type strtab = SHT_STRTAB.

(** the links of a relocation section that is applied *)
Definition links_ok (s : Elf64_Shdr) : Prop :=
  sh_type s = SHT_RELA -> exists target, section (sh_info s) target /\
    (Z.land (sh_flags target) SHF_ALLOC <> 0 -> exists symtab strtab, symbols (sh_link s) symtab strtab).

(** a name ends in the table of names *)
Definition named (strtab : Elf64_Shdr) (name : Z) : Prop :=
  0 <= name /\ terminated f (sh_offset strtab + name) (sh_size strtab - name).

(** a symbol is external, absolute or in a section that is in memory *)
Definition placed (sym : Elf64_Sym) : Prop :=
  st_shndx sym = SHN_UNDEF \/ st_shndx sym = SHN_ABS \/
  exists s, section (st_shndx sym) s /\ (sh_type s = SHT_NOBITS -> is_bss s = true).

(** the symbol exists, and the place is in the image but in none of its tables *)
Definition reloc_wf (x : reloc) : Prop :=
  0 <= ELF64_R_SYM (r_info (rl_entry x)) /\ (ELF64_R_SYM (r_info (rl_entry x)) + 1) * SYM_SIZE <= sh_size (rl_symtab x) /\
  named (rl_strtab x) (st_name (rl_sym x)) /\ placed (rl_sym x) /\
  inside f (rl_place x) (rl_width x) /\ (forall a n, meta a n -> rl_place x + rl_width x <= a \/ a + n <= rl_place x).

(** no place overlaps an earlier one *)
Fixpoint separate (l : list reloc) : Prop :=
  match l with
  | [] => True
  | x :: l => (forall y, y ∈ l -> rl_place x + rl_width x <= rl_place y \/ rl_place y + rl_width y <= rl_place x) /\ separate l
  end.

Record module_wf (l : list reloc) : Prop := {
  mw_header : read_ehdr f 0 = Ok h;
  mw_size : 64 <= zlen f;
  mw_shstr : 0 <= e_shstrndx h < e_shnum h;
  mw_shnum : 0 <= e_shnum h < 65536;
  mw_sections i : 0 <= i < e_shnum h -> exists s, section i s;
  mw_linked i s : section i s -> links_ok s;
  mw_relocs : relocs f h = Ok l;
  mw_wf : Forall reloc_wf l;
  mw_separate : separate l }.
End Layout.

(** ** Reading the copy while it is being patched *)

Section Link.
Context (table : list kernel_symbol) (f : list Z) (h : Elf64_Ehdr) (L : list reloc) (W : module_wf f h L).
Context (mem : Z) (bss : list module_bss_map).

(** the tables are those of the file *)
Definition intact (f' : list Z) : Prop := zlen f' = zlen f /\ forall a n, meta f h a n -> same f f' a n.

Lemma intact_refl : intact f.
Proof. split; [done |]. by intros a n _ k _. Qed.

Lemma intact_header f' : intact f' -> read_ehdr f' 0 = Ok h.
Proof. intros [HL H]. rewrite (read_ehdr_same f f') by (done || (apply H; by left)). apply W. Qed.

Lemma intact_shdr f' i s : intact f' -> section f h i s -> shdr f' h i = Ok s.
Proof.
  intros [HL H] [Hi E]. unfold shdr. rewrite (read_shdr_same f f'); [exact E |].
  eapply same_sub; [apply H; right; left; split; reflexivity | unfold SHDR_SIZE in *; nia..].
Qed.

Lemma intact_section f' i s : intact f' -> section f h i s -> elf_section f' h i = Ok s.
Proof.
  intros HI HS. unfold elf_section. pose proof (mw_shnum _ _ _ W). unfold u16. rewrite Z.mod_small by (destruct HS; lia). by apply intact_shdr.
Qed.

Lemma intact_names f' i symtab strtab name : intact f' -> symbols f h i symtab strtab -> named f strtab name ->
  same f f' (sh_offset strtab + name) (sh_size strtab - name).
Proof.
  intros [HL H] (_ & _ & HS & HT) [H0 _]. eapply same_sub; [apply H; right; right; exists (sh_link symtab), strtab; auto | lia | lia].
Qed.

Lemma intact_sym f' i symtab strtab k : intact f' -> symbols f h i symtab strtab -> 0 <= k -> (k + 1) * SYM_SIZE <= sh_size symtab ->
  read_sym f' (sh_offset symtab + k * SYM_SIZE) = read_sym f (sh_offset symtab + k * SYM_SIZE).
Proof.
  intros [HL H] (HS & HT & _) Hk Hs. apply read_sym_same. unfold SYM_SIZE in *.
  eapply same_sub; [apply H; right; right; exists i, symtab; auto | lia | lia].
Qed.

Lemma intact_strlen f' i symtab strtab name : intact f' -> symbols f h i symtab strtab -> named f strtab name ->
  exists k, str_len (S (length f')) f' (sh_offset strtab + name) = Ok k.
Proof.
  intros HI HS HN. pose proof (intact_names f' i symtab strtab name HI HS HN) as Hsame. destruct HN as (H0 & k & E & Hk). exists k.
  destruct HI as [HL _]. unfold zlen in HL. replace (length f') with (length f) by lia.
  apply (str_len_same _ f f' _ k E). eapply same_sub; [exact Hsame | lia | lia].
Qed.

Lemma intact_patched f' f'' x : intact f' -> reloc_wf f h x -> patched f' f'' (rl_place x) (rl_width x) -> intact f''.
Proof.
  intros [HL H] (_ & _ & _ & _ & _ & Hm) [HL' Hp]. split; [by rewrite HL' |]. intros a n Han k Hk. rewrite Hp; [by apply (H a n) |].
  destruct (Hm a n Han); lia.
Qed.

(** the address of a relocation's symbol, in the file *)
Definition target_address (x : reloc) : res (option Z) := symbol_address table f h mem bss (sh_offset (rl_strtab x)) (rl_sym x).

Lemma address_intact f' i x : intact f' -> symbols f h i (rl_symtab x) (rl_strtab x) -> reloc_wf f h x ->
  symbol_address table f' h mem bss (sh_offset (rl_strtab x)) (rl_sym x) = target_address x.
Proof.
  intros HI HS (_ & _ & HN & HP & _). unfold target_address, symbol_address. destruct (Z.eqb_spec (st_shndx (rl_sym x)) SHN_UNDEF) as [E | E].
  { pose proof (intact_names f' _ _ _ _ HI HS HN) as Hs. destruct HN as [_ HN].
    by rewrite (ksym_lookup_same table f f' _ _ HN Hs). }
  destruct (Z.eqb_spec (st_shndx (rl_sym x)) SHN_ABS) as [E2 | E2]; [done |].
  destruct HP as [HP | [HP | (s & Hs & _)]]; [by destruct (E HP) | by destruct (E2 HP) |].
  rewrite (intact_section f' _ s HI Hs), (intact_section f _ s intact_refl Hs). reflexivity.
Qed.

(** ** The loops as one loop over the relocations of the file *)

Fixpoint apply_relocs (l : list reloc) (f' : list Z) : res (option (list Z)) :=
  match l with
  | [] => Ok (Some f')
  | x :: l =>
      let! a := target_address x in
      match a with
      | None => Ok None
      | Some a =>
          let! r := apply_relocation_to f' mem (sh_offset (rl_target x)) (rl_entry x) a in
          match r with
          | None => Ok None
          | Some f' => apply_relocs l f'
          end
      end
  end.

Lemma apply_relocs_app l l' f' : apply_relocs (l ++ l') f' =
  let! r := apply_relocs l f' in match r with None => Ok None | Some f' => apply_relocs l' f' end.
Proof.
  revert f'. induction l as [| x l IH]; intros f'; cbn [apply_relocs app]; [done |].
  destruct (target_address x) as [[a |] | |]; cbn [res_bind]; try done.
  destruct (apply_relocation_to _ _ _ _ _) as [[f'' |] | |]; cbn [res_bind]; done.
Qed.

(** the value a relocation stores, and whether its place can hold it *)
Definition rl_value (x : reloc) (a : Z) : Z := u64 (a + r_addend (rl_entry x)).
Definition rl_fits (x : reloc) (a : Z) : Prop := representable (rl_type x) (u64 (mem + rl_place x)) (rl_value x a).
Definition rl_done (f' : list Z) (x : reloc) (a : Z) : Prop :=
  designates (rl_type x) f' (rl_place x) (u64 (mem + rl_place x)) (rl_value x a).

(** one relocation *)
Lemma apply_one f' x a : zlen f' = zlen f -> reloc_wf f h x -> x86_type (rl_type x) ->
  let r := apply_relocation_to f' mem (sh_offset (rl_target x)) (rl_entry x) a in
  (exists f'', r = Ok (Some f'') /\ patched f' f'' (rl_place x) (rl_width x) /\ rl_done f'' x a) \/ (r = Ok None /\ ~ rl_fits x a).
Proof.
  intros HL (_ & _ & _ & _ & HI & _) Ht. cbv zeta.
  assert (HI' : inside f' (rl_place x) (rl_width x)) by (unfold inside, zlen in *; lia).
  destruct (relocation_ok f' mem (sh_offset (rl_target x)) (rl_entry x) a _ _ _ eq_refl eq_refl eq_refl Ht HI') as [H1 H2].
  destruct (representable_dec (rl_type x) (u64 (mem + rl_place x)) (rl_value x a)) as [Hr | Hr]; [apply u64_range | left | right].
  - destruct (H1 Hr) as (f'' & E & Hp & Hd). by exists f''.
  - split; [by apply H2 | done].
Qed.

Lemma apply_entries_relocs n : forall i f' rela symtab strtab tidx target j l,
  intact f' -> symbols f h j symtab strtab -> section f h tidx target ->
  section_relocs n i f rela symtab strtab target = Ok l -> Forall (reloc_wf f h) l -> Forall (fun x => x86_type (rl_type x)) l ->
  apply_entries table n i f f' h mem bss (sh_offset rela) (sh_offset symtab) (sh_offset strtab) tidx = apply_relocs l f' /\
  (forall f'', apply_relocs l f' = Ok (Some f'') -> intact f'').
Proof.
  induction n as [| n IH]; intros i f' rela symtab strtab tidx target j l HI HS HT; cbn [section_relocs apply_entries].
  { intros [= <-] _ _. split; [done |]. by intros f'' [= <-]. }
  destruct (read_rela f _) as [e | |]; cbn [res_bind]; [| done | done].
  destruct (read_sym f _) as [sym | |] eqn:Es; cbn [res_bind]; [| done | done].
  destruct (section_relocs n _ f _ _ _ _) as [l' | |] eqn:El; cbn [res_bind]; [| done | done]. intros [= <-].
  intros [Hx Hl]%Forall_cons [Ht Hl2]%Forall_cons. set (x := mk_reloc e sym symtab strtab target) in *.
  pose proof Hx as (H0 & H1 & HN & _). cbn [x rl_entry rl_symtab rl_strtab rl_sym] in H0, H1, HN.
  rewrite (intact_sym f' j symtab strtab _ HI HS H0 H1), Es. cbn [res_bind].
  destruct (intact_strlen f' j symtab strtab (st_name sym) HI HS HN) as [k ->]. cbn [res_bind].
  rewrite (intact_header f' HI). cbn [res_bind].
  pose proof (address_intact f' j x HI HS Hx) as EA. cbn [x rl_strtab rl_sym] in EA. rewrite EA. fold x. cbn [apply_relocs].
  destruct (target_address x) as [[a |] | |]; cbn [res_bind]; try (split; [reflexivity | by intros f'']).
  rewrite (intact_shdr f' tidx target HI HT). cbn [res_bind].
  pose proof (apply_one f' x a (proj1 HI) Hx Ht) as HO. cbv zeta in HO. change (rl_target x) with target in *. change (rl_entry x) with e in *.
  destruct HO as [(f'' & -> & Hp & _) | [-> _]]; cbn [res_bind]; [| split; [reflexivity | by intros f'']].
  eapply IH; [| done | done | exact El | done | done]. by eapply intact_patched.
Qed.

Lemma apply_sections_relocs k : forall n si f' l, intact f' -> 0 <= si -> si + Z.of_nat k = e_shnum h -> (k <= n)%nat ->
  file_relocs k si f h = Ok l -> Forall (reloc_wf f h) l -> Forall (fun x => x86_type (rl_type x)) l ->
  apply_sections table n si f f' h mem bss = apply_relocs l f'.
Proof.
  induction k as [| k IH]; intros n si f' l HI Hsi Hk Hn; cbn [file_relocs].
  { intros [= <-] _ _. destruct n; cbn [apply_sections]; rewrite (intact_header f' HI); cbn [res_bind];
      rewrite (proj2 (Z.ltb_ge _ _)) by lia; reflexivity. }
  destruct n as [| n]; [lia |]. destruct (mw_sections _ _ _ W si ltac:(lia)) as (rela & Hrela). pose proof Hrela as [_ ->].
  cbn [res_bind apply_sections]. rewrite (intact_header f' HI). cbn [res_bind]. rewrite (proj2 (Z.ltb_lt si _)) by lia. cbn [negb].
  rewrite (intact_shdr f' si rela HI Hrela). cbn [res_bind].
  assert (Next : forall l0, file_relocs k (si + 1) f h = Ok l0 -> Forall (reloc_wf f h) l0 -> Forall (fun x => x86_type (rl_type x)) l0 ->
    forall f'', intact f'' -> apply_sections table n (si + 1) f f'' h mem bss = apply_relocs l0 f'').
  { intros l0 E H1 H2 f'' HI'. apply IH; done || lia. }
  destruct (Z.eqb_spec (sh_type rela) SHT_RELA) as [ET | ET]; cbn [negb res_bind].
  2:{ destruct (file_relocs k (si + 1) f h) as [l0 | |]; cbn [res_bind]; [| done | done]. intros [= <-]. intros. by apply Next. }
  destruct (mw_linked _ _ _ W si rela Hrela ET) as (target & Htg & Hlk). pose proof Htg as [_ ->]. cbn [res_bind].
  rewrite (intact_shdr f' _ target HI Htg). cbn [res_bind].
  destruct (Z.eqb_spec (Z.land (sh_flags target) SHF_ALLOC) 0) as [EA | EA]; cbn [res_bind].
  { destruct (file_relocs k (si + 1) f h) as [l0 | |]; cbn [res_bind]; [| done | done]. intros [= <-]. intros. by apply Next. }
  destruct (Hlk EA) as (symtab & strtab & HS). pose proof HS as ([_ E1] & _ & [_ E2] & _). rewrite E1. cbn [res_bind]. rewrite E2. cbn [res_bind].
  destruct (mw_sections _ _ _ W _ (mw_shstr _ _ _ W)) as (ss & Hss). rewrite (intact_section f' _ ss HI Hss). cbn [res_bind].
  rewrite (intact_shdr f' _ symtab HI (proj1 HS)). cbn [res_bind].
  rewrite (intact_shdr f' _ strtab HI (proj1 (proj2 (proj2 HS)))). cbn [res_bind].
  destruct (section_relocs _ 0 f rela symtab strtab target) as [l1 | |] eqn:El; cbn [res_bind]; [| done | done].
  destruct (file_relocs k (si + 1) f h) as [l2 | |]; cbn [res_bind]; [| done | done]. intros [= <-] [H1 H2]%Forall_app [H3 H4]%Forall_app.
  destruct (apply_entries_relocs _ 0 f' rela symtab strtab (sh_info rela) target _ l1 HI HS Htg El H1 H3) as [-> HI'].
  rewrite apply_relocs_app. destruct (apply_relocs l1 f') as [[f'' |] | |]; cbn [res_bind]; try reflexivity.
  apply (Next l2 eq_refl H2 H4). by apply HI'.
Qed.
(** ** What the loop achieves *)

(** every symbol has an address *)
Definition resolved (l : list reloc) : Prop := Forall (fun x => exists a, target_address x = Ok (Some a)) l.

(** the bytes of [f'] outside the places of [l] are those of [f0] *)
Definition only_places (l : list reloc) (f0 f' : list Z) : Prop :=
  zlen f' = zlen f0 /\ forall k, (forall x, x ∈ l -> k < rl_place x \/ rl_place x + rl_width x <= k) -> byte_at f' k = byte_at f0 k.

Lemma done_same f0 f' x a : x86_type (rl_type x) -> same f0 f' (rl_place x) (rl_width x) -> rl_done f0 x a -> rl_done f' x a.
Proof.
  unfold rl_done, rl_width. generalize (rl_type x). intros t Ht HS. unfold x86_type in Ht.
  assert (E8 : width t = 8 -> le 8 f' (rl_place x) = le 8 f0 (rl_place x)) by (intros E; rewrite E in HS; by apply (le_same _ _ 8)).
  assert (E4 : width t = 4 -> le 4 f' (rl_place x) = le 4 f0 (rl_place x)) by (intros E; rewrite E in HS; by apply (le_same _ _ 4)).
  clear HS. unfold designates. repeat (apply elem_of_cons in Ht as [-> | Ht]); [.. | by apply elem_of_nil in Ht];
    revert E8 E4; reloc_tests; intros E8 E4; try done; rewrite ?E8, ?E4 by done; done.
Qed.

Lemma apply_relocs_ok l f' : zlen f' = zlen f -> Forall (reloc_wf f h) l -> Forall (fun x => x86_type (rl_type x)) l -> separate l -> resolved l ->
  exists r, apply_relocs l f' = Ok r /\
    match r with
    | Some f'' => only_places l f' f'' /\ Forall (fun x => exists a, target_address x = Ok (Some a) /\ rl_done f'' x a) l
    | None => exists x a, x ∈ l /\ target_address x = Ok (Some a) /\ ~ rl_fits x a
    end.
Proof.
  revert f'. induction l as [| x l IH]; intros f' HL Hw Ht Hs Hr; cbn [apply_relocs].
  { exists (Some f'). split; [done |]. split; [by split | constructor]. }
  apply Forall_cons in Hw as [Hx Hw], Ht as [Htx Ht], Hr as [(a & Ea) Hr]. destruct Hs as [Hsx Hs]. rewrite Ea. cbn [res_bind].
  destruct (apply_one f' x a HL Hx Htx) as [(f1 & -> & [HL1 Hp] & Hd) | [-> Hn]]; cbn [res_bind].
  2:{ exists None. split; [done |]. exists x, a. split; [by left | done]. }
  destruct (IH f1 ltac:(by rewrite HL1) Hw Ht Hs Hr) as (r & E & R). exists r. split; [done |]. destruct r as [f2 |].
  - destruct R as [[HL2 Ho] HF]. split.
    + split; [by rewrite HL2 |]. intros k Hk. rewrite Ho by (intros y Hy; apply Hk; by right). apply Hp. apply Hk. by left.
    + constructor; [| done]. exists a. split; [done |]. eapply done_same; [done | | exact Hd].
      intros k Hk. apply Ho. intros y Hy. destruct (Hsx y Hy); lia.
  - destruct R as (y & b & Hy & HR). exists y, b. split; [by right | done].
Qed.

(** ** The check before allocating *)

Definition resolvable (x : reloc) : res bool :=
  if negb (module_relocation_type_supported (rl_type x)) then Ok false
  else if st_shndx (rl_sym x) =? SHN_UNDEF then let! a := ksym_lookup table f (sh_offset (rl_strtab x) + st_name (rl_sym x)) in Ok (negb (a =? 0))
  else Ok true.

Lemma supported_x86 t : module_relocation_type_supported t = true <-> x86_type t.
Proof.
  unfold module_relocation_type_supported, x86_type. rewrite !orb_true_iff, !Z.eqb_eq, !elem_of_cons, elem_of_nil. tauto.
Qed.

Lemma resolvable_total x : reloc_wf f h x -> exists b, resolvable x = Ok b.
Proof.
  intros (_ & _ & [_ HN] & _). unfold resolvable. destruct (negb _); [by eexists |]. destruct (_ =? _); [| by eexists].
  destruct (ksym_lookup_terminated table _ _ _ HN) as [a ->]. by eexists.
Qed.

(** the check passes exactly when everything is resolvable *)
Definition all_resolvable (l : list reloc) : Prop := Forall (fun x => resolvable x = Ok true) l.

Lemma preflight_entries_spec n i rela symtab strtab target l : section_relocs n i f rela symtab strtab target = Ok l -> Forall (reloc_wf f h) l ->
  exists b, preflight_entries table n i f (sh_offset rela) (sh_offset symtab) (sh_offset strtab) = Ok b /\ (b = true <-> all_resolvable l).
Proof.
  revert i l. induction n as [| n IH]; intros i l; cbn [section_relocs preflight_entries].
  { intros [= <-] _. exists true. split; [done |]. split; [intros _; constructor | done]. }
  destruct (read_rela f _) as [e | |]; cbn [res_bind]; [| done | done].
  destruct (read_sym f _) as [sym | |]; cbn [res_bind]; [| done | done].
  destruct (section_relocs n _ f _ _ _ _) as [l' | |] eqn:El; cbn [res_bind]; [| done | done]. intros [= <-] [Hx Hl]%Forall_cons.
  destruct (resolvable_total _ Hx) as [b Eb]. unfold all_resolvable. setoid_rewrite Forall_cons. rewrite Eb. revert Eb.
  unfold resolvable, rl_type. cbn [rl_entry rl_sym rl_strtab]. destruct (negb _).
  { intros [= <-]. exists false. split; [done |]. split; [done | by intros [? _]]. }
  destruct (IH (i + 1) l' El Hl) as (b' & E' & Hb').
  destruct (_ =? SHN_UNDEF); [destruct (ksym_lookup _ _ _) as [a | |]; cbn [res_bind]; [| done | done] |].
  - intros [= <-]. destruct (a =? 0); cbn [negb].
    + exists false. split; [done |]. split; [done | by intros [? _]].
    + exists b'. split; [done |]. rewrite Hb'. split; [done | by intros [_ ?]].
  - intros [= <-]. exists b'. split; [done |]. rewrite Hb'. split; [done | by intros [_ ?]].
Qed.

Lemma preflight_sections_spec k : forall si l, 0 <= si -> si + Z.of_nat k = e_shnum h -> file_relocs k si f h = Ok l -> Forall (reloc_wf f h) l ->
  exists b, preflight_sections table k si f h = Ok b /\ (b = true <-> all_resolvable l).
Proof.
  induction k as [| k IH]; intros si l Hsi Hk; cbn [file_relocs preflight_sections].
  { intros [= <-] _. exists true. split; [done |]. split; [intros _; constructor | done]. }
  destruct (shdr f h si) as [rela | |]; cbn [res_bind]; [| done | done].
  assert (Next : forall l0, file_relocs k (si + 1) f h = Ok l0 -> Forall (reloc_wf f h) l0 ->
    exists b, preflight_sections table k (si + 1) f h = Ok b /\ (b = true <-> all_resolvable l0)) by (intros l0 E H; apply IH; done || lia).
  destruct (negb (sh_type rela =? SHT_RELA)); cbn [res_bind].
  { destruct (file_relocs k (si + 1) f h) as [l0 | |]; cbn [res_bind]; [| done | done]. intros [= <-] H. by apply Next. }
  destruct (shdr f h (sh_info rela)) as [target | |]; cbn [res_bind]; [| done | done].
  destruct (Z.land (sh_flags target) SHF_ALLOC =? 0); cbn [res_bind].
  { destruct (file_relocs k (si + 1) f h) as [l0 | |]; cbn [res_bind]; [| done | done]. intros [= <-] H. by apply Next. }
  destruct (shdr f h (sh_link rela)) as [symtab | |]; cbn [res_bind]; [| done | done].
  destruct (shdr f h (sh_link symtab)) as [strtab | |]; cbn [res_bind]; [| done | done].
  destruct (section_relocs _ 0 f rela symtab strtab target) as [l1 | |] eqn:El; cbn [res_bind]; [| done | done].
  destruct (file_relocs k (si + 1) f h) as [l2 | |]; cbn [res_bind]; [| done | done]. intros [= <-] [H1 H2]%Forall_app.
  destruct (preflight_entries_spec _ 0 rela symtab strtab target l1 El H1) as (b & -> & Hb). cbn [res_bind].
  destruct (Next l2 eq_refl H2) as (b' & E' & Hb'). unfold all_resolvable in *. setoid_rewrite Forall_app. destruct b.
  - exists b'. split; [done |]. rewrite Hb', <- Hb. split; [done | by intros [_ ?]].
  - exists false. split; [done |]. rewrite <- Hb. split; [done | by intros [? _]].
Qed.

Lemma preflight_ok : exists b, module_preflight_relocations table f h = Ok b /\ (b = true <-> all_resolvable L).
Proof.
  pose proof (mw_shnum _ _ _ W). apply preflight_sections_spec; [lia | lia | apply W | apply W].
Qed.
(** every section that needs memory has some *)
Definition bss_complete : Prop := forall i s, section f h i s -> is_bss s = true -> module_bss_lookup bss i <> 0.

Lemma resolvable_address x : reloc_wf f h x -> resolvable x = Ok true -> bss_complete ->
  x86_type (rl_type x) /\ exists a, target_address x = Ok (Some a).
Proof.
  intros Hw Hx HB. unfold resolvable in Hx. destruct (module_relocation_type_supported (rl_type x)) eqn:Et; [| done].
  apply supported_x86 in Et. cbn [negb] in Hx. split; [done |]. unfold target_address, symbol_address.
  destruct (Z.eqb_spec (st_shndx (rl_sym x)) SHN_UNDEF) as [E1 | E1].
  { destruct (ksym_lookup _ _ _) as [a | |]; cbn [res_bind] in *; [| done | done]. destruct (a =? 0); [done | by exists a]. }
  destruct (Z.eqb_spec (st_shndx (rl_sym x)) SHN_ABS) as [E2 | E2]; [by eexists |].
  destruct Hw as (_ & _ & _ & HP & _). destruct HP as [HP | [HP | (s & Hs & HN)]]; [by destruct (E1 HP) | by destruct (E2 HP) |].
  rewrite (intact_section f _ s intact_refl Hs). cbn [res_bind].
  destruct (Z.eqb_spec (sh_type s) SHT_NOBITS) as [E3 | E3]; [| by eexists].
  rewrite (proj2 (Z.eqb_neq _ 0)) by (apply (HB _ s); auto). by eexists.
Qed.

Lemma resolvable_resolved : all_resolvable L -> bss_complete -> Forall (fun x => x86_type (rl_type x)) L /\ resolved L.
Proof.
  pose proof (mw_wf _ _ _ W) as HW. unfold all_resolvable, resolved. rewrite !Forall_forall in *. intros HR HB.
  split; intros x Hx; apply (resolvable_address x); auto.
Qed.

(** the relocated image *)
Definition linked_image (f' : list Z) : Prop :=
  only_places L f f' /\ Forall (fun x => exists a, target_address x = Ok (Some a) /\ rl_done f' x a) L.

Lemma apply_rela_ok : all_resolvable L -> bss_complete ->
  exists r, module_apply_rela table f f mem bss = Ok r /\
    match r with
    | Some f' => linked_image f' /\ intact f'
    | None => exists x a, x ∈ L /\ target_address x = Ok (Some a) /\ ~ rl_fits x a
    end.
Proof.
  intros HR HB. destruct (resolvable_resolved HR HB) as [Ht Hr]. unfold module_apply_rela.
  rewrite (mw_header _ _ _ W). cbn [res_bind]. pose proof (mw_shnum _ _ _ W).
  rewrite (apply_sections_relocs (Z.to_nat (e_shnum h)) _ 0 f L intact_refl); try (done || lia); try apply W.
  destruct (apply_relocs_ok L f eq_refl (mw_wf _ _ _ W) Ht (mw_separate _ _ _ W) Hr) as (r & E & R). exists r. split; [done |].
  destruct r as [f' |]; [| done]. split; [done |]. destruct R as [[HL Ho] _]. split; [done |]. intros a n Han k Hk. apply Ho.
  intros x Hx. pose proof (mw_wf _ _ _ W) as HW. rewrite Forall_forall in HW. destruct (HW x Hx) as (_ & _ & _ & _ & _ & Hm).
  destruct (Hm a n Han); lia.
Qed.
End Link.
