(* ===== verification/ModuleSpec.v ===== *)
(** * Loading a module, from the file to the registered thread

    The composition of the module memory (ModuleAlloc.v), the link step
    (ModuleLink.v), the registry (ModuleRegistry.v) and the creation of a thread
    (Process.v): [kthread_load_elf_rel] either gives back everything it took, or
    leaves a thread whose image is linked and whose module is registered. *)

From stdpp Require Import base list.
From S2P Require Import Prelude Bytes Heap Alloc Vma Pmm PageAlloc Vmm VmmWalk VmmOwned VmmSpec VmmSpace PageOwner ModuleAlloc.
From S2P Require Import Elf ElfLoad Process Ksym ModuleRegistry ModuleLoad ModuleLink.

(** ** The symbols of a module by name *)

Definition ENTRY_NAMES : list (list Z) := [LAOS_MODULE_ENTRY; START; SELFTEST_INIT].

Section Names.
Context (f : list Z) (h : Elf64_Ehdr) (L : list reloc) (W : module_wf f h L).

(** a symbol whose name ends in its table, and which is in a section if it is an entry *)
Definition symbol_wf (strtab : Elf64_Shdr) (sym : Elf64_Sym) : Prop :=
  named f strtab (st_name sym) /\
  (forall name, name ∈ ENTRY_NAMES -> str_eq f (sh_offset strtab + st_name sym) name = Ok true -> 0 <= st_shndx sym < e_shnum h).

Record names_wf : Prop := {
  nw_entsize : e_shentsize h = SHDR_SIZE;
  nw_shstr : exists ss, section f h (e_shstrndx h) ss /\ sh_type ss = SHT_STRTAB /\
    forall i s, section f h i s -> named f ss (sh_name s) /\
      (str_eq f (sh_offset ss + sh_name s) SYMTAB = Ok true -> sh_type s = SHT_SYMTAB);
  nw_symbols i s : section f h i s -> sh_type s = SHT_SYMTAB -> 0 <= sh_size s /\
    exists strtab, symbols f h i s strtab /\
      forall k, 0 <= k < sh_size s / SYM_SIZE -> exists sym, read_sym f (sh_offset s + k * SYM_SIZE) = Ok sym /\ symbol_wf strtab sym }.

Context (HN : names_wf) (f' : list Z) (HI : intact f h f').

(** the section found in the copy is that of the file *)
Lemma find_section_same : exists r, find_section f h SYMTAB = Ok r /\ find_section f' h SYMTAB = Ok r /\
  forall s, r = Some s -> exists i, section f h i s /\ sh_type s = SHT_SYMTAB.
Proof.
  destruct (nw_shstr HN) as (ss & Hss & HT & Hall). unfold find_section. rewrite (nw_entsize HN).
  pose proof (proj2 Hss) as E. unfold shdr in E. rewrite E. pose proof (intact_shdr f h f' _ ss HI Hss) as E'. unfold shdr in E'. rewrite E'.
  cbn [res_bind].
  assert (H : forall n i, 0 <= i -> i + Z.of_nat n = e_shnum h -> exists r,
    find_section_from n i f h (sh_offset ss) SYMTAB = Ok r /\ find_section_from n i f' h (sh_offset ss) SYMTAB = Ok r /\
    forall s, r = Some s -> exists i, section f h i s /\ sh_type s = SHT_SYMTAB).
  { induction n as [| n IH]; intros i Hi Hn; cbn [find_section_from]; [by exists None |].
    destruct (mw_sections _ _ _ W i ltac:(lia)) as (s & Hs). pose proof (proj2 Hs) as Es. rewrite Es, (intact_shdr f h f' i s HI Hs). cbn [res_bind].
    destruct (Hall i s Hs) as [[H0 (k & Ek & Hk)] Hty]. destruct (str_eq_terminated _ _ _ _ SYMTAB Ek) as [b Eb].
    rewrite (str_eq_same _ f f' _ k SYMTAB Ek), Eb; cbn [res_bind].
    - destruct b; [exists (Some s) | by apply IH; lia]. split; [done |]. split; [done |]. intros s' [= <-]. exists i. auto.
    - eapply same_sub; [apply HI; right; right; exists (e_shstrndx h), ss; auto | lia | lia]. }
  apply H; pose proof (mw_shnum _ _ _ W); lia.
Qed.

Lemma module_symbol_same mem name : name ∈ ENTRY_NAMES ->
  exists a, ksym_in_module f h mem name = Ok a /\ ksym_in_module f' h mem name = Ok a.
Proof.
  intros Hname. unfold ksym_in_module. destruct find_section_same as (r & -> & -> & Hr). cbn [res_bind].
  destruct r as [symtab |]; [| by eexists]. destruct (Hr symtab eq_refl) as (i & Hsec & HT).
  destruct (nw_symbols HN i symtab Hsec HT) as (H0 & strtab & HS & Hall). pose proof HS as (_ & _ & Hst & HTs).
  rewrite (intact_section f h L W f _ strtab (intact_refl f h) Hst), (intact_section f h L W f' _ strtab HI Hst). cbn [res_bind].
  assert (H : forall n k, 0 <= k -> k + Z.of_nat n = sh_size symtab / SYM_SIZE -> exists a,
    symbol_from n k f h mem (sh_offset strtab) (sh_offset symtab) name = Ok a /\
    symbol_from n k f' h mem (sh_offset strtab) (sh_offset symtab) name = Ok a).
  { induction n as [| n IH]; intros k Hk Hn; cbn [symbol_from]; [by eexists |].
    destruct (Hall k ltac:(lia)) as (sym & Es & [Hm Hp]).
    rewrite (intact_sym f h f' i symtab strtab k HI HS Hk ltac:(unfold SYM_SIZE in *; zlia)), Es. cbn [res_bind].
    pose proof (intact_names f h f' i symtab strtab (st_name sym) HI HS Hm) as Hsame. destruct Hm as [Hm0 (j & Ej & Hj)].
    destruct (str_eq_terminated _ _ _ _ name Ej) as [b Eb].
    rewrite (str_eq_same _ f f' _ j name Ej) by (eapply same_sub; [exact Hsame | lia | lia]). rewrite Eb. cbn [res_bind].
    destruct b; [| by apply IH; lia]. destruct (mw_sections _ _ _ W (st_shndx sym) (Hp name Hname Eb)) as (sec & Hsc).
    rewrite (intact_section f h L W f _ sec (intact_refl f h) Hsc), (intact_section f h L W f' _ sec HI Hsc). by eexists. }
  apply H; [lia |]. unfold SYM_SIZE in *. zlia.
Qed.

Lemma find_entry_same mem : exists a, module_find_entry f h mem = Ok a /\ module_find_entry f' h mem = Ok a.
Proof.
  unfold module_find_entry. destruct (module_symbol_same mem LAOS_MODULE_ENTRY ltac:(by left)) as (a & -> & ->). cbn [res_bind].
  destruct (a =? 0); [| by exists a]. apply module_symbol_same. right. by left.
Qed.

Lemma bss_segments_same bss : Forall (fun b => exists s, section f h (bss_idx b) s) bss ->
  exists l, bss_segments f' h bss = Ok l /\ length l = length bss.
Proof.
  induction 1 as [| b bss (s & Hs) _ (l & IH & HL)]; cbn [bss_segments]; [by exists [] |].
  rewrite (intact_shdr f h f' _ s HI Hs). cbn [res_bind]. rewrite IH. cbn [res_bind]. eexists. split; [done |]. cbn [length]. lia.
Qed.
End Names.

(** ** Memory for the sections without contents *)

Section Bss.
Context {P : Type} {PA : PageAllocator P} (root : Z) (f : list Z) (h : Elf64_Ehdr) (L : list reloc) (W : module_wf f h L).
(** a bound of their sizes *)
Context (B : Z) (HB : 0 <= B <= 0x40000000) (Hsize : forall i s, section f h i s -> is_bss s = true -> 0 <= sh_size s <= B).

(** how the state of the memory moves *)
Definition moved (m m' : module_area) (s s' : vm P) (N : list Z) : Prop :=
  module_mapped m <= module_mapped m' /\ module_brk m <= module_brk m' /\ only_pages root (module_mapped m) (module_mapped m') s s' /\
  (N = [] -> ModuleAlloc.complete root m s -> ModuleAlloc.complete root m' s').

Lemma moved_refl m s : moved m m s s [].
Proof. split_and!; [lia | lia | by intros w _ | done]. Qed.

Lemma moved_trans m1 m2 m3 s1 s2 s3 N1 N2 : moved m1 m2 s1 s2 N1 -> moved m2 m3 s2 s3 N2 -> moved m1 m3 s1 s3 (N2 ++ N1).
Proof.
  intros (H1 & H2 & H3 & H4) (G1 & G2 & G3 & G4). split_and!; [lia | lia | |].
  - eapply only_pages_trans; [| exact H3 | exact G3]. lia.
  - intros [-> ->]%app_eq_nil Hc. auto.
Qed.

(** the segments of a map, one after the other from [b] to [e] *)
Definition segments (b e : Z) (bss : list module_bss_map) : Prop :=
  exists sizes, in_sequence b sizes (map bss_addr bss) e /\
    Forall2 (fun x size => bss_addr x <> 0 /\ exists s, section f h (bss_idx x) s /\ is_bss s = true /\ sh_size s <= size) bss sizes.

Lemma lookup_app_bss b b' i : Forall (fun x => bss_idx x <> i) b -> module_bss_lookup (b ++ b') i = module_bss_lookup b' i.
Proof.
  induction 1 as [| x b Hx _ IH]; [done |]. cbn [app module_bss_lookup]. by rewrite (proj2 (Z.eqb_neq _ _) Hx).
Qed.

Lemma align_page z : 0 <= z <= 0x40000000 -> align_down 4096 (u64 (z + 4095)) = (z + 4095) / 4096 * 4096.
Proof. intros Hz. apply align4096. lia. Qed.

Lemma module_alloc_bss_ok n : forall i b0 m s F M D, module_space root m s F M D -> 0 <= i -> i + Z.of_nat n = e_shnum h ->
  Forall (fun x => bss_idx x < i) b0 ->
  module_brk m + Z.max 0 (8 - Z.of_nat (length b0)) * (B + 4112) <= MODULE_LAST_PAGE ->
  exists r m' s' F' M' N, module_alloc_bss root n i f h b0 m s = Ok (r, m', s') /\ module_space root m' s' F' M' (N ++ D) /\
    moved m m' s s' N /\
    match r with
    | None => True
    | Some b => exists b', b = b0 ++ b' /\ segments (module_brk m) (module_brk m') b' /\
        forall j sj, section f h j sj -> is_bss sj = true -> i <= j -> module_bss_lookup b' j <> 0
    end.
Proof.
  induction n as [| n IH]; intros i b0 m s F M D HS Hi Hn Hb Hroom; cbn [module_alloc_bss].
  { exists (Some b0), m, s, F, M, []. split; [done |]. split; [done |]. split; [apply moved_refl |]. exists []. rewrite app_nil_r.
    split; [done |]. split; [exists []; split; [cbn; lia | constructor] |]. intros j sj [Hj _] _ Hij. lia. }
  destruct (mw_sections _ _ _ W i ltac:(lia)) as (sh & Hsh). pose proof Hsh as [_ ->]. cbn [res_bind].
  assert (Hb' : Forall (fun x => bss_idx x < i + 1) b0) by (eapply Forall_impl; [exact Hb | cbn; lia]).
  destruct (is_bss sh) eqn:Ebss; cbn [negb].
  2:{ destruct (IH (i + 1) b0 m s F M D HS ltac:(lia) ltac:(lia) Hb' Hroom) as (r & m' & s' & F' & M' & N & E & HS' & Hmv & R).
      exists r, m', s', F', M', N. split; [done |]. split; [done |]. split; [done |]. destruct r as [b |]; [| done].
      destruct R as (b' & -> & Hseg & Hl). exists b'. split; [done |]. split; [done |]. intros j sj Hj Hbj Hij.
      destruct (decide (j = i)) as [-> | Hne]; [| apply (Hl j sj Hj Hbj); lia]. destruct Hj as [_ Ej], Hsh as [_ Eh]. congruence. }
  unfold MODULE_MAX_BSS_SECTIONS. destruct (Z.leb_spec 8 (Z.of_nat (length b0))) as [Hc | Hc].
  { exists None, m, s, F, M, []. split; [done |]. split; [done |]. split; [apply moved_refl | done]. }
  pose proof (Hsize i sh Hsh Ebss) as Hsz. rewrite align_page by lia. set (size := (sh_size sh + 4095) / 4096 * 4096).
  assert (Hs : sh_size sh <= size <= B + 4095) by (unfold size; zlia).
  rewrite Z.max_r in Hroom by lia.
  destruct (module_alloc_ok root size m s F M D HS ltac:(lia) ltac:(nia))
    as (p & m1 & s1 & F1 & M1 & N1 & -> & HS1 & Hm1 & Hb1 & O1 & Hc1 & HA). cbn [res_bind].
  assert (Mv1 : moved m m1 s s1 N1) by (split_and!; done).
  destruct (Z.eqb_spec p 0) as [-> | Hp]; [by exists None, m1, s1, F1, M1, N1 |].
  destruct HA as [[? _] | (-> & H16 & HA)]; [done |].
  destruct (IH (i + 1) (b0 ++ [mk_bss i (module_brk m)]) m1 s1 F1 M1 (N1 ++ D) HS1 ltac:(lia) ltac:(lia))
    as (r & m' & s' & F' & M' & N & E & HS' & Hmv & R).
  { apply Forall_app. split; [done |]. constructor; [cbn; lia | constructor]. }
  { rewrite length_app. cbn [length]. rewrite Z.max_r by lia. nia. }
  exists r, m', s', F', M', (N ++ N1). rewrite <- app_assoc. split; [done |]. split; [done |]. split; [by eapply moved_trans |].
  destruct r as [b |]; [| done]. destruct R as (b' & -> & (sizes & Hseq & HF) & Hl).
  exists (mk_bss i (module_brk m) :: b'). split; [by rewrite <- app_assoc |]. split.
  - exists (size :: sizes). split.
    + cbn [map in_sequence bss_addr]. rewrite (proj2 (Z.eqb_neq _ 0)) by done. split; [right; lia |].
      eapply in_sequence_mono; [| | exact Hseq]; lia.
    + constructor; [| done]. split; [done |]. exists sh. cbn [bss_idx]. split; [done |]. split; [done | lia].
  - intros j sj Hj Hbj Hij. cbn [module_bss_lookup bss_idx bss_addr]. destruct (Z.eqb_spec i j) as [-> | Hne]; [done |].
    apply (Hl j sj Hj Hbj). lia.
Qed.
End Bss.

(** ** A kernel thread *)

Section Thread.
Context {A : Type} {AL : Allocator A} {P : Type} {PA : PageAllocator P}.

(** a new kernel thread: its two blocks, an aligned stack in the second, and the
    words that the first switch to it pops *)
Definition fresh_thread (rff entry data : Z) (t : thread) : Prop :=
  is_user t = false /\ pml4_phys t = 0 /\ entry_point t = entry /\ kernel_stack t mod 16 = 0 /\
  kernel_stack_base t < kernel_stack t <= kernel_stack_base t + STACK_SIZE /\
  rsp t = kernel_stack t - 80 /\ kernel_stack_base t <= rsp t /\
  saved t = [(kernel_stack t - 8, 0); (kernel_stack t - 16, rff); (kernel_stack t - 24, 0x202); (kernel_stack t - 32, 0); (kernel_stack t - 40, 0);
    (kernel_stack t - 48, 0); (kernel_stack t - 56, 0); (kernel_stack t - 64, 0); (kernel_stack t - 72, entry); (kernel_stack t - 80, data)].

Definition thread_memory (t : thread) : list (Z * Z) := [(kernel_stack_base t, STACK_SIZE + 16); (self t, THREAD_SIZE)].

Lemma thread_create_common_ok rff entry data (st : sys A P) R : Alloc.live (heap st) R ->
  thread_create_common rff entry data st = Panic \/
  exists t st', thread_create_common rff entry data st = Ok (t, st') /\ mach st' = mach st /\ user_count st' = user_count st /\
    kernel_count st' = kernel_count st /\
    match t with
    | None => Alloc.live (heap st') R
    | Some t => Alloc.live (heap st') (thread_memory t ++ R) /\ fresh_thread rff entry data t
    end.
Proof.
  intros HL. unfold thread_create_common.
  destruct (kmalloc_live (heap st) R THREAD_SIZE HL) as (p & a & -> & [[-> Ha] | [Hp Ha]]); [by vm_compute | |]; cbn [res_bind].
  { right. exists None, (with_heap a st). split; [done |]. split_and!; done. }
  rewrite (proj2 (Z.eqb_neq p 0)) by lia.
  destruct (kmalloc_live a _ (STACK_SIZE + 16) Ha) as (q & a' & -> & [[-> Ha'] | [Hq Ha']]); [by vm_compute | by left |]; cbn [res_bind].
  rewrite (proj2 (Z.eqb_neq q 0)) by lia. unfold STACK_SIZE in *.
  set (top := align_down 16 _).
  assert (Htop : top mod 16 = 0 /\ q + 131072 - 16 < top <= q + 131072).
  { unfold top, align_down. rewrite u64_small by (red; lia). change (16 - 1) with (2 ^ 4 - 1).
    rewrite land_lnot_ones by (lia || (red; lia)). change (2 ^ 4) with 16. zlia. }
  clearbody top. destruct Htop as [H16 Hrange].
  assert (Hl : forall z, z mod 16 = 0 -> Z.land z 15 = 0) by (intros z Hz; change 15 with (Z.ones 4); by rewrite Z.land_ones).
  unfold arch_thread_init_frame. rewrite Hl by done. cbn [negb Z.eqb res_bind push_words].
  rewrite (Hl (_ - 8)) by zlia. cbn [negb Z.eqb]. right. eexists _, _. split; [reflexivity |].
  split; [done |]. split; [done |]. split; [done |]. split; [exact Ha' |].
  unfold fresh_thread, STACK_SIZE. cbn [is_user pml4_phys entry_point kernel_stack kernel_stack_base rsp saved]. split_and!; try done; try lia.
  repeat (apply (f_equal2 cons); [apply (f_equal2 pair); [lia | reflexivity] |]). reflexivity.
Qed.
End Thread.

(** ** The whole load *)

Section Load.
Context {A : Type} {AL : Allocator A} {P : Type} {PA : PageAllocator P}.
Context (root : Z) (table : list kernel_symbol) (rff : Z).
Context (f : list Z) (h : Elf64_Ehdr) (L : list reloc) (W : module_wf f h L) (HN : names_wf f h).
Implicit Types (k : kernel (A := A) (P := P)) (O : list (Z * Z)).

Definition kernel_ok k F M D O : Prop :=
  module_space root (k_area k) (k_vm k) F M D /\ registry_ok (k_reg k) (heap (k_sys k)) O /\ g_next_id (k_reg k) < 2147483647.

(** room for the image and for eight sections of at most [B] bytes below the last page *)
Definition room (B : Z) k : Prop :=
  0 <= B <= 0x40000000 /\ (forall i s, section f h i s -> is_bss s = true -> 0 <= sh_size s <= B) /\
  module_brk (k_area k) + zlen f + 16 + 8 * (B + 4112) <= MODULE_LAST_PAGE.

(** the memory is as before, but for new page tables and the frames [N] *)
Definition restored k k' F' M N D : Prop :=
  k_area k' = k_area k /\ module_space root (k_area k) (k_vm k') F' M (N ++ D) /\
  (forall w, translate (tabs (k_vm k')) root w = translate (tabs (k_vm k)) root w).

(** the state but for the module memory *)
Definition same_rest k k' : Prop := k_reg k' = k_reg k /\ heap (k_sys k') = heap (k_sys k) /\ kernel_count (k_sys k') = kernel_count (k_sys k).

Lemma load_fail_ok {X} k k1 F M D F' M' N : module_space root (k_area k) (k_vm k) F M D ->
  module_space root (k_area k1) (k_vm k1) F' M' (N ++ D) -> moved root (k_area k) (k_area k1) (k_vm k) (k_vm k1) N ->
  exists k', load_fail (X := X) root (module_alloc_checkpoint (k_area k)) k1 = Ok (None, k') /\ restored k k' F' M N D /\ same_rest k1 k'.
Proof.
  intros HS HS1 (Hm & Hb & O & _).
  destruct (module_rollback_ok root _ _ F M D _ _ F' M' (N ++ D) HS HS1 Hb Hm O) as (s'' & E & HS'' & Eq).
  unfold load_fail. rewrite E. cbn [res_bind]. eexists. split; [reflexivity |]. split; [| done]. split; [done |]. split; [exact HS'' | exact Eq].
Qed.

(** the image is in memory: linked, in the block at [i_mem], its cleared segments after it *)
Definition image_in_memory k k' (im : image) : Prop :=
  i_mem im = module_brk (k_area k) /\ linked_image table f h L (i_mem im) (i_bss im) (i_bytes im) /\ intact f h (i_bytes im) /\
  segments f h (i_mem im + zlen f) (module_brk (k_area k')) (i_bss im).

Lemma load_image_ok k F M D B : module_space root (k_area k) (k_vm k) F M D -> room B k -> all_resolvable table f L ->
  exists r k' F' M' N, load_image root table f (module_alloc_checkpoint (k_area k)) k = Ok (r, k') /\ same_rest k k' /\
    match r with
    | None => restored k k' F' M N D
    | Some im => module_space root (k_area k') (k_vm k') F' M' (N ++ D) /\ moved root (k_area k) (k_area k') (k_vm k) (k_vm k') N /\
        image_in_memory k k' im
    end.
Proof.
  intros HS (HB & Hsz & Hroom) HR. unfold load_image. pose proof (mw_size _ _ _ W) as H64.
  destruct (module_alloc_ok root (zlen f) _ _ F M D HS ltac:(lia) ltac:(lia))
    as (p & m1 & s1 & F1 & M1 & N1 & -> & HS1 & Hm1 & Hb1 & O1 & Hc1 & HA). cbn [res_bind].
  set (k1 := with_area m1 (with_vm s1 k)).
  assert (Mv1 : moved root (k_area k) (k_area k1) (k_vm k) (k_vm k1) N1) by (split_and!; done).
  assert (Fail : forall k2 F2 M2 N2, module_space root (k_area k2) (k_vm k2) F2 M2 (N2 ++ D) ->
    moved root (k_area k) (k_area k2) (k_vm k) (k_vm k2) N2 -> same_rest k k2 ->
    exists r k' F' M' N, load_fail root (module_alloc_checkpoint (k_area k)) k2 = Ok (r, k') /\ same_rest k k' /\
    match r with
    | None => restored k k' F' M N D
    | Some im => module_space root (k_area k') (k_vm k') F' M' (N ++ D) /\ moved root (k_area k) (k_area k') (k_vm k) (k_vm k') N /\
        image_in_memory k k' im
    end).
  { intros k2 F2 M2 N2 HS2 Mv2 (R1 & R2 & R3). destruct (load_fail_ok (X := image) k k2 F M D F2 M2 N2 HS HS2 Mv2) as (k' & E & HR' & (R1' & R2' & R3')).
    exists None, k', F2, M2, N2. split; [exact E |]. split; [| done]. split; [congruence |]. split; congruence. }
  destruct (Z.eqb_spec p 0) as [-> | Hp]; [by apply (Fail k1 F1 M1 N1) |].
  destruct HA as [[? _] | (-> & H16 & HA)]; [done |]. rewrite (mw_header _ _ _ W). cbn [res_bind].
  pose proof (mw_shnum _ _ _ W) as Hsn.
  destruct (module_alloc_bss_ok root f h L W B HB Hsz (Z.to_nat (e_shnum h)) 0 [] m1 s1 F1 M1 (N1 ++ D) HS1)
    as (r & m2 & s2 & F2 & M2 & N2 & E & HS2 & Mv2 & R); [lia | lia | constructor | cbn [length]; lia |].
  change (module_alloc_bss root (Z.to_nat (e_shnum h)) 0 f h [] (k_area k1) (k_vm k1)) with
    (module_alloc_bss root (Z.to_nat (e_shnum h)) 0 f h [] m1 s1). rewrite E. cbn [res_bind].
  set (k2 := with_area m2 (with_vm s2 k1)).
  assert (Mv : moved root (k_area k) (k_area k2) (k_vm k) (k_vm k2) (N2 ++ N1)) by (eapply moved_trans; [exact Mv1 | exact Mv2]).
  rewrite app_assoc in HS2. destruct r as [bss |]; [| by apply (Fail k2 F2 M2 (N2 ++ N1))].
  destruct R as (b' & -> & Hseg & Hl). cbn [app].
  destruct (apply_rela_ok table f h L W (module_brk (k_area k)) b' HR) as (r & -> & R); cbn [res_bind].
  { intros i s Hs Hbs. apply (Hl i s Hs Hbs). destruct Hs. lia. }
  destruct r as [f' |]; [| by apply (Fail k2 F2 M2 (N2 ++ N1))].
  exists (Some (mk_image (module_brk (k_area k)) f' b')), k2, F2, M2, (N2 ++ N1). split; [done |]. split; [done |]. split; [exact HS2 |].
  split; [exact Mv |]. destruct R as [R1 R2]. split; [done |]. split; [done |]. split; [done |].
  destruct Hseg as (sizes & Hseq & HF). exists sizes. split; [| done]. cbn [i_mem i_bss k_area k2 with_area].
  eapply in_sequence_mono; [| | exact Hseq]; lia.
Qed.
(** the registry with one more visible module *)
Definition registered_as k k' (d : module_desc) : Prop :=
  exists id d', view (k_reg k) !! id = None /\ view (k_reg k') = <[id := (REG_COMMITTED, d')]> (view (k_reg k)) /\ registered d d' id.

Lemma reserve_then r r1 d id : reg_spec (view r) (g_next_id r) (Reserve d) (Id id) (view r1) (g_next_id r1) -> 0 <= id ->
  exists d', view r !! id = None /\ view r1 = <[id := (REG_RESERVED, d')]> (view r) /\ registered d d' id.
Proof. intros H Hid. inversion H; subst; [lia | lia |]. eauto. Qed.

Lemma commit_after r r1 r2 id d' : view r1 = <[id := (REG_RESERVED, d')]> (view r) ->
  reg_spec (view r1) (g_next_id r1) (Commit id) Done (view r2) (g_next_id r2) -> view r2 = <[id := (REG_COMMITTED, d')]> (view r).
Proof.
  intros E H. rewrite E in H. inversion H as [| | | id' d Hl | id' Hl | | | | |]; subst.
  - rewrite lookup_insert_eq in Hl. injection Hl as <-. by rewrite insert_insert_eq.
  - destruct (Hl d'). by rewrite lookup_insert_eq.
Qed.

Lemma cancel_after r r1 r2 id d' : view r !! id = None -> view r1 = <[id := (REG_RESERVED, d')]> (view r) ->
  reg_spec (view r1) (g_next_id r1) (Cancel id) Done (view r2) (g_next_id r2) -> view r2 = view r.
Proof.
  intros E0 E H. rewrite E in H. inversion H as [| | | | | id' d Hl | id' Hl | | |]; subst.
  - by rewrite delete_insert_id.
  - destruct (Hl d'). by rewrite lookup_insert_eq.
Qed.

(** nothing has happened, but for the memory of [restored] *)
Definition not_loaded k k' F' M N D O : Prop :=
  restored k k' F' M N D /\ view (k_reg k') = view (k_reg k) /\ Alloc.live (heap (k_sys k')) (names (k_reg k') ++ O) /\
  kernel_count (k_sys k') = kernel_count (k_sys k).

(** a thread at the module's entry, with a linked image and a visible descriptor *)
Definition is_loaded (name : option cstring) (data : Z) k k' F' M' N D O (t : thread) (im : image) : Prop :=
  module_space root (k_area k') (k_vm k') F' M' (N ++ D) /\ moved root (k_area k) (k_area k') (k_vm k) (k_vm k') N /\
  image_in_memory k k' im /\ elf_load_addr t = i_mem im /\ elf_size t = zlen f /\
  module_find_entry f h (i_mem im) = Ok (entry_point t) /\ entry_point t <> 0 /\
  id t = i64 (- i64 (kernel_count (k_sys k) + 1)) /\
  (exists t0, fresh_thread rff (entry_point t) data t0 /\ t = with_module (id t) (entry_point t) (i_mem im) (zlen f) t0) /\
  Alloc.live (heap (k_sys k')) (thread_memory t ++ names (k_reg k') ++ O) /\
  exists segs, registered_as k k' (mk_desc name MODULE_KIND_KTHREAD (i_mem im) (zlen f) segs (Z.of_nat (length (i_bss im))) (entry_point t) 0 0 0).

(** the outcome of a load *)
Definition load_outcome name data k M D O (x : res (option (thread * image) * kernel)) : Prop :=
  x = Panic \/ exists r k' F' M' N, x = Ok (r, k') /\
    match r with
    | None => not_loaded k k' F' M N D O
    | Some (t, im) => all_resolvable table f L /\ is_loaded name data k k' F' M' N D O t im
    end.

(** a failure after the image was loaded *)
Lemma fail_outcome name data k k1 k2 F M D F1 M1 N O : module_space root (k_area k) (k_vm k) F M D ->
  module_space root (k_area k1) (k_vm k1) F1 M1 (N ++ D) -> moved root (k_area k) (k_area k1) (k_vm k) (k_vm k1) N ->
  k_area k2 = k_area k1 -> k_vm k2 = k_vm k1 -> view (k_reg k2) = view (k_reg k) ->
  Alloc.live (heap (k_sys k2)) (names (k_reg k2) ++ O) -> kernel_count (k_sys k2) = kernel_count (k_sys k) ->
  load_outcome name data k M D O (load_fail root (module_alloc_checkpoint (k_area k)) k2).
Proof.
  intros HS HS1 Mv E1 E2 E3 E4 E5. rewrite <- E1, <- E2 in HS1, Mv.
  destruct (load_fail_ok (X := thread * image) k k2 F M D F1 M1 N HS HS1 Mv) as (k' & E & HR' & (Q1 & Q2 & Q3)).
  right. exists None, k', F1, M1, N. split; [exact E |]. split; [done |]. rewrite Q1, Q2, Q3. done.
Qed.

Lemma commit_names id r a O : registry_ok r a O -> names (module_registry_commit id r) ≡ₚ names r.
Proof.
  intros HR. unfold module_registry_commit. pose proof (search_id REG_RESERVED id r (proj1 HR) ltac:(done)) as Hsid.
  destruct (search _ r) as [i |]; [| done]. destruct Hsid as (dd & Es & Hid & _). by apply (commit_slot i id dd r (proj1 HR) Es Hid).
Qed.

Lemma start_module_ok k k1 F M D F1 M1 N O name data im : kernel_ok k F M D O ->
  (forall n, name = Some n -> zlen (c_text n) < UINT64_MAX) -> all_resolvable table f L -> same_rest k k1 ->
  module_space root (k_area k1) (k_vm k1) F1 M1 (N ++ D) -> moved root (k_area k) (k_area k1) (k_vm k) (k_vm k1) N -> image_in_memory k k1 im ->
  load_outcome name data k M D O (start_module root rff f name data (module_alloc_checkpoint (k_area k)) im k1).
Proof.
  intros (HS & HR & Hlt) Hname Hres (R1 & R2 & R3) HS1 Mv Him. pose proof Him as (Emem & _ & Hint & Hseg).
  assert (Fail := fun k2 => fail_outcome name data k k1 k2 F M D F1 M1 N O HS HS1 Mv).
  unfold start_module. rewrite (intact_header f h L W _ Hint). cbn [res_bind].
  destruct (find_entry_same f h L W HN _ Hint (i_mem im)) as (entry & E1 & E2). rewrite E2. cbn [res_bind].
  destruct (Z.eqb_spec entry 0) as [-> | He]; [apply Fail; rewrite ?R1, ?R2; try done; apply HR |].
  destruct (bss_segments_same f h (i_bytes im) Hint (i_bss im)) as (segs & -> & _).
  { destruct Hseg as (sizes & _ & HF). clear -HF. induction HF as [| x y l l' (_ & s & Hs & _) _ IH]; constructor; eauto. }
  cbn [res_bind]. set (d := mk_desc _ _ _ _ _ _ _ _ _ _).
  rewrite R1, R2. destruct (reserve_ok d (k_reg k) (heap (k_sys k)) O HR Hlt Hname) as (mid & r & a & -> & HR2 & Hsp & Hmid). cbn [res_bind].
  set (k2 := mk_kernel (with_heap a (k_sys k1)) (k_area k1) r).
  destruct (Z.ltb_spec mid 0) as [Hneg | Hpos].
  { destruct Hmid as [[_ ->] | [-> _]]; [| destruct HR; lia]. apply Fail; try done. apply HR2. }
  destruct (reserve_then _ _ _ _ Hsp Hpos) as (d' & Hfresh & Ev & Hreg).
  destruct (thread_create_common_ok rff entry data (k_sys k2) (names r ++ O)) as [-> | (t & st & -> & Em & Eu & Ek & Ht)];
    [apply HR2 | by left |]. cbn [res_bind]. destruct t as [t |].
  - destruct Ht as [Hl Hfr]. unfold kernel_pid. cbn [k_reg k2 k_area]. right.
    destruct (commit_ok mid r a O HR2) as (HR3 & _ & Hsp3). pose proof (commit_after _ _ _ _ _ Ev Hsp3) as Ev3.
    eexists (Some (_, im)), _, F1, M1, N. split; [reflexivity |]. split; [done |].
    unfold is_loaded, k_vm. cbn [k_sys k_area k_reg mach kernel_count heap with_module elf_load_addr elf_size entry_point id].
    split_and!; try done; try (rewrite Em; done).
    + rewrite Ek. cbn [k2 k_sys with_heap kernel_count]. by rewrite R3.
    + by exists t.
    + eapply live_perm; [| exact Hl]. rewrite (commit_names mid r a O HR2). done.
    + exists (pad_segments segs). exists mid, d'. done.
  - change (k_reg k2) with r.
    destruct (cancel_ok mid r (heap st) O) as (r3 & a3 & -> & HR3 & _ & Hsp3); [split; [apply HR2 | split; [apply HR2 | done]] |].
    cbn [res_bind]. apply Fail; [done | unfold k_vm; cbn [k_sys mach with_heap]; by rewrite Em | by apply (cancel_after _ r _ mid d') | apply HR3 |].
    cbn [k_sys with_heap kernel_count]. rewrite Ek. done.
Qed.

Lemma kthread_load_elf_rel_ok k F M D O B name data : kernel_ok k F M D O -> room B k ->
  (forall n, name = Some n -> zlen (c_text n) < UINT64_MAX) ->
  load_outcome name data k M D O (kthread_load_elf_rel root table rff f name data k).
Proof.
  intros Hk Hroom Hname. pose proof Hk as (HS & HR & Hlt). unfold kthread_load_elf_rel. rewrite (mw_header _ _ _ W). cbn [res_bind].
  assert (Quit : load_outcome name data k M D O (Ok (None, k))).
  { right. exists None, k, F, M, []. split; [done |]. split; [done |]. split; [done |]. split; [apply HR | done]. }
  destruct (_ =? -1); [done |]. destruct (preflight_ok table f h L W) as (b & -> & Hb). cbn [res_bind].
  destruct b; cbn [negb]; [| done]. pose proof (proj1 Hb eq_refl) as Hres.
  destruct (load_image_ok k F M D B HS Hroom Hres) as (r & k1 & F1 & M1 & N & -> & Hrest & R). cbn [res_bind].
  destruct r as [im |].
  - destruct R as (HS1 & Mv & Him). by eapply start_module_ok.
  - destruct Hrest as (R1 & R2 & R3). right. exists None, k1, F1, M1, N. split; [done |]. split; [done |]. rewrite R1, R2. split; [done |].
    split; [apply HR | done].
Qed.
End Load.

(** ** Two theorems *)



(** ** A module

    Sixteen bytes of code with a call of the kernel's [kp] and the address of the
    second word of a variable, and 32 bytes of cleared memory. *)

Definition ex_shdr (name ty flags off size link info : Z) : list Z :=
  enc 4 name ++ enc 4 ty ++ enc 8 flags ++ enc 8 0 ++ enc 8 off ++ enc 8 size ++ enc 4 link ++ enc 4 info ++ enc 8 1 ++ enc 8 0.
Definition ex_sym (name shndx value : Z) : list Z := enc 4 name ++ enc 2 0 ++ enc 2 shndx ++ enc 8 value ++ enc 8 0.
Definition ex_rela (off sym ty addend : Z) : list Z := enc 8 off ++ enc 4 ty ++ enc 4 sym ++ enc 8 addend.

Definition ex_mo : list Z :=
  [127; 69; 76; 70; 2; 1; 1; 0; 0; 0; 0; 0; 0; 0; 0; 0] ++ enc 2 1 ++ enc 2 62 ++ enc 4 1 ++ enc 8 0 ++ enc 8 0 ++ enc 8 256 ++ enc 4 0 ++
  enc 2 64 ++ enc 2 0 ++ enc 2 0 ++ enc 2 64 ++ enc 2 7 ++ enc 2 6 ++
  [232; 0; 0; 0; 0; 195; 144; 144; 0; 0; 0; 0; 0; 0; 0; 0] ++
  ex_rela 1 2 2 (-4) ++ ex_rela 8 3 1 8 ++
  ex_sym 0 0 0 ++ ex_sym 1 1 0 ++ ex_sym 8 0 0 ++ ex_sym 11 2 0 ++
  [0] ++ START ++ [0; 107; 112; 0; 118; 0; 0; 0; 0] ++
  [0] ++ SYMTAB ++ [0; 0; 0; 0; 0; 0; 0; 0] ++
  ex_shdr 0 0 0 0 0 0 0 ++ ex_shdr 0 1 6 64 16 0 0 ++ ex_shdr 0 8 3 80 32 0 0 ++ ex_shdr 0 4 0 80 48 4 1 ++
  ex_shdr 1 2 0 128 96 5 0 ++ ex_shdr 0 3 0 224 13 0 0 ++ ex_shdr 0 3 0 240 9 0 0.

Definition ex_table : list kernel_symbol := [mk_ksym 0xffffffff80001000 [107; 112]].

Definition ex_ehdr : Elf64_Ehdr := Eval vm_compute in match read_ehdr ex_mo 0 with Ok h => h | _ => mk_ehdr [] 0 0 0 0 0 0 0 0 0 0 0 0 0 end.
Definition ex_relocs : list reloc := Eval vm_compute in match relocs ex_mo ex_ehdr with Ok l => l | _ => [] end.

Lemma ex_sections i s : section ex_mo ex_ehdr i s -> (i, s) ∈ [
  (0, mk_shdr 0 0 0 0 0 0 0 0 1 0); (1, mk_shdr 0 1 6 0 64 16 0 0 1 0); (2, mk_shdr 0 8 3 0 80 32 0 0 1 0); (3, mk_shdr 0 4 0 0 80 48 4 1 1 0);
  (4, mk_shdr 1 2 0 0 128 96 5 0 1 0); (5, mk_shdr 0 3 0 0 224 13 0 0 1 0); (6, mk_shdr 0 3 0 0 240 9 0 0 1 0)].
Proof.
  intros [Hi E]. change (e_shnum ex_ehdr) with 7 in Hi.
  assert (Hc : i = 0 \/ i = 1 \/ i = 2 \/ i = 3 \/ i = 4 \/ i = 5 \/ i = 6) by lia.
  destruct Hc as [-> | [-> | [-> | [-> | [-> | [-> | ->]]]]]]; vm_compute in E; injection E as <-; repeat (first [left; reflexivity | right]).
Qed.

Lemma ex_section i : 0 <= i < 7 -> exists s, section ex_mo ex_ehdr i s.
Proof.
  intros Hi. assert (Hc : i = 0 \/ i = 1 \/ i = 2 \/ i = 3 \/ i = 4 \/ i = 5 \/ i = 6) by lia.
  destruct Hc as [-> | [-> | [-> | [-> | [-> | [-> | ->]]]]]]; eexists; (split; [vm_compute; split; [discriminate | reflexivity] | vm_compute; reflexivity]).
Qed.

Ltac ex_cases H := apply ex_sections in H; repeat (apply elem_of_cons in H as [[= -> ->] | H]); [.. | by apply elem_of_nil in H].
Ltac ex_is := split; [vm_compute; split; [discriminate | reflexivity] | vm_compute; reflexivity].

Lemma ex_meta a n : meta ex_mo ex_ehdr a n -> a + n <= 64 \/ 128 <= a.
Proof.
  intros [[-> ->] | [[-> ->] | (i & s & Hs & HT & -> & ->)]]; [by left | right; vm_compute; discriminate |].
  ex_cases Hs; cbn in HT |- *; destruct HT; try discriminate; right; discriminate.
Qed.

Lemma ex_reloc_wf x : x ∈ ex_relocs -> reloc_wf ex_mo ex_ehdr x.
Proof.
  assert (Off : forall x, (rl_place x =? 65) && (rl_width x =? 4) || (rl_place x =? 72) && (rl_width x =? 8) = true ->
    forall a n, meta ex_mo ex_ehdr a n -> rl_place x + rl_width x <= a \/ a + n <= rl_place x).
  { intros y Hy a n Hm%ex_meta. lia. }
  intros Hx. unfold ex_relocs in Hx. repeat (apply elem_of_cons in Hx as [-> | Hx]); [.. | by apply elem_of_nil in Hx];
    (split; [vm_compute; discriminate |]; split; [vm_compute; discriminate |]; split;
     [split; [vm_compute; discriminate | eexists; split; [vm_compute; reflexivity | vm_compute; reflexivity]] |]; split; [| split]).
  - by left.
  - vm_compute. repeat split; discriminate.
  - apply Off. vm_compute. reflexivity.
  - right. right. eexists. split; [ex_is |]. intros _. vm_compute. reflexivity.
  - vm_compute. repeat split; discriminate.
  - apply Off. vm_compute. reflexivity.
Qed.

Lemma ex_module_wf : module_wf ex_mo ex_ehdr ex_relocs.
Proof.
  split.
  - vm_compute. reflexivity.
  - vm_compute. discriminate.
  - vm_compute. split; [discriminate | reflexivity].
  - vm_compute. split; [discriminate | reflexivity].
  - exact ex_section.
  - intros i s Hs HT. ex_cases Hs; cbn in HT; try discriminate. eexists. split; [ex_is |]. intros _. eexists _, _.
    split; [ex_is |]. split; [reflexivity |]. split; [ex_is | reflexivity].
  - vm_compute. reflexivity.
  - apply Forall_forall. exact ex_reloc_wf.
  - unfold ex_relocs. cbn [separate]. split; [| split; [| done]]; intros y Hy; [| by apply elem_of_nil in Hy].
    apply elem_of_cons in Hy as [-> | Hy]; [left; vm_compute; discriminate | by apply elem_of_nil in Hy].
Qed.

Lemma ex_names_wf : names_wf ex_mo ex_ehdr.
Proof.
  split.
  - reflexivity.
  - eexists. split; [ex_is |]. split; [reflexivity |]. intros i s Hs.
    ex_cases Hs; (split; [split; [discriminate | eexists; split; [vm_compute; reflexivity | vm_compute; reflexivity]] | vm_compute; discriminate || done]).
  - intros i s Hs HT. ex_cases Hs; cbn in HT; try discriminate. split; [discriminate |]. eexists.
    split; [split; [ex_is |]; split; [reflexivity |]; split; [ex_is | reflexivity] |]. intros k Hk. change (_ / _) with 4 in Hk.
    assert (Hc : k = 0 \/ k = 1 \/ k = 2 \/ k = 3) by lia.
    destruct Hc as [-> | [-> | [-> | ->]]]; (eexists; split; [vm_compute; reflexivity |]);
      (split; [split; [discriminate | eexists; split; [vm_compute; reflexivity | vm_compute; reflexivity]] |]);
      intros name Hn; repeat (apply elem_of_cons in Hn as [-> | Hn]); try (by apply elem_of_nil in Hn);
      vm_compute; intros E; try discriminate E; split; discriminate || reflexivity.
Qed.

#[local] Instance ex_module_blocks : Allocator (kheap Heap.frames) := heap_allocator (Some 1).

Definition ex_mheap : kheap Heap.frames := match kheap_init (40%nat, []) with Ok h => h | _ => ex_heap end.

Lemma ex_mheap_live : Alloc.live ex_mheap [].
Proof.
  assert (E : kheap_init (40%nat, []) = Ok ex_mheap) by (vm_compute; reflexivity).
  exact (init_client_inv (40%nat, []) ex_mheap I E).
Qed.

Definition ex_k : kernel (A := kheap Heap.frames) (P := pmm) :=
  mk_kernel (mk_sys ex_mheap (mk_machine ex_space (fun _ => 0)) 0 0) module_alloc_init new_registry.

Lemma ex_kernel_ok : kernel_ok ex_root ex_k [ex_root] [] [] [].
Proof.
  split; [exact ex_module_space |]. split; [| reflexivity]. split; [| split; [discriminate | exact ex_mheap_live]].
  split; [done | done | apply NoDup_nil_2 | apply Forall_nil_2].
Qed.

Lemma ex_room : room ex_mo ex_ehdr 32 ex_k.
Proof.
  split; [lia |]. split; [| vm_compute; discriminate]. intros i s Hs Hb. ex_cases Hs; cbn in Hb; try discriminate.
  cbn. lia.
Qed.

Lemma ex_loaded : exists t im k', kthread_load_elf_rel ex_root ex_table 0xffffffff80000100 ex_mo None 5 ex_k = Ok (Some (t, im), k').
Proof.
  assert (H : forall {X S} (r : res (option (X * image) * S)), match r with Ok (Some _, _) => true | _ => false end = true ->
    exists t im k', r = Ok (Some (t, im), k')) by (by intros X S [[[[t im] |] k'] | |]; eauto).
  apply H. vm_compute. reflexivity.
Qed.


