(* ===== verification/RunQueue.v ===== *)
(** * Run queues (src/kernel/arch/x86_64/cpu.h, cpu.c)

    A run queue is 64 FIFO lists of threads, one per priority (0 is the
    highest), a bitmap of the non-empty ones and a count.  Threads are named by
    their address; LinkedList.v justifies the lists.  The operations run under
    the queue's lock and are one step each. *)

From S2P Require Import Prelude.

(** ** Data *)

Definition SCHED_PRIO_COUNT : Z := 64.

Record runqueue_t := mk_rq { heads : list (list Z); bitmap : Z; count : Z }.

(** [1ULL << p], setting and clearing a bit of a 64-bit word *)
Definition bit (p : Z) : Z := Z.shiftl 1 p.
Definition set_bit (p b : Z) : Z := Z.lor b (bit p).
Definition clear_bit (p b : Z) : Z := Z.land b (u64 (Z.lnot (bit p))).

(** [__builtin_ctzll]: the lowest set bit of a non-zero word *)
Fixpoint ctz_from (n : nat) (p b : Z) : Z :=
  match n with
  | O => 64
  | S n => if Z.testbit b p then p else ctz_from n (p + 1) b
  end.
Definition ctzll (b : Z) : Z := ctz_from 64 0 b.
#[global] Arguments ctzll : simpl never.

(** ** Operations *)

Definition runqueue_init : runqueue_t := mk_rq (replicate 64 []) 0 0.

(** the list of a priority; an index outside the array is [None] *)
Definition head_at (p : Z) (rq : runqueue_t) : option (list Z) :=
  if (0 <=? p) && (p <? SCHED_PRIO_COUNT) then heads rq !! Z.to_nat p else None.

Definition set_head (p : Z) (l : list Z) (rq : runqueue_t) : runqueue_t :=
  mk_rq (<[Z.to_nat p := l]> (heads rq)) (bitmap rq) (count rq).
Definition set_bitmap (b : Z) (rq : runqueue_t) : runqueue_t := mk_rq (heads rq) b (count rq).
Definition set_count (n : Z) (rq : runqueue_t) : runqueue_t := mk_rq (heads rq) (bitmap rq) n.

(** [list_del] of a thread's node: it leaves whichever list it is in *)
Definition node_del (t : Z) (rq : runqueue_t) : runqueue_t :=
  mk_rq (filter (fun x => x <> t) <$> heads rq) (bitmap rq) (count rq).

(** the idiom after every removal: an emptied list leaves the bitmap *)
Definition clear_if_empty (p : Z) (rq : runqueue_t) : res runqueue_t :=
  match head_at p rq with
  | None => Fault
  | Some [] => Ok (set_bitmap (clear_bit p (bitmap rq)) rq)
  | Some _ => Ok rq
  end.

Definition add_head (p t : Z) (rq : runqueue_t) : res runqueue_t :=
  match head_at p rq with
  | None => Fault
  | Some l => Ok (set_bitmap (set_bit p (bitmap rq)) (set_head p (t :: l) rq))
  end.

Definition add_tail (p t : Z) (rq : runqueue_t) : res runqueue_t :=
  match head_at p rq with
  | None => Fault
  | Some l => Ok (set_bitmap (set_bit p (bitmap rq)) (set_head p (l ++ [t]) rq))
  end.

(** [prio] is [t->priority] *)
Definition runqueue_enqueue_raw (prio t : Z) (rq : runqueue_t) : res runqueue_t :=
  let! rq := add_head prio t rq in Ok (set_count (count rq + 1) rq).

Definition runqueue_enqueue_tail_raw (prio t : Z) (rq : runqueue_t) : res runqueue_t :=
  let! rq := add_tail prio t rq in Ok (set_count (count rq + 1) rq).

(** removal of a thread found in the list of [prio] *)
Definition take_out (prio t : Z) (rq : runqueue_t) : res runqueue_t :=
  let! rq := clear_if_empty prio (node_del t rq) in Ok (set_count (count rq - 1) rq).

Definition runqueue_dequeue_raw (rq : runqueue_t) : res (Z * runqueue_t) :=
  let prio := ctzll (bitmap rq) in
  match head_at prio rq with
  | Some (t :: _) => let! rq := take_out prio t rq in Ok (t, rq)
  | _ => Fault
  end.

Definition runqueue_dequeue_tail_raw (rq : runqueue_t) : res (Z * runqueue_t) :=
  let prio := ctzll (bitmap rq) in
  match head_at prio rq with
  | Some l =>
      match last l with
      | Some t => let! rq := take_out prio t rq in Ok (t, rq)
      | None => Fault
      end
  | None => Fault
  end.

(** [None] is NULL *)
Definition runqueue_dequeue (rq : runqueue_t) : res (option Z * runqueue_t) :=
  if count rq =? 0 then Ok (None, rq)
  else let! (t, rq) := runqueue_dequeue_raw rq in Ok (Some t, rq).

Definition runqueue_dequeue_tail (rq : runqueue_t) : res (option Z * runqueue_t) :=
  if count rq =? 0 then Ok (None, rq)
  else let! (t, rq) := runqueue_dequeue_tail_raw rq in Ok (Some t, rq).

(** the scan over all priorities for a thread in a given state; [n] priorities
    are left *)
Fixpoint dequeue_cond (n : nat) (prio : Z) (cond : Z -> bool) (rq : runqueue_t)
    : res (option Z * runqueue_t) :=
  match n with
  | O => Ok (None, rq)
  | S n =>
      match head_at prio rq with
      | None => Fault
      | Some l =>
          match List.find cond l with
          | Some t => let! rq := take_out prio t rq in Ok (Some t, rq)
          | None => dequeue_cond n (prio + 1) cond rq
          end
      end
  end.

Definition runqueue_dequeue_cond_raw (cond : Z -> bool) (rq : runqueue_t)
    : res (option Z * runqueue_t) :=
  dequeue_cond 64 0 cond rq.

(** ** The invariant *)

Definition queued (rq : runqueue_t) : list Z := concat (heads rq).

Definition rq_ok (rq : runqueue_t) : Prop :=
  length (heads rq) = 64%nat /\ NoDup (queued rq) /\ is_u64 (bitmap rq) /\
  (forall p l, head_at p rq = Some l -> Z.testbit (bitmap rq) p = negb (bool_decide (l = []))) /\
  count rq = Z.of_nat (length (queued rq)).

(** thread [t] waits at priority [p] *)
Definition at_prio (rq : runqueue_t) (p t : Z) : Prop :=
  exists l, head_at p rq = Some l /\ t ∈ l.

(** ** Bits *)

Lemma bit_spec p n : 0 <= p -> Z.testbit (bit p) n = (n =? p).
Proof.
  intros Hp. unfold bit. rewrite Z.shiftl_1_l, Z.eqb_sym.
  destruct (Z.ltb_spec n 0); [rewrite Z.testbit_neg_r by done; destruct (Z.eqb_spec p n); [lia | done] |].
  apply Z.pow2_bits_eqb. lia.
Qed.

Lemma u64_bits z n : 0 <= n < 64 -> Z.testbit (u64 z) n = Z.testbit z n.
Proof.
  intros Hn. unfold u64. change 18446744073709551616 with (2 ^ 64).
  apply Z.mod_pow2_bits_low. lia.
Qed.

Lemma u64_high z n : is_u64 z -> 64 <= n -> Z.testbit z n = false.
Proof.
  intros Hz Hn. rewrite <- (u64_small z Hz). unfold u64. change 18446744073709551616 with (2 ^ 64).
  apply Z.mod_pow2_bits_high. lia.
Qed.

Lemma set_bit_spec p b n : 0 <= p -> Z.testbit (set_bit p b) n = (n =? p) || Z.testbit b n.
Proof. intros Hp. unfold set_bit. rewrite Z.lor_spec, bit_spec by done. apply orb_comm. Qed.

Lemma clear_bit_spec p b n :
  0 <= p < 64 -> is_u64 b -> Z.testbit (clear_bit p b) n = negb (n =? p) && Z.testbit b n.
Proof.
  intros Hp Hb. unfold clear_bit. rewrite Z.land_spec.
  destruct (Z.ltb_spec n 0); [rewrite !Z.testbit_neg_r by done; by rewrite !andb_false_r |].
  destruct (Z.ltb_spec n 64).
  - rewrite u64_bits, Z.lnot_spec, bit_spec by lia. apply andb_comm.
  - rewrite (u64_high b) by done. by rewrite !andb_false_r.
Qed.

Lemma u64_of_bits z : 0 <= z -> (forall n, 64 <= n -> Z.testbit z n = false) -> is_u64 z.
Proof.
  intros Hz Hb. destruct (decide (z = 0)) as [-> | Hne]; [red; lia |]. split; [done |].
  change 18446744073709551616 with (2 ^ 64). apply Z.log2_lt_pow2; [lia |].
  destruct (Z.ltb_spec (Z.log2 z) 64); [done |].
  specialize (Hb (Z.log2 z) ltac:(done)).
  rewrite Z.bit_log2 in Hb by lia. done.
Qed.

Lemma ctz_from_spec n p b :
  (exists q, p <= q < p + Z.of_nat n /\ Z.testbit b q = true) ->
  p <= ctz_from n p b < p + Z.of_nat n /\ Z.testbit b (ctz_from n p b) = true /\
  forall q, p <= q < ctz_from n p b -> Z.testbit b q = false.
Proof.
  revert p. induction n as [| n IH]; intros p (q & Hq & Hb); [lia |]. simpl.
  destruct (Z.testbit b p) eqn:Ep; [split_and!; try done; lia |].
  assert (p <> q) by congruence.
  destruct (IH (p + 1)) as (I1 & I2 & I3); [exists q; split; [lia | done] |].
  split_and!; try done; try lia. intros r Hr.
  destruct (decide (r = p)) as [-> |]; [done | apply I3; lia].
Qed.

(** ** The lists *)

Lemma head_at_valid p rq l :
  head_at p rq = Some l <-> 0 <= p < SCHED_PRIO_COUNT /\ heads rq !! Z.to_nat p = Some l.
Proof. unfold head_at, SCHED_PRIO_COUNT. zbool; simpl; intuition (done || lia). Qed.

Lemma head_at_some p rq : rq_ok rq -> 0 <= p < 64 -> exists l, head_at p rq = Some l.
Proof.
  intros (Hl & _) Hp. destruct (lookup_lt_is_Some_2 (heads rq) (Z.to_nat p)) as [l E]; [lia |].
  exists l. apply head_at_valid. unfold SCHED_PRIO_COUNT. done.
Qed.

Lemma head_at_set p q l l0 rq :
  head_at p rq = Some l0 -> head_at q (set_head p l rq) = if q =? p then Some l else head_at q rq.
Proof.
  intros (Hp & E)%head_at_valid. unfold head_at, set_head, SCHED_PRIO_COUNT in *. simpl.
  destruct (Z.eqb_spec q p) as [-> | Hne].
  - rewrite list_lookup_insert_eq by (by eapply lookup_lt_Some).
    destruct (Z.leb_spec 0 p), (Z.ltb_spec p 64); simpl; done || lia.
  - destruct (Z.leb_spec 0 q), (Z.ltb_spec q 64); simpl; try done.
    rewrite list_lookup_insert_ne by lia. done.
Qed.

Lemma concat_insert {A} (ll : list (list A)) i l l' :
  ll !! i = Some l -> concat (<[i := l']> ll) ++ l ≡ₚ l' ++ concat ll.
Proof.
  intros E. rewrite (insert_take_drop ll i l') by (by eapply lookup_lt_Some).
  rewrite <- (take_drop_middle ll i l E) at 3. rewrite !concat_app. simpl.
  rewrite (Permutation_app_swap_app (concat (take i ll)) l'), <- !app_assoc.
  do 2 apply Permutation_app_head. apply Permutation_app_comm.
Qed.

Lemma queued_set p l l' rq :
  head_at p rq = Some l -> queued (set_head p l' rq) ++ l ≡ₚ l' ++ queued rq.
Proof. intros (_ & E)%head_at_valid. by apply concat_insert. Qed.

Lemma at_prio_queued rq p t : at_prio rq p t -> t ∈ queued rq.
Proof.
  intros (l & (_ & E)%head_at_valid & Ht). unfold queued. apply list_elem_of_In, in_concat.
  exists l. split; apply list_elem_of_In; [by eapply list_elem_of_lookup_2 | done].
Qed.

Lemma queued_at_prio rq t : rq_ok rq -> t ∈ queued rq -> exists p, at_prio rq p t.
Proof.
  intros (Hl & _) Ht. unfold queued in Ht. apply list_elem_of_In, in_concat in Ht as (l & Hl1 & Ht).
  apply list_elem_of_In, list_elem_of_lookup in Hl1 as [i Hi].
  exists (Z.of_nat i), l. rewrite head_at_valid, Nat2Z.id. unfold SCHED_PRIO_COUNT.
  pose proof (lookup_lt_Some _ _ _ Hi). split; [split; [lia | done] | by apply list_elem_of_In].
Qed.

(** a thread waits in one list only *)
Lemma at_prio_unique rq p q t : rq_ok rq -> at_prio rq p t -> at_prio rq q t -> p = q.
Proof.
  intros Hok (l & Hp & Ht) (l' & Hq & Ht'). destruct (decide (p = q)) as [| Hne]; [done |].
  exfalso. pose proof (queued_set p l [] rq Hp) as HP. simpl in HP.
  destruct Hok as (_ & ND & _). rewrite <- HP in ND.
  apply NoDup_app in ND as (_ & Hdis & _). apply (Hdis t); [| done].
  apply (at_prio_queued _ q). exists l'. split; [| done].
  rewrite (head_at_set p q [] l rq Hp). destruct (Z.eqb_spec q p); [congruence | done].
Qed.

Lemma filter_out (t : Z) (l : list Z) : t ∉ l -> filter (fun x => x <> t) l = l.
Proof.
  induction l as [| x l IH]; intros Ht; [done |]. rewrite filter_cons.
  destruct (decide (x <> t)) as [_ | Hx]; [rewrite IH; [done | lmem] |].
  exfalso. apply Hx. intros ->. lmem.
Qed.

Lemma head_at_nodup rq p l : rq_ok rq -> head_at p rq = Some l -> NoDup l.
Proof.
  intros (_ & ND & _) Hp. pose proof (queued_set p _ [] rq Hp) as HP. simpl in HP.
  rewrite <- HP in ND. by apply NoDup_app in ND as (_ & _ & ND).
Qed.

Lemma node_del_at rq p t l1 l2 :
  rq_ok rq -> head_at p rq = Some (l1 ++ t :: l2) -> node_del t rq = set_head p (l1 ++ l2) rq.
Proof.
  intros Hok Hp. unfold node_del, set_head. f_equal.
  assert (Hone : forall q l, head_at q rq = Some l -> q <> p -> t ∉ l).
  { intros q l Hq Hne Ht. apply Hne, (at_prio_unique rq q p t Hok); eexists; split; try done. lmem. }
  assert (HND : NoDup (l1 ++ t :: l2)) by (by apply (head_at_nodup rq p)).
  pose proof Hp as (Hv & E)%head_at_valid.
  apply list_eq. intros i. rewrite list_lookup_fmap.
  destruct (decide (i = Z.to_nat p)) as [-> | Hne].
  - rewrite list_lookup_insert_eq, E by (by eapply lookup_lt_Some). simpl. f_equal.
    apply NoDup_app in HND as (_ & Hd & ND2). apply NoDup_cons in ND2 as [Ht2 _].
    rewrite filter_app, filter_cons, decide_False by tauto.
    rewrite !filter_out; [done | done |]. intros Ht. apply (Hd t Ht). lmem.
  - rewrite list_lookup_insert_ne by done. destruct (heads rq !! i) as [l |] eqn:Ei; [| done].
    simpl. f_equal. apply filter_out, (Hone (Z.of_nat i)); [| lia].
    apply head_at_valid. rewrite Nat2Z.id. split; [| done]. apply lookup_lt_Some in Ei.
    destruct Hok as (Hl & _). unfold SCHED_PRIO_COUNT. lia.
Qed.

(** ** The operations keep the invariant *)

(** [rq'] is [rq] with the list of [p] replaced by [l'] *)
Definition changed (rq rq' : runqueue_t) (p : Z) (l' : list Z) : Prop :=
  forall q, head_at q rq' = if q =? p then Some l' else head_at q rq.

Lemma set_bit_u64 p b : 0 <= p < 64 -> is_u64 b -> is_u64 (set_bit p b).
Proof.
  intros Hp Hb. apply u64_of_bits.
  - unfold set_bit, bit. apply Z.lor_nonneg. split; [apply Hb | apply Z.shiftl_nonneg; lia].
  - intros n Hn. rewrite set_bit_spec, (u64_high b) by (done || lia).
    destruct (Z.eqb_spec n p); [lia | done].
Qed.

Lemma clear_bit_u64 p b : 0 <= p < 64 -> is_u64 b -> is_u64 (clear_bit p b).
Proof.
  intros Hp Hb. apply u64_of_bits.
  - unfold clear_bit. apply Z.land_nonneg. left. apply Hb.
  - intros n Hn. rewrite clear_bit_spec, (u64_high b) by (done || lia). apply andb_false_r.
Qed.

Lemma set_head_ok rq p l l' b n :
  rq_ok rq -> head_at p rq = Some l -> NoDup (queued (set_head p l' rq)) -> is_u64 b ->
  (forall q, 0 <= q < 64 ->
     Z.testbit b q = if q =? p then negb (bool_decide (l' = [])) else Z.testbit (bitmap rq) q) ->
  n = Z.of_nat (length (queued (set_head p l' rq))) ->
  let rq' := set_count n (set_bitmap b (set_head p l' rq)) in
  rq_ok rq' /\ changed rq rq' p l'.
Proof.
  intros (Hl & ND & Hu & Hb & Hc) Hp ND' Hu' Hb' Hn rq'.
  assert (Hch : changed rq rq' p l') by (intros q; apply (head_at_set p q l' l rq Hp)).
  split; [| done]. split_and!; try done.
  - simpl. by rewrite length_insert.
  - intros q lq Hq. pose proof Hq as (Hqv & _)%head_at_valid. unfold SCHED_PRIO_COUNT in Hqv.
    simpl. rewrite Hb' by lia. rewrite Hch in Hq. destruct (Z.eqb_spec q p).
    + by injection Hq as ->.
    + by apply Hb.
Qed.

Lemma changed_queued rq rq' p l l' :
  heads rq' = heads (set_head p l' rq) -> head_at p rq = Some l -> queued rq' ++ l ≡ₚ l' ++ queued rq.
Proof. intros E Hp. unfold queued at 1. rewrite E. by apply queued_set. Qed.

Lemma add_ok rq p t l l' :
  rq_ok rq -> head_at p rq = Some l -> l' ≡ₚ t :: l -> t ∉ queued rq ->
  let rq' := set_bitmap (set_bit p (bitmap rq)) (set_head p l' rq) in
  rq_ok (set_count (count rq + 1) rq') /\
  changed rq rq' p l' /\ queued rq' ≡ₚ t :: queued rq.
Proof.
  intros Hok Hp HPl Ht rq'. pose proof Hp as (Hv & _)%head_at_valid. unfold SCHED_PRIO_COUNT in Hv.
  assert (HQ : queued (set_head p l' rq) ≡ₚ t :: queued rq).
  { apply (Permutation_app_inv_r l). rewrite (queued_set p l l' rq Hp), HPl. simpl.
    apply Permutation_skip, Permutation_app_comm. }
  assert (Hne : bool_decide (l' = []) = false).
  { apply bool_decide_eq_false. intros ->. apply Permutation_length in HPl. done. }
  pose proof Hok as (Hl & ND & Hu & Hb & Hc).
  destruct (set_head_ok rq p l l' (set_bit p (bitmap rq)) (count rq + 1)) as [R1 R2]; try done.
  - rewrite HQ. by apply NoDup_cons.
  - apply set_bit_u64; [lia | done].
  - intros q Hq. rewrite set_bit_spec, Hne by lia. by destruct (Z.eqb_spec q p).
  - rewrite HQ, Hc. simpl. lia.
Qed.

Lemma enqueue_ok rq prio t :
  rq_ok rq -> 0 <= prio < 64 -> t ∉ queued rq ->
  exists l rq', head_at prio rq = Some l /\ runqueue_enqueue_raw prio t rq = Ok rq' /\
    rq_ok rq' /\ changed rq rq' prio (t :: l) /\ queued rq' ≡ₚ t :: queued rq.
Proof.
  intros Hok Hp Ht. destruct (head_at_some prio rq Hok Hp) as [l Hl].
  unfold runqueue_enqueue_raw, add_head. rewrite Hl. simpl.
  destruct (add_ok rq prio t l (t :: l) Hok Hl) as (R1 & R2 & R3); try done. eauto 10.
Qed.

Lemma enqueue_tail_ok rq prio t :
  rq_ok rq -> 0 <= prio < 64 -> t ∉ queued rq ->
  exists l rq', head_at prio rq = Some l /\ runqueue_enqueue_tail_raw prio t rq = Ok rq' /\
    rq_ok rq' /\ changed rq rq' prio (l ++ [t]) /\ queued rq' ≡ₚ t :: queued rq.
Proof.
  intros Hok Hp Ht. destruct (head_at_some prio rq Hok Hp) as [l Hl].
  unfold runqueue_enqueue_tail_raw, add_tail. rewrite Hl. simpl.
  destruct (add_ok rq prio t l (l ++ [t]) Hok Hl) as (R1 & R2 & R3); try done.
  { symmetry. apply Permutation_cons_append. }
  eauto 10.
Qed.

Lemma take_out_ok rq p t l1 l2 :
  rq_ok rq -> head_at p rq = Some (l1 ++ t :: l2) ->
  exists rq', take_out p t rq = Ok rq' /\ rq_ok rq' /\ changed rq rq' p (l1 ++ l2) /\
    queued rq ≡ₚ t :: queued rq' /\ count rq' = count rq - 1.
Proof.
  intros Hok Hp. pose proof Hp as (Hv & _)%head_at_valid. unfold SCHED_PRIO_COUNT in Hv.
  unfold take_out, clear_if_empty. rewrite (node_del_at rq p t l1 l2 Hok Hp).
  rewrite (head_at_set p p _ _ rq Hp), Z.eqb_refl.
  assert (HQ : queued rq ≡ₚ t :: queued (set_head p (l1 ++ l2) rq)).
  { pose proof (queued_set p _ (l1 ++ l2) rq Hp) as HP. rewrite <- Permutation_middle in HP.
    apply (Permutation_app_inv_l (l1 ++ l2)). rewrite <- HP. simpl.
    rewrite <- !Permutation_middle. apply Permutation_skip, Permutation_app_comm. }
  pose proof Hok as (Hl & ND & Hu & Hb & Hc). rewrite HQ in ND. apply NoDup_cons in ND as [_ ND].
  assert (Hcnt : count rq - 1 = Z.of_nat (length (queued (set_head p (l1 ++ l2) rq)))).
  { rewrite Hc, HQ. simpl. lia. }
  destruct (set_head_ok rq p _ (l1 ++ l2)
    (if decide (l1 ++ l2 = []) then clear_bit p (bitmap rq) else bitmap rq) (count rq - 1) Hok Hp)
    as [R1 R2]; try done.
  - case_decide; [apply clear_bit_u64; [lia | done] | done].
  - intros q Hq. destruct (Z.eqb_spec q p) as [-> | Hne]; case_decide as Hn.
    + rewrite clear_bit_spec, Z.eqb_refl, Hn by (lia || done). done.
    + rewrite (Hb p _ Hp), bool_decide_eq_false_2, bool_decide_eq_false_2; [done | done |].
      by destruct l1.
    + rewrite clear_bit_spec by (lia || done). destruct (Z.eqb_spec q p); [lia | done].
    + done.
  - destruct (l1 ++ l2) as [| x l] eqn:El; simpl; rewrite ?decide_True, ?decide_False in R1, R2 by done;
      eexists; (split; [done |]); split_and!; try done; apply R1.
Qed.

(** a thread moves from its list to the tail of another one, or of its own *)
Lemma move_ok rq p q t l1 l2 :
  rq_ok rq -> head_at p rq = Some (l1 ++ t :: l2) -> 0 <= q < 64 ->
  exists lq rq', (if q =? p then Some (l1 ++ l2) else head_at q rq) = Some lq /\
    (let! r := clear_if_empty p (node_del t rq) in add_tail q t r) = Ok rq' /\ rq_ok rq' /\
    (forall r, head_at r rq' = if r =? q then Some (lq ++ [t])
                               else if r =? p then Some (l1 ++ l2) else head_at r rq) /\
    queued rq' ≡ₚ queued rq.
Proof.
  intros Hok Hp Hq. destruct (take_out_ok rq p t l1 l2 Hok Hp) as (rq1 & E1 & Hok1 & Hch1 & HQ1 & _).
  unfold take_out in E1. destruct (clear_if_empty p (node_del t rq)) as [r | |]; try done.
  simpl in *. injection E1 as <-. destruct (head_at_some q _ Hok1 Hq) as [lq Hlq].
  destruct (add_ok _ q t lq (lq ++ [t]) Hok1 Hlq) as (R1 & R2 & R3).
  { symmetry. apply Permutation_cons_append. }
  { destruct Hok as (_ & ND & _). rewrite HQ1 in ND. by apply NoDup_cons in ND as [ND _]. }
  exists lq. unfold add_tail. change (head_at q r) with (head_at q (set_count (count r - 1) r)).
  rewrite Hlq. eexists. split; [by rewrite <- Hch1 |]. split; [done |]. split_and!.
  - revert R1. unfold set_count, set_bitmap, set_head. simpl.
    replace (count r - 1 + 1) with (count r) by lia. done.
  - intros k. transitivity (head_at k (set_bitmap (set_bit q (bitmap r))
      (set_head q (lq ++ [t]) (set_count (count r - 1) r)))); [done |].
    rewrite R2. destruct (k =? q); [done |]. by rewrite Hch1.
  - rewrite HQ1, <- R3. done.
Qed.

Lemma runqueue_init_ok : rq_ok runqueue_init.
Proof.
  split_and!; try done.
  - apply (bool_decide_unpack _). vm_compute. exact I.
  - intros p l (Hp & E)%head_at_valid. apply (lookup_replicate 64) in E as [-> _].
    apply Z.testbit_0_l.
Qed.

(** the highest non-empty priority *)
Lemma ctz_highest rq :
  rq_ok rq -> queued rq <> [] ->
  exists t l, head_at (ctzll (bitmap rq)) rq = Some (t :: l) /\
    forall q, 0 <= q < ctzll (bitmap rq) -> head_at q rq = Some [].
Proof.
  intros Hok Hne. pose proof Hok as (Hl & ND & Hu & Hb & Hc).
  destruct (queued rq) as [| t0 ts] eqn:Eq; [done |].
  destruct (queued_at_prio rq t0 Hok) as (p0 & l0 & Hp0 & Ht0); [rewrite Eq; lmem |].
  pose proof Hp0 as (Hv0 & _)%head_at_valid. unfold SCHED_PRIO_COUNT in Hv0.
  destruct (ctz_from_spec 64 0 (bitmap rq)) as (C1 & C2 & C3).
  { exists p0. split; [lia |]. rewrite (Hb p0 l0 Hp0), bool_decide_eq_false_2; [done |].
    intros ->. by inversion Ht0. }
  fold (ctzll (bitmap rq)) in *.
  assert (Hat : forall q, 0 <= q < 64 -> exists l, head_at q rq = Some l) by eauto using head_at_some.
  destruct (Hat (ctzll (bitmap rq))) as [l El]; [lia |].
  destruct l as [| t l].
  { rewrite (Hb _ _ El) in C2. done. }
  exists t, l. split; [done |]. intros q Hq. destruct (Hat q) as [lq Elq]; [lia |].
  rewrite Elq. specialize (C3 q ltac:(lia)). rewrite (Hb q lq Elq) in C3.
  apply negb_false_iff, bool_decide_eq_true in C3. by rewrite C3.
Qed.

Lemma count_zero rq : rq_ok rq -> count rq = 0 <-> queued rq = [].
Proof.
  intros (_ & _ & _ & _ & ->). destruct (queued rq); simpl; split; intros; try done; lia.
Qed.

(** what a removal from the highest priority leaves *)
Definition removed (rq rq' : runqueue_t) (o : option Z) (first : bool) : Prop :=
  match o with
  | None => queued rq = [] /\ rq' = rq
  | Some t =>
      queued rq ≡ₚ t :: queued rq' /\
      exists p l, head_at p rq = Some (if first then t :: l else l ++ [t]) /\
        (forall q, 0 <= q < p -> head_at q rq = Some []) /\ changed rq rq' p l
  end.

Lemma dequeue_ok rq :
  rq_ok rq -> exists o rq', runqueue_dequeue rq = Ok (o, rq') /\ rq_ok rq' /\ removed rq rq' o true.
Proof.
  intros Hok. unfold runqueue_dequeue. destruct (Z.eqb_spec (count rq) 0) as [E | E].
  { exists None, rq. do 2 (split; [done |]). split; [by apply count_zero | done]. }
  rewrite count_zero in E by done.
  destruct (ctz_highest rq Hok E) as (t & l & Hp & Hq). unfold runqueue_dequeue_raw. rewrite Hp.
  destruct (take_out_ok rq _ t [] l Hok Hp) as (rq' & -> & Hok' & Hch & HQ & _). simpl.
  exists (Some t), rq'. split_and!; try done. simpl. eauto 10.
Qed.

Lemma dequeue_tail_ok rq :
  rq_ok rq ->
  exists o rq', runqueue_dequeue_tail rq = Ok (o, rq') /\ rq_ok rq' /\ removed rq rq' o false.
Proof.
  intros Hok. unfold runqueue_dequeue_tail. destruct (Z.eqb_spec (count rq) 0) as [E | E].
  { exists None, rq. do 2 (split; [done |]). split; [by apply count_zero | done]. }
  rewrite count_zero in E by done.
  destruct (ctz_highest rq Hok E) as (t0 & l0 & Hp & Hq). unfold runqueue_dequeue_tail_raw. rewrite Hp.
  destruct (exists_last (l := t0 :: l0)) as (l & t & El); [done |]. rewrite El in *. rewrite last_snoc.
  destruct (take_out_ok rq _ t l [] Hok Hp) as (rq' & -> & Hok' & Hch & HQ & _). simpl.
  rewrite app_nil_r in Hch. exists (Some t), rq'. split_and!; try done. simpl. eauto 10.
Qed.

Lemma find_split (f : Z -> bool) l t :
  List.find f l = Some t -> exists l1 l2, l = l1 ++ t :: l2 /\ f t = true /\ Forall (fun x => f x = false) l1.
Proof.
  induction l as [| x l IH]; simpl; [done |]. destruct (f x) eqn:Ex.
  - intros [= <-]. by exists [], l.
  - intros E. destruct (IH E) as (l1 & l2 & -> & Ht & HF). exists (x :: l1), l2.
    split_and!; try done. by constructor.
Qed.

Lemma find_none (f : Z -> bool) l : List.find f l = None <-> Forall (fun x => f x = false) l.
Proof.
  induction l as [| x l IH]; simpl; [split; done |]. rewrite Forall_cons, <- IH.
  destruct (f x); split; [done | by intros [? _] | done | tauto].
Qed.

Lemma dequeue_cond_ok n p cond rq :
  rq_ok rq -> 0 <= p -> p + Z.of_nat n = 64 ->
  exists o rq', dequeue_cond n p cond rq = Ok (o, rq') /\ rq_ok rq' /\
    match o with
    | None => rq' = rq /\ forall q t, p <= q -> at_prio rq q t -> cond t = false
    | Some t => cond t = true /\ queued rq ≡ₚ t :: queued rq' /\
        exists q, at_prio rq q t /\
          forall q' t', p <= q' < q -> at_prio rq q' t' -> cond t' = false
    end.
Proof.
  intros Hok. revert p. induction n as [| n IH]; intros p Hp Hn; simpl.
  { exists None, rq. split_and!; try done. intros q t Hq (l & (Hv & _)%head_at_valid & _).
    unfold SCHED_PRIO_COUNT in Hv. lia. }
  destruct (head_at_some p rq Hok) as [l El]; [lia |]. rewrite El.
  destruct (List.find cond l) as [t |] eqn:Ef.
  - apply find_split in Ef as (l1 & l2 & -> & Ht & _).
    destruct (take_out_ok rq p t l1 l2 Hok El) as (rq' & -> & Hok' & _ & HQ & _). simpl.
    exists (Some t), rq'. split_and!; try done. exists p. split; [| intros; lia].
    eexists. split; [done | lmem].
  - apply find_none in Ef. rewrite Forall_forall in Ef.
    assert (Hp0 : forall t, at_prio rq p t -> cond t = false).
    { intros t (l' & El' & Ht). rewrite El in El'. injection El' as <-. by apply Ef. }
    destruct (IH (p + 1)) as (o & rq' & E & Hok' & Ho); [lia | lia |]. exists o, rq'.
    split_and!; try done. destruct o as [t |].
    + destruct Ho as (H1 & H2 & q & H3 & H4). split_and!; try done. exists q. split; [done |].
      intros q' t' Hq' Ht'. destruct (decide (q' = p)) as [-> |]; [auto | apply (H4 q'); [lia | done]].
    + destruct Ho as (-> & Ho). split; [done |]. intros q t Hq Ht.
      destruct (decide (q = p)) as [-> |]; [auto | apply (Ho q); [lia | done]].
Qed.

(** ** Theorems *)

(** dequeuing respects priority and arrival order. On a well-formed queue
    [runqueue_dequeue] and [runqueue_dequeue_tail] return NULL exactly when it
    is empty, and otherwise take the first (respectively the last) thread of
    the highest non-empty priority; exactly that thread leaves the queue, and
    the bitmap, the count and the other lists stay consistent. *)
Lemma runqueue_dequeue_highest rq :
  rq_ok rq ->
  exists o rq' o2 rq2,
    runqueue_dequeue rq = Ok (o, rq') /\ rq_ok rq' /\ removed rq rq' o true /\
    runqueue_dequeue_tail rq = Ok (o2, rq2) /\ rq_ok rq2 /\ removed rq rq2 o2 false /\
    (o = None <-> queued rq = []) /\ (o2 = None <-> queued rq = []).
Proof.
  intros Hok. destruct (dequeue_ok rq Hok) as (o & rq' & E1 & H1 & R1).
  destruct (dequeue_tail_ok rq Hok) as (o2 & rq2 & E2 & H2 & R2).
  assert (Hnone : forall o rq' b, removed rq rq' o b -> (o = None <-> queued rq = [])).
  { intros [t |] rqx b; simpl; [| tauto]. intros [HP _]. split; [done |]. intros E.
    rewrite E in HP. by apply Permutation_nil_cons in HP. }
  exists o, rq', o2, rq2. split_and!; eauto; by eapply Hnone.
Qed.

Definition ex_rq : runqueue_t :=
  mk_rq (<[7%nat := [11; 12; 13]]> (<[40%nat := [9]]> (replicate 64 []))) (2 ^ 7 + 2 ^ 40) 4.

Lemma ex_rq_ok : rq_ok ex_rq.
Proof.
  destruct (enqueue_tail_ok runqueue_init 7 11 runqueue_init_ok) as (l1 & r1 & _ & E1 & H1 & _ & Q1);
    [lia | vm_compute; intros H; inversion H |].
  destruct (enqueue_tail_ok r1 7 12 H1) as (l2 & r2 & _ & E2 & H2 & _ & Q2);
    [lia | rewrite Q1; apply (bool_decide_unpack _); vm_compute; exact I |].
  destruct (enqueue_tail_ok r2 40 9 H2) as (l3 & r3 & _ & E3 & H3 & _ & Q3);
    [lia | rewrite Q2, Q1; apply (bool_decide_unpack _); vm_compute; exact I |].
  destruct (enqueue_tail_ok r3 7 13 H3) as (l4 & r4 & _ & E4 & H4 & _ & _);
    [lia | rewrite Q3, Q2, Q1; apply (bool_decide_unpack _); vm_compute; exact I |].
  vm_compute in E1. injection E1 as <-. vm_compute in E2. injection E2 as <-.
  vm_compute in E3. injection E3 as <-. vm_compute in E4. injection E4 as <-. exact H4.
Defined.

Lemma runqueue_dequeue_highest_witness :
  exists o rq', runqueue_dequeue ex_rq = Ok (o, rq') /\ rq_ok rq' /\ o = Some 11.
Proof.
  destruct (runqueue_dequeue_highest ex_rq ex_rq_ok) as (o & rq' & _ & _ & E & H & _).
  exists o, rq'. split_and!; [exact E | exact H |]. vm_compute in E. injection E as <- _. reflexivity.
Defined.
