(* ===== verification/Sched.v ===== *)
(** * Threads, CPUs and the scheduler (src/kernel/sched.c, thread.h, arch/x86_64/cpu.c, cpu.h)

    [machine] holds the threads by address, the contexts of the CPUs and the
    tick counter.  A scheduler operation runs on one CPU with interrupts off
    and under the queue lock, so it is one step; [get_thread] and [get_cpu] are
    pointer dereferences and [Fault] on a dangling one.  [__schedule] returns
    the pair of threads it switches between: the register switch itself and the
    RCU hook at that point (Rcu.v) follow from it. *)

From S2P Require Import Prelude RunQueue.

(** ** Data *)

Inductive thread_status_t : Type :=
  | THREAD_READY
  | THREAD_RUNNING
  | THREAD_BLOCKED
  | THREAD_SLEEPING
  | THREAD_ZOMBIE
  | THREAD_EXITED.

#[export] Instance thread_status_eq_dec : EqDecision thread_status_t.
Proof. solve_decision. Defined.

Definition SCHED_DEFAULT_PRIO : Z := 32.
Definition SCHED_PRIO_NONE : Z := SCHED_PRIO_COUNT.
Definition ZOMBIE_MAX : Z := 0.

Record thread := mk_thread {
  status : thread_status_t; priority : Z; base_priority : Z; pi_donations : list Z;
  target_cpu : Z; wakeup_ticks : Z; ticks : Z; tpreempts : Z; pml4_phys : Z }.

Record cpu_context := mk_cpu {
  current : Z; idle : Z; runqueue : runqueue_t; zombiequeue : runqueue_t;
  preempt_count : Z; need_resched : bool; preempts : Z; active_pml4_phys : Z }.

Record machine := mk_machine {
  threads : gmap Z thread; cpus : gmap Z cpu_context; g_ticks : Z }.

(** field updates *)
Definition with_status (s : thread_status_t) (t : thread) : thread :=
  mk_thread s (priority t) (base_priority t) (pi_donations t) (target_cpu t) (wakeup_ticks t)
    (ticks t) (tpreempts t) (pml4_phys t).
Definition with_priority (p : Z) (t : thread) : thread :=
  mk_thread (status t) p (base_priority t) (pi_donations t) (target_cpu t) (wakeup_ticks t)
    (ticks t) (tpreempts t) (pml4_phys t).
Definition with_wakeup (w : Z) (t : thread) : thread :=
  mk_thread (status t) (priority t) (base_priority t) (pi_donations t) (target_cpu t) w
    (ticks t) (tpreempts t) (pml4_phys t).
Definition with_ticks (n : Z) (t : thread) : thread :=
  mk_thread (status t) (priority t) (base_priority t) (pi_donations t) (target_cpu t)
    (wakeup_ticks t) n (tpreempts t) (pml4_phys t).
Definition with_tpreempts (n : Z) (t : thread) : thread :=
  mk_thread (status t) (priority t) (base_priority t) (pi_donations t) (target_cpu t)
    (wakeup_ticks t) (ticks t) n (pml4_phys t).

Definition with_current (t : Z) (c : cpu_context) : cpu_context :=
  mk_cpu t (idle c) (runqueue c) (zombiequeue c) (preempt_count c) (need_resched c)
    (preempts c) (active_pml4_phys c).
Definition with_rq (rq : runqueue_t) (c : cpu_context) : cpu_context :=
  mk_cpu (current c) (idle c) rq (zombiequeue c) (preempt_count c) (need_resched c)
    (preempts c) (active_pml4_phys c).
Definition with_zq (zq : runqueue_t) (c : cpu_context) : cpu_context :=
  mk_cpu (current c) (idle c) (runqueue c) zq (preempt_count c) (need_resched c)
    (preempts c) (active_pml4_phys c).
Definition with_preempt_count (n : Z) (c : cpu_context) : cpu_context :=
  mk_cpu (current c) (idle c) (runqueue c) (zombiequeue c) n (need_resched c)
    (preempts c) (active_pml4_phys c).
Definition with_need_resched (b : bool) (c : cpu_context) : cpu_context :=
  mk_cpu (current c) (idle c) (runqueue c) (zombiequeue c) (preempt_count c) b
    (preempts c) (active_pml4_phys c).
Definition with_preempts (n : Z) (c : cpu_context) : cpu_context :=
  mk_cpu (current c) (idle c) (runqueue c) (zombiequeue c) (preempt_count c) (need_resched c)
    n (active_pml4_phys c).
Definition with_active (p : Z) (c : cpu_context) : cpu_context :=
  mk_cpu (current c) (idle c) (runqueue c) (zombiequeue c) (preempt_count c) (need_resched c)
    (preempts c) p.

Definition get_thread (t : Z) (m : machine) : res thread :=
  match threads m !! t with Some th => Ok th | None => Fault end.
Definition get_cpu (c : Z) (m : machine) : res cpu_context :=
  match cpus m !! c with Some ctx => Ok ctx | None => Fault end.
Definition put_thread (t : Z) (th : thread) (m : machine) : machine :=
  mk_machine (<[t := th]> (threads m)) (cpus m) (g_ticks m).
Definition put_cpu (c : Z) (ctx : cpu_context) (m : machine) : machine :=
  mk_machine (threads m) (<[c := ctx]> (cpus m)) (g_ticks m).

Definition thread_set_status (t : Z) (s : thread_status_t) (m : machine) : res machine :=
  let! th := get_thread t m in Ok (put_thread t (with_status s th) m).

(** ** Queues of a CPU *)

Definition MAX_CPUS : Z := 16.

(** the request part of [ipi_reschedule_cpu]; the interrupt only makes the
    other CPU look at it *)
Definition ipi_reschedule_cpu (c : Z) (m : machine) : machine :=
  if MAX_CPUS <=? c then m
  else
    match cpus m !! c with
    | None => m
    | Some ctx => put_cpu c (with_need_resched true ctx) m
    end.

Definition cpu_queue_check (c : Z) (th : thread) : res unit :=
  if c =? target_cpu th then Ok tt else Panic.

Definition cpu_enqueue (c t : Z) (m : machine) : res machine :=
  let! th := get_thread t m in
  let c := if c =? -1 then target_cpu th else c in
  let! _ := cpu_queue_check c th in
  let! ctx := get_cpu c m in
  let m := put_thread t (with_status THREAD_READY th) m in
  let! rq := runqueue_enqueue_raw (priority th) t (runqueue ctx) in
  Ok (ipi_reschedule_cpu c (put_cpu c (with_rq rq ctx) m)).

Definition cpu_enqueue_tail (c t : Z) (m : machine) : res machine :=
  let! th := get_thread t m in
  let! _ := cpu_queue_check c th in
  let! ctx := get_cpu c m in
  let m := put_thread t (with_status THREAD_READY th) m in
  let! rq := runqueue_enqueue_tail_raw (priority th) t (runqueue ctx) in
  Ok (ipi_reschedule_cpu c (put_cpu c (with_rq rq ctx) m)).

Definition cpu_dequeue (c : Z) (m : machine) : res (option Z * machine) :=
  let! ctx := get_cpu c m in
  let! (t, rq) := runqueue_dequeue (runqueue ctx) in
  Ok (t, put_cpu c (with_rq rq ctx) m).

Definition cpu_enqueue_zombie (c t : Z) (m : machine) : res machine :=
  let! th := get_thread t m in
  let! _ := cpu_queue_check c th in
  let! ctx := get_cpu c m in
  let m := put_thread t (with_status THREAD_READY th) m in
  let! zq := runqueue_enqueue_raw (priority th) t (zombiequeue ctx) in
  Ok (put_cpu c (with_zq zq ctx) m).

Definition cpu_dequeue_zombie (c : Z) (m : machine) : res (option Z * machine) :=
  let! ctx := get_cpu c m in
  let! (t, zq) := runqueue_dequeue (zombiequeue ctx) in
  Ok (t, put_cpu c (with_zq zq ctx) m).

Definition cpu_dequeue_zombie_tail (c : Z) (m : machine) : res (option Z * machine) :=
  let! ctx := get_cpu c m in
  let! (t, zq) := runqueue_dequeue_tail (zombiequeue ctx) in
  Ok (t, put_cpu c (with_zq zq ctx) m).

(** ** Choosing the next thread *)

Definition runnable (now : Z) (th : thread) : bool :=
  match status th with
  | THREAD_READY => true
  | THREAD_SLEEPING => wakeup_ticks th <=? now
  | _ => false
  end.

(** the walk over one priority's list *)
Fixpoint find_runnable (now : Z) (ths : gmap Z thread) (l : list Z) : res (option Z) :=
  match l with
  | [] => Ok None
  | t :: l =>
      match ths !! t with
      | None => Fault
      | Some th => if runnable now th then Ok (Some t) else find_runnable now ths l
      end
  end.

(** [while (bm)]: a priority without a runnable thread leaves the local copy
    of the bitmap; the result is the thread and its priority *)
Fixpoint scan (fuel : nat) (now : Z) (ths : gmap Z thread) (rq : runqueue_t) (bm : Z)
    : res (option (Z * Z)) :=
  match fuel with
  | O => Ok None
  | S fuel =>
      if bm =? 0 then Ok None
      else
        let prio := ctzll bm in
        match head_at prio rq with
        | None => Fault
        | Some l =>
            let! found := find_runnable now ths l in
            match found with
            | Some t => Ok (Some (t, prio))
            | None => scan fuel now ths rq (clear_bit prio bm)
            end
        end
  end.

#[global] Arguments scan : simpl never.

(** the chosen thread moves to the tail of its list *)
Definition rotate (p t : Z) (rq : runqueue_t) : res runqueue_t :=
  let! rq := clear_if_empty p (node_del t rq) in add_tail p t rq.

(** the choice: the candidate, or the running thread when it is strictly
    better than every candidate; [None] is no thread at all *)
Definition choose (prev : Z) (ctx : cpu_context) (pth : thread) (found : option (Z * Z))
    : option (Z * Z) :=
  if negb (prev =? idle ctx) && bool_decide (status pth = THREAD_RUNNING) &&
     match found with None => true | Some (_, p) => priority pth <? p end
  then Some (prev, -1)
  else found.

Definition pick_next (c : Z) (m : machine) : res (Z * machine) :=
  let! ctx := get_cpu c m in
  if count (runqueue ctx) =? 0 then Ok (idle ctx, m)
  else
    let prev := current ctx in
    let! found := scan 64 (g_ticks m) (threads m) (runqueue ctx) (bitmap (runqueue ctx)) in
    let! pth := get_thread prev m in
    let! (next, m) :=
      match choose prev ctx pth found with
      | Some (t, p) =>
          if negb (t =? prev) then
            let! rq := rotate p t (runqueue ctx) in
            Ok (t, put_cpu c (with_rq rq ctx) m)
          else Ok (t, m)
      | None => Ok (idle ctx, m)
      end in
    let! m := thread_set_status next THREAD_RUNNING m in
    let! pth := get_thread prev m in
    let pth :=
      if negb (prev =? next) && bool_decide (status pth = THREAD_RUNNING)
      then with_status THREAD_READY pth else pth in
    Ok (next, put_thread prev (with_ticks (ticks pth + 1) pth) m).

(** a thread that has exited moves to the zombie queue; while zombies wait the
    idle thread, which reaps them, goes first *)
Definition sched_idle_zombie (c : Z) (m : machine) : res (option Z * machine) :=
  let! ctx := get_cpu c m in
  let prev := current ctx in
  let! pth := get_thread prev m in
  let! ctx :=
    if bool_decide (status pth = THREAD_ZOMBIE) then
      let! rq := take_out (priority pth) prev (runqueue ctx) in
      let! zq := runqueue_enqueue_raw (priority pth) prev (zombiequeue ctx) in
      Ok (with_zq zq (with_rq rq ctx))
    else Ok ctx in
  let m := put_cpu c ctx m in
  if count (zombiequeue ctx) <=? ZOMBIE_MAX then Ok (None, m) else Ok (Some (idle ctx), m).

(** ** Switching *)

Section switch.
(** [arch_kernel_root_phys()]: the kernel's page table root *)
Variable kernel_root : Z.

Definition __switch_mm (c prev next : Z) (m : machine) : res machine :=
  let! ctx := get_cpu c m in
  let! nth := get_thread next m in
  if negb (pml4_phys nth =? 0) then
    if negb (active_pml4_phys ctx =? pml4_phys nth)
    then Ok (put_cpu c (with_active (pml4_phys nth) ctx) m) else Ok m
  else
    let! pth := get_thread prev m in
    if bool_decide (status pth = THREAD_ZOMBIE) then
      if negb (active_pml4_phys ctx =? kernel_root)
      then Ok (put_cpu c (with_active kernel_root ctx) m) else Ok m
    else Ok m.

(** the switch, if one happens: from the first thread to the second *)
Definition __schedule (preemptive : bool) (c : Z) (m : machine)
    : res (option (Z * Z) * machine) :=
  let! ctx := get_cpu c m in
  if negb (preempt_count ctx =? 0) then if preemptive then Ok (None, m) else Panic
  else
    let m := put_cpu c (with_need_resched false ctx) m in
    let prev := current ctx in
    let! (z, m) := sched_idle_zombie c m in
    let! (next, m) := match z with Some t => Ok (t, m) | None => pick_next c m end in
    if next =? prev then Ok (None, m)
    else
      let! m := __switch_mm c prev next m in
      let! ctx := get_cpu c m in
      Ok (Some (prev, next), put_cpu c (with_current next ctx) m).

Definition schedule (c : Z) (m : machine) : res (option (Z * Z) * machine) :=
  __schedule false c m.

Definition __schedule_irq (c : Z) (m : machine) : res (option (Z * Z) * machine) :=
  __schedule true c m.

Definition __schedule_preempt (c : Z) (m : machine) : res (option (Z * Z) * machine) :=
  let! ctx := get_cpu c m in
  let m := put_cpu c (with_preempts (preempts ctx + 1) ctx) m in
  let! th := get_thread (current ctx) m in
  __schedule true c (put_thread (current ctx) (with_tpreempts (tpreempts th + 1) th) m).

(** the part before the thread loses the CPU; [None] is the early return of -1 *)
Definition schedule_timeout (t : Z) (c : Z) (m : machine)
    : res (option (option (Z * Z)) * machine) :=
  let! ctx := get_cpu c m in
  let! th := get_thread (current ctx) m in
  if (t =? 0) || negb (bool_decide (status th = THREAD_RUNNING)) then Ok (None, m)
  else
    let th := with_wakeup (u64 (g_ticks m + t)) (with_status THREAD_SLEEPING th) in
    let! (sw, m) := __schedule false c (put_thread (current ctx) th m) in
    Ok (Some sw, m).

(** a thread's own exit, up to the switch that never comes back *)
Definition thread_exit (c : Z) (m : machine) : res (option (Z * Z) * machine) :=
  let! ctx := get_cpu c m in
  if negb (preempt_count ctx =? 0) then Panic
  else
    let! m := thread_set_status (current ctx) THREAD_ZOMBIE m in
    schedule c m.

(** ** Preemption control *)

Definition preempt_disable (c : Z) (m : machine) : res machine :=
  let! ctx := get_cpu c m in
  Ok (put_cpu c (with_preempt_count (preempt_count ctx + 1) ctx) m).

Definition preempt_enable (c : Z) (m : machine) : res (option (Z * Z) * machine) :=
  let! ctx := get_cpu c m in
  if preempt_count ctx =? 0 then Panic
  else
    let ctx := with_preempt_count (preempt_count ctx - 1) ctx in
    let m := put_cpu c ctx m in
    if (preempt_count ctx =? 0) && need_resched ctx then __schedule_preempt c m
    else Ok (None, m).

Definition check_need_schedule (c : Z) (m : machine) : bool :=
  match cpus m !! c with
  | None => false
  | Some ctx =>
      if (current ctx =? 0) || (idle ctx =? 0) then false
      else if negb (preempt_count ctx =? 0) then false
      else need_resched ctx
  end.
End switch.

Definition TIMER_HZ : Z := 100.

(** the scheduler's part of the tick: CPU 0 advances the clock, and every
    tenth of a second each CPU asks for a reschedule *)
Definition timer_handler (c : Z) (m : machine) : res machine :=
  let m := if c =? 0 then mk_machine (threads m) (cpus m) (g_ticks m + 1) else m in
  if g_ticks m mod (TIMER_HZ / 10) =? 0 then
    let! ctx := get_cpu c m in
    Ok (put_cpu c (with_need_resched true ctx) m)
  else Ok m.

(** the reaping loop of the idle thread: [n] zombies were counted; the result
    lists the threads handed to [thread_destroy] *)
Fixpoint reap_zombies (n : nat) (c : Z) (m : machine) : res (list Z * machine) :=
  match n with
  | O => Ok ([], m)
  | S n =>
      let! (o, m) := cpu_dequeue_zombie_tail c m in
      match o with
      | None => Ok ([], m)
      | Some t => let! (l, m) := reap_zombies n c m in Ok (t :: l, m)
      end
  end.

(** ** The invariant of a CPU *)

Definition in_queue (ths : gmap Z thread) (c : Z) (rq : runqueue_t) : Prop :=
  forall p t, at_prio rq p t -> exists th, ths !! t = Some th /\ priority th = p /\ target_cpu th = c.

(** the queues are well formed, hold disjoint sets of known threads of this CPU
    at their priority, and contain the current thread unless it is idle;
    while zombies wait the CPU idles *)
Definition queues_ok (c : Z) (ths : gmap Z thread) (ctx : cpu_context) : Prop :=
  rq_ok (runqueue ctx) /\ rq_ok (zombiequeue ctx) /\
  in_queue ths c (runqueue ctx) /\ in_queue ths c (zombiequeue ctx) /\
  (forall t, t ∈ queued (runqueue ctx) -> t ∉ queued (zombiequeue ctx)) /\
  (exists th, ths !! idle ctx = Some th) /\
  (idle ctx ∉ queued (runqueue ctx)) /\ (idle ctx ∉ queued (zombiequeue ctx)) /\
  (current ctx = idle ctx \/ current ctx ∈ queued (runqueue ctx)) /\
  (queued (zombiequeue ctx) <> [] -> current ctx = idle ctx).

(** on this CPU only the current thread runs or has just exited, queued zombies
    have exited, and the idle thread neither blocks nor exits *)
Definition status_ok (ths : gmap Z thread) (ctx : cpu_context) : Prop :=
  (forall t th, t ∈ queued (runqueue ctx) -> ths !! t = Some th ->
     status th = THREAD_RUNNING \/ status th = THREAD_ZOMBIE -> t = current ctx) /\
  (forall t th, t ∈ queued (zombiequeue ctx) -> ths !! t = Some th -> status th = THREAD_ZOMBIE) /\
  (forall th, ths !! idle ctx = Some th ->
     status th = THREAD_READY \/ status th = THREAD_RUNNING).

Definition sched_ok (c : Z) (m : machine) : Prop :=
  exists ctx, cpus m !! c = Some ctx /\ queues_ok c (threads m) ctx /\ status_ok (threads m) ctx.

(** ** The scan *)

Definition run_at (now : Z) (ths : gmap Z thread) (t : Z) : bool :=
  match ths !! t with Some th => runnable now th | None => false end.

(** no thread of a list, or waiting at a priority, is runnable *)
Definition none_run (now : Z) (ths : gmap Z thread) (l : list Z) : Prop :=
  Forall (fun t => run_at now ths t = false) l.

Lemma find_runnable_ok now ths l :
  Forall (fun t => is_Some (ths !! t)) l ->
  exists o, find_runnable now ths l = Ok o /\
    match o with
    | Some t => exists l1 l2, l = l1 ++ t :: l2 /\ run_at now ths t = true /\ none_run now ths l1
    | None => none_run now ths l
    end.
Proof.
  induction 1 as [| t l [th Ht] HF (o & E & Ho)]; simpl; [by exists None; split; [| constructor] |].
  rewrite Ht. assert (Hr : run_at now ths t = runnable now th) by (unfold run_at; by rewrite Ht).
  destruct (runnable now th).
  - exists (Some t). split; [done |]. exists [], l. split_and!; try done. constructor.
  - exists o. split; [done |]. destruct o as [u |].
    + destruct Ho as (l1 & l2 & -> & Hu & Hl1). exists (t :: l1), l2. split_and!; try done.
      by constructor.
    + by constructor.
Qed.

Lemma scan_S fuel now ths rq bm :
  scan (S fuel) now ths rq bm =
    if bm =? 0 then Ok None
    else
      match head_at (ctzll bm) rq with
      | None => Fault
      | Some l =>
          let! found := find_runnable now ths l in
          match found with
          | Some t => Ok (Some (t, ctzll bm))
          | None => scan fuel now ths rq (clear_bit (ctzll bm) bm)
          end
      end.
Proof. reflexivity. Qed.

Lemma scan_ok now ths rq c fuel k bm :
  rq_ok rq -> in_queue ths c rq -> is_u64 bm -> 0 <= k -> 64 <= Z.of_nat fuel + k ->
  (forall q, 0 <= q < 64 -> Z.testbit bm q = (k <=? q) && Z.testbit (bitmap rq) q) ->
  (forall q l, q < k -> head_at q rq = Some l -> none_run now ths l) ->
  exists o, scan fuel now ths rq bm = Ok o /\
    match o with
    | Some (t, p) =>
        exists l1 l2, head_at p rq = Some (l1 ++ t :: l2) /\ run_at now ths t = true /\
          none_run now ths l1 /\ forall q l, q < p -> head_at q rq = Some l -> none_run now ths l
    | None => forall q l, head_at q rq = Some l -> none_run now ths l
    end.
Proof.
  intros Hok Hin. revert k bm. induction fuel as [| fuel IH]; intros k bm Hu Hk Hf Hbm Hno.
  { exists None. split; [done |]. intros q l Hq. apply (Hno q); [| done].
    apply head_at_valid in Hq as [Hv _]. unfold SCHED_PRIO_COUNT in Hv. lia. }
  rewrite scan_S.
  assert (Hempty : forall q l, head_at q rq = Some l -> k <= q -> Z.testbit bm q = false -> l = []).
  { intros q l Hq Hkq Hb. pose proof Hq as [Hv _]%head_at_valid. unfold SCHED_PRIO_COUNT in Hv.
    rewrite Hbm in Hb by lia. destruct (Z.leb_spec k q); [| lia]. simpl in Hb.
    destruct Hok as (_ & _ & _ & Hbits & _). rewrite (Hbits q l Hq) in Hb.
    by apply negb_false_iff, bool_decide_eq_true in Hb. }
  destruct (Z.eqb_spec bm 0) as [-> | Hne].
  { exists None. split; [done |]. intros q l Hq. destruct (decide (q < k)); [by apply (Hno q) |].
    rewrite (Hempty q l Hq); [constructor | lia | apply Z.testbit_0_l]. }
  destruct (ctz_from_spec 64 0 bm) as (C1 & C2 & C3).
  { exists (Z.log2 bm). rewrite Z.bit_log2 by (destruct Hu; lia). split; [| done].
    split; [apply Z.log2_nonneg |]. apply Z.log2_lt_pow2; destruct Hu; simpl; lia. }
  fold (ctzll bm) in *. set (p := ctzll bm) in *. change (0 + Z.of_nat 64) with 64 in C1.
  destruct (head_at_some p rq Hok) as [l El]; [lia |]. rewrite El.
  assert (Hkp : k <= p).
  { rewrite Hbm in C2 by lia. apply andb_true_iff in C2 as [C2 _]. by apply Z.leb_le. }
  assert (Hlt : forall q lq, q < p -> head_at q rq = Some lq -> none_run now ths lq).
  { intros q lq Hq Hlq. destruct (decide (q < k)); [by apply (Hno q) |].
    pose proof Hlq as [Hv _]%head_at_valid. unfold SCHED_PRIO_COUNT in Hv.
    rewrite (Hempty q lq Hlq); [constructor | lia | apply C3; lia]. }
  destruct (find_runnable_ok now ths l) as (o & -> & Ho).
  { apply Forall_forall. intros t Ht. destruct (Hin p t) as (th & -> & _); [by exists l | by eexists]. }
  simpl. destruct o as [t |].
  - exists (Some (t, p)). split; [done |]. destruct Ho as (l1 & l2 & -> & Ht & Hl1).
    exists l1, l2. by split_and!.
  - apply (IH (p + 1)); try lia.
    + apply clear_bit_u64; [lia | done].
    + intros q Hq. rewrite clear_bit_spec, Hbm by (lia || done).
      destruct (Z.eqb_spec q p), (Z.leb_spec k q), (Z.leb_spec (p + 1) q); simpl; try done; try lia.
      destruct (Z.testbit (bitmap rq) q) eqn:Eb; [| done].
      exfalso. assert (Z.testbit bm q = true).
      { rewrite Hbm, Eb by lia. destruct (Z.leb_spec k q); [done | lia]. }
      rewrite C3 in * by lia. done.
    + intros q lq Hq Hlq. destruct (decide (q = p)) as [-> |]; [| apply (Hlt q); [lia | done]].
      rewrite El in Hlq. by injection Hlq as <-.
Qed.

Lemma rotate_ok rq p t l1 l2 :
  rq_ok rq -> head_at p rq = Some (l1 ++ t :: l2) ->
  exists rq', rotate p t rq = Ok rq' /\ rq_ok rq' /\ changed rq rq' p (l1 ++ l2 ++ [t]) /\
    queued rq' ≡ₚ queued rq.
Proof.
  intros Hok Hp. pose proof Hp as (Hv & _)%head_at_valid. unfold SCHED_PRIO_COUNT in Hv.
  destruct (move_ok rq p p t l1 l2 Hok Hp Hv) as (lq & rq' & Hlq & E & Hok' & Hch & HQ).
  rewrite Z.eqb_refl in Hlq. injection Hlq as <-. exists rq'. split_and!; try done.
  intros q. rewrite Hch, <- app_assoc. by destruct (q =? p).
Qed.

(** ** Choosing the next thread *)

(** the same thread, and the same threads, up to status and accounting *)
Definition same_thread (th th' : thread) : Prop :=
  th' = with_ticks (ticks th') (with_status (status th') th).

Definition same_threads (ths ths' : gmap Z thread) : Prop :=
  forall t, match ths !! t, ths' !! t with
            | Some th, Some th' => same_thread th th'
            | None, None => True
            | _, _ => False
            end.

Lemma same_thread_fields th th' :
  same_thread th th' -> priority th' = priority th /\ target_cpu th' = target_cpu th /\
    wakeup_ticks th' = wakeup_ticks th /\ base_priority th' = base_priority th /\
    pi_donations th' = pi_donations th.
Proof. intros ->. done. Qed.

Lemma same_threads_refl ths : same_threads ths ths.
Proof. intros t. destruct (ths !! t) as [th |]; [by destruct th | done]. Qed.

Lemma same_threads_trans a b c : same_threads a b -> same_threads b c -> same_threads a c.
Proof.
  intros H1 H2 t. specialize (H1 t). specialize (H2 t).
  destruct (a !! t), (b !! t), (c !! t); try done. unfold same_thread in *. by rewrite H2, H1.
Qed.

Lemma same_threads_insert ths t th th' :
  ths !! t = Some th -> same_thread th th' -> same_threads ths (<[t := th']> ths).
Proof.
  intros Ht HS u. destruct (decide (u = t)) as [-> |].
  - by rewrite lookup_insert_eq, Ht.
  - rewrite lookup_insert_ne by done. apply (same_threads_refl ths u).
Qed.

Lemma same_thread_status s th : same_thread th (with_status s th).
Proof. by destruct th. Qed.

Lemma same_thread_ticks n s th : same_thread th (with_ticks n (with_status s th)).
Proof. by destruct th. Qed.

Lemma same_threads_fwd ths ths' t th :
  same_threads ths ths' -> ths !! t = Some th -> exists th', ths' !! t = Some th' /\ same_thread th th'.
Proof. intros HS Ht. specialize (HS t). rewrite Ht in HS. by destruct (ths' !! t); eauto. Qed.

Lemma in_queue_same ths ths' c rq rq' :
  in_queue ths c rq -> same_threads ths ths' ->
  (forall p t, at_prio rq' p t -> at_prio rq p t) -> in_queue ths' c rq'.
Proof.
  intros Hin HS Hat p t Ht. destruct (Hin p t (Hat p t Ht)) as (th & E & Hp & Hc).
  destruct (same_threads_fwd _ _ _ _ HS E) as (th' & E' & (? & ? & _)%same_thread_fields).
  exists th'. split_and!; [done | |]; congruence.
Qed.

Lemma changed_at rq rq' p l l' q t :
  changed rq rq' p l' -> head_at p rq = Some l -> (forall x, x ∈ l' -> x ∈ l) ->
  at_prio rq' q t -> at_prio rq q t.
Proof.
  intros Hch Hp Hsub (lq & Hq & Ht). rewrite Hch in Hq. destruct (Z.eqb_spec q p) as [-> |].
  - injection Hq as <-. exists l. auto.
  - by exists lq.
Qed.

(** how [pick_next] chooses, in terms of the queue it found *)
Inductive choice (now : Z) (ths : gmap Z thread) (ctx : cpu_context) (pth : thread)
    : Z -> runqueue_t -> Prop :=
  | choice_idle :
      (forall q l, head_at q (runqueue ctx) = Some l -> none_run now ths l) ->
      (current ctx = idle ctx \/ status pth <> THREAD_RUNNING) ->
      choice now ths ctx pth (idle ctx) (runqueue ctx)
  | choice_keep :
      current ctx <> idle ctx -> status pth = THREAD_RUNNING ->
      (forall q l, q <= priority pth -> head_at q (runqueue ctx) = Some l -> none_run now ths l) ->
      choice now ths ctx pth (current ctx) (runqueue ctx)
  | choice_queued t p l1 l2 rq' :
      head_at p (runqueue ctx) = Some (l1 ++ t :: l2) -> run_at now ths t = true ->
      none_run now ths l1 ->
      (forall q l, q < p -> head_at q (runqueue ctx) = Some l -> none_run now ths l) ->
      (current ctx <> idle ctx -> status pth = THREAD_RUNNING -> p <= priority pth) ->
      rq_ok rq' -> queued rq' ≡ₚ queued (runqueue ctx) ->
      (if t =? current ctx then rq' = runqueue ctx
       else changed (runqueue ctx) rq' p (l1 ++ l2 ++ [t])) ->
      choice now ths ctx pth t rq'.

(** the statuses [pick_next] leaves *)
Definition next_status (prev next : Z) (t : Z) (s : thread_status_t) : thread_status_t :=
  if decide (t = next) then THREAD_RUNNING
  else if decide (t = prev) then (if decide (s = THREAD_RUNNING) then THREAD_READY else s)
  else s.

Lemma choice_same now ths ctx pth next rq' p t :
  choice now ths ctx pth next rq' -> at_prio rq' p t -> at_prio (runqueue ctx) p t.
Proof.
  intros Hc Hat. destruct Hc as [| | t' p' l1 l2 rq' Hp _ _ _ _ _ _ Hch]; try done.
  destruct (Z.eqb_spec t' (current ctx)); [by subst |].
  apply (changed_at _ _ _ _ _ p t Hch Hp); [| done]. intros x. lmem.
Qed.

Lemma choice_ok now ths ctx pth next rq' :
  rq_ok (runqueue ctx) -> choice now ths ctx pth next rq' ->
  rq_ok rq' /\ queued rq' ≡ₚ queued (runqueue ctx).
Proof. intros Hok Hc. by destruct Hc. Qed.

Lemma current_exists c ths ctx : queues_ok c ths ctx -> exists th, ths !! current ctx = Some th.
Proof.
  intros (Hr & _ & Hin & _ & _ & [th Hi] & _ & _ & [-> | Hq] & _); [eauto |].
  destruct (queued_at_prio _ _ Hr Hq) as [p Hp]. destruct (Hin p _ Hp) as (th' & ? & _). eauto.
Qed.

Lemma with_rq_id ctx : with_rq (runqueue ctx) ctx = ctx.
Proof. by destruct ctx. Qed.

(** the choice itself, and the queue it leaves *)
Lemma choose_ok c m ctx pth :
  cpus m !! c = Some ctx -> queues_ok c (threads m) ctx -> threads m !! current ctx = Some pth ->
  exists found next rq',
    scan 64 (g_ticks m) (threads m) (runqueue ctx) (bitmap (runqueue ctx)) = Ok found /\
    match choose (current ctx) ctx pth found with
    | Some (t, p) =>
        if negb (t =? current ctx) then
          let! rq := rotate p t (runqueue ctx) in Ok (t, put_cpu c (with_rq rq ctx) m)
        else Ok (t, m)
    | None => Ok (idle ctx, m)
    end = Ok (next, put_cpu c (with_rq rq' ctx) m) /\
    choice (g_ticks m) (threads m) ctx pth next rq'.
Proof.
  intros Hc Hq Hp. pose proof Hq as (Hr & _ & Hin & _).
  assert (Hm : put_cpu c (with_rq (runqueue ctx) ctx) m = m).
  { rewrite with_rq_id. unfold put_cpu. rewrite insert_id by done. by destruct m. }
  destruct (scan_ok (g_ticks m) (threads m) (runqueue ctx) c 64 0 (bitmap (runqueue ctx)))
    as (found & Es & Hf); try done; try apply Hr; try lia.
  { intros q Hv. destruct (Z.leb_spec 0 q); [done | lia]. }
  { intros q l Hlt [Hv _]%head_at_valid. unfold SCHED_PRIO_COUNT in Hv. lia. }
  exists found. unfold choose.
  destruct (negb (current ctx =? idle ctx) && bool_decide (status pth = THREAD_RUNNING) &&
    match found with None => true | Some (_, p) => priority pth <? p end) eqn:Ek.
  - apply andb_true_iff in Ek as [[Ei%negb_true_iff%Z.eqb_neq Er%bool_decide_eq_true]%andb_true_iff Ep].
    exists (current ctx), (runqueue ctx). rewrite Z.eqb_refl, Hm. split_and!; try done.
    apply choice_keep; try done. intros q l Hle Hl. destruct found as [[t p] |]; [| by apply (Hf q)].
    destruct Hf as (l1 & l2 & _ & _ & _ & Hf). apply (Hf q); [zbool; done || lia | done].
  - assert (Hrun : current ctx <> idle ctx -> status pth = THREAD_RUNNING ->
      match found with None => False | Some (_, p) => p <= priority pth end).
    { intros H1 H2. rewrite bool_decide_true in Ek by done. apply Z.eqb_neq in H1. rewrite H1 in Ek.
      simpl in Ek. destruct found as [[t p] |]; [zbool; done || lia | done]. }
    destruct found as [[t p] |].
    + destruct Hf as (l1 & l2 & Hl & Hrt & Hl1 & Hlow).
      destruct (rotate_ok _ p t l1 l2 Hr Hl) as (rq' & Er & Hok' & Hch & HQ).
      destruct (Z.eqb_spec t (current ctx)) as [Et | Et]; simpl.
      * exists t, (runqueue ctx). rewrite Hm. split_and!; try done.
        apply (choice_queued _ _ _ _ t p l1 l2); try done. by rewrite Et, Z.eqb_refl.
      * exists t, rq'. rewrite Er. split_and!; try done.
        apply (choice_queued _ _ _ _ t p l1 l2); try done.
        destruct (Z.eqb_spec t (current ctx)); done.
    + exists (idle ctx), (runqueue ctx). rewrite Hm. split_and!; try done.
      apply choice_idle; [done |]. destruct (decide (current ctx = idle ctx)); [by left |].
      right. intros Hs. by apply Hrun.
Qed.

Lemma choice_exists now ths c ctx pth next rq' :
  queues_ok c ths ctx -> ths !! current ctx = Some pth -> choice now ths ctx pth next rq' ->
  exists nth, ths !! next = Some nth.
Proof.
  intros Hq Hp Hc. pose proof Hq as (_ & _ & Hin & _ & _ & Hidle & _).
  destruct Hc as [_ _ | _ _ _ | t p l1 l2 rq' Hl _ _ _ _ _ _ _]; [done | eauto |].
  destruct (Hin p t) as (th & ? & _); [| eauto]. eexists. split; [done | lmem].
Qed.

Lemma pick_next_ok c m ctx :
  cpus m !! c = Some ctx -> queues_ok c (threads m) ctx -> count (runqueue ctx) <> 0 ->
  exists pth next rq' ths',
    threads m !! current ctx = Some pth /\
    pick_next c m = Ok (next, mk_machine ths' (<[c := with_rq rq' ctx]> (cpus m)) (g_ticks m)) /\
    choice (g_ticks m) (threads m) ctx pth next rq' /\ same_threads (threads m) ths' /\
    (forall t th, threads m !! t = Some th -> exists th', ths' !! t = Some th' /\
       status th' = next_status (current ctx) next t (status th)).
Proof.
  intros Hc Hq Hn. destruct (current_exists c _ _ Hq) as [pth Hp].
  destruct (choose_ok c m ctx pth Hc Hq Hp) as (found & next & rq' & Es & Ech & Hch).
  destruct (choice_exists _ _ _ _ _ _ _ Hq Hp Hch) as [nth Hnth].
  set (ths1 := <[next := with_status THREAD_RUNNING nth]> (threads m)).
  assert (Hp1 : exists pth1, ths1 !! current ctx = Some pth1 /\
    same_threads (threads m) ths1 /\
    status pth1 = if decide (current ctx = next) then THREAD_RUNNING else status pth).
  { unfold ths1. destruct (decide (current ctx = next)) as [<- | Hne].
    - rewrite lookup_insert_eq. eexists. split_and!; try done. apply same_threads_insert with nth; [done | apply same_thread_status].
    - rewrite lookup_insert_ne by done. exists pth. split_and!; try done.
      apply same_threads_insert with nth; [done | apply same_thread_status]. }
  destruct Hp1 as (pth1 & Hp1 & HS1 & Hst1).
  set (pth2 := if negb (current ctx =? next) && bool_decide (status pth1 = THREAD_RUNNING)
               then with_status THREAD_READY pth1 else pth1).
  exists pth, next, rq', (<[current ctx := with_ticks (ticks pth2 + 1) pth2]> ths1).
  assert (HS2 : same_threads ths1 (<[current ctx := with_ticks (ticks pth2 + 1) pth2]> ths1)).
  { apply same_threads_insert with pth1; [done |]. unfold pth2.
    destruct (_ && _); [apply same_thread_ticks | by destruct pth1]. }
  split_and!; try done.
  - unfold pick_next, get_cpu. rewrite Hc. simpl. destruct (Z.eqb_spec (count (runqueue ctx)) 0); [done |].
    rewrite Es. simpl. unfold get_thread at 1. rewrite Hp. simpl. rewrite Ech. simpl.
    unfold thread_set_status, get_thread. simpl. rewrite Hnth. simpl.
    fold ths1. rewrite Hp1. simpl. done.
  - by eapply same_threads_trans.
  - intros t th Ht. unfold next_status. destruct (decide (t = current ctx)) as [-> | Htc].
    + rewrite lookup_insert_eq. eexists. split; [done |]. simpl. rewrite Hp in Ht. injection Ht as <-.
      unfold pth2. destruct (Z.eqb_spec (current ctx) next) as [Ecn | Ecn]; simpl.
      * rewrite Hst1. rewrite !decide_True by done. done.
      * rewrite decide_False in Hst1 by done. rewrite <- Hst1.
        destruct (decide (current ctx = next)), (decide (current ctx = current ctx)); try done.
        by case_bool_decide; case_decide.
    + rewrite lookup_insert_ne by done. unfold ths1. destruct (decide (t = next)) as [-> | Htn].
      * rewrite lookup_insert_eq. eexists. split; [done |]. done.
      * rewrite lookup_insert_ne by done. rewrite Ht. eexists. split; [done |]. done.
Qed.

(** ** Zombies *)

Lemma with_zq_rq_id ctx : with_zq (zombiequeue ctx) (with_rq (runqueue ctx) ctx) = ctx.
Proof. by destruct ctx. Qed.

Lemma sched_idle_zombie_ok c m ctx pth :
  cpus m !! c = Some ctx -> queues_ok c (threads m) ctx -> status_ok (threads m) ctx ->
  threads m !! current ctx = Some pth ->
  exists o rq' zq', let ctx' := with_zq zq' (with_rq rq' ctx) in
    sched_idle_zombie c m = Ok (o, put_cpu c ctx' m) /\
    if decide (status pth = THREAD_ZOMBIE) then
      o = Some (idle ctx) /\
      queued (runqueue ctx) ≡ₚ current ctx :: queued rq' /\
      queued zq' ≡ₚ current ctx :: queued (zombiequeue ctx) /\
      queues_ok c (threads m) (with_current (idle ctx) ctx') /\
      status_ok (threads m) (with_current (idle ctx) ctx')
    else
      rq' = runqueue ctx /\ zq' = zombiequeue ctx /\ (o = None <-> queued (zombiequeue ctx) = []) /\
      (o <> None -> o = Some (idle ctx)).
Proof.
  intros Hc Hq Hs Hp. pose proof Hq as (Hr & Hz & Hin & Hinz & Hdis & Hid & Hi1 & Hi2 & Hcur & Hzc).
  unfold sched_idle_zombie, get_cpu. rewrite Hc. simpl. unfold get_thread. rewrite Hp. simpl.
  destruct (decide (status pth = THREAD_ZOMBIE)) as [Ez | Ez].
  2: { rewrite bool_decide_eq_false_2 by done. simpl. unfold ZOMBIE_MAX.
       assert (Hcz : (count (zombiequeue ctx) <=? 0) = bool_decide (queued (zombiequeue ctx) = [])).
       { destruct Hz as (_ & _ & _ & _ & ->).
         by destruct (queued (zombiequeue ctx)). }
       rewrite Hcz. case_bool_decide; eexists _, (runqueue ctx), (zombiequeue ctx);
         rewrite with_zq_rq_id; (split; [done |]); split_and!; try done. }
  destruct Hs as (S1 & S2 & S3). rewrite bool_decide_eq_true_2 by done.
  assert (Hne : current ctx <> idle ctx).
  { intros E. rewrite E in Hp. destruct (S3 pth Hp); congruence. }
  assert (Hcq : current ctx ∈ queued (runqueue ctx)) by (by destruct Hcur).
  destruct (queued_at_prio _ _ Hr Hcq) as (p & l & Hl & Hin').
  destruct (Hin p (current ctx)) as (th & Eth & Hprio & _); [by exists l |].
  rewrite Hp in Eth. injection Eth as <-.
  apply list_elem_of_split in Hin' as (l1 & l2 & ->). rewrite Hprio.
  destruct (take_out_ok _ p _ l1 l2 Hr Hl) as (rq' & -> & Hr' & Hch & HQ & _). simpl.
  pose proof Hl as [Hv _]%head_at_valid. unfold SCHED_PRIO_COUNT in Hv.
  destruct (enqueue_ok (zombiequeue ctx) p (current ctx) Hz) as (lz & zq' & Elz & -> & Hz' & Hchz & HQz);
    [lia | by apply Hdis |]. simpl.
  assert (Hnotin : current ctx ∉ queued rq').
  { destruct Hr as (_ & ND & _). rewrite HQ in ND. by apply NoDup_cons in ND as [ND _]. }
  assert (Hcnt : (count zq' <=? ZOMBIE_MAX) = false).
  { destruct Hz' as (_ & _ & _ & _ & ->). rewrite HQz. unfold ZOMBIE_MAX. simpl.
    apply Z.leb_gt. lia. }
  rewrite Hcnt. eexists _, rq', zq'. split; [done |]. simpl. split_and!; try done.
  - unfold queues_ok. simpl. split_and!; try done.
    + apply (in_queue_same _ _ c _ _ Hin (same_threads_refl _)). intros q t Hqt.
      apply (changed_at _ _ _ _ _ q t Hch Hl); [intros x; lmem | done].
    + intros q t (lq & Hlq & Ht). rewrite Hchz in Hlq. destruct (Z.eqb_spec q p) as [-> |].
      * injection Hlq as <-. apply elem_of_cons in Ht as [-> | Ht].
        -- apply Hin. eexists. split; [done | lmem].
        -- apply Hinz. by exists lz.
      * apply Hinz. by exists lq.
    + intros t Ht. rewrite HQz, elem_of_cons. intros [-> | Ht']; [done |].
      apply (Hdis t); [rewrite HQ; by right | done].
    + intros H'. apply Hi1. rewrite HQ. by right.
    + rewrite HQz, elem_of_cons. intros [E | E]; [congruence | done].
    + by left.
  - split_and!; simpl; try done.
    + intros t th Ht Eth Hst. exfalso. assert (t = current ctx) as ->.
      { apply (S1 t th); try done. rewrite HQ. by right. }
      done.
    + intros t th Ht Eth. rewrite HQz in Ht. apply elem_of_cons in Ht as [-> | Ht]; [congruence |].
      by apply (S2 t).
Qed.

(** ** The scheduler *)

Lemma picked_ok now c ths ths' ctx pth next rq' :
  queues_ok c ths ctx -> status_ok ths ctx -> ths !! current ctx = Some pth ->
  status pth <> THREAD_ZOMBIE -> queued (zombiequeue ctx) = [] ->
  choice now ths ctx pth next rq' -> same_threads ths ths' ->
  (forall t th, ths !! t = Some th -> exists th', ths' !! t = Some th' /\
     status th' = next_status (current ctx) next t (status th)) ->
  queues_ok c ths' (with_current next (with_rq rq' ctx)) /\
  status_ok ths' (with_current next (with_rq rq' ctx)).
Proof.
  intros Hq (S1 & S2 & S3) Hp Hnz Hze Hch HS Hst.
  pose proof Hq as (Hr & Hz & Hin & Hinz & Hdis & [ith Hid] & Hi1 & Hi2 & Hcur & Hzc).
  destruct (choice_ok _ _ _ _ _ _ Hr Hch) as [Hr' HQ].
  assert (Hold : forall t th', ths' !! t = Some th' -> t = current ctx \/ t = idle ctx \/
      t ∈ queued (runqueue ctx) -> exists th, ths !! t = Some th /\
        status th' = next_status (current ctx) next t (status th)).
  { intros t th' Ht Hin'. assert (exists th, ths !! t = Some th) as [th E].
    { destruct Hin' as [-> | [-> | Ht']]; [eauto | eauto |].
      destruct (queued_at_prio _ _ Hr Ht') as [p Hat]. destruct (Hin p t Hat) as (? & ? & _). eauto. }
    exists th. split; [done |]. destruct (Hst t th E) as (? & E' & ?). congruence. }
  split.
  - unfold queues_ok. simpl. rewrite Hze. split_and!; try done.
    + apply (in_queue_same _ _ c _ _ Hin HS). intros q t Hqt.
      apply (choice_same _ _ _ _ _ _ _ _ Hch Hqt).
    + apply (in_queue_same _ _ c _ _ Hinz HS). done.
    + intros t _ Ht. by apply elem_of_nil in Ht.
    + destruct (Hst _ _ Hid) as (? & ? & _). eauto.
    + by rewrite HQ.
    + apply not_elem_of_nil.
    + rewrite HQ. destruct Hch as [| | t p l1 l2 rq' Hl]; [by left | by destruct Hcur; [left | right] |].
      right. apply (at_prio_queued _ p). eexists. split; [done | lmem].
  - unfold status_ok. simpl. rewrite Hze. split_and!.
    + intros t th' Ht Eth Hs. rewrite HQ in Ht. destruct (Hold t th' Eth) as (th & E & Est); [auto |].
      rewrite Est in Hs. unfold next_status in Hs. destruct (decide (t = next)); [done |].
      destruct (decide (t = current ctx)) as [-> |].
      * rewrite Hp in E. injection E as <-. destruct (decide _); destruct Hs; congruence.
      * exfalso. eauto.
    + intros t th Ht. by apply elem_of_nil in Ht.
    + intros th' Eth. destruct (Hold _ th' Eth) as (th & E & ->); [auto |]. unfold next_status.
      destruct (decide _); [by right |]. destruct (decide _); [| by apply S3].
      destruct (decide _); [by left | by apply S3].
Qed.

Lemma switch_ok kernel_root c prev next m ctx pth nth :
  cpus m !! c = Some ctx -> current ctx = prev ->
  threads m !! prev = Some pth -> threads m !! next = Some nth ->
  exists p,
    (if next =? prev then Ok (None, m)
     else
       let! m := __switch_mm kernel_root c prev next m in
       let! ctx := get_cpu c m in
       Ok (Some (prev, next), put_cpu c (with_current next ctx) m)) =
    Ok (if next =? prev then None else Some (prev, next),
        put_cpu c (with_current next (with_active p ctx)) m).
Proof.
  intros Hc Hcur Hp Hn. destruct (Z.eqb_spec next prev) as [E | _].
  { exists (active_pml4_phys ctx). do 2 f_equal. unfold put_cpu.
    rewrite insert_id; [by destruct m |]. rewrite Hc. f_equal. destruct ctx. by simpl in *; subst. }
  assert (exists p, __switch_mm kernel_root c prev next m = Ok (put_cpu c (with_active p ctx) m))
    as [p ->].
  { assert (Hsame : m = put_cpu c (with_active (active_pml4_phys ctx) ctx) m).
    { unfold put_cpu. rewrite insert_id; [by destruct m |]. rewrite Hc. by destruct ctx. }
    unfold __switch_mm, get_cpu. rewrite Hc. simpl. unfold get_thread. rewrite Hn. simpl.
    destruct (negb (pml4_phys nth =? 0)).
    - destruct (negb _); [by eexists |]. eexists. f_equal. exact Hsame.
    - rewrite Hp. simpl. destruct (bool_decide _); [destruct (negb _) |];
        try (by eexists); eexists; f_equal; exact Hsame. }
  exists p. simpl. unfold get_cpu, put_cpu at 1. simpl. rewrite lookup_insert_eq. simpl.
  unfold put_cpu. simpl. by rewrite insert_insert_eq.
Qed.

(** the context [__schedule] leaves *)
Definition switched (next p : Z) (rq zq : runqueue_t) (ctx : cpu_context) : cpu_context :=
  with_current next (with_active p (with_zq zq (with_rq rq (with_need_resched false ctx)))).

(** what [__schedule] decides: an exited thread moves to the zombie queue and
    the CPU idles, waiting zombies or an empty queue keep it idle, and otherwise
    a thread is chosen *)
Definition decision (m : machine) (ctx : cpu_context) (pth : thread)
    (next : Z) (rq' zq' : runqueue_t) (ths' : gmap Z thread) : Prop :=
  if decide (status pth = THREAD_ZOMBIE) then
    next = idle ctx /\ ths' = threads m /\
    queued (runqueue ctx) ≡ₚ current ctx :: queued rq' /\
    queued zq' ≡ₚ current ctx :: queued (zombiequeue ctx)
  else
    zq' = zombiequeue ctx /\
    (next = idle ctx /\ ths' = threads m /\ rq' = runqueue ctx /\
       (queued (zombiequeue ctx) <> [] \/ queued (runqueue ctx) = []) \/
     queued (zombiequeue ctx) = [] /\ choice (g_ticks m) (threads m) ctx pth next rq' /\
       forall t th, threads m !! t = Some th -> exists th', ths' !! t = Some th' /\
         status th' = next_status (current ctx) next t (status th)).

Lemma pick_ok c m ctx pth :
  cpus m !! c = Some ctx -> queues_ok c (threads m) ctx -> status_ok (threads m) ctx ->
  threads m !! current ctx = Some pth -> status pth <> THREAD_ZOMBIE ->
  queued (zombiequeue ctx) = [] ->
  exists next rq' ths',
    pick_next c m = Ok (next, mk_machine ths' (<[c := with_rq rq' ctx]> (cpus m)) (g_ticks m)) /\
    choice (g_ticks m) (threads m) ctx pth next rq' /\ same_threads (threads m) ths' /\
    (forall t th, threads m !! t = Some th -> exists th', ths' !! t = Some th' /\
       status th' = next_status (current ctx) next t (status th)) \/
    pick_next c m = Ok (idle ctx, m) /\ queued (runqueue ctx) = [] /\ current ctx = idle ctx.
Proof.
  intros Hc Hq Hs Hp Hnz Hze. destruct (decide (count (runqueue ctx) = 0)) as [E | E].
  - exists 0, (runqueue ctx), ∅. right. pose proof Hq as (Hr & _ & _ & _ & _ & _ & _ & _ & Hcur & _).
    assert (queued (runqueue ctx) = []) as HQ.
    { destruct Hr as (_ & _ & _ & _ & Hn). rewrite Hn in E. by destruct (queued (runqueue ctx)). }
    split; [| split; [done |]].
    + unfold pick_next, get_cpu. rewrite Hc. simpl. by rewrite E.
    + destruct Hcur as [| H]; [done |]. rewrite HQ in H. by apply elem_of_nil in H.
  - destruct (pick_next_ok c m ctx Hc Hq E) as (pth' & next & rq' & ths' & Hp' & H).
    rewrite Hp in Hp'. injection Hp' as <-. exists next, rq', ths'. left. done.
Qed.

(** a run of [__schedule] on CPU [c], from the context [ctx] whose current
    thread is [pth]: no error, the decision carried out, the invariant kept *)
Definition schedules (c : Z) (m : machine) (ctx : cpu_context) (pth : thread)
    (r : res (option (Z * Z) * machine)) : Prop :=
  exists next rq' zq' ths' p,
    r = Ok (if next =? current ctx then None else Some (current ctx, next),
            mk_machine ths' (<[c := switched next p rq' zq' ctx]> (cpus m)) (g_ticks m)) /\
    queues_ok c ths' (switched next p rq' zq' ctx) /\
    status_ok ths' (switched next p rq' zq' ctx) /\
    same_threads (threads m) ths' /\ decision m ctx pth next rq' zq' ths'.

Lemma stay_idle_ok c m ctx pth :
  queues_ok c (threads m) ctx -> status_ok (threads m) ctx ->
  status pth <> THREAD_ZOMBIE -> current ctx = idle ctx ->
  queued (zombiequeue ctx) <> [] \/ queued (runqueue ctx) = [] ->
  schedules c m ctx pth (Ok (None, put_cpu c (with_need_resched false ctx) m)).
Proof.
  intros Hq Hs Hz Hci Hor. exists (idle ctx), (runqueue ctx), (zombiequeue ctx), (threads m),
    (active_pml4_phys ctx). rewrite Hci, Z.eqb_refl.
  assert (Hsw : switched (idle ctx) (active_pml4_phys ctx) (runqueue ctx) (zombiequeue ctx) ctx
    = with_need_resched false ctx) by (destruct ctx; by simpl in *; subst).
  rewrite Hsw. split_and!; try done; [apply same_threads_refl |].
  unfold decision. rewrite decide_False by done. auto 10.
Qed.

Lemma switch_to_ok kernel_root c m ctx pth prev next rq' zq' ths' :
  let ctx2 := with_zq zq' (with_rq rq' (with_need_resched false ctx)) in
  let m2 := mk_machine ths' (<[c := ctx2]> (cpus m)) (g_ticks m) in
  current ctx = prev ->
  threads m !! current ctx = Some pth -> (exists nth, threads m !! next = Some nth) ->
  queues_ok c ths' (with_current next ctx2) -> status_ok ths' (with_current next ctx2) ->
  same_threads (threads m) ths' -> decision m ctx pth next rq' zq' ths' ->
  schedules c m ctx pth
    (if next =? prev then Ok (None, m2)
     else
       let! m := __switch_mm kernel_root c prev next m2 in
       let! ctx := get_cpu c m in
       Ok (Some (prev, next), put_cpu c (with_current next ctx) m)).
Proof.
  intros ctx2 m2 <- Hp [nth Hn] Hq Hs HS HD.
  destruct (same_threads_fwd _ _ _ _ HS Hp) as (pth2 & Hp2 & _).
  destruct (same_threads_fwd _ _ _ _ HS Hn) as (nth2 & Hn2 & _).
  destruct (switch_ok kernel_root c (current ctx) next m2 ctx2 pth2 nth2) as [p Esw]; try done.
  { apply lookup_insert_eq. }
  exists next, rq', zq', ths', p. split; [| split_and!; done].
  rewrite Esw. unfold m2, put_cpu. simpl. by rewrite insert_insert_eq.
Qed.

Lemma choice_need_resched now ths b ctx pth next rq' :
  choice now ths (with_need_resched b ctx) pth next rq' -> choice now ths ctx pth next rq'.
Proof.
  intros H. destruct H; simpl in *; [by apply choice_idle | by apply choice_keep |].
  by apply (choice_queued _ _ _ _ t p l1 l2).
Qed.

Lemma schedule_ok kernel_root preemptive c m ctx pth :
  cpus m !! c = Some ctx -> queues_ok c (threads m) ctx -> status_ok (threads m) ctx ->
  preempt_count ctx = 0 -> threads m !! current ctx = Some pth ->
  schedules c m ctx pth (__schedule kernel_root preemptive c m).
Proof.
  intros Hc Hq Hs Hpc Hp. unfold __schedule, get_cpu at 1. rewrite Hc. simpl. rewrite Hpc. simpl.
  set (ctx1 := with_need_resched false ctx). set (m1 := put_cpu c ctx1 m).
  assert (Hc1 : cpus m1 !! c = Some ctx1) by apply lookup_insert_eq.
  assert (Hput : forall ctx2, put_cpu c ctx2 m1 = put_cpu c ctx2 m).
  { intros ctx'. unfold m1, put_cpu. simpl. by rewrite insert_insert_eq. }
  assert (exists ith, threads m !! idle ctx = Some ith) as Hid by apply Hq.
  destruct (sched_idle_zombie_ok c m1 ctx1 pth Hc1 Hq Hs Hp) as (o & rq2 & zq2 & -> & Hz).
  simpl. rewrite Hput. destruct (decide (status pth = THREAD_ZOMBIE)) as [Ez | Ez].
  - destruct Hz as (-> & HQ & HZ & Hq2 & Hs2). simpl.
    apply (switch_to_ok kernel_root c m ctx pth (current ctx) (idle ctx) rq2 zq2 (threads m));
      try done; [apply same_threads_refl |].
    unfold decision. by rewrite decide_True.
  - destruct Hz as (-> & -> & Ho & Ho'). rewrite with_zq_rq_id.
    destruct o as [n |].
    + assert (n = idle ctx) as -> by (by injection (Ho' ltac:(done))). simpl.
      assert (Hze : queued (zombiequeue ctx) <> []) by (intros E; by apply Ho in E).
      assert (Hci : current ctx = idle ctx) by (by apply Hq).
      rewrite Hci, Z.eqb_refl. apply stay_idle_ok; auto.
    + assert (Hze : queued (zombiequeue ctx) = []) by (by apply Ho). simpl.
      change (put_cpu c ctx1 m) with m1.
      destruct (pick_ok c m1 ctx1 pth Hc1 Hq Hs Hp Ez Hze) as
        (next & rq' & ths' & [(-> & Hch & HS & Hst) | (-> & HQ & Hci)]); simpl.
      * replace (<[c := with_rq rq' ctx1]> (<[c := ctx1]> (cpus m)))
          with (<[c := with_zq (zombiequeue ctx) (with_rq rq' ctx1)]> (cpus m))
          by (by rewrite insert_insert_eq).
        apply choice_need_resched in Hch.
        destruct (picked_ok (g_ticks m) c _ _ _ _ _ _ Hq Hs Hp Ez Hze Hch HS Hst) as [Hq' Hs'].
        apply (switch_to_ok kernel_root c m ctx pth (current ctx) next rq' (zombiequeue ctx) ths');
          try done; [by apply (choice_exists _ _ _ _ _ _ _ Hq Hp Hch) |].
        unfold decision. rewrite decide_False by done. auto 10.
      * simpl in Hci. rewrite Hci, Z.eqb_refl. apply stay_idle_ok; auto.
Qed.

(** C20: on a CPU whose queues and statuses are consistent, [__schedule] outside
    an atomic section completes without fault or panic, switches to the thread
    it decided on, keeps the CPU's invariant and touches no other CPU: an
    exited thread moves from the run queue to the zombie queue, waiting zombies
    send the CPU to its idle thread, and otherwise the choice is made, with the
    new thread running and the old one ready again if it still ran *)
Theorem schedule_invariant kernel_root preemptive c m ctx pth :
  sched_ok c m -> cpus m !! c = Some ctx -> threads m !! current ctx = Some pth ->
  preempt_count ctx = 0 ->
  exists next rq' zq' ths' p,
    let ctx' := switched next p rq' zq' ctx in
    let m' := mk_machine ths' (<[c := ctx']> (cpus m)) (g_ticks m) in
    __schedule kernel_root preemptive c m =
      Ok (if next =? current ctx then None else Some (current ctx, next), m') /\
    sched_ok c m' /\ same_threads (threads m) ths' /\ decision m ctx pth next rq' zq' ths'.
Proof.
  intros (ctx' & Hc' & Hq & Hs) Hc Hp Hpc. rewrite Hc in Hc'. injection Hc' as <-.
  destruct (schedule_ok kernel_root preemptive c m ctx pth Hc Hq Hs Hpc Hp)
    as (next & rq' & zq' & ths' & p & E & Hq' & Hs' & HS & HD).
  exists next, rq', zq', ths', p. split_and!; try done.
  eexists. split_and!; [apply lookup_insert_eq | done | done].
Qed.

(** what a choice means for the threads of the queue *)
Lemma choice_best now c ths ctx pth next rq' t th :
  queues_ok c ths ctx -> status_ok ths ctx -> ths !! current ctx = Some pth ->
  choice now ths ctx pth next rq' ->
  t ∈ queued (runqueue ctx) -> ths !! t = Some th -> runnable now th = true ->
  exists nth, ths !! next = Some nth /\ next <> idle ctx /\ priority nth <= priority th.
Proof.
  intros Hq Hs Hp Hch Ht Eth Hrun. pose proof Hq as (Hr & _ & Hin & _ & _ & _ & Hidle & _).
  destruct (queued_at_prio _ _ Hr Ht) as (p & l & Hl & Hin').
  destruct (Hin p t) as (th' & E' & Hpr & _); [by exists l |]. rewrite Eth in E'. injection E' as <-.
  assert (Hno : ~ none_run now ths l).
  { intros HF. apply (proj1 (Forall_forall _ _) HF t) in Hin'. unfold run_at in Hin'.
    rewrite Eth in Hin'. congruence. }
  destruct Hch as [Hn _ | Hne Hrn Hn | u pu l1 l2 rq' Hlu Hru Hl1 Hn Hle _ _ _].
  - exfalso. by apply Hno, (Hn p).
  - exists pth. split_and!; try done. destruct (Z.le_gt_cases p (priority pth)) as [Hle |]; [| lia].
    exfalso. by apply Hno, (Hn p).
  - destruct (Hin pu u) as (uth & Eu & Hpu & _); [eexists; split; [done | lmem] |].
    exists uth. split_and!; try done.
    + intros ->. apply Hidle, (at_prio_queued _ pu). eexists. split; [done | lmem].
    + destruct (Z.le_gt_cases pu p) as [| Hgt]; [lia |]. exfalso. by apply Hno, (Hn p).
Qed.

(** a running thread gives way only to one at least as good *)
Lemma choice_current now c ths ctx pth next rq' :
  queues_ok c ths ctx -> ths !! current ctx = Some pth -> choice now ths ctx pth next rq' ->
  current ctx ∈ queued (runqueue ctx) -> status pth = THREAD_RUNNING ->
  exists nth, ths !! next = Some nth /\ next <> idle ctx /\ priority nth <= priority pth.
Proof.
  intros Hq Hp Hch Hin Hr. pose proof Hq as (_ & _ & Hin' & _ & _ & _ & Hidle & _).
  assert (Hne : current ctx <> idle ctx) by congruence.
  destruct Hch as [_ [|] | _ _ _ | u pu l1 l2 rq' Hlu _ _ _ Hle _ _ _]; try done.
  - exists pth. by split_and!.
  - assert (Hat : at_prio (runqueue ctx) pu u) by (eexists; split; [done | lmem]).
    destruct (Hin' pu u Hat) as (uth & Eu & Hpu & _). exists uth. split_and!; try done.
    + intros ->. by apply Hidle, (at_prio_queued _ pu).
    + rewrite Hpu. by apply Hle.
Qed.

(** a chosen thread is runnable, or it is the idle thread or the running one *)
Lemma choice_runs now ths ctx pth next rq' :
  choice now ths ctx pth next rq' ->
  next = idle ctx \/ next = current ctx /\ status pth = THREAD_RUNNING \/ run_at now ths next = true.
Proof. intros Hch. destruct Hch; auto. Qed.

(** C25: the CPU goes to the best runnable thread. When the current thread has
    not exited and no zombie waits, the thread [__schedule] runs next is at
    least as good (numerically at most) as every runnable thread of the queue
    and as the running thread itself; it is idle only when none is runnable,
    and it is never a blocked thread or a sleeper whose time has not come. *)
Theorem schedule_highest_priority kernel_root preemptive c m ctx pth :
  sched_ok c m -> cpus m !! c = Some ctx -> threads m !! current ctx = Some pth ->
  preempt_count ctx = 0 -> status pth <> THREAD_ZOMBIE -> queued (zombiequeue ctx) = [] ->
  exists next sw m' ctx',
    __schedule kernel_root preemptive c m = Ok (sw, m') /\
    cpus m' !! c = Some ctx' /\ current ctx' = next /\
    (forall t th, t ∈ queued (runqueue ctx) -> threads m !! t = Some th ->
       runnable (g_ticks m) th = true \/ t = current ctx /\ status th = THREAD_RUNNING ->
       exists nth, threads m !! next = Some nth /\ next <> idle ctx /\ priority nth <= priority th) /\
    (next <> idle ctx -> run_at (g_ticks m) (threads m) next = true \/
       next = current ctx /\ status pth = THREAD_RUNNING).
Proof.
  intros (ctx0 & Hc0 & Hq & Hs) Hc Hp Hpc Hz Hze. rewrite Hc in Hc0. injection Hc0 as <-.
  destruct (schedule_ok kernel_root preemptive c m ctx pth Hc Hq Hs Hpc Hp)
    as (next & rq' & zq' & ths' & p & E & _ & _ & _ & HD).
  eexists next, _, _, _. split; [exact E |]. split; [apply lookup_insert_eq |]. split; [done |].
  unfold decision in HD. rewrite decide_False in HD by done.
  destruct HD as (_ & [(-> & _ & _ & [? | HQ]) | (_ & Hch & _)]); [done | |].
  { split; [| done]. intros t th Ht. rewrite HQ in Ht. by apply elem_of_nil in Ht. }
  split.
  - intros t th Ht Eth [Hr | [-> Hr]].
    + by apply (choice_best _ c _ _ _ _ _ _ _ Hq Hs Hp Hch Ht Eth Hr).
    + rewrite Hp in Eth. injection Eth as <-. by apply (choice_current _ c _ _ _ _ _ Hq Hp Hch).
  - destruct (choice_runs _ _ _ _ _ _ Hch) as [-> | [? | ?]]; auto; done.
Qed.

(** inside an atomic section (a positive preemption count) nobody loses the
    CPU: [schedule] stops the machine, and the preemption paths, from an
    interrupt or from [preempt_enable] of an inner section, leave the CPU's
    thread, queues and statuses as they are. *)
Lemma atomic_never_switches kernel_root c m ctx pth :
  cpus m !! c = Some ctx -> threads m !! current ctx = Some pth -> preempt_count ctx <> 0 ->
  schedule kernel_root c m = Panic /\
  __schedule_irq kernel_root c m = Ok (None, m) /\
  check_need_schedule c m = false /\
  (exists th, __schedule_preempt kernel_root c m =
     Ok (None, put_thread (current ctx) th (put_cpu c (with_preempts (preempts ctx + 1) ctx) m)) /\
     status th = status pth) /\
  thread_exit kernel_root c m = Panic /\
  (preempt_count ctx <> 1 -> preempt_enable kernel_root c m =
     Ok (None, put_cpu c (with_preempt_count (preempt_count ctx - 1) ctx) m)).
Proof.
  intros Hc Hp Hn. apply Z.eqb_neq in Hn.
  unfold schedule, __schedule_irq, __schedule_preempt, __schedule, check_need_schedule, thread_exit,
    preempt_enable, get_cpu. rewrite Hc. simpl. rewrite Hn. simpl. split_and!; try done.
  - by destruct (_ || _).
  - unfold get_thread. simpl. rewrite Hp. simpl. rewrite lookup_insert_eq. simpl. rewrite Hn. simpl.
    eexists. split; done.
  - intros Hn1. destruct (Z.eqb_spec (preempt_count ctx - 1) 0); [lia |]. done.
Qed.

Lemma queues_ok_same c ths ths' ctx :
  queues_ok c ths ctx -> same_threads ths ths' -> queues_ok c ths' ctx.
Proof.
  intros (Hr & Hz & Hin & Hinz & Hdis & [ith Hid] & Hrest) HS. unfold queues_ok.
  split_and!; try done; try apply Hrest.
  - by apply (in_queue_same _ _ c _ _ Hin HS).
  - by apply (in_queue_same _ _ c _ _ Hinz HS).
  - destruct (same_threads_fwd _ _ _ _ HS Hid) as (? & ? & _). eauto.
Qed.

(** ** Reaping *)

Lemma reap_ok c ctx n m :
  cpus m !! c = Some ctx -> rq_ok (zombiequeue ctx) ->
  (length (queued (zombiequeue ctx)) <= n)%nat ->
  exists l zq', reap_zombies n c m = Ok (l, put_cpu c (with_zq zq' ctx) m) /\
    rq_ok zq' /\ queued zq' = [] /\ l ≡ₚ queued (zombiequeue ctx).
Proof.
  revert ctx m. induction n as [| n IH]; intros ctx m Hc Hz Hn; simpl.
  - destruct (queued (zombiequeue ctx)) eqn:E; [| simpl in Hn; lia].
    exists [], (zombiequeue ctx). split_and!; try done. do 2 f_equal.
    unfold put_cpu. rewrite insert_id; [by destruct m | rewrite Hc; by destruct ctx].
  - unfold cpu_dequeue_zombie_tail, get_cpu. rewrite Hc. simpl.
    destruct (dequeue_tail_ok _ Hz) as (o & zq1 & -> & Hz1 & Hrem). simpl. destruct o as [t |].
    + destruct Hrem as [HP _].
      destruct (IH (with_zq zq1 ctx) (put_cpu c (with_zq zq1 ctx) m)) as (l & zq' & -> & Hz' & HQ & Hl).
      { apply lookup_insert_eq. } { done. } { simpl. rewrite HP in Hn. simpl in Hn. lia. }
      exists (t :: l), zq'. split_and!; try done.
      * unfold put_cpu. simpl. by rewrite insert_insert_eq.
      * rewrite HP. simpl in Hl. by rewrite Hl.
    + destruct Hrem as [HQ ->]. exists [], (zombiequeue ctx). rewrite HQ. split_and!; done.
Qed.

(** the invariant survives the emptying of the zombie queue *)
Lemma reaped_ok c ths ctx zq' :
  queues_ok c ths ctx -> status_ok ths ctx -> rq_ok zq' -> queued zq' = [] ->
  queues_ok c ths (with_zq zq' ctx) /\ status_ok ths (with_zq zq' ctx).
Proof.
  intros (Hr & _ & Hin & _ & _ & Hid & Hi1 & _ & Hcur & _) (S1 & _ & S3) Hz HQ.
  unfold queues_ok, status_ok. simpl. rewrite HQ. split; split_and!; try done.
  - intros p t Hat%at_prio_queued. rewrite HQ in Hat. by apply elem_of_nil in Hat.
  - intros t _. apply not_elem_of_nil.
  - apply not_elem_of_nil.
  - intros t th Ht. by apply elem_of_nil in Ht.
Qed.

(** the exit itself *)
Lemma exit_ok kernel_root c m ctx pth :
  cpus m !! c = Some ctx -> queues_ok c (threads m) ctx -> status_ok (threads m) ctx ->
  threads m !! current ctx = Some pth -> preempt_count ctx = 0 -> current ctx <> idle ctx ->
  exists rq' zq' ths' p,
    let ctx' := switched (idle ctx) p rq' zq' ctx in
    thread_exit kernel_root c m = Ok (Some (current ctx, idle ctx),
      mk_machine ths' (<[c := ctx']> (cpus m)) (g_ticks m)) /\
    queues_ok c ths' ctx' /\ status_ok ths' ctx' /\
    queued (runqueue ctx) ≡ₚ current ctx :: queued rq' /\
    queued zq' ≡ₚ current ctx :: queued (zombiequeue ctx).
Proof.
  intros Hc Hq Hs Hp Hpc Hni. set (zth := with_status THREAD_ZOMBIE pth).
  set (m0 := put_thread (current ctx) zth m).
  assert (HS : same_threads (threads m) (threads m0)) by (apply same_threads_insert with pth; [done | apply same_thread_status]).
  assert (Hs0 : status_ok (threads m0) ctx).
  { destruct Hs as (S1 & S2 & S3). unfold status_ok, m0. simpl. split_and!.
    - intros t th Ht. destruct (decide (t = current ctx)); [done |].
      rewrite lookup_insert_ne by done. by apply S1.
    - intros t th Ht. destruct (decide (t = current ctx)) as [-> |].
      + rewrite lookup_insert_eq. by intros [= <-].
      + rewrite lookup_insert_ne by done. by apply S2.
    - rewrite lookup_insert_ne by done. done. }
  assert (Hq0 : queues_ok c (threads m0) ctx) by (by apply (queues_ok_same c (threads m))).
  destruct (schedule_ok kernel_root false c m0 ctx zth Hc Hq0 Hs0 Hpc)
    as (next & rq' & zq' & ths' & p & E & Hq1 & Hs1 & _ & HD); [apply lookup_insert_eq |].
  unfold decision in HD. rewrite decide_True in HD by done. destruct HD as (-> & -> & HQ & HZ).
  exists rq', zq', (threads m0), p. split_and!; try done.
  unfold thread_exit, schedule, get_cpu. rewrite Hc. simpl. rewrite Hpc. simpl.
  unfold thread_set_status, get_thread. rewrite Hp. simpl. fold zth m0. rewrite E.
  destruct (Z.eqb_spec (idle ctx) (current ctx)); [congruence | done].
Qed.

(** an exiting thread is reaped exactly once. [thread_exit] takes it off the
    run queue and hands the CPU to the idle thread; the idle thread's loop,
    bounded by the zombie count it read, then returns every waiting zombie,
    the exited thread among them, no thread twice, and leaves the zombie queue
    empty with the CPU's invariant intact. *)
Lemma thread_exit_reaped kernel_root c m ctx pth :
  sched_ok c m -> cpus m !! c = Some ctx -> threads m !! current ctx = Some pth ->
  preempt_count ctx = 0 -> current ctx <> idle ctx ->
  exists m1 ctx1 l m2 ctx2,
    thread_exit kernel_root c m = Ok (Some (current ctx, idle ctx), m1) /\
    cpus m1 !! c = Some ctx1 /\ current ctx1 = idle ctx /\ sched_ok c m1 /\
    reap_zombies (Z.to_nat (count (zombiequeue ctx1))) c m1 = Ok (l, m2) /\
    NoDup l /\ l ≡ₚ current ctx :: queued (zombiequeue ctx) /\
    cpus m2 !! c = Some ctx2 /\ sched_ok c m2 /\ queued (zombiequeue ctx2) = [] /\
    queued (runqueue ctx) ≡ₚ current ctx :: queued (runqueue ctx2).
Proof.
  intros (ctx0 & Hc0 & Hq & Hs) Hc Hp Hpc Hni. rewrite Hc in Hc0. injection Hc0 as <-.
  destruct (exit_ok kernel_root c m ctx pth Hc Hq Hs Hp Hpc Hni)
    as (rq' & zq' & ths' & p & E & Hq1 & Hs1 & HQ & HZ).
  set (ctx1 := switched (idle ctx) p rq' zq' ctx) in *.
  set (m1 := mk_machine ths' (<[c := ctx1]> (cpus m)) (g_ticks m)) in *.
  assert (Hc1 : cpus m1 !! c = Some ctx1) by apply lookup_insert_eq.
  pose proof Hq1 as (_ & Hz1 & _). pose proof Hz1 as (_ & HND & _ & _ & Hcnt).
  destruct (reap_ok c ctx1 (Z.to_nat (count (zombiequeue ctx1))) m1 Hc1 Hz1)
    as (l & zq2 & Er & Hz2 & HQ2 & Hl); [lia |].
  exists m1, ctx1, l, (put_cpu c (with_zq zq2 ctx1) m1), (with_zq zq2 ctx1).
  split_and!; try done.
  - exists ctx1. by split_and!.
  - by rewrite Hl.
  - by rewrite Hl.
  - apply lookup_insert_eq.
  - exists (with_zq zq2 ctx1). split; [apply lookup_insert_eq |].
    by apply reaped_ok.
Qed.

(** ** Fairness among equals *)

Definition status_at (ths : gmap Z thread) (t : Z) : option thread_status_t :=
  status <$> ths !! t.

(** CPU [c] runs [cur] at priority [p], the threads [w] of that priority wait
    in this order, all of them ready, and no better thread is runnable *)
Definition waiting (c : Z) (m : machine) (p : Z) (w : list Z) (cur : Z) : Prop :=
  sched_ok c m /\ exists ctx,
    cpus m !! c = Some ctx /\ preempt_count ctx = 0 /\ queued (zombiequeue ctx) = [] /\
    current ctx = cur /\ head_at p (runqueue ctx) = Some (w ++ [cur]) /\
    status_at (threads m) cur = Some THREAD_RUNNING /\
    Forall (fun t => status_at (threads m) t = Some THREAD_READY) w /\
    forall q l, q < p -> head_at q (runqueue ctx) = Some l -> none_run (g_ticks m) (threads m) l.

(** [n] passes of the scheduler on one CPU *)
Fixpoint schedules_n (kernel_root : Z) (n : nat) (c : Z) (m : machine) : res machine :=
  match n with
  | O => Ok m
  | S n => let! (_, m) := __schedule kernel_root true c m in schedules_n kernel_root n c m
  end.

Lemma status_at_some ths t s : status_at ths t = Some s <-> exists th, ths !! t = Some th /\ status th = s.
Proof.
  unfold status_at. destruct (ths !! t) as [th |]; simpl; split; try naive_solver.
Qed.

(** with a ready thread at the head of the best list, that thread is chosen *)
Lemma choice_head now c ths ctx pth next rq' p t w cur :
  queues_ok c ths ctx -> ths !! current ctx = Some pth -> current ctx = cur ->
  head_at p (runqueue ctx) = Some (t :: w ++ [cur]) -> run_at now ths t = true -> t <> cur ->
  (forall q l, q < p -> head_at q (runqueue ctx) = Some l -> none_run now ths l) ->
  choice now ths ctx pth next rq' ->
  next = t /\ changed (runqueue ctx) rq' p ((w ++ [cur]) ++ [t]).
Proof.
  intros Hq Hp Hcur Hl Hrt Htc Hlow Hch. pose proof Hq as (Hr & _ & Hin & _).
  assert (Hnr : forall l, none_run now ths l -> t ∉ l).
  { intros l HF Ht. apply (proj1 (Forall_forall _ _) HF t) in Ht. congruence. }
  assert (Hpp : priority pth = p).
  { destruct (Hin p cur) as (th & E & ? & _); [eexists; split; [done | lmem] |]. congruence. }
  destruct Hch as [Hn _ | _ _ Hn | u pu l1 l2 rq' Hlu Hru Hl1 Hn _ _ _ Hchg].
  - exfalso. apply (Hnr _ (Hn p _ Hl)). lmem.
  - exfalso. apply (Hnr _ (Hn p _ ltac:(lia) Hl)). lmem.
  - assert (pu = p) as ->.
    { destruct (Z.lt_trichotomy pu p) as [Hlt | [| Hlt]]; [| done |].
      - exfalso. pose proof (Hlow pu _ Hlt Hlu) as HF.
        assert (run_at now ths u = false); [| congruence].
        apply (proj1 (Forall_forall _ _) HF u). lmem.
      - exfalso. apply (Hnr _ (Hn p _ ltac:(lia) Hl)). lmem. }
    rewrite Hl in Hlu. destruct l1 as [| x l1]; simpl in Hlu; injection Hlu as -> ->.
    + split; [done |]. destruct (Z.eqb_spec u (current ctx)); [congruence |]. simpl in Hchg. done.
    + exfalso. apply (Hnr _ Hl1). lmem.
Qed.

(** the statuses after a switch between two threads of one priority *)
Lemma waiting_statuses now m ths' t w cur :
  NoDup (t :: w ++ [cur]) -> same_threads (threads m) ths' ->
  (forall u th, threads m !! u = Some th -> exists th', ths' !! u = Some th' /\
     status th' = next_status cur t u (status th)) ->
  status_at (threads m) cur = Some THREAD_RUNNING ->
  Forall (fun t => status_at (threads m) t = Some THREAD_READY) (t :: w) ->
  status_at ths' t = Some THREAD_RUNNING /\
  Forall (fun t => status_at ths' t = Some THREAD_READY) (w ++ [cur]) /\
  forall u, u <> t -> u <> cur -> run_at now ths' u = run_at now (threads m) u.
Proof.
  intros [ND1 ND2]%NoDup_cons HS Hst Hcur [Ht Hw]%Forall_cons.
  assert (Hstat : forall u s, status_at (threads m) u = Some s ->
      status_at ths' u = Some (next_status cur t u s)).
  { intros u s (th & Eu & Es)%status_at_some. destruct (Hst u th Eu) as (th' & E' & ?).
    apply status_at_some. exists th'. split; congruence. }
  split_and!.
  - rewrite (Hstat t _ Ht). unfold next_status. by rewrite decide_True.
  - apply Forall_forall. intros u Hu.
    assert (Hut : u <> t) by (intros ->; done).
    apply elem_of_app in Hu as [Hu | ->%list_elem_of_singleton].
    + rewrite (Hstat u THREAD_READY) by (by apply (proj1 (Forall_forall _ _) Hw u)).
      unfold next_status. rewrite decide_False by done. by destruct (decide _).
    + rewrite (Hstat cur _ Hcur). unfold next_status. rewrite decide_False by done.
      by rewrite !decide_True.
  - intros u Hut Huc. specialize (HS u). unfold run_at.
    destruct (threads m !! u) as [th |] eqn:E; destruct (ths' !! u) as [th' |] eqn:E'; try done.
    destruct (Hst u th E) as (x & Ex & Est). rewrite E' in Ex. injection Ex as <-.
    unfold next_status in Est. rewrite !decide_False in Est by done.
    unfold runnable. destruct (same_thread_fields _ _ HS) as (_ & _ & Hwk & _). by rewrite Est, Hwk.
Qed.

Lemma waiting_step kernel_root c m p t w cur :
  waiting c m p (t :: w) cur ->
  exists sw m', __schedule kernel_root true c m = Ok (sw, m') /\ waiting c m' p (w ++ [cur]) t.
Proof.
  intros (Hok & ctx & Hc & Hpc & Hze & Hcur & Hl & Hsc & Hw & Hlow).
  destruct Hok as (ctx0 & Hc0 & Hq & Hs). rewrite Hc in Hc0. injection Hc0 as <-.
  pose proof Hsc as (pth & Hp & Hrun)%status_at_some. pose proof Hq as (Hr & _).
  simpl in Hl. pose proof (head_at_nodup _ _ _ Hr Hl) as ND.
  assert (Htc : t <> cur) by (apply NoDup_cons in ND as [ND _]; intros ->; apply ND; lmem).
  assert (Hrt : run_at (g_ticks m) (threads m) t = true).
  { apply Forall_cons in Hw as [(th & E & Es)%status_at_some _].
    unfold run_at, runnable. by rewrite E, Es. }
  rewrite <- Hcur in Hp. destruct (schedule_ok kernel_root true c m ctx pth Hc Hq Hs Hpc Hp)
    as (next & rq' & zq' & ths' & ap & E & Hq' & Hs' & HS & HD).
  unfold decision in HD. rewrite decide_False in HD by congruence.
  assert (Hat : forall x, x ∈ t :: w ++ [cur] -> at_prio (runqueue ctx) p x) by (intros; eexists; by split).
  destruct HD as (-> & [(_ & _ & _ & [? | HQ]) | (_ & Hch & Hst)]); [done | |].
  { exfalso. pose proof (at_prio_queued _ _ _ (Hat t ltac:(lmem))) as Hx. rewrite HQ in Hx.
    by apply elem_of_nil in Hx. }
  destruct (choice_head _ c _ _ _ _ _ p t w cur Hq Hp Hcur Hl Hrt Htc Hlow Hch) as [-> Hchg].
  rewrite Hcur in Hst.
  destruct (waiting_statuses (g_ticks m) m ths' t w cur ND HS Hst Hsc Hw) as (T1 & T2 & T3).
  eexists _, _. split; [exact E |]. split.
  { eexists. split_and!; [apply lookup_insert_eq | done | done]. }
  eexists. split; [apply lookup_insert_eq |]. simpl. split_and!; try done.
  - by rewrite Hchg, Z.eqb_refl.
  - intros q l Hqp Hlq. rewrite Hchg in Hlq. destruct (Z.eqb_spec q p); [lia |].
    apply Forall_forall. intros u Hu.
    assert (Hne : forall x, x ∈ t :: w ++ [cur] -> u <> x).
    { intros x Hx ->. apply n, (at_prio_unique (runqueue ctx) q p x Hr); [by exists l | by apply Hat]. }
    rewrite T3; [| by apply Hne; lmem | by apply Hne; lmem].
    by apply (proj1 (Forall_forall _ _) (Hlow q l Hqp Hlq)).
Qed.

(** threads of one priority share the CPU in turn. While the best runnable
    threads of a CPU have one priority and stay ready, the thread that has
    [length w1] others before it in the queue runs after exactly
    [length w1 + 1] passes of the scheduler, whatever the queue held behind it:
    no thread is starved by its equals. *)
Lemma equal_priority_turn kernel_root c m p w1 t w2 cur :
  waiting c m p (w1 ++ t :: w2) cur ->
  exists m', schedules_n kernel_root (S (length w1)) c m = Ok m' /\
    waiting c m' p (w2 ++ cur :: w1) t.
Proof.
  revert m w2 cur. induction w1 as [| u w1 IH]; intros m w2 cur Hw.
  - destruct (waiting_step kernel_root c m p t w2 cur Hw) as (sw & m' & E & Hw').
    exists m'. simpl. rewrite E. done.
  - destruct (waiting_step kernel_root c m p u (w1 ++ t :: w2) cur Hw) as (sw & m' & E & Hw').
    rewrite <- app_assoc in Hw'. simpl in Hw'.
    destruct (IH m' (w2 ++ [cur]) u Hw') as (m2 & E2 & Hw2). exists m2.
    rewrite <- app_assoc in Hw2. split; [| done].
    change (schedules_n kernel_root (S (length (u :: w1))) c m) with
      (let! (_, m) := __schedule kernel_root true c m in schedules_n kernel_root (S (length w1)) c m).
    by rewrite E.
Qed.

(** ** An example CPU *)

(** a boolean check of every queued thread with its priority *)
Fixpoint all_at (P : Z -> Z -> bool) (i : Z) (ll : list (list Z)) : bool :=
  match ll with
  | [] => true
  | l :: ll => forallb (P i) l && all_at P (i + 1) ll
  end.

Lemma all_at_ok P ll i n l t :
  all_at P i ll = true -> ll !! n = Some l -> t ∈ l -> P (i + Z.of_nat n) t = true.
Proof.
  revert i n. induction ll as [| l0 ll IH]; intros i n HP Hn Ht; [done |]. simpl in HP.
  apply andb_true_iff in HP as [H1 H2]. destruct n as [| n]; simpl in Hn.
  - injection Hn as ->. rewrite Z.add_0_r. rewrite forallb_forall in H1. by apply H1, list_elem_of_In.
  - replace (i + Z.of_nat (S n)) with (i + 1 + Z.of_nat n) by lia. by apply (IH (i + 1)).
Qed.

Lemma at_prio_check P rq p t : all_at P 0 (heads rq) = true -> at_prio rq p t -> P p t = true.
Proof.
  intros HP (l & (Hv & Hl)%head_at_valid & Ht).
  pose proof (all_at_ok _ _ _ _ _ _ HP Hl Ht) as H. by replace p with (0 + Z.of_nat (Z.to_nat p)) by lia.
Qed.

Definition ex_thread (s : thread_status_t) (p : Z) : thread :=
  mk_thread s p p (replicate 64 0) 0 0 0 0 0.

(** thread 13 runs, 11 and 12 wait at its priority, 9 at a lower one, 1 idles *)
Definition ex_threads : gmap Z thread :=
  list_to_map
    [(1, ex_thread THREAD_READY 63); (9, ex_thread THREAD_READY 40);
     (11, ex_thread THREAD_READY 7); (12, ex_thread THREAD_READY 7);
     (13, ex_thread THREAD_RUNNING 7)].

Definition ex_ctx : cpu_context := mk_cpu 13 1 ex_rq runqueue_init 0 true 0 4096.

Definition ex_machine : machine := mk_machine ex_threads {[0 := ex_ctx]} 5.

Lemma ex_at p t : at_prio ex_rq p t -> (p = 7 /\ (t = 11 \/ t = 12 \/ t = 13)) \/ (p = 40 /\ t = 9).
Proof.
  intros H. apply (at_prio_check (fun p t => (p =? 7) && ((t =? 11) || (t =? 12) || (t =? 13)) ||
    (p =? 40) && (t =? 9))) in H; [| vm_compute; reflexivity].
  lia.
Qed.

Lemma ex_queues_ok : queues_ok 0 ex_threads ex_ctx.
Proof.
  unfold queues_ok. simpl. split_and!.
  - apply ex_rq_ok.
  - apply runqueue_init_ok.
  - intros p t H%ex_at. destruct H as [[-> [-> | [-> | ->]]] | [-> ->]]; by eexists.
  - intros p t Hat%(at_prio_check (fun _ _ => false)); [done | vm_compute; reflexivity].
  - intros t _. by apply (bool_decide_unpack _); vm_compute.
  - by eexists.
  - by apply (bool_decide_unpack _); vm_compute.
  - by apply (bool_decide_unpack _); vm_compute.
  - right. by apply (bool_decide_unpack _); vm_compute.
  - vm_compute. done.
Qed.

Lemma ex_status_ok : status_ok ex_threads ex_ctx.
Proof.
  unfold status_ok. simpl. split_and!.
  - intros t th Ht Hth Hs. destruct (queued_at_prio _ _ ex_rq_ok Ht) as [p H%ex_at].
    destruct H as [[-> [-> | [-> | ->]]] | [-> ->]]; try done;
      vm_compute in Hth; injection Hth as <-; by destruct Hs.
  - intros t th Ht. by apply elem_of_nil in Ht.
  - intros th Hth. vm_compute in Hth. injection Hth as <-. by left.
Qed.

Lemma ex_sched_ok : sched_ok 0 ex_machine.
Proof. exists ex_ctx. split_and!; [done | apply ex_queues_ok | apply ex_status_ok]. Qed.

(** the switch of a run *)
Definition switch_of (r : res (option (Z * Z) * machine)) : option (Z * Z) :=
  match r with Ok (sw, _) => sw | _ => None end.

Lemma ex_switch : switch_of (__schedule 4096 true 0 ex_machine) = Some (13, 11).
Proof. vm_compute. reflexivity. Qed.

Lemma schedule_invariant_witness :
  exists sw m', __schedule 4096 true 0 ex_machine = Ok (sw, m') /\ sched_ok 0 m' /\ sw = Some (13, 11).
Proof.
  destruct (schedule_invariant 4096 true 0 ex_machine ex_ctx (ex_thread THREAD_RUNNING 7))
    as (next & rq' & zq' & ths' & p & E & H & _);
    [exact ex_sched_ok | reflexivity | reflexivity | reflexivity |].
  eexists _, _. split; [exact E |]. split; [exact H |].
  pose proof ex_switch as Hsw. rewrite E in Hsw. exact Hsw.
Defined.

Lemma schedule_highest_priority_witness :
  exists sw m', __schedule 4096 true 0 ex_machine = Ok (sw, m') /\ sw = Some (13, 11).
Proof.
  destruct (schedule_highest_priority 4096 true 0 ex_machine ex_ctx (ex_thread THREAD_RUNNING 7))
    as (next & sw & m' & ctx' & E & _);
    [exact ex_sched_ok | reflexivity | reflexivity | reflexivity | discriminate | reflexivity |].
  exists sw, m'. split; [exact E |]. pose proof ex_switch as Hsw. rewrite E in Hsw. exact Hsw.
Defined.

Lemma atomic_never_switches_witness :
  let ctx := with_preempt_count 2 ex_ctx in
  let m := put_cpu 0 ctx ex_machine in
  schedule 4096 0 m = Panic /\ __schedule_irq 4096 0 m = Ok (None, m).
Proof.
  intros ctx m. destruct (atomic_never_switches 4096 0 m ctx (ex_thread THREAD_RUNNING 7))
    as (H1 & H2 & _); [reflexivity | reflexivity | discriminate |]. split; [exact H1 | exact H2].
Defined.

Lemma thread_exit_reaped_witness :
  exists m1 n l m2, thread_exit 4096 0 ex_machine = Ok (Some (13, 1), m1) /\
    reap_zombies n 0 m1 = Ok (l, m2) /\ l ≡ₚ [13].
Proof.
  destruct (thread_exit_reaped 4096 0 ex_machine ex_ctx (ex_thread THREAD_RUNNING 7))
    as (m1 & ctx1 & l & m2 & ctx2 & E & _ & _ & _ & Er & _ & Hl & _);
    [exact ex_sched_ok | reflexivity | reflexivity | reflexivity | discriminate |].
  exists m1, (Z.to_nat (count (zombiequeue ctx1))), l, m2. split; [exact E |]. split; [exact Er |].
  exact Hl.
Defined.

Lemma ex_waiting : waiting 0 ex_machine 7 [11; 12] 13.
Proof.
  split; [apply ex_sched_ok |]. exists ex_ctx. split_and!; try done.
  - repeat constructor.
  - intros q l Hq Hl. destruct l as [| t l]; [constructor |]. exfalso.
    destruct (ex_at q t) as [[? _] | [? _]]; [by exists (t :: l); split; [| left] | lia | lia].
Qed.

(** thread 12, second in the queue, runs after the second pass *)
Lemma equal_priority_turn_witness :
  exists m', schedules_n 4096 2 0 ex_machine = Ok m' /\ waiting 0 m' 7 [13; 11] 12.
Proof. exact (equal_priority_turn 4096 0 ex_machine 7 [11] 12 [] 13 ex_waiting). Defined.
