(* ===== verification/Priority.v ===== *)
(** * Priority inheritance ([kernel/thread.c], [kernel/thread.h])

    A thread's effective priority is the best of its base priority and of the
    donations it holds, counted per priority.  Changing it moves the thread to
    the list of the new priority in its CPU's run queue.  The operations act on
    the [machine] of Sched.v; the per-thread spinlock makes each one atomic. *)

From stdpp Require Import base list gmap.
From S2P Require Import Prelude RunQueue Sched.

Definition UINT16_MAX : Z := 65535.

Definition with_base (b : Z) (t : thread) : thread :=
  mk_thread (status t) (priority t) b (pi_donations t) (target_cpu t) (wakeup_ticks t)
    (ticks t) (tpreempts t) (pml4_phys t).
Definition with_donations (d : list Z) (t : thread) : thread :=
  mk_thread (status t) (priority t) (base_priority t) d (target_cpu t) (wakeup_ticks t)
    (ticks t) (tpreempts t) (pml4_phys t).

(** ** Operations *)

(** the loop of [thread_effective_priority]: the first index with a donation *)
Fixpoint first_donation (i : Z) (l : list Z) : option Z :=
  match l with
  | [] => None
  | d :: l => if d =? 0 then first_donation (i + 1) l else Some i
  end.

Definition thread_effective_priority (t : thread) : Z :=
  match first_donation 0 (pi_donations t) with
  | Some i => if i <? base_priority t then i else base_priority t
  | None => base_priority t
  end.

(** the thread's [node] is linked: in the run queue or the zombie queue of its CPU *)
Definition node_linked (t : Z) (ctx : cpu_context) : bool :=
  bool_decide (t ∈ queued (runqueue ctx)) || bool_decide (t ∈ queued (zombiequeue ctx)).

Definition thread_apply_effective_priority (t p : Z) (m : machine) : res machine :=
  let! th := get_thread t m in
  let old := priority th in
  let m' := put_thread t (with_priority p th) m in
  if old =? p then Ok m
  else if (old <? 0) || (SCHED_PRIO_COUNT <=? old) then Panic
  else if target_cpu th <? 0 then Ok m'
  else
    match cpus m !! target_cpu th with
    | None => Ok m'
    | Some ctx =>
        if negb (node_linked t ctx) then Ok m'
        else
          let! rq :=
            let! rq := clear_if_empty old (node_del t (runqueue ctx)) in add_tail p t rq in
          let ctx' := with_zq (node_del t (zombiequeue ctx)) (with_rq rq ctx) in
          Ok (ipi_reschedule_cpu (target_cpu th) (put_cpu (target_cpu th) ctx' m'))
    end.

Definition thread_priority_init (t : thread) : thread :=
  with_priority SCHED_DEFAULT_PRIO (with_base SCHED_DEFAULT_PRIO (with_donations (replicate 64 0) t)).

(** the first component is the returned code *)
Definition thread_set_priority (t p : Z) (m : machine) : res (Z * machine) :=
  if (p <? 0) || (SCHED_PRIO_COUNT <=? p) then Ok (-1, m)
  else
    let! th := get_thread t m in
    if bool_decide (status th = THREAD_BLOCKED) then Ok (-2, m)
    else
      let th := with_base p th in
      let! m := thread_apply_effective_priority t (thread_effective_priority th) (put_thread t th m) in
      Ok (0, m).

Definition donation (p : Z) (d : list Z) : Z := default 0 (d !! Z.to_nat p).

(** one donation at [p] less, or one more *)
Definition withdraw (p : Z) (d : list Z) : res (list Z) :=
  if p <? SCHED_PRIO_COUNT then
    if donation p d =? 0 then Panic else Ok (<[Z.to_nat p := donation p d - 1]> d)
  else Ok d.

Definition donate (p : Z) (d : list Z) : res (list Z) :=
  if p <? SCHED_PRIO_COUNT then
    if donation p d =? UINT16_MAX then Panic else Ok (<[Z.to_nat p := donation p d + 1]> d)
  else Ok d.

Definition thread_priority_update_donation (t old new : Z) (m : machine) : res machine :=
  if (old <? 0) || (SCHED_PRIO_NONE <? old) || (new <? 0) || (SCHED_PRIO_NONE <? new) then Panic
  else
    let! th := get_thread t m in
    let! d := withdraw old (pi_donations th) in
    let! d := donate new d in
    let th := with_donations d th in
    thread_apply_effective_priority t (thread_effective_priority th) (put_thread t th m).

(** ** The effective priority *)

Definition donations_ok (d : list Z) : Prop :=
  length d = 64%nat /\ Forall (fun n => 0 <= n <= UINT16_MAX) d.

(** a well-formed thread: the effective priority is up to date *)
Definition prio_ok (th : thread) : Prop :=
  donations_ok (pi_donations th) /\ 0 <= base_priority th < 64 /\
  priority th = thread_effective_priority th.

Lemma first_donation_spec i l :
  match first_donation i l with
  | Some j => exists n d, j = i + Z.of_nat n /\ l !! n = Some d /\ d <> 0 /\
      forall k d', (k < n)%nat -> l !! k = Some d' -> d' = 0
  | None => Forall (fun d => d = 0) l
  end.
Proof.
  revert i. induction l as [| d l IH]; intros i; simpl; [constructor |].
  destruct (Z.eqb_spec d 0) as [-> | Hd].
  - specialize (IH (i + 1)). destruct (first_donation (i + 1) l) as [j |]; [| by constructor].
    destruct IH as (n & d & -> & Hn & Hd & Hlow). exists (S n), d. split_and!; try done; [lia |].
    intros [| k] d' Hk E; simpl in E; [by injection E as <- | by apply (Hlow k d'); [lia |]].
  - exists 0%nat, d. split_and!; try done; [lia |]. intros k d' Hk. lia.
Qed.

(** it is the best of the base priority and of the donations *)
Lemma effective_spec th :
  donations_ok (pi_donations th) -> 0 <= base_priority th < 64 ->
  let e := thread_effective_priority th in
  0 <= e < 64 /\ e <= base_priority th /\
  (forall p, 0 <= p < 64 -> donation p (pi_donations th) <> 0 -> e <= p) /\
  (e = base_priority th \/ donation e (pi_donations th) <> 0).
Proof.
  intros [Hl _] Hb e. unfold e, thread_effective_priority.
  pose proof (first_donation_spec 0 (pi_donations th)) as H.
  destruct (first_donation 0 (pi_donations th)) as [i |].
  - destruct H as (n & d & -> & Hn & Hd & Hlow). rewrite Z.add_0_l.
    pose proof (lookup_lt_Some _ _ _ Hn) as Hlt.
    assert (Hle : forall p, 0 <= p < 64 -> donation p (pi_donations th) <> 0 -> Z.of_nat n <= p).
    { intros p Hp Hne. destruct (Z.le_gt_cases (Z.of_nat n) p) as [| Hgt]; [done |]. exfalso.
      apply Hne. unfold donation. destruct (pi_donations th !! Z.to_nat p) eqn:E; [| done].
      by apply (Hlow (Z.to_nat p)); [lia |]. }
    destruct (Z.ltb_spec (Z.of_nat n) (base_priority th)); split_and!; try lia.
    + intros p Hp Hne. by apply Hle.
    + right. unfold donation. by rewrite Nat2Z.id, Hn.
    + intros p Hp Hne. pose proof (Hle p Hp Hne). lia.
  - split_and!; try lia. intros p Hp Hne. exfalso. apply Hne. unfold donation.
    destruct (pi_donations th !! Z.to_nat p) eqn:E; [| done]. simpl.
    by apply (Forall_lookup_1 _ _ _ _ H E).
Qed.

(** ** Moving in the run queue *)

Lemma in_queue_other c ths t th th' rq :
  ths !! t = Some th -> in_queue ths c rq -> (forall p, ~ at_prio rq p t) ->
  in_queue (<[t := th']> ths) c rq.
Proof.
  intros Ht Hin Hno p u Hu. destruct (Hin p u Hu) as (uth & E & ?). exists uth. split; [| done].
  rewrite lookup_insert_ne; [done |]. intros ->. by apply (Hno p).
Qed.

(** the machine's threads with a new record for [t] of the same status *)
Lemma status_ok_update ths ctx ctx' t th th' :
  ths !! t = Some th -> status th' = status th ->
  current ctx' = current ctx -> idle ctx' = idle ctx -> zombiequeue ctx' = zombiequeue ctx ->
  queued (runqueue ctx') ≡ₚ queued (runqueue ctx) ->
  status_ok ths ctx -> status_ok (<[t := th']> ths) ctx'.
Proof.
  intros Ht Hst E1 E2 E3 HQ (S1 & S2 & S3).
  assert (Hold : forall u uth, <[t := th']> ths !! u = Some uth ->
      exists uth0, ths !! u = Some uth0 /\ status uth = status uth0).
  { intros u uth. destruct (decide (u = t)) as [-> |].
    - rewrite lookup_insert_eq. intros [= <-]. eauto.
    - rewrite lookup_insert_ne by done. eauto. }
  unfold status_ok. rewrite E1, E2, E3. split_and!.
  - intros u uth Hu (uth0 & Eu & ->)%Hold. rewrite HQ in Hu. by apply S1.
  - intros u uth Hu (uth0 & Eu & ->)%Hold. by apply (S2 u).
  - intros uth (uth0 & Eu & ->)%Hold. by apply S3.
Qed.

Lemma queues_ok_update c ths ctx rq' t th th' :
  ths !! t = Some th -> queues_ok c ths ctx -> rq_ok rq' ->
  queued rq' ≡ₚ queued (runqueue ctx) -> in_queue (<[t := th']> ths) c rq' ->
  t ∉ queued (zombiequeue ctx) -> queues_ok c (<[t := th']> ths) (with_rq rq' ctx).
Proof.
  intros Ht (Hr & Hz & Hin & Hinz & Hdis & [ith Hid] & Hi1 & Hi2 & Hcur & Hzc) Hr' HQ Hin' Hnz.
  unfold queues_ok. simpl. split_and!; try done.
  - apply (in_queue_other _ _ _ th); try done. intros p Hp. by apply Hnz, (at_prio_queued _ p).
  - intros u Hu. rewrite HQ in Hu. by apply Hdis.
  - destruct (decide (idle ctx = t)) as [-> |]; [rewrite lookup_insert_eq; eauto |].
    rewrite lookup_insert_ne by done. eauto.
  - by rewrite HQ.
  - by rewrite HQ.
Qed.

(** the queue with [t] moved from its list to the tail of the list of [p] *)
Definition moved (t old p : Z) (rq rq' : runqueue_t) : Prop :=
  exists l1 l2 lp, head_at old rq = Some (l1 ++ t :: l2) /\ head_at p rq = Some lp /\
    forall r, head_at r rq' = if r =? p then Some (lp ++ [t])
                              else if r =? old then Some (l1 ++ l2) else head_at r rq.

Lemma moved_in_queue c ths t th p rq rq' :
  ths !! t = Some th -> target_cpu th = c -> rq_ok rq -> in_queue ths c rq ->
  priority th <> p -> moved t (priority th) p rq rq' ->
  in_queue (<[t := with_priority p th]> ths) c rq'.
Proof.
  intros Ht Hc Hr Hin Hne (l1 & l2 & lp & Hl & Hlp & Hm) r u (l & Hlr & Hu).
  assert (Hat : at_prio rq (priority th) t) by (eexists; split; [done | lmem]).
  assert (Hold : forall q, q <> priority th -> at_prio rq q u -> u <> t).
  { intros q Hq Hu' ->. by apply Hq, (at_prio_unique rq _ _ t Hr). }
  assert (Hkeep : forall q, at_prio rq q u -> u <> t -> q = r ->
      exists th', <[t := with_priority p th]> ths !! u = Some th' /\ priority th' = r /\ target_cpu th' = c).
  { intros q Hq Hut <-. destruct (Hin q u Hq) as (uth & E & ?). exists uth.
    by rewrite lookup_insert_ne by congruence. }
  rewrite Hm in Hlr. destruct (Z.eqb_spec r p) as [-> | Hrp].
  - injection Hlr as <-. apply elem_of_app in Hu as [Hu | ->%list_elem_of_singleton].
    + assert (at_prio rq p u) by (by exists lp). apply (Hkeep p); try done. by apply (Hold p).
    + rewrite lookup_insert_eq. eexists. split_and!; done.
  - destruct (Z.eqb_spec r (priority th)) as [-> | Hro].
    + injection Hlr as <-. apply (Hkeep (priority th)); [eexists; split; [done | lmem] | | done].
      intros ->. pose proof (head_at_nodup _ _ _ Hr Hl) as ND.
      rewrite <- Permutation_middle in ND. by apply NoDup_cons in ND as [ND _].
    + assert (at_prio rq r u) by (by exists l). apply (Hkeep r); try done. by apply (Hold r).
Qed.

Lemma node_del_absent t rq : t ∉ queued rq -> node_del t rq = rq.
Proof.
  intros Ht. unfold node_del. destruct rq as [hs b n]. simpl in *. f_equal.
  rewrite <- (list_fmap_id hs) at 2. apply list_fmap_ext. intros i l Hl. simpl.
  apply filter_out. intros Hin. apply Ht. unfold queued. apply list_elem_of_In, in_concat.
  exists l. split; apply list_elem_of_In; [by eapply list_elem_of_lookup_2 | done].
Qed.

(** every CPU is consistent *)
Definition machine_ok (m : machine) : Prop :=
  forall c ctx, cpus m !! c = Some ctx -> 0 <= c < MAX_CPUS /\ sched_ok c m.

(** what applying a priority does to the machine *)
Definition applied (t p : Z) (th : thread) (m m' : machine) : Prop :=
  threads m' = <[t := with_priority p th]> (threads m) /\ g_ticks m' = g_ticks m /\
  (forall c, c <> target_cpu th -> cpus m' !! c = cpus m !! c) /\
  match cpus m !! target_cpu th with
  | None => cpus m' !! target_cpu th = None
  | Some ctx =>
      exists rq' b, cpus m' !! target_cpu th = Some (with_need_resched b (with_rq rq' ctx)) /\
        rq_ok rq' /\ queued rq' ≡ₚ queued (runqueue ctx) /\
        if bool_decide (t ∈ queued (runqueue ctx)) && negb (priority th =? p)
        then b = true /\ moved t (priority th) p (runqueue ctx) rq'
        else rq' = runqueue ctx /\ b = need_resched ctx
  end.

Lemma applied_keep t p th m :
  (forall ctx, cpus m !! target_cpu th = Some ctx -> rq_ok (runqueue ctx) /\
     (t ∉ queued (runqueue ctx) \/ priority th = p)) ->
  applied t p th m (put_thread t (with_priority p th) m).
Proof.
  intros H. split_and!; try done. simpl. destruct (cpus m !! target_cpu th) as [ctx |] eqn:E; [| done].
  destruct (H ctx eq_refl) as [Hr Hno]. exists (runqueue ctx), (need_resched ctx).
  split_and!; try done; [by destruct ctx |]. destruct Hno as [Hno | ->].
  - by rewrite bool_decide_eq_false_2.
  - by rewrite Z.eqb_refl, andb_false_r.
Qed.

Lemma put_put_same t th th' m : put_thread t th' (put_thread t th m) = put_thread t th' m.
Proof. unfold put_thread. simpl. by rewrite insert_insert_eq. Qed.

Lemma put_thread_id t th m : threads m !! t = Some th -> put_thread t th m = m.
Proof. intros Ht. unfold put_thread. rewrite insert_id by done. by destruct m. Qed.

Lemma with_priority_id th : with_priority (priority th) th = th.
Proof. by destruct th. Qed.

Lemma queued_moves c ths ctx t th p :
  queues_ok c ths ctx -> ths !! t = Some th -> t ∈ queued (runqueue ctx) -> 0 <= p < 64 ->
  priority th <> p ->
  exists rq', (let! rq := clear_if_empty (priority th) (node_del t (runqueue ctx)) in add_tail p t rq)
      = Ok rq' /\ rq_ok rq' /\ queued rq' ≡ₚ queued (runqueue ctx) /\
    moved t (priority th) p (runqueue ctx) rq'.
Proof.
  intros (Hr & _ & Hin & _) Ht Hq Hp Hne. destruct (queued_at_prio _ _ Hr Hq) as (q & l & Hl & Hin').
  destruct (Hin q t) as (th' & E & <- & _); [by exists l |]. rewrite Ht in E. injection E as <-.
  apply list_elem_of_split in Hin' as (l1 & l2 & ->).
  destruct (move_ok _ _ p t l1 l2 Hr Hl Hp) as (lp & rq' & Hlp & E & Hok & Hm & HQ).
  exists rq'. split_and!; try done. exists l1, l2, lp. split_and!; try done.
  destruct (Z.eqb_spec p (priority th)); [congruence | done].
Qed.

Lemma apply_ok t p m th :
  machine_ok m -> threads m !! t = Some th -> 0 <= priority th < 64 -> 0 <= p < 64 ->
  (forall c ctx, cpus m !! c = Some ctx -> t ∉ queued (zombiequeue ctx)) ->
  exists m', thread_apply_effective_priority t p m = Ok m' /\ applied t p th m m'.
Proof.
  intros Hm Ht Hpr Hp Hz. unfold thread_apply_effective_priority, get_thread. rewrite Ht. simpl.
  assert (Hrq : forall ctx, cpus m !! target_cpu th = Some ctx -> queues_ok (target_cpu th) (threads m) ctx).
  { intros ctx Hc. destruct (Hm _ _ Hc) as (_ & ctx' & Hc' & Hq & _). rewrite Hc in Hc'. by injection Hc' as <-. }
  destruct (Z.eqb_spec (priority th) p) as [E | Hne].
  { exists m. split; [done |]. rewrite <- (put_thread_id t (with_priority p th) m) at 2.
    - apply applied_keep. intros ctx Hc. split; [apply (Hrq ctx Hc) | by right].
    - by rewrite <- E, with_priority_id. }
  unfold SCHED_PRIO_COUNT. destruct (Z.ltb_spec (priority th) 0); [lia |].
  destruct (Z.leb_spec 64 (priority th)); [lia |]. simpl.
  destruct (Z.ltb_spec (target_cpu th) 0) as [Hneg | _].
  { eexists. split; [done |]. apply applied_keep. intros ctx Hc. destruct (Hm _ _ Hc) as [? _]. lia. }
  destruct (cpus m !! target_cpu th) as [ctx |] eqn:Hc.
  2: { eexists. split; [done |]. apply applied_keep. intros ctx Hc'. congruence. }
  unfold node_linked. rewrite (bool_decide_eq_false_2 (t ∈ queued (zombiequeue ctx))) by (by eapply Hz).
  rewrite orb_false_r. case_bool_decide as Hin; simpl.
  2: { eexists. split; [done |]. apply applied_keep. intros ctx' Hc'. rewrite Hc in Hc'.
       injection Hc' as <-. split; [apply (Hrq ctx eq_refl) | by left]. }
  destruct (queued_moves _ _ ctx t th p (Hrq ctx eq_refl) Ht Hin Hp Hne) as (rq' & -> & Hok & HQ & Hmv).
  simpl. rewrite (node_del_absent t (zombiequeue ctx)) by (by eapply Hz).
  eexists. split; [done |]. unfold ipi_reschedule_cpu.
  destruct (Z.leb_spec MAX_CPUS (target_cpu th)); [destruct (Hm _ _ Hc); lia |].
  unfold put_cpu, put_thread. simpl. rewrite lookup_insert_eq. simpl. rewrite insert_insert_eq.
  unfold applied. simpl. rewrite Hc. split_and!; try done.
  - intros c Hne'. by rewrite lookup_insert_ne.
  - exists rq', true. rewrite lookup_insert_eq, bool_decide_eq_true_2 by done.
    destruct (Z.eqb_spec (priority th) p); [done |]. by split_and!.
Qed.

Lemma applied_ok t p th m m' :
  machine_ok m -> threads m !! t = Some th -> applied t p th m m' ->
  (forall c ctx, cpus m !! c = Some ctx -> t ∉ queued (zombiequeue ctx)) ->
  machine_ok m'.
Proof.
  intros Hm Ht (Eth & _ & Hoth & Htgt) Hz c ctx' Hc'. destruct (decide (c = target_cpu th)) as [-> | Hne].
  - destruct (cpus m !! target_cpu th) as [ctx |] eqn:Hc; [| congruence].
    destruct (Hm _ _ Hc) as (Hb & ctx0 & Hc0 & Hq & Hs). rewrite Hc in Hc0. injection Hc0 as <-.
    destruct Htgt as (rq' & b & E & Hr' & HQ & Hcase). split; [done |]. eexists. split; [exact E |].
    rewrite Eth. split.
    + apply (queues_ok_update _ _ ctx rq' t th); try done; [| by eapply Hz].
      pose proof Hq as (Hr & _ & Hin & _). case_bool_decide as Hin'; simpl in Hcase.
      * destruct (Z.eqb_spec (priority th) p) as [Ep | Ep]; simpl in Hcase.
        -- destruct Hcase as [-> _]. rewrite <- Ep, with_priority_id, insert_id by done. done.
        -- destruct Hcase as [_ Hmv]. by apply (moved_in_queue _ _ _ _ _ (runqueue ctx)).
      * destruct Hcase as [-> _]. apply (in_queue_other _ _ _ th); try done.
        intros q Hat. by apply Hin', (at_prio_queued _ q).
    + by apply (status_ok_update _ ctx _ t th).
  - rewrite (Hoth c Hne) in Hc'. destruct (Hm _ _ Hc') as (Hb & ctx0 & Hc0 & Hq & Hs).
    rewrite Hc' in Hc0. injection Hc0 as <-. split; [done |]. exists ctx'.
    rewrite (Hoth c Hne), Eth. pose proof Hq as (_ & _ & Hin & _). split_and!; try done.
    + rewrite <- (with_rq_id ctx'). apply (queues_ok_update _ _ ctx' _ t th); try done; [apply Hq | |].
      * apply (in_queue_other _ _ _ th); try done. intros q Hat.
        destruct (Hin q t Hat) as (th' & E & _ & Htc). rewrite Ht in E. injection E as <-. congruence.
      * by eapply Hz.
    + by apply (status_ok_update _ ctx' _ t th).
Qed.

(** replacing a thread's record without touching what the queues depend on *)
Lemma machine_ok_put t th th' m :
  machine_ok m -> threads m !! t = Some th -> priority th' = priority th ->
  target_cpu th' = target_cpu th -> status th' = status th -> machine_ok (put_thread t th' m).
Proof.
  intros Hm Ht Hp Htc Hst c ctx Hc. destruct (Hm c ctx Hc) as (Hb & ctx0 & Hc0 & Hq & Hs).
  simpl in Hc. rewrite Hc in Hc0. injection Hc0 as <-. split; [done |]. exists ctx. simpl.
  assert (Hin : forall rq, in_queue (threads m) c rq -> in_queue (<[t := th']> (threads m)) c rq).
  { intros rq Hin p u Hu. destruct (Hin p u Hu) as (uth & E & H1 & H2).
    destruct (decide (u = t)) as [-> |].
    - rewrite lookup_insert_eq. exists th'. rewrite Ht in E. injection E as <-. split_and!; congruence.
    - rewrite lookup_insert_ne by done. eauto. }
  split_and!; try done; [| by apply (status_ok_update _ ctx _ t th)].
  destruct Hq as (Hr & Hz & Hin1 & Hin2 & Hdis & [ith Hid] & Hrest). unfold queues_ok.
  split_and!; try done; try apply Hrest; try (by apply Hin).
  destruct (decide (idle ctx = t)) as [-> |]; [rewrite lookup_insert_eq | rewrite lookup_insert_ne by done]; eauto.
Qed.

(** ** Counting donations *)

Lemma donation_insert p q n d :
  length d = 64%nat -> 0 <= p < 64 -> 0 <= q < 64 ->
  donation q (<[Z.to_nat p := n]> d) = if q =? p then n else donation q d.
Proof.
  intros Hl Hp Hq. unfold donation. destruct (Z.eqb_spec q p) as [-> |].
  - by rewrite list_lookup_insert_eq by lia.
  - by rewrite list_lookup_insert_ne by lia.
Qed.

Lemma donation_bounds p d : donations_ok d -> 0 <= donation p d <= UINT16_MAX.
Proof.
  intros [_ HF]. unfold donation. destruct (d !! Z.to_nat p) eqn:E; simpl.
  - by apply (Forall_lookup_1 _ _ _ _ HF E).
  - unfold UINT16_MAX. lia.
Qed.

Lemma donations_insert p n d :
  donations_ok d -> 0 <= n <= UINT16_MAX -> donations_ok (<[Z.to_nat p := n]> d).
Proof. intros [Hl HF] Hn. split; [by rewrite length_insert | by apply Forall_insert]. Qed.

Lemma withdraw_spec p d :
  donations_ok d -> 0 <= p <= 64 ->
  match withdraw p d with
  | Ok d' => donations_ok d' /\
      forall q, 0 <= q < 64 -> donation q d' = donation q d - (if q =? p then 1 else 0)
  | Panic => p < 64 /\ donation p d = 0
  | Fault => False
  end.
Proof.
  intros Hd Hp. unfold withdraw, SCHED_PRIO_COUNT. pose proof (donation_bounds p d Hd).
  destruct (Z.ltb_spec p 64); [destruct (Z.eqb_spec (donation p d) 0); [done |] |].
  - split; [apply donations_insert; [done | lia] |]. intros q Hq.
    rewrite donation_insert by (apply Hd || lia). destruct (Z.eqb_spec q p); subst; lia.
  - split; [done |]. intros q Hq. destruct (Z.eqb_spec q p); lia.
Qed.

Lemma donate_spec p d :
  donations_ok d -> 0 <= p <= 64 ->
  match donate p d with
  | Ok d' => donations_ok d' /\
      forall q, 0 <= q < 64 -> donation q d' = donation q d + (if q =? p then 1 else 0)
  | Panic => p < 64 /\ donation p d = UINT16_MAX
  | Fault => False
  end.
Proof.
  intros Hd Hp. unfold donate, SCHED_PRIO_COUNT. pose proof (donation_bounds p d Hd).
  destruct (Z.ltb_spec p 64); [destruct (Z.eqb_spec (donation p d) UINT16_MAX); [done |] |].
  - split; [apply donations_insert; [done | lia] |]. intros q Hq.
    rewrite donation_insert by (apply Hd || lia). destruct (Z.eqb_spec q p); subst; lia.
  - split; [done |]. intros q Hq. destruct (Z.eqb_spec q p); lia.
Qed.

(** the common end of both operations: the record changes, the effective
    priority is applied, and everything stays consistent *)
Lemma refresh_ok t m th th1 :
  machine_ok m -> threads m !! t = Some th -> 0 <= priority th < 64 ->
  (forall c ctx, cpus m !! c = Some ctx -> t ∉ queued (zombiequeue ctx)) ->
  donations_ok (pi_donations th1) -> 0 <= base_priority th1 < 64 ->
  priority th1 = priority th -> target_cpu th1 = target_cpu th -> status th1 = status th ->
  let e := thread_effective_priority th1 in
  exists m', thread_apply_effective_priority t e (put_thread t th1 m) = Ok m' /\ machine_ok m' /\
    threads m' = <[t := with_priority e th1]> (threads m) /\ prio_ok (with_priority e th1) /\
    applied t e th1 (put_thread t th1 m) m'.
Proof.
  intros Hm Ht Hpr Hz Hd Hb E1 E2 E3 e. destruct (effective_spec th1 Hd Hb) as (He & _). fold e in He.
  pose proof (machine_ok_put t th th1 m Hm Ht E1 E2 E3) as Hm1.
  assert (Ht1 : threads (put_thread t th1 m) !! t = Some th1) by apply lookup_insert_eq.
  destruct (apply_ok t e _ th1 Hm1 Ht1) as (m' & E & Ha); try done; [by rewrite E1 |].
  exists m'. split; [done |]. split; [by apply (applied_ok t e th1 _ m' Hm1)|]. split_and!; try done.
  - destruct Ha as (-> & _). simpl. by rewrite insert_insert_eq.
Qed.

(** how good a thread's effective priority is: the best of base and donations *)
Definition best_priority (th : thread) : Prop :=
  priority th <= base_priority th /\
  (forall p, 0 <= p < 64 -> donation p (pi_donations th) <> 0 -> priority th <= p) /\
  (priority th = base_priority th \/ donation (priority th) (pi_donations th) <> 0).

Lemma prio_ok_best th : prio_ok th -> 0 <= priority th < 64 /\ best_priority th.
Proof.
  intros (Hd & Hb & E). destruct (effective_spec th Hd Hb) as (H1 & H2 & H3 & H4).
  rewrite <- E in *. by split; [| split_and!].
Qed.

(** the whole operation: the counts change by one each, and the new effective
    priority is applied *)
Lemma update_donation_spec t old new m th :
  machine_ok m -> threads m !! t = Some th -> prio_ok th -> 0 <= old <= 64 -> 0 <= new <= 64 ->
  (forall c ctx, cpus m !! c = Some ctx -> t ∉ queued (zombiequeue ctx)) ->
  match thread_priority_update_donation t old new m with
  | Fault => False
  | Panic =>
      old < 64 /\ donation old (pi_donations th) = 0 \/
      new < 64 /\ donation new (pi_donations th) - (if new =? old then 1 else 0) = UINT16_MAX
  | Ok m' => exists d,
      let th1 := with_donations d th in
      let e := thread_effective_priority th1 in
      (forall p, 0 <= p < 64 -> donation p d = donation p (pi_donations th)
         - (if p =? old then 1 else 0) + (if p =? new then 1 else 0)) /\
      machine_ok m' /\ threads m' = <[t := with_priority e th1]> (threads m) /\
      prio_ok (with_priority e th1) /\ applied t e th1 (put_thread t th1 m) m'
  end.
Proof.
  intros Hm Ht Hok Hold Hnew Hz. destruct (prio_ok_best th Hok) as [Hpr _]. destruct Hok as (Hd & Hb & _).
  unfold thread_priority_update_donation, SCHED_PRIO_NONE, SCHED_PRIO_COUNT.
  destruct (Z.ltb_spec old 0); [lia |]. destruct (Z.ltb_spec 64 old); [lia |].
  destruct (Z.ltb_spec new 0); [lia |]. destruct (Z.ltb_spec 64 new); [lia |]. simpl.
  unfold get_thread. rewrite Ht. simpl. pose proof (withdraw_spec old _ Hd Hold) as Hw.
  destruct (withdraw old (pi_donations th)) as [d1 | |]; [| by left | done].
  destruct Hw as [Hd1 Hw]. simpl. pose proof (donate_spec new d1 Hd1 Hnew) as Hn.
  destruct (donate new d1) as [d2 | |]; [| right; simpl | done].
  2: { destruct Hn as [Hn1 Hn2]. split; [done |]. rewrite Hw in Hn2 by lia. done. }
  destruct Hn as [Hd2 Hn]. simpl.
  destruct (refresh_ok t m th (with_donations d2 th) Hm Ht Hpr Hz Hd2 Hb) as
    (m' & -> & Hm' & Eth & Hok' & Ha); try done.
  exists d2. split_and!; try done. intros p Hp. rewrite Hn, Hw by done. lia.
Qed.

(** a donation changes the owner's effective priority and nothing else.
    Withdrawing a donation the owner does not hold, or exceeding the 16-bit
    count, stops the machine; otherwise the counts change by one each, the
    effective priority becomes the best of the base priority and the remaining
    donations (so it returns to the base when the last one is withdrawn), a
    queued thread moves to the tail of its new list with a reschedule request,
    and every CPU stays consistent. *)
Lemma donation_updates_priority t old new m th :
  machine_ok m -> threads m !! t = Some th -> prio_ok th -> 0 <= old <= 64 -> 0 <= new <= 64 ->
  (forall c ctx, cpus m !! c = Some ctx -> t ∉ queued (zombiequeue ctx)) ->
  match thread_priority_update_donation t old new m with
  | Fault => False
  | Panic =>
      old < 64 /\ donation old (pi_donations th) = 0 \/
      new < 64 /\ donation new (pi_donations th) - (if new =? old then 1 else 0) = UINT16_MAX
  | Ok m' => exists th', threads m' = <[t := th']> (threads m) /\ machine_ok m' /\
      prio_ok th' /\ best_priority th' /\
      base_priority th' = base_priority th /\ status th' = status th /\
      (forall p, 0 <= p < 64 -> donation p (pi_donations th') = donation p (pi_donations th)
         - (if p =? old then 1 else 0) + (if p =? new then 1 else 0)) /\
      applied t (priority th') (with_donations (pi_donations th') th)
        (put_thread t (with_donations (pi_donations th') th) m) m'
  end.
Proof.
  intros Hm Ht Hok Hold Hnew Hz. pose proof (update_donation_spec t old new m th Hm Ht Hok Hold Hnew Hz) as H.
  destruct (thread_priority_update_donation t old new m) as [m' | |]; [| done | done].
  destruct H as (d & Hc & Hm' & Eth & Hok' & Ha). eexists. split; [exact Eth |]. split; [done |].
  split; [done |]. split; [by apply prio_ok_best |]. by split_and!.
Qed.

(** [thread_set_priority] refuses a priority out of range (-1) and a blocked
    thread (-2) without changing anything, and otherwise sets the base: the
    effective priority becomes the best of the new base and the donations the
    thread still holds, its place in the queue follows, and every CPU stays
    consistent. *)
Lemma set_priority_correct t p m th :
  machine_ok m -> threads m !! t = Some th -> prio_ok th ->
  (forall c ctx, cpus m !! c = Some ctx -> t ∉ queued (zombiequeue ctx)) ->
  exists code m', thread_set_priority t p m = Ok (code, m') /\
    (code = -1 <-> ~ 0 <= p < 64) /\
    (code = -2 <-> 0 <= p < 64 /\ status th = THREAD_BLOCKED) /\
    (code <> 0 -> m' = m) /\
    (code = 0 -> exists th', threads m' = <[t := th']> (threads m) /\ machine_ok m' /\
       base_priority th' = p /\ pi_donations th' = pi_donations th /\ status th' = status th /\
       prio_ok th' /\ best_priority th' /\
       applied t (priority th') (with_base p th) (put_thread t (with_base p th) m) m').
Proof.
  intros Hm Ht Hok Hz. destruct (prio_ok_best th Hok) as [Hpr _]. destruct Hok as (Hd & Hb & _).
  unfold thread_set_priority, SCHED_PRIO_COUNT. destruct ((p <? 0) || (64 <=? p)) eqn:Er.
  { exists (-1), m. split_and!; try done; lia. }
  unfold get_thread. rewrite Ht. simpl. case_bool_decide as Hbl.
  { exists (-2), m. split_and!; try done; [lia |]. split; [intros _; split; [lia | done] | done]. }
  destruct (refresh_ok t m th (with_base p th) Hm Ht Hpr Hz Hd) as (m' & -> & Hm' & Eth & Hok' & Ha);
    try done; [simpl; lia |]. exists 0, m'. split; [done |]. split; [lia |].
  split; [split; [done | by intros [_ ?]] |]. split; [done |]. intros _.
  eexists. split; [exact Eth |]. split; [done |]. split_and!; try done; by apply prio_ok_best.
Qed.

(** ** Examples *)

Lemma ex_machine_ok : machine_ok ex_machine.
Proof.
  intros c ctx Hc. simpl in Hc. apply lookup_singleton_Some in Hc as [<- _].
  split; [unfold MAX_CPUS; lia | apply ex_sched_ok].
Qed.

Lemma ex_prio_ok s p : 0 <= p < 64 -> prio_ok (ex_thread s p).
Proof.
  intros Hp. split; [split; [done | apply Forall_replicate; unfold UINT16_MAX; lia] |].
  by split.
Qed.

Lemma ex_no_zombie t c ctx : cpus ex_machine !! c = Some ctx -> t ∉ queued (zombiequeue ctx).
Proof.
  intros Hc. simpl in Hc. apply lookup_singleton_Some in Hc as [_ <-]. simpl. apply not_elem_of_nil.
Qed.

(** thread 9 (priority 40) receives a donation at priority 5 *)
Lemma donation_updates_priority_witness :
  exists m', thread_priority_update_donation 9 64 5 ex_machine = Ok m' /\ machine_ok m' /\
    priority <$> threads m' !! 9 = Some 5.
Proof.
  assert (E : exists m', thread_priority_update_donation 9 64 5 ex_machine = Ok m' /\
    priority <$> threads m' !! 9 = Some 5) by (eexists; split; vm_compute; reflexivity).
  destruct E as (m' & E & Hp). exists m'. split; [exact E |]. split; [| exact Hp].
  pose proof (donation_updates_priority 9 64 5 ex_machine (ex_thread THREAD_READY 40)
    ex_machine_ok eq_refl (ex_prio_ok _ 40 ltac:(lia)) ltac:(lia) ltac:(lia) (ex_no_zombie 9)) as H.
  rewrite E in H. destruct H as (th' & _ & Hm & _). exact Hm.
Defined.

Lemma set_priority_correct_witness :
  exists code m', thread_set_priority 9 7 ex_machine = Ok (code, m') /\ code = 0.
Proof.
  destruct (set_priority_correct 9 7 ex_machine (ex_thread THREAD_READY 40)
    ex_machine_ok eq_refl (ex_prio_ok _ 40 ltac:(lia)) (ex_no_zombie 9)) as (code & m' & E & H1 & H2 & _).
  exists code, m'. split; [exact E |]. vm_compute in E. injection E as <- _. reflexivity.
Defined.
