(* ===== verification/Mutex.v ===== *)
(** * Sleeping mutexes ([kernel/mutex.c], [kernel/mutex.h])

    A mutex is a flag taken by compare-and-swap, an owner, and a list of
    waiting threads ordered by priority.  Its owner receives the priority of
    the first waiter as a donation.  Each critical section under [waiters.lock]
    is a function on the mutex and the [machine] of Sched.v.  The module
    [System] composes the sections of the default (raw) variant with the
    scheduler: any number of threads, CPUs and mutexes, interleaved between
    sections and compare-and-swaps. *)

From Stdlib Require Import Sorting.Sorted.
From stdpp Require Import base list gmap.
From S2P Require Import Prelude RunQueue Sched Priority.

(** [locked] is the flag; an absent owner is NULL *)
Record mutex := mk_mutex {
  locked : bool; owner : option Z; donated_priority : Z; waiters : list Z; wait_count : Z }.

Definition with_locked (b : bool) (mu : mutex) : mutex :=
  mk_mutex b (owner mu) (donated_priority mu) (waiters mu) (wait_count mu).
Definition with_owner (o : option Z) (mu : mutex) : mutex :=
  mk_mutex (locked mu) o (donated_priority mu) (waiters mu) (wait_count mu).
Definition with_donated (p : Z) (mu : mutex) : mutex :=
  mk_mutex (locked mu) (owner mu) p (waiters mu) (wait_count mu).
Definition with_waiters (l : list Z) (n : Z) (mu : mutex) : mutex :=
  mk_mutex (locked mu) (owner mu) (donated_priority mu) l n.

Definition mutex_init : mutex := mk_mutex false None SCHED_PRIO_NONE [] 0.

(** ** Sections under the waiters' lock *)

(** [None] is the failed compare-and-swap *)
Definition atomic_try_lock (mu : mutex) : option mutex :=
  if locked mu then None else Some (with_locked true mu).

Definition mutex_waiter_priority_locked (mu : mutex) (m : machine) : res Z :=
  match waiters mu with
  | [] => Ok SCHED_PRIO_NONE
  | t :: _ => let! th := get_thread t m in Ok (priority th)
  end.

(** before the first waiter of a worse priority, else at the tail *)
Fixpoint add_waiter (t p : Z) (ws : list Z) (m : machine) : res (list Z) :=
  match ws with
  | [] => Ok [t]
  | u :: ws' =>
      let! uth := get_thread u m in
      if p <? priority uth then Ok (t :: ws)
      else let! l := add_waiter t p ws' m in Ok (u :: l)
  end.

Definition mutex_add_waiter_locked (t : Z) (mu : mutex) (m : machine) : res mutex :=
  let! th := get_thread t m in
  let! l := add_waiter t (priority th) (waiters mu) m in
  Ok (with_waiters l (wait_count mu) mu).

Definition mutex_refresh_donation_locked (mu : mutex) (m : machine) : res (mutex * machine) :=
  let! new :=
    match owner mu with
    | Some _ => mutex_waiter_priority_locked mu m
    | None => Ok SCHED_PRIO_NONE
    end in
  let old := donated_priority mu in
  if old =? new then Ok (mu, m)
  else
    let! m :=
      match owner mu with
      | Some o => thread_priority_update_donation o old new m
      | None => Ok m
      end in
    Ok (with_donated (u8 new) mu, m).

(** a previous owner is only reported *)
Definition mutex_attach_owner_locked (t : Z) (mu : mutex) (m : machine) : res (mutex * machine) :=
  mutex_refresh_donation_locked (with_owner (Some t) (with_donated SCHED_PRIO_NONE mu)) m.

Definition mutex_detach_owner_locked (mu : mutex) (m : machine) : res (mutex * machine) :=
  let! m :=
    match owner mu with
    | Some o =>
        if donated_priority mu <? SCHED_PRIO_COUNT
        then thread_priority_update_donation o (donated_priority mu) SCHED_PRIO_NONE m
        else Ok m
    | None => Ok m
    end in
  Ok (with_owner None (with_donated SCHED_PRIO_NONE mu), m).

(** the number of threads woken, 0 or 1 *)
Definition __wake_up_one (mu : mutex) (m : machine) : res (Z * mutex * machine) :=
  match waiters mu with
  | [] => Ok (0, mu, m)
  | t :: ws =>
      let! m := thread_set_status t THREAD_READY m in
      Ok (1, with_waiters ws (wait_count mu - 1) mu, m)
  end.

(** the loop takes the waiters off one by one; [cpu_enqueue] also puts each
    into its CPU's run queue *)
Fixpoint wake_all_loop (ws : list Z) (n : Z) (mu : mutex) (m : machine) : res (Z * mutex * machine) :=
  match ws with
  | [] => Ok (n, mu, m)
  | t :: ws =>
      let mu := with_waiters ws (wait_count mu - 1) mu in
      let! m := thread_set_status t THREAD_READY m in
      let! th := get_thread t m in
      let! m := cpu_enqueue (target_cpu th) t m in
      wake_all_loop ws (n + 1) mu m
  end.

Definition __wake_up_all (mu : mutex) (m : machine) : res (Z * mutex * machine) :=
  wake_all_loop (waiters mu) 0 mu m.

Definition wake_up_all (mu : mutex) (m : machine) : res (Z * mutex * machine) :=
  let! (n, mu, m) := __wake_up_all mu m in
  if wait_count mu =? 0 then Ok (n, mu, m) else Panic.

(** the enqueueing part of both slow paths; [linked] tells whether the thread's
    [wait_node] is in a list already *)
Definition enqueue_waiter (t : Z) (linked : bool) (mu : mutex) (m : machine)
    : res (mutex * machine) :=
  if linked then Ok (mu, m)
  else
    let! m := thread_set_status t THREAD_BLOCKED m in
    let! mu := mutex_add_waiter_locked t mu m in
    mutex_refresh_donation_locked (with_waiters (waiters mu) (wait_count mu + 1) mu) m.

(** the slow path of [mutex_lock_raw], true when the lock was taken *)
Definition lock_slow_raw (t : Z) (linked : bool) (mu : mutex) (m : machine)
    : res (bool * mutex * machine) :=
  match atomic_try_lock mu with
  | Some mu => let! (mu, m) := mutex_attach_owner_locked t mu m in Ok (true, mu, m)
  | None => let! (mu, m) := enqueue_waiter t linked mu m in Ok (false, mu, m)
  end.

Definition mutex_unlock_raw (mu : mutex) (m : machine) : res (mutex * machine) :=
  let! (mu, m) := mutex_detach_owner_locked mu m in
  let! (_, mu, m) := __wake_up_one (with_locked false mu) m in
  Ok (mu, m).

(** the slow path of [mutex_lock_handoff] *)
Definition lock_slow_handoff (t : Z) (linked : bool) (mu : mutex) (m : machine)
    : res (bool * mutex * machine) :=
  if bool_decide (owner mu = Some t) then Ok (true, mu, m)
  else
    match owner mu, atomic_try_lock mu with
    | None, Some mu => let! (mu, m) := mutex_attach_owner_locked t mu m in Ok (true, mu, m)
    | _, _ => let! (mu, m) := enqueue_waiter t linked mu m in Ok (false, mu, m)
    end.

Definition mutex_unlock_handoff (mu : mutex) (m : machine) : res (mutex * machine) :=
  match waiters mu with
  | next :: _ =>
      let! (mu, m) := mutex_detach_owner_locked mu m in
      let! (_, mu, m) := __wake_up_one mu m in
      mutex_attach_owner_locked next mu m
  | [] =>
      let! (mu, m) := mutex_detach_owner_locked mu m in
      Ok (with_locked false mu, m)
  end.

Module System.

(** where a thread stands in [mutex_lock_raw] of mutex [i]: before the
    compare-and-swap, after a successful one and before the owner is attached,
    after a failed one and before the slow path, or about to call [schedule] *)
Inductive pc := Free | Start (i : nat) | Attach (i : nat) | Slow (i : nat) | Sleep (i : nat).

#[export] Instance pc_eq_dec : EqDecision pc.
Proof. solve_decision. Defined.

(** [held] records which thread has returned from [mutex_lock] of which mutex
    and not yet unlocked it *)
Record sys := mk_sys {
  mutexes : list mutex; mach : machine; pcs : gmap Z pc; held : list (Z * nat) }.

Definition pc_of (s : sys) (t : Z) : pc := default Free (pcs s !! t).

(** the CPU that runs [t]; idle threads take no mutex *)
Definition running_on (t : Z) (m : machine) : option Z :=
  match threads m !! t with
  | Some th =>
      match cpus m !! target_cpu th with
      | Some ctx =>
          if (current ctx =? t) && negb (idle ctx =? t) then Some (target_cpu th) else None
      | None => None
      end
  | None => None
  end.

Definition linked (s : sys) (t : Z) : bool :=
  existsb (fun mu => bool_decide (t ∈ waiters mu)) (mutexes s).

Inductive label :=
  | Lock (t : Z) (i : nat)
  | Cas (t : Z)
  | AttachL (t : Z)
  | SlowL (t : Z)
  | Yield (t : Z)
  | Unlock (t : Z) (i : nat)
  | Preempt (c : Z)
  | Tick (c : Z).

Definition set_mutex (i : nat) (mu : mutex) (m : machine) (p : pc) (t : Z) (h : list (Z * nat))
    (s : sys) : sys :=
  mk_sys (<[i := mu]> (mutexes s)) m (<[t := p]> (pcs s)) h.

Section run.
Variable kernel_root : Z.

(** one atomic step; [None] when it is not enabled *)
Definition run (l : label) (s : sys) : option (res sys) :=
  match l with
  | Lock t i =>
      match running_on t (mach s), pc_of s t, mutexes s !! i with
      | Some _, Free, Some _ =>
          if bool_decide ((t, i) ∈ held s) then None
          else Some (Ok (mk_sys (mutexes s) (mach s) (<[t := Start i]> (pcs s)) (held s)))
      | _, _, _ => None
      end
  | Cas t =>
      match running_on t (mach s), pc_of s t with
      | Some _, Start i =>
          match mutexes s !! i with
          | None => None
          | Some mu => Some (Ok
              match atomic_try_lock mu with
              | Some mu => set_mutex i mu (mach s) (Attach i) t (held s) s
              | None => set_mutex i mu (mach s) (Slow i) t (held s) s
              end)
          end
      | _, _ => None
      end
  | AttachL t =>
      match running_on t (mach s), pc_of s t with
      | Some _, Attach i =>
          match mutexes s !! i with
          | None => None
          | Some mu => Some (
              let! (mu, m) := mutex_attach_owner_locked t mu (mach s) in
              Ok (set_mutex i mu m Free t ((t, i) :: held s) s))
          end
      | _, _ => None
      end
  | SlowL t =>
      match running_on t (mach s), pc_of s t with
      | Some _, Slow i =>
          match mutexes s !! i with
          | None => None
          | Some mu => Some (
              let! (got, mu, m) := lock_slow_raw t (linked s t) mu (mach s) in
              Ok (if (got : bool) then set_mutex i mu m Free t ((t, i) :: held s) s
                  else set_mutex i mu m (Sleep i) t (held s) s))
          end
      | _, _ => None
      end
  | Yield t =>
      match running_on t (mach s), pc_of s t with
      | Some c, Sleep i => Some (
          let! (_, m) := schedule kernel_root c (mach s) in
          Ok (mk_sys (mutexes s) m (<[t := Start i]> (pcs s)) (held s)))
      | _, _ => None
      end
  | Unlock t i =>
      match running_on t (mach s), pc_of s t, mutexes s !! i with
      | Some _, Free, Some mu =>
          if bool_decide ((t, i) ∈ held s) then Some (
            let! (mu, m) := mutex_unlock_raw mu (mach s) in
            Ok (set_mutex i mu m Free t (filter (fun x => x <> (t, i)) (held s)) s))
          else None
      | _, _, _ => None
      end
  | Preempt c =>
      match cpus (mach s) !! c with
      | None => None
      | Some _ => Some (
          let! (_, m) := __schedule_irq kernel_root c (mach s) in
          Ok (mk_sys (mutexes s) m (pcs s) (held s)))
      end
  | Tick c =>
      match cpus (mach s) !! c with
      | None => None
      | Some _ => Some (
          let! m := timer_handler c (mach s) in Ok (mk_sys (mutexes s) m (pcs s) (held s)))
      end
  end.

Inductive reachable (s0 : sys) : sys -> Prop :=
  | reach_init : reachable s0 s0
  | reach_step l s s' : reachable s0 s -> run l s = Some (Ok s') -> reachable s0 s'.
End run.

(** ** The synchronisation invariant

    It speaks of the mutexes, of where each thread stands ([pcf]), of which
    thread holds what, of which threads are blocked ([blk]) and of which are on
    a CPU ([cur]). *)

Definition stage (p : pc) : option nat :=
  match p with Free => None | Start i | Attach i | Slow i | Sleep i => Some i end.

(** a thread that is trying to take mutex [i] and is not asleep *)
Definition contender (pcf : Z -> pc) (blk : Z -> Prop) (i : nat) (t : Z) : Prop :=
  (pcf t = Start i \/ pcf t = Slow i \/ pcf t = Sleep i) /\ ~ blk t.

Record lock_ok (pcf : Z -> pc) (blk : Z -> Prop) (h : list (Z * nat)) (i : nat) (mu : mutex) : Prop := {
  owner_holds : forall t, owner mu = Some t <-> (t, i) ∈ h;
  unlocked_free : locked mu = false -> owner mu = None /\ forall t, pcf t <> Attach i;
  locked_taken : locked mu = true -> owner mu <> None \/ exists t, pcf t = Attach i;
  attach_only : forall t, pcf t = Attach i -> owner mu = None /\ forall u, pcf u = Attach i -> u = t;
  waiters_nodup : NoDup (waiters mu) /\ wait_count mu = Z.of_nat (length (waiters mu));
  waiters_blocked : forall t, t ∈ waiters mu -> (pcf t = Sleep i \/ pcf t = Start i) /\ blk t;
  donated_range : 0 <= donated_priority mu <= 64 /\ (owner mu = None -> donated_priority mu = 64);
  no_lost_wakeup : waiters mu <> [] -> locked mu = true \/ exists t, contender pcf blk i t }.

Record sync_ok (ms : list mutex) (pcf : Z -> pc) (h : list (Z * nat)) (blk cur : Z -> Prop) : Prop := {
  locks_ok : forall i mu, ms !! i = Some mu -> lock_ok pcf blk h i mu;
  stages_ok : forall t i, stage (pcf t) = Some i -> is_Some (ms !! i);
  held_ok : forall t i, (t, i) ∈ h -> is_Some (ms !! i);
  blocked_waits : forall t, blk t -> exists i mu, ms !! i = Some mu /\ t ∈ waiters mu;
  running_awake : forall t, cur t -> blk t -> exists i, pcf t = Sleep i }.

(** a mutex no step of interest touches *)
Lemma lock_ok_frame pcf pcf' blk blk' h h' i mu :
  lock_ok pcf blk h i mu ->
  (forall u, pcf' u = pcf u /\ (blk' u <-> blk u) \/ stage (pcf u) <> Some i /\ stage (pcf' u) <> Some i) ->
  (forall u, (u, i) ∈ h' <-> (u, i) ∈ h) -> lock_ok pcf' blk' h' i mu.
Proof.
  intros [H1 H2 H3 H4 H5 H6 H7 H8] Hf Hh.
  assert (Hst : forall u p, stage p = Some i -> pcf' u = p -> pcf u = p).
  { intros u p Hp E. destruct (Hf u) as [[? _] | [_ ?]]; [congruence | by subst]. }
  assert (Hst' : forall u p, pcf u = p -> stage p = Some i -> pcf' u = p /\ (blk' u <-> blk u)).
  { intros u p E Hp. destruct (Hf u) as [[? ?] | [? _]]; [split; [congruence | done] | by subst]. }
  split; try done.
  - intros t. by rewrite Hh.
  - intros Hl. destruct (H2 Hl) as [? Hn]. split; [done |]. intros t E%Hst; [by apply (Hn t) | done].
  - intros Hl. destruct (H3 Hl) as [? | [t E]]; [by left | right]. exists t. by apply (Hst' t).
  - intros t E%Hst; [| done]. destruct (H4 t E) as [? Hu]. split; [done |].
    intros u Eu%Hst; [by apply Hu | done].
  - intros t Ht. destruct (H6 t Ht) as [[E | E] Hb]; destruct (Hst' t _ E eq_refl) as [-> Hb'];
      (split; [by auto | by apply Hb']).
  - intros Hw. destruct (H8 Hw) as [? | (t & E & Hb)]; [by left | right]. exists t.
    destruct E as [E | [E | E]]; destruct (Hst' t _ E eq_refl) as [E' Hb'];
      (split; [by auto | by rewrite Hb']).
Qed.

(** the function with one value replaced *)
Definition upd (f : Z -> pc) (t : Z) (p : pc) (u : Z) : pc := if u =? t then p else f u.

Lemma upd_eq f t p : upd f t p t = p.
Proof. unfold upd. by rewrite Z.eqb_refl. Qed.
Lemma upd_ne f t p u : u <> t -> upd f t p u = f u.
Proof. intros H. unfold upd. destruct (Z.eqb_spec u t); done. Qed.

(** a step of thread [t] on mutex [i]: the other mutexes keep their invariant *)
Lemma sync_step ms pcf h blk cur t i p mu mu' h' blk' cur' :
  sync_ok ms pcf h blk cur -> ms !! i = Some mu ->
  (stage (pcf t) = Some i \/ pcf t = Free) -> (stage p = Some i \/ p = Free) ->
  (forall u j, j <> i -> (u, j) ∈ h' <-> (u, j) ∈ h) ->
  (forall u, (u, i) ∈ h' -> (u, i) ∈ h \/ u = t) ->
  (forall u, (blk' u <-> blk u) \/ u ∈ waiters mu \/ u = t) ->
  (forall u, blk' u -> (u ∈ waiters mu' \/ blk u /\ u ∉ waiters mu)) ->
  (forall u, cur' u -> blk' u -> exists j, upd pcf t p u = Sleep j) ->
  lock_ok (upd pcf t p) blk' h' i mu' ->
  sync_ok (<[i := mu']> ms) (upd pcf t p) h' blk' cur'.
Proof.
  intros [L S H B R] Hi Hpc Hp Hh Hhi Hblk Hbw Hrun Hlock.
  assert (Hdom : forall j, is_Some (ms !! j) <-> is_Some (<[i := mu']> ms !! j)).
  { intros j. rewrite !lookup_lt_is_Some. by rewrite length_insert. }
  split.
  - intros j mj Hj. destruct (decide (j = i)) as [-> | Hne].
    + rewrite list_lookup_insert_eq in Hj by (by eapply lookup_lt_Some). by injection Hj as <-.
    + rewrite list_lookup_insert_ne in Hj by done.
      apply (lock_ok_frame pcf _ blk _ h); [by apply L | | intros u; by apply Hh].
      intros u. destruct (decide (u = t)) as [-> | Hut].
      * right. rewrite upd_eq. destruct Hpc as [Hpc | Hpc], Hp as [Hp | Hp]; rewrite ?Hpc, ?Hp; simpl;
          split; congruence.
      * rewrite upd_ne by done. destruct (Hblk u) as [? | [Hw | ?]]; [by left | | done]. right.
        destruct (waiters_blocked _ _ _ _ _ (L i mu Hi) u Hw) as [[E | E] _]; rewrite E; simpl;
          split; congruence.
  - intros u j. rewrite <- Hdom. destruct (decide (u = t)) as [-> | Hut].
    + rewrite upd_eq. intros E. destruct Hp as [Hp | ->]; [| done]. rewrite Hp in E.
      injection E as <-. by eexists.
    + rewrite upd_ne by done. by apply S.
  - intros u j Hu. rewrite <- Hdom. destruct (decide (j = i)) as [-> | Hne]; [by eexists |].
    apply (H u). by apply Hh.
  - intros u Hu. destruct (Hbw u Hu) as [Hw | [Hb Hnw]].
    + exists i, mu'. split; [| done]. apply list_lookup_insert_eq. by eapply lookup_lt_Some.
    + destruct (B u Hb) as (j & mj & Hj & Hw). exists j, mj. split; [| done].
      rewrite list_lookup_insert_ne; [done |]. intros ->. congruence.
  - done.
Qed.

(** case analysis on the thread a step moved *)
Ltac upd_case u t :=
  destruct (decide (u = t)) as [-> | ?]; [rewrite ?upd_eq in * | rewrite ?upd_ne in * by done].

(** a pc change of [t] that leaves the mutex alone: [t] does not wait on it, and
    neither its old nor its new position is [Attach] *)
Lemma lock_ok_move pcf blk h i mu t p :
  lock_ok pcf blk h i mu -> t ∉ waiters mu \/ p = Start i -> pcf t <> Attach i -> p <> Attach i ->
  (contender pcf blk i t -> locked mu = true \/ contender (upd pcf t p) blk i t) ->
  lock_ok (upd pcf t p) blk h i mu.
Proof.
  intros [H1 H2 H3 H4 H5 H6 H7 H8] Hw Ht Hp Hc. split; try done.
  - intros Hl. destruct (H2 Hl) as [? Hn]. split; [done |]. intros u. upd_case u t; [done | by apply Hn].
  - intros Hl. destruct (H3 Hl) as [? | [u E]]; [by left | right]. exists u. upd_case u t; done.
  - intros u Hu. upd_case u t; [done |]. destruct (H4 u Hu) as [? Hun]. split; [done |].
    intros v Hv. upd_case v t; [done | by apply Hun].
  - intros u Hu. destruct (H6 u Hu) as [? Hb]. upd_case u t; [| done].
    destruct Hw as [? | ->]; [done |]. split; [by right | done].
  - intros Hne. destruct (H8 Hne) as [? | [u Hu]]; [by left |]. upd_case u t.
    + destruct (Hc Hu) as [? | ?]; eauto.
    + right. exists u. unfold contender. by rewrite upd_ne.
Qed.

Section transitions.
Context (ms : list mutex) (pcf : Z -> pc) (h : list (Z * nat)) (blk cur : Z -> Prop).
Context (t : Z) (i : nat) (mu : mutex).
Hypothesis (Hok : sync_ok ms pcf h blk cur) (Hi : ms !! i = Some mu) (Hcur : cur t).

(** a running thread not about to sleep is awake and on no wait list *)
Lemma awake : (forall j, pcf t <> Sleep j) -> ~ blk t /\ forall j mj, ms !! j = Some mj -> t ∉ waiters mj.
Proof.
  intros Hn. assert (Hb : ~ blk t).
  { intros Hb. destruct (running_awake _ _ _ _ _ Hok t Hcur Hb) as [j Hj]. by apply (Hn j). }
  split; [done |]. intros j mj Hj Hw. by apply Hb, (waiters_blocked _ _ _ _ _ (locks_ok _ _ _ _ _ Hok j mj Hj) t).
Qed.

Lemma t_lock : pcf t = Free -> sync_ok ms (upd pcf t (Start i)) h blk cur.
Proof.
  intros Hp. destruct (awake ltac:(congruence)) as [Hb Hw].
  rewrite <- (list_insert_id ms i mu Hi).
  apply (sync_step ms pcf h blk cur t i _ mu mu h blk cur); auto; try tauto.
  - intros u. destruct (decide (u ∈ waiters mu)); auto.
  - intros u Hu Hbu. upd_case u t; [done |]. by apply (running_awake _ _ _ _ _ Hok).
  - apply lock_ok_move; [by apply Hok | by right | congruence | done |]. right. split; [by rewrite upd_eq; left | done].
Qed.

Lemma t_cas_fail : pcf t = Start i -> locked mu = true -> sync_ok ms (upd pcf t (Slow i)) h blk cur.
Proof.
  intros Hp Hl. destruct (awake ltac:(congruence)) as [Hb Hw].
  rewrite <- (list_insert_id ms i mu Hi).
  apply (sync_step ms pcf h blk cur t i _ mu mu h blk cur); auto; try tauto.
  - left. by rewrite Hp.
  - intros u. destruct (decide (u ∈ waiters mu)); auto.
  - intros u Hu Hbu. upd_case u t; [done |]. by apply (running_awake _ _ _ _ _ Hok).
  - apply lock_ok_move; [by apply Hok | left; by apply (Hw i) | congruence | done |]. by left.
Qed.

Lemma t_cas : pcf t = Start i -> locked mu = false ->
  sync_ok (<[i := with_locked true mu]> ms) (upd pcf t (Attach i)) h blk cur.
Proof.
  intros Hp Hl. destruct (awake ltac:(congruence)) as [Hb Hw].
  apply (sync_step ms pcf h blk cur t i _ mu _ h blk cur); auto; try tauto.
  - left. by rewrite Hp.
  - intros u. destruct (decide (u ∈ waiters mu)); auto.
  - intros u Hu Hbu. upd_case u t; [done |]. by apply (running_awake _ _ _ _ _ Hok).
  - destruct (locks_ok _ _ _ _ _ Hok i mu Hi) as [H1 H2 H3 H4 H5 H6 H7 H8].
    destruct (H2 Hl) as [Ho Hna]. split; simpl; try done; auto.
    + intros _. right. exists t. by rewrite upd_eq.
    + intros u Hu. split; [done |]. intros v Hv. upd_case u t; [| by apply Hna in Hu].
      upd_case v t; [done | by apply Hna in Hv].
    + intros u Hu. upd_case u t; [by apply (Hw i mu) in Hu | by apply H6].
Qed.

Lemma t_take mu' :
  pcf t = Attach i \/ pcf t = Slow i /\ locked mu = false ->
  locked mu' = true -> owner mu' = Some t -> 0 <= donated_priority mu' <= 64 ->
  waiters mu' = waiters mu -> wait_count mu' = wait_count mu ->
  sync_ok (<[i := mu']> ms) (upd pcf t Free) ((t, i) :: h) blk cur.
Proof.
  intros Hp Hl Ho Hd Ew Ec.
  assert (Hns : forall j, pcf t <> Sleep j) by (intros j; destruct Hp as [-> | [-> _]]; done).
  destruct (awake Hns) as [Hb Hw].
  destruct (locks_ok _ _ _ _ _ Hok i mu Hi) as [H1 H2 H3 H4 H5 H6 H7 H8].
  assert (Hfree : owner mu = None /\ forall u, pcf u = Attach i -> u = t).
  { destruct Hp as [Hp | [Hp Hf]]; [by apply H4 |]. destruct (H2 Hf) as [? Hn]. split; [done |].
    intros u Hu. by apply Hn in Hu. }
  destruct Hfree as [Hno Honly].
  apply (sync_step ms pcf h blk cur t i _ mu _ _ blk cur); auto.
  - left. destruct Hp as [-> | [-> _]]; done.
  - intros u j Hj. rewrite elem_of_cons. split; [intros [[= -> ->] | ?]; done | by right].
  - intros u. rewrite elem_of_cons. intros [[= ->] | ?]; auto.
  - intros u Hu. rewrite Ew. destruct (decide (u ∈ waiters mu)); auto.
  - intros u Hu Hbu. upd_case u t; [done |]. by apply (running_awake _ _ _ _ _ Hok).
  - split; rewrite ?Ew, ?Ec; auto.
    + intros u. rewrite Ho, elem_of_cons. rewrite <- H1, Hno. split; [intros [= ->]; by left |].
      intros [[= ->] | [=]]. done.
    + congruence.
    + intros _. left. congruence.
    + intros u Hu. upd_case u t; [done |]. by apply Honly in Hu.
    + intros u Hu. upd_case u t; [by apply (Hw i mu) in Hu | by apply H6].
    + split; [done | congruence].
Qed.

Lemma t_enqueue mu' blk' :
  pcf t = Slow i -> locked mu = true -> locked mu' = true -> owner mu' = owner mu ->
  0 <= donated_priority mu' <= 64 -> (owner mu' = None -> donated_priority mu' = 64) ->
  waiters mu' ≡ₚ t :: waiters mu -> wait_count mu' = wait_count mu + 1 ->
  (forall u, blk' u <-> blk u \/ u = t) ->
  sync_ok (<[i := mu']> ms) (upd pcf t (Sleep i)) h blk' cur.
Proof.
  intros Hp Hl Hl' Ho Hd Hd' Ew Ec Hb'. destruct (awake ltac:(congruence)) as [Hb Hw].
  destruct (locks_ok _ _ _ _ _ Hok i mu Hi) as [H1 H2 H3 H4 H5 H6 H7 H8].
  apply (sync_step ms pcf h blk cur t i _ mu _ _ blk' cur); auto; try tauto.
  - left. by rewrite Hp.
  - intros u. destruct (decide (u = t)); [auto |]. left. rewrite Hb'. tauto.
  - intros u [Hu | ->]%Hb'; rewrite Ew, elem_of_cons; [| auto].
    destruct (decide (u ∈ waiters mu)); auto.
  - intros u Hu Hbu. upd_case u t; [by eexists |]. apply (running_awake _ _ _ _ _ Hok); [done |].
    apply Hb' in Hbu. tauto.
  - split; rewrite ?Ho; auto.
    + congruence.
    + intros _. destruct (H3 Hl) as [? | [u Hu]]; [by left | right]. exists u.
      upd_case u t; [congruence | done].
    + intros u Hu. upd_case u t; [done |]. destruct (H4 u Hu) as [? Hun]. split; [done |].
      intros v Hv. upd_case v t; [done | by apply Hun].
    + rewrite Ew, Ec. destruct H5 as [ND ->]. split; [| simpl; lia].
      apply NoDup_cons. split; [by apply (Hw i) | done].
    + intros u. rewrite Ew, elem_of_cons, Hb'. intros [-> | Hu].
      * rewrite upd_eq. auto.
      * upd_case u t; [auto |]. destruct (H6 u Hu). auto.
    + rewrite Ho in Hd'. auto.
Qed.

Lemma t_unlock mu' blk' :
  pcf t = Free -> (t, i) ∈ h -> locked mu' = false -> owner mu' = None ->
  donated_priority mu' = 64 -> waiters mu' = tail (waiters mu) ->
  wait_count mu' = Z.of_nat (length (waiters mu')) ->
  (forall u, blk' u <-> blk u /\ Some u <> head (waiters mu)) ->
  sync_ok (<[i := mu']> ms) (upd pcf t Free) (filter (fun x => x <> (t, i)) h) blk' cur.
Proof.
  intros Hp Hh Hl Ho Hd Ew Ec Hb'. destruct (awake ltac:(congruence)) as [Hb Hw].
  destruct (locks_ok _ _ _ _ _ Hok i mu Hi) as [H1 H2 H3 H4 H5 H6 H7 H8].
  assert (Hown : owner mu = Some t) by (by apply H1).
  assert (Hsame : forall u, upd pcf t Free u = pcf u) by (intros u; upd_case u t; done).
  assert (Hfil : forall u j, (u, j) ∈ filter (fun x => x <> (t, i)) h <-> (u, j) ∈ h /\ ~ (u = t /\ j = i)).
  { intros u j. rewrite list_elem_of_filter. split.
    - intros [Hne Hin]. split; [done |]. intros [-> ->]. done.
    - intros [Hin Hne]. split; [| done]. intros [= -> ->]. by apply Hne. }
  assert (Hin : forall u, u ∈ waiters mu -> Some u = head (waiters mu) \/ u ∈ waiters mu').
  { intros u. rewrite Ew. destruct (waiters mu); simpl; [by intros ?%elem_of_nil |].
    rewrite elem_of_cons. intros [-> | ?]; auto. }
  assert (Hsub : forall u, u ∈ waiters mu' -> u ∈ waiters mu /\ Some u <> head (waiters mu)).
  { intros u. rewrite Ew. destruct H5 as [ND _]. destruct (waiters mu); simpl; [done |].
    apply NoDup_cons in ND as [ND _]. intros Hu. split; [by right | congruence]. }
  apply (sync_step ms pcf h blk cur t i _ mu _ _ blk' cur); auto.
  - intros u j Hj. rewrite Hfil. tauto.
  - intros u. rewrite Hfil. tauto.
  - intros u. destruct (decide (u ∈ waiters mu)) as [| Hn]; [auto |]. left. rewrite Hb'. split; [tauto |].
    intros Hu. split; [done |]. intros E. apply Hn. destruct (waiters mu); [done |]. injection E as ->. by left.
  - intros u [Hu Hne]%Hb'. destruct (decide (u ∈ waiters mu)) as [Hu' |]; [| auto].
    destruct (Hin u Hu'); [done | auto].
  - intros u Hu [Hbu _]%Hb'. rewrite Hsame. by apply (running_awake _ _ _ _ _ Hok).
  - split; rewrite ?Ho; try done.
    + intros u. rewrite Hfil. split; [done |]. intros [Hu Hne]. exfalso. apply Hne.
      apply H1 in Hu. rewrite Hown in Hu. by injection Hu as ->.
    + intros _. split; [done |]. intros u. rewrite Hsame. intros Hu. apply H4 in Hu as [? _]. congruence.
    + congruence.
    + intros u. rewrite Hsame. intros Hu. apply H4 in Hu as [? _]. congruence.
    + split; [| done]. rewrite Ew. destruct H5 as [ND _]. destruct (waiters mu); [constructor |].
      by apply NoDup_cons in ND as [_ ND].
    + intros u Hu. rewrite Hsame, Hb'. destruct (Hsub u Hu) as [Hu' ?]. destruct (H6 u Hu'). auto.
    + split; [lia | done].
    + intros Hne. right. rewrite Ew in Hne. destruct (waiters mu) as [| w ws] eqn:E; [done |].
      exists w. unfold contender. rewrite Hsame, Hb'. destruct (H6 w) as [Hpw _]; [lmem |].
      split; [tauto |]. simpl. tauto.
Qed.
End transitions.

(** the scheduler moves threads on and off CPUs; [t] may go from [Sleep] to
    [Start], in which case it is no longer running unless it is awake *)
Lemma t_sched ms pcf pcf' h blk blk' cur cur' :
  sync_ok ms pcf h blk cur -> (forall u, blk' u <-> blk u) ->
  (forall u, cur' u -> ~ blk u \/ cur u /\ pcf' u = pcf u) ->
  (forall u, pcf' u = pcf u \/ exists i, pcf u = Sleep i /\ pcf' u = Start i) ->
  sync_ok ms pcf' h blk' cur'.
Proof.
  intros [L S H B R] Hb Hc Hp.
  assert (Hst : forall u, stage (pcf' u) = stage (pcf u)).
  { intros u. destruct (Hp u) as [-> | (i & -> & ->)]; done. }
  assert (Hat : forall u i, pcf' u = Attach i <-> pcf u = Attach i).
  { intros u i. destruct (Hp u) as [-> | (j & -> & ->)]; done. }
  split; try done.
  - intros i mu Hi. destruct (L i mu Hi) as [H1 H2 H3 H4 H5 H6 H7 H8]. split; try done.
    + intros Hl. destruct (H2 Hl) as [? Hn]. split; [done |]. intros u. rewrite Hat. apply Hn.
    + intros Hl. destruct (H3 Hl) as [? | [u Hu]]; [by left | right]. exists u. by rewrite Hat.
    + intros u Hu%Hat. destruct (H4 u Hu) as [? Hn]. split; [done |]. intros v Hv%Hat. by apply Hn.
    + intros u Hu. rewrite Hb. destruct (H6 u Hu) as [Hpu Hbu]. split; [| done].
      destruct (Hp u) as [-> | (j & E & ->)]; [done |]. rewrite E in Hpu.
      destruct Hpu as [[= ->] | [=]]. by right.
    + intros Hne. destruct (H8 Hne) as [? | (u & Hu & Hnb)]; [by left | right]. exists u.
      unfold contender. rewrite Hb. split; [| done].
      destruct (Hp u) as [-> | (j & E & ->)]; [done |]. rewrite E in Hu.
      destruct Hu as [[=] | [[=] | [= ->]]]. auto.
  - intros u i. rewrite Hst. apply S.
  - intros u Hu. apply Hb in Hu. by apply B.
  - intros u Hcu Hbu. apply Hb in Hbu. destruct (Hc u Hcu) as [? | [Hcu' ->]]; [done |]. by apply R.
Qed.

(** ** Donations

    Thread [t] holds one donation at [p] for each mutex it owns whose first
    waiter's recorded priority is [p]. *)

Definition contributes (mu : mutex) (t p : Z) : Z :=
  if bool_decide (owner mu = Some t) && (donated_priority mu =? p) then 1 else 0.

Fixpoint contributions (ms : list mutex) (t p : Z) : Z :=
  match ms with [] => 0 | mu :: ms => contributes mu t p + contributions ms t p end.

Lemma contributes_range mu t p : 0 <= contributes mu t p <= 1.
Proof. unfold contributes. destruct (_ && _); lia. Qed.

Lemma contributions_range ms t p : 0 <= contributions ms t p <= Z.of_nat (length ms).
Proof.
  induction ms as [| mu ms IH]; simpl; [lia |]. pose proof (contributes_range mu t p). lia.
Qed.

Lemma contributions_insert ms i mu mu' t p :
  ms !! i = Some mu ->
  contributions (<[i := mu']> ms) t p = contributions ms t p - contributes mu t p + contributes mu' t p.
Proof.
  revert i. induction ms as [| m0 ms IH]; intros i Hi; [done |]. destruct i as [| i]; simpl in *.
  - injection Hi as ->. lia.
  - rewrite (IH i Hi). lia.
Qed.

Lemma contributions_split ms i mu t p :
  ms !! i = Some mu ->
  contributes mu t p <= contributions ms t p <= Z.of_nat (length ms) - 1 + contributes mu t p.
Proof.
  revert i. induction ms as [| m0 ms IH]; intros i Hi; [done |]. destruct i as [| i]; simpl in *.
  - injection Hi as ->. pose proof (contributions_range ms t p). lia.
  - pose proof (IH i Hi). pose proof (contributes_range m0 t p). lia.
Qed.

(** the machine side of the invariant *)
Record mach_ok (m : machine) : Prop := {
  m_cpus : machine_ok m;
  m_quiet : forall c ctx, cpus m !! c = Some ctx ->
    preempt_count ctx = 0 /\ queued (zombiequeue ctx) = [];
  m_idle : forall c ctx th, cpus m !! c = Some ctx -> threads m !! idle ctx = Some th -> target_cpu th = c;
  m_threads : forall t th, threads m !! t = Some th -> prio_ok th /\ status th <> THREAD_ZOMBIE }.

Record don_ok (ms : list mutex) (m : machine) : Prop := {
  d_mach : mach_ok m;
  d_count : forall t th p, threads m !! t = Some th -> 0 <= p < 64 ->
    donation p (pi_donations th) = contributions ms t p;
  d_size : Z.of_nat (length ms) <= UINT16_MAX }.

(** what the sections leave alone on the machine: who runs where *)
Definition core (ctx : cpu_context) : Z * Z := (current ctx, idle ctx).

Definition cpu_at (ths : gmap Z thread) (t : Z) : option Z := target_cpu <$> ths !! t.

Definition frame (m m' : machine) : Prop :=
  (forall c, core <$> cpus m' !! c = core <$> cpus m !! c) /\
  (forall t, cpu_at (threads m') t = cpu_at (threads m) t).

Definition same_status (m m' : machine) : Prop :=
  forall t, status_at (threads m') t = status_at (threads m) t.

Lemma mach_no_zombies m : mach_ok m ->
  forall t c ctx, cpus m !! c = Some ctx -> t ∉ queued (zombiequeue ctx).
Proof. intros Hm t c ctx Hc. destruct (m_quiet m Hm c ctx Hc) as [_ ->]. apply not_elem_of_nil. Qed.

(** an applied priority changes neither the CPUs' threads nor their quiet *)
Lemma applied_mach t e th th1 m m' :
  mach_ok m -> threads m !! t = Some th -> status th1 = status th -> target_cpu th1 = target_cpu th ->
  machine_ok m' -> threads m' = <[t := with_priority e th1]> (threads m) ->
  prio_ok (with_priority e th1) -> applied t e th1 (put_thread t th1 m) m' ->
  mach_ok m' /\ frame m m' /\ same_status m m'.
Proof.
  intros Hm Ht Hst Htc Hm' Eth Hok (_ & _ & Hoth & Htgt). rewrite Htc in *. simpl in *.
  assert (Hctx : forall c ctx', cpus m' !! c = Some ctx' -> exists ctx, cpus m !! c = Some ctx /\
      core ctx' = core ctx /\ preempt_count ctx' = preempt_count ctx /\ zombiequeue ctx' = zombiequeue ctx).
  { intros c ctx' Hc. destruct (decide (c = target_cpu th)) as [-> | Hne].
    - destruct (cpus m !! target_cpu th) as [ctx |] eqn:E; [| congruence].
      destruct Htgt as (rq' & b & E' & _). rewrite E' in Hc. injection Hc as <-. by exists ctx.
    - rewrite Hoth in Hc by done. by exists ctx'. }
  assert (Hold : forall u uth, threads m' !! u = Some uth -> exists uth0, threads m !! u = Some uth0 /\
      status uth = status uth0 /\ target_cpu uth = target_cpu uth0 /\ (uth = uth0 \/ prio_ok uth)).
  { intros u uth. rewrite Eth. destruct (decide (u = t)) as [-> |].
    - rewrite lookup_insert_eq. intros [= <-]. exists th. auto.
    - rewrite lookup_insert_ne by done. eauto 10. }
  split; [| split; [split |]].
  - split; [done | | |].
    + intros c ctx' Hc. destruct (Hctx c ctx' Hc) as (ctx & E & _ & -> & ->). by apply (m_quiet m Hm c).
    + intros c ctx' uth Hc Hu. destruct (Hctx c ctx' Hc) as (ctx & E & [= _ Hid] & _). rewrite Hid in Hu.
      destruct (Hold _ _ Hu) as (uth0 & E0 & _ & -> & _). by apply (m_idle m Hm c ctx).
    + intros u uth Hu. destruct (Hold u uth Hu) as (uth0 & E0 & -> & _ & Hp).
      destruct (m_threads m Hm u uth0 E0). destruct Hp as [-> |]; done.
  - intros c. destruct (decide (c = target_cpu th)) as [-> | Hne]; [| by rewrite Hoth].
    destruct (cpus m !! target_cpu th) as [ctx |]; [| by rewrite Htgt].
    by destruct Htgt as (rq' & b & -> & _).
  - intros u. unfold cpu_at. rewrite Eth. destruct (decide (u = t)) as [-> |].
    + rewrite lookup_insert_eq, Ht. simpl. by rewrite Htc.
    + by rewrite lookup_insert_ne.
  - intros u. unfold status_at. rewrite Eth. destruct (decide (u = t)) as [-> |].
    + rewrite lookup_insert_eq, Ht. simpl. by rewrite Hst.
    + by rewrite lookup_insert_ne.
Qed.

Lemma frame_refl m : frame m m.
Proof. done. Qed.
Lemma frame_trans a b c : frame a b -> frame b c -> frame a c.
Proof. intros [A1 A2] [B1 B2]. split; intros x; [by rewrite B1 | by rewrite B2]. Qed.
Lemma same_status_trans a b c : same_status a b -> same_status b c -> same_status a c.
Proof. intros A B x. by rewrite B. Qed.

Definition exists_thread (m : machine) (t : Z) : Prop := is_Some (status_at (threads m) t).

Lemma exists_thread_some m t : exists_thread m t <-> exists th, threads m !! t = Some th.
Proof. unfold exists_thread, status_at. rewrite fmap_is_Some. done. Qed.

Lemma same_status_exists m m' t : same_status m m' -> exists_thread m' t <-> exists_thread m t.
Proof. intros H. unfold exists_thread. by rewrite H. Qed.

Lemma don_ok_insert ms m i mu mu' :
  don_ok ms m -> ms !! i = Some mu ->
  (forall t p, 0 <= p < 64 -> contributes mu' t p = contributes mu t p) -> don_ok (<[i := mu']> ms) m.
Proof.
  intros [D1 D2 D3] Hi Hc. split; [done | | by rewrite length_insert].
  intros t th p Ht Hp. rewrite (D2 t th p Ht Hp), (contributions_insert ms i mu mu') by done.
  rewrite Hc by done. lia.
Qed.

Lemma donation_sec ms m i mu o new :
  don_ok ms m -> ms !! i = Some mu -> owner mu = Some o -> exists_thread m o ->
  0 <= donated_priority mu <= 64 -> 0 <= new <= 64 -> donated_priority mu <> new ->
  exists m', thread_priority_update_donation o (donated_priority mu) new m = Ok m' /\
    don_ok (<[i := with_donated new mu]> ms) m' /\
    (forall u, u <> o -> threads m' !! u = threads m !! u) /\ frame m m' /\ same_status m m'.
Proof.
  intros [D1 D2 D3] Hi Ho [oth Hth]%exists_thread_some Hold Hnew Hne.
  destruct (m_threads m D1 o oth Hth) as [Hpo _].
  pose proof (update_donation_spec o _ new m oth (m_cpus m D1) Hth Hpo Hold Hnew (mach_no_zombies m D1 o)) as H.
  assert (Hcon : forall p d, contributes (with_donated d mu) o p = if d =? p then 1 else 0).
  { intros p d. unfold contributes. simpl. by rewrite Ho, bool_decide_eq_true_2. }
  assert (Hcon0 : forall p, contributes mu o p = if donated_priority mu =? p then 1 else 0).
  { intros p. unfold contributes. by rewrite Ho, bool_decide_eq_true_2. }
  destruct (thread_priority_update_donation o (donated_priority mu) new m) as [m' | |]; [| | done].
  - destruct H as (d & Hd & Hm' & Eth & Hok & Ha). exists m'. split; [done |].
    destruct (applied_mach o _ oth (with_donations d oth) m m' D1 Hth eq_refl eq_refl Hm' Eth Hok Ha) as (M1 & M2 & M3).
    split; [| split; [| done]]; [| intros u Hu; by rewrite Eth, lookup_insert_ne].
    split; [done | | by rewrite length_insert].
    intros t th p Ht Hp. rewrite (contributions_insert ms i mu _ t p Hi). rewrite Eth in Ht.
    destruct (decide (t = o)) as [-> | Hto].
    + rewrite lookup_insert_eq in Ht. injection Ht as <-. simpl. rewrite Hd, (D2 o oth p Hth Hp) by done.
      rewrite Hcon, Hcon0, (Z.eqb_sym p), (Z.eqb_sym p). done.
    + rewrite lookup_insert_ne in Ht by done. rewrite (D2 t th p Ht Hp).
      unfold contributes. simpl. rewrite Ho, bool_decide_eq_false_2 by congruence. simpl. lia.
  - exfalso. destruct H as [[Hlt H0] | [Hlt H0]].
    + rewrite (D2 o oth _ Hth) in H0 by lia.
      pose proof (contributions_split ms i mu o (donated_priority mu) Hi) as Hs.
      rewrite Hcon0, Z.eqb_refl in Hs. lia.
    + rewrite (D2 o oth _ Hth) in H0 by lia. pose proof (contributions_split ms i mu o new Hi) as Hs.
      rewrite Hcon0 in Hs. destruct (Z.eqb_spec (donated_priority mu) new); [done |].
      destruct (Z.eqb_spec new (donated_priority mu)); lia.
Qed.

Lemma with_donated_id mu : with_donated (donated_priority mu) mu = mu.
Proof. by destruct mu. Qed.

Lemma waiter_priority_ok mu m :
  mach_ok m -> (forall t, t ∈ waiters mu -> exists_thread m t) ->
  exists p, mutex_waiter_priority_locked mu m = Ok p /\ 0 <= p <= 64.
Proof.
  intros Hm Hw. unfold mutex_waiter_priority_locked. destruct (waiters mu) as [| t l].
  { exists 64. split; [done | lia]. }
  destruct (Hw t) as [s Hs]; [lmem |]. apply status_at_some in Hs as (th & Ht & _).
  unfold get_thread. rewrite Ht. exists (priority th). split; [done |].
  destruct (m_threads m Hm t th Ht) as [[? _]%prio_ok_best _]. lia.
Qed.

Lemma refresh_sec ms m i mu :
  don_ok ms m -> ms !! i = Some mu -> (forall t, t ∈ waiters mu -> exists_thread m t) ->
  (forall o, owner mu = Some o -> exists_thread m o) -> 0 <= donated_priority mu <= 64 ->
  (owner mu = None -> donated_priority mu = 64) ->
  exists d m', mutex_refresh_donation_locked mu m = Ok (with_donated d mu, m') /\
    0 <= d <= 64 /\ (owner mu = None -> d = 64) /\
    (forall o, owner mu = Some o -> mutex_waiter_priority_locked mu m = Ok d /\
       forall u, u <> o -> threads m' !! u = threads m !! u) /\
    don_ok (<[i := with_donated d mu]> ms) m' /\ frame m m' /\ same_status m m'.
Proof.
  intros HD Hi Hw Ho Hd Hnone. unfold mutex_refresh_donation_locked.
  assert (Hkeep : forall d, donated_priority mu = d -> don_ok (<[i := with_donated d mu]> ms) m).
  { intros d <-. rewrite with_donated_id. by rewrite list_insert_id. }
  destruct (owner mu) as [o |] eqn:Eo.
  - destruct (waiter_priority_ok mu m (d_mach _ _ HD) Hw) as (p & Ep & Hp). rewrite Ep. simpl.
    destruct (Z.eqb_spec (donated_priority mu) p) as [E | Hne].
    + exists p, m. pose proof (Hkeep p E). rewrite <- E, with_donated_id in *. split_and!; done || lia.
    + destruct (donation_sec ms m i mu o p HD Hi Eo (Ho o eq_refl) Hd Hp Hne) as (m' & -> & HD' & Hu & Hf & Hs).
      simpl. exists p, m'. unfold u8. rewrite Z.mod_small by lia.
      split_and!; try (done || lia). intros o' [= <-]. done.
  - simpl. pose proof (Hnone eq_refl) as E. pose proof (Hkeep 64 E). exists 64, m. rewrite E. simpl.
    rewrite <- E, with_donated_id in *. split_and!; done || lia.
Qed.

Lemma contributes_none mu t p : owner mu = None -> contributes mu t p = 0.
Proof. intros E. unfold contributes. rewrite E. by rewrite bool_decide_eq_false_2. Qed.

Lemma contributes_64 mu t p : donated_priority mu = 64 -> 0 <= p < 64 -> contributes mu t p = 0.
Proof.
  intros E Hp. unfold contributes. rewrite E. destruct (Z.eqb_spec 64 p); [lia |]. by rewrite andb_false_r.
Qed.

(** [mu1] is the mutex of index [i] with its flag possibly just taken *)
Lemma attach_sec ms m i mu mu1 t :
  don_ok ms m -> ms !! i = Some mu -> owner mu = None -> owner mu1 = None ->
  (forall u, u ∈ waiters mu1 -> exists_thread m u) -> exists_thread m t ->
  exists d m', let mu' := with_donated d (with_owner (Some t) mu1) in
    mutex_attach_owner_locked t mu1 m = Ok (mu', m') /\ 0 <= d <= 64 /\
    don_ok (<[i := mu']> ms) m' /\ frame m m' /\ same_status m m'.
Proof.
  intros HD Hi Ho Ho1 Hw Ht. set (mu0 := with_owner (Some t) (with_donated 64 mu1)).
  assert (HD0 : don_ok (<[i := mu0]> ms) m).
  { apply (don_ok_insert ms m i mu); [done | done |]. intros u p Hp.
    by rewrite (contributes_64 mu0), (contributes_none mu). }
  assert (Hi0 : <[i := mu0]> ms !! i = Some mu0) by (apply list_lookup_insert_eq; by eapply lookup_lt_Some).
  destruct (refresh_sec (<[i := mu0]> ms) m i mu0 HD0 Hi0) as (d & m' & E & Hd & _ & _ & HD' & Hf & Hs);
    [done | by intros o [= <-] | simpl; lia | done |].
  exists d, m'. split; [exact E |]. rewrite list_insert_insert_eq in HD'. done.
Qed.

Lemma detach_sec ms m i mu o :
  don_ok ms m -> ms !! i = Some mu -> owner mu = Some o -> exists_thread m o ->
  0 <= donated_priority mu <= 64 ->
  exists m', let mu' := with_owner None (with_donated 64 mu) in
    mutex_detach_owner_locked mu m = Ok (mu', m') /\
    don_ok (<[i := mu']> ms) m' /\ frame m m' /\ same_status m m'.
Proof.
  intros HD Hi Ho Ht Hd. unfold mutex_detach_owner_locked. rewrite Ho. unfold SCHED_PRIO_COUNT.
  assert (Hc : forall u p, 0 <= p < 64 ->
    contributes (with_owner None (with_donated 64 mu)) u p = contributes (with_donated 64 mu) u p).
  { intros u p Hp. by rewrite (contributes_none (with_owner _ _)), (contributes_64 (with_donated _ _)). }
  destruct (Z.ltb_spec (donated_priority mu) 64) as [Hlt | Hge].
  - destruct (donation_sec ms m i mu o 64 HD Hi Ho Ht Hd) as (m' & E & HD' & _ & Hf & Hs); try lia.
    unfold SCHED_PRIO_NONE, SCHED_PRIO_COUNT. rewrite E. simpl. exists m'. split; [done |].
    split; [| done]. rewrite <- (list_insert_insert_eq ms i _ (with_donated 64 mu)).
    apply (don_ok_insert _ m' i (with_donated 64 mu)); [done | | done].
    apply list_lookup_insert_eq. by eapply lookup_lt_Some.
  - exists m. simpl. split; [done |]. split; [| done].
    assert (E : donated_priority mu = 64) by lia.
    apply (don_ok_insert ms m i mu); [done | done |]. intros u p Hp. rewrite Hc by done.
    by rewrite <- E at 1; rewrite with_donated_id.
Qed.

Lemma prio_ok_same th th' : same_thread th th' -> prio_ok th -> prio_ok th'.
Proof.
  intros (E1 & _ & _ & E2 & E3)%same_thread_fields (H1 & H2 & H3).
  unfold prio_ok, thread_effective_priority in *. rewrite E1, E2, E3. done.
Qed.

(** waking or blocking a thread keeps the CPUs consistent *)
Lemma status_set_ok m t th s c ctx :
  mach_ok m -> threads m !! t = Some th -> s = THREAD_READY \/ s = THREAD_BLOCKED ->
  (s = THREAD_BLOCKED -> forall c ctx, cpus m !! c = Some ctx -> idle ctx <> t) ->
  cpus m !! c = Some ctx -> 0 <= c < MAX_CPUS /\ sched_ok c (put_thread t (with_status s th) m).
Proof.
  intros Hm Ht Hs Hidle Hc. destruct (m_cpus m Hm c ctx Hc) as (Hb & ctx0 & Hc0 & Hq & S1 & S2 & S3).
  rewrite Hc in Hc0. injection Hc0 as <-. split; [done |]. exists ctx. split; [done |]. split.
  - apply (queues_ok_same c (threads m)); [done |].
    apply same_threads_insert with th; [done | apply same_thread_status].
  - unfold status_ok. simpl. split_and!.
    + intros u uth Hu Eu Hst. destruct (decide (u = t)) as [-> |].
      * rewrite lookup_insert_eq in Eu. injection Eu as <-. simpl in Hst.
        destruct Hs as [-> | ->]; by destruct Hst.
      * rewrite lookup_insert_ne in Eu by done. by apply (S1 u uth).
    + intros u uth Hu. destruct (m_quiet m Hm c ctx Hc) as [_ E]. rewrite E in Hu. by apply elem_of_nil in Hu.
    + intros uth Hu. destruct (decide (idle ctx = t)) as [E | Hne].
      * rewrite E, lookup_insert_eq in Hu. injection Hu as <-. simpl. left.
        destruct Hs as [-> | ->]; [done |]. by destruct (Hidle eq_refl c ctx Hc).
      * rewrite lookup_insert_ne in Hu by done. by apply S3.
Qed.

Lemma set_status_sec ms m t s :
  don_ok ms m -> exists_thread m t -> s = THREAD_READY \/ s = THREAD_BLOCKED ->
  (s = THREAD_BLOCKED -> forall c ctx, cpus m !! c = Some ctx -> idle ctx <> t) ->
  exists m', thread_set_status t s m = Ok m' /\ don_ok ms m' /\ frame m m' /\
    (forall th, threads m !! t = Some th -> threads m' = <[t := with_status s th]> (threads m)) /\
    forall u, status_at (threads m') u = if u =? t then Some s else status_at (threads m) u.
Proof.
  intros [D1 D2 D3] [th Ht]%exists_thread_some Hs Hidle. unfold thread_set_status, get_thread. rewrite Ht. simpl.
  set (m' := put_thread t (with_status s th) m).
  assert (HS : same_threads (threads m) (threads m')).
  { apply same_threads_insert with th; [done | apply same_thread_status]. }
  assert (Hstat : forall u, status_at (threads m') u = if u =? t then Some s else status_at (threads m) u).
  { intros u. unfold status_at. simpl. destruct (Z.eqb_spec u t) as [-> |].
    - by rewrite lookup_insert_eq.
    - by rewrite lookup_insert_ne. }
  assert (Hold : forall u uth, threads m' !! u = Some uth -> exists uth0, threads m !! u = Some uth0 /\
      same_thread uth0 uth /\ (status uth = status uth0 \/ u = t /\ status uth = s)).
  { intros u uth. simpl. destruct (decide (u = t)) as [-> |].
    - rewrite lookup_insert_eq. intros [= <-]. exists th. split_and!; [done | apply same_thread_status | auto].
    - rewrite lookup_insert_ne by done. intros Hu. exists uth. split_and!; [done | by destruct uth | auto]. }
  exists m'. split; [done |]. split; [| split; [split; [done |] | split; [| done]]].
  - split; [| | done].
    + split.
      * intros c ctx Hc. by apply (status_set_ok m t th s c ctx).
      * apply (m_quiet m D1).
      * intros c ctx uth Hc Hu. destruct (Hold _ _ Hu) as (uth0 & E & (_ & -> & _)%same_thread_fields & _).
        by apply (m_idle m D1 c ctx).
      * intros u uth Hu. destruct (Hold _ _ Hu) as (uth0 & E & Hsm & Hst).
        destruct (m_threads m D1 u uth0 E) as [Hp Hz]. split; [by apply (prio_ok_same uth0) |].
        destruct Hst as [-> | [_ ->]]; [done |]. by destruct Hs as [-> | ->].
    + intros u uth p Hu Hp. destruct (Hold _ _ Hu) as (uth0 & E & (_ & _ & _ & _ & ->)%same_thread_fields & _).
      by apply D2.
  - intros u. unfold cpu_at. specialize (HS u).
    destruct (threads m !! u), (threads m' !! u); try done. simpl.
    by destruct (same_thread_fields _ _ HS) as (_ & -> & _).
  - by intros th' [= <-].
Qed.

Lemma add_waiter_ok t p ws m :
  (forall u, u ∈ ws -> exists_thread m u) -> exists l, add_waiter t p ws m = Ok l /\ l ≡ₚ t :: ws.
Proof.
  induction ws as [| u ws IH]; intros Hw; simpl; [by exists [t] |].
  destruct (proj1 (exists_thread_some m u) (Hw u ltac:(lmem))) as [uth Hu].
  unfold get_thread. rewrite Hu. simpl. destruct (p <? priority uth); [by eexists |].
  destruct IH as (l & -> & Hl); [intros v Hv; apply Hw; lmem |]. simpl. eexists. split; [done |].
  rewrite Hl. apply Permutation_swap.
Qed.

Lemma enqueue_sec ms m i mu t :
  don_ok ms m -> ms !! i = Some mu -> (forall u, u ∈ waiters mu -> exists_thread m u) ->
  (forall o, owner mu = Some o -> exists_thread m o) -> 0 <= donated_priority mu <= 64 ->
  (owner mu = None -> donated_priority mu = 64) -> exists_thread m t ->
  (forall c ctx, cpus m !! c = Some ctx -> idle ctx <> t) ->
  exists l d m', let mu' := with_donated d (with_waiters l (wait_count mu + 1) mu) in
    enqueue_waiter t false mu m = Ok (mu', m') /\ l ≡ₚ t :: waiters mu /\
    0 <= d <= 64 /\ (owner mu = None -> d = 64) /\
    don_ok (<[i := mu']> ms) m' /\ frame m m' /\
    forall u, status_at (threads m') u = if u =? t then Some THREAD_BLOCKED else status_at (threads m) u.
Proof.
  intros HD Hi Hw Ho Hd Hd' Ht Hidle. unfold enqueue_waiter.
  destruct (set_status_sec ms m t THREAD_BLOCKED HD Ht) as (m1 & -> & HD1 & Hf1 & _ & Hs1); [auto | auto |].
  simpl. assert (Hex : forall u, exists_thread m u -> exists_thread m1 u).
  { intros u Hu. unfold exists_thread. rewrite Hs1. destruct (u =? t); [by eexists | done]. }
  unfold mutex_add_waiter_locked. destruct (proj1 (exists_thread_some m1 t) (Hex t Ht)) as [th Hth].
  unfold get_thread. rewrite Hth. simpl.
  destruct (add_waiter_ok t (priority th) (waiters mu) m1) as (l & -> & Hl); [auto |]. simpl.
  set (mu1 := with_waiters l (wait_count mu + 1) mu).
  assert (HD2 : don_ok (<[i := mu1]> ms) m1) by (by apply (don_ok_insert ms m1 i mu)).
  assert (Hi1 : <[i := mu1]> ms !! i = Some mu1) by (apply list_lookup_insert_eq; by eapply lookup_lt_Some).
  destruct (refresh_sec (<[i := mu1]> ms) m1 i mu1 HD2 Hi1) as (d & m' & E & Hdr & Hdn & _ & HD' & Hf & Hs);
    [| auto | done | done |].
  { intros u. simpl. rewrite Hl, elem_of_cons. intros [-> | ?]; auto. }
  exists l, d, m'. split; [exact E |]. rewrite list_insert_insert_eq in HD'.
  do 3 (split; [done |]). split; [done |]. split; [apply (frame_trans m m1 m' Hf1 Hf) |].
  intros u. by rewrite Hs, Hs1.
Qed.

Lemma unlock_sec ms m i mu o :
  don_ok ms m -> ms !! i = Some mu -> owner mu = Some o -> exists_thread m o ->
  (forall u, u ∈ waiters mu -> exists_thread m u) -> 0 <= donated_priority mu <= 64 ->
  exists mu' m', mutex_unlock_raw mu m = Ok (mu', m') /\
    locked mu' = false /\ owner mu' = None /\ donated_priority mu' = 64 /\
    waiters mu' = tail (waiters mu) /\
    wait_count mu' = wait_count mu - (if decide (waiters mu = []) then 0 else 1) /\
    don_ok (<[i := mu']> ms) m' /\ frame m m' /\
    forall u, status_at (threads m') u =
      if decide (Some u = head (waiters mu)) then Some THREAD_READY else status_at (threads m) u.
Proof.
  intros HD Hi Ho Ht Hw Hd. unfold mutex_unlock_raw.
  destruct (detach_sec ms m i mu o HD Hi Ho Ht Hd) as (m1 & -> & HD1 & Hf1 & Hs1). simpl.
  unfold __wake_up_one. simpl. set (mu1 := with_owner None (with_donated 64 mu)) in *.
  assert (Hins : forall mu', owner mu' = None -> forall m', don_ok (<[i := mu1]> ms) m' -> don_ok (<[i := mu']> ms) m').
  { intros mu' Ho' m' HD'. rewrite <- (list_insert_insert_eq ms i mu' mu1).
    apply (don_ok_insert _ _ i mu1); [done | apply list_lookup_insert_eq; by eapply lookup_lt_Some |].
    intros u p _. by rewrite !contributes_none. }
  destruct (waiters mu) as [| w ws] eqn:Ew; simpl.
  - eexists _, m1. split; [done |]. simpl. do 3 (split; [done |]). split; [done |]. split; [lia |].
    split; [by apply Hins |]. split; [done |]. intros u. by rewrite Hs1.
  - assert (Hex : exists_thread m1 w) by (apply (same_status_exists m m1 w Hs1), Hw; lmem).
    destruct (set_status_sec _ m1 w THREAD_READY HD1 Hex) as (m2 & -> & HD2 & Hf2 & _ & Hs2); [auto | done |].
    simpl. eexists _, m2. split; [done |]. simpl.
    do 5 (split; [done |]). split; [by apply Hins |]. split; [apply (frame_trans m m1 m2 Hf1 Hf2) |].
    intros u. rewrite Hs2, Hs1. destruct (Z.eqb_spec u w) as [-> | Hne], (decide _); try done; congruence.
Qed.

(** ** The scheduler's steps *)

Definition blocked (m : machine) (t : Z) : Prop := status_at (threads m) t = Some THREAD_BLOCKED.

Definition on_cpu (m : machine) (t : Z) : Prop :=
  exists c ctx, cpu_at (threads m) t = Some c /\ cpus m !! c = Some ctx /\ current ctx = t.

(** the threads of a CPU: its idle thread and those of its run queue *)
Definition local (ctx : cpu_context) (t : Z) : Prop := t = idle ctx \/ t ∈ queued (runqueue ctx).

Lemma local_target m c ctx t :
  mach_ok m -> cpus m !! c = Some ctx -> local ctx t -> cpu_at (threads m) t = Some c.
Proof.
  intros Hm Hc Ht. destruct (m_cpus m Hm c ctx Hc) as (_ & ctx0 & Hc0 & Hq & _). rewrite Hc in Hc0.
  injection Hc0 as <-. destruct Hq as (Hr & _ & Hin & _ & _ & [ith Hid] & _). unfold cpu_at.
  destruct Ht as [-> | Ht].
  - rewrite Hid. simpl. f_equal. by apply (m_idle m Hm c ctx).
  - destruct (queued_at_prio _ _ Hr Ht) as [p Hp]. by destruct (Hin p t Hp) as (th & -> & _ & <-).
Qed.

(** the effect of a scheduling decision on statuses, without zombies: only the
    old and the new thread change, and no blocked thread runs *)
Lemma decision_effect c m ctx pth next rq' zq' ths' :
  queues_ok c (threads m) ctx -> status_ok (threads m) ctx -> threads m !! current ctx = Some pth ->
  status pth <> THREAD_ZOMBIE -> queued (zombiequeue ctx) = [] ->
  decision m ctx pth next rq' zq' ths' ->
  zq' = zombiequeue ctx /\ local ctx next /\ ~ blocked m next /\
  forall u uth uth', threads m !! u = Some uth -> ths' !! u = Some uth' ->
    status uth' = status uth \/ (u = next \/ u = current ctx) /\ status uth <> THREAD_BLOCKED /\
      (status uth' = THREAD_RUNNING \/ status uth' = THREAD_READY).
Proof.
  intros Hq (_ & _ & S3) Hp Hnz Hze HD. unfold decision in HD. rewrite decide_False in HD by done.
  pose proof Hq as (_ & _ & _ & _ & _ & [ith Hid] & _ & _ & Hcur & _).
  assert (Hnidle : ~ blocked m (idle ctx)).
  { intros (th & E & Hb)%status_at_some. destruct (S3 th E); congruence. }
  destruct HD as [-> [(-> & -> & _) | (_ & Hch & Hst)]].
  { split; [done |]. split; [by left |]. split; [done |]. intros u uth uth' E E'. left. congruence. }
  split; [done |]. assert (Hnb : ~ blocked m next).
  { destruct (choice_runs _ _ _ _ _ _ Hch) as [-> | [[-> Hr] | Hr]]; [done | |].
    - intros (th & E & Hb)%status_at_some. congruence.
    - intros (th & E & Hb)%status_at_some. unfold run_at, runnable in Hr. by rewrite E, Hb in Hr. }
  split; [| split; [done |]].
  - destruct Hch as [| | t p l1 l2 rq' Hl]; [by left | by destruct Hcur as [-> | ?]; [left | right] |].
    right. apply (at_prio_queued _ p). eexists. split; [done | lmem].
  - intros u uth uth' E E'. destruct (Hst u uth E) as (x & Ex & Hx). rewrite E' in Ex. injection Ex as <-.
    unfold next_status in Hx. destruct (decide (u = next)) as [-> | Hun].
    + right. split; [auto |]. split; [| auto]. intros Hb. apply Hnb, status_at_some. eauto.
    + destruct (decide (u = current ctx)); [| auto]. destruct (decide (status uth = THREAD_RUNNING)); [| auto].
      right. split_and!; [auto | congruence | auto].
Qed.

(** a CPU none of whose threads changed status stays consistent *)
Lemma other_cpu_ok m ths' c ctx :
  mach_ok m -> cpus m !! c = Some ctx -> same_threads (threads m) ths' ->
  (forall u, cpu_at (threads m) u = Some c -> status_at ths' u = status_at (threads m) u) ->
  queues_ok c ths' ctx /\ status_ok ths' ctx.
Proof.
  intros Hm Hc HS Hst. destruct (m_cpus m Hm c ctx Hc) as (_ & ctx0 & Hc0 & Hq & S1 & S2 & S3).
  rewrite Hc in Hc0. injection Hc0 as <-. split; [by apply (queues_ok_same c (threads m)) |].
  assert (Hold : forall u uth, local ctx u -> ths' !! u = Some uth ->
      exists uth0, threads m !! u = Some uth0 /\ status uth = status uth0).
  { intros u uth Hu%(local_target m c ctx u Hm Hc)%Hst Eu. unfold status_at in Hu. rewrite Eu in Hu.
    destruct (threads m !! u) as [uth0 |]; [| done]. injection Hu as ?. eauto. }
  split_and!.
  - intros u uth Hu (uth0 & E & ->)%Hold; [| by right]. by apply S1.
  - intros u uth Hu. destruct (m_quiet m Hm c ctx Hc) as [_ E]. rewrite E in Hu. by apply elem_of_nil in Hu.
  - intros uth (uth0 & E & ->)%Hold; [| by left]. by apply S3.
Qed.

Lemma rescheduled ms m c ctx ctx' ths' n :
  don_ok ms m -> cpus m !! c = Some ctx -> idle ctx' = idle ctx -> preempt_count ctx' = 0 ->
  queued (zombiequeue ctx') = [] -> queues_ok c ths' ctx' -> status_ok ths' ctx' ->
  same_threads (threads m) ths' ->
  (forall u uth uth', threads m !! u = Some uth -> ths' !! u = Some uth' ->
    status uth' = status uth \/ cpu_at (threads m) u = Some c /\ status uth <> THREAD_BLOCKED /\
      (status uth' = THREAD_RUNNING \/ status uth' = THREAD_READY)) ->
  let m' := mk_machine ths' (<[c := ctx']> (cpus m)) n in
  don_ok ms m' /\ (forall u, blocked m' u <-> blocked m u) /\
  (forall u, cpu_at (threads m') u = cpu_at (threads m) u).
Proof.
  intros [D1 D2 D3] Hc Hid Hpc Hze Hq Hs HS Hst m'.
  assert (Hold : forall u uth, ths' !! u = Some uth -> exists uth0, threads m !! u = Some uth0 /\
      same_thread uth0 uth /\ (status uth = THREAD_BLOCKED <-> status uth0 = THREAD_BLOCKED) /\
      status uth <> THREAD_ZOMBIE).
  { intros u uth Hu. specialize (HS u). rewrite Hu in HS.
    destruct (threads m !! u) as [uth0 |] eqn:Eu; [| done]. destruct (m_threads m D1 u uth0 Eu) as [_ Hz].
    exists uth0. split; [done |]. split; [done |].
    destruct (Hst u uth0 uth Eu Hu) as [-> | (_ & Hn & [-> | ->])]; done. }
  assert (Hctx : forall c1 ctx1, cpus m' !! c1 = Some ctx1 ->
      c1 = c /\ ctx1 = ctx' \/ c1 <> c /\ cpus m !! c1 = Some ctx1).
  { intros c1 ctx1. simpl. destruct (decide (c1 = c)) as [-> |].
    - rewrite lookup_insert_eq. intros [= <-]. auto.
    - rewrite lookup_insert_ne by done. auto. }
  split; [split; [split | | done] |].
  - intros c1 ctx1 H1. destruct (Hctx c1 ctx1 H1) as [[-> ->] | [Hne H1']].
    + split; [by apply (m_cpus m D1 c ctx) |]. by exists ctx'.
    + split; [by apply (m_cpus m D1 c1 ctx1) |]. exists ctx1. split; [done |].
      apply (other_cpu_ok m ths' c1 ctx1 D1 H1' HS). intros u Hu. specialize (HS u).
      unfold status_at. destruct (threads m !! u) as [uth |] eqn:Eu, (ths' !! u) as [uth' |] eqn:Eu'; try done.
      simpl. f_equal. destruct (Hst u uth uth' Eu Eu') as [| (Hc1 & _)]; [done | congruence].
  - intros c1 ctx1 H1. destruct (Hctx c1 ctx1 H1) as [[-> ->] | [_ H1']]; [done | by apply (m_quiet m D1 c1)].
  - intros c1 ctx1 uth H1 Hu. destruct (Hold _ _ Hu) as (uth0 & E & (_ & -> & _)%same_thread_fields & _).
    destruct (Hctx c1 ctx1 H1) as [[-> ->] | [_ H1']]; [| by apply (m_idle m D1 c1 ctx1)].
    rewrite Hid in E. by apply (m_idle m D1 c ctx).
  - intros u uth Hu. destruct (Hold _ _ Hu) as (uth0 & E & Hsm & _ & Hz). split; [| done].
    apply (prio_ok_same uth0); [done |]. by apply (m_threads m D1 u).
  - intros u uth p Hu Hp. destruct (Hold _ _ Hu) as (uth0 & E & (_ & _ & _ & _ & ->)%same_thread_fields & _).
    by apply D2.
  - split; intros u; simpl; specialize (HS u).
    + unfold blocked. rewrite !status_at_some. simpl. split.
      * intros (uth & Eu & Hb). destruct (Hold _ _ Eu) as (uth0 & E & _ & Hiff & _). exists uth0. tauto.
      * intros (uth & Eu & Hb). rewrite Eu in HS. destruct (ths' !! u) as [uth' |] eqn:Eu'; [| done].
        exists uth'. split; [done |]. destruct (Hold _ _ Eu') as (uth0 & E & _ & Hiff & _). apply Hiff. congruence.
    + unfold cpu_at. destruct (threads m !! u), (ths' !! u); try done. simpl.
      by destruct (same_thread_fields _ _ HS) as (_ & -> & _).
Qed.

Lemma schedule_sec kernel_root b ms m c ctx :
  don_ok ms m -> cpus m !! c = Some ctx ->
  exists sw m' ctx', __schedule kernel_root b c m = Ok (sw, m') /\ don_ok ms m' /\
    (forall u, blocked m' u <-> blocked m u) /\
    (forall u, cpu_at (threads m') u = cpu_at (threads m) u) /\
    cpus m' = <[c := ctx']> (cpus m) /\ ~ blocked m (current ctx').
Proof.
  intros HD0 Hc. pose proof HD0 as [D1 D2 D3]. destruct (m_cpus m D1 c ctx Hc) as (Hb & ctx0 & Hc0 & Hq & Hs).
  rewrite Hc in Hc0. injection Hc0 as <-. destruct (m_quiet m D1 c ctx Hc) as [Hpc Hze].
  destruct (current_exists c _ _ Hq) as [pth Hp]. destruct (m_threads m D1 _ _ Hp) as [_ Hnz].
  destruct (schedule_ok kernel_root b c m ctx pth Hc Hq Hs Hpc Hp)
    as (next & rq' & zq' & ths' & ap & E & Hq' & Hs' & HS & HD).
  destruct (decision_effect c m ctx pth next rq' zq' ths' Hq Hs Hp Hnz Hze HD) as (-> & Hloc & Hnb & Hst).
  eexists _, _, _. split; [exact E |].
  assert (Hlc : local ctx (current ctx)) by (unfold local; apply Hq).
  destruct (rescheduled ms m c ctx (switched next ap rq' (zombiequeue ctx) ctx) ths' (g_ticks m))
    as (R1 & R2 & R3); try done.
  intros u uth uth' Eu Eu'. destruct (Hst u uth uth' Eu Eu') as [? | ([-> | ->] & ?)]; [by left | |];
    right; (split; [by apply (local_target m c ctx) | done]).
Qed.

(** ** The whole system *)

Record inv (s : sys) : Prop := {
  i_don : don_ok (mutexes s) (mach s);
  i_sync : sync_ok (mutexes s) (pc_of s) (held s) (blocked (mach s)) (on_cpu (mach s));
  i_held : forall t i, (t, i) ∈ held s -> exists_thread (mach s) t }.

Lemma frame_on_cpu m m' u : frame m m' -> on_cpu m' u <-> on_cpu m u.
Proof.
  intros [Hc Ht]. unfold on_cpu. split; intros (c & ctx & E1 & E2 & E3).
  - specialize (Hc c). rewrite E2 in Hc. simpl in Hc. destruct (cpus m !! c) as [ctx0 |] eqn:E; [| done].
    injection Hc as Hcc _. exists c, ctx0. rewrite <- Ht. split_and!; congruence.
  - specialize (Hc c). rewrite E2 in Hc. simpl in Hc. destruct (cpus m' !! c) as [ctx0 |] eqn:E; [| done].
    injection Hc as Hcc _. exists c, ctx0. rewrite Ht. split_and!; congruence.
Qed.

Lemma sync_ok_ext ms pcf pcf' h blk blk' cur cur' :
  sync_ok ms pcf h blk cur -> (forall u, pcf' u = pcf u) -> (forall u, blk' u <-> blk u) ->
  (forall u, cur' u <-> cur u) -> sync_ok ms pcf' h blk' cur'.
Proof. intros H Hp Hb Hc. apply (t_sched ms pcf _ h blk _ cur); auto. intros u Hu. right. by rewrite <- Hc. Qed.

Lemma pc_of_insert ms m h t p s u :
  pc_of (mk_sys ms m (<[t := p]> (pcs s)) h) u = upd (pc_of s) t p u.
Proof.
  unfold pc_of, upd. simpl. destruct (Z.eqb_spec u t) as [-> |].
  - by rewrite lookup_insert_eq.
  - by rewrite lookup_insert_ne.
Qed.

(** the running thread of a step *)
Lemma running_on_spec t m c :
  mach_ok m -> running_on t m = Some c ->
  exists ctx, cpu_at (threads m) t = Some c /\ cpus m !! c = Some ctx /\ current ctx = t /\
    on_cpu m t /\ exists_thread m t /\ forall c' ctx', cpus m !! c' = Some ctx' -> idle ctx' <> t.
Proof.
  intros Hm. unfold running_on. destruct (threads m !! t) as [th |] eqn:Ht; [| done].
  destruct (cpus m !! target_cpu th) as [ctx |] eqn:Hc; [| done].
  destruct (Z.eqb_spec (current ctx) t) as [Hcur |], (Z.eqb_spec (idle ctx) t) as [| Hni]; try done.
  simpl. intros [= <-]. assert (Ec : cpu_at (threads m) t = Some (target_cpu th)).
  { unfold cpu_at. by rewrite Ht. }
  exists ctx. split_and!; try done; [by exists (target_cpu th), ctx | apply exists_thread_some; eauto |].
  intros c' ctx' Hc' Hid. assert (target_cpu th = c') as <-.
  { apply (m_idle m Hm c' ctx'); [done | by rewrite Hid]. }
  congruence.
Qed.

Lemma not_linked s t :
  (forall j mj, mutexes s !! j = Some mj -> t ∉ waiters mj) -> linked s t = false.
Proof.
  intros H. unfold linked. apply not_true_iff_false. rewrite existsb_exists. intros (mu & Hin & Hw).
  apply list_elem_of_In, list_elem_of_lookup in Hin as [j Hj]. apply bool_decide_eq_true in Hw.
  by apply (H j mu).
Qed.

(** a step of [t] at [pc_of s t] on mutex [i] *)
Lemma inv_set s s' t i mu' m' p h' :
  inv s -> s' = set_mutex i mu' m' p t h' s ->
  don_ok (<[i := mu']> (mutexes s)) m' -> frame (mach s) m' ->
  sync_ok (<[i := mu']> (mutexes s)) (upd (pc_of s) t p) h' (blocked m') (on_cpu (mach s)) ->
  (forall u, exists_thread (mach s) u -> exists_thread m' u) ->
  (forall u j, (u, j) ∈ h' -> (u, j) ∈ held s \/ u = t) -> exists_thread (mach s) t -> inv s'.
Proof.
  intros [_ _ Hh] -> HD Hf HS Hex Hh' Ht. split; simpl; [done | |].
  - apply (sync_ok_ext _ _ _ _ _ _ _ _ HS).
    + intros u. by apply pc_of_insert.
    + done.
    + intros u. by apply frame_on_cpu.
  - intros u j Hu. apply Hex. destruct (Hh' u j Hu) as [Hu' | ->]; [by apply (Hh u j) | done].
Qed.

Lemma frame_exists m m' u : frame m m' -> exists_thread m u -> exists_thread m' u.
Proof.
  intros [_ Hf] [th Hu]%exists_thread_some. apply exists_thread_some. specialize (Hf u). unfold cpu_at in Hf.
  rewrite Hu in Hf. destruct (threads m' !! u); [by eexists | done].
Qed.

Lemma waiter_exists s i mu u : inv s -> mutexes s !! i = Some mu -> u ∈ waiters mu -> exists_thread (mach s) u.
Proof.
  intros [_ Hs _] Hi Hu. destruct (waiters_blocked _ _ _ _ _ (locks_ok _ _ _ _ _ Hs i mu Hi) u Hu) as [_ Hb].
  unfold exists_thread. rewrite Hb. by eexists.
Qed.

Section steps.
Context (kernel_root : Z) (s : sys) (r : res sys) (Hinv : inv s).

(** the parts of the invariant, for a running thread *)
Ltac run_thread c t ctx :=
  destruct (running_on t (mach s)) as [c |] eqn:Hrun; [| done];
  pose proof Hinv as [HD HS HH];
  destruct (running_on_spec t (mach s) c (d_mach _ _ HD) Hrun)
    as (ctx & Hcpu & Hctx & Hcurr & Hon & Hth & Hidle).

Lemma step_lock t i : run kernel_root (Lock t i) s = Some r -> exists s', r = Ok s' /\ inv s'.
Proof.
  simpl. run_thread c t ctx. destruct (pc_of s t) eqn:Hpc; try done.
  destruct (mutexes s !! i) as [mu |] eqn:Hi; [| done]. destruct (bool_decide _); [done |].
  intros [= <-]. eexists. split; [done |]. split; simpl; [done | | done].
  apply (sync_ok_ext _ _ _ _ _ _ _ _ (t_lock _ _ _ _ _ t i mu HS Hi Hon Hpc)); [| done | done].
  intros u. apply pc_of_insert.
Qed.

Lemma step_cas t : run kernel_root (Cas t) s = Some r -> exists s', r = Ok s' /\ inv s'.
Proof.
  simpl. run_thread c t ctx. destruct (pc_of s t) as [| i | | |] eqn:Hpc; try done.
  destruct (mutexes s !! i) as [mu |] eqn:Hi; [| done]. unfold atomic_try_lock.
  destruct (locked mu) eqn:Hl; intros [= <-]; eexists; (split; [done |]);
    eapply (inv_set s _ t i); try done; try (by left); [| | |].
  - by rewrite list_insert_id.
  - rewrite list_insert_id by done. by apply (t_cas_fail _ _ _ _ _ t i mu).
  - by apply (don_ok_insert _ _ _ mu).
  - by apply t_cas.
Qed.

Lemma step_attach t : run kernel_root (AttachL t) s = Some r -> exists s', r = Ok s' /\ inv s'.
Proof.
  simpl. run_thread c t ctx. destruct (pc_of s t) as [| | i | |] eqn:Hpc; try done.
  destruct (mutexes s !! i) as [mu |] eqn:Hi; [| done].
  destruct (locks_ok _ _ _ _ _ HS i mu Hi) as [H1 H2 H3 H4 H5 H6 H7 H8].
  destruct (H4 t Hpc) as [Ho _].
  assert (Hl : locked mu = true).
  { destruct (locked mu) eqn:E; [done |]. by destruct (H2 eq_refl) as [_ Hn]; destruct (Hn t). }
  destruct (attach_sec _ _ i mu mu t HD Hi Ho Ho) as (d & m' & -> & Hd & HD' & Hf & Hs); [| done |].
  { intros u. by apply (waiter_exists s i). }
  simpl. intros [= <-]. eexists. split; [done |].
  eapply (inv_set s _ t i); try done.
  - apply (sync_ok_ext _ (upd (pc_of s) t Free) _ _ (blocked (mach s)) _ (on_cpu (mach s))); try done.
    + apply (t_take _ _ _ _ _ t i mu); auto; simpl; try done.
    + intros u. unfold blocked. by rewrite Hs.
  - intros u. by apply frame_exists.
  - intros u j. rewrite elem_of_cons. intros [[= -> ->] | ?]; auto.
Qed.

Lemma step_slow t : run kernel_root (SlowL t) s = Some r -> exists s', r = Ok s' /\ inv s'.
Proof.
  simpl. run_thread c t ctx. destruct (pc_of s t) as [| | | i |] eqn:Hpc; try done.
  destruct (mutexes s !! i) as [mu |] eqn:Hi; [| done].
  destruct (locks_ok _ _ _ _ _ HS i mu Hi) as [H1 H2 H3 H4 H5 H6 H7 H8].
  destruct (awake _ _ _ _ _ t HS Hon ltac:(congruence)) as [Hb Hw].
  rewrite (not_linked s t Hw). unfold lock_slow_raw, atomic_try_lock.
  destruct (locked mu) eqn:Hl.
  - destruct (enqueue_sec _ _ i mu t HD Hi) as (l & d & m' & -> & Hlp & Hd & Hdn & HD' & Hf & Hs);
      try done; [intros u; by apply (waiter_exists s i) | intros o Ho; apply (HH o i); by apply H1 | apply H7 .. |].
    simpl. intros [= <-]. eexists. split; [done |]. eapply (inv_set s _ t i); try done; [| | by left].
    + apply (t_enqueue _ _ _ (blocked (mach s)) _ t i mu); auto; try done. intros u. unfold blocked. rewrite Hs.
      destruct (Z.eqb_spec u t) as [-> |]; [tauto |]. intuition congruence.
    + intros u. by apply frame_exists.
  - destruct (H2 eq_refl) as [Ho _].
    destruct (attach_sec _ _ i mu (with_locked true mu) t HD Hi Ho) as (d & m' & -> & Hd & HD' & Hf & Hs);
      [done | intros u; by apply (waiter_exists s i mu) | done |].
    simpl. intros [= <-]. eexists. split; [done |]. eapply (inv_set s _ t i); try done.
    + apply (sync_ok_ext _ (upd (pc_of s) t Free) _ _ (blocked (mach s)) _ (on_cpu (mach s))); try done.
      * apply (t_take _ _ _ _ _ t i mu); auto; simpl; try done.
      * intros u. unfold blocked. by rewrite Hs.
    + intros u. by apply frame_exists.
    + intros u j. rewrite elem_of_cons. intros [[= -> ->] | ?]; auto.
Qed.

Lemma step_unlock t i : run kernel_root (Unlock t i) s = Some r -> exists s', r = Ok s' /\ inv s'.
Proof.
  simpl. run_thread c t ctx. destruct (pc_of s t) eqn:Hpc; try done.
  destruct (mutexes s !! i) as [mu |] eqn:Hi; [| done]. case_bool_decide as Hheld; [| done].
  destruct (locks_ok _ _ _ _ _ HS i mu Hi) as [H1 H2 H3 H4 H5 H6 H7 H8].
  assert (Ho : owner mu = Some t) by (by apply H1).
  destruct (unlock_sec _ _ i mu t HD Hi Ho Hth) as
    (mu' & m' & -> & Hl & Ho' & Hd & Hw & Hc & HD' & Hf & Hs); [intros u; by apply (waiter_exists s i) | apply H7 |].
  simpl. intros [= <-]. eexists. split; [done |]. eapply (inv_set s _ t i); try done.
  - apply (t_unlock _ _ _ (blocked (mach s)) _ t i mu); try done.
    + destruct H5 as [_ E]. rewrite Hc, E, Hw. destruct (waiters mu); simpl; lia.
    + intros u. unfold blocked. rewrite Hs.
      destruct (decide (Some u = head (waiters mu))); [split; [done | tauto] | tauto].
  - intros u. by apply frame_exists.
  - intros u j. rewrite list_elem_of_filter. tauto.
Qed.

(** who runs after a pass of the scheduler on one CPU *)
Lemma resched_cur m m' c ctx' u :
  (forall u, cpu_at (threads m') u = cpu_at (threads m) u) -> cpus m' = <[c := ctx']> (cpus m) ->
  ~ blocked m (current ctx') -> on_cpu m' u ->
  ~ blocked m u \/ on_cpu m u /\ cpu_at (threads m) u <> Some c.
Proof.
  intros Ht Hc Hnb (c1 & ctx1 & E1 & E2 & E3). rewrite Ht in E1. rewrite Hc in E2.
  destruct (decide (c1 = c)) as [-> | Hne].
  - rewrite lookup_insert_eq in E2. injection E2 as <-. left. by rewrite <- E3.
  - rewrite lookup_insert_ne in E2 by done. right. split; [by exists c1, ctx1 | congruence].
Qed.

Lemma resched_exists (m m' : machine) u :
  (forall u, cpu_at (threads m') u = cpu_at (threads m) u) -> exists_thread m u -> exists_thread m' u.
Proof.
  intros Ht [th Hu]%exists_thread_some. apply exists_thread_some. specialize (Ht u). unfold cpu_at in Ht.
  rewrite Hu in Ht. destruct (threads m' !! u); [by eexists | done].
Qed.

Lemma step_yield t : run kernel_root (Yield t) s = Some r -> exists s', r = Ok s' /\ inv s'.
Proof.
  simpl. run_thread c t ctx. destruct (pc_of s t) as [| | | | i] eqn:Hpc; try done.
  destruct (schedule_sec kernel_root false _ _ c ctx HD Hctx) as (sw & m' & ctx' & E & HD' & Hb & Ht & Hc & Hnb).
  unfold schedule. rewrite E. simpl. intros [= <-]. eexists. split; [done |]. split; simpl; [done | |].
  - apply (t_sched _ (pc_of s) _ _ (blocked (mach s)) _ (on_cpu (mach s))); [done | done | |].
    + intros u Hu. rewrite pc_of_insert.
      destruct (resched_cur _ _ c ctx' u Ht Hc Hnb Hu) as [? | [Hu' Hne]]; [by left | right].
      split; [done |]. apply upd_ne. congruence.
    + intros u. rewrite pc_of_insert. upd_case u t; eauto.
  - intros u j Hu. apply (resched_exists (mach s) m'); [done | by apply (HH u j)].
Qed.

Lemma step_preempt c : run kernel_root (Preempt c) s = Some r -> exists s', r = Ok s' /\ inv s'.
Proof.
  simpl. destruct (cpus (mach s) !! c) as [ctx |] eqn:Hctx; [| done]. pose proof Hinv as [HD HS HH].
  destruct (schedule_sec kernel_root true _ _ c ctx HD Hctx) as (sw & m' & ctx' & E & HD' & Hb & Ht & Hc & Hnb).
  unfold __schedule_irq. rewrite E. simpl. intros [= <-]. eexists. split; [done |]. split; simpl; [done | |].
  - apply (t_sched _ (pc_of s) _ _ (blocked (mach s)) _ (on_cpu (mach s))); [done | done | | by left].
    intros u Hu. destruct (resched_cur _ _ c ctx' u Ht Hc Hnb Hu) as [? | [Hu' _]]; [by left | by right].
  - intros u j Hu. apply (resched_exists (mach s) m'); [done | by apply (HH u j)].
Qed.

Lemma need_resched_ok ms m c ctx n :
  don_ok ms m -> cpus m !! c = Some ctx ->
  let m' := mk_machine (threads m) (<[c := with_need_resched true ctx]> (cpus m)) n in
  don_ok ms m' /\ frame m m'.
Proof.
  intros HD Hc m'. pose proof HD as [D1 D2 D3].
  destruct (m_cpus m D1 c ctx Hc) as (_ & ctx0 & Hc0 & Hq & Hs). rewrite Hc in Hc0. injection Hc0 as <-.
  destruct (m_quiet m D1 c ctx Hc) as [Hpc Hze].
  destruct (rescheduled ms m c ctx (with_need_resched true ctx) (threads m) n) as (R1 & _ & R3); try done.
  { apply same_threads_refl. } { intros u uth uth' Eu Eu'. left. congruence. }
  split; [done |]. split; [| done]. intros c'. simpl. destruct (decide (c' = c)) as [-> |].
  - by rewrite lookup_insert_eq, Hc.
  - by rewrite lookup_insert_ne.
Qed.

Lemma step_tick c : run kernel_root (Tick c) s = Some r -> exists s', r = Ok s' /\ inv s'.
Proof.
  simpl. destruct (cpus (mach s) !! c) as [ctx |] eqn:Hctx; [| done]. pose proof Hinv as [HD HS HH].
  assert (exists m', timer_handler c (mach s) = Ok m' /\ don_ok (mutexes s) m' /\ frame (mach s) m' /\
    threads m' = threads (mach s)) as (m' & -> & HD' & Hf & Et).
  { assert (Hticks : forall n, let m1 := mk_machine (threads (mach s)) (cpus (mach s)) n in
      don_ok (mutexes s) m1 /\ frame (mach s) m1).
    { intros n m1. split; [| done]. destruct HD as [[A B C D] D2 D3]. 
      split; [split; [exact A | exact B | exact C | exact D] | exact D2 | exact D3]. }
    unfold timer_handler. set (m1 := if c =? 0 then _ else _).
    assert (H1 : don_ok (mutexes s) m1 /\ frame (mach s) m1 /\ threads m1 = threads (mach s) /\
      cpus m1 = cpus (mach s)).
    { unfold m1. destruct (c =? 0); [| done]. destruct (Hticks (g_ticks (mach s) + 1)). done. }
    destruct H1 as (HD1 & Hf1 & Et1 & Ec1). clearbody m1.
    destruct (_ =? 0); [| exists m1; split; [done | split; [done | by split]]].
    unfold get_cpu. rewrite Ec1, Hctx. simpl.
    destruct (need_resched_ok (mutexes s) m1 c ctx (g_ticks m1) HD1) as [R1 R2]; [by rewrite Ec1 |].
    eexists. split; [done |]. split; [exact R1 |]. split; [by apply (frame_trans _ m1) | done]. }
  simpl. intros [= <-]. eexists. split; [done |]. split; simpl; [done | |].
  - apply (sync_ok_ext _ _ _ _ _ _ _ _ HS); [done | |].
    + intros u. unfold blocked. by rewrite Et.
    + intros u. by apply frame_on_cpu.
  - intros u j Hu. unfold exists_thread. rewrite Et. by apply (HH u j).
Qed.

Lemma step_ok l : run kernel_root l s = Some r -> exists s', r = Ok s' /\ inv s'.
Proof.
  destruct l; [apply step_lock | apply step_cas | apply step_attach | apply step_slow | apply step_yield
    | apply step_unlock | apply step_preempt | apply step_tick].
Qed.
End steps.

Lemma reachable_inv kernel_root s0 s : inv s0 -> reachable kernel_root s0 s -> inv s.
Proof.
  intros H0. induction 1 as [| l s s' _ IH E]; [done |].
  destruct (step_ok kernel_root s (Ok s') IH l E) as (s'' & [= ->] & H). done.
Qed.

(** ** Properties *)

(** [n] unlocked mutexes on a consistent machine whose threads neither wait nor
    hold donations *)
Definition start (n : nat) (m : machine) : sys := mk_sys (replicate n mutex_init) m ∅ [].

Definition start_ok (n : nat) (m : machine) : Prop :=
  Z.of_nat n <= UINT16_MAX /\ mach_ok m /\
  forall t th, threads m !! t = Some th ->
    pi_donations th = replicate 64 0 /\ status th <> THREAD_BLOCKED.

Lemma start_inv n m : start_ok n m -> inv (start n m).
Proof.
  intros (Hn & Hm & Hth). split; simpl.
  - split; [done | | by rewrite length_replicate].
    intros t th p Ht Hp. destruct (Hth t th Ht) as [-> _].
    assert (E : contributions (replicate n mutex_init) t p = 0).
    { clear. induction n; simpl; [done |]. rewrite IHn. by rewrite contributes_none. }
    rewrite E. unfold donation. by rewrite lookup_replicate_2 by lia.
  - assert (Hpc : forall t, pc_of (start n m) t = Free) by done. split.
    + intros i mu [-> _]%lookup_replicate. split; simpl; try done.
      * intros t. split; [done | by intros ?%elem_of_nil].
      * split; [constructor | done].
      * intros t Ht. by apply elem_of_nil in Ht.
    + intros t i. by rewrite Hpc.
    + intros t i Ht. by apply elem_of_nil in Ht.
    + intros t (th & Ht & Hb)%status_at_some. by destruct (Hth t th Ht).
    + intros t _ (th & Ht & Hb)%status_at_some. by destruct (Hth t th Ht).
  - intros t i Ht. by apply elem_of_nil in Ht.
Qed.

(** C10: mutual exclusion. Whatever the interleaving of lock and unlock calls,
    preemptions and timer ticks, of any threads on any CPUs, a mutex is held by
    at most one thread; a held mutex is locked and names its holder as owner,
    and no other thread is past the compare-and-swap. *)
Theorem mutex_exclusion kernel_root n m s i t1 t2 :
  start_ok n m -> reachable kernel_root (start n m) s ->
  (t1, i) ∈ held s -> (t2, i) ∈ held s \/ pc_of s t2 = Attach i ->
  t1 = t2 /\ exists mu, mutexes s !! i = Some mu /\ locked mu = true /\ owner mu = Some t1.
Proof.
  intros H0 Hr H1 H2. pose proof (reachable_inv _ _ _ (start_inv n m H0) Hr) as [_ HS _].
  destruct (held_ok _ _ _ _ _ HS t1 i H1) as [mu Hi].
  destruct (locks_ok _ _ _ _ _ HS i mu Hi) as [L1 L2 _ L4 _ _ _ _].
  apply L1 in H1. split.
  - destruct H2 as [H2%L1 | H2]; [congruence |]. destruct (L4 t2 H2). congruence.
  - exists mu. split; [done |]. split; [| done]. destruct (locked mu); [done |].
    destruct (L2 eq_refl). congruence.
Qed.

(** C15: no wakeup is lost. In every reachable state a mutex with waiting
    threads is held, or is being taken by a thread past the compare-and-swap,
    or has an awake thread on its way to take it; and every thread blocked on
    it is on its list, so the next unlock can reach it. *)
Theorem mutex_no_lost_wakeup kernel_root n m s i mu :
  start_ok n m -> reachable kernel_root (start n m) s -> mutexes s !! i = Some mu ->
  (waiters mu <> [] ->
     (exists t, (t, i) ∈ held s) \/ (exists t, pc_of s t = Attach i) \/
     exists t, (pc_of s t = Start i \/ pc_of s t = Slow i \/ pc_of s t = Sleep i) /\ ~ blocked (mach s) t) /\
  forall t, blocked (mach s) t -> stage (pc_of s t) = Some i -> t ∈ waiters mu.
Proof.
  intros H0 Hr Hi. pose proof (reachable_inv _ _ _ (start_inv n m H0) Hr) as [_ HS _].
  destruct (locks_ok _ _ _ _ _ HS i mu Hi) as [L1 L2 L3 L4 L5 L6 L7 L8]. split.
  - intros Hw. destruct (L8 Hw) as [Hl | Hc]; [| by right; right].
    destruct (L3 Hl) as [Ho | Ha]; [| by right; left]. left.
    destruct (owner mu) as [t |] eqn:E; [| done]. exists t. by apply L1.
  - intros t Hb Hst. destruct (blocked_waits _ _ _ _ _ HS t Hb) as (j & mj & Hj & Hw).
    destruct (waiters_blocked _ _ _ _ _ (locks_ok _ _ _ _ _ HS j mj Hj) t Hw) as [[E | E] _];
      rewrite E in Hst; injection Hst as ->; congruence.
Qed.

(** the sections never fail and donations are exact. In every reachable
    state each enabled step completes without panic or fault and keeps every
    CPU consistent; a thread holds at each priority exactly as many donations
    as it owns mutexes donating that priority, and its effective priority is
    the best of them and its base priority. *)
Lemma mutex_steps_complete kernel_root n m s :
  start_ok n m -> reachable kernel_root (start n m) s ->
  (forall l r, run kernel_root l s = Some r -> exists s', r = Ok s' /\ machine_ok (mach s')) /\
  forall t th, threads (mach s) !! t = Some th ->
    (forall p, 0 <= p < 64 -> donation p (pi_donations th) = contributions (mutexes s) t p) /\
    best_priority th /\ ((forall i, (t, i) ∉ held s) -> priority th = base_priority th).
Proof.
  intros H0 Hr. pose proof (reachable_inv _ _ _ (start_inv n m H0) Hr) as Hinv. split.
  - intros l r E. destruct (step_ok kernel_root s r Hinv l E) as (s' & -> & [HD _ _]). exists s'.
    split; [done |]. apply (m_cpus _ (d_mach _ _ HD)).
  - intros t th Ht. destruct Hinv as [[D1 D2 D3] HS _]. destruct (m_threads _ D1 t th Ht) as [Hp _].
    split; [intros p Hpr; by apply D2 |]. pose proof (prio_ok_best th Hp) as [Hrange Hbest].
    split; [done |]. intros Hno. destruct Hbest as (_ & _ & [? | Hdon]); [done |]. exfalso. apply Hdon.
    rewrite (D2 t th _ Ht Hrange).
    assert (Hz : forall ms p, (forall i mu, ms !! i = Some mu -> owner mu <> Some t) -> contributions ms t p = 0).
    { clear. induction ms as [| mu ms IH]; intros p H; simpl; [done |].
      rewrite IH by (intros i; apply (H (S i))). unfold contributes.
      by rewrite bool_decide_eq_false_2 by (by apply (H 0%nat)). }
    apply Hz. intros i mu Hi Ho. by apply (Hno i), (owner_holds _ _ _ _ _ (locks_ok _ _ _ _ _ HS i mu Hi)).
Qed.

(** ** Order of the waiters and priority inheritance *)

Definition prio_at (m : machine) (t : Z) : option Z := priority <$> threads m !! t.

(** [a] is at least as good as [b] *)
Definition better_eq (m : machine) (a b : Z) : Prop :=
  exists pa pb, prio_at m a = Some pa /\ prio_at m b = Some pb /\ pa <= pb.

Definition sorted (m : machine) (ws : list Z) : Prop := StronglySorted (better_eq m) ws.

(** where a new waiter goes: behind its betters and its equals *)
Definition placed (m : machine) (t p : Z) (ws l1 l2 : list Z) : Prop :=
  ws = l1 ++ l2 /\ Forall (fun u => exists q, prio_at m u = Some q /\ q <= p) l1 /\
  Forall (fun u => exists q, prio_at m u = Some q /\ p < q) l2.

Lemma add_waiter_placed t p ws m :
  sorted m ws -> (forall u, u ∈ ws -> exists_thread m u) ->
  exists l1 l2, add_waiter t p ws m = Ok (l1 ++ t :: l2) /\ placed m t p ws l1 l2.
Proof.
  induction 1 as [| u ws Hs IH HF]; intros Hw; simpl; [by exists [], []; repeat constructor |].
  destruct (proj1 (exists_thread_some m u) (Hw u ltac:(lmem))) as [uth Hu].
  assert (Hpu : prio_at m u = Some (priority uth)) by (unfold prio_at; by rewrite Hu).
  unfold get_thread. rewrite Hu. simpl. destruct (Z.ltb_spec p (priority uth)) as [Hlt | Hge].
  - exists [], (u :: ws). split; [done |]. split; [done |]. split; [constructor |].
    constructor; [eauto |]. apply (Forall_impl _ _ _ HF). intros v (pu & pv & E1 & E2 & Hle).
    exists pv. split; [done |]. rewrite Hpu in E1. injection E1 as <-. lia.
  - destruct IH as (l1 & l2 & -> & -> & P1 & P2); [intros v Hv; apply Hw; lmem |].
    exists (u :: l1), l2. split; [done |]. split; [done |]. split; [| done]. constructor; eauto.
Qed.

Lemma placed_sorted m t p ws l1 l2 :
  prio_at m t = Some p -> sorted m ws -> placed m t p ws l1 l2 -> sorted m (l1 ++ t :: l2).
Proof.
  intros Ht Hs (-> & P1 & P2). induction l1 as [| u l1 IH]; simpl in *.
  - constructor; [done |]. apply (Forall_impl _ _ _ P2). intros v (q & E & Hq).
    exists p, q. split_and!; [done | done | lia].
  - apply StronglySorted_inv in Hs as [Hs HF]. apply Forall_cons in P1 as [(q & E & Hq) P1].
    constructor; [by apply IH |]. apply Forall_app in HF as [HF1 HF2]. apply Forall_app. split; [done |].
    constructor; [| done]. exists q, p. done.
Qed.

Lemma sorted_ext m m' ws :
  (forall u, u ∈ ws -> prio_at m' u = prio_at m u) -> sorted m ws -> sorted m' ws.
Proof.
  intros He Hs. induction Hs as [| u ws Hs IH HF]; [constructor |].
  constructor; [apply IH; intros v Hv; apply He; lmem |].
  apply Forall_forall. intros v Hv. destruct (proj1 (Forall_forall _ _) HF v Hv) as (pu & pv & E1 & E2 & Hle).
  exists pu, pv. rewrite !He by lmem. done.
Qed.

Lemma sorted_head m ws p t :
  sorted m ws -> head ws = Some t -> prio_at m t = Some p -> forall u, u ∈ ws -> exists q, prio_at m u = Some q /\ p <= q.
Proof.
  intros Hs Hh Ht u Hu. destruct ws as [| v ws]; [done |]. injection Hh as ->.
  apply StronglySorted_inv in Hs as [_ HF]. apply elem_of_cons in Hu as [-> | Hu]; [by exists p; split; [| lia] |].
  destruct (proj1 (Forall_forall _ _) HF u Hu) as (pa & pb & E1 & E2 & Hle). exists pb. split; [done |]. congruence.
Qed.

Lemma set_status_prio m t s m' :
  thread_set_status t s m = Ok m' -> forall u, prio_at m' u = prio_at m u.
Proof.
  unfold thread_set_status, get_thread. destruct (threads m !! t) as [th |] eqn:Ht; [| done].
  simpl. intros [= <-] u. unfold prio_at. simpl. destruct (decide (u = t)) as [-> |].
  - by rewrite lookup_insert_eq, Ht.
  - by rewrite lookup_insert_ne.
Qed.

(** the owner of a mutex with a donation runs at least at that priority *)
Lemma owner_boosted ms m i mu o :
  don_ok ms m -> ms !! i = Some mu -> owner mu = Some o -> exists_thread m o ->
  0 <= donated_priority mu < 64 -> exists q, prio_at m o = Some q /\ q <= donated_priority mu.
Proof.
  intros [D1 D2 _] Hi Ho [oth Ht]%exists_thread_some Hd. exists (priority oth). unfold prio_at.
  rewrite Ht. split; [done |]. destruct (m_threads m D1 o oth Ht) as [Hp _].
  destruct (prio_ok_best oth Hp) as [_ (_ & Hb & _)]. apply Hb; [done |]. rewrite (D2 o oth _ Ht Hd).
  pose proof (contributions_split ms i mu o (donated_priority mu) Hi) as Hs. unfold contributes in Hs.
  rewrite Ho, bool_decide_eq_true_2, Z.eqb_refl in Hs by done. simpl in Hs. lia.
Qed.

(** after a refresh the owner is at least as good as every waiter *)
Lemma refresh_boosts ms m i mu o :
  don_ok ms m -> ms !! i = Some mu -> owner mu = Some o -> exists_thread m o ->
  (forall u, u ∈ waiters mu -> exists_thread m u) -> 0 <= donated_priority mu <= 64 ->
  o ∉ waiters mu -> sorted m (waiters mu) ->
  exists d m', mutex_refresh_donation_locked mu m = Ok (with_donated d mu, m') /\
    don_ok (<[i := with_donated d mu]> ms) m' /\ frame m m' /\ same_status m m' /\
    sorted m' (waiters mu) /\ (forall u, u <> o -> prio_at m' u = prio_at m u) /\
    forall u, u ∈ waiters mu -> better_eq m' o u.
Proof.
  intros HD Hi Ho Hex Hw Hd Hno Hs.
  destruct (refresh_sec ms m i mu HD Hi Hw) as (d & m' & E & Hdr & _ & Hp & HD' & Hf & Hst);
    [intros o' E; congruence | done | congruence |].
  destruct (Hp o Ho) as [Hfirst Hsame]. exists d, m'.
  assert (Hpr : forall u, u <> o -> prio_at m' u = prio_at m u).
  { intros u Hu. unfold prio_at. by rewrite Hsame. }
  assert (Hs' : sorted m' (waiters mu)).
  { apply (sorted_ext m); [| done]. intros u Hu. apply Hpr. congruence. }
  split_and!; try done; try apply Hf. intros u Hu.
  unfold mutex_waiter_priority_locked in Hfirst. destruct (waiters mu) as [| w ws] eqn:Ew; [by apply elem_of_nil in Hu |].
  unfold get_thread in Hfirst. destruct (threads m !! w) as [wth |] eqn:Ht; [| done]. injection Hfirst as Hd'.
  destruct (m_threads m (d_mach _ _ HD) w wth Ht) as [[Hrange _]%prio_ok_best _].
  assert (Hwp : prio_at m' w = Some d).
  { rewrite Hpr by (intros ->; apply Hno; lmem). unfold prio_at. rewrite Ht. simpl. by rewrite Hd'. }
  destruct (sorted_head m' (w :: ws) d w Hs' eq_refl Hwp u Hu) as (q & Eq & Hq).
  destruct (owner_boosted _ m' i (with_donated d mu) o HD') as (qo & Eo & Hqo); try done.
  - apply list_lookup_insert_eq. by eapply lookup_lt_Some.
  - by apply (same_status_exists m m').
  - simpl. lia.
  - exists qo, q. simpl in Hqo. split_and!; [done | done | lia].
Qed.

(** waiting is by priority, and the owner inherits. A thread that finds the
    mutex taken goes behind every waiter at least as good and before every
    worse one (first come, first served among equals), sleeps, and the owner
    ends with a priority at least as good as that of every waiter. *)
Lemma mutex_waiter_order ms m i mu t th o :
  don_ok ms m -> ms !! i = Some mu -> locked mu = true -> owner mu = Some o ->
  threads m !! t = Some th -> (forall c ctx, cpus m !! c = Some ctx -> idle ctx <> t) ->
  (forall u, u ∈ o :: waiters mu -> exists_thread m u) -> o ∉ t :: waiters mu ->
  0 <= donated_priority mu <= 64 -> sorted m (waiters mu) ->
  exists l1 l2 d m', let mu' := with_donated d (with_waiters (l1 ++ t :: l2) (wait_count mu + 1) mu) in
    lock_slow_raw t false mu m = Ok (false, mu', m') /\
    placed m t (priority th) (waiters mu) l1 l2 /\ sorted m' (waiters mu') /\
    (forall u, u ∈ waiters mu' -> better_eq m' o u) /\ blocked m' t.
Proof.
  intros HD Hi Hl Ho Ht Hidle Hex Hno Hd Hs. unfold lock_slow_raw, atomic_try_lock, enqueue_waiter. rewrite Hl.
  destruct (set_status_sec ms m t THREAD_BLOCKED HD) as (m1 & E1 & HD1 & Hf1 & Eth & Hs1);
    [apply exists_thread_some; eauto | auto | auto |]. rewrite E1. simpl.
  pose proof (set_status_prio m t _ m1 E1) as Hp1.
  assert (Ht1 : prio_at m1 t = Some (priority th)) by (rewrite Hp1; unfold prio_at; by rewrite Ht).
  assert (Hex1 : forall u, u ∈ o :: waiters mu -> exists_thread m1 u).
  { intros u Hu. apply (frame_exists m); [done | by apply Hex]. }
  unfold mutex_add_waiter_locked, get_thread. rewrite (Eth th Ht), lookup_insert_eq. simpl.
  destruct (add_waiter_placed t (priority th) (waiters mu) m1) as (l1 & l2 & -> & Hpl);
    [by apply (sorted_ext m) | intros u Hu; apply Hex1; lmem |]. simpl.
  set (mu1 := with_waiters (l1 ++ t :: l2) (wait_count mu + 1) mu).
  change (mutex_refresh_donation_locked _ m1) with (mutex_refresh_donation_locked mu1 m1).
  assert (Hmem : forall u, u ∈ l1 ++ t :: l2 -> u = t \/ u ∈ waiters mu).
  { intros u. destruct Hpl as (-> & _). lmem. }
  destruct (refresh_boosts (<[i := mu1]> ms) m1 i mu1 o) as (d & m' & -> & HD' & Hf & Hst & Hs' & _ & Hb); try done.
  - by apply (don_ok_insert ms m1 i mu).
  - apply list_lookup_insert_eq. by eapply lookup_lt_Some.
  - apply Hex1. lmem.
  - intros u [-> | Hu]%Hmem; [| apply Hex1; lmem]. unfold exists_thread. rewrite Hs1, Z.eqb_refl. by eexists.
  - intros [-> | Hu]%Hmem; apply Hno; lmem.
  - apply (placed_sorted m1 t (priority th) (waiters mu)); [done | by apply (sorted_ext m) | done].
  - exists l1, l2, d, m'. split; [done |]. split.
    + destruct Hpl as (P0 & P1 & P2). split; [done |]. by split; [apply (Forall_impl _ _ _ P1) |
        apply (Forall_impl _ _ _ P2)]; intros u (q & E & Hq); exists q; rewrite <- Hp1.
    + split; [done |]. split; [done |]. unfold blocked. by rewrite Hst, Hs1, Z.eqb_refl.
Qed.

Lemma enqueue_owner t b mu m mu' m' : enqueue_waiter t b mu m = Ok (mu', m') -> owner mu' = owner mu.
Proof.
  unfold enqueue_waiter. destruct b; [by intros [= <- _] |].
  destruct (thread_set_status t THREAD_BLOCKED m) as [m1 | |]; try done. simpl.
  unfold mutex_add_waiter_locked. destruct (get_thread t m1) as [th | |]; try done. simpl.
  destruct (add_waiter t _ _ m1) as [l | |]; try done. simpl. unfold mutex_refresh_donation_locked. simpl.
  destruct (match owner mu with Some _ => _ | None => _ end) as [p | |]; try done. simpl.
  destruct (_ =? _); [by intros [= <- _] |].
  destruct (match owner mu with Some _ => _ | None => _ end) as [m2 | |]; try done. simpl. by intros [= <- _].
Qed.

(** the handoff variant passes the lock on. With waiters, unlocking makes
    the best one (the head of the list) the owner and wakes it, with the lock
    still taken: it then gets the lock on its next look, while any other thread
    that tries is refused and queued. Without waiters the lock is freed. *)
Lemma handoff_passes_lock ms m i mu o :
  don_ok ms m -> ms !! i = Some mu -> owner mu = Some o ->
  (forall u, u ∈ o :: waiters mu -> exists_thread m u) -> 0 <= donated_priority mu <= 64 ->
  exists mu' m', mutex_unlock_handoff mu m = Ok (mu', m') /\ machine_ok m' /\
    match waiters mu with
    | [] => locked mu' = false /\ owner mu' = None
    | w :: ws =>
        locked mu' = locked mu /\ owner mu' = Some w /\ waiters mu' = ws /\
        status_at (threads m') w = Some THREAD_READY /\
        (forall b, lock_slow_handoff w b mu' m' = Ok (true, mu', m')) /\
        forall t b r, t <> w -> lock_slow_handoff t b mu' m' = Ok r ->
          fst (fst r) = false /\ owner (snd (fst r)) = Some w
    end.
Proof.
  intros HD Hi Ho Hex Hd. unfold mutex_unlock_handoff.
  destruct (detach_sec ms m i mu o HD Hi Ho) as (m1 & -> & HD1 & Hf1 & Hs1); [apply Hex; lmem | done |].
  set (mu1 := with_owner None (with_donated 64 mu)) in *.
  assert (Hi1 : <[i := mu1]> ms !! i = Some mu1) by (apply list_lookup_insert_eq; by eapply lookup_lt_Some).
  destruct (waiters mu) as [| w ws] eqn:Ew; simpl.
  { eexists _, m1. split; [done |]. split; [apply (m_cpus _ (d_mach _ _ HD1)) | done]. }
  assert (Hex1 : forall u, u ∈ w :: ws -> exists_thread m1 u).
  { intros u Hu. apply (frame_exists m); [done | apply Hex; lmem]. }
  unfold __wake_up_one. simpl. rewrite Ew.
  destruct (set_status_sec _ m1 w THREAD_READY HD1) as (m2 & -> & HD2 & Hf2 & _ & Hs2);
    [apply Hex1; lmem | auto | done |]. simpl.
  change (mutex_attach_owner_locked w _ m2) with
    (mutex_attach_owner_locked w (with_waiters ws (wait_count mu1 - 1) mu1) m2).
  destruct (attach_sec _ m2 i mu1 (with_waiters ws (wait_count mu1 - 1) mu1) w HD2 Hi1) as
    (d & m' & -> & Hdr & HD' & Hf & Hs); try done.
  { intros u Hu. apply (frame_exists m1); [done | apply Hex1; simpl in Hu; lmem]. }
  { apply (frame_exists m1); [done | apply Hex1; lmem]. }
  eexists _, m'. split; [done |]. split; [apply (m_cpus _ (d_mach _ _ HD')) |]. simpl.
  do 3 (split; [done |]). split; [by rewrite Hs, Hs2, Z.eqb_refl |]. split.
  - intros b. unfold lock_slow_handoff. simpl. by rewrite bool_decide_eq_true_2.
  - intros t b r Htw. unfold lock_slow_handoff. simpl. rewrite bool_decide_eq_false_2 by congruence.
    destruct (enqueue_waiter _ _ _ _) as [[mu2 m3] | |] eqn:Ee; try done. simpl. intros [= <-]. simpl.
    split; [done |]. by apply enqueue_owner in Ee.
Qed.

(** ** Runs *)

Fixpoint exec (kernel_root : Z) (ls : list label) (s : sys) : option sys :=
  match ls with
  | [] => Some s
  | l :: ls =>
      match run kernel_root l s with
      | Some (Ok s') => exec kernel_root ls s'
      | _ => None
      end
  end.

Lemma exec_reachable kernel_root s0 ls s s' :
  reachable kernel_root s0 s -> exec kernel_root ls s = Some s' -> reachable kernel_root s0 s'.
Proof.
  revert s. induction ls as [| l ls IH]; intros s Hr; simpl; [by intros [= <-] |].
  destruct (run kernel_root l s) as [[s1 | |] |] eqn:E; try done. apply IH.
  by apply (reach_step kernel_root s0 l s).
Qed.

Lemma ex_start_ok : start_ok 2 ex_machine.
Proof.
  assert (Hth : forall t th, ex_threads !! t = Some th -> exists st p, th = ex_thread st p /\
      0 <= p < 64 /\ (st = THREAD_READY \/ st = THREAD_RUNNING)).
  { intros t th Ht. apply elem_of_list_to_map_2, list_elem_of_In in Ht. simpl in Ht.
    destruct Ht as [E | [E | [E | [E | [E | []]]]]]; injection E as <- <-;
      eexists _, _; (split; [reflexivity | split; [lia | auto]]). }
  split; [by vm_compute |]. split.
  - split; [apply ex_machine_ok | | |].
    + intros c ctx Hc. simpl in Hc. apply lookup_singleton_Some in Hc as [_ <-]. done.
    + intros c ctx th Hc Ht. simpl in Hc. apply lookup_singleton_Some in Hc as [<- <-].
      by destruct (Hth _ _ Ht) as (st & p & -> & _).
    + intros t th Ht. destruct (Hth _ _ Ht) as (st & p & -> & Hp & Hst). split; [by apply ex_prio_ok |].
      by destruct Hst as [-> | ->].
  - intros t th Ht. destruct (Hth _ _ Ht) as (st & p & -> & Hp & Hst). split; [done |].
    by destruct Hst as [-> | ->].
Qed.

(** thread 13 holds mutex 0, is preempted, and thread 11 sleeps on the mutex *)
Definition ex_run : list label :=
  [Lock 13 0; Cas 13; AttachL 13; Preempt 0; Lock 11 0; Cas 11; SlowL 11; Yield 11].

Definition ex_state : sys := default (start 2 ex_machine) (exec 4096 ex_run (start 2 ex_machine)).

Lemma ex_reachable : reachable 4096 (start 2 ex_machine) ex_state.
Proof.
  apply (exec_reachable 4096 _ ex_run (start 2 ex_machine)); [constructor | vm_compute; reflexivity].
Qed.

Lemma mutex_exclusion_witness :
  exists mu, mutexes ex_state !! 0%nat = Some mu /\ locked mu = true /\ owner mu = Some 13.
Proof.
  assert (Hh : (13, 0%nat) ∈ held ex_state) by (apply (bool_decide_unpack _); vm_compute; exact I).
  exact (proj2 (mutex_exclusion 4096 2 ex_machine ex_state 0 13 13 ex_start_ok ex_reachable Hh (or_introl Hh))).
Defined.

Definition ex_mutex : mutex := mk_mutex true (Some 13) 7 [11] 1.

Lemma mutex_no_lost_wakeup_witness :
  mutexes ex_state !! 0%nat = Some ex_mutex /\
  forall t, blocked (mach ex_state) t -> stage (pc_of ex_state t) = Some 0%nat -> t ∈ waiters ex_mutex.
Proof.
  assert (E : mutexes ex_state !! 0%nat = Some ex_mutex) by (vm_compute; reflexivity).
  split; [exact E |].
  exact (proj2 (mutex_no_lost_wakeup 4096 2 ex_machine ex_state 0 ex_mutex ex_start_ok ex_reachable E)).
Defined.

Lemma mutex_steps_complete_witness :
  exists s', run 4096 (Preempt 0) ex_state = Some (Ok s') /\ machine_ok (mach s').
Proof.
  destruct (mutex_steps_complete 4096 2 ex_machine ex_state ex_start_ok ex_reachable) as [H _].
  destruct (run 4096 (Preempt 0) ex_state) as [r |] eqn:E; [| vm_compute in E; discriminate].
  destruct (H _ _ E) as (s' & -> & Hm). exists s'. split; [reflexivity | exact Hm].
Defined.

Lemma ex_don_ok : don_ok (mutexes ex_state) (mach ex_state).
Proof. apply i_don, (reachable_inv 4096 (start 2 ex_machine)), ex_reachable. apply start_inv, ex_start_ok. Qed.

Lemma ex_mutex_at : mutexes ex_state !! 0%nat = Some ex_mutex.
Proof. vm_compute. reflexivity. Qed.

Lemma ex_exists u : u ∈ [13; 11] -> exists_thread (mach ex_state) u.
Proof.
  rewrite !elem_of_cons. intros [-> | [-> | H]]; [vm_compute; eauto | vm_compute; eauto | by apply elem_of_nil in H].
Qed.

Lemma ex_not_idle c ctx : cpus (mach ex_state) !! c = Some ctx -> idle ctx <> 12.
Proof.
  intros Hc. assert (E : idle <$> cpus (mach ex_state) !! c = (if c =? 0 then Some 1 else None)).
  { destruct (Z.eqb_spec c 0) as [-> | Hne]; [vm_compute; reflexivity |].
    assert (Hdom : cpus (mach ex_state) = {[0 := default ex_ctx (cpus (mach ex_state) !! 0)]}) by (vm_compute; reflexivity).
    rewrite Hdom. by rewrite lookup_singleton_ne. }
  rewrite Hc in E. simpl in E. destruct (c =? 0); [injection E as ->; done | done].
Qed.

Lemma mutex_waiter_order_witness :
  exists l1 l2 d m', lock_slow_raw 12 false ex_mutex (mach ex_state) =
      Ok (false, with_donated d (with_waiters (l1 ++ 12 :: l2) 2 ex_mutex), m') /\
    [11] = l1 ++ l2 /\ blocked m' 12.
Proof.
  destruct (threads (mach ex_state) !! 12) as [th |] eqn:E; [| vm_compute in E; discriminate].
  destruct (mutex_waiter_order _ _ 0 ex_mutex 12 th 13 ex_don_ok ex_mutex_at eq_refl eq_refl E ex_not_idle
    ex_exists) as (l1 & l2 & d & m' & Er & (Hl & _) & _ & _ & Hb).
  - apply (bool_decide_unpack _). vm_compute. exact I.
  - simpl. lia.
  - repeat constructor.
  - exists l1, l2, d, m'. split; [exact Er |]. split; [exact Hl | exact Hb].
Defined.

Lemma handoff_passes_lock_witness :
  exists mu' m', mutex_unlock_handoff ex_mutex (mach ex_state) = Ok (mu', m') /\ owner mu' = Some 11.
Proof.
  destruct (handoff_passes_lock _ _ 0 ex_mutex 13 ex_don_ok ex_mutex_at eq_refl ex_exists)
    as (mu' & m' & E & _ & _ & Ho & _); [simpl; lia |].
  exists mu', m'. split; [exact E | exact Ho].
Defined.

(** ** Limits of the implementation *)

(** [__wake_up_all] also enqueues the threads it wakes, although a blocked
    thread never left its run queue: the woken thread is in the queue twice. *)
Lemma wake_up_all_enqueues_twice c m mu t th ctx :
  machine_ok m -> threads m !! t = Some th -> target_cpu th = c -> cpus m !! c = Some ctx ->
  t ∈ queued (runqueue ctx) -> waiters mu = [t] ->
  exists n mu' m' ctx', __wake_up_all mu m = Ok (n, mu', m') /\ cpus m' !! c = Some ctx' /\
    queued (runqueue ctx') ≡ₚ t :: queued (runqueue ctx) /\ ~ rq_ok (runqueue ctx').
Proof.
  intros Hm Ht Hc Hctx Hq Hw. destruct (Hm c ctx Hctx) as (Hb & ctx0 & Hc0 & Hqs & _).
  rewrite Hctx in Hc0. injection Hc0 as <-. pose proof Hqs as (Hr & _ & Hin & _).
  destruct (queued_at_prio _ _ Hr Hq) as (p & l & Hl & Htl).
  destruct (Hin p t) as (th' & E & Hp & _); [by exists l |]. rewrite Ht in E. injection E as <-.
  unfold __wake_up_all. rewrite Hw. simpl. unfold thread_set_status, get_thread. rewrite Ht. simpl.
  rewrite lookup_insert_eq. simpl. unfold cpu_enqueue, cpu_queue_check, get_thread. simpl.
  rewrite lookup_insert_eq. simpl. rewrite Hc. destruct (Z.eqb_spec c (-1)); [lia |].
  rewrite Z.eqb_refl. simpl. unfold get_cpu. simpl. rewrite Hctx. simpl.
  unfold runqueue_enqueue_raw, add_head. rewrite Hp, Hl. simpl.
  unfold ipi_reschedule_cpu. destruct (Z.leb_spec MAX_CPUS c); [lia |]. simpl. rewrite lookup_insert_eq.
  eexists _, _, _, _. split; [done |]. simpl. split; [apply lookup_insert_eq |].
  assert (HQ : queued (set_head p (t :: l) (runqueue ctx)) ≡ₚ t :: queued (runqueue ctx)).
  { apply (Permutation_app_inv_r l). rewrite (queued_set p l (t :: l) _ Hl). simpl.
    apply Permutation_skip, Permutation_app_comm. }
  simpl. split; [exact HQ |]. intros (_ & ND & _). unfold queued in ND. simpl in ND.
  fold (queued (set_head p (t :: l) (runqueue ctx))) in ND.
  rewrite HQ in ND. by apply NoDup_cons in ND as [ND _].
Qed.

(** thread 9 (priority 40) runs; 11 (32) is ready; 12 (7) sleeps until tick 10 *)
Definition pi_machine : machine :=
  mk_machine
    (list_to_map
      [(1, ex_thread THREAD_READY 63); (9, ex_thread THREAD_RUNNING 40); (11, ex_thread THREAD_READY 32);
       (12, with_wakeup 10 (ex_thread THREAD_SLEEPING 7))])
    {[0 := mk_cpu 9 1
        (mk_rq (<[40%nat := [9]]> (<[32%nat := [11]]> (<[7%nat := [12]]> (replicate 64 []))))
           (2 ^ 40 + 2 ^ 32 + 2 ^ 7) 3)
        runqueue_init 0 false 0 4096]} 5.

(** 9 takes mutex 0; 11 takes mutex 1 and waits for mutex 0; 12 waits for mutex 1 *)
Definition pi_run : list label :=
  [Lock 9 0; Cas 9; AttachL 9; Preempt 0; Lock 11 1; Cas 11; AttachL 11; Lock 11 0; Cas 11; SlowL 11;
   Yield 11; Tick 0; Tick 0; Tick 0; Tick 0; Tick 0; Preempt 0; Lock 12 1; Cas 12; SlowL 12].

(** A donation stops at a blocked owner: thread 11, raised to 7 by the waiter of
    its own mutex, waits for thread 9, which keeps the priority 32 that 11 had
    when it went to sleep. *)
Lemma donation_not_transitive :
  exists s, exec 4096 pi_run (start 2 pi_machine) = Some s /\
    (exists mu, mutexes s !! 0%nat = Some mu /\ owner mu = Some 9 /\ waiters mu = [11] /\
       donated_priority mu = 32) /\
    prio_at (mach s) 11 = Some 7 /\ prio_at (mach s) 9 = Some 32.
Proof.
  eexists. split; [vm_compute; reflexivity |].
  split; [eexists; split; [reflexivity | done] |]. split; vm_compute; reflexivity.
Qed.
End System.
