(* ===== verification/Rcu.v ===== *)
(** * Read-copy-update ([kernel/rcu.c], [kernel/rcu.h])

    Readers count their nesting and may be preempted inside a section; the
    scheduler then lists them as blocked.  A grace period takes a new sequence
    number, waits until every CPU has reported it, and then until the list of
    blocked readers is empty.  The accesses to shared variables are the atomic
    steps: [rcu_read_unlock] is cut between its accesses, and so are the
    reporting of a quiescent state by the tick and by the context switch, which
    run with interrupts off.  Threads are pinned to a CPU. *)

From stdpp Require Import base list.
From S2P Require Import Prelude.

Definition upd {A} (f : Z -> A) (k : Z) (v : A) (x : Z) : A := if x =? k then v else f x.

(** a reader's position in [rcu_read_unlock], after the outermost decrement *)
Inductive unlock_pc :=
  | U_none
  | U_del      (** about to leave the list of blocked readers *)
  | U_clear    (** about to clear [rcu_blocked] *)
  | U_read     (** about to read [gp_seq] *)
  | U_store (v : Z).  (** about to store it as seen *)

(** what a CPU does with interrupts off *)
Inductive cpu_pc :=
  | C_run
  | C_tick (v : Z)   (** [rcu_check_quiescent_state] has read [gp_seq] *)
  | C_note (v : Z)   (** [rcu_note_context_switch] has read [gp_seq] *)
  | C_switch.        (** noted, the switch follows *)

(** one caller of [synchronize_rcu]: its target, and in the first phase the CPU
    it looks at *)
Inductive updater := Up_none | Up_cpus (target : Z) (cpu : Z) | Up_blocked (target : Z) | Up_done (target : Z).

(** [periods] counts the grace periods ever begun and [since] is its value when
    a thread entered its outermost section; [waited] is the period of [up] *)
Record rcu := mk_rcu {
  gp_seq : Z; blocked_tasks : list Z; gp_seq_seen : Z -> Z; current : Z -> Z; cpu_state : Z -> cpu_pc;
  rcu_nesting : Z -> Z; rcu_blocked : Z -> bool; unlocking : Z -> unlock_pc;
  up : updater; periods : Z; since : Z -> Z; waited : Z }.

Definition with_readers (b : list Z) (n : Z -> Z) (r : Z -> bool) (u : Z -> unlock_pc) (si : Z -> Z)
    (s : rcu) : rcu :=
  mk_rcu (gp_seq s) b (gp_seq_seen s) (current s) (cpu_state s) n r u (up s) (periods s) si (waited s).
Definition with_cpus (se : Z -> Z) (c : Z -> Z) (p : Z -> cpu_pc) (s : rcu) : rcu :=
  mk_rcu (gp_seq s) (blocked_tasks s) se c p (rcu_nesting s) (rcu_blocked s) (unlocking s)
    (up s) (periods s) (since s) (waited s).
Definition with_up (u : updater) (s : rcu) : rcu :=
  mk_rcu (gp_seq s) (blocked_tasks s) (gp_seq_seen s) (current s) (cpu_state s) (rcu_nesting s)
    (rcu_blocked s) (unlocking s) u (periods s) (since s) (waited s).

(** ** Readers *)

Definition rcu_read_lock (t : Z) (s : rcu) : rcu :=
  let n := rcu_nesting s t in
  with_readers (blocked_tasks s) (upd (rcu_nesting s) t (n + 1)) (rcu_blocked s) (unlocking s)
    (if n =? 0 then upd (since s) t (periods s) else since s) s.

(** the decrement and the two tests that follow it *)
Definition rcu_read_unlock (t : Z) (s : rcu) : rcu :=
  let n := rcu_nesting s t - 1 in
  let u :=
    if n =? 0 then upd (unlocking s) t (if rcu_blocked s t then U_del else U_read) else unlocking s in
  with_readers (blocked_tasks s) (upd (rcu_nesting s) t n) (rcu_blocked s) u (since s) s.

(** the rest of [rcu_read_unlock], one access at a time *)
Definition unlock_del (t : Z) (s : rcu) : rcu :=
  with_readers (filter (fun x => x <> t) (blocked_tasks s)) (rcu_nesting s) (rcu_blocked s)
    (upd (unlocking s) t U_clear) (since s) s.
Definition unlock_clear (t : Z) (s : rcu) : rcu :=
  with_readers (blocked_tasks s) (rcu_nesting s) (upd (rcu_blocked s) t false)
    (upd (unlocking s) t U_read) (since s) s.
Definition unlock_read (t : Z) (s : rcu) : rcu :=
  with_readers (blocked_tasks s) (rcu_nesting s) (rcu_blocked s)
    (upd (unlocking s) t (U_store (gp_seq s))) (since s) s.
Definition unlock_store (t c v : Z) (s : rcu) : rcu :=
  let s := with_cpus (upd (gp_seq_seen s) c v) (current s) (cpu_state s) s in
  with_readers (blocked_tasks s) (rcu_nesting s) (rcu_blocked s) (upd (unlocking s) t U_none) (since s) s.

(** ** The tick and the context switch, on CPU [c] *)

Definition set_cpu_state (c : Z) (p : cpu_pc) (s : rcu) : rcu :=
  with_cpus (gp_seq_seen s) (current s) (upd (cpu_state s) c p) s.
Definition report (c v : Z) (p : cpu_pc) (s : rcu) : rcu :=
  with_cpus (upd (gp_seq_seen s) c v) (current s) (upd (cpu_state s) c p) s.

Definition rcu_check_quiescent_state (c : Z) (s : rcu) : rcu :=
  if rcu_nesting s (current s c) =? 0 then set_cpu_state c (C_tick (gp_seq s)) s else s.

Definition rcu_note_context_switch (c : Z) (s : rcu) : rcu :=
  let prev := current s c in
  if 0 <? rcu_nesting s prev then
    let s :=
      if rcu_blocked s prev then s
      else with_readers (prev :: blocked_tasks s) (rcu_nesting s) (upd (rcu_blocked s) prev true)
             (unlocking s) (since s) s in
    set_cpu_state c C_switch s
  else set_cpu_state c (C_note (gp_seq s)) s.

Definition switch_to (c next : Z) (s : rcu) : rcu :=
  with_cpus (gp_seq_seen s) (upd (current s) c next) (upd (cpu_state s) c C_run) s.

(** ** Updaters *)

(** [atomic_inc] on the [int] counter *)
Definition next_period (u : updater) (w : Z) (s : rcu) : rcu :=
  mk_rcu (i32 (gp_seq s + 1)) (blocked_tasks s) (gp_seq_seen s) (current s) (cpu_state s) (rcu_nesting s)
    (rcu_blocked s) (unlocking s) u (periods s + 1) (since s) w.

Section system.
(** the CPU each thread is pinned to, and the number of CPUs *)
Variable target_cpu : Z -> Z.
Variable g_cpu_count : Z.

(** one look of [synchronize_rcu] at the shared state *)
Definition synchronize_rcu (s : rcu) : rcu :=
  match up s with
  | Up_none => let t := i32 (gp_seq s + 1) in next_period (Up_cpus t 0) (periods s + 1) s
  | Up_cpus t c =>
      if c <? g_cpu_count then
        if gp_seq_seen s c <? t then s else with_up (Up_cpus t (c + 1)) s
      else with_up (Up_blocked t) s
  | Up_blocked t => match blocked_tasks s with [] => with_up (Up_done t) s | _ => s end
  | Up_done _ => s
  end.

Inductive label :=
  | Read_lock (t : Z) | Read_unlock (t : Z) | Unlock_step (t : Z)
  | Tick (c : Z) | Note (c : Z) | Irq_step (c : Z) (next : Z)
  | Other_update | Synchronize.

Definition online (c : Z) : bool := (0 <=? c) && (c <? g_cpu_count).

Definition runs (t : Z) (s : rcu) : bool :=
  (current s (target_cpu t) =? t) &&
  match cpu_state s (target_cpu t) with C_run => true | _ => false end.

Definition step (l : label) (s : rcu) : option rcu :=
  match l with
  | Read_lock t =>
      match runs t s, unlocking s t with true, U_none => Some (rcu_read_lock t s) | _, _ => None end
  | Read_unlock t =>
      match runs t s, unlocking s t with
      | true, U_none => if 0 <? rcu_nesting s t then Some (rcu_read_unlock t s) else None
      | _, _ => None
      end
  | Unlock_step t =>
      match runs t s, unlocking s t with
      | true, U_del => Some (unlock_del t s)
      | true, U_clear => Some (unlock_clear t s)
      | true, U_read => Some (unlock_read t s)
      | true, U_store v => Some (unlock_store t (target_cpu t) v s)
      | _, _ => None
      end
  | Tick c =>
      match online c, cpu_state s c with
      | true, C_run => Some (rcu_check_quiescent_state c s)
      | _, _ => None
      end
  | Note c =>
      match online c, cpu_state s c with
      | true, C_run => Some (rcu_note_context_switch c s)
      | _, _ => None
      end
  | Irq_step c next =>
      match cpu_state s c with
      | C_run => None
      | C_tick v => Some (report c v C_run s)
      | C_note v => Some (report c v C_switch s)
      | C_switch => if target_cpu next =? c then Some (switch_to c next s) else None
      end
  | Other_update => Some (next_period (up s) (waited s) s)
  | Synchronize => Some (synchronize_rcu s)
  end.

Inductive reachable (s0 : rcu) : rcu -> Prop :=
  | reach_init : reachable s0 s0
  | reach_step l s s' : reachable s0 s -> step l s = Some s' -> reachable s0 s'.

(** ** The invariant *)

(** no period number has wrapped *)
Definition in_int (s : rcu) : Prop := 0 <= periods s < 2147483648.

Definition pending (p : cpu_pc) (v : Z) : Prop := p = C_tick v \/ p = C_note v.

Record ok (s : rcu) : Prop := {
  seq_ok : gp_seq s = i32 (periods s);
  pinned : forall c, (0 <= c < g_cpu_count -> target_cpu (current s c) = c) /\
    (cpu_state s c <> C_run -> 0 <= c < g_cpu_count);
  nest_pos : forall t, 0 <= rcu_nesting s t;
  listed : forall t, t ∈ blocked_tasks s <-> rcu_blocked s t = true /\ unlocking s t <> U_clear;
  outside : forall t, unlocking s t <> U_none -> rcu_nesting s t = 0;
  away : forall t, 0 < rcu_nesting s t -> current s (target_cpu t) = t \/ t ∈ blocked_tasks s;
  noted : forall c, cpu_state s c = C_switch -> 0 < rcu_nesting s (current s c) ->
    current s c ∈ blocked_tasks s;
  quiet : forall c v, pending (cpu_state s c) v -> rcu_nesting s (current s c) = 0 /\ v <= periods s;
  read_value : forall t v, unlocking s t = U_store v -> v <= periods s;
  seen_le : forall c, gp_seq_seen s c <= periods s }.

(** [t] is in a section that began before the period the updater waits for *)
Definition old (s : rcu) (t : Z) : Prop := 0 < rcu_nesting s t /\ since s t < waited s.

(** the CPUs the updater has passed: those below [lim] *)
Definition lim (s : rcu) : Z :=
  match up s with Up_cpus _ c => c | _ => g_cpu_count end.

Definition target (s : rcu) : option Z :=
  match up s with Up_none => None | Up_cpus t _ | Up_blocked t | Up_done t => Some t end.

(** the updater's side: an old reader is listed, or runs on a CPU that has
    neither reported the period nor been passed; a pending report of the period
    means that CPU's old readers are all listed *)
Record grace (s : rcu) (T : Z) : Prop := {
  begun : T = waited s /\ T <= periods s;
  readers : forall t, old s t -> t ∈ blocked_tasks s \/
    current s (target_cpu t) = t /\ gp_seq_seen s (target_cpu t) < T /\ lim s <= target_cpu t;
  reports : forall u v, unlocking s u = U_store v -> T <= v ->
    forall t, old s t -> target_cpu t = target_cpu u -> t ∈ blocked_tasks s;
  finished : forall t', up s = Up_done t' -> forall t, ~ old s t }.

Definition inv (s : rcu) : Prop := ok s /\ forall T, target s = Some T -> grace s T.

Lemma rcu_upd_eq {A} (f : Z -> A) k v : upd f k v k = v.
Proof. unfold upd. by rewrite Z.eqb_refl. Qed.
Lemma rcu_upd_ne {A} (f : Z -> A) k v x : x <> k -> upd f k v x = f x.
Proof. intros H. unfold upd. destruct (Z.eqb_spec x k); done. Qed.

Ltac upd_case x k :=
  destruct (decide (x = k)) as [-> | ?]; [rewrite ?rcu_upd_eq in * | rewrite ?rcu_upd_ne in * by done].

Hypothesis (Hcpus : forall t, 0 <= target_cpu t < g_cpu_count).

Lemma runs_spec t s : runs t s = true -> current s (target_cpu t) = t /\ cpu_state s (target_cpu t) = C_run.
Proof.
  unfold runs. intros [H1%Z.eqb_eq H2]%andb_true_iff. split; [done |]. by destruct (cpu_state s _).
Qed.

(** a reader's section count changes on its own CPU, whose state is [C_run] *)
Lemma nesting_ok s t n u si :
  ok s -> runs t s = true -> unlocking s t = U_none -> 0 <= n ->
  (forall x, u x = unlocking s x \/ x = t /\ n = 0 /\ u x <> U_clear /\ forall v, u x <> U_store v) ->
  ok (with_readers (blocked_tasks s) (upd (rcu_nesting s) t n) (rcu_blocked s) u si s).
Proof.
  intros [O1 O2 O3 O4 O5 O6 O7 O8 O9 O10] [Hcur Hrun]%runs_spec Hun Hn Hu. split; simpl; try done.
  - intros x. upd_case x t; auto.
  - intros x. destruct (Hu x) as [-> | (-> & _ & Hc & _)]; [by apply O4 |]. rewrite O4, Hun.
    split; intros [? _]; (split; [done |]); done.
  - intros x Hx. destruct (Hu x) as [E | (-> & -> & _)]; [| by rewrite rcu_upd_eq].
    rewrite E in Hx. upd_case x t; [done | by apply O5].
  - intros x Hx. upd_case x t; [by left | by apply O6].
  - intros c Hc. destruct (decide (current s c = t)) as [E | Hne]; [| rewrite rcu_upd_ne by done; by apply O7].
    assert (c = target_cpu t) as -> by (rewrite <- E; symmetry; apply O2, O2; congruence). congruence.
  - intros c v Hc. destruct (O8 c v Hc) as [H1 H2]. split; [| done].
    destruct (decide (current s c = t)) as [E | Hne]; [| by rewrite rcu_upd_ne].
    exfalso. assert (c = target_cpu t) as -> by (rewrite <- E; symmetry; apply O2, O2; by destruct Hc as [-> | ->]).
    rewrite Hrun in Hc. by destruct Hc.
  - intros x v Hx. destruct (Hu x) as [E | (-> & _ & _ & Hns)]; [rewrite E in Hx; by apply (O9 x) | by apply Hns in Hx].
Qed.

(** a grace period is not delayed by sections that begin after it *)
Lemma grace_mono s s' T :
  grace s T -> waited s' = waited s -> periods s <= periods s' -> up s' = up s ->
  (forall t, old s' t -> old s t) ->
  (forall t, old s' t -> t ∈ blocked_tasks s -> t ∈ blocked_tasks s') ->
  (forall t, old s' t -> current s (target_cpu t) = t -> gp_seq_seen s (target_cpu t) < T ->
     lim s <= target_cpu t -> t ∈ blocked_tasks s' \/
     current s' (target_cpu t) = t /\ gp_seq_seen s' (target_cpu t) < T) ->
  (forall u v, unlocking s' u = U_store v -> T <= v -> unlocking s u = U_store v \/
     forall t, old s' t -> target_cpu t = target_cpu u -> t ∈ blocked_tasks s') ->
  grace s' T.
Proof.
  intros [[G1 G1'] G2 G3 G4] Hw Hp Hup Hold Hb Hc Hu.
  assert (Hlim : lim s' = lim s) by (unfold lim; by rewrite Hup). split.
  - rewrite Hw. split; [done | lia].
  - intros t Ht. rewrite Hlim. destruct (G2 t (Hold t Ht)) as [? | (H1 & H2 & H3)]; [left; auto |].
    destruct (Hc t Ht H1 H2 H3) as [? | [? ?]]; auto.
  - intros u v E Hv t Ht Htu. destruct (Hu u v E Hv) as [E' | H]; [| by apply H].
    apply Hb; [done |]. exact (G3 u v E' Hv t (Hold t Ht) Htu).
  - intros t' E t Ht. rewrite Hup in E. by apply (G4 t' E t), Hold.
Qed.

Lemma inv_read_lock s t :
  inv s -> runs t s = true -> unlocking s t = U_none -> inv (rcu_read_lock t s).
Proof.
  intros [HO HG] Hr Hu. pose proof (nest_pos s HO t) as Hn. split.
  - apply nesting_ok; [done | done | done | lia |]. auto.
  - intros T HT. apply (grace_mono s); try done; simpl; auto; try lia.
    intros x [Hx Hs]. simpl in *. pose proof (begun s T (HG T HT)) as [-> Hb]. upd_case x t.
    + destruct (Z.eqb_spec (rcu_nesting s t) 0) as [E | E]; [rewrite rcu_upd_eq in Hs; lia |]. split; [lia | done].
    + split; [done |]. destruct (rcu_nesting s t =? 0); [by rewrite rcu_upd_ne in Hs | done].
Qed.

Lemma inv_read_unlock s t :
  inv s -> runs t s = true -> unlocking s t = U_none -> 0 < rcu_nesting s t -> inv (rcu_read_unlock t s).
Proof.
  intros [HO HG] Hr Hu Hn. unfold rcu_read_unlock. split.
  - apply nesting_ok; [done | done | done | lia |]. intros x.
    destruct (Z.eqb_spec (rcu_nesting s t - 1) 0) as [E | E]; [| by left]. upd_case x t; [| by left].
    right. by destruct (rcu_blocked s t).
  - intros T HT. apply (grace_mono s); try done; simpl; auto; try lia.
    + intros x [Hx Hs]. simpl in *. split; [| done]. upd_case x t; [lia | done].
    + intros x v. destruct (_ =? 0); [| auto]. upd_case x t; [| auto]. by destruct (rcu_blocked s t).
Qed.

(** steps of a reader outside its section *)
Lemma inv_unlock_del s t : inv s -> unlocking s t = U_del -> inv (unlock_del t s).
Proof.
  intros [HO HG] Hu. pose proof HO as [O1 O2 O3 O4 O5 O6 O7 O8 O9 O10].
  assert (Hn : rcu_nesting s t = 0) by (apply O5; congruence).
  assert (Hin : forall x, x <> t -> x ∈ filter (fun y => y <> t) (blocked_tasks s) <-> x ∈ blocked_tasks s).
  { intros x Hx. rewrite list_elem_of_filter. tauto. }
  split; [split; simpl; try done |].
  - intros x. upd_case x t.
    + rewrite list_elem_of_filter. split; [tauto |]. intros [_ ?]. done.
    + by rewrite Hin.
  - intros x Hx. upd_case x t; [done | by apply O5].
  - intros x Hx. destruct (O6 x Hx) as [? | ?]; [by left | right]. apply Hin; [congruence || (intros ->; lia) | done].
  - intros c Hc Hx. apply Hin; [intros E; rewrite E in Hx; lia | by apply O7].
  - intros x v. upd_case x t; [done | by apply O9].
  - intros T HT. apply (grace_mono s); try done; simpl; auto; try lia.
    + intros x [Hx _] Hb. simpl in Hx. apply Hin; [intros ->; lia | done].
    + intros x v. upd_case x t; [done | auto].
Qed.

Lemma inv_unlock_clear s t : inv s -> unlocking s t = U_clear -> inv (unlock_clear t s).
Proof.
  intros [HO HG] Hu. pose proof HO as [O1 O2 O3 O4 O5 O6 O7 O8 O9 O10].
  assert (Hn : rcu_nesting s t = 0) by (apply O5; congruence).
  split; [split; simpl; try done |].
  - intros x. upd_case x t; [| by apply O4]. rewrite O4, Hu. split; intros [? ?]; done.
  - intros x Hx. upd_case x t; [done | by apply O5].
  - intros x v. upd_case x t; [done | by apply O9].
  - intros T HT. apply (grace_mono s); try done; simpl; auto.
    intros x v. upd_case x t; [done | auto].
Qed.

Lemma inv_unlock_read s t :
  inv s -> in_int s -> runs t s = true -> unlocking s t = U_read -> inv (unlock_read t s).
Proof.
  intros [HO HG] Hi [Hcur _]%runs_spec Hu. pose proof HO as [O1 O2 O3 O4 O5 O6 O7 O8 O9 O10].
  assert (Hn : rcu_nesting s t = 0) by (apply O5; congruence).
  split; [split; simpl; try done |].
  - intros x. upd_case x t; [| by apply O4]. rewrite O4, Hu. split; intros [? ?]; done.
  - intros x Hx. upd_case x t; [done | by apply O5].
  - intros x v. upd_case x t; [| by apply O9]. intros [= <-]. destruct Hi.
    rewrite O1, i32_small; lia.
  - intros T HT. pose proof (HG T HT) as HGT. apply (grace_mono s); try done; simpl; auto.
    intros x v Hx _. upd_case x t; [| by left]. right. intros y Hy Hxy.
    destruct (readers s T HGT y Hy) as [? | (Hc & _)]; [done |]. exfalso.
    rewrite Hxy, Hcur in Hc. subst y. destruct Hy as [Hy _]. simpl in Hy. lia.
Qed.

Lemma inv_unlock_store s t v : inv s -> unlocking s t = U_store v -> inv (unlock_store t (target_cpu t) v s).
Proof.
  intros [HO HG] Hu. pose proof HO as [O1 O2 O3 O4 O5 O6 O7 O8 O9 O10].
  assert (Hn : rcu_nesting s t = 0) by (apply O5; congruence).
  split; [split; simpl; try done |].
  - intros x. upd_case x t; [| by apply O4]. rewrite O4, Hu. split; intros [? ?]; done.
  - intros x Hx. upd_case x t; [done | by apply O5].
  - intros x w. upd_case x t; [done | by apply O9].
  - intros c. upd_case c (target_cpu t); [by apply (O9 t) | by apply O10].
  - intros T HT. pose proof (HG T HT) as HGT. apply (grace_mono s); try done; simpl; auto.
    + intros x Hx Hc Hs _. destruct (decide (target_cpu x = target_cpu t)) as [E | Hne].
      * destruct (Z.le_gt_cases T v) as [Hv | Hv]; [left; by apply (reports s T HGT t v Hu Hv) |].
        right. split; [done |]. rewrite E, rcu_upd_eq. lia.
      * right. by rewrite rcu_upd_ne.
    + intros x w. upd_case x t; [done | auto].
Qed.

(** the CPU's own steps *)
Lemma inv_cpu_state s c p :
  inv s -> 0 <= c < g_cpu_count ->
  (p = C_switch -> 0 < rcu_nesting s (current s c) -> current s c ∈ blocked_tasks s) ->
  (forall v, pending p v -> rcu_nesting s (current s c) = 0 /\ v <= periods s) ->
  inv (set_cpu_state c p s).
Proof.
  intros [HO HG] Hc Hsw Hp. pose proof HO as [O1 O2 O3 O4 O5 O6 O7 O8 O9 O10].
  split; [split; simpl; try done |].
  - intros c'. upd_case c' c; [split; [apply O2 | done] | apply O2].
  - intros c' Hc'. upd_case c' c; [by apply Hsw | by apply O7].
  - intros c' v Hc'. upd_case c' c; [by apply Hp | by apply O8].
  - intros T HT. apply (grace_mono s); try done; simpl; auto.
Qed.

Lemma inv_tick s c : inv s -> in_int s -> 0 <= c < g_cpu_count -> inv (rcu_check_quiescent_state c s).
Proof.
  intros HI Hi Hc. unfold rcu_check_quiescent_state. destruct (Z.eqb_spec (rcu_nesting s (current s c)) 0); [| done].
  apply inv_cpu_state; try done. intros v [[= <-] | [=]]. split; [done |].
  destruct HI as [HO _]. destruct Hi. rewrite (seq_ok s HO), i32_small; lia.
Qed.

Lemma rcu_inv_block s c :
  inv s -> 0 < rcu_nesting s (current s c) -> rcu_blocked s (current s c) = false ->
  inv (with_readers (current s c :: blocked_tasks s) (rcu_nesting s) (upd (rcu_blocked s) (current s c) true)
         (unlocking s) (since s) s).
Proof.
  intros [HO HG] Hn Hb. pose proof HO as [O1 O2 O3 O4 O5 O6 O7 O8 O9 O10]. set (p := current s c) in *.
  assert (Hu : unlocking s p = U_none).
  { destruct (unlocking s p) eqn:E; [done | ..]; exfalso; pose proof (O5 p); rewrite E in *; lia || (assert (rcu_nesting s p = 0) by auto; lia). }
  split; [split; simpl; try done |].
  - intros x. rewrite elem_of_cons. upd_case x p; [rewrite Hu; split; [done | by left] |].
    rewrite O4. intuition congruence.
  - intros x Hx. destruct (O6 x Hx); [by left | right; by right].
  - intros c' Hc' Hx. right. by apply O7.
  - intros T HT. apply (grace_mono s); try done; simpl; auto. intros x _ Hx. by right.
Qed.

Lemma inv_note s c : inv s -> in_int s -> 0 <= c < g_cpu_count -> inv (rcu_note_context_switch c s).
Proof.
  intros HI Hi Hc. unfold rcu_note_context_switch. destruct (Z.ltb_spec 0 (rcu_nesting s (current s c))) as [Hn | Hn].
  - pose proof HI as [HO _]. destruct (rcu_blocked s (current s c)) eqn:Hb.
    + apply inv_cpu_state; [done | done | | by intros v [|]]. intros _ _. apply (listed s HO). split; [done |].
      intros E. pose proof (outside s HO (current s c)) as Hout. rewrite E in Hout.
      specialize (Hout ltac:(done)). lia.
    + apply inv_cpu_state; [by apply rcu_inv_block | done | | by intros v [|]]. intros _ _. by left.
  - apply inv_cpu_state; try done. intros v [[=] | [= <-]]. destruct HI as [HO _]. destruct Hi.
    split; [pose proof (nest_pos s HO (current s c)); lia |]. rewrite (seq_ok s HO), i32_small; lia.
Qed.

Lemma inv_report s c v p :
  inv s -> pending (cpu_state s c) v -> p = C_run \/ p = C_switch -> inv (report c v p s).
Proof.
  intros [HO HG] Hp Hq. pose proof HO as [O1 O2 O3 O4 O5 O6 O7 O8 O9 O10]. destruct (O8 c v Hp) as [Hn Hv].
  assert (Hon : 0 <= c < g_cpu_count) by (apply O2; by destruct Hp as [-> | ->]).
  split; [split; simpl; try done |].
  - intros c'. upd_case c' c; [split; [apply O2 | done] | apply O2].
  - intros c' Hc'. upd_case c' c; [intros; lia | by apply O7].
  - intros c' w Hc'. upd_case c' c; [destruct Hq as [-> | ->]; by destruct Hc' | by apply O8].
  - intros c'. upd_case c' c; [done | by apply O10].
  - intros T HT. apply (grace_mono s); try done; simpl; auto. intros x Hx Hc Hs _. right.
    split; [done |]. rewrite rcu_upd_ne; [done |]. intros E. destruct Hx as [Hx _]. simpl in Hx.
    rewrite <- Hc, E in Hx. lia.
Qed.

Lemma inv_switch s c next :
  inv s -> cpu_state s c = C_switch -> target_cpu next = c -> inv (switch_to c next s).
Proof.
  intros [HO HG] Hc Hn. pose proof HO as [O1 O2 O3 O4 O5 O6 O7 O8 O9 O10].
  assert (Hprev : forall t, 0 < rcu_nesting s t -> current s (target_cpu t) = t -> target_cpu t = c -> t ∈ blocked_tasks s).
  { intros t Ht Hct E. rewrite E in Hct. rewrite <- Hct. apply O7; [done | by rewrite Hct]. }
  split; [split; simpl; try done |].
  - intros c'. upd_case c' c; [done | apply O2].
  - intros t Ht. destruct (O6 t Ht) as [Hct | ?]; [| by right].
    destruct (decide (target_cpu t = c)) as [E | E]; [right; auto | left; by rewrite rcu_upd_ne].
  - intros c' Hc'. upd_case c' c; [done | by apply O7].
  - intros c' v Hc'. upd_case c' c; [by destruct Hc' | by apply O8].
  - intros T HT. apply (grace_mono s); try done; simpl; auto. intros x [Hx _] Hct Hs _. simpl in Hx.
    destruct (decide (target_cpu x = c)) as [E | E]; [left; auto | right; by rewrite rcu_upd_ne].
Qed.

Lemma ok_period s u w : ok s -> periods s + 1 < 2147483648 -> 0 <= periods s -> ok (next_period u w s).
Proof.
  intros [O1 O2 O3 O4 O5 O6 O7 O8 O9 O10] Hp Hp0. split; simpl; try done.
  - rewrite O1, (i32_small (periods s)) by lia. done.
  - intros c v Hc. destruct (O8 c v Hc). split; [done | lia].
  - intros t v Ht. pose proof (O9 t v Ht). lia.
  - intros c. pose proof (O10 c). lia.
Qed.

Lemma inv_other s : inv s -> in_int (next_period (up s) (waited s) s) -> 0 <= periods s ->
  inv (next_period (up s) (waited s) s).
Proof.
  intros [HO HG] [_ Hi] H0. simpl in Hi. split; [apply ok_period; [done | lia | done] |].
  intros T HT. apply (grace_mono s); try done; simpl; auto. lia.
Qed.

Lemma inv_synchronize s : inv s -> in_int (synchronize_rcu s) -> 0 <= periods s -> inv (synchronize_rcu s).
Proof.
  intros [HO HG] [_ Hi] H0. unfold synchronize_rcu in *. destruct (up s) as [| T c | T | T] eqn:Hup.
  - simpl in Hi. assert (E : i32 (gp_seq s + 1) = periods s + 1).
    { rewrite (seq_ok s HO), (i32_small (periods s)), i32_small; lia. }
    split; [apply ok_period; [done | lia | done] |]. intros T HT. simpl in HT. injection HT as <-. rewrite E.
    split; simpl; [split; [done | lia] | | |].
    + intros t [Ht _]. simpl in Ht. destruct (away s HO t Ht) as [Hc | ?]; [right | by left].
      pose proof (seen_le s HO (target_cpu t)). split; [done |]. split; [lia |]. apply Hcpus.
    + intros u v Hu Hv. pose proof (read_value s HO u v Hu). lia.
    + done.
  - destruct (HG T) as [[G1 G1'] G2 G3 G4]; [unfold target; by rewrite Hup |].
    assert (Hok : forall u, ok (with_up u s)) by (intros u; by destruct HO).
    unfold lim in G2. rewrite Hup in G2.
    destruct (Z.ltb_spec c g_cpu_count) as [Hlt | Hge]; [destruct (Z.ltb_spec (gp_seq_seen s c) T) as [Hs | Hs] |].
    + split; [done |]. intros T' HT'. by apply HG.
    + split; [done |]. intros T' [= <-]. split; simpl; try done. intros t Ht.
      destruct (G2 t Ht) as [? | (H1 & H2 & H3)]; [by left | right]. split; [done |]. split; [done |].
      unfold lim. simpl. destruct (decide (target_cpu t = c)) as [E | E]; [rewrite E in H2; lia | lia].
    + split; [done |]. intros T' [= <-]. split; simpl; try done. intros t Ht.
      destruct (G2 t Ht) as [? | (H1 & H2 & H3)]; [by left | ]. pose proof (Hcpus t). lia.
  - destruct (HG T) as [[G1 G1'] G2 G3 G4]; [unfold target; by rewrite Hup |].
    destruct (blocked_tasks s) as [| b bs] eqn:Hb.
    + unfold lim in G2. rewrite Hup in G2.
      split; [by destruct HO; split |]. intros T' [= <-]. split; simpl; rewrite ?Hb; [done | exact G2 | exact G3 |].
      intros t' _ t Ht. destruct (G2 t Ht) as [Hx | (_ & _ & H3)].
      * by apply elem_of_nil in Hx.
      * pose proof (Hcpus t). lia.
    + split; [done |]. intros T' HT'. by apply HG.
  - split; [done |]. intros T' HT'. by apply HG.
Qed.

Lemma step_periods l s s' : step l s = Some s' -> periods s <= periods s' <= periods s + 1.
Proof.
  destruct l; simpl.
  - destruct (runs t s), (unlocking s t); try done. intros [= <-]. simpl. lia.
  - destruct (runs t s), (unlocking s t); try done. destruct (_ <? _); [| done]. intros [= <-]. simpl. lia.
  - destruct (runs t s), (unlocking s t); try done; intros [= <-]; simpl; lia.
  - destruct (online c), (cpu_state s c); try done. intros [= <-]. unfold rcu_check_quiescent_state.
    destruct (_ =? _); simpl; lia.
  - destruct (online c), (cpu_state s c); try done. intros [= <-]. unfold rcu_note_context_switch.
    destruct (_ <? _); [destruct (rcu_blocked s _) |]; simpl; lia.
  - destruct (cpu_state s c); try done; [intros [= <-]; simpl; lia .. |].
    destruct (_ =? _); [| done]. intros [= <-]. simpl. lia.
  - intros [= <-]. simpl. lia.
  - intros [= <-]. unfold synchronize_rcu. destruct (up s); simpl; try lia.
    + destruct (_ <? _); [destruct (_ <? _) |]; simpl; lia.
    + destruct (blocked_tasks s); simpl; lia.
Qed.

Lemma step_inv l s s' : inv s -> in_int s' -> 0 <= periods s -> step l s = Some s' -> inv s'.
Proof.
  intros HI Hi H0 E. pose proof (step_periods l s s' E) as Hp.
  assert (Hi0 : in_int s) by (unfold in_int in *; lia). destruct l; simpl in E.
  - destruct (runs t s) eqn:Hr, (unlocking s t) eqn:Hu; try done. injection E as <-. by apply inv_read_lock.
  - destruct (runs t s) eqn:Hr, (unlocking s t) eqn:Hu; try done.
    destruct (Z.ltb_spec 0 (rcu_nesting s t)); [| done]. injection E as <-. by apply inv_read_unlock.
  - destruct (runs t s) eqn:Hr, (unlocking s t) eqn:Hu; try done; injection E as <-.
    + by apply inv_unlock_del.
    + by apply inv_unlock_clear.
    + by apply inv_unlock_read.
    + by apply inv_unlock_store.
  - destruct (online c) eqn:Ho, (cpu_state s c); try done. injection E as <-.
    apply inv_tick; [done | done | unfold online in Ho; lia].
  - destruct (online c) eqn:Ho, (cpu_state s c); try done. injection E as <-.
    apply inv_note; [done | done | unfold online in Ho; lia].
  - destruct (cpu_state s c) eqn:Hc; try done.
    + injection E as <-. apply inv_report; [done | by left | by left].
    + injection E as <-. apply inv_report; [done | by right | by right].
    + destruct (Z.eqb_spec (target_cpu next) c); [| done]. injection E as <-. by apply inv_switch.
  - injection E as <-. by apply inv_other.
  - injection E as <-. by apply inv_synchronize.
Qed.

(** a quiet start: nobody reads, nothing is pending, and no period has begun *)
Definition rcu_start (cur : Z -> Z) : rcu :=
  mk_rcu 0 [] (fun _ => 0) cur (fun _ => C_run) (fun _ => 0) (fun _ => false) (fun _ => U_none)
    Up_none 0 (fun _ => 0) 0.

Lemma rcu_start_inv cur : (forall c, 0 <= c < g_cpu_count -> target_cpu (cur c) = c) -> inv (rcu_start cur).
Proof.
  intros Hc. split; [| done]. split; simpl; try done; try lia.
  - intros c. split; [apply Hc | done].
  - intros t. split; [by intros ?%elem_of_nil | by intros [? _]].
  - intros c v [? | ?]; done.
Qed.

Lemma reachable_periods s0 s : reachable s0 s -> periods s0 <= periods s.
Proof. induction 1 as [| l s s' _ IH E]; [done |]. pose proof (step_periods l s s' E). lia. Qed.

Lemma rcu_reachable_inv s0 s : inv s0 -> 0 <= periods s0 -> reachable s0 s -> in_int s -> inv s.
Proof.
  intros H0 Hp Hr. induction Hr as [| l s s' Hr IH E]; [done |]. intros Hi.
  pose proof (step_periods l s s' E). pose proof (reachable_periods s0 s Hr).
  apply (step_inv l s); [apply IH; unfold in_int in *; lia | done | lia | done].
Qed.

(** C14: the grace period is long enough. Whenever [synchronize_rcu] returns,
    every thread still inside a read-side section entered it after the call
    began: all sections active at the call have ended, whether their reader
    stayed on its CPU or was preempted, in any interleaving with readers,
    ticks, context switches and other updaters (for the first 2^31 periods). *)
Theorem rcu_grace_period cur s T t :
  (forall c, 0 <= c < g_cpu_count -> target_cpu (cur c) = c) -> reachable (rcu_start cur) s -> in_int s ->
  up s = Up_done T -> 0 < rcu_nesting s t -> waited s <= since s t.
Proof.
  intros Hc Hr Hi Hup Hn.
  destruct (rcu_reachable_inv (rcu_start cur) s (rcu_start_inv cur Hc) ltac:(done) Hr Hi) as [_ HG].
  pose proof (finished s T (HG T ltac:(unfold target; by rewrite Hup)) T Hup t) as Hno.
  destruct (Z.le_gt_cases (waited s) (since s t)); [done |]. exfalso. apply Hno. by split.
Qed.

Fixpoint exec (ls : list label) (s : rcu) : option rcu :=
  match ls with
  | [] => Some s
  | l :: ls => match step l s with Some s' => exec ls s' | None => None end
  end.

(** the grace period is not longer than needed. A tick on a CPU whose
    current thread is outside any section reports the period the updater waits
    for, so that its next look passes that CPU; a preempted reader that leaves
    its outermost section leaves the list at its next step; and once the list
    is empty the next look of the second phase returns. *)
Lemma rcu_progress cur s :
  (forall c, 0 <= c < g_cpu_count -> target_cpu (cur c) = c) -> reachable (rcu_start cur) s -> in_int s ->
  (forall T c, up s = Up_cpus T c -> 0 <= c < g_cpu_count -> cpu_state s c = C_run ->
     rcu_nesting s (current s c) = 0 ->
     exists s', exec [Tick c; Irq_step c 0; Synchronize] s = Some s' /\ up s' = Up_cpus T (c + 1)) /\
  (forall t, runs t s = true -> rcu_nesting s t = 1 -> t ∈ blocked_tasks s ->
     exists s', exec [Read_unlock t; Unlock_step t] s = Some s' /\ rcu_nesting s' t = 0 /\
       (t ∉ blocked_tasks s') /\ forall u, u <> t -> (u ∈ blocked_tasks s' <-> u ∈ blocked_tasks s)) /\
  (forall T, up s = Up_blocked T -> blocked_tasks s = [] ->
     exists s', step Synchronize s = Some s' /\ up s' = Up_done T).
Proof.
  intros Hc Hr Hi. destruct (rcu_reachable_inv (rcu_start cur) s (rcu_start_inv cur Hc) ltac:(done) Hr Hi) as [HO HG].
  split_and!.
  - intros T c Hup Hlt Hcs Hn. simpl. assert (Ho : online c = true) by (unfold online; lia). rewrite Ho, Hcs. unfold rcu_check_quiescent_state. rewrite Hn. simpl.
    rewrite rcu_upd_eq. unfold synchronize_rcu. simpl. rewrite Hup. destruct (Z.ltb_spec c g_cpu_count); [| lia].
    rewrite rcu_upd_eq. destruct (begun s T) as [-> Hle]; [apply HG; unfold target; by rewrite Hup |].
    destruct Hi. rewrite (seq_ok s HO), i32_small by lia.
    destruct (Z.ltb_spec (periods s) (waited s)); [lia |]. by eexists.
  - intros t Hrun Hn Hb. pose proof (proj1 (listed s HO t) Hb) as [Hrb _].
    assert (Hu : unlocking s t = U_none).
    { pose proof (outside s HO t) as Hout. destruct (unlocking s t); [done | ..]; specialize (Hout ltac:(done)); lia. }
    simpl. rewrite Hrun, Hu, Hn. simpl. unfold rcu_read_unlock. rewrite Hn. simpl.
    change (runs t _) with (runs t s). rewrite Hrun, rcu_upd_eq, Hrb. eexists. split; [done |]. simpl.
    rewrite rcu_upd_eq. split; [done |]. split; [rewrite list_elem_of_filter; tauto |].
    intros u Hut. rewrite list_elem_of_filter. tauto.
  - intros T Hup Hb. simpl. unfold synchronize_rcu. rewrite Hup, Hb. by eexists.
Qed.
End system.

(** ** Examples *)

(** two CPUs; thread [t] is pinned to the CPU of its parity *)
Definition ex_target (t : Z) : Z := t mod 2.

Lemma ex_target_range t : 0 <= ex_target t < 2.
Proof. unfold ex_target. apply Z.mod_pos_bound. lia. Qed.

(** reader 0 is preempted by thread 2 inside its section; reader 1 stays on
    CPU 1 and leaves; reader 0 leaves last, after which the updater returns,
    with reader 1 in a section begun meanwhile *)
Definition ex_labels : list label :=
  [Read_lock 0; Read_lock 1; Synchronize; Note 0; Irq_step 0 2; Tick 0; Irq_step 0 0; Synchronize;
   Read_unlock 1; Unlock_step 1; Unlock_step 1; Synchronize; Synchronize; Note 0; Irq_step 0 0;
   Irq_step 0 0; Read_unlock 0; Unlock_step 0; Read_lock 1; Synchronize].


Definition ex_start : rcu := rcu_start (fun c => c mod 2).

Definition ex_state : rcu := default ex_start (exec ex_target 2 ex_labels ex_start).

Lemma ex_cur c : 0 <= c < 2 -> ex_target (c mod 2) = c.
Proof. intros H. unfold ex_target. rewrite Z.mod_mod, Z.mod_small; lia. Qed.

Lemma rcu_exec_reachable s0 ls s s' :
  reachable ex_target 2 s0 s -> exec ex_target 2 ls s = Some s' -> reachable ex_target 2 s0 s'.
Proof.
  revert s. induction ls as [| l ls IH]; intros s Hr; simpl; [by intros [= <-] |].
  destruct (step ex_target 2 l s) as [s1 |] eqn:E; [| done]. apply IH. by apply (reach_step _ _ s0 l s).
Qed.

Lemma ex_exec : exec ex_target 2 ex_labels ex_start = Some ex_state.
Proof. unfold ex_state. destruct (exec ex_target 2 ex_labels ex_start) eqn:E; [done |]. vm_compute in E. done. Qed.

Lemma rcu_ex_reachable : reachable ex_target 2 ex_start ex_state.
Proof. apply (rcu_exec_reachable _ ex_labels ex_start); [constructor | apply ex_exec]. Qed.

Lemma rcu_grace_period_witness :
  up ex_state = Up_done 1 /\ rcu_nesting ex_state 1 = 1 /\ waited ex_state <= since ex_state 1.
Proof.
  assert (Hup : up ex_state = Up_done 1) by (vm_compute; reflexivity).
  split; [exact Hup |]. split; [vm_compute; reflexivity |].
  apply (rcu_grace_period ex_target 2 ex_target_range (fun c => c mod 2) ex_state 1 1 ex_cur rcu_ex_reachable);
    [vm_compute; intuition congruence | exact Hup | vm_compute; reflexivity].
Defined.

Lemma rcu_progress_witness :
  exists s', exec ex_target 2 [Tick 0; Irq_step 0 0; Synchronize] (synchronize_rcu 2 ex_start) = Some s' /\
    up s' = Up_cpus 1 1.
Proof.
  destruct (rcu_progress ex_target 2 ex_target_range (fun c => c mod 2) (synchronize_rcu 2 ex_start) ex_cur)
    as (H & _ & _).
  - apply (rcu_exec_reachable _ [Synchronize] ex_start); [constructor | reflexivity].
  - vm_compute. intuition congruence.
  - apply (H 1 0); [reflexivity | lia | reflexivity | reflexivity].
Defined.

(** With the counter at the largest [int], the next period wraps to a negative
    target, which every CPU has already passed: [synchronize_rcu] returns while
    reader 1 is still in the section it entered before the call. *)
Definition wrap_start : rcu :=
  mk_rcu 2147483647 [] (fun _ => 2147483647) (fun c => c mod 2) (fun _ => C_run) (fun _ => 0)
    (fun _ => false) (fun _ => U_none) Up_none 2147483647 (fun _ => 0) 0.

Lemma rcu_wraps :
  exists s, exec ex_target 2 [Read_lock 1; Synchronize; Synchronize; Synchronize; Synchronize; Synchronize]
      wrap_start = Some s /\
    up s = Up_done (-2147483648) /\ rcu_nesting s 1 = 1 /\ since s 1 < waited s.
Proof. eexists. split; [reflexivity |]. vm_compute. auto. Qed.
