(* ===== verification/CString.v ===== *)
(** * Strings and memory blocks ([kernel/string.c])

    The functions on a byte-addressed memory: a load or store of an address
    that is not mapped is a fault.  Loops whose bound is a terminator take
    fuel; their theorems give the fuel that is enough.  The list-level
    counterparts, used by the file and configuration readers, are here too. *)

From stdpp Require Import base list gmap.
From S2P Require Import Prelude.

Abbreviation mem := (gmap Z Z).

Definition load (m : mem) (a : Z) : res Z := match m !! a with Some b => Ok b | None => Fault end.
Definition store (m : mem) (a b : Z) : res mem :=
  match m !! a with Some _ => Ok (<[a := b]> m) | None => Fault end.

(** ** Memory blocks *)

(** [for (i = 0; i < n; i++) dest[i] = src[i]], from index [i] *)
Fixpoint copy_up (n : nat) (i dest src : Z) (m : mem) : res mem :=
  match n with
  | O => Ok m
  | S n =>
      let! b := load m (src + i) in
      let! m := store m (dest + i) b in
      copy_up n (i + 1) dest src m
  end.

(** [for (i = n; i > 0; i--) dest[i - 1] = src[i - 1]] *)
Fixpoint copy_down (n : nat) (dest src : Z) (m : mem) : res mem :=
  match n with
  | O => Ok m
  | S n' =>
      let! b := load m (src + Z.of_nat n') in
      let! m := store m (dest + Z.of_nat n') b in
      copy_down n' dest src m
  end.

Definition memcpy (dest src : Z) (n : nat) (m : mem) : res mem := copy_up n 0 dest src m.

Definition memmove (dest src : Z) (n : nat) (m : mem) : res mem :=
  if dest <? src then copy_up n 0 dest src m
  else if src <? dest then copy_down n dest src m
  else Ok m.

Fixpoint set_from (n : nat) (i s c : Z) (m : mem) : res mem :=
  match n with
  | O => Ok m
  | S n => let! m := store m (s + i) (u8 c) in set_from n (i + 1) s c m
  end.

Definition memset (s c : Z) (n : nat) (m : mem) : res mem := set_from n 0 s c m.

Fixpoint cmp_from (n : nat) (i s1 s2 : Z) (m : mem) : res Z :=
  match n with
  | O => Ok 0
  | S n =>
      let! a := load m (s1 + i) in
      let! b := load m (s2 + i) in
      if negb (a =? b) then Ok (if a <? b then -1 else 1) else cmp_from n (i + 1) s1 s2 m
  end.

Definition memcmp (s1 s2 : Z) (n : nat) (m : mem) : res Z := cmp_from n 0 s1 s2 m.

(** ** Terminated strings *)

Fixpoint strlen_from (fuel : nat) (s : Z) (m : mem) : res Z :=
  match fuel with
  | O => Fault
  | S fuel =>
      let! b := load m s in
      if b =? 0 then Ok 0 else let! n := strlen_from fuel (s + 1) m in Ok (n + 1)
  end.

Definition strlen (fuel : nat) (s : Z) (m : mem) : res Z :=
  if s =? 0 then Ok 0 else strlen_from fuel s m.

Fixpoint strcmp (fuel : nat) (s1 s2 : Z) (m : mem) : res Z :=
  match fuel with
  | O => Fault
  | S fuel =>
      let! a := load m s1 in
      let! b := load m s2 in
      if negb (a =? 0) && (a =? b) then strcmp fuel (s1 + 1) (s2 + 1) m else Ok (a - b)
  end.

(** the inner loop of [strstr]: whether [needle] is at [h] *)
Fixpoint match_at (fuel : nat) (h n : Z) (m : mem) : res bool :=
  match fuel with
  | O => Fault
  | S fuel =>
      let! a := load m h in
      let! b := load m n in
      if negb (a =? 0) && negb (b =? 0) && (a =? b) then match_at fuel (h + 1) (n + 1) m
      else Ok (b =? 0)
  end.

Fixpoint strstr_from (fuel : nat) (h needle first : Z) (m : mem) : res (option Z) :=
  match fuel with
  | O => Fault
  | S fuel' =>
      let! a := load m h in
      if a =? 0 then Ok None
      else if negb (a =? first) then strstr_from fuel' (h + 1) needle first m
      else
        let! found := match_at fuel h needle m in
        if (found : bool) then Ok (Some h) else strstr_from fuel' (h + 1) needle first m
  end.

(** [None] is NULL *)
Definition strstr (fuel : nat) (haystack needle : Z) (m : mem) : res (option Z) :=
  let! first := load m needle in
  if first =? 0 then Ok (Some haystack) else strstr_from fuel haystack needle first m.

(** ** Blocks *)

Definition mapped (m : mem) (a n : Z) : Prop := forall x, a <= x < a + n -> is_Some (m !! x).

(** [m'] is [m] with the [n] bytes at [dest] replaced by those of [m] at [src] *)
Definition copied (dest src n : Z) (m m' : mem) : Prop :=
  (forall k, 0 <= k < n -> m' !! (dest + k) = m !! (src + k)) /\
  forall a, ~ dest <= a < dest + n -> m' !! a = m !! a.

Lemma load_ok m a : is_Some (m !! a) -> exists b, load m a = Ok b /\ m !! a = Some b.
Proof. intros [b E]. exists b. unfold load. by rewrite E. Qed.

Lemma store_ok m a b : is_Some (m !! a) -> store m a b = Ok (<[a := b]> m).
Proof. intros [x E]. unfold store. by rewrite E. Qed.

Lemma mapped_insert m a n x b : mapped m a n -> mapped (<[x := b]> m) a n.
Proof.
  intros H y Hy. destruct (decide (y = x)) as [-> |]; [rewrite lookup_insert_eq | rewrite lookup_insert_ne by done]; eauto.
Qed.

(** copying upwards is right when the destination is not above the source *)
Lemma copy_up_ok n i dest src m :
  mapped m (dest + i) (Z.of_nat n) -> mapped m (src + i) (Z.of_nat n) ->
  dest <= src \/ src + i + Z.of_nat n <= dest + i ->
  exists m', copy_up n i dest src m = Ok m' /\ copied (dest + i) (src + i) (Z.of_nat n) m m'.
Proof.
  revert i m. induction n as [| n IH]; intros i m Hd Hs Ho; simpl.
  - exists m. split; [done |]. split; [lia | done].
  - destruct (load_ok m (src + i)) as (b & -> & Eb); [apply Hs; lia |]. simpl.
    rewrite store_ok by (apply Hd; lia). simpl.
    destruct (IH (i + 1) (<[dest + i := b]> m)) as (m' & -> & Hc1 & Hc2).
    + apply mapped_insert. intros x Hx. apply Hd. lia.
    + apply mapped_insert. intros x Hx. apply Hs. lia.
    + lia.
    + exists m'. split; [done |]. split.
      * intros k Hk. destruct (decide (k = 0)) as [-> | Hk0].
        -- rewrite !Z.add_0_r, Hc2, lookup_insert_eq by lia. done.
        -- replace (dest + i + k) with (dest + (i + 1) + (k - 1)) by lia. rewrite Hc1 by lia.
           rewrite lookup_insert_ne by lia. f_equal. lia.
      * intros a Ha. rewrite Hc2, lookup_insert_ne by lia. done.
Qed.

(** copying downwards is right when the destination is not below the source *)
Lemma copy_down_ok n dest src m :
  mapped m dest (Z.of_nat n) -> mapped m src (Z.of_nat n) -> src <= dest ->
  exists m', copy_down n dest src m = Ok m' /\ copied dest src (Z.of_nat n) m m'.
Proof.
  revert m. induction n as [| n IH]; intros m Hd Hs Ho; simpl.
  - exists m. split; [done |]. split; [lia | done].
  - destruct (load_ok m (src + Z.of_nat n)) as (b & -> & Eb); [apply Hs; lia |]. simpl.
    rewrite store_ok by (apply Hd; lia). simpl.
    destruct (IH (<[dest + Z.of_nat n := b]> m)) as (m' & -> & Hc1 & Hc2).
    + apply mapped_insert. intros x Hx. apply Hd. lia.
    + apply mapped_insert. intros x Hx. apply Hs. lia.
    + lia.
    + exists m'. split; [done |]. split.
      * intros k Hk. destruct (decide (k = Z.of_nat n)) as [-> | Hkn].
        -- rewrite Hc2, lookup_insert_eq by lia. done.
        -- rewrite Hc1, lookup_insert_ne by lia. done.
      * intros a Ha. rewrite Hc2, lookup_insert_ne by lia. done.
Qed.

Lemma set_from_ok n i s c m :
  mapped m (s + i) (Z.of_nat n) ->
  exists m', set_from n i s c m = Ok m' /\
    (forall k, 0 <= k < Z.of_nat n -> m' !! (s + i + k) = Some (u8 c)) /\
    forall a, ~ s + i <= a < s + i + Z.of_nat n -> m' !! a = m !! a.
Proof.
  revert i m. induction n as [| n IH]; intros i m Hd; simpl.
  - exists m. split; [done |]. split; [lia | done].
  - rewrite store_ok by (apply Hd; lia). simpl.
    destruct (IH (i + 1) (<[s + i := u8 c]> m)) as (m' & -> & Hc1 & Hc2).
    { apply mapped_insert. intros x Hx. apply Hd. lia. }
    exists m'. split; [done |]. split.
    + intros k Hk. destruct (decide (k = 0)) as [-> | Hk0].
      * by rewrite Z.add_0_r, Hc2, lookup_insert_eq by lia.
      * replace (s + i + k) with (s + (i + 1) + (k - 1)) by lia. apply Hc1. lia.
    + intros a Ha. rewrite Hc2, lookup_insert_ne by lia. done.
Qed.

Lemma cmp_from_ok n i s1 s2 m :
  mapped m (s1 + i) (Z.of_nat n) -> mapped m (s2 + i) (Z.of_nat n) ->
  exists d, cmp_from n i s1 s2 m = Ok d /\
    (d = 0 <-> forall k, 0 <= k < Z.of_nat n -> m !! (s1 + i + k) = m !! (s2 + i + k)).
Proof.
  revert i. induction n as [| n IH]; intros i H1 H2; simpl.
  - exists 0. split; [done |]. split; [lia | done].
  - destruct (load_ok m (s1 + i)) as (a & -> & Ea); [apply H1; lia |]. simpl.
    destruct (load_ok m (s2 + i)) as (b & -> & Eb); [apply H2; lia |]. simpl.
    destruct (Z.eqb_spec a b) as [-> | Hne]; simpl.
    + destruct (IH (i + 1)) as (d & -> & Hd); [intros x Hx; apply H1; lia | intros x Hx; apply H2; lia |].
      exists d. split; [done |]. rewrite Hd. split; intros H k Hk.
      * destruct (decide (k = 0)) as [-> |]; [rewrite !Z.add_0_r; congruence |].
        replace (s1 + i + k) with (s1 + (i + 1) + (k - 1)) by lia.
        replace (s2 + i + k) with (s2 + (i + 1) + (k - 1)) by lia. apply H. lia.
      * replace (s1 + (i + 1) + k) with (s1 + i + (k + 1)) by lia.
        replace (s2 + (i + 1) + k) with (s2 + i + (k + 1)) by lia. apply H. lia.
    + exists (if a <? b then -1 else 1). split; [done |]. split; [destruct (a <? b); lia |].
      intros H. specialize (H 0 ltac:(lia)). rewrite !Z.add_0_r in H. congruence.
Qed.

(** block copies. On mapped memory [memmove] leaves at the destination the
    bytes the source held before the call, however the two blocks overlap, and
    changes nothing else; [memcpy] does the same on blocks that do not overlap
    (and when the destination lies below), [memset] fills its block, and
    [memcmp] is zero exactly on blocks with equal contents. *)
Lemma block_operations dest src n c m :
  mapped m dest (Z.of_nat n) -> mapped m src (Z.of_nat n) ->
  (exists m', memmove dest src n m = Ok m' /\ copied dest src (Z.of_nat n) m m') /\
  (dest <= src \/ src + Z.of_nat n <= dest ->
     exists m', memcpy dest src n m = Ok m' /\ copied dest src (Z.of_nat n) m m') /\
  (exists d, memcmp dest src n m = Ok d /\
     (d = 0 <-> forall k, 0 <= k < Z.of_nat n -> m !! (dest + k) = m !! (src + k))) /\
  exists m', memset dest c n m = Ok m' /\
    (forall k, 0 <= k < Z.of_nat n -> m' !! (dest + k) = Some (u8 c)) /\
    forall a, ~ dest <= a < dest + Z.of_nat n -> m' !! a = m !! a.
Proof.
  intros Hd Hs. split_and!.
  - unfold memmove. destruct (Z.ltb_spec dest src); [| destruct (Z.ltb_spec src dest)].
    + pose proof (copy_up_ok n 0 dest src m) as H1. rewrite !Z.add_0_r in H1. apply H1; [done | done | lia].
    + apply copy_down_ok; [done | done | lia].
    + assert (dest = src) as -> by lia. exists m. done.
  - intros Ho. pose proof (copy_up_ok n 0 dest src m) as H1. rewrite !Z.add_0_r in H1. by apply H1.
  - pose proof (cmp_from_ok n 0 dest src m) as H1. rewrite !Z.add_0_r in H1. by apply H1.
  - pose proof (set_from_ok n 0 dest c m) as H1. rewrite !Z.add_0_r in H1. by apply H1.
Qed.

Definition ex_mem : mem := list_to_map [(100, 1); (101, 2); (102, 3); (103, 4)].

(** an overlapping move upwards *)
Lemma block_operations_witness :
  exists m', memmove 101 100 3 ex_mem = Ok m' /\ m' !! 103 = Some 3.
Proof.
  destruct (block_operations 101 100 3 0 ex_mem) as ((m' & E & H & _) & _).
  - intros x Hx. assert (x = 101 \/ x = 102 \/ x = 103) as [-> | [-> | ->]] by lia; vm_compute; eauto.
  - intros x Hx. assert (x = 100 \/ x = 101 \/ x = 102) as [-> | [-> | ->]] by lia; vm_compute; eauto.
  - exists m'. split; [exact E |]. transitivity (ex_mem !! 102); [apply (H 2); lia | reflexivity].
Defined.

(** ** Strings *)

(** the bytes [l], none of them zero, lie at [a], followed by the terminator *)
Definition cstr (m : mem) (a : Z) (l : list Z) : Prop :=
  Forall (fun b => 0 < b < 256) l /\
  (forall k b, l !! k = Some b -> m !! (a + Z.of_nat k) = Some b) /\
  m !! (a + Z.of_nat (length l)) = Some 0.

Lemma cstr_nil m a : cstr m a [] -> m !! a = Some 0.
Proof. intros (_ & _ & H). simpl in H. by rewrite Z.add_0_r in H. Qed.

Lemma cstr_cons m a b l : cstr m a (b :: l) -> 0 < b < 256 /\ m !! a = Some b /\ cstr m (a + 1) l.
Proof.
  intros (HF & Hl & He). apply Forall_cons in HF as [Hb HF]. split; [done |]. split.
  - specialize (Hl 0%nat b eq_refl). by rewrite Z.add_0_r in Hl.
  - split; [done |]. split.
    + intros k c Hk. replace (a + 1 + Z.of_nat k) with (a + Z.of_nat (S k)) by lia. by apply Hl.
    + replace (a + 1 + Z.of_nat (length l)) with (a + Z.of_nat (length (b :: l))) by (simpl; lia). done.
Qed.

Lemma load_cons m a b l : cstr m a (b :: l) -> load m a = Ok b.
Proof. intros (_ & E & _)%cstr_cons. unfold load. by rewrite E. Qed.
Lemma load_nil m a : cstr m a [] -> load m a = Ok 0.
Proof. intros E%cstr_nil. unfold load. by rewrite E. Qed.

(** the list-level comparison: the difference at the first mismatch *)
Fixpoint str_diff (a b : list Z) : Z :=
  match a, b with
  | [], [] => 0
  | x :: _, [] => x
  | [], y :: _ => - y
  | x :: a, y :: b => if x =? y then str_diff a b else x - y
  end.

Definition str_eqb (a b : list Z) : bool := bool_decide (a = b).

Lemma str_diff_zero a b :
  Forall (fun x => 0 < x < 256) a -> Forall (fun x => 0 < x < 256) b -> str_diff a b = 0 <-> a = b.
Proof.
  intros Ha. revert b. induction Ha as [| x a Hx Ha IH]; intros b Hb; destruct Hb as [| y b Hy Hb]; simpl;
    try (split; [lia | done]); [done |].
  destruct (Z.eqb_spec x y) as [-> | Hne].
  - rewrite IH by done. split; congruence.
  - split; [lia | congruence].
Qed.

Lemma strlen_ok fuel m a l :
  cstr m a l -> (length l < fuel)%nat -> strlen_from fuel a m = Ok (Z.of_nat (length l)).
Proof.
  revert fuel a. induction l as [| b l IH]; intros fuel a Hc Hf; (destruct fuel as [| fuel]; [lia |]); simpl.
  - by rewrite (load_nil m a Hc).
  - rewrite (load_cons m a b l Hc). simpl. destruct (cstr_cons _ _ _ _ Hc) as (Hb & _ & Hc').
    destruct (Z.eqb_spec b 0); [lia |]. rewrite (IH fuel (a + 1) Hc') by (simpl in Hf; lia). simpl. f_equal. lia.
Qed.

Lemma strcmp_ok fuel m a b la lb :
  cstr m a la -> cstr m b lb -> (length la < fuel)%nat -> strcmp fuel a b m = Ok (str_diff la lb).
Proof.
  revert fuel a b lb. induction la as [| x la IH]; intros fuel a b lb Ha Hb Hf;
    (destruct fuel as [| fuel]; [lia |]); simpl.
  - rewrite (load_nil m a Ha). simpl. destruct lb as [| y lb].
    + by rewrite (load_nil m b Hb).
    + rewrite (load_cons m b y lb Hb). simpl. done.
  - rewrite (load_cons m a x la Ha). simpl. destruct (cstr_cons _ _ _ _ Ha) as (Hx & _ & Ha').
    destruct (Z.eqb_spec x 0); [lia |]. simpl. destruct lb as [| y lb].
    + rewrite (load_nil m b Hb). simpl. destruct (Z.eqb_spec x 0); [lia |]. f_equal. lia.
    + rewrite (load_cons m b y lb Hb). simpl. destruct (cstr_cons _ _ _ _ Hb) as (Hy & _ & Hb').
      destruct (Z.eqb_spec x y); [| done]. apply IH; [done | done | simpl in Hf; lia].
Qed.

Lemma match_at_ok fuel m h n lh ln :
  cstr m h lh -> cstr m n ln -> (length lh < fuel)%nat ->
  exists r, match_at fuel h n m = Ok r /\ (r = true <-> ln `prefix_of` lh).
Proof.
  revert fuel h n ln. induction lh as [| x lh IH]; intros fuel h n ln Hh Hn Hf;
    (destruct fuel as [| fuel]; [lia |]); cbn [match_at].
  - rewrite (load_nil m h Hh). simpl. destruct ln as [| y ln].
    + rewrite (load_nil m n Hn). simpl. exists true. split; [done |]. split; [intros _; apply prefix_nil | done].
    + rewrite (load_cons m n y ln Hn). simpl. destruct (cstr_cons _ _ _ _ Hn) as (Hy & _).
      destruct (Z.eqb_spec y 0); [lia |]. exists false. split; [done |]. split; [done |].
      by intros ?%prefix_nil_not.
  - rewrite (load_cons m h x lh Hh). simpl. destruct (cstr_cons _ _ _ _ Hh) as (Hx & _ & Hh').
    destruct (Z.eqb_spec x 0); [lia |]. simpl. destruct ln as [| y ln].
    + rewrite (load_nil m n Hn). simpl. exists true. split; [done |]. split; [intros _; apply prefix_nil | done].
    + rewrite (load_cons m n y ln Hn). simpl. destruct (cstr_cons _ _ _ _ Hn) as (Hy & _ & Hn').
      destruct (Z.eqb_spec y 0); [lia |]. simpl. destruct (Z.eqb_spec x y) as [-> | Hne].
      * destruct (IH fuel (h + 1) (n + 1) ln Hh' Hn') as (r & -> & Hr); [simpl in Hf; lia |].
        exists r. split; [done |]. rewrite Hr. split; [apply prefix_cons | apply prefix_cons_inv_2].
      * exists false. split; [done |]. split; [done |]. intros ?%prefix_cons_inv_1. congruence.
Qed.

(** what [strstr] promises about the first match of [ln] in [lh] at [h] *)
Definition first_match (h : Z) (lh ln : list Z) (o : option Z) : Prop :=
  match o with
  | Some p => exists i, p = h + Z.of_nat i /\ (i <= length lh)%nat /\ ln `prefix_of` drop i lh /\
      forall j, (j < i)%nat -> ~ ln `prefix_of` drop j lh
  | None => forall j, ~ ln `prefix_of` drop j lh
  end.

Lemma first_match_cons h x lh ln o :
  ~ ln `prefix_of` x :: lh -> first_match (h + 1) lh ln o -> first_match h (x :: lh) ln o.
Proof.
  intros Hn. destruct o as [p |]; simpl.
  - intros (i & -> & Hi & Hp & Hlow). exists (S i). split; [lia |]. split; [simpl; lia |]. split; [done |].
    intros [| j] Hj; [done |]. apply Hlow. lia.
  - intros H [| j]; [done | apply H].
Qed.

Lemma strstr_from_ok fuel m h n lh y ln :
  cstr m h lh -> cstr m n (y :: ln) -> (length lh < fuel)%nat ->
  exists o, strstr_from fuel h n y m = Ok o /\ first_match h lh (y :: ln) o.
Proof.
  revert fuel h. induction lh as [| x lh IH]; intros fuel h Hh Hn Hf;
    (destruct fuel as [| fuel]; [lia |]); cbn [strstr_from].
  - rewrite (load_nil m h Hh). simpl. exists None. split; [done |]. intros j. rewrite drop_nil. apply prefix_nil_not.
  - set (f := match_at (S fuel) h n m).
    rewrite (load_cons m h x lh Hh). simpl. destruct (cstr_cons _ _ _ _ Hh) as (Hx & _ & Hh').
    destruct (Z.eqb_spec x 0); [lia |].
    destruct (IH fuel (h + 1) Hh' Hn) as (o & Eo & Ho); [simpl in Hf; lia |].
    destruct (Z.eqb_spec x y) as [-> | Hne]; simpl.
    + destruct (match_at_ok (S fuel) m h n (y :: lh) (y :: ln) Hh Hn Hf) as (r & Em & Hp).
      unfold f. rewrite Em. simpl.
      destruct r.
      * exists (Some h). split; [done |]. exists 0%nat. split; [lia |]. split; [lia |].
        split; [by apply Hp | lia].
      * exists o. split; [done |]. apply first_match_cons; [| done]. intros H%Hp. done.
    + exists o. split; [done |]. apply first_match_cons; [| done]. intros ?%prefix_cons_inv_1. congruence.
Qed.

(** terminated strings. With fuel beyond the length of the first string,
    [strlen] is its length, [strcmp] is zero exactly on equal strings and
    otherwise the difference of the first differing bytes, and [strstr] returns
    the first position where the second string occurs, or NULL when it occurs
    nowhere; none of them reads past a terminator. *)
Lemma string_operations fuel m a la b lb :
  cstr m a la -> cstr m b lb -> (length la < fuel)%nat -> a <> 0 ->
  strlen fuel a m = Ok (Z.of_nat (length la)) /\
  strcmp fuel a b m = Ok (str_diff la lb) /\ (str_diff la lb = 0 <-> la = lb) /\
  exists o, strstr fuel a b m = Ok o /\ first_match a la lb o.
Proof.
  intros Ha Hb Hf Hn. split_and!.
  - unfold strlen. destruct (Z.eqb_spec a 0); [done |]. by apply strlen_ok.
  - by apply strcmp_ok.
  - apply str_diff_zero; [apply Ha | apply Hb].
  - unfold strstr. destruct lb as [| y lb].
    + rewrite (load_nil m b Hb). simpl. exists (Some a). split; [done |]. exists 0%nat.
      split; [lia |]. split; [lia |]. split; [apply prefix_nil | lia].
    + rewrite (load_cons m b y lb Hb). simpl. destruct (cstr_cons _ _ _ _ Hb) as (Hy & _).
      destruct (Z.eqb_spec y 0); [lia |]. by apply strstr_from_ok.
Qed.

Definition ex_strings : mem :=
  list_to_map [(10, 97); (11, 98); (12, 97); (13, 98); (14, 99); (15, 0); (20, 97); (21, 98); (22, 99); (23, 0)].

(** the string abc occurs in ababc at offset 2 *)
Lemma string_operations_witness :
  strlen 6 10 ex_strings = Ok 5 /\ exists o, strstr 6 10 20 ex_strings = Ok o /\ o = Some 12.
Proof.
  assert (H1 : cstr ex_strings 10 [97; 98; 97; 98; 99]).
  { split; [repeat constructor; lia |]. split; [| reflexivity].
    intros k b Hk. do 5 (destruct k as [| k]; [injection Hk as <-; reflexivity |]). discriminate. }
  assert (H2 : cstr ex_strings 20 [97; 98; 99]).
  { split; [repeat constructor; lia |]. split; [| reflexivity].
    intros k b Hk. do 3 (destruct k as [| k]; [injection Hk as <-; reflexivity |]). discriminate. }
  destruct (string_operations 6 ex_strings 10 _ 20 _ H1 H2) as (E1 & _ & _ & o & E2 & _);
    [simpl; lia | lia |]. split; [exact E1 |].
  exists o. split; [exact E2 |]. vm_compute in E2. injection E2 as <-. reflexivity.
Defined.
