(* ===== verification/Cpio.v ===== *)
(** * The initrd archive reader ([kernel/cpio.c], [kernel/cpio.h])

    An archive is its bytes; reading outside them is a fault.  A reader is a
    cursor over one archive; an absent archive is NULL.  Entries borrow the
    archive: a name and a block of data are given by their position, the name
    with its bytes.  The properties: no input makes the reader leave the
    archive or loop, and archives written in the newc format read back. *)

From stdpp Require Import base list.
From S2P Require Import Prelude Bytes.

Definition CPIO_HDR_LEN : Z := 110.
Definition UINTPTR_MAX : Z := 18446744073709551615.

Record cpio_entry := mk_entry { e_name : list Z; e_data : Z; e_size : Z; e_mode : Z }.

Record cpio_reader := mk_reader {
  archive : option (list Z); size : Z; offset : Z; finished : bool }.

Definition cpio_reset : cpio_reader := mk_reader None 0 0 false.

(** ** Reading bytes *)

(** [memcmp(a + i, l, n) == 0], stopping at the first difference *)
Fixpoint bytes_eq (a : list Z) (i : Z) (l : list Z) : res bool :=
  match l with
  | [] => Ok true
  | x :: l => let! b := byte_at a i in if b =? x then bytes_eq a (i + 1) l else Ok false
  end.

Definition hex_digit (c : Z) : option Z :=
  if (48 <=? c) && (c <=? 57) then Some (c - 48)
  else if (97 <=? c) && (c <=? 102) then Some (c - 97 + 10)
  else if (65 <=? c) && (c <=? 70) then Some (c - 65 + 10)
  else None.

(** [None] is the error return *)
Fixpoint hex32_from (n : nat) (a : list Z) (i v : Z) : res (option Z) :=
  match n with
  | O => Ok (Some v)
  | S n =>
      let! c := byte_at a i in
      match hex_digit c with
      | None => Ok None
      | Some d => hex32_from n a (i + 1) (Z.lor (u32 (Z.shiftl v 4)) d)
      end
  end.

Definition hex32 (a : list Z) (i : Z) : res (option Z) := hex32_from 8 a i 0.

(** the name's loop: true when none of the [n] bytes at [i] is zero *)
Fixpoint no_nul (n : nat) (a : list Z) (i : Z) : res bool :=
  match n with
  | O => Ok true
  | S n => let! b := byte_at a i in if b =? 0 then Ok false else no_nul n a (i + 1)
  end.

(** the bytes 070701 and TRAILER!!! with its terminator *)
Definition magic : list Z := [48; 55; 48; 55; 48; 49].
Definition trailer : list Z := [84; 82; 65; 73; 76; 69; 82; 33; 33; 33; 0].

(** [(x + 3) & ~3ULL] *)
Definition align4 (x : Z) : Z := Z.land (u64 (x + 3)) (u64 (Z.lnot 3)).

(** ** The reader *)

(** [addr] is the archive's address *)
Definition cpio_reader_init (addr : Z) (a : list Z) (n : Z) : res (option cpio_reader) :=
  if (addr =? 0) || (UINTPTR_MAX - n <? addr) || (n <? CPIO_HDR_LEN + 1) then Ok None
  else
    let! ok := bytes_eq a 0 magic in
    if (ok : bool) then Ok (Some (mk_reader (Some a) n 0 false)) else Ok None.

(** the header's fields: name size, file size and mode *)
Definition header (a : list Z) (off : Z) : res (option (Z * Z * Z)) :=
  let! ok := bytes_eq a off magic in
  if negb ok then Ok None
  else
    let! ns := hex32 a (off + 94) in
    match ns with
    | None => Ok None
    | Some ns =>
        let! fs := hex32 a (off + 54) in
        match fs with
        | None => Ok None
        | Some fs =>
            let! md := hex32 a (off + 14) in
            match md with
            | None => Ok None
            | Some md => if ns =? 0 then Ok None else Ok (Some (ns, fs, md))
            end
        end
    end.

(** the rest of one entry, once its header has been read; the result is the
    returned code, the reader and the entry *)
Definition body (r : cpio_reader) (a : list Z) (ns fs md : Z)
    : res (Z * cpio_reader * option cpio_entry) :=
  let name_start := offset r + CPIO_HDR_LEN in
  if size r - name_start <? ns then Ok (-1, r, None)
  else
    let! last := byte_at a (name_start + ns - 1) in
    if negb (last =? 0) then Ok (-1, r, None)
    else
      let! clean := no_nul (Z.to_nat (ns - 1)) a name_start in
      if negb clean then Ok (-1, r, None)
      else
        let data_start := align4 (name_start + ns) in
        if (size r <? data_start) || (size r - data_start <? fs) then Ok (-1, r, None)
        else
          let next := align4 (data_start + fs) in
          if size r <? next then Ok (-1, r, None)
          else
            let! tr := if ns =? 11 then bytes_eq a name_start trailer else Ok false in
            if (tr : bool) then
              if negb (fs =? 0) then Ok (-1, r, None)
              else Ok (0, mk_reader (archive r) (size r) (offset r) true, None)
            else
              Ok (1, mk_reader (archive r) (size r) (u32 next) (finished r),
                  Some (mk_entry (slice a name_start (ns - 1)) data_start fs md)).

Definition cpio_reader_next (r : cpio_reader) : res (Z * cpio_reader * option cpio_entry) :=
  match archive r with
  | None => Ok (-1, r, None)
  | Some a =>
      if finished r then Ok (0, r, None)
      else if (size r <? offset r) || (size r - offset r <? CPIO_HDR_LEN) then Ok (-1, r, None)
      else
        let! h := header a (offset r) in
        match h with
        | None => Ok (-1, r, None)
        | Some (ns, fs, md) => body r a ns fs md
        end
  end.

(** [while ((ret = cpio_reader_next(...)) == 1)]: the entries in order and the
    final code *)
Fixpoint cpio_entries (fuel : nat) (r : cpio_reader) : res (list cpio_entry * Z) :=
  match fuel with
  | O => Fault
  | S fuel =>
      let! (code, r, e) := cpio_reader_next r in
      match e with
      | Some e => let! (l, code) := cpio_entries fuel r in Ok (e :: l, code)
      | None => Ok ([], code)
      end
  end.

(** the loop of [cpio_find] on a rewound copy of the reader *)
Fixpoint find_loop (fuel : nat) (name : list Z) (r : cpio_reader) : res (Z * option cpio_entry) :=
  match fuel with
  | O => Fault
  | S fuel =>
      let! (code, r, e) := cpio_reader_next r in
      match e with
      | Some e => if bool_decide (name = e_name e) then Ok (1, Some e) else find_loop fuel name r
      | None => Ok (code, None)
      end
  end.

Definition cpio_find (fuel : nat) (name : list Z) (r : cpio_reader) : res (Z * option cpio_entry) :=
  match archive r with
  | None => Ok (-1, None)
  | Some _ => find_loop fuel name (mk_reader (archive r) (size r) 0 false)
  end.

(** the interface on the default reader *)
Definition cpio_init (addr : Z) (a : list Z) (n : Z) (d : cpio_reader) : res (Z * cpio_reader) :=
  let! r := cpio_reader_init addr a n in
  match r with Some r => Ok (0, r) | None => Ok (-1, d) end.

Definition cpio_next (d : cpio_reader) : res (Z * cpio_reader * option cpio_entry) :=
  cpio_reader_next d.

(** ** Reads inside the archive succeed *)

Lemma bytes_eq_inside a l i : inside a i (Z.of_nat (length l)) ->
  bytes_eq a i l = Ok (bool_decide (slice a i (Z.of_nat (length l)) = l)).
Proof.
  revert i. induction l as [| x l IH]; intros i (? & _ & Hi); [done |].
  simpl in *. destruct (byte_at_inside a i) as (b & Hb & ->); [red; lia |]. simpl.
  unfold slice. rewrite (drop_S _ _ _ Hb), !Nat2Z.id. simpl. destruct (Z.eqb_spec b x) as [-> | N].
  - rewrite IH by (red; lia). f_equal. apply bool_decide_ext. unfold slice.
    rewrite Nat2Z.id, Z2Nat.inj_add, Nat.add_1_r by lia. split; congruence.
  - rewrite bool_decide_eq_false_2; [done | congruence].
Qed.

Lemma hex32_from_inside n a i v : inside a i (Z.of_nat n) -> 0 <= v ->
  exists o, hex32_from n a i v = Ok o /\ (forall w, o = Some w -> 0 <= w).
Proof.
  revert i v. induction n as [| n IH]; intros i v (? & _ & ?) Hv.
  - exists (Some v). split; [done | congruence].
  - simpl. destruct (byte_at_inside a i) as (b & _ & ->); [red; lia |]. simpl.
    unfold hex_digit. repeat split_if; try (exists None; done); zbool; try done;
      (apply IH; [red; lia |]; apply Z.lor_nonneg; split; [apply u32_range | lia]).
Qed.

Lemma hex32_inside a i : inside a i 8 ->
  exists o, hex32 a i = Ok o /\ (forall w, o = Some w -> 0 <= w).
Proof. intros H. by apply hex32_from_inside. Qed.

Lemma no_nul_inside n a i : inside a i (Z.of_nat n) ->
  no_nul n a i = Ok (forallb (fun b => negb (b =? 0)) (slice a i (Z.of_nat n))).
Proof.
  revert i. induction n as [| n IH]; intros i (? & _ & ?); [done |].
  simpl. destruct (byte_at_inside a i) as (b & Hb & ->); [red; lia |]. simpl.
  unfold slice. rewrite (drop_S _ _ _ Hb), !Nat2Z.id. simpl. destruct (b =? 0); [done |].
  rewrite IH by (red; lia). unfold slice.
  by rewrite Nat2Z.id, Z2Nat.inj_add, Nat.add_1_r by lia.
Qed.

Lemma align4_spec x : 0 <= x < 1099511627776 -> align4 x = (x + 3) / 4 * 4.
Proof.
  intros H. unfold align4. rewrite (u64_small (x + 3)) by (red; lia).
  pose proof (land_lnot_ones 2 (x + 3)) as L. change (2 ^ 2 - 1) with 3 in L.
  change (2 ^ 2) with 4 in L. rewrite L by (lia || red; lia). zlia.
Qed.

(** ** One step of the reader *)

#[local] Arguments bytes_eq : simpl never.
#[local] Arguments hex32 : simpl never.

Definition reader_ok (a : list Z) (r : cpio_reader) : Prop :=
  archive r = Some a /\ size r = Z.of_nat (length a) /\ size r < 4294967296 /\ 0 <= offset r.

(** the name is terminated inside the archive, has no terminator before its
    end, and the data lies inside the archive *)
Definition entry_in (a : list Z) (e : cpio_entry) : Prop :=
  inside a (e_data e) (e_size e) /\ Forall (fun b => b <> 0) (e_name e) /\
  exists p, inside a p (Z.of_nat (length (e_name e)) + 1) /\
    slice a p (Z.of_nat (length (e_name e)) + 1) = e_name e ++ [0].

Definition step_ok (a : list Z) (r : cpio_reader) (x : Z * cpio_reader * option cpio_entry) : Prop :=
  let '(code, r', e) := x in
  reader_ok a r' /\
  match e with
  | Some e => code = 1 /\ entry_in a e /\ offset r + CPIO_HDR_LEN < offset r' <= size r
  | None => offset r' = offset r /\ (code = -1 \/ code = 0 /\ finished r' = true)
  end.

Lemma header_inside a off : inside a off CPIO_HDR_LEN ->
  exists o, header a off = Ok o /\
    forall ns fs md, o = Some (ns, fs, md) -> 0 < ns /\ 0 <= fs.
Proof.
  intros (? & ? & ?). unfold CPIO_HDR_LEN in *. unfold header.
  rewrite bytes_eq_inside by (red; simpl; lia). simpl.
  case_bool_decide; simpl; [| by exists None].
  destruct (hex32_inside a (off + 94)) as ([ns |] & -> & Hns); [red; lia | | by exists None].
  destruct (hex32_inside a (off + 54)) as ([fs |] & -> & Hfs); [red; lia | | by exists None].
  destruct (hex32_inside a (off + 14)) as ([md |] & -> & Hmd); [red; lia | | by exists None].
  specialize (Hns _ eq_refl). specialize (Hfs _ eq_refl). simpl.
  destruct (Z.eqb_spec ns 0); [by exists None |].
  eexists. split; [done |]. intros ? ? ? [= <- <- <-]. lia.
Qed.

Lemma body_ok a r ns fs md : reader_ok a r -> inside a (offset r) CPIO_HDR_LEN -> 0 < ns -> 0 <= fs ->
  exists x, body r a ns fs md = Ok x /\ step_ok a r x.
Proof.
  intros R (_ & _ & Hin) Hns Hfs. pose proof R as (HA & HS & HL & HO). unfold CPIO_HDR_LEN in *.
  assert (Fail : exists x, Ok (-1, r, None) = Ok x /\ step_ok a r x) by (eexists; split; [done | split; auto]).
  unfold body, CPIO_HDR_LEN. destruct (Z.ltb_spec (size r - (offset r + 110)) ns); [done |].
  destruct (byte_at_inside a (offset r + 110 + ns - 1)) as (b & Hb & ->); [red; lia |]. simpl.
  destruct (Z.eqb_spec b 0) as [-> |]; [simpl | done].
  rewrite no_nul_inside by (red; lia). simpl. rewrite Z2Nat.id by lia.
  destruct (forallb _ _) eqn:Clean; [simpl | done].
  rewrite (align4_spec (offset r + 110 + ns)) by lia.
  set (ds := (offset r + 110 + ns + 3) / 4 * 4).
  assert (offset r + 110 + ns <= ds) by (unfold ds; zlia).
  destruct (Z.ltb_spec (size r) ds); [done |].
  destruct (Z.ltb_spec (size r - ds) fs); [done | simpl].
  rewrite (align4_spec (ds + fs)) by lia.
  set (nx := (ds + fs + 3) / 4 * 4). assert (ds + fs <= nx) by (unfold nx; zlia).
  destruct (Z.ltb_spec (size r) nx); [done |].
  assert (exists tr, (if ns =? 11 then bytes_eq a (offset r + 110) trailer else Ok false) = Ok tr)
    as [tr ->].
  { destruct (Z.eqb_spec ns 11); [| by exists false].
    rewrite bytes_eq_inside by (red; simpl; lia). by eexists. }
  simpl. destruct tr.
  { destruct (Z.eqb_spec fs 0); [simpl | done]. eexists. split; [done |]. split; [done | auto]. }
  eexists. split; [done |]. rewrite u32_small by (red; lia). split; [repeat split; simpl; lia || done |].
  split; [done |]. split; [| simpl; unfold CPIO_HDR_LEN; lia].
  split; [red; simpl; lia |]. simpl. split.
  { apply Forall_forall. intros x Hx. apply list_elem_of_In in Hx.
    rewrite forallb_forall in Clean. specialize (Clean _ Hx). by destruct (Z.eqb_spec x 0). }
  exists (offset r + 110). rewrite slice_length by (red; lia). split; [red; lia |].
  apply slice_snoc; [red; lia | lia |]. rewrite <- Hb. do 2 f_equal. lia.
Qed.

Lemma next_ok a r : reader_ok a r -> exists x, cpio_reader_next r = Ok x /\ step_ok a r x.
Proof.
  intros R. pose proof R as (HA & HS & HL & HO).
  assert (Fail : exists x, Ok (-1, r, None) = Ok x /\ step_ok a r x) by (eexists; split; [done | split; auto]).
  unfold cpio_reader_next. rewrite HA. destruct (finished r) eqn:F; [eexists; split; [done | split; auto] |].
  destruct (Z.ltb_spec (size r) (offset r)); [done |].
  destruct (Z.ltb_spec (size r - offset r) CPIO_HDR_LEN) as [| HI]; [done | simpl].
  assert (I : inside a (offset r) CPIO_HDR_LEN) by (unfold CPIO_HDR_LEN in *; red; lia).
  destruct (header_inside a (offset r)) as ([[[ns fs] md] |] & -> & Hh); [done | | done].
  destruct (Hh _ _ _ eq_refl). by apply body_ok.
Qed.

(** ** Whole archives *)

Lemma entries_end a r : reader_ok a r -> offset r <= size r -> forall fuel,
  size r - offset r < CPIO_HDR_LEN * Z.of_nat fuel ->
  exists l code, cpio_entries fuel r = Ok (l, code) /\ Forall (entry_in a) l /\ (code = -1 \/ code = 0).
Proof.
  intros R HO fuel. revert r R HO. unfold CPIO_HDR_LEN.
  induction fuel as [| fuel IH]; intros r R HO HF; [lia |].
  simpl. destruct (next_ok a r R) as ([[code r'] [e |]] & -> & R' & Hs); simpl.
  - destruct Hs as (-> & He & Hoff). unfold CPIO_HDR_LEN in Hoff.
    assert (size r' = size r) by (destruct R as (? & -> & _); by destruct R' as (? & -> & _)).
    destruct (IH r' R') as (l & c & -> & Hl & Hc); [lia | lia |].
    simpl. exists (e :: l), c. split; [done |]. split; [by constructor | done].
  - exists [], code. split; [done |]. split; [done | tauto].
Qed.

Definition named (name : list Z) (e : cpio_entry) : bool := bool_decide (name = e_name e).

Lemma find_entries name fuel r l code : cpio_entries fuel r = Ok (l, code) ->
  find_loop fuel name r =
    Ok (match List.find (named name) l with Some e => (1, Some e) | None => (code, None) end).
Proof.
  revert r l. induction fuel as [| fuel IH]; intros r l H; [done |].
  simpl in *. destruct (cpio_reader_next r) as [[[c r'] [e |]] | |]; [simpl in * | simpl in * | done | done].
  - apply res_bind_ok in H as ([l' c'] & E & [= <- <-]). simpl. unfold named at 1.
    case_bool_decide; [done |]. by apply IH.
  - by injection H as <- <-.
Qed.

(** C38: whatever the bytes of an archive and wherever its reader stands, the
    reader never touches a byte outside the archive; walking it ends after at
    most one step per 110 bytes with 0 (trailer) or -1 (malformed), each entry's
    name is terminated and its data lies inside the archive, and [cpio_find]
    returns the first entry with the requested name, or that final code. *)
Theorem cpio_reads_in_bounds a r name fuel :
  reader_ok a r -> offset r <= size r -> size r < CPIO_HDR_LEN * Z.of_nat fuel ->
  exists l code, cpio_entries fuel (mk_reader (archive r) (size r) 0 false) = Ok (l, code) /\
    Forall (entry_in a) l /\ (code = -1 \/ code = 0) /\
    cpio_find fuel name r =
      Ok (match List.find (named name) l with Some e => (1, Some e) | None => (code, None) end) /\
    exists c r' e, cpio_next r = Ok (c, r', e) /\ step_ok a r (c, r', e).
Proof.
  intros R HO HF. pose proof R as (HA & HS & HL & HP).
  destruct (entries_end a (mk_reader (archive r) (size r) 0 false)) with (fuel := fuel)
    as (l & code & E & Hl & Hc); [red; simpl; auto with lia | simpl; lia | simpl; lia |].
  exists l, code. do 3 (split; [done |]). split.
  - unfold cpio_find. rewrite HA in E |- *. by apply find_entries.
  - destruct (next_ok a r R) as ([[c r'] e] & E' & Hs). by exists c, r', e.
Qed.

(** ** Writing archives *)

Record newc_file := mk_file { f_name : list Z; f_mode : Z; f_data : list Z; f_field : nat -> Z }.

Definition hex_char (d : Z) : Z := if d <? 10 then 48 + d else 97 + (d - 10).
Fixpoint hexn (n : nat) (v : Z) : list Z :=
  match n with O => [] | S n => hex_char (v / 16 ^ Z.of_nat n mod 16) :: hexn n v end.

Definition pad4 (n : Z) : list Z := replicate (Z.to_nat ((n + 3) / 4 * 4 - n)) 0.

(** the thirteen fields of a newc header after the magic number: inode, mode,
    uid, gid, links, mtime, size, four device numbers, name size, checksum *)
Definition newc_header (f : newc_file) : list Z :=
  magic ++ hexn 8 (f_field f 0) ++ hexn 8 (f_mode f) ++
  (hexn 8 (f_field f 2) ++ hexn 8 (f_field f 3) ++ hexn 8 (f_field f 4) ++ hexn 8 (f_field f 5)) ++
  hexn 8 (zlen (f_data f)) ++
  (hexn 8 (f_field f 7) ++ hexn 8 (f_field f 8) ++ hexn 8 (f_field f 9) ++ hexn 8 (f_field f 10)) ++
  hexn 8 (zlen (f_name f) + 1) ++ hexn 8 (f_field f 12).

Definition newc_entry (f : newc_file) : list Z :=
  newc_header f ++ (f_name f ++ [0]) ++ pad4 (110 + zlen (f_name f) + 1) ++
  f_data f ++ pad4 (zlen (f_data f)).

Definition newc_end : newc_file := mk_file (take 10 trailer) 0 [] (fun _ => 0).

Definition newc_archive (fs : list newc_file) : list Z := concat (map newc_entry fs) ++ newc_entry newc_end.

Lemma hexn_length n v : length (hexn n v) = n.
Proof. induction n; simpl; congruence. Qed.

Lemma hex_digit_char d : 0 <= d < 16 -> hex_digit (hex_char d) = Some d.
Proof.
  intros H. assert (d ∈ [0;1;2;3;4;5;6;7;8;9;10;11;12;13;14;15]) as E by (lmem_simpl; lia).
  lmem_simpl. by repeat destruct E as [-> | E].
Qed.

Lemma shift_digit acc d : 0 <= acc < 268435456 -> 0 <= d < 16 ->
  Z.lor (u32 (Z.shiftl acc 4)) d = acc * 16 + d.
Proof.
  intros Ha Hd. rewrite Z.shiftl_mul_pow2 by lia. change (2 ^ 4) with 16.
  rewrite u32_small by (red; lia). symmetry. rewrite <- Z.add_lor_land.
  enough (Z.land (acc * 16) d = 0) by lia.
  apply Z.bits_inj'. intros k Hk. rewrite Z.land_spec, Z.bits_0.
  change 16 with (2 ^ 4). destruct (Z.ltb_spec k 4).
  - by rewrite Z.mul_pow2_bits_low.
  - rewrite (Z.bits_above_log2 d k), andb_false_r; [done | lia |].
    destruct (decide (d = 0)) as [-> |]; [simpl; lia |].
    apply Z.lt_le_trans with 4; [apply Z.log2_lt_pow2; lia | lia].
Qed.

Lemma hex32_from_app n pre v post acc : 0 <= acc -> (acc + 1) * 16 ^ Z.of_nat n <= 4294967296 ->
  hex32_from n (pre ++ hexn n v ++ post) (zlen pre) acc =
    Ok (Some (acc * 16 ^ Z.of_nat n + v mod 16 ^ Z.of_nat n)).
Proof.
  revert pre acc. induction n as [| n IH]; intros pre acc Ha Hb.
  - simpl. change (16 ^ Z.of_nat 0) with 1. rewrite Z.mod_1_r. do 2 f_equal. lia.
  - rewrite Nat2Z.inj_succ, Z.pow_succ_r in * by lia.
    set (p := 16 ^ Z.of_nat n) in *. assert (0 < p) by (apply Z.pow_pos_nonneg; lia).
    cbn [hexn app hex32_from]. fold p. rewrite byte_at_app. cbn [res_bind].
    assert (0 <= v / p mod 16 < 16) by (apply Z.mod_pos_bound; lia).
    rewrite hex_digit_char by done. rewrite shift_digit; [| nia | done].
    replace (pre ++ hex_char (v / p mod 16) :: hexn n v ++ post)
      with ((pre ++ [hex_char (v / p mod 16)]) ++ hexn n v ++ post) by by rewrite <- app_assoc.
    replace (zlen pre + 1) with (zlen (pre ++ [hex_char (v / p mod 16)]))
      by (unfold zlen; rewrite length_app; simpl; lia).
    rewrite IH; [| nia | nia]. do 2 f_equal.
    rewrite (Z.mul_comm 16 p), Z.rem_mul_r by lia. lia.
Qed.

Lemma hex32_app a i pre v post : a = pre ++ hexn 8 v ++ post -> i = zlen pre -> is_u32 v ->
  hex32 a i = Ok (Some v).
Proof.
  intros -> -> H. unfold hex32. rewrite hex32_from_app; [| lia | by vm_compute].
  rewrite Z.mod_small; [done | exact H].
Qed.

#[local] Opaque hexn.

Lemma zlen_pad n : 0 <= n -> zlen (pad4 n) = (n + 3) / 4 * 4 - n.
Proof. intros H. unfold zlen, pad4. rewrite length_replicate. zlia. Qed.

Lemma zlen_hexn v : zlen (hexn 8 v) = 8.
Proof. unfold zlen. by rewrite hexn_length. Qed.

Lemma zlen_header f : zlen (newc_header f) = 110.
Proof. unfold newc_header. rewrite !zlen_app, !zlen_hexn. done. Qed.

Lemma zlen_entry f : zlen (newc_entry f) =
  (110 + zlen (f_name f) + 1 + 3) / 4 * 4 + (zlen (f_data f) + 3) / 4 * 4.
Proof.
  unfold newc_entry. pose proof (zlen_nonneg (f_name f)). pose proof (zlen_nonneg (f_data f)).
  rewrite !zlen_app, zlen_header, !zlen_pad by lia. change (zlen [0]) with 1. lia.
Qed.

Definition file_ok (f : newc_file) : Prop :=
  Forall (fun b => b <> 0) (f_name f) /\ is_u32 (f_mode f).

Lemma field_app a off pre l v post : a = pre ++ l ++ hexn 8 v ++ post -> off = zlen l -> is_u32 v ->
  hex32 a (zlen pre + off) = Ok (Some v).
Proof.
  intros -> -> H. eapply (hex32_app _ _ (pre ++ l)); [by rewrite <- app_assoc | by rewrite zlen_app | done].
Qed.

Lemma magic_app pre post : bytes_eq (pre ++ magic ++ post) (zlen pre) magic = Ok true.
Proof.
  rewrite bytes_eq_inside.
  - f_equal. apply bool_decide_eq_true_2. by eapply slice_app.
  - red. change (Z.of_nat (length ?l)) with (zlen l). rewrite !zlen_app.
    pose proof (zlen_nonneg pre). pose proof (zlen_nonneg post). change (zlen magic) with 6. lia.
Qed.

(** lengths of a prefix of a header *)
Ltac field_pos := rewrite ?zlen_app, ?zlen_hexn; reflexivity.

Lemma header_app pre f post : file_ok f ->
  zlen (f_name f) + 1 < 4294967296 -> zlen (f_data f) < 4294967296 ->
  header (pre ++ newc_header f ++ post) (zlen pre) =
    Ok (Some (zlen (f_name f) + 1, zlen (f_data f), f_mode f)).
Proof.
  intros [_ Hm] Hn Hd. unfold header.
  pose proof (zlen_nonneg (f_name f)). pose proof (zlen_nonneg (f_data f)).
  assert (HN : is_u32 (zlen (f_name f) + 1)) by (red; lia).
  assert (HD : is_u32 (zlen (f_data f))) by (red; lia).
  unfold newc_header.
  generalize (f_field f 0) (f_field f 2) (f_field f 3) (f_field f 4) (f_field f 5) (f_field f 7)
    (f_field f 8) (f_field f 9) (f_field f 10) (f_field f 12).
  intros g0 g2 g3 g4 g5 g7 g8 g9 g10 g12.
  rewrite <- !app_assoc, magic_app. cbn [res_bind negb].
  rewrite (field_app _ 94 pre (magic ++ hexn 8 g0 ++ hexn 8 (f_mode f) ++
    (hexn 8 g2 ++ hexn 8 g3 ++ hexn 8 g4 ++ hexn 8 g5) ++ hexn 8 (zlen (f_data f)) ++
    (hexn 8 g7 ++ hexn 8 g8 ++ hexn 8 g9 ++ hexn 8 g10)) _ (hexn 8 g12 ++ post)
    ltac:(rewrite <- !app_assoc; reflexivity) ltac:(field_pos) HN). cbn [res_bind].
  rewrite (field_app _ 54 pre (magic ++ hexn 8 g0 ++ hexn 8 (f_mode f) ++
    (hexn 8 g2 ++ hexn 8 g3 ++ hexn 8 g4 ++ hexn 8 g5)) _
    ((hexn 8 g7 ++ hexn 8 g8 ++ hexn 8 g9 ++ hexn 8 g10) ++
      hexn 8 (zlen (f_name f) + 1) ++ hexn 8 g12 ++ post)
    ltac:(rewrite <- !app_assoc; reflexivity) ltac:(field_pos) HD). cbn [res_bind].
  rewrite (field_app _ 14 pre (magic ++ hexn 8 g0) _
    ((hexn 8 g2 ++ hexn 8 g3 ++ hexn 8 g4 ++ hexn 8 g5) ++ hexn 8 (zlen (f_data f)) ++
      (hexn 8 g7 ++ hexn 8 g8 ++ hexn 8 g9 ++ hexn 8 g10) ++
      hexn 8 (zlen (f_name f) + 1) ++ hexn 8 g12 ++ post)
    ltac:(rewrite <- !app_assoc; reflexivity) ltac:(field_pos) Hm). cbn [res_bind].
  destruct (Z.eqb_spec (zlen (f_name f) + 1) 0); [lia | done].
Qed.

Lemma no_nul_app a pre l post : a = pre ++ l ++ post -> Forall (fun b => b <> 0) l ->
  no_nul (length l) a (zlen pre) = Ok true.
Proof.
  intros -> H. rewrite no_nul_inside.
  - erewrite slice_app; [| done | done | done]. f_equal. apply forallb_forall. intros x Hx.
    apply list_elem_of_In in Hx. rewrite Forall_forall in H. specialize (H _ Hx).
    by destruct (Z.eqb_spec x 0).
  - red. change (Z.of_nat (length ?k)) with (zlen k). rewrite !zlen_app.
    pose proof (zlen_nonneg pre). pose proof (zlen_nonneg post). pose proof (zlen_nonneg l). lia.
Qed.

(** what the reader does on an entry the writer wrote *)
Definition entry_of (f : newc_file) (e : cpio_entry) (a : list Z) : Prop :=
  e_name e = f_name f /\ e_mode e = f_mode f /\ slice a (e_data e) (e_size e) = f_data f.

(** where the reader stands after the entries written so far *)
Definition at_end (pre : list Z) (a : list Z) : cpio_reader := mk_reader (Some a) (zlen a) (zlen pre) false.

(** the reader's four looks at a written name *)
Lemma name_app a hd name rest : a = hd ++ (name ++ [0]) ++ rest -> Forall (fun b => b <> 0) name ->
  byte_at a (zlen hd + (zlen name + 1) - 1) = Ok 0 /\
  no_nul (Z.to_nat (zlen name + 1 - 1)) a (zlen hd) = Ok true /\
  slice a (zlen hd) (zlen name + 1 - 1) = name /\
  (if zlen name + 1 =? 11 then bytes_eq a (zlen hd) trailer else Ok false) =
    Ok (bool_decide (name ++ [0] = trailer)).
Proof.
  intros Ha Hn. replace (zlen name + 1 - 1) with (zlen name) by lia.
  assert (A2 : a = (hd ++ name) ++ 0 :: rest) by (rewrite Ha; by rewrite <- !app_assoc).
  assert (A3 : a = hd ++ name ++ 0 :: rest) by (rewrite Ha; by rewrite <- !app_assoc).
  split.
  { replace (zlen hd + (zlen name + 1) - 1) with (zlen (hd ++ name)) by (rewrite zlen_app; lia).
    rewrite A2. apply byte_at_app. }
  split; [unfold zlen at 1; rewrite Nat2Z.id; by apply (no_nul_app _ _ _ (0 :: rest)) |].
  split; [by apply (slice_app _ _ _ hd _ (0 :: rest)) |].
  destruct (Z.eqb_spec (zlen name + 1) 11) as [E | N].
  - rewrite bytes_eq_inside.
    + change (Z.of_nat (length trailer)) with 11.
      rewrite (slice_app a (zlen hd) 11 hd (name ++ [0]) rest); [done | done | done |].
      rewrite zlen_app. change (zlen [0]) with 1. lia.
    + red. change (Z.of_nat (length trailer)) with 11. change (Z.of_nat (length a)) with (zlen a).
      rewrite Ha, !zlen_app. change (zlen [0]) with 1.
      pose proof (zlen_nonneg hd). pose proof (zlen_nonneg rest). lia.
  - rewrite bool_decide_eq_false_2; [done |]. intros T. apply N.
    apply (f_equal zlen) in T. rewrite zlen_app in T. exact T.
Qed.

Lemma body_app pre f post a : a = pre ++ newc_entry f ++ post -> file_ok f ->
  zlen pre mod 4 = 0 -> zlen a < 4294967296 ->
  exists d, slice a d (zlen (f_data f)) = f_data f /\
    body (at_end pre a) a (zlen (f_name f) + 1) (zlen (f_data f)) (f_mode f) =
    if bool_decide (f_name f ++ [0] = trailer) then
      if negb (zlen (f_data f) =? 0) then Ok (-1, at_end pre a, None)
      else Ok (0, mk_reader (Some a) (zlen a) (zlen pre) true, None)
    else Ok (1, at_end (pre ++ newc_entry f) a, Some (mk_entry (f_name f) d (zlen (f_data f)) (f_mode f))).
Proof.
  intros Ha [Hn _] H4 HL.
  pose proof (zlen_nonneg (f_name f)) as N1. pose proof (zlen_nonneg (f_data f)) as N2.
  pose proof (zlen_nonneg pre) as N3. pose proof (zlen_nonneg post) as N4.
  pose proof (f_equal zlen Ha) as HZ. rewrite !zlen_app, zlen_entry in HZ.
  pose proof (zlen_app pre (newc_entry f)) as HE. rewrite zlen_entry in HE.
  pose proof (zlen_app pre (newc_header f)) as HH. rewrite zlen_header in HH.
  destruct (name_app a (pre ++ newc_header f) (f_name f)
    (pad4 (110 + zlen (f_name f) + 1) ++ f_data f ++ pad4 (zlen (f_data f)) ++ post)) as (L1 & L2 & L3 & L4);
    [rewrite Ha; unfold newc_entry; by rewrite <- !app_assoc | done |].
  rewrite HH in L1, L2, L3, L4. set (ds := zlen pre + (110 + zlen (f_name f) + 1 + 3) / 4 * 4).
  exists ds. split.
  { apply (slice_app _ _ _ (pre ++ newc_header f ++ f_name f ++ [0] ++ pad4 (110 + zlen (f_name f) + 1))
      _ (pad4 (zlen (f_data f)) ++ post)); [rewrite Ha; unfold newc_entry; by rewrite <- !app_assoc | | done].
    rewrite !zlen_app, zlen_header, zlen_pad by lia. change (zlen [0]) with 1. unfold ds. lia. }
  unfold body, CPIO_HDR_LEN, at_end. cbn [offset size archive finished].
  rewrite L1, L2, L3, L4. cbn [res_bind negb Z.eqb].
  rewrite (proj2 (Z.ltb_ge (zlen a - (zlen pre + 110)) _)) by zlia.
  rewrite (align4_spec (zlen pre + 110 + (zlen (f_name f) + 1))) by zlia.
  replace ((zlen pre + 110 + (zlen (f_name f) + 1) + 3) / 4 * 4) with ds by (unfold ds; zlia).
  rewrite (proj2 (Z.ltb_ge (zlen a) ds)) by (unfold ds; zlia).
  rewrite (proj2 (Z.ltb_ge (zlen a - ds) _)) by (unfold ds; zlia).
  cbn [orb]. rewrite (align4_spec (ds + zlen (f_data f))) by (unfold ds; zlia).
  replace ((ds + zlen (f_data f) + 3) / 4 * 4) with (zlen (pre ++ newc_entry f)) by (unfold ds; zlia).
  rewrite (proj2 (Z.ltb_ge (zlen a) _)) by zlia. rewrite u32_small by (red; zlia). done.
Qed.

Lemma next_app pre f post a : a = pre ++ newc_entry f ++ post -> file_ok f ->
  zlen pre mod 4 = 0 -> zlen a < 4294967296 ->
  cpio_reader_next (at_end pre a) =
    body (at_end pre a) a (zlen (f_name f) + 1) (zlen (f_data f)) (f_mode f).
Proof.
  intros Ha Hf H4 HL.
  pose proof (zlen_nonneg (f_name f)). pose proof (zlen_nonneg (f_data f)).
  pose proof (zlen_nonneg pre). pose proof (zlen_nonneg post).
  pose proof (f_equal zlen Ha) as HZ. rewrite !zlen_app, zlen_entry in HZ.
  unfold cpio_reader_next, CPIO_HDR_LEN. cbn [at_end archive finished offset size].
  rewrite (proj2 (Z.ltb_ge (zlen a) (zlen pre))) by zlia.
  rewrite (proj2 (Z.ltb_ge (zlen a - zlen pre) 110)) by zlia. cbn [orb].
  replace (header a (zlen pre)) with (Ok (Some (zlen (f_name f) + 1, zlen (f_data f), f_mode f))); [done |].
  rewrite Ha. unfold newc_entry. rewrite <- (app_assoc (newc_header f)).
  symmetry. apply header_app; [done | zlia | zlia].
Qed.

Lemma entry_aligned pre f : zlen pre mod 4 = 0 -> zlen (pre ++ newc_entry f) mod 4 = 0.
Proof. intros H. rewrite zlen_app, zlen_entry. zlia. Qed.

(** a member of an archive: a file that is not called like the trailer *)
Definition member_ok (f : newc_file) : Prop := file_ok f /\ f_name f ++ [0] <> trailer.

Lemma entries_app fs pre fuel a : a = pre ++ concat (map newc_entry fs) ++ newc_entry newc_end ->
  Forall member_ok fs -> zlen pre mod 4 = 0 -> zlen a < 4294967296 -> (length fs < fuel)%nat ->
  exists l, cpio_entries fuel (at_end pre a) = Ok (l, 0) /\ Forall2 (fun f e => entry_of f e a) fs l.
Proof.
  revert pre fuel. induction fs as [| f fs IH]; intros pre [| fuel] Ha HF H4 HL Hfu; try (simpl in Hfu; lia).
  - exists []. split; [| constructor]. cbn [cpio_entries].
    assert (Ha' : a = pre ++ newc_entry newc_end ++ []) by (rewrite Ha; simpl; by rewrite app_nil_r).
    assert (file_ok newc_end) by (split; [repeat constructor; discriminate | red; simpl; lia]).
    rewrite (next_app pre newc_end [] a) by done.
    destruct (body_app pre newc_end [] a) as (d & _ & ->); done.
  - apply Forall_cons in HF as [[Hf Ht] HF]. cbn [cpio_entries].
    assert (Ha' : a = pre ++ newc_entry f ++ (concat (map newc_entry fs) ++ newc_entry newc_end))
      by (rewrite Ha; simpl; by rewrite <- !app_assoc).
    rewrite (next_app pre f _ a Ha') by done.
    destruct (body_app pre f _ a Ha') as (d & Hd & ->); [done | done | done |].
    rewrite bool_decide_eq_false_2 by done. cbn [res_bind].
    destruct (IH (pre ++ newc_entry f) fuel) as (l & -> & Hl);
      [by rewrite <- app_assoc | done | by apply entry_aligned | done | simpl in Hfu; lia |].
    simpl. eexists. split; [done |]. by constructor.
Qed.

(** C39: archives round trip: an archive in the newc format, written with the
    padding and the trailer of the format and less than 4 GiB long, is accepted
    by [cpio_reader_init], and iterating the reader yields exactly the files
    written, in order, with their names, modes and contents, and ends with 0;
    [cpio_find] finds the first file written under a name. *)
Theorem cpio_roundtrip addr fs fuel :
  Forall member_ok fs -> zlen (newc_archive fs) < 4294967296 -> (length fs < fuel)%nat ->
  0 < addr -> addr + zlen (newc_archive fs) <= UINTPTR_MAX ->
  exists r l, cpio_reader_init addr (newc_archive fs) (zlen (newc_archive fs)) = Ok (Some r) /\
    cpio_entries fuel r = Ok (l, 0) /\
    Forall2 (fun f e => entry_of f e (newc_archive fs)) fs l /\
    forall name, cpio_find fuel name r =
      Ok (match List.find (named name) l with Some e => (1, Some e) | None => (0, None) end).
Proof.
  intros HF HL Hfu H0 HA. set (a := newc_archive fs) in *.
  destruct (entries_app fs [] fuel a) as (l & E & Hl); [done | done | done | done | done |].
  exists (at_end [] a), l. split.
  - unfold cpio_reader_init, CPIO_HDR_LEN.
    assert (124 <= zlen a).
    { unfold a, newc_archive. rewrite zlen_app, zlen_entry. pose proof (zlen_nonneg (concat (map newc_entry fs))).
      change (zlen (f_name newc_end)) with 10. change (zlen (f_data newc_end)) with 0. zlia. }
    rewrite (proj2 (Z.eqb_neq addr 0)), (proj2 (Z.ltb_ge _ addr)), (proj2 (Z.ltb_ge _ (110 + 1))) by lia.
    assert (exists rest, a = magic ++ rest) as [rest HM].
    { unfold a, newc_archive. destruct fs; simpl; eexists; reflexivity. }
    pose proof (magic_app [] rest) as M. cbn [app] in M. rewrite <- HM in M.
    change (zlen []) with 0 in M. by rewrite M.
  - split; [done |]. split; [done |]. intros name. by apply find_entries.
Qed.

Definition ex_files : list newc_file :=
  [mk_file [97; 47; 98] 33188 [1; 2; 3; 4; 5] (fun _ => 7); mk_file [99] 16877 [] (fun _ => 0)].

Lemma cpio_roundtrip_witness :
  exists r l, cpio_reader_init 4096 (newc_archive ex_files) (zlen (newc_archive ex_files)) = Ok (Some r) /\
    cpio_entries 3 r = Ok (l, 0) /\ Forall2 (fun f e => entry_of f e (newc_archive ex_files)) ex_files l /\
    forall name, cpio_find 3 name r =
      Ok (match List.find (named name) l with Some e => (1, Some e) | None => (0, None) end).
Proof.
  apply (cpio_roundtrip 4096 ex_files 3); [| vm_compute; done | simpl; lia | lia | vm_compute; done].
  repeat constructor; simpl; lia || discriminate.
Defined.

Lemma cpio_reads_in_bounds_witness :
  reader_ok (newc_archive ex_files) (at_end [] (newc_archive ex_files)) /\
  exists l code, cpio_entries 9 (at_end [] (newc_archive ex_files)) = Ok (l, code).
Proof.
  assert (reader_ok (newc_archive ex_files) (at_end [] (newc_archive ex_files))) as R
    by (split; [done | split; [done | split; [vm_compute; done | vm_compute; done]]]).
  split; [exact R |].
  destruct (cpio_reads_in_bounds _ _ [99] 9 R) as (l & code & H & _);
    [vm_compute; done | vm_compute; done | exists l, code; exact H].
Defined.
