(* ===== verification/BootFiles.v ===== *)
(** * Files of the boot image ([kernel/boot_files.c], [kernel/boot_files.h])

    A C string is the list of its bytes before the terminator; a null string is
    [None].  A file set is either the boot loader's module list or a cpio
    archive with its address.  Loops over a path or an archive carry fuel; a
    loop that runs out of it, or writes past the 256-byte path buffer, faults,
    and the properties show neither happens. *)

From stdpp Require Import base list.
From S2P Require Import Prelude Bytes Cpio.

Definition BOOT_FILE_PATH_MAX : Z := 256.

Definition SLASH : Z := 47.
Definition DOT : Z := 46.
Definition COLON : Z := 58.

(** ** Normal paths *)

(** skipping the separators in front *)
Fixpoint skip_slashes (p : list Z) : list Z :=
  match p with
  | c :: q => if c =? SLASH then skip_slashes q else p
  | [] => []
  end.

(** the bytes up to the next separator and the rest; [None] on a colon *)
Fixpoint component (p : list Z) : option (list Z * list Z) :=
  match p with
  | [] => Some ([], [])
  | c :: q =>
      if c =? SLASH then Some ([], p)
      else if c =? COLON then None
      else match component q with Some (l, r) => Some (c :: l, r) | None => None end
  end.

(** [out] is the part of the buffer written so far; [None] is the code -2 *)
Definition put (out l : list Z) : res (list Z) :=
  if BOOT_FILE_PATH_MAX <? zlen out + zlen l then Fault else Ok (out ++ l).

Fixpoint normalize_loop (fuel : nat) (path out : list Z) : res (option (list Z)) :=
  match fuel with
  | O => Fault
  | S fuel =>
      match path with
      | [] =>
          let! _ := put out [0] in
          if zlen out =? 0 then Ok None else Ok (Some out)
      | _ =>
          match component (skip_slashes path) with
          | None => Ok None
          | Some (c, rest) =>
              let len := zlen c in
              if bool_decide (c = []) || bool_decide (c = [DOT]) then normalize_loop fuel rest out
              else if bool_decide (c = [DOT; DOT]) then Ok None
              else if u64 (BOOT_FILE_PATH_MAX - zlen out - 1) <=? len then Ok None
              else
                let! out := put out [SLASH] in
                let! out := put out c in
                normalize_loop fuel rest out
          end
      end
  end.

Definition boot_file_normalize (path : option (list Z)) : res (option (list Z)) :=
  match path with
  | None => Ok None
  | Some p => normalize_loop (S (length p)) p []
  end.

(** ** File sets *)

Record boot_module := mk_module { m_path : option (list Z); m_address : Z; m_size : Z }.

Inductive boot_file_set :=
  | BOOT_FILES_MODULES (modules : option (list boot_module))
  | BOOT_FILES_CPIO (data : Z) (bytes : list Z) (size : Z).

Record boot_file := mk_boot_file { b_data : Z; b_size : Z; b_path : list Z; b_source : boot_file_set }.

Definition valid_view (data size : Z) : bool :=
  negb (data =? 0) && (size <=? 2147483647) && (data <=? UINTPTR_MAX - size).

(** the check of every module; true is success *)
Fixpoint modules_valid (ms : list boot_module) : res bool :=
  match ms with
  | [] => Ok true
  | m :: ms =>
      if negb (valid_view (m_address m) (m_size m)) then Ok false
      else
        let! n := boot_file_normalize (m_path m) in
        match n with None => Ok false | Some _ => modules_valid ms end
  end.

Definition boot_files_from_modules (modules : option (list boot_module)) : res (option boot_file_set) :=
  match modules with
  | None => Ok None
  | Some ms =>
      let! ok := modules_valid ms in
      if (ok : bool) then Ok (Some (BOOT_FILES_MODULES modules)) else Ok None
  end.

(** the octal masks 0170000, 0040000 and 0100000 *)
Definition is_dir (mode : Z) : bool := Z.land mode 61440 =? 16384.
Definition is_reg (mode : Z) : bool := Z.land mode 61440 =? 32768.

Fixpoint cpio_valid (fuel : nat) (r : cpio_reader) : res bool :=
  match fuel with
  | O => Fault
  | S fuel =>
      let! (ret, r, e) := cpio_reader_next r in
      match e with
      | None => Ok (ret =? 0)
      | Some e =>
          if is_dir (e_mode e) then cpio_valid fuel r
          else if negb (is_reg (e_mode e)) then Ok false
          else
            let! n := boot_file_normalize (Some (e_name e)) in
            match n with None => Ok false | Some _ => cpio_valid fuel r end
      end
  end.

(** one step per header is enough for an archive of [size] bytes *)
Definition archive_fuel (size : Z) : nat := S (Z.to_nat (size / CPIO_HDR_LEN)).

Definition boot_files_from_cpio (data : Z) (bytes : list Z) (size : Z) : res (option boot_file_set) :=
  if negb (valid_view data size) then Ok None
  else
    let! r := cpio_reader_init data bytes size in
    match r with
    | None => Ok None
    | Some r =>
        let! ok := cpio_valid (archive_fuel size) r in
        if (ok : bool) then Ok (Some (BOOT_FILES_CPIO data bytes size)) else Ok None
    end.

(** ** Lookup *)

(** a scan ends with the code -2 ([None]) or with the match found, if any *)
Fixpoint lookup_modules (wanted : list Z) (ms : list boot_module) (found : option (Z * Z))
    : res (option (option (Z * Z))) :=
  match ms with
  | [] => Ok (Some found)
  | m :: ms =>
      let! n := boot_file_normalize (m_path m) in
      match n with
      | None => Ok None
      | Some n =>
          if negb (bool_decide (wanted = n)) then lookup_modules wanted ms found
          else match found with
               | Some _ => Ok None
               | None =>
                   if negb (valid_view (m_address m) (m_size m)) then Ok None
                   else lookup_modules wanted ms (Some (m_address m, m_size m))
               end
      end
  end.

Fixpoint lookup_cpio (fuel : nat) (data : Z) (wanted : list Z) (r : cpio_reader) (found : option (Z * Z))
    : res (option (option (Z * Z))) :=
  match fuel with
  | O => Fault
  | S fuel =>
      let! (ret, r, e) := cpio_reader_next r in
      match e with
      | None => if ret =? 0 then Ok (Some found) else Ok None
      | Some e =>
          if is_dir (e_mode e) then lookup_cpio fuel data wanted r found
          else if negb (is_reg (e_mode e)) then Ok None
          else
            let! n := boot_file_normalize (Some (e_name e)) in
            match n with
            | None => Ok None
            | Some n =>
                if negb (bool_decide (wanted = n)) then lookup_cpio fuel data wanted r found
                else match found with
                     | Some _ => Ok None
                     | None => lookup_cpio fuel data wanted r (Some (data + e_data e, e_size e))
                     end
            end
      end
  end.

Definition scan_set (set : boot_file_set) (wanted : list Z) : res (option (option (Z * Z))) :=
  match set with
  | BOOT_FILES_MODULES None => Ok None
  | BOOT_FILES_MODULES (Some ms) => lookup_modules wanted ms None
  | BOOT_FILES_CPIO data bytes size =>
      let! r := cpio_reader_init data bytes size in
      match r with
      | None => Ok None
      | Some r => lookup_cpio (archive_fuel size) data wanted r None
      end
  end.

Definition boot_file_lookup (set : boot_file_set) (path : option (list Z)) : res (Z * option boot_file) :=
  let! wanted := boot_file_normalize path in
  match wanted with
  | None => Ok (-2, None)
  | Some wanted =>
      let! found := scan_set set wanted in
      match found with
      | None => Ok (-2, None)
      | Some None => Ok (-1, None)
      | Some (Some (d, n)) => Ok (0, Some (mk_boot_file d n wanted set))
      end
  end.

Definition boot_file_lookup_in (set : boot_file_set) (directory name : option (list Z))
    : res (Z * option boot_file) :=
  match name, directory with
  | Some name, Some directory =>
      if existsb (fun c => c =? SLASH) name then boot_file_lookup set (Some name)
      else if BOOT_FILE_PATH_MAX <? zlen directory + zlen name + 2 then Ok (-2, None)
      else boot_file_lookup set (Some (directory ++ [SLASH] ++ name))
  | _, _ => Ok (-2, None)
  end.

(** ** What a path means *)

(** the components of a path *)
Fixpoint split_path (p : list Z) : list (list Z) :=
  match p with
  | [] => [[]]
  | c :: q =>
      if c =? SLASH then [] :: split_path q
      else match split_path q with x :: xs => (c :: x) :: xs | [] => [[c]] end
  end.

Definition meaningful (c : list Z) : bool := negb (bool_decide (c = []) || bool_decide (c = [DOT])).
Definition names (p : list Z) : list (list Z) := List.filter meaningful (split_path p).
Definition join (cs : list (list Z)) : list Z := concat (map (fun c => SLASH :: c) cs).
Definition legal (c : list Z) : bool := negb (bool_decide (COLON ∈ c) || bool_decide (c = [DOT; DOT])).

(** the absolute path made of the meaningful components, when they are legal,
    exist and fit with the terminator in 256 bytes *)
Definition normal (p : list Z) : option (list Z) :=
  if forallb legal (names p) && negb (bool_decide (names p = [])) && (zlen (join (names p)) <? 256)
  then Some (join (names p)) else None.

(** ** Normalisation *)

Definition plain (c : list Z) : Prop := SLASH ∉ c.

Lemma split_plain c p : plain c ->
  split_path (c ++ p) = match split_path p with x :: xs => (c ++ x) :: xs | [] => [c] end.
Proof.
  unfold plain. induction c as [| b c IH]; intros H; simpl.
  - destruct p as [| d p]; simpl; [done |]. destruct (d =? SLASH); [done |]. by destruct (split_path p).
  - apply not_elem_of_cons in H as [Hb Hc]. rewrite (proj2 (Z.eqb_neq b SLASH)) by done.
    rewrite IH by done. by destruct (split_path p).
Qed.

Lemma names_slash p : names (SLASH :: p) = names p.
Proof. done. Qed.

Lemma names_skip p : names (skip_slashes p) = names p.
Proof.
  induction p as [| c p IH]; [done |]. simpl. destruct (Z.eqb_spec c SLASH) as [-> |]; [| done]. exact IH.
Qed.

Lemma skip_slashes_length p : (length (skip_slashes p) <= length p)%nat.
Proof. induction p as [| c p IH]; simpl; [done |]. destruct (c =? SLASH); simpl; lia. Qed.

Lemma component_some p c r : component p = Some (c, r) ->
  p = c ++ r /\ plain c /\ (COLON ∉ c) /\ (r = [] \/ exists q, r = SLASH :: q).
Proof.
  revert c r. induction p as [| b p IH]; intros c r; simpl.
  - intros [= <- <-]. repeat split; [apply not_elem_of_nil.. | by left].
  - destruct (Z.eqb_spec b SLASH) as [-> |]; [intros [= <- <-]; repeat split; [apply not_elem_of_nil.. | eauto] |].
    destruct (Z.eqb_spec b COLON); [done |]. destruct (component p) as [[l s] |]; [| done].
    intros [= <- <-]. destruct (IH l s eq_refl) as (-> & ? & ? & ?). unfold plain in *.
    repeat split; [by apply not_elem_of_cons.. | done].
Qed.

Lemma component_none p : component p = None -> exists c q, p = c ++ COLON :: q /\ plain c.
Proof.
  induction p as [| b p IH]; simpl; [done |].
  destruct (Z.eqb_spec b SLASH); [done |]. destruct (Z.eqb_spec b COLON) as [-> |].
  - intros _. exists [], p. split; [done | apply not_elem_of_nil].
  - destruct (component p) as [[l s] |]; [done |]. intros _.
    destruct IH as (c & q & -> & Hc); [done |]. exists (b :: c), q.
    split; [done | by apply not_elem_of_cons].
Qed.

Lemma names_component c r : plain c -> r = [] \/ (exists q, r = SLASH :: q) ->
  names (c ++ r) = List.filter meaningful [c] ++ names r.
Proof.
  intros Hc [-> | [q ->]]; unfold names; rewrite split_plain by done.
  - simpl. rewrite app_nil_r. by destruct (meaningful c).
  - change (split_path (SLASH :: q)) with ([] :: split_path q). simpl.
    rewrite app_nil_r. by destruct (meaningful c).
Qed.

Lemma names_colon c q : plain c -> forallb legal (names (c ++ COLON :: q)) = false.
Proof.
  intros Hc. unfold names. rewrite split_plain by done.
  change (split_path (COLON :: q)) with
    (match split_path q with x :: xs => (COLON :: x) :: xs | [] => [[COLON]] end).
  assert (forall x, meaningful (c ++ COLON :: x) = true /\ legal (c ++ COLON :: x) = false) as H.
  { intros x. unfold meaningful, legal. split.
    - rewrite !bool_decide_eq_false_2; [done | by destruct c as [| ? [|]] | by destruct c].
    - rewrite bool_decide_eq_true_2; [done | lmem]. }
  destruct (split_path q) as [| x xs]; simpl; by rewrite (proj1 (H _)); simpl; rewrite (proj2 (H _)).
Qed.

Lemma join_app cs ds : join (cs ++ ds) = join cs ++ join ds.
Proof. unfold join. by rewrite map_app, concat_app. Qed.

(** what is left to do from a buffer holding [out] *)
Definition finish (out : list Z) (cs : list (list Z)) : option (list Z) :=
  if forallb legal cs && negb (bool_decide (out ++ join cs = [])) && (zlen (out ++ join cs) <? 256)
  then Some (out ++ join cs) else None.

Lemma put_ok out l : zlen out + zlen l <= 256 -> put out l = Ok (out ++ l).
Proof. intros H. unfold put, BOOT_FILE_PATH_MAX. by rewrite (proj2 (Z.ltb_ge _ _)). Qed.

Lemma finish_illegal out c cs : legal c = false -> finish out (c :: cs) = None.
Proof. intros H. unfold finish. simpl. by rewrite H. Qed.

Lemma finish_long out c cs : 255 <= zlen out + zlen c -> finish out (c :: cs) = None.
Proof.
  intros H. unfold finish. change (join (c :: cs)) with ((SLASH :: c) ++ join cs).
  rewrite !zlen_app. change (zlen (SLASH :: c)) with (zlen ([SLASH] ++ c)). rewrite zlen_app.
  change (zlen [SLASH]) with 1. pose proof (zlen_nonneg (join cs)).
  rewrite (proj2 (Z.ltb_ge _ 256)) by lia. by rewrite andb_false_r.
Qed.

Lemma finish_cons out c cs : legal c = true -> finish out (c :: cs) = finish ((out ++ [SLASH]) ++ c) cs.
Proof.
  intros H. unfold finish. simpl forallb. rewrite H.
  change (join (c :: cs)) with ([SLASH] ++ c ++ join cs). by rewrite !app_assoc.
Qed.

Lemma normalize_loop_ok fuel p out : (length p < fuel)%nat -> zlen out <= 255 ->
  normalize_loop fuel p out = Ok (finish out (names p)).
Proof.
  revert p out. induction fuel as [| fuel IH]; intros p out Hf Ho; [lia |].
  simpl. destruct p as [| b p].
  { rewrite put_ok by (change (zlen [0]) with 1; lia). simpl. unfold finish. simpl.
    rewrite app_nil_r, (proj2 (Z.ltb_lt _ 256)) by lia. rewrite andb_true_r. by destruct out. }
  set (q := skip_slashes (b :: p)) in *. rewrite <- (names_skip (b :: p)). fold q.
  assert (Hq : (length q <= length (b :: p))%nat) by apply skip_slashes_length.
  destruct (component q) as [[c r] |] eqn:C.
  2:{ apply component_none in C as (c & t & -> & Hc). unfold finish. by rewrite names_colon. }
  apply component_some in C as (Eq & Hc & Hcol & Hr).
  rewrite Eq, names_component by done. rewrite Eq, length_app in Hq.
  assert (Hlt : (length r < fuel)%nat).
  { simpl in Hf, Hq. destruct c; [| simpl in Hq; lia]. destruct Hr as [-> | [s ->]]; [simpl; lia |].
    exfalso. assert (forall t u, skip_slashes t <> SLASH :: u) as N; [| by apply (N (b :: p) s)].
    clear. induction t as [| d t IH]; intros u; simpl; [done |].
    destruct (Z.eqb_spec d SLASH); [apply IH | congruence]. }
  simpl. destruct (meaningful c) eqn:M; unfold meaningful in M.
  2:{ apply negb_false_iff in M. rewrite M. by apply IH. }
  apply negb_true_iff in M. rewrite M. cbn [app]. clear M. case_bool_decide as D.
  { rewrite finish_illegal; [done |]. unfold legal. by rewrite (bool_decide_eq_true_2 _ D), orb_true_r. }
  assert (L : legal c = true) by (unfold legal; by rewrite !bool_decide_eq_false_2).
  pose proof (zlen_nonneg out). unfold BOOT_FILE_PATH_MAX.
  rewrite u64_small by (red; lia). destruct (Z.leb_spec (256 - zlen out - 1) (zlen c)).
  { by rewrite finish_long by lia. }
  rewrite put_ok by (change (zlen [SLASH]) with 1; lia). simpl.
  rewrite put_ok by (rewrite zlen_app; change (zlen [SLASH]) with 1; lia). simpl.
  rewrite finish_cons by done. apply IH; [done |].
  rewrite !zlen_app. change (zlen [SLASH]) with 1. lia.
Qed.

Lemma normalize_normal p : boot_file_normalize (Some p) = Ok (normal p).
Proof.
  unfold boot_file_normalize. rewrite normalize_loop_ok; [| lia | by vm_compute].
  f_equal. unfold finish, normal. simpl. replace (bool_decide (join (names p) = []))
    with (bool_decide (names p = [])); [done |].
  apply bool_decide_ext. split; [by intros -> |]. by destruct (names p).
Qed.

#[local] Arguments boot_file_normalize : simpl never.

Lemma split_path_plain p : Forall plain (split_path p).
Proof.
  induction p as [| c p IH]; simpl; [repeat constructor; apply not_elem_of_nil |].
  destruct (Z.eqb_spec c SLASH); [constructor; [apply not_elem_of_nil | done] |].
  destruct (split_path p) as [| x xs]; [constructor; [| done]; by apply not_elem_of_cons; split; [| apply not_elem_of_nil] |].
  apply Forall_cons in IH as [Hx Hxs]. constructor; [by apply not_elem_of_cons | done].
Qed.

Lemma names_join cs : Forall plain cs -> forallb meaningful cs = true -> names (join cs) = cs.
Proof.
  induction cs as [| c cs IH]; intros HP HM; [done |].
  apply Forall_cons in HP as [Hc HP]. simpl in HM. apply andb_true_iff in HM as [Mc HM].
  change (join (c :: cs)) with (SLASH :: (c ++ join cs)). rewrite names_slash.
  rewrite names_component; [| done | destruct cs; [by left | right; by eexists]].
  rewrite IH by done. simpl. by rewrite Mc.
Qed.

Lemma names_canonical p : names (join (names p)) = names p.
Proof.
  apply names_join.
  - apply Forall_forall. intros c Hc. unfold names in Hc. rewrite list_elem_of_In, List.filter_In in Hc. destruct Hc as [Hc _].
    pose proof (split_path_plain p) as H. rewrite Forall_forall in H. by apply H, list_elem_of_In.
  - apply forallb_forall. intros c Hc. apply List.filter_In in Hc as [_ Hc]. exact Hc.
Qed.

Lemma normal_canonical p n : normal p = Some n -> n = join (names p) /\ normal n = Some n.
Proof.
  unfold normal. destruct (forallb legal (names p) && _ && _) eqn:E; [| done].
  intros [= <-]. rewrite names_canonical, E. done.
Qed.

(** [boot_file_normalize] computes the canonical path: it terminates, never
    writes outside its 256-byte buffer, drops empty and dot components, and
    returns -2 exactly when a remaining component is dot-dot or has a colon,
    none remains, or the result does not fit; two paths with the same remaining
    components get the same result, and a result is its own canonical path. *)
Lemma boot_file_normalize_canonical p q :
  boot_file_normalize (Some p) = Ok (normal p) /\
  boot_file_normalize None = Ok None /\
  (names p = names q -> boot_file_normalize (Some q) = boot_file_normalize (Some p)) /\
  forall n, boot_file_normalize (Some p) = Ok (Some n) ->
    n = join (names p) /\ boot_file_normalize (Some n) = Ok (Some n).
Proof.
  rewrite !normalize_normal. split; [done |]. split; [done |]. split.
  - intros E. unfold normal. by rewrite E.
  - intros n [= H]. rewrite normalize_normal. destruct (normal_canonical p n H) as [? ->]. done.
Qed.

Lemma boot_file_normalize_canonical_witness :
  boot_file_normalize (Some [97; 47; 47; 46; 47; 98]) = Ok (Some [47; 97; 47; 98]) /\
  boot_file_normalize (Some [47; 97; 47; 98]) = boot_file_normalize (Some [97; 47; 47; 46; 47; 98]).
Proof.
  destruct (boot_file_normalize_canonical [97; 47; 47; 46; 47; 98] [47; 97; 47; 98]) as (H & _ & E & _).
  split; [vm_compute; reflexivity | apply E; vm_compute; reflexivity].
Defined.

(** ** Lookup in an accepted set *)

Abbreviation file := (list Z * (Z * Z))%type.

Definition module_file (m : boot_module) : option file :=
  match m_path m with
  | Some p => match normal p with Some n => Some (n, (m_address m, m_size m)) | None => None end
  | None => None
  end.

Definition entry_file (data : Z) (e : cpio_entry) : option file :=
  if is_dir (e_mode e) then None
  else match normal (e_name e) with Some n => Some (n, (data + e_data e, e_size e)) | None => None end.

(** the regular files of a set *)
Definition set_files (set : boot_file_set) : list file :=
  match set with
  | BOOT_FILES_MODULES (Some ms) => omap module_file ms
  | BOOT_FILES_MODULES None => []
  | BOOT_FILES_CPIO data bytes size =>
      match cpio_entries (archive_fuel size) (mk_reader (Some bytes) size 0 false) with
      | Ok (l, _) => omap (entry_file data) l
      | _ => []
      end
  end.

Definition matches (wanted : list Z) (fs : list file) : list (Z * Z) :=
  map snd (List.filter (fun f => bool_decide (wanted = fst f)) fs).

(** exactly one match is a file, none is -1, several are -2 *)
Definition answer (set : boot_file_set) (wanted : list Z) : Z * option boot_file :=
  match matches wanted (set_files set) with
  | [] => (-1, None)
  | [(d, n)] => (0, Some (mk_boot_file d n wanted set))
  | _ => (-2, None)
  end.

(** the scan's accumulator: at most one match *)
Definition tally (found : option (Z * Z)) (l : list (Z * Z)) : option (option (Z * Z)) :=
  match found, l with
  | None, [] => Some None
  | None, [x] => Some (Some x)
  | Some x, [] => Some (Some x)
  | _, _ => None
  end.

Lemma matches_cons wanted n v fs :
  matches wanted ((n, v) :: fs) = if bool_decide (wanted = n) then v :: matches wanted fs else matches wanted fs.
Proof. unfold matches. simpl. by destruct (bool_decide (wanted = n)). Qed.

Lemma tally_cons v l : tally None (v :: l) = tally (Some v) l.
Proof. by destruct l. Qed.

Lemma lookup_modules_ok wanted ms found : modules_valid ms = Ok true ->
  lookup_modules wanted ms found = Ok (tally found (matches wanted (omap module_file ms))).
Proof.
  revert found. induction ms as [| m ms IH]; intros found H; [by destruct found |].
  simpl in H. destruct (valid_view (m_address m) (m_size m)) eqn:V; [simpl in H | done].
  simpl. unfold module_file at 1. destruct (m_path m) as [p |]; [| done].
  rewrite normalize_normal in *. simpl in *. destruct (normal p) as [n |]; [| done].
  rewrite matches_cons. case_bool_decide; cbn [negb]; [| by apply IH].
  destruct found; [done |]. rewrite V. cbn [negb]. rewrite IH, tally_cons by done. done.
Qed.

Lemma lookup_cpio_ok fuel data wanted r found : cpio_valid fuel r = Ok true ->
  exists l, cpio_entries fuel r = Ok (l, 0) /\
    lookup_cpio fuel data wanted r found = Ok (tally found (matches wanted (omap (entry_file data) l))).
Proof.
  revert r found. induction fuel as [| fuel IH]; intros r found H; [done |].
  simpl in *. destruct (cpio_reader_next r) as [[[c r'] [e |]] | |]; try done; cbn [res_bind] in *.
  2:{ injection H as H. apply Z.eqb_eq in H as ->. exists []. split; [done | by destruct found]. }
  destruct (is_dir (e_mode e)) eqn:D.
  { destruct (IH r' found H) as (l & E & L). exists (e :: l). rewrite E. split; [done |].
    rewrite L. simpl. unfold entry_file at 2. by rewrite D. }
  destruct (is_reg (e_mode e)); [cbn [negb] in * | done].
  rewrite normalize_normal in *. cbn [res_bind] in *. destruct (normal (e_name e)) as [n |] eqn:N; [| done].
  assert (F : forall l, omap (entry_file data) (e :: l) =
    (n, (data + e_data e, e_size e)) :: omap (entry_file data) l)
    by (intros l; simpl; unfold entry_file at 1; by rewrite D, N).
  destruct (IH r' found H) as (l & E & L). exists (e :: l). rewrite E. split; [done |].
  rewrite F, matches_cons. case_bool_decide; cbn [negb]; [| exact L].
  destruct found; [done |]. rewrite tally_cons.
  destruct (IH r' (Some (data + e_data e, e_size e)) H) as (l' & E' & L').
  rewrite E in E'. injection E' as <-. exact L'.
Qed.

Lemma cpio_valid_total fuel a r : reader_ok a r -> offset r <= size r ->
  size r - offset r < CPIO_HDR_LEN * Z.of_nat fuel -> exists b, cpio_valid fuel r = Ok b.
Proof.
  revert r. unfold CPIO_HDR_LEN. induction fuel as [| fuel IH]; intros r R HO HF; [lia |].
  simpl. destruct (next_ok a r R) as ([[code r'] [e |]] & -> & R' & Hs); cbn [res_bind]; [| by eexists].
  destruct Hs as (-> & He & Hoff). unfold CPIO_HDR_LEN in Hoff.
  assert (size r' = size r) by (destruct R as (? & -> & _); by destruct R' as (? & -> & _)).
  destruct (IH r') as [b Hb]; [done | lia | lia |].
  destruct (is_dir (e_mode e)); [by eexists |]. destruct (is_reg (e_mode e)); [| by eexists].
  cbn [negb]. rewrite normalize_normal. cbn [res_bind]. destruct (normal (e_name e)); by eexists.
Qed.

(** a set that [boot_files_from_modules] or [boot_files_from_cpio] has built *)
Definition accepted (set : boot_file_set) : Prop :=
  match set with
  | BOOT_FILES_MODULES ms => boot_files_from_modules ms = Ok (Some set)
  | BOOT_FILES_CPIO data bytes size => boot_files_from_cpio data bytes size = Ok (Some set)
  end.

Lemma init_reader data bytes size r :
  cpio_reader_init data bytes size = Ok (Some r) -> r = mk_reader (Some bytes) size 0 false.
Proof.
  unfold cpio_reader_init. split_if; [done |]. intros H. apply res_bind_ok in H as ([|] & _ & H); congruence.
Qed.

Lemma scan_set_ok set wanted : accepted set -> scan_set set wanted = Ok (tally None (matches wanted (set_files set))).
Proof.
  destruct set as [[ms |] | data bytes size]; cbn [accepted scan_set set_files]; [| done |].
  - intros H. apply res_bind_ok in H as (b & Hb & H). destruct b; [by apply lookup_modules_ok | done].
  - unfold boot_files_from_cpio. split_if; [done |]. intros H. apply res_bind_ok in H as (o & Ho & H).
    rewrite Ho. destruct o as [r |]; [cbn [res_bind] | done]. apply init_reader in Ho as ->.
    apply res_bind_ok in H as (b & Hb & H). destruct b; [| done].
    destruct (lookup_cpio_ok _ data wanted _ None Hb) as (l & E1 & ->). by rewrite E1.
Qed.

Lemma lookup_answer set p : accepted set ->
  boot_file_lookup set (Some p) = Ok (match normal p with Some n => answer set n | None => (-2, None) end).
Proof.
  intros A. unfold boot_file_lookup. rewrite normalize_normal. cbn [res_bind].
  destruct (normal p) as [n |]; [| done]. rewrite scan_set_ok by done. cbn [res_bind].
  unfold answer. by destruct (matches n (set_files set)) as [| [d k] [|]].
Qed.

Lemma from_cpio_total data bytes size : size = zlen bytes -> size < 4294967296 ->
  exists o, boot_files_from_cpio data bytes size = Ok o.
Proof.
  intros HS HL. pose proof (zlen_nonneg bytes). unfold boot_files_from_cpio. split_if; [by eexists |].
  assert (exists o, cpio_reader_init data bytes size = Ok o) as [o Ho].
  { unfold cpio_reader_init, CPIO_HDR_LEN. split_if; [by eexists |].
    rewrite !orb_false_iff, Z.ltb_ge in E0. rewrite bytes_eq_inside; [cbn [res_bind]; case_bool_decide; by eexists |].
    split; [lia |]. change (Z.of_nat (length magic)) with 6. unfold zlen in HS. lia. }
  rewrite Ho. cbn [res_bind]. destruct o as [r |]; [| by eexists]. apply init_reader in Ho as ->.
  destruct (cpio_valid_total (archive_fuel size) bytes (mk_reader (Some bytes) size 0 false)) as [b ->];
    [red; simpl; auto with lia | simpl; lia | | destruct b; by eexists].
  simpl. unfold archive_fuel, CPIO_HDR_LEN. zlia.
Qed.

(** an archive is always either accepted or rejected, whatever its bytes;
    in a set that was accepted, looking up a path returns -2 when the path has
    no canonical form, and otherwise 0 with the file when exactly one regular
    file of the set has that canonical path, -1 when none has it and -2 when
    several have it; [boot_file_lookup_in] looks up names without a separator
    below the directory and returns -2 when the combination does not fit. *)
Lemma boot_lookup_unique set p dir data bytes :
  accepted set -> zlen bytes < 4294967296 ->
  (exists o, boot_files_from_cpio data bytes (zlen bytes) = Ok o) /\
  boot_file_lookup set (Some p) = Ok (match normal p with Some n => answer set n | None => (-2, None) end) /\
  boot_file_lookup_in set (Some dir) (Some p) =
    if bool_decide (SLASH ∈ p) then boot_file_lookup set (Some p)
    else Ok (if 256 <? zlen dir + zlen p + 2 then (-2, None)
             else match normal (dir ++ [SLASH] ++ p) with Some n => answer set n | None => (-2, None) end).
Proof.
  intros A HL. split; [by apply from_cpio_total |]. split; [by apply lookup_answer |].
  unfold boot_file_lookup_in. replace (existsb _ p) with (bool_decide (SLASH ∈ p)).
  - case_bool_decide; [done |]. unfold BOOT_FILE_PATH_MAX. split_if; [done |]. by apply lookup_answer.
  - symmetry. destruct (existsb _ p) eqn:E.
    + apply existsb_exists in E as (x & Hx & ->%Z.eqb_eq). symmetry.
      by apply bool_decide_eq_true_2, list_elem_of_In.
    + symmetry. apply bool_decide_eq_false_2. intros H. rewrite <- not_true_iff_false, existsb_exists in E.
      apply E. exists SLASH. by rewrite <- list_elem_of_In, Z.eqb_refl.
Qed.

Definition ex_modules : list boot_module :=
  [mk_module (Some [47; 97]) 4096 16; mk_module (Some [98]) 8192 32; mk_module (Some [46; 47; 98]) 12288 8].

Lemma boot_lookup_unique_witness :
  boot_file_lookup (BOOT_FILES_MODULES (Some ex_modules)) (Some [97]) =
    Ok (0, Some (mk_boot_file 4096 16 [47; 97] (BOOT_FILES_MODULES (Some ex_modules)))) /\
  boot_file_lookup (BOOT_FILES_MODULES (Some ex_modules)) (Some [98]) = Ok (-2, None) /\
  boot_file_lookup (BOOT_FILES_MODULES (Some ex_modules)) (Some [99]) = Ok (-1, None).
Proof.
  assert (accepted (BOOT_FILES_MODULES (Some ex_modules))) as A by (vm_compute; reflexivity).
  assert (zlen [] < 4294967296) as L by (vm_compute; reflexivity).
  split; [| split].
  - rewrite (proj1 (proj2 (boot_lookup_unique _ [97] [] 0 [] A L))). vm_compute. reflexivity.
  - rewrite (proj1 (proj2 (boot_lookup_unique _ [98] [] 0 [] A L))). vm_compute. reflexivity.
  - rewrite (proj1 (proj2 (boot_lookup_unique _ [99] [] 0 [] A L))). vm_compute. reflexivity.
Defined.
