(* ===== verification/BlockDevice.v ===== *)
(** * Boot phases and block devices

    [kernel/boot_phase.c] numbers the stages of the boot; a stage is completed
    once, in order, with interrupts off, or the kernel panics.
    [kernel/block_device.c] is the table of block devices, in which the device
    registered last serves the reads.  A device is the function its driver
    registers; it sees the sector, the buffer and the number of sectors, and
    returns what it answers and what the buffer holds then. *)

From stdpp Require Import base list.
From S2P Require Import Prelude Bytes.

(** ** Boot phases *)

Definition BOOT_PHASE_EARLY : Z := 0.
Definition BOOT_PHASE_MEMORY_READY : Z := 1.
Definition BOOT_PHASE_BOOTSTRAP_TESTS_DONE : Z := 2.
Definition BOOT_PHASE_DEVICES_READY : Z := 3.
Definition BOOT_PHASE_RUNTIME_READY : Z := 4.
Definition BOOT_PHASE_SMP_READY : Z := 5.
Definition BOOT_PHASE_SERVICES_READY : Z := 6.

Definition boot_phase_require (expected cur : Z) : res unit := if negb (cur =? expected) then Panic else Ok tt.

(** [irq]: interrupts are enabled on this CPU *)
Definition boot_phase_complete (irq : bool) (phase cur : Z) : res Z :=
  if (phase <=? BOOT_PHASE_EARLY) || (BOOT_PHASE_SERVICES_READY <? phase) then Panic
  else
    let! _ := boot_phase_require (phase - 1) cur in
    if irq then Panic else Ok phase.

(** a waiting CPU loads the phase until it is reached; [loads] are the values
    it sees, the result how many are left when it goes on *)
Fixpoint boot_phase_wait_for (phase : Z) (loads : list Z) : option nat :=
  match loads with
  | [] => None
  | c :: loads => if c <? phase then boot_phase_wait_for phase loads else Some (length loads)
  end.

(** the phases the boot CPU completes, one call after another *)
Fixpoint boot (calls : list (bool * Z)) (cur : Z) : res Z :=
  match calls with
  | [] => Ok cur
  | (irq, phase) :: calls => let! cur := boot_phase_complete irq phase cur in boot calls cur
  end.

(** the calls that do not panic complete the next phases, each once *)
Lemma boot_in_order calls cur r : 0 <= cur <= BOOT_PHASE_SERVICES_READY ->
  boot calls cur = Ok r <->
  calls = (fun k => (false, k)) <$> seqZ (cur + 1) (r - cur) /\ cur <= r <= BOOT_PHASE_SERVICES_READY.
Proof.
  unfold BOOT_PHASE_SERVICES_READY. revert cur. induction calls as [| [irq p] calls IH]; intros cur Hc; cbn [boot].
  { split; [intros [= ->]; rewrite Z.sub_diag; split; [done | lia] |]. intros [E ?]. symmetry in E.
    apply fmap_nil_inv in E. destruct (decide (r = cur)) as [-> | Hne]; [done |].
    rewrite seqZ_cons in E by lia. done. }
  unfold boot_phase_complete, boot_phase_require, BOOT_PHASE_EARLY, BOOT_PHASE_SERVICES_READY.
  destruct (decide (p = cur + 1 /\ p <= 6 /\ irq = false)) as [(-> & H6 & ->) | Hn].
  - replace (_ || _) with false by (symmetry; zbool; simpl; lia). replace (cur + 1 - 1) with cur by lia.
    rewrite Z.eqb_refl. cbn [negb res_bind]. rewrite IH by lia. split.
    + intros [-> ?]. split; [| lia]. rewrite (seqZ_cons (cur + 1)) by lia. cbn [fmap list_fmap]. do 3 f_equal; lia.
    + intros [E ?]. destruct (decide (r = cur)) as [-> | Hne]; [by rewrite Z.sub_diag in E |].
      rewrite seqZ_cons in E by lia. cbn [fmap list_fmap] in E. injection E as E. split; [| lia].
      rewrite E. do 2 f_equal; lia.
  - split; [| intros [E ?]; destruct Hn; destruct (decide (r = cur)) as [-> | Hne]; [by rewrite Z.sub_diag in E |];
      rewrite seqZ_cons in E by lia; cbn [fmap list_fmap] in E; injection E as -> -> _; lia].
    intros E. destruct Hn. revert E. zbool; cbn [orb negb res_bind]; try done. destruct irq; [done |]. lia.
Qed.

(** a CPU that waits goes on at the first phase that is far enough *)
Lemma boot_phase_wait_for_ok phase loads n :
  boot_phase_wait_for phase loads = Some n <->
  exists before c after, loads = before ++ c :: after /\ Forall (fun x => x < phase) before /\ phase <= c /\ n = length after.
Proof.
  induction loads as [| x l IH]; cbn [boot_phase_wait_for].
  { split; [done |]. intros ([| ? ?] & ? & ? & ? & _); done. }
  destruct (Z.ltb_spec x phase) as [Hx | Hx].
  - rewrite IH. split.
    + intros (b & c & a & -> & ? & ? & ?). exists (x :: b), c, a. auto.
    + intros (b & c & a & E & HF & Hc & ->). destruct b as [| y b]; injection E as -> ->; [lia |].
      inversion HF. exists b, c, a. auto.
  - split; [intros [= <-]; exists [], x, l; auto |]. intros (b & c & a & E & HF & Hc & ->).
    destruct b as [| y b]; injection E as -> ->; [done |]. inversion HF; lia.
Qed.

(** ** Block devices *)

(** the [read] operation of [struct block_device]: sector, buffer, count *)
Record block_device := mk_dev { dev_read : Z -> list Z -> Z -> Z * list Z }.

Definition MAX_BLOCK_DEVICES : Z := 8.

Record devices := mk_devs { g_devices : list (option block_device); g_dev_count : Z }.

Definition no_devices : devices := mk_devs (replicate 8 None) 0.

Definition block_device_register (dev : option block_device) (d : devices) : Z * devices :=
  if MAX_BLOCK_DEVICES <=? g_dev_count d then (-1, d)
  else (0, mk_devs (<[Z.to_nat (g_dev_count d) := dev]> (g_devices d)) (g_dev_count d + 1)).

Definition block_device_get (index : Z) (d : devices) : option block_device :=
  if (index <? 0) || (g_dev_count d <=? index) then None else default None (g_devices d !! Z.to_nat index).

Definition block_device_count (d : devices) : Z := g_dev_count d.

Definition block_device_reset (phase : Z) (d : devices) : res devices :=
  let! _ := boot_phase_require BOOT_PHASE_MEMORY_READY phase in Ok (mk_devs (g_devices d) 0).

Definition block_read (sector : Z) (buf : list Z) (count : Z) (d : devices) : Z * list Z :=
  match block_device_get (g_dev_count d - 1) d with
  | None => (-1, buf)
  | Some dev => dev_read dev sector buf count
  end.

Definition devices_wf (d : devices) : Prop :=
  length (g_devices d) = 8%nat /\ 0 <= g_dev_count d <= MAX_BLOCK_DEVICES.

(** a registration takes the next index and keeps the others, unless eight
    devices are there already; the device then serves the reads *)
Lemma block_device_register_ok dev d : devices_wf d ->
  let '(r, d') := block_device_register (Some dev) d in
  devices_wf d' /\
  (if g_dev_count d <? 8 then
     r = 0 /\ block_device_count d' = block_device_count d + 1 /\
     (forall i, block_device_get i d' = if i =? g_dev_count d then Some dev else block_device_get i d) /\
     (forall sec buf n, block_read sec buf n d' = dev_read dev sec buf n)
   else r = -1 /\ d' = d).
Proof.
  intros [HL HC]. unfold devices_wf, block_device_register, block_device_count, MAX_BLOCK_DEVICES in *.
  destruct (Z.leb_spec 8 (g_dev_count d)); [split; [auto |]; zbool; [lia | done] |].
  assert (HG : forall i, block_device_get i (mk_devs (<[Z.to_nat (g_dev_count d) := Some dev]> (g_devices d)) (g_dev_count d + 1)) =
    if i =? g_dev_count d then Some dev else block_device_get i d).
  { intros i. unfold block_device_get. cbn [g_devices g_dev_count]. destruct (Z.eqb_spec i (g_dev_count d)) as [-> | Hne].
    - rewrite list_lookup_insert_eq by lia. zbool; simpl; done || lia.
    - zbool; simpl; try done; try lia. rewrite list_lookup_insert_ne by lia. done. }
  cbn [g_devices g_dev_count]. split; [rewrite length_insert; lia |]. zbool; [| lia]. split_and!; [done | done | exact HG |].
  intros sec buf n. unfold block_read. rewrite HG. cbn [g_dev_count]. zbool; [done | lia].
Qed.
