(* ===== verification/Lafs.v ===== *)
(** * The read-only file system LaFS ([kernel/lafs.c])

    The file system keeps one static sector buffer, [g_sec].  An inode is read
    into it and is then used in place: the pointer [raw] of the source is an
    offset into [g_sec] here, so that what a later sector read does to the
    inode is part of the model.  Reads outside a buffer are faults. *)

From stdpp Require Import base list.
From S2P Require Import Prelude Bytes BlockDevice.

Definition LAFS_MAGIC : Z := 0x5346614c.
Definition LAFS_INODE_SIZE : Z := 128.
Definition LAFS_BLOCKS_MAX : Z := 20.
Definition SLASH : Z := 47.
Definition NEWLINE : Z := 10.

(** an entry takes at least five bytes: a sector is searched in this many steps *)
Definition ENTRIES_MAX : nat := 103.

Lemma entries_max : 512 <= 5 * Z.of_nat ENTRIES_MAX.
Proof. done. Qed.

(** the static variables of the file; [dir_sec] is the one of [lafs_readdir] *)
Record lafs := mk_lafs {
  g_inode_count : Z; g_inode_start : Z; g_data_start : Z; g_mounted : bool;
  g_sec : list Z; dir_sec : list Z }.

Definition with_sec (b : list Z) (s : lafs) : lafs :=
  mk_lafs (g_inode_count s) (g_inode_start s) (g_data_start s) (g_mounted s) b (dir_sec s).
Definition with_dir_sec (b : list Z) (s : lafs) : lafs :=
  mk_lafs (g_inode_count s) (g_inode_start s) (g_data_start s) (g_mounted s) (g_sec s) b.

Definition lafs_reset (s : lafs) : lafs := mk_lafs 0 0 0 false (replicate 512 0) (dir_sec s).

Section Operations.
Variable d : devices.

Definition read_sector (sec : Z) (s : lafs) : Z * lafs :=
  let '(n, b) := block_read sec (g_sec s) 1 d in (if n =? 1 then 0 else -1, with_sec b s).

Definition rd32 (p : list Z) (off : Z) : res Z := le 4 p off.

(** the offset of the inode in [g_sec], or none *)
Definition read_inode_raw (ino : Z) (s : lafs) : option Z * lafs :=
  if g_inode_count s <=? ino then (None, s)
  else
    let byte_off := u32 (ino * LAFS_INODE_SIZE) in
    let sec := u32 (g_inode_start s + byte_off / 512) in
    let '(r, s) := read_sector sec s in
    if negb (r =? 0) then (None, s) else (Some (byte_off mod 512), s).

Definition lafs_mount (s : lafs) : res (Z * lafs) :=
  let '(r, s) := read_sector 0 s in
  if negb (r =? 0) then Ok (-1, s)
  else
    let! magic := rd32 (g_sec s) 0 in
    if negb (magic =? LAFS_MAGIC) then Ok (-1, s)
    else
      let! count := rd32 (g_sec s) 5 in
      let! start := rd32 (g_sec s) 9 in
      let! data := rd32 (g_sec s) 13 in
      Ok (0, mk_lafs count start data true (g_sec s) (dir_sec s)).

(** the type byte of the inode at [raw] *)
Definition inode_type (raw : Z) (s : lafs) : res Z := byte_at (g_sec s) raw.

(** the entry called [name] among those from [pos] on in a directory sector *)
Fixpoint scan_block (n : nat) (pos : Z) (name : list Z) (name_len : Z) (sec : list Z) : res (option Z) :=
  if negb (pos + 5 <=? 512) then Ok None
  else
    match n with
    | O => Fault
    | S n =>
      let! head := bytes_at sec pos 4 in
      if forallb (fun b => b =? 0) head then Ok None
      else
        let! entry_ino := rd32 sec pos in
        let! entry_nlen := byte_at sec (pos + 4) in
        if (entry_nlen =? 0) || (512 <? pos + 5 + entry_nlen) then Ok None
        else
          let! entry_name := bytes_at sec (pos + 5) entry_nlen in
          if (entry_nlen =? name_len) && bool_decide (entry_name = take (Z.to_nat name_len) name) then Ok (Some entry_ino)
          else scan_block n (pos + (5 + entry_nlen)) name name_len sec
    end.

(** the directory is searched block by block *)
Fixpoint dir_blocks (n : nat) (off dir_size raw : Z) (name : list Z) (name_len : Z) (s : lafs) : res (Z * lafs) :=
  if dir_size <=? off then Ok (-1, s)
  else
    match n with
    | O => Fault
    | S n =>
      let blk_idx := off / 512 in
      if LAFS_BLOCKS_MAX <=? blk_idx then Ok (-1, s)
      else
        let! blk_sec := rd32 (g_sec s) (raw + (37 + blk_idx * 4)) in
        if blk_sec =? 0 then Ok (-1, s)
        else
          let '(r, s) := read_sector blk_sec s in
          if negb (r =? 0) then Ok (-1, s)
          else
            let! found := scan_block ENTRIES_MAX (off mod 512) name name_len (g_sec s) in
            match found with
            | Some entry_ino => Ok (i32 entry_ino, s)
            | None => dir_blocks n (u32 (off + (512 - off mod 512))) dir_size raw name name_len s
            end
    end.

Definition dir_lookup (dir_ino : Z) (name : list Z) (name_len : Z) (s : lafs) : res (Z * lafs) :=
  match read_inode_raw dir_ino s with
  | (None, s) => Ok (-1, s)
  | (Some raw, s) =>
    let! type := inode_type raw s in
    if negb (type =? 2) then Ok (-1, s)
    else
      let! dir_size := rd32 (g_sec s) (raw + 33) in
      if dir_size =? 0 then Ok (-1, s) else dir_blocks 21 0 dir_size raw name name_len s
  end.

(** the characters up to the next slash, and the rest *)
Fixpoint span_name (p : list Z) : list Z * list Z :=
  match p with
  | [] => ([], [])
  | c :: q => if c =? SLASH then ([], p) else let '(name, r) := span_name q in (c :: name, r)
  end.

(** [p]: the characters of the path that are left before its terminator *)
Fixpoint walk_path (n : nat) (p : list Z) (ino : Z) (s : lafs) : res (Z * lafs) :=
  match p with
  | [] => Ok (i32 ino, s)
  | _ :: _ =>
    match n with
    | O => Fault
    | S n =>
      let '(start, p) := span_name p in
      let len := u32 (zlen start) in
      if len =? 0 then walk_path n (match p with [] => [] | _ :: p => p end) ino s
      else
        let! (next, s) := dir_lookup ino start len s in
        if next <? 0 then Ok (-1, s)
        else walk_path n (match p with c :: q => if c =? SLASH then q else p | [] => [] end) (u32 next) s
    end
  end.

(** [None]: a null pointer *)
Definition lafs_open (path : option (list Z)) (s : lafs) : res (Z * lafs) :=
  if negb (g_mounted s) then Ok (-1, s)
  else
    match path with
    | Some (c :: p) => if negb (c =? SLASH) then Ok (-1, s) else walk_path (length p) p 0 s
    | _ => Ok (-1, s)
    end.

Fixpoint read_blocks (n : nat) (raw : Z) (buf : list Z) (offset len total : Z) (s : lafs) : res (Z * (list Z * lafs)) :=
  if negb (total <? len) then Ok (i32 total, (buf, s))
  else
    match n with
    | O => Fault
    | S n =>
      let blk_idx := offset / 512 in
      let blk_off := offset mod 512 in
      if LAFS_BLOCKS_MAX <=? blk_idx then Ok (i32 total, (buf, s))
      else
        let! blk_sec := rd32 (g_sec s) (raw + (37 + blk_idx * 4)) in
        if blk_sec =? 0 then Ok (i32 total, (buf, s))
        else
          let '(r, s) := read_sector blk_sec s in
          if negb (r =? 0) then Ok (if 0 <? total then i32 total else -1, (buf, s))
          else
            let chunk := if len - total <? 512 - blk_off then len - total else 512 - blk_off in
            let! data := bytes_at (g_sec s) blk_off chunk in
            let! buf := write_bytes buf total data in
            read_blocks n raw buf (u32 (offset + chunk)) len (total + chunk) s
    end.

(** [buf]: the object the caller's pointer designates *)
Definition lafs_read (ino : Z) (buf : list Z) (offset len : Z) (s : lafs) : res (Z * (list Z * lafs)) :=
  if negb (g_mounted s) then Ok (-1, (buf, s))
  else if len =? 0 then Ok (0, (buf, s))
  else
    match read_inode_raw (u32 ino) s with
    | (None, s) => Ok (-1, (buf, s))
    | (Some raw, s) =>
      let! type := inode_type raw s in
      if negb (type =? 1) then Ok (-1, (buf, s))
      else
        let! fsize := rd32 (g_sec s) (raw + 33) in
        if fsize <=? offset then Ok (0, (buf, s))
        else
          let len := if fsize <? u32 (offset + len) then fsize - offset else len in
          read_blocks 21 raw buf offset len 0 s
    end.

(** the characters of the name of the inode at [raw] *)
Fixpoint name_length (n : nat) (raw name_len : Z) (sec : list Z) : res Z :=
  match n with
  | O => Ok name_len
  | S n =>
    let! c := byte_at sec (raw + (1 + name_len)) in
    if c =? 0 then Ok name_len else name_length n raw (name_len + 1) sec
  end.

(** the name of the inode at [raw] and a newline, appended to the listing *)
Definition put_name (raw written : Z) (buf : list Z) (bufsz : Z) (s : lafs) : res (Z * list Z) :=
  let! name_len := name_length 32 raw 0 (g_sec s) in
  if negb (0 <? name_len) then Ok (written, buf)
  else
    let copy := if bufsz <=? u32 (written + name_len + 1) then u32 (bufsz - written - 1) else name_len in
    let! name := bytes_at (g_sec s) (raw + 1) copy in
    let! buf := write_bytes buf written name in
    let written := u32 (written + copy) in
    let! buf := write_bytes buf written [NEWLINE] in
    Ok (u32 (written + 1), buf).

Fixpoint readdir_block (n : nat) (pos written : Z) (buf : list Z) (bufsz : Z) (s : lafs) : res (Z * (list Z * lafs)) :=
  if negb ((pos + 5 <=? 512) && (u32 (written + 1) <? bufsz)) then Ok (written, (buf, s))
  else
    match n with
    | O => Fault
    | S n =>
      let! head := bytes_at (dir_sec s) pos 4 in
      if forallb (fun b => b =? 0) head then Ok (written, (buf, s))
      else
        let! entry_nlen := byte_at (dir_sec s) (pos + 4) in
        if (entry_nlen =? 0) || (512 <? pos + 5 + entry_nlen) then Ok (written, (buf, s))
        else
          let! entry_ino := rd32 (dir_sec s) pos in
          let '(entry_raw, s) := read_inode_raw entry_ino s in
          let! (written, buf) :=
            match entry_raw with
            | None => Ok (written, buf)
            | Some raw =>
              let! type := inode_type raw s in
              if negb (type =? 0) then put_name raw written buf bufsz s else Ok (written, buf)
            end in
          readdir_block n (pos + (5 + entry_nlen)) written buf bufsz s
    end.

Fixpoint readdir_blocks (n : nat) (off dir_size raw written : Z) (buf : list Z) (bufsz : Z) (s : lafs) : res (Z * (list Z * lafs)) :=
  let finish written := let! buf := write_bytes buf written [0] in Ok (i32 written, (buf, s)) in
  if negb ((off <? dir_size) && (u32 (written + 1) <? bufsz)) then finish written
  else
    match n with
    | O => Fault
    | S n =>
      let blk_idx := off / 512 in
      if LAFS_BLOCKS_MAX <=? blk_idx then finish written
      else
        let! blk_sec := rd32 (g_sec s) (raw + (37 + blk_idx * 4)) in
        if blk_sec =? 0 then finish written
        else
          let '(r, s) := read_sector blk_sec s in
          if negb (r =? 0) then Ok (if 0 <? written then i32 written else -1, (buf, s))
          else
            let s := with_dir_sec (g_sec s) s in
            let! (written, (buf, s)) := readdir_block ENTRIES_MAX (off mod 512) written buf bufsz s in
            readdir_blocks n (u32 (off + (512 - off mod 512))) dir_size raw written buf bufsz s
    end.

Definition lafs_readdir (ino : Z) (buf : list Z) (bufsz : Z) (s : lafs) : res (Z * (list Z * lafs)) :=
  if negb (g_mounted s) || (bufsz =? 0) then Ok (-1, (buf, s))
  else
    match read_inode_raw (u32 ino) s with
    | (None, s) => Ok (-1, (buf, s))
    | (Some raw, s) =>
      let! type := inode_type raw s in
      if negb (type =? 2) then Ok (-1, (buf, s))
      else
        let! dir_size := rd32 (g_sec s) (raw + 33) in
        readdir_blocks 21 0 dir_size raw 0 buf bufsz s
    end.

Definition lafs_size (ino : Z) (s : lafs) : res (Z * lafs) :=
  match read_inode_raw (u32 ino) s with
  | (None, s) => Ok (0, s)
  | (Some raw, s) =>
    let! type := inode_type raw s in
    if negb (type =? 1) then Ok (0, s) else let! size := rd32 (g_sec s) (raw + 33) in Ok (size, s)
  end.

End Operations.

(** ** Memory safety, whatever the disk holds *)

Definition sector (b : list Z) : Prop := length b = 512%nat /\ bytes b.

(** a driver writes the one sector it is asked for, or less *)
Definition driver_ok (d : devices) : Prop :=
  forall sec buf, sector buf -> sector (block_read sec buf 1 d).2.

Definition lafs_ok (s : lafs) : Prop := sector (g_sec s) /\ sector (dir_sec s).

(** what the file system knows of the disk *)
Definition same_fs (s s' : lafs) : Prop :=
  g_inode_count s' = g_inode_count s /\ g_inode_start s' = g_inode_start s /\ g_data_start s' = g_data_start s /\
  g_mounted s' = g_mounted s.

Lemma same_fs_refl s : same_fs s s.
Proof. by unfold same_fs. Qed.

Lemma same_fs_trans s1 s2 s3 : same_fs s1 s2 -> same_fs s2 s3 -> same_fs s1 s3.
Proof. unfold same_fs. intuition congruence. Qed.
#[export] Hint Resolve same_fs_refl : laos.

Lemma rd32_ok b off : sector b -> 0 <= off <= 508 -> exists v, rd32 b off = Ok v /\ is_u32 v.
Proof.
  intros [HL HB] Ho. destruct (le_inside 4 b off) as (v & E & Hv); [done | red; lia |]. exists v. split; [done |].
  red. change (256 ^ Z.of_nat 4) with 4294967296 in Hv. done.
Qed.

Lemma byte_ok b off : sector b -> 0 <= off < 512 -> exists v, byte_at b off = Ok v /\ is_u8 v.
Proof.
  intros [HL HB] Ho. destruct (byte_at_inside b off) as (v & E & ->); [red; lia |]. exists v. split; [done |].
  unfold bytes in HB. rewrite Forall_lookup in HB. by eapply HB.
Qed.

Lemma chunk_ok b i n : sector b -> 0 <= i -> 0 <= n -> i + n <= 512 -> bytes_at b i n = Ok (slice b i n) /\ zlen (slice b i n) = n.
Proof.
  intros [HL HB] ? ? ?. assert (inside b i n) by (red; lia). split; [by apply bytes_at_inside | by apply slice_length].
Qed.

Section Safety.
Context (d : devices) (HD : driver_ok d).

Lemma read_sector_safe sec s : lafs_ok s -> exists r s', read_sector d sec s = (r, s') /\ lafs_ok s' /\ same_fs s s' /\
  dir_sec s' = dir_sec s.
Proof.
  intros [HS HR]. unfold read_sector. pose proof (HD sec (g_sec s) HS) as HB.
  destruct (block_read sec (g_sec s) 1 d) as [n b]. eexists _, _. split; [reflexivity |]. by repeat split; try apply HB; try apply HR.
Qed.

Lemma read_inode_safe ino s : lafs_ok s -> exists r s', read_inode_raw d ino s = (r, s') /\ lafs_ok s' /\ same_fs s s' /\
  dir_sec s' = dir_sec s /\ (forall raw, r = Some raw -> 0 <= raw <= 384).
Proof.
  intros HS. unfold read_inode_raw. destruct (_ <=? _); [exists None, s; by auto with laos |].
  destruct (read_sector_safe (u32 (g_inode_start s + u32 (ino * LAFS_INODE_SIZE) / 512)) s HS) as (r & s' & -> & H1 & H2 & H3).
  destruct (negb _); eexists _, s'; (split; [reflexivity |]); split_and!; auto; [done |].
  intros raw [= <-]. unfold u32, LAFS_INODE_SIZE. zlia.
Qed.

Lemma scan_block_safe n pos name k b : sector b -> 0 <= pos -> 512 - pos <= 5 * Z.of_nat n ->
  exists r, scan_block n pos name k b = Ok r /\ forall e, r = Some e -> is_u32 e.
Proof.
  intros HS. revert pos. induction n as [| n IH]; intros pos H0 Hn; cbn [scan_block];
    (destruct (Z.leb_spec (pos + 5) 512); cbn [negb]; [| by exists None]); [lia |].
  destruct (chunk_ok b pos 4) as [-> _]; [done | lia.. |]. cbn [res_bind]. destruct (forallb _ _); [by exists None |].
  destruct (rd32_ok b pos) as (e & -> & He); [done | lia |]. cbn [res_bind].
  destruct (byte_ok b (pos + 4)) as (l & -> & Hl); [done | lia |]. cbn [res_bind]. red in Hl.
  destruct (Z.eqb_spec l 0), (Z.ltb_spec 512 (pos + 5 + l)); cbn [orb]; try by exists None.
  destruct (chunk_ok b (pos + 5) l) as [-> _]; [done | lia.. |]. cbn [res_bind].
  destruct (_ && _); [exists (Some e); split; [done |]; by intros ? [= <-] |]. apply IH; lia.
Qed.

Lemma dir_blocks_safe n off size raw name k s : lafs_ok s -> 0 <= off -> off mod 512 = 0 -> 0 <= raw <= 384 ->
  20 - off / 512 < Z.of_nat n -> off <= 20 * 512 ->
  exists r s', dir_blocks d n off size raw name k s = Ok (r, s') /\ lafs_ok s' /\ same_fs s s'.
Proof.
  revert off s. induction n as [| n IH]; intros off s HS H0 Hm Hr Hn H20; [zlia |]. cbn [dir_blocks].
  destruct (_ <=? off); [eauto with laos |]. unfold LAFS_BLOCKS_MAX.
  destruct (Z.leb_spec 20 (off / 512)); [eauto with laos |].
  destruct (rd32_ok (g_sec s) (raw + (37 + off / 512 * 4))) as (bs & -> & Hb); [apply HS | zlia |]. cbn [res_bind].
  destruct (bs =? 0); [eauto with laos |].
  destruct (read_sector_safe bs s HS) as (r & s' & -> & H1 & H2 & _). destruct (negb _); [eauto with laos |].
  pose proof entries_max as HE. rewrite Hm. destruct (scan_block_safe ENTRIES_MAX 0 name k (g_sec s')) as (f & -> & _); [apply H1 | lia.. |]. cbn [res_bind].
  destruct f; [eauto with laos |]. rewrite u32_small by (red; zlia).
  destruct (IH (off + (512 - 0)) s') as (r' & s2 & E & H3 & H4); [done | zlia.. |].
  exists r', s2. split_and!; [exact E | done | by eapply same_fs_trans].
Qed.

Lemma dir_lookup_safe ino name k s : lafs_ok s -> exists r s', dir_lookup d ino name k s = Ok (r, s') /\ lafs_ok s' /\ same_fs s s'.
Proof.
  intros HS. unfold dir_lookup. destruct (read_inode_safe ino s HS) as ([raw |] & s' & -> & H1 & H2 & _ & HR); [| eauto].
  specialize (HR raw eq_refl). unfold inode_type.
  destruct (byte_ok (g_sec s') raw) as (t & -> & _); [apply H1 | lia |]. cbn [res_bind]. destruct (negb _); [eauto |].
  destruct (rd32_ok (g_sec s') (raw + 33)) as (z & -> & _); [apply H1 | lia |]. cbn [res_bind]. destruct (z =? 0); [eauto |].
  destruct (dir_blocks_safe 21 0 z raw name k s') as (r & s2 & E & H3 & H4); [done | zlia.. |].
  exists r, s2. split_and!; [exact E | done | by eapply same_fs_trans].
Qed.

Lemma span_name_app p : p = (span_name p).1 ++ (span_name p).2.
Proof.
  induction p as [| c p IH]; [done |]. cbn [span_name]. destruct (c =? SLASH); [done |].
  destruct (span_name p). simpl in *. by f_equal.
Qed.

(** what is left after a name is empty or starts with a slash *)
Lemma span_name_rest p : match (span_name p).2 with [] => True | c :: _ => c = SLASH end.
Proof.
  induction p as [| c p IH]; [done |]. cbn [span_name]. destruct (Z.eqb_spec c SLASH); [done |].
  by destruct (span_name p).
Qed.

Lemma walk_path_safe n p ino s : lafs_ok s -> (length p <= n)%nat ->
  exists r s', walk_path d n p ino s = Ok (r, s') /\ lafs_ok s' /\ same_fs s s'.
Proof.
  revert p ino s. induction n as [| n IH]; intros [| c p] ino s HS Hn; cbn [walk_path]; eauto with laos; [simpl in Hn; lia |].
  pose proof (span_name_app (c :: p)) as HA. pose proof (span_name_rest (c :: p)) as HR.
  destruct (span_name (c :: p)) as [start q]. cbn [fst snd] in HA, HR.
  assert (HL : (length start + length q = S (length p))%nat) by (rewrite <- length_app, <- HA; done). simpl in Hn.
  destruct (_ =? 0) eqn:E0.
  - apply IH; [done |]. destruct q; simpl in *; lia.
  - destruct (dir_lookup_safe ino start (u32 (zlen start)) s HS) as (r & s' & -> & H1 & H2). cbn [res_bind].
    destruct (r <? 0); [eauto |].
    assert (start <> []) by (intros ->; done).
    destruct (IH (match q with [] => [] | c :: q' => if c =? SLASH then q' else q end) (u32 r) s') as (r' & s2 & E & H3 & H4);
      [done | | exists r', s2; split_and!; [exact E | done | by eapply same_fs_trans]].
    destruct start; [done |]. destruct q as [| c' q]; simpl in *; [lia |]. destruct (c' =? SLASH); simpl; lia.
Qed.

(** the result of a read of at most [len] bytes after the first [total]: the
    buffer changes only where data arrived *)
Definition read_result (total len : Z) (buf : list Z) (s : lafs) (m : res (Z * (list Z * lafs))) : Prop :=
  exists r buf' s', m = Ok (r, (buf', s')) /\ lafs_ok s' /\ same_fs s s' /\ zlen buf' = zlen buf /\
    (r = -1 /\ total = 0 \/ total <= r <= len) /\
    (forall k, k < total \/ Z.max r total <= k -> byte_at buf' k = byte_at buf k).

Lemma read_result_here r total len buf s s' : lafs_ok s' -> same_fs s s' -> r = -1 /\ total = 0 \/ total <= r <= len ->
  read_result total len buf s (Ok (r, (buf, s'))).
Proof. intros. exists r, buf, s'. by split_and!. Qed.

Lemma read_blocks_safe n raw buf offset len total s : lafs_ok s -> 0 <= raw <= 384 -> is_u32 offset -> is_u32 len ->
  0 <= total <= len -> len <= zlen buf -> total = 0 \/ total <= offset <= 10240 ->
  total = len \/ 20 - offset / 512 < Z.of_nat n /\ (0 < n)%nat ->
  read_result total len buf s (read_blocks d n raw buf offset len total s).
Proof.
  revert buf offset total s. induction n as [| n IH]; intros buf offset total s HS Hr Ho Hl Ht Hb Hto Hn; cbn [read_blocks];
    (assert (HI : i32 total = total \/ total = len /\ 10240 < total) by (destruct (decide (total <= 10240)); [left; apply i32_small; lia | lia]));
    (destruct (Z.ltb_spec total len) as [Htl | Htl]; cbn [negb];
      [| apply read_result_here; auto with laos; lia]); [lia |].
  destruct HI as [HI |]; [| lia]. rewrite HI. unfold LAFS_BLOCKS_MAX.
  assert (HT : read_result total len buf s (Ok (total, (buf, s)))) by (apply read_result_here; auto with laos; lia).
  destruct (Z.leb_spec 20 (offset / 512)) as [H20 | H20]; [exact HT |].
  destruct (rd32_ok (g_sec s) (raw + (37 + offset / 512 * 4))) as (bs & -> & Hbs); [apply HS | red in Ho; zlia |]. cbn [res_bind].
  destruct (bs =? 0); [exact HT |].
  destruct (read_sector_safe bs s HS) as (r & s' & -> & H1 & H2 & _). destruct (negb _).
  { destruct (Z.ltb_spec 0 total); apply read_result_here; auto; lia. }
  set (chunk := if len - total <? 512 - offset mod 512 then len - total else 512 - offset mod 512).
  red in Ho. assert (HC : 0 < chunk /\ chunk <= len - total /\ offset mod 512 + chunk <= 512 /\ (chunk = len - total \/ offset mod 512 + chunk = 512))
    by (subst chunk; destruct (Z.ltb_spec (len - total) (512 - offset mod 512)); zlia). clearbody chunk.
  destruct (chunk_ok (g_sec s') (offset mod 512) chunk) as [-> HL]; [apply H1 | zlia.. |]. cbn [res_bind].
  destruct (write_bytes_inside buf total (slice (g_sec s') (offset mod 512) chunk)) as (buf' & E & HLb & _); [rewrite HL; unfold zlen in *; red; lia |].
  rewrite E. cbn [res_bind]. rewrite u32_small by (red; zlia).
  destruct (IH buf' (offset + chunk) (total + chunk) s') as (r' & buf2 & s2 & -> & H3 & H4 & H5 & H6 & H7);
    [done | done | red; zlia | done | lia | lia | zlia | zlia |].
  exists r', buf2, s2. split_and!; [done | done | by eapply same_fs_trans | congruence | lia |].
  intros k Hk. rewrite H7 by lia. eapply byte_elsewhere; [| exact E |]; rewrite HL; [unfold zlen in *; red; lia | lia].
Qed.

Lemma lafs_read_safe ino buf offset len s : lafs_ok s -> is_u32 offset -> is_u32 len -> len <= zlen buf ->
  read_result 0 len buf s (lafs_read d ino buf offset len s).
Proof.
  intros HS Ho Hl Hb. red in Hl. unfold lafs_read. destruct (negb _); [apply read_result_here; auto with laos |].
  destruct (len =? 0); [apply read_result_here; auto with laos; lia |].
  destruct (read_inode_safe (u32 ino) s HS) as ([raw |] & s' & -> & H1 & H2 & _ & HR); [| apply read_result_here; auto].
  specialize (HR raw eq_refl). unfold inode_type.
  destruct (byte_ok (g_sec s') raw) as (t & -> & _); [apply H1 | lia |]. cbn [res_bind].
  destruct (negb _); [apply read_result_here; auto |].
  destruct (rd32_ok (g_sec s') (raw + 33)) as (z & -> & Hz); [apply H1 | lia |]. cbn [res_bind]. red in Hz.
  destruct (Z.leb_spec z offset) as [Hzo | Hzo]; [apply read_result_here; auto; lia |]. red in Ho.
  set (len' := if z <? u32 (offset + len) then z - offset else len).
  assert (HL : 0 <= len' <= len).
  { subst len'. destruct (Z.ltb_spec z (u32 (offset + len))) as [Hc | Hc]; [| lia]. unfold u32 in Hc. zlia. }
  clearbody len'. destruct (read_blocks_safe 21 raw buf offset len' 0 s') as (r & buf' & s2 & E & H3 & H4 & H5 & H6 & H7);
    [done | done | red; lia | red; lia | lia | lia | lia | right; split; [zlia | lia] |].
  exists r, buf', s2. split_and!; [done | done | by eapply same_fs_trans | done | lia | done].
Qed.

Lemma name_length_safe n raw k b : sector b -> 0 <= raw <= 384 -> 0 <= k -> k + Z.of_nat n <= 32 ->
  exists r, name_length n raw k b = Ok r /\ k <= r <= 32.
Proof.
  intros HS Hr. revert k. induction n as [| n IH]; intros k Hk Hn; cbn [name_length]; [exists k; split; [done | lia] |].
  destruct (byte_ok b (raw + (1 + k))) as (c & -> & _); [done | lia |]. cbn [res_bind].
  destruct (c =? 0); [exists k; split; [done | lia] |]. destruct (IH (k + 1)) as (r & -> & ?); [lia.. |]. exists r. split; [done | lia].
Qed.

(** a listing of at most [bufsz] characters: [w'] of them now, nothing changed
    from [bound] on *)
Definition listed (bound w bufsz w' : Z) (buf buf' : list Z) : Prop :=
  w <= w' <= bufsz /\ zlen buf' = zlen buf /\ (forall k, bound <= k -> byte_at buf' k = byte_at buf k).

Lemma listed_here w bufsz buf : w <= bufsz -> listed bufsz w bufsz w buf buf.
Proof. intros. split_and!; [lia | lia | done | done]. Qed.

Lemma listed_trans w bufsz w1 w2 buf buf1 buf2 : listed bufsz w bufsz w1 buf buf1 -> listed bufsz w1 bufsz w2 buf1 buf2 ->
  listed bufsz w bufsz w2 buf buf2.
Proof.
  intros (H1 & H2 & H3) (H4 & H5 & H6). split_and!; [lia | lia | congruence |]. intros k Hk. rewrite H6, H3 by done. done.
Qed.

Section Listing.
Context (bufsz : Z) (Hsz : 0 < bufsz < 2147483648).

Lemma put_name_safe raw w buf s : lafs_ok s -> 0 <= raw <= 384 -> 0 <= w -> w + 1 < bufsz -> bufsz < zlen buf ->
  exists w' buf', put_name raw w buf bufsz s = Ok (w', buf') /\ listed bufsz w bufsz w' buf buf'.
Proof.
  intros [HS _] Hr Hw Hw1 Hb. unfold put_name.
  destruct (name_length_safe 32 raw 0 (g_sec s)) as (l & -> & Hl); [done | lia.. |]. cbn [res_bind].
  destruct (Z.ltb_spec 0 l); cbn [negb]; [| exists w, buf; split; [done | apply listed_here; lia]].
  set (copy := if bufsz <=? u32 (w + l + 1) then u32 (bufsz - w - 1) else l).
  assert (HC : 0 < copy <= l /\ w + copy + 1 <= bufsz).
  { subst copy. rewrite u32_small by (red; lia). destruct (Z.leb_spec bufsz (w + l + 1)); rewrite ?u32_small by (red; lia); lia. }
  clearbody copy. destruct (chunk_ok (g_sec s) (raw + 1) copy) as [-> HL]; [done | lia.. |]. cbn [res_bind].
  destruct (write_bytes_inside buf w (slice (g_sec s) (raw + 1) copy)) as (b1 & E1 & HL1 & _); [rewrite HL; unfold zlen in *; red; lia |].
  rewrite E1. cbn [res_bind]. rewrite (u32_small (w + copy)) by (red; lia).
  destruct (write_bytes_inside b1 (w + copy) [NEWLINE]) as (b2 & E2 & HL2 & _); [unfold zlen in *; simpl; red; lia |].
  rewrite E2. cbn [res_bind]. rewrite u32_small by (red; lia). exists (w + copy + 1), b2. split; [done |].
  split_and!; [lia | lia | congruence |]. intros k Hk.
  rewrite (byte_elsewhere _ _ _ _ k) with (2 := E2); [| unfold zlen in *; simpl; red; lia | unfold zlen; simpl; lia].
  eapply byte_elsewhere; [| exact E1 |]; rewrite HL; [unfold zlen in *; red; lia | lia].
Qed.

Lemma readdir_block_safe n pos w buf s : lafs_ok s -> 0 <= pos -> 512 - pos <= 5 * Z.of_nat n -> 0 <= w <= bufsz -> bufsz < zlen buf ->
  exists w' buf' s', readdir_block d n pos w buf bufsz s = Ok (w', (buf', s')) /\ lafs_ok s' /\ same_fs s s' /\
    listed bufsz w bufsz w' buf buf'.
Proof.
  revert pos w buf s. induction n as [| n IH]; intros pos w buf s HS H0 Hn Hw Hb; cbn [readdir_block];
    (assert (HT : lafs_ok s /\ same_fs s s /\ listed bufsz w bufsz w buf buf) by (split_and!; auto using listed_here with laos; apply listed_here; lia));
    rewrite u32_small by (red; lia);
    (destruct (Z.leb_spec (pos + 5) 512), (Z.ltb_spec (w + 1) bufsz); cbn [negb andb]; eauto); [lia |].
  destruct (chunk_ok (dir_sec s) pos 4) as [-> _]; [apply HS | lia.. |]. cbn [res_bind]. destruct (forallb _ _); [eauto |].
  destruct (byte_ok (dir_sec s) (pos + 4)) as (l & -> & Hl); [apply HS | lia |]. cbn [res_bind]. red in Hl.
  destruct (Z.eqb_spec l 0), (Z.ltb_spec 512 (pos + 5 + l)); cbn [orb]; eauto.
  destruct (rd32_ok (dir_sec s) pos) as (e & -> & _); [apply HS | lia |]. cbn [res_bind].
  destruct (read_inode_safe e s HS) as (q & s1 & -> & HS1 & HF1 & HD1 & HR).
  assert (HP : exists w1 buf1, match q with
    | None => Ok (w, buf)
    | Some raw => let! type := inode_type raw s1 in if negb (type =? 0) then put_name raw w buf bufsz s1 else Ok (w, buf)
    end = Ok (w1, buf1) /\ listed bufsz w bufsz w1 buf buf1).
  { destruct q as [raw |]; [| exists w, buf; split; [done | apply listed_here; lia]]. specialize (HR raw eq_refl). unfold inode_type.
    destruct (byte_ok (g_sec s1) raw) as (t & -> & _); [apply HS1 | lia |]. cbn [res_bind].
    destruct (negb _); [apply put_name_safe; done || lia | exists w, buf; split; [done | apply listed_here; lia]]. }
  destruct HP as (w1 & buf1 & -> & HL). cbn [res_bind]. pose proof HL as (HW & HZ & _).
  destruct (IH (pos + (5 + l)) w1 buf1 s1) as (w2 & buf2 & s2 & E & HS2 & HF2 & HL2); [done | lia.. |].
  exists w2, buf2, s2. split_and!; [done | done | by eapply same_fs_trans | by eapply listed_trans].
Qed.

Lemma readdir_blocks_safe n off size raw w buf s : lafs_ok s -> 0 <= off -> off mod 512 = 0 -> 0 <= raw <= 384 ->
  20 - off / 512 < Z.of_nat n -> off <= 20 * 512 -> 0 <= w <= bufsz -> bufsz < zlen buf ->
  exists r buf' s', readdir_blocks d n off size raw w buf bufsz s = Ok (r, (buf', s')) /\ lafs_ok s' /\ same_fs s s' /\
    listed (bufsz + 1) (-1) bufsz r buf buf'.
Proof.
  revert off w buf s. induction n as [| n IH]; intros off w buf s HS H0 Hm Hr Hn H20 Hw Hb; [zlia |]. cbn [readdir_blocks].
  rewrite u32_small by (red; lia).
  assert (HT : exists r buf' s', (let! b := write_bytes buf w [0] in Ok (i32 w, (b, s))) = Ok (r, (buf', s')) /\
    lafs_ok s' /\ same_fs s s' /\ listed (bufsz + 1) (-1) bufsz r buf buf').
  { assert (HI : inside buf w (zlen [0])) by (unfold zlen in *; simpl; red; lia).
    destruct (write_bytes_inside buf w [0] HI) as (b & E & HL & _). rewrite E, i32_small by lia. exists w, b, s.
    split_and!; [done | done | auto with laos |]. split_and!; [lia | lia | done |]. intros k Hk. eapply byte_elsewhere; [exact HI | exact E | unfold zlen; simpl; lia]. }
  destruct (_ && _); cbn [negb]; [| exact HT]. unfold LAFS_BLOCKS_MAX.
  destruct (Z.leb_spec 20 (off / 512)); [exact HT |].
  destruct (rd32_ok (g_sec s) (raw + (37 + off / 512 * 4))) as (bs & -> & Hbs); [apply HS | zlia |]. cbn [res_bind].
  destruct (bs =? 0); [exact HT |]. clear HT.
  destruct (read_sector_safe bs s HS) as (r & s1 & -> & HS1 & HF1 & _). destruct (negb _).
  { eexists _, buf, s1. split_and!; [done | done | done |].
    destruct (Z.ltb_spec 0 w); rewrite ?i32_small by lia; split_and!; done || lia. }
  pose proof entries_max as HE. rewrite Hm. destruct (readdir_block_safe ENTRIES_MAX 0 w buf (with_dir_sec (g_sec s1) s1)) as (w2 & buf2 & s2 & -> & HS2 & HF2 & HW & HZ & HK);
    [split; apply HS1 | lia.. |]. cbn [res_bind]. rewrite u32_small by (red; zlia).
  destruct (IH (off + (512 - 0)) w2 buf2 s2) as (r3 & buf3 & s3 & E & HS3 & HF3 & HW3 & HZ3 & HK3); [done | zlia.. |].
  exists r3, buf3, s3. split_and!; [exact E | done | |].
  - eapply same_fs_trans; [exact HF1 |]. by eapply same_fs_trans.
  - split_and!; [lia | lia | congruence |]. intros k Hk. rewrite HK3, HK by lia. done.
Qed.

(** [lafs_readdir] writes the buffer and possibly the byte after it *)
Lemma lafs_readdir_safe ino buf s : lafs_ok s -> bufsz < zlen buf ->
  exists r buf' s', lafs_readdir d ino buf bufsz s = Ok (r, (buf', s')) /\ lafs_ok s' /\ same_fs s s' /\
    listed (bufsz + 1) (-1) bufsz r buf buf'.
Proof.
  intros HS Hb. unfold lafs_readdir.
  assert (HT : listed (bufsz + 1) (-1) bufsz (-1) buf buf) by (split_and!; done || lia).
  destruct (_ || _); [eauto 8 with laos |].
  destruct (read_inode_safe (u32 ino) s HS) as ([raw |] & s1 & -> & HS1 & HF1 & _ & HR); [| eauto 8].
  specialize (HR raw eq_refl). unfold inode_type.
  destruct (byte_ok (g_sec s1) raw) as (t & -> & _); [apply HS1 | lia |]. cbn [res_bind]. destruct (negb _); [eauto 8 |].
  destruct (rd32_ok (g_sec s1) (raw + 33)) as (z & -> & _); [apply HS1 | lia |]. cbn [res_bind].
  destruct (readdir_blocks_safe 21 0 z raw 0 buf s1) as (r & buf' & s2 & E & HS2 & HF2 & HL); [done | zlia.. |].
  exists r, buf', s2. split_and!; [done | done | by eapply same_fs_trans | exact HL].
Qed.

End Listing.

Lemma lafs_mount_safe s : lafs_ok s -> exists r s', lafs_mount d s = Ok (r, s') /\ lafs_ok s' /\ r ∈ [0; -1].
Proof.
  intros HS. unfold lafs_mount. destruct (read_sector_safe 0 s HS) as (r & s1 & -> & HS1 & _ & _).
  destruct (negb _); [exists (-1), s1; split_and!; [done | done | lmem] |].
  destruct (rd32_ok (g_sec s1) 0) as (m & -> & _); [apply HS1 | lia |]. cbn [res_bind].
  destruct (negb _); [exists (-1), s1; split_and!; [done | done | lmem] |].
  destruct (rd32_ok (g_sec s1) 5) as (a & -> & _); [apply HS1 | lia |].
  destruct (rd32_ok (g_sec s1) 9) as (b & -> & _); [apply HS1 | lia |].
  destruct (rd32_ok (g_sec s1) 13) as (c & -> & _); [apply HS1 | lia |]. cbn [res_bind].
  eexists 0, _. split_and!; [reflexivity | exact HS1 | lmem].
Qed.

Lemma lafs_size_safe ino s : lafs_ok s -> exists r s', lafs_size d ino s = Ok (r, s') /\ lafs_ok s' /\ same_fs s s' /\ is_u32 r.
Proof.
  intros HS. unfold lafs_size. destruct (read_inode_safe (u32 ino) s HS) as ([raw |] & s1 & -> & HS1 & HF1 & _ & HR).
  2: { exists 0, s1. split_and!; done || (red; lia). }
  specialize (HR raw eq_refl). unfold inode_type.
  destruct (byte_ok (g_sec s1) raw) as (t & -> & _); [apply HS1 | lia |]. cbn [res_bind].
  destruct (negb _); [exists 0, s1; split_and!; done || (red; lia) |].
  destruct (rd32_ok (g_sec s1) (raw + 33)) as (z & -> & Hz); [apply HS1 | lia |]. cbn [res_bind]. eauto 8.
Qed.

End Safety.

(** *** Any sequence of calls *)

Inductive lafs_call :=
  | Reset
  | Mount
  | Open (path : option (list Z))
  | Read (ino : Z) (buf : list Z) (offset len : Z)
  | Readdir (ino : Z) (buf : list Z) (bufsz : Z)
  | Size (ino : Z).

(** what the call returns and what the caller's buffer holds *)
Definition perform (d : devices) (q : lafs_call) (s : lafs) : res ((Z * list Z) * lafs) :=
  match q with
  | Reset => Ok ((0, []), lafs_reset s)
  | Mount => let! (r, s) := lafs_mount d s in Ok ((r, []), s)
  | Open path => let! (r, s) := lafs_open d path s in Ok ((r, []), s)
  | Read ino buf offset len => let! (r, (buf, s)) := lafs_read d ino buf offset len s in Ok ((r, buf), s)
  | Readdir ino buf bufsz => let! (r, (buf, s)) := lafs_readdir d ino buf bufsz s in Ok ((r, buf), s)
  | Size ino => let! (r, s) := lafs_size d ino s in Ok ((r, []), s)
  end.

Fixpoint serve (d : devices) (qs : list lafs_call) (s : lafs) : res (list (Z * list Z) * lafs) :=
  match qs with
  | [] => Ok ([], s)
  | q :: qs => let! (a, s) := perform d q s in let! (l, s) := serve d qs s in Ok (a :: l, s)
  end.

(** the buffers are as large as the caller says; the one of a listing has room
    for one byte more *)
Definition call_ok (q : lafs_call) : Prop :=
  match q with
  | Read _ buf offset len => is_u32 offset /\ is_u32 len /\ len <= zlen buf
  | Readdir _ buf bufsz => 0 < bufsz < 2147483648 /\ bufsz < zlen buf
  | _ => True
  end.

(** at most what was asked for, and nothing written besides *)
Definition reply_ok (q : lafs_call) (a : Z * list Z) : Prop :=
  match q with
  | Read _ buf _ len =>
    -1 <= a.1 <= len /\ zlen a.2 = zlen buf /\ forall k, Z.max a.1 0 <= k -> byte_at a.2 k = byte_at buf k
  | Readdir _ buf bufsz =>
    -1 <= a.1 <= bufsz /\ zlen a.2 = zlen buf /\ forall k, bufsz < k -> byte_at a.2 k = byte_at buf k
  | Size _ => is_u32 a.1
  | _ => True
  end.

Lemma lafs_open_safe d path s : driver_ok d -> lafs_ok s -> exists r s', lafs_open d path s = Ok (r, s') /\ lafs_ok s' /\ same_fs s s'.
Proof.
  intros HD HS. unfold lafs_open. destruct (negb _); [eauto with laos |]. destruct path as [[| c p] |]; [eauto with laos | | eauto with laos].
  destruct (negb _); [eauto with laos |]. by apply walk_path_safe.
Qed.

Lemma lafs_reset_ok s : lafs_ok s -> lafs_ok (lafs_reset s).
Proof. intros [_ HS]. split; [| exact HS]. split; [done |]. by apply bytes_check. Qed.

Lemma perform_safe d q s : driver_ok d -> lafs_ok s -> call_ok q ->
  exists a s', perform d q s = Ok (a, s') /\ lafs_ok s' /\ reply_ok q a.
Proof.
  intros HD HS HQ. destruct q as [| | path | ino buf offset len | ino buf bufsz | ino]; cbn [perform].
  - eexists _, _. split; [reflexivity |]. split; [by apply lafs_reset_ok | done].
  - destruct (lafs_mount_safe d HD s HS) as (r & s' & -> & ? & _). eexists _, _. by split.
  - destruct (lafs_open_safe d path s HD HS) as (r & s' & -> & ? & _). eexists _, _. by split.
  - destruct HQ as (? & ? & ?).
    destruct (lafs_read_safe d HD ino buf offset len s) as (r & buf' & s' & -> & ? & _ & ? & ? & HK); [done.. |].
    eexists _, _. split; [reflexivity |]. split; [done |]. split_and!; cbn [fst snd]; [lia | unfold is_u32 in *; lia | done |].
    intros k Hk. apply HK. lia.
  - destruct HQ as (H1 & H2). destruct (lafs_readdir_safe d HD bufsz H1 ino buf s HS H2) as (r & buf' & s' & -> & ? & _ & ? & ? & HK).
    eexists _, _. split; [reflexivity |]. split; [done |]. split_and!; cbn [fst snd]; [lia | lia | done |].
    intros k Hk. apply HK. lia.
  - destruct (lafs_size_safe d HD ino s HS) as (r & s' & -> & ? & _ & ?). eexists _, _. by split.
Qed.

