(* ===== verification/LafsSpec.v ===== *)
(** * LaFS against its disk

    What the directories and inodes on a disk say, as functions of its sectors,
    and that [lafs_open] and [lafs_read] answer just that as long as an inode is
    not used after a second block has been read over it.  The examples at the end
    show what happens then. *)

From stdpp Require Import base list.
From S2P Require Import Prelude Bytes BlockDevice Lafs.

(** ** What the disk says

    The file system as a function of the sectors of the disk: [disk sec] is what
    the sector holds, [None] where it cannot be read. *)

Definition field (b : list Z) (off : Z) : Z := match rd32 b off with Ok v => v | _ => 0 end.
Definition octet (b : list Z) (off : Z) : Z := match byte_at b off with Ok v => v | _ => 0 end.

(** the fields of an inode, its 128 bytes being [i] *)
Definition itype (i : list Z) : Z := octet i 0.
Definition isize (i : list Z) : Z := field i 33.
Definition iblock (i : list Z) (k : Z) : Z := field i (37 + k * 4).

(** the entries of a directory block: names and inode numbers *)
Fixpoint dirents (n : nat) (pos : Z) (b : list Z) : list (list Z * Z) :=
  match n with
  | O => []
  | S n =>
    let nlen := octet b (pos + 4) in
    if (512 <? pos + 5) || (field b pos =? 0) || (nlen =? 0) || (512 <? pos + 5 + nlen) then []
    else (slice b (pos + 5) nlen, field b pos) :: dirents n (pos + 5 + nlen) b
  end.

Fixpoint assoc (name : list Z) (es : list (list Z * Z)) : option Z :=
  match es with
  | [] => None
  | (k, e) :: es => if decide (k = name) then Some e else assoc name es
  end.

(** how a directory block is written *)
Definition encode_entry (e : list Z * Z) : list Z := enc 4 e.2 ++ zlen e.1 :: e.1.
Fixpoint encode_dir (es : list (list Z * Z)) : list Z :=
  match es with
  | [] => []
  | e :: es => encode_entry e ++ encode_dir es
  end.

(** the names between the slashes of a path *)
Fixpoint split_slash (p : list Z) : list (list Z) :=
  match p with
  | [] => [[]]
  | c :: q =>
    if c =? SLASH then [] :: split_slash q
    else match split_slash q with w :: ws => (c :: w) :: ws | [] => [[c]] end
  end.
Definition components (p : list Z) : list (list Z) := filter (fun w => w <> []) (split_slash p).

Section Disk.
Context (disk : Z -> option (list Z)).

(** the inode [ino] of the mounted file system *)
Definition inode (s : lafs) (ino : Z) : option (list Z) :=
  if g_inode_count s <=? ino then None
  else
    b ← disk (u32 (g_inode_start s + u32 (ino * LAFS_INODE_SIZE) / 512));
    Some (slice b (u32 (ino * LAFS_INODE_SIZE) mod 512) 128).

(** the inode a one-block directory gives for a name *)
Definition find_name (s : lafs) (dir : Z) (name : list Z) : option Z :=
  i ← inode s dir;
  if (itype i =? 2) && negb (isize i =? 0) && negb (iblock i 0 =? 0) then
    b ← disk (iblock i 0);
    e ← assoc name (dirents ENTRIES_MAX 0 b);
    if e <? 2147483648 then Some e else None
  else None.

Fixpoint resolve (s : lafs) (names : list (list Z)) (ino : Z) : option Z :=
  match names with
  | [] => Some ino
  | name :: names => e ← find_name s ino name; resolve s names e
  end.

(** the byte at [k] in the file *)
Definition file_byte (i : list Z) (k : Z) : option Z :=
  b ← disk (iblock i (k / 512)); b !! Z.to_nat (k mod 512).

(** directories of one block *)
Definition small_dirs (s : lafs) : Prop := forall ino i, 0 <= ino -> inode s ino = Some i -> itype i = 2 -> isize i <= 512.

(** the device in use returns the sectors of the disk *)
Definition serves (d : devices) : Prop :=
  forall sec buf, sector buf ->
  match disk sec with
  | Some b => sector b /\ block_read sec buf 1 d = (1, b)
  | None => sector (block_read sec buf 1 d).2 /\ (block_read sec buf 1 d).1 <> 1
  end.

Lemma serves_driver d : serves d -> driver_ok d.
Proof. intros HD sec buf HB. specialize (HD sec buf HB). destruct (disk sec); [destruct HD as [? ->]; done | tauto]. Qed.

Section Correct.
Context (d : devices) (HD : serves d).

Lemma inode_ext s s' ino : same_fs s s' -> inode s' ino = inode s ino.
Proof. intros (E1 & E2 & _). unfold inode. by rewrite E1, E2. Qed.

Lemma find_name_ext s s' ino name : same_fs s s' -> find_name s' ino name = find_name s ino name.
Proof. intros HF. unfold find_name. by rewrite (inode_ext s s'). Qed.

Lemma resolve_ext s s' names ino : same_fs s s' -> resolve s' names ino = resolve s names ino.
Proof.
  intros HF. revert ino. induction names as [| w l IH]; intros ino; [done |]. cbn [resolve].
  rewrite (find_name_ext s s') by done. destruct (find_name s ino w) as [e |]; [apply IH | done].
Qed.

Lemma small_dirs_ext s s' : same_fs s s' -> small_dirs s -> small_dirs s'.
Proof. intros HF HS ino i Hi. rewrite (inode_ext s s') by done. by apply HS. Qed.

Lemma read_sector_spec sec s : lafs_ok s -> exists s', lafs_ok s' /\ same_fs s s' /\
  match disk sec with
  | Some b => read_sector d sec s = (0, s') /\ g_sec s' = b /\ sector b
  | None => read_sector d sec s = (-1, s')
  end.
Proof.
  intros [HS HR]. specialize (HD sec (g_sec s) HS). unfold read_sector. destruct (disk sec) as [b |].
  - destruct HD as [HB ->]. eexists. split; [| split; [| split; [reflexivity | done]]]; [by split | done].
  - destruct HD as [HB Hn]. destruct (block_read sec (g_sec s) 1 d) as [n b]. cbn [fst snd] in *.
    destruct (Z.eqb_spec n 1); [done |]. eexists. split; [| split; [| reflexivity]]; [by split | done].
Qed.

(** reading an inode leaves its bytes in the sector buffer *)
Lemma read_inode_spec ino s : lafs_ok s -> exists s', lafs_ok s' /\ same_fs s s' /\
  match inode s ino with
  | Some i => exists raw, read_inode_raw d ino s = (Some raw, s') /\ 0 <= raw <= 384 /\
      (forall off, 0 <= off < 128 -> byte_at (g_sec s') (raw + off) = byte_at i off)
  | None => read_inode_raw d ino s = (None, s')
  end.
Proof.
  intros HS. unfold read_inode_raw, inode. destruct (_ <=? ino); [by exists s; auto with laos |].
  set (o := u32 (ino * LAFS_INODE_SIZE)). destruct (read_sector_spec (u32 (g_inode_start s + o / 512)) s HS) as (s' & H1 & H2 & HM).
  exists s'. split; [done |]. split; [done |].
  destruct (disk _) as [b |]; [| by rewrite HM]. destruct HM as (-> & HB & HL & _). simpl. exists (o mod 512).
  assert (HO : 0 <= o mod 512 <= 384) by (subst o; unfold u32, LAFS_INODE_SIZE; zlia).
  split; [done |]. split; [done |]. intros off Hoff. rewrite HB. clearbody o. unfold byte_at, slice.
  rewrite !(proj2 (Z.ltb_ge _ 0)) by lia. rewrite lookup_take_lt, lookup_drop by lia.
  replace (Z.to_nat (o mod 512 + off)) with (Z.to_nat (o mod 512) + Z.to_nat off)%nat by lia. done.
Qed.

Lemma le_zero n b i v : bytes b -> inside b i (Z.of_nat n) -> le n b i = Ok v ->
  forallb (fun x => x =? 0) (slice b i (Z.of_nat n)) = (v =? 0).
Proof.
  intros HB. revert i v. induction n as [| n IH]; intros i v (H0 & _ & H1); cbn [le]; [by intros [= <-] |].
  destruct (byte_at_inside b i) as (x & Hx & ->); [red; lia |]. cbn [res_bind].
  destruct (le_inside n b (i + 1)) as (h & E & Hh); [done | red; lia |]. rewrite E. cbn [res_bind]. intros [= <-].
  assert (0 <= x < 256) by (unfold bytes in HB; rewrite Forall_lookup in HB; by apply (HB _ _ Hx)).
  unfold slice in *. rewrite Nat2Z.inj_succ, <- Nat2Z.inj_succ, Nat2Z.id, (drop_S b x) by done. cbn [take forallb].
  specialize (IH (i + 1) h ltac:(red; lia) E). rewrite Nat2Z.id in IH. replace (Z.to_nat (i + 1)) with (S (Z.to_nat i)) in IH by lia.
  rewrite IH. zbool; simpl; lia.
Qed.

(** the search of a block is the search of its entries *)
Lemma scan_block_spec n pos name b : sector b -> 0 <= pos -> 512 - pos <= 5 * Z.of_nat n ->
  scan_block n pos name (zlen name) b = Ok (assoc name (dirents n pos b)).
Proof.
  intros HS. revert pos. induction n as [| n IH]; intros pos H0 Hn; cbn [scan_block dirents];
    (destruct (Z.leb_spec (pos + 5) 512) as [H5 | H5]; cbn [negb]); [lia | done | | by destruct (Z.ltb_spec 512 (pos + 5)); [| lia]].
  destruct (Z.ltb_spec 512 (pos + 5)); [lia |]. cbn [orb].
  destruct (chunk_ok b pos 4) as [-> _]; [done | lia.. |]. cbn [res_bind].
  destruct (rd32_ok b pos) as (e & E & He); [done | lia |]. unfold field. rewrite E.
  assert (HZ : forallb (fun x => x =? 0) (slice b pos 4) = (e =? 0))
    by (destruct HS; apply (le_zero 4 b pos e); [done | red; lia | exact E]). rewrite HZ.
  destruct (e =? 0); [done |]. cbn [res_bind orb]. unfold octet.
  destruct (byte_ok b (pos + 4)) as (l & -> & Hl); [done | lia |]. cbn [res_bind]. red in Hl.
  destruct (Z.eqb_spec l 0), (Z.ltb_spec 512 (pos + 5 + l)); cbn [orb]; try done.
  destruct (chunk_ok b (pos + 5) l) as [-> HL]; [done | lia.. |]. cbn [res_bind assoc].
  rewrite IH by lia. replace (pos + (5 + l)) with (pos + 5 + l) by lia.
  assert (HT : take (Z.to_nat (zlen name)) name = name) by (apply take_ge; unfold zlen; lia). rewrite HT.
  destruct (decide (slice b (pos + 5) l = name)) as [<- | Hne].
  - rewrite HL, Z.eqb_refl, bool_decide_true by done. done.
  - rewrite bool_decide_false, andb_false_r by done. done.
Qed.

Lemma inode_fields i b raw : (forall off, 0 <= off < 128 -> byte_at b (raw + off) = byte_at i off) ->
  inode_type raw (with_sec b (mk_lafs 0 0 0 false [] [])) = byte_at i 0 /\
  (forall off, 0 <= off <= 124 -> rd32 b (raw + off) = rd32 i off).
Proof.
  intros H. split; [unfold inode_type; cbn [g_sec with_sec]; rewrite <- H by lia; f_equal; lia |].
  intros off Ho. apply le_ext. intros k Hk. rewrite <- H by lia. f_equal. lia.
Qed.

Lemma rd32_field b off v : rd32 b off = Ok v -> field b off = v.
Proof. unfold field. by intros ->. Qed.

Lemma some_bind {A B} (f : A -> option B) a : Some a ≫= f = f a.
Proof. done. Qed.

Lemma Ok_inj {A} (a b : A) : Ok a = Ok b -> a = b.
Proof. by intros [=]. Qed.

(** the search of a directory of one block *)
Lemma dir_blocks_spec n z raw bs name s : lafs_ok s -> 0 < z <= 512 -> 0 <= raw <= 384 -> rd32 (g_sec s) (raw + 37) = Ok bs ->
  exists r s', dir_blocks d (S n) 0 z raw name (zlen name) s = Ok (r, s') /\ lafs_ok s' /\ same_fs s s' /\
    match (if negb (bs =? 0) then b ← disk bs; e ← assoc name (dirents ENTRIES_MAX 0 b); if e <? 2147483648 then Some e else None else None) with
    | Some e => r = e /\ 0 <= e < 2147483648
    | None => r < 0
    end.
Proof.
  intros HS Hz HR Eb. cbn [dir_blocks]. rewrite (proj2 (Z.leb_gt z 0)) by lia. change (LAFS_BLOCKS_MAX <=? 0 / 512) with false. cbv iota.
  change (37 + 0 / 512 * 4) with 37. rewrite Eb. cbn [res_bind].
  destruct (Z.eqb_spec bs 0); cbn [negb]; [exists (-1), s; by auto with laos |].
  destruct (read_sector_spec bs s HS) as (s2 & HS2 & HF2 & HM).
  destruct (disk bs) as [b |]; [| rewrite HM; exists (-1), s2; by auto].
  destruct HM as (-> & -> & Hbs). rewrite Z.eqb_refl. cbn [negb]. rewrite some_bind, Z.mod_0_l by lia.
  pose proof entries_max as HE. rewrite scan_block_spec by (done || lia). cbn [res_bind].
  destruct (scan_block_safe ENTRIES_MAX 0 name (zlen name) b) as (f & Ef & He); [done | lia.. |].
  rewrite scan_block_spec in Ef by (done || lia). apply Ok_inj in Ef. rewrite Ef. destruct f as [e |]; [rewrite some_bind |].
  - specialize (He e eq_refl). red in He. exists (i32 e), s2. split_and!; [done | done | done |].
    destruct (Z.ltb_spec e 2147483648); [rewrite i32_small by lia; lia |]. unfold i32. zlia.
  - change (u32 (0 + (512 - 0))) with 512. exists (-1), s2. split_and!; [| done | done | done].
    destruct n; cbn [dir_blocks]; by rewrite (proj2 (Z.leb_le z 512)) by lia.
Qed.

Lemma dir_lookup_spec ino name s : lafs_ok s -> small_dirs s -> 0 <= ino ->
  exists r s', dir_lookup d ino name (zlen name) s = Ok (r, s') /\ lafs_ok s' /\ same_fs s s' /\
    match find_name s ino name with Some e => r = e /\ 0 <= e < 2147483648 | None => r < 0 end.
Proof.
  intros HS HO Hi. unfold dir_lookup, find_name. specialize (HO ino).
  destruct (read_inode_spec ino s HS) as (s1 & HS1 & HF1 & HM).
  destruct (inode s ino) as [i |]; [| rewrite HM; exists (-1), s1; by auto].
  destruct HM as (raw & -> & HR & HB). specialize (HO i Hi eq_refl). rewrite some_bind.
  destruct (inode_fields i (g_sec s1) raw HB) as [HT HW]. unfold inode_type in *. cbn [g_sec with_sec] in HT.
  unfold itype, isize, iblock, octet in *.
  destruct (byte_ok (g_sec s1) raw) as (t & Ht & _); [apply HS1 | lia |]. rewrite <- HT, Ht in *. cbn [res_bind].
  destruct (Z.eqb_spec t 2) as [-> | ?]; cbn [negb andb]; [| exists (-1), s1; by auto]. specialize (HO eq_refl).
  destruct (rd32_ok (g_sec s1) (raw + 33)) as (z & Ez & Hz); [apply HS1 | lia |]. rewrite Ez. cbn [res_bind].
  rewrite HW in Ez by lia. rewrite (rd32_field _ _ _ Ez) in *. red in Hz.
  destruct (Z.eqb_spec z 0); cbn [negb andb]; [exists (-1), s1; by auto |].
  destruct (rd32_ok (g_sec s1) (raw + 37)) as (bs & Eb & Hb); [apply HS1 | lia |].
  destruct (dir_blocks_spec 20 z raw bs name s1) as (r & s2 & E & HS2 & HF2 & HM); [done | lia | lia | done |].
  rewrite HW in Eb by lia. change (37 + 0 * 4) with 37. rewrite (rd32_field _ _ _ Eb).
  exists r, s2. split_and!; [exact E | done | by eapply same_fs_trans | exact HM].
Qed.

Lemma split_slash_span p :
  split_slash p = (span_name p).1 :: match (span_name p).2 with [] => [] | _ :: q => split_slash q end.
Proof.
  induction p as [| c p IH]; [done |]. cbn [split_slash span_name]. destruct (c =? SLASH); [done |].
  rewrite IH. by destruct (span_name p).
Qed.

(** the names of a path, one step of the walk at a time *)
Lemma components_span p : components p =
  (if decide ((span_name p).1 = []) then [] else [(span_name p).1]) ++ match (span_name p).2 with [] => [] | _ :: q => components q end.
Proof.
  unfold components. rewrite split_slash_span. destruct (span_name p) as [w [| c q]]; cbn [fst snd]; rewrite filter_cons;
    destruct (decide (w <> [])), (decide (w = [])); done.
Qed.

Lemma walk_path_spec n p ino s : lafs_ok s -> small_dirs s -> 0 <= ino < 2147483648 -> zlen p < 4294967296 -> (length p <= n)%nat ->
  exists s', walk_path d n p ino s = Ok (default (-1) (resolve s (components p) ino), s') /\ lafs_ok s' /\ same_fs s s'.
Proof.
  revert p ino s. induction n as [| n IH]; intros [| c p] ino s HS HO Hi Hp Hn; cbn [walk_path];
    [exists s; split; [cbn; by rewrite i32_small by lia | auto with laos] | simpl in Hn; lia | exists s; split; [cbn; by rewrite i32_small by lia | auto with laos] |].
  rewrite components_span. pose proof (span_name_app (c :: p)) as HA. pose proof (span_name_rest (c :: p)) as HR.
  destruct (span_name (c :: p)) as [w q]. cbn [fst snd] in *.
  assert (HL : (length w + length q = S (length p))%nat) by (rewrite <- length_app, <- HA; done).
  unfold zlen in *. cbn [length] in *. rewrite u32_small by (red; lia).
  destruct (decide (w = [])) as [-> | Hw].
  - cbn [length Z.of_nat Z.eqb app]. destruct q as [| c' q]; simpl in HL; [lia |]. apply IH; try done; simpl in *; lia.
  - destruct (Z.eqb_spec (Z.of_nat (length w)) 0) as [E0 | _]; [destruct w; [done | simpl in E0; lia] |].
    destruct (dir_lookup_spec ino w s HS HO ltac:(lia)) as (r & s1 & E & HS1 & HF1 & HM). unfold zlen in E. rewrite E. cbn [res_bind app resolve].
    destruct (find_name s ino w) as [e |].
    2: { rewrite (proj2 (Z.ltb_lt r 0)) by done. exists s1. auto. }
    destruct HM as [-> He]. rewrite (proj2 (Z.ltb_ge e 0)), u32_small, some_bind by (lia || (red; lia)).
    assert (HQ : match q with [] => [] | c' :: q' => if c' =? SLASH then q' else q end = match q with [] => [] | _ :: q' => q' end)
      by (destruct q as [| c' q]; [done |]; by rewrite HR).
    rewrite HQ. destruct (IH (match q with [] => [] | _ :: q' => q' end) e s1) as (s2 & E2 & HS2 & HF2);
      [done | by eapply small_dirs_ext | done | destruct q; simpl in *; lia | destruct q, w; simpl in *; done || lia |].
    exists s2. split_and!; [| done | by eapply same_fs_trans]. rewrite E2, (resolve_ext s s1) by done. by destruct q.
Qed.

(** a request inside one block *)
Lemma read_blocks_spec n raw bs b buf offset len s : lafs_ok s -> 0 <= offset < 10240 -> 0 < len ->
  offset mod 512 + len <= 512 -> len <= zlen buf ->
  rd32 (g_sec s) (raw + (37 + offset / 512 * 4)) = Ok bs -> bs <> 0 -> disk bs = Some b ->
  exists buf' s', read_blocks d (S n) raw buf offset len 0 s = Ok (len, (buf', s')) /\ lafs_ok s' /\ same_fs s s' /\
    write_bytes buf 0 (slice b (offset mod 512) len) = Ok buf' /\ zlen (slice b (offset mod 512) len) = len.
Proof.
  intros HS Ho Hl H1 Hb Ebs Hnz Eb. cbn [read_blocks]. rewrite (proj2 (Z.ltb_lt 0 len)) by done. cbn [negb]. unfold LAFS_BLOCKS_MAX.
  rewrite (proj2 (Z.leb_gt 20 (offset / 512))) by zlia. rewrite Ebs. cbn [res_bind]. rewrite (proj2 (Z.eqb_neq bs 0)) by done.
  destruct (read_sector_spec bs s HS) as (s1 & HS1 & HF1 & HM). rewrite Eb in HM. destruct HM as (-> & Eg & Hs). cbn [negb Z.eqb].
  assert (HC : (if len - 0 <? 512 - offset mod 512 then len - 0 else 512 - offset mod 512) = len) by (zbool; lia). rewrite HC, Eg.
  destruct (chunk_ok b (offset mod 512) len) as [-> HL]; [done | zlia.. |]. cbn [res_bind].
  destruct (write_bytes_inside buf 0 (slice b (offset mod 512) len)) as (buf' & E & _); [rewrite HL; unfold zlen in *; red; lia |].
  rewrite E. cbn [res_bind]. exists buf', s1. split_and!; try done.
  destruct n; cbn [read_blocks]; rewrite Z.add_0_l, Z.ltb_irrefl, i32_small by zlia; done.
Qed.

Lemma lafs_read_spec ino i b buf offset len n s : lafs_ok s -> g_mounted s = true -> inode s (u32 ino) = Some i -> itype i = 1 ->
  0 <= offset < isize i -> 0 < len -> offset + len < 4294967296 -> n = Z.min len (isize i - offset) ->
  offset < 10240 -> offset mod 512 + n <= 512 -> n <= zlen buf -> iblock i (offset / 512) <> 0 -> disk (iblock i (offset / 512)) = Some b ->
  exists buf' s', lafs_read d ino buf offset len s = Ok (n, (buf', s')) /\ lafs_ok s' /\ same_fs s s' /\
    write_bytes buf 0 (slice b (offset mod 512) n) = Ok buf' /\ zlen (slice b (offset mod 512) n) = n.
Proof.
  intros HS HMt HI HT Ho Hl Hw Hn Ho1 H1 Hb Hnz Eb. unfold lafs_read. rewrite HMt. cbn [negb]. rewrite (proj2 (Z.eqb_neq len 0)) by lia.
  destruct (read_inode_spec (u32 ino) s HS) as (s1 & HS1 & HF1 & HM). rewrite HI in HM. destruct HM as (raw & -> & HR & HB).
  destruct (inode_fields i (g_sec s1) raw HB) as [HT1 HW]. unfold inode_type in *. cbn [g_sec with_sec] in HT1.
  destruct (byte_ok (g_sec s1) raw) as (t & Ht & _); [apply HS1 | lia |]. unfold itype, octet in HT. rewrite <- HT1, Ht in HT. subst t.
  rewrite Ht. cbn [res_bind negb Z.eqb Pos.eqb].
  destruct (rd32_ok (g_sec s1) (raw + 33)) as (z & Ez & Hz); [apply HS1 | lia |]. rewrite Ez. cbn [res_bind].
  rewrite HW in Ez by lia. unfold isize in *. rewrite (rd32_field _ _ _ Ez) in *. rewrite (proj2 (Z.leb_gt z offset)) by lia.
  rewrite (u32_small (offset + len)) by (red; lia).
  assert (HN : (if z <? offset + len then z - offset else len) = n) by (zbool; lia). rewrite HN.
  destruct (rd32_ok (g_sec s1) (raw + (37 + offset / 512 * 4))) as (bs & Ebs & _); [apply HS1 | zlia |].
  assert (bs = iblock i (offset / 512)) as ->.
  { symmetry. apply rd32_field. rewrite <- HW by zlia. exact Ebs. }
  destruct (read_blocks_spec 20 raw (iblock i (offset / 512)) b buf offset n s1) as (buf' & s2 & E & HS2 & HF2 & E2 & E3); try done; try lia.
  exists buf', s2. split_and!; [exact E | done | by eapply same_fs_trans | done | done].
Qed.

End Correct.
End Disk.

(** ** Directories as they are written *)

Definition entry_ok (e : list Z * Z) : Prop := 0 < e.2 < 4294967296 /\ 0 < zlen e.1 < 256 /\ bytes e.1.

Lemma le_app_mid n pre x post i : 0 <= x < 256 ^ Z.of_nat n -> i = zlen pre -> le n (pre ++ enc n x ++ post) i = Ok x.
Proof.
  intros Hx ->. rewrite <- (le_enc n x Hx). apply le_ext. intros k Hk. unfold byte_at, zlen.
  rewrite !(proj2 (Z.ltb_ge _ 0)) by lia. rewrite lookup_app_r by lia. rewrite lookup_app_l by (rewrite enc_length; lia).
  replace (Z.to_nat (Z.of_nat (length pre) + Z.of_nat k) - length pre)%nat with (Z.to_nat (0 + Z.of_nat k)) by lia. done.
Qed.

(** the entries a directory block was written with are those the kernel finds in it *)
Lemma dirents_encode n pre es k b : Forall entry_ok es -> b = pre ++ encode_dir es ++ replicate k 0 -> length b = 512%nat ->
  (length es < n)%nat -> dirents n (zlen pre) b = es.
Proof.
  intros HF. revert n pre b. induction HF as [| e es He HF IH]; intros n pre b -> HL Hn; (destruct n as [| n]; [lia |]); cbn [dirents].
  - change (encode_dir []) with ([] : list Z) in *. rewrite app_nil_l, length_app, length_replicate in *.
    destruct (Z.ltb_spec 512 (zlen pre + 5)) as [? | H5]; [done |]. unfold zlen in H5.
    assert (E : field (pre ++ replicate k 0) (zlen pre) = 0); [| by rewrite E].
    apply rd32_field. replace k with (4 + (k - 4))%nat by lia. rewrite replicate_add.
    apply (le_app_mid 4 pre 0 (replicate (k - 4) 0)); [done | done].
  - destruct e as [w ino]. destruct He as (Hi & Hw & _). cbn [fst snd] in *.
    assert (EB : pre ++ encode_dir ((w, ino) :: es) ++ replicate k 0 = (pre ++ enc 4 ino ++ [zlen w] ++ w) ++ encode_dir es ++ replicate k 0).
    { cbn [encode_dir]. unfold encode_entry. cbn [fst snd]. by rewrite <- !app_assoc. }
    rewrite EB in *. set (rest := encode_dir es ++ replicate k 0) in *.
    assert (HP : zlen (pre ++ enc 4 ino ++ [zlen w] ++ w) = zlen pre + 5 + zlen w)
      by (unfold zlen; rewrite !length_app, enc_length; simpl; lia).
    assert (H512 : zlen pre + 5 + zlen w <= 512) by (apply (f_equal Z.of_nat) in HL; fold (zlen ((pre ++ enc 4 ino ++ [zlen w] ++ w) ++ rest)) in HL; rewrite zlen_app, HP in HL; unfold zlen in *; lia).
    assert (E1 : field ((pre ++ enc 4 ino ++ [zlen w] ++ w) ++ rest) (zlen pre) = ino).
    { apply rd32_field. rewrite <- !app_assoc. apply (le_app_mid 4 pre ino); [cbn; lia | done]. }
    assert (E2 : octet ((pre ++ enc 4 ino ++ [zlen w] ++ w) ++ rest) (zlen pre + 4) = zlen w).
    { unfold octet. rewrite <- !app_assoc, (app_assoc pre). replace (zlen pre + 4) with (zlen (pre ++ enc 4 ino))
        by (rewrite zlen_app; unfold zlen; rewrite enc_length; lia).
      change ([zlen w] ++ w ++ rest) with (zlen w :: w ++ rest). by rewrite byte_at_app. }
    rewrite E1, E2.
    zbool; cbn [orb]; try lia. f_equal; [f_equal |].
    + apply (slice_app _ _ _ (pre ++ enc 4 ino ++ [zlen w]) w rest); [by rewrite <- !app_assoc | | done].
      rewrite !zlen_app. unfold zlen at 3 4. rewrite enc_length. simpl. lia.
    + rewrite <- HP. by apply IH; [| | simpl in Hn; lia].
Qed.

(** ** The file system answers what the disk says *)

(** C37: [lafs_open] resolves a path as the disk's directories do, name by name
    from the root, empty names skipped, and gives -1 for a path that is relative
    or names nothing; directories have one block. *)
Theorem lafs_open_correct disk d path s : serves disk d -> lafs_ok s -> small_dirs disk s -> zlen path < 4294967296 ->
  exists s', lafs_open d (Some path) s = Ok
      (match path with
       | c :: p => if g_mounted s && (c =? SLASH) then default (-1) (resolve disk s (components p) 0) else -1
       | [] => -1
       end, s') /\ lafs_ok s' /\ same_fs s s'.
Proof.
  intros HD HS HO Hp. unfold lafs_open. destruct (g_mounted s); cbn [negb andb].
  - destruct path as [| c p]; [exists s; auto with laos |]. destruct (c =? SLASH); cbn [negb]; [| exists s; auto with laos].
    apply walk_path_spec; auto; [lia | unfold zlen in *; simpl in *; lia].
  - destruct path; exists s; auto with laos.
Qed.

(** a read inside one block of a file returns the number of bytes asked for,
    or those before the end of the file, puts exactly the bytes of the file into
    the buffer and leaves the rest of the buffer as it was. *)
Lemma lafs_read_correct disk d ino i buf offset len s : serves disk d -> lafs_ok s -> g_mounted s = true ->
  inode disk s (u32 ino) = Some i -> itype i = 1 -> 0 <= offset < isize i -> offset < 10240 -> 0 < len <= zlen buf ->
  offset + len < 4294967296 -> let n := Z.min len (isize i - offset) in
  offset mod 512 + n <= 512 -> iblock i (offset / 512) <> 0 -> is_Some (disk (iblock i (offset / 512))) ->
  exists buf' s', lafs_read d ino buf offset len s = Ok (n, (buf', s')) /\ lafs_ok s' /\ same_fs s s' /\ zlen buf' = zlen buf /\
    forall k, 0 <= k < zlen buf ->
      buf' !! Z.to_nat k = if k <? n then file_byte disk i (offset + k) else buf !! Z.to_nat k.
Proof.
  intros HD HS HM HI HT Ho Ho1 Hl Hw n H1 Hnz [b Eb].
  destruct (lafs_read_spec disk d HD ino i b buf offset len n s) as (buf' & s' & E & HS' & HF & EW & HL); try done; try lia.
  destruct (write_bytes_inside buf 0 (slice b (offset mod 512) n)) as (g & EW' & HZ & HK); [rewrite HL; unfold zlen in *; red; lia |].
  rewrite EW in EW'. apply Ok_inj in EW'. subst g. exists buf', s'. split_and!; try done. intros k Hk. rewrite HK.
  assert (HLn : length (slice b (offset mod 512) n) = Z.to_nat n) by (unfold zlen in HL; lia). rewrite HLn.
  destruct (Z.ltb_spec k n); [rewrite decide_True by lia | by rewrite decide_False by lia].
  unfold file_byte. replace ((offset + k) / 512) with (offset / 512) by zlia. rewrite Eb, some_bind.
  replace ((offset + k) mod 512) with (offset mod 512 + k) by zlia. unfold slice. rewrite lookup_take_lt, lookup_drop by lia.
  f_equal. zlia.
Qed.

(** ** An image *)

Definition pad (n : nat) (l : list Z) : list Z := l ++ replicate (n - length l) 0.
Definition inode_image (type : Z) (name : list Z) (size : Z) (blocks : list Z) : list Z :=
  pad 128 (type :: pad 32 name ++ enc 4 size ++ concat (enc 4 <$> blocks)).
Definition superblock (count start data : Z) : list Z := pad 512 (enc 4 LAFS_MAGIC ++ [1] ++ enc 4 count ++ enc 4 start ++ enc 4 data).

(** a disk in memory *)
Definition image_disk (img : list (list Z)) (sec : Z) : option (list Z) := if (sec <? 0) || (Z.of_nat (length img) <=? sec) then None else img !! Z.to_nat sec.
Definition image_dev (img : list (list Z)) : block_device :=
  mk_dev (fun sec buf _ => match image_disk img sec with Some b => (1, b) | None => (-1, buf) end).
Definition image_devs (img : list (list Z)) : devices := (block_device_register (Some (image_dev img)) no_devices).2.

Lemma image_serves img : Forall sector img -> serves (image_disk img) (image_devs img).
Proof.
  intros HI sec buf HB. unfold image_disk. destruct (_ || _) eqn:Es.
  - unfold block_read, image_devs. simpl. unfold image_disk. by rewrite Es.
  - destruct (img !! Z.to_nat sec) as [b |] eqn:E.
    + split; [by eapply Forall_lookup_1 |]. unfold block_read, image_devs. simpl. unfold image_disk. by rewrite Es, E.
    + unfold block_read, image_devs. simpl. unfold image_disk. by rewrite Es, E.
Qed.

Definition fresh : lafs := mk_lafs 0 0 0 false (replicate 512 0) (replicate 512 0).

(** the image of [mkfs_lafs.py]: [/etc/motd] (shortened) and [/etc/version] *)
Definition ETC : list Z := [101; 116; 99].
Definition MOTD : list Z := [109; 111; 116; 100].
Definition VERSION : list Z := [118; 101; 114; 115; 105; 111; 110].
Definition version_text : list Z := [48; 46; 49; 46; 48; 10].
Definition mkfs_image : list (list Z) := Eval vm_compute in
  [superblock 4 1 2;
   inode_image 2 [] 8 [2] ++ inode_image 2 ETC 21 [3] ++ inode_image 1 MOTD 3 [4] ++ inode_image 1 VERSION 6 [5];
   pad 512 (encode_dir [(ETC, 1)]); pad 512 (encode_dir [(MOTD, 2); (VERSION, 3)]);
   pad 512 [72; 105; 10]; pad 512 version_text].
Definition mounted_fs : lafs := Eval vm_compute in match lafs_mount (image_devs mkfs_image) fresh with Ok (_, s) => s | _ => fresh end.

Lemma mkfs_sectors : Forall sector mkfs_image.
Proof. unfold mkfs_image. repeat (constructor; [split; [done | by apply bytes_check] |]). constructor. Qed.

Lemma mounted_fs_ok : lafs_ok mounted_fs.
Proof. split; (split; [done | by apply bytes_check]). Qed.

Lemma mkfs_small_dirs : small_dirs (image_disk mkfs_image) mounted_fs.
Proof.
  intros ino i H0. unfold inode. change (g_inode_count mounted_fs) with 4. destruct (Z.leb_spec 4 ino); [done |].
  intros E _. assert (HI : ino = 0 \/ ino = 1 \/ ino = 2 \/ ino = 3) by lia.
  destruct HI as [-> | [-> | [-> | ->]]]; vm_compute in E; injection E as <-; vm_compute; discriminate.
Qed.


Lemma lafs_open_correct_witness : exists s', lafs_open (image_devs mkfs_image) (Some (SLASH :: ETC ++ SLASH :: VERSION)) mounted_fs =
    Ok (default (-1) (resolve (image_disk mkfs_image) mounted_fs (components (ETC ++ SLASH :: VERSION)) 0), s') /\
  lafs_ok s' /\ same_fs mounted_fs s'.
Proof.
  exact (lafs_open_correct (image_disk mkfs_image) (image_devs mkfs_image) (SLASH :: ETC ++ SLASH :: VERSION) mounted_fs
    (image_serves _ mkfs_sectors) mounted_fs_ok mkfs_small_dirs eq_refl).
Defined.

Example version_resolves : resolve (image_disk mkfs_image) mounted_fs (components (ETC ++ SLASH :: VERSION)) 0 = Some 3.
Proof. vm_compute. reflexivity. Qed.

Definition version_inode : list Z := Eval vm_compute in inode_image 1 VERSION 6 [5].

Lemma lafs_read_correct_witness : exists buf' s', lafs_read (image_devs mkfs_image) 3 (replicate 8 0) 0 8 mounted_fs = Ok (6, (buf', s')) /\
  lafs_ok s' /\ same_fs mounted_fs s' /\ zlen buf' = 8 /\
  forall k, 0 <= k < 8 -> buf' !! Z.to_nat k = if k <? 6 then file_byte (image_disk mkfs_image) version_inode (0 + k) else replicate 8 0 !! Z.to_nat k.
Proof.
  apply (lafs_read_correct (image_disk mkfs_image) (image_devs mkfs_image) 3 version_inode (replicate 8 0) 0 8 mounted_fs);
    try (vm_compute; (reflexivity || discriminate || (split; discriminate || reflexivity)));
    [exact (image_serves _ mkfs_sectors) | exact mounted_fs_ok | vm_compute; eauto].
Defined.

(** *** What the shared sector buffer does

    The block pointers of an inode are read from [g_sec] after a data block has
    been read into it. *)

(** a file of 600 bytes whose first block holds text: the second block is never read *)
Definition two_blocks (first : list Z) : list (list Z) :=
  [superblock 2 1 2; pad 512 (inode_image 2 [] 0 [] ++ inode_image 1 MOTD 600 [2; 3]); first; replicate 512 98; replicate 512 99].
Definition read_two (first : list Z) (offset len : Z) : option (Z * list Z) :=
  let devs := image_devs (two_blocks first) in
  match lafs_mount devs fresh with
  | Ok (_, s) => match lafs_read devs 1 (replicate 600 0) offset len s with Ok (n, (buf, _)) => Some (n, buf) | _ => None end
  | _ => None
  end.

Example second_block_lost : fst <$> read_two (replicate 512 97) 0 600 = Some 512.
Proof. vm_compute. reflexivity. Qed.

(** the file's own data can name the sector read next, here sector 4 *)
Definition steering : list Z := replicate 169 97 ++ enc 4 4 ++ replicate 339 97.
Example second_block_forged : (fun a => (a.1, last a.2)) <$> read_two steering 0 600 = Some (600, Some 99).
Proof. vm_compute. reflexivity. Qed.

(** a length for which [offset + len] wraps is not cut at the end of the file *)
Example read_past_end : match lafs_read (image_devs mkfs_image) 3 (replicate 600 0) 1 4294967295 mounted_fs with
  | Ok (n, _) => n = 511 /\ isize version_inode = 6
  | _ => False
  end.
Proof. vm_compute. split; reflexivity. Qed.

(** a listing that fills its buffer is terminated behind it *)
Example listing_overruns : lafs_readdir (image_devs mkfs_image) 1 (replicate 4 0) 4 mounted_fs = Fault.
Proof. vm_compute. reflexivity. Qed.
