(* ===== verification/Printf.v ===== *)
(** * Formatted output ([kernel/printf.c]): the formatter

    [vsnprintf] and its helpers over the buffer they write: positions are
    offsets into it and a write outside is a fault.  Signed overflow of an [int]
    is undefined in C and is a fault here.  A variable argument is the word in
    its slot, or the characters of the string it points to. *)

From stdpp Require Import base list.
From S2P Require Import Prelude Bytes.

Definition INT_MAX : Z := 2147483647.

(** an [int] result that is not representable is a fault *)
Definition int (z : Z) : res Z := if (-2147483648 <=? z) && (z <=? INT_MAX) then Ok z else Fault.

(** ** Characters *)

Definition C_PERCENT : Z := 37.
Definition C_MINUS : Z := 45.
Definition C_PLUS : Z := 43.
Definition C_SPACE : Z := 32.
Definition C_HASH : Z := 35.
Definition C_STAR : Z := 42.
Definition C_DOT : Z := 46.
Definition C_0 : Z := 48.
Definition C_9 : Z := 57.
Definition C_h : Z := 104.
Definition C_l : Z := 108.
Definition C_z : Z := 122.
Definition C_t : Z := 116.
Definition C_c : Z := 99.
Definition C_s : Z := 115.
Definition C_d : Z := 100.
Definition C_i : Z := 105.
Definition C_u : Z := 117.
Definition C_x : Z := 120.
Definition C_X : Z := 88.
Definition C_o : Z := 111.
Definition C_p : Z := 112.
Definition C_n : Z := 110.

(** ["0123456789abcdef"] and ["0123456789ABCDEF"] *)
Definition dlo : list Z := [48; 49; 50; 51; 52; 53; 54; 55; 56; 57; 97; 98; 99; 100; 101; 102].
Definition dhi : list Z := [48; 49; 50; 51; 52; 53; 54; 55; 56; 57; 65; 66; 67; 68; 69; 70].
(** ["(null)"] *)
Definition null_text : list Z := [40; 110; 117; 108; 108; 41].

(** ** Arguments *)

Inductive arg :=
  | Word (w : Z)                    (** the 64 bits of the slot *)
  | Str (s : option (list Z)).      (** the characters before the terminator, or a null pointer *)

Definition va_word (args : list arg) : res (Z * list arg) :=
  match args with Word w :: args => Ok (w, args) | _ => Fault end.
Definition va_str (args : list arg) : res (option (list Z) * list arg) :=
  match args with Str s :: args => Ok (s, args) | _ => Fault end.

(** the narrower types an argument is read or converted to *)
Definition i16 (z : Z) : Z := (z + 32768) mod 65536 - 32768.
Definition i8 (z : Z) : Z := (z + 128) mod 256 - 128.

(** ** Output *)

(** the buffer, the write position and the characters counted *)
Record out := mk_out { o_buf : list Z; o_p : Z; o_total : Z }.

Section Output.
Variable fin : Z. (** the offset of [end] *)

Definition putc_safe (c : Z) (o : out) : res out :=
  let! total := int (o_total o + 1) in
  if o_p o <? fin then let! b := write_bytes (o_buf o) (o_p o) [u8 c] in Ok (mk_out b (o_p o + 1) total)
  else Ok (mk_out (o_buf o) (o_p o) total).

Fixpoint pad_loop (n : nat) (ch : Z) (o : out) : res out :=
  match n with
  | O => Ok o
  | S n => let! o := putc_safe ch o in pad_loop n ch o
  end.
Definition pad_buf (ch n : Z) (o : out) : res out := pad_loop (Z.to_nat n) ch o.

(** the loops that put the characters of an array, one after the other *)
Fixpoint put_all (l : list Z) (o : out) : res out :=
  match l with
  | [] => Ok o
  | c :: l => let! o := putc_safe c o in put_all l o
  end.

(** the characters of [s] up to the precision *)
Fixpoint prec_len (s : list Z) (prec len : Z) : Z :=
  match s with
  | [] => len
  | _ :: s => if (prec <? 0) || (len <? prec) then prec_len s prec (len + 1) else len
  end.

Definition print_str_w (s : option (list Z)) (width prec : Z) (left : bool) (o : out) : res out :=
  let s := default null_text s in
  let len := prec_len s prec 0 in
  let! len := int len in
  let pad_n := if len <? width then width - len else 0 in
  let! o := if negb left then pad_buf C_SPACE pad_n o else Ok o in
  let! o := put_all (take (Z.to_nat len) s) o in
  if left then pad_buf C_SPACE pad_n o else Ok o.

(** the digits of [val], the last one first, in an array of [cap] characters *)
Fixpoint digit_loop (fuel cap : nat) (digits : list Z) (base val : Z) (tmp : list Z) : res (list Z) :=
  if val =? 0 then Ok tmp
  else
    match fuel with
    | O => Fault
    | S fuel =>
      if (length tmp <? cap)%nat then
        let! d := byte_at digits (val mod base) in
        digit_loop fuel cap digits base (val / base) (tmp ++ [d])
      else Fault
    end.

Definition print_uint_w (v base : Z) (upper : bool) (width prec : Z) (left zero prefix : bool) (o : out) : res out :=
  let digits := if upper then dhi else dlo in
  let! tmp := if v =? 0 then Ok [C_0] else digit_loop 65 64 digits base v [] in
  let n := zlen tmp in
  let pfx :=
    if prefix && (base =? 16) && negb (v =? 0) then [C_0; if upper then C_X else C_x]
    else if prefix && (base =? 8) && negb (default 0 (last tmp) =? C_0) then [C_0]
    else [] in
  let digit_n := if n <? prec then prec else n in
  let! content := int (zlen pfx + digit_n) in
  let pad_n := if content <? width then width - content else 0 in
  let! o :=
    if negb left && zero then let! o := put_all pfx o in pad_buf C_0 pad_n o
    else if negb left then let! o := pad_buf C_SPACE pad_n o in put_all pfx o
    else put_all pfx o in
  let! o := pad_buf C_0 (digit_n - n) o in
  let! o := put_all (rev tmp) o in
  if left then pad_buf C_SPACE pad_n o else Ok o.

Definition print_int_w (v width prec : Z) (left zero force_sign : bool) (o : out) : res out :=
  let sign := if v <? 0 then C_MINUS else if force_sign then C_PLUS else 0 in
  let uv := if v <? 0 then u64 (u64 (- (v + 1)) + 1) else u64 v in
  let! tmp := if uv =? 0 then Ok [C_0] else digit_loop 65 22 dlo 10 uv [] in
  let n := zlen tmp in
  let digit_n := if n <? prec then prec else n in
  let! content := int ((if negb (sign =? 0) then 1 else 0) + digit_n) in
  let pad_n := if content <? width then width - content else 0 in
  let put_sign o := if negb (sign =? 0) then putc_safe sign o else Ok o in
  let! o :=
    if negb left && zero then let! o := put_sign o in pad_buf C_0 pad_n o
    else if negb left then let! o := pad_buf C_SPACE pad_n o in put_sign o
    else put_sign o in
  let! o := pad_buf C_0 (digit_n - n) o in
  let! o := put_all (rev tmp) o in
  if left then pad_buf C_SPACE pad_n o else Ok o.

(** ** Directives *)

Record flags := mk_flags { flag_left : bool; flag_zero : bool; flag_plus : bool; flag_space : bool; flag_hash : bool }.

Fixpoint parse_flags (fmt : list Z) (f : flags) : flags * list Z :=
  match fmt with
  | [] => (f, fmt)
  | c :: rest =>
    if c =? C_MINUS then parse_flags rest (mk_flags true (flag_zero f) (flag_plus f) (flag_space f) (flag_hash f))
    else if c =? C_0 then parse_flags rest (mk_flags (flag_left f) true (flag_plus f) (flag_space f) (flag_hash f))
    else if c =? C_PLUS then parse_flags rest (mk_flags (flag_left f) (flag_zero f) true (flag_space f) (flag_hash f))
    else if c =? C_SPACE then parse_flags rest (mk_flags (flag_left f) (flag_zero f) (flag_plus f) true (flag_hash f))
    else if c =? C_HASH then parse_flags rest (mk_flags (flag_left f) (flag_zero f) (flag_plus f) (flag_space f) true)
    else (f, fmt)
  end.

(** [while ( *fmt >= '0' && *fmt <= '9')] *)
Fixpoint parse_number (fmt : list Z) (acc : Z) : res (Z * list Z) :=
  match fmt with
  | [] => Ok (acc, fmt)
  | c :: rest =>
    if (C_0 <=? c) && (c <=? C_9) then
      let! t := int (acc * 10) in let! acc := int (t + (c - C_0)) in parse_number rest acc
    else Ok (acc, fmt)
  end.

(** the width and whether the field is left-adjusted *)
Definition parse_width (fmt : list Z) (left : bool) (args : list arg) : res (Z * bool * list Z * list arg) :=
  match fmt with
  | c :: rest =>
    if c =? C_STAR then
      let! (w, args) := va_word args in
      let width := i32 w in
      if width <? 0 then let! width := int (- width) in Ok (width, true, rest, args) else Ok (width, left, rest, args)
    else let! (width, fmt) := parse_number fmt 0 in Ok (width, left, fmt, args)
  | [] => Ok (0, left, fmt, args)
  end.

Definition parse_prec (fmt : list Z) (args : list arg) : res (Z * list Z * list arg) :=
  match fmt with
  | d :: fmt' =>
    if d =? C_DOT then
      match fmt' with
      | c :: rest =>
        if c =? C_STAR then
          let! (w, args) := va_word args in
          let prec := i32 w in Ok (if prec <? 0 then -1 else prec, rest, args)
        else let! (prec, fmt) := parse_number fmt' 0 in Ok (prec, fmt, args)
      | [] => Ok (0, fmt', args)
      end
    else Ok (-1, fmt, args)
  | [] => Ok (-1, fmt, args)
  end.

Definition parse_lmod (fmt : list Z) : Z * list Z :=
  match fmt with
  | c :: rest =>
    if c =? C_h then
      match rest with c2 :: rest2 => if c2 =? C_h then (-2, rest2) else (-1, rest) | [] => (-1, rest) end
    else if c =? C_l then
      match rest with c2 :: rest2 => if c2 =? C_l then (2, rest2) else (1, rest) | [] => (1, rest) end
    else if (c =? C_z) || (c =? C_t) then (1, rest)
    else (0, fmt)
  | [] => (0, fmt)
  end.

(** a signed (unsigned) argument of the length *)
Definition signed_arg (lmod w : Z) : Z :=
  if (lmod =? 2) || (lmod =? 1) then i64 w else if lmod =? -1 then i16 (i32 w) else if lmod =? -2 then i8 (i32 w) else i32 w.
Definition unsigned_arg (lmod w : Z) : Z :=
  if (lmod =? 2) || (lmod =? 1) then u64 w else if lmod =? -1 then u16 (u32 w) else if lmod =? -2 then u8 (u32 w) else u32 w.
Definition octal_arg (lmod w : Z) : Z := if (lmod =? 2) || (lmod =? 1) then u64 w else u32 w.

(** step 5: the conversion [c] *)
Definition convert (c : Z) (f : flags) (width prec lmod : Z) (args : list arg) (o : out) : res (list arg * out) :=
  if c =? C_PERCENT then let! o := putc_safe C_PERCENT o in Ok (args, o)
  else if c =? C_c then
    let! (w, args) := va_word args in
    let! pad_n := int (width - 1) in
    let! o := if negb (flag_left f) then pad_buf C_SPACE pad_n o else Ok o in
    let! o := putc_safe (i8 (i32 w)) o in
    let! o := if flag_left f then pad_buf C_SPACE pad_n o else Ok o in
    Ok (args, o)
  else if c =? C_s then
    let! (s, args) := va_str args in
    let! o := print_str_w s width prec (flag_left f) o in Ok (args, o)
  else if (c =? C_d) || (c =? C_i) then
    let! (w, args) := va_word args in
    let! o := print_int_w (signed_arg lmod w) width prec (flag_left f) (flag_zero f) (flag_plus f || flag_space f) o in Ok (args, o)
  else if c =? C_u then
    let! (w, args) := va_word args in
    let! o := print_uint_w (unsigned_arg lmod w) 10 false width prec (flag_left f) (flag_zero f) false o in Ok (args, o)
  else if (c =? C_x) || (c =? C_X) then
    let! (w, args) := va_word args in
    let! o := print_uint_w (unsigned_arg lmod w) 16 (c =? C_X) width prec (flag_left f) (flag_zero f) (flag_hash f) o in Ok (args, o)
  else if c =? C_o then
    let! (w, args) := va_word args in
    let! o := print_uint_w (octal_arg lmod w) 8 false width prec (flag_left f) (flag_zero f) (flag_hash f) o in Ok (args, o)
  else if c =? C_p then
    let! (w, args) := va_word args in
    let! o := putc_safe C_0 o in
    let! o := putc_safe C_x o in
    let! o := print_uint_w (u64 w) 16 false 16 16 false true false o in Ok (args, o)
  else if c =? C_n then
    match args with _ :: args => Ok (args, o) | [] => Fault end
  else
    let! o := putc_safe C_PERCENT o in
    let! o := putc_safe c o in Ok (args, o).

(** a directive from after its percent sign, up to its conversion character;
    the terminator reads as 0 *)
Definition directive (fmt : list Z) (args : list arg) (o : out) : res (list Z * list arg * out) :=
  let '(f, fmt) := parse_flags fmt (mk_flags false false false false false) in
  let zero := if flag_left f then false else flag_zero f in
  let! (width, adjust, fmt, args) := parse_width fmt (flag_left f) args in
  let f := mk_flags adjust zero (flag_plus f) (flag_space f) (flag_hash f) in
  let! (prec, fmt, args) := parse_prec fmt args in
  let '(lmod, fmt) := parse_lmod fmt in
  let! (args, o) := convert (default 0 (head fmt)) f width prec lmod args o in
  Ok (fmt, args, o).

(** [fmt]: what is left of the format before its terminator.  After a directive
    the cursor moves on by one, past the terminator when the directive has no
    conversion character: the next read is then outside the string. *)
Fixpoint format_loop (n : nat) (fmt : list Z) (args : list arg) (o : out) : res out :=
  match fmt with
  | [] => Ok o
  | c :: rest =>
    match n with
    | O => Fault
    | S n =>
      if negb (c =? C_PERCENT) then let! o := putc_safe c o in format_loop n rest args o
      else
        let! (fmt, args, o) := directive rest args o in
        match fmt with
        | [] => Fault
        | _ :: fmt => format_loop n fmt args o
        end
    end
  end.

End Output.

(** [None]: a null buffer *)
Definition vsnprintf (buf : option (list Z)) (size : Z) (fmt : list Z) (args : list arg) : res (Z * option (list Z)) :=
  match buf with
  | None => Ok (0, buf)
  | Some b =>
    if size =? 0 then Ok (0, buf)
    else
      let! o := format_loop (size - 1) (length fmt) fmt args (mk_out b 0 0) in
      let! b := write_bytes (o_buf o) (o_p o) [0] in
      Ok (o_total o, Some b)
  end.

Definition KPRINTF_BUF_SZ : Z := 1024.
Definition ksnprintf (buf : option (list Z)) (size : Z) (fmt : list Z) (args : list arg) : res (Z * option (list Z)) :=
  vsnprintf buf size fmt args.
Definition ksprintf (buf : option (list Z)) (fmt : list Z) (args : list arg) : res (Z * option (list Z)) :=
  vsnprintf buf KPRINTF_BUF_SZ fmt args.

(** [kprint_int]: the characters it sends *)
Definition kprint_int (n base : Z) (sign : bool) : res (list Z) :=
  let neg := sign && (i64 n <? 0) in
  let n := if neg then u64 (- i64 n) else n in
  let pre := if neg then [C_MINUS] else [] in
  if n =? 0 then Ok (pre ++ [C_0])
  else let! buf := digit_loop 65 64 dlo base n [] in Ok (pre ++ rev buf).
