(* ===== verification/PrintfSpec.v ===== *)
(** * Formatted output: what a format means

    A format as a list of pieces, its text, and the characters a piece stands
    for, without any buffer or cursor.  [vsnprintf] on the text of a format puts
    exactly the rendered characters into the buffer, as far as they fit, and
    returns how many there are. *)

From stdpp Require Import base list.
From S2P Require Import Prelude Bytes Printf.

(** ** Numbers in a base *)

(** the digits of [v], the most significant first; none for 0 *)
Fixpoint digits (fuel : nat) (base v : Z) : list Z :=
  match fuel with
  | O => []
  | S fuel => if v =? 0 then [] else digits fuel base (v / base) ++ [v mod base]
  end.

(** the number a list of digits denotes *)
Definition value (base : Z) (ds : list Z) : Z := foldl (fun acc d => acc * base + d) 0 ds.

Definition digit_char (upper : bool) (d : Z) : Z := if d <? 10 then 48 + d else (if upper then 55 else 87) + d.

(** the numeral of a 64-bit number *)
Definition numeral (base : Z) (upper : bool) (v : Z) : list Z :=
  if v =? 0 then [C_0] else digit_char upper <$> digits 64 base v.

(** ** Fields *)

Definition spaces (n : Z) : list Z := replicate (Z.to_nat n) C_SPACE.
Definition zeros (n : Z) : list Z := replicate (Z.to_nat n) C_0.

(** a text adjusted in its field *)
Definition text_field (adjust_left : bool) (width : Z) (t : list Z) : list Z :=
  if adjust_left then t ++ spaces (width - zlen t) else spaces (width - zlen t) ++ t.

(** a number: the sign or prefix, at least [prec] digits, and the field *)
Definition number_field (adjust_left zero : bool) (width prec : Z) (sign num : list Z) : list Z :=
  let body := zeros (prec - zlen num) ++ num in
  let gap := width - (zlen sign + zlen body) in
  if adjust_left then sign ++ body ++ spaces gap
  else if zero then sign ++ zeros gap ++ body
  else spaces gap ++ sign ++ body.

Definition render_int (v width prec : Z) (adjust_left zero force_sign : bool) : list Z :=
  number_field adjust_left zero width prec (if v <? 0 then [C_MINUS] else if force_sign then [C_PLUS] else []) (numeral 10 false (Z.abs v)).

Definition render_uint (v base : Z) (upper : bool) (width prec : Z) (adjust_left zero prefix : bool) : list Z :=
  let pfx := if prefix && negb (v =? 0) then (if base =? 16 then [C_0; if upper then C_X else C_x] else if base =? 8 then [C_0] else []) else [] in
  number_field adjust_left zero width prec pfx (numeral base upper v).

Definition render_str (s : option (list Z)) (width prec : Z) (adjust_left : bool) : list Z :=
  let s := default null_text s in
  text_field adjust_left width (if prec <? 0 then s else take (Z.to_nat prec) s).

(** ** Formats *)

Inductive number := NNone | NNum (n : Z) | NStar.
Inductive length_mod := LNone | Lhh | Lh | Ll | Lll | Lz | Lt.

Inductive piece :=
  | Lit (c : Z)
  | Dir (fl : list Z) (width prec : number) (len : length_mod) (conv : Z).

Definition print_number (n : number) : list Z :=
  match n with NNone => [] | NNum n => numeral 10 false n | NStar => [C_STAR] end.
Definition print_length (l : length_mod) : list Z :=
  match l with LNone => [] | Lhh => [C_h; C_h] | Lh => [C_h] | Ll => [C_l] | Lll => [C_l; C_l] | Lz => [C_z] | Lt => [C_t] end.
Definition length_code (l : length_mod) : Z :=
  match l with LNone => 0 | Lhh => -2 | Lh => -1 | Ll | Lz | Lt => 1 | Lll => 2 end.

Definition print_piece (p : piece) : list Z :=
  match p with
  | Lit c => [c]
  | Dir fl width prec len conv =>
    C_PERCENT :: fl ++ print_number width ++
    match prec with NNone => [] | _ => C_DOT :: print_number prec end ++ print_length len ++ [conv]
  end.

Fixpoint print_format (ps : list piece) : list Z :=
  match ps with
  | [] => []
  | p :: ps => print_piece p ++ print_format ps
  end.

Definition flag_chars : list Z := [C_MINUS; C_0; C_PLUS; C_SPACE; C_HASH].

(** a conversion character is none of those that come before it *)
Definition conv_ok (c : Z) : bool :=
  negb (bool_decide (c ∈ flag_chars)) && negb (bool_decide (c ∈ [0; C_STAR; C_DOT; C_h; C_l; C_z; C_t])) && negb ((C_0 <=? c) && (c <=? C_9)).

Definition piece_ok (p : piece) : Prop :=
  match p with
  | Lit c => is_u8 c /\ c <> C_PERCENT
  | Dir fl width prec len conv =>
    Forall (fun c => c ∈ flag_chars) fl /\
    match width with NNum n => 0 < n <= INT_MAX | _ => True end /\
    match prec with NNum n => 0 <= n <= INT_MAX | _ => True end /\ is_u8 conv /\ conv_ok conv = true
  end.

Definition next_word (args : list arg) : option (Z * list arg) :=
  match args with Word w :: args => Some (w, args) | _ => None end.
Definition next_str (args : list arg) : option (option (list Z) * list arg) :=
  match args with Str s :: args => Some (s, args) | _ => None end.

(** the field width of a directive and whether it is adjusted to the left *)
Definition the_width (n : number) (adjust_left : bool) (args : list arg) : option (Z * bool * list arg) :=
  match n with
  | NNone => Some (0, adjust_left, args)
  | NNum n => Some (n, adjust_left, args)
  | NStar =>
    '(w, args) ← next_word args;
    if i32 w =? -2147483648 then None else Some (Z.abs (i32 w), adjust_left || (i32 w <? 0), args)
  end.
Definition the_prec (n : number) (args : list arg) : option (Z * list arg) :=
  match n with
  | NNone => Some (-1, args)
  | NNum n => Some (n, args)
  | NStar => '(w, args) ← next_word args; Some (Z.max (-1) (i32 w), args)
  end.

(** the characters of one conversion and the arguments left *)
Definition render_conv (c : Z) (left zero sign hash : bool) (width prec lmod : Z) (args : list arg) : option (list Z * list arg) :=
  if c =? C_PERCENT then Some ([C_PERCENT], args)
  else if c =? C_c then '(w, args) ← next_word args; Some (text_field left width [u8 w], args)
  else if c =? C_s then '(s, args) ← next_str args; Some (render_str s width prec left, args)
  else if (c =? C_d) || (c =? C_i) then '(w, args) ← next_word args; Some (render_int (signed_arg lmod w) width prec left zero sign, args)
  else if c =? C_u then '(w, args) ← next_word args; Some (render_uint (unsigned_arg lmod w) 10 false width prec left zero false, args)
  else if (c =? C_x) || (c =? C_X) then
    '(w, args) ← next_word args; Some (render_uint (unsigned_arg lmod w) 16 (c =? C_X) width prec left zero hash, args)
  else if c =? C_o then '(w, args) ← next_word args; Some (render_uint (octal_arg lmod w) 8 false width prec left zero hash, args)
  else if c =? C_p then '(w, args) ← next_word args; Some ([C_0] ++ [C_x] ++ render_uint (u64 w) 16 false 16 16 false true false, args)
  else if c =? C_n then match args with _ :: args => Some ([], args) | [] => None end
  else Some ([C_PERCENT; c], args).

Definition has (fl : list Z) (c : Z) : bool := bool_decide (c ∈ fl).

Definition render_piece (p : piece) (args : list arg) : option (list Z * list arg) :=
  match p with
  | Lit c => Some ([c], args)
  | Dir fl width prec len conv =>
    '(w, adjust, args) ← the_width width (has fl C_MINUS) args;
    '(pr, args) ← the_prec prec args;
    render_conv conv adjust (has fl C_0 && negb (has fl C_MINUS)) (has fl C_PLUS || has fl C_SPACE) (has fl C_HASH) w pr (length_code len) args
  end.

Fixpoint render (ps : list piece) (args : list arg) : option (list Z) :=
  match ps with
  | [] => Some []
  | p :: ps =>
    '(t, args) ← render_piece p args;
    u ← render ps args;
    Some (t ++ u)
  end.

(** an argument that is a string is a string of bytes *)
Definition arg_ok (a : arg) : Prop := match a with Str (Some s) => bytes s | _ => True end.

(** ** What has been written

    [holds b t o]: of the text [t] as much as fits before [fin] is in the buffer,
    which was [b], and all of it is counted. *)

Section Emit.
Context (fin : Z) (Hfin : 0 <= fin).

Definition holds (b t : list Z) (o : out) : Prop :=
  o_total o = zlen t /\ o_p o = Z.min fin (zlen t) /\ o_buf o = take (Z.to_nat (o_p o)) t ++ drop (Z.to_nat (o_p o)) b.

(** the code [m] puts out [l], wherever the output stands *)
Definition emits (m : out -> res out) (l : list Z) : Prop :=
  forall b t o, Z.min fin (zlen (t ++ l)) < zlen b -> holds b t o -> zlen (t ++ l) <= INT_MAX -> exists o', m o = Ok o' /\ holds b (t ++ l) o'.

Lemma int_ok z : -2147483648 <= z <= INT_MAX -> int z = Ok z.
Proof. unfold int. intros H. rewrite (proj2 (Z.leb_le _ _)), (proj2 (Z.leb_le _ _)) by lia. done. Qed.

Lemma emits_nothing : emits Ok [].
Proof. intros b t o _ H _. rewrite app_nil_r. eauto. Qed.

Lemma emits_bind m1 m2 l1 l2 : emits m1 l1 -> emits m2 l2 -> emits (fun o => let! o := m1 o in m2 o) (l1 ++ l2).
Proof.
  intros H1 H2 b t o HB HO HL. rewrite app_assoc in *.
  destruct (H1 b t o) as (o1 & -> & HO1); [rewrite (zlen_app (t ++ l1)) in HB; unfold zlen in *; lia | done | rewrite zlen_app in HL; unfold zlen in *; lia |]. cbn [res_bind].
  by apply (H2 b (t ++ l1)).
Qed.

Lemma emits_ext m m' l : (forall o, m o = m' o) -> emits m' l -> emits m l.
Proof. intros E H b t o HB HO HL. rewrite E. by apply H. Qed.

Lemma emits_putc c : emits (putc_safe fin c) [u8 c].
Proof.
  intros b t o HB (H1 & H2 & H3) HL. rewrite zlen_app in HB, HL. change (zlen [u8 c]) with 1 in HB, HL. unfold putc_safe.
  rewrite H1, int_ok by (unfold zlen in *; lia). cbn [res_bind]. unfold zlen in *.
  destruct (Z.ltb_spec (o_p o) fin) as [Hp | Hp].
  - assert (Hlen : length (o_buf o) = length b) by (rewrite H3, length_app, length_take, length_drop; lia).
    unfold write_bytes, zlen. rewrite (proj2 (Z.leb_le 0 (o_p o))), (proj2 (Z.leb_le _ _)) by (simpl; lia). cbn [andb res_bind].
    eexists. split; [reflexivity |]. split_and!; cbn [o_total o_p o_buf].
    + unfold zlen. rewrite length_app. simpl. lia.
    + unfold zlen. rewrite length_app. simpl. lia.
    + rewrite H3. assert (Ep : Z.to_nat (o_p o) = length t) by lia. rewrite Ep. simpl length.
      replace (Z.to_nat (o_p o + Z.of_nat 1)) with (length t + 1)%nat by lia. replace (Z.to_nat (o_p o + 1)) with (length t + 1)%nat by lia.
      rewrite (take_ge t) by lia. rewrite take_app_length, drop_app, (drop_ge t) by lia.
      rewrite drop_drop, (take_ge (t ++ [u8 c])) by (rewrite length_app; simpl; lia).
      replace (length t + (length t + 1 - length t))%nat with (length t + 1)%nat by lia. by rewrite <- app_assoc.
  - eexists. split; [reflexivity |]. split_and!; cbn [o_total o_p o_buf]; unfold zlen; rewrite ?length_app; simpl; try lia.
    rewrite H3, take_app_le by lia. done.
Qed.

Lemma emits_putc_byte c : is_u8 c -> emits (putc_safe fin c) [c].
Proof. intros H. pose proof (emits_putc c) as E. unfold u8 in E. by rewrite Z.mod_small in E. Qed.

Lemma emits_put_all l : bytes l -> emits (put_all fin l) l.
Proof.
  induction 1 as [| c l Hc HB IH]; [apply emits_nothing |]. cbn [put_all].
  apply (emits_bind (putc_safe fin c) (put_all fin l) [c] l); [by apply emits_putc_byte | done].
Qed.

Lemma emits_pad ch n : is_u8 ch -> emits (pad_buf fin ch n) (replicate (Z.to_nat n) ch).
Proof.
  intros Hc. unfold pad_buf. generalize (Z.to_nat n). clear n. intros n. induction n as [| n IH]; [apply emits_nothing |]. cbn [pad_loop replicate].
  apply (emits_bind (putc_safe fin ch) (pad_loop fin n ch) [ch]); [by apply emits_putc_byte | done].
Qed.

Lemma emits_spaces n : emits (pad_buf fin C_SPACE n) (spaces n).
Proof. by apply emits_pad. Qed.
Lemma emits_zeros n : emits (pad_buf fin C_0 n) (zeros n).
Proof. by apply emits_pad. Qed.

End Emit.

(** ** Digits *)

Definition digs (upper : bool) : list Z := if upper then dhi else dlo.

Lemma digs_char upper d : 0 <= d < 16 -> byte_at (digs upper) d = Ok (digit_char upper d).
Proof.
  intros Hd. assert (HE : forallb (fun d => match byte_at (digs upper) d with Ok c => c =? digit_char upper d | _ => false end) (seqZ 0 16) = true)
    by (by destruct upper).
  rewrite forallb_forall in HE. specialize (HE d). rewrite <- list_elem_of_In, elem_of_seqZ in HE. specialize (HE ltac:(lia)).
  destruct (byte_at (digs upper) d); [| done..]. f_equal. lia.
Qed.

Lemma digits_fuel k k' base v : 2 <= base -> 0 <= v < base ^ Z.of_nat k -> (k <= k')%nat -> digits k' base v = digits k base v.
Proof.
  intros Hb. revert k' v. induction k as [| k IH]; intros k' v Hv Hk.
  - assert (v = 0) as -> by (simpl in Hv; lia). by destruct k'.
  - destruct k' as [| k']; [lia |]. cbn [digits]. destruct (v =? 0); [done |]. rewrite (IH k'); [done | | lia].
    rewrite Nat2Z.inj_succ, Z.pow_succ_r in Hv by lia. split; [apply Z.div_pos; lia | apply Z.div_lt_upper_bound; lia].
Qed.

Lemma digit_loop_ok k F cap upper base v tmp : 2 <= base <= 16 -> 0 <= v < base ^ Z.of_nat k -> (k <= F)%nat -> (length tmp + k <= cap)%nat ->
  digit_loop F cap (digs upper) base v tmp = Ok (tmp ++ rev (digit_char upper <$> digits k base v)).
Proof.
  intros Hb. revert F v tmp. induction k as [| k IH]; intros F v tmp Hv HF Hc.
  - assert (v = 0) as -> by (simpl in Hv; lia). simpl. rewrite app_nil_r. by destruct F.
  - cbn [digits]. destruct F as [| F]; [lia |]. cbn [digit_loop]. destruct (Z.eqb_spec v 0) as [-> | Hn]; [simpl; by rewrite app_nil_r |].
    rewrite (proj2 (Nat.ltb_lt _ _)) by lia. pose proof (Z.mod_pos_bound v base). rewrite digs_char by lia. cbn [res_bind].
    rewrite Nat2Z.inj_succ, Z.pow_succ_r in Hv by lia.
    rewrite IH; [| split; [apply Z.div_pos; lia | apply Z.div_lt_upper_bound; lia] | lia | rewrite length_app; simpl; lia].
    rewrite fmap_app, rev_app_distr. simpl. by rewrite <- app_assoc.
Qed.

(** the numeral of a number has the number's value, its digits are digits, and the first is not 0 *)
Lemma digits_value k base v : 2 <= base -> 0 <= v < base ^ Z.of_nat k ->
  value base (digits k base v) = v /\ Forall (fun d => 0 <= d < base) (digits k base v) /\ (forall d, head (digits k base v) = Some d -> d <> 0).
Proof.
  intros Hb. revert v. induction k as [| k IH]; intros v Hv; cbn [digits].
  - simpl in Hv. split_and!; [cbn; lia | constructor | done].
  - destruct (Z.eqb_spec v 0) as [-> | Hn]; [split_and!; [done | constructor | done] |].
    rewrite Nat2Z.inj_succ, Z.pow_succ_r in Hv by lia.
    destruct (IH (v / base)) as (H1 & H2 & H3); [split; [apply Z.div_pos; lia | apply Z.div_lt_upper_bound; lia] |].
    pose proof (Z.mod_pos_bound v base). split_and!.
    + unfold value in *. rewrite foldl_app, H1. simpl. pose proof (Z.div_mod v base). lia.
    + apply Forall_app. split; [done |]. constructor; [lia | constructor].
    + intros d. destruct (digits k base (v / base)) as [| e l]; [| by apply H3].
      cbn [value foldl] in H1. simpl. intros [= <-]. pose proof (Z.div_mod v base ltac:(lia)) as HD. rewrite <- H1 in HD. lia.
Qed.

Lemma digits_nonempty k base v : v <> 0 -> digits (S k) base v <> [].
Proof. intros Hn. cbn [digits]. rewrite (proj2 (Z.eqb_neq v 0)) by done. by destruct (digits k base (v / base)). Qed.

Lemma digit_char_byte upper d : 0 <= d < 16 -> is_u8 (digit_char upper d).
Proof. intros. unfold digit_char. red. destruct (d <? 10), upper; lia. Qed.

(** the bases of the conversions *)
Definition conv_base (base : Z) : Prop := base = 8 \/ base = 10 \/ base = 16.

Lemma base_pow base v : conv_base base -> is_u64 v -> 0 <= v < base ^ Z.of_nat 22.
Proof. intros [-> | [-> | ->]] Hv; red in Hv; (split; [lia |]); (apply Z.lt_le_trans with 18446744073709551616; [lia | vm_compute; discriminate]). Qed.

Lemma numeral_bytes base upper v : conv_base base -> is_u64 v -> bytes (numeral base upper v) /\ numeral base upper v <> [].
Proof.
  intros Hb Hv. unfold numeral. destruct (Z.eqb_spec v 0) as [| Hn]; [split; [by repeat constructor | done] |].
  pose proof (base_pow base v Hb Hv) as Hp. assert (2 <= base <= 16) by (red in Hb; lia). split.
  - rewrite (digits_fuel 22 64) by (done || lia). destruct (digits_value 22 base v) as (_ & HF & _); [lia | done |].
    apply Forall_fmap. eapply Forall_impl; [exact HF |]. intros d Hd. cbv beta in Hd. apply digit_char_byte. lia.
  - intros E. apply fmap_nil_inv in E. by apply (digits_nonempty 63 base v).
Qed.

(** the conversion loop of the printers gives the numeral, backwards *)
Lemma numeral_loop F cap base upper v : conv_base base -> is_u64 v -> (22 <= F)%nat -> (22 <= cap)%nat ->
  (if v =? 0 then Ok [C_0] else digit_loop F cap (digs upper) base v []) = Ok (rev (numeral base upper v)).
Proof.
  intros Hb Hv HF Hc. unfold numeral. destruct (v =? 0); [done |]. pose proof (base_pow base v Hb Hv) as Hp.
  assert (2 <= base <= 16) by (red in Hb; lia). rewrite (digit_loop_ok 22) by (done || (simpl; lia)).
  rewrite app_nil_l, (digits_fuel 22 64) by (done || lia). done.
Qed.

(** ** The printers emit the fields *)

Section Printers.
Context (fin : Z) (Hfin : 0 <= fin).

(** the common end of the number printers *)
Definition number_tail (left zero : bool) (pad_n extra : Z) (put_sign : out -> res out) (num : list Z) (o : out) : res out :=
  let! o :=
    if negb left && zero then let! o := put_sign o in pad_buf fin C_0 pad_n o
    else if negb left then let! o := pad_buf fin C_SPACE pad_n o in put_sign o
    else put_sign o in
  let! o := pad_buf fin C_0 extra o in
  let! o := put_all fin num o in
  if left then pad_buf fin C_SPACE pad_n o else Ok o.

Lemma number_tail_emits left zero width prec put_sign sign num pad_n extra : emits fin put_sign sign -> bytes num ->
  Z.to_nat pad_n = Z.to_nat (width - (zlen sign + zlen (zeros (prec - zlen num) ++ num))) -> Z.to_nat extra = Z.to_nat (prec - zlen num) ->
  emits fin (number_tail left zero pad_n extra put_sign num) (number_field left zero width prec sign num).
Proof.
  intros HS HN Hpad Hex. unfold number_field. set (body := zeros (prec - zlen num) ++ num) in *.
  assert (ES : spaces (width - (zlen sign + zlen body)) = spaces pad_n) by (unfold spaces; by rewrite Hpad).
  assert (EZ : zeros (width - (zlen sign + zlen body)) = zeros pad_n) by (unfold zeros; by rewrite Hpad). rewrite ES, EZ.
  assert (HZ : emits fin (pad_buf fin C_0 extra) (zeros (prec - zlen num))) by (unfold zeros; rewrite <- Hex; by apply emits_zeros).
  assert (HE : emits fin (fun o => let! o := pad_buf fin C_0 extra o in let! o := put_all fin num o in if left then pad_buf fin C_SPACE pad_n o else Ok o)
    (body ++ if left then spaces pad_n else [])).
  { subst body. rewrite <- app_assoc. apply (emits_bind fin _ (fun o => let! o := put_all fin num o in if left then pad_buf fin C_SPACE pad_n o else Ok o)); [done |].
    apply (emits_bind fin _ (fun o => if left then pad_buf fin C_SPACE pad_n o else Ok o)); [by apply emits_put_all |].
    destruct left; [by apply emits_spaces | apply emits_nothing]. }
  unfold number_tail. destruct left; cbn [negb andb].
  - apply (emits_bind fin _ _ _ _ HS HE).
  - rewrite app_nil_r in HE. destruct zero; rewrite app_assoc.
    + apply (emits_bind fin _ _ _ _ (emits_bind fin _ _ _ _ HS (emits_zeros fin Hfin pad_n)) HE).
    + apply (emits_bind fin _ _ _ _ (emits_bind fin _ _ _ _ (emits_spaces fin Hfin pad_n) HS) HE).
Qed.

Lemma zlen_replicate n (c : Z) : zlen (replicate n c) = Z.of_nat n.
Proof. unfold zlen. by rewrite length_replicate. Qed.

Lemma number_field_len left zero width prec sign num :
  zlen sign + Z.max prec (zlen num) <= zlen (number_field left zero width prec sign num).
Proof.
  unfold number_field. destruct left; [| destruct zero]; rewrite !zlen_app; unfold zeros, spaces;
    rewrite !zlen_replicate; pose proof (zlen_nonneg sign); lia.
Qed.

(** the printers run their common end after the tests for overflow *)
Lemma number_emits left zero width prec put_sign sign num : emits fin put_sign sign -> bytes num -> 0 <= width ->
  emits fin (fun o =>
    let n := zlen (rev num) in
    let digit_n := if n <? prec then prec else n in
    let! content := int (zlen sign + digit_n) in
    let pad_n := if content <? width then width - content else 0 in
    number_tail left zero pad_n (digit_n - n) put_sign (rev (rev num)) o) (number_field left zero width prec sign num).
Proof.
  intros HS HN Hw b t o HB HO HL.
  pose proof (number_field_len left zero width prec sign num) as HF. pose proof (zlen_nonneg sign). pose proof (zlen_nonneg t).
  rewrite zlen_app in HL.
  assert (Hrev : zlen (rev num) = zlen num) by (unfold zlen; by rewrite length_rev). rewrite Hrev, rev_involutive. cbv zeta.
  pose proof (zlen_nonneg num).
  assert (HD : (if zlen num <? prec then prec else zlen num) = Z.max prec (zlen num)) by (zbool; lia). rewrite HD.
  rewrite int_ok by lia. cbn [res_bind]. apply number_tail_emits; [done | done | | | done | done | by rewrite zlen_app]; [| lia].
  rewrite zlen_app. unfold zeros. rewrite zlen_replicate. zbool; lia.
Qed.

Lemma numeral_head base upper v : conv_base base -> is_u64 v -> v <> 0 ->
  exists c l, numeral base upper v = c :: l /\ c <> C_0.
Proof.
  intros Hb Hv Hn. destruct (numeral_bytes base upper v Hb Hv) as [_ Hne]. unfold numeral in *. rewrite (proj2 (Z.eqb_neq v 0)) in * by done.
  pose proof (base_pow base v Hb Hv) as Hp. assert (2 <= base <= 16) by (red in Hb; lia).
  rewrite (digits_fuel 22 64) in * by (done || lia). destruct (digits_value 22 base v) as (_ & HF & HD); [lia | done |].
  destruct (digits 22 base v) as [| d l]; [done |]. cbn [fmap list_fmap]. eexists _, _. split; [reflexivity |].
  inversion HF; subst. specialize (HD d eq_refl). unfold digit_char, C_0. destruct (Z.ltb_spec d 10), upper; lia.
Qed.

Lemma print_uint_emits v base upper width prec left zero prefix : conv_base base -> is_u64 v -> 0 <= width ->
  emits fin (print_uint_w fin v base upper width prec left zero prefix) (render_uint v base upper width prec left zero prefix).
Proof.
  intros Hb Hv Hw. unfold render_uint. destruct (numeral_bytes base upper v Hb Hv) as [HN Hne].
  set (pfx := if prefix && negb (v =? 0) then _ else _).
  assert (HP : bytes pfx) by (subst pfx; destruct prefix, (v =? 0), (base =? 16), (base =? 8), upper; by repeat constructor).
  eapply emits_ext; [| apply (number_emits left zero width prec (put_all fin pfx) pfx); [by apply emits_put_all | exact HN | done]].
  intros o. unfold print_uint_w. fold (digs upper). rewrite numeral_loop by (done || lia). cbn [res_bind].
  assert (EP : (if prefix && (base =? 16) && negb (v =? 0) then [C_0; if upper then C_X else C_x]
     else if prefix && (base =? 8) && negb (default 0 (last (rev (numeral base upper v))) =? C_0) then [C_0] else []) = pfx).
  { subst pfx. destruct prefix; [| done]. destruct (Z.eqb_spec v 0) as [-> | Hn]; cbn [andb negb].
    - unfold numeral. simpl. by destruct (base =? 16), (base =? 8).
    - destruct (base =? 16) eqn:E16; cbn [andb negb]; [done |]. destruct (Z.eqb_spec base 8) as [-> | ?]; [| done]. cbn [andb].
      destruct (numeral_head 8 upper v Hb Hv Hn) as (c & l & -> & Hc). cbn [rev]. rewrite last_snoc. simpl.
      by rewrite (proj2 (Z.eqb_neq c C_0)). }
  rewrite EP. reflexivity.
Qed.

Lemma print_int_emits v width prec left zero force : -9223372036854775808 <= v < 9223372036854775808 -> 0 <= width ->
  emits fin (print_int_w fin v width prec left zero force) (render_int v width prec left zero force).
Proof.
  intros Hv Hw. unfold render_int.
  assert (Hu : is_u64 (Z.abs v)) by (red; lia). assert (Hb : conv_base 10) by (red; lia).
  destruct (numeral_bytes 10 false (Z.abs v) Hb Hu) as [HN _].
  set (sign := if v <? 0 then C_MINUS else if force then C_PLUS else 0).
  set (sl := if v <? 0 then [C_MINUS] else if force then [C_PLUS] else []).
  assert (HS : emits fin (fun o => if negb (sign =? 0) then putc_safe fin sign o else Ok o) sl).
  { subst sign sl. destruct (v <? 0); [by apply emits_putc_byte |]. destruct force; [by apply emits_putc_byte | apply emits_nothing]. }
  eapply emits_ext; [| apply (number_emits left zero width prec _ sl (numeral 10 false (Z.abs v)) HS HN Hw)].
  intros o. unfold print_int_w. fold sign. cbv zeta.
  assert (EU : (if v <? 0 then u64 (u64 (- (v + 1)) + 1) else u64 v) = Z.abs v).
  { destruct (Z.ltb_spec v 0); rewrite !u64_small by (red; lia || (rewrite u64_small by (red; lia); lia)); lia. }
  rewrite EU. change dlo with (digs false). rewrite numeral_loop by (done || lia). cbn [res_bind].
  assert (EL : (if negb (sign =? 0) then 1 else 0) = zlen sl) by (subst sign sl; destruct (v <? 0), force; done).
  rewrite EL. reflexivity.
Qed.

Lemma prec_len_spec s prec len : 0 <= len ->
  prec_len s prec len = len + zlen (if prec <? 0 then s else take (Z.to_nat (prec - len)) s).
Proof.
  revert len. induction s as [| c s IH]; intros len Hl; cbn [prec_len].
  - destruct (prec <? 0); rewrite ?take_nil; unfold zlen; simpl; lia.
  - destruct (Z.ltb_spec prec 0), (Z.ltb_spec len prec); cbn [orb]; try lia.
    + rewrite IH by lia. destruct (Z.ltb_spec prec 0); [| lia]. unfold zlen. simpl. lia.
    + rewrite IH by lia. destruct (Z.ltb_spec prec 0); [lia |]. replace (Z.to_nat (prec - len)) with (S (Z.to_nat (prec - (len + 1)))) by lia.
      unfold zlen. simpl. lia.
    + replace (Z.to_nat (prec - len)) with 0%nat by lia. unfold zlen. simpl. lia.
Qed.

Lemma text_emits left width t m : emits fin m t ->
  emits fin (fun o => let pad_n := if zlen t <? width then width - zlen t else 0 in
    let! o := if negb left then pad_buf fin C_SPACE pad_n o else Ok o in
    let! o := m o in
    if left then pad_buf fin C_SPACE pad_n o else Ok o) (text_field left width t).
Proof.
  intros HM. unfold text_field. set (pad_n := if zlen t <? width then width - zlen t else 0).
  assert (ES : spaces (width - zlen t) = spaces pad_n).
  { unfold spaces. f_equal. subst pad_n. pose proof (zlen_nonneg t). zbool; lia. }
  rewrite ES. destruct left; cbn [negb].
  - apply (emits_bind fin Ok (fun o => let! o := m o in pad_buf fin C_SPACE pad_n o) []); [apply emits_nothing |].
    apply (emits_bind fin m (pad_buf fin C_SPACE pad_n)); [done | by apply emits_spaces].
  - apply (emits_bind fin (pad_buf fin C_SPACE pad_n) (fun o => let! o := m o in Ok o)); [by apply emits_spaces |].
    rewrite <- (app_nil_r t). apply (emits_bind fin m Ok); [done | apply emits_nothing].
Qed.

Lemma print_str_emits s width prec left : match s with Some s => bytes s | None => True end ->
  emits fin (print_str_w fin s width prec left) (render_str s width prec left).
Proof.
  intros HB b t o Hb HO HL. unfold render_str, print_str_w in *. rewrite prec_len_spec, Z.add_0_l, Z.sub_0_r by lia.
  set (u := default null_text s) in *.
  assert (Hu : bytes u) by (subst u; destruct s; [done | by repeat constructor]). clearbody u.
  set (w := if prec <? 0 then u else take (Z.to_nat prec) u) in *.
  assert (Hw : bytes w /\ take (Z.to_nat (zlen w)) u = w).
  { subst w. unfold zlen. rewrite Nat2Z.id. destruct (prec <? 0); [by rewrite take_ge |]. split; [by apply Forall_take |].
    rewrite length_take. destruct (decide (Z.to_nat prec <= length u)%nat);
      [by rewrite Nat.min_l | rewrite Nat.min_r, !take_ge by lia; done]. }
  destruct Hw as [Hw Ew]. clearbody w. pose proof (zlen_nonneg w). pose proof (zlen_nonneg t).
  assert (zlen w <= zlen (text_field left width w)) by (unfold text_field; destruct left; rewrite zlen_app; pose proof (zlen_nonneg (spaces (width - zlen w))); lia).
  rewrite int_ok by (rewrite zlen_app in HL; lia). cbn [res_bind]. rewrite Ew.
  by apply (text_emits left width w (put_all fin w)); [apply emits_put_all | | |].
Qed.

Lemma signed_arg_range lmod w : -9223372036854775808 <= signed_arg lmod w < 9223372036854775808.
Proof. unfold signed_arg, i64, i32, i16, i8. repeat destruct (_ || _); repeat destruct (_ =? _); zlia. Qed.

Lemma unsigned_arg_range lmod w : is_u64 (unsigned_arg lmod w) /\ is_u64 (octal_arg lmod w).
Proof. unfold unsigned_arg, octal_arg, u64, u32, u16, u8, is_u64. repeat destruct (_ || _); repeat destruct (_ =? _); zlia. Qed.

(** one conversion with the arguments it takes *)
Definition converts (m : out -> res (list arg * out)) (args : list arg) (l : list Z) : Prop :=
  emits fin (fun o => let! (_, o) := m o in Ok o) l /\ forall o r, m o = Ok r -> r.1 = args.

Lemma converts_here m args l : emits fin m l -> converts (fun o => let! o := m o in Ok (args, o)) args l.
Proof.
  intros HM. split.
  - eapply emits_ext; [| exact HM]. intros o. destruct (m o); done.
  - intros o r. destruct (m o); by intros [= <-].
Qed.

Lemma converts_elim m args l b t o : converts m args l -> Z.min fin (zlen (t ++ l)) < zlen b -> holds fin b t o -> zlen (t ++ l) <= INT_MAX ->
  exists o', m o = Ok (args, o') /\ holds fin b (t ++ l) o'.
Proof.
  intros [HE HA] HB HO HL. destruct (HE b t o HB HO HL) as (o' & E & HO'). specialize (HA o).
  destruct (m o) as [[a o1] | |]; cbn [res_bind] in E; [| done..]. injection E as ->. specialize (HA _ eq_refl). cbn in HA. subst. eauto.
Qed.

Lemma char_emits left width w : 0 <= width ->
  emits fin (fun o =>
    let! o := if negb left then pad_buf fin C_SPACE (width - 1) o else Ok o in
    let! o := putc_safe fin (i8 (i32 w)) o in
    if left then pad_buf fin C_SPACE (width - 1) o else Ok o) (text_field left width [u8 w]).
Proof.
  intros Hw. assert (EC : u8 (i8 (i32 w)) = u8 w) by (unfold u8, i8, i32; zlia).
  pose proof (text_emits left width [u8 w] (putc_safe fin (i8 (i32 w)))) as HT. rewrite <- EC in HT at 1. specialize (HT (emits_putc fin Hfin _)).
  eapply emits_ext; [| exact HT]. intros o. change (zlen [u8 w]) with 1. cbv zeta. unfold pad_buf.
  replace (Z.to_nat (if 1 <? width then width - 1 else 0)) with (Z.to_nat (width - 1)) by (zbool; lia). done.
Qed.

Lemma converts_ext m m' args l : (forall o, m o = m' o) -> converts m' args l -> converts m args l.
Proof. intros E [H1 H2]. split; [eapply emits_ext; [| exact H1]; intros o; by rewrite E |]. intros o r. rewrite E. apply H2. Qed.

(** a conversion of a word *)
Lemma word_converts args (m : Z -> out -> res out) (u : Z -> list Z) l args' : Forall arg_ok args -> (forall w, emits fin (m w) (u w)) ->
  ('(w, args) ← next_word args; Some (u w, args)) = Some (l, args') ->
  converts (fun o => let! (w, args) := va_word args in let! o := m w o in Ok (args, o)) args' l /\ Forall arg_ok args'.
Proof.
  intros HA HM. destruct args as [| [w | s] args1]; [done | | done]. cbn. intros [= <- <-]. split; [| by inversion HA].
  apply converts_here, HM.
Qed.

Lemma bind_assoc {A B C} (m : res A) (f : A -> res B) (g : B -> res C) :
  (let! b := (let! a := m in f a) in g b) = (let! a := m in let! b := f a in g b).
Proof. by destruct m. Qed.

Lemma convert_ok c left zero plus space hash width prec lmod args l args' : is_u8 c -> 0 <= width <= INT_MAX -> Forall arg_ok args ->
  render_conv c left zero (plus || space) hash width prec lmod args = Some (l, args') ->
  converts (convert fin c (mk_flags left zero plus space hash) width prec lmod args) args' l /\ Forall arg_ok args'.
Proof.
  intros Hc Hw HA. unfold render_conv, convert. cbn [flag_left flag_zero flag_plus flag_space flag_hash].
  destruct (c =? C_PERCENT). { intros [= <- <-]. split; [| done]. by apply converts_here, emits_putc_byte. }
  destruct (c =? C_c).
  { intros H. destruct (word_converts args _ (fun w => text_field left width [u8 w]) l args' HA (fun w => char_emits left width w ltac:(lia)) H) as [H1 H2].
    split; [| done]. eapply converts_ext; [| exact H1]. intros o. destruct args as [| [w | ?] ?]; [done | | done]. cbn [va_word res_bind].
    rewrite int_ok by lia. cbn [res_bind]. rewrite bind_assoc. destruct (if negb left then _ else _); [| done..]. cbn [res_bind].
    by rewrite bind_assoc. }
  destruct (c =? C_s).
  { destruct args as [| [? | s] args1]; [done.. |]. cbn. intros [= <- <-]. inversion HA; subst. split; [| done].
    apply converts_here, print_str_emits. by destruct s. }
  destruct ((c =? C_d) || (c =? C_i)).
  { apply word_converts; [done |]. intros w. apply print_int_emits; [apply signed_arg_range | lia]. }
  assert (HU : forall base up z pre w (f : Z -> Z -> Z), conv_base base -> (forall k v, is_u64 (f k v)) ->
    emits fin (print_uint_w fin (f lmod w) base up width prec left z pre) (render_uint (f lmod w) base up width prec left z pre))
    by (intros; apply print_uint_emits; auto; lia).
  destruct (c =? C_u). { apply word_converts; [done |]. intros w. apply HU; [red; lia | apply unsigned_arg_range]. }
  destruct ((c =? C_x) || (c =? C_X)). { apply word_converts; [done |]. intros w. apply HU; [red; lia | apply unsigned_arg_range]. }
  destruct (c =? C_o). { apply word_converts; [done |]. intros w. apply HU; [red; lia | intros; apply unsigned_arg_range; exact 0]. }
  destruct (c =? C_p).
  { intros H. edestruct (word_converts args (fun w o => let! o := putc_safe fin C_0 o in let! o := putc_safe fin C_x o in
      print_uint_w fin (u64 w) 16 false 16 16 false true false o)) as [H1 H2]; [exact HA | | exact H |].
    - intros w. apply (emits_bind fin (putc_safe fin C_0)); [by apply emits_putc_byte |].
      apply (emits_bind fin (putc_safe fin C_x)); [by apply emits_putc_byte |]. apply print_uint_emits; [red; lia | apply u64_range | lia].
    - split; [| done]. eapply converts_ext; [| exact H1]. intros o. destruct args as [| [w | ?] ?]; [done | | done]. cbn [va_word res_bind].
      rewrite bind_assoc. destruct (putc_safe fin C_0 o); [| done..]. cbn [res_bind]. by rewrite bind_assoc. }
  destruct (c =? C_n).
  { destruct args as [| a args1]; [done |]. intros [= <- <-]. inversion HA; subst. split; [| done]. by apply (converts_here Ok), emits_nothing. }
  intros [= <- <-]. split; [| done]. eapply converts_ext; [| apply converts_here, (emits_bind fin (putc_safe fin C_PERCENT) (putc_safe fin c) [C_PERCENT] [c]);
    by apply emits_putc_byte]. intros o. cbv beta. by rewrite bind_assoc.
Qed.

End Printers.
