(* ===== verification/PrintfCorrect.v ===== *)
(** * Formatted output: [vsnprintf] means what the format says

    The parser of directives reads back the text of a directive; with the
    printers of the last file this gives the meaning of a whole format. *)

From stdpp Require Import base list.
From S2P Require Import Prelude Bytes Printf PrintfSpec.

(** ** Reading a directive back *)

Lemma has_cons c fl x : has (c :: fl) x = (c =? x) || has fl x.
Proof.
  unfold has. destruct (Z.eqb_spec c x) as [-> | Hne]; simpl.
  - apply bool_decide_true. lmem.
  - apply bool_decide_ext. rewrite elem_of_cons. intuition congruence.
Qed.

(** the text does not start with a character of a kind *)
Definition starts_not (P : Z -> bool) (l : list Z) : Prop := match l with c :: _ => P c = false | [] => True end.
Definition is_flag (c : Z) : bool := bool_decide (c ∈ flag_chars).
Definition dec_digit (c : Z) : bool := (C_0 <=? c) && (c <=? C_9).

Lemma parse_flags_ok fl rest f : Forall (fun c => c ∈ flag_chars) fl -> starts_not is_flag rest ->
  parse_flags (fl ++ rest) f =
  (mk_flags (flag_left f || has fl C_MINUS) (flag_zero f || has fl C_0) (flag_plus f || has fl C_PLUS)
     (flag_space f || has fl C_SPACE) (flag_hash f || has fl C_HASH), rest).
Proof.
  intros HF HR. revert f. induction HF as [| c fl Hc HF IH]; intros [a b p s h].
  - cbn [app]. rewrite !orb_false_r. cbn [flag_left flag_zero flag_plus flag_space flag_hash].
    destruct rest as [| c rest]; [done |]. cbn [parse_flags starts_not] in *. unfold is_flag in HR. apply bool_decide_eq_false in HR.
    unfold flag_chars in HR. zbool; subst; try done; destruct HR; lmem.
  - rewrite !has_cons. unfold flag_chars in Hc. rewrite !elem_of_cons, elem_of_nil in Hc. cbn [app parse_flags].
    destruct Hc as [-> | [-> | [-> | [-> | [-> | []]]]]]; cbv beta iota delta [C_MINUS C_0 C_PLUS C_SPACE C_HASH Z.eqb Pos.eqb];
      rewrite IH; cbn [flag_left flag_zero flag_plus flag_space flag_hash orb]; rewrite ?orb_true_r, ?orb_false_r; reflexivity.
Qed.

Lemma value_mono ds acc : Forall (fun d => 0 <= d < 10) ds -> 0 <= acc -> acc <= foldl (fun a d => a * 10 + d) acc ds.
Proof.
  intros HF. revert acc. induction HF as [| d ds Hd HF IH]; intros acc Ha; cbn [foldl]; [lia |]. specialize (IH (acc * 10 + d) ltac:(lia)). lia.
Qed.

Lemma parse_digits ds rest acc : Forall (fun d => 0 <= d < 10) ds -> 0 <= acc -> foldl (fun a d => a * 10 + d) acc ds <= INT_MAX ->
  starts_not dec_digit rest ->
  parse_number ((digit_char false <$> ds) ++ rest) acc = Ok (foldl (fun a d => a * 10 + d) acc ds, rest).
Proof.
  intros HF Ha HM HR. revert acc Ha HM. induction HF as [| d ds Hd HF IH]; intros acc Ha HM.
  - cbn [fmap list_fmap app foldl]. destruct rest as [| c rest]; [done |]. cbn [parse_number starts_not] in *. unfold dec_digit in HR. by rewrite HR.
  - cbn [fmap list_fmap app foldl parse_number] in *. pose proof (value_mono ds (acc * 10 + d) HF ltac:(lia)) as Hm.
    assert (EC : digit_char false d = 48 + d) by (unfold digit_char; zbool; lia). rewrite EC. unfold C_0, C_9.
    rewrite (proj2 (Z.leb_le _ _)), (proj2 (Z.leb_le _ _)) by lia. cbn [andb]. rewrite !int_ok by lia. cbn [res_bind].
    rewrite int_ok by lia. cbn [res_bind]. replace (acc * 10 + (48 + d - 48)) with (acc * 10 + d) by lia. apply IH; lia.
Qed.

Lemma parse_numeral n rest : 0 <= n <= INT_MAX -> starts_not dec_digit rest -> parse_number (numeral 10 false n ++ rest) 0 = Ok (n, rest).
Proof.
  intros Hn HR. unfold numeral. destruct (Z.eqb_spec n 0) as [-> | Hne].
  - by apply (parse_digits [0] rest 0); [repeat constructor | | |].
  - unfold INT_MAX in Hn. assert (Hp : 0 <= n < 10 ^ Z.of_nat 22) by (split; [lia |]; apply Z.lt_le_trans with 2147483648; [lia | vm_compute; discriminate]).
    rewrite (digits_fuel 22 64) by (done || lia). destruct (digits_value 22 10 n ltac:(lia) Hp) as (HV & HF & _).
    rewrite parse_digits; [| done | lia | fold (value 10 (digits 22 10 n)); rewrite HV; unfold INT_MAX; lia | done].
    fold (value 10 (digits 22 10 n)). by rewrite HV.
Qed.

(** what follows the width, and the precision *)
Definition after_prec (len : length_mod) (conv : Z) (rest : list Z) : list Z := print_length len ++ conv :: rest.
Definition after_width (prec : number) (len : length_mod) (conv : Z) (rest : list Z) : list Z :=
  match prec with NNone => [] | _ => C_DOT :: print_number prec end ++ after_prec len conv rest.

Lemma conv_not conv : conv_ok conv = true ->
  is_flag conv = false /\ dec_digit conv = false /\ conv <> C_STAR /\ conv <> C_DOT /\ conv <> C_h /\ conv <> C_l /\ conv <> C_z /\ conv <> C_t.
Proof.
  unfold conv_ok, is_flag, dec_digit. intros H. apply andb_prop in H as [H H3]. apply andb_prop in H as [H1 H2].
  apply negb_true_iff in H1, H2, H3. apply bool_decide_eq_false in H2. rewrite !elem_of_cons, elem_of_nil in H2.
  split_and!; [done | done | intuition congruence..].
Qed.

Lemma after_prec_head len conv rest : conv_ok conv = true -> exists c l, after_prec len conv rest = c :: l /\
  is_flag c = false /\ dec_digit c = false /\ c <> C_STAR /\ c <> C_DOT.
Proof.
  intros H. apply conv_not in H as (H1 & H2 & H3 & H4 & _). unfold after_prec. destruct len; eexists _, _; (split; [reflexivity |]); done.
Qed.

Lemma after_width_head prec len conv rest : conv_ok conv = true -> exists c l, after_width prec len conv rest = c :: l /\
  is_flag c = false /\ dec_digit c = false /\ c <> C_STAR.
Proof.
  intros H. destruct (after_prec_head len conv rest H) as (c & l & E & H1 & H2 & H3 & _). unfold after_width.
  destruct prec; [rewrite E; eauto 7 | eexists _, _; by split.. ].
Qed.

Lemma numeral_10_head n : 0 < n <= INT_MAX -> exists c l, numeral 10 false n = c :: l /\ is_flag c = false /\ dec_digit c = true /\ c <> C_STAR.
Proof.
  unfold INT_MAX. intros Hn. assert (Hb : conv_base 10) by (red; lia). assert (Hu : is_u64 n) by (red; lia).
  destruct (numeral_head 10 false n Hb Hu ltac:(lia)) as (c & l & E & Hc). exists c, l. split; [done |].
  assert (HD : 48 <= c <= 57).
  { unfold numeral in E. rewrite (proj2 (Z.eqb_neq n 0)) in E by lia. pose proof (base_pow 10 n Hb Hu) as Hp.
    rewrite (digits_fuel 22 64) in E by (done || lia). destruct (digits_value 22 10 n) as (_ & HF & _); [lia | done |].
    destruct (digits 22 10 n) as [| d ds]; [done |]. injection E as <- _. inversion HF; subst. unfold digit_char. zbool; lia. }
  unfold is_flag, dec_digit, flag_chars, C_MINUS, C_0, C_9, C_PLUS, C_SPACE, C_HASH, C_STAR in *.
  split_and!; [| zbool; lia || done | lia]. apply bool_decide_eq_false. rewrite !elem_of_cons, elem_of_nil. lia.
Qed.

Lemma parse_width_ok w lf args width lf' args' rest : match w with NNum n => 0 < n <= INT_MAX | _ => True end ->
  (exists c l, rest = c :: l /\ dec_digit c = false /\ c <> C_STAR) -> the_width w lf args = Some (width, lf', args') ->
  parse_width (print_number w ++ rest) lf args = Ok (width, lf', rest, args') /\ 0 <= width <= INT_MAX.
Proof.
  intros Hw (c & l & -> & HR & HS). destruct w as [| n |]; cbn [the_width print_number].
  - intros [= <- <- <-]. split; [| unfold INT_MAX; lia]. cbn [app parse_width parse_number]. rewrite (proj2 (Z.eqb_neq c C_STAR)) by done.
    unfold dec_digit in HR. by rewrite HR.
  - intros [= <- <- <-]. split; [| lia]. destruct (numeral_10_head n Hw) as (e & k & E & _ & _ & HS').
    pose proof (parse_numeral n (c :: l) ltac:(lia) HR) as HP. rewrite E in *. cbn [app parse_width] in *. rewrite (proj2 (Z.eqb_neq e C_STAR)) by done.
    by rewrite HP.
  - destruct args as [| [x | ?] args]; [done | | done]. cbn [next_word mbind option_bind app parse_width va_word].
    assert (Hi : -2147483648 <= i32 x < 2147483648) by (unfold i32; zlia). rewrite Z.eqb_refl. cbn [res_bind].
    destruct (Z.eqb_spec (i32 x) (-2147483648)) as [| Hm]; [done |]. intros [= <- <- <-]. unfold INT_MAX.
    destruct (Z.ltb_spec (i32 x) 0); rewrite ?int_ok by (unfold INT_MAX; lia); rewrite ?orb_true_r, ?orb_false_r; cbn [res_bind];
      (split; [do 3 f_equal; f_equal; lia | lia]).
Qed.

Lemma parse_prec_ok p args prec args' len conv rest : match p with NNum n => 0 <= n <= INT_MAX | _ => True end -> conv_ok conv = true ->
  the_prec p args = Some (prec, args') -> parse_prec (after_width p len conv rest) args = Ok (prec, after_prec len conv rest, args').
Proof.
  intros Hp HC. destruct (after_prec_head len conv rest HC) as (c & l & E & HF & HD & HS & Ht).
  unfold after_width. rewrite E. destruct p as [| n |]; cbn [the_prec print_number].
  - intros [= <- <-]. cbn [app parse_prec]. by rewrite (proj2 (Z.eqb_neq c C_DOT)).
  - intros [= <- <-]. cbn [app parse_prec]. rewrite Z.eqb_refl. pose proof (parse_numeral n (c :: l) Hp HD) as HP.
    destruct (numeral 10 false n) as [| e k] eqn:EN; cbn [app] in *.
    + rewrite (proj2 (Z.eqb_neq c C_STAR)) by done. by rewrite HP.
    + assert (e <> C_STAR).
      { destruct (decide (n = 0)) as [-> | Hn]; [by injection EN as <- | destruct (numeral_10_head n ltac:(lia)) as (? & ? & E' & _ & _ & ?); congruence]. }
      rewrite (proj2 (Z.eqb_neq e C_STAR)) by done. by rewrite HP.
  - destruct args as [| [x | ?] args]; [done | | done]. cbn [next_word mbind option_bind app parse_prec va_word]. intros [= <- <-].
    rewrite !Z.eqb_refl. cbn [res_bind]. do 3 f_equal. zbool; lia.
Qed.

Lemma parse_lmod_ok len conv rest : conv_ok conv = true -> parse_lmod (after_prec len conv rest) = (length_code len, conv :: rest).
Proof.
  intros H. apply conv_not in H as (_ & _ & _ & _ & H1 & H2 & H3 & H4). unfold after_prec.
  destruct len; cbn [print_length app parse_lmod length_code]; rewrite ?Z.eqb_refl; try done.
  - rewrite (proj2 (Z.eqb_neq conv C_h)), (proj2 (Z.eqb_neq conv C_l)), (proj2 (Z.eqb_neq conv C_z)), (proj2 (Z.eqb_neq conv C_t)) by done. done.
  - by rewrite (proj2 (Z.eqb_neq conv C_h)).
  - rewrite (proj2 (Z.eqb_neq conv C_l)) by done. done.
Qed.

(** ** A whole format *)

Lemma the_width_args w lf args r lf' args' : Forall arg_ok args -> the_width w lf args = Some (r, lf', args') -> Forall arg_ok args'.
Proof.
  intros HA. destruct w; cbn [the_width]; [by intros [= _ _ <-] | by intros [= _ _ <-] |]. destruct args as [| [x | ?] args]; [done | | done].
  cbn [next_word mbind option_bind]. destruct (_ =? _); [done |]. intros [= _ _ <-]. by inversion HA.
Qed.

Lemma the_prec_args w args r args' : Forall arg_ok args -> the_prec w args = Some (r, args') -> Forall arg_ok args'.
Proof.
  intros HA. destruct w; cbn [the_prec]; [by intros [= _ <-] | by intros [= _ <-] |]. destruct args as [| [x | ?] args]; [done | | done].
  cbn [next_word mbind option_bind]. intros [= _ <-]. by inversion HA.
Qed.

Section Format.
Context (fin : Z) (Hfin : 0 <= fin).

Lemma directive_ok fl w p len conv rest args l args' : piece_ok (Dir fl w p len conv) -> Forall arg_ok args ->
  render_piece (Dir fl w p len conv) args = Some (l, args') ->
  Forall arg_ok args' /\
  (forall b t o, Z.min fin (zlen (t ++ l)) < zlen b -> holds fin b t o -> zlen (t ++ l) <= INT_MAX ->
    exists o', directive fin (fl ++ print_number w ++ after_width p len conv rest) args o = Ok (conv :: rest, args', o') /\ holds fin b (t ++ l) o').
Proof.
  intros (HF & Hw & Hp & Hu & HC) HA. cbn [render_piece].
  destruct (the_width w (has fl C_MINUS) args) as [[[width lf] args1] |] eqn:EW; [| done]. cbn [mbind option_bind].
  destruct (the_prec p args1) as [[prec args2] |] eqn:EP; [| done]. cbn [mbind option_bind]. intros ER.
  destruct (after_width_head p len conv rest HC) as (c & k & EH & H1 & H2 & H3).
  assert (HS : starts_not is_flag (print_number w ++ after_width p len conv rest)).
  { destruct w as [| n |]; cbn [print_number app]; [by rewrite EH | | done].
    destruct (numeral_10_head n Hw) as (? & ? & -> & ? & _). done. }
  destruct (parse_width_ok w (has fl C_MINUS) args width lf args1 (after_width p len conv rest) Hw ltac:(eauto) EW) as [HPW HWR].
  assert (HA2 : Forall arg_ok args2) by (eapply the_prec_args; [| exact EP]; by eapply the_width_args).
  destruct (convert_ok fin Hfin conv lf (has fl C_0 && negb (has fl C_MINUS)) (has fl C_PLUS) (has fl C_SPACE) (has fl C_HASH) width prec
    (length_code len) args2 l args' Hu HWR HA2 ER) as [HCV HA']. split; [done |].
  intros b t o HB HO HL. unfold directive. rewrite parse_flags_ok by done. cbn [flag_left flag_zero flag_plus flag_space flag_hash orb].
  rewrite HPW. cbn [res_bind]. rewrite (parse_prec_ok p args1 prec args2 len conv rest Hp HC EP). cbn [res_bind].
  rewrite parse_lmod_ok by done. change (default 0 (head (conv :: rest))) with conv.
  assert (EZ : (if has fl C_MINUS then false else has fl C_0) = has fl C_0 && negb (has fl C_MINUS)) by (destruct (has fl C_MINUS), (has fl C_0); done).
  rewrite EZ. destruct (converts_elim fin _ _ _ b t o HCV HB HO HL) as (o' & -> & HO'). cbn [res_bind]. eauto.
Qed.

Lemma print_dir_shape fl w p len conv rest :
  print_piece (Dir fl w p len conv) ++ rest = C_PERCENT :: fl ++ print_number w ++ after_width p len conv rest.
Proof.
  unfold after_width, after_prec. cbn [print_piece app]. f_equal. by rewrite <- !app_assoc.
Qed.

Lemma format_ok ps args text n b t o : Forall piece_ok ps -> Forall arg_ok args -> render ps args = Some text ->
  Z.min fin (zlen (t ++ text)) < zlen b -> holds fin b t o -> zlen (t ++ text) <= INT_MAX -> (length (print_format ps) <= n)%nat ->
  exists o', format_loop fin n (print_format ps) args o = Ok o' /\ holds fin b (t ++ text) o'.
Proof.
  intros HP. revert args text n t o. induction HP as [| p ps Hp HP IH]; intros args text n t o HA HR HB HO HL Hn.
  - injection HR as <-. rewrite app_nil_r. destruct n; eauto.
  - cbn [render] in HR. destruct (render_piece p args) as [[l args1] |] eqn:EP; [| done]. cbn [mbind option_bind] in HR.
    destruct (render ps args1) as [u |] eqn:ER; [| done]. injection HR as <-. rewrite app_assoc in *. cbn [print_format] in *.
    assert (HB1 : Z.min fin (zlen (t ++ l)) < zlen b) by (rewrite (zlen_app (t ++ l)) in HB; pose proof (zlen_nonneg u); lia).
    rewrite length_app in Hn. destruct p as [c | fl w p len conv].
    + injection EP as <- <-. destruct n as [| n]; [simpl in Hn; lia |]. destruct Hp as [Hu Hc]. cbn [print_piece app format_loop].
      rewrite (proj2 (Z.eqb_neq c C_PERCENT)) by done. cbn [negb].
      destruct (emits_putc_byte fin Hfin c Hu b t o HB1 HO) as (o1 & -> & HO1); [rewrite zlen_app in HL; pose proof (zlen_nonneg u); lia |].
      cbn [res_bind]. apply IH; auto. simpl in Hn. lia.
    + rewrite print_dir_shape. destruct n as [| n]; [simpl in Hn; lia |]. cbn [format_loop]. rewrite Z.eqb_refl. cbn [negb].
      destruct (directive_ok fl w p len conv (print_format ps) args l args1 Hp HA EP) as [HA1 HD].
      destruct (HD b t o HB1 HO) as (o1 & -> & HO1); [rewrite zlen_app in HL; pose proof (zlen_nonneg u); lia |].
      cbn [res_bind]. apply IH; auto. cbn [print_piece length] in Hn. lia.
Qed.

End Format.

(** the buffer after [vsnprintf] *)
Lemma vsnprintf_buffer ps args text b size : Forall piece_ok ps -> Forall arg_ok args -> render ps args = Some text ->
  zlen text <= INT_MAX -> 0 < size -> Z.min (size - 1) (zlen text) < zlen b ->
  exists b', vsnprintf (Some b) size (print_format ps) args = Ok (zlen text, Some b') /\
    b' = take (Z.to_nat (size - 1)) text ++ 0 :: drop (Z.to_nat (Z.min (size - 1) (zlen text)) + 1) b.
Proof.
  intros HP HA HR HL HS HM. unfold vsnprintf. rewrite (proj2 (Z.eqb_neq size 0)) by lia.
  destruct (format_ok (size - 1) ltac:(lia) ps args text (length (print_format ps)) b [] (mk_out b 0 0)) as (o & -> & H1 & H2 & H3);
    [done | done | done | done | split_and!; cbn [o_total o_p o_buf]; [done | change (zlen []) with 0; lia | done] | done | lia |]. cbn [res_bind app] in *. unfold zlen in *.
  set (k := Z.to_nat (Z.min (size - 1) (Z.of_nat (length text)))).
  assert (Hk : Z.to_nat (o_p o) = k) by (unfold k; by rewrite H2). rewrite Hk in H3.
  assert (HT : take k text = take (Z.to_nat (size - 1)) text).
  { unfold k. destruct (decide (size - 1 <= Z.of_nat (length text))); [by rewrite Z.min_l | rewrite Z.min_r, !take_ge by lia; done]. }
  assert (HLk : length (take k text) = k) by (rewrite length_take; unfold k; lia).
  unfold write_bytes, zlen. rewrite (proj2 (Z.leb_le 0 (o_p o))) by lia.
  assert (HLb : length (o_buf o) = length b) by (rewrite H3, length_app, HLk, length_drop; unfold k; lia).
  rewrite (proj2 (Z.leb_le _ _)) by (rewrite HLb; simpl; lia). cbn [andb res_bind]. rewrite H1. eexists. split; [reflexivity |].
  rewrite Hk. replace (Z.to_nat (o_p o + Z.of_nat (length [0]))) with (k + 1)%nat by (simpl; lia). rewrite H3, <- HT.
  rewrite <- HLk at 1. rewrite take_app_length. cbn [app]. do 2 f_equal. rewrite drop_app, (drop_ge (take k text)), app_nil_l by lia.
  rewrite drop_drop, HLk. f_equal. lia.
Qed.

(** C26: [vsnprintf] on the text of any format: the return value is the length of
    the whole rendered text, the buffer holds its first [size - 1] characters and
    a terminator, and no other byte of the buffer changes.  The buffer has [size]
    bytes, or at least room for the text and the terminator, as [ksprintf] asks. *)
Theorem vsnprintf_correct ps args text b size : Forall piece_ok ps -> Forall arg_ok args -> render ps args = Some text ->
  zlen text <= INT_MAX -> 0 < size -> Z.min (size - 1) (zlen text) < zlen b ->
  exists b', vsnprintf (Some b) size (print_format ps) args = Ok (zlen text, Some b') /\
    b' = take (Z.to_nat (size - 1)) text ++ 0 :: drop (Z.to_nat (Z.min (size - 1) (zlen text)) + 1) b.
Proof. apply vsnprintf_buffer. Qed.

(** "[%-5d|%#lx %.2s]" with -42, 0xbeef and a string *)
Definition ex_format : list piece :=
  [Lit 91; Dir [C_MINUS] (NNum 5) NNone LNone C_d; Lit 124; Dir [C_HASH] NNone NNone Ll C_x; Lit 32; Dir [] NNone (NNum 2) LNone C_s; Lit 93].
Definition ex_args : list arg := [Word (u64 (-42)); Word 48879; Str (Some [104; 101; 121])].
(** "[-42  |0xbeef he]" *)
Definition ex_text : list Z := [91; 45; 52; 50; 32; 32; 124; 48; 120; 98; 101; 101; 102; 32; 104; 101; 93].

Lemma vsnprintf_correct_witness : exists b', vsnprintf (Some (replicate 32 255)) 16 (print_format ex_format) ex_args = Ok (17, Some b') /\
  b' = take (Z.to_nat (16 - 1)) ex_text ++ 0 :: drop (Z.to_nat (Z.min (16 - 1) 17) + 1) (replicate 32 255).
Proof.
  apply (vsnprintf_correct ex_format ex_args ex_text (replicate 32 255) 16).
  - repeat (constructor; [cbn; repeat split; try lia; try done; try (repeat constructor; lmem) |]). constructor.
  - repeat constructor; done.
  - vm_compute. reflexivity.
  - vm_compute. discriminate.
  - vm_compute. reflexivity.
  - vm_compute. reflexivity.
Defined.

(** a format that ends in a percent sign is read past its terminator *)
Example trailing_percent : vsnprintf (Some (replicate 32 0)) 32 [104; C_PERCENT] [] = Fault.
Proof. reflexivity. Qed.

(** the space flag puts a plus sign *)
Example space_flag : vsnprintf (Some (replicate 4 0)) 4 [C_PERCENT; C_SPACE; C_d] [Word 7] = Ok (2, Some [C_PLUS; 55; 0; 0]).
Proof. reflexivity. Qed.
