(* ===== verification/Font.v ===== *)
(** * The console font ([kernel/font.c])

    The table of glyphs, sixteen rows of eight pixels for every character, and
    what the console relies on: it has all 256 glyphs, the space is blank, and no
    two printable characters look the same. *)

From stdpp Require Import base list.
From S2P Require Import Prelude.

Definition fontdata_8x16 : list Z := [
  0; 0; 0; 0; 0; 0; 0; 0; 0; 0; 0; 0; 0; 0; 0; 0;
  0; 0; 0; 0; 0; 0; 0; 0; 0; 0; 0; 0; 0; 0; 0; 0;
  0; 0; 0; 0; 0; 0; 0; 0; 0; 0; 0; 0; 0; 0; 0; 0;
  0; 0; 0; 0; 0; 0; 0; 0; 0; 0; 0; 0; 0; 0; 0; 0;
  0; 0; 0; 0; 0; 0; 0; 0; 0; 0; 0; 0; 0; 0; 0; 0;
  0; 0; 0; 0; 0; 0; 0; 0; 0; 0; 0; 0; 0; 0; 0; 0;
  0; 0; 0; 0; 0; 0; 0; 0; 0; 0; 0; 0; 0; 0; 0; 0;
  0; 0; 0; 0; 0; 0; 0; 0; 0; 0; 0; 0; 0; 0; 0; 0;
  0; 0; 0; 0; 0; 0; 0; 0; 0; 0; 0; 0; 0; 0; 0; 0;
  0; 0; 0; 0; 0; 0; 0; 0; 0; 0; 0; 0; 0; 0; 0; 0;
  0; 0; 0; 0; 0; 0; 0; 0; 0; 0; 0; 0; 0; 0; 0; 0;
  0; 0; 0; 0; 0; 0; 0; 0; 0; 0; 0; 0; 0; 0; 0; 0;
  0; 0; 0; 0; 0; 0; 0; 0; 0; 0; 0; 0; 0; 0; 0; 0;
  0; 0; 0; 0; 0; 0; 0; 0; 0; 0; 0; 0; 0; 0; 0; 0;
  0; 0; 0; 0; 0; 0; 0; 0; 0; 0; 0; 0; 0; 0; 0; 0;
  0; 0; 0; 0; 0; 0; 0; 0; 0; 0; 0; 0; 0; 0; 0; 0;
  0; 0; 0; 0; 0; 0; 0; 0; 0; 0; 0; 0; 0; 0; 0; 0;
  0; 0; 0; 0; 0; 0; 0; 0; 0; 0; 0; 0; 0; 0; 0; 0;
  0; 0; 0; 0; 0; 0; 0; 0; 0; 0; 0; 0; 0; 0; 0; 0;
  0; 0; 0; 0; 0; 0; 0; 0; 0; 0; 0; 0; 0; 0; 0; 0;
  0; 0; 0; 0; 0; 0; 0; 0; 0; 0; 0; 0; 0; 0; 0; 0;
  0; 0; 0; 0; 0; 0; 0; 0; 0; 0; 0; 0; 0; 0; 0; 0;
  0; 0; 0; 0; 0; 0; 0; 0; 0; 0; 0; 0; 0; 0; 0; 0;
  0; 0; 0; 0; 0; 0; 0; 0; 0; 0; 0; 0; 0; 0; 0; 0;
  0; 0; 0; 0; 0; 0; 0; 0; 0; 0; 0; 0; 0; 0; 0; 0;
  0; 0; 0; 0; 0; 0; 0; 0; 0; 0; 0; 0; 0; 0; 0; 0;
  0; 0; 0; 0; 0; 0; 0; 0; 0; 0; 0; 0; 0; 0; 0; 0;
  0; 0; 0; 0; 0; 0; 0; 0; 0; 0; 0; 0; 0; 0; 0; 0;
  0; 0; 0; 0; 0; 0; 0; 0; 0; 0; 0; 0; 0; 0; 0; 0;
  0; 0; 0; 0; 0; 0; 0; 0; 0; 0; 0; 0; 0; 0; 0; 0;
  0; 0; 0; 0; 0; 0; 0; 0; 0; 0; 0; 0; 0; 0; 0; 0;
  0; 0; 0; 0; 0; 0; 0; 0; 0; 0; 0; 0; 0; 0; 0; 0;
  0; 0; 0; 0; 0; 0; 0; 0; 0; 0; 0; 0; 0; 0; 0; 0;
  0; 0; 16; 16; 16; 16; 16; 16; 16; 0; 16; 16; 0; 0; 0; 0;
  0; 36; 36; 36; 0; 0; 0; 0; 0; 0; 0; 0; 0; 0; 0; 0;
  0; 0; 36; 36; 36; 126; 36; 36; 126; 36; 36; 36; 0; 0; 0; 0;
  0; 16; 16; 124; 146; 144; 144; 124; 18; 18; 146; 124; 16; 16; 0; 0;
  0; 0; 100; 148; 104; 8; 16; 16; 32; 44; 82; 76; 0; 0; 0; 0;
  0; 0; 24; 36; 36; 24; 48; 74; 68; 68; 68; 58; 0; 0; 0; 0;
  0; 16; 16; 16; 0; 0; 0; 0; 0; 0; 0; 0; 0; 0; 0; 0;
  0; 0; 8; 16; 32; 32; 32; 32; 32; 32; 16; 8; 0; 0; 0; 0;
  0; 0; 32; 16; 8; 8; 8; 8; 8; 8; 16; 32; 0; 0; 0; 0;
  0; 0; 0; 0; 0; 36; 24; 126; 24; 36; 0; 0; 0; 0; 0; 0;
  0; 0; 0; 0; 0; 16; 16; 124; 16; 16; 0; 0; 0; 0; 0; 0;
  0; 0; 0; 0; 0; 0; 0; 0; 0; 0; 16; 16; 32; 0; 0; 0;
  0; 0; 0; 0; 0; 0; 0; 126; 0; 0; 0; 0; 0; 0; 0; 0;
  0; 0; 0; 0; 0; 0; 0; 0; 0; 0; 16; 16; 0; 0; 0; 0;
  0; 0; 4; 4; 8; 8; 16; 16; 32; 32; 64; 64; 0; 0; 0; 0;
  0; 0; 60; 66; 66; 70; 74; 82; 98; 66; 66; 60; 0; 0; 0; 0;
  0; 0; 8; 24; 40; 8; 8; 8; 8; 8; 8; 62; 0; 0; 0; 0;
  0; 0; 60; 66; 66; 2; 4; 8; 16; 32; 64; 126; 0; 0; 0; 0;
  0; 0; 60; 66; 66; 2; 28; 2; 2; 66; 66; 60; 0; 0; 0; 0;
  0; 0; 2; 6; 10; 18; 34; 66; 126; 2; 2; 2; 0; 0; 0; 0;
  0; 0; 126; 64; 64; 64; 124; 2; 2; 2; 66; 60; 0; 0; 0; 0;
  0; 0; 28; 32; 64; 64; 124; 66; 66; 66; 66; 60; 0; 0; 0; 0;
  0; 0; 126; 2; 2; 4; 4; 8; 8; 16; 16; 16; 0; 0; 0; 0;
  0; 0; 60; 66; 66; 66; 60; 66; 66; 66; 66; 60; 0; 0; 0; 0;
  0; 0; 60; 66; 66; 66; 66; 62; 2; 2; 4; 56; 0; 0; 0; 0;
  0; 0; 0; 0; 0; 16; 16; 0; 0; 0; 16; 16; 0; 0; 0; 0;
  0; 0; 0; 0; 0; 16; 16; 0; 0; 0; 16; 16; 32; 0; 0; 0;
  0; 0; 0; 4; 8; 16; 32; 64; 32; 16; 8; 4; 0; 0; 0; 0;
  0; 0; 0; 0; 0; 126; 0; 0; 126; 0; 0; 0; 0; 0; 0; 0;
  0; 0; 0; 64; 32; 16; 8; 4; 8; 16; 32; 64; 0; 0; 0; 0;
  0; 0; 60; 66; 66; 66; 4; 8; 8; 0; 8; 8; 0; 0; 0; 0;
  0; 0; 124; 130; 158; 162; 162; 162; 166; 154; 128; 126; 0; 0; 0; 0;
  0; 0; 60; 66; 66; 66; 66; 126; 66; 66; 66; 66; 0; 0; 0; 0;
  0; 0; 124; 66; 66; 66; 124; 66; 66; 66; 66; 124; 0; 0; 0; 0;
  0; 0; 60; 66; 66; 64; 64; 64; 64; 66; 66; 60; 0; 0; 0; 0;
  0; 0; 120; 68; 66; 66; 66; 66; 66; 66; 68; 120; 0; 0; 0; 0;
  0; 0; 126; 64; 64; 64; 120; 64; 64; 64; 64; 126; 0; 0; 0; 0;
  0; 0; 126; 64; 64; 64; 120; 64; 64; 64; 64; 64; 0; 0; 0; 0;
  0; 0; 60; 66; 66; 64; 64; 78; 66; 66; 66; 60; 0; 0; 0; 0;
  0; 0; 66; 66; 66; 66; 126; 66; 66; 66; 66; 66; 0; 0; 0; 0;
  0; 0; 56; 16; 16; 16; 16; 16; 16; 16; 16; 56; 0; 0; 0; 0;
  0; 0; 14; 4; 4; 4; 4; 4; 4; 68; 68; 56; 0; 0; 0; 0;
  0; 0; 66; 68; 72; 80; 96; 96; 80; 72; 68; 66; 0; 0; 0; 0;
  0; 0; 64; 64; 64; 64; 64; 64; 64; 64; 64; 126; 0; 0; 0; 0;
  0; 0; 130; 198; 170; 146; 146; 130; 130; 130; 130; 130; 0; 0; 0; 0;
  0; 0; 66; 66; 66; 98; 82; 74; 70; 66; 66; 66; 0; 0; 0; 0;
  0; 0; 60; 66; 66; 66; 66; 66; 66; 66; 66; 60; 0; 0; 0; 0;
  0; 0; 124; 66; 66; 66; 66; 124; 64; 64; 64; 64; 0; 0; 0; 0;
  0; 0; 60; 66; 66; 66; 66; 66; 66; 66; 74; 60; 2; 0; 0; 0;
  0; 0; 124; 66; 66; 66; 66; 124; 80; 72; 68; 66; 0; 0; 0; 0;
  0; 0; 60; 66; 64; 64; 60; 2; 2; 66; 66; 60; 0; 0; 0; 0;
  0; 0; 254; 16; 16; 16; 16; 16; 16; 16; 16; 16; 0; 0; 0; 0;
  0; 0; 66; 66; 66; 66; 66; 66; 66; 66; 66; 60; 0; 0; 0; 0;
  0; 0; 66; 66; 66; 66; 66; 36; 36; 36; 24; 24; 0; 0; 0; 0;
  0; 0; 130; 130; 130; 130; 130; 146; 146; 170; 198; 130; 0; 0; 0; 0;
  0; 0; 66; 66; 36; 36; 24; 24; 36; 36; 66; 66; 0; 0; 0; 0;
  0; 0; 130; 130; 68; 68; 40; 16; 16; 16; 16; 16; 0; 0; 0; 0;
  0; 0; 126; 2; 2; 4; 8; 16; 32; 64; 64; 126; 0; 0; 0; 0;
  0; 0; 56; 32; 32; 32; 32; 32; 32; 32; 32; 56; 0; 0; 0; 0;
  0; 0; 64; 64; 32; 32; 16; 16; 8; 8; 4; 4; 0; 0; 0; 0;
  0; 0; 56; 8; 8; 8; 8; 8; 8; 8; 8; 56; 0; 0; 0; 0;
  0; 16; 40; 68; 0; 0; 0; 0; 0; 0; 0; 0; 0; 0; 0; 0;
  0; 0; 0; 0; 0; 0; 0; 0; 0; 0; 0; 0; 0; 126; 0; 0;
  16; 8; 0; 0; 0; 0; 0; 0; 0; 0; 0; 0; 0; 0; 0; 0;
  0; 0; 0; 0; 0; 60; 2; 62; 66; 66; 66; 62; 0; 0; 0; 0;
  0; 0; 64; 64; 64; 124; 66; 66; 66; 66; 66; 124; 0; 0; 0; 0;
  0; 0; 0; 0; 0; 60; 66; 64; 64; 64; 66; 60; 0; 0; 0; 0;
  0; 0; 2; 2; 2; 62; 66; 66; 66; 66; 66; 62; 0; 0; 0; 0;
  0; 0; 0; 0; 0; 60; 66; 66; 126; 64; 64; 60; 0; 0; 0; 0;
  0; 0; 14; 16; 16; 124; 16; 16; 16; 16; 16; 16; 0; 0; 0; 0;
  0; 0; 0; 0; 0; 62; 66; 66; 66; 66; 66; 62; 2; 2; 60; 0;
  0; 0; 64; 64; 64; 124; 66; 66; 66; 66; 66; 66; 0; 0; 0; 0;
  0; 0; 16; 16; 0; 48; 16; 16; 16; 16; 16; 56; 0; 0; 0; 0;
  0; 0; 4; 4; 0; 12; 4; 4; 4; 4; 4; 4; 68; 68; 56; 0;
  0; 0; 64; 64; 64; 66; 68; 72; 112; 72; 68; 66; 0; 0; 0; 0;
  0; 0; 48; 16; 16; 16; 16; 16; 16; 16; 16; 56; 0; 0; 0; 0;
  0; 0; 0; 0; 0; 252; 146; 146; 146; 146; 146; 146; 0; 0; 0; 0;
  0; 0; 0; 0; 0; 124; 66; 66; 66; 66; 66; 66; 0; 0; 0; 0;
  0; 0; 0; 0; 0; 60; 66; 66; 66; 66; 66; 60; 0; 0; 0; 0;
  0; 0; 0; 0; 0; 124; 66; 66; 66; 66; 66; 124; 64; 64; 64; 0;
  0; 0; 0; 0; 0; 62; 66; 66; 66; 66; 66; 62; 2; 2; 2; 0;
  0; 0; 0; 0; 0; 94; 96; 64; 64; 64; 64; 64; 0; 0; 0; 0;
  0; 0; 0; 0; 0; 62; 64; 64; 60; 2; 2; 124; 0; 0; 0; 0;
  0; 0; 16; 16; 16; 124; 16; 16; 16; 16; 16; 14; 0; 0; 0; 0;
  0; 0; 0; 0; 0; 66; 66; 66; 66; 66; 66; 62; 0; 0; 0; 0;
  0; 0; 0; 0; 0; 66; 66; 66; 36; 36; 24; 24; 0; 0; 0; 0;
  0; 0; 0; 0; 0; 130; 130; 146; 146; 146; 146; 124; 0; 0; 0; 0;
  0; 0; 0; 0; 0; 66; 66; 36; 24; 36; 66; 66; 0; 0; 0; 0;
  0; 0; 0; 0; 0; 66; 66; 66; 66; 66; 66; 62; 2; 2; 60; 0;
  0; 0; 0; 0; 0; 126; 4; 8; 16; 32; 64; 126; 0; 0; 0; 0;
  0; 0; 12; 16; 16; 16; 32; 16; 16; 16; 16; 12; 0; 0; 0; 0;
  0; 0; 16; 16; 16; 16; 16; 16; 16; 16; 16; 16; 0; 0; 0; 0;
  0; 0; 48; 8; 8; 8; 4; 8; 8; 8; 8; 48; 0; 0; 0; 0;
  0; 0; 0; 0; 0; 0; 98; 146; 140; 0; 0; 0; 0; 0; 0; 0;
  0; 0; 0; 0; 0; 0; 0; 0; 0; 0; 0; 0; 0; 0; 0; 0;
  0; 0; 0; 0; 0; 0; 0; 0; 0; 0; 0; 0; 0; 0; 0; 0;
  0; 0; 0; 0; 0; 0; 0; 0; 0; 0; 0; 0; 0; 0; 0; 0;
  0; 0; 0; 0; 0; 0; 0; 0; 0; 0; 0; 0; 0; 0; 0; 0;
  0; 0; 0; 0; 0; 0; 0; 0; 0; 0; 0; 0; 0; 0; 0; 0;
  0; 0; 0; 0; 0; 0; 0; 0; 0; 0; 0; 0; 0; 0; 0; 0;
  0; 0; 0; 0; 0; 0; 0; 0; 0; 0; 0; 0; 0; 0; 0; 0;
  0; 0; 0; 0; 0; 0; 0; 0; 0; 0; 0; 0; 0; 0; 0; 0;
  0; 0; 0; 0; 0; 0; 0; 0; 0; 0; 0; 0; 0; 0; 0; 0;
  0; 0; 0; 0; 0; 0; 0; 0; 0; 0; 0; 0; 0; 0; 0; 0;
  0; 0; 0; 0; 0; 0; 0; 0; 0; 0; 0; 0; 0; 0; 0; 0;
  0; 0; 0; 0; 0; 0; 0; 0; 0; 0; 0; 0; 0; 0; 0; 0;
  0; 0; 0; 0; 0; 0; 0; 0; 0; 0; 0; 0; 0; 0; 0; 0;
  0; 0; 0; 0; 0; 0; 0; 0; 0; 0; 0; 0; 0; 0; 0; 0;
  0; 0; 0; 0; 0; 0; 0; 0; 0; 0; 0; 0; 0; 0; 0; 0;
  0; 0; 0; 0; 0; 0; 0; 0; 0; 0; 0; 0; 0; 0; 0; 0;
  0; 0; 0; 0; 0; 0; 0; 0; 0; 0; 0; 0; 0; 0; 0; 0;
  0; 0; 0; 0; 0; 0; 0; 0; 0; 0; 0; 0; 0; 0; 0; 0;
  0; 0; 0; 0; 0; 0; 0; 0; 0; 0; 0; 0; 0; 0; 0; 0;
  0; 0; 0; 0; 0; 0; 0; 0; 0; 0; 0; 0; 0; 0; 0; 0;
  0; 0; 0; 0; 0; 0; 0; 0; 0; 0; 0; 0; 0; 0; 0; 0;
  0; 0; 0; 0; 0; 0; 0; 0; 0; 0; 0; 0; 0; 0; 0; 0;
  0; 0; 0; 0; 0; 0; 0; 0; 0; 0; 0; 0; 0; 0; 0; 0;
  0; 0; 0; 0; 0; 0; 0; 0; 0; 0; 0; 0; 0; 0; 0; 0;
  0; 0; 0; 0; 0; 0; 0; 0; 0; 0; 0; 0; 0; 0; 0; 0;
  0; 0; 0; 0; 0; 0; 0; 0; 0; 0; 0; 0; 0; 0; 0; 0;
  0; 0; 0; 0; 0; 0; 0; 0; 0; 0; 0; 0; 0; 0; 0; 0;
  0; 0; 0; 0; 0; 0; 0; 0; 0; 0; 0; 0; 0; 0; 0; 0;
  0; 0; 0; 0; 0; 0; 0; 0; 0; 0; 0; 0; 0; 0; 0; 0;
  0; 0; 0; 0; 0; 0; 0; 0; 0; 0; 0; 0; 0; 0; 0; 0;
  0; 0; 0; 0; 0; 0; 0; 0; 0; 0; 0; 0; 0; 0; 0; 0;
  0; 0; 0; 0; 0; 0; 0; 0; 0; 0; 0; 0; 0; 0; 0; 0;
  0; 0; 0; 0; 0; 0; 0; 0; 0; 0; 0; 0; 0; 0; 0; 0;
  0; 0; 0; 0; 0; 0; 0; 0; 0; 0; 0; 0; 0; 0; 0; 0;
  0; 0; 16; 16; 0; 16; 16; 16; 16; 16; 16; 16; 0; 0; 0; 0;
  0; 0; 0; 16; 16; 124; 146; 144; 144; 144; 146; 124; 16; 16; 0; 0;
  0; 0; 24; 36; 32; 32; 120; 32; 32; 32; 34; 126; 0; 0; 0; 0;
  0; 0; 0; 0; 68; 56; 68; 68; 68; 56; 68; 0; 0; 0; 0; 0;
  0; 0; 130; 130; 68; 40; 16; 124; 16; 124; 16; 16; 0; 0; 0; 0;
  0; 0; 16; 16; 16; 16; 0; 0; 16; 16; 16; 16; 0; 0; 0; 0;
  0; 56; 68; 64; 48; 72; 68; 68; 36; 24; 4; 68; 56; 0; 0; 0;
  36; 36; 0; 0; 0; 0; 0; 0; 0; 0; 0; 0; 0; 0; 0; 0;
  0; 0; 0; 126; 129; 153; 165; 161; 165; 153; 129; 126; 0; 0; 0; 0;
  0; 56; 4; 60; 68; 60; 0; 124; 0; 0; 0; 0; 0; 0; 0; 0;
  0; 0; 0; 0; 0; 18; 36; 72; 144; 72; 36; 18; 0; 0; 0; 0;
  0; 0; 0; 0; 0; 126; 2; 2; 2; 0; 0; 0; 0; 0; 0; 0;
  0; 0; 0; 0; 0; 0; 0; 0; 0; 0; 0; 0; 0; 0; 0; 0;
  0; 0; 0; 126; 129; 185; 165; 185; 169; 165; 129; 126; 0; 0; 0; 0;
  60; 0; 0; 0; 0; 0; 0; 0; 0; 0; 0; 0; 0; 0; 0; 0;
  0; 24; 36; 36; 24; 0; 0; 0; 0; 0; 0; 0; 0; 0; 0; 0;
  0; 0; 0; 0; 0; 16; 16; 124; 16; 16; 0; 124; 0; 0; 0; 0;
  0; 24; 36; 4; 8; 16; 60; 0; 0; 0; 0; 0; 0; 0; 0; 0;
  0; 56; 4; 24; 4; 4; 56; 0; 0; 0; 0; 0; 0; 0; 0; 0;
  8; 16; 0; 0; 0; 0; 0; 0; 0; 0; 0; 0; 0; 0; 0; 0;
  0; 0; 0; 0; 0; 66; 66; 66; 66; 66; 70; 122; 64; 64; 64; 0;
  0; 0; 126; 146; 146; 146; 146; 114; 18; 18; 18; 18; 0; 0; 0; 0;
  0; 0; 0; 0; 0; 0; 0; 16; 16; 0; 0; 0; 0; 0; 0; 0;
  0; 0; 0; 0; 0; 0; 0; 0; 0; 0; 0; 0; 16; 16; 32; 0;
  0; 16; 48; 16; 16; 16; 56; 0; 0; 0; 0; 0; 0; 0; 0; 0;
  0; 56; 68; 68; 68; 56; 0; 124; 0; 0; 0; 0; 0; 0; 0; 0;
  0; 0; 0; 0; 0; 144; 72; 36; 18; 36; 72; 144; 0; 0; 0; 0;
  0; 32; 96; 32; 34; 36; 8; 16; 34; 70; 138; 30; 2; 2; 0; 0;
  0; 32; 96; 32; 34; 36; 8; 16; 32; 76; 146; 4; 8; 30; 0; 0;
  0; 224; 16; 96; 18; 228; 8; 16; 34; 70; 138; 30; 2; 2; 0; 0;
  0; 0; 16; 16; 0; 16; 16; 32; 66; 66; 66; 60; 0; 0; 0; 0;
  16; 8; 0; 60; 66; 66; 66; 126; 66; 66; 66; 66; 0; 0; 0; 0;
  8; 16; 0; 60; 66; 66; 66; 126; 66; 66; 66; 66; 0; 0; 0; 0;
  24; 36; 0; 60; 66; 66; 66; 126; 66; 66; 66; 66; 0; 0; 0; 0;
  50; 76; 0; 60; 66; 66; 66; 126; 66; 66; 66; 66; 0; 0; 0; 0;
  36; 36; 0; 60; 66; 66; 66; 126; 66; 66; 66; 66; 0; 0; 0; 0;
  24; 36; 24; 60; 66; 66; 66; 126; 66; 66; 66; 66; 0; 0; 0; 0;
  0; 0; 126; 144; 144; 144; 252; 144; 144; 144; 144; 158; 0; 0; 0; 0;
  0; 0; 60; 66; 66; 64; 64; 64; 64; 66; 66; 60; 16; 16; 32; 0;
  16; 8; 0; 126; 64; 64; 64; 120; 64; 64; 64; 126; 0; 0; 0; 0;
  8; 16; 0; 126; 64; 64; 64; 120; 64; 64; 64; 126; 0; 0; 0; 0;
  24; 36; 0; 126; 64; 64; 64; 120; 64; 64; 64; 126; 0; 0; 0; 0;
  36; 36; 0; 126; 64; 64; 64; 120; 64; 64; 64; 126; 0; 0; 0; 0;
  32; 16; 0; 56; 16; 16; 16; 16; 16; 16; 16; 56; 0; 0; 0; 0;
  8; 16; 0; 56; 16; 16; 16; 16; 16; 16; 16; 56; 0; 0; 0; 0;
  24; 36; 0; 56; 16; 16; 16; 16; 16; 16; 16; 56; 0; 0; 0; 0;
  68; 68; 0; 56; 16; 16; 16; 16; 16; 16; 16; 56; 0; 0; 0; 0;
  0; 0; 120; 68; 66; 66; 242; 66; 66; 66; 68; 120; 0; 0; 0; 0;
  50; 76; 0; 66; 66; 98; 82; 74; 70; 66; 66; 66; 0; 0; 0; 0;
  16; 8; 0; 60; 66; 66; 66; 66; 66; 66; 66; 60; 0; 0; 0; 0;
  8; 16; 0; 60; 66; 66; 66; 66; 66; 66; 66; 60; 0; 0; 0; 0;
  24; 36; 0; 60; 66; 66; 66; 66; 66; 66; 66; 60; 0; 0; 0; 0;
  50; 76; 0; 60; 66; 66; 66; 66; 66; 66; 66; 60; 0; 0; 0; 0;
  36; 36; 0; 60; 66; 66; 66; 66; 66; 66; 66; 60; 0; 0; 0; 0;
  0; 0; 0; 0; 0; 66; 36; 24; 24; 36; 66; 0; 0; 0; 0; 0;
  0; 0; 60; 67; 66; 70; 74; 82; 98; 66; 194; 60; 0; 0; 0; 0;
  16; 8; 66; 66; 66; 66; 66; 66; 66; 66; 66; 60; 0; 0; 0; 0;
  8; 16; 66; 66; 66; 66; 66; 66; 66; 66; 66; 60; 0; 0; 0; 0;
  24; 36; 0; 66; 66; 66; 66; 66; 66; 66; 66; 60; 0; 0; 0; 0;
  36; 36; 0; 66; 66; 66; 66; 66; 66; 66; 66; 60; 0; 0; 0; 0;
  8; 16; 130; 130; 68; 68; 40; 16; 16; 16; 16; 16; 0; 0; 0; 0;
  0; 0; 64; 64; 124; 66; 66; 66; 66; 124; 64; 64; 0; 0; 0; 0;
  0; 0; 56; 68; 68; 72; 124; 66; 66; 66; 98; 92; 0; 0; 0; 0;
  0; 0; 16; 8; 0; 60; 2; 62; 66; 66; 66; 62; 0; 0; 0; 0;
  0; 0; 8; 16; 0; 60; 2; 62; 66; 66; 66; 62; 0; 0; 0; 0;
  0; 0; 24; 36; 0; 60; 2; 62; 66; 66; 66; 62; 0; 0; 0; 0;
  0; 0; 50; 76; 0; 60; 2; 62; 66; 66; 66; 62; 0; 0; 0; 0;
  0; 0; 36; 36; 0; 60; 2; 62; 66; 66; 66; 62; 0; 0; 0; 0;
  0; 0; 24; 36; 24; 60; 2; 62; 66; 66; 66; 62; 0; 0; 0; 0;
  0; 0; 0; 0; 0; 108; 18; 114; 158; 144; 144; 108; 0; 0; 0; 0;
  0; 0; 0; 0; 0; 60; 66; 64; 64; 64; 66; 60; 16; 16; 32; 0;
  0; 0; 16; 8; 0; 60; 66; 66; 126; 64; 64; 60; 0; 0; 0; 0;
  0; 0; 8; 16; 0; 60; 66; 66; 126; 64; 64; 60; 0; 0; 0; 0;
  0; 0; 24; 36; 0; 60; 66; 66; 126; 64; 64; 60; 0; 0; 0; 0;
  0; 0; 36; 36; 0; 60; 66; 66; 126; 64; 64; 60; 0; 0; 0; 0;
  0; 0; 32; 16; 0; 48; 16; 16; 16; 16; 16; 56; 0; 0; 0; 0;
  0; 0; 8; 16; 0; 48; 16; 16; 16; 16; 16; 56; 0; 0; 0; 0;
  0; 0; 48; 72; 0; 48; 16; 16; 16; 16; 16; 56; 0; 0; 0; 0;
  0; 0; 72; 72; 0; 48; 16; 16; 16; 16; 16; 56; 0; 0; 0; 0;
  0; 0; 40; 16; 40; 60; 66; 66; 66; 66; 66; 60; 0; 0; 0; 0;
  0; 0; 50; 76; 0; 124; 66; 66; 66; 66; 66; 66; 0; 0; 0; 0;
  0; 0; 16; 8; 0; 60; 66; 66; 66; 66; 66; 60; 0; 0; 0; 0;
  0; 0; 8; 16; 0; 60; 66; 66; 66; 66; 66; 60; 0; 0; 0; 0;
  0; 0; 24; 36; 0; 60; 66; 66; 66; 66; 66; 60; 0; 0; 0; 0;
  0; 0; 50; 76; 0; 60; 66; 66; 66; 66; 66; 60; 0; 0; 0; 0;
  0; 0; 36; 36; 0; 60; 66; 66; 66; 66; 66; 60; 0; 0; 0; 0;
  0; 0; 0; 0; 16; 16; 0; 124; 0; 16; 16; 0; 0; 0; 0; 0;
  0; 0; 0; 0; 2; 60; 70; 74; 82; 98; 66; 188; 0; 0; 0; 0;
  0; 0; 16; 8; 0; 66; 66; 66; 66; 66; 66; 62; 0; 0; 0; 0;
  0; 0; 8; 16; 0; 66; 66; 66; 66; 66; 66; 62; 0; 0; 0; 0;
  0; 0; 24; 36; 0; 66; 66; 66; 66; 66; 66; 62; 0; 0; 0; 0;
  0; 0; 36; 36; 0; 66; 66; 66; 66; 66; 66; 62; 0; 0; 0; 0;
  0; 0; 8; 16; 0; 66; 66; 66; 66; 66; 66; 62; 2; 2; 60; 0;
  0; 0; 64; 64; 64; 124; 66; 66; 66; 66; 66; 124; 64; 64; 64; 0;
  0; 0; 36; 36; 0; 66; 66; 66; 66; 66; 66; 62; 2; 2; 60; 0].

(** the sixteen rows of a character *)
Definition glyph (c : Z) : list Z := take 16 (drop (Z.to_nat (c * 16)) fontdata_8x16).

Lemma fontdata_length : length fontdata_8x16 = 4096%nat.
Proof. vm_compute. reflexivity. Qed.

Lemma fontdata_space i : 0 <= i < 16 -> fontdata_8x16 !! Z.to_nat (32 * 16 + i) = Some 0.
Proof.
  intros Hi. assert (HF : forallb (fun i => bool_decide (fontdata_8x16 !! Z.to_nat (32 * 16 + i) = Some 0)) (seqZ 0 16) = true) by (vm_compute; reflexivity).
  rewrite forallb_forall in HF. specialize (HF i). rewrite <- list_elem_of_In, elem_of_seqZ in HF. specialize (HF ltac:(lia)).
  by apply bool_decide_eq_true in HF.
Qed.

(** the printable characters can be told apart on the screen *)
Lemma glyphs_distinct c d : 32 <= c < 127 -> 32 <= d < 127 -> glyph c = glyph d -> c = d.
Proof.
  assert (HN : bool_decide (NoDup (glyph <$> seqZ 32 95)) = true) by (vm_compute; reflexivity). apply bool_decide_eq_true in HN.
  intros Hc Hd E. rewrite NoDup_alt in HN.
  assert (HL : forall c, 32 <= c < 127 -> (glyph <$> seqZ 32 95) !! Z.to_nat (c - 32) = Some (glyph c)).
  { intros e He. rewrite list_lookup_fmap, lookup_seqZ_lt by lia. cbn [fmap option_fmap option_map]. do 2 f_equal. lia. }
  specialize (HN (Z.to_nat (c - 32)) (Z.to_nat (d - 32)) (glyph c) (HL c Hc)). rewrite E in HN at 1. specialize (HN (HL d Hd)). lia.
Qed.
