(* ===== verification/Console.v ===== *)
(** * The console ([kernel/printf.c], [kernel/tty.c])

    Characters go to the serial line and, when the thread may use the current
    terminal, to the framebuffer.  Every terminal keeps a grid of the characters
    drawn while it was current, and a switch redraws the screen from the grid of
    the new one.  The framebuffer is the array of its pixels; a write outside is
    a fault.  The print lock serializes these operations: each is one step. *)

From stdpp Require Import base list.
From S2P Require Import Prelude Bytes Printf.

Definition CHAR_WIDTH : Z := 8.
Definition CHAR_HEIGHT : Z := 16.
Definition MAX_TTYS : Z := 10.
Definition MAX_TTY_COLS : Z := 80.
Definition MAX_TTY_ROWS : Z := 25.
Definition COLOR_WHITE : Z := 0xffffff.
Definition COLOR_BLACK : Z := 0.

(** the fields the console uses of [struct limine_framebuffer] *)
Record framebuffer := mk_fb { fb_width : Z; fb_height : Z; fb_pitch : Z }.

Record tty_cell := mk_cell { cell_c : Z; cell_fg : Z; cell_bg : Z }.
Record tty := mk_tty { cols : Z; rows : Z; grid : list tty_cell }.

Record console := mk_con {
  fb_info : option framebuffer;
  pixels : list Z;
  cursor_x : Z; cursor_y : Z;
  ttys : list tty;
  current_tty_id : Z;
  print_buf : list Z;        (** the static [buf] of [kprintf] *)
  serial : list Z }.         (** what has been sent *)

Definition set_pixels (p : list Z) (k : console) : console :=
  mk_con (fb_info k) p (cursor_x k) (cursor_y k) (ttys k) (current_tty_id k) (print_buf k) (serial k).
Definition set_cursor (x y : Z) (k : console) : console :=
  mk_con (fb_info k) (pixels k) x y (ttys k) (current_tty_id k) (print_buf k) (serial k).
Definition set_ttys (t : list tty) (k : console) : console :=
  mk_con (fb_info k) (pixels k) (cursor_x k) (cursor_y k) t (current_tty_id k) (print_buf k) (serial k).
Definition set_current (id : Z) (k : console) : console :=
  mk_con (fb_info k) (pixels k) (cursor_x k) (cursor_y k) (ttys k) id (print_buf k) (serial k).
Definition set_buf (b : list Z) (k : console) : console :=
  mk_con (fb_info k) (pixels k) (cursor_x k) (cursor_y k) (ttys k) (current_tty_id k) b (serial k).
Definition send (l : list Z) (k : console) : console :=
  mk_con (fb_info k) (pixels k) (cursor_x k) (cursor_y k) (ttys k) (current_tty_id k) (print_buf k) (serial k ++ l).

Definition fb_set_info (fb : option framebuffer) (k : console) : console :=
  mk_con fb (pixels k) (cursor_x k) (cursor_y k) (ttys k) (current_tty_id k) (print_buf k) (serial k).

(** [for] over the values of its variable *)
Fixpoint for_loop {A S} (l : list A) (f : A -> S -> res S) (s : S) : res S :=
  match l with
  | [] => Ok s
  | a :: l => let! s := f a s in for_loop l f s
  end.

Definition put_pixel (off color : Z) (p : list Z) : res (list Z) :=
  if (0 <=? off) && (off <? Z.of_nat (length p)) then Ok (<[Z.to_nat off := color]> p) else Fault.

(** ** Terminals *)

Definition tty_init (k : console) : console :=
  let '(c, r) :=
    match fb_info k with
    | None => (0, 0)
    | Some fb => (Z.min (Z.quot (i32 (fb_width fb)) 8) MAX_TTY_COLS, Z.min (Z.quot (i32 (fb_height fb)) 16) MAX_TTY_ROWS)
    end in
  set_current 0 (set_ttys ((fun t => mk_tty c r (grid t)) <$> ttys k) k).

(** [tty_id]: the terminals of the current thread *)
Definition tty_ready (tty_id : Z) (k : console) : bool :=
  if current_tty_id k =? -1 then false
  else if current_tty_id k =? 0 then true
  else negb (Z.land (Z.shiftl 1 (current_tty_id k)) tty_id =? 0).

Definition tty_record_char (x y c fg bg : Z) (k : console) : res console :=
  let cur := current_tty_id k in
  if (cur <? 0) || (MAX_TTYS <=? cur) then Ok k
  else
    match ttys k !! Z.to_nat cur with
    | None => Fault
    | Some t =>
      let col := Z.quot x 8 in
      let row := Z.quot y 16 in
      if (col <? 0) || (cols t <=? col) || (row <? 0) || (rows t <=? row) then Ok k
      else
        let idx := row * MAX_TTY_COLS + col in
        if Z.of_nat (length (grid t)) <=? idx then Fault
        else Ok (set_ttys (<[Z.to_nat cur := mk_tty (cols t) (rows t) (<[Z.to_nat idx := mk_cell c fg bg]> (grid t))]> (ttys k)) k)
    end.

Definition tty_clear_grid (k : console) : res console :=
  let cur := current_tty_id k in
  if (cur <? 0) || (MAX_TTYS <=? cur) then Ok k
  else
    match ttys k !! Z.to_nat cur with
    | None => Fault
    | Some t => Ok (set_ttys (<[Z.to_nat cur := mk_tty (cols t) (rows t) (replicate (Z.to_nat (MAX_TTY_COLS * MAX_TTY_ROWS)) (mk_cell C_SPACE 0 0))]> (ttys k)) k)
    end.

(** ** Drawing *)

Section Drawing.
Variable font : list Z.

(** the colour of a pixel of a glyph *)
Definition glyph_pixel (row_data col fg bg : Z) : Z := if Z.testbit row_data (7 - col) then fg else bg.

Definition draw_char (x y c fg bg : Z) (k : console) : res console :=
  match fb_info k with
  | None => Ok k
  | Some fb =>
    let stride := fb_pitch fb / 4 in
    let! p :=
      for_loop (seqZ 0 16) (fun row p =>
        let! row_data := byte_at font (u8 c * 16 + row) in
        for_loop (seqZ 0 8) (fun col p => put_pixel ((y + row) * stride + (x + col)) (glyph_pixel row_data col fg bg) p) p) (pixels k) in
    tty_record_char x y c fg bg (set_pixels p k)
  end.

(** one character of [fb_print_string] *)
Definition fb_print_char (fb : framebuffer) (c fg bg : Z) (k : console) : res console :=
  if c =? 10 then Ok (set_cursor 0 (u32 (cursor_y k + CHAR_HEIGHT)) k)
  else if c =? 13 then Ok (set_cursor 0 (cursor_y k) k)
  else if c =? 9 then
    let col := cursor_x k / CHAR_WIDTH in
    let next := Z.land (u32 (col + 4)) (u32 (Z.lnot 3)) in
    let x := u32 (next * CHAR_WIDTH) in
    if fb_width fb <=? x then Ok (set_cursor 0 (u32 (cursor_y k + CHAR_HEIGHT)) k) else Ok (set_cursor x (cursor_y k) k)
  else
    let k := if u32 (fb_width fb) <? u32 (cursor_x k + CHAR_WIDTH) then set_cursor 0 (u32 (cursor_y k + CHAR_HEIGHT)) k else k in
    let k := if u32 (fb_height fb) <? u32 (cursor_y k + CHAR_HEIGHT) then set_cursor 0 0 k else k in
    let! k := draw_char (i32 (cursor_x k)) (i32 (cursor_y k)) c fg bg k in
    Ok (set_cursor (u32 (cursor_x k + CHAR_WIDTH)) (cursor_y k) k).

(** [str]: the characters before the terminator *)
Definition fb_print_string (str : list Z) (fg bg : Z) (k : console) : res console :=
  match fb_info k with
  | None => Ok k
  | Some fb => for_loop str (fun c k => fb_print_char fb c fg bg k) k
  end.

Definition clear_pixels (fb : framebuffer) (color : Z) (p : list Z) : res (list Z) :=
  for_loop (seqZ 0 (fb_height fb)) (fun y p =>
    for_loop (seqZ 0 (fb_width fb)) (fun x p => put_pixel (u32 (y * (fb_pitch fb / 4) + x)) color p) p) p.

Definition fb_clear_screen (color : Z) (k : console) : res console :=
  match fb_info k with
  | None => Ok k
  | Some fb =>
    let! p := clear_pixels fb color (pixels k) in
    tty_clear_grid (set_cursor 0 0 (set_pixels p k))
  end.

Definition tty_redraw (id : Z) (k : console) : res console :=
  if (id <? 0) || (MAX_TTYS <=? id) then Ok k
  else
    match ttys k !! Z.to_nat id with
    | None => Fault
    | Some t =>
      for_loop (seqZ 0 (rows t)) (fun row k =>
        for_loop (seqZ 0 (cols t)) (fun col k =>
          match ttys k !! Z.to_nat id with
          | None => Fault
          | Some t =>
            match grid t !! Z.to_nat (row * MAX_TTY_COLS + col) with
            | None => Fault
            | Some cell =>
              if cell_c cell =? 0 then Ok k
              else if (cell_c cell =? C_SPACE) && (cell_bg cell =? 0) then Ok k
              else draw_char (col * 8) (row * 16) (cell_c cell) (cell_fg cell) (cell_bg cell) k
            end
          end) k) k
    end.

Definition tty_switch (new_id : Z) (k : console) : res console :=
  if (new_id <? 0) || (MAX_TTYS <=? new_id) then Ok k
  else if new_id =? current_tty_id k then Ok k
  else
    let k := set_current new_id k in
    let! k :=
      match fb_info k with
      | None => Ok k
      | Some fb => let! p := clear_pixels fb 0 (pixels k) in Ok (set_pixels p k)
      end in
    tty_redraw new_id k.

(** ** Printing *)

(** the characters of a buffer before its terminator *)
Fixpoint c_chars (l : list Z) : list Z :=
  match l with
  | [] => []
  | c :: l => if c =? 0 then [] else c :: c_chars l
  end.

(** ["...[TRUNCATED]\n"] *)
Definition mark : list Z := [46; 46; 46; 91; 84; 82; 85; 78; 67; 65; 84; 69; 68; 93; 10].
(** ["[print_at: TRUNCATED]\n"] *)
Definition print_at_mark : list Z := [91; 112; 114; 105; 110; 116; 95; 97; 116; 58; 32; 84; 82; 85; 78; 67; 65; 84; 69; 68; 93; 10].

(** [booting]: not all processors are online yet *)
Definition kprintf_color (booting : bool) (tty_id fg : Z) (fmt : list Z) (args : list arg) (k : console) : res console :=
  let! (written, b) := vsnprintf (Some (print_buf k)) KPRINTF_BUF_SZ fmt args in
  let b := default [] b in
  let! b :=
    if KPRINTF_BUF_SZ <=? written then
      let mpos := KPRINTF_BUF_SZ - 1 - zlen mark in
      let! b := write_bytes b mpos mark in write_bytes b (KPRINTF_BUF_SZ - 1) [0]
    else Ok b in
  let k := set_buf b k in
  let! k := if booting || tty_ready tty_id k then fb_print_string (c_chars b) fg COLOR_BLACK k else Ok k in
  Ok (send (c_chars b) k).

(** the same with white characters *)
Definition kprintf (booting : bool) (tty_id : Z) (fmt : list Z) (args : list arg) (k : console) : res console :=
  kprintf_color booting tty_id COLOR_WHITE fmt args k.

Fixpoint print_at_loop (str : list Z) (x cx cy fg bg : Z) (k : console) : res console :=
  match str with
  | [] => Ok k
  | c :: str =>
    if c =? 10 then print_at_loop str x x (cy + CHAR_HEIGHT) fg bg k
    else let! k := draw_char cx cy c fg bg k in print_at_loop str x (cx + CHAR_WIDTH) cy fg bg k
  end.

(** [local]: the uninitialised array of 256 characters *)
Definition print_at (local : list Z) (x y fg bg : Z) (fmt : list Z) (args : list arg) (k : console) : res console :=
  let! (written, b) := vsnprintf (Some local) 256 fmt args in
  let k := if 256 <=? written then send print_at_mark k else k in
  print_at_loop (c_chars (default [] b)) x x y fg bg k.

End Drawing.
