(* ===== verification/ConsoleSpec.v ===== *)
(** * The console shows the current terminal

    The screen as a function of a terminal's grid and of the font.  Printing,
    clearing and switching keep the framebuffer equal to it, so that a switch
    back to a terminal brings back everything that was printed on it. *)

From stdpp Require Import base list.
From S2P Require Import Prelude Bytes Printf PrintfSpec PrintfCorrect Font Console.

(** ** Loops that paint *)

Lemma for_nested {A B S} (l : list A) (m : list B) (f : A -> B -> S -> res S) s :
  for_loop l (fun a s => for_loop m (fun b s => f a b s) s) s = for_loop (a ← l; b ← m; [(a, b)]) (fun ab s => f ab.1 ab.2 s) s.
Proof.
  assert (HA : forall (l1 l2 : list (A * B)) g s, for_loop (l1 ++ l2) g s = let! s := for_loop (S := S) l1 g s in for_loop l2 g s).
  { intros l1. induction l1 as [| a l1 IH]; intros l2 g s'; [done |]. cbn [app for_loop]. destruct (g a s'); cbn [res_bind]; [apply IH | done..]. }
  revert s. induction l as [| a l IH]; intros s; [done |]. cbn [for_loop mbind list_bind]. rewrite HA.
  assert (HM : forall s, for_loop (b ← m; [(a, b)]) (fun ab s => f ab.1 ab.2 s) s = for_loop m (fun b s => f a b s) s).
  { clear. induction m as [| b m IH]; intros s; [done |]. cbn [mbind list_bind app for_loop fst snd]. destruct (f a b s); cbn [res_bind]; [apply IH | done..]. }
  rewrite HM. destruct (for_loop m _ s); cbn [res_bind]; [apply IH | done..].
Qed.

Lemma pairs_elem (n m r c : Z) : (r, c) ∈ (a ← seqZ 0 n; b ← seqZ 0 m; [(a, b)]) <-> 0 <= r < n /\ 0 <= c < m.
Proof.
  rewrite list_elem_of_bind. setoid_rewrite list_elem_of_bind. setoid_rewrite elem_of_seqZ. setoid_rewrite list_elem_of_singleton. split.
  - intros (a & (b & [= -> ->] & Hb) & Ha). lia.
  - intros [Hr Hc]. exists r. split; [exists c; split; [done | lia] | lia].
Qed.

Lemma list_elem_of_dec_off {A} (l : list A) (off : A -> Z) o : (exists b, b ∈ l /\ off b = o) \/ (forall b, b ∈ l -> off b <> o).
Proof.
  induction l as [| a l [(b & Hb & E) | IH]]; [right; intros ? H; by apply elem_of_nil in H | left; exists b; split; [lmem | done] |].
  destruct (decide (off a = o)); [left; exists a; split; [lmem | done] | right; intros b Hb]. apply elem_of_cons in Hb as [-> | Hb]; auto.
Qed.

(** pixels at the places [off], each in its colour [col] *)
Lemma paint {A} (l : list A) (off col : A -> Z) (p : list Z) :
  (forall a, a ∈ l -> 0 <= off a < Z.of_nat (length p)) -> (forall a b, a ∈ l -> b ∈ l -> off a = off b -> col a = col b) ->
  exists p', for_loop l (fun a p => put_pixel (off a) (col a) p) p = Ok p' /\ length p' = length p /\
    (forall a, a ∈ l -> p' !! Z.to_nat (off a) = Some (col a)) /\
    (forall o, (forall a, a ∈ l -> Z.to_nat (off a) <> o) -> p' !! o = p !! o).
Proof.
  revert p. induction l as [| a l IH]; intros p HR HI; [exists p; split_and!; auto; intros ? H; by apply elem_of_nil in H |].
  cbn [for_loop]. pose proof (HR a ltac:(lmem)) as Ha. unfold put_pixel at 1.
  rewrite (proj2 (Z.leb_le 0 (off a))), (proj2 (Z.ltb_lt _ _)) by lia. cbn [andb res_bind].
  destruct (IH (<[Z.to_nat (off a) := col a]> p)) as (p' & -> & HL & H1 & H2).
  { intros b Hb. rewrite length_insert. apply HR. lmem. }
  { intros b c Hb Hc. apply HI; lmem. }
  exists p'. rewrite length_insert in HL. split_and!; [done | done | |].
  - intros b Hb. apply elem_of_cons in Hb as [-> | Hb]; [| auto].
    destruct (list_elem_of_dec_off l off (off a)) as [(b & Hb & E) | Hn].
    + rewrite <- E, H1 by done. f_equal. apply HI; lmem.
    + rewrite H2, list_lookup_insert_eq by (lia || (intros b Hb E; apply (Hn b Hb); pose proof (HR b ltac:(lmem)); lia)). done.
  - intros o Ho. rewrite H2 by (intros b Hb; apply Ho; lmem). apply list_lookup_insert_ne. apply Ho. lmem.
Qed.

Lemma for_loop_ext {A S} (l : list A) (f g : A -> S -> res S) s : (forall a s, a ∈ l -> f a s = g a s) -> for_loop l f s = for_loop l g s.
Proof.
  revert s. induction l as [| a l IH]; intros s H; [done |]. cbn [for_loop]. rewrite H by lmem. destruct (g a s); cbn [res_bind]; [| done..].
  apply IH. intros b t Hb. apply H. lmem.
Qed.

Lemma off_inj stride px py px' py' : 0 <= px < stride -> 0 <= px' < stride -> py * stride + px = py' * stride + px' -> py = py' /\ px = px'.
Proof. intros H H' E. destruct (Z.div_mod_unique stride py py' px px'); lia. Qed.

(** ** The screen *)

(** a framebuffer the grids can hold: at least one character, at most 80 by 25 *)
Definition geometry (fb : framebuffer) (p : list Z) : Prop :=
  8 <= fb_width fb < 648 /\ 16 <= fb_height fb < 416 /\ fb_width fb <= fb_pitch fb / 4 /\
  Z.of_nat (length p) = fb_height fb * (fb_pitch fb / 4) /\ Z.of_nat (length p) < 2147483648.

Definition place (fb : framebuffer) (px py : Z) : nat := Z.to_nat (py * (fb_pitch fb / 4) + px).
Definition on_screen (fb : framebuffer) (px py : Z) : Prop := 0 <= px < fb_width fb /\ 0 <= py < fb_height fb.

Lemma place_range fb p px py : geometry fb p -> on_screen fb px py ->
  0 <= py * (fb_pitch fb / 4) + px < Z.of_nat (length p).
Proof. intros (H1 & H2 & H3 & H4 & H5) [Hx Hy]. rewrite H4. nia. Qed.

Lemma place_inj fb px py px' py' : fb_width fb <= fb_pitch fb / 4 -> on_screen fb px py -> on_screen fb px' py' ->
  place fb px py = place fb px' py' -> px = px' /\ py = py'.
Proof.
  intros H [H1 H2] [H3 H4] E. unfold place in E.
  assert (0 <= py * (fb_pitch fb / 4) /\ 0 <= py' * (fb_pitch fb / 4)) by nia.
  destruct (off_inj (fb_pitch fb / 4) px py px' py'); lia.
Qed.

Section Screen.
Context (font : list Z) (Hfont : length font = 4096%nat).

Definition font_row (c r : Z) : Z := default 0 (font !! Z.to_nat (u8 c * 16 + r)).

(** what a terminal looks like *)
Definition screen_pixel (t : tty) (px py : Z) : Z :=
  if (px / 8 <? cols t) && (py / 16 <? rows t) then
    match grid t !! Z.to_nat (py / 16 * MAX_TTY_COLS + px / 8) with
    | Some cell =>
      if (cell_c cell =? 0) || (cell_c cell =? C_SPACE) && (cell_bg cell =? 0) then 0
      else glyph_pixel (font_row (cell_c cell) (py mod 16)) (px mod 8) (cell_fg cell) (cell_bg cell)
    | None => 0
    end
  else 0.

Lemma font_row_ok c r : 0 <= r < 16 -> byte_at font (u8 c * 16 + r) = Ok (font_row c r).
Proof.
  intros Hr. assert (0 <= u8 c < 256) by (unfold u8; zlia). unfold byte_at, font_row. rewrite (proj2 (Z.ltb_ge _ 0)) by lia.
  destruct (lookup_lt_is_Some_2 font (Z.to_nat (u8 c * 16 + r))) as [v ->]; [lia |]. done.
Qed.

(** the loops of [draw_char] paint the glyph and nothing else *)
Lemma draw_pixels fb p x y c fg bg : geometry fb p -> 0 <= x -> x + 8 <= fb_width fb -> 0 <= y -> y + 16 <= fb_height fb ->
  exists p', for_loop (seqZ 0 16) (fun row p =>
      let! row_data := byte_at font (u8 c * 16 + row) in
      for_loop (seqZ 0 8) (fun col p => put_pixel ((y + row) * (fb_pitch fb / 4) + (x + col)) (glyph_pixel row_data col fg bg) p) p) p = Ok p' /\
    length p' = length p /\
    forall px py, on_screen fb px py -> p' !! place fb px py =
      if decide (x <= px < x + 8 /\ y <= py < y + 16) then Some (glyph_pixel (font_row c (py - y)) (px - x) fg bg) else p !! place fb px py.
Proof.
  intros HG Hx Hx8 Hy Hy16.
  rewrite (for_loop_ext _ _ (fun row p => for_loop (seqZ 0 8) (fun col p =>
    put_pixel ((y + row) * (fb_pitch fb / 4) + (x + col)) (glyph_pixel (font_row c row) col fg bg) p) p)).
  2: { intros row s Hr. apply elem_of_seqZ in Hr. by rewrite font_row_ok by lia. }
  rewrite (for_nested (seqZ 0 16) (seqZ 0 8) (fun row col p => put_pixel ((y + row) * (fb_pitch fb / 4) + (x + col)) (glyph_pixel (font_row c row) col fg bg) p)).
  destruct (paint (a ← seqZ 0 16; b ← seqZ 0 8; [(a, b)]) (fun ab => (y + ab.1) * (fb_pitch fb / 4) + (x + ab.2))
    (fun ab => glyph_pixel (font_row c ab.1) ab.2 fg bg) p) as (p' & E & HL & H1 & H2).
  - intros [r k] Hab. apply pairs_elem in Hab. cbn [fst snd]. apply (place_range fb p (x + k) (y + r) HG). split; lia.
  - intros [r k] [r' k'] Ha Hb. apply pairs_elem in Ha, Hb. cbn [fst snd]. intros Eo.
    destruct HG as (_ & _ & Hs & _). destruct (off_inj (fb_pitch fb / 4) (x + k) (y + r) (x + k') (y + r')); [lia | lia | lia |].
    by replace r' with r by lia; replace k' with k by lia.
  - exists p'. split_and!; [exact E | done |]. intros px py Hp. destruct (decide _) as [Hd | Hd].
    + specialize (H1 (py - y, px - x)). cbn [fst snd] in H1. rewrite pairs_elem in H1. rewrite <- H1 by lia. unfold place. do 2 f_equal. lia.
    + apply H2. intros [r k] Hab. apply pairs_elem in Hab. cbn [fst snd]. intros Ep. apply Hd.
      destruct (place_inj fb (x + k) (y + r) px py) as [? ?]; [apply HG | split; lia | done | exact Ep |]. lia.
Qed.

(** ** The invariant of the console *)

Definition tty_ok (fb : framebuffer) (t : tty) : Prop :=
  cols t = fb_width fb / 8 /\ rows t = fb_height fb / 16 /\ length (grid t) = 2000%nat.

Definition console_ok (fb : framebuffer) (k : console) : Prop :=
  fb_info k = Some fb /\ geometry fb (pixels k) /\ length (ttys k) = 10%nat /\ Forall (tty_ok fb) (ttys k) /\
  0 <= current_tty_id k < 10.

(** the framebuffer shows the current terminal *)
Definition shows (fb : framebuffer) (k : console) : Prop :=
  forall t px py, ttys k !! Z.to_nat (current_tty_id k) = Some t -> on_screen fb px py ->
  pixels k !! place fb px py = Some (screen_pixel t px py).

(** a cell of the grid written *)
Definition with_cell (col row : Z) (cell : tty_cell) (t : tty) : tty :=
  mk_tty (cols t) (rows t) (<[Z.to_nat (row * MAX_TTY_COLS + col) := cell]> (grid t)).

Context (Hspace : forall r, 0 <= r < 16 -> font_row C_SPACE r = 0).

Lemma screen_pixel_cell fb t col row c fg bg px py : tty_ok fb t -> fb_width fb < 648 -> fb_height fb < 416 -> on_screen fb px py -> 0 <= col < cols t -> 0 <= row < rows t -> 0 < c ->
  screen_pixel (with_cell col row (mk_cell c fg bg) t) px py =
  if decide (col * 8 <= px < col * 8 + 8 /\ row * 16 <= py < row * 16 + 16) then glyph_pixel (font_row c (py - row * 16)) (px - col * 8) fg bg
  else screen_pixel t px py.
Proof.
  intros (HC & HR & HL) HW HH [Hx Hy] Hcol Hrow Hc. unfold screen_pixel, with_cell, MAX_TTY_COLS. cbn [cols rows grid].
  destruct (decide _) as [Hd | Hd].
  - assert (px / 8 = col) as -> by zlia. assert (py / 16 = row) as -> by zlia.
    rewrite (proj2 (Z.ltb_lt col (cols t))), (proj2 (Z.ltb_lt row (rows t))) by lia. cbn [andb].
    rewrite list_lookup_insert_eq by zlia. cbn [cell_c cell_fg cell_bg]. rewrite (proj2 (Z.eqb_neq c 0)) by lia. cbn [orb].
    replace (py - row * 16) with (py mod 16) by zlia. replace (px - col * 8) with (px mod 8) by zlia.
    destruct (Z.eqb_spec c C_SPACE) as [-> |], (Z.eqb_spec bg 0) as [-> |]; cbn [andb]; try done.
    rewrite Hspace by zlia. unfold glyph_pixel. by rewrite Z.testbit_0_l.
  - destruct (Z.ltb_spec (px / 8) (cols t)); cbn [andb]; [| done]. rewrite list_lookup_insert_ne; [done |]. intros E. apply Hd. zlia.
Qed.

(** drawing a character inside the grid *)
Lemma draw_char_ok fb k t col row c fg bg : console_ok fb k -> ttys k !! Z.to_nat (current_tty_id k) = Some t ->
  0 <= col < cols t -> 0 <= row < rows t ->
  exists p, let k' := set_ttys (<[Z.to_nat (current_tty_id k) := with_cell col row (mk_cell c fg bg) t]> (ttys k)) (set_pixels p k) in
    draw_char font (col * 8) (row * 16) c fg bg k = Ok k' /\ console_ok fb k' /\
    forall px py, on_screen fb px py -> p !! place fb px py =
      if decide (col * 8 <= px < col * 8 + 8 /\ row * 16 <= py < row * 16 + 16) then Some (glyph_pixel (font_row c (py - row * 16)) (px - col * 8) fg bg)
      else pixels k !! place fb px py.
Proof.
  intros (HI & HG & HT & HTs & HC) Ht Hcol Hrow.
  assert (HO : tty_ok fb t) by (by eapply Forall_lookup_1). pose proof HO as (Ec & Er & El).
  pose proof HG as (HW & HH & _). unfold draw_char. rewrite HI.
  destruct (draw_pixels fb (pixels k) (col * 8) (row * 16) c fg bg HG) as (p & -> & HL & HP); [zlia.. |]. cbn [res_bind]. exists p.
  cbv zeta. split; [| split; [| exact HP]].
  - unfold tty_record_char. cbn [current_tty_id ttys set_pixels]. unfold MAX_TTYS. rewrite (proj2 (Z.ltb_ge _ 0)), (proj2 (Z.leb_gt 10 _)) by lia.
    cbn [orb]. rewrite Ht, !Z.quot_mul by lia. rewrite (proj2 (Z.ltb_ge col 0)), (proj2 (Z.leb_gt _ col)), (proj2 (Z.ltb_ge row 0)), (proj2 (Z.leb_gt _ row)) by lia.
    cbn [orb]. unfold MAX_TTY_COLS. rewrite (proj2 (Z.leb_gt _ _)) by zlia. reflexivity.
  - unfold console_ok, geometry in *. cbn [fb_info pixels ttys current_tty_id set_ttys set_pixels]. rewrite HL, length_insert.
    split; [done |]. split; [exact HG |]. split; [done |]. split; [| done].
    apply Forall_insert; [done |]. split_and!; [done | done |]. cbn [grid with_cell]. by rewrite length_insert.
Qed.

Lemma draw_char_shows fb k t col row c fg bg : console_ok fb k -> shows fb k -> ttys k !! Z.to_nat (current_tty_id k) = Some t ->
  0 <= col < cols t -> 0 <= row < rows t -> 0 < c ->
  exists p, let k' := set_ttys (<[Z.to_nat (current_tty_id k) := with_cell col row (mk_cell c fg bg) t]> (ttys k)) (set_pixels p k) in
    draw_char font (col * 8) (row * 16) c fg bg k = Ok k' /\ console_ok fb k' /\ shows fb k'.
Proof.
  intros HO HS Ht Hcol Hrow Hc. destruct (draw_char_ok fb k t col row c fg bg HO Ht Hcol Hrow) as (p & E & HO' & HP).
  exists p. cbv zeta in *. split; [exact E |]. split; [exact HO' |]. destruct HO as (_ & (HW & HH & _) & HT & HTs & HC).
  intros u px py Hu Hp. cbn [fb_info pixels ttys current_tty_id set_ttys set_pixels] in *.
  rewrite list_lookup_insert_eq in Hu by lia. injection Hu as <-. pose proof (Forall_lookup_1 _ _ _ _ HTs Ht).
  rewrite (screen_pixel_cell fb) by (done || lia). rewrite HP by done. destruct (decide _); [done | by apply HS].
Qed.

(** ** Printing *)

(** the cursor is at a character; [n] more newlines do not wrap it *)
Definition cursor_ok (fb : framebuffer) (n : nat) (k : console) : Prop :=
  0 <= cursor_x k <= fb_width fb /\ cursor_x k mod 8 = 0 /\ 0 <= cursor_y k /\ cursor_y k mod 16 = 0 /\
  cursor_y k + 16 * (Z.of_nat n + 1) < 4294967296.

(** only the current terminal and the cursor may differ *)
Definition elsewhere_same (k k' : console) : Prop :=
  current_tty_id k' = current_tty_id k /\ serial k' = serial k /\ print_buf k' = print_buf k /\
  forall i, i <> Z.to_nat (current_tty_id k) -> ttys k' !! i = ttys k !! i.

Lemma elsewhere_refl k : elsewhere_same k k.
Proof. by split_and!. Qed.

Lemma elsewhere_trans k1 k2 k3 : elsewhere_same k1 k2 -> elsewhere_same k2 k3 -> elsewhere_same k1 k3.
Proof.
  intros (H1 & H2 & H3 & H4) (H5 & H6 & H7 & H8). split_and!; [congruence.. |]. intros i Hi. rewrite H8 by (rewrite H1; done). by apply H4.
Qed.

(** the state after a step that prints *)
Definition printed (fb : framebuffer) (n : nat) (k : console) (m : res console) : Prop :=
  exists k', m = Ok k' /\ console_ok fb k' /\ shows fb k' /\ cursor_ok fb n k' /\ elsewhere_same k k'.

Lemma printed_cursor fb n k x y : console_ok fb k -> shows fb k -> 0 <= x <= fb_width fb -> x mod 8 = 0 -> 0 <= y -> y mod 16 = 0 ->
  y + 16 * (Z.of_nat n + 1) < 4294967296 -> printed fb n k (Ok (set_cursor x y k)).
Proof. intros HO HS ? ? ? ? ?. exists (set_cursor x y k). split; [done |]. split; [exact HO |]. split; [exact HS |]. split; [red; cbn [cursor_x cursor_y set_cursor]; lia | by split_and!]. Qed.

Lemma tab_stop x : 0 <= x <= 648 -> let next := Z.land (u32 (x / 8 + 4)) (u32 (Z.lnot 3)) in 0 <= u32 (next * 8) < 4294967296 /\ u32 (next * 8) mod 8 = 0.
Proof.
  intros Hx. cbv zeta.
  assert (HF : forallb (fun c => (u32 (Z.land (u32 (c + 4)) (u32 (Z.lnot 3)) * 8) mod 8 =? 0)) (seqZ 0 82) = true) by (vm_compute; reflexivity).
  rewrite forallb_forall in HF. specialize (HF (x / 8)). rewrite <- list_elem_of_In, elem_of_seqZ in HF. specialize (HF ltac:(zlia)).
  split; [apply u32_range | lia].
Qed.

(** drawing at the cursor and moving it on *)
Lemma draw_at_cursor fb n k c fg bg : console_ok fb k -> shows fb k -> cursor_ok fb n k -> 0 < c ->
  cursor_x k + 8 <= fb_width fb -> cursor_y k + 16 <= fb_height fb ->
  printed fb n k (let! k := draw_char font (i32 (cursor_x k)) (i32 (cursor_y k)) c fg bg k in Ok (set_cursor (u32 (cursor_x k + CHAR_WIDTH)) (cursor_y k) k)).
Proof.
  intros HO HS (Hx & Hx8 & Hy & Hy16 & Hn) Hc HX HY. pose proof HO as (_ & (HW & HH & _) & HT & HTs & HC).
  destruct (lookup_lt_is_Some_2 (ttys k) (Z.to_nat (current_tty_id k))) as [t Ht]; [lia |].
  pose proof (Forall_lookup_1 _ _ _ _ HTs Ht) as (Ec & Er & _). rewrite !i32_small by lia.
  destruct (draw_char_shows fb k t (cursor_x k / 8) (cursor_y k / 16) c fg bg HO HS Ht) as (p & E & HO' & HS'); [zlia | zlia | done |]. cbv zeta in *.
  replace (cursor_x k / 8 * 8) with (cursor_x k) in E by zlia. replace (cursor_y k / 16 * 16) with (cursor_y k) in E by zlia. rewrite E. cbn [res_bind].
  cbn [cursor_x cursor_y set_ttys set_pixels]. unfold CHAR_WIDTH. rewrite u32_small by (red; lia).
  eexists. split; [reflexivity |]. split; [exact HO' |]. split; [exact HS' |]. split.
  - split_and!; cbn [cursor_x cursor_y set_cursor]; try lia; zlia.
  - split_and!; try done. intros i Hi. cbn [ttys set_cursor set_ttys]. by apply list_lookup_insert_ne.
Qed.

Lemma fb_print_char_shows fb n k c fg bg : console_ok fb k -> shows fb k -> cursor_ok fb (S n) k -> 0 < c ->
  printed fb n k (fb_print_char font fb c fg bg k).
Proof.
  intros HO HS HU Hc. pose proof HU as (Hx & Hx8 & Hy & Hy16 & Hn). pose proof HO as (_ & (HW & HH & _) & _). unfold fb_print_char, CHAR_HEIGHT, CHAR_WIDTH.
  assert (HNL : printed fb n k (Ok (set_cursor 0 (u32 (cursor_y k + 16)) k)))
    by (rewrite u32_small by (red; lia); apply printed_cursor; (done || lia || zlia)).
  destruct (c =? 10); [exact HNL |]. destruct (c =? 13); [apply printed_cursor; done || lia |].
  destruct (c =? 9).
  { destruct (tab_stop (cursor_x k)) as [H1 H2]; [lia |]. cbv zeta in *. destruct (Z.leb_spec (fb_width fb) (u32 (Z.land (u32 (cursor_x k / 8 + 4)) (u32 (Z.lnot 3)) * 8))); [exact HNL |].
    apply printed_cursor; done || lia. }
  rewrite (u32_small (fb_width fb)), (u32_small (fb_height fb)), (u32_small (cursor_x k + 8)) by (red; lia).
  set (k1 := if fb_width fb <? cursor_x k + 8 then set_cursor 0 (u32 (cursor_y k + 16)) k else k).
  assert (H1 : console_ok fb k1 /\ shows fb k1 /\ cursor_ok fb n k1 /\ elsewhere_same k k1 /\ cursor_x k1 + 8 <= fb_width fb).
  { subst k1. destruct (Z.ltb_spec (fb_width fb) (cursor_x k + 8)).
    - destruct HNL as (k' & E & ? & ? & ? & ?). injection E as <-. split_and!; try done. cbn [cursor_x set_cursor]. lia.
    - split; [done |]. split; [done |]. split; [split_and!; done || lia |]. split; [apply elsewhere_refl | lia]. }
  clearbody k1. destruct H1 as (HO1 & HS1 & HU1 & HE1 & HX1). cbv zeta. rewrite (u32_small (cursor_y k1 + 16)) by (red; destruct HU1 as (_ & _ & ? & _ & ?); lia).
  set (k2 := if fb_height fb <? cursor_y k1 + 16 then set_cursor 0 0 k1 else k1).
  assert (H2 : console_ok fb k2 /\ shows fb k2 /\ cursor_ok fb n k2 /\ elsewhere_same k1 k2 /\ cursor_x k2 + 8 <= fb_width fb /\ cursor_y k2 + 16 <= fb_height fb).
  { subst k2. destruct (Z.ltb_spec (fb_height fb) (cursor_y k1 + 16)).
    - split; [exact HO1 |]. split; [exact HS1 |]. split; [split_and!; cbn [cursor_x cursor_y set_cursor]; done || lia |]. split; [by split_and! |].
      cbn [cursor_x cursor_y set_cursor]. lia.
    - split; [done |]. split; [done |]. split; [done |]. split; [apply elsewhere_refl | lia]. }
  clearbody k2. destruct H2 as (HO2 & HS2 & HU2 & HE2 & HX2 & HY2).
  destruct (draw_at_cursor fb n k2 c fg bg HO2 HS2 HU2 Hc HX2 HY2) as (k3 & E & HO3 & HS3 & HU3 & HE3).
  exists k3. split; [exact E |]. split_and!; try done. eapply elsewhere_trans; [exact HE1 |]. by eapply elsewhere_trans.
Qed.

Lemma fb_print_string_shows fb n k str fg bg : console_ok fb k -> shows fb k -> cursor_ok fb (length str + n) k -> Forall (fun c => 0 < c) str ->
  printed fb n k (fb_print_string font str fg bg k).
Proof.
  intros HO HS HU HF. unfold fb_print_string. pose proof HO as [-> _]. revert k HO HS HU.
  induction HF as [| c str Hc HF IH]; intros k HO HS HU; cbn [for_loop].
  - exists k. split_and!; try done.
  - destruct (fb_print_char_shows fb (length str + n) k c fg bg HO HS HU Hc) as (k1 & -> & HO1 & HS1 & HU1 & HE1). cbn [res_bind].
    destruct (IH k1 HO1 HS1 HU1) as (k2 & E & HO2 & HS2 & HU2 & HE2). exists k2. split_and!; try done. by eapply elsewhere_trans.
Qed.

(** ** Clearing and switching *)

Lemma clear_pixels_ok fb color p : geometry fb p ->
  exists p', clear_pixels fb color p = Ok p' /\ length p' = length p /\ forall px py, on_screen fb px py -> p' !! place fb px py = Some color.
Proof.
  intros HG. unfold clear_pixels.
  rewrite (for_nested (seqZ 0 (fb_height fb)) (seqZ 0 (fb_width fb)) (fun y x p => put_pixel (u32 (y * (fb_pitch fb / 4) + x)) color p)).
  assert (HU : forall py px, (py, px) ∈ (a ← seqZ 0 (fb_height fb); b ← seqZ 0 (fb_width fb); [(a, b)]) ->
    u32 (py * (fb_pitch fb / 4) + px) = py * (fb_pitch fb / 4) + px /\ 0 <= py * (fb_pitch fb / 4) + px < Z.of_nat (length p)).
  { intros py px Hp. apply pairs_elem in Hp as [Hy Hx]. pose proof (place_range fb p px py HG (conj Hx Hy)) as HR.
    destruct HG as (_ & _ & _ & _ & HL). split; [apply u32_small; red; lia | done]. }
  destruct (paint (a ← seqZ 0 (fb_height fb); b ← seqZ 0 (fb_width fb); [(a, b)]) (fun ab => u32 (ab.1 * (fb_pitch fb / 4) + ab.2)) (fun _ => color) p) as (p' & E & HL & H1 & _).
  - intros [y x] Hp. cbn [fst snd]. destruct (HU y x Hp) as [-> ?]. done.
  - done.
  - exists p'. split_and!; [exact E | done |]. intros px py [Hx Hy]. specialize (H1 (py, px)). cbn [fst snd] in H1.
    assert (HP : (py, px) ∈ (a ← seqZ 0 (fb_height fb); b ← seqZ 0 (fb_width fb); [(a, b)])) by (apply pairs_elem; lia).
    specialize (H1 HP). destruct (HU py px HP) as [HE _]. by rewrite HE in H1.
Qed.

Lemma geometry_ext fb p p' : length p' = length p -> geometry fb p -> geometry fb p'.
Proof. unfold geometry. by intros ->. Qed.

Lemma fb_clear_screen_shows fb n k : console_ok fb k -> 16 * (Z.of_nat n + 1) < 4294967296 -> printed fb n k (fb_clear_screen 0 k).
Proof.
  intros HO Hn. pose proof HO as (HI & HG & HT & HTs & HC). unfold fb_clear_screen. rewrite HI.
  destruct (clear_pixels_ok fb 0 (pixels k) HG) as (p & -> & HL & HP). cbn [res_bind]. unfold tty_clear_grid.
  cbn [current_tty_id ttys set_cursor set_pixels]. unfold MAX_TTYS. rewrite (proj2 (Z.ltb_ge _ 0)), (proj2 (Z.leb_gt 10 _)) by lia. cbn [orb].
  destruct (lookup_lt_is_Some_2 (ttys k) (Z.to_nat (current_tty_id k))) as [t Ht]; [lia |]. rewrite Ht.
  pose proof (Forall_lookup_1 _ _ _ _ HTs Ht) as (Ec & Er & El). eexists. split; [reflexivity |]. split; [| split; [| split]].
  - unfold console_ok. cbn [fb_info pixels ttys current_tty_id set_ttys set_cursor set_pixels]. rewrite length_insert.
    split; [done |]. split; [by eapply geometry_ext |]. split; [done |]. split; [| done]. apply Forall_insert; [done |]. by split_and!.
  - intros u px py Hu Hp. cbn [pixels ttys current_tty_id set_ttys set_cursor set_pixels] in *. rewrite list_lookup_insert_eq in Hu by lia. apply (inj Some) in Hu. subst u.
    rewrite HP by done. f_equal. unfold screen_pixel. cbn [cols rows grid]. destruct (_ && _); [| done].
    match goal with |- context [?g !! ?i] => destruct (g !! i) as [cell |] eqn:Eg end; [| done]. apply lookup_replicate in Eg as [-> _]. done.
  - red. cbn [cursor_x cursor_y set_ttys set_cursor set_pixels]. destruct HG as (HW & _). change (0 mod 8) with 0. change (0 mod 16) with 0. lia.
  - split_and!; try done. intros i Hi. cbn [ttys set_ttys]. by apply list_lookup_insert_ne.
Qed.

(** the cell loop of [tty_redraw] *)
Definition redraw_cell (id row col : Z) (k : console) : res console :=
  match ttys k !! Z.to_nat id with
  | None => Fault
  | Some t =>
    match grid t !! Z.to_nat (row * MAX_TTY_COLS + col) with
    | None => Fault
    | Some cell =>
      if cell_c cell =? 0 then Ok k
      else if (cell_c cell =? C_SPACE) && (cell_bg cell =? 0) then Ok k
      else draw_char font (col * 8) (row * 16) (cell_c cell) (cell_fg cell) (cell_bg cell) k
    end
  end.

(** the screen is right but for the cells of [l], which may be blank *)
Definition shows_but (fb : framebuffer) (t : tty) (l : list (Z * Z)) (k : console) : Prop :=
  forall px py, on_screen fb px py ->
  pixels k !! place fb px py = Some (screen_pixel t px py) \/ (py / 16, px / 8) ∈ l /\ pixels k !! place fb px py = Some 0.

Lemma redraw_cell_ok fb k t row col l : console_ok fb k -> ttys k !! Z.to_nat (current_tty_id k) = Some t ->
  0 <= row < rows t -> 0 <= col < cols t -> shows_but fb t ((row, col) :: l) k ->
  exists p, redraw_cell (current_tty_id k) row col k = Ok (set_pixels p k) /\ console_ok fb (set_pixels p k) /\ shows_but fb t l (set_pixels p k).
Proof.
  intros HO Ht Hrow Hcol HS. unfold redraw_cell. rewrite Ht. pose proof HO as (_ & (HW & HH & _) & HT & HTs & HC).
  pose proof (Forall_lookup_1 _ _ _ _ HTs Ht) as (Ec & Er & El).
  destruct (lookup_lt_is_Some_2 (grid t) (Z.to_nat (row * MAX_TTY_COLS + col))) as [cell Eg]; [rewrite El; unfold MAX_TTY_COLS; zlia |]. rewrite Eg.
  assert (HC1 : forall px py, on_screen fb px py -> (py / 16, px / 8) = (row, col) -> screen_pixel t px py =
    if (cell_c cell =? 0) || (cell_c cell =? C_SPACE) && (cell_bg cell =? 0) then 0
    else glyph_pixel (font_row (cell_c cell) (py - row * 16)) (px - col * 8) (cell_fg cell) (cell_bg cell)).
  { intros px py _ [= Ey Ex]. unfold screen_pixel. rewrite Ex, Ey, (proj2 (Z.ltb_lt col _)), (proj2 (Z.ltb_lt row _)), Eg by lia. cbn [andb].
    by replace (py - row * 16) with (py mod 16) by zlia; replace (px - col * 8) with (px mod 8) by zlia. }
  destruct ((cell_c cell =? 0) || (cell_c cell =? C_SPACE) && (cell_bg cell =? 0)) eqn:EB.
  - exists (pixels k). replace (set_pixels (pixels k) k) with k by (by destruct k). split; [| split; [done |]].
    + destruct (cell_c cell =? 0); [done |]. cbn [orb] in EB. by rewrite EB.
    + intros px py Hp. destruct (HS px py Hp) as [? | [Hl E]]; [by left |]. apply elem_of_cons in Hl as [Hl | Hl]; [| by right].
      left. by rewrite (HC1 px py Hp Hl).
  - apply orb_false_elim in EB as [EB0 EB1]. rewrite EB0, EB1.
    destruct (draw_char_ok fb k t col row (cell_c cell) (cell_fg cell) (cell_bg cell) HO Ht Hcol Hrow) as (p & E & HO' & HP). cbv zeta in *.
    assert (EW : with_cell col row (mk_cell (cell_c cell) (cell_fg cell) (cell_bg cell)) t = t).
    { unfold with_cell. rewrite list_insert_id; [by destruct t | by destruct cell]. }
    rewrite EW, list_insert_id in E, HO' by done. change (set_ttys (ttys k) (set_pixels p k)) with (set_pixels p k) in *.
    exists p. split; [exact E |]. split; [exact HO' |]. intros px py Hp. cbn [pixels set_pixels]. rewrite HP by done. destruct (decide _) as [Hd | Hd].
    + left. f_equal. symmetry. apply HC1; [done |]. f_equal; zlia.
    + destruct (HS px py Hp) as [? | [Hl E0]]; [by left |]. right. apply elem_of_cons in Hl as [[= Ey Ex] | Hl]; [| done]. destruct Hd. zlia.
Qed.

Lemma redraw_loop_ok fb t l id k : console_ok fb k -> current_tty_id k = id -> ttys k !! Z.to_nat id = Some t ->
  (forall r c, (r, c) ∈ l -> 0 <= r < rows t /\ 0 <= c < cols t) -> shows_but fb t l k ->
  exists p, for_loop l (fun ab k => redraw_cell id ab.1 ab.2 k) k = Ok (set_pixels p k) /\ console_ok fb (set_pixels p k) /\
    shows_but fb t [] (set_pixels p k).
Proof.
  revert k. induction l as [| [r c] l IH]; intros k HO HI Ht HL HS; cbn [for_loop].
  - exists (pixels k). by replace (set_pixels (pixels k) k) with k by (by destruct k).
  - cbn [fst snd]. destruct (HL r c ltac:(lmem)) as [Hr Hc]. subst id. destruct (redraw_cell_ok fb k t r c l HO Ht Hr Hc HS) as (p & -> & HO1 & HS1). cbn [res_bind].
    destruct (IH (set_pixels p k)) as (p2 & E & HO2 & HS2); [done | done | done | intros; apply HL; lmem | done |]. exists p2. split_and!; done.
Qed.

(** a switch shows the new terminal and changes none *)
Lemma tty_switch_shows fb k id : console_ok fb k -> shows fb k ->
  exists p, tty_switch font id k = Ok (if (0 <=? id) && (id <? 10) then set_pixels p (set_current id k) else k) /\
    (if (0 <=? id) && (id <? 10) then console_ok fb (set_pixels p (set_current id k)) /\ shows fb (set_pixels p (set_current id k)) else True).
Proof.
  intros HO HS. unfold tty_switch, MAX_TTYS. destruct (Z.ltb_spec id 0), (Z.leb_spec 10 id), (Z.leb_spec 0 id), (Z.ltb_spec id 10); cbn [orb andb]; try lia; try (by exists []).
  destruct (Z.eqb_spec id (current_tty_id k)) as [-> | Hne].
  { exists (pixels k). replace (set_pixels (pixels k) (set_current (current_tty_id k) k)) with k by (by destruct k). done. }
  pose proof HO as (HI & HG & HT & HTs & HC). cbn [fb_info set_current]. rewrite HI. cbn [pixels set_current].
  destruct (clear_pixels_ok fb 0 (pixels k) HG) as (p & -> & HL & HP). cbn [res_bind]. unfold tty_redraw, MAX_TTYS.
  rewrite (proj2 (Z.ltb_ge id 0)), (proj2 (Z.leb_gt 10 id)) by lia. cbn [orb ttys set_pixels set_current].
  destruct (lookup_lt_is_Some_2 (ttys k) (Z.to_nat id)) as [t Ht]; [lia |]. rewrite Ht. pose proof (Forall_lookup_1 _ _ _ _ HTs Ht) as (Ec & Er & _).
  assert (HO1 : console_ok fb (set_pixels p (set_current id k))).
  { unfold console_ok. cbn [fb_info pixels ttys current_tty_id set_pixels set_current]. split_and!; try done; try lia. by eapply geometry_ext. }
  assert (HB : shows_but fb t (a ← seqZ 0 (rows t); b ← seqZ 0 (cols t); [(a, b)]) (set_pixels p (set_current id k))).
  { intros px py Hp. cbn [pixels set_pixels]. rewrite HP by done. destruct (decide (px / 8 < cols t /\ py / 16 < rows t)) as [Hin | Hout].
    - right. split; [| done]. apply pairs_elem. destruct Hp. zlia.
    - left. f_equal. unfold screen_pixel. zbool; cbn [andb]; try done. lia. }
  destruct (redraw_loop_ok fb t _ id (set_pixels p (set_current id k)) HO1 eq_refl Ht (fun r c => proj1 (pairs_elem _ _ r c)) HB) as (p2 & E & HO2 & HS2).
  exists p2. rewrite (for_nested (seqZ 0 (rows t)) (seqZ 0 (cols t)) (redraw_cell id)). split; [exact E |]. split; [exact HO2 |].
  intros u px py Hu Hp. change (ttys k !! Z.to_nat id = Some u) in Hu. rewrite Ht in Hu. injection Hu as <-.
  destruct (HS2 px py Hp) as [? | [Hl _]]; [done | by apply elem_of_nil in Hl].
Qed.

End Screen.

(** ** What is sent *)

(** the line [kprintf] prints for a text *)
Definition line (text : list Z) : list Z := c_chars (if zlen text <? KPRINTF_BUF_SZ then text else take 1008 text ++ mark).

Lemma c_chars_stop l r : c_chars (l ++ 0 :: r) = c_chars l.
Proof. induction l as [| c l IH]; [done |]. cbn [app c_chars]. destruct (c =? 0); [done | by rewrite IH]. Qed.

Lemma c_chars_ok l : bytes l -> Forall (fun c => 0 < c) (c_chars l) /\ (length (c_chars l) <= length l)%nat.
Proof.
  induction 1 as [| c l Hc HB [IH1 IH2]]; [by split |]. cbn [c_chars]. destruct (Z.eqb_spec c 0); [split; [constructor | simpl; lia] |].
  split; [constructor; [red in Hc; lia | done] | simpl; lia].
Qed.

Lemma number_field_bytes left zero width prec sign num : bytes sign -> bytes num -> bytes (number_field left zero width prec sign num).
Proof.
  intros HS HN. assert (HR : forall n c, is_u8 c -> bytes (replicate n c)) by (intros; by apply Forall_replicate).
  unfold number_field, zeros, spaces, bytes. destruct left; [| destruct zero]; repeat apply Forall_app_2; try done; by apply HR.
Qed.

Lemma text_field_bytes left width t : bytes t -> bytes (text_field left width t).
Proof. intros HT. unfold text_field, spaces, bytes. destruct left; apply Forall_app_2; try done; by apply Forall_replicate. Qed.

Lemma render_uint_bytes v base upper width prec left zero prefix : conv_base base -> is_u64 v -> bytes (render_uint v base upper width prec left zero prefix).
Proof.
  intros Hb Hv. apply number_field_bytes; [| by apply numeral_bytes]. destruct (prefix && _), (base =? 16), (base =? 8), upper; by repeat constructor.
Qed.

Lemma render_conv_bytes c left zero sign hash width prec lmod args l args' : is_u8 c -> Forall arg_ok args ->
  render_conv c left zero sign hash width prec lmod args = Some (l, args') -> bytes l.
Proof.
  intros Hc HA. unfold render_conv.
  destruct (c =? C_PERCENT); [intros [= <- <-]; by repeat constructor |].
  destruct (c =? C_c). { destruct args as [| [w | ?] ?]; [done | | done]. cbn. intros [= <- <-]. apply text_field_bytes. repeat constructor; unfold u8, is_u8; zlia. }
  destruct (c =? C_s).
  { destruct args as [| [? | s] ?]; [done.. |]. cbn. intros [= <- <-]. apply text_field_bytes. inversion HA as [| ? ? Hs]; subst.
    assert (bytes (default null_text s)) by (destruct s; [done | by repeat constructor]). destruct (prec <? 0); [done | by apply Forall_take]. }
  destruct ((c =? C_d) || (c =? C_i)).
  { destruct args as [| [w | ?] ?]; [done | | done]. cbn. intros [= <- <-]. pose proof (signed_arg_range lmod w).
    apply number_field_bytes; [destruct (_ <? 0), sign; by repeat constructor | apply numeral_bytes; red; lia]. }
  destruct (c =? C_u). { destruct args as [| [w | ?] ?]; [done | | done]. cbn. intros [= <- <-]. apply render_uint_bytes; [red; lia | apply unsigned_arg_range]. }
  destruct ((c =? C_x) || _). { destruct args as [| [w | ?] ?]; [done | | done]. cbn. intros [= <- <-]. apply render_uint_bytes; [red; lia | apply unsigned_arg_range]. }
  destruct (c =? C_o). { destruct args as [| [w | ?] ?]; [done | | done]. cbn. intros [= <- <-]. apply render_uint_bytes; [red; lia | apply (unsigned_arg_range lmod w)]. }
  destruct (c =? C_p).
  { destruct args as [| [w | ?] ?]; [done | | done]. cbn [next_word mbind option_bind]. intros E. apply (inj Some), pair_equal_spec in E as [<- _].
    do 2 (apply Forall_app_2; [by repeat constructor |]). apply render_uint_bytes; [red; lia | apply u64_range]. }
  destruct (c =? C_n). { destruct args; [done |]. intros [= <- <-]. apply Forall_nil_2. }
  intros [= <- <-]. constructor; [done |]. constructor; [done | apply Forall_nil_2].
Qed.

Lemma render_bytes ps args text : Forall piece_ok ps -> Forall arg_ok args -> render ps args = Some text -> bytes text.
Proof.
  intros HP. revert args text. induction HP as [| p ps Hp HP IH]; intros args text HA; cbn [render]; [intros [= <-]; apply Forall_nil_2 |].
  destruct (render_piece p args) as [[l args1] |] eqn:EP; [| done]. cbn [mbind option_bind].
  destruct (render ps args1) as [u |] eqn:ER; [| done]. intros [= <-].
  assert (HL : bytes l /\ Forall arg_ok args1).
  { destruct p as [c | fl w pr len conv]; [injection EP as <- <-; split; [constructor; [apply Hp | apply Forall_nil_2] | done] |].
    destruct (directive_ok 0 ltac:(lia) fl w pr len conv [] args l args1 Hp HA EP) as [HA1 _]. split; [| done].
    destruct Hp as (_ & _ & _ & Hu & _). cbn [render_piece] in EP.
    destruct (the_width w (has fl C_MINUS) args) as [[[a b] args2] |] eqn:EW; [| done]. cbn [mbind option_bind] in EP.
    destruct (the_prec pr args2) as [[e args3] |] eqn:EQ; [| done]. cbn [mbind option_bind] in EP.
    eapply render_conv_bytes; [exact Hu | | exact EP]. eapply the_prec_args; [| exact EQ]. eapply the_width_args; [| exact EW]. done. }
  destruct HL as [HL HA1]. apply Forall_app_2; [done | by eapply IH].
Qed.

(** what [kprintf] leaves in its buffer *)
Lemma kprintf_buffer ps args text b : Forall piece_ok ps -> Forall arg_ok args -> render ps args = Some text -> zlen text <= INT_MAX -> zlen b = KPRINTF_BUF_SZ ->
  exists b', (let! (written, b) := vsnprintf (Some b) KPRINTF_BUF_SZ (print_format ps) args in
    let b := default [] b in
    if KPRINTF_BUF_SZ <=? written then
      let mpos := KPRINTF_BUF_SZ - 1 - zlen mark in
      let! b := write_bytes b mpos mark in write_bytes b (KPRINTF_BUF_SZ - 1) [0]
    else Ok b) = Ok b' /\ zlen b' = KPRINTF_BUF_SZ /\ c_chars b' = line text.
Proof.
  intros HP HA HR HT HB. assert (HLb : length b = 1024%nat) by (unfold zlen, KPRINTF_BUF_SZ in HB; lia).
  destruct (vsnprintf_buffer ps args text b KPRINTF_BUF_SZ HP HA HR HT) as (b1 & -> & E1); [done | unfold KPRINTF_BUF_SZ in *; lia |].
  cbn [res_bind]. change (default [] (Some b1)) with b1. unfold line. unfold KPRINTF_BUF_SZ in *. change (Z.to_nat (1024 - 1)) with 1023%nat in E1.
  destruct (Z.leb_spec 1024 (zlen text)) as [Hl | Hl]; destruct (Z.ltb_spec (zlen text) 1024) as [Hl' | Hl']; try lia; unfold zlen in Hl, Hl'.
  - assert (EL1 : length b1 = 1024%nat) by (rewrite E1, length_app, length_take; cbn [length]; rewrite length_drop; unfold zlen; lia).
    assert (ET : take 1008 b1 = take 1008 text).
    { rewrite E1, take_app_le by (rewrite length_take; lia). by rewrite take_take. }
    cbv zeta. change (1024 - 1 - zlen mark) with 1008. unfold write_bytes at 1. unfold zlen at 2. rewrite EL1. cbn [Z.leb andb].
    change (0 <=? 1008) with true. change (1008 + zlen mark <=? Z.of_nat 1024) with true. cbn [andb res_bind].
    change (Z.to_nat 1008) with 1008%nat. change (Z.to_nat (1008 + zlen mark)) with 1023%nat. rewrite ET.
    set (b2 := take 1008 text ++ mark ++ drop 1023 b1).
    assert (EL2 : length (take 1008 text ++ mark) = 1023%nat) by (rewrite length_app, length_take; cbn [length mark]; lia).
    assert (EL3 : length b2 = 1024%nat) by (unfold b2; rewrite app_assoc, length_app, EL2, length_drop; lia).
    unfold write_bytes, zlen. rewrite EL3. change (0 <=? 1024 - 1) with true. change (1024 - 1 + Z.of_nat (length [0]) <=? Z.of_nat 1024) with true. cbn [andb].
    change (Z.to_nat (1024 - 1)) with 1023%nat. change (Z.to_nat (1024 - 1 + Z.of_nat (length [0]))) with 1024%nat.
    assert (E2 : take 1023 b2 = take 1008 text ++ mark) by (unfold b2; rewrite app_assoc, <- EL2; apply take_app_length).
    rewrite E2, (drop_ge b2) by lia. eexists. split; [reflexivity |]. split.
    + rewrite length_app, EL2. done.
    + apply (c_chars_stop (take 1008 text ++ mark) []).
  - exists b1. split; [done |]. rewrite (take_ge text) in E1 by lia. split.
    + unfold zlen. rewrite E1, length_app. cbn [length]. rewrite length_drop. unfold zlen. lia.
    + rewrite E1. apply c_chars_stop.
Qed.

(** ** Any use of the console *)

Inductive console_op :=
  | Print (booting : bool) (tty_id fg : Z) (ps : list piece) (args : list arg)
  | Clear
  | Switch (id : Z).

Definition console_step (op : console_op) (k : console) : res console :=
  match op with
  | Print booting tty_id fg ps args => kprintf_color fontdata_8x16 booting tty_id fg (print_format ps) args k
  | Clear => fb_clear_screen 0 k
  | Switch id => tty_switch fontdata_8x16 id k
  end.

Definition op_ok (op : console_op) : Prop :=
  match op with
  | Print _ _ _ ps args => Forall piece_ok ps /\ Forall arg_ok args /\ exists text, render ps args = Some text /\ zlen text <= INT_MAX
  | _ => True
  end.

(** what the operation sends over the serial line *)
Definition said (op : console_op) : list Z :=
  match op with Print _ _ _ ps args => line (default [] (render ps args)) | _ => [] end.

Definition next_tty (cur : Z) (op : console_op) : Z :=
  match op with Switch id => if (0 <=? id) && (id <? 10) then id else cur | _ => cur end.

(** the terminals that are current at some time *)
Fixpoint visited (cur : Z) (ops : list console_op) : list Z :=
  match ops with
  | [] => [cur]
  | op :: ops => cur :: visited (next_tty cur op) ops
  end.

(** the invariant, with room for [n] more operations *)
Definition console_inv (fb : framebuffer) (n : nat) (k : console) : Prop :=
  console_ok fb k /\ shows fontdata_8x16 fb k /\ cursor_ok fb (1024 * n) k /\ zlen (print_buf k) = KPRINTF_BUF_SZ.

Lemma cursor_ok_le fb n n' k : (n <= n')%nat -> cursor_ok fb n' k -> cursor_ok fb n k.
Proof. intros H (H1 & H2 & H3 & H4 & H5). split_and!; done || lia. Qed.

Lemma space_rows r : 0 <= r < 16 -> font_row fontdata_8x16 C_SPACE r = 0.
Proof. intros Hr. unfold font_row. change (u8 C_SPACE) with 32. by rewrite fontdata_space. Qed.

Lemma line_length text : bytes text -> Forall (fun c => 0 < c) (line text) /\ (length (line text) <= 1023)%nat.
Proof.
  intros HB. unfold line. destruct (Z.ltb_spec (zlen text) KPRINTF_BUF_SZ) as [Hl | Hl]; unfold zlen, KPRINTF_BUF_SZ in Hl.
  - destruct (c_chars_ok text HB). split; [done | lia].
  - assert (HM : bytes (take 1008 text ++ mark)) by (apply Forall_app_2; [by apply Forall_take | by apply bytes_check]).
    destruct (c_chars_ok _ HM) as [H1 H2]. split; [done |]. rewrite length_app, length_take in H2. cbn [length mark] in H2. lia.
Qed.

Lemma print_step fb n k booting tty_id fg ps args : op_ok (Print booting tty_id fg ps args) -> console_inv fb (S n) k ->
  exists k', console_step (Print booting tty_id fg ps args) k = Ok k' /\ console_inv fb n k' /\ current_tty_id k' = current_tty_id k /\
    serial k' = serial k ++ said (Print booting tty_id fg ps args) /\ (forall i, i <> Z.to_nat (current_tty_id k) -> ttys k' !! i = ttys k !! i).
Proof.
  intros (HP & HA & text & HR & HT) (HO & HS & HU & HB). cbn [console_step said]. rewrite HR. change (default [] (Some text)) with text.
  destruct (kprintf_buffer ps args text (print_buf k) HP HA HR HT HB) as (b & E & HLb & EC).
  destruct (line_length text (render_bytes ps args text HP HA HR)) as [HF HLn]. unfold kprintf_color.
  destruct (vsnprintf (Some (print_buf k)) KPRINTF_BUF_SZ (print_format ps) args) as [[w o] | |]; [| done..]. cbn [res_bind] in *. cbv zeta in *.
  rewrite E. cbn [res_bind]. rewrite EC. destruct (booting || _).
  - destruct (fb_print_string_shows fontdata_8x16 fontdata_length space_rows fb (1024 * n) (set_buf b k) (line text) fg COLOR_BLACK HO HS)
      as (k1 & -> & HO1 & HS1 & HU1 & H1 & H2 & H3 & H4); [eapply cursor_ok_le; [| exact HU]; lia | done |]. cbn [res_bind].
    exists (send (line text) k1). split; [done |]. split.
    { split; [exact HO1 |]. split; [exact HS1 |]. split; [exact HU1 |]. cbn [print_buf send]. by rewrite H3. }
    split; [exact H1 |]. split; [cbn [serial send]; by rewrite H2 | done].
  - cbn [res_bind]. exists (send (line text) (set_buf b k)). split; [done |]. split; [| done].
    split; [exact HO |]. split; [exact HS |]. split; [| done]. eapply cursor_ok_le; [| exact HU]. lia.
Qed.

Lemma console_step_ok fb n op k : op_ok op -> console_inv fb (S n) k ->
  exists k', console_step op k = Ok k' /\ console_inv fb n k' /\ current_tty_id k' = next_tty (current_tty_id k) op /\
    serial k' = serial k ++ said op /\ (forall i, i <> Z.to_nat (current_tty_id k) -> ttys k' !! i = ttys k !! i).
Proof.
  intros HOP HI. destruct op as [booting tty_id fg ps args | | id]; [by apply print_step | |].
  - destruct HI as (HO & HS & HU & HB). cbn [console_step said]. rewrite app_nil_r.
    destruct (fb_clear_screen_shows fontdata_8x16 fontdata_length fb (1024 * n) k HO) as (k1 & E & HO1 & HS1 & HU1 & H1 & H2 & H3 & H4).
    { destruct HU as (_ & _ & ? & _ & ?). lia. }
    exists k1. split; [done |]. split; [| done]. split; [done |]. split; [done |]. split; [done |]. by rewrite H3.
  - destruct HI as (HO & HS & HU & HB). cbn [console_step said next_tty]. rewrite app_nil_r.
    assert (HU' : cursor_ok fb (1024 * n) k) by (eapply cursor_ok_le; [| exact HU]; lia).
    destruct (tty_switch_shows fontdata_8x16 fontdata_length fb k id HO HS) as (p & -> & HK).
    destruct (_ && _); eexists; (split; [reflexivity |]); [destruct HK as [HO1 HS1] |]; (split; [| done]); by split_and!.
Qed.


(** [tty_init] prepares the grids; a clear then shows the first *)
Lemma tty_init_ok fb k : fb_info k = Some fb -> geometry fb (pixels k) -> length (ttys k) = 10%nat -> Forall (fun t => length (grid t) = 2000%nat) (ttys k) ->
  console_ok fb (tty_init k).
Proof.
  intros HI HG HT HF. pose proof HG as (HW & HH & _). unfold tty_init. rewrite HI. unfold console_ok, MAX_TTY_COLS, MAX_TTY_ROWS.
  cbn [fb_info pixels ttys current_tty_id set_current set_ttys]. rewrite length_fmap. split_and!; try done.
  apply Forall_fmap. eapply Forall_impl; [exact HF |]. intros t Ht. cbn. unfold tty_ok. cbn [cols rows grid].
  rewrite !i32_small, !Z.quot_div_nonneg by lia. split_and!; [zlia | zlia | done].
Qed.

(** ** A small screen *)

Definition small_fb : framebuffer := mk_fb 16 32 64.
(** after [tty_init] on the zeroed memory of the boot *)
Definition booted : console :=
  tty_init (mk_con (Some small_fb) (replicate 512 0) 0 0 (replicate 10 (mk_tty 0 0 (replicate 2000 (mk_cell 0 0 0)))) (-1) (replicate 1024 0) []).

Lemma booted_inv : console_inv small_fb 4 booted.
Proof.
  assert (HG : geometry small_fb (replicate 512 0)) by (unfold geometry; rewrite length_replicate; vm_compute; intuition congruence).
  split; [| split; [| split]].
  - apply tty_init_ok; [done | exact HG | done |]. apply Forall_replicate. apply length_replicate.
  - intros t px py Ht Hp. assert (HR := place_range small_fb _ px py HG Hp). rewrite length_replicate in HR.
    change (ttys booted) with ((fun t => mk_tty 2 2 (grid t)) <$> replicate 10 (mk_tty 0 0 (replicate 2000 (mk_cell 0 0 0)))) in Ht.
    rewrite fmap_replicate in Ht. apply lookup_replicate in Ht as [-> _]. change (pixels booted) with (replicate 512 0).
    assert (EP : replicate 512 0 !! place small_fb px py = Some 0) by (apply lookup_replicate; split; [done | unfold place; lia]). rewrite EP. f_equal.
    unfold screen_pixel. cbn [cols rows grid]. destruct (_ && _); [| done].
    match goal with |- context [?g !! ?i] => destruct (g !! i) as [cell |] eqn:Eg end; [| done]. apply lookup_replicate in Eg as [-> _]. done.
  - vm_compute. intuition congruence.
  - vm_compute. reflexivity.
Qed.

(** "A%d" printed, the terminal left and entered again *)
Definition ex_ops : list console_op :=
  [Print false 0 COLOR_WHITE [Lit 65; Dir [] NNone NNone LNone C_d] [Word 7]; Switch 6; Print false 0 COLOR_WHITE [Lit 66] []; Switch 0].

Lemma ex_ops_ok : Forall op_ok ex_ops.
Proof.
  constructor; [| constructor; [done |]; constructor; [| by constructor]].
  - split; [| split; [by repeat constructor | exists [65; 55]; split; [vm_compute; reflexivity | vm_compute; discriminate]]].
    constructor; [cbn; unfold is_u8, C_PERCENT; lia |]. constructor; [| constructor]. cbn. split_and!; done || constructor.
  - split; [| split; [constructor | exists [66]; split; [vm_compute; reflexivity | vm_compute; discriminate]]].
    constructor; [cbn; unfold is_u8, C_PERCENT; lia | constructor].
Qed.


(** after 268435455 newlines without a character the next one is drawn above the screen *)
Example cursor_wraps : fb_print_char fontdata_8x16 small_fb 65 1 0 (set_cursor 0 4294967280 booted) = Fault.
Proof. vm_compute. reflexivity. Qed.
