(* ===== verification/TaskParser.v ===== *)
(** * The boot configuration language ([kernel/task_parser.c])

    The parser walks a text with a cursor and an end pointer.  Every access is
    guarded by a comparison of the two, so the model's cursor is the text that
    is left and the guard is the test that some is.  A null return value is
    [None]; the callers give up at the first one.  Destination buffers keep
    their sizes: a write past one faults.  Loops over tokens carry fuel; running
    out is a fault too. *)

From stdpp Require Import base list.
From S2P Require Import Prelude Bytes Cpio BootFiles.

Abbreviation text := (list Z).

Definition NUL : Z := 0.
Definition TAB : Z := 9.
Definition NEWLINE : Z := 10.
Definition RETURN : Z := 13.
Definition SPACE : Z := 32.
Definition QUOTE : Z := 34.
Definition HASH : Z := 35.
Definition EQUALS : Z := 61.
Definition AT : Z := 64.
Definition INT_MAX : Z := 2147483647.

Definition is_line_end (c : Z) : bool := (c =? NEWLINE) || (c =? RETURN) || (c =? NUL).
Definition is_blank (c : Z) : bool := (c =? SPACE) || (c =? TAB).

Fixpoint skip_spaces (p : text) : text :=
  match p with c :: q => if is_blank c then skip_spaces q else p | [] => [] end.

Fixpoint skip_line (p : text) : text :=
  match p with c :: q => if c =? NEWLINE then q else skip_line q | [] => [] end.

(** ** Numbers *)

Definition is_digit (c : Z) : bool := (48 <=? c) && (c <=? 57).

Fixpoint dec_loop (p : text) (val : Z) : option (Z * text) :=
  match p with
  | c :: q =>
      if is_digit c then
        let digit := c - 48 in
        if (INT_MAX - digit) / 10 <? val then None else dec_loop q (val * 10 + digit)
      else Some (val, p)
  | [] => Some (val, [])
  end.

(** an empty run of digits is an error *)
Definition parse_dec (p : text) : option (Z * text) :=
  match skip_spaces p with
  | [] => None
  | (c :: _) as p => if is_digit c then dec_loop p 0 else None
  end.

Fixpoint hex_loop (p : text) (val : Z) : option (Z * text) :=
  match p with
  | c :: q =>
      match hex_digit c with
      | Some digit =>
          if (UINT64_MAX - digit) / 16 <? val then None else hex_loop q (val * 16 + digit)
      | None => Some (val, p)
      end
  | [] => Some (val, [])
  end.

Definition skip_0x (p : text) : text :=
  match p with
  | z :: x :: q => if (z =? 48) && ((x =? 120) || (x =? 88)) then q else p
  | _ => p
  end.

Definition parse_hex (p : text) : option (Z * text) :=
  match skip_spaces p with
  | [] => None
  | p =>
      match skip_0x p with
      | c :: q => match hex_digit c with Some _ => hex_loop (c :: q) 0 | None => None end
      | [] => None
      end
  end.

(** ** Words *)

(** at most [room] characters up to a blank or a line end *)
Fixpoint take_word (room : nat) (p : text) : text * text :=
  match room, p with
  | S room, c :: q =>
      if is_blank c || is_line_end c then ([], p)
      else let '(w, r) := take_word room q in (c :: w, r)
  | _, _ => ([], p)
  end.

Definition parse_string (p : text) (max_len : nat) : option (text * text) :=
  match skip_spaces p with
  | [] => None
  | p =>
      let '(w, r) := take_word (max_len - 1) p in
      match w, r with
      | [], _ => None
      | _, c :: _ => if is_blank c || is_line_end c then Some (w, r) else None
      | _, [] => Some (w, r)
      end
  end.

(** the part before the first equals sign and the part after it *)
Fixpoint split_at (d : Z) (w : text) : option (text * text) :=
  match w with
  | [] => None
  | c :: w =>
      if c =? d then Some ([], w)
      else match split_at d w with Some (k, v) => Some (c :: k, v) | None => None end
  end.

(** ** Directives *)

Definition SELFTEST_MAX_KV : nat := 8.

Record selftest_directive := mk_directive { d_name : text; d_kvs : list (text * text); d_module_id : Z }.

Definition ends_line (p : text) : bool :=
  match p with [] => true | c :: _ => is_line_end c || (c =? HASH) end.

Fixpoint test_loop (fuel : nat) (p : text) (kvs : list (text * text))
    : res (option (list (text * text) * text)) :=
  match fuel with
  | O => Fault
  | S fuel =>
      let p := skip_spaces p in
      if ends_line p then Ok (Some (kvs, p))
      else
        match parse_string p 64 with
        | None => Ok None
        | Some (token, p) =>
            match split_at EQUALS token with
            | None => Ok None
            | Some (k, v) =>
                if (SELFTEST_MAX_KV <=? length kvs)%nat then Ok None
                else test_loop fuel p (kvs ++ [(take 31 k, take 31 v)])
            end
        end
  end.

(** the directive read, before it is registered *)
Definition read_test_directive (p : text) : res (option (selftest_directive * text)) :=
  match parse_string p 32 with
  | None => Ok None
  | Some (name, p) =>
      let! o := test_loop (S (length p)) p [] in
      match o with
      | None => Ok None
      | Some (kvs, p) => Ok (Some (mk_directive name kvs (-1), p))
      end
  end.

(** ** Configurations *)

(** [t_name] is the pointer left null when the entry has no colon *)
Record task := mk_task {
  t_cpu_id : Z; t_type : Z; t_module : text; t_name : option text; t_magic : Z;
  t_args : text; t_kvs : list (text * text) }.

Inductive task_conf_purpose := TASK_CONF_BASE | TASK_CONF_TEST | TASK_CONF_RECOVERY | TASK_CONF_COMPAT.

Record task_conf := mk_conf {
  c_head : list task; c_directives : list selftest_directive; c_files : option boot_file_set;
  c_purpose : task_conf_purpose; c_missing_panic : bool; c_initialized : bool; c_parsed : bool;
  c_tests_started : bool; c_started_cpus : Z; c_config_path : text }.

Definition conf_records (c : task_conf) (h : list task) (d : list selftest_directive) : task_conf :=
  mk_conf h d (c_files c) (c_purpose c) (c_missing_panic c) (c_initialized c) (c_parsed c)
    (c_tests_started c) (c_started_cpus c) (c_config_path c).
Definition conf_missing (c : task_conf) (b : bool) : task_conf :=
  mk_conf (c_head c) (c_directives c) (c_files c) (c_purpose c) b (c_initialized c) (c_parsed c)
    (c_tests_started c) (c_started_cpus c) (c_config_path c).

(** the heap as its clients see it here: the calls made so far, each of which
    may be refused, and the number of live records *)
Record record_heap := mk_heap { h_calls : nat; h_live : Z }.

Section Parser.
Context (kmalloc_ok : nat -> bool).

Definition record_alloc (h : record_heap) : bool * record_heap :=
  let ok := kmalloc_ok (h_calls h) in
  (ok, mk_heap (S (h_calls h)) (h_live h + if ok then 1 else 0)).
Definition record_free (h : record_heap) : record_heap := mk_heap (h_calls h) (h_live h - 1).

(** the code, then the state *)
Abbreviation outcome := (Z * task_conf * record_heap)%type.

Definition task_conf_add_directive_ctx (c : task_conf) (d : selftest_directive) (h : record_heap) : outcome :=
  if negb (c_initialized c) ||
     negb (match c_purpose c with TASK_CONF_TEST | TASK_CONF_COMPAT => true | _ => false end)
  then (-1, c, h)
  else
    let '(ok, h) := record_alloc h in
    if negb ok then (-1, c, h) else (0, conf_records c (c_head c) (c_directives c ++ [d]), h).

Definition parse_test_directive (c : task_conf) (p : text) (h : record_heap) : res (outcome * text) :=
  let! o := read_test_directive p in
  match o with
  | None => Ok (-1, c, h, p)
  | Some (d, p) => Ok (task_conf_add_directive_ctx c d h, p)
  end.

(** the words at-version, at-test, at-module_missing, 1, panic and skip *)
Definition w_version : text := [64; 118; 101; 114; 115; 105; 111; 110].
Definition w_test : text := [64; 116; 101; 115; 116].
Definition w_missing : text := [64; 109; 111; 100; 117; 108; 101; 95; 109; 105; 115; 115; 105; 110; 103].
Definition w_one : text := [49].
Definition w_panic : text := [112; 97; 110; 105; 99].
Definition w_skip : text := [115; 107; 105; 112].

Definition parse_directive (c : task_conf) (p : text) (h : record_heap) : res (outcome * text) :=
  match parse_string p 32 with
  | None => Ok (-1, c, h, p)
  | Some (name, p) =>
      if bool_decide (name = w_version) then
        match parse_string p 32 with
        | None => Ok (-1, c, h, p)
        | Some (value, p) =>
            if negb (bool_decide (value = w_one)) then Ok (-1, c, h, p)
            else
              let p := skip_spaces p in
              if negb (ends_line p) then Ok (-1, c, h, p) else Ok (0, c, h, p)
        end
      else if bool_decide (name = w_test) then parse_test_directive c p h
      else if bool_decide (name = w_missing) then
        match parse_string p 16 with
        | None => Ok (-1, c, h, p)
        | Some (value, p) =>
            if bool_decide (value = w_panic) then Ok (0, conf_missing c true, h, p)
            else if bool_decide (value = w_skip) then Ok (0, conf_missing c false, h, p)
            else Ok (-1, c, h, p)
        end
      else Ok (-1, c, h, p)
  end.

(** ** Arguments *)

(** up to the closing quote, or to a blank, and never past the line *)
Fixpoint token_end (quote : bool) (p : text) : text * text :=
  match p with
  | [] => ([], [])
  | c :: q =>
      if is_line_end c || (if quote then c =? QUOTE else is_blank c) then ([], p)
      else let '(w, r) := token_end quote q in (c :: w, r)
  end.

Definition open_quote (p : text) : bool * text :=
  match p with c :: q => if c =? QUOTE then (true, q) else (false, p) | [] => (false, []) end.
Definition close_quote (quote : bool) (p : text) : text :=
  match p with c :: q => if quote && (c =? QUOTE) then q else p | [] => [] end.

(** [pos] is the text in pos_buf, [cur] the offset of kv_cur in kv_buf *)
Record args := mk_args { a_pos : text; a_kvs : list (text * text); a_cur : Z }.

(** [n] bytes at offset [cur] of a buffer of [max] bytes *)
Definition fits (max cur n : Z) : res unit := if max <? cur + n then Fault else Ok tt.

Definition add_token (pos_max kv_max kv_cap : Z) (w : text) (a : args) : res args :=
  match split_at EQUALS w with
  | Some (k, v) =>
      if (Z.of_nat (length (a_kvs a)) <? kv_cap) && (a_cur a + zlen k + 1 + zlen v + 1 <=? kv_max - 1) then
        let! _ := fits kv_max (a_cur a) (zlen k + 1) in
        let! _ := fits kv_max (a_cur a + zlen k + 1) (zlen v + 1) in
        Ok (mk_args (a_pos a) (a_kvs a ++ [(k, v)]) (a_cur a + zlen k + 1 + zlen v + 1))
      else Ok a
  | None =>
      if zlen (a_pos a) + zlen w + 1 <=? pos_max - 1 then
        let pos := if bool_decide (a_pos a = []) then [] else a_pos a ++ [SPACE] in
        let! _ := fits pos_max (zlen pos) (zlen w + 1) in
        Ok (mk_args (pos ++ w) (a_kvs a) (a_cur a))
      else Ok a
  end.

Definition at_line_end (p : text) : bool := match p with [] => true | c :: _ => is_line_end c end.

Fixpoint args_loop (fuel : nat) (pos_max kv_max kv_cap : Z) (p : text) (a : args) : res (args * text) :=
  match fuel with
  | O => Fault
  | S fuel =>
      if at_line_end p then Ok (a, p)
      else
        let p := skip_spaces p in
        if at_line_end p then Ok (a, p)
        else
          let '(quote, p) := open_quote p in
          let '(w, p) := token_end quote p in
          let p := close_quote quote p in
          let! a := add_token pos_max kv_max kv_cap w a in
          args_loop fuel pos_max kv_max kv_cap p a
  end.

Definition parse_args (pos_max kv_max kv_cap : Z) (p : text) : res (args * text) :=
  let! (a, p) := args_loop (S (length p)) pos_max kv_max kv_cap p (mk_args [] [] 0) in
  let! _ := fits pos_max (zlen (a_pos a)) 1 in
  let! _ := fits kv_max (a_cur a) 1 in
  Ok (a, p).

(** the module and the name of an entry *)
Definition separate_name (info : text) : text * option text :=
  match split_at COLON info with
  | Some (module, name) => (module, Some name)
  | None => (info, None)
  end.

(** one task line; [None] is the error return, after the record is released *)
Definition parse_task (p : text) : res (option (task * text)) :=
  match parse_dec p with
  | None => Ok None
  | Some (cpu, p) =>
      match parse_string p 64 with
      | None => Ok None
      | Some (info, p) =>
          let '(module, name) := separate_name info in
          match parse_dec p with
          | None => Ok None
          | Some (type, p) =>
              match parse_hex p with
              | None => Ok None
              | Some (magic, p) =>
                  let! (a, p) := parse_args 256 256 16 p in
                  Ok (Some (mk_task cpu type module name magic (a_pos a) (a_kvs a), p))
              end
          end
      end
  end.

Fixpoint parse_loop (fuel : nat) (c : task_conf) (p : text) (h : record_heap) : res outcome :=
  match fuel with
  | O => Fault
  | S fuel =>
      match skip_spaces p with
      | [] => Ok (0, c, h)
      | b :: q =>
          if is_line_end b then parse_loop fuel c q h
          else if b =? HASH then parse_loop fuel c (skip_line (b :: q)) h
          else if b =? AT then
            let! (code, c, h, p) := parse_directive c (b :: q) h in
            if negb (code =? 0) then Ok (-1, c, h) else parse_loop fuel c (skip_line p) h
          else
            let '(ok, h) := record_alloc h in
            if negb ok then Ok (-1, c, h)
            else
              let! t := parse_task (b :: q) in
              match t with
              | None => Ok (-1, c, record_free h)
              | Some (t, p) => parse_loop fuel (conf_records c (c_head c ++ [t]) (c_directives c)) (skip_line p) h
              end
      end
  end.

Definition task_conf_parse_v1_ctx (c : task_conf) (p : text) (h : record_heap) : res outcome :=
  parse_loop (S (length p)) c p h.

(** ** The configuration's life cycle ([kernel/task_conf.c]) *)

Definition clear_records (c : task_conf) (h : record_heap) : task_conf * record_heap :=
  (conf_records c [] [],
   mk_heap (h_calls h) (h_live h - Z.of_nat (length (c_head c)) - Z.of_nat (length (c_directives c)))).

Definition blank_conf : task_conf := mk_conf [] [] None TASK_CONF_BASE false false false false 0 [].

Definition task_conf_init_ctx (c : task_conf) (files : option boot_file_set) (purpose : task_conf_purpose)
    : Z * task_conf :=
  match files with
  | Some _ => if c_initialized c then (-1, c) else (0, mk_conf [] [] files purpose false true false false 0 [])
  | None => (-1, c)
  end.

Definition task_conf_claim_cpu_ctx (c : task_conf) (cpu : Z) : Z * task_conf :=
  if negb (c_initialized c) || negb (c_parsed c) || (64 <=? cpu) ||
     negb (Z.land (c_started_cpus c) (Z.shiftl 1 cpu) =? 0)
  then (-1, c)
  else (0, mk_conf (c_head c) (c_directives c) (c_files c) (c_purpose c) (c_missing_panic c)
             (c_initialized c) (c_parsed c) (c_tests_started c)
             (Z.lor (c_started_cpus c) (Z.shiftl 1 cpu)) (c_config_path c)).

Definition task_conf_destroy_ctx (c : task_conf) (h : record_heap) : Z * task_conf * record_heap :=
  if negb (c_initialized c) || negb (c_started_cpus c =? 0) || c_tests_started c then (-1, c, h)
  else (0, blank_conf, snd (clear_records c h)).

(** [same_source] is the pointer comparison of the file's and the
    configuration's file set; [contents] are the file's bytes *)
Definition task_conf_parse_ctx (c : task_conf) (f : boot_file) (same_source : bool) (contents : text)
    (h : record_heap) : res (Z * task_conf * record_heap) :=
  if negb (c_initialized c) || c_parsed c || negb same_source || (b_data f =? 0) || (b_size f =? 0) ||
     (INT_MAX <? b_size f) || (UINTPTR_MAX - b_size f <? b_data f)
  then Ok (-1, c, h)
  else
    let! (ret, c, h) := task_conf_parse_v1_ctx c contents h in
    if negb (ret =? 0) then
      let '(c, h) := clear_records c h in Ok (-1, conf_missing c false, h)
    else
      Ok (0, mk_conf (c_head c) (c_directives c) (c_files c) (c_purpose c) (c_missing_panic c)
               (c_initialized c) true (c_tests_started c) (c_started_cpus c) (b_path f), h).

(** [read] gives the bytes a file view designates *)
Definition task_conf_load_ctx (read : boot_file -> text) (c : task_conf) (path : option text) (h : record_heap)
    : res (Z * task_conf * record_heap) :=
  match c_files c with
  | Some files =>
      if negb (c_initialized c) then Ok (-1, c, h)
      else
        let! (ret, f) := boot_file_lookup files path in
        match f with
        | Some f => task_conf_parse_ctx c f true (read f) h
        | None => Ok (-1, c, h)
        end
  | None => Ok (-1, c, h)
  end.

Definition task_conf_has_ap_tasks_ctx (c : task_conf) : bool :=
  c_initialized c && c_parsed c && existsb (fun t => 0 <? t_cpu_id t) (c_head c).

Definition task_conf_has_directives_ctx (c : task_conf) : bool :=
  c_initialized c && c_parsed c && negb (bool_decide (c_directives c = [])).

End Parser.

(** ** Every parser consumes input and respects its bounds *)

Lemma skip_spaces_length p : (length (skip_spaces p) <= length p)%nat.
Proof. induction p as [| c p IH]; simpl; [done |]. destruct (is_blank c); simpl; lia. Qed.

Lemma skip_line_length p : (length (skip_line p) <= length p)%nat.
Proof. induction p as [| c p IH]; simpl; [done |]. destruct (c =? NEWLINE); simpl; lia. Qed.

Lemma skip_line_cons c p : (length (skip_line (c :: p)) <= length p)%nat.
Proof. simpl. destruct (c =? NEWLINE); [done | apply skip_line_length]. Qed.

Lemma dec_loop_ok p v n r : 0 <= v <= INT_MAX -> dec_loop p v = Some (n, r) ->
  0 <= n <= INT_MAX /\ (length r <= length p)%nat.
Proof.
  revert v. unfold INT_MAX. induction p as [| c p IH]; intros v Hv; simpl; [intros [= <- <-]; auto |].
  destruct (is_digit c) eqn:D; [| intros [= <- <-]; auto].
  unfold is_digit in D. apply andb_true_iff in D as [D1%Z.leb_le D2%Z.leb_le].
  unfold INT_MAX. destruct (Z.ltb_spec ((2147483647 - (c - 48)) / 10) v); [done |].
  intros H1. destruct (IH (v * 10 + (c - 48))) as [? ?]; [zlia | done | split; [done | lia]].
Qed.

Lemma parse_dec_ok p n r : parse_dec p = Some (n, r) -> 0 <= n <= INT_MAX /\ (length r <= length p)%nat.
Proof.
  unfold parse_dec. pose proof (skip_spaces_length p).
  destruct (skip_spaces p) as [| c q]; [done |]. destruct (is_digit c); [| done].
  intros D. apply dec_loop_ok in D as [? ?]; [| by vm_compute]. split; [done | lia].
Qed.

Lemma hex_digit_range c d : hex_digit c = Some d -> 0 <= d < 16.
Proof. unfold hex_digit. repeat split_if; intros [= <-]; zbool; simpl in *; lia || done. Qed.

Lemma hex_loop_ok p v n r : 0 <= v <= UINT64_MAX -> hex_loop p v = Some (n, r) ->
  0 <= n <= UINT64_MAX /\ (length r <= length p)%nat.
Proof.
  revert v. induction p as [| c p IH]; intros v Hv; simpl; [intros [= <- <-]; auto |].
  destruct (hex_digit c) as [d |] eqn:D; [| intros [= <- <-]; auto].
  apply hex_digit_range in D. destruct (Z.ltb_spec ((UINT64_MAX - d) / 16) v); [done |].
  intros H1. destruct (IH (v * 16 + d)) as [? ?]; [zlia | done | split; [done | lia]].
Qed.

Lemma parse_hex_ok p n r : parse_hex p = Some (n, r) -> 0 <= n <= UINT64_MAX /\ (length r <= length p)%nat.
Proof.
  unfold parse_hex. pose proof (skip_spaces_length p). destruct (skip_spaces p) as [| z q] eqn:E; [done |].
  assert (length (skip_0x (z :: q)) <= length (z :: q))%nat
    by (unfold skip_0x; destruct q; [done |]; split_if; simpl; lia).
  destruct (skip_0x (z :: q)) as [| c s]; [done |]. destruct (hex_digit c); [| done].
  intros D. apply hex_loop_ok in D as [? ?]; [| lia]. split; [done | lia].
Qed.

Lemma take_word_ok room p w r : take_word room p = (w, r) -> p = w ++ r /\ (length w <= room)%nat.
Proof.
  revert p w r. induction room as [| room IH]; intros [| c p] w r; simpl;
    try (intros [= <- <-]; split; [done | simpl; lia]).
  destruct (is_blank c || is_line_end c); [intros [= <- <-]; split; [done | simpl; lia] |].
  destruct (take_word room p) as [w' r'] eqn:E. intros [= <- <-].
  destruct (IH _ _ _ E) as [-> ?]. split; [done | simpl; lia].
Qed.

Lemma parse_string_ok p n w r : parse_string p n = Some (w, r) ->
  (1 <= length w <= n - 1)%nat /\ (length w + length r <= length p)%nat.
Proof.
  unfold parse_string. pose proof (skip_spaces_length p) as L. destruct (skip_spaces p) as [| c q]; [done |].
  destruct (take_word (n - 1) (c :: q)) as [w' r'] eqn:E. apply take_word_ok in E as [E HL].
  intros H. assert (w' = w /\ r' = r /\ w' <> []) as (-> & -> & HN)
    by (destruct w', r'; try done; [| destruct (_ || _); [| done]]; by injection H as <- <-).
  rewrite E, length_app in L. destruct w; [done |]. split; [simpl in *; lia | lia].
Qed.

Lemma split_at_ok d w k v : split_at d w = Some (k, v) -> w = k ++ d :: v.
Proof.
  revert k v. induction w as [| c w IH]; intros k v; simpl; [done |].
  destruct (Z.eqb_spec c d) as [-> |]; [by intros [= <- <-] |].
  destruct (split_at d w) as [[k' v'] |]; [| done]. intros [= <- <-]. simpl. by rewrite (IH k' v').
Qed.

Definition kv_ok (kv : text * text) : Prop := (length kv.1 <= 31 /\ length kv.2 <= 31)%nat.

Lemma test_loop_ok fuel p kvs : (length p < fuel)%nat -> Forall kv_ok kvs -> (length kvs <= 8)%nat ->
  exists o, test_loop fuel p kvs = Ok o /\
    forall l r, o = Some (l, r) -> Forall kv_ok l /\ (length l <= 8)%nat /\ (length r <= length p)%nat.
Proof.
  revert p kvs. induction fuel as [| fuel IH]; intros p kvs Hf HK HL; [lia |].
  cbn [test_loop]. pose proof (skip_spaces_length p) as S.
  destruct (ends_line (skip_spaces p)); [eexists; split; [done |]; intros ? ? [= <- <-]; auto |].
  destruct (parse_string (skip_spaces p) 64) as [[w r] |] eqn:E; [| by eexists].
  apply parse_string_ok in E as [? ?].
  destruct (split_at EQUALS w) as [[k v] |]; [| by eexists].
  unfold SELFTEST_MAX_KV. destruct (Nat.leb_spec 8 (length kvs)); [by eexists |].
  destruct (IH r (kvs ++ [(take 31 k, take 31 v)])) as (o & -> & Ho).
  - lia.
  - apply Forall_app. split; [done |]. apply Forall_singleton. split; simpl; rewrite length_take; lia.
  - rewrite length_app. simpl. lia.
  - eexists. split; [done |]. intros l r' E. destruct (Ho l r' E) as (? & ? & ?). repeat split; [done | lia | lia].
Qed.

Definition directive_ok (d : selftest_directive) : Prop :=
  (1 <= length (d_name d) <= 31)%nat /\ Forall kv_ok (d_kvs d) /\ (length (d_kvs d) <= 8)%nat.

Lemma read_test_directive_ok p : exists o, read_test_directive p = Ok o /\
  forall d r, o = Some (d, r) -> directive_ok d /\ (length r <= length p)%nat.
Proof.
  unfold read_test_directive. destruct (parse_string p 32) as [[w r] |] eqn:E; [| by eexists].
  apply parse_string_ok in E as [? ?].
  destruct (test_loop_ok (S (length r)) r []) as (o & -> & Ho); [lia | constructor | simpl; lia |].
  simpl. destruct o as [[kvs q] |]; [| by eexists]. eexists. split; [done |]. intros d s [= <- <-].
  destruct (Ho _ _ eq_refl) as (? & ? & ?). split; [| lia]. split; [simpl; lia | done].
Qed.

(** ** Arguments stay inside their buffers *)

Definition kv_size (kvs : list (text * text)) : Z :=
  foldr (fun kv n => zlen kv.1 + 1 + zlen kv.2 + 1 + n) 0 kvs.

Lemma kv_size_snoc kvs k v : kv_size (kvs ++ [(k, v)]) = kv_size kvs + zlen k + 1 + zlen v + 1.
Proof. induction kvs as [| kv kvs IH]; simpl; [lia | rewrite IH; lia]. Qed.

Definition args_ok (a : args) : Prop :=
  zlen (a_pos a) <= 255 /\ a_cur a = kv_size (a_kvs a) /\ a_cur a <= 255 /\ (length (a_kvs a) <= 16)%nat.

Lemma fits_ok max cur n : cur + n <= max -> fits max cur n = Ok tt.
Proof. intros H. unfold fits. by rewrite (proj2 (Z.ltb_ge _ _)). Qed.

Lemma add_token_ok w a : args_ok a -> exists a', add_token 256 256 16 w a = Ok a' /\ args_ok a'.
Proof.
  intros (HP & HC & HK & HN). unfold add_token.
  assert (Same : exists a', Ok a = Ok a' /\ args_ok a') by (exists a; repeat split; done).
  pose proof (zlen_nonneg w).
  destruct (split_at EQUALS w) as [[k v] |].
  - pose proof (zlen_nonneg k). pose proof (zlen_nonneg v).
    destruct (Z.ltb_spec (Z.of_nat (length (a_kvs a))) 16); [simpl | done].
    destruct (Z.leb_spec (a_cur a + zlen k + 1 + zlen v + 1) (256 - 1)); [| done].
    rewrite !fits_ok by lia. simpl. eexists. split; [done |]. repeat split; simpl; [done | | lia |].
    + rewrite kv_size_snoc. lia.
    + rewrite length_app. simpl. lia.
  - destruct (Z.leb_spec (zlen (a_pos a) + zlen w + 1) (256 - 1)); [| done].
    assert (zlen (if bool_decide (a_pos a = []) then [] else a_pos a ++ [SPACE]) <= zlen (a_pos a) + 1).
    { case_bool_decide as E; [rewrite E; by vm_compute |]. rewrite zlen_app. change (zlen [SPACE]) with 1. lia. }
    rewrite fits_ok by lia. simpl. eexists. split; [done |].
    repeat split; simpl; [rewrite zlen_app; lia | done..].
Qed.

Lemma token_end_ok q p w r : token_end q p = (w, r) -> p = w ++ r.
Proof.
  revert w r. induction p as [| c p IH]; intros w r; simpl; [by intros [= <- <-] |].
  destruct (is_line_end c || _); [by intros [= <- <-] |].
  destruct (token_end q p) as [w' r']. intros [= <- <-]. simpl. by rewrite (IH w' r').
Qed.

Lemma skip_spaces_head p c q : skip_spaces p = c :: q -> is_blank c = false.
Proof.
  induction p as [| b p IH]; simpl; [done |]. destruct (is_blank b) eqn:B; [done |]. by intros [= -> ->].
Qed.

(** one round of the loop consumes at least a character *)
Lemma token_progress p c q quote p1 w r : skip_spaces p = c :: q -> is_line_end c = false ->
  open_quote (c :: q) = (quote, p1) -> token_end quote p1 = (w, r) ->
  (length (close_quote quote r) < length p)%nat.
Proof.
  intros E HL HQ HT. pose proof (skip_spaces_length p) as L. rewrite E in L. simpl in L.
  assert (C : (length (close_quote quote r) <= length r)%nat)
    by (unfold close_quote; destruct r; [done |]; split_if; simpl; lia).
  pose proof (f_equal length (token_end_ok _ _ _ _ HT)) as LT. rewrite length_app in LT.
  simpl in HQ. destruct (c =? QUOTE); injection HQ as <- <-; [lia |].
  simpl in HT, LT. rewrite HL, (skip_spaces_head _ _ _ E) in HT. simpl in HT.
  destruct (token_end false q) as [w' r']. injection HT as <- <-. simpl in LT. lia.
Qed.

Lemma args_loop_ok fuel p a : (length p < fuel)%nat -> args_ok a ->
  exists a' r, args_loop fuel 256 256 16 p a = Ok (a', r) /\ args_ok a' /\ (length r <= length p)%nat.
Proof.
  revert p a. induction fuel as [| fuel IH]; intros p a Hf HA; [lia |].
  cbn [args_loop]. pose proof (skip_spaces_length p).
  destruct (at_line_end p); [by exists a, p |].
  destruct (skip_spaces p) as [| c q] eqn:E; [exists a, []; split; [done | split; [done | simpl; lia]] |].
  cbn [at_line_end]. destruct (is_line_end c) eqn:HL; [by exists a, (c :: q) |].
  destruct (open_quote (c :: q)) as [quote p1] eqn:HQ. destruct (token_end quote p1) as [w r] eqn:HT.
  pose proof (token_progress _ _ _ _ _ _ _ E HL HQ HT).
  destruct (add_token_ok w a HA) as (a1 & -> & HA1). cbn [res_bind].
  destruct (IH (close_quote quote r) a1) as (a' & r' & -> & HA' & Hr'); [lia | done |].
  exists a', r'. split; [done |]. split; [done | lia].
Qed.

Lemma parse_args_ok p : exists a r, parse_args 256 256 16 p = Ok (a, r) /\ args_ok a /\ (length r <= length p)%nat.
Proof.
  unfold parse_args.
  destruct (args_loop_ok (S (length p)) p (mk_args [] [] 0)) as (a & r & -> & HA & Hr);
    [lia | by repeat split; vm_compute; lia || done |].
  pose proof HA as (? & ? & ? & ?). cbn [res_bind]. rewrite !fits_ok by lia. by exists a, r.
Qed.

Definition task_ok (t : task) : Prop :=
  0 <= t_cpu_id t <= INT_MAX /\ 0 <= t_type t <= INT_MAX /\ 0 <= t_magic t <= UINT64_MAX /\
  zlen (t_module t) + match t_name t with Some n => 1 + zlen n | None => 0 end <= 63 /\
  zlen (t_args t) <= 255 /\ kv_size (t_kvs t) <= 255 /\ (length (t_kvs t) <= 16)%nat.

Lemma separate_name_length info m n : separate_name info = (m, n) ->
  zlen info = zlen m + match n with Some n => 1 + zlen n | None => 0 end.
Proof.
  unfold separate_name. destruct (split_at COLON info) as [[a b] |] eqn:E; intros [= <- <-]; [| lia].
  apply split_at_ok in E as ->. rewrite zlen_app. change (COLON :: b) with ([COLON] ++ b).
  rewrite zlen_app. change (zlen [COLON]) with 1. lia.
Qed.

Lemma parse_task_ok p : exists o, parse_task p = Ok o /\
  forall t r, o = Some (t, r) -> task_ok t /\ (length r < length p)%nat.
Proof.
  unfold parse_task. destruct (parse_dec p) as [[cpu p1] |] eqn:E1; [| by eexists].
  destruct (parse_string p1 64) as [[info p2] |] eqn:E2; [| by eexists].
  destruct (separate_name info) as [m n] eqn:E3.
  destruct (parse_dec p2) as [[type p3] |] eqn:E4; [| by eexists].
  destruct (parse_hex p3) as [[magic p4] |] eqn:E5; [| by eexists].
  destruct (parse_args_ok p4) as (a & r & -> & (? & ? & ? & ?) & ?). cbn [res_bind].
  eexists. split; [done |]. intros t s [= <- <-].
  apply parse_dec_ok in E1 as [? ?], E4 as [? ?]. apply parse_hex_ok in E5 as [? ?].
  apply parse_string_ok in E2 as [? ?]. apply separate_name_length in E3. unfold zlen in E3 at 1.
  split; [| lia]. unfold task_ok. simpl. repeat (split; [lia || done |]). lia.
Qed.

(** ** The whole file *)

Definition may_test (p : task_conf_purpose) : bool :=
  match p with TASK_CONF_TEST | TASK_CONF_COMPAT => true | _ => false end.

(** [c'] is [c] with new records, all within their bounds, and possibly another
    policy for missing modules; the heap holds one block for each *)
Definition added (c c' : task_conf) (h h' : record_heap) (ts : list task) (ds : list selftest_directive) : Prop :=
  c' = conf_missing (conf_records c (c_head c ++ ts) (c_directives c ++ ds)) (c_missing_panic c') /\
  Forall task_ok ts /\ Forall directive_ok ds /\ (ds <> [] -> may_test (c_purpose c) = true) /\
  h_live h' = h_live h + Z.of_nat (length ts) + Z.of_nat (length ds).

Lemma added_nil c h h' : h_live h' = h_live h -> added c c h h' [] [].
Proof.
  intros E. repeat split; [| constructor | constructor | done | simpl; lia].
  destruct c. unfold conf_missing, conf_records. simpl. by rewrite !app_nil_r.
Qed.

Lemma added_trans c1 c2 c3 h1 h2 h3 t1 d1 t2 d2 :
  added c1 c2 h1 h2 t1 d1 -> added c2 c3 h2 h3 t2 d2 -> added c1 c3 h1 h3 (t1 ++ t2) (d1 ++ d2).
Proof.
  intros (E1 & T1 & D1 & P1 & L1) (E2 & T2 & D2 & P2 & L2). repeat split.
  - rewrite E2. rewrite E1. unfold conf_missing, conf_records. simpl. by rewrite !app_assoc.
  - by apply Forall_app.
  - by apply Forall_app.
  - intros N. destruct d1; [| by apply P1]. rewrite E1 in P2. by apply P2.
  - rewrite !length_app. lia.
Qed.

Lemma added_missing c h b : added c (conf_missing c b) h h [] [].
Proof.
  repeat split; [| constructor | constructor | done | simpl; lia].
  destruct c. unfold conf_missing, conf_records. simpl. by rewrite !app_nil_r.
Qed.

Section Files.
Context (kmalloc_ok : nat -> bool).

Lemma parse_directive_ok c p h : exists code c' h' (r : text) ds,
  parse_directive kmalloc_ok c p h = Ok (code, c', h', r) /\ added c c' h h' [] ds /\
  (code = 0 \/ code = -1) /\ (length r <= length p)%nat /\ (code = 0 -> (length r < length p)%nat).
Proof.
  assert (Fail : forall q : text, (length q <= length p)%nat -> exists code c' h' (r : text) ds,
    Ok (-1, c, h, q) = Ok (code, c', h', r) /\ added c c' h h' [] ds /\
    (code = 0 \/ code = -1) /\ (length r <= length p)%nat /\ (code = 0 -> (length r < length p)%nat)).
  { intros q Hq. exists (-1), c, h, q, []. split; [done |]. split; [by apply added_nil |]. auto with lia. }
  unfold parse_directive. destruct (parse_string p 32) as [[name p1] |] eqn:E1; [| by apply Fail].
  apply parse_string_ok in E1 as [? ?]. case_bool_decide.
  { destruct (parse_string p1 32) as [[v p2] |] eqn:E2; [| apply Fail; lia].
    apply parse_string_ok in E2 as [? ?]. pose proof (skip_spaces_length p2).
    case_bool_decide; simpl; [| apply Fail; lia]. destruct (ends_line (skip_spaces p2)); simpl; [| apply Fail; lia].
    exists 0, c, h, (skip_spaces p2), []. split; [done |]. split; [by apply added_nil |]. auto with lia. }
  case_bool_decide.
  { unfold parse_test_directive. destruct (read_test_directive_ok p1) as (o & -> & Ho). simpl.
    destruct o as [[d r] |]; [| apply Fail; lia]. destruct (Ho d r eq_refl) as [Hd Hr].
    unfold task_conf_add_directive_ctx. destruct (c_initialized c); simpl; [| apply Fail; lia].
    destruct (c_purpose c) eqn:P; simpl; try (apply Fail; lia);
      (destruct (kmalloc_ok (h_calls h)); simpl;
       [| exists (-1), c, (mk_heap (S (h_calls h)) (h_live h + 0)), r, []; split; [done |];
          split; [apply added_nil; simpl; lia | auto with lia]];
       eexists 0, _, _, r, [d]; split; [done |]; split; [| auto with lia];
       split; [unfold conf_missing, conf_records; simpl; by rewrite app_nil_r |];
       split; [constructor |]; split; [by apply Forall_singleton |]; split; [by rewrite P | simpl; lia]). }
  case_bool_decide; [| apply Fail; lia].
  destruct (parse_string p1 16) as [[v p2] |] eqn:E2; [| apply Fail; lia].
  apply parse_string_ok in E2 as [? ?].
  case_bool_decide; [exists 0, (conf_missing c true), h, p2, []; split; [done |]; split; [apply added_missing | auto with lia] |].
  case_bool_decide; [exists 0, (conf_missing c false), h, p2, []; split; [done |]; split; [apply added_missing | auto with lia] |].
  apply Fail. lia.
Qed.

Lemma parse_loop_ok fuel c p h : (length p < fuel)%nat -> exists code c' h' ts ds,
  parse_loop kmalloc_ok fuel c p h = Ok (code, c', h') /\ added c c' h h' ts ds /\ (code = 0 \/ code = -1).
Proof.
  revert c p h. induction fuel as [| fuel IH]; intros c p h Hf; [lia |].
  cbn [parse_loop]. pose proof (skip_spaces_length p) as L.
  destruct (skip_spaces p) as [| b q]; [exists 0, c, h, [], []; auto using added_nil |]. simpl in L.
  destruct (is_line_end b); [apply IH; lia |].
  destruct (b =? HASH); [apply IH; pose proof (skip_line_cons b q); lia |].
  destruct (b =? AT).
  { destruct (parse_directive_ok c (b :: q) h) as (code & c1 & h1 & r & ds & -> & A1 & HC & Hr & Hr0).
    cbn [res_bind]. destruct HC as [-> | ->]; simpl; [| by exists (-1), c1, h1, [], ds; auto].
    specialize (Hr0 eq_refl). simpl in Hr0. pose proof (skip_line_length r).
    destruct (IH c1 (skip_line r) h1) as (code & c2 & h2 & t2 & d2 & -> & A2 & HC); [lia |].
    exists code, c2, h2, t2, (ds ++ d2). split; [done |]. split; [| done].
    by apply (added_trans _ _ _ _ _ _ [] ds _ _ A1 A2). }
  unfold record_alloc. destruct (kmalloc_ok (h_calls h)); cbn [negb].
  2:{ eexists (-1), c, _, [], []. split; [done |]. split; [apply added_nil; simpl; lia | auto]. }
  destruct (parse_task_ok (b :: q)) as (o & -> & Ho). cbn [res_bind]. destruct o as [[t r] |].
  2:{ eexists (-1), c, _, [], []. split; [done |]. split; [apply added_nil; simpl; lia | auto]. }
  destruct (Ho t r eq_refl) as [Ht Hr]. simpl in Hr. pose proof (skip_line_length r).
  set (c1 := conf_records c (c_head c ++ [t]) (c_directives c)). set (h1 := mk_heap _ _).
  assert (A1 : added c c1 h h1 [t] []).
  { repeat split; [| by apply Forall_singleton | constructor | done | simpl; lia].
    unfold c1, conf_missing, conf_records. simpl. by rewrite app_nil_r. }
  destruct (IH c1 (skip_line r) h1) as (code & c2 & h2 & t2 & d2 & -> & A2 & HC); [lia |].
  exists code, c2, h2, ([t] ++ t2), d2. split; [done |]. split; [| done].
  by apply (added_trans _ _ _ _ _ _ [t] [] _ _ A1 A2).
Qed.
(** parsing a configuration file is total and all-or-nothing: whatever the
    bytes and whichever allocations fail, it returns without a write outside
    the fixed buffers of its records.  On success the file's tasks and
    directives are appended, every field within its bounds, with directives
    only in test or compatible configurations and one live block per record; on
    failure the configuration is refused unchanged, or left with no record, the
    default policy and every block released. *)
Lemma task_conf_parse_atomic c f same contents h :
  exists code c' h', task_conf_parse_ctx kmalloc_ok c f same contents h = Ok (code, c', h') /\
    ((code = 0 /\ c_parsed c = false /\ c_parsed c' = true /\ c_config_path c' = b_path f /\
      exists ts ds, c_head c' = c_head c ++ ts /\ c_directives c' = c_directives c ++ ds /\
        Forall task_ok ts /\ Forall directive_ok ds /\ (ds <> [] -> may_test (c_purpose c) = true) /\
        h_live h' = h_live h + Z.of_nat (length ts) + Z.of_nat (length ds)) \/
     (code = -1 /\ ((c' = c /\ h' = h) \/
       (c' = conf_missing (conf_records c [] []) false /\ c_parsed c' = false /\
        h_live h' = h_live h - Z.of_nat (length (c_head c)) - Z.of_nat (length (c_directives c)))))).
Proof.
  unfold task_conf_parse_ctx.
  destruct (_ || (UINTPTR_MAX - b_size f <? b_data f)) eqn:E; [exists (-1), c, h; split; [done | right; auto] |].
  destruct (c_parsed c) eqn:P; [by rewrite orb_true_r in E |].
  unfold task_conf_parse_v1_ctx.
  destruct (parse_loop_ok (S (length contents)) c contents h) as (code & c' & h' & ts & ds & -> & A & HC); [lia |].
  destruct A as (EC & HT & HD & HP & HL). cbn [res_bind]. destruct HC as [-> | ->]; cbn [Z.eqb negb].
  - eexists 0, _, h'. split; [done |]. left. do 4 (split; [done |]). exists ts, ds. rewrite EC. simpl. auto 8.
  - cbn [clear_records]. eexists (-1), _, _. split; [done |]. right. split; [done |]. right.
    rewrite EC. split; [by destruct c |]. split; [done |].
    simpl. rewrite !length_app. lia.
Qed.

End Files.

(** a processor is started at most once, and a started configuration stays *)
Lemma claim_cpu_once c cpu c' h : 0 <= cpu -> 0 <= c_started_cpus c ->
  task_conf_claim_cpu_ctx c cpu = (0, c') ->
  fst (task_conf_claim_cpu_ctx c' cpu) = -1 /\ task_conf_destroy_ctx c' h = (-1, c', h).
Proof.
  intros H0 HS. unfold task_conf_claim_cpu_ctx. split_if; [done |]. intros [= <-]. simpl.
  assert (B : Z.testbit (Z.lor (c_started_cpus c) (Z.shiftl 1 cpu)) cpu = true)
    by (rewrite Z.lor_spec, Z.shiftl_spec, Z.sub_diag by done; apply orb_true_r).
  assert (Z.land (Z.lor (c_started_cpus c) (Z.shiftl 1 cpu)) (Z.shiftl 1 cpu) <> 0).
  { intros N. apply (f_equal (fun z => Z.testbit z cpu)) in N.
    rewrite Z.land_spec, B, Z.shiftl_spec, Z.sub_diag, Z.bits_0 in N by done. done. }
  rewrite (proj2 (Z.eqb_neq (Z.land _ _) 0)) by done. rewrite orb_true_r. split; [done |].
  unfold task_conf_destroy_ctx. simpl. rewrite (proj2 (Z.eqb_neq (Z.lor _ _) 0)).
  - simpl. by rewrite orb_true_r.
  - intros N. rewrite N, Z.bits_0 in B. done.
Qed.
