(* ===== verification/TaskPrint.v ===== *)
(** * Configuration files read back

    A writer of the boot configuration language, as [docs/task-conf-dsl.md]
    describes its lines, and the proof that the parser of TaskParser.v
    recovers what was written. *)

From stdpp Require Import base list.
From S2P Require Import Prelude Bytes Cpio BootFiles TaskParser.

(** ** Writing *)

(** numbers of [n] digits, leading zeros included *)
Fixpoint decn (n : nat) (v : Z) : text :=
  match n with O => [] | S n => (48 + v / 10 ^ Z.of_nat n mod 10) :: decn n v end.

(** an argument, bare or in quotes *)
Record argument := mk_arg { quoted : bool; content : text }.

Definition print_arg (a : argument) : text :=
  SPACE :: if quoted a then QUOTE :: content a ++ [QUOTE] else content a.

Record entry := mk_line {
  l_cpu : Z; l_cpu_digits : nat; l_module : text; l_name : option text; l_type : Z; l_type_digits : nat;
  l_magic : Z; l_magic_digits : nat; l_args : list argument }.

Inductive line :=
  | Blank
  | Comment (s : text)
  | Version
  | Missing (panic : bool)
  | Test (name : text) (kvs : list (text * text))
  | Entry (e : entry).

Definition info_of (e : entry) : text :=
  l_module e ++ match l_name e with Some n => COLON :: n | None => [] end.

Definition print_entry (e : entry) : text :=
  decn (S (l_cpu_digits e)) (l_cpu e) ++ TAB :: info_of e ++ TAB :: decn (S (l_type_digits e)) (l_type e) ++
  TAB :: 48 :: 120 :: hexn (S (l_magic_digits e)) (l_magic e) ++ concat (map print_arg (l_args e)).

Definition print_kv (kv : text * text) : text := SPACE :: kv.1 ++ EQUALS :: kv.2.

Definition print_line (l : line) : text :=
  match l with
  | Blank => []
  | Comment s => HASH :: s
  | Version => w_version ++ SPACE :: w_one
  | Missing p => w_missing ++ SPACE :: if p then w_panic else w_skip
  | Test name kvs => w_test ++ SPACE :: name ++ concat (map print_kv kvs)
  | Entry e => print_entry e
  end ++ [NEWLINE].

Definition print_conf (ls : list line) : text := concat (map print_line ls).

(** ** What is meant *)

(** the positional words, separated by spaces *)
Definition append_word (pos w : text) : text := (if bool_decide (pos = []) then [] else pos ++ [SPACE]) ++ w.
Definition positional (ws : list text) : list text :=
  List.filter (fun w => match split_at EQUALS w with None => true | _ => false end) ws.
Definition pairs (ws : list text) : list (text * text) := omap (split_at EQUALS) ws.
Definition positionals (ws : list text) : text := foldl append_word [] (positional ws).

Definition task_of (e : entry) : task :=
  mk_task (l_cpu e) (l_type e) (l_module e) (l_name e) (l_magic e)
    (positionals (map content (l_args e))) (pairs (map content (l_args e))).

Definition line_effect (c : task_conf) (l : line) : task_conf :=
  match l with
  | Blank | Comment _ | Version => c
  | Missing p => conf_missing c p
  | Test name kvs => conf_records c (c_head c) (c_directives c ++ [mk_directive name kvs (-1)])
  | Entry e => conf_records c (c_head c ++ [task_of e]) (c_directives c)
  end.

(** ** What can be written *)

Definition sep (c : Z) : bool := is_blank c || is_line_end c.
Definition word (w : text) : Prop := w <> [] /\ Forall (fun c => sep c = false) w.

Definition argument_ok (a : argument) : Prop :=
  content a <> [] /\
  if quoted a then Forall (fun c => is_line_end c = false /\ c <> QUOTE) (content a)
  else Forall (fun c => sep c = false) (content a) /\ head (content a) <> Some QUOTE.

Definition number (v : Z) (base max : Z) (digits : nat) : Prop :=
  0 <= v <= max /\ v < base ^ (Z.of_nat digits + 1).

Definition entry_ok (e : entry) : Prop :=
  number (l_cpu e) 10 INT_MAX (l_cpu_digits e) /\ number (l_type e) 10 INT_MAX (l_type_digits e) /\
  number (l_magic e) 16 UINT64_MAX (l_magic_digits e) /\
  word (info_of e) /\ (length (info_of e) <= 63)%nat /\ (COLON ∉ l_module e) /\
  Forall argument_ok (l_args e) /\
  zlen (positionals (map content (l_args e))) <= 254 /\
  kv_size (pairs (map content (l_args e))) <= 255 /\ (length (pairs (map content (l_args e))) <= 16)%nat.

Definition test_kv_ok (kv : text * text) : Prop :=
  (length kv.1 <= 31)%nat /\ (length kv.2 <= 31)%nat /\ (EQUALS ∉ kv.1) /\ head kv.1 <> Some HASH /\
  Forall (fun c => sep c = false) kv.1 /\ Forall (fun c => sep c = false) kv.2.

Definition line_ok (p : task_conf_purpose) (l : line) : Prop :=
  match l with
  | Blank | Version | Missing _ => True
  | Comment s => NEWLINE ∉ s
  | Test name kvs => word name /\ (length name <= 31)%nat /\ Forall test_kv_ok kvs /\ (length kvs <= 8)%nat /\
      may_test p = true
  | Entry e => entry_ok e
  end.

(** ** Reading numbers and words back *)

(** the text that follows a word or a number *)
Definition stop (r : text) : Prop := match r with [] => True | c :: _ => sep c = true end.

Lemma sep_digit c : sep c = true -> is_digit c = false /\ hex_digit c = None.
Proof.
  unfold sep, is_blank, is_line_end, is_digit, hex_digit, SPACE, TAB, NEWLINE, RETURN, NUL.
  intros H. assert (c = 32 \/ c = 9 \/ c = 10 \/ c = 13 \/ c = 0) as E by (zbool; simpl in H; lia || done).
  by repeat destruct E as [-> | E]; [..| subst].
Qed.

Lemma skip_spaces_solid c p : is_blank c = false -> skip_spaces (c :: p) = c :: p.
Proof. intros H. simpl. by rewrite H. Qed.

Lemma dec_loop_print n v acc r : stop r -> 0 <= acc -> acc * 10 ^ Z.of_nat n + v mod 10 ^ Z.of_nat n <= INT_MAX ->
  dec_loop (decn n v ++ r) acc = Some (acc * 10 ^ Z.of_nat n + v mod 10 ^ Z.of_nat n, r).
Proof.
  intros Hr. revert acc. induction n as [| n IH]; intros acc Ha Hm.
  - change (10 ^ Z.of_nat 0) with 1. rewrite Z.mod_1_r. simpl. destruct r as [| c r]; simpl; [do 2 f_equal; lia |].
    rewrite (proj1 (sep_digit c Hr)). do 2 f_equal. lia.
  - rewrite Nat2Z.inj_succ, Z.pow_succ_r in * by lia. cbn [decn app dec_loop].
    set (p := 10 ^ Z.of_nat n) in *. assert (0 < p) by (apply Z.pow_pos_nonneg; lia).
    assert (0 <= v / p mod 10 < 10) by (apply Z.mod_pos_bound; lia).
    rewrite (Z.mul_comm 10 p), Z.rem_mul_r in * by lia.
    pose proof (Z.mod_pos_bound v p). set (d := v / p mod 10) in *.
    replace (is_digit (48 + d)) with true by (unfold is_digit; zbool; simpl; done || lia).
    replace (48 + d - 48) with d by lia.
    assert (acc * 10 + d <= INT_MAX) by nia.
    rewrite (proj2 (Z.ltb_ge ((INT_MAX - d) / 10) acc)) by (apply Z.div_le_lower_bound; lia).
    rewrite IH; [do 2 f_equal; lia | lia | lia].
Qed.

Lemma blank_sep c : is_blank c = true -> sep c = true.
Proof. intros H. unfold sep. by rewrite H. Qed.

Lemma parse_dec_print b v digits r : stop r -> number v 10 INT_MAX digits -> b = [] \/ b = [TAB] ->
  parse_dec (b ++ decn (S digits) v ++ r) = Some (v, r).
Proof.
  intros Hr [Hv Hd] Hb.
  assert (exists q, decn (S digits) v ++ r = (48 + v / 10 ^ Z.of_nat digits mod 10) :: q) as [q E] by (by eexists).
  assert (0 <= v / 10 ^ Z.of_nat digits mod 10 < 10) by (apply Z.mod_pos_bound; lia).
  assert (G : is_digit (48 + v / 10 ^ Z.of_nat digits mod 10) = true)
    by (unfold is_digit; zbool; simpl; done || lia).
  assert (B : is_blank (48 + v / 10 ^ Z.of_nat digits mod 10) = false)
    by (destruct (is_blank _) eqn:B; [apply blank_sep, sep_digit in B as [B _]; congruence | done]).
  unfold parse_dec. replace (skip_spaces (b ++ decn (S digits) v ++ r)) with (decn (S digits) v ++ r).
  - rewrite E, G, <- E.
    assert (M : v mod 10 ^ Z.of_nat (S digits) = v)
      by (rewrite Nat2Z.inj_succ; unfold Z.succ; apply Z.mod_small; lia).
    rewrite dec_loop_print by (done || lia). by rewrite M.
  - rewrite E. destruct Hb as [-> | ->]; simpl; by rewrite B.
Qed.

Lemma hex_loop_print n v acc r : stop r -> 0 <= acc ->
  acc * 16 ^ Z.of_nat n + v mod 16 ^ Z.of_nat n <= UINT64_MAX ->
  hex_loop (hexn n v ++ r) acc = Some (acc * 16 ^ Z.of_nat n + v mod 16 ^ Z.of_nat n, r).
Proof.
  intros Hr. revert acc. induction n as [| n IH]; intros acc Ha Hm.
  - change (16 ^ Z.of_nat 0) with 1. rewrite Z.mod_1_r. simpl. destruct r as [| c r]; simpl; [do 2 f_equal; lia |].
    rewrite (proj2 (sep_digit c Hr)). do 2 f_equal. lia.
  - rewrite Nat2Z.inj_succ, Z.pow_succ_r in * by lia. cbn [hexn app hex_loop].
    set (p := 16 ^ Z.of_nat n) in *. assert (0 < p) by (apply Z.pow_pos_nonneg; lia).
    assert (0 <= v / p mod 16 < 16) by (apply Z.mod_pos_bound; lia).
    rewrite (Z.mul_comm 16 p), Z.rem_mul_r in * by lia.
    pose proof (Z.mod_pos_bound v p). set (d := v / p mod 16) in *.
    rewrite hex_digit_char by done. assert (acc * 16 + d <= UINT64_MAX) by nia.
    rewrite (proj2 (Z.ltb_ge ((UINT64_MAX - d) / 16) acc)) by (apply Z.div_le_lower_bound; lia).
    rewrite IH; [do 2 f_equal; lia | lia | lia].
Qed.

Lemma parse_hex_print v digits r : stop r -> number v 16 UINT64_MAX digits ->
  parse_hex (TAB :: 48 :: 120 :: hexn (S digits) v ++ r) = Some (v, r).
Proof.
  intros Hr [Hv Hd]. assert (0 <= v / 16 ^ Z.of_nat digits mod 16 < 16) by (apply Z.mod_pos_bound; lia).
  transitivity (hex_loop (hexn (S digits) v ++ r) 0).
  { transitivity (match hexn (S digits) v ++ r with
      | c :: q => match hex_digit c with Some _ => hex_loop (c :: q) 0 | None => None end
      | [] => None end); [done |]. cbn [hexn app]. by rewrite hex_digit_char. }
  assert (M : v mod 16 ^ Z.of_nat (S digits) = v)
    by (rewrite Nat2Z.inj_succ; unfold Z.succ; apply Z.mod_small; lia).
  rewrite hex_loop_print by (done || lia). by rewrite M.
Qed.

Lemma take_word_print room w r : Forall (fun c => sep c = false) w -> stop r -> (length w <= room)%nat ->
  take_word room (w ++ r) = (w, r).
Proof.
  intros Hw Hr. revert room. induction Hw as [| c w Hc Hw IH]; intros room HL.
  - destruct room, r as [| c r]; simpl; try done. simpl in Hr. unfold sep in Hr. by rewrite Hr.
  - destruct room; simpl in HL; [lia |]. simpl. unfold sep in Hc. rewrite Hc, IH by lia. done.
Qed.

Lemma parse_string_print b w n r : word w -> stop r -> (length w <= n - 1)%nat ->
  b = [] \/ b = [SPACE] \/ b = [TAB] -> parse_string (b ++ w ++ r) n = Some (w, r).
Proof.
  intros [HN HW] Hr HL Hb. destruct w as [| c w]; [done |].
  assert (is_blank c = false) as B.
  { apply Forall_cons in HW as [Hc _]. unfold sep in Hc. by apply orb_false_iff in Hc as [-> _]. }
  unfold parse_string. replace (skip_spaces (b ++ (c :: w) ++ r)) with (c :: w ++ r).
  - change (c :: w ++ r) with ((c :: w) ++ r). rewrite take_word_print by done.
    destruct r as [| d r]; [done |]. simpl in Hr. unfold sep in Hr. by rewrite Hr.
  - destruct Hb as [-> | [-> | ->]]; simpl; by rewrite B.
Qed.

Lemma split_at_print d k v : d ∉ k -> split_at d (k ++ d :: v) = Some (k, v).
Proof.
  induction k as [| c k IH]; intros H; simpl; [by rewrite Z.eqb_refl |].
  apply not_elem_of_cons in H as [Hc Hk]. rewrite (proj2 (Z.eqb_neq c d)) by congruence. by rewrite IH.
Qed.

Lemma split_at_none d w : d ∉ w -> split_at d w = None.
Proof.
  induction w as [| c w IH]; intros H; simpl; [done |].
  apply not_elem_of_cons in H as [Hc Hw]. rewrite (proj2 (Z.eqb_neq c d)) by congruence. by rewrite IH.
Qed.

(** the same at the cursor and behind one separator *)
Lemma parse_dec_at v digits r : stop r -> number v 10 INT_MAX digits ->
  parse_dec (decn (S digits) v ++ r) = Some (v, r) /\ parse_dec (TAB :: decn (S digits) v ++ r) = Some (v, r).
Proof.
  intros Hr Hv. split; [apply (parse_dec_print []) | apply (parse_dec_print [TAB])]; auto.
Qed.

Lemma parse_string_at w n r : word w -> stop r -> (length w <= n - 1)%nat ->
  parse_string (w ++ r) n = Some (w, r) /\ parse_string (SPACE :: w ++ r) n = Some (w, r) /\
  parse_string (TAB :: w ++ r) n = Some (w, r).
Proof.
  intros HW Hr HL. split; [| split];
    [apply (parse_string_print []) | apply (parse_string_print [SPACE]) | apply (parse_string_print [TAB])]; auto.
Qed.

(** ** Reading arguments back *)

Fixpoint add_tokens (ws : list text) (a : args) : res args :=
  match ws with [] => Ok a | w :: ws => let! a := add_token 256 256 16 w a in add_tokens ws a end.

Lemma token_end_quoted w r : Forall (fun c => is_line_end c = false /\ c <> QUOTE) w ->
  token_end true (w ++ QUOTE :: r) = (w, QUOTE :: r).
Proof.
  induction 1 as [| c w [Hc HQ] Hw IH]; simpl; [done |].
  rewrite Hc, (proj2 (Z.eqb_neq c QUOTE)) by done. simpl. by rewrite IH.
Qed.

Lemma token_end_bare w r : Forall (fun c => sep c = false) w -> stop r -> token_end false (w ++ r) = (w, r).
Proof.
  intros Hw Hr. induction Hw as [| c w Hc Hw IH]; simpl.
  - destruct r as [| c r]; [done |]. simpl in *. unfold sep in Hr. by rewrite orb_comm, Hr.
  - unfold sep in Hc. by rewrite orb_comm, Hc, IH.
Qed.

Lemma args_loop_arg fuel a r x : argument_ok a -> stop r ->
  args_loop (S fuel) 256 256 16 (print_arg a ++ r) x =
    let! x := add_token 256 256 16 (content a) x in args_loop fuel 256 256 16 r x.
Proof.
  intros [HN HC] Hr. unfold print_arg. cbn [args_loop].
  destruct (quoted a).
  - change ((SPACE :: QUOTE :: content a ++ [QUOTE]) ++ r) with (SPACE :: QUOTE :: (content a ++ [QUOTE]) ++ r).
    rewrite <- app_assoc. cbn [app]. change (at_line_end (SPACE :: _)) with false.
    change (skip_spaces (SPACE :: QUOTE :: content a ++ QUOTE :: r)) with (QUOTE :: content a ++ QUOTE :: r).
    change (at_line_end (QUOTE :: _)) with false. cbn beta iota zeta.
    change (open_quote (QUOTE :: content a ++ QUOTE :: r)) with (true, content a ++ QUOTE :: r).
    cbn beta iota zeta. by rewrite token_end_quoted.
  - destruct HC as [HW HQ]. destruct (content a) as [| c w] eqn:E; [done |].
    apply Forall_cons in HW as HW'. destruct HW' as [Hc _]. pose proof Hc as Hs.
    unfold sep in Hs. apply orb_false_iff in Hs as [HB HL].
    change ((SPACE :: c :: w) ++ r) with (SPACE :: c :: w ++ r). change (at_line_end (SPACE :: _)) with false.
    cbn beta iota zeta. change (skip_spaces (SPACE :: c :: w ++ r)) with (skip_spaces (c :: w ++ r)).
    rewrite skip_spaces_solid by done. cbn [at_line_end]. rewrite HL.
    cbn [open_quote]. rewrite (proj2 (Z.eqb_neq c QUOTE)) by (intros ->; by apply HQ).
    change (c :: w ++ r) with ((c :: w) ++ r). rewrite token_end_bare by done.
    replace (close_quote false r) with r by (by destruct r). done.
Qed.

Lemma stop_args l r : stop (concat (map print_arg l) ++ NEWLINE :: r).
Proof. by destruct l. Qed.

Lemma args_loop_print fuel l r x : (length l < fuel)%nat -> Forall argument_ok l ->
  args_loop fuel 256 256 16 (concat (map print_arg l) ++ NEWLINE :: r) x =
    let! x := add_tokens (map content l) x in Ok (x, NEWLINE :: r).
Proof.
  revert fuel x. induction l as [| a l IH]; intros [| fuel] x Hf HA; try (simpl in Hf; lia); [done |].
  apply Forall_cons in HA as [Ha HA]. cbn [map concat]. rewrite <- app_assoc.
  rewrite args_loop_arg by (done || apply stop_args). cbn [add_tokens].
  destruct (add_token 256 256 16 (content a) x) as [x' | |]; [| done | done].
  cbn [res_bind]. apply IH; [simpl in Hf; lia | done].
Qed.

Lemma append_word_grows pos w : zlen pos <= zlen (append_word pos w).
Proof.
  unfold append_word. pose proof (zlen_nonneg w). rewrite zlen_app. case_bool_decide as E; [rewrite E; lia |].
  rewrite zlen_app. change (zlen [SPACE]) with 1. lia.
Qed.

Lemma append_words_grow ws pos : zlen pos <= zlen (foldl append_word pos ws).
Proof.
  revert pos. induction ws as [| w ws IH]; intros pos; simpl; [lia |].
  pose proof (append_word_grows pos w). specialize (IH (append_word pos w)). lia.
Qed.

Lemma kv_size_nonneg l : 0 <= kv_size l.
Proof.
  induction l as [| kv l IH]; simpl; [lia |]. pose proof (zlen_nonneg kv.1). pose proof (zlen_nonneg kv.2). lia.
Qed.

Lemma positional_cons w ws : positional (w :: ws) =
  match split_at EQUALS w with None => w :: positional ws | Some _ => positional ws end.
Proof. unfold positional. simpl. by destruct (split_at EQUALS w). Qed.

Lemma pairs_cons w ws : pairs (w :: ws) =
  match split_at EQUALS w with Some kv => kv :: pairs ws | None => pairs ws end.
Proof. done. Qed.

Lemma add_tokens_fit ws a : zlen (foldl append_word (a_pos a) (positional ws)) <= 254 ->
  a_cur a + kv_size (pairs ws) <= 255 -> (length (a_kvs a) + length (pairs ws) <= 16)%nat ->
  Forall (fun w => w <> []) ws ->
  add_tokens ws a = Ok (mk_args (foldl append_word (a_pos a) (positional ws)) (a_kvs a ++ pairs ws)
                          (a_cur a + kv_size (pairs ws))).
Proof.
  revert a. induction ws as [| w ws IH]; intros a HP HK HN HE.
  { simpl. rewrite app_nil_r, Z.add_0_r. by destruct a. }
  apply Forall_cons in HE as [Hw HE]. cbn [add_tokens]. unfold add_token.
  rewrite positional_cons, pairs_cons in *.
  destruct (split_at EQUALS w) as [[k v] |] eqn:E; cbn [foldl kv_size foldr fst snd length] in *;
    fold (kv_size (pairs ws)) in *.
  - pose proof (kv_size_nonneg (pairs ws)).
    pose proof (zlen_nonneg k). pose proof (zlen_nonneg v).
    rewrite (proj2 (Z.ltb_lt _ _)), (proj2 (Z.leb_le _ _)) by lia. cbn [andb].
    rewrite !fits_ok by lia. cbn [res_bind].
    rewrite IH; simpl; [| done | lia | rewrite length_app; simpl; lia | done].
    rewrite <- app_assoc. do 2 f_equal. lia.
  - pose proof (append_words_grow (positional ws) (append_word (a_pos a) w)) as G.
    assert (L : zlen (a_pos a) + zlen w <= zlen (append_word (a_pos a) w) /\
      zlen (if bool_decide (a_pos a = []) then [] else a_pos a ++ [SPACE]) + zlen w =
        zlen (append_word (a_pos a) w)).
    { unfold append_word. rewrite zlen_app. case_bool_decide as D; [rewrite D; change (zlen []) with 0; lia |].
      rewrite zlen_app. change (zlen [SPACE]) with 1. lia. }
    rewrite (proj2 (Z.leb_le _ _)) by lia. rewrite fits_ok by lia. cbn [res_bind]. by rewrite IH.
Qed.

(** ** Reading lines back *)

Lemma concat_args_length l : (length l <= length (concat (map print_arg l)))%nat.
Proof. induction l as [| a l IH]; simpl; [lia |]. rewrite length_app. lia. Qed.

Lemma parse_args_print l r : Forall argument_ok l -> zlen (positionals (map content l)) <= 254 ->
  kv_size (pairs (map content l)) <= 255 -> (length (pairs (map content l)) <= 16)%nat ->
  parse_args 256 256 16 (concat (map print_arg l) ++ NEWLINE :: r) =
    Ok (mk_args (positionals (map content l)) (pairs (map content l)) (kv_size (pairs (map content l))),
        NEWLINE :: r).
Proof.
  intros HA HP HK HN. unfold parse_args. rewrite args_loop_print; [| | done].
  2:{ pose proof (concat_args_length l). rewrite length_app. simpl. lia. }
  rewrite add_tokens_fit; [| done | simpl; lia | simpl; lia |].
  - cbn [res_bind a_pos a_kvs a_cur]. rewrite app_nil_l, Z.add_0_l.
    fold (positionals (map content l)). rewrite !fits_ok by lia. done.
  - apply Forall_map. eapply Forall_impl; [exact HA |]. by intros a [? _].
Qed.

Lemma separate_name_print e : COLON ∉ l_module e -> separate_name (info_of e) = (l_module e, l_name e).
Proof.
  intros H. unfold separate_name, info_of. destruct (l_name e) as [n |].
  - by rewrite split_at_print.
  - by rewrite app_nil_r, split_at_none.
Qed.

Lemma parse_task_print e r : entry_ok e ->
  parse_task (print_entry e ++ NEWLINE :: r) = Ok (Some (task_of e, NEWLINE :: r)).
Proof.
  intros (HC & HT & HM & HW & HL & HN & HA & HP & HK & HS). unfold parse_task, print_entry.
  repeat (rewrite <- ?app_assoc; cbn [app]).
  rewrite (proj1 (parse_dec_at _ _ (TAB :: _) eq_refl HC)).
  rewrite (proj2 (proj2 (parse_string_at _ 64 (TAB :: _) HW eq_refl HL))).
  rewrite separate_name_print by done. rewrite (proj2 (parse_dec_at _ _ (TAB :: _) eq_refl HT)).
  rewrite parse_hex_print by (done || apply stop_args). by rewrite parse_args_print.
Qed.

Lemma stop_kvs l r : stop (concat (map print_kv l) ++ NEWLINE :: r).
Proof. by destruct l. Qed.

Lemma concat_kvs_length l : (length l <= length (concat (map print_kv l)))%nat.
Proof. induction l as [| a l IH]; simpl; [lia |]. rewrite length_app. lia. Qed.

Lemma test_loop_print fuel l r kvs : (length l < fuel)%nat -> Forall test_kv_ok l ->
  (length kvs + length l <= 8)%nat ->
  test_loop fuel (concat (map print_kv l) ++ NEWLINE :: r) kvs = Ok (Some (kvs ++ l, NEWLINE :: r)).
Proof.
  revert fuel kvs. induction l as [| [k v] l IH]; intros [| fuel] kvs Hf HA HN; try (simpl in Hf; lia).
  { simpl. by rewrite app_nil_r. }
  apply Forall_cons in HA as [(Hk & Hv & HE & HH & HK & HV) HA]. cbn [fst snd] in *.
  cbn [map concat test_loop]. set (rest := concat (map print_kv l) ++ NEWLINE :: r).
  assert (W : word (k ++ EQUALS :: v)).
  { split; [by destruct k |]. apply Forall_app. split; [done |]. by constructor. }
  assert (skip_spaces ((print_kv (k, v) ++ concat (map print_kv l)) ++ NEWLINE :: r)
      = (k ++ EQUALS :: v) ++ rest /\ ends_line ((k ++ EQUALS :: v) ++ rest) = false) as [-> ->].
  { unfold print_kv, rest. cbn [fst snd]. repeat (rewrite <- ?app_assoc; cbn [app]).
    change (skip_spaces (SPACE :: ?t)) with (skip_spaces t).
    destruct k as [| c k]; simpl; [done |]. apply Forall_cons in HK as [Hc _].
    unfold sep in Hc. apply orb_false_iff in Hc as [-> ->]. split; [done |].
    apply Z.eqb_neq. intros ->. by apply HH. }
  rewrite (proj1 (parse_string_at _ 64 rest W (stop_kvs l r) ltac:(rewrite length_app; simpl; lia))).
  rewrite split_at_print by done. unfold SELFTEST_MAX_KV. simpl length in HN.
  rewrite (proj2 (Nat.leb_gt 8 (length kvs))) by lia.
  rewrite !take_ge by done. unfold rest. rewrite IH; [by rewrite <- app_assoc | simpl in Hf; lia | done |].
  rewrite length_app. simpl. lia.
Qed.

Lemma read_test_print name kvs r : word name -> (length name <= 31)%nat -> Forall test_kv_ok kvs ->
  (length kvs <= 8)%nat ->
  read_test_directive (SPACE :: name ++ concat (map print_kv kvs) ++ NEWLINE :: r) =
    Ok (Some (mk_directive name kvs (-1), NEWLINE :: r)).
Proof.
  intros HW HL HK HN. unfold read_test_directive.
  rewrite (proj1 (proj2 (parse_string_at name 32 _ HW (stop_kvs kvs r) HL))).
  rewrite test_loop_print; [done | | done | done].
  pose proof (concat_kvs_length kvs). rewrite length_app. simpl. lia.
Qed.

Section ReadBack.
Context (kmalloc_ok : nat -> bool).
Hypothesis Hkmalloc : forall n, kmalloc_ok n = true.

(** the heap after a line: one more block for a line that makes a record *)
Definition line_heap (h : record_heap) (l : line) : record_heap :=
  match l with Test _ _ | Entry _ => mk_heap (S (h_calls h)) (h_live h + 1) | _ => h end.

Lemma directive_word name r : word name -> (length name <= 31)%nat ->
  parse_string (name ++ SPACE :: r) 32 = Some (name, SPACE :: r).
Proof. intros HW HL. apply (parse_string_at name 32 (SPACE :: r)); done. Qed.

Lemma parse_version_print c h r :
  parse_directive kmalloc_ok c (w_version ++ SPACE :: w_one ++ NEWLINE :: r) h = Ok (0, c, h, NEWLINE :: r).
Proof. done. Qed.

Lemma parse_missing_print c h (p : bool) r :
  parse_directive kmalloc_ok c (w_missing ++ SPACE :: (if p then w_panic else w_skip) ++ NEWLINE :: r) h =
    Ok (0, conf_missing c p, h, NEWLINE :: r).
Proof. by destruct p. Qed.

Lemma parse_test_print c h name kvs r : c_initialized c = true -> line_ok (c_purpose c) (Test name kvs) ->
  parse_directive kmalloc_ok c (w_test ++ SPACE :: name ++ concat (map print_kv kvs) ++ NEWLINE :: r) h =
    Ok (0, line_effect c (Test name kvs), line_heap h (Test name kvs), NEWLINE :: r).
Proof.
  intros HI (HW & HL & HK & HN & HP). unfold parse_directive.
  rewrite directive_word by (by repeat constructor || (simpl; lia)).
  rewrite (bool_decide_eq_false_2 (w_test = w_version)), (bool_decide_eq_true_2 (w_test = w_test)) by done.
  unfold parse_test_directive. rewrite read_test_print by done. cbn [res_bind].
  unfold task_conf_add_directive_ctx. rewrite HI.
  destruct (c_purpose c); try done; cbn [negb orb]; unfold record_alloc; by rewrite Hkmalloc.
Qed.

Lemma skip_line_print s r : NEWLINE ∉ s -> skip_line (s ++ NEWLINE :: r) = r.
Proof.
  induction s as [| c s IH]; intros H; simpl; [done |].
  apply not_elem_of_cons in H as [Hc Hs]. rewrite (proj2 (Z.eqb_neq c NEWLINE)) by congruence. by apply IH.
Qed.

Lemma entry_head e : exists d q, print_entry e = (48 + d) :: q /\ 0 <= d < 10.
Proof.
  unfold print_entry. cbn [decn app]. do 2 eexists. split; [done |]. apply Z.mod_pos_bound. lia.
Qed.

Lemma parse_entry_print fuel c e r h : entry_ok e ->
  parse_loop kmalloc_ok (S fuel) c (print_entry e ++ NEWLINE :: r) h =
    parse_loop kmalloc_ok fuel (line_effect c (Entry e)) r (line_heap h (Entry e)).
Proof.
  intros HE. pose proof (parse_task_print e r HE) as PT. cbn [parse_loop].
  destruct (entry_head e) as (d & q & E & Hd). rewrite E in *. cbn [app] in *.
  assert (d ∈ [0;1;2;3;4;5;6;7;8;9]) as M by (lmem_simpl; lia).
  assert (is_blank (48 + d) = false /\ is_line_end (48 + d) = false /\ (48 + d =? HASH) = false /\
    (48 + d =? AT) = false) as (B1 & B2 & B3 & B4)
    by (lmem_simpl; by repeat destruct M as [-> | M]).
  rewrite skip_spaces_solid, B2, B3, B4 by done. unfold record_alloc. rewrite Hkmalloc. cbn [negb].
  by rewrite PT.
Qed.

Lemma parse_line_print fuel c l r h : c_initialized c = true -> line_ok (c_purpose c) l ->
  parse_loop kmalloc_ok (S fuel) c (print_line l ++ r) h =
    parse_loop kmalloc_ok fuel (line_effect c l) r (line_heap h l).
Proof.
  intros HI HL. unfold print_line. destruct l as [| s | | p | name kvs | e]; rewrite <- app_assoc; cbn [app].
  - done.
  - assert (S : skip_line (HASH :: s ++ NEWLINE :: r) = r)
      by (apply (skip_line_print (HASH :: s)), not_elem_of_cons; done).
    cbn [parse_loop]. rewrite skip_spaces_solid by done.
    change (is_line_end HASH) with false. change (HASH =? HASH) with true. cbn beta iota. by rewrite S.
  - done.
  - by destruct p.
  - cbn [line_effect line_heap]. repeat (rewrite <- ?app_assoc; cbn [app]).
    pose proof (parse_test_print c h name kvs r HI HL) as PT.
    change (w_test ++ ?t) with (AT :: skipn 1 w_test ++ t) in *.
    cbn [parse_loop]. rewrite skip_spaces_solid by done.
    change (is_line_end AT) with false. change (AT =? HASH) with false. change (AT =? AT) with true.
    cbn beta iota. by rewrite PT.
  - by apply parse_entry_print.
Qed.

Lemma line_effect_keeps c l :
  c_initialized (line_effect c l) = c_initialized c /\ c_purpose (line_effect c l) = c_purpose c.
Proof. by destruct l. Qed.

Lemma parse_lines_print ls fuel c h : (length ls < fuel)%nat -> c_initialized c = true ->
  Forall (line_ok (c_purpose c)) ls ->
  parse_loop kmalloc_ok fuel c (print_conf ls) h = Ok (0, foldl line_effect c ls, foldl line_heap h ls).
Proof.
  revert fuel c h. induction ls as [| l ls IH]; intros [| fuel] c h Hf HI HL; try (simpl in Hf; lia); [done |].
  apply Forall_cons in HL as [Hl HL]. unfold print_conf. cbn [map concat].
  rewrite parse_line_print by done. destruct (line_effect_keeps c l) as [E1 E2].
  apply IH; [simpl in Hf; lia | congruence | by rewrite E2].
Qed.

Lemma print_conf_length ls : (length ls <= length (print_conf ls))%nat.
Proof.
  induction ls as [| l ls IH]; [done |]. unfold print_conf in *. simpl. rewrite length_app.
  assert (1 <= length (print_line l))%nat by (unfold print_line; rewrite length_app; simpl; lia). lia.
Qed.

(** C40: configuration files round trip: when allocations succeed, parsing a file
    of blank lines, comments, version, missing-module and test directives and
    task lines, with numbers of any width, bare and quoted arguments, and fields
    within the record sizes, returns 0 and has exactly the effect of its lines
    in order: every task and directive with the values that were written. *)
Theorem task_conf_roundtrip ls c h : c_initialized c = true -> Forall (line_ok (c_purpose c)) ls ->
  task_conf_parse_v1_ctx kmalloc_ok c (print_conf ls) h =
    Ok (0, foldl line_effect c ls, foldl line_heap h ls).
Proof.
  intros HI HL. apply parse_lines_print; [| done | done]. pose proof (print_conf_length ls). lia.
Qed.

End ReadBack.

Definition ex_conf : task_conf := mk_conf [] [] None TASK_CONF_COMPAT false true false false 0 [].

Definition ex_lines : list line :=
  [Version; Blank; Comment [67; 80; 85]; Missing true; Test [97] [([107], [118; 49])];
   Entry (mk_line 3 1 [109; 46; 109; 111] (Some [102; 111; 111]) 1 0 10 0
     [mk_arg false [99; 61; 50]; mk_arg true [120; 32; 121]; mk_arg false [122]]);
   Entry (mk_line 0 0 [109] None 3 0 255 1 [])].

Lemma task_conf_roundtrip_witness :
  task_conf_parse_v1_ctx (fun _ => true) ex_conf (print_conf ex_lines) (mk_heap 0 0) =
    Ok (0, mk_conf [mk_task 3 1 [109; 46; 109; 111] (Some [102; 111; 111]) 10 [120; 32; 121; 32; 122] [([99], [50])];
                    mk_task 0 3 [109] None 255 [] []]
                   [mk_directive [97] [([107], [118; 49])] (-1)] None TASK_CONF_COMPAT true true false false 0 [],
        mk_heap 3 3).
Proof.
  rewrite (task_conf_roundtrip (fun _ => true) (fun _ => eq_refl) ex_lines ex_conf (mk_heap 0 0) eq_refl);
    [vm_compute; reflexivity |].
  repeat (apply Forall_cons; split); try apply Forall_nil_2; try exact I;
    repeat split; try (vm_compute; reflexivity || discriminate || lia); try (repeat constructor);
    try (apply not_elem_of_cons; split; [discriminate |]); try (vm_compute; discriminate);
    try (intros H; repeat (apply elem_of_cons in H as [H | H]; [discriminate |]); by apply not_elem_of_nil in H).
Defined.
