(* ===== verification/TaskArgs.v ===== *)
(** * The arguments of a task ([kernel/task.c])

    [task_build_argv] copies the name, the positional arguments and the
    [key=value] pairs of a task into one heap block: an array of 34 pointers
    followed by the characters they point to.  Pointers are addresses; a write
    outside the array or the characters is a fault. *)

From stdpp Require Import base list.
From S2P Require Import Prelude Bytes Alloc TaskParser.

Definition MAX_ARGS : Z := 33.

(** the block at [base]: its pointers, and the characters behind them *)
Record argv_block := mk_block { slots : list Z; chars : list Z }.

Definition chars_at (base : Z) : Z := base + (MAX_ARGS + 1) * 8.

Definition put_slot (i v : Z) (b : argv_block) : res argv_block :=
  if (0 <=? i) && (i <? Z.of_nat (length (slots b))) then Ok (mk_block (<[Z.to_nat i := v]> (slots b)) (chars b)) else Fault.
Definition store (i : Z) (l : list Z) (b : argv_block) : res argv_block :=
  let! c := write_bytes (chars b) i l in Ok (mk_block (slots b) c).

(** [while ( *p == ' ' || *p == '\t')] and [while ( *p && *p != ' ' && *p != '\t')] *)
Fixpoint skip_blanks (n : nat) (c : list Z) (p : Z) : res Z :=
  match n with
  | O => Fault
  | S n => let! x := byte_at c p in if is_blank x then skip_blanks n c (p + 1) else Ok p
  end.
Fixpoint word_end (n : nat) (c : list Z) (p : Z) : res Z :=
  match n with
  | O => Fault
  | S n => let! x := byte_at c p in if (x =? 0) || is_blank x then Ok p else word_end n c (p + 1)
  end.

(** the positional arguments, split in place; [None] is the jump to [fail] *)
Fixpoint split_args (n : nat) (base p argc : Z) (b : argv_block) : res (option (Z * argv_block)) :=
  let! x := byte_at (chars b) p in
  if x =? 0 then Ok (Some (argc, b))
  else
    match n with
    | O => Fault
    | S n =>
      let! p := skip_blanks (length (chars b)) (chars b) p in
      let! x := byte_at (chars b) p in
      if x =? 0 then Ok (Some (argc, b))
      else if argc =? MAX_ARGS then Ok None
      else
        let! b := put_slot argc (chars_at base + p) b in
        let! p := word_end (length (chars b)) (chars b) p in
        let! x := byte_at (chars b) p in
        if negb (x =? 0) then let! b := store p [0] b in split_args n base (p + 1) (argc + 1) b
        else split_args n base p (argc + 1) b
    end.

Fixpoint copy_kvs (base cursor argc : Z) (kvs : list (text * text)) (b : argv_block) : res (option (Z * argv_block)) :=
  match kvs with
  | [] => Ok (Some (argc, b))
  | (key, value) :: kvs =>
    if argc =? MAX_ARGS then Ok None
    else
      let! b := put_slot argc (chars_at base + cursor) b in
      let! b := store cursor key b in
      let cursor := cursor + zlen key in
      let! b := store cursor [EQUALS] b in
      let cursor := cursor + 1 in
      let! b := store cursor (value ++ [0]) b in
      copy_kvs base (cursor + (zlen value + 1)) (argc + 1) kvs b
  end.

(** the 256 characters of [args_buf], cleared before the arguments are put there *)
Definition args_buf (t : task) : list Z := t_args t ++ replicate (256 - length (t_args t)) 0.

(** the size of the characters; a null name is read *)
Definition chars_size (name : text) : Z := zlen name + 1 + 256 + 256.

(** the work on the new block at [base], whose contents are [b] *)
Definition fill_argv (t : task) (name : text) (base : Z) (b : argv_block) : res (option (Z * argv_block)) :=
  let! b := put_slot 0 (chars_at base) b in
  let! b := store 0 (name ++ [0]) b in
  let cursor := zlen name + 1 in
  let! b := store cursor (args_buf t) b in
  let! r := split_args 256 base cursor 1 b in
  match r with
  | None => Ok None
  | Some (argc, b) =>
    let! r := copy_kvs base (cursor + 256) argc (t_kvs t) b in
    match r with
    | None => Ok None
    | Some (argc, b) => let! b := put_slot argc 0 b in Ok (Some (argc, b))
    end
  end.

Section Heap.
Context {A : Type} {AL : Allocator A}.

(** [fresh base size]: what the memory of a new block holds.  The result is the
    argument count, the address of the block and its contents, or none for -1. *)
Definition task_build_argv (fresh : Z -> Z -> argv_block) (t : task) (a : A) : res (option (Z * Z * argv_block) * A) :=
  match t_name t with
  | None => Fault
  | Some name =>
    let! (base, a) := kmalloc ((MAX_ARGS + 1) * 8 + chars_size name) a in
    if base =? 0 then Ok (None, a)
    else
      let! r := fill_argv t name base (fresh base (chars_size name)) in
      match r with
      | None => let! a := kfree base a in Ok (None, a)
      | Some (argc, b) => Ok (Some (argc, base, b), a)
      end
  end.

End Heap.

(** ** What the arguments are *)

(** the words of a text *)
Fixpoint split_blanks (p : text) : list text :=
  match p with
  | [] => [[]]
  | c :: q => if is_blank c then [] :: split_blanks q else match split_blanks q with w :: ws => (c :: w) :: ws | [] => [[c]] end
  end.
Definition words (p : text) : list text := filter (fun w => w <> []) (split_blanks p).

Definition kv_text (kv : text * text) : text := kv.1 ++ EQUALS :: kv.2.
Definition arguments (t : task) (name : text) : list text := name :: words (t_args t) ++ (kv_text <$> t_kvs t).

(** a C string at an offset *)
Definition string_at (c : list Z) (off : Z) (s : text) : Prop :=
  0 <= off /\ (forall k, 0 <= k < zlen s -> byte_at c (off + k) = Ok (nth (Z.to_nat k) s 0)) /\ byte_at c (off + zlen s) = Ok 0.

(** ** Strings in a block *)

Definition plain_text (s : text) : Prop := Forall (fun c => c <> 0) s.

Lemma byte_at_range c i x : byte_at c i = Ok x -> 0 <= i < zlen c.
Proof.
  unfold byte_at, zlen. destruct (Z.ltb_spec i 0); [done |]. destruct (c !! Z.to_nat i) eqn:E; [| done]. intros _. apply lookup_lt_Some in E. lia.
Qed.

Lemma string_at_tail c off x s : string_at c off (x :: s) -> byte_at c off = Ok x /\ string_at c (off + 1) s.
Proof.
  intros (H0 & H1 & H2). assert (EZ : zlen (x :: s) = zlen s + 1) by (unfold zlen; simpl; lia). pose proof (zlen_nonneg s). split; [| split; [lia |]; split].
  - specialize (H1 0 ltac:(lia)). by rewrite Z.add_0_r in H1.
  - intros k Hk. replace (off + 1 + k) with (off + (k + 1)) by lia. rewrite H1 by lia. f_equal.
    replace (Z.to_nat (k + 1)) with (S (Z.to_nat k)) by lia. done.
  - rewrite EZ in H2. by replace (off + 1 + zlen s) with (off + (zlen s + 1)) by lia.
Qed.

Lemma string_at_nil c off : string_at c off [] -> byte_at c off = Ok 0.
Proof. intros (_ & _ & H). by rewrite Z.add_0_r in H. Qed.

Lemma string_at_app c off s1 s2 : string_at c off (s1 ++ s2) -> string_at c (off + zlen s1) s2.
Proof.
  revert off. induction s1 as [| x s1 IH]; intros off H; [by rewrite Z.add_0_r |]. apply string_at_tail in H as [_ H].
  apply IH in H. assert (EZ : zlen (x :: s1) = zlen s1 + 1) by (unfold zlen; simpl; lia). rewrite EZ. by replace (off + (zlen s1 + 1)) with (off + 1 + zlen s1) by lia.
Qed.

(** a later write keeps the strings before it *)
Lemma string_at_store b i l b' off s : store i l b = Ok b' -> string_at (chars b) off s -> off + zlen s < i -> string_at (chars b') off s.
Proof.
  unfold store. intros E (H0 & H1 & H2) Hi. destruct (write_bytes (chars b) i l) as [c | |] eqn:EW; [| done..]. injection E as <-. cbn [chars].
  assert (HI : inside (chars b) i (zlen l)).
  { unfold write_bytes in EW. destruct (Z.leb_spec 0 i), (Z.leb_spec (i + zlen l) (zlen (chars b))); cbn [andb] in EW; try done. unfold zlen in *. red. lia. }
  split; [done |]. split; [intros k Hk; rewrite (byte_elsewhere _ _ _ _ (off + k) HI EW) by lia; auto | rewrite (byte_elsewhere _ _ _ _ _ HI EW) by lia; done].
Qed.

Lemma put_chars_ok b i l : 0 <= i -> i + zlen l <= zlen (chars b) -> exists b', store i l b = Ok b' /\ slots b' = slots b /\ zlen (chars b') = zlen (chars b) /\
  (forall k, 0 <= k < zlen l -> byte_at (chars b') (i + k) = Ok (nth (Z.to_nat k) l 0)) /\
  (forall j, j < i \/ i + zlen l <= j -> byte_at (chars b') j = byte_at (chars b) j).
Proof.
  intros Hi Hl. assert (HI : inside (chars b) i (zlen l)) by (unfold zlen in *; red; lia).
  destruct (write_bytes_inside (chars b) i l HI) as (c & E & HZ & HK). unfold store. rewrite E. cbn [res_bind]. eexists. split; [reflexivity |]. cbn [slots chars].
  split; [done |]. split; [done |]. split; [| intros j Hj; by eapply byte_elsewhere]. intros k Hk. unfold zlen in *. unfold byte_at.
  rewrite (proj2 (Z.ltb_ge _ 0)), HK, decide_True by lia. replace (Z.to_nat (i + k) - Z.to_nat i)%nat with (Z.to_nat k) by lia.
  destruct (lookup_lt_is_Some_2 l (Z.to_nat k)) as [x Hx]; [lia |]. rewrite Hx. by rewrite (nth_lookup_Some _ _ _ _ Hx).
Qed.

Lemma nth_snoc_zero s (k : Z) : 0 <= k < zlen s -> nth (Z.to_nat k) (s ++ [0]) 0 = nth (Z.to_nat k) s 0.
Proof. intros Hk. unfold zlen in Hk. apply app_nth1. lia. Qed.

(** storing a terminated string makes it one *)
Lemma store_string b i s : 0 <= i -> i + zlen s + 1 <= zlen (chars b) -> exists b', store i (s ++ [0]) b = Ok b' /\ slots b' = slots b /\
  zlen (chars b') = zlen (chars b) /\ string_at (chars b') i s /\ (forall j, j < i \/ i + zlen s + 1 <= j -> byte_at (chars b') j = byte_at (chars b) j).
Proof.
  intros Hi Hl. assert (EZ : zlen (s ++ [0]) = zlen s + 1) by (rewrite zlen_app; done).
  destruct (put_chars_ok b i (s ++ [0])) as (b' & E & H1 & H2 & H3 & H4); [done | lia |]. pose proof (zlen_nonneg s). exists b'.
  split; [done |]. split; [done |]. split; [done |]. split; [split; [done |]; split |].
  - intros k Hk. rewrite H3, nth_snoc_zero by lia. done.
  - rewrite H3 by lia. unfold zlen. rewrite Nat2Z.id, app_nth2, Nat.sub_diag by lia. done.
  - intros j Hj. apply H4. lia.
Qed.

(** ** Words *)

(** a word and what follows it *)
Fixpoint span_word (p : text) : text * text :=
  match p with
  | [] => ([], [])
  | c :: q => if is_blank c then ([], p) else let '(w, r) := span_word q in (c :: w, r)
  end.

Lemma split_blanks_span p : split_blanks p = (span_word p).1 :: match (span_word p).2 with [] => [] | _ :: q => split_blanks q end.
Proof.
  induction p as [| c p IH]; [done |]. cbn [split_blanks span_word]. destruct (is_blank c); [done |]. rewrite IH. by destruct (span_word p).
Qed.

Lemma span_word_ok p : p = (span_word p).1 ++ (span_word p).2 /\ match (span_word p).2 with [] => True | c :: _ => is_blank c = true end /\
  Forall (fun c => is_blank c = false) (span_word p).1.
Proof.
  induction p as [| c p (H1 & H2 & H3)]; [by split_and! |]. cbn [span_word]. destruct (is_blank c) eqn:E; [by split_and! |].
  destruct (span_word p) as [w r]. cbn [fst snd] in *. split_and!; [simpl; by f_equal | done | by constructor].
Qed.

Lemma words_span p : words p = (if decide ((span_word p).1 = []) then [] else [(span_word p).1]) ++ match (span_word p).2 with [] => [] | _ :: q => words q end.
Proof.
  unfold words. rewrite split_blanks_span. destruct (span_word p) as [w [| c q]]; cbn [fst snd]; rewrite filter_cons;
    destruct (decide (w <> [])), (decide (w = [])); done.
Qed.

Lemma words_blank c q : is_blank c = true -> words (c :: q) = words q.
Proof. intros H. unfold words. cbn [split_blanks]. by rewrite H. Qed.

(** the blanks before the first word *)
Fixpoint drop_blanks (p : text) : text := match p with [] => [] | c :: q => if is_blank c then drop_blanks q else p end.

Lemma drop_blanks_ok p : words (drop_blanks p) = words p /\ match drop_blanks p with [] => True | c :: _ => is_blank c = false end /\
  exists bs, p = bs ++ drop_blanks p.
Proof.
  induction p as [| c p (H1 & H2 & bs & H3)]; [split_and!; try done; by exists [] |]. cbn [drop_blanks]. destruct (is_blank c) eqn:E.
  - rewrite words_blank by done. split_and!; try done. exists (c :: bs). simpl. by f_equal.
  - split_and!; try done. by exists [].
Qed.

Lemma skip_blanks_ok n c p s : string_at c p s -> (length s < n)%nat -> skip_blanks n c p = Ok (p + (zlen s - zlen (drop_blanks s))) /\
  string_at c (p + (zlen s - zlen (drop_blanks s))) (drop_blanks s).
Proof.
  revert p s. induction n as [| n IH]; intros p s HS Hn; [lia |]. cbn [skip_blanks]. destruct s as [| x s].
  - rewrite (string_at_nil _ _ HS). cbn. by rewrite Z.add_0_r.
  - pose proof (string_at_tail _ _ _ _ HS) as [-> HT]. cbn [res_bind drop_blanks]. destruct (is_blank x).
    + simpl in Hn. destruct (IH (p + 1) s HT ltac:(lia)) as [-> H]. assert (EZ : zlen (x :: s) = zlen s + 1) by (unfold zlen; simpl; lia).
      rewrite EZ. replace (p + (zlen s + 1 - zlen (drop_blanks s))) with (p + 1 + (zlen s - zlen (drop_blanks s))) by lia. done.
    + rewrite Z.sub_diag, Z.add_0_r. done.
Qed.

Lemma word_end_ok n c p s : string_at c p s -> plain_text s -> (length s < n)%nat -> word_end n c p = Ok (p + zlen (span_word s).1).
Proof.
  revert p s. induction n as [| n IH]; intros p s HS HP Hn; [lia |]. cbn [word_end]. destruct s as [| x s].
  - rewrite (string_at_nil _ _ HS). cbn. by rewrite Z.add_0_r.
  - pose proof (string_at_tail _ _ _ _ HS) as [-> HT]. inversion HP; subst. cbn [res_bind span_word]. rewrite (proj2 (Z.eqb_neq x 0)) by done. cbn [orb].
    destruct (is_blank x); [cbn; by rewrite Z.add_0_r |]. simpl in Hn. rewrite (IH (p + 1) s) by (done || lia).
    destruct (span_word s) as [w r]. cbn [fst]. unfold zlen. simpl length. f_equal. lia.
Qed.

(** ** Pointers *)

Lemma set_slot_ok i v b : 0 <= i < Z.of_nat (length (slots b)) ->
  put_slot i v b = Ok (mk_block (<[Z.to_nat i := v]> (slots b)) (chars b)).
Proof. intros H. unfold put_slot. rewrite (proj2 (Z.leb_le 0 i)), (proj2 (Z.ltb_lt i _)) by lia. done. Qed.

(** the first pointers designate the strings [ss], all of them before [lim], in a block of [n] characters *)
Definition built (base lim n : Z) (ss : list text) (b : argv_block) : Prop :=
  length (slots b) = 34%nat /\ zlen (chars b) = n /\
  (forall i s, ss !! i = Some s -> exists off, slots b !! i = Some (chars_at base + off) /\ string_at (chars b) off s /\ off + zlen s < lim).

Lemma built_weaken base lim lim' n ss b : lim <= lim' -> built base lim n ss b -> built base lim' n ss b.
Proof. intros Hl (H1 & H2 & H3). split_and!; [done | done |]. intros i s Hi. destruct (H3 i s Hi) as (off & ? & ? & ?). exists off. split_and!; try done; lia. Qed.

Lemma built_store base lim n ss b i l b' : built base lim n ss b -> store i l b = Ok b' -> slots b' = slots b -> zlen (chars b') = zlen (chars b) -> lim <= i ->
  built base lim n ss b'.
Proof.
  intros (H1 & H2 & H3) E ES EZ Hl. split_and!; [congruence | lia |]. intros k s Hk. destruct (H3 k s Hk) as (off & ? & ? & ?).
  exists off. rewrite ES. split; [done |]. split; [eapply string_at_store; [exact E | done | lia] | done].
Qed.

Lemma built_push base lim lim' n ss b off s : built base lim n ss b -> (length ss < 34)%nat -> string_at (chars b) off s -> off + zlen s < lim' -> lim <= lim' ->
  built base lim' n (ss ++ [s]) (mk_block (<[Z.to_nat (Z.of_nat (length ss)) := chars_at base + off]> (slots b)) (chars b)).
Proof.
  intros (H1 & H2 & H3) HL HS Ho Hl. rewrite Nat2Z.id. split_and!; cbn [slots chars]; [by rewrite length_insert | done |]. intros i u Hi.
  apply lookup_app_Some in Hi as [Hi | [Hi1 Hi2]].
  - pose proof (lookup_lt_Some _ _ _ Hi). destruct (H3 i u Hi) as (o & ? & ? & ?). exists o. rewrite list_lookup_insert_ne by lia. split_and!; try done; lia.
  - apply list_lookup_singleton_Some in Hi2 as [Hi2 ->]. replace i with (length ss) by lia. exists off. rewrite list_lookup_insert_eq by lia. done.
Qed.

(** the result of adding the strings [ws] to [ss] *)
Definition added_strings (base lim n : Z) (ss ws : list text) (m : res (option (Z * argv_block))) : Prop :=
  if (length ss + length ws <=? 33)%nat then exists b, m = Ok (Some (Z.of_nat (length ss + length ws), b)) /\ built base lim n (ss ++ ws) b
  else m = Ok None.

Lemma added_none base lim n ss b : (length ss <= 33)%nat -> built base lim n ss b -> added_strings base lim n ss [] (Ok (Some (Z.of_nat (length ss), b))).
Proof. intros HL HB. unfold added_strings. cbn [length]. rewrite Nat.add_0_r, (proj2 (Nat.leb_le _ _)), app_nil_r by done. eauto. Qed.

Lemma added_more base lim n ss s ws m : added_strings base lim n (ss ++ [s]) ws m -> added_strings base lim n ss (s :: ws) m.
Proof.
  unfold added_strings. rewrite length_app, <- app_assoc. cbn [length app]. by replace (length ss + 1 + length ws)%nat with (length ss + S (length ws))%nat by lia.
Qed.

Lemma added_full base lim n ss s ws : (length ss = 33)%nat -> added_strings base lim n ss (s :: ws) (Ok None).
Proof. intros E. unfold added_strings. cbn [length]. by rewrite (proj2 (Nat.leb_gt _ _)) by lia. Qed.

(** a word cut off its string *)
Lemma cut_word b p w x q : string_at (chars b) p (w ++ x :: q) -> exists b', store (p + zlen w) [0] b = Ok b' /\ slots b' = slots b /\
  zlen (chars b') = zlen (chars b) /\ string_at (chars b') p w /\ string_at (chars b') (p + zlen w + 1) q.
Proof.
  intros HS. pose proof HS as (H0 & H1 & H2). pose proof (byte_at_range _ _ _ H2) as HR. pose proof (zlen_nonneg w). pose proof (zlen_nonneg q).
  assert (EZ : zlen (w ++ x :: q) = zlen w + 1 + zlen q) by (rewrite zlen_app; unfold zlen; simpl; lia). rewrite EZ in HR.
  destruct (put_chars_ok b (p + zlen w) [0]) as (b' & E & HSl & HZ & HK & HE); [lia | change (zlen [0]) with 1; lia |]. change (zlen [0]) with 1 in *.
  exists b'. split; [done |]. split; [done |]. split; [done |]. split.
  - split; [done |]. split; [| specialize (HK 0 ltac:(lia)); by rewrite Z.add_0_r in HK]. intros k Hk. rewrite HE, H1 by lia. f_equal. unfold zlen in Hk. apply app_nth1. lia.
  - pose proof (string_at_app _ _ _ _ HS) as HQ. apply string_at_tail in HQ as [_ (H5 & H6 & H7)]. split; [done |].
    split; [intros k Hk; rewrite HE by lia; auto | rewrite HE by lia; done].
Qed.

(** the strings so far lie before what is left of the arguments *)
Definition before (lim p : Z) (rest : text) : Prop := lim <= p + 1 /\ (rest <> [] -> lim <= p).

(** one word: from its first character to the place where the loop goes on *)
Lemma word_step n base p b d q lim size ss : built base lim size ss b -> lim <= p -> string_at (chars b) p (d :: q) -> plain_text (d :: q) -> is_blank d = false ->
  (length ss < 33)%nat ->
  exists w rest b' p' lim', words (d :: q) = w :: words rest /\ (length rest <= length q)%nat /\ plain_text rest /\ p' + zlen rest <= p + zlen (d :: q) /\
    built base lim' size (ss ++ [w]) b' /\ before lim' p' rest /\ string_at (chars b') p' rest /\
    (let! b := put_slot (Z.of_nat (length ss)) (chars_at base + p) b in
     let! p := word_end (length (chars b)) (chars b) p in
     let! x := byte_at (chars b) p in
     if negb (x =? 0) then let! b := store p [0] b in split_args n base (p + 1) (Z.of_nat (length ss) + 1) b
     else split_args n base p (Z.of_nat (length ss) + 1) b) = split_args n base p' (Z.of_nat (length ss) + 1) b'.
Proof.
  intros HB Hl HS HP Hd HL. pose proof HB as (HB1 & HB2 & _). rewrite set_slot_ok by lia. cbn [res_bind chars].
  assert (HLs : (length (d :: q) < length (chars b))%nat) by (destruct HS as (? & _ & H2); apply byte_at_range in H2; unfold zlen in *; lia).
  rewrite (word_end_ok _ _ _ (d :: q) HS HP HLs). cbn [res_bind]. pose proof (words_span (d :: q)) as HW. destruct (span_word_ok (d :: q)) as (HA & HR & _).
  assert (Hw : (span_word (d :: q)).1 <> []) by (cbn [span_word]; rewrite Hd; by destruct (span_word q)).
  destruct (span_word (d :: q)) as [w r]. cbn [fst snd] in *. rewrite decide_False in HW by done. rewrite HA in HS. rewrite HW.
  pose proof (zlen_nonneg w). assert (EZ : zlen (d :: q) = zlen w + zlen r) by (by rewrite HA, zlen_app). rewrite EZ.
  assert (HLq : (length w + length r = S (length q))%nat) by (rewrite <- length_app, <- HA; done).
  assert (HLw : (0 < length w)%nat) by (destruct w; [done | simpl; lia]).
  rewrite HA in HP. apply Forall_app in HP as [HPw HPr]. destruct r as [| x r].
  - rewrite app_nil_r in HS. pose proof HS as (_ & _ & HN). rewrite HN. cbn [res_bind]. rewrite Z.eqb_refl. cbn [negb].
    eexists w, [], _, (p + zlen w), (p + zlen w + 1). split; [done |]. split; [simpl; lia |]. split; [constructor |]. split; [unfold zlen; simpl; lia |].
    split; [apply (built_push base lim); try done; lia |]. split; [split; [lia | done] |]. split; [| reflexivity].
    apply (string_at_app (chars b) p w []). by rewrite app_nil_r.
  - pose proof (string_at_app _ _ _ _ HS) as HX. apply string_at_tail in HX as [HX _]. rewrite HX. inversion HPr as [| ? ? Hx HPr']; subst.
    cbn [res_bind]. rewrite (proj2 (Z.eqb_neq x 0)) by done. cbn [negb].
    destruct (cut_word b p w x r HS) as (b' & E & ES & EC & HSw & HSr).
    assert (E2 : store (p + zlen w) [0] (mk_block (<[Z.to_nat (Z.of_nat (length ss)) := chars_at base + p]> (slots b)) (chars b)) =
      Ok (mk_block (<[Z.to_nat (Z.of_nat (length ss)) := chars_at base + p]> (slots b')) (chars b'))).
    { rewrite ES. unfold store in *. cbn [chars slots]. destruct (write_bytes _ _ _); [| done..]. injection E as <-. done. }
    rewrite E2. cbn [res_bind]. eexists w, r, _, (p + zlen w + 1), (p + zlen w + 1). split; [done |]. split; [simpl in *; lia |]. split; [done |].
    split; [unfold zlen; simpl; lia |]. split; [apply (built_push base lim _ _ ss b' p w); try done; try lia; eapply built_store; [exact HB | exact E | done | done | lia] |].
    split; [split; lia |]. split; [exact HSr | reflexivity].
Qed.

Lemma split_args_ok n base p b rest lim size ss : built base lim size ss b -> before lim p rest -> string_at (chars b) p rest -> plain_text rest ->
  (length rest < n)%nat -> (length ss <= 33)%nat ->
  added_strings base (p + zlen rest + 1) size ss (words rest) (split_args n base p (Z.of_nat (length ss)) b).
Proof.
  revert p b rest lim ss. induction n as [| n IH]; intros p b rest lim ss HB [Hl1 Hl2] HS HP Hn HL; [lia |]. cbn [split_args].
  pose proof (zlen_nonneg rest). destruct rest as [| c rest'].
  { rewrite (string_at_nil _ _ HS). cbn [res_bind]. apply added_none; [done |]. eapply built_weaken; [| exact HB]. lia. }
  set (rest := c :: rest') in *. specialize (Hl2 ltac:(done)). pose proof (string_at_tail _ _ _ _ HS) as [-> _]. inversion HP as [| ? ? Hc _]; subst.
  cbn [res_bind]. rewrite (proj2 (Z.eqb_neq c 0)) by done. destruct (drop_blanks_ok rest) as (HW & HD & bs & HE).
  assert (HLs : (length rest < length (chars b))%nat) by (destruct HS as (? & _ & H2); apply byte_at_range in H2; unfold zlen in *; lia).
  destruct (skip_blanks_ok (length (chars b)) (chars b) p rest HS HLs) as [-> HS1]. cbn [res_bind].
  assert (HZ1 : zlen rest = zlen bs + zlen (drop_blanks rest)) by (rewrite HE at 1; by rewrite zlen_app). pose proof (zlen_nonneg bs).
  set (p1 := p + (zlen rest - zlen (drop_blanks rest))) in *. rewrite <- HW.
  assert (HP1 : plain_text (drop_blanks rest)) by (rewrite HE in HP; by apply Forall_app in HP as [_ HP]).
  assert (Hp1 : p <= p1 /\ p + zlen rest = p1 + zlen (drop_blanks rest)) by lia. destruct Hp1 as [Hp1 Ep1]. rewrite Ep1.
  assert (HLd : (length (drop_blanks rest) <= length rest)%nat) by (unfold zlen in *; lia).
  clearbody p1. clear HE HW Ep1 HZ1. destruct (drop_blanks rest) as [| d q].
  { rewrite (string_at_nil _ _ HS1). cbn [res_bind]. apply added_none; [done |]. eapply built_weaken; [| exact HB]. unfold zlen. simpl. lia. }
  pose proof (string_at_tail _ _ _ _ HS1) as [-> _]. inversion HP1 as [| ? ? Hd _]; subst. cbn [res_bind]. rewrite (proj2 (Z.eqb_neq d 0)) by done.
  destruct (Z.eqb_spec (Z.of_nat (length ss)) MAX_ARGS) as [EM | EM]; unfold MAX_ARGS in EM.
  { rewrite words_span. destruct (span_word (d :: q)) as [w r] eqn:EW. cbn [fst snd]. rewrite decide_False.
    - apply (added_full base _ size ss w). lia.
    - cbn [span_word] in EW. rewrite HD in EW. destruct (span_word q). by injection EW as <- _. }
  destruct (word_step n base p1 b d q lim size ss HB ltac:(lia) HS1 HP1 HD ltac:(lia)) as (w & r & b' & p' & lim' & -> & HLr & HPr & HZr & HB' & HBe & HS' & ->).
  apply added_more. specialize (IH p' b' r lim' (ss ++ [w]) HB' HBe HS' HPr). rewrite length_app in IH. cbn [length] in *.
  replace (Z.of_nat (length ss) + 1) with (Z.of_nat (length ss + 1)) by lia. specialize (IH ltac:(lia) ltac:(lia)).
  unfold added_strings in *. destruct (_ <=? _)%nat; [| done]. destruct IH as (b2 & E & HB2). exists b2. split; [exact E |].
  eapply built_weaken; [| exact HB2]. lia.
Qed.

Lemma copy_kvs_ok base cursor b kvs size ss : built base cursor size ss b -> 0 <= cursor -> cursor + kv_size kvs <= size -> (length ss <= 33)%nat ->
  added_strings base (cursor + kv_size kvs) size ss (kv_text <$> kvs) (copy_kvs base cursor (Z.of_nat (length ss)) kvs b).
Proof.
  revert cursor b ss. induction kvs as [| [k v] kvs IH]; intros cursor b ss HB H0 HZ HL; cbn [copy_kvs kv_size foldr fmap list_fmap fst snd] in *.
  { apply added_none; [done |]. by rewrite Z.add_0_r. }
  fold (kv_size kvs) in *. assert (HK0 : 0 <= kv_size kvs) by (clear; induction kvs as [| [a b] kvs IH]; cbn; [lia |]; pose proof (zlen_nonneg a); pose proof (zlen_nonneg b); unfold kv_size in IH; lia).
  pose proof (zlen_nonneg k). pose proof (zlen_nonneg v). pose proof HB as (HB1 & HB2 & _).
  destruct (Z.eqb_spec (Z.of_nat (length ss)) MAX_ARGS) as [EM | EM]; unfold MAX_ARGS in EM; [apply added_full; lia |].
  rewrite set_slot_ok by lia. cbn [res_bind].
  set (b0 := mk_block _ (chars b)). assert (EC0 : chars b0 = chars b) by done.
  destruct (put_chars_ok b0 cursor k) as (b1 & E1 & S1 & Z1 & K1 & O1); [lia | rewrite EC0; lia |]. rewrite E1. cbn [res_bind].
  destruct (put_chars_ok b1 (cursor + zlen k) [EQUALS]) as (b2 & E2 & S2 & Z2 & K2 & O2); [lia | rewrite Z1, EC0; change (zlen [EQUALS]) with 1; lia |]. rewrite E2. cbn [res_bind].
  change (zlen [EQUALS]) with 1 in *.
  destruct (store_string b2 (cursor + zlen k + 1) v) as (b3 & E3 & S3 & Z3 & (_ & K3 & N3) & O3); [lia | rewrite Z2, Z1, EC0; lia |]. rewrite E3. cbn [res_bind].
  assert (EK : zlen (kv_text (k, v)) = zlen k + 1 + zlen v) by (unfold kv_text; cbn [fst snd]; rewrite zlen_app; unfold zlen; simpl; lia).
  assert (HS : string_at (chars b3) cursor (kv_text (k, v))).
  { split; [done |]. rewrite EK. split; [| by replace (cursor + (zlen k + 1 + zlen v)) with (cursor + zlen k + 1 + zlen v) by lia].
    intros j Hj. unfold kv_text. cbn [fst snd]. destruct (decide (j < zlen k)) as [Hj1 | Hj1]; [| destruct (decide (j = zlen k)) as [-> | Hj2]].
    - rewrite O3, O2, K1 by lia. rewrite app_nth1 by (unfold zlen in *; lia). done.
    - rewrite O3 by lia. specialize (K2 0 ltac:(lia)). rewrite Z.add_0_r in K2. rewrite K2. rewrite app_nth2 by (unfold zlen; lia).
      unfold zlen. by rewrite Nat2Z.id, Nat.sub_diag.
    - replace (cursor + j) with (cursor + zlen k + 1 + (j - zlen k - 1)) by lia. rewrite K3 by lia. rewrite app_nth2 by (unfold zlen in *; lia).
      replace (Z.to_nat j - length k)%nat with (S (Z.to_nat (j - zlen k - 1))) by (unfold zlen in *; lia). done. }
  assert (HB3 : built base (cursor + zlen k + 1 + (zlen v + 1)) size (ss ++ [kv_text (k, v)]) b3).
  { assert (HBa : built base cursor size ss (mk_block (slots b) (chars b3))).
    { split_and!; cbn [slots chars]; [done | rewrite Z3, Z2, Z1, EC0; done |]. intros i s Hi. destruct HB as (_ & _ & HBs). destruct (HBs i s Hi) as (off & ? & HSo & ?).
      exists off. split; [done |]. split; [| done]. eapply string_at_store; [exact E3 | | lia]. eapply string_at_store; [exact E2 | | lia].
      eapply string_at_store; [exact E1 | exact HSo | lia]. }
    pose proof (built_push base cursor (cursor + zlen k + 1 + (zlen v + 1)) _ ss _ cursor (kv_text (k, v)) HBa ltac:(lia) HS ltac:(lia) ltac:(lia)) as HP.
    cbn [slots chars] in HP. assert (EB : b3 = mk_block (<[Z.to_nat (Z.of_nat (length ss)) := chars_at base + cursor]> (slots b)) (chars b3)) by (destruct b3; cbn [slots chars] in *; rewrite S3, S2, S1; done).
    rewrite EB. exact HP. }
  apply added_more. replace (cursor + (zlen k + 1 + zlen v + 1 + kv_size kvs)) with (cursor + zlen k + 1 + (zlen v + 1) + kv_size kvs) by lia.
  specialize (IH _ _ _ HB3). rewrite length_app in IH. cbn [length] in IH. replace (Z.of_nat (length ss) + 1) with (Z.of_nat (length ss + 1)) by lia.
  apply IH; lia.
Qed.

Lemma fill_argv_ok t name base b : task_ok t -> t_name t = Some name -> plain_text (t_args t) -> length (slots b) = 34%nat -> zlen (chars b) = chars_size name ->
  if (length (arguments t name) <=? 33)%nat
  then exists b', fill_argv t name base b = Ok (Some (Z.of_nat (length (arguments t name)), b')) /\
    (forall i s, arguments t name !! i = Some s -> exists off, slots b' !! i = Some (chars_at base + off) /\ string_at (chars b') off s /\ off + zlen s < chars_size name) /\
    slots b' !! length (arguments t name) = Some 0
  else fill_argv t name base b = Ok None.
Proof.
  intros (_ & _ & _ & _ & HTa & HTk & _) _ HP HL1 HL2. unfold fill_argv, chars_size in *. pose proof (zlen_nonneg name).
  assert (HA : zlen (args_buf t) = 256) by (unfold args_buf, zlen in *; rewrite length_app, length_replicate; lia).
  rewrite set_slot_ok by lia. cbn [res_bind]. set (b0 := mk_block _ (chars b)). assert (EC0 : chars b0 = chars b) by done.
  destruct (store_string b0 0 name) as (b1 & -> & S1 & Z1 & HS1 & _); [lia | rewrite EC0; lia |]. cbn [res_bind].
  destruct (put_chars_ok b1 (zlen name + 1) (args_buf t)) as (b2 & E2 & S2 & Z2 & K2 & O2); [lia | rewrite Z1, EC0, HA; lia |]. rewrite E2. cbn [res_bind].
  assert (HS2 : string_at (chars b2) (zlen name + 1) (t_args t)).
  { pose proof (zlen_nonneg (t_args t)). split; [lia |]. split.
    - intros k Hk. rewrite K2 by lia. unfold args_buf. rewrite app_nth1 by (unfold zlen in *; lia). done.
    - rewrite K2 by lia. unfold args_buf, zlen. rewrite Nat2Z.id, app_nth2, Nat.sub_diag by lia. by rewrite nth_zeros. }
  assert (HB : built base (zlen name + 1) (zlen name + 1 + 256 + 256) [name] b2).
  { split_and!; [rewrite S2, S1; unfold b0; cbn [slots]; by rewrite length_insert | rewrite Z2, Z1, EC0; lia |].
    intros i s Hi. apply list_lookup_singleton_Some in Hi as [-> <-]. exists 0. rewrite S2, S1. unfold b0. cbn [slots].
    rewrite list_lookup_insert_eq, Z.add_0_r by lia. split; [done |]. split; [eapply string_at_store; [exact E2 | exact HS1 | lia] | lia]. }
  pose proof (split_args_ok 256 base (zlen name + 1) b2 (t_args t) _ _ [name] HB ltac:(split; lia) HS2 HP ltac:(unfold zlen in *; lia) ltac:(simpl; lia)) as HW.
  unfold added_strings in HW. cbn [length] in HW. assert (EA : length (arguments t name) = (1 + length (words (t_args t)) + length (t_kvs t))%nat)
    by (unfold arguments; cbn [length]; rewrite length_app, length_fmap; lia). rewrite EA. change (Z.of_nat 1) with 1 in HW.
  destruct (Nat.leb_spec (1 + length (words (t_args t))) 33) as [H1 | H1].
  2: { rewrite HW. cbn [res_bind]. by rewrite (proj2 (Nat.leb_gt _ _)) by lia. }
  destruct HW as (b3 & -> & HB3). cbn [res_bind].
  pose proof (copy_kvs_ok base (zlen name + 1 + 256) b3 (t_kvs t) _ ([name] ++ words (t_args t))
    ltac:(eapply built_weaken; [| exact HB3]; lia) ltac:(lia) ltac:(lia) ltac:(rewrite length_app; cbn [length]; lia)) as HV.
  unfold added_strings in HV. rewrite length_fmap, length_app in HV. cbn [length] in HV.
  destruct (Nat.leb_spec (1 + length (words (t_args t)) + length (t_kvs t)) 33) as [H2 | H2]; [| by rewrite HV].
  destruct HV as (b4 & -> & HB4). cbn [res_bind]. pose proof HB4 as (HB41 & _ & HBs). rewrite set_slot_ok by lia. cbn [res_bind].
  eexists. split; [reflexivity |]. cbn [slots chars]. rewrite Nat2Z.id. split; [| by rewrite list_lookup_insert_eq by lia].
  intros i s Hi. pose proof (lookup_lt_Some _ _ _ Hi) as Hlt. rewrite EA in Hlt. destruct (HBs i s) as (off & ? & ? & ?); [rewrite <- app_assoc; exact Hi |].
  exists off. rewrite list_lookup_insert_ne by lia. split_and!; try done; lia.
Qed.

Lemma task_build_argv_ok {A} {AL : Allocator A} fresh t name (a : A) L :
  (forall base n, 0 <= n -> length (slots (fresh base n)) = 34%nat /\ zlen (chars (fresh base n)) = n) ->
  live a L -> task_ok t -> t_name t = Some name -> plain_text (t_args t) ->
  exists r a', task_build_argv fresh t a = Ok (r, a') /\
    match r with
    | None => live a' L
    | Some (argc, base, b) =>
      0 < base /\ live a' ((base, 272 + chars_size name) :: L) /\ argc = Z.of_nat (length (arguments t name)) /\ argc <= 33 /\
      (forall i s, arguments t name !! i = Some s ->
        exists off, slots b !! i = Some (chars_at base + off) /\ string_at (chars b) off s /\ off + zlen s < chars_size name) /\
      slots b !! Z.to_nat argc = Some 0
    end /\
    (forall base a1, kmalloc (272 + chars_size name) a = Ok (base, a1) -> r = None <-> base = 0 \/ 33 < Z.of_nat (length (arguments t name))).
Proof.
  intros HF HL HT HN HP. unfold task_build_argv. rewrite HN. change ((MAX_ARGS + 1) * 8) with 272.
  assert (Hn : 0 <= zlen name <= 63).
  { pose proof (zlen_nonneg name). destruct HT as (_ & _ & _ & HT & _). rewrite HN in HT. pose proof (zlen_nonneg (t_module t)). lia. }
  destruct (kmalloc_live a L (272 + chars_size name) HL) as (base & a1 & E & HK); [unfold chars_size; lia |]. rewrite E. cbn [res_bind].
  destruct HK as [[-> HK] | [Hb HK]]; [exists None, a1; split_and!; [done | done |]; intros ? ? [= <- _]; tauto |]. rewrite (proj2 (Z.eqb_neq base 0)) by lia.
  destruct (HF base (chars_size name) ltac:(unfold chars_size, zlen; lia)) as [HF1 HF2]. pose proof (fill_argv_ok t name base _ HT HN HP HF1 HF2) as HO.
  destruct (Nat.leb_spec (length (arguments t name)) 33) as [H33 | H33].
  - destruct HO as (b & -> & HS & HZ). cbn [res_bind]. eexists _, a1. split; [reflexivity |]. split; [| intros ? ? [= <- _]; split; [done | lia]].
    split; [lia |]. split_and!; try done; [lia |]. by rewrite Nat2Z.id.
  - rewrite HO. cbn [res_bind]. destruct (kfree_live a1 L base (272 + chars_size name) HK) as (a2 & -> & HL2). cbn [res_bind].
    exists None, a2. split_and!; [done | done |]. intros ? ? [= <- _]. split; [lia | done].
Qed.

(** [task_build_argv] for every task that the parser accepts and whose entry
    has a name: it fails and keeps no block when there is no memory or more than
    33 arguments, and otherwise gives one block whose pointers designate, in
    order, the name, every word of the positional arguments and every
    [key=value], as terminated strings inside the block, with a null pointer
    behind them. *)
Lemma task_build_argv_correct {A} {AL : Allocator A} fresh t name (a : A) L :
  (forall base n, 0 <= n -> length (slots (fresh base n)) = 34%nat /\ zlen (chars (fresh base n)) = n) ->
  live a L -> task_ok t -> t_name t = Some name -> plain_text (t_args t) ->
  exists r a', task_build_argv fresh t a = Ok (r, a') /\
    match r with
    | None => live a' L
    | Some (argc, base, b) =>
      0 < base /\ live a' ((base, 272 + chars_size name) :: L) /\ argc = Z.of_nat (length (arguments t name)) /\ argc <= 33 /\
      (forall i s, arguments t name !! i = Some s ->
        exists off, slots b !! i = Some (chars_at base + off) /\ string_at (chars b) off s /\ off + zlen s < chars_size name) /\
      slots b !! Z.to_nat argc = Some 0
    end /\
    (forall base a1, kmalloc (272 + chars_size name) a = Ok (base, a1) -> r = None <-> base = 0 \/ 33 < Z.of_nat (length (arguments t name))).
Proof. apply task_build_argv_ok. Qed.
