(* ===== verification/TaskLaunch.v ===== *)
(** * Launching the configured tasks ([kernel/task.c], [module_apply_kv_params])

    For every task of a processor: find its file, build its arguments, create a
    module thread, a kernel thread or a user process from the file, and queue it.
    The definitions compose the boot files, the loaders, the formatter and the
    argument vectors of the other files. *)

From stdpp Require Import base list.
From S2P Require Import Prelude Bytes Heap Alloc Vma Pmm PageAlloc Vmm VmmWalk VmmOwned VmmSpec VmmSpace PageOwner ModuleAlloc.
From S2P Require Import Elf ElfLoad Process Ksym ModuleRegistry ModuleLoad Cpio BootFiles TaskParser TaskArgs Printf Console.

Definition TASK_KERNEL : Z := 0.
Definition TASK_DRIVER : Z := 1.
Definition TASK_THREAD : Z := 2.
Definition TASK_USER : Z := 3.
Definition TASK_DATA : Z := 4.
Definition TASK_CONFIG : Z := 5.
Definition TASK_MAX : Z := 6.
Definition MAX_CPUS : Z := 16.

(** ["/task/"], ["/data/"] and ["/conf/"] *)
Definition dir_task : text := [47; 116; 97; 115; 107; 47].
Definition dir_data : text := [47; 100; 97; 116; 97; 47].
Definition dir_conf : text := [47; 99; 111; 110; 102; 47].
Definition task_path : list text := [dir_task; dir_task; dir_task; dir_task; dir_data; dir_conf].

Definition find_module (c : task_conf) (module : text) (type : Z) : res (Z * option boot_file) :=
  match c_files c with
  | Some files =>
    if (type <? 0) || (TASK_MAX <=? type) then Ok (-2, None)
    else boot_file_lookup_in files (task_path !! Z.to_nat type) (Some module)
  | None => Ok (-2, None)
  end.

(** ** Parameters of a module *)

Definition PARAM_INT : Z := 0.
Definition PARAM_STRING : Z := 1.
Definition PARAM_BOOL : Z := 2.
(** ["__laos_params"] *)
Definition laos_params : list Z := [95; 95; 108; 97; 111; 115; 95; 112; 97; 114; 97; 109; 115].

Record laos_param := mk_param { p_name : Z; p_type : Z; p_ptr : Z }.
Definition PARAM_SIZE : Z := 32.
Definition read_param (f : list Z) (i : Z) : res laos_param :=
  let! name := le 8 f i in let! type := le 4 f (i + 8) in let! ptr := le 8 f (i + 16) in Ok (mk_param name (i32 type) ptr).

(** the image of the module, and what was stored outside it *)
Record module_mem := mk_mem { mm_image : list Z; mm_stores : list (Z * list Z) }.

(** a store at an address: in the image at [mem], or elsewhere *)
Definition poke (mem ptr : Z) (l : list Z) (m : module_mem) : res module_mem :=
  if (mem <=? ptr) && (ptr + zlen l <=? mem + zlen (mm_image m)) then
    let! f := write_bytes (mm_image m) (ptr - mem) l in Ok (mk_mem f (mm_stores m))
  else Ok (mk_mem (mm_image m) (mm_stores m ++ [(ptr, l)])).

(** [val * 10 + ( *c - '0')] for every character *)
Fixpoint int_value (s : text) (val : Z) : res Z :=
  match s with
  | [] => Ok val
  | c :: s => let! t := Printf.int (val * 10) in let! val := Printf.int (t + (i8 c - 48)) in int_value s val
  end.

Definition set_param (mem : Z) (p : laos_param) (value : text) (m : module_mem) : res module_mem :=
  if p_type p =? PARAM_INT then let! val := int_value value 0 in poke mem (p_ptr p) (enc 4 (u32 val)) m
  else if p_type p =? PARAM_STRING then poke mem (p_ptr p) (value ++ [0]) m
  else if p_type p =? PARAM_BOOL then
    let ch := default 0 (head value) in
    let b := if (ch =? 49) || (ch =? 121) || (ch =? 89) then 1 else 0 in
    poke mem (p_ptr p) (enc 4 b) m
  else Ok m.

Fixpoint match_keys (mem i : Z) (kvs : list (text * text)) (m : module_mem) : res module_mem :=
  match kvs with
  | [] => Ok m
  | (key, value) :: kvs =>
    let! p := read_param (mm_image m) i in
    let! e := str_eq (mm_image m) (p_name p - mem) key in
    let! m := if e then set_param mem p value m else Ok m in
    match_keys mem i kvs m
  end.

Fixpoint apply_params (n : nat) (mem i : Z) (kvs : list (text * text)) (m : module_mem) : res module_mem :=
  match n with
  | O => Ok m
  | S n => let! m := match_keys mem i kvs m in apply_params n mem (i + PARAM_SIZE) kvs m
  end.

Fixpoint param_sections (n : nat) (mem si : Z) (h : Elf64_Ehdr) (shstrtab : Z) (kvs : list (text * text)) (m : module_mem) : res module_mem :=
  match n with
  | O => Ok m
  | S n =>
    let! sh := shdr (mm_image m) h si in
    let! e := str_eq (mm_image m) (shstrtab + sh_name sh) laos_params in
    let! m := if e then apply_params (Z.to_nat (sh_size sh / PARAM_SIZE)) mem (sh_offset sh) kvs m else Ok m in
    param_sections n mem (si + 1) h shstrtab kvs m
  end.

Definition module_apply_kv_params (t : thread) (kvs : list (text * text)) (f : list Z) : res module_mem :=
  let m := mk_mem f [] in
  if (Z.of_nat (length kvs) =? 0) || (elf_load_addr t =? 0) || (elf_size t =? 0) then Ok m
  else
    let! h := read_ehdr f 0 in
    let! names := shdr f h (e_shstrndx h) in
    param_sections (Z.to_nat (e_shnum h)) (elf_load_addr t) 0 h (sh_offset names) kvs m.

(** ** Creation *)

Definition user_elf : text := [47; 98; 105; 110; 47; 117; 115; 101; 114; 95; 101; 108; 102].
(** ["id %d"] and ["%d%d"] *)
Definition id_format : list Z := [105; 100; 32; 37; 100].
Definition code_format : list Z := [37; 100; 37; 100].

(** the leading digits of an argument, read from the characters of the vector *)
Fixpoint leading_number (fuel : nat) (c : list Z) (p val : Z) : res Z :=
  match fuel with
  | O => Fault
  | S fuel =>
    let! x := byte_at c p in
    if (48 <=? x) && (x <=? 57) then let! t := Printf.int (val * 10) in let! val := Printf.int (t + (x - 48)) in leading_number fuel c (p + 1) val
    else Ok val
  end.
(** the number of [argv[i]], 10 when it is missing or starts with a zero *)
Definition user_number (argc base : Z) (b : argv_block) (i : nat) : res Z :=
  if argc <=? Z.of_nat i then Ok 10
  else match slots b !! i with
  | None => Fault
  | Some ptr =>
    let p := ptr - chars_at base in
    let! x := byte_at (chars b) p in
    if x =? 48 then Ok 10 else leading_number (S (length (chars b))) (chars b) p 0
  end.

(** [ksprintf] into an array of 64 cleared characters *)
Definition format_64 (fmt : list Z) (args : list arg) : res text :=
  let! (_, b) := ksprintf (Some (replicate 64 0)) fmt args in Ok (c_chars (default [] b)).

Section Launch.
Context {A : Type} {AL : Allocator A} {P : Type} {PA : PageAllocator P}.
Context (root : Z) (table : list kernel_symbol) (user_entry_stub ret_from_fork : Z).
(** the bytes of a boot file, and what new heap memory holds *)
Context (read : boot_file -> list Z) (fresh : Z -> Z -> argv_block).
(** the address of the module name in the record of a task *)
Context (module_addr : task -> Z).
Abbreviation kernel := (kernel (A := A) (P := P)).

Definition task_create_driver (t : task) (f : boot_file) (k : kernel) : res (option thread * kernel) :=
  let! (r, k) := kthread_load_elf_rel root table ret_from_fork (read f) (Some (mk_cstr (module_addr t) (t_module t))) 0 k in
  match r with
  | None => Ok (None, k)
  | Some (th, im) => let! _ := module_apply_kv_params th (t_kvs t) (i_bytes im) in Ok (Some th, k)
  end.

Definition task_create_thread (t : task) (f : boot_file) (k : kernel) : res (option thread * kernel) :=
  kthread_load_elf root table ret_from_fork (read f) KTHREAD_ELF_EXEC (Some (mk_cstr (module_addr t) (t_module t))) 0 k.

Definition task_create_user (argc argv : Z) (b : argv_block) (f : boot_file) (k : kernel) : res (option thread * kernel) :=
  let! id_val := user_number argc argv b 1 in
  let! code_prefix := user_number argc argv b 2 in
  let! var := format_64 id_format [Word (u64 id_val)] in
  let! code := format_64 code_format [Word (u64 code_prefix); Word (u64 id_val)] in
  let! (t, st) := create_elf_process user_entry_stub (k_area k) root (Some (read f)) (b_size f) 3 (Some [user_elf; var; code]) (k_sys k) in
  Ok (t, mk_kernel st (k_area k) (k_reg k)).

(** the entries of [task_create_func]; the types without one are not executable *)
Definition creates (type : Z) : bool := (type =? TASK_DRIVER) || (type =? TASK_THREAD) || (type =? TASK_USER).
Definition task_create_func (t : task) (argc argv : Z) (b : argv_block) (f : boot_file) (k : kernel) : res (option thread * kernel) :=
  if t_type t =? TASK_DRIVER then task_create_driver t f k
  else if t_type t =? TASK_THREAD then task_create_thread t f k
  else task_create_user argc argv b f k.

Definition with_args (args cpu : Z) (t : thread) : thread :=
  mk_thread (self t) (id t) (pml4_phys t) cpu (is_idle t) (is_user t) (entry_point t) args (user_stack t) (kernel_stack t) (kernel_stack_base t)
    (elf_load_addr t) (elf_size t) (user_stack_phys t) (rsp t) (vma_list t) (saved t).

Definition with_kheap (a : A) (k : kernel) : kernel := mk_kernel (with_heap a (k_sys k)) (k_area k) (k_reg k).

(** what happens to one task of the processor: nothing, or a thread for its queue *)
Definition launch (c : task_conf) (t : task) (k : kernel) : res (option thread * kernel) :=
  if (t_type t <? 0) || (TASK_MAX <=? t_type t) || negb (creates (t_type t)) then Ok (None, k)
  else
    let! (lookup, f) := find_module c (t_module t) (t_type t) in
    match f with
    | None => if negb (lookup =? -1) then Panic else if c_missing_panic c then Panic else Ok (None, k)
    | Some f =>
      let! (r, a) := task_build_argv fresh t (heap (k_sys k)) in
      let k := with_kheap a k in
      match r with
      | None => Ok (None, k)
      | Some (argc, argv, b) =>
        let! (th, k) := task_create_func t argc argv b f k in
        match th with
        | Some th =>
          if is_user th && ((pml4_phys th =? 0) || (pml4_phys th =? root)) then Panic
          else Ok (Some (with_args argv (t_cpu_id t) th), k)
        | None => let! a := kfree argv (heap (k_sys k)) in Ok (None, with_kheap a k)
        end
      end
    end.

(** the tasks in the order of the configuration; [queued] are the threads put at
    the tail of the processor's queue *)
Fixpoint run_tasks (c : task_conf) (cpu_id : Z) (ts : list task) (queued : list thread) (k : kernel) : res (list thread * kernel) :=
  match ts with
  | [] => Ok (queued, k)
  | t :: ts =>
    if cpu_id =? u32 (t_cpu_id t) then
      let! (th, k) := launch c t k in
      run_tasks c cpu_id ts (queued ++ match th with Some th => [th] | None => [] end) k
    else run_tasks c cpu_id ts queued k
  end.

Definition task_run_configured_cpu_ctx (c : task_conf) (cpu_id : Z) (k : kernel) : res (Z * list thread * task_conf * kernel) :=
  if negb (c_initialized c) || negb (c_parsed c) || (MAX_CPUS <=? cpu_id) then Ok (-1, [], c, k)
  else
    let '(r, c) := task_conf_claim_cpu_ctx c cpu_id in
    if negb (r =? 0) then Ok (-1, [], c, k)
    else let! (queued, k) := run_tasks c cpu_id (c_head c) [] k in Ok (0, queued, c, k).

End Launch.

(** ** Contexts *)

Section Init.
Context (kmalloc_ok : nat -> bool) (read : boot_file -> text).

Definition task_init_ctx (c : task_conf) (files : option boot_file_set) (purpose : task_conf_purpose) (config_path : option text) (h : record_heap) :
    res (Z * task_conf * record_heap) :=
  let '(r, c) := task_conf_init_ctx c files purpose in
  if negb (r =? 0) then Ok (-1, c, h)
  else
    let! (r, c, h) := task_conf_load_ctx kmalloc_ok read c config_path h in
    if negb (r =? 0) then let '(_, c, h) := task_conf_destroy_ctx c h in Ok (-1, c, h) else Ok (0, c, h).

(** ["/conf/task.conf"] *)
Definition default_conf : text := dir_conf ++ [116; 97; 115; 107; 46; 99; 111; 110; 102].

Definition task_init (modules : option (list boot_module)) (c : task_conf) (h : record_heap) : res (Z * task_conf * record_heap) :=
  if c_initialized c then Ok (-1, c, h)
  else
    let! files := boot_files_from_modules modules in
    match files with
    | None => Ok (-1, c, h)
    | Some files => task_init_ctx c (Some files) TASK_CONF_COMPAT (Some default_conf) h
    end.
End Init.

