(* ===== verification/LaunchSpec.v ===== *)
(** * A configured user program, from its line to its process

    The launch of a task of type user, composed from the argument vector, the
    formatter and the creation of a process; and that destroying the thread gives
    everything back, the argument vector included. *)

From stdpp Require Import base list.
From S2P Require Import Prelude Bytes Heap Alloc Vma Pmm PageAlloc Vmm VmmWalk VmmOwned VmmSpec VmmSpace PageOwner ModuleAlloc.
From S2P Require Import Elf ElfLoad ElfStack Process ProcessSpec Mmap Lifecycle Ksym ModuleRegistry ModuleLoad Cpio BootFiles TaskParser TaskArgs Printf PrintfSpec PrintfCorrect Console ConsoleSpec TaskLaunch.

(** ** The texts *)

(** a number in decimal *)
Definition decimal (v : Z) : text := render_int v 0 (-1) false false false.

Lemma digits_length k base v : (length (digits k base v) <= k)%nat.
Proof. revert v. induction k as [| k IH]; intros v; cbn [digits]; [simpl; lia |]. destruct (v =? 0); [simpl; lia |]. rewrite length_app. simpl. specialize (IH (v / base)). lia. Qed.

Lemma decimal_ok v : -2147483648 <= v <= 2147483647 -> bytes (decimal v) /\ plain_text (decimal v) /\ zlen (decimal v) <= 11.
Proof.
  intros Hv. unfold decimal, render_int, number_field. cbn [negb].
  assert (Hu : is_u64 (Z.abs v)) by (red; lia). destruct (numeral_bytes 10 false (Z.abs v) ltac:(red; lia) Hu) as [HB _].
  assert (HN : plain_text (numeral 10 false (Z.abs v)) /\ zlen (numeral 10 false (Z.abs v)) <= 10).
  { unfold numeral. destruct (Z.eqb_spec (Z.abs v) 0); [split; [by repeat constructor | done] |].
    assert (Hp : 0 <= Z.abs v < 10 ^ Z.of_nat 10) by (change (10 ^ Z.of_nat 10) with 10000000000; lia).
    rewrite (digits_fuel 10 64) by (done || lia). destruct (digits_value 10 10 (Z.abs v) ltac:(lia) Hp) as (_ & HF & _). split.
    - apply Forall_fmap. eapply Forall_impl; [exact HF |]. intros d Hd. cbn in Hd |- *. unfold digit_char. destruct (Z.ltb_spec d 10); lia.
    - unfold zlen. rewrite length_fmap. pose proof (digits_length 10 10 (Z.abs v)). lia. }
  destruct HN as [HP HL]. replace (zeros (-1 - _)) with (@nil Z) by (unfold zeros; pose proof (zlen_nonneg (numeral 10 false (Z.abs v))); by replace (Z.to_nat _) with 0%nat by lia).
  rewrite app_nil_l. set (sg := if v <? 0 then [C_MINUS] else []).
  assert (HS : bytes sg /\ plain_text sg /\ zlen sg <= 1) by (subst sg; destruct (v <? 0); split_and!; by repeat constructor).
  destruct HS as (HS1 & HS2 & HS3). replace (spaces _) with (@nil Z).
  2: { unfold spaces. pose proof (zlen_nonneg sg). pose proof (zlen_nonneg (numeral 10 false (Z.abs v))). by replace (Z.to_nat _) with 0%nat by lia. }
  rewrite app_nil_l. split_and!; [by apply Forall_app_2 | by apply Forall_app_2 | rewrite zlen_app; lia].
Qed.

Lemma c_chars_plain s r : plain_text s -> c_chars (s ++ 0 :: r) = s.
Proof. induction 1 as [| c s Hc HP IH]; [done |]. cbn [app c_chars]. rewrite (proj2 (Z.eqb_neq c 0)) by done. by rewrite IH. Qed.

Lemma format_64_ok ps args text : Forall piece_ok ps -> Forall arg_ok args -> render ps args = Some text -> plain_text text -> zlen text < 64 ->
  format_64 (print_format ps) args = Ok text.
Proof.
  intros HP HA HR HT HL. unfold format_64, ksprintf, KPRINTF_BUF_SZ. pose proof (zlen_nonneg text).
  destruct (vsnprintf_buffer ps args text (replicate 64 0) 1024 HP HA HR) as (b & -> & E); [unfold INT_MAX; lia | done | change (zlen (replicate 64 0)) with 64; lia |].
  cbn [res_bind]. change (default [] (Some b)) with b. rewrite E, take_ge by (unfold zlen in *; lia). by rewrite c_chars_plain.
Qed.

Definition d_piece : piece := Dir [] NNone NNone LNone C_d.

Lemma d_piece_ok : piece_ok d_piece.
Proof. cbn. split_and!; done || constructor. Qed.

Lemma signed_word v : -2147483648 <= v <= 2147483647 -> signed_arg 0 (u64 v) = v.
Proof. intros Hv. unfold signed_arg. cbn [Z.eqb orb]. unfold i32, u64. zlia. Qed.

Lemma id_text_ok v : -2147483648 <= v <= 2147483647 -> format_64 id_format [Word (u64 v)] = Ok ([105; 100; 32] ++ decimal v).
Proof.
  intros Hv. destruct (decimal_ok v Hv) as (_ & HP & HL). pose proof d_piece_ok as HD.
  apply (format_64_ok [Lit 105; Lit 100; Lit 32; d_piece]); [| by repeat constructor | | | rewrite zlen_app; change (zlen [105; 100; 32]) with 3; lia].
  - repeat (constructor; [first [exact HD | split; [red; lia | done]] |]). constructor.
  - change (render [Lit 105; Lit 100; Lit 32; d_piece] [Word (u64 v)]) with (Some ([105] ++ [100] ++ [32] ++ render_int (signed_arg 0 (u64 v)) 0 (-1) false false false ++ [])).
    rewrite signed_word, app_nil_r by done. reflexivity.
  - apply Forall_app_2; [by repeat constructor | done].
Qed.

Lemma code_text_ok a b : -2147483648 <= a <= 2147483647 -> -2147483648 <= b <= 2147483647 ->
  format_64 code_format [Word (u64 a); Word (u64 b)] = Ok (decimal a ++ decimal b).
Proof.
  intros Ha Hb. destruct (decimal_ok a Ha) as (_ & HPa & HLa). destruct (decimal_ok b Hb) as (_ & HPb & HLb). pose proof d_piece_ok as HD.
  apply (format_64_ok [d_piece; d_piece]); [by repeat constructor | by repeat constructor | | by apply Forall_app_2 | rewrite zlen_app; lia].
  change (render [d_piece; d_piece] [Word (u64 a); Word (u64 b)]) with
    (Some (render_int (signed_arg 0 (u64 a)) 0 (-1) false false false ++ render_int (signed_arg 0 (u64 b)) 0 (-1) false false false ++ [])).
  rewrite !signed_word, app_nil_r by done. reflexivity.
Qed.

(** the number that the digits at the start of a text spell *)
Fixpoint digits_value (s : text) (val : Z) : Z :=
  match s with
  | x :: s => if (48 <=? x) && (x <=? 57) then digits_value s (val * 10 + (x - 48)) else val
  | [] => val
  end.
Definition user_value (arg : option text) : Z :=
  match arg with
  | None => 10
  | Some s => if default 0 (head s) =? 48 then 10 else digits_value s 0
  end.

Lemma digits_value_le s val : 0 <= val -> val <= digits_value s val.
Proof.
  revert val. induction s as [| x s IH]; intros val Hv; cbn [digits_value]; [lia |].
  destruct (Z.leb_spec 48 x), (Z.leb_spec x 57); cbn [andb]; try lia. specialize (IH (val * 10 + (x - 48)) ltac:(lia)). lia.
Qed.

Lemma user_value_nonneg arg : 0 <= user_value arg.
Proof. destruct arg as [s |]; cbn; [| lia]. destruct (_ =? 48); [lia |]. by apply digits_value_le. Qed.

Lemma int_small v : 0 <= v <= 2147483647 -> Printf.int v = Ok v.
Proof. intros H. unfold Printf.int, Printf.INT_MAX. rewrite !(proj2 (Z.leb_le _ _)) by lia. done. Qed.

Lemma leading_number_ok n c p s val : string_at c p s -> (length s < n)%nat -> 0 <= val -> digits_value s val <= 2147483647 ->
  leading_number n c p val = Ok (digits_value s val).
Proof.
  revert p s val. induction n as [| n IH]; intros p s val HS Hn Hv HD; [lia |]. cbn [leading_number]. destruct s as [| x s].
  - rewrite (string_at_nil _ _ HS). done.
  - pose proof (string_at_tail _ _ _ _ HS) as [-> HT]. cbn [res_bind digits_value length] in *.
    destruct (Z.leb_spec 48 x), (Z.leb_spec x 57); cbn [andb] in *; try done.
    pose proof (digits_value_le s (val * 10 + (x - 48)) ltac:(lia)). rewrite !int_small by lia. cbn [res_bind]. rewrite int_small by lia. cbn [res_bind]. apply IH; try done; lia.
Qed.

(** the vector that has been built gives the numbers of the texts *)
Lemma user_number_ok args base lim b i :
  (forall j s, args !! j = Some s -> exists off, slots b !! j = Some (chars_at base + off) /\ string_at (chars b) off s /\ off + zlen s < lim) ->
  user_value (args !! i) <= 2147483647 -> user_number (Z.of_nat (length args)) base b i = Ok (user_value (args !! i)).
Proof.
  intros HB HV. unfold user_number. destruct (args !! i) as [s |] eqn:E.
  - pose proof (lookup_lt_Some _ _ _ E). rewrite (proj2 (Z.leb_gt _ _)) by lia. destruct (HB _ _ E) as (off & -> & HS & _).
    replace (chars_at base + off - chars_at base) with off by lia. cbn [user_value] in *.
    assert (EH : byte_at (chars b) off = Ok (default 0 (head s))).
    { destruct s as [| x s]; [exact (string_at_nil _ _ HS) | exact (proj1 (string_at_tail _ _ _ _ HS))]. }
    rewrite EH. cbn [res_bind]. destruct (_ =? 48); [done |]. apply leading_number_ok; try done.
    destruct HS as (H0 & _ & HZ). apply byte_at_range in HZ. unfold zlen in *. lia.
  - apply lookup_ge_None in E. by rewrite (proj2 (Z.leb_le _ _)) by lia.
Qed.

(** ** The launch *)

Section UserTask.
Context {A : Type} {AL : Allocator A} {P : Type} {PA : PageAllocator P}.
Context (root : Z) (table : list kernel_symbol) (stub fork : Z) (read : boot_file -> list Z) (fresh : Z -> Z -> argv_block) (module_addr : task -> Z).
Context (Kt : list Z) (m0 : tables).
Abbreviation kernel := (kernel (A := A) (P := P)).
Abbreviation launch_here := (launch (A := A) (P := P) root table stub fork read fresh module_addr).

(** the arguments of the program *)
Definition user_argv (a b : Z) : list text := [user_elf; [105; 100; 32] ++ decimal a; decimal b ++ decimal a].

(** the root of a process is not the kernel's *)
Lemma private_root f h l args N D R t (st : sys A P) : root ∈ Kt -> new_process Kt m0 f h l args N D R t st -> pml4_phys t <> 0 /\ pml4_phys t <> root.
Proof.
  intros HK [_ _ (U & M & HS) _ _ _ _ _]. destruct (user_root _ _ _ _ _ _ _ HS) as [Hr _]. split; [lia |]. intros E.
  destruct (held_frames _ _ (user_held _ _ _ _ _ _ _ HS)) as [HN _]. apply NoDup_app in HN as (_ & HN & _). apply (HN root).
  - rewrite <- E. cbn [owned]. lmem.
  - lmem.
Qed.

Lemma kernel_root_in s D : kernel_space root Kt m0 s D -> root ∈ Kt.
Proof. intros (W & _ & _). destruct (ws_table _ _ _ W [] root) as [H _]; [split; [constructor | simpl; lia] | done | done]. Qed.

(** the thread with its arguments owns one block more *)
Lemma with_args_blocks argv cpu n th R (a : A) : entry_args_owned th = 0 -> argv <> 0 ->
  Alloc.live a (thread_blocks 0 KERNEL_STACK_SIZE th ++ (argv, n) :: R) -> Alloc.live a (thread_blocks n KERNEL_STACK_SIZE (with_args argv cpu th) ++ R).
Proof.
  intros E0 Hn HL. eapply live_perm; [| exact HL]. unfold thread_blocks. cbn [with_args entry_args_owned elf_load_addr elf_size vma_list kernel_stack kernel_stack_base self].
  rewrite E0. unfold opt_block at 1 3. rewrite Z.eqb_refl, (proj2 (Z.eqb_neq argv 0)) by done. cbn [app].
  symmetry. apply Permutation_middle.
Qed.

(** the outcome of a launch *)
Definition launched (raw : list Z) (cpu : Z) (args : list text) (k k' : kernel) (N D : list Z) (R : list (Z * Z)) (o : option thread) : Prop :=
  (forall u j, u ∈ Kt -> tabs (k_vm k') u j = m0 u j) /\ k_area k' = k_area k /\ k_reg k' = k_reg k /\
  match o with
  | None => rolled_back (k_area k) Kt N D R (k_sys k')
  | Some th => is_user th = true /\ target_cpu th = cpu /\
    (exists h l, image_ok raw h l /\ entry_point th = e_entry h /\ (N = [] -> process_image (pml4_phys th) raw (loadable l) (mach (k_sys k')))) /\
    stack_layout (pml4_phys th) (mach (k_sys k')) (user_stack th) args /\
    exists st', thread_destroy (k_area k) (Some th) (k_sys k') = Ok st' /\ Alloc.live (heap st') (retained (k_area k) th ++ R) /\
      held (frames (vmem (mach st'))) (Kt ++ N ++ D)
  end.

Lemma new_process_launched raw h l args N D R argv n cpu th (k : kernel) st' : image_ok raw h l -> argv <> 0 ->
  new_process Kt m0 raw h l args N D ((argv, n) :: R) th st' -> (forall u j, u ∈ Kt -> tabs (vmem (mach st')) u j = m0 u j) ->
  launched raw cpu args k (mk_kernel st' (k_area k) (k_reg k)) N D R (Some (with_args argv cpu th)).
Proof.
  intros Hi Hn [(E1 & E2 & E3 & E4 & E5) HB HS _ HI _ HT _] HK. split; [done |]. split; [done |]. split; [done |].
  split; [done |]. split; [done |]. split; [by exists h, l |]. split; [done |]. cbn [k_sys].
  destruct (thread_destroy_ok (k_area k) Kt m0 (with_args argv cpu th) n KERNEL_STACK_SIZE st' R (N ++ D)) as (st2 & E & HL & Hh & _); [done | by apply with_args_blocks | right; exact HS |].
  exists st2. by split_and!.
Qed.

Lemma launch_user_ok c t f name (k : kernel) D R :
  (forall base n, 0 <= n -> length (slots (fresh base n)) = 34%nat /\ zlen (chars (fresh base n)) = n) ->
  kernel_space root Kt m0 (k_vm k) D -> Alloc.live (heap (k_sys k)) R -> task_ok t -> t_type t = TASK_USER -> t_name t = Some name -> plain_text (t_args t) ->
  find_module c (t_module t) TASK_USER = Ok (0, Some f) -> bytes (read f) -> zlen (read f) = b_size f -> b_size f <= 2147483647 ->
  let a := user_value (arguments t name !! 1%nat) in let b := user_value (arguments t name !! 2%nat) in a <= 2147483647 -> b <= 2147483647 ->
  (forall h l, image_ok (read f) h l -> below_stack l) ->
  exists o k' N, launch_here c t k = Ok (o, k') /\ launched (read f) (t_cpu_id t) (user_argv a b) k k' N D R o.
Proof.
  intros HF HK HL HT HTy HN HP HFind HB HZ HZ2 a b Ha Hb Hbelow. unfold launch. rewrite HTy. cbn [Z.ltb Z.leb orb negb]. change (creates TASK_USER) with true. cbn [negb].
  change ((TASK_USER <? 0) || (TASK_MAX <=? TASK_USER) || false) with false. cbv iota. rewrite HFind. cbn [res_bind].
  destruct (task_build_argv_ok fresh t name (heap (k_sys k)) R HF HL HT HN HP) as (r & a1 & -> & Hr & _). cbn [res_bind].
  destruct r as [[[argc argv] blk] |].
  2: { exists None, (with_kheap a1 k), []. split; [done |]. destruct HK as (_ & Hh & Hw).
    split; [exact Hw |]. split; [done |]. split; [done |]. split; [exact Hh |]. exists []. split; [done | constructor]. }
  destruct Hr as (Hargv & HL1 & -> & _ & HV & _). unfold task_create_func. rewrite HTy. change (TASK_USER =? TASK_DRIVER) with false. change (TASK_USER =? TASK_THREAD) with false. cbv iota.
  unfold task_create_user. rewrite !(user_number_ok _ _ _ _ _ HV) by done. cbn [res_bind]. fold a b.
  pose proof (user_value_nonneg (arguments t name !! 1%nat)). pose proof (user_value_nonneg (arguments t name !! 2%nat)). rewrite id_text_ok, code_text_ok by (unfold a, b in *; lia). cbn [res_bind].
  rewrite <- HZ. destruct (create_elf_process_ok stub (k_area k) root Kt m0 (read f) 3 (Some (user_argv a b)) (with_heap a1 (k_sys k)) D ((argv, 272 + chars_size name) :: R)
    HB ltac:(lia) HK HL1 ltac:(by intros l [= <-]) Hbelow) as (o & st' & N & E & HW & Ho).
  cbn [k_area k_sys with_kheap]. change [user_elf; [105; 100; 32] ++ decimal a; decimal b ++ decimal a] with (user_argv a b). rewrite E. cbn [res_bind].
  destruct o as [th |].
  - destruct Ho as (h & l & av & Hi & [= <-] & _ & Hnp). destruct (private_root _ _ _ _ _ _ _ _ _ (kernel_root_in _ _ HK) Hnp) as [Hr0 Hr1].
    pose proof (np_fields _ _ _ _ _ _ _ _ _ _ _ Hnp) as (_ & Eu & _). rewrite Eu, (proj2 (Z.eqb_neq _ 0)), (proj2 (Z.eqb_neq _ root)) by done. cbn [andb orb].
    exists (Some (with_args argv (t_cpu_id t) th)), (mk_kernel st' (k_area k) (k_reg k)), N. split; [done |].
    eapply new_process_launched; [exact Hi | lia | exact Hnp | exact HW].
  - destruct Ho as (Hh & B & HLB & HBm). cbn [k_sys].
    destruct (kfree_live (heap st') (B ++ R) argv (272 + chars_size name)) as (a2 & -> & HL2); [eapply live_perm; [symmetry; apply Permutation_middle | exact HLB] |].
    cbn [res_bind]. exists None, (mk_kernel (with_heap a2 st') (k_area k) (k_reg k)), N. split; [done |]. split; [exact HW |]. split; [done |]. split; [done |].
    split; [exact Hh |]. by exists B.
Qed.

End UserTask.

(** ** Once per processor *)

Lemma claim_twice c cpu c' : 0 <= cpu -> task_conf_claim_cpu_ctx c cpu = (0, c') -> (task_conf_claim_cpu_ctx c' cpu).1 = -1.
Proof.
  intros Hc. unfold task_conf_claim_cpu_ctx. destruct (negb (c_initialized c) || negb (c_parsed c) || (64 <=? cpu) || _) eqn:E; [done |]. intros [= <-].
  cbn [c_initialized c_parsed c_started_cpus]. rewrite Z.land_lor_distr_l, Z.land_diag.
  assert (HN : Z.lor (Z.land (c_started_cpus c) (Z.shiftl 1 cpu)) (Z.shiftl 1 cpu) <> 0).
  { intros H0. apply Z.lor_eq_0_iff in H0 as [_ H0]. rewrite Z.shiftl_1_l in H0. pose proof (Z.pow_pos_nonneg 2 cpu). lia. }
  rewrite (proj2 (Z.eqb_neq _ 0)) by done. cbn [negb]. by rewrite orb_true_r.
Qed.

(** the second run for a processor starts nothing *)
Lemma run_once {A P} {AL : Allocator A} {PA : PageAllocator P} root table stub fork read fresh ma c cpu (k k1 k2 : kernel (A := A) (P := P)) q c' :
  0 <= cpu -> task_run_configured_cpu_ctx root table stub fork read fresh ma c cpu k = Ok (0, q, c', k1) ->
  exists c2, task_run_configured_cpu_ctx root table stub fork read fresh ma c' cpu k2 = Ok (-1, [], c2, k2).
Proof.
  intros Hc. unfold task_run_configured_cpu_ctx. destruct (negb (c_initialized c) || _ || _); [done |].
  destruct (task_conf_claim_cpu_ctx c cpu) as [r c1] eqn:E1. destruct (Z.eqb_spec r 0) as [-> | ?]; cbn [negb]; [| done].
  intros H. apply res_bind_ok in H as ([qs k3] & _ & [= <- <- <-]). destruct (_ || _ || _); [eauto |].
  pose proof (claim_twice c cpu c1 Hc E1) as E2. destruct (task_conf_claim_cpu_ctx c1 cpu) as [r2 c2]. cbn [fst] in E2. subst r2. cbn. eauto.
Qed.

(** ** A line of the configuration *)

(** [user,1,a:x,...,7 8] with the executable [/task/a] in the boot modules *)
Definition ex_user_task : task := mk_task 1 TASK_USER [97] (Some [120]) 0 [55; 32; 56] [].
Definition ex_user_conf : task_conf :=
  mk_conf [ex_user_task] [] (Some (BOOT_FILES_MODULES (Some [mk_module (Some (dir_task ++ [97])) 4096 (zlen ex_elf)]))) TASK_CONF_COMPAT false true true false 0 [].
Definition ex_user_file : boot_file :=
  mk_boot_file 4096 (zlen ex_elf) (dir_task ++ [97]) (BOOT_FILES_MODULES (Some [mk_module (Some (dir_task ++ [97])) 4096 (zlen ex_elf)])).

Lemma ex_user_task_ok : task_ok ex_user_task.
Proof. unfold task_ok, TaskParser.INT_MAX, TASK_USER, zlen. cbn. split_and!; lia || done. Qed.

Definition ex_fresh (base n : Z) : argv_block := mk_block (replicate 34 0) (replicate (Z.to_nat n) 0).

Lemma ex_fresh_length base n : 0 <= n -> length (slots (ex_fresh base n)) = 34%nat /\ zlen (chars (ex_fresh base n)) = n.
Proof. intros Hn. unfold ex_fresh, zlen. cbn [slots chars]. rewrite !length_replicate. lia. Qed.

Definition ex_user_kernel : kernel (A := kheap Heap.frames) (P := pmm) := mk_kernel ex_sys ex_area new_registry.

#[local] Instance ex_launch_blocks : Allocator (kheap Heap.frames) := heap_allocator (Some 1).

Lemma plain_check s : forallb (fun x => negb (x =? 0)) s = true -> plain_text s.
Proof. rewrite forallb_forall. intros H. apply Forall_forall. intros x Hx%list_elem_of_In%H. by destruct (Z.eqb_spec x 0). Qed.

Definition ex_launch := launch ex_kroot [] 0xffffffff80001000 0 (fun _ => ex_elf) ex_fresh (fun _ => 0) ex_user_conf ex_user_task ex_user_kernel.

Lemma ex_launch_created : exists th k', ex_launch = Ok (Some th, k').
Proof. apply created_some. vm_compute. reflexivity. Qed.

Definition ex_args : list text := user_argv (user_value (arguments ex_user_task [120] !! 1%nat)) (user_value (arguments ex_user_task [120] !! 2%nat)).

Lemma ex_args_ok : ex_args = [user_elf; [105; 100; 32; 55]; [56; 55]].
Proof. vm_compute. reflexivity. Qed.

Lemma ex_launch_outcome : (exists o k' N, ex_launch = Ok (o, k') /\ launched [ex_kroot] no_words ex_elf 1 ex_args ex_user_kernel k' N [] [] o) ->
  exists th k' st', ex_launch = Ok (Some th, k') /\ target_cpu th = 1 /\
    stack_layout (pml4_phys th) (mach (k_sys k')) (user_stack th) [user_elf; [105; 100; 32; 55]; [56; 55]] /\
    thread_destroy ex_area (Some th) (k_sys k') = Ok st'.
Proof.
  rewrite ex_args_ok. destruct ex_launch_created as (th & k1 & ->). intros (o & k' & N & E & HO). injection E as <- <-.
  destruct HO as (_ & _ & _ & _ & HC & _ & HS & st' & ED & _). exists th, k1, st'. split; [done |]. split; [exact HC |]. split; [exact HS | exact ED].
Qed.


Lemma task_build_argv_correct_witness :
  exists base b a', task_build_argv ex_fresh ex_user_task ex_kheap = Ok (Some (3, base, b), a') /\ slots b !! 3%nat = Some 0 /\
    exists off, slots b !! 2%nat = Some (chars_at base + off) /\ string_at (chars b) off [56].
Proof.
  destruct (task_build_argv_correct ex_fresh ex_user_task [120] ex_kheap []) as (r & a' & E & HR & _).
  - exact ex_fresh_length.
  - exact ex_kheap_live.
  - exact ex_user_task_ok.
  - reflexivity.
  - apply plain_check. reflexivity.
  - destruct r as [[[argc base] b] |].
    + destruct HR as (_ & _ & HA & _ & HS & HZ). vm_compute in HA. subst argc. exists base, b, a'. split; [exact E |]. split; [exact HZ |].
      destruct (HS 2%nat [56] eq_refl) as (off & H1 & H2 & _). exists off. split; [exact H1 | exact H2].
    + exfalso. revert E. vm_compute. discriminate.
Defined.
