(* ===== verification/Protocol.v ===== *)
(** * Packets

    [module/protocol.c], [module/protocol.h] and the packet handler and ARP cache
    of [module/e1000.c].  A packet is the list of the bytes of its buffer; the
    packed structures are records with their layout; what the code hands to
    [nic->tx] is part of the result. *)

From stdpp Require Import base list.
From S2P Require Import Prelude Bytes.

(** ** Byte order *)

Definition swap16 (x : Z) : Z := u16 (Z.lor (Z.land (Z.shiftr x 8) 0xff) (Z.shiftl (Z.land x 0xff) 8)).
Definition swap32 (x : Z) : Z :=
  u32 (Z.lor (Z.lor (Z.lor (Z.land (Z.shiftr x 24) 0xff) (Z.land (Z.shiftr x 8) 0xff00)) (Z.land (Z.shiftl x 8) 0xff0000)) (Z.land (Z.shiftl x 24) 0xff000000)).
Abbreviation hton16 := swap16.
Abbreviation ntoh16 := swap16.
Abbreviation hton32 := swap32.

(** ** Structures *)

Record eth_header := mk_eth { eth_dest : list Z; eth_src : list Z; eth_type : Z }.
Record arp_packet := mk_arp {
  hw_type : Z; proto_type : Z; hw_addr_len : Z; proto_addr_len : Z; opcode : Z;
  src_mac : list Z; arp_src_ip : Z; dest_mac : list Z; arp_dest_ip : Z }.
Record ip_header := mk_ip {
  version_ihl : Z; tos : Z; ip_len : Z; ip_id : Z; flags_offset : Z; ttl : Z; proto : Z; ip_checksum : Z; ip_src : Z; ip_dest : Z }.
Record icmp_header := mk_icmp { icmp_type : Z; icmp_code : Z; icmp_checksum : Z; icmp_id : Z; icmp_seq : Z }.

Definition ETH_SIZE : Z := 14.
Definition ARP_SIZE : Z := 28.
Definition IP_SIZE : Z := 20.
Definition ICMP_SIZE : Z := 8.

Definition eth_bytes (h : eth_header) : list Z := eth_dest h ++ eth_src h ++ enc 2 (eth_type h).
Definition arp_bytes (p : arp_packet) : list Z :=
  enc 2 (hw_type p) ++ enc 2 (proto_type p) ++ enc 1 (hw_addr_len p) ++ enc 1 (proto_addr_len p) ++ enc 2 (opcode p) ++
  src_mac p ++ enc 4 (arp_src_ip p) ++ dest_mac p ++ enc 4 (arp_dest_ip p).
Definition ip_bytes (h : ip_header) : list Z :=
  enc 1 (version_ihl h) ++ enc 1 (tos h) ++ enc 2 (ip_len h) ++ enc 2 (ip_id h) ++ enc 2 (flags_offset h) ++ enc 1 (ttl h) ++ enc 1 (proto h) ++
  enc 2 (ip_checksum h) ++ enc 4 (ip_src h) ++ enc 4 (ip_dest h).
Definition icmp_bytes (h : icmp_header) : list Z :=
  enc 1 (icmp_type h) ++ enc 1 (icmp_code h) ++ enc 2 (icmp_checksum h) ++ enc 2 (icmp_id h) ++ enc 2 (icmp_seq h).

(** the structure at offset [i] of a buffer *)
Definition read_eth (b : list Z) (i : Z) : res eth_header :=
  let! dest := bytes_at b i 6 in let! src := bytes_at b (i + 6) 6 in let! type := le 2 b (i + 12) in Ok (mk_eth dest src type).
Definition read_arp (b : list Z) (i : Z) : res arp_packet :=
  let! hw := le 2 b i in let! pr := le 2 b (i + 2) in let! hl := le 1 b (i + 4) in let! pl := le 1 b (i + 5) in let! op := le 2 b (i + 6) in
  let! sm := bytes_at b (i + 8) 6 in let! si := le 4 b (i + 14) in let! dm := bytes_at b (i + 18) 6 in let! di := le 4 b (i + 24) in
  Ok (mk_arp hw pr hl pl op sm si dm di).
Definition read_ip (b : list Z) (i : Z) : res ip_header :=
  let! v := le 1 b i in let! t := le 1 b (i + 1) in let! n := le 2 b (i + 2) in let! d := le 2 b (i + 4) in let! f := le 2 b (i + 6) in
  let! l := le 1 b (i + 8) in let! p := le 1 b (i + 9) in let! c := le 2 b (i + 10) in let! s := le 4 b (i + 12) in let! e := le 4 b (i + 16) in
  Ok (mk_ip v t n d f l p c s e).
Definition read_icmp (b : list Z) (i : Z) : res icmp_header :=
  let! t := le 1 b i in let! d := le 1 b (i + 1) in let! c := le 2 b (i + 2) in let! n := le 2 b (i + 4) in let! s := le 2 b (i + 6) in
  Ok (mk_icmp t d c n s).

(** ** The checksum *)

(** the sum of the 16-bit words at [ptr], with an odd last byte *)
Fixpoint sum_words (fuel : nat) (data : list Z) (ptr len sum : Z) : res Z :=
  if 1 <? len then
    match fuel with
    | O => Fault
    | S fuel => let! w := le 2 data ptr in sum_words fuel data (ptr + 2) (len - 2) (u32 (sum + w))
    end
  else if 0 <? len then let! b := byte_at data ptr in Ok (u32 (sum + b))
  else Ok sum.

Fixpoint fold_sum (fuel : nat) (sum : Z) : res Z :=
  if Z.shiftr sum 16 =? 0 then Ok sum
  else match fuel with
  | O => Fault
  | S fuel => fold_sum fuel (u32 (Z.land sum 0xFFFF + Z.shiftr sum 16))
  end.

(** two rounds bring every 32-bit sum below 65536 *)
Definition net_checksum (data : list Z) (len : Z) : res Z :=
  let! sum := sum_words (Z.to_nat len) data 0 len 0 in
  let! sum := fold_sum 2 sum in
  Ok (u16 (Z.lnot (u16 sum))).

(** ** Replies *)

Definition send_arp_reply (mac : list Z) (req_eth : eth_header) (req_arp : arp_packet) : res (list Z) :=
  let eth := mk_eth (eth_src req_eth) mac (hton16 0x0806) in
  let arp := mk_arp (hton16 1) (hton16 0x0800) 6 4 (hton16 2) mac (arp_dest_ip req_arp) (src_mac req_arp) (arp_src_ip req_arp) in
  let! response := write_bytes (replicate 256 0) 0 (eth_bytes eth) in
  let! response := write_bytes response ETH_SIZE (arp_bytes arp) in
  bytes_at response 0 (ETH_SIZE + ARP_SIZE).

Definition set_ip_checksum (c : Z) (h : ip_header) : ip_header :=
  mk_ip (version_ihl h) (tos h) (ip_len h) (ip_id h) (flags_offset h) (ttl h) (proto h) c (ip_src h) (ip_dest h).

Definition MAX_PAYLOAD : Z := 512 - ETH_SIZE - IP_SIZE - ICMP_SIZE.

(** [packet] and [at_icmp]: the buffer of the request and the place of its ICMP
    header, from which the payload is copied *)
Definition send_icmp_reply (mac : list Z) (req_eth : eth_header) (req_ip : ip_header) (req_icmp : icmp_header) (packet : list Z) (at_icmp payload_len : Z) :
    res (list Z) :=
  let payload_len := if payload_len <? 0 then 0 else if MAX_PAYLOAD <? payload_len then MAX_PAYLOAD else payload_len in
  let eth := mk_eth (eth_src req_eth) mac (hton16 0x0800) in
  let ip := mk_ip 0x45 0 (hton16 (IP_SIZE + ICMP_SIZE + payload_len)) (hton16 (ntoh16 (ip_id req_ip) + 1)) 0 64 1 0 (ip_dest req_ip) (ip_src req_ip) in
  let! c := net_checksum (ip_bytes ip) IP_SIZE in
  let ip := set_ip_checksum c ip in
  let! response := write_bytes (replicate 512 0) 0 (eth_bytes eth) in
  let! response := write_bytes response ETH_SIZE (ip_bytes ip) in
  let! response := write_bytes response (ETH_SIZE + IP_SIZE) (icmp_bytes (mk_icmp 0 0 0 (icmp_id req_icmp) (icmp_seq req_icmp))) in
  let! response :=
    if 0 <? payload_len then let! l := bytes_at packet (at_icmp + ICMP_SIZE) payload_len in write_bytes response (ETH_SIZE + IP_SIZE + ICMP_SIZE) l
    else Ok response in
  let! body := bytes_at response (ETH_SIZE + IP_SIZE) (ICMP_SIZE + payload_len) in
  let! c := net_checksum body (ICMP_SIZE + payload_len) in
  let! response := write_bytes response (ETH_SIZE + IP_SIZE + 2) (enc 2 c) in
  bytes_at response 0 (ETH_SIZE + IP_SIZE + ICMP_SIZE + payload_len).

(** ** The ARP cache *)

Definition ARP_CACHE_SIZE : nat := 4.
Record arp_entry := mk_entry { entry_ip : Z; entry_mac : list Z; entry_valid : bool }.

Definition arp_cache_init (g_arp_cache : list arp_entry) : list arp_entry :=
  map (fun e => mk_entry (entry_ip e) (entry_mac e) false) g_arp_cache.

(** the loop: [slot] is the slot found so far, negative for none *)
Fixpoint arp_slot (i slot : Z) (l : list arp_entry) (ip : Z) : Z :=
  match l with
  | [] => slot
  | e :: l =>
    if entry_valid e && (entry_ip e =? ip) then i
    else arp_slot (i + 1) (if negb (entry_valid e) && (slot <? 0) then i else slot) l ip
  end.

Definition arp_cache_update (ip : Z) (mac : list Z) (g_arp_cache : list arp_entry) : list arp_entry :=
  let slot := arp_slot 0 (-1) g_arp_cache ip in
  let slot := if slot <? 0 then 0 else slot in
  <[Z.to_nat slot := mk_entry ip mac true]> g_arp_cache.

Fixpoint arp_cache_lookup (ip : Z) (g_arp_cache : list arp_entry) : option (list Z) :=
  match g_arp_cache with
  | [] => None
  | e :: l => if entry_valid e && (entry_ip e =? ip) then Some (entry_mac e) else arp_cache_lookup ip l
  end.

(** ** The handler *)

Record packet_stats := mk_stats {
  arp_rx : Z; arp_replies : Z; icmp_echo_rx : Z; icmp_echo_reply : Z; rx_dropped_unknown_ether : Z; rx_dropped_unknown_proto : Z }.
Record net := mk_net { arp_cache : list arp_entry; stats : packet_stats }.

Definition inc_arp_rx s := mk_stats (u64 (arp_rx s + 1)) (arp_replies s) (icmp_echo_rx s) (icmp_echo_reply s) (rx_dropped_unknown_ether s) (rx_dropped_unknown_proto s).
Definition inc_arp_replies s := mk_stats (arp_rx s) (u64 (arp_replies s + 1)) (icmp_echo_rx s) (icmp_echo_reply s) (rx_dropped_unknown_ether s) (rx_dropped_unknown_proto s).
Definition inc_echo_rx s := mk_stats (arp_rx s) (arp_replies s) (u64 (icmp_echo_rx s + 1)) (icmp_echo_reply s) (rx_dropped_unknown_ether s) (rx_dropped_unknown_proto s).
Definition inc_echo_reply s := mk_stats (arp_rx s) (arp_replies s) (icmp_echo_rx s) (u64 (icmp_echo_reply s + 1)) (rx_dropped_unknown_ether s) (rx_dropped_unknown_proto s).
Definition inc_unknown_ether s := mk_stats (arp_rx s) (arp_replies s) (icmp_echo_rx s) (icmp_echo_reply s) (u64 (rx_dropped_unknown_ether s + 1)) (rx_dropped_unknown_proto s).
Definition inc_unknown_proto s := mk_stats (arp_rx s) (arp_replies s) (icmp_echo_rx s) (icmp_echo_reply s) (rx_dropped_unknown_ether s) (u64 (rx_dropped_unknown_proto s + 1)).

Definition count (f : packet_stats -> packet_stats) (n : net) : net := mk_net (arp_cache n) (f (stats n)).

(** the frames handed to [nic->tx], in order, and the new state *)
Definition e1000_handle_packet (mac packet : list Z) (len : Z) (n : net) : res (list (list Z) * net) :=
  if len <? ETH_SIZE then Ok ([], n)
  else
    let! eth := read_eth packet 0 in
    let type := ntoh16 (eth_type eth) in
    if type =? 0x0806 then
      let n := count inc_arp_rx n in
      let! arp := read_arp packet ETH_SIZE in
      let op := ntoh16 (opcode arp) in
      if (op =? 1) && (Z.land (arp_dest_ip arp) 0x00FFFFFF =? 0x0038A8C0) then
        let! f := send_arp_reply mac eth arp in Ok ([f], count inc_arp_replies n)
      else if op =? 2 then Ok ([], mk_net (arp_cache_update (arp_src_ip arp) (src_mac arp) (arp_cache n)) (stats n))
      else Ok ([], n)
    else if 0x0800 =? type then
      let! ip := read_ip packet ETH_SIZE in
      if proto ip =? 1 then
        let! icmp := read_icmp packet (ETH_SIZE + IP_SIZE) in
        if icmp_type icmp =? 8 then
          let n := count inc_echo_rx n in
          let ip_total_len := ntoh16 (ip_len ip) in
          let payload_len := i32 (u64 (ip_total_len - IP_SIZE - ICMP_SIZE)) in
          let! f := send_icmp_reply mac eth ip icmp packet (ETH_SIZE + IP_SIZE) payload_len in
          Ok ([f], count inc_echo_reply n)
        else Ok ([], n)
      else Ok ([], count inc_unknown_proto n)
    else Ok ([], count inc_unknown_ether n).

(** ** Requests of its own *)

(** 192.168.56.15 *)
Definition OUR_IP : Z := 0xC0A8380F.

Definition e1000_probe_gateway (mac : list Z) (gateway_ip : Z) : res (list Z) :=
  let! frame := write_bytes (replicate 64 0) 0 (replicate 6 255) in
  let! frame := write_bytes frame 6 mac in
  let! frame := write_bytes frame 12 [8; 6] in
  let arp := mk_arp (hton16 1) (hton16 0x0800) 6 4 (hton16 1) mac (hton32 OUR_IP) (replicate 6 0) (hton32 gateway_ip) in
  let! frame := write_bytes frame ETH_SIZE (arp_bytes arp) in
  bytes_at frame 0 (ETH_SIZE + ARP_SIZE).

(** the array of the string literal ["LaOS ping!"] *)
Definition ping_payload : list Z := [76; 97; 79; 83; 32; 112; 105; 110; 103; 33; 0].

(** the frame, or none without an entry in the cache *)
Definition e1000_ping_gateway (mac : list Z) (gateway_ip : Z) (n : net) : res (option (list Z)) :=
  match arp_cache_lookup (hton32 gateway_ip) (arp_cache n) with
  | None => Ok None
  | Some gw_mac =>
    let pay_len := 12 in
    let eth := mk_eth gw_mac mac (hton16 0x0800) in
    let ip := mk_ip 0x45 0 (hton16 (IP_SIZE + ICMP_SIZE + pay_len)) (hton16 1) 0 64 1 0 (hton32 OUR_IP) (hton32 gateway_ip) in
    let! c := net_checksum (ip_bytes ip) IP_SIZE in
    let! frame := write_bytes (replicate 256 0) 0 (eth_bytes eth) in
    let! frame := write_bytes frame ETH_SIZE (ip_bytes (set_ip_checksum c ip)) in
    let! frame := write_bytes frame (ETH_SIZE + IP_SIZE) (icmp_bytes (mk_icmp 8 0 0 (hton16 0x1234) (hton16 1))) in
    let! payload := bytes_at ping_payload 0 pay_len in
    let! frame := write_bytes frame (ETH_SIZE + IP_SIZE + ICMP_SIZE) payload in
    let! body := bytes_at frame (ETH_SIZE + IP_SIZE) (ICMP_SIZE + pay_len) in
    let! c := net_checksum body (ICMP_SIZE + pay_len) in
    let! frame := write_bytes frame (ETH_SIZE + IP_SIZE + 2) (enc 2 c) in
    let! frame := bytes_at frame 0 (ETH_SIZE + IP_SIZE + ICMP_SIZE + pay_len) in
    Ok (Some frame)
  end.

(** the test frame: 50 bytes of 0xAB from the driver's address to all stations *)
Definition e1000_send_test_broadcast (mac : list Z) : res (list Z) :=
  let! dummy := write_bytes (replicate 64 0) 0 (replicate 6 255) in
  let! dummy := write_bytes dummy 6 mac in
  let! dummy := write_bytes dummy 12 [8; 0] in
  let! dummy := write_bytes dummy 14 (replicate 50 171) in
  bytes_at dummy 0 64.
