(* ===== verification/ProtocolSpec.v ===== *)
(** * What the replies are

    The Internet checksum, the frames that answer a packet, byte by byte as they
    are on the wire, and the ARP cache. *)

From stdpp Require Import base list.
From S2P Require Import Prelude Bytes Protocol.

(** ** The checksum *)

(** the sum of the 16-bit words of a byte string *)
Fixpoint word_sum (l : list Z) : Z :=
  match l with
  | [] => 0
  | [a] => a
  | a :: b :: l => a + 256 * b + word_sum l
  end.

(** the ones' complement sum: the representative between 1 and 65535 *)
Definition ones_sum (s : Z) : Z := if s =? 0 then 0 else (s - 1) mod 65535 + 1.

Lemma pair_ind (P : list Z -> Prop) : P [] -> (forall a, P [a]) -> (forall a b l, P l -> P (a :: b :: l)) -> forall l, P l.
Proof.
  intros H0 H1 H2 l. assert (H : P l /\ forall a, P (a :: l)); [| exact (proj1 H)].
  induction l as [| b l [IH1 IH2]]; [by split; auto |]. split; [apply IH2 |]. intros a. by apply H2.
Qed.

Lemma word_sum_bound l : bytes l -> 0 <= word_sum l <= 65535 * ((zlen l + 1) / 2).
Proof.
  induction l as [| a | a b l IH] using pair_ind; intros HB; cbn [word_sum].
  - done.
  - inversion HB as [| ? ? Ha]; subst. unfold is_u8 in *. change ((zlen [a] + 1) / 2) with 1. lia.
  - inversion HB as [| ? ? Ha HB']; subst. inversion HB' as [| ? ? Hb HB'']; subst. specialize (IH HB''). unfold is_u8, zlen in *. simpl length.
    replace (Z.of_nat (S (S (length l))) + 1) with (Z.of_nat (length l) + 1 + 1 * 2) by lia. rewrite Z.div_add by lia. lia.
Qed.

Lemma word_sum_app l k : (zlen l) mod 2 = 0 -> word_sum (l ++ k) = word_sum l + word_sum k.
Proof.
  induction l as [| a | a b l IH] using pair_ind; intros HL; cbn [word_sum app]; [lia | done |].
  rewrite IH; [lia |]. unfold zlen in *. simpl length in HL. replace (Z.of_nat (S (S (length l)))) with (Z.of_nat (length l) + 1 * 2) in HL by lia.
  by rewrite Z_mod_plus_full in HL.
Qed.

Lemma slice_all l : slice l 0 (zlen l) = l.
Proof. unfold slice, zlen. rewrite Nat2Z.id, drop_0. by apply take_ge. Qed.

Lemma sum_words_ok fuel pre l sum : bytes l -> (length l <= 2 * fuel + 1)%nat -> 0 <= sum -> sum + word_sum l < 4294967296 ->
  sum_words fuel (pre ++ l) (zlen pre) (zlen l) sum = Ok (sum + word_sum l).
Proof.
  revert fuel pre sum. induction l as [| a | a b l IH] using pair_ind; intros fuel pre sum HB HF Hs Hw.
  - destruct fuel; cbn; by rewrite Z.add_0_r.
  - inversion HB as [| ? ? Ha]; subst. unfold is_u8 in Ha. cbn [word_sum] in *.
    destruct fuel; cbn [sum_words zlen length]; change (1 <? Z.of_nat 1) with false; change (0 <? Z.of_nat 1) with true; cbv iota;
      rewrite byte_at_app; cbn [res_bind]; by rewrite u32_small by (red; lia).
  - inversion HB as [| ? ? Ha HB']; subst. inversion HB' as [| ? ? Hb HB'']; subst. unfold is_u8 in Ha, Hb. cbn [word_sum] in *.
    pose proof (word_sum_bound l HB''). destruct fuel as [| fuel]; [simpl in HF; lia |]. cbn [sum_words].
    assert (EZ : zlen (a :: b :: l) = zlen l + 2) by (unfold zlen; simpl length; lia). pose proof (zlen_nonneg l).
    rewrite EZ, (proj2 (Z.ltb_lt _ _)) by lia. cbn [le]. rewrite byte_at_app. cbn [res_bind].
    replace (pre ++ a :: b :: l) with ((pre ++ [a]) ++ b :: l) by (by rewrite <- app_assoc).
    replace (zlen pre + 1) with (zlen (pre ++ [a])) by (rewrite zlen_app; done). rewrite byte_at_app. cbn [res_bind].
    replace ((pre ++ [a]) ++ b :: l) with ((pre ++ [a; b]) ++ l) by (by rewrite <- !app_assoc).
    replace (zlen pre + 2) with (zlen (pre ++ [a; b])) by (rewrite zlen_app; done). replace (zlen l + 2 - 2) with (zlen l) by lia.
    rewrite u32_small by (red; lia). rewrite IH; [f_equal; lia | done | simpl in HF; lia | lia | lia].
Qed.

Lemma fold_step s : 0 <= s < 4294967296 -> Z.land s 0xFFFF + Z.shiftr s 16 = s mod 65536 + s / 65536.
Proof. intros Hs. change 0xFFFF with (Z.ones 16). rewrite Z.land_ones, Z.shiftr_div_pow2 by lia. done. Qed.

Lemma ones_step s : 0 <= s -> ones_sum (s mod 65536 + s / 65536) = ones_sum s.
Proof.
  intros Hs. unfold ones_sum. destruct (Z.eqb_spec s 0) as [-> | Hn]; [done |].
  assert (HP : 0 < s mod 65536 + s / 65536) by (Z.div_mod_to_equations; lia). rewrite (proj2 (Z.eqb_neq _ _)) by lia. f_equal.
  replace (s - 1) with (s mod 65536 + s / 65536 - 1 + (s / 65536) * 65535) by (Z.div_mod_to_equations; lia).
  by rewrite Z_mod_plus_full.
Qed.

Lemma ones_small s : 0 <= s < 65536 -> ones_sum s = s.
Proof. intros Hs. unfold ones_sum. destruct (Z.eqb_spec s 0); [done |]. rewrite Z.mod_small by lia. lia. Qed.

Lemma shiftr_small s : 0 <= s -> (Z.shiftr s 16 =? 0) = (s <? 65536).
Proof.
  intros Hs. rewrite Z.shiftr_div_pow2 by lia. change (2 ^ 16) with 65536. destruct (Z.ltb_spec s 65536).
  - by rewrite Z.div_small by lia.
  - apply Z.eqb_neq. Z.div_mod_to_equations. lia.
Qed.

Lemma fold_sum_ok s : 0 <= s < 4294967296 -> fold_sum 2 s = Ok (ones_sum s).
Proof.
  intros Hs. cbn [fold_sum]. rewrite shiftr_small by lia. destruct (Z.ltb_spec s 65536); [by rewrite ones_small by lia |].
  rewrite fold_step by lia. rewrite u32_small by (red; Z.div_mod_to_equations; lia). set (s1 := s mod 65536 + s / 65536).
  assert (H1 : 0 <= s1 <= 131070) by (unfold s1; Z.div_mod_to_equations; lia).
  rewrite shiftr_small by lia. rewrite <- (ones_step s) by lia. fold s1. destruct (Z.ltb_spec s1 65536); [by rewrite ones_small by lia |].
  rewrite fold_step by lia. rewrite u32_small by (red; Z.div_mod_to_equations; lia). set (s2 := s1 mod 65536 + s1 / 65536).
  assert (H2 : 0 <= s2 < 65536) by (unfold s2; Z.div_mod_to_equations; lia).
  rewrite shiftr_small, (proj2 (Z.ltb_lt _ _)) by lia. rewrite <- (ones_step s1) by lia. fold s2. by rewrite ones_small by lia.
Qed.

Lemma ones_sum_range s : 0 <= s -> 0 <= ones_sum s <= 65535.
Proof. intros Hs. unfold ones_sum. destruct (s =? 0); [lia |]. pose proof (Z.mod_pos_bound (s - 1) 65535). lia. Qed.

(** the checksum is the complement of the ones' complement sum *)
Lemma net_checksum_ok l : bytes l -> zlen l <= 131070 -> net_checksum l (zlen l) = Ok (65535 - ones_sum (word_sum l)).
Proof.
  intros HB HL. unfold net_checksum. pose proof (word_sum_bound l HB) as HS. pose proof (zlen_nonneg l).
  assert (word_sum l < 4294967296) by (assert ((zlen l + 1) / 2 <= 65535) by (Z.div_mod_to_equations; lia); lia).
  pose proof (sum_words_ok (Z.to_nat (zlen l)) [] l 0 HB) as E. cbn [app] in E. change (zlen []) with 0 in E. rewrite E by (unfold zlen; lia). cbn [res_bind].
  rewrite Z.add_0_l, fold_sum_ok by lia. cbn [res_bind]. f_equal. pose proof (ones_sum_range (word_sum l) ltac:(lia)).
  unfold u16. rewrite (Z.mod_small (ones_sum _)) by lia. unfold Z.lnot. rewrite <- (Z_mod_plus_full _ 1), Z.mod_small by lia. lia.
Qed.

(** a string whose words sum to [s] and that contains its own checksum verifies *)
Lemma checksum_verifies s : 0 <= s -> ones_sum (s + (65535 - ones_sum s)) = 65535.
Proof.
  intros Hs. unfold ones_sum at 2. destruct (Z.eqb_spec s 0) as [-> | Hn]; [done |]. unfold ones_sum.
  assert (HM : 0 <= (s - 1) mod 65535 < 65535) by (apply Z.mod_pos_bound; lia). rewrite (proj2 (Z.eqb_neq _ _)) by (pose proof (Z.mod_le (s - 1) 65535); lia).
  replace (s + (65535 - ((s - 1) mod 65535 + 1)) - 1) with (65534 + ((s - 1) / 65535) * 65535) by (pose proof (Z.div_mod (s - 1) 65535); lia).
  by rewrite Z_mod_plus_full.
Qed.

(** ** Fields *)

Definition byte (l : list Z) (i : Z) : Z := nth (Z.to_nat i) l 0.
(** the number in network order at [i], and the two bytes of a number *)
Definition be16 (l : list Z) (i : Z) : Z := 256 * byte l i + byte l (i + 1).
Definition big (x : Z) : list Z := [(x / 256) mod 256; x mod 256].


Lemma byte_range l i : bytes l -> 0 <= byte l i < 256.
Proof.
  intros HB. unfold byte. destruct (nth_in_or_default (Z.to_nat i) l 0) as [H | ->]; [| lia].
  apply list_elem_of_In in H. unfold bytes in HB. rewrite Forall_forall in HB. by apply HB.
Qed.

Lemma byte_at_byte l i : 0 <= i < zlen l -> byte_at l i = Ok (byte l i).
Proof.
  intros Hi. destruct (byte_at_inside l i) as (b & Hb & ->); [red; unfold zlen in *; lia |]. unfold byte. by rewrite nth_lookup, Hb.
Qed.

Lemma enc_slice n l i : bytes l -> inside l i (Z.of_nat n) -> exists v, le n l i = Ok v /\ enc n v = slice l i (Z.of_nat n).
Proof.
  intros HB. revert i. induction n as [| n IH]; intros i HI; [by exists 0 |]. destruct HI as (H1 & _ & H2). cbn [le].
  rewrite byte_at_byte by (unfold zlen; lia). destruct (IH (i + 1)) as (v & -> & Hv); [red; lia |]. cbn [res_bind]. eexists. split; [done |].
  pose proof (byte_range l i HB). cbn [enc]. replace ((byte l i + 256 * v) mod 256) with (byte l i) by (rewrite Z.mul_comm, Z_mod_plus_full, Z.mod_small; lia).
  replace ((byte l i + 256 * v) / 256) with v by (rewrite Z.mul_comm, Z.div_add by lia; rewrite Z.div_small by lia; lia). rewrite Hv.
  unfold slice. replace (Z.to_nat (Z.of_nat (S n))) with (S n) by lia. rewrite Nat2Z.id. replace (Z.to_nat (i + 1)) with (S (Z.to_nat i)) by lia.
  destruct (lookup_lt_is_Some_2 l (Z.to_nat i)) as [b Hb]; [lia |]. rewrite (drop_S l b (Z.to_nat i) Hb). cbn [take]. f_equal. unfold byte. by rewrite nth_lookup, Hb.
Qed.

Lemma le2_bytes l i : 0 <= i -> i + 2 <= zlen l -> le 2 l i = Ok (byte l i + 256 * byte l (i + 1)).
Proof. intros H0 H1. cbn [le]. rewrite !byte_at_byte by lia. cbn [res_bind]. f_equal. lia. Qed.

Lemma le1_byte l i : 0 <= i < zlen l -> le 1 l i = Ok (byte l i).
Proof. intros H0. cbn [le]. rewrite !byte_at_byte by lia. cbn [res_bind]. f_equal. lia. Qed.

Lemma swap16_value x : swap16 x = 256 * (x mod 256) + (x / 256) mod 256.
Proof.
  unfold swap16. change 0xff with (Z.ones 8). rewrite !Z.land_ones, Z.shiftr_div_pow2 by lia. change (2 ^ 8) with 256.
  set (a := (x / 256) mod 256). set (b := x mod 256). assert (0 <= a < 256) by (apply Z.mod_pos_bound; lia). assert (0 <= b < 256) by (apply Z.mod_pos_bound; lia).
  assert (E : Z.lor a (Z.shiftl b 8) = a + Z.shiftl b 8).
  { symmetry. rewrite <- Z.lxor_lor; [apply Z.add_nocarry_lxor |]; apply Z.bits_inj'; intros k Hk; rewrite Z.land_spec, Z.bits_0;
    (destruct (Z.ltb_spec k 8); [rewrite Z.shiftl_spec_low by lia; apply andb_false_r |]);
    rewrite (Z.bits_above_log2 a), andb_false_l; [done | lia | | done | lia |];
    (destruct (Z.eq_dec a 0) as [-> | ?]; [cbn; lia |]; apply Z.log2_lt_pow2; [lia |];
     apply Z.lt_le_trans with 256; [lia |]; change 256 with (2 ^ 8); apply Z.pow_le_mono_r; lia). }
  rewrite E, Z.shiftl_mul_pow2 by lia. change (2 ^ 8) with 256. unfold u16. rewrite Z.mod_small by lia. lia.
Qed.

Lemma enc_swap x : enc 2 (swap16 x) = big x.
Proof.
  rewrite swap16_value. cbn [enc]. unfold big. assert (0 <= (x / 256) mod 256 < 256) by (apply Z.mod_pos_bound; lia).
  assert (0 <= x mod 256 < 256) by (apply Z.mod_pos_bound; lia). f_equal; [| f_equal].
  - by rewrite Z.add_comm, Z.mul_comm, Z_mod_plus_full, Z.mod_small.
  - rewrite Z.add_comm, Z.mul_comm, Z.div_add by lia. rewrite Z.div_small, Z.add_0_l by lia. by apply Z.mod_small.
Qed.

Lemma swap16_field l i : bytes l -> swap16 (byte l i + 256 * byte l (i + 1)) = be16 l i.
Proof.
  intros HB. pose proof (byte_range l i HB). pose proof (byte_range l (i + 1) HB). rewrite swap16_value. unfold be16.
  rewrite (Z.mul_comm 256 (byte l (i + 1))), Z_mod_plus_full, Z.div_add, (Z.div_small (byte l i)), Z.add_0_l, !Z.mod_small by lia. done.
Qed.

(** ** Frames in their buffers *)

Lemma write_middle pre old post l i : zlen pre = i -> zlen old = zlen l -> write_bytes (pre ++ old ++ post) i l = Ok (pre ++ l ++ post).
Proof.
  intros <- HL. unfold write_bytes. rewrite !zlen_app. pose proof (zlen_nonneg pre). pose proof (zlen_nonneg post). pose proof (zlen_nonneg l).
  rewrite !(proj2 (Z.leb_le _ _)) by lia. cbn [andb]. f_equal. unfold zlen in *. rewrite Nat2Z.id, take_app_length. do 2 f_equal.
  rewrite app_assoc. apply drop_app_length'. rewrite length_app. lia.
Qed.

Lemma write_zeros pre n l i : zlen pre = i -> (length l <= n)%nat -> write_bytes (pre ++ replicate n 0) i l = Ok ((pre ++ l) ++ replicate (n - length l) 0).
Proof.
  intros HI HL. replace n with (length l + (n - length l))%nat at 1 by lia. rewrite replicate_add, write_middle, <- app_assoc; [done | done |].
  unfold zlen. by rewrite length_replicate.
Qed.

Lemma frame_bytes l n k : zlen l = k -> bytes_at (l ++ replicate n 0) 0 k = Ok l.
Proof.
  intros <-. rewrite bytes_at_inside; [| red; rewrite length_app; unfold zlen; lia]. f_equal. unfold slice, zlen. rewrite Nat2Z.id, drop_0. apply take_app_length.
Qed.

(** ** Reading a packet *)

Ltac in_packet := red; unfold zlen in *; lia.

Lemma read_eth_ok p : bytes p -> 14 <= zlen p -> exists h, read_eth p 0 = Ok h /\ eth_src h = slice p 6 6 /\ swap16 (eth_type h) = be16 p 12.
Proof.
  intros HB HL. unfold read_eth. rewrite !bytes_at_inside by in_packet. cbn [res_bind]. rewrite le2_bytes by lia. cbn [res_bind].
  eexists. split; [done |]. split; [done |]. by apply (swap16_field p 12).
Qed.

Lemma subnet_test a b c d : 0 <= a < 256 -> 0 <= b < 256 -> 0 <= c < 256 ->
  (Z.land (a + 256 * (b + 256 * (c + 256 * d))) 0x00FFFFFF =? 0x0038A8C0) = (a =? 192) && (b =? 168) && (c =? 56).
Proof.
  intros Ha Hb Hc. change 0x00FFFFFF with (Z.ones 24). rewrite Z.land_ones by lia. change (2 ^ 24) with 16777216.
  replace (a + 256 * (b + 256 * (c + 256 * d))) with (a + 256 * b + 65536 * c + d * 16777216) by lia. rewrite Z_mod_plus_full, Z.mod_small by lia. lia.
Qed.

(** the four bytes of an address as the code holds them *)
Definition ip_at (l : list Z) (i : Z) : Z := byte l i + 256 * (byte l (i + 1) + 256 * (byte l (i + 2) + 256 * byte l (i + 3))).

Lemma le4_ip l i : 0 <= i -> i + 4 <= zlen l -> le 4 l i = Ok (ip_at l i).
Proof.
  intros H0 H1. cbn [le]. replace (i + 1 + 1) with (i + 2) by lia. replace (i + 2 + 1) with (i + 3) by lia. rewrite !byte_at_byte by lia. cbn [res_bind].
  unfold ip_at. f_equal. lia.
Qed.

Lemma enc_ip l i : bytes l -> 0 <= i -> i + 4 <= zlen l -> enc 4 (ip_at l i) = slice l i 4.
Proof. intros HB H0 H1. destruct (enc_slice 4 l i) as (v & E & Hv); [done | in_packet |]. rewrite le4_ip in E by lia. injection E as <-. exact Hv. Qed.

Lemma read_arp_ok p : bytes p -> 42 <= zlen p -> exists a, read_arp p 14 = Ok a /\ swap16 (opcode a) = be16 p 20 /\ src_mac a = slice p 22 6 /\
  arp_src_ip a = ip_at p 28 /\ arp_dest_ip a = ip_at p 38.
Proof.
  intros HB HL. unfold read_arp. rewrite !bytes_at_inside by in_packet. rewrite !le2_bytes, !le1_byte, !le4_ip by lia. cbn [res_bind].
  eexists. split; [done |]. split; [by apply (swap16_field p 20) |]. done.
Qed.

Lemma read_ip_ok p : bytes p -> 34 <= zlen p -> exists h, read_ip p 14 = Ok h /\ swap16 (ip_len h) = be16 p 16 /\ swap16 (ip_id h) = be16 p 18 /\
  proto h = byte p 23 /\ ip_src h = ip_at p 26 /\ ip_dest h = ip_at p 30.
Proof.
  intros HB HL. unfold read_ip. rewrite !le2_bytes, !le1_byte, !le4_ip by lia. cbn [res_bind].
  eexists. split; [done |]. split; [by apply (swap16_field p 16) |]. split; [by apply (swap16_field p 18) |]. done.
Qed.

Lemma read_icmp_ok p : bytes p -> 42 <= zlen p -> exists h, read_icmp p 34 = Ok h /\ icmp_type h = byte p 34 /\ enc 2 (icmp_id h) ++ enc 2 (icmp_seq h) = slice p 38 4.
Proof.
  intros HB HL. unfold read_icmp. rewrite !le1_byte by lia. rewrite (le2_bytes p (34 + 2)) by lia. cbn [res_bind].
  destruct (enc_slice 2 p 38) as (a & E1 & Ha); [done | in_packet |]. destruct (enc_slice 2 p 40) as (b & E2 & Hb); [done | in_packet |].
  change (34 + 4) with 38. change (34 + 6) with 40. rewrite E1, E2. cbn [res_bind]. eexists. split; [done |]. split; [done |]. cbn [icmp_id icmp_seq]. rewrite Ha, Hb.
  unfold slice. change (Z.to_nat (Z.of_nat 2)) with 2%nat. change (Z.to_nat 4) with (2 + 2)%nat. rewrite <- take_take_drop. f_equal. by rewrite drop_drop.
Qed.

(** ** The ARP reply *)

Definition arp_answer (mac p : list Z) : list Z :=
  slice p 6 6 ++ mac ++ [8; 6] ++ [0; 1; 8; 0; 6; 4; 0; 2] ++ mac ++ slice p 38 4 ++ slice p 22 6 ++ slice p 28 4.

Lemma slice_zlen p i n : 0 <= i -> 0 <= n -> i + n <= zlen p -> zlen (slice p i n) = n.
Proof. intros H0 H1 H2. apply slice_length. in_packet. Qed.

Lemma send_arp_reply_ok mac p h a : bytes p -> 42 <= zlen p -> zlen mac = 6 ->
  eth_src h = slice p 6 6 -> src_mac a = slice p 22 6 -> arp_src_ip a = ip_at p 28 -> arp_dest_ip a = ip_at p 38 ->
  send_arp_reply mac h a = Ok (arp_answer mac p).
Proof.
  intros HB HL HM Hh Hm Hs Hd. unfold send_arp_reply. set (e := eth_bytes _). set (b := arp_bytes _).
  assert (Ee : e = slice p 6 6 ++ mac ++ [8; 6]) by (unfold e, eth_bytes; cbn [eth_dest eth_src eth_type]; by rewrite Hh).
  assert (Eb : b = [0; 1; 8; 0; 6; 4; 0; 2] ++ mac ++ slice p 38 4 ++ slice p 22 6 ++ slice p 28 4).
  { unfold b, arp_bytes. cbn [hw_type proto_type hw_addr_len proto_addr_len opcode src_mac arp_src_ip dest_mac arp_dest_ip]. rewrite Hs, Hd, Hm, !enc_ip by (done || lia). done. }
  assert (Le : zlen e = 14) by (rewrite Ee, !zlen_app, HM, slice_zlen by lia; done).
  assert (Lb : zlen b = 28) by (rewrite Eb, !zlen_app, HM, !slice_zlen by lia; done).
  change (replicate 256 0) with ([] ++ replicate 256 0). rewrite write_zeros by (done || unfold zlen in *; lia). cbn [res_bind].
  rewrite write_zeros by (done || unfold zlen in *; lia). cbn [res_bind]. rewrite frame_bytes by (rewrite !zlen_app, Le, Lb; done).
  cbn [app]. rewrite Ee, Eb. unfold arp_answer. by rewrite <- !app_assoc.
Qed.

(** ** The echo reply *)

Definition echo_length (p : list Z) : Z := Z.max 0 (Z.min 470 (be16 p 16 - 28)).

Definition echo_ip (p : list Z) (c : Z) : list Z :=
  ([69; 0] ++ big (28 + echo_length p) ++ big (be16 p 18 + 1) ++ [0; 0; 64; 1]) ++ enc 2 c ++ slice p 30 4 ++ slice p 26 4.
Definition echo_icmp (p : list Z) (c : Z) : list Z := [0; 0] ++ enc 2 c ++ slice p 38 4 ++ slice p 42 (echo_length p).

(** addresses exchanged, the payload returned, and two checksums that verify *)
Definition echo_answer (mac p f : list Z) : Prop :=
  exists c1 c2, f = slice p 6 6 ++ mac ++ [8; 0] ++ echo_ip p c1 ++ echo_icmp p c2 /\
    ones_sum (word_sum (echo_ip p c1)) = 65535 /\ ones_sum (word_sum (echo_icmp p c2)) = 65535.

(** the checksum of a string, put in its place, makes the string verify *)
Lemma own_checksum A B : bytes A -> bytes B -> zlen A mod 2 = 0 -> zlen A + 2 + zlen B <= 131070 ->
  exists c, net_checksum (A ++ enc 2 0 ++ B) (zlen (A ++ enc 2 0 ++ B)) = Ok c /\ ones_sum (word_sum (A ++ enc 2 c ++ B)) = 65535.
Proof.
  intros HA HB HE HL. assert (HW : forall c, 0 <= c < 65536 -> word_sum (A ++ enc 2 c ++ B) = word_sum A + word_sum B + c).
  { intros c Hc. rewrite !word_sum_app by done. cbn [enc word_sum]. Z.div_mod_to_equations. lia. }
  pose proof (word_sum_bound A HA). pose proof (word_sum_bound B HB). rewrite net_checksum_ok, HW.
  - eexists. split; [done |]. rewrite Z.add_0_r. pose proof (ones_sum_range (word_sum A + word_sum B) ltac:(lia)). rewrite HW by lia. apply checksum_verifies. lia.
  - lia.
  - repeat apply Forall_app_2; [done | apply enc_bytes | done].
  - rewrite !zlen_app. change (zlen (enc 2 0)) with 2. lia.
Qed.

Lemma slice_bytes p i n : bytes p -> bytes (slice p i n).
Proof. intros HB. unfold slice. by apply Forall_take, Forall_drop. Qed.

Lemma big_bytes x : bytes (big x).
Proof. unfold big. repeat constructor; apply Z.mod_pos_bound; lia. Qed.

Lemma be16_range p i : bytes p -> 0 <= be16 p i < 65536.
Proof. intros HB. pose proof (byte_range p i HB). pose proof (byte_range p (i + 1) HB). unfold be16. lia. Qed.

Lemma clamp_payload p : (let n := be16 p 16 - 28 in if n <? 0 then 0 else if MAX_PAYLOAD <? n then MAX_PAYLOAD else n) = echo_length p.
Proof. unfold echo_length. change MAX_PAYLOAD with 470. cbv zeta. zbool; lia. Qed.

Lemma echo_length_range p : 0 <= echo_length p <= 470.
Proof. unfold echo_length. lia. Qed.

Lemma echo_ip_length p c : 34 <= zlen p -> zlen (echo_ip p c) = 20.
Proof. intros HL. unfold echo_ip. rewrite !zlen_app, !slice_zlen by lia. unfold zlen. by rewrite enc_length. Qed.

Lemma echo_icmp_length p c : 512 <= zlen p -> zlen (echo_icmp p c) = 8 + echo_length p.
Proof. intros HL. pose proof (echo_length_range p). unfold echo_icmp. rewrite !zlen_app, !slice_zlen by lia. unfold zlen. rewrite enc_length. cbn. lia. Qed.

Lemma echo_ip_checksum p : bytes p -> 34 <= zlen p -> exists c, net_checksum (echo_ip p 0) 20 = Ok c /\ ones_sum (word_sum (echo_ip p c)) = 65535.
Proof.
  intros HB HL. rewrite <- (echo_ip_length p 0 HL). apply own_checksum; [| apply Forall_app_2; by apply slice_bytes | done | rewrite !zlen_app, !slice_zlen by lia; unfold zlen, big; simpl length; lia].
  repeat apply Forall_app_2; try apply big_bytes; apply bytes_check; reflexivity.
Qed.

Lemma echo_icmp_checksum p : bytes p -> 512 <= zlen p ->
  exists c, net_checksum (echo_icmp p 0) (8 + echo_length p) = Ok c /\ ones_sum (word_sum (echo_icmp p c)) = 65535.
Proof.
  intros HB HL. pose proof (echo_length_range p). rewrite <- (echo_icmp_length p 0 HL).
  apply own_checksum; [by apply bytes_check | apply Forall_app_2; by apply slice_bytes | done | rewrite !zlen_app, !slice_zlen by lia; unfold zlen, big; simpl length; lia].
Qed.

Lemma copy_payload p r z k : 512 <= zlen p -> zlen r = 42 -> 0 <= k <= 470 -> (470 <= z)%nat ->
  (if 0 <? k then let! l := bytes_at p (34 + ICMP_SIZE) k in write_bytes (r ++ replicate z 0) (ETH_SIZE + IP_SIZE + ICMP_SIZE) l else Ok (r ++ replicate z 0)) =
  Ok ((r ++ slice p 42 k) ++ replicate (z - Z.to_nat k) 0).
Proof.
  intros HL HR Hk Hz. change (34 + ICMP_SIZE) with 42. pose proof (slice_zlen p 42 k ltac:(lia) ltac:(lia) ltac:(lia)) as HS. destruct (Z.ltb_spec 0 k).
  - rewrite bytes_at_inside by in_packet. cbn [res_bind]. rewrite write_zeros by (done || unfold zlen in *; lia). do 3 f_equal. unfold zlen in HS. lia.
  - replace k with 0 by lia. unfold slice. cbn [Z.to_nat take]. by rewrite app_nil_r, Nat.sub_0_r.
Qed.

Lemma patch_icmp A p c z : zlen A = 34 -> write_bytes (A ++ echo_icmp p 0 ++ replicate z 0) 36 (enc 2 c) = Ok (A ++ echo_icmp p c ++ replicate z 0).
Proof.
  intros HA. unfold echo_icmp. rewrite <- !app_assoc, !(app_assoc A [0; 0]). rewrite write_middle; [done | by rewrite zlen_app, HA |]. unfold zlen. by rewrite !enc_length.
Qed.

Lemma send_icmp_reply_ok mac p h ip ic : bytes p -> 512 <= zlen p -> zlen mac = 6 ->
  eth_src h = slice p 6 6 -> swap16 (ip_id ip) = be16 p 18 -> ip_src ip = ip_at p 26 -> ip_dest ip = ip_at p 30 ->
  enc 2 (icmp_id ic) ++ enc 2 (icmp_seq ic) = slice p 38 4 ->
  exists f, send_icmp_reply mac h ip ic p 34 (be16 p 16 - 28) = Ok f /\ echo_answer mac p f.
Proof.
  intros HB HL HM Hh Hid Hs Hd Hic. unfold send_icmp_reply. rewrite clamp_payload. pose proof (echo_length_range p) as Hk. set (k := echo_length p) in *. set (i0 := mk_ip 69 _ _ _ _ _ _ _ _ _).
  assert (Ei : forall c, ip_bytes (set_ip_checksum c i0) = echo_ip p c).
  { intros c. unfold i0, ip_bytes, set_ip_checksum. cbn [version_ihl tos ip_len ip_id flags_offset ttl proto ip_checksum ip_src ip_dest].
    rewrite Hid, !enc_swap, Hs, Hd, !enc_ip by (done || lia). unfold echo_ip. by rewrite <- !app_assoc. }
  destruct (echo_ip_checksum p HB ltac:(lia)) as (c1 & E1 & V1). change (ip_bytes i0) with (ip_bytes (set_ip_checksum 0 i0)).
  rewrite Ei. change IP_SIZE with 20 at 1. rewrite E1. cbn [res_bind]. rewrite Ei.
  set (e := eth_bytes _). assert (Ee : e = slice p 6 6 ++ mac ++ [8; 0]) by (unfold e, eth_bytes; cbn [eth_dest eth_src eth_type]; by rewrite Hh).
  assert (Le : zlen e = 14) by (rewrite Ee, !zlen_app, HM, slice_zlen by lia; done). pose proof (echo_ip_length p c1 ltac:(lia)) as Li.
  set (b := icmp_bytes _). assert (Eb : b = [0; 0; 0; 0] ++ slice p 38 4) by (unfold b, icmp_bytes; cbn [icmp_type icmp_code icmp_checksum icmp_id icmp_seq]; by rewrite <- Hic).
  assert (Lb : zlen b = 8) by (rewrite Eb, zlen_app, slice_zlen by lia; done).
  change (replicate 512 0) with ([] ++ replicate 512 0). rewrite write_zeros by (done || unfold zlen in *; lia). cbn [res_bind app].
  rewrite write_zeros by (done || unfold zlen in *; lia). cbn [res_bind].
  rewrite write_zeros; [| by rewrite zlen_app, Le, Li | unfold zlen in *; lia]. cbn [res_bind].
  rewrite copy_payload; [| done | by rewrite !zlen_app, Le, Li, Lb | done | unfold zlen in *; lia]. cbn [res_bind]. set (z := (_ - Z.to_nat k)%nat).
  replace (((e ++ echo_ip p c1) ++ b) ++ slice p 42 k) with ((e ++ echo_ip p c1) ++ echo_icmp p 0) by (rewrite Eb; unfold echo_icmp; by rewrite <- !app_assoc).
  pose proof (echo_icmp_length p 0 HL) as L0. assert (LA : zlen (e ++ echo_ip p c1) = 34) by (by rewrite zlen_app, Le, Li).
  rewrite bytes_at_inside; [| red; rewrite !length_app; unfold zlen in *; change ETH_SIZE with 14; change IP_SIZE with 20; change ICMP_SIZE with 8; lia]. cbn [res_bind].
  rewrite <- app_assoc. rewrite (slice_app _ _ _ (e ++ echo_ip p c1) (echo_icmp p 0) (replicate z 0)) by (done || (rewrite LA, ?L0; done)).
  destruct (echo_icmp_checksum p HB HL) as (c2 & E2 & V2). change ICMP_SIZE with 8 at 1. fold k in E2. rewrite E2. cbn [res_bind].
  change (ETH_SIZE + IP_SIZE + 2) with 36. rewrite patch_icmp by done. cbn [res_bind]. rewrite app_assoc, frame_bytes.
  - eexists. split; [done |]. exists c1, c2. split; [by rewrite Ee, <- !app_assoc | done].
  - rewrite zlen_app, LA, echo_icmp_length by done. fold k. change (ETH_SIZE + IP_SIZE + ICMP_SIZE) with 42. lia.
Qed.

(** ** The ARP cache *)

(** the cache holds one entry for an address at most *)
Definition cache_ok (c : list arp_entry) : Prop :=
  length c = ARP_CACHE_SIZE /\ forall i j e e', c !! i = Some e -> c !! j = Some e' -> entry_valid e = true -> entry_valid e' = true -> entry_ip e = entry_ip e' -> i = j.

Definition known (ip : Z) (e : arp_entry) : bool := entry_valid e && (entry_ip e =? ip).

(** the slot of the address, or the free slot found first, or none *)
Lemma arp_slot_ok l ip i slot : slot < i -> 0 <= i ->
  (exists j e, l !! j = Some e /\ known ip e = true /\ arp_slot i slot l ip = i + Z.of_nat j) \/
  (forall e, e ∈ l -> known ip e = false) /\
    (arp_slot i slot l ip = slot /\ (slot < 0 -> forall e, e ∈ l -> entry_valid e = true) \/
     slot < 0 /\ exists j e, l !! j = Some e /\ entry_valid e = false /\ arp_slot i slot l ip = i + Z.of_nat j).
Proof.
  revert i slot. induction l as [| e l IH]; intros i slot Hs Hi.
  - right. split; [by intros e He%elem_of_nil |]. left. split; [done |]. by intros _ e He%elem_of_nil.
  - cbn [arp_slot]. fold (known ip e). destruct (known ip e) eqn:EK; [left; exists 0%nat, e; split_and!; [done | done | lia] |].
    destruct (entry_valid e) eqn:EV; cbn [negb andb].
    + destruct (IH (i + 1) slot ltac:(lia) ltac:(lia)) as [(j & e' & H1 & H2 & ->) | [HN HR]]; [left; exists (S j), e'; split_and!; [done | done | lia] |].
      right. split; [by intros e' [-> | He]%elem_of_cons; auto |]. destruct HR as [[-> HF] | (H0 & j & e' & H1 & H2 & ->)].
      * left. split; [done |]. intros H0 e' [-> | He]%elem_of_cons; auto.
      * right. split; [done |]. exists (S j), e'. split_and!; [done | done | lia].
    + destruct (Z.ltb_spec slot 0) as [Hs0 | Hs0].
      * destruct (IH (i + 1) i ltac:(lia) ltac:(lia)) as [(j & e' & H1 & H2 & ->) | [HN HR]]; [left; exists (S j), e'; split_and!; [done | done | lia] |].
        right. split; [by intros e' [-> | He]%elem_of_cons; auto |]. right. split; [done |]. destruct HR as [[-> _] | (H0 & _)]; [| lia].
        exists 0%nat, e. split_and!; [done | done | lia].
      * destruct (IH (i + 1) slot ltac:(lia) ltac:(lia)) as [(j & e' & H1 & H2 & ->) | [HN HR]]; [left; exists (S j), e'; split_and!; [done | done | lia] |].
        right. split; [by intros e' [-> | He]%elem_of_cons; auto |]. destruct HR as [[-> _] | (H0 & _)]; [| lia]. left. split; [done | lia].
Qed.

Lemma lookup_known ip c : match arp_cache_lookup ip c with
  | Some m => exists i e, c !! i = Some e /\ known ip e = true /\ m = entry_mac e
  | None => forall e, e ∈ c -> known ip e = false
  end.
Proof.
  induction c as [| e c IH]; cbn [arp_cache_lookup]; [by intros e He%elem_of_nil |]. fold (known ip e). destruct (known ip e) eqn:EK; [by exists 0%nat, e |].
  destruct (arp_cache_lookup ip c); [destruct IH as (i & e' & H); by exists (S i), e' |]. intros e' [-> | He]%elem_of_cons; auto.
Qed.

Lemma lookup_found ip c i e : cache_ok c -> c !! i = Some e -> known ip e = true -> arp_cache_lookup ip c = Some (entry_mac e).
Proof.
  intros [_ HU] Hi HK. pose proof (lookup_known ip c) as H. destruct (arp_cache_lookup ip c) as [m |].
  - destruct H as (j & e' & Hj & HK' & ->). apply andb_prop in HK as [HV HI], HK' as [HV' HI']. apply Z.eqb_eq in HI, HI'.
    assert (i = j) as -> by (eapply HU; eauto; congruence). congruence.
  - rewrite (H e) in HK; [done |]. by eapply list_elem_of_lookup_2.
Qed.

(** an address not in the cache is put in the first free slot, or in slot 0 *)
Lemma update_slot ip mac c : length c = ARP_CACHE_SIZE -> exists i e, (i < length c)%nat /\ c !! i = Some e /\
  arp_cache_update ip mac c = <[i := mk_entry ip mac true]> c /\
  (known ip e = true \/ (forall e', e' ∈ c -> known ip e' = false) /\ (entry_valid e = false \/ i = 0%nat /\ forall e', e' ∈ c -> entry_valid e' = true)).
Proof.
  intros HL. unfold arp_cache_update, ARP_CACHE_SIZE in *. destruct (arp_slot_ok c ip 0 (-1)) as [(j & e & Hj & HK & ->) | [HN [[-> HF] | (_ & j & e & Hj & HV & ->)]]]; [lia | lia | | |].
  - pose proof (lookup_lt_Some _ _ _ Hj). rewrite (proj2 (Z.ltb_ge _ 0)) by lia. exists j, e. rewrite Z.add_0_l, Nat2Z.id. auto.
  - destruct (lookup_lt_is_Some_2 c 0) as [e He]; [lia |]. exists 0%nat, e. split_and!; [lia | done | done |]. right. split; [done |]. right. split; [done |]. apply HF. lia.
  - pose proof (lookup_lt_Some _ _ _ Hj). rewrite (proj2 (Z.ltb_ge _ 0)) by lia. exists j, e. rewrite Z.add_0_l, Nat2Z.id. split_and!; [done | done | done |]. right. split; [done | by left].
Qed.

Lemma known_true ip e : known ip e = true <-> entry_valid e = true /\ entry_ip e = ip.
Proof. unfold known. rewrite andb_true_iff, Z.eqb_eq. done. Qed.

Lemma known_once ip c i j e e' : cache_ok c -> c !! i = Some e -> c !! j = Some e' -> known ip e = true -> known ip e' = true -> i = j.
Proof. intros [_ HU] Hi Hj [V1 I1]%known_true [V2 I2]%known_true. eapply HU; eauto. congruence. Qed.

Lemma insert_ok ip mac c i : cache_ok c -> (forall j e, j <> i -> c !! j = Some e -> known ip e = false) -> cache_ok (<[i := mk_entry ip mac true]> c).
Proof.
  intros [HL HU] HO. split; [by rewrite length_insert |].
  assert (HX : forall a ea, a <> i -> c !! a = Some ea -> entry_valid ea = true -> entry_ip ea <> ip).
  { intros a ea Na Ha Va E. specialize (HO a ea Na Ha). rewrite (proj2 (known_true ip ea)) in HO; done. }
  intros a b ea eb Ha Hb Va Vb HI. apply list_lookup_insert_Some in Ha as [(-> & <- & _) | [Na Ha]], Hb as [(<- & <- & _) | [Nb Hb]]; [done | | | by eapply HU].
  - by destruct (HX b eb).
  - by destruct (HX a ea).
Qed.

Lemma lookup_insert_other ip ip' mac c i m : ip' <> ip -> cache_ok c -> arp_cache_lookup ip' (<[i := mk_entry ip mac true]> c) = Some m ->
  exists j e, j <> i /\ c !! j = Some e /\ known ip' e = true /\ m = entry_mac e.
Proof.
  intros Hne HC E. pose proof (lookup_known ip' (<[i := mk_entry ip mac true]> c)) as H. rewrite E in H. destruct H as (j & e & Hj & HK & ->).
  apply list_lookup_insert_Some in Hj as [(-> & <- & _) | [Nj Hj]]; [| by exists j, e]. apply known_true in HK as [_ HK]. cbn in HK. congruence.
Qed.

(** the new entry is found; the other addresses keep theirs, but for the one that
    a full cache loses from its first slot *)
Lemma arp_cache_update_ok ip mac c : cache_ok c -> cache_ok (arp_cache_update ip mac c) /\ arp_cache_lookup ip (arp_cache_update ip mac c) = Some mac /\
  forall ip', ip' <> ip -> arp_cache_lookup ip' (arp_cache_update ip mac c) = arp_cache_lookup ip' c \/
    arp_cache_lookup ip' (arp_cache_update ip mac c) = None /\ (forall e, e ∈ c -> entry_valid e = true /\ entry_ip e <> ip) /\ (entry_ip <$> c !! 0%nat) = Some ip'.
Proof.
  intros HC. destruct (update_slot ip mac c (proj1 HC)) as (i & e & Hi & He & -> & HS).
  assert (HO : forall j e', j <> i -> c !! j = Some e' -> known ip e' = false).
  { intros j e' Hj He'. destruct (known ip e') eqn:EK; [| done]. exfalso. destruct HS as [HK | [HN _]]; [apply Hj; by eapply known_once |].
    rewrite (HN e') in EK; [done |]. by eapply list_elem_of_lookup_2. }
  pose proof (insert_ok ip mac c i HC HO) as HC'.
  split; [done |]. split; [apply (lookup_found ip _ i (mk_entry ip mac true)); [done | by apply list_lookup_insert_eq | by apply known_true] |]. intros ip' Hne.
  pose proof (lookup_known ip' c) as HK. destruct (arp_cache_lookup ip' (<[i := mk_entry ip mac true]> c)) as [m |] eqn:E.
  - left. destruct (lookup_insert_other _ _ _ _ _ _ Hne HC E) as (j & e' & Nj & Hj & HK' & ->). symmetry. by eapply lookup_found.
  - destruct (arp_cache_lookup ip' c) as [m |]; [| by left]. right. destruct HK as (j & e' & Hj & HK & ->). destruct (decide (j = i)) as [-> | Nj].
    + assert (e' = e) as -> by congruence. apply known_true in HK as [HV HI]. destruct HS as [[_ HK]%known_true | [HN [HF | [-> HF]]]]; [congruence | congruence |].
      split; [done |]. split; [| rewrite He; cbn; congruence]. intros e' He'. split; [auto |]. intros EI. specialize (HN e' He'). rewrite (proj2 (known_true ip e')) in HN; auto; done.
    + rewrite (lookup_found ip' _ j e') in E; [done | done | by rewrite list_lookup_insert_ne | done].
Qed.

(** ** The handler *)

Definition ARP_TYPE : Z := 2054.
Definition IPV4_TYPE : Z := 2048.
Definition for_subnet (p : list Z) : bool := (byte p 38 =? 192) && (byte p 39 =? 168) && (byte p 40 =? 56).

(** what is sent for the packet [p] of [len] bytes *)
Definition answered (mac p : list Z) (len : Z) (frames : list (list Z)) : Prop :=
  if len <? 14 then frames = []
  else if be16 p 12 =? ARP_TYPE then frames = if (be16 p 20 =? 1) && for_subnet p then [arp_answer mac p] else []
  else if (be16 p 12 =? IPV4_TYPE) && (byte p 23 =? 1) && (byte p 34 =? 8) then exists f, frames = [f] /\ echo_answer mac p f
  else frames = [].

(** what the cache learns from it *)
Definition learned (p : list Z) (len : Z) (c : list arp_entry) : list arp_entry :=
  if (14 <=? len) && (be16 p 12 =? ARP_TYPE) && (be16 p 20 =? 2) then arp_cache_update (ip_at p 28) (slice p 22 6) c else c.

Lemma i32_u64 x : -2147483648 <= x < 2147483648 -> i32 (u64 x) = x.
Proof.
  intros Hx. unfold i32, u64. destruct (Z.ltb_spec x 0).
  - replace (x mod 18446744073709551616) with (x + 18446744073709551616) by (rewrite <- (Z_mod_plus_full x 1), Z.mod_small; lia).
    replace (x + 18446744073709551616 + 2147483648) with (x + 2147483648 + 4294967296 * 4294967296) by lia. rewrite Z_mod_plus_full, Z.mod_small by lia. lia.
  - rewrite (Z.mod_small x), Z.mod_small by lia. lia.
Qed.

Lemma learned_other p len c : (be16 p 12 =? ARP_TYPE) = false -> learned p len c = c.
Proof. intros E. unfold learned. by rewrite E, andb_false_r. Qed.

Lemma handle_arp_ok mac p n : bytes p -> 512 <= zlen p -> zlen mac = 6 -> forall h, eth_src h = slice p 6 6 ->
  exists a, read_arp p 14 = Ok a /\ swap16 (opcode a) = be16 p 20 /\
    (Z.land (arp_dest_ip a) 0x00FFFFFF =? 0x0038A8C0) = for_subnet p /\ send_arp_reply mac h a = Ok (arp_answer mac p) /\
    arp_cache_update (arp_src_ip a) (src_mac a) (arp_cache n) = arp_cache_update (ip_at p 28) (slice p 22 6) (arp_cache n).
Proof.
  intros HB HL HM h Hh. destruct (read_arp_ok p HB ltac:(lia)) as (a & E & Hop & Hm & Hs & Hd). exists a. split; [done |]. split; [done |].
  split; [rewrite Hd; apply subnet_test; by apply byte_range |]. split; [| by rewrite Hs, Hm]. apply (send_arp_reply_ok mac p h a); done || lia.
Qed.

Lemma e1000_handle_packet_ok mac p len n : bytes p -> 512 <= zlen p -> zlen mac = 6 ->
  exists frames n', e1000_handle_packet mac p len n = Ok (frames, n') /\ answered mac p len frames /\ arp_cache n' = learned p len (arp_cache n).
Proof.
  intros HB HL HM. unfold e1000_handle_packet, answered. change ETH_SIZE with 14. destruct (Z.ltb_spec len 14) as [Hlen | Hlen].
  { exists [], n. split; [done |]. split; [done |]. unfold learned. by rewrite (proj2 (Z.leb_gt _ _)) by lia. }
  destruct (read_eth_ok p HB ltac:(lia)) as (h & -> & Hsrc & Hty). cbn [res_bind]. rewrite Hty. fold ARP_TYPE. destruct (be16 p 12 =? ARP_TYPE) eqn:EA.
  - destruct (handle_arp_ok mac p n HB HL HM h Hsrc) as (a & -> & Hop & Hsub & Hsend & Hup). cbn [res_bind]. rewrite Hop, Hsub.
    destruct ((be16 p 20 =? 1) && for_subnet p) eqn:E1.
    + rewrite Hsend. cbn [res_bind]. eexists _, _. split; [done |]. split; [done |]. cbn. unfold learned. apply andb_prop in E1 as [E1%Z.eqb_eq _]. by rewrite E1, andb_false_r.
    + unfold learned. rewrite (proj2 (Z.leb_le _ _)), EA by lia. cbn [andb]. destruct (be16 p 20 =? 2); eexists _, _; (split; [done |]); (split; [done |]); [exact Hup | done].
  - rewrite (learned_other p len _ EA). rewrite Z.eqb_sym. fold IPV4_TYPE. destruct (be16 p 12 =? IPV4_TYPE); [| by eexists _, _].
    destruct (read_ip_ok p HB ltac:(lia)) as (ip & -> & Hn & Hid & Hp & Hs & Hd). cbn [res_bind andb]. rewrite Hp. destruct (byte p 23 =? 1); [| by eexists _, _].
    destruct (read_icmp_ok p HB ltac:(lia)) as (ic & E & Ht & Hic). change (14 + IP_SIZE) with 34. rewrite E. cbn [res_bind andb]. rewrite Ht. destruct (byte p 34 =? 8); [| by eexists _, _].
    rewrite Hn. pose proof (be16_range p 16 HB). change (be16 p 16 - IP_SIZE - ICMP_SIZE) with (be16 p 16 - 20 - 8). rewrite i32_u64 by lia.
    replace (be16 p 16 - 20 - 8) with (be16 p 16 - 28) by lia. destruct (send_icmp_reply_ok mac p h ip ic HB HL HM Hsrc Hid Hs Hd Hic) as (f & -> & Hf). cbn [res_bind].
    eexists _, _. split; [done |]. split; [by exists f | done].
Qed.

(** C21: the packet handler answers as the protocols ask, for every content of the
    buffer and every length.  It never reads outside the buffer.  An ARP request
    for the subnet is answered with the driver's address; an echo request is
    answered with the addresses exchanged, the payload returned, the lengths of the
    parts right and the checksums of the IP header and of the message such that a
    receiver accepts them; nothing else is answered.  The cache changes for ARP
    replies alone: the sender is then found in it, and no other address changes
    except the first entry of a full cache. *)
Theorem packet_answered mac p len n : bytes p -> 512 <= zlen p -> zlen mac = 6 -> cache_ok (arp_cache n) ->
  exists frames n', e1000_handle_packet mac p len n = Ok (frames, n') /\ answered mac p len frames /\ cache_ok (arp_cache n') /\
    (14 <= len -> be16 p 12 = ARP_TYPE -> be16 p 20 = 2 -> arp_cache_lookup (ip_at p 28) (arp_cache n') = Some (slice p 22 6)) /\
    forall ip, arp_cache_lookup ip (arp_cache n') = arp_cache_lookup ip (arp_cache n) \/
      14 <= len /\ be16 p 12 = ARP_TYPE /\ be16 p 20 = 2 /\
      (ip = ip_at p 28 \/ arp_cache_lookup ip (arp_cache n') = None /\ Forall (fun e => entry_valid e = true) (arp_cache n) /\ entry_ip <$> arp_cache n !! 0%nat = Some ip).
Proof.
  intros HB HL HM HC. destruct (e1000_handle_packet_ok mac p len n HB HL HM) as (frames & n' & E & HA & Hn). exists frames, n'. rewrite Hn. split; [done |]. split; [done |].
  unfold learned. destruct (arp_cache_update_ok (ip_at p 28) (slice p 22 6) (arp_cache n) HC) as (HC' & HS & HO).
  destruct (Z.leb_spec 14 len), (Z.eqb_spec (be16 p 12) ARP_TYPE), (Z.eqb_spec (be16 p 20) 2); cbn [andb]; try by (split; [done |]; split; [lia || done | by left]).
  split; [done |]. split; [done |]. intros ip. destruct (decide (ip = ip_at p 28)) as [-> | Hne]; [right; auto |].
  destruct (HO ip Hne) as [HX | (HX & HV & H0)]; [by left | right]. do 3 (split; [done |]). right. split; [done |]. split; [| done]. apply Forall_forall. intros x Hx. by apply HV.
Qed.

(** ** Examples *)

(** an echo request of 42 bytes whose header announces [total] bytes, in a buffer
    that holds [rest] from an earlier packet *)
Definition ex_echo (total : Z) (rest : list Z) : list Z :=
  replicate 6 2 ++ replicate 6 3 ++ [8; 0] ++ ([69; 0] ++ big total ++ [0; 7; 0; 0; 64; 1; 0; 0; 192; 168; 56; 1; 192; 168; 56; 15]) ++ [8; 0; 0; 0; 18; 52; 0; 1] ++ rest.
Definition ex_mac : list Z := [82; 84; 0; 18; 52; 86].
Definition ex_net : net := mk_net (replicate 4 (mk_entry 0 [] false)) (mk_stats 0 0 0 0 0 0).

Lemma ex_cache_ok : cache_ok (arp_cache ex_net).
Proof. split; [done |]. intros i j e e' Hi _ HV. apply lookup_replicate in Hi as [-> _]. done. Qed.

Lemma packet_answered_witness :
  exists f n', e1000_handle_packet ex_mac (ex_echo 28 (replicate 470 0)) 42 ex_net = Ok ([f], n') /\ echo_answer ex_mac (ex_echo 28 (replicate 470 0)) f.
Proof.
  destruct (packet_answered ex_mac (ex_echo 28 (replicate 470 0)) 42 ex_net) as (frames & n' & E & HA & _).
  - apply bytes_check. vm_compute. reflexivity.
  - vm_compute. discriminate.
  - reflexivity.
  - exact ex_cache_ok.
  - destruct HA as (f & -> & Hf). exists f, n'. split; [exact E | exact Hf].
Defined.

(** the frame has 42 bytes; the reply returns 32 bytes that were not in it *)
Example echo_returns_old_bytes :
  match e1000_handle_packet ex_mac (ex_echo 60 (replicate 470 77)) 42 ex_net with Ok ([f], _) => slice f 42 32 = replicate 32 77 | _ => False end.
Proof. vm_compute. reflexivity. Qed.

(** a ping reads a byte behind its payload *)
Example ping_overreads : e1000_ping_gateway ex_mac 0xC0A83801 (mk_net (arp_cache_update (hton32 0xC0A83801) ex_mac (arp_cache ex_net)) (stats ex_net)) = Fault.
Proof. vm_compute. reflexivity. Qed.

(** in a full cache each new address takes the first slot, not the oldest entry *)
Example cache_loses_newest :
  let c := foldl (fun c ip => arp_cache_update ip ex_mac c) (arp_cache ex_net) [1; 2; 3; 4; 5; 6] in
  arp_cache_lookup 2 c = Some ex_mac /\ arp_cache_lookup 5 c = None.
Proof. vm_compute. done. Qed.
