(* ===== verification/Nic.v ===== *)
(** * The network driver

    [module/e1000.c]: registers, the descriptor rings and their buffers, bringing
    the device up and down, and transmission.  The accesses to the device are kept
    in order; what a read gives is a function of the accesses before it.  A pointer
    to memory of the direct map is the physical address of that memory. *)

From stdpp Require Import base list.
From S2P Require Import Prelude Bytes PageAlloc Alloc.

(** ** Registers ([module/e1000.h]) *)

Definition REG_CTRL : Z := 0x0000.
Definition REG_STATUS : Z := 0x0008.
Definition REG_EERD : Z := 0x0014.
Definition REG_IMC : Z := 0x00D8.
Definition REG_RCTL : Z := 0x0100.
Definition REG_RDBAL : Z := 0x2800.
Definition REG_RDBAH : Z := 0x2804.
Definition REG_RDLEN : Z := 0x2808.
Definition REG_RDH : Z := 0x2810.
Definition REG_RDT : Z := 0x2818.
Definition REG_SWSM : Z := 0x5B50.
Definition REG_RAL : Z := 0x5400.
Definition REG_RAH : Z := 0x5404.
Definition REG_TCTL : Z := 0x0400.
Definition REG_TDBAL : Z := 0x3800.
Definition REG_TDBAH : Z := 0x3804.
Definition REG_TDLEN : Z := 0x3808.
Definition REG_TDH : Z := 0x3810.
Definition REG_TDT : Z := 0x3818.
Definition RCTL_EN : Z := 2.
(** [RCTL_EN | RCTL_BAM | RCTL_MPE | RCTL_SZ_2048 | RCTL_SECRC] *)
Definition RCTL_INIT : Z := Z.lor (Z.lor (Z.lor RCTL_EN (Z.shiftl 1 15)) (Z.shiftl 1 4)) (Z.shiftl 1 26).
Definition TCTL_EN : Z := 2.
Definition TCTL_INIT : Z := Z.lor (Z.lor (Z.lor 2 8) (Z.shiftl 0x0F 4)) (Z.shiftl 0x40 12).
Definition SWSM_SWESMBI : Z := 2.
Definition NUM_RX_DESC : nat := 256.
Definition NUM_TX_DESC : nat := 256.
Definition E1000_TX_BUFFER_SIZE : Z := 4096.
Definition E1000_TXD_STAT_DD : Z := 1.
(** [TX_CMD_EOP | TX_CMD_IFCS | TX_CMD_RS] *)
Definition TX_CMD : Z := 11.

(** an access to the device: a register, or the status of a transmit descriptor *)
Inductive access := Read (reg v : Z) | Write (reg v : Z) | Status (i v : Z).

(** the fields of the descriptors that the driver uses *)
Record rx_desc := mk_rx { rx_addr : Z; rx_length : Z; rx_status : Z }.
Record tx_desc := mk_tx { tx_addr : Z; tx_length : Z; tx_cmd : Z; tx_status : Z }.

(** [e1000_driver_t]; no ring is a null pointer *)
Record nic := mk_nic {
  mac : list Z;
  rx_ring : option (list rx_desc); rx_ring_phys : Z; rx_buffers : list Z; rx_tail : Z;
  tx_ring : option (list tx_desc); tx_ring_phys : Z; tx_buffers : list Z; tx_tail : Z }.

(** the driver after [memset] *)
Definition zero_nic : nic := mk_nic (replicate 6 0) None 0 (replicate NUM_RX_DESC 0) 0 None 0 (replicate NUM_TX_DESC 0) 0.

Definition with_mac (l : list Z) (d : nic) : nic :=
  mk_nic l (rx_ring d) (rx_ring_phys d) (rx_buffers d) (rx_tail d) (tx_ring d) (tx_ring_phys d) (tx_buffers d) (tx_tail d).
Definition with_rx (r : option (list rx_desc)) (phys : Z) (b : list Z) (t : Z) (d : nic) : nic :=
  mk_nic (mac d) r phys b t (tx_ring d) (tx_ring_phys d) (tx_buffers d) (tx_tail d).
Definition with_tx (r : option (list tx_desc)) (phys : Z) (b : list Z) (t : Z) (d : nic) : nic :=
  mk_nic (mac d) (rx_ring d) (rx_ring_phys d) (rx_buffers d) (rx_tail d) r phys b t.

(** ** Bounded polling *)

(** [f] up to [n] times, until it gives a result *)
Fixpoint iter_until {S R : Type} (n : positive) (f : S -> S + R) (s : S) : S + R :=
  match n with
  | xH => f s
  | xO n => match iter_until n f s with inl s => iter_until n f s | inr r => inr r end
  | xI n => match f s with
    | inl s => match iter_until n f s with inl s => iter_until n f s | inr r => inr r end
    | inr r => inr r
    end
  end.

(** the loops give up when their counter exceeds 10000000 *)
Definition POLLS : positive := 10000001.

Section Driver.
Context {P : Type} {PA : PageAllocator P}.
(** what a read of a register, and of the status of a transmit descriptor, gives *)
Context (respond : list access -> Z -> Z) (tx_state : list access -> Z -> Z).

(** the page frames, their contents, and the accesses so far, the latest first *)
Record machine := mk_machine { pages : P; mem : Z -> list Z; ios : list access }.

Definition with_pages (p : P) (m : machine) : machine := mk_machine p (mem m) (ios m).
Definition e1000_write (reg value : Z) (m : machine) : machine := mk_machine (pages m) (mem m) (Write reg value :: ios m).
Definition e1000_read (reg : Z) (m : machine) : Z * machine :=
  let v := u32 (respond (ios m) reg) in (v, mk_machine (pages m) (mem m) (Read reg v :: ios m)).

(** ** Rings *)

Section Ring.
Context {D : Type} (addr : D -> Z) (bind_page : Z -> D -> D).

Fixpoint free_pages (l : list Z) (p : P) : res P :=
  match l with
  | [] => Ok p
  | a :: l => let! p := page_free a p in free_pages l p
  end.

(** the loop over the descriptors; the buffers bound so far are released when an
    allocation fails *)
Fixpoint fill_ring (n i : nat) (ring : list D) (bufs : list Z) (p : P) : res (option (list D) * list Z * P) :=
  match n with
  | O => Ok (Some ring, bufs, p)
  | S n =>
    let! (a, p) := page_alloc p in
    if a =? 0 then let! p := free_pages (map addr (take i ring)) p in Ok (None, bufs, p)
    else match ring !! i with
    | Some d => fill_ring n (S i) (<[i := bind_page a d]> ring) (<[i := a]> bufs) p
    | None => Fault
    end
  end.

(** the loop that gives the buffers back *)
Fixpoint drain_ring (i : nat) (ring : list D) (bufs : list Z) (p : P) : res (list Z * P) :=
  match ring with
  | [] => Ok (bufs, p)
  | d :: ring =>
    if negb (addr d =? 0) then let! p := page_free (addr d) p in drain_ring (S i) ring (<[i := 0]> bufs) p
    else drain_ring (S i) ring bufs p
  end.
End Ring.

Definition bind_rx (a : Z) (d : rx_desc) : rx_desc := mk_rx a (rx_length d) 0.
Definition bind_tx (a : Z) (d : tx_desc) : tx_desc := mk_tx a (tx_length d) (tx_cmd d) E1000_TXD_STAT_DD.

Definition e1000_init_rx_ring (d : nic) (m : machine) : res (Z * nic * machine) :=
  let! (rx_phys, p) := page_alloc (pages m) in
  if rx_phys =? 0 then Ok (-1, d, with_pages p m)
  else
    let! (ring, bufs, p) := fill_ring rx_addr bind_rx NUM_RX_DESC 0 (replicate NUM_RX_DESC (mk_rx 0 0 0)) (rx_buffers d) p in
    match ring with
    | None => let! p := page_free rx_phys p in Ok (-1, with_rx None 0 bufs (rx_tail d) d, with_pages p m)
    | Some _ =>
      let m := with_pages p m in
      let m := e1000_write REG_RDBAL (u32 rx_phys) m in
      let m := e1000_write REG_RDBAH (u32 (Z.shiftr rx_phys 32)) m in
      let m := e1000_write REG_RDLEN (Z.of_nat NUM_RX_DESC * 16) m in
      let m := e1000_write REG_RDH 0 m in
      let m := e1000_write REG_RDT (Z.of_nat NUM_RX_DESC - 1) m in
      Ok (0, with_rx ring rx_phys bufs 0 d, m)
    end.

Definition e1000_free_rx_ring (d : nic) (m : machine) : res (nic * machine) :=
  match rx_ring d with
  | None => Ok (d, m)
  | Some ring =>
    let! (bufs, p) := drain_ring rx_addr 0 ring (rx_buffers d) (pages m) in
    let! p := page_free (rx_ring_phys d) p in
    Ok (with_rx None 0 bufs (rx_tail d) d, with_pages p m)
  end.

Definition e1000_init_rx (d : nic) (m : machine) : res (Z * nic * machine) :=
  let m := e1000_write REG_IMC 0xFFFFFFFF m in
  let! (r, d, m) := e1000_init_rx_ring d m in
  if r =? -1 then Ok (-1, d, m)
  else
    let m := e1000_write REG_RCTL RCTL_INIT m in
    let (_, m) := e1000_read REG_RCTL m in
    let (_, m) := e1000_read REG_RAL m in
    let (_, m) := e1000_read REG_RAH m in
    Ok (0, d, m).

Definition e1000_init_tx (d : nic) (m : machine) : res (Z * nic * machine) :=
  let! (tx_phys, p) := page_alloc (pages m) in
  if tx_phys =? 0 then Ok (-1, d, with_pages p m)
  else
    let! (ring, bufs, p) := fill_ring tx_addr bind_tx NUM_TX_DESC 0 (replicate NUM_TX_DESC (mk_tx 0 0 0 0)) (tx_buffers d) p in
    match ring with
    | None => let! p := page_free tx_phys p in Ok (-1, with_tx None 0 bufs (tx_tail d) d, with_pages p m)
    | Some _ =>
      let m := with_pages p m in
      let m := e1000_write REG_TDBAL (u32 tx_phys) m in
      let m := e1000_write REG_TDBAH (u32 (Z.shiftr tx_phys 32)) m in
      let m := e1000_write REG_TDLEN (Z.of_nat NUM_TX_DESC * 16) m in
      let m := e1000_write REG_TDH 0 m in
      let m := e1000_write REG_TDT 0 m in
      let m := e1000_write REG_TCTL TCTL_INIT m in
      let m := e1000_write 0x0410 0x0060200A m in
      Ok (0, with_tx ring tx_phys bufs 0 d, m)
    end.

Definition e1000_free_tx (d : nic) (m : machine) : res (nic * machine) :=
  match tx_ring d with
  | None => Ok (d, m)
  | Some ring =>
    let! (bufs, p) := drain_ring tx_addr 0 ring (tx_buffers d) (pages m) in
    let! p := page_free (tx_ring_phys d) p in
    Ok (with_tx None 0 bufs (tx_tail d) d, with_pages p m)
  end.

(** ** The device *)

(** a poll of register [reg] until [done] holds of its value *)
Definition poll_reg (reg : Z) (done : Z -> bool) (m : machine) : machine + Z * machine :=
  iter_until POLLS (fun m => let (v, m) := e1000_read reg m in if done v then inr (v, m) else inl m) m.

Definition e1000_acquire_eeprom (m : machine) : machine :=
  let (swsm, m) := e1000_read REG_SWSM m in
  let m := e1000_write REG_SWSM (Z.lor swsm SWSM_SWESMBI) m in
  match poll_reg REG_SWSM (fun v => negb (Z.land v SWSM_SWESMBI =? 0)) m with
  | inr (_, m) => m
  | inl m => (e1000_read REG_SWSM m).2
  end.

Definition e1000_reset (m : machine) : machine :=
  let (ctrl, m) := e1000_read REG_CTRL m in e1000_write REG_CTRL (Z.lor ctrl (Z.shiftl 1 26)) m.

(** the three words of the EEPROM; a timeout leaves the bytes read so far *)
Fixpoint read_words (n i : nat) (l : list Z) (m : machine) : list Z * machine :=
  match n with
  | O => (l, m)
  | S n =>
    let m := e1000_write REG_EERD (Z.lor 1 (Z.shiftl (Z.of_nat i) 8)) m in
    match poll_reg REG_EERD (fun v => negb (Z.land v (Z.shiftl 1 4) =? 0)) m with
    | inl m => (l, m)
    | inr (temp, m) => read_words n (S i) (<[(2 * i + 1)%nat := u8 (Z.shiftr temp 24)]> (<[(2 * i)%nat := u8 (Z.shiftr temp 16)]> l)) m
    end
  end.

Definition e1000_read_mac (d : nic) (m : machine) : nic * machine :=
  let (ral, m) := e1000_read REG_RAL m in
  let (rah, m) := e1000_read REG_RAH m in
  if negb (ral =? 0) && negb (ral =? 0xFFFFFFFF) then
    (with_mac [u8 ral; u8 (Z.shiftr ral 8); u8 (Z.shiftr ral 16); u8 (Z.shiftr ral 24); u8 rah; u8 (Z.shiftr rah 8)] d, m)
  else let (l, m) := read_words 3 0 (mac d) m in (with_mac l d, m).

Definition e1000_check_status (m : machine) : machine := (e1000_read REG_STATUS m).2.

(** ** Bringing the driver up and down *)

Section Heap.
Context {A : Type} {AL : Allocator A} (driver_size : Z).

(** from [e1000_alloc] on: the driver and its address, or none *)
Definition e1000_start (a : A) (m : machine) : res (option (Z * nic) * A * machine) :=
  let! (drv, a) := kmalloc driver_size a in
  if drv =? 0 then Ok (None, a, m)
  else
    let m := e1000_acquire_eeprom (e1000_reset m) in
    let (d, m) := e1000_read_mac zero_nic m in
    let m := e1000_check_status m in
    let! (r, d, m) := e1000_init_rx d m in
    if r =? -1 then let! a := kfree drv a in Ok (None, a, m)
    else
      let! (r, d, m) := e1000_init_tx d m in
      if r =? -1 then
        let (rctl, m) := e1000_read REG_RCTL m in
        let m := e1000_write REG_RCTL (Z.land rctl (Z.lnot RCTL_EN)) m in
        let (_, m) := e1000_read REG_STATUS m in
        let! (d, m) := e1000_free_rx_ring d m in
        let! a := kfree drv a in Ok (None, a, m)
      else Ok (Some (drv, d), a, m).

Definition e1000_exit (drv : Z) (d : nic) (a : A) (m : machine) : res (A * machine) :=
  let (rctl, m) := e1000_read REG_RCTL m in
  let m := e1000_write REG_RCTL (Z.land rctl (Z.lnot RCTL_EN)) m in
  let (tctl, m) := e1000_read REG_TCTL m in
  let m := e1000_write REG_TCTL (Z.land tctl (Z.lnot TCTL_EN)) m in
  let m := e1000_write REG_IMC 0xFFFFFFFF m in
  let (_, m) := e1000_read REG_STATUS m in
  let! (d, m) := e1000_free_rx_ring d m in
  let! (d, m) := e1000_free_tx d m in
  let! a := kfree drv a in
  let (_, m) := e1000_read REG_RCTL m in
  Ok (a, m).
End Heap.

(** ** Transmission *)

Definition upd (f : Z -> list Z) (a : Z) (l : list Z) : Z -> list Z := fun x => if x =? a then l else f x.

(** a poll of the completion bit of descriptor [i] *)
Definition poll_tx (i : Z) (m : machine) : machine + machine :=
  iter_until POLLS
    (fun m => let v := u8 (tx_state (ios m) i) in let m := mk_machine (pages m) (mem m) (Status i v :: ios m) in if negb (Z.land v 1 =? 0) then inr m else inl m) m.

(** [tx_packets], [tx_bytes] and [tx_dd_timeout] of the statistics *)
Record tx_stats := mk_tx_stats { tx_packets : Z; tx_bytes : Z; tx_dd_timeout : Z }.

Definition e1000_send_packet (data : list Z) (len : Z) (d : nic) (m : machine) (s : tx_stats) : res (Z * nic * machine * tx_stats) :=
  if E1000_TX_BUFFER_SIZE <? len then Ok (-1, d, m, s)
  else match tx_ring d with
  | None => Fault
  | Some ring =>
    let i := tx_tail d in
    match ring !! Z.to_nat i, tx_buffers d !! Z.to_nat i with
    | Some desc, Some buf =>
      let! l := bytes_at data 0 len in
      let! page := write_bytes (mem m buf) 0 l in
      let m := mk_machine (pages m) (upd (mem m) buf page) (ios m) in
      let ring := <[Z.to_nat i := mk_tx (tx_addr desc) len TX_CMD 0]> ring in
      let next := (i + 1) mod Z.of_nat NUM_TX_DESC in
      let d := with_tx (Some ring) (tx_ring_phys d) (tx_buffers d) next d in
      let m := e1000_write REG_TDT next m in
      let s := mk_tx_stats (u64 (tx_packets s + 1)) (u64 (tx_bytes s + len)) (tx_dd_timeout s) in
      match poll_tx i m with
      | inr m => Ok (0, d, m, s)
      | inl m =>
        let (_, m) := e1000_read REG_TDH m in
        let (_, m) := e1000_read REG_TDT m in
        Ok (-1, d, m, mk_tx_stats (tx_packets s) (tx_bytes s) (u64 (tx_dd_timeout s + 1)))
      end
    | _, _ => Fault
    end
  end.

End Driver.
