(* ===== verification/NicSpec.v ===== *)
(** * The driver owns its frames

    Bringing the driver up takes a block and 514 frames or nothing; taking it down
    gives back what its rings hold. *)

From stdpp Require Import base list.
From S2P Require Import Prelude Bytes PageAlloc Alloc Nic.

(** the addresses in use *)
Definition used (l : list Z) : list Z := filter (fun a => a <> 0) l.

#[local] Arguments poll_reg : simpl never.
#[local] Arguments poll_tx : simpl never.
#[local] Arguments read_words : simpl never.

(** what every try keeps, the loop keeps *)
Lemma iter_until_inv {S R : Type} (Q : S -> Prop) (Q' : R -> Prop) n (f : S -> S + R) :
  (forall s, Q s -> match f s with inl s' => Q s' | inr r => Q' r end) ->
  forall s, Q s -> match iter_until n f s with inl s' => Q s' | inr r => Q' r end.
Proof.
  intros HF. assert (H2 : forall m, (forall s, Q s -> match iter_until m f s with inl s' => Q s' | inr r => Q' r end) ->
    forall s, Q s -> match match iter_until m f s with inl s => iter_until m f s | inr r => inr r end with inl s' => Q s' | inr r => Q' r end).
  { intros m Hm s Hs. specialize (Hm s Hs) as H. destruct (iter_until m f s) as [s1 | r]; [by apply Hm | exact H]. }
  induction n as [n IH | n IH |]; intros s Hs; cbn [iter_until]; [| by apply H2 | by apply HF].
  specialize (HF s Hs) as H. destruct (f s) as [s1 | r]; [by apply H2 | done].
Qed.

Section Pages.
Context {P : Type} {PA : PageAllocator P}.

Lemma used_frames F : Forall frame F -> used F = F.
Proof.
  intros HF. unfold used. induction HF as [| a F [Ha _] HF IH]; [done |]. rewrite filter_cons_True by lia. by rewrite IH.
Qed.

Lemma used_app l k : used (l ++ k) = used l ++ used k.
Proof. apply filter_app. Qed.

Lemma free_pages_ok l (p : P) F : held p (l ++ F) -> exists p', free_pages l p = Ok p' /\ held p' F.
Proof.
  revert p. induction l as [| a l IH]; intros p H; [by exists p |]. cbn [free_pages]. destruct (page_free_held p a (l ++ F) H) as (p1 & -> & H1). by apply IH.
Qed.

Section Ring.
Context {D : Type} (addr : D -> Z) (bind_page : Z -> D -> D).
Hypothesis bound : forall a d, addr (bind_page a d) = a.

Lemma fill_ring_ok (Q : D -> Prop) n i ring bufs (p : P) F : (forall a d, Q (bind_page a d)) -> length ring = (i + n)%nat -> length bufs = length ring ->
  held p (map addr (take i ring) ++ F) -> Forall Q (take i ring) -> take i bufs = map addr (take i ring) ->
  exists r bufs' p', fill_ring addr bind_page n i ring bufs p = Ok (r, bufs', p') /\ length bufs' = length bufs /\
    match r with
    | Some ring' => length ring' = length ring /\ held p' (map addr ring' ++ F) /\ Forall Q ring' /\ bufs' = map addr ring'
    | None => held p' F
    end.
Proof.
  intros HQ. revert i ring bufs p. induction n as [| n IH]; intros i ring bufs p HL HB HH HA HT; cbn [fill_ring].
  - exists (Some ring), bufs, p. rewrite (take_ge ring) in HT, HA, HH by lia. rewrite take_ge in HT by lia. done.
  - destruct (page_alloc_held p _ HH) as (a & p1 & -> & HR). cbn [res_bind]. destruct (Z.eqb_spec a 0) as [-> | Hn].
    + destruct HR as [[_ ->] | [[? _] _]]; [| lia]. destruct (free_pages_ok _ p F HH) as (p2 & -> & H2). cbn [res_bind]. by exists None, bufs, p2.
    + destruct HR as [[? _] | (_ & _ & H1)]; [done |]. destruct (lookup_lt_is_Some_2 ring i) as [d Hd]; [lia |]. rewrite Hd.
      assert (ET : take (S i) (<[i := bind_page a d]> ring) = take i ring ++ [bind_page a d]).
      { rewrite (take_S_r _ i (bind_page a d)) by (apply list_lookup_insert_eq; lia). by rewrite take_insert_ge by lia. }
      destruct (IH (S i) (<[i := bind_page a d]> ring) (<[i := a]> bufs) p1) as (r & b & p2 & E & HB' & HM).
      * rewrite length_insert. lia.
      * by rewrite !length_insert.
      * eapply held_perm; [| exact H1]. rewrite ET, map_app, <- app_assoc. cbn [map app]. rewrite bound. apply Permutation_middle.
      * rewrite ET. apply Forall_app_2; [done | by repeat constructor].
      * rewrite ET, map_app, (take_S_r _ i a) by (apply list_lookup_insert_eq; lia). rewrite take_insert_ge by lia. cbn [map]. by rewrite bound, HT.
      * rewrite !length_insert in HB'. exists r, b, p2. split; [done |]. split; [done |]. destruct r; [by rewrite length_insert in HM | done].
Qed.

Lemma drain_ring_ok i ring bufs (p : P) F : held p (used (map addr ring) ++ F) ->
  exists bufs' p', drain_ring addr i ring bufs p = Ok (bufs', p') /\ held p' F.
Proof.
  revert i bufs p. induction ring as [| d ring IH]; intros i bufs p H; [by exists bufs, p |]. cbn [drain_ring map] in *. unfold used in H. rewrite filter_cons in H.
  destruct (Z.eqb_spec (addr d) 0), (decide (addr d <> 0)); try done; cbn [negb].
  - by apply IH.
  - cbn [app] in H. destruct (page_free_held _ _ _ H) as (p1 & -> & H1). cbn [res_bind]. by apply IH.
Qed.
End Ring.

Context (respond : list access -> Z -> Z).

(** the frames of the rings *)
Definition rx_frames (d : nic) : list Z := match rx_ring d with Some r => rx_ring_phys d :: used (map rx_addr r) | None => [] end.
Definition tx_frames (d : nic) : list Z := match tx_ring d with Some r => tx_ring_phys d :: used (map tx_addr r) | None => [] end.

(** a receive ring as the device is given it: all descriptors to fill, no frame twice *)
Definition rx_ready (d : nic) (p : P) (F : list Z) : Prop :=
  exists r, rx_ring d = Some r /\ length r = NUM_RX_DESC /\ (rx_buffers d = map rx_addr r /\ Forall (fun x => rx_status x = 0) r) /\ rx_tail d = 0 /\ held p (rx_ring_phys d :: map rx_addr r ++ F).
Definition tx_ready (d : nic) (p : P) (F : list Z) : Prop :=
  exists r, tx_ring d = Some r /\ length r = NUM_TX_DESC /\ length (tx_buffers d) = NUM_TX_DESC /\ tx_tail d = 0 /\ held p (tx_ring_phys d :: map tx_addr r ++ F).

(** the writes that give a ring to the device, the latest first *)
Definition rx_program (phys : Z) : list access :=
  [Write REG_RDT 255; Write REG_RDH 0; Write REG_RDLEN 4096; Write REG_RDBAH (u32 (Z.shiftr phys 32)); Write REG_RDBAL (u32 phys)].
Definition tx_program (phys : Z) : list access :=
  [Write 0x0410 0x0060200A; Write REG_TCTL TCTL_INIT; Write REG_TDT 0; Write REG_TDH 0; Write REG_TDLEN 4096; Write REG_TDBAH (u32 (Z.shiftr phys 32)); Write REG_TDBAL (u32 phys)].

Lemma e1000_init_rx_ring_ok d (m : machine) F : length (rx_buffers d) = NUM_RX_DESC -> rx_ring d = None -> held (pages m) F ->
  exists r d' m', e1000_init_rx_ring d m = Ok (r, d', m') /\ with_rx None 0 [] 0 d' = with_rx None 0 [] 0 d /\ mem m' = mem m /\
    (r = -1 /\ rx_ring d' = None /\ held (pages m') F \/ r = 0 /\ rx_ready d' (pages m') F /\ ios m' = rx_program (rx_ring_phys d') ++ ios m).
Proof.
  intros HB HN HH. unfold e1000_init_rx_ring. destruct (page_alloc_held _ _ HH) as (a & p1 & -> & HR). cbn [res_bind]. destruct (Z.eqb_spec a 0) as [-> | Hn].
  - destruct HR as [[_ ->] | [[? _] _]]; [| lia]. eexists _, _, _. split; [done |]. do 2 (split; [done |]). by left.
  - destruct HR as [[? _] | (_ & _ & H1)]; [done |].
    destruct (fill_ring_ok rx_addr bind_rx ltac:(done) (fun x => rx_status x = 0) NUM_RX_DESC 0 (replicate NUM_RX_DESC (mk_rx 0 0 0)) (rx_buffers d) p1 (a :: F)) as (r & b & p2 & -> & HB' & HM);
      [done | by rewrite length_replicate | by rewrite length_replicate | done | constructor | done |].
    cbn [res_bind]. rewrite length_replicate in HM. destruct r as [ring |].
    + destruct HM as (HL & H2 & HQ & ->). eexists _, _, _. split; [done |]. do 2 (split; [done |]). right. split; [done |]. split; [| done]. exists ring. split; [done |]. split; [done |]. split; [split; done || (cbn; congruence) || (cbn; by rewrite length_map) |]. split; [done |].
      eapply held_perm; [| exact H2]. symmetry. apply Permutation_middle.
    + destruct (page_free_held _ _ _ HM) as (p3 & -> & H3). cbn [res_bind]. eexists _, _, _. split; [done |]. do 2 (split; [done |]). by left.
Qed.

Lemma e1000_init_tx_ok d (m : machine) F : length (tx_buffers d) = NUM_TX_DESC -> tx_ring d = None -> held (pages m) F ->
  exists r d' m', e1000_init_tx d m = Ok (r, d', m') /\ with_tx None 0 [] 0 d' = with_tx None 0 [] 0 d /\ mem m' = mem m /\
    (r = -1 /\ tx_ring d' = None /\ held (pages m') F /\ ios m' = ios m \/ r = 0 /\ tx_ready d' (pages m') F /\ ios m' = tx_program (tx_ring_phys d') ++ ios m).
Proof.
  intros HB HN HH. unfold e1000_init_tx. destruct (page_alloc_held _ _ HH) as (a & p1 & -> & HR). cbn [res_bind]. destruct (Z.eqb_spec a 0) as [-> | Hn].
  - destruct HR as [[_ ->] | [[? _] _]]; [| lia]. eexists _, _, _. split; [done |]. do 2 (split; [done |]). by left.
  - destruct HR as [[? _] | (_ & _ & H1)]; [done |].
    destruct (fill_ring_ok tx_addr bind_tx ltac:(done) (fun _ => True) NUM_TX_DESC 0 (replicate NUM_TX_DESC (mk_tx 0 0 0 0)) (tx_buffers d) p1 (a :: F)) as (r & b & p2 & -> & HB' & HM);
      [done | by rewrite length_replicate | by rewrite length_replicate | done | constructor | done |].
    cbn [res_bind]. rewrite length_replicate in HM. destruct r as [ring |].
    + destruct HM as (HL & H2 & HQ & ->). eexists _, _, _. split; [done |]. do 2 (split; [done |]). right. split; [done |]. split; [| done]. exists ring. split; [done |]. split; [done |]. split; [cbn; by rewrite length_map |]. split; [done |].
      eapply held_perm; [| exact H2]. symmetry. apply Permutation_middle.
    + destruct (page_free_held _ _ _ HM) as (p3 & -> & H3). cbn [res_bind]. eexists _, _, _. split; [done |]. do 2 (split; [done |]). by left.
Qed.

Lemma free_rx_ok d (m : machine) F : held (pages m) (rx_frames d ++ F) ->
  exists d' m', e1000_free_rx_ring d m = Ok (d', m') /\ tx_ring d' = tx_ring d /\ tx_ring_phys d' = tx_ring_phys d /\ ios m' = ios m /\ held (pages m') F.
Proof.
  unfold e1000_free_rx_ring, rx_frames. destruct (rx_ring d) as [r |]; intros HH; [| by exists d, m].
  destruct (drain_ring_ok rx_addr 0 r (rx_buffers d) (pages m) (rx_ring_phys d :: F)) as (b & p1 & -> & H1).
  { eapply held_perm; [| exact HH]. cbn [app]. apply Permutation_middle. }
  cbn [res_bind]. destruct (page_free_held _ _ _ H1) as (p2 & -> & H2). cbn [res_bind]. by eexists _, _.
Qed.

Lemma free_tx_ok d (m : machine) F : held (pages m) (tx_frames d ++ F) ->
  exists d' m', e1000_free_tx d m = Ok (d', m') /\ ios m' = ios m /\ held (pages m') F.
Proof.
  unfold e1000_free_tx, tx_frames. destruct (tx_ring d) as [r |]; intros HH; [| by exists d, m].
  destruct (drain_ring_ok tx_addr 0 r (tx_buffers d) (pages m) (tx_ring_phys d :: F)) as (b & p1 & -> & H1).
  { eapply held_perm; [| exact HH]. cbn [app]. apply Permutation_middle. }
  cbn [res_bind]. destruct (page_free_held _ _ _ H1) as (p2 & -> & H2). cbn [res_bind]. by eexists _, _.
Qed.

(** ready rings own their frames *)
Lemma rx_ready_frames d (p : P) F : rx_ready d p F -> held p (rx_frames d ++ F) /\ length (rx_frames d) = 257%nat.
Proof.
  intros (r & Er & HL & _ & _ & HH). unfold rx_frames. rewrite Er. pose proof (held_frames _ _ HH) as [_ HF]. inversion HF as [| ? ? _ HF']; subst. apply Forall_app in HF' as [HF' _].
  rewrite used_frames by done. split; [done |]. cbn [length]. by rewrite length_map, HL.
Qed.

Lemma tx_ready_frames d (p : P) F : tx_ready d p F -> held p (tx_frames d ++ F) /\ length (tx_frames d) = 257%nat.
Proof.
  intros (r & Er & HL & _ & _ & HH). unfold tx_frames. rewrite Er. pose proof (held_frames _ _ HH) as [_ HF]. inversion HF as [| ? ? _ HF']; subst. apply Forall_app in HF' as [HF' _].
  rewrite used_frames by done. split; [done |]. cbn [length]. by rewrite length_map, HL.
Qed.

(** ** Up and down *)

(** the value last written to a register *)
Fixpoint last_write (reg : Z) (l : list access) : option Z :=
  match l with
  | [] => None
  | Write r v :: l => if r =? reg then Some v else last_write reg l
  | _ :: l => last_write reg l
  end.

(** register accesses alone *)
Definition same (m m' : machine (P := P)) : Prop := pages m' = pages m /\ mem m' = mem m.

Lemma same_trans m1 m2 m3 : same m1 m2 -> same m2 m3 -> same m1 m3.
Proof. intros [H1 H2] [H3 H4]. split; congruence. Qed.

Lemma poll_reg_same reg ok m : match poll_reg respond reg ok m with inl m' => same m m' | inr (_, m') => same m m' end.
Proof.
  pose proof (iter_until_inv (same m) (fun r : Z * machine => same m r.2) POLLS
    (fun m => let (v, m) := e1000_read respond reg m in if ok v then inr (v, m) else inl m)) as H. unfold poll_reg.
  specialize (H ltac:(intros s [H1 H2]; cbn; destruct (ok _); by split) m ltac:(by split)). destruct (iter_until _ _ _) as [| []]; exact H.
Qed.

Lemma acquire_same m : same m (e1000_acquire_eeprom respond m).
Proof.
  unfold e1000_acquire_eeprom. cbn. pose proof (poll_reg_same REG_SWSM (fun v => negb (Z.land v SWSM_SWESMBI =? 0))) as H.
  match goal with |- context [poll_reg _ _ _ ?x] => specialize (H x); destruct (poll_reg _ _ _ x) as [m' | [v m']] end; destruct H as [H1 H2]; by split.
Qed.

Lemma read_words_same n i l m : same m (read_words respond n i l m).2 /\ length (read_words respond n i l m).1 = length l.
Proof.
  revert i l m. induction n as [| n IH]; intros i l m; [done |]. unfold read_words; fold (read_words (P := P) respond).
  pose proof (poll_reg_same REG_EERD (fun v => negb (Z.land v (Z.shiftl 1 4) =? 0))) as H.
  match goal with |- context [poll_reg _ _ _ ?x] => specialize (H x); destruct (poll_reg _ _ _ x) as [m' | [v m']] end; [by destruct H |].
  destruct (IH (S i) (<[(2 * i + 1)%nat := u8 (Z.shiftr v 24)]> (<[(2 * i)%nat := u8 (Z.shiftr v 16)]> l)) m') as [H1 H2]. split; [| by rewrite H2, !length_insert].
  eapply same_trans; [| exact H1]. by destruct H.
Qed.

(** the address of the station has six bytes *)
Lemma read_mac_same d m : exists l m', e1000_read_mac respond d m = (with_mac l d, m') /\ same m m' /\ (length (mac d) = 6%nat -> length l = 6%nat).
Proof.
  unfold e1000_read_mac. cbn. destruct (_ && _); [by eexists _, _ |]. match goal with |- context [read_words _ 3 0 ?l ?x] => destruct (read_words_same 3 0 l x) as [H1 H2]; destruct (read_words respond 3 0 l x) as [l' m'] end.
  exists l', m'. split; [done |]. split; [exact H1 |]. cbn in H2. lia.
Qed.

Context {A : Type} {AL : Allocator A} (driver_size : Z).

(** the device may use the rings: their places, lengths and indices are programmed *)
Definition programmed (d : nic) (l : list access) : Prop :=
  last_write REG_RDBAL l = Some (u32 (rx_ring_phys d)) /\ last_write REG_RDBAH l = Some (u32 (Z.shiftr (rx_ring_phys d) 32)) /\
  last_write REG_RDLEN l = Some 4096 /\ last_write REG_RDH l = Some 0 /\ last_write REG_RDT l = Some 255 /\ last_write REG_RCTL l = Some RCTL_INIT /\
  last_write REG_TDBAL l = Some (u32 (tx_ring_phys d)) /\ last_write REG_TDBAH l = Some (u32 (Z.shiftr (tx_ring_phys d) 32)) /\
  last_write REG_TDLEN l = Some 4096 /\ last_write REG_TDH l = Some 0 /\ last_write REG_TDT l = Some 0 /\ last_write REG_TCTL l = Some TCTL_INIT.

(** reception and transmission are switched off *)
Definition stopped (l : list access) : Prop :=
  exists r t, last_write REG_RCTL l = Some r /\ Z.testbit r 1 = false /\ last_write REG_TCTL l = Some t /\ Z.testbit t 1 = false.

Lemma bit_cleared v : Z.testbit (Z.land v (Z.lnot 2)) 1 = false.
Proof. rewrite Z.land_spec, Z.lnot_spec by lia. change (Z.testbit 2 1) with true. by rewrite andb_false_r. Qed.

Lemma e1000_exit_ok drv d (a : A) m L F : Alloc.live a ((drv, driver_size) :: L) -> held (pages m) (rx_frames d ++ tx_frames d ++ F) ->
  exists a' m', e1000_exit respond drv d a m = Ok (a', m') /\ Alloc.live a' L /\ held (pages m') F /\ stopped (ios m').
Proof.
  intros HL HH. unfold e1000_exit. cbn [e1000_read e1000_write pages mem ios]. match goal with |- context [e1000_free_rx_ring d ?x] => set (m1 := x) end.
  destruct (free_rx_ok d m1 (tx_frames d ++ F) HH) as (d1 & m2 & -> & E1 & E2 & E3 & H1). cbn [res_bind].
  destruct (free_tx_ok d1 m2 F) as (d2 & m3 & -> & E4 & H2); [unfold tx_frames; by rewrite E1, E2 |]. cbn [res_bind].
  destruct (kfree_live _ _ _ _ HL) as (a' & -> & HL'). cbn [res_bind]. eexists _, _. split; [done |]. split; [done |]. split; [done |].
  cbn [ios]. rewrite E4, E3. unfold m1. cbn [ios]. eexists _, _. cbn [last_write]. split; [reflexivity |]. split; [apply bit_cleared |]. split; [reflexivity | apply bit_cleared].
Qed.

Lemma e1000_init_rx_ok d (m : machine) F : length (rx_buffers d) = NUM_RX_DESC -> rx_ring d = None -> held (pages m) F ->
  exists r d' m', e1000_init_rx respond d m = Ok (r, d', m') /\ with_rx None 0 [] 0 d' = with_rx None 0 [] 0 d /\ mem m' = mem m /\
    (r = -1 /\ rx_ring d' = None /\ held (pages m') F \/
     r = 0 /\ rx_ready d' (pages m') F /\ exists a b c l, ios m' = Read REG_RAH a :: Read REG_RAL b :: Read REG_RCTL c :: Write REG_RCTL RCTL_INIT :: rx_program (rx_ring_phys d') ++ l).
Proof.
  intros HB HN HH. unfold e1000_init_rx. destruct (e1000_init_rx_ring_ok d (e1000_write REG_IMC 0xFFFFFFFF m) F HB HN HH) as (r & d' & m' & -> & Hd & Hm & HR). cbn [res_bind].
  destruct HR as [(-> & HN' & H') | (-> & HR & HI)].
  - exists (-1), d', m'. split; [done |]. split; [done |]. split; [done |]. by left.
  - cbn [Z.eqb]. eexists _, _, _. split; [reflexivity |]. split; [done |]. split; [done |]. right. split; [done |]. split; [done |]. cbn. rewrite HI. by eexists _, _, _, _.
Qed.

Lemma with_tx_fields d d' : with_tx None 0 [] 0 d' = with_tx None 0 [] 0 d -> mac d' = mac d /\ rx_ring d' = rx_ring d /\ rx_ring_phys d' = rx_ring_phys d /\ rx_buffers d' = rx_buffers d /\ rx_tail d' = rx_tail d.
Proof. destruct d, d'. cbn. by intros [= -> -> -> -> ->]. Qed.
Lemma with_rx_fields d d' : with_rx None 0 [] 0 d' = with_rx None 0 [] 0 d -> mac d' = mac d /\ tx_ring d' = tx_ring d /\ tx_buffers d' = tx_buffers d.
Proof. destruct d, d'. cbn. by intros [= -> -> -> -> ->]. Qed.

(** the outcome of bringing the driver up *)
Definition started (L : list (Z * Z)) (F : list Z) (a : A) (m : machine (P := P)) (o : option (Z * nic)) : Prop :=
  match o with
  | None => Alloc.live a L /\ held (pages m) F
  | Some (drv, d) =>
    0 < drv /\ Alloc.live a ((drv, driver_size) :: L) /\ length (mac d) = 6%nat /\ programmed d (ios m) /\
    rx_ready d (pages m) (tx_frames d ++ F) /\ length (rx_frames d ++ tx_frames d) = 514%nat /\ held (pages m) (rx_frames d ++ tx_frames d ++ F)
  end.

Lemma e1000_start_ok (a : A) m L F : 0 <= driver_size <= UINT64_MAX -> Alloc.live a L -> held (pages m) F ->
  exists o a' m', e1000_start respond driver_size a m = Ok (o, a', m') /\ mem m' = mem m /\ started L F a' m' o.
Proof.
  intros HS HL HH. unfold e1000_start. destruct (kmalloc_live a L driver_size HL HS) as (drv & a1 & -> & HR). cbn [res_bind]. destruct (Z.eqb_spec drv 0) as [-> | Hn].
  { exists None, a1, m. split; [done |]. split; [done |]. split; [| done]. by destruct HR as [[_ HR] | [? _]]; [| lia]. }
  destruct HR as [[-> _] | [Hd HL1]]; [done |]. destruct (acquire_same (e1000_reset respond m)) as [HA1 HA2]. set (m1 := e1000_acquire_eeprom respond (e1000_reset respond m)) in *.
  destruct (read_mac_same zero_nic m1) as (l & m2 & -> & [HP1 HM1] & Hl). specialize (Hl eq_refl). cbn [res_bind].
  destruct (e1000_init_rx_ok (with_mac l zero_nic) (e1000_check_status respond m2) F eq_refl eq_refl) as (r & d1 & m3 & -> & Hd1 & Hm3 & HR); [cbn; rewrite HP1, HA1; exact HH |]. cbn [res_bind].
  assert (Hm0 : mem m3 = mem m) by (rewrite Hm3; cbn; rewrite HM1, HA2; done). apply with_rx_fields in Hd1 as (Em & Et & Eb).
  destruct HR as [(-> & _ & H3) | (-> & HR & x & y & z & w & HI)].
  { cbn [Z.eqb]. destruct (kfree_live _ _ _ _ HL1) as (a2 & -> & HL2). cbn [res_bind]. by exists None, a2, m3. }
  cbn [Z.eqb Z.opp]. destruct (rx_ready_frames _ _ _ HR) as [HF3 HF4].
  destruct (e1000_init_tx_ok d1 m3 (rx_frames d1 ++ F)) as (r & d2 & m4 & -> & Hd2 & Hm4 & HT); [by rewrite Eb | by rewrite Et | done |]. cbn [res_bind].
  apply with_tx_fields in Hd2 as (Em2 & Er2 & Ep2 & Eb2 & El2). assert (EF : rx_frames d2 = rx_frames d1) by (unfold rx_frames; by rewrite Er2, Ep2).
  destruct HT as [(-> & _ & H4 & _) | (-> & HT & HI4)]; cbn [Z.eqb Z.opp].
  - cbn [e1000_read e1000_write pages mem ios]. match goal with |- context [e1000_free_rx_ring d2 ?x] => destruct (free_rx_ok d2 x F) as (d3 & m5 & E5 & _ & _ & _ & H5) end; [by rewrite EF |].
    rewrite E5. cbn [res_bind]. destruct (kfree_live _ _ _ _ HL1) as (a2 & -> & HL2). cbn [res_bind]. exists None, a2, m5. split; [done |]. split; [| done].
    unfold e1000_free_rx_ring in E5. destruct (rx_ring d2); [| by injection E5 as <- <-; cbn; congruence].
    apply res_bind_ok in E5 as ([b p] & _ & E5). apply res_bind_ok in E5 as (p' & _ & [= <- <-]). cbn. congruence.
  - destruct (tx_ready_frames _ _ _ HT) as [HF5 HF6]. exists (Some (drv, d2)), a1, m4. split; [done |]. split; [congruence |]. split; [lia |]. split; [done |]. split; [by rewrite Em2, Em |].
    split; [unfold programmed; rewrite HI4, HI, Ep2; cbn; done |].
    assert (HF7 : held (pages m4) (rx_frames d2 ++ tx_frames d2 ++ F)) by (rewrite EF; eapply held_perm; [| exact HF5]; apply Permutation_app_swap_app).
    split; [| split; [by rewrite length_app, EF, HF4, HF6 | done]]. destruct HR as (rr & R1 & R2 & R3 & R4 & R5). exists rr. rewrite Er2, Eb2, El2, Ep2.
    do 4 (split; [done |]). unfold rx_frames in HF7. rewrite Er2, R1, Ep2 in HF7. rewrite used_frames in HF7; [done |].
    pose proof (held_frames _ _ R5) as [_ HFr]. inversion HFr as [| ? ? _ HF']; subst. by apply Forall_app in HF' as [HF' _].
Qed.
End Pages.
