(* ===== verification/NicRx.v ===== *)
(** * The receive pipeline

    The default mode of [module/e1000.c]: one thread takes filled descriptors from
    the device, replaces their buffers and queues the packets; another thread
    handles the packets and returns the buffers.  A step of a thread is what it does
    under one lock, or between two; the device is a third party that fills the
    descriptors it has been given. *)

From stdpp Require Import base list.
From S2P Require Import Prelude Bytes PageAlloc Protocol Nic.

(** ** Pool and queue *)

Definition RX_QUEUE_SIZE : Z := 256.
Definition RX_FREE_POOL_SIZE : Z := 256.

Record rx_entry := mk_rxe { e_data : Z; e_len : Z; e_phys : Z }.
Record free_pool := mk_pool { p_phys : list Z; p_count : Z }.
Record rx_queue := mk_queue { q_entries : list rx_entry; q_head : Z; q_tail : Z; q_count : Z }.
(** the counters of the receive path *)
Record rx_stats := mk_rx_stats { rx_packets : Z; rx_bytes : Z; rx_dropped_qfull : Z; rx_dropped_poolempty : Z; rx_queue_hwm : Z }.

(** an array element, and its assignment *)
Definition fetch {T} (l : list T) (i : Z) : res T :=
  if i <? 0 then Fault else match l !! Z.to_nat i with Some x => Ok x | None => Fault end.
Definition assign {T} (l : list T) (i : Z) (x : T) : res (list T) :=
  if (0 <=? i) && (i <? Z.of_nat (length l)) then Ok (<[Z.to_nat i := x]> l) else Fault.

(** the locked part of [rx_free_pool_get]; 0 for an empty pool *)
Definition pool_pop (pool : free_pool) : res (Z * free_pool) :=
  if 0 <? p_count pool then
    let count := p_count pool - 1 in
    let! phys := fetch (p_phys pool) count in Ok (phys, mk_pool (p_phys pool) count)
  else Ok (0, pool).

(** the locked part of [rx_free_pool_put]; false for a full pool *)
Definition pool_push (phys : Z) (pool : free_pool) : res (bool * free_pool) :=
  if p_count pool <? RX_FREE_POOL_SIZE then
    let! l := assign (p_phys pool) (p_count pool) phys in Ok (true, mk_pool l (p_count pool + 1))
  else Ok (false, pool).

Definition set_hwm (v : Z) (s : rx_stats) : rx_stats := mk_rx_stats (rx_packets s) (rx_bytes s) (rx_dropped_qfull s) (rx_dropped_poolempty s) v.
Definition count_packet (len : Z) (s : rx_stats) : rx_stats :=
  mk_rx_stats (u64 (rx_packets s + 1)) (u64 (rx_bytes s + len)) (rx_dropped_qfull s) (rx_dropped_poolempty s) (rx_queue_hwm s).
Definition count_full (s : rx_stats) : rx_stats :=
  mk_rx_stats (rx_packets s) (rx_bytes s) (u64 (rx_dropped_qfull s + 1)) (rx_dropped_poolempty s) (rx_queue_hwm s).
Definition count_empty (s : rx_stats) : rx_stats :=
  mk_rx_stats (rx_packets s) (rx_bytes s) (rx_dropped_qfull s) (u64 (rx_dropped_poolempty s + 1)) (rx_queue_hwm s).

Definition rx_queue_push (q : rx_queue) (e : rx_entry) (s : rx_stats) : res (bool * rx_queue * rx_stats) :=
  if q_count q <? RX_QUEUE_SIZE then
    let! l := assign (q_entries q) (q_tail q) e in
    let q := mk_queue l (q_head q) ((q_tail q + 1) mod RX_QUEUE_SIZE) (q_count q + 1) in
    Ok (true, q, if rx_queue_hwm s <? q_count q then set_hwm (q_count q) s else s)
  else Ok (false, q, s).

Definition rx_queue_pop (q : rx_queue) : res (option rx_entry * rx_queue) :=
  if 0 <? q_count q then
    let! e := fetch (q_entries q) (q_head q) in
    Ok (Some e, mk_queue (q_entries q) ((q_head q + 1) mod RX_QUEUE_SIZE) (q_tail q) (q_count q - 1))
  else Ok (None, q).

(** ** The two threads and the device *)

(** where the polling thread is in [e1000_poll_and_enqueue]: [i], [last_filled] and
    [n], and the new buffer it holds *)
Inductive poll_pc :=
| PIdle
| PScan (i last n : Z)
| PAlloc (i last n : Z)
| PGot (i last n new : Z)
| PBind (i last n new len : Z)
| PFull (i last n new : Z)
| PFree (i last n new : Z)
| PEnd (i last n : Z).

(** where the other thread is with the entry it has taken *)
Inductive proc_pc :=
| CIdle
| CHandle (e : rx_entry)
| CPut (e : rx_entry)
| CFree (phys : Z).

(** a packet that has been handled: the entry, what its buffer held, the answer *)
Record handled := mk_handled { h_entry : rx_entry; h_page : list Z; h_frames : list (list Z) }.

Section Pipeline.
Context {P : Type} {PA : PageAllocator P}.

(** [rdh] and [rdt] are the registers of the device; [received] is what it has
    stored, with the buffers, and [finished] what has been handled *)
Record pipe := mk_pipe {
  ring : list rx_desc; bufs : list Z; tail : Z;
  pool : free_pool; queue : rx_queue; counters : rx_stats;
  rdh : Z; rdt : Z;
  alloc_state : P; content : Z -> list Z;
  poll : poll_pc; proc : proc_pc;
  net_state : net; finished : list handled; received : list (Z * list Z) }.

Definition at_poll (pc : poll_pc) (s : pipe) : pipe :=
  mk_pipe (ring s) (bufs s) (tail s) (pool s) (queue s) (counters s) (rdh s) (rdt s) (alloc_state s) (content s) pc (proc s) (net_state s) (finished s) (received s).
Definition at_proc (pc : proc_pc) (s : pipe) : pipe :=
  mk_pipe (ring s) (bufs s) (tail s) (pool s) (queue s) (counters s) (rdh s) (rdt s) (alloc_state s) (content s) (poll s) pc (net_state s) (finished s) (received s).
Definition with_ring (r : list rx_desc) (b : list Z) (s : pipe) : pipe :=
  mk_pipe r b (tail s) (pool s) (queue s) (counters s) (rdh s) (rdt s) (alloc_state s) (content s) (poll s) (proc s) (net_state s) (finished s) (received s).
Definition with_pool (x : free_pool) (s : pipe) : pipe :=
  mk_pipe (ring s) (bufs s) (tail s) x (queue s) (counters s) (rdh s) (rdt s) (alloc_state s) (content s) (poll s) (proc s) (net_state s) (finished s) (received s).
Definition with_queue (x : rx_queue) (s : pipe) : pipe :=
  mk_pipe (ring s) (bufs s) (tail s) (pool s) x (counters s) (rdh s) (rdt s) (alloc_state s) (content s) (poll s) (proc s) (net_state s) (finished s) (received s).
Definition with_counters (x : rx_stats) (s : pipe) : pipe :=
  mk_pipe (ring s) (bufs s) (tail s) (pool s) (queue s) x (rdh s) (rdt s) (alloc_state s) (content s) (poll s) (proc s) (net_state s) (finished s) (received s).
Definition with_frames (x : P) (s : pipe) : pipe :=
  mk_pipe (ring s) (bufs s) (tail s) (pool s) (queue s) (counters s) (rdh s) (rdt s) x (content s) (poll s) (proc s) (net_state s) (finished s) (received s).
(** the new tail, and its predecessor in the register *)
Definition publish (t r : Z) (s : pipe) : pipe :=
  mk_pipe (ring s) (bufs s) t (pool s) (queue s) (counters s) (rdh s) r (alloc_state s) (content s) (poll s) (proc s) (net_state s) (finished s) (received s).
Definition record (h : handled) (n : net) (s : pipe) : pipe :=
  mk_pipe (ring s) (bufs s) (tail s) (pool s) (queue s) (counters s) (rdh s) (rdt s) (alloc_state s) (content s) (poll s) (proc s) n (finished s ++ [h]) (received s).

(** [e1000_poll_and_enqueue], called in a loop by [e1000_rx_poll_thread] *)
Definition poll_step (s : pipe) : res pipe :=
  match poll s with
  | PIdle => Ok (at_poll (PScan (tail s) (tail s) 0) s)
  | PScan i last n =>
    let! desc := fetch (ring s) i in
    if negb (Z.testbit (rx_status desc) 0) then Ok (at_poll (PEnd i last n) s)
    else
      let! (phys, x) := pool_pop (pool s) in
      if phys =? 0 then Ok (at_poll (PAlloc i last n) (with_counters (count_empty (counters s)) (with_pool x s)))
      else Ok (at_poll (PGot i last n phys) (with_pool x s))
  | PAlloc i last n => let! (phys, p) := page_alloc (alloc_state s) in Ok (at_poll (PGot i last n phys) (with_frames p s))
  | PGot i last n new =>
    let! desc := fetch (ring s) i in
    let! data := fetch (bufs s) i in
    let! (ok, q, c) := rx_queue_push (queue s) (mk_rxe data (rx_length desc) (rx_addr desc)) (counters s) in
    if (ok : bool) then Ok (at_poll (PBind i last n new (rx_length desc)) (with_counters c (with_queue q s)))
    else Ok (at_poll (PFull i last n new) s)
  | PFull i last n new =>
    let! (ok, x) := pool_push new (pool s) in
    if (ok : bool) then Ok (at_poll (PEnd i last n) (with_counters (count_full (counters s)) (with_pool x s)))
    else Ok (at_poll (PFree i last n new) s)
  | PFree i last n new => let! p := page_free new (alloc_state s) in Ok (at_poll (PEnd i last n) (with_counters (count_full (counters s)) (with_frames p s)))
  | PBind i last n new len =>
    let! desc := fetch (ring s) i in
    let! b := assign (bufs s) i new in
    let! r := assign (ring s) i (mk_rx new (rx_length desc) 0) in
    Ok (at_poll (PScan ((i + 1) mod Z.of_nat NUM_RX_DESC) i (n + 1)) (with_counters (count_packet len (counters s)) (with_ring r b s)))
  | PEnd i last n => Ok (at_poll PIdle (if 0 <? n then publish i last s else s))
  end.

(** a round of the loop of [e1000_rx_process_thread] *)
Definition proc_step (mac : list Z) (s : pipe) : res pipe :=
  match proc s with
  | CIdle =>
    let! (e, q) := rx_queue_pop (queue s) in
    match e with
    | Some e => Ok (at_proc (CHandle e) (with_queue q s))
    | None => Ok s
    end
  | CHandle e =>
    let page := content s (e_data e) in
    let! (f, n) := e1000_handle_packet mac page (e_len e) (net_state s) in
    Ok (at_proc (CPut e) (record (mk_handled e page f) n s))
  | CPut e =>
    let! (ok, x) := pool_push (e_phys e) (pool s) in
    if (ok : bool) then Ok (at_proc CIdle (with_pool x s)) else Ok (at_proc (CFree (e_phys e)) s)
  | CFree a => let! p := page_free a (alloc_state s) in Ok (at_proc CIdle (with_frames p s))
  end.

(** the device stores a packet in the buffer of its next descriptor, unless it has
    none left *)
Definition receive (data : list Z) (status : Z) (s : pipe) : pipe :=
  if rdh s =? rdt s then s
  else match ring s !! Z.to_nat (rdh s) with
  | None => s
  | Some d =>
    let page := data ++ drop (length data) (content s (rx_addr d)) in
    mk_pipe (<[Z.to_nat (rdh s) := mk_rx (rx_addr d) (zlen data) status]> (ring s)) (bufs s) (tail s) (pool s) (queue s) (counters s)
      ((rdh s + 1) mod Z.of_nat NUM_RX_DESC) (rdt s) (alloc_state s) (upd (content s) (rx_addr d) page) (poll s) (proc s) (net_state s) (finished s)
      (received s ++ [(rx_addr d, data)])
  end.

Inductive action := Poll | Process | Receive (data : list Z) (status : Z).

Definition act (mac : list Z) (a : action) (s : pipe) : res pipe :=
  match a with
  | Poll => poll_step s
  | Process => proc_step mac s
  | Receive data status => Ok (receive data status s)
  end.

Fixpoint interleave (mac : list Z) (l : list action) (s : pipe) : res pipe :=
  match l with
  | [] => Ok s
  | a :: l => let! s := act mac a s in interleave mac l s
  end.

(** ** The start *)

(** [rx_free_pool_refill] *)
Fixpoint refill (n : nat) (target : Z) (x : free_pool) (p : P) : res (free_pool * P) :=
  if (p_count x <? target) && (p_count x <? RX_FREE_POOL_SIZE) then
    match n with
    | O => Fault
    | S n =>
      let! (page, p) := page_alloc p in
      if page =? 0 then Ok (x, p)
      else let! l := assign (p_phys x) (p_count x) page in refill n target (mk_pool l (p_count x + 1)) p
    end
  else Ok (x, p).

Definition zero_entry : rx_entry := mk_rxe 0 0 0.

(** [e1000_rx_pipeline_init], called once with the ring that has just been made *)
Definition e1000_rx_pipeline_init (d : nic) (m : machine (P := P)) (n : net) : res pipe :=
  match rx_ring d with
  | None => Fault
  | Some r =>
    let! (x, p) := refill 256 RX_FREE_POOL_SIZE (mk_pool (replicate 256 0) 0) (pages m) in
    Ok (mk_pipe r (rx_buffers d) (rx_tail d) x (mk_queue (replicate 256 zero_entry) 0 0 0) (mk_rx_stats 0 0 0 0 0) 0 255 p (mem m) PIdle CIdle n [] [])
  end.
End Pipeline.
