(* ===== verification/NicRxSpec.v ===== *)
(** * The receive pipeline delivers what the device received

    Whatever the interleaving of the two threads and the device: every frame has one
    owner, and the packets are handled in order, each once, with the contents the
    device stored. *)

From stdpp Require Import base list.
From S2P Require Import Prelude Bytes PageAlloc Protocol ProtocolSpec Nic NicSpec NicRx.

(** ** Indices *)

Definition slot (k : nat) : nat := (k mod 256)%nat.
Definition idx (k : nat) : Z := Z.of_nat (slot k).

Lemma slot_lt k : (slot k < 256)%nat.
Proof. apply Nat.mod_upper_bound. lia. Qed.

Lemma slot_ne a b : (a < b < a + 256)%nat -> slot a <> slot b.
Proof.
  unfold slot. intros H E. pose proof (Nat.div_mod_eq a 256). pose proof (Nat.div_mod_eq b 256). nia.
Qed.

Lemma slot_wrap a : slot (a + 256) = slot a.
Proof. unfold slot. rewrite <- (Nat.mul_1_l 256) at 1. apply Nat.Div0.mod_add. Qed.

Lemma idx_next k : (idx k + 1) mod 256 = idx (S k).
Proof.
  unfold idx, slot. rewrite !Nat2Z.inj_mod. change (Z.of_nat 256) with 256. rewrite Zplus_mod_idemp_l. f_equal. lia.
Qed.

Lemma idx_nat k : Z.to_nat (idx k) = slot k.
Proof. unfold idx. apply Nat2Z.id. Qed.

(** every slot is the slot of a number in a window of 256 *)
Lemma fetch_ok {T} (l : list T) k x : l !! slot k = Some x -> fetch l (idx k) = Ok x.
Proof. intros H. unfold fetch. rewrite (proj2 (Z.ltb_ge _ 0)) by (unfold idx; lia). by rewrite idx_nat, H. Qed.

Lemma assign_ok {T} (l : list T) k x : length l = 256%nat -> assign l (idx k) x = Ok (<[slot k := x]> l).
Proof.
  intros HL. pose proof (slot_lt k). unfold assign. rewrite (proj2 (Z.leb_le 0 _)), (proj2 (Z.ltb_lt _ _)) by (unfold idx; lia). cbn [andb]. by rewrite idx_nat.
Qed.

(** ** The queue *)

Definition entry_at (q : rx_queue) (k : nat) : rx_entry := default zero_entry (q_entries q !! slot (Z.to_nat (q_head q) + k)).
Definition contents (q : rx_queue) : list rx_entry := map (entry_at q) (seq 0 (Z.to_nat (q_count q))).

Definition queue_ok (q : rx_queue) : Prop :=
  length (q_entries q) = 256%nat /\ 0 <= q_head q < 256 /\ 0 <= q_count q <= 256 /\ q_tail q = idx (Z.to_nat (q_head q) + Z.to_nat (q_count q)).

Lemma contents_length q : length (contents q) = Z.to_nat (q_count q).
Proof. unfold contents. by rewrite length_map, length_seq. Qed.

Lemma push_ok q e c : queue_ok q -> exists ok q' c', rx_queue_push q e c = Ok (ok, q', c') /\ queue_ok q' /\
  if (ok : bool) then contents q' = contents q ++ [e] else q' = q /\ c' = c /\ q_count q = 256.
Proof.
  intros (HL & HH & HC & HT). unfold rx_queue_push, RX_QUEUE_SIZE. destruct (Z.ltb_spec (q_count q) 256).
  - rewrite HT, assign_ok by done. cbn [res_bind]. eexists true, _, _. split; [done |]. set (t := (Z.to_nat (q_head q) + Z.to_nat (q_count q))%nat).
    split; [split_and!; cbn; [by rewrite length_insert | lia | lia | lia | lia |] |].
    + rewrite idx_next. f_equal. unfold t. lia.
    + unfold contents. cbn [q_count]. replace (Z.to_nat (q_count q + 1)) with (S (Z.to_nat (q_count q))) by lia. rewrite seq_S, map_app. cbn [map]. f_equal.
      * apply map_ext_in. intros k Hk%in_seq. unfold entry_at. cbn [q_entries q_head]. rewrite list_lookup_insert_ne; [done |]. unfold t. intros E. symmetry in E. revert E. apply slot_ne. lia.
      * unfold entry_at. cbn [q_entries q_head]. pose proof (slot_lt t). rewrite list_lookup_insert_eq by lia. done.
  - exists false, q, c. split; [done |]. split; [done |]. split; [done |]. split; [done | lia].
Qed.

Lemma pop_ok q : queue_ok q -> exists r q', rx_queue_pop q = Ok (r, q') /\ queue_ok q' /\
  match r with Some e => contents q = e :: contents q' | None => contents q = [] /\ q' = q end.
Proof.
  intros (HL & HH & HC & HT). unfold rx_queue_pop, RX_QUEUE_SIZE. destruct (Z.ltb_spec 0 (q_count q)).
  - set (hd := Z.to_nat (q_head q)) in *. assert (Hs : slot hd = hd) by (apply Nat.mod_small; lia).
    destruct (lookup_lt_is_Some_2 (q_entries q) hd) as [e He]; [lia |].
    assert (EF : fetch (q_entries q) (q_head q) = Ok e) by (unfold fetch; rewrite (proj2 (Z.ltb_ge _ 0)) by lia; fold hd; by rewrite He). rewrite EF. cbn [res_bind].
    eexists (Some e), _. split; [done |].
    assert (EN : (q_head q + 1) mod 256 = idx (S hd)) by (replace (q_head q) with (idx hd) by (unfold idx; rewrite Hs; lia); apply idx_next). rewrite EN. pose proof (slot_lt (S hd)).
    assert (ES : forall k, slot (Z.to_nat (idx (S hd)) + k) = slot (hd + S k)).
    { intros k. rewrite idx_nat. unfold slot. rewrite Nat.Div0.add_mod_idemp_l. f_equal. lia. }
    split; [split_and!; cbn; [done | unfold idx; lia | unfold idx; lia | lia | lia |] |].
    + rewrite HT. unfold idx. f_equal. replace (Z.to_nat (q_count q)) with (S (Z.to_nat (q_count q - 1))) by lia. rewrite <- (ES (Z.to_nat (q_count q - 1))). done.
    + unfold contents. cbn [q_count]. replace (Z.to_nat (q_count q)) with (S (Z.to_nat (q_count q - 1))) by lia. cbn [seq map]. f_equal.
      * unfold entry_at. fold hd. by rewrite Nat.add_0_r, Hs, He.
      * rewrite <- seq_shift, map_map. apply map_ext. intros k. unfold entry_at. cbn [q_entries q_head]. fold hd. by rewrite ES.
  - exists None, q. split; [done |]. split; [done |]. split; [| done]. unfold contents. by replace (Z.to_nat (q_count q)) with 0%nat by lia.
Qed.

(** ** The pool *)

Definition pool_ok (x : free_pool) : Prop := length (p_phys x) = 256%nat /\ 0 <= p_count x <= 256.
Definition pooled (x : free_pool) : list Z := take (Z.to_nat (p_count x)) (p_phys x).

Lemma pool_pop_ok x : pool_ok x -> exists a x', pool_pop x = Ok (a, x') /\ pool_ok x' /\ (pooled x = pooled x' ++ [a] \/ a = 0 /\ x' = x).
Proof.
  intros [HL HC]. unfold pool_pop. destruct (Z.ltb_spec 0 (p_count x)); [| exists 0, x; split; [done |]; split; [done | by right]].
  destruct (lookup_lt_is_Some_2 (p_phys x) (Z.to_nat (p_count x - 1))) as [a Ha]; [lia |]. unfold fetch. rewrite (proj2 (Z.ltb_ge _ 0)), Ha by lia. cbn [res_bind].
  eexists a, _. split; [done |]. split; [split; cbn; [done | lia] |]. left. unfold pooled. cbn [p_count p_phys].
  replace (Z.to_nat (p_count x)) with (S (Z.to_nat (p_count x - 1))) by lia. by apply take_S_r.
Qed.

Lemma pool_push_ok a x : pool_ok x -> exists ok x', pool_push a x = Ok (ok, x') /\ pool_ok x' /\ if (ok : bool) then pooled x' = pooled x ++ [a] else x' = x.
Proof.
  intros [HL HC]. unfold pool_push, RX_FREE_POOL_SIZE. destruct (Z.ltb_spec (p_count x) 256); [| by exists false, x].
  unfold assign. rewrite (proj2 (Z.leb_le 0 _)), (proj2 (Z.ltb_lt _ _)) by lia. cbn [andb res_bind]. eexists true, _. split; [done |].
  split; [split; cbn; [by rewrite length_insert | lia] |]. unfold pooled. cbn [p_count p_phys]. replace (Z.to_nat (p_count x + 1)) with (S (Z.to_nat (p_count x))) by lia.
  rewrite (take_S_r _ _ a) by (apply list_lookup_insert_eq; lia). by rewrite take_insert_ge by lia.
Qed.

(** ** The invariant *)

Section Invariant.
Context {P : Type} {PA : PageAllocator P} (mac : list Z) (F : list Z).
Abbreviation pipe := (pipe (P := P)).

(** the ring with the buffer that the polling thread is about to bind *)
Definition bound_ring (s : pipe) : list rx_desc :=
  match poll s with PBind i _ _ new _ => alter (bind_rx new) (Z.to_nat i) (ring s) | _ => ring s end.
Definition in_hand (pc : poll_pc) : list Z := match pc with PGot _ _ _ a | PFull _ _ _ a | PFree _ _ _ a => [a] | _ => [] end.
Definition taken (pc : proc_pc) : list Z := match pc with CHandle e | CPut e => [e_phys e] | CFree a => [a] | CIdle => [] end.

(** elements of concatenations in another order *)
Ltac perm := rewrite <- ?app_assoc; cbn [app in_hand taken]; repeat rewrite <- Permutation_middle; reflexivity.

(** every place that holds a buffer *)
Definition places (s : pipe) : list Z :=
  map rx_addr (bound_ring s) ++ pooled (pool s) ++ map e_phys (contents (queue s)) ++ in_hand (poll s) ++ taken (proc s).

(** the packets that are queued or about to be handled *)
Definition unhandled (pc : proc_pc) : list rx_entry := match pc with CHandle e => [e] | _ => [] end.
Definition waiting (s : pipe) : list rx_entry := unhandled (proc s) ++ contents (queue s).

Definition entry_of (r : Z * list Z) (e : rx_entry) : Prop := e_phys e = r.1 /\ e_data e = r.1 /\ e_len e = zlen r.2.
Definition intact (c : Z -> list Z) (r : Z * list Z) : Prop := r.1 <> 0 -> take (length r.2) (c r.1) = r.2.

(** the indices: [T0] descriptors have been given back, [T] have been taken *)
Definition cursor (i last n : Z) (T0 T : nat) : Prop := i = idx T /\ n = Z.of_nat (T - T0) /\ ((T0 < T)%nat -> last = idx (T + 255)).
Definition indices (s : pipe) (T0 T : nat) : Prop :=
  let H := length (received s) in
  tail s = idx T0 /\ rdt s = idx (T0 + 255) /\ rdh s = idx H /\ (T0 <= T <= H)%nat /\ (H <= T0 + 255)%nat /\
  match poll s with
  | PIdle => T = T0
  | PScan i last n | PEnd i last n => cursor i last n T0 T
  | PAlloc i last n | PGot i last n _ | PFull i last n _ | PFree i last n _ => cursor i last n T0 T /\ (T < H)%nat
  | PBind i last n _ _ => exists T', T = S T' /\ (T0 <= T')%nat /\ i = idx T' /\ n = Z.of_nat (T' - T0)
  end.

(** filled descriptors from [T] on, the others empty *)
Definition ring_ok (R : list rx_desc) (rcv : list (Z * list Z)) (T : nat) : Prop :=
  length R = 256%nat /\
  (forall k r, (T <= k)%nat -> rcv !! k = Some r -> exists st, R !! slot k = Some (mk_rx r.1 (zlen r.2) st) /\ Z.testbit st 0 = true) /\
  (forall k, (length rcv <= k < T + 256)%nat -> exists d, R !! slot k = Some d /\ Z.testbit (rx_status d) 0 = false).

Record inv (s : pipe) (T0 T : nat) : Prop := mk_inv {
  i_own : held (alloc_state s) (used (places s) ++ F);
  i_len : length (ring s) = 256%nat;
  i_bufs : bufs s = map rx_addr (ring s);
  i_pool : pool_ok (pool s);
  i_queue : queue_ok (queue s);
  i_ix : indices s T0 T;
  i_ring : ring_ok (bound_ring s) (received s) T;
  i_flow : Forall2 entry_of (take T (received s)) (map h_entry (finished s) ++ waiting s);
  i_intact : Forall (intact (content s)) (drop (length (finished s)) (received s));
  i_past : Forall2 (fun r h => r.1 <> 0 -> take (length r.2) (h_page h) = r.2) (take (length (finished s)) (received s)) (finished s);
  i_answers : Forall (fun h => answered mac (h_page h) (e_len (h_entry h)) (h_frames h)) (finished s);
  i_pages : forall a, zlen (content s a) = 4096 /\ bytes (content s a) }.

Lemma used_perm l l' : l ≡ₚ l' -> used l ≡ₚ used l'.
Proof. intros H. unfold used. by rewrite H. Qed.

Lemma own_perm p l l' : l ≡ₚ l' -> held p (used l ++ F) -> held p (used l' ++ F).
Proof. intros H. apply held_perm. by rewrite (used_perm _ _ H). Qed.

Lemma own_drop p l l' : l ≡ₚ 0 :: l' -> held p (used l ++ F) -> held p (used l' ++ F).
Proof. intros H. apply held_perm. by rewrite (used_perm _ _ H). Qed.

Lemma own_free (p : P) l l' a : held p (used l ++ F) -> l ≡ₚ a :: l' -> exists p', page_free a p = Ok p' /\ held p' (used l' ++ F).
Proof.
  intros HH H. destruct (decide (a = 0)) as [-> | Hn].
  - exists p. split; [apply page_free_null |]. by apply (own_drop p l l' H).
  - apply page_free_held. eapply held_perm; [| exact HH]. rewrite (used_perm _ _ H). unfold used. by rewrite filter_cons_True.
Qed.

Lemma own_alloc (p : P) l : held p (used l ++ F) -> exists a p', page_alloc p = Ok (a, p') /\ held p' (used (a :: l) ++ F).
Proof.
  intros HH. destruct (page_alloc_held p _ HH) as (a & p' & E & HR). exists a, p'. split; [done |]. destruct HR as [[-> ->] | ([Ha _] & _ & H')]; [done |].
  unfold used. by rewrite filter_cons_True by lia.
Qed.

(** ** The polling thread *)

Definition kept (r : res pipe) : Prop := exists s' T0 T, r = Ok s' /\ inv s' T0 T.

Lemma scan_desc s T0 T i last n : inv s T0 T -> poll s = PScan i last n ->
  exists d, fetch (ring s) i = Ok d /\ cursor i last n T0 T /\ (Z.testbit (rx_status d) 0 = true -> (T < length (received s))%nat).
Proof.
  intros I E. destruct (i_ix _ _ _ I) as (_ & _ & _ & HT & HH & HC). rewrite E in HC. pose proof (i_ring _ _ _ I) as (HL & HP & HE). unfold bound_ring in *. rewrite E in *.
  destruct (decide (T < length (received s))%nat) as [Hlt | Hge].
  - destruct (lookup_lt_is_Some_2 (received s) T Hlt) as [r Hr]. destruct (HP T r ltac:(lia) Hr) as (st & Hst & _). eexists. split; [| done].
    destruct HC as (-> & _). by apply fetch_ok.
  - destruct (HE T ltac:(lia)) as (d & Hd & Hb). exists d. split; [destruct HC as (-> & _); by apply fetch_ok |]. split; [done |]. congruence.
Qed.

Lemma poll_idle s T0 T : inv s T0 T -> poll s = PIdle -> kept (poll_step s).
Proof.
  intros I E. unfold poll_step. rewrite E. eexists _, T0, T. split; [done |]. destruct I. unfold places, bound_ring, indices in *. rewrite E in *.
  constructor; try done. unfold indices. cbn. destruct i_ix0 as (H1 & H2 & H3 & H4 & H5 & ->). do 5 (split; [done |]). unfold cursor. rewrite Nat.sub_diag. split; [done |]. split; [done | lia].
Qed.

Lemma poll_scan s T0 T i last n : inv s T0 T -> poll s = PScan i last n -> kept (poll_step s).
Proof.
  intros I E. destruct (scan_desc s T0 T i last n I E) as (d & Ed & HC & HD). unfold poll_step. rewrite E, Ed. cbn [res_bind].
  destruct (pool_pop_ok (pool s) (i_pool _ _ _ I)) as (a & x & EP & HX & Hx). destruct I. unfold places, bound_ring, indices in *. rewrite E in *.
  destruct (Z.testbit (rx_status d) 0); cbn [negb].
  2: { eexists _, T0, T. split; [done |]. constructor; try done. }
  specialize (HD eq_refl). rewrite EP. cbn [res_bind]. destruct i_ix0 as (H1 & H2 & H3 & H4 & H5 & _). destruct (Z.eqb_spec a 0) as [-> | Hn].
  - eexists _, T0, T. split; [done |]. constructor; try done. cbn. destruct Hx as [Hx | [_ ->]]; [| done]. eapply own_drop; [| exact i_own0]. rewrite Hx. cbn [in_hand app]. perm.
  - eexists _, T0, T. split; [done |]. constructor; try done. cbn. destruct Hx as [Hx | [-> _]]; [| done]. eapply own_perm; [| exact i_own0]. rewrite Hx. cbn [in_hand app]. perm.
Qed.

Lemma poll_alloc s T0 T i last n : inv s T0 T -> poll s = PAlloc i last n -> kept (poll_step s).
Proof.
  intros I E. unfold poll_step. rewrite E. destruct (own_alloc _ _ (i_own _ _ _ I)) as (a & p & -> & HH). cbn [res_bind]. destruct I. unfold places, bound_ring, indices in *. rewrite E in *.
  eexists _, T0, T. split; [done |]. constructor; try done. cbn. eapply own_perm; [| exact HH]. perm.
Qed.

Lemma alter_insert {T} (f : T -> T) (l : list T) k x : l !! k = Some x -> alter f k l = <[k := f x]> l.
Proof.
  intros H. apply list_eq. intros j. destruct (decide (j = k)) as [-> | Hn].
  - rewrite list_lookup_alter_eq, H, list_lookup_insert_eq by (by eapply lookup_lt_Some). done.
  - by rewrite list_lookup_alter_ne, list_lookup_insert_ne by done.
Qed.

Lemma slot_insert_perm {T} (l : list T) k a b : l !! k = Some b -> b :: <[k := a]> l ≡ₚ a :: l.
Proof.
  intros H. rewrite insert_take_drop by (by eapply lookup_lt_Some). rewrite <- (take_drop_middle l k b H) at 3. rewrite <- !Permutation_middle. apply Permutation_swap.
Qed.

Lemma bound_addr (s : pipe) k new d : ring s !! k = Some d -> rx_addr d :: map rx_addr (alter (bind_rx new) k (ring s)) ≡ₚ new :: map rx_addr (ring s).
Proof.
  intros H. rewrite (alter_insert _ _ _ _ H). rewrite list_fmap_insert. apply slot_insert_perm. by rewrite list_lookup_fmap, H.
Qed.

(** taking the packet of descriptor [T] *)
Lemma ring_taken R rcv T new : (T < length rcv <= T + 255)%nat -> ring_ok R rcv T -> ring_ok (alter (bind_rx new) (slot T) R) rcv (S T).
Proof.
  intros HT (HL & HP & HE). split; [by rewrite length_alter |]. split.
  - intros k r Hk Hr. pose proof (lookup_lt_Some _ _ _ Hr). rewrite list_lookup_alter_ne by (apply slot_ne; lia). apply HP; [lia | done].
  - intros k Hk. destruct (decide (k = T + 256)%nat) as [-> | Hn].
    + rewrite slot_wrap, list_lookup_alter_eq. destruct (lookup_lt_is_Some_2 R (slot T)) as [d Hd]; [rewrite HL; apply slot_lt |]. rewrite Hd. by eexists.
    + rewrite list_lookup_alter_ne by (apply slot_ne; lia). apply HE. lia.
Qed.

Lemma poll_got s T0 T i last n new : inv s T0 T -> poll s = PGot i last n new -> kept (poll_step s).
Proof.
  intros I E. unfold poll_step. rewrite E. destruct I. unfold places, bound_ring, indices in *. rewrite E in *. destruct i_ix0 as (H1 & H2 & H3 & H4 & H5 & (-> & Hn & Hlast) & HTH).
  destruct (lookup_lt_is_Some_2 (received s) T HTH) as [r Hr]. pose proof i_ring0 as (_ & HP & _). destruct (HP T r ltac:(lia) Hr) as (st & Hst & _).
  rewrite (fetch_ok _ _ _ Hst). cbn [res_bind]. rewrite i_bufs0, (fetch_ok _ _ r.1) by (change (map rx_addr ?l) with (rx_addr <$> l); by rewrite list_lookup_fmap, Hst). cbn [res_bind rx_length rx_addr].
  destruct (push_ok (queue s) (mk_rxe r.1 (zlen r.2) r.1) (counters s) i_queue0) as (ok & q & c & -> & HQ & Hq). cbn [res_bind]. destruct ok.
  - eexists _, T0, (S T). split; [done |]. constructor; try done; unfold places, bound_ring, indices, waiting; cbn.
    + eapply own_perm; [| exact i_own0]. rewrite Hq, idx_nat, map_app. cbn [map e_phys]. transitivity (new :: map rx_addr (ring s) ++ pooled (pool s) ++ map e_phys (contents (queue s)) ++ taken (proc s)); [perm |].
      change (new :: map rx_addr (ring s) ++ ?l) with ((new :: map rx_addr (ring s)) ++ l). rewrite <- (bound_addr s (slot T) new _ Hst). cbn [rx_addr]. perm.
    + do 3 (split; [done |]). split; [lia |]. split; [lia |]. exists T. split_and!; [done | lia | done | done].
    + rewrite idx_nat. apply ring_taken; [lia | done].
    + rewrite Hq. rewrite (take_S_r _ _ r Hr). rewrite !app_assoc. apply Forall2_app; [by rewrite <- app_assoc | by repeat constructor].
  - destruct Hq as (-> & -> & _). eexists _, T0, T. split; [done |]. constructor; try done.
Qed.

Lemma poll_full s T0 T i last n new : inv s T0 T -> poll s = PFull i last n new -> kept (poll_step s).
Proof.
  intros I E. unfold poll_step. rewrite E. destruct I. unfold places, bound_ring, indices in *. rewrite E in *. pose proof i_ix0 as (H1 & H2 & H3 & H4 & H5 & HC & _).
  destruct (pool_push_ok new (pool s) i_pool0) as (ok & x & -> & HX & Hx). cbn [res_bind]. destruct ok.
  - eexists _, T0, T. split; [done |]. constructor; try done. eapply own_perm; [| exact i_own0]. unfold places, bound_ring. cbn. rewrite Hx. perm.
  - subst x. eexists _, T0, T. split; [done |]. constructor; try done.
Qed.

Lemma poll_free s T0 T i last n new : inv s T0 T -> poll s = PFree i last n new -> kept (poll_step s).
Proof.
  intros I E. unfold poll_step. rewrite E. destruct I. unfold places, bound_ring, indices in *. rewrite E in *. pose proof i_ix0 as (H1 & H2 & H3 & H4 & H5 & HC & _).
  destruct (own_free _ _ (map rx_addr (ring s) ++ pooled (pool s) ++ map e_phys (contents (queue s)) ++ taken (proc s)) new i_own0) as (p & -> & HH); [perm |]. cbn [res_bind].
  eexists _, T0, T. split; [done |]. constructor; try done.
Qed.

Lemma poll_bind s T0 T i last n new len : inv s T0 T -> poll s = PBind i last n new len -> kept (poll_step s).
Proof.
  intros I E. unfold poll_step. rewrite E. destruct I. unfold places, bound_ring, indices in *. rewrite E in *. destruct i_ix0 as (H1 & H2 & H3 & H4 & H5 & T' & -> & HT' & -> & Hn).
  destruct (lookup_lt_is_Some_2 (ring s) (slot T')) as [d Hd]; [rewrite i_len0; apply slot_lt |]. rewrite (fetch_ok _ _ _ Hd). cbn [res_bind].
  rewrite assign_ok by (rewrite i_bufs0, length_map; done). cbn [res_bind]. rewrite assign_ok by done. cbn [res_bind].
  rewrite idx_nat, (alter_insert _ _ _ _ Hd) in *. change (mk_rx new (rx_length d) 0) with (bind_rx new d).
  eexists _, T0, (S T'). split; [done |]. constructor; try done; unfold places, bound_ring, indices; cbn.
  - by rewrite length_insert.
  - rewrite i_bufs0. by rewrite list_fmap_insert.
  - do 5 (split; [done |]). change (Z.of_nat NUM_RX_DESC) with 256. rewrite idx_next. split; [done |]. split; [lia |]. intros _. replace (S T' + 255)%nat with (T' + 256)%nat by lia. unfold idx. by rewrite slot_wrap.
Qed.

Lemma poll_end s T0 T i last n : inv s T0 T -> poll s = PEnd i last n -> kept (poll_step s).
Proof.
  intros I E. unfold poll_step. rewrite E. destruct I. unfold places, bound_ring, indices in *. rewrite E in *. destruct i_ix0 as (H1 & H2 & H3 & H4 & H5 & -> & -> & HL).
  destruct (Z.ltb_spec 0 (Z.of_nat (T - T0))).
  - eexists _, T, T. split; [done |]. rewrite HL by lia. constructor; try done. unfold indices. cbn. do 3 (split; [done |]). split; [lia |]. split; [lia | done].
  - eexists _, T0, T. split; [done |]. constructor; try done. unfold indices. cbn. do 5 (split; [done |]). lia.
Qed.

Lemma poll_step_ok s T0 T : inv s T0 T -> kept (poll_step s).
Proof.
  intros I. destruct (poll s) eqn:E; eauto using poll_idle, poll_scan, poll_alloc, poll_got, poll_bind, poll_full, poll_free, poll_end.
Qed.

(** ** The processing thread *)

Lemma flow_lengths s T0 T : inv s T0 T -> (length (finished s) + length (waiting s) = T)%nat /\ (T <= length (received s))%nat.
Proof.
  intros I. pose proof (Forall2_length _ _ _ (i_flow _ _ _ I)) as HL. destruct (i_ix _ _ _ I) as (_ & _ & _ & HT & _).
  rewrite length_app, length_map, length_take in HL. lia.
Qed.

Lemma proc_idle s T0 T : inv s T0 T -> proc s = CIdle -> kept (proc_step mac s).
Proof.
  intros I E. unfold proc_step. rewrite E. destruct (pop_ok (queue s) (i_queue _ _ _ I)) as (r & q & -> & HQ & Hq). cbn [res_bind]. destruct r as [e |]; [| by exists s, T0, T].
  destruct I. unfold places, indices, waiting in *. rewrite E in *. eexists _, T0, T. split; [done |]. constructor; try done; unfold places, waiting; cbn.
  - eapply own_perm; [| exact i_own0]. rewrite Hq. cbn [map]. change (bound_ring (at_proc (CHandle e) (with_queue q s))) with (bound_ring s). perm.
  - by rewrite Hq in i_flow0.
Qed.

Lemma proc_handle s T0 T e : zlen mac = 6 -> inv s T0 T -> proc s = CHandle e -> kept (proc_step mac s).
Proof.
  intros HM I E. unfold proc_step. rewrite E. pose proof (flow_lengths s T0 T I) as [HL HR]. destruct I. unfold places, indices, waiting in *. rewrite E in *. cbn [unhandled app length] in *.
  destruct (i_pages0 (e_data e)) as [HZ HB]. destruct (e1000_handle_packet_ok mac (content s (e_data e)) (e_len e) (net_state s) HB ltac:(lia) HM) as (f & nt & -> & HA & _). cbn [res_bind].
  destruct (lookup_lt_is_Some_2 (received s) (length (finished s))) as [r Hr]; [lia |].
  assert (He : entry_of r e).
  { eapply (Forall2_lookup_lr _ _ _ (length (finished s)) r e i_flow0); [rewrite lookup_take_lt by lia; done |]. rewrite lookup_app_r by (rewrite length_map; lia). by rewrite length_map, Nat.sub_diag. }
  rewrite (drop_S _ r _ Hr) in i_intact0. inversion i_intact0 as [| ? ? Hi Hrest]; subst. destruct He as (He1 & He2 & He3).
  eexists _, T0, _. split; [done |]. constructor; try done; unfold places, waiting; cbn.
  - by rewrite map_app, <- app_assoc.
  - by rewrite length_app, Nat.add_1_r.
  - rewrite length_app, Nat.add_1_r, (take_S_r _ _ r Hr). apply Forall2_app; [done |]. constructor; [| constructor]. cbn. rewrite He2. exact Hi.
  - apply Forall_app_2; [done | by repeat constructor].
Qed.

Lemma proc_put s T0 T e : inv s T0 T -> proc s = CPut e -> kept (proc_step mac s).
Proof.
  intros I E. unfold proc_step. rewrite E. destruct (pool_push_ok (e_phys e) (pool s) (i_pool _ _ _ I)) as (ok & x & -> & HX & Hx). cbn [res_bind].
  destruct I. unfold places, indices, waiting in *. rewrite E in *. destruct ok.
  - eexists _, T0, T. split; [done |]. constructor; try done. unfold places. cbn. eapply own_perm; [| exact i_own0]. rewrite Hx.
    change (bound_ring (at_proc CIdle (with_pool x s))) with (bound_ring s). perm.
  - subst x. eexists _, T0, T. split; [done |]. constructor; try done.
Qed.

Lemma proc_free s T0 T a : inv s T0 T -> proc s = CFree a -> kept (proc_step mac s).
Proof.
  intros I E. unfold proc_step. rewrite E. destruct I. unfold places, indices, waiting in *. rewrite E in *.
  destruct (own_free _ _ (map rx_addr (bound_ring s) ++ pooled (pool s) ++ map e_phys (contents (queue s)) ++ in_hand (poll s) ++ []) a i_own0) as (p & -> & HH);
    [cbn [taken]; perm |]. cbn [res_bind]. eexists _, T0, T. split; [done |]. constructor; try done.
Qed.

Lemma proc_step_ok s T0 T : zlen mac = 6 -> inv s T0 T -> kept (proc_step mac s).
Proof. intros HM I. destruct (proc s) eqn:E; eauto using proc_idle, proc_handle, proc_put, proc_free. Qed.

(** ** The device *)

Lemma used_once l i j a : NoDup (used l) -> l !! i = Some a -> l !! j = Some a -> a <> 0 -> i = j.
Proof.
  intros HN Hi Hj Ha. destruct (decide (i = j)) as [-> | Hne]; [done |]. exfalso.
  assert (HW : forall i j, (i < j)%nat -> l !! i = Some a -> l !! j = Some a -> False).
  { clear Hi Hj Hne i j. intros i j Hij Hi Hj. rewrite <- (take_drop (S i) l) in HN. rewrite used_app in HN. apply NoDup_app in HN as (_ & HN & _). apply (HN a).
    - apply list_elem_of_filter. split; [done |]. apply list_elem_of_lookup_2 with i. by rewrite lookup_take_lt by lia.
    - apply list_elem_of_filter. split; [done |]. apply list_elem_of_lookup_2 with (j - S i)%nat. rewrite lookup_drop. by replace (S i + (j - S i))%nat with j by lia. }
  destruct (decide (i < j)%nat); [by apply (HW i j) | apply (HW j i); done || lia].
Qed.

(** the buffer that the device fills holds no packet that is still to be handled *)
Lemma other_buffer s T0 T k r d : inv s T0 T -> (length (received s) < T0 + 255)%nat -> bound_ring s !! slot (length (received s)) = Some d ->
  (length (finished s) <= k)%nat -> received s !! k = Some r -> r.1 <> 0 -> r.1 <> rx_addr d.
Proof.
  intros I HH Hd Hk Hr Hn E. pose proof (flow_lengths s T0 T I) as [HL HR]. destruct (i_ix _ _ _ I) as (_ & _ & _ & HT & _). pose proof (lookup_lt_Some _ _ _ Hr) as HkH.
  pose proof (held_frames _ _ (i_own _ _ _ I)) as [HN _]. apply NoDup_app in HN as (HN & _ & _). pose proof (i_ring _ _ _ I) as (HRL & HP & _).
  assert (Hb : places s !! slot (length (received s)) = Some (rx_addr d)).
  { unfold places. apply lookup_app_l_Some. change (map rx_addr ?l) with (rx_addr <$> l). by rewrite list_lookup_fmap, Hd. }
  destruct (decide (T <= k)%nat) as [HTk | HTk].
  - destruct (HP k r HTk Hr) as (st & Hst & _). assert (Ha : places s !! slot k = Some r.1).
    { unfold places. apply lookup_app_l_Some. change (map rx_addr ?l) with (rx_addr <$> l). by rewrite list_lookup_fmap, Hst. }
    rewrite E in Ha, Hn. pose proof (used_once _ _ _ _ HN Ha Hb Hn) as HS. revert HS. apply slot_ne. lia.
  - assert (HE : r.1 ∈ map e_phys (contents (queue s)) ++ in_hand (poll s) ++ taken (proc s)).
    { destruct (Forall2_lookup_l _ _ _ k r (i_flow _ _ _ I)) as (e & He & <- & _); [by rewrite lookup_take_lt by lia |]. rewrite lookup_app_r in He by (rewrite length_map; lia).
      apply list_elem_of_lookup_2 in He. unfold waiting in He. apply elem_of_app in He as [He | He].
      - unfold unhandled in He. destruct (proc s); try by apply elem_of_nil in He. apply list_elem_of_singleton in He as ->. cbn [taken]. rewrite !elem_of_app. right. right. by apply list_elem_of_singleton.
      - apply elem_of_app. left. change (map e_phys ?l) with (e_phys <$> l). by apply list_elem_of_fmap_2. }
    assert (HE' : r.1 ∈ pooled (pool s) ++ map e_phys (contents (queue s)) ++ in_hand (poll s) ++ taken (proc s)) by (apply elem_of_app; by right).
    apply list_elem_of_lookup in HE' as [j Hj]. assert (Ha : places s !! (256 + j)%nat = Some r.1).
    { unfold places. rewrite lookup_app_r; rewrite length_map, HRL; [by replace (256 + j - 256)%nat with j by lia | lia]. }
    rewrite E in Ha, Hn. pose proof (used_once _ _ _ _ HN Ha Hb Hn) as HS. pose proof (slot_lt (length (received s))). lia.
Qed.

Lemma alter_insert_ne {T} (f : T -> T) (l : list T) i j x : i <> j -> alter f i (<[j := x]> l) = <[j := x]> (alter f i l).
Proof.
  intros Hn. apply list_eq. intros k. destruct (decide (k = i)) as [-> | Hi].
  - by rewrite list_lookup_alter_eq, !list_lookup_insert_ne, list_lookup_alter_eq by done.
  - rewrite list_lookup_alter_ne by done. destruct (decide (k = j)) as [-> | Hj]; [| by rewrite !list_lookup_insert_ne, list_lookup_alter_ne by done].
    destruct (decide (j < length l)%nat); [by rewrite !list_lookup_insert_eq by (rewrite ?length_alter; lia) |]. rewrite !list_insert_ge by (rewrite ?length_alter; lia). by rewrite list_lookup_alter_ne.
Qed.

(** a packet arrives in descriptor [H] *)
Lemma ring_filled R rcv T a data st : (T <= length rcv < T + 256)%nat -> Z.testbit st 0 = true -> ring_ok R rcv T ->
  ring_ok (<[slot (length rcv) := mk_rx a (zlen data) st]> R) (rcv ++ [(a, data)]) T.
Proof.
  intros HT Hst (HL & HP & HE). split; [by rewrite length_insert |]. split.
  - intros k r Hk Hr. apply lookup_app_Some in Hr as [Hr | [Hge Hr]].
    + pose proof (lookup_lt_Some _ _ _ Hr). rewrite list_lookup_insert_ne by (apply not_eq_sym, slot_ne; lia). by apply HP.
    + apply list_lookup_singleton_Some in Hr as [Hz <-]. assert (k = length rcv) as -> by lia. exists st. split; [| done]. apply list_lookup_insert_eq. rewrite HL. apply slot_lt.
  - intros k Hk. rewrite length_app in Hk. cbn in Hk. rewrite list_lookup_insert_ne by (apply slot_ne; lia). apply HE. lia.
Qed.

Lemma receive_ok data st s T0 T : bytes data -> zlen data <= 2048 -> Z.testbit st 0 = true -> inv s T0 T -> inv (receive data st s) T0 T.
Proof.
  intros HB HZ Hst I. unfold receive. pose proof (i_ix _ _ _ I) as (H1 & H2 & H3 & H4 & H5 & H6). destruct (Z.eqb_spec (rdh s) (rdt s)) as [| Hne]; [done |]. set (H := length (received s)) in *.
  assert (HH : (H < T0 + 255)%nat) by (destruct (decide (H = T0 + 255)%nat); [congruence | lia]). rewrite H3, idx_nat.
  destruct (lookup_lt_is_Some_2 (ring s) (slot H)) as [d Hd]; [rewrite (i_len _ _ _ I); apply slot_lt |]. rewrite Hd. set (s' := mk_pipe _ _ _ _ _ _ _ _ _ _ _ _ _ _ _).
  assert (EB : bound_ring s !! slot H = Some d /\ bound_ring s' = <[slot H := mk_rx (rx_addr d) (zlen data) st]> (bound_ring s)).
  { unfold bound_ring, s'. cbn [poll ring]. destruct (poll s); try done. destruct H6 as (T' & -> & HT' & -> & _). rewrite idx_nat. pose proof (slot_ne T' H ltac:(lia)).
    rewrite list_lookup_alter_ne by done. split; [done |]. by apply alter_insert_ne. }
  destruct EB as [Hb EB]. assert (EA : forall l : list rx_desc, l !! slot H = Some d -> map rx_addr (<[slot H := mk_rx (rx_addr d) (zlen data) st]> l) = map rx_addr l).
  { intros l Hl. rewrite list_fmap_insert. cbn [rx_addr]. apply list_insert_id. by rewrite list_lookup_fmap, Hl. }
  pose proof (fun k r d => other_buffer s T0 T k r d I) as HO. pose proof (flow_lengths s T0 T I) as [HF1 HF2]. destruct I.
  assert (EP : places s' = places s) by (unfold places; rewrite EB, EA by done; done).
  constructor; try done.
  - by rewrite EP.
  - cbn. by rewrite length_insert.
  - cbn. by rewrite EA.
  - unfold indices. cbn [received s' rdh rdt tail poll]. rewrite length_app. cbn [length]. fold H. rewrite Nat.add_1_r.
    do 2 (split; [done |]). split; [change (Z.of_nat NUM_RX_DESC) with 256; apply idx_next |]. split; [lia |]. split; [lia |]. destruct (poll s); try done; (split; [by destruct H6 | destruct H6; lia]).
  - rewrite EB. apply ring_filled; [lia | done | done].
  - cbn [received s' finished]. rewrite take_app_le by lia. done.
  - cbn [received s' finished content]. rewrite drop_app_le by lia. apply Forall_app_2.
    + apply Forall_forall. intros r Hr. apply list_elem_of_lookup in Hr as [j Hj]. pose proof (proj1 (Forall_lookup _ _) i_intact0 j r Hj) as Hi. rewrite lookup_drop in Hj.
      intros Hn. unfold upd. rewrite (proj2 (Z.eqb_neq _ _)); [by apply Hi |]. eapply HO; [exact HH | exact Hb | | exact Hj | exact Hn]. lia.
    + constructor; [| constructor]. intros _. cbn. unfold upd. rewrite Z.eqb_refl. apply take_app_length.
  - cbn [received s' finished]. by rewrite take_app_le by lia.
  - intros a. cbn [content s']. unfold upd. destruct (Z.eqb_spec a (rx_addr d)); [| done]. destruct (i_pages0 (rx_addr d)) as [HZ' HB']. split.
    + rewrite zlen_app. unfold zlen in *. rewrite length_drop. lia.
    + apply Forall_app_2; [done | by apply Forall_drop].
Qed.

(** what the device may do *)
Definition possible (a : action) : Prop :=
  match a with Receive data st => bytes data /\ zlen data <= 2048 /\ Z.testbit st 0 = true | _ => True end.

Lemma interleave_ok l s T0 T : zlen mac = 6 -> Forall possible l -> inv s T0 T -> kept (interleave mac l s).
Proof.
  intros HM HL. revert s T0 T. induction HL as [| a l Ha HL IH]; intros s T0 T I; [by exists s, T0, T |]. cbn [interleave].
  assert (HK : kept (act mac a s)).
  { destruct a as [| | data st]; cbn [act]; [by eapply poll_step_ok | by eapply proc_step_ok |]. destruct Ha as (H1 & H2 & H3). eexists _, T0, T. split; [done |]. by apply receive_ok. }
  destruct HK as (s' & T0' & T' & -> & I'). cbn [res_bind]. by eapply IH.
Qed.
End Invariant.

(** ** The start *)

Section Start.
Context {P : Type} {PA : PageAllocator P}.

Lemma refill_ok n x (p : P) G : pool_ok x -> 256 <= p_count x + Z.of_nat n -> held p (pooled x ++ G) ->
  exists x' p', refill n 256 x p = Ok (x', p') /\ pool_ok x' /\ held p' (pooled x' ++ G).
Proof.
  revert x p. induction n as [| n IH]; intros x p [HL HC] Hn HH; unfold refill; fold (refill (P := P)); unfold RX_FREE_POOL_SIZE.
  - rewrite (proj2 (Z.ltb_ge _ _)) by lia. by exists x, p.
  - destruct (Z.ltb_spec (p_count x) 256); cbn [andb]; [| by exists x, p]. destruct (page_alloc_held p _ HH) as (a & p1 & -> & HR). cbn [res_bind].
    destruct (Z.eqb_spec a 0) as [-> | Ha]; [exists x, p1; split; [done |]; split; [done |]; destruct HR as [[_ ->] | [[? _] _]]; done || lia |].
    destruct HR as [[? _] | (_ & _ & H1)]; [done |]. destruct (pool_push_ok a x (conj HL HC)) as (ok & x1 & E & HX & Hx). unfold pool_push, RX_FREE_POOL_SIZE in E.
    rewrite (proj2 (Z.ltb_lt _ _)) in E by done. destruct (assign (p_phys x) (p_count x) a) as [l0 | |]; [| done..]. cbn [res_bind] in E. injection E as <- <-. cbn [res_bind].
    apply IH; [done | cbn; lia |]. rewrite Hx. eapply held_perm; [| exact H1]. rewrite <- app_assoc. apply Permutation_middle.
Qed.

Lemma pipeline_init_ok mac d (m : machine) n F : rx_ready d (pages m) F -> (forall a, zlen (mem m a) = 4096 /\ bytes (mem m a)) ->
  exists s, e1000_rx_pipeline_init d m n = Ok s /\ inv mac (rx_ring_phys d :: F) s 0 0.
Proof.
  intros (r & Er & HL & (Hb & HZ) & Ht & HH) HP. unfold e1000_rx_pipeline_init. rewrite Er. change RX_FREE_POOL_SIZE with 256.
  destruct (refill_ok 256 (mk_pool (replicate 256 0) 0) (pages m) (map rx_addr r ++ rx_ring_phys d :: F)) as (x & p & -> & HX & HH'); [by split | done | eapply held_perm; [| exact HH]; apply Permutation_middle |].
  cbn [res_bind]. eexists. split; [reflexivity |]. match goal with |- inv _ _ ?y _ _ => set (s0 := y) end.
  assert (EP : places s0 = map rx_addr r ++ pooled x) by (unfold places, bound_ring, s0; cbn [poll ring pool queue proc in_hand taken]; apply f_equal, app_nil_r).
  assert (EU : used (map rx_addr r ++ pooled x) = map rx_addr r ++ pooled x).
  { apply used_frames. pose proof (held_frames _ _ HH') as [_ HF]. apply Forall_app in HF as [HF1 HF2]. apply Forall_app in HF2 as [HF2 _]. by apply Forall_app_2. }
  constructor; try done.
  - rewrite EP, EU. eapply held_perm; [| exact HH']. rewrite <- app_assoc. apply Permutation_app_swap_app.
  - unfold indices, s0. cbn [tail rdh rdt received poll length]. rewrite Ht. do 3 (split; [reflexivity |]). split; [lia |]. split; [lia | done].
  - split; [done |]. split; [done |]. intros k Hk. destruct (lookup_lt_is_Some_2 r (slot k)) as [dd Hd]; [rewrite HL; apply slot_lt |]. exists dd. split; [done |].
    rewrite (proj1 (Forall_lookup _ _) HZ _ _ Hd). done.
Qed.

(** the packets handled are the packets received, in order *)
Definition delivered (mac : list Z) (rcv : list (Z * list Z)) (fin : list handled) : Prop :=
  (length fin <= length rcv)%nat /\
  forall k h, fin !! k = Some h -> exists a data, rcv !! k = Some (a, data) /\ e_len (h_entry h) = zlen data /\
    (a <> 0 -> take (length data) (h_page h) = data) /\ answered mac (h_page h) (zlen data) (h_frames h).

Lemma inv_delivered mac F (s : pipe (P := P)) T0 T : inv mac F s T0 T -> delivered mac (received s) (finished s).
Proof.
  intros I. pose proof (flow_lengths mac F s T0 T I) as [HL HR]. destruct I. split; [lia |]. intros k h Hk. pose proof (lookup_lt_Some _ _ _ Hk).
  destruct (lookup_lt_is_Some_2 (received s) k) as [[a data] Hr]; [lia |]. exists a, data. split; [done |].
  assert (He : entry_of (a, data) (h_entry h)).
  { eapply (Forall2_lookup_lr _ _ _ k _ _ i_flow0); [rewrite lookup_take_lt by lia; done |]. apply lookup_app_l_Some. change (map h_entry ?l) with (h_entry <$> l). by rewrite list_lookup_fmap, Hk. }
  destruct He as (_ & _ & He). split; [done |]. split.
  - exact (Forall2_lookup_lr _ _ _ k _ _ i_past0 ltac:(by rewrite lookup_take_lt) Hk).
  - pose proof (proj1 (Forall_lookup _ _) i_answers0 k h Hk) as HA. cbn in HA. by rewrite He in HA.
Qed.
End Start.

(** ** Progress *)

Section Progress.
Context {P : Type} {PA : PageAllocator P} (mac : list Z) (F : list Z).
Hypothesis mac_length : zlen mac = 6.
Abbreviation pipe := (pipe (P := P)).
Abbreviation inv := (inv (P := P) mac F).

Lemma interleave_app l k (s s1 : pipe) : interleave mac l s = Ok s1 -> interleave mac (l ++ k) s = interleave mac k s1.
Proof.
  revert s. induction l as [| a l IH]; intros s; cbn [interleave app]; [by intros [= <-] |]. destruct (act mac a s) as [s2 | |]; cbn [res_bind]; [apply IH | done..].
Qed.

(** the work left for the processing thread *)
Definition proc_work (s : pipe) : nat :=
  (4 * length (contents (queue s)) + match proc s with CIdle => 0 | CFree _ => 1 | CPut _ => 2 | CHandle _ => 3 end)%nat.

Lemma proc_advances s s' T0 T : inv s T0 T -> proc_step mac s = Ok s' -> (0 < proc_work s)%nat ->
  (proc_work s' < proc_work s)%nat /\ (length (finished s') + length (waiting s') = length (finished s) + length (waiting s))%nat /\ received s' = received s.
Proof.
  intros I E HW. unfold proc_step, proc_work, waiting in *. destruct (proc s) as [| e | e | a] eqn:EP.
  - destruct (pop_ok (queue s) (i_queue _ _ _ _ _ I)) as (r & q & E1 & _ & Hq). rewrite E1 in E. cbn [res_bind] in E. destruct r as [e |]; [| destruct Hq as [Hq _]; rewrite Hq in HW; cbn in HW; lia].
    injection E as <-. cbn. rewrite ?EP, Hq. cbn. split; [lia |]. split; [lia | done].
  - apply res_bind_ok in E as ([f n] & _ & [= <-]). cbn. rewrite ?EP, ?length_app. cbn. split; [lia |]. split; [lia | done].
  - apply res_bind_ok in E as ([ok x] & _ & E). destruct ok; injection E as <-; cbn; rewrite ?EP; cbn; (split; [lia |]); (split; [lia | done]).
  - apply res_bind_ok in E as (p & _ & [= <-]). cbn. rewrite ?EP, ?length_app. cbn. split; [lia |]. split; [lia | done].
Qed.

Lemma process_all s T0 T : inv s T0 T -> exists n s' T0' T', interleave mac (replicate n Process) s = Ok s' /\ inv s' T0' T' /\
  proc_work s' = 0%nat /\ (length (finished s') + length (waiting s') = length (finished s) + length (waiting s))%nat /\ received s' = received s.
Proof.
  remember (proc_work s) as w eqn:Ew. revert s T0 T Ew. induction w as [w IH] using lt_wf_ind. intros s T0 T Ew I. destruct (decide (w = 0)%nat) as [-> | Hw]; [by exists 0%nat, s, T0, T |].
  destruct (proc_step_ok mac F s T0 T mac_length I) as (s1 & T01 & T1 & E & I1). destruct (proc_advances s s1 T0 T I E ltac:(lia)) as (HW & HP & HR).
  destruct (IH (proc_work s1) ltac:(lia) s1 T01 T1 eq_refl I1) as (n & s' & T0' & T' & E' & I' & HW' & HP' & HR'). exists (S n), s', T0', T'.
  cbn [replicate interleave act]. rewrite E. cbn [res_bind]. split_and!; [done | done | done | lia | congruence].
Qed.

(** the work left for the polling thread while the other one rests *)
Definition untaken (s : pipe) : nat := (length (received s) - (length (finished s) + length (contents (queue s))))%nat.
Definition poll_work (s : pipe) : nat :=
  let w := (5 * untaken s)%nat in
  match poll s with
  | PIdle => if decide (untaken s = 0)%nat then 0 else w + 4
  | PScan _ _ _ => w + 3
  | PAlloc _ _ _ => w + 2
  | PGot _ _ _ _ => w + 1
  | PBind _ _ _ _ _ => w + 4
  | PFull _ _ _ _ => w + 7
  | PFree _ _ _ _ => w + 6
  | PEnd _ _ _ => if decide (untaken s = 0)%nat then 1 else w + 5
  end%nat.

(** nothing queued that the polling thread has not queued since, so that the queue
    has room *)
Definition resting (s : pipe) : Prop := proc s = CIdle /\ (length (received s) - length (finished s) <= 255)%nat.

Lemma poll_advances s s' T0 T : inv s T0 T -> resting s -> poll_step s = Ok s' -> (0 < poll_work s)%nat ->
  (poll_work s' < poll_work s)%nat /\ resting s' /\ received s' = received s.
Proof.
  intros I [HC HR] E HW. pose proof (flow_lengths mac F s T0 T I) as [HF1 HF2]. unfold waiting in HF1. rewrite HC in HF1. cbn [unhandled app] in HF1.
  unfold poll_step, poll_work, untaken, resting in *. destruct (poll s) as [| i lst n | i lst n | i lst n new | i lst n new len | i lst n new | i lst n new | i lst n] eqn:EP.
  - injection E as <-. cbn. destruct (decide _); [lia |]. split; [lia | done].
  - destruct (scan_desc mac F s T0 T i lst n I EP) as (d & Ed & _ & HD). rewrite Ed in E. cbn [res_bind] in E.
    pose proof (i_ring _ _ _ _ _ I) as (_ & HP & _). destruct (Z.testbit (rx_status d) 0) eqn:EB; cbn [negb] in E.
    + specialize (HD eq_refl). apply res_bind_ok in E as ([a x] & _ & E). destruct (a =? 0); injection E as <-; cbn; (split; [lia | done]).
    + injection E as <-. cbn. destruct (decide (T < length (received s))%nat) as [Hlt | Hge].
      * exfalso. destruct (lookup_lt_is_Some_2 (received s) T Hlt) as [r Hr]. destruct (HP T r ltac:(lia) Hr) as (st & Hst & HB). unfold bound_ring in Hst. rewrite EP in Hst.
        destruct (i_ix _ _ _ _ _ I) as (_ & _ & _ & _ & _ & HI). rewrite EP in HI. destruct HI as (-> & _). rewrite (fetch_ok _ _ _ Hst) in Ed. injection Ed as <-. cbn [rx_status] in EB. congruence.
      * destruct (decide _); [| lia]. split; [lia | done].
  - apply res_bind_ok in E as ([a p] & _ & [= <-]). cbn. split; [lia | done].
  - apply res_bind_ok in E as (d & _ & E). apply res_bind_ok in E as (b & _ & E). destruct (push_ok (queue s) (mk_rxe b (rx_length d) (rx_addr d)) (counters s) (i_queue _ _ _ _ _ I)) as (ok & q & c & E1 & _ & Hq).
    rewrite E1 in E. cbn [res_bind] in E. destruct ok; injection E as <-; cbn.
    + rewrite Hq, length_app. cbn. destruct (i_ix _ _ _ _ _ I) as (_ & _ & _ & _ & _ & HI). rewrite EP in HI. destruct HI as [_ HI]. split; [lia | done].
    + exfalso. destruct Hq as (_ & _ & Hq). pose proof (contents_length (queue s)). lia.
  - apply res_bind_ok in E as (d & _ & E). apply res_bind_ok in E as (b & _ & E). apply res_bind_ok in E as (r & _ & [= <-]). cbn. split; [lia | done].
  - apply res_bind_ok in E as ([ok x] & _ & E). destruct ok; injection E as <-; cbn; [destruct (decide _) |]; (split; [lia | done]).
  - apply res_bind_ok in E as (p & _ & [= <-]). cbn. destruct (decide _); (split; [lia | done]).
  - injection E as <-. destruct (0 <? n); cbn; destruct (decide _); (split; [lia | done]).
Qed.

Lemma poll_all s T0 T : inv s T0 T -> resting s -> exists n s' T0' T', interleave mac (replicate n Poll) s = Ok s' /\ inv s' T0' T' /\ poll_work s' = 0%nat /\ resting s' /\ received s' = received s.
Proof.
  remember (poll_work s) as w eqn:Ew. revert s T0 T Ew. induction w as [w IH] using lt_wf_ind. intros s T0 T Ew I HR. destruct (decide (w = 0)%nat) as [-> | Hw]; [by exists 0%nat, s, T0, T |].
  destruct (poll_step_ok mac F s T0 T I) as (s1 & T01 & T1 & E & I1). destruct (poll_advances s s1 T0 T I HR E ltac:(lia)) as (HW & HR1 & HE).
  destruct (IH (poll_work s1) ltac:(lia) s1 T01 T1 eq_refl I1 HR1) as (n & s' & T0' & T' & E' & I' & HW' & HR' & HP'). exists (S n), s', T0', T'.
  cbn [replicate interleave act]. rewrite E. cbn [res_bind]. do 4 (split; [done |]). congruence.
Qed.

(** nothing blocks for ever: from every state the threads can handle all that has
    been received *)
Lemma can_finish s T0 T : inv s T0 T -> exists l s' T0' T', Forall (fun a => a = Poll \/ a = Process) l /\ interleave mac l s = Ok s' /\ inv s' T0' T' /\
  received s' = received s /\ length (finished s') = length (received s).
Proof.
  intros I. destruct (process_all s T0 T I) as (n1 & s1 & T01 & T1 & E1 & I1 & W1 & _ & R1).
  assert (HE : forall x : pipe, proc_work x = 0%nat -> proc x = CIdle /\ contents (queue x) = []).
  { intros x. unfold proc_work. destruct (proc x), (contents (queue x)); cbn; intros; done || lia. }
  destruct (HE s1 W1) as [C1 Q1]. assert (HR : resting s1).
  { split; [done |]. pose proof (flow_lengths mac F s1 T01 T1 I1) as [HF1 _]. unfold waiting in HF1. rewrite C1, Q1 in HF1. cbn in HF1. destruct (i_ix _ _ _ _ _ I1) as (_ & _ & _ & ? & ? & _). lia. }
  destruct (poll_all s1 T01 T1 I1 HR) as (n2 & s2 & T02 & T2 & E2 & I2 & W2 & R2 & E22). destruct (process_all s2 T02 T2 I2) as (n3 & s3 & T03 & T3 & E3 & I3 & W3 & L3 & R3).
  exists (replicate n1 Process ++ replicate n2 Poll ++ replicate n3 Process), s3, T03, T3. split.
  { repeat apply Forall_app_2; apply Forall_replicate; auto. }
  rewrite (interleave_app _ _ _ _ E1), (interleave_app _ _ _ _ E2), E3. split; [done |]. split; [done |]. split; [congruence |].
  destruct (HE s3 W3) as [C3 Q3]. destruct R2 as [C2 _]. unfold waiting in L3. rewrite C2, C3, Q3 in L3. cbn in L3.
  pose proof (flow_lengths mac F s2 T02 T2 I2) as [HF HF']. unfold waiting in HF. rewrite C2 in HF. cbn in HF.
  unfold poll_work in W2. assert (untaken s2 = 0%nat) as HU by (destruct (poll s2); try lia; destruct (decide _); done || lia). unfold untaken in HU. rewrite E22, R1 in *. lia.
Qed.
End Progress.
