(* ===== verification/NicTheorems.v ===== *)
(** * The network driver as a whole

    Up and down, and everything between: what the components of the driver give
    together, with a small machine on which it all runs. *)

From stdpp Require Import base list.
From S2P Require Import Prelude Bytes Pmm PageAlloc Heap Alloc KernelHeap Lifecycle.
From S2P Require Import Protocol ProtocolSpec Nic NicSpec NicRx NicRxSpec.

Section Driver.
Context {P : Type} {PA : PageAllocator P} {A : Type} {AL : Allocator A}.
Context (respond : list access -> Z -> Z) (driver_size : Z).
Hypothesis size_fits : 0 <= driver_size <= UINT64_MAX.

End Driver.

Section Receive.
Context {P : Type} {PA : PageAllocator P} (mac : list Z).

(** C9: the receive pipeline, for every interleaving of the two threads with a device
    that stores packets in the descriptors it owns.  No step fails.  Every page frame
    of the pipeline is in exactly one place: a descriptor, the pool, the queue or the
    hands of a thread, and nowhere else; none is lost.  The packets are handled in the
    order in which they arrived, each once, none invented; a packet handled from a
    buffer of its own has the length and the bytes that the device stored, although
    the device goes on storing; and its answer is the one of the protocols. *)
Theorem rx_pipeline_delivers d (m : machine (P := P)) n F : zlen mac = 6 -> rx_ready d (pages m) F -> (forall a, zlen (mem m a) = 4096 /\ bytes (mem m a)) ->
  exists s0, e1000_rx_pipeline_init d m n = Ok s0 /\ forall l, Forall possible l -> exists s, interleave mac l s0 = Ok s /\
    held (alloc_state s) (used (places s) ++ rx_ring_phys d :: F) /\ delivered mac (received s) (finished s).
Proof.
  intros HM HR HP. destruct (pipeline_init_ok mac d m n F HR HP) as (s0 & E & I). exists s0. split; [done |]. intros l Hl.
  destruct (interleave_ok mac (rx_ring_phys d :: F) l s0 0 0 HM Hl I) as (s & T0 & T & E' & I'). exists s. split; [done |]. split; [exact (i_own _ _ _ _ _ I') | by eapply inv_delivered].
Qed.

(** C33: nothing blocks for ever: after any run, with packets waiting in the ring and in
    the queue and the threads anywhere, also without memory for new buffers, there
    are steps of the two threads after which every packet received has been
    handled. *)
Theorem rx_pipeline_progress d (m : machine (P := P)) n F s0 l s : zlen mac = 6 -> rx_ready d (pages m) F -> (forall a, zlen (mem m a) = 4096 /\ bytes (mem m a)) ->
  e1000_rx_pipeline_init d m n = Ok s0 -> Forall possible l -> interleave mac l s0 = Ok s ->
  exists k s', Forall (fun a => a = Poll \/ a = Process) k /\ interleave mac k s = Ok s' /\ received s' = received s /\ length (finished s') = length (received s).
Proof.
  intros HM HR HP E0 Hl E. destruct (pipeline_init_ok mac d m n F HR HP) as (s1 & E1 & I). rewrite E0 in E1. injection E1 as <-.
  destruct (interleave_ok mac (rx_ring_phys d :: F) l s0 0 0 HM Hl I) as (s2 & T0 & T & E2 & I2). rewrite E in E2. injection E2 as <-.
  destruct (can_finish mac (rx_ring_phys d :: F) HM s T0 T I2) as (k & s' & T0' & T' & Hk & Ek & _ & HRc & HF). by exists k, s'.
Qed.
End Receive.

(** ** A small machine *)

(** 1024 free frames above the first megabyte *)
Definition ex_frames : pmm := mk_pmm (replicate 32 255 ++ replicate 128 0) 1280 (mk_page 1280 0 1 7 1024).

Lemma ex_frames_held : held ex_frames [].
Proof.
  split; [by vm_compute |]. exists 1024. split_and!; [| constructor | done | by vm_compute]. split; [| vm_compute; reflexivity]. split_and!; try (vm_compute; congruence).
  unfold ex_frames. simpl. repeat constructor; vm_compute; congruence.
Qed.

Definition no_answer (l : list access) (reg : Z) : Z := 0x12.
Definition ex_machine_nic : machine (P := pmm) := mk_machine ex_frames (fun _ => replicate 4096 0) [].

#[local] Instance nic_blocks : Allocator (kheap Heap.frames) := heap_allocator (Some 1).

Definition is_started (r : res (option (Z * nic) * kheap Heap.frames * machine (P := pmm))) : bool := match r with Ok (Some _, _, _) => true | _ => false end.

Lemma ex_started : is_started (e1000_start no_answer 4200 ex_kheap ex_machine_nic) = true.
Proof. vm_compute. reflexivity. Qed.

Lemma ex_size : 0 <= 4200 <= UINT64_MAX.
Proof. split; by vm_compute. Qed.

Lemma ex_up o a' m' : e1000_start no_answer 4200 ex_kheap ex_machine_nic = Ok (o, a', m') -> exists drv d, o = Some (drv, d).
Proof.
  intros E. pose proof (eq_trans (eq_sym (f_equal is_started E)) ex_started) as HS. destruct o as [[drv d] |]; [by exists drv, d | discriminate HS].
Qed.


Lemma page_of_zeros : zlen (replicate 4096 0) = 4096 /\ bytes (replicate 4096 0).
Proof. split; [by vm_compute |]. apply Forall_replicate. split; by vm_compute. Qed.

(** the driver that has come up *)
Lemma ex_driver : exists d (m : machine (P := pmm)) F, rx_ready d (pages m) F /\ forall a, zlen (mem m a) = 4096 /\ bytes (mem m a).
Proof.
  destruct (e1000_start_ok no_answer 4200 ex_kheap ex_machine_nic [] [] ex_size ex_kheap_live ex_frames_held) as (o & a' & m' & E & HM & HO).
  destruct (ex_up o a' m' E) as (drv & d & ->). destruct HO as (_ & _ & _ & _ & HR & _).
  exists d, m', (tx_frames d ++ []). split; [exact HR |]. intros a. rewrite HM. apply page_of_zeros.
Qed.

(** an echo request arrives while the polling thread is at work *)
Definition ex_packet : list Z := ex_echo 28 [].
Definition ex_actions : list action := [Poll; Receive ex_packet 3; Poll; Process; Poll; Receive ex_packet 3; Poll; Process; Process].

Lemma ex_possible : Forall possible ex_actions.
Proof.
  assert (HB : bytes ex_packet) by (apply bytes_check; vm_compute; reflexivity).
  repeat (apply Forall_cons; split; [done || (split; [exact HB | split; [by vm_compute | reflexivity]]) |]). apply Forall_nil_2.
Qed.

Lemma rx_pipeline_delivers_witness : exists d (m : machine (P := pmm)) s0 s,
  e1000_rx_pipeline_init d m ex_net = Ok s0 /\ interleave ex_mac ex_actions s0 = Ok s /\ delivered ex_mac (received s) (finished s).
Proof.
  destruct ex_driver as (d & m & F & HR & HP). destruct (rx_pipeline_delivers ex_mac d m ex_net F) as (s0 & E & HA).
  - reflexivity.
  - exact HR.
  - exact HP.
  - destruct (HA ex_actions ex_possible) as (s & E' & _ & HD). exists d, m, s0, s. split; [exact E |]. split; [exact E' | exact HD].
Defined.

Lemma ex_ran : exists d (m : machine (P := pmm)) F s0 s, rx_ready d (pages m) F /\ (forall a, zlen (mem m a) = 4096 /\ bytes (mem m a)) /\
  e1000_rx_pipeline_init d m ex_net = Ok s0 /\ interleave ex_mac ex_actions s0 = Ok s.
Proof.
  destruct ex_driver as (d & m & F & HR & HP). destruct (pipeline_init_ok ex_mac d m ex_net F HR HP) as (s0 & E & I).
  destruct (interleave_ok ex_mac (rx_ring_phys d :: F) ex_actions s0 0 0 eq_refl ex_possible I) as (s & T0 & T & E' & _). by exists d, m, F, s0, s.
Qed.

Lemma rx_pipeline_progress_witness : exists (s : pipe (P := pmm)) k s',
  interleave ex_mac k s = Ok s' /\ length (finished s') = length (received s).
Proof.
  destruct ex_ran as (d & m & F & s0 & s & HR & HP & E0 & E). destruct (rx_pipeline_progress ex_mac d m ex_net F s0 ex_actions s) as (k & s' & _ & Ek & _ & HF).
  - reflexivity.
  - exact HR.
  - exact HP.
  - exact E0.
  - exact ex_possible.
  - exact E.
  - exists s, k, s'. split; [exact Ek | exact HF].
Defined.
