(* ===== verification/Pci.v ===== *)
(** * PCI enumeration ([kernel/pci.c], [kernel/pci.h])

    The configuration space is hardware: a class gives the bytes that a read
    sees, the effect of a write, and which bits of a byte a write can change.
    Everything the kernel does with it is here: the access functions on the
    memory-mapped window, the probing of the base address registers, the scan of
    the buses with the search for the MSI capability, the table of legacy
    interrupt routes and the switches for the two kinds of interrupts.

    The list of devices is a list of descriptors with the addresses of their
    blocks; the blocks come from the interface of Alloc.v.  Messages are left
    out. *)

From stdpp Require Import base list.
From S2P Require Import Prelude Bytes Alloc PageAlloc Vmm.

(** ** The hardware *)

(** the bits [m] of [old] replaced by those of [new] *)
Definition merge (old new m : Z) : Z := Z.lor (Z.land old (Z.lnot m)) (Z.land new m).

(** Addresses are those of the window through which the processor sees the
    configuration space.  [cfg_rw a] has the bits of the byte that keep what is
    written; it is [None] for a register with another effect, on which nothing is
    assumed. *)
Class ConfigSpace (C : Type) := {
  cfg_byte : C -> Z -> Z;
  cfg_store : Z -> list Z -> C -> C;
  cfg_rw : C -> Z -> option Z;
  cfg_byte_range c a : 0 <= cfg_byte c a < 256;
  cfg_rw_range c a m : cfg_rw c a = Some m -> 0 <= m < 256;
  cfg_store_rw c a l i : cfg_rw (cfg_store a l c) i = cfg_rw c i;
  cfg_store_byte c a l i : (forall k, a <= k < a + zlen l -> cfg_rw c k <> None) ->
    cfg_byte (cfg_store a l c) i =
    if (a <=? i) && (i <? a + zlen l) then merge (cfg_byte c i) (nth (Z.to_nat (i - a)) l 0) (default 0 (cfg_rw c i))
    else cfg_byte c i
}.

Definition PCI_REG_VENDOR_ID : Z := 0x00.
Definition PCI_REG_DEVICE_ID : Z := 0x02.
Definition PCI_REG_COMMAND : Z := 0x04.
Definition PCI_REG_REVISION : Z := 0x08.
Definition PCI_REG_PROG_IF : Z := 0x09.
Definition PCI_REG_SUBCLASS : Z := 0x0A.
Definition PCI_REG_CLASS_CODE : Z := 0x0B.
Definition PCI_REG_HEADER_TYPE : Z := 0x0E.
Definition PCI_REG_BAR0 : Z := 0x10.
Definition PCI_REG_CAP_PTR : Z := 0x34.
Definition PCI_REG_INTERRUPT_LINE : Z := 0x3C.
Definition PCI_REG_INTERRUPT_PIN : Z := 0x3D.
Definition PCI_CAP_ID_MSI : Z := 0x05.
Definition PCI_MSI_CTRL : Z := 0x02.
Definition PCI_MSI_ADDR_LO : Z := 0x04.
Definition PCI_MSI_ADDR_HI : Z := 0x08.
Definition PCI_MSI_DATA_32 : Z := 0x08.
Definition PCI_MSI_DATA_64 : Z := 0x0C.
Definition PCI_MSI_CTRL_ENABLE : Z := 1.
Definition PCI_MSI_CTRL_MULTI_EN : Z := 0x70.
Definition PCI_MSI_CTRL_64BIT : Z := 0x80.
Definition PCIE_VIRT_BASE : Z := 0xFFFFC00000000000.
Definition PCI_MAX_BARS : nat := 6.
Definition PTE_WRITE_THROUGH : Z := 8.
Definition PTE_CACHE_DISABLE : Z := 16.
Definition MMIO_FLAGS : Z := Z.lor (Z.lor PTE_PRESENT PTE_WRITABLE) (Z.lor PTE_CACHE_DISABLE PTE_WRITE_THROUGH).

(** ** State *)

Record pci_device := mk_pdev {
  bus : Z; slot : Z; func : Z; vendor_id : Z; device_id : Z;
  class_code : Z; subclass : Z; prog_if : Z; rev : Z;
  bar_phys : list Z; bar_size : list Z; bar_type : list Z;
  irq_line : Z; irq_pin : Z; msi_cap_off : Z }.

(** the size of the structure, for its allocation *)
Definition PCI_DEVICE_SIZE : Z := 160.

(** one bar of a descriptor *)
Definition set_bar (i t phys size : Z) (d : pci_device) : pci_device :=
  mk_pdev (bus d) (slot d) (func d) (vendor_id d) (device_id d) (class_code d) (subclass d) (prog_if d) (rev d)
    (<[Z.to_nat i := phys]> (bar_phys d)) (<[Z.to_nat i := size]> (bar_size d)) (<[Z.to_nat i := t]> (bar_type d))
    (irq_line d) (irq_pin d) (msi_cap_off d).
Definition set_bar_type (i t : Z) (d : pci_device) : pci_device :=
  mk_pdev (bus d) (slot d) (func d) (vendor_id d) (device_id d) (class_code d) (subclass d) (prog_if d) (rev d)
    (bar_phys d) (bar_size d) (<[Z.to_nat i := t]> (bar_type d)) (irq_line d) (irq_pin d) (msi_cap_off d).

Record pci_intx_route := mk_route { child_addr_hi : Z; pin : Z; irq_id : Z }.
Definition PCI_INTX_ROUTE_MAX : Z := 32.

(** the variables of the file; of the route table the entries in use *)
Record pci := mk_pci {
  g_pcie_ecam_phys : Z; g_pcie_ecam_size : Z; g_pcie_bus_start : Z; g_pcie_bus_end : Z; g_pcie_virt_base : Z;
  g_pci_intx_routes : list pci_intx_route; g_pci_intx_addr_mask : Z; g_pci_intx_pin_mask : Z }.

Definition pci_boot : pci := mk_pci 0 0 0 0 0 [] 0x1800 0x7.

(** ** Routes of the legacy interrupts *)

Definition pci_set_intx_mask (addr pinm : Z) (s : pci) : pci :=
  mk_pci (g_pcie_ecam_phys s) (g_pcie_ecam_size s) (g_pcie_bus_start s) (g_pcie_bus_end s) (g_pcie_virt_base s)
    (g_pci_intx_routes s) addr pinm.

Definition pci_add_intx_route (addr p irq : Z) (s : pci) : pci :=
  if (p <? 1) || (4 <? p) || (irq =? 0) || (PCI_INTX_ROUTE_MAX <=? Z.of_nat (length (g_pci_intx_routes s))) then s
  else
    mk_pci (g_pcie_ecam_phys s) (g_pcie_ecam_size s) (g_pcie_bus_start s) (g_pcie_bus_end s) (g_pcie_virt_base s)
      (g_pci_intx_routes s ++ [mk_route (Z.land addr (g_pci_intx_addr_mask s)) (u8 (Z.land p (g_pci_intx_pin_mask s))) irq])
      (g_pci_intx_addr_mask s) (g_pci_intx_pin_mask s).

Fixpoint find_route (addr p : Z) (l : list pci_intx_route) : Z :=
  match l with
  | [] => 0
  | r :: l => if (child_addr_hi r =? addr) && (pin r =? p) then irq_id r else find_route addr p l
  end.

Definition pci_resolve_intx (b d f p : Z) (s : pci) : Z :=
  let addr := Z.lor (Z.lor (u32 (Z.shiftl b 16)) (Z.shiftl d 11)) (Z.shiftl f 8) in
  find_route (Z.land addr (g_pci_intx_addr_mask s)) (u8 (Z.land p (g_pci_intx_pin_mask s))) (g_pci_intx_routes s).

(** ** The window *)

Section Window.
Context {P : Type} {PA : PageAllocator P}.

Definition pcie_init (kernel_pml4 mcfg_phys_base : Z) (s : pci) (m : vm P) : res (pci * vm P) :=
  let with_base b := mk_pci (g_pcie_ecam_phys s) (g_pcie_ecam_size s) (g_pcie_bus_start s) (g_pcie_bus_end s) b
    (g_pci_intx_routes s) (g_pci_intx_addr_mask s) (g_pci_intx_pin_mask s) in
  if g_pcie_ecam_size s =? 0 then
    let! (r, m) := vmm_map_region kernel_pml4 PCIE_VIRT_BASE mcfg_phys_base (256 * 1024 * 1024) MMIO_FLAGS m in
    if r <? 0 then Panic else Ok (with_base PCIE_VIRT_BASE, m)
  else Ok (with_base (g_pcie_ecam_phys s), m).
End Window.

Section Access.
Context {C : Type} {CS : ConfigSpace C}.
(** [g_pcie_virt_base], which does not change after [pcie_init] *)
Variable base : Z.

Definition pci_get_config_addr (b d f : Z) : Z :=
  u64 (base + Z.lor (Z.lor (Z.shiftl (u8 b) 20) (Z.shiftl (u8 d) 15)) (Z.shiftl (u8 f) 12)).

(** a read of [n] bytes, the lowest first *)
Fixpoint cfg_read (n : nat) (a : Z) (c : C) : Z :=
  match n with
  | O => 0
  | S n => cfg_byte c a + 256 * cfg_read n (a + 1) c
  end.

Definition cfg_addr (b d f offset : Z) : Z := u64 (pci_get_config_addr b d f + u16 offset).

Definition pci_read32 (b d f offset : Z) (c : C) : Z := cfg_read 4 (cfg_addr b d f offset) c.
Definition pci_read16 (b d f offset : Z) (c : C) : Z := cfg_read 2 (cfg_addr b d f offset) c.
Definition pci_read8 (b d f offset : Z) (c : C) : Z := cfg_read 1 (cfg_addr b d f offset) c.
(** the value is read back, which has no effect *)
Definition pci_write32 (b d f offset v : Z) (c : C) : C := cfg_store (cfg_addr b d f offset) (enc 4 v) c.
Definition pci_write16 (b d f offset v : Z) (c : C) : C := cfg_store (cfg_addr b d f offset) (enc 2 v) c.
Definition pci_write8 (b d f offset v : Z) (c : C) : C := cfg_store (cfg_addr b d f offset) (enc 1 v) c.

(** ** Base address registers *)

Definition pci_max_bars (header_type : Z) : Z :=
  let t := Z.land header_type 0x7F in
  if t =? 0 then 6 else if t =? 1 then 2 else if t =? 2 then 1 else 0.

(** [~m] as an operand of 32 bits and of 64 bits *)
Definition not32 (m : Z) : Z := u32 (Z.lnot m).
Definition not64 (m : Z) : Z := u64 (Z.lnot m).

(** what the values read say: the last part of [pci_init_bar] *)
Definition decode_bar (i old_val old_high mask high_mask : Z) (is_64bit : bool) (d : pci_device) : pci_device :=
  if (mask =? 0) || (mask =? 0xFFFFFFFF) then d
  else if negb (Z.land old_val 1 =? 0) then
    set_bar i 1 (Z.land old_val (not32 3)) (u32 (not32 (Z.land mask (not32 3)) + 1)) d
  else if is_64bit then
    let full_mask := Z.lor mask (Z.shiftl high_mask 32) in
    if (full_mask =? 0) || (full_mask =? 0xFFFFFFFFFFFFFFFF) then set_bar_type i 0 d
    else set_bar i 0 (Z.lor (Z.land old_val (not32 15)) (Z.shiftl old_high 32)) (u64 (not64 (Z.land full_mask (not64 15)) + 1)) d
  else set_bar i 0 (Z.land old_val (not32 15)) (u32 (not32 (Z.land mask (not32 15)) + 1)) d.

Definition pci_init_bar (d : pci_device) (bar_idx : Z) (c : C) : pci_device * C :=
  let bar_reg := PCI_REG_BAR0 + bar_idx * 4 in
  let old_val := pci_read32 (bus d) (slot d) (func d) bar_reg c in
  let cmd := pci_read16 (bus d) (slot d) (func d) PCI_REG_COMMAND c in
  let c := pci_write16 (bus d) (slot d) (func d) PCI_REG_COMMAND (u16 (Z.land cmd (Z.lnot 3))) c in
  let is_64bit := Z.land old_val 6 =? 4 in
  let old_high := if is_64bit then pci_read32 (bus d) (slot d) (func d) (bar_reg + 4) c else 0 in
  let c := pci_write32 (bus d) (slot d) (func d) bar_reg 0xFFFFFFFF c in
  let mask := pci_read32 (bus d) (slot d) (func d) bar_reg c in
  let c := if is_64bit then pci_write32 (bus d) (slot d) (func d) (bar_reg + 4) 0xFFFFFFFF c else c in
  let high_mask := if is_64bit then pci_read32 (bus d) (slot d) (func d) (bar_reg + 4) c else 0 in
  let c := if is_64bit then pci_write32 (bus d) (slot d) (func d) (bar_reg + 4) old_high c else c in
  let c := pci_write32 (bus d) (slot d) (func d) bar_reg old_val c in
  let c := pci_write16 (bus d) (slot d) (func d) PCI_REG_COMMAND cmd c in
  (decode_bar bar_idx old_val old_high mask high_mask is_64bit d, c).

(** the loop over the bars of a function; a step advances by one or two *)
Fixpoint scan_bars (n : nat) (i max_bars : Z) (d : pci_device) (c : C) : res (pci_device * C) :=
  if i <? max_bars then
    match n with
    | O => Fault
    | S n =>
      let '(d, c) := pci_init_bar d i c in
      let bar_val := pci_read32 (bus d) (slot d) (func d) (PCI_REG_BAR0 + i * 4) c in
      let i := if (Z.land bar_val 1 =? 0) && (Z.land bar_val 6 =? 4) then i + 1 else i in
      scan_bars n (i + 1) max_bars d c
    end
  else Ok (d, c).

(** ** Capabilities *)

(** there are 192 values of the pointer that go on: a search that takes more steps
    takes them for ever *)
Definition CAP_STEPS : nat := 193.

(** the offset of the MSI capability, 0 without one; no result within the steps is
    [Fault] *)
Fixpoint find_msi (n : nat) (b d f cap_ptr : Z) (c : C) : res Z :=
  match n with
  | O => Fault
  | S n =>
    if 0x40 <=? cap_ptr then
      if pci_read8 b d f cap_ptr c =? PCI_CAP_ID_MSI then Ok cap_ptr
      else find_msi n b d f (pci_read8 b d f (cap_ptr + 1) c) c
    else Ok 0
  end.

(** ** Enumeration *)

Section Scan.
Context {A : Type} {AL : Allocator A}.
Variable s : pci.

Record scan_state := mk_scan { sc_cfg : C; sc_heap : A; g_pci_devices : list (Z * pci_device) }.

(** a loop over [l] whose body can leave the function, with [false] *)
Fixpoint each (l : list Z) (body : Z -> scan_state -> res (bool * scan_state)) (st : scan_state) : res (bool * scan_state) :=
  match l with
  | [] => Ok (true, st)
  | x :: l => let! (go, st) := body x st in if go then each l body st else Ok (false, st)
  end.

(** the fields read from the header of a function *)
Definition read_header (b d f v : Z) (c : C) : pci_device :=
  let pin := pci_read8 b d f PCI_REG_INTERRUPT_PIN c in
  let routed_irq := pci_resolve_intx b d f pin s in
  mk_pdev b d f v (pci_read16 b d f PCI_REG_DEVICE_ID c) (pci_read8 b d f PCI_REG_CLASS_CODE c)
    (pci_read8 b d f PCI_REG_SUBCLASS c) (pci_read8 b d f PCI_REG_PROG_IF c) (pci_read8 b d f PCI_REG_REVISION c)
    (replicate PCI_MAX_BARS 0) (replicate PCI_MAX_BARS 0) (replicate PCI_MAX_BARS 0)
    (if routed_irq =? 0 then pci_read8 b d f PCI_REG_INTERRUPT_LINE c else routed_irq) pin 0.

Definition with_msi (o : Z) (d : pci_device) : pci_device :=
  mk_pdev (bus d) (slot d) (func d) (vendor_id d) (device_id d) (class_code d) (subclass d) (prog_if d) (rev d)
    (bar_phys d) (bar_size d) (bar_type d) (irq_line d) (irq_pin d) o.

(** one function: the body of the innermost loop *)
Definition scan_function (b d f : Z) (st : scan_state) : res (bool * scan_state) :=
  let c := sc_cfg st in
  let v := pci_read16 b d f PCI_REG_VENDOR_ID c in
  if v =? 0xFFFF then Ok (true, st)
  else
    let func_header := pci_read8 b d f PCI_REG_HEADER_TYPE c in
    let! (p, a) := kmalloc PCI_DEVICE_SIZE (sc_heap st) in
    if p =? 0 then Ok (false, mk_scan c a (g_pci_devices st))
    else
      let dev := read_header b d f v c in
      let! msi := find_msi CAP_STEPS b d f (pci_read8 b d f PCI_REG_CAP_PTR c) c in
      let! (dev, c) := scan_bars PCI_MAX_BARS 0 (pci_max_bars func_header) (with_msi msi dev) c in
      Ok (true, mk_scan c a (g_pci_devices st ++ [(p, dev)])).

Definition scan_device (b d : Z) (st : scan_state) : res (bool * scan_state) :=
  if pci_read16 b d 0 PCI_REG_VENDOR_ID (sc_cfg st) =? 0xFFFF then Ok (true, st)
  else
    let header_type := pci_read8 b d 0 PCI_REG_HEADER_TYPE (sc_cfg st) in
    let func_count := if Z.land header_type 0x80 =? 0 then 1 else 8 in
    each (seqZ 0 func_count) (scan_function b d) st.

(** the loop variable has 16 bits: the loop ends for a last bus below 65535 *)
Definition pci_scan_all_buses (st : scan_state) : res (bool * scan_state) :=
  each (seqZ (g_pcie_bus_start s) (g_pcie_bus_end s - g_pcie_bus_start s + 1))
    (fun b => each (seqZ 0 32) (scan_device b)) st.

Definition pci_init (st : scan_state) : res scan_state := let! (_, st) := pci_scan_all_buses st in Ok st.
End Scan.

Fixpoint pci_find_device (vendor device : Z) (l : list (Z * pci_device)) : option (Z * pci_device) :=
  match l with
  | [] => None
  | x :: l => if (vendor_id x.2 =? vendor) && (device_id x.2 =? device) then Some x else pci_find_device vendor device l
  end.

(** ** Interrupts *)

(** writes to the registers of the I/O interrupt controller *)
Definition ioapic_set_entry (irq vector lapic_id : Z) (io : list (Z * Z)) : list (Z * Z) :=
  let reg := u8 (0x10 + irq * 2) in
  (u8 (reg + 1), u32 (Z.shiftl lapic_id 24)) :: (reg, u32 vector) :: io.

Definition PCI_IRQ_VECTOR_BASE : Z := 34.
Definition PCI_IRQ_VECTOR_MAX : Z := 47.
Definition PCI_IRQ_COUNT : Z := PCI_IRQ_VECTOR_MAX - PCI_IRQ_VECTOR_BASE + 1.

Definition arch_pci_irq_enable (irq : Z) (io : list (Z * Z)) : Z * list (Z * Z) :=
  if PCI_IRQ_COUNT <=? irq then (-1, io)
  else (0, ioapic_set_entry (u8 irq) (u8 (PCI_IRQ_VECTOR_BASE + irq)) 0 io).

Definition pci_enable_intx (dev : option pci_device) (c : C) (io : list (Z * Z)) : Z * C * list (Z * Z) :=
  match dev with
  | None => (-1, c, io)
  | Some d =>
    if (irq_pin d <? 1) || (4 <? irq_pin d) || (irq_line d =? 0) then (-1, c, io)
    else
      let '(r, io) := arch_pci_irq_enable (irq_line d) io in
      if r <? 0 then (-1, c, io)
      else
        let cmd := pci_read16 (bus d) (slot d) (func d) PCI_REG_COMMAND c in
        (0, pci_write16 (bus d) (slot d) (func d) PCI_REG_COMMAND (u16 (Z.land cmd (Z.lnot 1024))) c, io)
  end.

(** the address and the data of a message interrupt for a function; x86-64 has none *)
Definition arch_pci_msi_enable (b d f : Z) : option (Z * Z) := None.

Definition pci_enable_msi (msi : Z -> Z -> Z -> option (Z * Z)) (dev : option pci_device) (c : C) : Z * C :=
  match dev with
  | None => (-1, c)
  | Some d =>
    if msi_cap_off d =? 0 then (-1, c)
    else
      let write16 := pci_write16 (bus d) (slot d) (func d) in
      let write32 := pci_write32 (bus d) (slot d) (func d) in
      let cap := msi_cap_off d in
      let ctrl := pci_read16 (bus d) (slot d) (func d) (cap + PCI_MSI_CTRL) c in
      match msi (u8 (bus d)) (u8 (slot d)) (u8 (func d)) with
      | None => (-1, c)
      | Some (msi_addr, msi_data) =>
        let c := write32 (cap + PCI_MSI_ADDR_LO) (u32 msi_addr) c in
        let c :=
          if negb (Z.land ctrl PCI_MSI_CTRL_64BIT =? 0) then
            write16 (cap + PCI_MSI_DATA_64) (u16 msi_data) (write32 (cap + PCI_MSI_ADDR_HI) (u32 (Z.shiftr msi_addr 32)) c)
          else write16 (cap + PCI_MSI_DATA_32) (u16 msi_data) c in
        let ctrl := Z.lor (Z.land ctrl (u16 (Z.lnot PCI_MSI_CTRL_MULTI_EN))) PCI_MSI_CTRL_ENABLE in
        let c := write16 (cap + PCI_MSI_CTRL) ctrl c in
        let cmd := pci_read16 (bus d) (slot d) (func d) PCI_REG_COMMAND c in
        (0, write16 PCI_REG_COMMAND (Z.lor cmd 1024) c)
      end
  end.
End Access.
