(* ===== verification/PciSpec.v ===== *)
(** * What enumeration finds, and what it leaves

    Two configuration spaces are equivalent when every byte reads the same.  The
    lemmas: reads and writes respect the equivalence; probing a base address
    register gives the region that the register describes and restores every byte;
    the search for a capability ends exactly when the list does, within 193 steps;
    and the scan finds every function that is there. *)

From Stdlib Require Import Setoid Morphisms.
From stdpp Require Import base list.
From S2P Require Import Prelude Bytes Alloc PageAlloc Vmm Pci.

(** ** Bits *)

Lemma high_bits n a k : 0 <= a < 2 ^ n -> n <= k -> Z.testbit a k = false.
Proof.
  intros Ha Hk. destruct (decide (a = 0)) as [-> |]; [apply Z.bits_0 |]. apply Z.bits_above_log2; [lia |].
  apply Z.log2_lt_pow2; [lia |]. apply Z.lt_le_trans with (2 ^ n); [lia | apply Z.pow_le_mono_r; lia].
Qed.

Lemma lor_shift x y n : 0 <= n -> 0 <= y < 2 ^ n -> Z.lor (Z.shiftl x n) y = x * 2 ^ n + y.
Proof.
  intros Hn Hy. pose proof (Z.add_lor_land (Z.shiftl x n) y) as E. rewrite Z.shiftl_mul_pow2 in * by lia.
  assert (E0 : Z.land (x * 2 ^ n) y = 0); [| lia]. apply Z.bits_inj'. intros k Hk. rewrite Z.land_spec, Z.bits_0.
  destruct (decide (k < n)); [by rewrite Z.mul_pow2_bits_low by lia | by rewrite (high_bits n y), andb_false_r by lia].
Qed.

Lemma testbit_cons n a b k : 0 <= n -> 0 <= a < 2 ^ n -> 0 <= k ->
  Z.testbit (a + 2 ^ n * b) k = if k <? n then Z.testbit a k else Z.testbit b (k - n).
Proof.
  intros Hn Ha Hk. replace (a + 2 ^ n * b) with (Z.lor (Z.shiftl b n) a) by (rewrite lor_shift by done; lia).
  rewrite Z.lor_spec, Z.shiftl_spec by done. destruct (Z.ltb_spec k n); [by rewrite (Z.testbit_neg_r b) by lia |].
  rewrite (high_bits n a) by done. by rewrite orb_false_r.
Qed.

Lemma merge_bit v x m k : 0 <= k -> Z.testbit (merge v x m) k = if Z.testbit m k then Z.testbit x k else Z.testbit v k.
Proof.
  intros Hk. unfold merge. rewrite Z.lor_spec, !Z.land_spec, Z.lnot_spec by done.
  by destruct (Z.testbit v k), (Z.testbit x k), (Z.testbit m k).
Qed.

Lemma merge_back v x m : merge (merge v x m) v m = v.
Proof. apply Z.bits_inj'. intros k Hk. rewrite !merge_bit by done. by destruct (Z.testbit m k). Qed.

Lemma merge_self v m : merge v v m = v.
Proof. apply Z.bits_inj'. intros k Hk. rewrite !merge_bit by done. by destruct (Z.testbit m k). Qed.

Lemma small_bits n z : 0 <= n -> 0 <= z -> (forall k, n <= k -> Z.testbit z k = false) -> z < 2 ^ n.
Proof.
  intros Hn Hz Hb. destruct (decide (z = 0)) as [-> |]; [apply Z.pow_pos_nonneg; lia |].
  apply Z.log2_lt_pow2; [lia |]. destruct (Z.lt_ge_cases (Z.log2 z) n); [done |].
  pose proof (Z.bit_log2 z ltac:(lia)) as E. rewrite Hb in E by done. done.
Qed.

Lemma merge_range n v x m : 0 <= n -> 0 <= v < 2 ^ n -> 0 <= x < 2 ^ n -> 0 <= merge v x m < 2 ^ n.
Proof.
  intros Hn Hv Hx. assert (0 <= merge v x m) by (unfold merge; apply Z.lor_nonneg; split; apply Z.land_nonneg; lia).
  split; [done |]. apply small_bits; [done | done |]. intros k Hk. rewrite merge_bit by lia.
  rewrite (high_bits n v), (high_bits n x) by done. by destruct (Z.testbit m k).
Qed.

Lemma merge_cons n a b x y m w : 0 <= n -> 0 <= a < 2 ^ n -> 0 <= x < 2 ^ n -> 0 <= m < 2 ^ n ->
  merge (a + 2 ^ n * b) (x + 2 ^ n * y) (m + 2 ^ n * w) = merge a x m + 2 ^ n * merge b y w.
Proof.
  intros Hn Ha Hx Hm. apply Z.bits_inj'. intros k Hk. rewrite merge_bit by done.
  rewrite !testbit_cons by (done || by apply merge_range). rewrite !merge_bit by lia.
  destruct (Z.ltb_spec k n); [done |]. by rewrite merge_bit by lia.
Qed.

(** ** Reads and writes *)

Section Space.
Context {C : Type} {CS : ConfigSpace C}.

#[export] Instance config_equiv : Equiv C := fun c c' => forall i, cfg_byte c i = cfg_byte c' i /\ cfg_rw c i = cfg_rw c' i.

#[export] Instance config_equivalence : Equivalence (≡@{C}).
Proof.
  split.
  - intros c i. done.
  - intros c c' H i. destruct (H i). done.
  - intros c1 c2 c3 H1 H2 i. destruct (H1 i), (H2 i). split; congruence.
Qed.

#[export] Instance cfg_read_proper n a : Proper ((≡) ==> (=)) (cfg_read n a).
Proof.
  intros c c' H. revert a. induction n as [| n IH]; intros a; cbn [cfg_read]; [done |]. rewrite (IH (a + 1)). destruct (H a) as [-> _]. done.
Qed.

Definition plain (a n : Z) (c : C) : Prop := forall k, a <= k < a + n -> cfg_rw c k <> None.

#[export] Instance plain_proper a n : Proper ((≡) ==> iff) (plain a n).
Proof. intros c c' H. unfold plain. split; intros HP k Hk; destruct (H k) as [_ E]; [rewrite <- E | rewrite E]; auto. Qed.

Lemma plain_store a n b l c : plain a n c -> plain a n (cfg_store b l c).
Proof. intros H k Hk. rewrite cfg_store_rw. auto. Qed.

(** the bits of a word that keep what is written *)
Fixpoint rw_word (n : nat) (a : Z) (c : C) : Z :=
  match n with
  | O => 0
  | S n => default 0 (cfg_rw c a) + 256 * rw_word n (a + 1) c
  end.

Lemma rw_default c a : 0 <= default 0 (cfg_rw c a) < 256.
Proof. destruct (cfg_rw c a) as [m |] eqn:E; [by apply cfg_rw_range in E | done]. Qed.

Lemma cfg_read_range n a (c : C) : 0 <= cfg_read n a c < 256 ^ Z.of_nat n.
Proof.
  revert a. induction n as [| n IH]; intros a; cbn [cfg_read]; [done |]. pose proof (cfg_byte_range c a). pose proof (IH (a + 1)).
  rewrite Nat2Z.inj_succ, Z.pow_succ_r by lia. lia.
Qed.

Lemma rw_word_range n a (c : C) : 0 <= rw_word n a c < 256 ^ Z.of_nat n.
Proof.
  revert a. induction n as [| n IH]; intros a; cbn [rw_word]; [done |]. pose proof (rw_default c a). pose proof (IH (a + 1)).
  rewrite Nat2Z.inj_succ, Z.pow_succ_r by lia. lia.
Qed.

Lemma cfg_read_ext n a (c c' : C) : (forall k, a <= k < a + Z.of_nat n -> cfg_byte c k = cfg_byte c' k) -> cfg_read n a c = cfg_read n a c'.
Proof.
  revert a. induction n as [| n IH]; intros a H; cbn [cfg_read]; [done |]. rewrite (H a) by lia. rewrite (IH (a + 1)); [done |]. intros k Hk. apply H. lia.
Qed.

Lemma read_elsewhere n a b l (c : C) : plain b (zlen l) c -> a + Z.of_nat n <= b \/ b + zlen l <= a ->
  cfg_read n a (cfg_store b l c) = cfg_read n a c.
Proof. intros HP Hd. apply cfg_read_ext. intros k Hk. rewrite cfg_store_byte by done. zbool; simpl; (done || lia). Qed.

Lemma read_merge n a x (c c' : C) :
  (forall k, (k < n)%nat -> cfg_byte c' (a + Z.of_nat k) = merge (cfg_byte c (a + Z.of_nat k)) (nth k (enc n x) 0) (default 0 (cfg_rw c (a + Z.of_nat k)))) ->
  0 <= x < 256 ^ Z.of_nat n -> cfg_read n a c' = merge (cfg_read n a c) x (rw_word n a c).
Proof.
  revert a x. induction n as [| n IH]; intros a x H Hx; cbn [cfg_read rw_word].
  { simpl in Hx. by replace x with 0 by lia. }
  rewrite Nat2Z.inj_succ, Z.pow_succ_r in Hx by lia. pose proof (Z.div_mod x 256 ltac:(lia)) as E. pose proof (Z.mod_pos_bound x 256 ltac:(lia)).
  rewrite E at 1. rewrite (Z.add_comm (256 * _)). rewrite (merge_cons 8) by (done || apply cfg_byte_range || apply rw_default).
  rewrite <- (IH (a + 1) (x / 256)); [| | split; [apply Z.div_pos; lia | apply Z.div_lt_upper_bound; lia]].
  - pose proof (H 0%nat ltac:(lia)) as HB. rewrite Z.add_0_r in HB. cbn in HB. rewrite HB. done.
  - intros k Hk. pose proof (H (S k) ltac:(lia)) as H1. cbn [enc nth] in H1. replace (a + Z.of_nat (S k)) with (a + 1 + Z.of_nat k) in H1 by lia. exact H1.
Qed.

Lemma enc_zlen n x : zlen (enc n x) = Z.of_nat n.
Proof. unfold zlen. by rewrite enc_length. Qed.

Lemma read_written n a x (c : C) : plain a (Z.of_nat n) c -> 0 <= x < 256 ^ Z.of_nat n ->
  cfg_read n a (cfg_store a (enc n x) c) = merge (cfg_read n a c) x (rw_word n a c).
Proof.
  intros HP Hx. apply read_merge; [| done]. intros k Hk. rewrite cfg_store_byte by (by rewrite enc_zlen). rewrite enc_zlen.
  zbool; simpl; try lia. do 2 f_equal. lia.
Qed.

(** the bytes of a word that was read *)
Lemma enc_read n a (c : C) k : (k < n)%nat -> nth k (enc n (cfg_read n a c)) 0 = cfg_byte c (a + Z.of_nat k).
Proof.
  revert a k. induction n as [| n IH]; intros a k Hk; [lia |]. cbn [cfg_read enc]. pose proof (cfg_byte_range c a).
  destruct k as [| k]; cbn [nth].
  - rewrite Z.add_0_r. zlia.
  - replace ((cfg_byte c a + 256 * cfg_read n (a + 1) c) / 256) with (cfg_read n (a + 1) c) by zlia. rewrite IH by lia. f_equal. lia.
Qed.

Lemma store_equiv a l (c c' : C) : plain a (zlen l) c -> c ≡ c' -> cfg_store a l c ≡ cfg_store a l c'.
Proof.
  intros HP E i. assert (HP' : plain a (zlen l) c') by (by rewrite <- E). rewrite !cfg_store_rw. split; [| apply E]. rewrite !cfg_store_byte by done.
  destruct (E i) as [-> ->]. done.
Qed.

(** writing back what was read undoes a write *)
Lemma store_back n a l (c : C) : plain a (Z.of_nat n) c -> zlen l = Z.of_nat n -> cfg_store a (enc n (cfg_read n a c)) (cfg_store a l c) ≡ c.
Proof.
  intros HP HL i. rewrite !cfg_store_rw. split; [| done].
  rewrite cfg_store_byte by (rewrite enc_zlen; by apply plain_store). rewrite cfg_store_rw, enc_zlen.
  rewrite cfg_store_byte by (by rewrite HL). rewrite HL.
  zbool; simpl; try done. rewrite enc_read by lia. replace (a + Z.of_nat (Z.to_nat (i - a))) with i by lia. apply merge_back.
Qed.

(** ** Addresses *)

Variable base : Z.
Hypothesis base_ok : 0 <= base /\ base + 268500992 <= 18446744073709551616.
Abbreviation config := (pci_get_config_addr base).

(** each function has its own 4096 bytes of the window *)
Lemma config_addr b d f : 0 <= b < 256 -> 0 <= d < 32 -> 0 <= f < 8 -> config b d f = base + b * 1048576 + d * 32768 + f * 4096.
Proof.
  intros Hb Hd Hf. unfold pci_get_config_addr, u8. rewrite !Z.mod_small by lia.
  rewrite <- Z.lor_assoc. rewrite (lor_shift d) by (rewrite ?Z.shiftl_mul_pow2 by lia; lia).
  rewrite (lor_shift b) by (rewrite ?Z.shiftl_mul_pow2 by lia; lia). rewrite Z.shiftl_mul_pow2 by lia. rewrite u64_small by (red; lia). lia.
Qed.

Definition valid (b d f : Z) : Prop := 0 <= b < 256 /\ 0 <= d < 32 /\ 0 <= f < 8.

Lemma cfg_addr_eq b d f o : valid b d f -> 0 <= o < 65536 -> cfg_addr base b d f o = config b d f + o.
Proof.
  intros (Hb & Hd & Hf) Ho. unfold cfg_addr, u16. rewrite Z.mod_small by lia. rewrite u64_small; [done |]. rewrite config_addr by done. red. lia.
Qed.

Lemma pci_read8_eq b d f o (c : C) : valid b d f -> 0 <= o < 65536 -> pci_read8 base b d f o c = cfg_byte c (config b d f + o).
Proof. intros HV Ho. unfold pci_read8. rewrite cfg_addr_eq by done. cbn [cfg_read]. lia. Qed.

(** ** Probing *)

Definition bar_at (b d f i : Z) : Z := config b d f + 16 + 4 * i.
Definition is64 (v : Z) : bool := Z.land v 6 =? 4.
Definition ALL_ONES : Z := 0xFFFFFFFF.

(** the descriptor with bar [i] as the bits that can be written say *)
Definition probed (b d f i : Z) (c : C) (dev : pci_device) : pci_device :=
  let v := cfg_read 4 (bar_at b d f i) c in
  let vh := cfg_read 4 (bar_at b d f (i + 1)) c in
  let mask := merge v ALL_ONES (rw_word 4 (bar_at b d f i) c) in
  let high := merge vh ALL_ONES (rw_word 4 (bar_at b d f (i + 1)) c) in
  decode_bar i v (if is64 v then vh else 0) mask (if is64 v then high else 0) (is64 v) dev.

(** a function whose registers that probing touches behave *)
Definition plain_bar (b d f i : Z) (c : C) : Prop :=
  plain (config b d f + 4) 2 c /\ plain (bar_at b d f i) 4 c /\
  (is64 (cfg_read 4 (bar_at b d f i) c) = true -> plain (bar_at b d f (i + 1)) 4 c).

Lemma rw_word_store n a b l (c : C) : rw_word n a (cfg_store b l c) = rw_word n a c.
Proof. revert a. induction n as [| n IH]; intros a; cbn [rw_word]; [done |]. by rewrite cfg_store_rw, IH. Qed.

Lemma word_small (x : Z) : 0 <= x < 4294967296 -> 0 <= x < 256 ^ Z.of_nat 4.
Proof. done. Qed.

Lemma pci_init_bar_ok d i (c : C) : valid (bus d) (slot d) (func d) -> 0 <= i < 6 -> plain_bar (bus d) (slot d) (func d) i c ->
  exists c', pci_init_bar base d i c = (probed (bus d) (slot d) (func d) i c d, c') /\ c' ≡ c.
Proof.
  intros HV Hi (HC & HB & HH). unfold pci_init_bar, probed, pci_read32, pci_read16, pci_write32, pci_write16, PCI_REG_BAR0, PCI_REG_COMMAND.
  rewrite !cfg_addr_eq by (done || lia).
  replace (config (bus d) (slot d) (func d) + (16 + i * 4)) with (bar_at (bus d) (slot d) (func d) i) by (unfold bar_at; lia).
  replace (config (bus d) (slot d) (func d) + (16 + i * 4 + 4)) with (bar_at (bus d) (slot d) (func d) (i + 1)) by (unfold bar_at; lia).
  set (K := config (bus d) (slot d) (func d) + 4) in *. set (B := bar_at (bus d) (slot d) (func d) i) in *. set (H := bar_at (bus d) (slot d) (func d) (i + 1)) in *.
  assert (HKB : K + 2 <= B) by (unfold K, B, bar_at; lia). assert (HBH : H = B + 4) by (unfold H, B, bar_at; lia). clearbody K B H.
  fold (is64 (cfg_read 4 B c)). set (v := cfg_read 4 B c) in *. set (cmd := cfg_read 2 K c).
  set (c1 := cfg_store K (enc 2 _) c).
  assert (Hv1 : cfg_read 4 B c1 = v) by (apply read_elsewhere; rewrite enc_zlen; [done | lia]).
  assert (HB1 : plain B 4 c1) by (by apply plain_store).
  set (c2 := cfg_store B (enc 4 4294967295) c1).
  assert (Hm : cfg_read 4 B c2 = merge v ALL_ONES (rw_word 4 B c)).
  { unfold c2. rewrite read_written by done. rewrite Hv1. unfold c1. by rewrite rw_word_store. }
  assert (R2 : cfg_store B (enc 4 v) c2 ≡ c1) by (rewrite <- Hv1; apply (store_back 4 B); [done | by rewrite enc_zlen]).
  assert (R1 : cfg_store K (enc 2 cmd) c1 ≡ c) by (apply (store_back 2 K); [done | by rewrite enc_zlen]).
  assert (HR : forall c4, c4 ≡ c2 -> cfg_store K (enc 2 cmd) (cfg_store B (enc 4 v) c4) ≡ c).
  { intros c4 E. rewrite <- R1. apply store_equiv; [rewrite enc_zlen; apply plain_store; rewrite E; by do 2 apply plain_store |].
    rewrite <- R2. apply store_equiv; [rewrite enc_zlen, E; by apply plain_store | done]. }
  destruct (is64 v) eqn:E64; [| by eexists; rewrite Hm; split; [reflexivity | by apply HR]].
  specialize (HH eq_refl). assert (HH2 : plain H 4 c2) by (by do 2 apply plain_store).
  assert (Hh1 : cfg_read 4 H c1 = cfg_read 4 H c) by (apply read_elsewhere; rewrite enc_zlen; [done | lia]).
  assert (Hh2 : cfg_read 4 H c2 = cfg_read 4 H c) by (rewrite <- Hh1; apply read_elsewhere; rewrite enc_zlen; [done | lia]).
  eexists. split.
  - rewrite (read_written 4 H) by done. rewrite Hm, Hh1, Hh2. replace (rw_word 4 H c2) with (rw_word 4 H c) by (unfold c2, c1; by rewrite !rw_word_store). reflexivity.
  - apply HR. rewrite <- Hh2. apply (store_back 4 H); [done | by rewrite enc_zlen].
Qed.

(** ** Regions *)

Lemma land_not32 j x : 0 <= j -> is_u32 x -> Z.land x (not32 (2 ^ j - 1)) = x - x mod 2 ^ j.
Proof.
  intros Hj Hx. unfold not32, u32. change 4294967296 with (2 ^ 32). rewrite <- Z.land_ones by lia.
  rewrite Z.land_assoc, Z.land_comm, Z.land_assoc, (Z.land_comm (Z.ones 32) x), Z.land_ones, (Z.mod_small x) by (done || lia).
  replace (2 ^ j - 1) with (Z.ones j) by (rewrite Z.ones_equiv; lia). change (Z.land x (Z.lnot (Z.ones j))) with (Z.land x (Z.lnot (Z.ones j))).
  rewrite <- Z.ldiff_land, Z.ldiff_ones_r, Z.shiftl_mul_pow2, Z.shiftr_div_pow2 by lia.
  pose proof (Z.div_mod x (2 ^ j) ltac:(lia)). lia.
Qed.

(** the high bits of a value set, as a probe reads them *)
Lemma merge_ones n k v : 0 <= k <= n -> 0 <= v < 2 ^ n -> merge v (2 ^ n - 1) (2 ^ n - 2 ^ k) = 2 ^ n - 2 ^ k + v mod 2 ^ k.
Proof.
  intros Hk Hv. assert (Hp : 0 < 2 ^ k) by (apply Z.pow_pos_nonneg; lia).
  assert (E : 2 ^ n = 2 ^ (n - k) * 2 ^ k) by (rewrite <- Z.pow_add_r by lia; f_equal; lia).
  pose proof (Z.div_mod v (2 ^ k) ltac:(lia)) as Ev. pose proof (Z.mod_pos_bound v (2 ^ k) ltac:(lia)).
  rewrite Ev at 1. rewrite (Z.add_comm (2 ^ k * _)).
  replace (2 ^ n - 1) with (2 ^ k - 1 + 2 ^ k * (2 ^ (n - k) - 1)) by lia. replace (2 ^ n - 2 ^ k) with (0 + 2 ^ k * (2 ^ (n - k) - 1)) at 1 by lia.
  rewrite merge_cons by lia. replace (merge (v mod 2 ^ k) (2 ^ k - 1) 0) with (v mod 2 ^ k).
  2: { unfold merge. by rewrite Z.land_0_r, Z.lor_0_r, Z.land_m1_r. }
  replace (merge (v / 2 ^ k) (2 ^ (n - k) - 1) (2 ^ (n - k) - 1)) with (2 ^ (n - k) - 1); [lia |].
  replace (2 ^ (n - k) - 1) with (Z.ones (n - k)) by (rewrite Z.ones_equiv; lia).
  apply Z.bits_inj'. intros j Hj. rewrite merge_bit by done. destruct (Z.testbit (Z.ones (n - k)) j) eqn:Eo; [done |].
  symmetry. rewrite Z.testbit_ones_nonneg in Eo by lia. apply Z.ltb_ge in Eo. apply (high_bits (n - k)); [| done].
  split; [apply Z.div_pos; lia | apply Z.div_lt_upper_bound; lia].
Qed.

(** what a base address register describes: nothing, or [2 ^ k] bytes at an address *)
Inductive region := NoRegion | Io (addr k : Z) | Mem32 (addr k : Z) | Mem64 (addr k : Z).

(** the register at index [i] as the bus specification lays it out: the low bits
    give the kind, the bits that can be written are those of the address from the
    size of the region on *)
Definition describes_bar (b d f i : Z) (c : C) (r : region) : Prop :=
  let v := cfg_read 4 (bar_at b d f i) c in
  let w := rw_word 4 (bar_at b d f i) c in
  let vh := cfg_read 4 (bar_at b d f (i + 1)) c in
  let wh := rw_word 4 (bar_at b d f (i + 1)) c in
  match r with
  | NoRegion => v = 0 /\ w = 0
  | Io a k => v = a + 1 /\ w = 2 ^ 32 - 2 ^ k /\ 2 <= k <= 31 /\ a mod 2 ^ k = 0
  | Mem32 a k => (v = a \/ v = a + 2 \/ v = a + 8 \/ v = a + 10) /\ w = 2 ^ 32 - 2 ^ k /\ 4 <= k <= 31 /\ a mod 2 ^ k = 0
  | Mem64 a k => (v + 2 ^ 32 * vh = a + 4 \/ v + 2 ^ 32 * vh = a + 12) /\ w + 2 ^ 32 * wh = 2 ^ 64 - 2 ^ k /\ 4 <= k <= 63 /\ a mod 2 ^ k = 0
  end.

Definition bar_of (dev : pci_device) (i : Z) : option Z * option Z * option Z :=
  (bar_type dev !! Z.to_nat i, bar_phys dev !! Z.to_nat i, bar_size dev !! Z.to_nat i).

(** the entry of a descriptor for a region *)
Definition entry_of (r : region) : option Z * option Z * option Z :=
  match r with
  | NoRegion => (Some 0, Some 0, Some 0)
  | Io a k => (Some 1, Some a, Some (2 ^ k))
  | Mem32 a k | Mem64 a k => (Some 0, Some a, Some (2 ^ k))
  end.

Definition six (dev : pci_device) : Prop := length (bar_type dev) = 6%nat /\ length (bar_phys dev) = 6%nat /\ length (bar_size dev) = 6%nat.

Lemma set_bar_same i t p s dev : six dev -> 0 <= i < 6 -> bar_of (set_bar i t p s dev) i = (Some t, Some p, Some s).
Proof. intros (H1 & H2 & H3) Hi. unfold bar_of, set_bar. cbn. rewrite !list_lookup_insert_eq by lia. done. Qed.

Lemma neg32 y : 0 < y <= 4294967296 -> u32 (not32 (4294967296 - y) + 1) = u32 y.
Proof. intros Hy. unfold not32, u32, Z.lnot. zlia. Qed.

Lemma low_bits v m n : 0 <= n -> 0 <= m < 2 ^ n -> Z.land v m = Z.land (v mod 2 ^ n) m.
Proof.
  intros Hn Hm. rewrite <- Z.land_ones by done. rewrite <- Z.land_assoc, (Z.land_comm (Z.ones n)). rewrite Z.land_ones by done. by rewrite Z.mod_small by done.
Qed.

(** a power of two that is a multiple of another *)
Lemma pow_mod a j k : 0 <= j <= k -> a mod 2 ^ k = 0 -> a mod 2 ^ j = 0.
Proof.
  intros Hj Ha. apply Z.mod_divide; [lia |]. apply Z.mod_divide in Ha; [| lia]. destruct Ha as [q ->].
  exists (q * 2 ^ (k - j)). rewrite <- Z.mul_assoc, <- Z.pow_add_r by lia. do 2 f_equal. lia.
Qed.

Lemma mod_plus a fl k : a mod 2 ^ k = 0 -> 0 <= fl < 2 ^ k -> (a + fl) mod 2 ^ k = fl.
Proof. intros Ha Hf. rewrite Zplus_mod, Ha, Z.add_0_l, Zmod_mod. by apply Z.mod_small. Qed.

Lemma pow_le k n : 0 <= k <= n -> 0 < 2 ^ k <= 2 ^ n.
Proof. intros H. split; [apply Z.pow_pos_nonneg; lia | apply Z.pow_le_mono_r; lia]. Qed.

Lemma probe_32 v a fl t k : v = a + fl -> 0 <= v < 4294967296 -> 0 <= fl < 2 ^ t -> 0 <= t <= k -> k <= 31 -> a mod 2 ^ k = 0 ->
  merge v ALL_ONES (2 ^ 32 - 2 ^ k) = 4294967296 - 2 ^ k + fl /\ Z.land v (not32 (2 ^ t - 1)) = a /\
  u32 (not32 (Z.land (4294967296 - 2 ^ k + fl) (not32 (2 ^ t - 1))) + 1) = 2 ^ k.
Proof.
  intros -> Hv Hf Ht Hk Ha. pose proof (pow_le t k ltac:(lia)). pose proof (pow_le k 31 ltac:(lia)) as Hk2. change (2 ^ 31) with 2147483648 in Hk2. split; [| split].
  - change ALL_ONES with (2 ^ 32 - 1). rewrite merge_ones by (change (2 ^ 32) with 4294967296; lia). by rewrite mod_plus by lia.
  - rewrite land_not32 by (done || lia). rewrite (mod_plus a fl t); [lia | by apply (pow_mod a t k) | lia].
  - rewrite land_not32 by (unfold is_u32; lia). assert (E : (4294967296 - 2 ^ k) mod 2 ^ t = 0).
    { apply (pow_mod _ t k); [lia |]. change 4294967296 with (2 ^ 32). replace (2 ^ 32 - 2 ^ k) with ((2 ^ (32 - k) - 1) * 2 ^ k); [apply Z_mod_mult |].
      rewrite Z.mul_sub_distr_r, <- Z.pow_add_r by lia. replace (32 - k + k) with 32 by lia. lia. }
    rewrite (mod_plus _ fl t) by (done || lia). replace (4294967296 - 2 ^ k + fl - fl) with (4294967296 - 2 ^ k) by lia.
    rewrite neg32 by lia. apply u32_small. red. lia.
Qed.

Lemma neg64 y : 0 < y < 18446744073709551616 -> u64 (not64 (18446744073709551616 - y) + 1) = y.
Proof. intros Hy. unfold not64, u64, Z.lnot. zlia. Qed.

Lemma probe_64 v vh w wh a fl k : v + 2 ^ 32 * vh = a + fl -> w + 2 ^ 32 * wh = 2 ^ 64 - 2 ^ k ->
  0 <= v < 4294967296 -> 0 <= vh < 4294967296 -> 0 <= w < 4294967296 -> 0 <= fl < 16 -> 4 <= k <= 63 -> a mod 2 ^ k = 0 ->
  let full := Z.lor (merge v ALL_ONES w) (Z.shiftl (merge vh ALL_ONES wh) 32) in
  full = 18446744073709551616 - 2 ^ k + fl /\ Z.lor (Z.land v (not32 15)) (Z.shiftl vh 32) = a /\
  u64 (not64 (Z.land full (not64 15)) + 1) = 2 ^ k /\ v mod 16 = fl /\ merge v ALL_ONES w mod 16 = fl.
Proof.
  intros Ev Ew Hv Hvh Hw Hf Hk Ha full. pose proof (pow_le k 63 ltac:(lia)) as Hk2. change (2 ^ 63) with 9223372036854775808 in Hk2. pose proof (pow_le 4 k ltac:(lia)) as Hk3.
  assert (HL : 0 <= merge v ALL_ONES w < 2 ^ 32) by (by apply merge_range).
  assert (EF : full = 18446744073709551616 - 2 ^ k + fl).
  { unfold full. rewrite Z.lor_comm, lor_shift by done. replace (merge vh ALL_ONES wh * 2 ^ 32 + merge v ALL_ONES w) with (merge (v + 2 ^ 32 * vh) (ALL_ONES + 2 ^ 32 * ALL_ONES) (w + 2 ^ 32 * wh)) by (rewrite merge_cons by done; lia).
    rewrite Ev, Ew. change (ALL_ONES + 2 ^ 32 * ALL_ONES) with (2 ^ 64 - 1). rewrite merge_ones; [| lia | change (2 ^ 64) with 18446744073709551616; lia].
    by rewrite mod_plus by lia. }
  assert (H16 : forall x, x mod 2 ^ k = 0 -> x mod 16 = 0) by (intros x; apply (pow_mod x 4 k); lia).
  assert (Em : v mod 16 = fl) by (specialize (H16 a Ha); zlia).
  assert (Ek : (18446744073709551616 - 2 ^ k) mod 16 = 0).
  { apply H16. change 18446744073709551616 with (2 ^ 64). replace (2 ^ 64 - 2 ^ k) with ((2 ^ (64 - k) - 1) * 2 ^ k); [apply Z_mod_mult |].
    rewrite Z.mul_sub_distr_r, <- Z.pow_add_r by lia. replace (64 - k + k) with 64 by lia. lia. }
  split; [done |]. split; [| split; [| split; [done |]]].
  - change 15 with (2 ^ 4 - 1). rewrite land_not32 by (done || lia). rewrite Z.lor_comm, lor_shift by (done || zlia). zlia.
  - rewrite EF. change (not64 15) with (u64 (Z.lnot (2 ^ 4 - 1))). rewrite land_lnot_ones by (unfold is_u64; lia). change (2 ^ 4) with 16.
    replace (_ - _ mod 16) with (18446744073709551616 - 2 ^ k) by zlia. by rewrite neg64 by lia.
  - unfold full in EF. rewrite Z.lor_comm, lor_shift in EF by done. zlia.
Qed.

(** the cases of [decode_bar], by the low bits of the value *)
Lemma decode_io i v vh mask high sixty dev : v mod 2 = 1 -> mask <> 0 -> mask <> 0xFFFFFFFF ->
  decode_bar i v vh mask high sixty dev = set_bar i 1 (Z.land v (not32 3)) (u32 (not32 (Z.land mask (not32 3)) + 1)) dev.
Proof.
  intros Hv H0 H1. unfold decode_bar. rewrite (proj2 (Z.eqb_neq mask 0)), (proj2 (Z.eqb_neq mask _)) by done.
  rewrite (low_bits v 1 1) by lia. change (2 ^ 1) with 2. by rewrite Hv.
Qed.

Lemma decode_mem i v vh mask high sixty dev : v mod 2 = 0 -> mask <> 0 -> mask <> 0xFFFFFFFF ->
  decode_bar i v vh mask high sixty dev =
  if sixty then
    let full_mask := Z.lor mask (Z.shiftl high 32) in
    if (full_mask =? 0) || (full_mask =? 0xFFFFFFFFFFFFFFFF) then set_bar_type i 0 dev
    else set_bar i 0 (Z.lor (Z.land v (not32 15)) (Z.shiftl vh 32)) (u64 (not64 (Z.land full_mask (not64 15)) + 1)) dev
  else set_bar i 0 (Z.land v (not32 15)) (u32 (not32 (Z.land mask (not32 15)) + 1)) dev.
Proof.
  intros Hv H0 H1. unfold decode_bar. rewrite (proj2 (Z.eqb_neq mask 0)), (proj2 (Z.eqb_neq mask _)) by done.
  rewrite (low_bits v 1 1) by lia. change (2 ^ 1) with 2. by rewrite Hv.
Qed.

Lemma is64_low v fl : v mod 16 = fl -> is64 v = is64 fl.
Proof. intros <-. unfold is64. rewrite (low_bits v 6 4) by lia. done. Qed.

Lemma probed_region b d f i c dev r : describes_bar b d f i c r -> six dev -> 0 <= i < 6 -> bar_of dev i = (Some 0, Some 0, Some 0) ->
  bar_of (probed b d f i c dev) i = entry_of r.
Proof.
  intros HD H6 Hi HZ. unfold probed, describes_bar in *. pose proof (cfg_read_range 4 (bar_at b d f i) c) as Hv. pose proof (cfg_read_range 4 (bar_at b d f (i + 1)) c) as Hvh.
  pose proof (rw_word_range 4 (bar_at b d f i) c) as Hw. change (256 ^ Z.of_nat 4) with 4294967296 in *.
  set (v := cfg_read 4 (bar_at b d f i) c) in *. set (w := rw_word 4 (bar_at b d f i) c) in *.
  set (vh := cfg_read 4 (bar_at b d f (i + 1)) c) in *. set (wh := rw_word 4 (bar_at b d f (i + 1)) c) in *. clearbody v w vh wh.
  destruct r as [| a k | a k | a k]; [by destruct HD as [-> ->] | | |].
  - destruct HD as (E & -> & Hk & Ha). destruct (probe_32 v a 1 2 k E Hv ltac:(lia) ltac:(lia) ltac:(lia) Ha) as (-> & EP & ES).
    pose proof (pow_le k 31 ltac:(lia)) as Hk2. change (2 ^ 31) with 2147483648 in Hk2. pose proof (pow_le 2 k ltac:(lia)). pose proof (pow_mod a 1 k ltac:(lia) Ha) as H1.
    change (2 ^ 1) with 2 in H1. change (2 ^ 2 - 1) with 3 in *. rewrite decode_io by zlia. rewrite set_bar_same by done. by rewrite EP, ES.
  - destruct HD as (E & -> & Hk & Ha). assert (exists fl, v = a + fl /\ 0 <= fl < 16 /\ fl mod 2 = 0 /\ is64 fl = false) as (fl & E' & Hf & Hf2 & Hf6).
    { destruct E as [E | [E | [E | E]]]; [exists 0 | exists 2 | exists 8 | exists 10]; (split; [lia | split; [lia | done]]). }
    destruct (probe_32 v a fl 4 k E' Hv Hf ltac:(lia) ltac:(lia) Ha) as (-> & EP & ES). pose proof (pow_le k 31 ltac:(lia)) as Hk2. change (2 ^ 31) with 2147483648 in Hk2.
    pose proof (pow_le 4 k ltac:(lia)). pose proof (pow_mod a 4 k ltac:(lia) Ha) as H1. change (2 ^ 4) with 16 in *. change (16 - 1) with 15 in *.
    rewrite (is64_low v fl), Hf6 by zlia. rewrite decode_mem by zlia. rewrite set_bar_same by done. by rewrite EP, ES.
  - destruct HD as (E & Ew & Hk & Ha). assert (exists fl, v + 2 ^ 32 * vh = a + fl /\ 0 <= fl < 14 /\ fl mod 2 = 0 /\ 0 < fl /\ is64 fl = true) as (fl & E' & Hf & Hf2 & Hf0 & Hf6).
    { destruct E as [E | E]; [exists 4 | exists 12]; (split; [lia | split; [lia | done]]). }
    destruct (probe_64 v vh w wh a fl k E' Ew Hv Hvh Hw ltac:(lia) Hk Ha) as (EF & EP & ES & Em & EM). cbn zeta in *. pose proof (pow_le k 63 ltac:(lia)) as Hk2. change (2 ^ 63) with 9223372036854775808 in Hk2.
    pose proof (pow_le 4 k ltac:(lia)) as Hk3. change (2 ^ 4) with 16 in *. rewrite (is64_low v fl), Hf6 by done. rewrite decode_mem by zlia. cbn zeta.
    rewrite (proj2 (Z.eqb_neq _ 0)), (proj2 (Z.eqb_neq _ 18446744073709551615)) by lia. cbn [orb]. rewrite set_bar_same by done. by rewrite EP, ES.
Qed.

Definition id_fields (d : pci_device) :=
  (bus d, slot d, func d, vendor_id d, device_id d, class_code d, subclass d, prog_if d, rev d, irq_line d, irq_pin d, msi_cap_off d).

Lemma decode_bar_frame i v vh m h x dev : six dev -> 0 <= i < 6 -> let dev' := decode_bar i v vh m h x dev in
  id_fields dev' = id_fields dev /\ six dev' /\ forall j, 0 <= j -> j <> i -> bar_of dev' j = bar_of dev j.
Proof.
  intros (H1 & H2 & H3) Hi. unfold decode_bar. repeat case_match; (split; [done |]; split; [unfold six, set_bar, set_bar_type; cbn; by rewrite ?length_insert |]);
    intros j Hj Hne; unfold bar_of, set_bar, set_bar_type; cbn; rewrite ?list_lookup_insert_ne by lia; done.
Qed.

(** the bar that the scan looks at after bar [i] *)
Definition next_bar (b d f i : Z) (c : C) : Z :=
  let v := cfg_read 4 (bar_at b d f i) c in if (Z.land v 1 =? 0) && is64 v then i + 2 else i + 1.

(** the bars of a function: a 64-bit one takes two places *)
Fixpoint bar_starts (n : nat) (b d f i max : Z) (c : C) : list Z :=
  match n with
  | O => []
  | S n => if i <? max then i :: bar_starts n b d f (next_bar b d f i c) max c else []
  end.

Lemma bar_starts_range n b d f i max c j : j ∈ bar_starts n b d f i max c -> i <= j < max.
Proof.
  revert i. induction n as [| n IH]; intros i; cbn [bar_starts]; [by intros ?%not_elem_of_nil |].
  destruct (Z.ltb_spec i max); [| by intros ?%not_elem_of_nil]. intros [-> | Hj]%elem_of_cons; [lia |]. apply IH in Hj.
  unfold next_bar in Hj. destruct (_ && _); lia.
Qed.

#[export] Instance rw_word_proper n a : Proper ((≡) ==> (=)) (rw_word n a).
Proof.
  intros c c' H. revert a. induction n as [| n IH]; intros a; cbn [rw_word]; [done |]. rewrite (IH (a + 1)). destruct (H a) as [_ ->]. done.
Qed.

#[export] Instance plain_bar_proper b d f i : Proper ((≡) ==> iff) (plain_bar b d f i).
Proof. intros c c' H. unfold plain_bar. by rewrite H. Qed.

#[export] Instance describes_proper b d f i : Proper ((≡) ==> (=) ==> iff) (describes_bar b d f i).
Proof. intros c c' H r r' <-. unfold describes_bar. cbn zeta. by destruct r; rewrite !H. Qed.

#[export] Instance next_bar_proper b d f i : Proper ((≡) ==> (=)) (next_bar b d f i).
Proof. intros c c' H. unfold next_bar. cbn zeta. by rewrite H. Qed.

#[export] Instance bar_starts_proper n b d f i max : Proper ((≡) ==> (=)) (bar_starts n b d f i max).
Proof.
  intros c c' H. revert i. induction n as [| n IH]; intros i; cbn [bar_starts]; [done |]. rewrite IH, H. done.
Qed.

(** the bars of a descriptor are those the registers describe *)
Definition bars_found (b d f max : Z) (c : C) (dev : pci_device) (from : Z) (starts : list Z) : Prop :=
  six dev /\ (forall i r, i ∈ starts -> describes_bar b d f i c r -> bar_of dev i = entry_of r) /\
  (forall i, from <= i < 6 -> i ∉ starts -> bar_of dev i = (Some 0, Some 0, Some 0)).

Lemma scan_bars_ok b d f max (c0 : C) : valid b d f -> 0 <= max <= 6 -> (forall i, 0 <= i < max -> plain_bar b d f i c0) ->
  forall n i dev c, c ≡ c0 -> 0 <= i -> max <= i + Z.of_nat n -> bus dev = b -> slot dev = d -> func dev = f -> six dev ->
  (forall j, i <= j < 6 -> bar_of dev j = (Some 0, Some 0, Some 0)) ->
  exists dev' c', scan_bars base n i max dev c = Ok (dev', c') /\ c' ≡ c0 /\ id_fields dev' = id_fields dev /\
    (forall j, 0 <= j < i -> bar_of dev' j = bar_of dev j) /\ bars_found b d f max c0 dev' i (bar_starts n b d f i max c0).
Proof.
  intros HV Hm HP. induction n as [| n IH]; intros i dev c Ec Hi Hn Hb Hd Hf H6 HZ; cbn [scan_bars bar_starts].
  { replace (i <? max) with false by (symmetry; lia). exists dev, c. do 4 (split; [done |]). split; [done |]. split; [by intros ? ? ?%not_elem_of_nil | auto]. }
  destruct (Z.ltb_spec i max) as [Hlt |].
  2: { exists dev, c. do 4 (split; [done |]). split; [done |]. split; [by intros ? ? ?%not_elem_of_nil | auto]. }
  destruct (pci_init_bar_ok dev i c) as (c1 & -> & E1); [by subst | lia | rewrite Hb, Hd, Hf; apply (plain_bar_proper b d f i c c0 Ec), HP; lia |]. rewrite Ec in E1. rewrite Hb, Hd, Hf.
  set (dev1 := probed b d f i c dev).
  assert (HF : id_fields dev1 = id_fields dev /\ six dev1 /\ forall j, 0 <= j -> j <> i -> bar_of dev1 j = bar_of dev j) by (apply decode_bar_frame; [done | lia]).
  destruct HF as (HH & H61 & HO). assert (Hh : bus dev1 = b /\ slot dev1 = d /\ func dev1 = f) by (unfold id_fields in HH; simplify_eq; auto). destruct Hh as (Hb1 & Hd1 & Hf1).
  unfold pci_read32, PCI_REG_BAR0. rewrite Hb1, Hd1, Hf1, cfg_addr_eq by (done || lia).
  replace (config b d f + (16 + i * 4)) with (bar_at b d f i) by (unfold bar_at; lia). rewrite (cfg_read_proper 4 (bar_at b d f i) c1 c0 E1).
  assert (En : (if (Z.land (cfg_read 4 (bar_at b d f i) c0) 1 =? 0) && (Z.land (cfg_read 4 (bar_at b d f i) c0) 6 =? 4) then i + 1 else i) + 1 = next_bar b d f i c0)
    by (unfold next_bar; cbn zeta; unfold is64; destruct (_ && _); lia). rewrite En. clear En.
  assert (Hnx : i < next_bar b d f i c0) by (unfold next_bar; cbn zeta; destruct (_ && _); lia). set (nx := next_bar b d f i c0) in *.
  destruct (IH nx dev1 c1) as (dev' & c' & -> & E' & HH' & HB & H6' & HR & HZ'); [done | lia | lia | done | done | done | done | |].
  { intros j Hj. rewrite HO by lia. apply HZ. lia. }
  exists dev', c'. split; [done |]. split; [done |]. split; [congruence |]. split; [intros j Hj; rewrite HB, HO by lia; done |]. split; [done |]. split.
  - intros j r [-> | Hj]%elem_of_cons HD; [| by apply HR]. rewrite HB by lia. unfold dev1. apply probed_region; [by rewrite Ec | done | lia | apply HZ; lia].
  - intros j Hj [Hne Hnot]%not_elem_of_cons. destruct (decide (nx <= j)); [apply HZ'; [lia | done] |]. rewrite HB, HO by lia. apply HZ. lia.
Qed.

(** ** Capabilities *)

(** the capability list from offset [p] on visits [l] and ends with the result [q]:
    the first MSI capability on it, or 0 *)
Inductive visits (a : Z) (c : C) : Z -> list Z -> Z -> Prop :=
| visits_end p : p < 0x40 -> visits a c p [] 0
| visits_msi p : 0x40 <= p -> cfg_byte c (a + p) = PCI_CAP_ID_MSI -> visits a c p [] p
| visits_next p l q : 0x40 <= p -> cfg_byte c (a + p) <> PCI_CAP_ID_MSI -> visits a c (cfg_byte c (a + p + 1)) l q -> visits a c p (p :: l) q.

Lemma visits_suffix a c p l q l1 x l2 : visits a c p l q -> l = l1 ++ x :: l2 -> visits a c x (x :: l2) q.
Proof.
  intros H. revert l1. induction H as [| | p l q Hp Hm H IH]; intros l1 E; [by destruct l1 | by destruct l1 |].
  destruct l1 as [| y l1]; injection E as -> ->; [by constructor | by eapply IH].
Qed.

(** without repetition: a list that comes back to an offset never ends *)
Lemma visits_nodup a c p l q : visits a c p l q -> exists l', visits a c p l' q /\ NoDup l'.
Proof.
  induction 1 as [| | p l q Hp Hm H (l' & H' & HN)]; [exists []; split; [by constructor | constructor] | exists []; split; [by constructor | constructor] |].
  destruct (decide (p ∈ l')) as [(l1 & l2 & E)%list_elem_of_split | Hnot].
  - exists (p :: l2). split; [by eapply visits_suffix |]. rewrite E in HN. by apply NoDup_app in HN as (_ & _ & ?).
  - exists (p :: l'). split; [by constructor | by constructor].
Qed.

Lemma visits_range a c p l q : p < 256 -> visits a c p l q -> Forall (fun x => 64 <= x < 256) l.
Proof. intros Hp H. induction H as [| | p l q H1 H2 H IH]; [done | done |]. constructor; [lia |]. apply IH. apply cfg_byte_range. Qed.

Lemma range_length (l : list Z) lo n : NoDup l -> Forall (fun x => lo <= x < lo + Z.of_nat n) l -> (length l <= n)%nat.
Proof.
  intros HN HF. replace n with (length (seqZ lo (Z.of_nat n))) by (rewrite length_seqZ; lia). apply submseteq_length, NoDup_submseteq; [done |]. intros x Hx. apply elem_of_seqZ.
  rewrite Forall_forall in HF. by apply HF.
Qed.

Lemma visits_find b d f p l q n (c : C) : valid b d f -> 0 <= p < 256 -> visits (config b d f) c p l q -> (length l < n)%nat -> find_msi base n b d f p c = Ok q.
Proof.
  intros HV Hp H. revert n. induction H as [p H1 | p H1 H2 | p l q H1 H2 H IH]; intros [| n] Hn; cbn [length] in Hn; try lia; cbn [find_msi].
  - by replace (64 <=? p) with false by (symmetry; lia).
  - replace (64 <=? p) with true by (symmetry; lia). rewrite pci_read8_eq by (done || lia). by rewrite H2.
  - replace (64 <=? p) with true by (symmetry; lia). rewrite !pci_read8_eq by (done || lia). rewrite (proj2 (Z.eqb_neq _ _)) by done.
    rewrite Z.add_assoc. apply IH; [apply cfg_byte_range | lia].
Qed.

Lemma find_visits b d f n p q (c : C) : valid b d f -> 0 <= p < 256 -> find_msi base n b d f p c = Ok q -> exists l, visits (config b d f) c p l q.
Proof.
  intros HV. revert p. induction n as [| n IH]; intros p Hp; cbn [find_msi]; [done |].
  destruct (Z.leb_spec 64 p); [| intros [= <-]; exists []; by constructor]. rewrite !pci_read8_eq by (done || lia).
  destruct (Z.eqb_spec (cfg_byte c (config b d f + p)) PCI_CAP_ID_MSI) as [E | E]; [intros [= <-]; exists []; by constructor |].
  rewrite Z.add_assoc. intros (l & H')%IH; [| apply cfg_byte_range]. exists (p :: l). by constructor.
Qed.

Lemma find_result b d f n p (c : C) : find_msi base n b d f p c = Fault \/ exists q, find_msi base n b d f p c = Ok q.
Proof. revert p. induction n as [| n IH]; intros p; cbn [find_msi]; [by left |]. destruct (64 <=? p); [| eauto]. destruct (_ =? _); [eauto | apply IH]. Qed.

Lemma find_msi_visits b d f p q (c : C) : valid b d f -> 0 <= p < 256 ->
  find_msi base CAP_STEPS b d f p c = Ok q <-> exists l, visits (config b d f) c p l q.
Proof.
  intros HV Hp. split; [by apply find_visits |]. intros (l & H). destruct (visits_nodup _ _ _ _ _ H) as (l' & H' & HN).
  apply (visits_find b d f p l' q); [done | done | done |]. pose proof (visits_range _ _ _ _ _ (proj2 Hp) H') as HR.
  pose proof (range_length l' 64 192 HN HR). unfold CAP_STEPS. lia.
Qed.

(** a search that has not ended after 193 steps never ends *)
Lemma find_msi_settles b d f p (c : C) : valid b d f -> 0 <= p < 256 ->
  (exists q l, find_msi base CAP_STEPS b d f p c = Ok q /\ visits (config b d f) c p l q) \/
  (forall n, find_msi base n b d f p c = Fault).
Proof.
  intros HV Hp. destruct (find_result b d f CAP_STEPS p c) as [EF | (q & E)].
  - right. intros n. destruct (find_result b d f n p c) as [-> | (q & E)]; [done |]. apply find_visits in E; [| done | done].
    apply find_msi_visits in E; [| done | done]. congruence.
  - left. destruct (find_visits _ _ _ _ _ _ _ HV Hp E) as (l & H). eauto.
Qed.

(** the search for the MSI capability, on any configuration space.  When it ends
    in any number of steps it ends in 193, with the first MSI capability of the list
    or 0; when it does not end in 193 steps it never does. *)
Lemma msi_search_ends b d f p (c : C) : valid b d f -> 0 <= p < 256 ->
  (exists q l, find_msi base CAP_STEPS b d f p c = Ok q /\ visits (config b d f) c p l q) \/
  (forall n, find_msi base n b d f p c = Fault).
Proof. apply find_msi_settles. Qed.

(** ** Enumeration *)

Definition present (b d f : Z) (c : C) : bool := negb (cfg_read 2 (config b d f) c =? 0xFFFF).
Definition func_count (b d : Z) (c : C) : Z := if Z.land (cfg_byte c (config b d 0 + 14)) 0x80 =? 0 then 1 else 8.
Definition bars_max (b d f : Z) (c : C) : Z := pci_max_bars (cfg_byte c (config b d f + 14)).

(** the functions that are there, in the order of their numbers: of a device that
    answers at function 0, function 0 or all eight *)
Definition one_function (c : C) (b d f : Z) : list (Z * Z * Z) := if present b d f c then [(b, d, f)] else [].
Definition one_device (c : C) (b d : Z) : list (Z * Z * Z) :=
  if present b d 0 c then concat (one_function c b d <$> seqZ 0 (func_count b d c)) else [].
Definition functions (s : pci) (c : C) : list (Z * Z * Z) :=
  concat ((fun b => concat (one_device c b <$> seqZ 0 32)) <$> seqZ (g_pcie_bus_start s) (g_pcie_bus_end s - g_pcie_bus_start s + 1)).

(** a function that can be enumerated: its capability list ends, and the registers
    that probing writes keep what is written *)
Definition behaves (c : C) (x : Z * Z * Z) : Prop :=
  let '(b, d, f) := x in
  (exists l q, visits (config b d f) c (cfg_byte c (config b d f + 52)) l q) /\ forall i, 0 <= i < bars_max b d f c -> plain_bar b d f i c.

(** the descriptor says what the registers of the function say *)
Definition describes (s : pci) (c : C) (x : Z * Z * Z) (dev : pci_device) : Prop :=
  let '(b, d, f) := x in
  let a := config b d f in
  let routed := pci_resolve_intx b d f (cfg_byte c (a + 61)) s in
  (exists l, visits a c (cfg_byte c (a + 52)) l (msi_cap_off dev)) /\
  id_fields dev = (b, d, f, cfg_read 2 a c, cfg_read 2 (a + 2) c, cfg_byte c (a + 11), cfg_byte c (a + 10), cfg_byte c (a + 9), cfg_byte c (a + 8),
    (if routed =? 0 then cfg_byte c (a + 60) else routed), cfg_byte c (a + 61), msi_cap_off dev) /\
  bars_found b d f (bars_max b d f c) c dev 0 (bar_starts 6 b d f 0 (bars_max b d f c) c).

Lemma max_bars_range h : 0 <= pci_max_bars h <= 6.
Proof. unfold pci_max_bars. repeat case_match; lia. Qed.

Section Loops.
Context {A : Type} {AL : Allocator A} (s : pci) (c0 : C) (L : list (Z * Z)).

Definition blocks (l : list (Z * pci_device)) : list (Z * Z) := (fun x => (x.1, PCI_DEVICE_SIZE)) <$> l.

(** [l] has been enumerated, and nothing else has changed *)
Definition scanned (st : scan_state (C := C) (A := A)) (l : list (Z * Z * Z)) : Prop :=
  sc_cfg st ≡ c0 /\ live (sc_heap st) (blocks (g_pci_devices st) ++ L) /\ Forall2 (describes s c0) l (g_pci_devices st).*2.

(** a loop that enumerates [l] or stops where memory runs out *)
Definition enumerates (m : scan_state (C := C) (A := A) -> res (bool * scan_state)) (l : list (Z * Z * Z)) : Prop :=
  forall st l0, scanned st l0 -> exists go st' l1, m st = Ok (go, st') /\ scanned st' (l0 ++ l1) /\ l1 `prefix_of` l /\
    (if go then l1 = l else exists a, kmalloc PCI_DEVICE_SIZE a = Ok (0, sc_heap st')).

Lemma each_enumerates F body xs : (forall x, x ∈ xs -> enumerates (body x) (F x)) -> enumerates (each xs body) (concat (F <$> xs)).
Proof.
  induction xs as [| x xs IH]; intros HB st l0 HS; cbn [each fmap list_fmap concat].
  { exists true, st, []. split; [done |]. split; [by rewrite app_nil_r | done]. }
  destruct (HB x ltac:(by constructor) st l0 HS) as (go & st1 & l1 & -> & HS1 & HP & HG). cbn [res_bind]. destruct go.
  - subst l1. destruct (IH ltac:(intros y Hy; apply HB; by constructor) st1 _ HS1) as (go & st2 & l2 & -> & HS2 & HP2 & HG2).
    exists go, st2, (F x ++ l2). split; [done |]. split; [by rewrite app_assoc |]. split; [by apply prefix_app |]. destruct go; [by rewrite HG2 | done].
  - exists false, st1, l1. split; [done |]. split; [done |]. split; [by apply prefix_app_r | done].
Qed.

Lemma visits_equiv a p l q (c c' : C) : c ≡ c' -> visits a c p l q -> visits a c' p l q.
Proof.
  intros E H. induction H as [p H1 | p H1 H2 | p l q H1 H2 H IH]; [by constructor | |].
  - constructor; [done |]. destruct (E (a + p)) as [<- _]. done.
  - destruct (E (a + p)) as [E1 _]. destruct (E (a + p + 1)) as [E2 _]. constructor; [done | by rewrite <- E1 | by rewrite <- E2].
Qed.

Lemma read8_at b d f o (c : C) : valid b d f -> 0 <= o < 65536 -> c ≡ c0 -> pci_read8 base b d f o c = cfg_byte c0 (config b d f + o).
Proof. intros HV Ho E. rewrite pci_read8_eq by done. apply E. Qed.

Lemma read16_at b d f o (c : C) : valid b d f -> 0 <= o < 65536 -> c ≡ c0 -> pci_read16 base b d f o c = cfg_read 2 (config b d f + o) c0.
Proof. intros HV Ho E. unfold pci_read16. rewrite cfg_addr_eq by done. by rewrite E. Qed.

(** reading a function that behaves into a new descriptor *)
Lemma read_function b d f v (c : C) : valid b d f -> behaves c0 (b, d, f) -> c ≡ c0 -> v = cfg_read 2 (config b d f) c0 ->
  exists q dev c', find_msi base CAP_STEPS b d f (pci_read8 base b d f PCI_REG_CAP_PTR c) c = Ok q /\
    scan_bars base PCI_MAX_BARS 0 (pci_max_bars (pci_read8 base b d f PCI_REG_HEADER_TYPE c)) (with_msi q (read_header base s b d f v c)) c = Ok (dev, c') /\
    c' ≡ c0 /\ describes s c0 (b, d, f) dev.
Proof.
  intros HV ((l & q & HVis) & HP) E ->. unfold PCI_REG_CAP_PTR, PCI_REG_HEADER_TYPE. rewrite !read8_at by done.
  assert (HVis' : visits (config b d f) c (cfg_byte c0 (config b d f + 52)) l q) by (by apply (visits_equiv _ _ _ _ c0)).
  set (dev0 := with_msi q (read_header base s b d f (cfg_read 2 (config b d f) c0) c)).
  destruct (scan_bars_ok b d f (bars_max b d f c0) c0 HV (max_bars_range _) HP PCI_MAX_BARS 0 dev0 c) as (dev & c' & EB & E' & HH & _ & HF).
  { done. } { done. } { pose proof (max_bars_range (cfg_byte c0 (config b d f + 14))). unfold bars_max, PCI_MAX_BARS. lia. } { done. } { done. } { done. } { done. }
  { intros j Hj. unfold bar_of. cbn [dev0 with_msi read_header bar_type bar_phys bar_size]. rewrite !lookup_replicate_2 by (unfold PCI_MAX_BARS; lia). done. }
  exists q, dev, c'. split; [apply find_msi_visits; [done | apply cfg_byte_range | by exists l] |]. split; [exact EB |]. split; [done |].
  assert (EM : msi_cap_off dev = q) by (unfold id_fields in HH; simplify_eq; auto).
  split; [rewrite EM; by exists l |]. split; [| done]. rewrite HH, EM. unfold id_fields. cbn [dev0 with_msi read_header bus slot func vendor_id device_id class_code subclass prog_if rev irq_line irq_pin msi_cap_off].
  unfold PCI_REG_DEVICE_ID, PCI_REG_CLASS_CODE, PCI_REG_SUBCLASS, PCI_REG_PROG_IF, PCI_REG_REVISION, PCI_REG_INTERRUPT_PIN, PCI_REG_INTERRUPT_LINE.
  by rewrite !read8_at, !read16_at by done.
Qed.

Lemma scan_function_ok b d f : valid b d f -> (present b d f c0 = true -> behaves c0 (b, d, f)) ->
  enumerates (scan_function base s b d f) (one_function c0 b d f).
Proof.
  intros HV HB [c a devs] l0 (HC & HL & HD). unfold scan_function, one_function, present, PCI_REG_VENDOR_ID in *. cbn [sc_cfg sc_heap Pci.g_pci_devices] in *.
  rewrite read16_at, Z.add_0_r by done. destruct (Z.eqb_spec (cfg_read 2 (config b d f) c0) 65535) as [Ev | Ev]; cbn [negb].
  { exists true, (mk_scan c a devs), []. split; [done |]. split; [by rewrite app_nil_r | done]. }
  destruct (kmalloc_live a (blocks devs ++ L) PCI_DEVICE_SIZE HL ltac:(done)) as (p & a' & Ek & HK). rewrite Ek. cbn [res_bind].
  destruct (Z.eqb_spec p 0) as [-> | Hp].
  { destruct HK as [[_ HK] | [HK _]]; [| lia]. exists false, (mk_scan c a' devs), []. split; [done |]. split; [by rewrite app_nil_r | split; [apply prefix_nil | by exists a]]. }
  destruct HK as [[HK _] | [_ HK]]; [lia |]. destruct (read_function b d f _ c HV (HB eq_refl) HC eq_refl) as (q & dev & c' & -> & EB & E' & HDev).
  cbn [res_bind]. rewrite EB. cbn [res_bind]. exists true, (mk_scan c' a' (devs ++ [(p, dev)])), [(b, d, f)]. split; [done |]. split; [| done].
  split; [done |]. cbn [sc_heap Pci.g_pci_devices]. split; [| rewrite fmap_app; by apply Forall2_app, Forall2_cons].
  eapply live_perm; [| exact HK]. unfold blocks. rewrite fmap_app. cbn [fmap list_fmap fst]. rewrite <- app_assoc. apply Permutation_middle.
Qed.

Lemma elem_of_concat_map {X Y} (F : X -> list Y) xs x y : x ∈ xs -> y ∈ F x -> y ∈ concat (F <$> xs).
Proof. intros Hx Hy. apply list_elem_of_In, in_concat. exists (F x). split; [apply list_elem_of_In; by apply list_elem_of_fmap_2 | by apply list_elem_of_In]. Qed.

Lemma scan_device_ok b d : 0 <= b < 256 -> 0 <= d < 32 -> (forall x, x ∈ one_device c0 b d -> behaves c0 x) ->
  enumerates (scan_device base s b d) (one_device c0 b d).
Proof.
  intros Hb Hd HB st l0 HS. pose proof HS as (HC & _). unfold scan_device, one_device, present, PCI_REG_VENDOR_ID, PCI_REG_HEADER_TYPE in *.
  assert (HV0 : valid b d 0) by done. rewrite read16_at, Z.add_0_r, read8_at by done.
  destruct (Z.eqb_spec (cfg_read 2 (config b d 0) c0) 65535) as [Ev | Ev]; cbn [negb].
  { exists true, st, []. split; [done |]. split; [by rewrite app_nil_r | done]. }
  fold (func_count b d c0). apply each_enumerates; [| done]. intros f Hf%elem_of_seqZ.
  assert (Hf8 : 0 <= f < 8) by (unfold func_count in Hf; case_match; lia).
  apply scan_function_ok; [done |]. intros HP. apply HB. cbn [negb]. eapply elem_of_concat_map; [apply elem_of_seqZ; exact Hf |].
  unfold one_function. rewrite HP. by constructor.
Qed.

Lemma scan_all_ok : 0 <= g_pcie_bus_start s -> g_pcie_bus_end s < 256 -> (forall x, x ∈ functions s c0 -> behaves c0 x) ->
  enumerates (pci_scan_all_buses base s) (functions s c0).
Proof.
  intros Hs He HB. apply each_enumerates. intros b Hb%elem_of_seqZ. apply each_enumerates. intros d Hd%elem_of_seqZ.
  apply scan_device_ok; [lia | lia |]. intros x Hx. apply HB. eapply elem_of_concat_map; [apply elem_of_seqZ; exact Hb |].
  eapply elem_of_concat_map; [apply elem_of_seqZ; exact Hd | done].
Qed.
End Loops.

(** C18: enumeration, over any configuration space whose capability lists end and whose
    base address registers keep what is written to them.  It ends without panic,
    every byte of the configuration space reads as before, and there is a
    descriptor for each function that is there, in order, or for the first of them
    when memory runs out; each descriptor is in a block of its own, has the
    identification and the interrupt of the function, its first MSI capability, and
    the kind, address and size of every region that its base address registers
    describe. *)
Theorem pci_scan_correct {A : Type} {AL : Allocator A} (s : pci) (c : C) (a : A) L :
  0 <= g_pcie_bus_start s -> g_pcie_bus_end s < 256 -> (forall x, x ∈ functions s c -> behaves c x) -> live a L ->
  exists go c' a' devs l, pci_scan_all_buses base s (mk_scan c a []) = Ok (go, mk_scan c' a' devs) /\
    c' ≡ c /\ live a' (blocks devs ++ L) /\ Forall2 (describes s c) l devs.*2 /\ l `prefix_of` functions s c /\
    (if go then l = functions s c else exists a0, kmalloc PCI_DEVICE_SIZE a0 = Ok (0, a')).
Proof.
  intros Hs He HB HL. destruct (scan_all_ok s c L Hs He HB (mk_scan c a []) []) as (go & [c' a' devs] & l & E & (HC & HL' & HD) & HP & HG).
  { split; [done |]. split; [exact HL | constructor]. }
  exists go, c', a', devs, l. split; [exact E |]. split; [exact HC |]. split; [exact HL' |]. split; [exact HD |]. split; [exact HP | exact HG].
Qed.
End Space.

(** ** Interrupts *)

Section Interrupts.
Context {C : Type} {CS : ConfigSpace C} (base : Z).

(** the first route for the masked address and pin, 0 without one *)
Lemma find_route_first addr p l : find_route addr p l = 0 /\ Forall (fun r => irq_id r <> 0 -> ~ (child_addr_hi r = addr /\ pin r = p)) l \/
  exists l1 r l2, l = l1 ++ r :: l2 /\ child_addr_hi r = addr /\ pin r = p /\ find_route addr p l = irq_id r /\
    Forall (fun r => ~ (child_addr_hi r = addr /\ pin r = p)) l1.
Proof.
  induction l as [| r l IH]; cbn [find_route]; [by left |].
  destruct (Z.eqb_spec (child_addr_hi r) addr) as [E1 | E1], (Z.eqb_spec (pin r) p) as [E2 | E2]; cbn [andb].
  1: { right. by exists [], r, l. }
  all: destruct IH as [[E HF] | (l1 & r' & l2 & -> & H1 & H2 & E & HF)];
    [left; split; [done |]; constructor; [tauto | done] | right; exists (r :: l1), r', l2; do 4 (split; [done |]); constructor; [tauto | done]].
Qed.

(** a legacy interrupt is switched on exactly for a pin from A to D and a line from 1
    to 13: the line gets vector 34 + line on the first processor and bit 10 of the
    command register is cleared, as far as the register can be written; nothing
    else is touched *)
Lemma pci_enable_intx_ok d (c : C) io : 0 <= irq_line d ->
  pci_enable_intx base (Some d) c io =
  if (1 <=? irq_pin d) && (irq_pin d <=? 4) && (1 <=? irq_line d) && (irq_line d <=? 13) then
    let a := cfg_addr base (bus d) (slot d) (func d) PCI_REG_COMMAND in
    (0, cfg_store a (enc 2 (u16 (Z.land (cfg_read 2 a c) (Z.lnot 1024)))) c, (17 + 2 * irq_line d, 0) :: (16 + 2 * irq_line d, 34 + irq_line d) :: io)
  else (-1, c, io).
Proof.
  intros Hl. unfold pci_enable_intx, arch_pci_irq_enable, ioapic_set_entry, PCI_IRQ_COUNT, PCI_IRQ_VECTOR_BASE, PCI_IRQ_VECTOR_MAX. zbool; cbn [andb orb]; try lia; try done.
  assert (E : forall x, 0 <= x < 256 -> u8 x = x) by (intros x Hx; by apply Z.mod_small). rewrite Z.shiftl_0_l, (E (irq_line d)), (E (34 + _)), (E (16 + _)), (E (_ + 1)) by lia.
  rewrite (u32_small (34 + _)) by (red; lia). change (u32 0) with 0. replace (16 + irq_line d * 2) with (16 + 2 * irq_line d) by lia. by replace (16 + 2 * irq_line d + 1) with (17 + 2 * irq_line d) by lia.
Qed.

(** x86-64 never uses message interrupts *)
Lemma pci_enable_msi_x86 dev (c : C) : pci_enable_msi base arch_pci_msi_enable dev c = (-1, c).
Proof. unfold pci_enable_msi, arch_pci_msi_enable. destruct dev as [d |]; [| done]. by destruct (msi_cap_off d =? 0). Qed.
End Interrupts.
