(* ===== verification/Virtio.v ===== *)
(** * The virtio block device ([kernel/arch/x86_64/virtio_pci.c], [virtio_pci.h])

    The driver of a virtio disk on the PCI bus: it finds the device among those
    enumerated, locates the register blocks through the capabilities, maps them,
    negotiates, sets up one queue in one page, and serves reads one sector at a
    time, waiting for the device by polling.

    The device is a class without laws: what a register read gives, what a register
    write does, and what the device does to the page of the queue between two looks
    of the driver at it.  So the definitions hold for any device; VirtioSpec.v adds
    the laws of a disk that works.  A register is named by its virtual address.  The
    page is a list of bytes, and the fields of its structures are read and written
    at their offsets.  Messages are left out. *)

From stdpp Require Import base list.
From S2P Require Import Prelude Bytes Alloc PageAlloc Vmm Pci BlockDevice Nic.

Definition VIRTIO_PCI_VENDOR_ID : Z := 0x1AF4.
Definition VIRTIO_PCI_DEVICE_ID_BLOCK : Z := 0x1001.
Definition VIRTIO_PCI_DEVICE_ID_BLOCK_MODERN : Z := 0x1042.
Definition VIRTIO_PCI_CAP_COMMON_CFG : Z := 1.
Definition VIRTIO_PCI_CAP_NOTIFY_CFG : Z := 2.
Definition VIRTIO_PCI_CAP_ISR_CFG : Z := 3.
Definition VIRTIO_STATUS_ACKNOWLEDGE : Z := 1.
Definition VIRTIO_STATUS_DRIVER : Z := 2.
Definition VIRTIO_STATUS_DRIVER_OK : Z := 4.
Definition VIRTIO_STATUS_FEATURES_OK : Z := 8.
Definition VIRTIO_STATUS_FAILED : Z := 128.
Definition VIRTQ_DESC_F_NEXT : Z := 1.
Definition VIRTQ_DESC_F_WRITE : Z := 2.
Definition VIRTQ_SIZE : Z := 8.
Definition VIRTIO_BLK_SECTOR_SIZE : Z := 512.

(** the page of the queue *)
Definition VQ_DESC_OFF : Z := 0.
Definition VQ_AVAIL_OFF : Z := 128.
Definition VQ_USED_OFF : Z := 160.
Definition VQ_REQ_OFF : Z := 288.
Definition VQ_REQ_HDR_OFF : Z := 0.
Definition VQ_REQ_DATA_OFF : Z := 16.
Definition VQ_REQ_STATUS_OFF : Z := 16 + VIRTIO_BLK_SECTOR_SIZE.

(** offsets in [struct virtio_pci_common_cfg] *)
Definition DEVICE_FEATURE_SELECT : Z := 0.
Definition DEVICE_FEATURE : Z := 4.
Definition DRIVER_FEATURE_SELECT : Z := 8.
Definition DRIVER_FEATURE : Z := 12.
Definition DEVICE_STATUS : Z := 20.
Definition QUEUE_SELECT : Z := 22.
Definition QUEUE_SIZE : Z := 24.
Definition QUEUE_ENABLE : Z := 28.
Definition QUEUE_NOTIFY_OFF : Z := 30.
Definition QUEUE_DESC : Z := 32.
Definition QUEUE_DRIVER : Z := 40.
Definition QUEUE_DEVICE : Z := 48.

Class VirtioDevice (D : Type) := {
  dev_in : nat -> Z -> D -> Z * D;
  dev_out : nat -> Z -> Z -> D -> D;
  dev_dma : list Z -> D -> list Z * D;
  dev_dma_length p d : length (dev_dma p d).1 = length p
}.

(** the fields of a capability that are kept *)
Record virtio_pci_cap := mk_cap { cap_vndr : Z; cap_next : Z; cfg_type : Z; cap_bar : Z; cap_offset : Z; cap_length : Z }.
Definition zero_cap : virtio_pci_cap := mk_cap 0 0 0 0 0 0.

(** the variables of the file, the static ones of its functions included; a null
    pointer is 0 *)
Record virtio := mk_virtio {
  g_common : Z; g_notify_base : Z; g_isr : Z; g_notify_off_mult : Z; g_initialized : bool; g_vq_phys : Z;
  g_next_avail : Z; g_last_used : Z; cap_buf : list virtio_pci_cap; cap_idx : Z; g_bar_mmio_next : Z }.

Definition BAR_MMIO_VBASE : Z := 0xFFFFD00000000000.
Definition virtio_boot : virtio := mk_virtio 0 0 0 0 false 0 0 0 (replicate 3 zero_cap) 0 BAR_MMIO_VBASE.

Definition with_caps (l : list virtio_pci_cap) (i : Z) (s : virtio) : virtio :=
  mk_virtio (g_common s) (g_notify_base s) (g_isr s) (g_notify_off_mult s) (g_initialized s) (g_vq_phys s) (g_next_avail s) (g_last_used s) l i (g_bar_mmio_next s).
Definition with_mmio_next (a : Z) (s : virtio) : virtio :=
  mk_virtio (g_common s) (g_notify_base s) (g_isr s) (g_notify_off_mult s) (g_initialized s) (g_vq_phys s) (g_next_avail s) (g_last_used s) (cap_buf s) (cap_idx s) a.
Definition with_regs (common isr notify mult : Z) (s : virtio) : virtio :=
  mk_virtio common notify isr mult (g_initialized s) (g_vq_phys s) (g_next_avail s) (g_last_used s) (cap_buf s) (cap_idx s) (g_bar_mmio_next s).
Definition with_queue_page (phys : Z) (s : virtio) : virtio :=
  mk_virtio (g_common s) (g_notify_base s) (g_isr s) (g_notify_off_mult s) (g_initialized s) phys (g_next_avail s) (g_last_used s) (cap_buf s) (cap_idx s) (g_bar_mmio_next s).
Definition with_ready (s : virtio) : virtio :=
  mk_virtio (g_common s) (g_notify_base s) (g_isr s) (g_notify_off_mult s) true (g_vq_phys s) 0 0 (cap_buf s) (cap_idx s) (g_bar_mmio_next s).
Definition with_avail (n : Z) (s : virtio) : virtio :=
  mk_virtio (g_common s) (g_notify_base s) (g_isr s) (g_notify_off_mult s) (g_initialized s) (g_vq_phys s) n (g_last_used s) (cap_buf s) (cap_idx s) (g_bar_mmio_next s).
Definition with_last (n : Z) (s : virtio) : virtio :=
  mk_virtio (g_common s) (g_notify_base s) (g_isr s) (g_notify_off_mult s) (g_initialized s) (g_vq_phys s) (g_next_avail s) n (cap_buf s) (cap_idx s) (g_bar_mmio_next s).

(** ** Requests *)

Section Requests.
Context {D : Type} {VD : VirtioDevice D}.

(** the device and the page of the queue *)
Record queue := mk_queue_state { q_dev : D; q_page : list Z }.

(** the driver looks at the page, at which the device has been at work *)
Definition look (q : queue) : queue := let '(p, d) := dev_dma (q_page q) (q_dev q) in mk_queue_state d p.
Definition put (n : nat) (off v : Z) (q : queue) : res queue :=
  let! p := write_bytes (q_page q) off (enc n v) in Ok (mk_queue_state (q_dev q) p).
Definition reg_in (n : nat) (addr : Z) (q : queue) : Z * queue :=
  let '(v, d) := dev_in n addr (q_dev q) in (v mod 256 ^ Z.of_nat n, mk_queue_state d (q_page q)).
Definition reg_out (n : nat) (addr v : Z) (q : queue) : queue := mk_queue_state (dev_out n addr v (q_dev q)) (q_page q).

Definition common_read8 (s : virtio) (off : Z) (q : queue) : Z * queue := reg_in 1 (u64 (g_common s + off)) q.
Definition common_read16 (s : virtio) (off : Z) (q : queue) : Z * queue := reg_in 2 (u64 (g_common s + off)) q.
Definition common_read32 (s : virtio) (off : Z) (q : queue) : Z * queue := reg_in 4 (u64 (g_common s + off)) q.
Definition common_write8 (s : virtio) (off v : Z) (q : queue) : queue := reg_out 1 (u64 (g_common s + off)) v q.
Definition common_write16 (s : virtio) (off v : Z) (q : queue) : queue := reg_out 2 (u64 (g_common s + off)) v q.
Definition common_write32 (s : virtio) (off v : Z) (q : queue) : queue := reg_out 4 (u64 (g_common s + off)) v q.
Definition common_write64 (s : virtio) (off v : Z) (q : queue) : queue := reg_out 8 (u64 (g_common s + off)) v q.

(** [g_used->idx] *)
Definition used_idx (q : queue) : res Z := le 2 (q_page q) (VQ_USED_OFF + 2).

(** one turn of the polling loop: [inl] goes on *)
Definition poll_turn (last : Z) (q : queue) : queue + res queue :=
  let q := look q in
  match used_idx q with
  | Ok i => if i =? last then inl q else inr (Ok q)
  | Panic => inr Panic
  | Fault => inr Fault
  end.

Definition virtio_pci_blk_poll (s : virtio) (q : queue) : res (Z * queue) :=
  let! q := match iter_until POLLS (poll_turn (g_last_used s)) q with inl q => Ok q | inr r => r end in
  let q := look q in
  let! i := used_idx q in
  Ok (if i =? g_last_used s then -1 else 0, q).

(** one descriptor *)
Definition put_desc (i addr len flags next : Z) (q : queue) : res queue :=
  let! q := put 8 (VQ_DESC_OFF + 16 * i) addr q in
  let! q := put 4 (VQ_DESC_OFF + 16 * i + 8) len q in
  let! q := put 2 (VQ_DESC_OFF + 16 * i + 12) flags q in
  put 2 (VQ_DESC_OFF + 16 * i + 14) next q.

(** the request for a sector, up to the notification of the device *)
Definition submit (s : virtio) (sector : Z) (q : queue) : res (virtio * queue) :=
  let req_phys := u64 (g_vq_phys s + VQ_REQ_OFF) in
  let! q := put 4 (VQ_REQ_OFF + VQ_REQ_HDR_OFF) 0 q in
  let! q := put 4 (VQ_REQ_OFF + VQ_REQ_HDR_OFF + 4) 0 q in
  let! q := put 8 (VQ_REQ_OFF + VQ_REQ_HDR_OFF + 8) sector q in
  let! q := put_desc 0 (u64 (req_phys + VQ_REQ_HDR_OFF)) 16 VIRTQ_DESC_F_NEXT 1 q in
  let! q := put_desc 1 (u64 (req_phys + VQ_REQ_DATA_OFF)) VIRTIO_BLK_SECTOR_SIZE (Z.lor VIRTQ_DESC_F_NEXT VIRTQ_DESC_F_WRITE) 2 q in
  let! q := put 1 (VQ_REQ_OFF + VQ_REQ_STATUS_OFF) 0xFF q in
  let! q := put_desc 2 (u64 (req_phys + VQ_REQ_STATUS_OFF)) 1 VIRTQ_DESC_F_WRITE 0 q in
  let! q := put 2 (VQ_AVAIL_OFF + 4 + 2 * (g_next_avail s mod VIRTQ_SIZE)) 0 q in
  let s := with_avail (u16 (g_next_avail s + 1)) s in
  let! q := put 2 (VQ_AVAIL_OFF + 2) (g_next_avail s) q in
  let '(notify_off, q) := common_read16 s QUEUE_NOTIFY_OFF q in
  Ok (s, reg_out 2 (u64 (g_notify_base s + u32 (notify_off * g_notify_off_mult s))) 0 q).

(** the loop over the sectors; [todo] of them are left.  A failure is the number of
    those done, or -1 *)
Fixpoint read_sectors (todo : nat) (sector done : Z) (buf : list Z) (s : virtio) (q : queue) : res (Z * list Z * virtio * queue) :=
  match todo with
  | O => Ok (i32 done, buf, s, q)
  | S todo =>
    let fail := if 0 <? done then i32 done else -1 in
    let! (s, q) := submit s (u64 (sector + done)) q in
    let! (r, q) := virtio_pci_blk_poll s q in
    if negb (r =? 0) then Ok (fail, buf, s, q)
    else
      let q := look q in
      let! status := byte_at (q_page q) (VQ_REQ_OFF + VQ_REQ_STATUS_OFF) in
      if status =? 0xFF then Ok (fail, buf, s, q)
      else
        let q := look q in
        let! status := byte_at (q_page q) (VQ_REQ_OFF + VQ_REQ_STATUS_OFF) in
        if negb (status =? 0) then Ok (fail, buf, s, q)
        else
          let q := look q in
          let! bounce := bytes_at (q_page q) (VQ_REQ_OFF + VQ_REQ_DATA_OFF) VIRTIO_BLK_SECTOR_SIZE in
          let! buf := write_bytes buf (u32 (done * VIRTIO_BLK_SECTOR_SIZE)) bounce in
          read_sectors todo sector (done + 1) buf (with_last (u16 (g_last_used s + 1)) s) q
  end.

Definition virtio_pci_blk_bd_read (sector : Z) (buf : list Z) (count : Z) (s : virtio) (q : queue) : res (Z * list Z * virtio * queue) :=
  if negb (g_initialized s) then Ok (-1, buf, s, q)
  else if count =? 0 then Ok (0, buf, s, q)
  else read_sectors (Z.to_nat count) sector 0 buf s q.
End Requests.

(** ** Initialisation *)

Section Init.
Context {C : Type} {CS : ConfigSpace C} {D : Type} {VD : VirtioDevice D} {P : Type} {PA : PageAllocator P}.
(** [g_pcie_virt_base] and [kernel_pml4] *)
Variables (base kernel_pml4 : Z).

(** there are 189 values of the pointer that go on *)
Definition VIRTIO_CAP_STEPS : nat := 190.

(** the slot of [cap_buf] with the capability, and its offset *)
Fixpoint pci_find_capability_loop (n : nat) (dev : pci_device) (type ptr : Z) (c : C) (s : virtio) : res (option (nat * Z) * virtio) :=
  match n with
  | O => Fault
  | S n =>
    if (0x40 <=? ptr) && (ptr <=? 0xFC) then
      let read8 o := pci_read8 base (bus dev) (slot dev) (func dev) o c in
      if (read8 ptr =? 0x09) && (read8 (ptr + 3) =? type) then
        let i := Z.to_nat (cap_idx s mod 3) in
        let cap := mk_cap (read8 ptr) (read8 (ptr + 1)) (read8 (ptr + 3)) (read8 (ptr + 4))
          (pci_read32 base (bus dev) (slot dev) (func dev) (ptr + 8) c) (pci_read32 base (bus dev) (slot dev) (func dev) (ptr + 12) c) in
        Ok (Some (i, ptr), with_caps (<[i := cap]> (cap_buf s)) (cap_idx s + 1) s)
      else pci_find_capability_loop n dev type (read8 (ptr + 1)) c s
    else Ok (None, s)
  end.
Definition pci_find_capability (dev : pci_device) (type : Z) (c : C) (s : virtio) : res (option (nat * Z) * virtio) :=
  pci_find_capability_loop VIRTIO_CAP_STEPS dev type (pci_read8 base (bus dev) (slot dev) (func dev) PCI_REG_CAP_PTR c) c s.

(** the virtual address of a part of a bar, 0 if it cannot be mapped *)
Definition map_bar (dev : pci_device) (bar_idx offset length : Z) (s : virtio) (m : vm P) : res (Z * virtio * vm P) :=
  let size := default 0 (bar_size dev !! Z.to_nat bar_idx) in
  if (Z.of_nat PCI_MAX_BARS <=? bar_idx) || (size =? 0) then Ok (0, s, m)
  else
    let phys := default 0 (bar_phys dev !! Z.to_nat bar_idx) in
    if size <? u64 (offset + length) then Ok (0, s, m)
    else
      let map_phys := Z.land (u64 (phys + offset)) MASK_4K in
      let map_len := u64 (Z.land (u64 (phys + offset + length + 0xFFF)) MASK_4K - map_phys) in
      let vaddr := g_bar_mmio_next s in
      let s := with_mmio_next (Z.land (u64 (u64 (g_bar_mmio_next s + map_len) + 0xFFF)) MASK_4K) s in
      let! (r, m) := vmm_map_region kernel_pml4 vaddr map_phys map_len MMIO_FLAGS m in
      if r <? 0 then Ok (0, s, m) else Ok (u64 (vaddr + (u64 (phys + offset) - map_phys)), s, m).

Fixpoint find_block_device (l : list (Z * pci_device)) : option pci_device :=
  match l with
  | [] => None
  | x :: l =>
    if (vendor_id x.2 =? VIRTIO_PCI_VENDOR_ID) &&
       ((device_id x.2 =? VIRTIO_PCI_DEVICE_ID_BLOCK) || (device_id x.2 =? VIRTIO_PCI_DEVICE_ID_BLOCK_MODERN))
    then Some x.2 else find_block_device l
  end.

(** configuration space, page tables with the page frames, the device and the page of
    the queue, and the block devices *)
Record world := mk_world { w_cfg : C; w_vm : vm P; w_queue : queue (D := D); w_devices : devices }.

(** reset, acknowledgement and negotiation, steps 5 to 7: whether the device agrees *)
Definition negotiate (s : virtio) (q : queue (D := D)) : bool * queue (D := D) :=
  let q := common_write8 s DEVICE_STATUS 0 q in
  let '(_, q) := common_read8 s DEVICE_STATUS q in
  let q := common_write8 s DEVICE_STATUS VIRTIO_STATUS_ACKNOWLEDGE q in
  let q := common_write8 s DEVICE_STATUS (Z.lor VIRTIO_STATUS_ACKNOWLEDGE VIRTIO_STATUS_DRIVER) q in
  let q := common_write32 s DEVICE_FEATURE_SELECT 0 q in
  let '(_, q) := common_read32 s DEVICE_FEATURE q in
  let q := common_write32 s DEVICE_FEATURE_SELECT 1 q in
  let '(features_hi, q) := common_read32 s DEVICE_FEATURE q in
  let q :=
    if negb (Z.land features_hi 1 =? 0) then common_write32 s DRIVER_FEATURE 1 (common_write32 s DRIVER_FEATURE_SELECT 1 q)
    else q in
  let q := common_write32 s DRIVER_FEATURE_SELECT 0 q in
  let q := common_write32 s DRIVER_FEATURE 0 q in
  let q := common_write8 s DEVICE_STATUS (Z.lor (Z.lor VIRTIO_STATUS_ACKNOWLEDGE VIRTIO_STATUS_DRIVER) VIRTIO_STATUS_FEATURES_OK) q in
  let '(status, q) := common_read8 s DEVICE_STATUS q in
  if Z.land status VIRTIO_STATUS_FEATURES_OK =? 0 then
    (false, common_write8 s DEVICE_STATUS (Z.lor (Z.lor VIRTIO_STATUS_ACKNOWLEDGE VIRTIO_STATUS_DRIVER) VIRTIO_STATUS_FAILED) q)
  else (true, q).

(** the queue, steps 8 and 9; 0 or -1 *)
Definition setup_queue (s : virtio) (q : queue (D := D)) (p : P) : res (Z * virtio * queue (D := D) * P) :=
  let q := common_write16 s QUEUE_SELECT 0 q in
  let '(qmax, q) := common_read16 s QUEUE_SIZE q in
  if qmax =? 0 then Ok (-1, s, q, p)
  else
    let q := common_write16 s QUEUE_SIZE (if VIRTQ_SIZE <? qmax then VIRTQ_SIZE else qmax) q in
    let! (vq_page, p) := page_alloc p in
    if vq_page =? 0 then Ok (-1, s, q, p)
    else
      let s := with_queue_page vq_page s in
      let q := mk_queue_state (q_dev q) (replicate 4096 0) in
      let q := common_write64 s QUEUE_DESC (u64 (vq_page + VQ_DESC_OFF)) q in
      let q := common_write64 s QUEUE_DRIVER (u64 (vq_page + VQ_AVAIL_OFF)) q in
      let q := common_write64 s QUEUE_DEVICE (u64 (vq_page + VQ_USED_OFF)) q in
      let q := common_write16 s QUEUE_ENABLE 1 q in
      let q := common_write8 s DEVICE_STATUS
        (Z.lor (Z.lor (Z.lor VIRTIO_STATUS_ACKNOWLEDGE VIRTIO_STATUS_DRIVER) VIRTIO_STATUS_FEATURES_OK) VIRTIO_STATUS_DRIVER_OK) q in
      Ok (0, with_ready s, q, p).

(** the capabilities and the mapping of the registers, steps 2 to 4; 0 or -1 *)
Definition locate (dev : pci_device) (s : virtio) (w : world) : res (Z * virtio * world) :=
  let cmd := pci_read16 base (bus dev) (slot dev) (func dev) PCI_REG_COMMAND (w_cfg w) in
  let c := pci_write16 base (bus dev) (slot dev) (func dev) PCI_REG_COMMAND (Z.lor (Z.lor cmd 4) 2) (w_cfg w) in
  let! (common, s) := pci_find_capability dev VIRTIO_PCI_CAP_COMMON_CFG c s in
  let! (notify, s) := pci_find_capability dev VIRTIO_PCI_CAP_NOTIFY_CFG c s in
  let! (isr, s) := pci_find_capability dev VIRTIO_PCI_CAP_ISR_CFG c s in
  match common, notify, isr with
  | Some (common, _), Some (notify, notify_cap_ptr), Some (isr, _) =>
    let cap i := default zero_cap (cap_buf s !! i) in
    let! (a_common, s, m) := map_bar dev (cap_bar (cap common)) (cap_offset (cap common)) (cap_length (cap common)) s (w_vm w) in
    let! (a_isr, s, m) := map_bar dev (cap_bar (cap isr)) (cap_offset (cap isr)) (cap_length (cap isr)) s m in
    let! (a_notify, s, m) := map_bar dev (cap_bar (cap notify)) (cap_offset (cap notify)) (cap_length (cap notify)) s m in
    let mult := pci_read32 base (bus dev) (slot dev) (func dev) (notify_cap_ptr + 16) c in
    let s := with_regs a_common a_isr a_notify mult s in
    Ok (if (a_common =? 0) || (a_isr =? 0) || (a_notify =? 0) then -1 else 0, s, mk_world c m (w_queue w) (w_devices w))
  | _, _, _ => Ok (-1, s, mk_world c (w_vm w) (w_queue w) (w_devices w))
  end.

(** [bd] stands for the entry that is registered, whose read operation is
    [virtio_pci_blk_bd_read] *)
Definition virtio_pci_blk_init (g_pci_devices : list (Z * pci_device)) (bd : block_device) (s : virtio) (w : world) : res (Z * virtio * world) :=
  if g_initialized s then Ok (0, s, w)
  else
    match find_block_device g_pci_devices with
    | None => Ok (-1, s, w)
    | Some dev =>
      let! (r, s, w) := locate dev s w in
      if negb (r =? 0) then Ok (-1, s, w)
      else
        let '(agreed, q) := negotiate s (w_queue w) in
        if negb agreed then Ok (-1, s, mk_world (w_cfg w) (w_vm w) q (w_devices w))
        else
          let! (r, s, q, p) := setup_queue s q (frames (w_vm w)) in
          let m := mk_vm (tabs (w_vm w)) p in
          if negb (r =? 0) then Ok (-1, s, mk_world (w_cfg w) m q (w_devices w))
          else Ok (0, s, mk_world (w_cfg w) m q (block_device_register (Some bd) (w_devices w)).2)
    end.
End Init.
