(* ===== verification/VirtioSpec.v ===== *)
(** * What the virtio driver promises

    For any device, a read ends, leaves the buffer alone beyond the sectors it
    reports, and reports no more than asked for.  With a device that serves requests
    as a disk does (the class [VirtioDisk]), it returns the sectors of the disk: it
    is the block device that the file system is proved against. *)

From stdpp Require Import base list.
From S2P Require Import Prelude Bytes Alloc PageAlloc Vmm Pci PciSpec BlockDevice Nic NicSpec Virtio.

Lemma res_bind_assoc {A B E} (m : res A) (f : A -> res B) (g : B -> res E) : res_bind (res_bind m f) g = res_bind m (fun x => res_bind (f x) g).
Proof. by destruct m. Qed.

(** ** Writing fields *)

Abbreviation field_write := (nat * Z * Z)%type.

(** the field at [off] of [n] bytes holds [v] *)
Definition has_field (p : list Z) (w : field_write) : Prop := le w.1.1 p w.1.2 = Ok w.2.
Definition fits (size : Z) (w : field_write) : Prop := 0 <= w.1.2 /\ w.1.2 + Z.of_nat w.1.1 <= size /\ 0 <= w.2 < 256 ^ Z.of_nat w.1.1.
Definition disjoint_fields (w w' : field_write) : Prop := w.1.2 + Z.of_nat w.1.1 <= w'.1.2 \/ w'.1.2 + Z.of_nat w'.1.1 <= w.1.2.
Definition outside (i : Z) (w : field_write) : Prop := i < w.1.2 \/ w.1.2 + Z.of_nat w.1.1 <= i.

Lemma le_frame n p p' off : (forall i, off <= i < off + Z.of_nat n -> byte_at p' i = byte_at p i) -> le n p' off = le n p off.
Proof. intros H. apply le_ext. intros k Hk. apply H. lia. Qed.

Section Puts.
Context {D : Type} {VD : VirtioDevice D}.

Fixpoint puts (ws : list field_write) (q : queue (D := D)) : res (queue (D := D)) :=
  match ws with
  | [] => Ok q
  | (n, off, v) :: ws => let! q := put n off v q in puts ws q
  end.

Lemma puts_ok ws q : Forall (fits (zlen (q_page q))) ws -> pairwise disjoint_fields ws ->
  exists p, puts ws q = Ok (mk_queue_state (q_dev q) p) /\ zlen p = zlen (q_page q) /\ Forall (has_field p) ws /\
    forall i, Forall (outside i) ws -> byte_at p i = byte_at (q_page q) i.
Proof.
  revert q. induction ws as [| [[n off] v] ws IH]; intros [d p] HF HD; cbn [puts].
  { exists p. do 2 (split; [done |]). by split. }
  apply Forall_cons in HF as [(H1 & H2 & H3) HF]. destruct HD as [HD1 HD]. cbn [fst snd q_page q_dev] in *.
  destruct (write_bytes_inside p off (enc n v)) as (p1 & E & HL & _). { red. rewrite enc_zlen. unfold zlen in *. lia. }
  unfold put. cbn [q_page q_dev]. rewrite E. cbn [res_bind].
  destruct (IH (mk_queue_state d p1)) as (p2 & -> & HL2 & HF2 & HO); [cbn [q_page]; by rewrite HL | done |]. cbn [q_page q_dev] in *.
  exists p2. split; [done |]. split; [congruence |]. split.
  - constructor; [| done]. red. cbn [fst snd]. rewrite (le_frame n p1 p2). { by eapply le_written. }
    intros i Hi. apply HO. eapply Forall_impl; [exact HD1 |]. intros w Hw. red in Hw. cbn [fst snd] in Hw. red. lia.
  - intros i [Hi HO']%Forall_cons. rewrite HO by done. eapply byte_elsewhere; [| exact E | red in Hi; cbn [fst snd] in Hi; rewrite enc_zlen; lia].
    red. rewrite enc_zlen. unfold zlen in *. lia.
Qed.
End Puts.

(** ** Requests *)

(** the fields of the request for a sector, the [n]-th of the queue in page [q] *)
Definition desc_fields (i addr len flags next : Z) : list field_write :=
  [(8%nat, 16 * i, addr); (4%nat, 16 * i + 8, len); (2%nat, 16 * i + 12, flags); (2%nat, 16 * i + 14, next)].
Definition head_fields (q sector : Z) : list field_write :=
  [(4%nat, 288, 0); (4%nat, 292, 0); (8%nat, 296, sector)] ++ desc_fields 0 (u64 (q + 288)) 16 1 1 ++ desc_fields 1 (u64 (q + 304)) 512 3 2.
Definition tail_fields (q n : Z) : list field_write :=
  desc_fields 2 (u64 (q + 816)) 1 2 0 ++ [(2%nat, 132 + 2 * (n mod 8), 0); (2%nat, 130, u16 (n + 1))].

(** a chain of three descriptors: the header of a read of this sector, 512 bytes for
    the data, one for the status; it is the next entry of the ring *)
Definition read_request (q n sector : Z) (p : list Z) : Prop := zlen p = 4096 /\ Forall (has_field p) (head_fields q sector ++ tail_fields q n).

Section Submit.
Context {D : Type} {VD : VirtioDevice D}.

Ltac next_put :=
  match goal with |- res_bind ?m _ = _ => destruct m; cbn [res_bind]; [| done | done] end.

Lemma u64_add x y : u64 (u64 x + y) = u64 (x + y).
Proof. unfold u64. by rewrite Z.add_mod_idemp_l by done. Qed.

Lemma put_desc_puts i addr len flags next (q : queue (D := D)) : put_desc i addr len flags next q = puts (desc_fields i addr len flags next) q.
Proof.
  unfold put_desc, desc_fields, VQ_DESC_OFF. rewrite Z.add_0_l. cbn [puts]. destruct (put 8 _ _ _); cbn [res_bind]; [| done | done].
  destruct (put 4 _ _ _); cbn [res_bind]; [| done | done]. destruct (put 2 _ flags _); cbn [res_bind]; [| done | done].
  by destruct (put 2 _ next _).
Qed.

Lemma puts_app ws ws' (q : queue (D := D)) : puts (ws ++ ws') q = res_bind (puts ws q) (puts ws').
Proof. revert q. induction ws as [| [[n off] v] ws IH]; intros q; [done |]. cbn [app puts]. destruct (put _ _ _ _); cbn [res_bind]; [apply IH | done | done]. Qed.

Lemma submit_puts s sector (q : queue (D := D)) : submit s sector q =
  let! q := puts (head_fields (g_vq_phys s) sector ++ (1%nat, 816, 0xFF) :: tail_fields (g_vq_phys s) (g_next_avail s)) q in
  let s := with_avail (u16 (g_next_avail s + 1)) s in
  let '(notify_off, q) := common_read16 s QUEUE_NOTIFY_OFF q in
  Ok (s, reg_out 2 (u64 (g_notify_base s + u32 (notify_off * g_notify_off_mult s))) 0 q).
Proof.
  unfold submit, head_fields, tail_fields. rewrite !puts_app. cbn [puts app].
  change (VQ_REQ_OFF + VQ_REQ_HDR_OFF) with 288. change (288 + 4) with 292. change (288 + 8) with 296. change (VQ_REQ_OFF + VQ_REQ_STATUS_OFF) with 816.
  change (VQ_AVAIL_OFF + 4) with 132. change (VQ_AVAIL_OFF + 2) with 130. change VIRTQ_SIZE with 8.
  do 3 next_put. rewrite put_desc_puts, u64_add, <- Z.add_assoc, puts_app.
  change (desc_fields 0 (u64 (g_vq_phys s + (VQ_REQ_OFF + VQ_REQ_HDR_OFF))) 16 VIRTQ_DESC_F_NEXT 1) with (desc_fields 0 (u64 (g_vq_phys s + 288)) 16 1 1).
  next_put. rewrite put_desc_puts, u64_add, <- Z.add_assoc.
  change (desc_fields 1 _ _ _ 2) with (desc_fields 1 (u64 (g_vq_phys s + 304)) 512 3 2) at 1. next_put. next_put.
  rewrite put_desc_puts, u64_add, <- Z.add_assoc, puts_app.
  change (desc_fields 2 (u64 (g_vq_phys s + (VQ_REQ_OFF + VQ_REQ_STATUS_OFF))) 1 VIRTQ_DESC_F_WRITE 0) with (desc_fields 2 (u64 (g_vq_phys s + 816)) 1 2 0).
  next_put. cbn [puts]. next_put. change (g_next_avail (with_avail (u16 (g_next_avail s + 1)) s)) with (u16 (g_next_avail s + 1)). next_put. done.
Qed.

(** a request written: what the page holds, and what it held elsewhere *)
Lemma submit_ok s sector d p : zlen p = 4096 -> 0 <= sector < 18446744073709551616 -> 0 <= g_vq_phys s -> 0 <= g_next_avail s < 65536 ->
  exists p', zlen p' = 4096 /\ read_request (g_vq_phys s) (g_next_avail s) sector p' /\ (forall i, 160 <= i < 288 -> byte_at p' i = byte_at p i) /\
    submit s sector (mk_queue_state d p) =
    let s := with_avail (u16 (g_next_avail s + 1)) s in
    let '(notify_off, q) := common_read16 s QUEUE_NOTIFY_OFF (mk_queue_state d p') in
    Ok (s, reg_out 2 (u64 (g_notify_base s + u32 (notify_off * g_notify_off_mult s))) 0 q).
Proof.
  intros HL HS HQ HN. rewrite submit_puts.
  destruct (puts_ok (head_fields (g_vq_phys s) sector ++ (1%nat, 816, 0xFF) :: tail_fields (g_vq_phys s) (g_next_avail s)) (mk_queue_state d p)) as (p' & -> & HL' & HF & HO).
  - cbn [q_page]. rewrite HL. pose proof (u64_range (g_vq_phys s + 288)). pose proof (u64_range (g_vq_phys s + 304)). pose proof (u64_range (g_vq_phys s + 816)).
    pose proof (Z.mod_pos_bound (g_next_avail s) 8 ltac:(lia)). pose proof (Z.mod_pos_bound (g_next_avail s + 1) 65536 ltac:(lia)). unfold is_u64 in *.
    unfold head_fields, tail_fields, desc_fields, u16. cbn [app]. repeat (apply Forall_cons; split; [unfold fits; cbn [fst snd]; lia |]). apply Forall_nil_2.
  - pose proof (Z.mod_pos_bound (g_next_avail s) 8 ltac:(lia)). unfold head_fields, tail_fields, desc_fields. cbn [app pairwise].
    repeat (split; [repeat (apply Forall_cons; split; [unfold disjoint_fields; cbn [fst snd]; lia |]); apply Forall_nil_2 |]). done.
  - exists p'. cbn [q_page] in *. split; [lia |]. split; [split; [lia |] |].
    { apply Forall_app in HF as [HF1 HF2]. apply Forall_cons in HF2 as [_ HF2]. by apply Forall_app. }
    split; [| done]. intros i Hi. apply HO. pose proof (Z.mod_pos_bound (g_next_avail s) 8 ltac:(lia)).
    unfold head_fields, tail_fields, desc_fields. cbn [app]. repeat (apply Forall_cons; split; [unfold outside; cbn [fst snd]; lia |]). apply Forall_nil_2.
Qed.
End Submit.

(** ** Any device *)

(** the bounded loop is a plain one *)
Fixpoint iter_nat {S R : Type} (n : nat) (f : S -> S + R) (s : S) : S + R :=
  match n with
  | O => inl s
  | S n => match f s with inl s => iter_nat n f s | inr r => inr r end
  end.

Lemma iter_nat_add {S R : Type} a b (f : S -> S + R) s :
  iter_nat (a + b) f s = match iter_nat a f s with inl s => iter_nat b f s | inr r => inr r end.
Proof. revert s. induction a as [| a IH]; intros s; cbn; [done |]. destruct (f s); [apply IH | done]. Qed.

Lemma iter_until_nat {S R : Type} n (f : S -> S + R) s : iter_until n f s = iter_nat (Pos.to_nat n) f s.
Proof.
  revert s. induction n as [n IH | n IH |]; intros s; cbn [iter_until].
  - rewrite Pos2Nat.inj_xI. cbn [iter_nat]. destruct (f s) as [s1 |]; [| done]. rewrite IH. replace (2 * Pos.to_nat n)%nat with (Pos.to_nat n + Pos.to_nat n)%nat by lia.
    rewrite iter_nat_add. by destruct (iter_nat _ _ _).
  - rewrite Pos2Nat.inj_xO, IH. replace (2 * Pos.to_nat n)%nat with (Pos.to_nat n + Pos.to_nat n)%nat by lia.
    rewrite iter_nat_add. by destruct (iter_nat _ _ _).
  - rewrite Pos2Nat.inj_1. cbn. by destruct (f s).
Qed.

Lemma le_total n p i : 0 <= i -> i + Z.of_nat n <= zlen p -> exists v, le n p i = Ok v.
Proof.
  revert i. induction n as [| n IH]; intros i H1 H2; cbn [le]; [eauto |].
  destruct (byte_at_inside p i) as (b & _ & ->); [unfold zlen in *; red; lia |]. cbn [res_bind]. destruct (IH (i + 1)) as [v ->]; [lia | lia |]. cbn. eauto.
Qed.

Section Reads.
Context {D : Type} {VD : VirtioDevice D}.

Lemma look_page (q : queue (D := D)) : zlen (q_page (look q)) = zlen (q_page q).
Proof. unfold look, zlen. pose proof (dev_dma_length (q_page q) (q_dev q)) as H. destruct (dev_dma _ _) as [p d]. cbn in *. by rewrite H. Qed.

Lemma used_idx_ok (q : queue (D := D)) : zlen (q_page q) = 4096 -> exists i, used_idx q = Ok i.
Proof. intros HL. apply le_total; [done |]. rewrite HL. done. Qed.

Lemma poll_safe s (q : queue (D := D)) : zlen (q_page q) = 4096 ->
  exists r q', virtio_pci_blk_poll s q = Ok (r, q') /\ zlen (q_page q') = 4096 /\ (r = 0 \/ r = -1).
Proof.
  intros HL. unfold virtio_pci_blk_poll.
  pose proof (iter_until_inv (fun q => zlen (q_page q) = 4096) (fun r => exists q', r = Ok q' /\ zlen (q_page q') = 4096) POLLS (poll_turn (g_last_used s))) as H.
  specialize (H ltac:(intros q1 H1; unfold poll_turn; destruct (used_idx_ok (look q1)) as [i ->]; [by rewrite look_page |];
    destruct (_ =? _); [by rewrite look_page | eexists; split; [done | by rewrite look_page]]) q HL).
  assert (HX : exists q1, match iter_until POLLS (poll_turn (g_last_used s)) q with inl q => Ok q | inr r => r end = Ok q1 /\ zlen (q_page q1) = 4096).
  { destruct (iter_until _ _ _) as [q1 | r]; [by exists q1 | exact H]. }
  destruct HX as (q1 & -> & HL1). cbn [res_bind]. destruct (used_idx_ok (look q1)) as [i ->]; [by rewrite look_page |]. cbn [res_bind].
  eexists _, (look q1). split; [done |]. split; [by rewrite look_page |]. destruct (_ =? _); auto.
Qed.

(** the bytes from [n] on are as before *)
Definition kept_from (n : Z) (buf buf' : list Z) : Prop := zlen buf' = zlen buf /\ forall k, n <= Z.of_nat k -> buf' !! k = buf !! k.

Lemma kept_from_weaken m n buf buf' : kept_from m buf buf' -> m <= n -> kept_from n buf buf'.
Proof. intros [H1 H2] Hmn. split; [done |]. intros k Hk. apply H2. lia. Qed.

Lemma write_kept buf i l : 0 <= i -> i + zlen l <= zlen buf -> exists buf', write_bytes buf i l = Ok buf' /\ kept_from (i + zlen l) buf buf' /\
  (forall k, Z.of_nat k < i -> buf' !! k = buf !! k) /\ slice buf' i (zlen l) = l.
Proof.
  intros Hi HL. destruct (write_bytes_inside buf i l) as (buf' & E & HL' & HK). { red. unfold zlen in *. lia. }
  exists buf'. split; [done |]. split; [split; [done |]; intros k Hk; rewrite HK, decide_False by (unfold zlen in *; lia); done |].
  split; [intros k Hk; rewrite HK, decide_False by lia; done |]. unfold slice, zlen in *. apply list_eq. intros k. rewrite Nat2Z.id.
  destruct (decide (k < length l)%nat) as [Hk | Hk].
  - rewrite lookup_take_lt, lookup_drop, HK, decide_True by lia. f_equal. lia.
  - rewrite lookup_take_ge by lia. symmetry. apply lookup_ge_None. lia.
Qed.

(** the driver's own state in range *)
Definition driver_ok (s : virtio) : Prop := 0 <= g_vq_phys s /\ 0 <= g_next_avail s < 65536.

Lemma u16_range x : 0 <= u16 x < 65536.
Proof. apply Z.mod_pos_bound. lia. Qed.

Lemma submit_safe s sector (q : queue (D := D)) : zlen (q_page q) = 4096 -> driver_ok s -> 0 <= sector < 18446744073709551616 ->
  exists q', submit s sector q = Ok (with_avail (u16 (g_next_avail s + 1)) s, q') /\ zlen (q_page q') = 4096.
Proof.
  intros HL [H1 H2] HS. destruct q as [d p]. destruct (submit_ok s sector d p HL HS H1 H2) as (p' & HL' & _ & _ & ->).
  cbn zeta. unfold common_read16, reg_in. cbn [q_dev q_page]. destruct (dev_in _ _ d) as [v d']. by eexists.
Qed.

Lemma read_sectors_safe todo sector : 0 <= sector -> forall done buf s (q : queue (D := D)),
  zlen (q_page q) = 4096 -> driver_ok s -> 0 <= done -> (done + Z.of_nat todo) * 512 <= zlen buf < 4294967296 ->
  exists r buf' s' q', read_sectors todo sector done buf s q = Ok (r, buf', s', q') /\ zlen (q_page q') = 4096 /\ driver_ok s' /\
    (r = -1 /\ done = 0 \/ done <= r <= done + Z.of_nat todo) /\ kept_from (Z.max r 0 * 512) buf buf'.
Proof.
  intros HS. induction todo as [| todo IH]; intros done buf s q HL HD Hd HB; cbn [read_sectors].
  { rewrite i32_small by lia. exists done, buf, s, q. do 3 (split; [done |]). split; [right; lia | by split]. }
  destruct (submit_safe s (u64 (sector + done)) q HL HD (u64_range _)) as (q1 & -> & HL1). cbn [res_bind]. set (s1 := with_avail _ s).
  assert (HD1 : driver_ok s1) by (split; [apply HD | apply u16_range]).
  assert (HX : forall q' : queue (D := D), zlen (q_page q') = 4096 -> exists r buf' s' q'', Ok (if 0 <? done then i32 done else -1, buf, s1, q') = Ok (r, buf', s', q'') /\ zlen (q_page q'') = 4096 /\ driver_ok s' /\
    (r = -1 /\ done = 0 \/ done <= r <= done + Z.of_nat (S todo)) /\ kept_from (Z.max r 0 * 512) buf buf').
  { intros q' HL'. eexists _, buf, s1, q'. do 3 (split; [done |]). destruct (Z.ltb_spec 0 done); [rewrite i32_small by lia; split; [right; lia | by split] | split; [left; lia | by split]]. }
  destruct (poll_safe s1 q1 HL1) as (r & q2 & -> & HL2 & Hr). cbn [res_bind]. destruct (negb (r =? 0)); [by apply HX |].
  assert (HL3 : zlen (q_page (look q2)) = 4096) by (by rewrite look_page). change (VQ_REQ_OFF + VQ_REQ_STATUS_OFF) with 816. change (VQ_REQ_OFF + VQ_REQ_DATA_OFF) with 304.
  destruct (byte_at_inside (q_page (look q2)) 816) as (st1 & _ & ->); [unfold zlen in HL3; red; lia |]. cbn [res_bind]. destruct (st1 =? 255); [by apply HX |].
  assert (HL4 : zlen (q_page (look (look q2))) = 4096) by (by rewrite look_page).
  destruct (byte_at_inside (q_page (look (look q2))) 816) as (st2 & _ & ->); [unfold zlen in HL4; red; lia |]. cbn [res_bind]. destruct (negb (st2 =? 0)); [by apply HX |].
  set (q5 := look (look (look q2))). assert (HL5 : zlen (q_page q5) = 4096) by (unfold q5; by rewrite look_page).
  assert (HI : inside (q_page q5) 304 512) by (unfold zlen in HL5; red; lia). change VIRTIO_BLK_SECTOR_SIZE with 512.
  rewrite bytes_at_inside by done. cbn [res_bind]. pose proof (slice_length _ _ _ HI) as HSl. fold (zlen (slice (q_page q5) 304 512)) in HSl.
  rewrite u32_small by (red; lia). destruct (write_kept buf (done * 512) (slice (q_page q5) 304 512)) as (buf1 & -> & HK1 & _); [lia | lia |]. cbn [res_bind].
  destruct (IH (done + 1) buf1 (with_last (u16 (g_last_used s1 + 1)) s1) q5 HL5) as (r' & buf' & s' & q' & -> & HL' & HD' & Hr' & HK'); [split; apply HD1 | lia | destruct HK1; lia |].
  exists r', buf', s', q'. do 3 (split; [done |]). split; [right; lia |]. destruct HK' as [E1 E2]. split; [destruct HK1; congruence |].
  intros k Hk. rewrite E2 by done. apply HK1. lia.
Qed.

End Reads.

(** ** A disk *)

(** the device is at work on a request: it has changed at most the data and the status *)
Definition scratch (p p' : list Z) : Prop := zlen p' = zlen p /\ forall i, i < 304 \/ 817 <= i -> byte_at p' i = byte_at p i.

(** it has served the [n]-th request: the data, the status 0 and the index of the used
    ring, beside the entries of that ring *)
Definition completed (n : Z) (data p p' : list Z) : Prop :=
  zlen p' = zlen p /\ le 2 p' 162 = Ok (u16 (n + 1)) /\ byte_at p' 816 = Ok 0 /\ slice p' 304 512 = data /\
  forall i, i < 160 \/ 288 <= i < 304 \/ 817 <= i -> byte_at p' i = byte_at p i.

(** A device that serves reads of [disk]: it is idle after [n] requests (modulo 2^16),
    or [k] looks of the driver away from having served the next one.  Its registers
    are at [common]; it expects notifications at the address that the register
    [queue_notify_off] and the multiplier [mult] give from [notify_base], and its
    queue is in the page [vq].  It depends on nothing but the request. *)
Class VirtioDisk (D : Type) {VD : VirtioDevice D} (disk : Z -> list Z) (common notify_base mult vq : Z) := {
  idle : Z -> D -> Prop;
  waiting : Z -> nat -> D -> Prop;
  notify_off : Z;
  disk_length sec : zlen (disk sec) = 512;
  idle_in n d : idle n d -> exists d', dev_in 2 (u64 (common + QUEUE_NOTIFY_OFF)) d = (notify_off, d') /\ idle n d';
  idle_dma n d p : idle n d -> exists d', dev_dma p d = (p, d') /\ idle n d';
  idle_notify n d : idle n d ->
    exists k, Z.of_nat k <= 10000000 /\ waiting n k (dev_out 2 (u64 (notify_base + u32 (notify_off mod 65536 * mult))) 0 d);
  waiting_dma n k d p sector : waiting n (S k) d -> read_request vq n sector p ->
    exists p' d', dev_dma p d = (p', d') /\ waiting n k d' /\ scratch p p';
  served_dma n d p sector : waiting n 0 d -> read_request vq n sector p ->
    exists p' d', dev_dma p d = (p', d') /\ idle (u16 (n + 1)) d' /\ completed n (disk sector) p p'
}.

Section Disk.
Context {D : Type} {VD : VirtioDevice D} {disk : Z -> list Z} {common notify_base mult vq : Z} {VB : VirtioDisk D disk common notify_base mult vq}.

(** driver and device agree that [n] requests have been served *)
Definition in_sync (n : Z) (s : virtio) (q : queue (D := D)) : Prop :=
  (g_initialized s = true /\ g_common s = common /\ g_notify_base s = notify_base /\ g_notify_off_mult s = mult /\ g_vq_phys s = vq /\ 0 <= vq) /\
  g_next_avail s = n /\ g_last_used s = n /\ 0 <= n < 65536 /\ idle n (q_dev q) /\ zlen (q_page q) = 4096 /\ used_idx q = Ok n.

Lemma request_scratch n sector p p' : scratch p p' -> read_request vq n sector p -> read_request vq n sector p'.
Proof.
  intros [HL HS] [HP HF]. split; [congruence |]. assert (HR : Forall (fun w : field_write => w.1.2 + Z.of_nat w.1.1 <= 304) (head_fields vq sector ++ tail_fields vq n)).
  { pose proof (Z.mod_pos_bound n 8 ltac:(lia)). unfold head_fields, tail_fields, desc_fields. cbn [app]. repeat (apply Forall_cons; split; [cbn [fst snd]; lia |]). apply Forall_nil_2. }
  revert HR HF. generalize (head_fields vq sector ++ tail_fields vq n). intros l HR HF. induction HF as [| w l Hw HF IH]; [done |].
  apply Forall_cons in HR as [H1 HR]. constructor; [| by apply IH]. red. rewrite (le_frame w.1.1 p p'); [done |]. intros i Hi. apply HS. lia.
Qed.

Lemma next_differs n : 0 <= n < 65536 -> (u16 (n + 1) =? n) = false.
Proof. intros Hn. apply Z.eqb_neq. unfold u16. zlia. Qed.

(** the wait for a request *)
Lemma wait_served n sector k : 0 <= n < 65536 -> forall d p N, waiting n k d -> read_request vq n sector p -> le 2 p 162 = Ok n -> (k < N)%nat ->
  exists d' p0 p', iter_nat N (poll_turn n) (mk_queue_state d p) = inr (Ok (mk_queue_state d' p')) /\ idle (u16 (n + 1)) d' /\ completed n (disk sector) p0 p' /\ zlen p' = 4096.
Proof.
  intros Hn. induction k as [| k IH]; intros d p N HW HR HU HN; (destruct N as [| N]; [lia |]); cbn [iter_nat]; unfold poll_turn at 1, look; cbn [q_page q_dev].
  - destruct (served_dma n d p sector HW HR) as (p' & d' & -> & HI & HC). pose proof HC as (HL & HU' & _). unfold used_idx. cbn [q_page]. change (VQ_USED_OFF + 2) with 162.
    rewrite HU', next_differs by done. exists d', p, p'. do 3 (split; [done |]). destruct HR. lia.
  - destruct (waiting_dma n k d p sector HW HR) as (p' & d' & -> & HW' & HS). unfold used_idx. cbn [q_page]. change (VQ_USED_OFF + 2) with 162.
    assert (HU' : le 2 p' 162 = Ok n) by (rewrite <- HU; apply le_frame; intros i Hi; apply HS; lia). rewrite HU', Z.eqb_refl.
    apply (IH d' p' N); [done | by apply (request_scratch n sector p) | done | lia].
Qed.

Lemma look_idle n d p : idle n d -> exists d', look (mk_queue_state d p) = mk_queue_state d' p /\ idle n d'.
Proof. intros H. unfold look. cbn [q_page q_dev]. destruct (idle_dma n d p H) as (d' & -> & H'). by exists d'. Qed.

(** one request from end to end *)
Lemma request_served n s q sector : in_sync n s q -> 0 <= sector < 18446744073709551616 ->
  exists q1 d2 p2, submit s sector q = Ok (with_avail (u16 (n + 1)) s, q1) /\
    virtio_pci_blk_poll (with_avail (u16 (n + 1)) s) q1 = Ok (0, mk_queue_state d2 p2) /\ idle (u16 (n + 1)) d2 /\ zlen p2 = 4096 /\
    le 2 p2 162 = Ok (u16 (n + 1)) /\ byte_at p2 816 = Ok 0 /\ slice p2 304 512 = disk sector.
Proof.
  intros ((Hi & Hc & Hb & Hm & Hv & Hv0) & Hna & Hlu & Hn & HI & HL & HU) Hsec. destruct q as [d p]. cbn [q_dev q_page] in *.
  destruct (submit_ok s sector d p HL Hsec ltac:(lia) ltac:(lia)) as (p1 & HL1 & HR & HF & E). rewrite Hna, Hv in *.
  cbn zeta in E. unfold common_read16, reg_in in E. cbn [q_dev q_page with_avail g_common g_notify_base g_notify_off_mult] in E. rewrite Hc, Hb, Hm in E.
  destruct (idle_in n d HI) as (d1 & EI & HI1). rewrite EI in E. change (256 ^ Z.of_nat 2) with 65536 in E.
  destruct (idle_notify n d1 HI1) as (k & Hk & HW). unfold reg_out in E. cbn [q_dev q_page] in E. set (d2 := dev_out _ _ _ d1) in *. clearbody d2.
  assert (HU1 : le 2 p1 162 = Ok n) by (change (le 2 p 162 = Ok n) in HU; rewrite <- HU; apply le_frame; intros i Hi'; apply HF; lia).
  destruct (wait_served n sector k Hn d2 p1 (Pos.to_nat POLLS) HW HR HU1) as (d3 & p0 & p3 & EW & HI3 & HC & HL3). { pose proof (positive_nat_Z POLLS) as EP. unfold POLLS in *. lia. }
  destruct (look_idle _ d3 p3 HI3) as (d4 & EL & HI4). exists (mk_queue_state d2 p1), d4, p3. split; [exact E |].
  destruct HC as (_ & HU3 & HS3 & HD3 & _). split; [| do 4 (split; [done |]); done]. unfold virtio_pci_blk_poll. rewrite iter_until_nat.
  change (g_last_used (with_avail (u16 (n + 1)) s)) with (g_last_used s). rewrite Hlu, EW. cbn [res_bind]. rewrite EL. unfold used_idx. cbn [q_page].
  change (VQ_USED_OFF + 2) with 162. rewrite HU3. cbn [res_bind]. by rewrite next_differs.
Qed.

Lemma read_sectors_disk todo sector : 0 <= sector -> forall done buf n s q, in_sync n s q -> 0 <= done -> sector + done + Z.of_nat todo <= 18446744073709551616 ->
  (done + Z.of_nat todo) * 512 <= zlen buf < 4294967296 ->
  exists s' q', read_sectors todo sector done buf s q =
    Ok (done + Z.of_nat todo, take (Z.to_nat (done * 512)) buf ++ concat (disk <$> seqZ (sector + done) (Z.of_nat todo)) ++ drop (Z.to_nat ((done + Z.of_nat todo) * 512)) buf, s', q') /\
    in_sync (u16 (n + Z.of_nat todo)) s' q'.
Proof.
  intros HS. induction todo as [| todo IH]; intros done buf n s q HI Hd Hsec HB.
  { cbn [read_sectors]. exists s, q. rewrite i32_small by lia. change (Z.of_nat 0) with 0. rewrite !Z.add_0_r. change (seqZ (sector + done) 0) with (@nil Z). cbn [fmap list_fmap concat app]. rewrite take_drop. split; [done |].
    destruct HI as (? & ? & ? & Hn & ?). unfold u16. by rewrite Z.mod_small by lia. }
  cbn [read_sectors]. rewrite u64_small by (red; lia).
  destruct (request_served n s q (sector + done) HI ltac:(lia)) as (q1 & d2 & p2 & -> & EP & HI2 & HL2 & HU2 & HS2 & HD2). cbn [res_bind]. rewrite EP. cbn [res_bind negb Z.eqb].
  destruct (look_idle _ d2 p2 HI2) as (d3 & -> & HI3). change (VQ_REQ_OFF + VQ_REQ_STATUS_OFF) with 816. cbn [q_page]. rewrite HS2. cbn [res_bind Z.eqb].
  destruct (look_idle _ d3 p2 HI3) as (d4 & -> & HI4). cbn [q_page]. rewrite HS2. cbn [res_bind Z.eqb negb].
  destruct (look_idle _ d4 p2 HI4) as (d5 & -> & HI5). cbn [q_page]. change (VQ_REQ_OFF + VQ_REQ_DATA_OFF) with 304. change VIRTIO_BLK_SECTOR_SIZE with 512.
  rewrite bytes_at_inside by (unfold zlen in HL2; red; lia). cbn [res_bind]. rewrite HD2, u32_small by (red; lia).
  unfold write_bytes at 1. rewrite disk_length. rewrite (proj2 (Z.leb_le 0 _)), (proj2 (Z.leb_le _ (zlen buf))) by lia. cbn [andb res_bind].
  set (buf1 := take _ buf ++ disk (sector + done) ++ drop _ buf). set (s1 := with_last _ _).
  assert (HB1 : length buf1 = length buf).
  { unfold buf1. pose proof (disk_length (sector + done)) as HLd. unfold zlen in *. rewrite !length_app, length_take, length_drop. lia. }
  assert (HI1 : in_sync (u16 (n + 1)) s1 (mk_queue_state d5 p2)).
  { destruct HI as (? & Hna & Hlu & Hn & _). split; [done |]. split; [done |]. split; [by cbn; rewrite Hlu |]. split; [apply u16_range |]. split; [done |]. split; [done |]. exact HU2. }
  destruct (IH (done + 1) buf1 _ s1 _ HI1) as (s' & q' & -> & HI'); [lia | lia | unfold zlen in *; lia |]. exists s', q'. split.
  - replace (done + 1 + Z.of_nat todo) with (done + Z.of_nat (S todo)) by lia. do 4 f_equal. unfold buf1.
    rewrite (seqZ_cons (sector + done)) by lia. cbn [fmap list_fmap concat]. replace (Z.pred (Z.of_nat (S todo))) with (Z.of_nat todo) by lia.
    replace (Z.succ (sector + done)) with (sector + (done + 1)) by lia. pose proof (disk_length (sector + done)) as HLd. unfold zlen in *.
    rewrite (app_assoc (take _ buf) (disk _) (drop _ buf)). rewrite take_app_length' by (rewrite length_app, length_take; lia).
    rewrite drop_app_ge by (rewrite length_app, length_take; lia). rewrite length_app, length_take, drop_drop, <- !app_assoc. do 4 f_equal. lia.
  - replace (u16 (n + Z.of_nat (S todo))) with (u16 (u16 (n + 1) + Z.of_nat todo)); [done |]. unfold u16. rewrite Z.add_mod_idemp_l by done. f_equal. lia.
Qed.

(** C19: with a device that serves a disk, and in step with it, a read of any number of
    sectors returns their number; the sectors of the disk are in the buffer, the rest
    of which is unchanged; and driver and device stay in step. *)
Theorem virtio_read_correct n sector count buf s q : in_sync n s q -> 0 <= sector -> 0 <= count -> sector + count <= 18446744073709551616 ->
  count * 512 <= zlen buf < 4294967296 ->
  exists s' q', virtio_pci_blk_bd_read sector buf count s q =
    Ok (count, concat (disk <$> seqZ sector count) ++ drop (Z.to_nat (count * 512)) buf, s', q') /\ in_sync (u16 (n + count)) s' q'.
Proof.
  intros HI HS HC Hsec HB. unfold virtio_pci_blk_bd_read. pose proof HI as ((-> & _) & _ & _ & Hn & _). cbn [negb].
  destruct (Z.eqb_spec count 0) as [-> | Hc]. { exists s, q. split; [done |]. unfold u16. rewrite Z.add_0_r, Z.mod_small by done. done. }
  destruct (read_sectors_disk (Z.to_nat count) sector HS 0 buf n s q HI) as (s' & q' & E & HI'); [lia | lia | lia |].
  rewrite Z2Nat.id in * by lia. rewrite !Z.add_0_l, Z.add_0_r in E. by exists s', q'.
Qed.

(** the device that the file system is proved against *)
Lemma virtio_serves n sector buf s q : in_sync n s q -> 0 <= sector < 18446744073709551615 -> zlen buf = 512 ->
  exists s' q', virtio_pci_blk_bd_read sector buf 1 s q = Ok (1, disk sector, s', q') /\ in_sync (u16 (n + 1)) s' q'.
Proof.
  intros HI HS HB. unfold virtio_pci_blk_bd_read. pose proof HI as ((-> & _) & _). cbn [negb Z.eqb].
  destruct (read_sectors_disk 1 sector ltac:(lia) 0 buf n s q HI) as (s' & q' & E & HI'); [lia | lia | lia |]. exists s', q'.
  change (Z.to_nat 1) with 1%nat. rewrite E, Z.add_0_r. cbn [fmap list_fmap]. rewrite drop_ge by (unfold zlen in HB; lia). rewrite app_nil_r. change (Z.to_nat (0 * 512)) with 0%nat. cbn [take app].
  replace (seqZ sector (Z.of_nat 1)) with [sector]; [cbn; by rewrite app_nil_r |]. rewrite (seqZ_cons sector) by lia. done.
Qed.
End Disk.
