(* ===== verification/VirtioInit.v ===== *)
(** * Bringing the virtio device up

    The register blocks of the device are mapped one after the other into a window
    of the kernel's address space that is unmapped before; on success each is mapped
    to its part of the bar, the page of the queue is a frame of its own, and the
    driver is in step with a device that is ready. *)

From stdpp Require Import base list.
From S2P Require Import Prelude Bytes Alloc PageAlloc Vmm VmmWalk VmmSpec VmmSpace Pci PciSpec BlockDevice Virtio VirtioSpec.

Section Mapping.
Context {P : Type} {PA : PageAllocator P} (root : Z).

(** nothing is mapped at [n] bytes from [v] *)
Definition free_window (v n : Z) (m : vm P) : Prop := forall a, v <= a < v + n -> translate (tabs m) root a = None.

(** the [n] bytes at [a] are the physical ones at [phys], writable for the kernel *)
Definition shows (a phys n : Z) (m : vm P) : Prop := forall x, 0 <= x < n -> translate (tabs m) root (a + x) = Some ((phys + x) / 4096 * 4096, 2).

(** the largest that a window can be: its addresses differ in their page numbers *)
Definition WINDOW : Z := 17179869184.

(** outside [n] bytes from [v], in the window at [v0] or elsewhere, nothing has changed *)
Definition same_outside (v n : Z) (m m' : vm P) : Prop := forall w, ~ (exists a, v <= a < v + n /\ path w = path a) -> translate (tabs m') root w = translate (tabs m) root w.

Lemma mmio_flags : PTE_FLAGS MMIO_FLAGS.
Proof. by vm_compute. Qed.

Lemma window_paths v a b : v mod 4096 = 0 -> v <= a < v + WINDOW -> v <= b < v + WINDOW -> path a = path b -> a / 4096 = b / 4096.
Proof. intros Hv Ha Hb E%path_eq. unfold WINDOW in *. zlia. Qed.

Definition good_bar (dev : pci_device) (i : Z) : Prop :=
  exists phys size, bar_phys dev !! Z.to_nat i = Some phys /\ bar_size dev !! Z.to_nat i = Some size /\ 0 <= phys /\ 0 <= size /\ phys + size <= 4503599627362304.

Lemma map_bar_ok dev i offset length s (m : vm P) F : (i < 6 -> good_bar dev i) -> 0 <= offset < 4294967296 -> 0 <= length < 4294967296 ->
  let v := g_bar_mmio_next s in
  0 <= v -> v mod 4096 = 0 -> v + WINDOW + 8192 < 18446744073709551616 -> free_window v 4294975488 m -> space_ok root F m ->
  exists a n m' F', map_bar root dev i offset length s m = Ok (a, with_mmio_next (v + n) s, m') /\ 0 <= n <= 4294975488 /\ n mod 4096 = 0 /\
    F ⊆ F' /\ space_ok root F' m' /\ same_outside v n m m' /\
    (a = 0 \/ v <= a < v + 4096 /\ a + length <= v + n /\ exists phys, bar_phys dev !! Z.to_nat i = Some phys /\ shows a (phys + offset) length m').
Proof.
  intros HG Ho Hl v Hv Hva Hvb HW OK. unfold map_bar. destruct (decide (6 <= i)) as [H6 | H6].
  { rewrite (proj2 (Z.leb_le (Z.of_nat PCI_MAX_BARS) i) H6). cbn [orb]. exists 0, 0, m, F. rewrite Z.add_0_r. unfold v. split; [by destruct s |].
    split; [lia |]. split; [done |]. split; [done |]. split; [done |]. split; [by intros w _ | by left]. }
  destruct (HG ltac:(lia)) as (phys & size & Ep & Es & Hp & Hs & Hps). rewrite Ep, Es. change (default 0 (Some phys)) with phys. change (default 0 (Some size)) with size.
  assert (Hnop : exists a n m' F', Ok (0, s, m) = Ok (a, with_mmio_next (v + n) s, m') /\ 0 <= n <= 4294975488 /\ n mod 4096 = 0 /\ F ⊆ F' /\ space_ok root F' m' /\ same_outside v n m m' /\
    (a = 0 \/ v <= a < v + 4096 /\ a + length <= v + n /\ exists phys0, Some phys = Some phys0 /\ shows a (phys0 + offset) length m')).
  { exists 0, 0, m, F. rewrite Z.add_0_r. unfold v. split; [by destruct s |]. split; [lia |]. split; [done |]. split; [done |]. split; [done |]. split; [by intros w _ | by left]. }
  destruct (_ || _); [exact Hnop |]. rewrite (u64_small (offset + length)) by (red; lia). destruct (Z.ltb_spec size (offset + length)); [exact Hnop |]. clear Hnop.
  rewrite (u64_small (phys + offset)) by (red; lia). rewrite (u64_small (phys + offset + length + 4095)) by (red; lia). rewrite !(masked (phys + offset)), (masked (phys + offset + length + 4095)) by (red; lia).
  fold v. set (mp := phys + offset - (phys + offset) mod 4096). set (me := phys + offset + length + 4095 - (phys + offset + length + 4095) mod 4096).
  assert (Hml : 0 <= me - mp <= 4294975488 /\ (me - mp) mod 4096 = 0 /\ mp mod 4096 = 0 /\ phys + offset + length - mp <= me - mp) by (unfold me, mp; zlia). destruct Hml as (Hml & Hma & Hmp & Hm0).
  rewrite (u64_small (me - mp)) by (red; lia). rewrite (u64_small (v + (me - mp))) by (red; unfold WINDOW in *; lia). rewrite (u64_small (v + (me - mp) + 4095)) by (red; unfold WINDOW in *; lia).
  rewrite masked by (red; unfold WINDOW in *; lia). replace (v + (me - mp) + 4095 - (v + (me - mp) + 4095) mod 4096) with (v + (me - mp)) by zlia.
  destruct (vmm_map_region_correct root v mp (me - mp) MMIO_FLAGS F m) as [[_ (a & (b & Hb & EP) & HT)] | (c & m' & F' & -> & HF & OK' & HO & HC)];
    [lia | unfold mp; zlia | lia | unfold WINDOW in *; lia | unfold mp, WINDOW in *; zlia | exact mmio_flags | exact OK | |].
  { destruct HT. rewrite (translate_path _ _ a b EP). apply HW. zlia. }
  cbn [res_bind]. assert (HSO : same_outside v (me - mp) m m').
  { intros w Hw. apply HO. intros (b & Hb & EP). apply Hw. exists b. split; [zlia | done]. }
  destruct HC as [-> | [-> HC]].
  - change (-1 <? 0) with true. exists 0, (me - mp), m', F'. do 6 (split; [done |]). by left.
  - change (0 <? 0) with false. cbv iota. rewrite u64_small by (red; unfold mp, WINDOW in *; zlia). eexists _, (me - mp), m', F'. do 6 (split; [done |]). right.
    split; [unfold mp; zlia |]. split; [lia |]. exists phys. split; [done |]. intros x Hx. rewrite HC by (unfold mp, me; zlia).
    change (Z.land MMIO_FLAGS RIGHTS) with 2. assert (E : (mp / 4096 + ((v + (phys + offset - mp) + x) / 4096 - v / 4096)) * 4096 = (phys + offset + x) / 4096 * 4096) by (unfold mp; zlia).
    rewrite E, addr_frame; [done | zlia | apply Z_mod_mult].
Qed.

Lemma window_kept v n k (m m' : vm P) : v mod 4096 = 0 -> n mod 4096 = 0 -> 0 <= n -> n + k <= WINDOW -> same_outside v n m m' -> free_window v (n + k) m -> free_window (v + n) k m'.
Proof.
  intros Hv Hn Hn0 Hk HS HW a Ha. rewrite HS; [apply HW; lia |]. intros (b & Hb & E). apply (window_paths v) in E; [zlia | done | lia | lia].
Qed.

Lemma shows_kept v0 a phys l v n (m m' : vm P) : v0 mod 4096 = 0 -> v mod 4096 = 0 -> v0 <= a -> a + l <= v -> v + n <= v0 + WINDOW -> same_outside v n m m' ->
  shows a phys l m -> shows a phys l m'.
Proof.
  intros H0 Hv Ha Hl Hn HS HW x Hx. rewrite HS; [by apply HW |]. intros (b & Hb & E). apply (window_paths v0) in E; [zlia | done | lia | lia].
Qed.
End Mapping.

(** ** Capabilities *)

Section Capabilities.
Context {C : Type} {CS : ConfigSpace C} (base : Z) (dev : pci_device) (c : C).

Abbreviation read8 := (fun o => pci_read8 base (bus dev) (slot dev) (func dev) o c).
Abbreviation read32 := (fun o => pci_read32 base (bus dev) (slot dev) (func dev) o c).

(** the capability at an offset of the configuration space *)
Definition cap_at (p : Z) : virtio_pci_cap := mk_cap (read8 p) (read8 (p + 1)) (read8 (p + 3)) (read8 (p + 4)) (read32 (p + 8)) (read32 (p + 12)).
(** a virtio capability of this type *)
Definition is_cap (ty p : Z) : Prop := 0x40 <= p <= 0xFC /\ read8 p = 9 /\ read8 (p + 3) = ty.

Lemma find_capability_ok ty s o s' : pci_find_capability base dev ty c s = Ok (o, s') ->
  match o with
  | None => s' = s
  | Some (i, p) => i = Z.to_nat (cap_idx s mod 3) /\ s' = with_caps (<[i := cap_at p]> (cap_buf s)) (cap_idx s + 1) s /\ is_cap ty p
  end.
Proof.
  unfold pci_find_capability. generalize VIRTIO_CAP_STEPS. intros n. generalize (pci_read8 base (bus dev) (slot dev) (func dev) PCI_REG_CAP_PTR c).
  induction n as [| n IH]; intros ptr; cbn [pci_find_capability_loop]; [done |].
  destruct (Z.leb_spec 64 ptr), (Z.leb_spec ptr 252); cbn [andb]; try (by intros [= <- <-]).
  destruct (Z.eqb_spec (read8 ptr) 9), (Z.eqb_spec (read8 (ptr + 3)) ty); cbn [andb]; try (by apply IH). intros [= <- <-]. by split.
Qed.

Lemma read8_range o : 0 <= read8 o < 256.
Proof. apply (cfg_read_range 1). Qed.
Lemma read32_range o : 0 <= read32 o < 4294967296.
Proof. apply (cfg_read_range 4). Qed.
End Capabilities.

(** ** Initialisation *)

Section Init.
Context {C : Type} {CS : ConfigSpace C} {D : Type} {VD : VirtioDevice D} {P : Type} {PA : PageAllocator P} (base root : Z).
Context (dev : pci_device) (bars_good : forall i, 0 <= i < 6 -> good_bar dev i).

Lemma outside_trans v n k (m1 m2 m3 : vm P) : 0 <= n -> 0 <= k -> same_outside root v n m1 m2 -> same_outside root (v + n) k m2 m3 -> same_outside root v (n + k) m1 m3.
Proof.
  intros Hn Hk H1 H2 w Hw. rewrite H2, H1; [done | |]; intros (a & Ha & E); apply Hw; exists a; (split; [lia | done]).
Qed.

(** the registers that a capability names, at [a] *)
Definition block_at (c : C) (a p : Z) (m : vm P) : Prop :=
  let cap := cap_at base dev c p in
  a <> 0 /\ exists phys, bar_phys dev !! Z.to_nat (cap_bar cap) = Some phys /\ shows root a (phys + cap_offset cap) (cap_length cap) m.

(** the three blocks of registers are mapped, the first at the start of the window *)
Definition located (c : C) (v : Z) (s : virtio) (m : vm P) : Prop :=
  v <= g_common s < v + 4096 /\ exists pc pn pi, is_cap base dev c 1 pc /\ is_cap base dev c 2 pn /\ is_cap base dev c 3 pi /\
    block_at c (g_common s) pc m /\ block_at c (g_notify_base s) pn m /\ block_at c (g_isr s) pi m /\
    g_notify_off_mult s = pci_read32 base (bus dev) (slot dev) (func dev) (pn + 16) c.

(** the configuration space with the device allowed to master the bus *)
Definition mastering (c : C) : C :=
  pci_write16 base (bus dev) (slot dev) (func dev) PCI_REG_COMMAND (Z.lor (Z.lor (pci_read16 base (bus dev) (slot dev) (func dev) PCI_REG_COMMAND c) 4) 2) c.

Definition caps_end (c : C) : Prop := forall ty s, exists r, pci_find_capability base dev ty c s = Ok r.

(** no capability has type -1: a search for it follows the whole list *)
Lemma caps_end_check c s0 r0 : pci_find_capability base dev (-1) c s0 = Ok r0 -> caps_end c.
Proof.
  unfold caps_end, pci_find_capability. intros H ty s. revert H. generalize VIRTIO_CAP_STEPS. intros n. generalize (pci_read8 base (bus dev) (slot dev) (func dev) PCI_REG_CAP_PTR c).
  induction n as [| n IH]; intros ptr; cbn [pci_find_capability_loop]; [done |]. destruct (_ && (ptr <=? 252)); [| by eexists].
  rewrite (proj2 (Z.eqb_neq (pci_read8 _ _ _ _ (ptr + 3) c) (-1))) by (pose proof (read8_range base dev c (ptr + 3)); cbn beta in *; lia). rewrite andb_false_r.
  intros H. destruct (_ && _); [by eexists | by apply IH].
Qed.

(** the window is where it was, page-aligned, and large enough for three blocks *)
Definition window_ok (s : virtio) (m : vm P) : Prop :=
  let v := g_bar_mmio_next s in
  0 <= v /\ v mod 4096 = 0 /\ v + WINDOW + 25769820672 < 18446744073709551616 /\ free_window root v 12884926464 m.

(** mapping the three blocks, in the order of the code *)
Lemma map_three c pc pi pn s (m : vm P) F : window_ok s m -> space_ok root F m ->
  let cap p := cap_at base dev c p in
  exists a1 a2 a3 s1 s2 s3 m1 m2 m3 F' n,
    map_bar root dev (cap_bar (cap pc)) (cap_offset (cap pc)) (cap_length (cap pc)) s m = Ok (a1, s1, m1) /\
    map_bar root dev (cap_bar (cap pi)) (cap_offset (cap pi)) (cap_length (cap pi)) s1 m1 = Ok (a2, s2, m2) /\
    map_bar root dev (cap_bar (cap pn)) (cap_offset (cap pn)) (cap_length (cap pn)) s2 m2 = Ok (a3, s3, m3) /\
    s3 = with_mmio_next (g_bar_mmio_next s + n) s /\ F ⊆ F' /\ space_ok root F' m3 /\ 0 <= n <= 12884926464 /\ same_outside root (g_bar_mmio_next s) n m m3 /\
    (a1 <> 0 -> g_bar_mmio_next s <= a1 < g_bar_mmio_next s + 4096 /\ block_at c a1 pc m3) /\ (a2 <> 0 -> block_at c a2 pi m3) /\ (a3 <> 0 -> block_at c a3 pn m3).
Proof.
  intros (Hv & Hva & Hvb & HW) OK cap. set (v := g_bar_mmio_next s) in *. unfold WINDOW in Hvb.
  assert (HB : forall p, cap_bar (cap p) < 6 -> good_bar dev (cap_bar (cap p))) by (intros p Hp; apply bars_good; split; [apply read8_range | done]).
  destruct (map_bar_ok root dev (cap_bar (cap pc)) (cap_offset (cap pc)) (cap_length (cap pc)) s m F) as (a1 & n1 & m1 & F1 & E1 & Hn1 & Hna1 & HF1 & OK1 & HO1 & HA1);
    [apply HB | apply read32_range | apply read32_range | done | done | unfold WINDOW; lia | intros a Ha; apply HW; lia | done |]. fold v in E1, HO1, HA1.
  set (s1 := with_mmio_next (v + n1) s) in *. assert (HW1 : free_window root (v + n1) (12884926464 - n1) m1).
  { apply (window_kept root v n1 _ m m1); [done | done | lia | unfold WINDOW; lia | done |]. intros a Ha. apply HW. lia. }
  destruct (map_bar_ok root dev (cap_bar (cap pi)) (cap_offset (cap pi)) (cap_length (cap pi)) s1 m1 F1) as (a2 & n2 & m2 & F2 & E2 & Hn2 & Hna2 & HF2 & OK2 & HO2 & HA2);
    [apply HB | apply read32_range | apply read32_range | cbn [g_bar_mmio_next with_mmio_next s1]; lia | cbn [g_bar_mmio_next with_mmio_next s1]; zlia | cbn [g_bar_mmio_next with_mmio_next s1]; unfold WINDOW; lia | cbn [g_bar_mmio_next with_mmio_next s1]; intros a Ha; apply HW1; lia | done |]. change (g_bar_mmio_next s1) with (v + n1) in E2, HO2, HA2.
  set (s2 := with_mmio_next (v + n1 + n2) s1) in *. assert (HW2 : free_window root (v + n1 + n2) (12884926464 - n1 - n2) m2).
  { apply (window_kept root (v + n1) n2 _ m1 m2); [zlia | done | lia | unfold WINDOW; lia | done |]. intros a Ha. apply HW1. lia. }
  destruct (map_bar_ok root dev (cap_bar (cap pn)) (cap_offset (cap pn)) (cap_length (cap pn)) s2 m2 F2) as (a3 & n3 & m3 & F3 & E3 & Hn3 & Hna3 & HF3 & OK3 & HO3 & HA3);
    [apply HB | apply read32_range | apply read32_range | cbn [g_bar_mmio_next with_mmio_next s2]; lia | cbn [g_bar_mmio_next with_mmio_next s2]; zlia | cbn [g_bar_mmio_next with_mmio_next s2]; unfold WINDOW; lia | cbn [g_bar_mmio_next with_mmio_next s2]; intros a Ha; apply HW2; lia | done |]. change (g_bar_mmio_next s2) with (v + n1 + n2) in E3, HO3, HA3.
  exists a1, a2, a3, s1, s2, (with_mmio_next (v + (n1 + n2 + n3)) s), m1, m2, m3, F3, (n1 + n2 + n3).
  split; [exact E1 |]. split; [exact E2 |]. split; [rewrite E3; do 3 f_equal; unfold s2, s1, with_mmio_next; cbn; f_equal; lia |]. split; [done |].
  split; [set_solver |]. split; [done |]. split; [lia |]. split.
  { replace (n1 + n2 + n3) with (n1 + (n2 + n3)) by lia. apply (outside_trans v n1 (n2 + n3) m m1 m3); [lia | lia | exact HO1 |]. apply (outside_trans (v + n1) n2 n3 m1 m2 m3); [lia | lia | exact HO2 | exact HO3]. }
  split; [| split]; intros Ha.
  - change (cap pc) with (cap_at base dev c pc) in *. destruct HA1 as [? | (Hr & Hle & phys & Ep & HS)]; [done |]. split; [exact Hr |]. split; [done |]. exists phys. split; [done |].
    apply (shows_kept root v _ _ _ (v + n1 + n2) n3 m2); [done | zlia | lia | lia | unfold WINDOW; lia | done |].
    apply (shows_kept root v _ _ _ (v + n1) n2 m1); [done | zlia | lia | lia | unfold WINDOW; lia | done | done].
  - change (cap pi) with (cap_at base dev c pi) in *. destruct HA2 as [? | (Hr & Hle & phys & Ep & HS)]; [done |]. split; [done |]. exists phys. split; [done |].
    apply (shows_kept root (v + n1) _ _ _ (v + n1 + n2) n3 m2); [zlia | zlia | lia | lia | unfold WINDOW; lia | done | done].
  - destruct HA3 as [? | (Hr & Hle & phys & Ep & HS)]; [done |]. split; [done |]. by exists phys.
Qed.

(** the three slots of [cap_buf] that three searches in a row use *)
Lemma three_slots (buf : list virtio_pci_cap) i x y z : length buf = 3%nat -> 0 <= i ->
  let b := <[Z.to_nat ((i + 1 + 1) mod 3) := z]> (<[Z.to_nat ((i + 1) mod 3) := y]> (<[Z.to_nat (i mod 3) := x]> buf)) in
  b !! Z.to_nat (i mod 3) = Some x /\ b !! Z.to_nat ((i + 1) mod 3) = Some y /\ b !! Z.to_nat ((i + 1 + 1) mod 3) = Some z.
Proof.
  intros HL Hi b. unfold b. split; [| split].
  - rewrite !list_lookup_insert_ne by zlia. apply list_lookup_insert_eq. zlia.
  - rewrite list_lookup_insert_ne by zlia. apply list_lookup_insert_eq. rewrite length_insert. zlia.
  - apply list_lookup_insert_eq. rewrite !length_insert. zlia.
Qed.

Lemma locate_ok s (w : world (C := C) (D := D) (P := P)) F : caps_end (mastering (w_cfg w)) -> length (cap_buf s) = 3%nat -> 0 <= cap_idx s ->
  window_ok s (w_vm w) -> space_ok root F (w_vm w) ->
  exists r s' m' F' n, locate base root dev s w = Ok (r, s', mk_world (mastering (w_cfg w)) m' (w_queue w) (w_devices w)) /\ F ⊆ F' /\ space_ok root F' m' /\
    0 <= n <= 12884926464 /\ same_outside root (g_bar_mmio_next s) n (w_vm w) m' /\ g_initialized s' = g_initialized s /\
    (r = -1 \/ r = 0 /\ located (mastering (w_cfg w)) (g_bar_mmio_next s) s' m').
Proof.
  intros HE HL Hi HW OK. unfold locate. cbn zeta. fold (mastering (w_cfg w)). set (c := mastering (w_cfg w)) in *.
  assert (HX : forall s', g_initialized s' = g_initialized s -> exists r s1 m' F' n, Ok (-1, s', mk_world c (w_vm w) (w_queue w) (w_devices w)) = Ok (r, s1, mk_world c m' (w_queue w) (w_devices w)) /\ F ⊆ F' /\ space_ok root F' m' /\
    0 <= n <= 12884926464 /\ same_outside root (g_bar_mmio_next s) n (w_vm w) m' /\ g_initialized s1 = g_initialized s /\ (r = -1 \/ r = 0 /\ located c (g_bar_mmio_next s) s1 m')).
  { intros s' E. exists (-1), s', (w_vm w), F, 0. split; [done |]. split; [done |]. split; [done |]. split; [lia |]. split; [by intros ? _ |]. split; [done | by left]. }
  destruct (HE VIRTIO_PCI_CAP_COMMON_CFG s) as [[o1 s1] E1]. rewrite E1. cbn [res_bind]. apply find_capability_ok in E1.
  destruct (HE VIRTIO_PCI_CAP_NOTIFY_CFG s1) as [[o2 s2] E2]. rewrite E2. cbn [res_bind]. apply find_capability_ok in E2.
  destruct (HE VIRTIO_PCI_CAP_ISR_CFG s2) as [[o3 s3] E3]. rewrite E3. cbn [res_bind]. apply find_capability_ok in E3.
  assert (HI : g_initialized s3 = g_initialized s).
  { destruct o1 as [[? ?] |], o2 as [[? ?] |], o3 as [[? ?] |]; destruct_and?; subst; done. }
  destruct o1 as [[i1 pc] |]; [| by apply HX]. destruct o2 as [[i2 pn] |]; [| by apply HX]. destruct o3 as [[i3 pi] |]; [| by apply HX].
  destruct E1 as (-> & -> & HC1), E2 as (-> & -> & HC2), E3 as (-> & -> & HC3). cbn [cap_idx cap_buf with_caps] in *.
  destruct (three_slots (cap_buf s) (cap_idx s) (cap_at base dev c pc) (cap_at base dev c pn) (cap_at base dev c pi) HL Hi) as (-> & -> & ->).
  change (default zero_cap (Some ?x)) with x. set (s3 := with_caps _ _ _) in *.
  destruct (map_three c pc pi pn s3 (w_vm w) F) as (a1 & a2 & a3 & s4 & s5 & s6 & m1 & m2 & m3 & F' & n & -> & EM2 & EM3 & Es & HF & OK' & Hn & HO & HB1 & HB2 & HB3); [done | done |].
  cbn [res_bind]. rewrite EM2. cbn [res_bind]. rewrite EM3. cbn [res_bind]. eexists _, _, m3, F', n. split; [reflexivity |]. do 4 (split; [done |]). split; [by rewrite Es |].
  destruct (Z.eqb_spec a1 0), (Z.eqb_spec a2 0), (Z.eqb_spec a3 0); cbn [orb]; try (by left). right. split; [done |]. destruct (HB1 ltac:(done)) as [HR1 HB1']. split; [exact HR1 |]. exists pc, pn, pi. do 3 (split; [done |]). split; [exact HB1' |]. split; [by apply HB3 |]. split; [by apply HB2 | done].
Qed.

(** the page of the queue *)
Lemma setup_queue_ok s (q : queue (D := D)) p F : held p F ->
  exists r s' q' p', setup_queue s q p = Ok (r, s', q', p') /\
    (r = -1 /\ s' = s /\ held p' F \/
     exists vq, r = 0 /\ s' = with_ready (with_queue_page vq s) /\ frame vq /\ (vq ∉ F) /\ held p' (vq :: F) /\ q_page q' = replicate 4096 0).
Proof.
  intros HH. unfold setup_queue. cbn zeta. destruct (common_read16 _ _ _) as [qmax q1]. destruct (qmax =? 0); [exists (-1), s, q1, p; split; [done | by left] |].
  destruct (page_alloc_held p F HH) as (a & p' & -> & [[-> ->] | (Ha & Hnot & HH')]); cbn [res_bind].
  - change (0 =? 0) with true. cbv iota. eexists (-1), s, _, p. split; [done | by left].
  - rewrite (proj2 (Z.eqb_neq a 0)) by (destruct Ha; lia). eexists 0, _, _, p'. split; [done |]. right. by exists a.
Qed.

Lemma zero_page_idx (d : D) : used_idx (mk_queue_state d (replicate 4096 0)) = Ok 0.
Proof. reflexivity. Qed.

End Init.
