(* ===== verification/NicInit.v ===== *)
(** * Finding and starting the network device ([e1000_map_bar], [e1000_init] of [module/e1000.c])

    The part of the driver that deals with the bus: the device is looked up among
    those enumerated, its registers are mapped, it is allowed to master the bus,
    the driver is started (Nic.v), and the interrupt is routed.  [arp_cache_init],
    which the code calls on the way, is in Protocol.v. *)

From stdpp Require Import base list.
From S2P Require Import Prelude Bytes Alloc PageAlloc Vmm VmmWalk VmmSpec VmmSpace Pci PciSpec Virtio VirtioInit Nic NicSpec.

Definition E1000_VENDER : Z := 0x8086.
Definition E1000_DEVICE : Z := 0x100E.
Definition NIC_VIRT_BASE : Z := 0xFFFFD00000000000.
Definition REG_ICR : Z := 0x00C0.
Definition REG_IMS : Z := 0x00D0.
(** receive timer, descriptors low, overrun *)
Definition IMS_RX : Z := Z.lor (Z.lor (Z.shiftl 1 7) (Z.shiftl 1 4)) (Z.shiftl 1 6).
Definition BAR0_DEFAULT : Z := 0x10000000.

Section Init.
Context {P : Type} {PA : PageAllocator P} {A : Type} {AL : Allocator A} {C : Type} {CS : ConfigSpace C}.
Context (respond : list access -> Z -> Z) (driver_size base root : Z).

(** the loop over the pages of the registers; what [vmm_map_global] returns is ignored *)
Fixpoint map_nic_pages (n : nat) (i bar0_phys : Z) (m : vm P) : res (vm P) :=
  match n with
  | O => Ok m
  | S n =>
    let! (_, m) := vmm_map_global root (u64 (NIC_VIRT_BASE + i)) (u64 (bar0_phys + i)) MMIO_FLAGS m in
    map_nic_pages n (i + 4096) bar0_phys m
  end.
Definition e1000_map_bar (bar0_phys : Z) (m : vm P) : res (vm P) := map_nic_pages 32 0 bar0_phys m.

(** configuration space, page tables, machine, heap, writes to the interrupt
    controller, and whether the handler is registered *)
Record system := mk_system { y_cfg : C; y_tabs : tables; y_mach : machine (P := P); y_heap : A; y_ioapic : list (Z * Z); y_handler : bool }.

Definition e1000_init (g_pci_devices : list (Z * pci_device)) (y : system) : res (option (Z * nic) * system) :=
  match pci_find_device E1000_VENDER E1000_DEVICE g_pci_devices with
  | None => Ok (None, y)
  | Some (_, dev) =>
    let phys := default 0 (bar_phys dev !! 0%nat) in
    let '(bar0, c) :=
      if phys =? 0 then (BAR0_DEFAULT, pci_write32 base (bus dev) (slot dev) (func dev) PCI_REG_BAR0 (Z.land BAR0_DEFAULT (not32 15)) (y_cfg y))
      else (phys, y_cfg y) in
    let! m := e1000_map_bar bar0 (mk_vm (y_tabs y) (pages (y_mach y))) in
    let cmd := pci_read16 base (bus dev) (slot dev) (func dev) PCI_REG_COMMAND c in
    let c := pci_write16 base (bus dev) (slot dev) (func dev) PCI_REG_COMMAND (Z.lor cmd 7) c in
    let! (o, a, mc) := e1000_start respond driver_size (y_heap y) (with_pages (frames m) (y_mach y)) in
    match o with
    | None => Ok (None, mk_system c (tabs m) mc a (y_ioapic y) (y_handler y))
    | Some drv =>
      let (_, mc) := e1000_read respond REG_ICR mc in
      let '(r, c, io) := pci_enable_intx base (Some dev) c (y_ioapic y) in
      if r =? 0 then
        let mc := e1000_write REG_IMS IMS_RX mc in
        let (_, mc) := e1000_read respond REG_IMS mc in
        Ok (Some drv, mk_system c (tabs m) mc a io true)
      else Ok (Some drv, mk_system c (tabs m) mc a io true)
    end
  end.

(** ** Theorems *)

Lemma map_nic_pages_ok bar0 n i (m : vm P) F : 0 <= i -> i mod 4096 = 0 -> i + 4096 * Z.of_nat n <= 131072 ->
  free_window root (NIC_VIRT_BASE + i) (4096 * Z.of_nat n) m -> space_ok root F m ->
  exists m' F', map_nic_pages n i bar0 m = Ok m' /\ F ⊆ F' /\ space_ok root F' m' /\ same_outside root (NIC_VIRT_BASE + i) (4096 * Z.of_nat n) m m'.
Proof.
  revert i m F. induction n as [| n IH]; intros i m F Hi Hia Hn HW OK; cbn [map_nic_pages]; [by exists m, F |].
  assert (HV : is_u64 (NIC_VIRT_BASE + i)) by (red; unfold NIC_VIRT_BASE; lia). rewrite (u64_small (NIC_VIRT_BASE + i)) by done.
  unfold vmm_map_global, vmm_map. destruct (vmm_map_ok root (NIC_VIRT_BASE + i) (u64 (bar0 + i)) MMIO_FLAGS HV mmio_flags false F m OK) as [(_ & _ & HT) | (c & m1 & N & -> & OK1 & _ & HC)].
  { destruct HT. apply HW. lia. }
  cbn [res_bind]. assert (HK : forall w, path w <> path (NIC_VIRT_BASE + i) -> translate (tabs m1) root w = translate (tabs m) root w).
  { destruct HC as [(_ & HK & _) | (_ & _ & _ & HK & _)]; [| done]. intros w _. apply HK. }
  destruct (IH (i + 4096) m1 (N ++ F)) as (m' & F' & E & HF & OK' & HO); [lia | zlia | lia | | done |].
  { intros a Ha. rewrite HK; [apply HW; lia |]. intros E%path_eq. unfold NIC_VIRT_BASE in *. zlia. }
  exists m', F'. split; [by destruct (c =? -1) |]. split; [set_solver |]. split; [done |].
  intros w Hw. rewrite HO, HK; [done | |].
  - intros E2. apply Hw. exists (NIC_VIRT_BASE + i). split; [lia | done].
  - intros (a & Ha & E2). apply Hw. exists a. split; [lia | done].
Qed.

(** with nothing mapped where the registers go, the driver comes up as [e1000_start]
    says or nothing is taken, beside the tables for the registers; the rest of the
    address space is as before *)
Lemma e1000_init_ok devs (y : system) L F : 0 <= driver_size <= UINT64_MAX -> Alloc.live (y_heap y) L -> space_ok root F (mk_vm (y_tabs y) (pages (y_mach y))) ->
  free_window root NIC_VIRT_BASE 131072 (mk_vm (y_tabs y) (pages (y_mach y))) ->
  exists o y' F', e1000_init devs y = Ok (o, y') /\ F ⊆ F' /\ wf_space (y_tabs y') root F' /\ started driver_size L F' (y_heap y') (y_mach y') o /\
    (is_Some o -> y_handler y' = true) /\
    same_outside root NIC_VIRT_BASE 131072 (mk_vm (y_tabs y) (pages (y_mach y))) (mk_vm (y_tabs y') (pages (y_mach y'))).
Proof.
  intros HS HL OK HW. unfold e1000_init. destruct (pci_find_device _ _ devs) as [[p dev] |].
  2: { exists None, y, F. split; [done |]. split; [done |]. split; [apply OK |]. split; [split; [done | apply OK] |]. split; [by intros [? [=]] | by intros w _]. }
  destruct (if _ =? 0 then _ else _) as [bar0 c]. destruct (map_nic_pages_ok bar0 32 0 (mk_vm (y_tabs y) (pages (y_mach y))) F) as (m & F' & E & HF & [OK1 OK2] & HO);
    [lia | done | lia | intros a Ha; apply HW; rewrite Z.add_0_r in Ha; lia | done |]. unfold e1000_map_bar. rewrite E. cbn [res_bind].
  destruct (e1000_start_ok respond driver_size (y_heap y) (with_pages (frames m) (y_mach y)) L F' HS HL OK2) as (o & a' & mc & -> & _ & HSt). cbn [res_bind].
  assert (HO' : forall p, same_outside root NIC_VIRT_BASE 131072 (mk_vm (y_tabs y) (pages (y_mach y))) (mk_vm (tabs m) p)) by (intros q w Hw; apply HO; rewrite Z.add_0_r; exact Hw).
  destruct o as [[drv d] |]; [| eexists None, _, F'; split; [done |]; split; [done |]; split; [done |]; split; [exact HSt |]; split; [by intros [? [=]] | apply HO']].
  destruct HSt as (H1 & H2 & H3 & H4 & H5 & H6 & H7). cbn [e1000_read]. destruct (pci_enable_intx _ _ _ _) as [[r c'] io].
  destruct (r =? 0); eexists (Some (drv, d)), _, F'; (split; [done |]; split; [done |]; split; [done |]; split; [do 3 (split; [done |]); split; [exact H4 | done] |]; split; [done | apply HO']).
Qed.
End Init.
