(* ===== verification/PciMachine.v ===== *)
(** * A machine with a disk and a network card

    A configuration space with two functions, a virtio disk and the network card,
    and a device that behaves as a disk: the hypotheses of the theorems on
    enumeration and on the disk driver hold together, and what the code finds is
    what the registers describe.  The examples at the end show three defects. *)

From stdpp Require Import base list.
From S2P Require Import Prelude Bytes Pmm PageAlloc Vmm VmmWalk VmmSpec Heap Alloc KernelHeap Lifecycle.
From S2P Require Import Pci PciSpec BlockDevice Nic Virtio VirtioSpec VirtioInit NicInit.

(** ** Configuration space *)

(** bytes with the bits that can be written *)
Definition byte_table := list (Z * (Z * Z)).
Fixpoint entry (t : byte_table) (o : Z) : Z * Z := match t with [] => (0, 0) | (k, e) :: t => if k =? o then e else entry t o end.

(** 64 bytes of I/O space at 0xC000, 16 KiB of memory at 2^34, and three
    capabilities *)
Definition disk_table : byte_table :=
  [(0, (0xF4, 0)); (1, (0x1A, 0)); (2, (0x42, 0)); (3, (0x10, 0)); (4, (0, 7)); (5, (0, 4)); (11, (1, 0));
   (16, (1, 0xC0)); (17, (0xC0, 0xFF)); (18, (0, 0xFF)); (19, (0, 0xFF));
   (32, (12, 0)); (33, (0, 0xC0)); (34, (0, 0xFF)); (35, (0, 0xFF)); (36, (4, 0xFF)); (37, (0, 0xFF)); (38, (0, 0xFF)); (39, (0, 0xFF));
   (52, (0x40, 0)); (60, (11, 0xFF)); (61, (1, 0));
   (0x40, (9, 0)); (0x41, (0x50, 0)); (0x43, (1, 0)); (0x44, (4, 0)); (0x4C, (56, 0));
   (0x50, (9, 0)); (0x51, (0x64, 0)); (0x53, (2, 0)); (0x54, (4, 0)); (0x59, (0x10, 0)); (0x5C, (4, 0)); (0x60, (4, 0));
   (0x64, (9, 0)); (0x67, (3, 0)); (0x68, (4, 0)); (0x6D, (0x20, 0)); (0x70, (1, 0))].
(** 128 KiB of memory at 0xFEB80000 *)
Definition nic_table : byte_table :=
  [(0, (0x86, 0)); (1, (0x80, 0)); (2, (0x0E, 0)); (3, (0x10, 0)); (4, (0, 7)); (5, (0, 4)); (11, (2, 0));
   (18, (0xB8, 0xFE)); (19, (0xFE, 0xFF)); (60, (10, 0xFF)); (61, (1, 0))].

(** slots 3 and 4 of bus 0; where nothing is there, ones are read *)
Definition ex_entry (a : Z) : Z * Z :=
  let o := a - PCIE_VIRT_BASE in
  if o / 4096 =? 24 then entry disk_table (o mod 4096) else if o / 4096 =? 32 then entry nic_table (o mod 4096) else (0xFF, 0).

Record regs := mk_regs { reg_value : Z -> Z }.
Definition ex_regs : regs := mk_regs (fun a => (ex_entry a).1).
Definition ex_mask (a : Z) : Z := u8 (ex_entry a).2.
Definition ex_store (a : Z) (l : list Z) (c : regs) : regs :=
  mk_regs (fun i => if (a <=? i) && (i <? a + zlen l) then merge (u8 (reg_value c i)) (nth (Z.to_nat (i - a)) l 0) (ex_mask i) else reg_value c i).

Lemma u8_byte z : 0 <= u8 z < 256.
Proof. apply Z.mod_pos_bound. lia. Qed.

Lemma merge_byte v x m : 0 <= v < 256 -> 0 <= m < 256 -> u8 (merge v x m) = merge v x m.
Proof.
  intros Hv Hm. apply Z.mod_small. change 256 with (2 ^ 8) in *.
  assert (0 <= merge v x m) by (unfold merge; apply Z.lor_nonneg; split; apply Z.land_nonneg; lia). split; [done |].
  apply small_bits; [lia | done |]. intros k Hk. rewrite merge_bit by lia. by rewrite (high_bits 8 m), (high_bits 8 v) by lia.
Qed.

#[export, refine] Instance ex_config : ConfigSpace regs := {|
  cfg_byte c a := u8 (reg_value c a); cfg_store := ex_store; cfg_rw _ a := Some (ex_mask a) |}.
Proof.
  - intros c a. apply u8_byte.
  - intros c a m [= <-]. apply u8_byte.
  - done.
  - intros c a l i _. unfold ex_store. cbn [reg_value default]. destruct (_ && _); [| done]. apply merge_byte; apply u8_byte.
Defined.

Lemma ex_base : 0 <= PCIE_VIRT_BASE /\ PCIE_VIRT_BASE + 268500992 <= 18446744073709551616.
Proof. by vm_compute. Qed.

Lemma ex_functions : functions PCIE_VIRT_BASE pci_boot ex_regs = [(0, 3, 0); (0, 4, 0)].
Proof. by vm_compute. Qed.

Lemma ex_plain a n : plain a n ex_regs.
Proof. done. Qed.

Abbreviation ex_function := (pci_get_config_addr PCIE_VIRT_BASE 0).

Lemma ex_caps d : 0 <= d < 32 -> find_msi PCIE_VIRT_BASE CAP_STEPS 0 d 0 (cfg_byte ex_regs (ex_function d 0 + 52)) ex_regs = Ok 0 ->
  behaves PCIE_VIRT_BASE ex_regs (0, d, 0).
Proof.
  intros Hd E. split; [| intros i _; split; [apply ex_plain | split; [apply ex_plain | intros _; apply ex_plain]]].
  apply find_msi_visits in E as [l Hl]; [by exists l, 0 | exact ex_base | done | apply cfg_byte_range].
Qed.

Lemma ex_behaves x : x ∈ functions PCIE_VIRT_BASE pci_boot ex_regs -> behaves PCIE_VIRT_BASE ex_regs x.
Proof.
  rewrite ex_functions. intros [-> | [-> | []%not_elem_of_nil]%elem_of_cons]%elem_of_cons; apply ex_caps; (lia || by vm_compute).
Qed.

#[local] Instance pci_blocks : Allocator (kheap Heap.frames) := heap_allocator (Some 1).

Definition scan_done {C A : Type} (r : res (bool * scan_state (C := C) (A := A))) : bool := match r with Ok (go, _) => go | _ => false end.

Lemma ex_scan_done : scan_done (pci_scan_all_buses PCIE_VIRT_BASE pci_boot (mk_scan ex_regs ex_kheap [])) = true.
Proof. vm_compute. reflexivity. Qed.

Lemma ex_scan_all go st : pci_scan_all_buses PCIE_VIRT_BASE pci_boot (mk_scan ex_regs ex_kheap []) = Ok (go, st) -> go = true.
Proof. intros E. exact (eq_trans (eq_sym (f_equal scan_done E)) ex_scan_done). Qed.

Lemma pci_scan_correct_witness : exists c' a' devs,
  pci_scan_all_buses PCIE_VIRT_BASE pci_boot (mk_scan ex_regs ex_kheap []) = Ok (true, mk_scan c' a' devs) /\ c' ≡ ex_regs /\
  Forall2 (describes PCIE_VIRT_BASE pci_boot ex_regs) [(0, 3, 0); (0, 4, 0)] devs.*2.
Proof.
  destruct (pci_scan_correct PCIE_VIRT_BASE ex_base pci_boot ex_regs ex_kheap []) as (go & c' & a' & devs & l & E & HC & _ & HD & _ & HG).
  - apply Z.le_refl.
  - reflexivity.
  - exact ex_behaves.
  - exact ex_kheap_live.
  - pose proof (ex_scan_all go _ E) as Hg. subst go. change (l = functions PCIE_VIRT_BASE pci_boot ex_regs) in HG. rewrite HG, ex_functions in HD.
    exists c', a', devs. split; [exact E |]. split; [exact HC | exact HD].
Defined.

Lemma msi_search_ends_witness : exists q l, find_msi PCIE_VIRT_BASE CAP_STEPS 0 3 0 0x40 ex_regs = Ok q /\ visits (ex_function 3 0) ex_regs 0x40 l q.
Proof.
  destruct (msi_search_ends PCIE_VIRT_BASE ex_base 0 3 0 0x40 ex_regs) as [H | H].
  - unfold valid. lia.
  - lia.
  - exact H.
  - specialize (H CAP_STEPS). exfalso. revert H. vm_compute. discriminate.
Defined.

(** an endless list of capabilities: the search never ends *)
Definition looping : regs := mk_regs (fun a => if a - PCIE_VIRT_BASE =? 24 * 4096 + 0x51 then 0x40 else (ex_entry a).1).

Example msi_search_loops n : find_msi PCIE_VIRT_BASE n 0 3 0 0x40 looping = Fault.
Proof.
  destruct (find_msi_settles PCIE_VIRT_BASE ex_base 0 3 0 0x40 looping) as [(q & l & E & _) | H]; [unfold valid; lia | lia | | apply H].
  exfalso. revert E. vm_compute. discriminate.
Qed.

(** ** A disk *)

(** requests served, looks until the current one is, the sector that cannot be read,
    and the status register *)
Record disk_device := mk_disk { v_served : Z; v_left : option nat; v_bad : option Z; v_status : Z }.

Definition ex_disk (sec : Z) : list Z := replicate 512 (u8 sec).
Definition ex_common : Z := BAR_MMIO_VBASE.
Definition ex_notify : Z := BAR_MMIO_VBASE + 0x2000.
Definition LATENCY : nat := 3.

(** the device serves the request in the page *)
Definition serve (d : disk_device) (p : list Z) : list Z :=
  match (let! sec := le 8 p 296 in
         let! p := write_bytes p 304 (ex_disk sec) in
         let! p := write_bytes p 816 [match v_bad d with Some b => if sec =? b then 1 else 0 | None => 0 end] in
         write_bytes p 162 (enc 2 (u16 (v_served d + 1)))) with
  | Ok p => p
  | _ => p
  end.

Lemma write_length p i l p' : write_bytes p i l = Ok p' -> length p' = length p.
Proof.
  unfold write_bytes, zlen. destruct (Z.leb_spec 0 i), (Z.leb_spec (i + Z.of_nat (length l)) (Z.of_nat (length p))); cbn [andb]; try done.
  intros [= <-]. rewrite !length_app, length_take, length_drop. lia.
Qed.

Lemma serve_length d p : length (serve d p) = length p.
Proof.
  unfold serve. destruct (le 8 p 296); cbn [res_bind]; [| done | done]. destruct (write_bytes p 304 _) as [p1 | |] eqn:E1; cbn [res_bind]; [| done | done].
  destruct (write_bytes p1 816 _) as [p2 | |] eqn:E2; cbn [res_bind]; [| done | done]. destruct (write_bytes p2 162 _) as [p3 | |] eqn:E3; [| done | done].
  apply write_length in E1, E2, E3. congruence.
Qed.

#[export, refine] Instance ex_virtio : VirtioDevice disk_device := {|
  dev_in n addr d :=
    (if addr =? u64 (ex_common + QUEUE_SIZE) then 8 else if addr =? u64 (ex_common + DEVICE_FEATURE) then 1
     else if addr =? u64 (ex_common + DEVICE_STATUS) then v_status d else 0, d);
  dev_out n addr v d :=
    if addr =? ex_notify then mk_disk (v_served d) (Some LATENCY) (v_bad d) (v_status d)
    else if addr =? u64 (ex_common + DEVICE_STATUS) then mk_disk (v_served d) (v_left d) (v_bad d) v else d;
  dev_dma p d :=
    match v_left d with
    | None => (p, d)
    | Some (S k) => (p, mk_disk (v_served d) (Some k) (v_bad d) (v_status d))
    | Some O => (serve d p, mk_disk (u16 (v_served d + 1)) None (v_bad d) (v_status d))
    end |}.
Proof. intros p d. destruct (v_left d) as [[| k] |]; [apply serve_length | done | done]. Defined.

Lemma byte_written p i l p' k : write_bytes p i l = Ok p' -> 0 <= i -> i + zlen l <= zlen p -> byte_at p' k = if (i <=? k) && (k <? i + zlen l) then byte_at l (k - i) else byte_at p k.
Proof.
  intros E Hi HL. destruct (write_bytes_inside p i l) as (q & E' & _ & HK); [unfold zlen in *; red; lia |]. rewrite E in E'. injection E' as <-.
  unfold byte_at, zlen in *. destruct (Z.ltb_spec k 0); [zbool; simpl; (done || lia) |]. rewrite HK.
  destruct (Z.leb_spec i k), (Z.ltb_spec k (i + Z.of_nat (length l))); cbn [andb];
    [rewrite decide_True by lia; rewrite (proj2 (Z.ltb_ge (k - i) 0)) by lia; replace (Z.to_nat (k - i)) with (Z.to_nat k - Z.to_nat i)%nat by lia; done | rewrite decide_False by lia; done ..].
Qed.

Lemma byte_lookup p p' k : 0 <= k -> byte_at p k = byte_at p' k -> p !! Z.to_nat k = p' !! Z.to_nat k.
Proof. intros Hk. unfold byte_at. rewrite (proj2 (Z.ltb_ge k 0)) by lia. destruct (p !! _), (p' !! _); congruence. Qed.

Lemma slice_same p p' i n : 0 <= i -> (forall k, i <= k < i + n -> byte_at p k = byte_at p' k) -> slice p i n = slice p' i n.
Proof.
  intros Hi H. unfold slice. apply list_eq. intros k. destruct (decide (k < Z.to_nat n)%nat) as [Hk | Hk]; [| by rewrite !lookup_take_ge by lia].
  rewrite !lookup_take_lt, !lookup_drop by lia. pose proof (byte_lookup p p' (i + Z.of_nat k) ltac:(lia) (H (i + Z.of_nat k) ltac:(lia))) as E.
  by replace (Z.to_nat (i + Z.of_nat k)) with (Z.to_nat i + k)%nat in E by lia.
Qed.

Lemma has_header vq n sector p : read_request vq n sector p -> le 8 p 296 = Ok sector.
Proof.
  intros [_ HF]. unfold head_fields in HF. cbn [app] in HF. do 2 apply Forall_cons in HF as [_ HF]. apply Forall_cons in HF as [HF _]. exact HF.
Qed.

Lemma serve_completed vq n sector d p : read_request vq n sector p -> v_served d = n -> v_bad d = None -> completed n (ex_disk sector) p (serve d p).
Proof.
  intros HR Hn Hb. pose proof HR as [HL _]. assert (HLd : zlen (ex_disk sector) = 512) by (unfold zlen, ex_disk; by rewrite length_replicate).
  unfold serve. rewrite (has_header _ _ _ _ HR). cbn [res_bind]. rewrite Hb.
  destruct (write_kept p 304 (ex_disk sector)) as (p1 & E1 & [HL1 _] & _ & HD1); [lia | lia |]. rewrite E1. cbn [res_bind].
  destruct (write_kept p1 816 [0]) as (p2 & E2 & [HL2 _] & _); [lia | change (zlen [0]) with 1; lia |]. rewrite E2. cbn [res_bind].
  destruct (write_kept p2 162 (enc 2 (u16 (v_served d + 1)))) as (p3 & E3 & [HL3 _] & _); [lia | rewrite enc_zlen; lia |]. rewrite E3.
  assert (HB3 : forall k, k < 162 \/ 164 <= k -> byte_at p3 k = byte_at p2 k) by (intros k Hk; rewrite (byte_written _ _ _ _ k E3) by (rewrite ?enc_zlen; lia); rewrite enc_zlen; zbool; simpl; (done || lia)).
  assert (HB2 : forall k, k < 816 \/ 817 <= k -> byte_at p2 k = byte_at p1 k) by (intros k Hk; rewrite (byte_written _ _ _ _ k E2) by (change (zlen [0]) with 1; lia); change (zlen [0]) with 1; zbool; simpl; (done || lia)).
  assert (HB1 : forall k, k < 304 \/ 816 <= k -> byte_at p1 k = byte_at p k) by (intros k Hk; rewrite (byte_written _ _ _ _ k E1) by lia; rewrite HLd; zbool; simpl; (done || lia)).
  split; [lia |]. split; [subst n; eapply le_written; [| | apply u16_range | exact E3]; [lia | change (Z.of_nat 2) with 2; lia] |].
  split; [rewrite HB3 by lia; rewrite (byte_written _ _ _ _ 816 E2) by (change (zlen [0]) with 1; lia); done |].
  split; [rewrite <- HD1, HLd; apply slice_same; [lia |]; intros k Hk; rewrite HB3, HB2 by lia; done |]. intros k Hk. rewrite HB3, HB2, HB1 by lia. done.
Qed.

#[export, refine] Instance ex_virtio_disk mult vq : VirtioDisk disk_device ex_disk ex_common ex_notify mult vq := {|
  idle n d := v_served d = n /\ v_left d = None /\ v_bad d = None;
  waiting n k d := v_served d = n /\ v_left d = Some k /\ v_bad d = None;
  notify_off := 0 |}.
Proof.
  - intros sec. unfold zlen, ex_disk. by rewrite length_replicate.
  - intros n d H. by exists d.
  - intros n d p (H1 & H2 & H3). exists d. cbn. by rewrite H2.
  - intros n d (H1 & H2 & H3). exists LATENCY. split; [unfold LATENCY; lia |]. cbn. rewrite Zmod_0_l. change (u64 (ex_notify + u32 0)) with ex_notify. by rewrite Z.eqb_refl.
  - intros n k d p sector (H1 & H2 & H3) _. eexists p, _. cbn. rewrite H2. split; [done |]. by split.
  - intros n d p sector (H1 & H2 & H3) HR. eexists _, _. cbn. rewrite H2. split; [done |]. split; [by rewrite H1 |]. by apply (serve_completed vq n sector).
Defined.

(** the driver as initialisation leaves it *)
Definition ex_driver_state : virtio := mk_virtio ex_common ex_notify (BAR_MMIO_VBASE + 0x1000) 4 true 1052672 0 0 (replicate 3 zero_cap) 3 (BAR_MMIO_VBASE + 0x3000).
Definition ex_queue (bad : option Z) : queue (D := disk_device) := mk_queue_state (mk_disk 0 None bad 15) (replicate 4096 0).

Lemma ex_in_sync : in_sync (VB := ex_virtio_disk 4 1052672) 0 ex_driver_state (ex_queue None).
Proof. split; [by repeat split |]. do 2 (split; [done |]). split; [lia |]. by repeat split. Qed.

Lemma virtio_read_correct_witness : exists s' q',
  virtio_pci_blk_bd_read 5 (replicate 2000 0) 3 ex_driver_state (ex_queue None) =
  Ok (3, (ex_disk 5 ++ ex_disk 6 ++ ex_disk 7) ++ replicate 464 0, s', q') /\ in_sync (VB := ex_virtio_disk 4 1052672) 3 s' q'.
Proof.
  destruct (virtio_read_correct (VB := ex_virtio_disk 4 1052672) 0 5 3 (replicate 2000 0) ex_driver_state (ex_queue None)) as (s' & q' & E & HI).
  - exact ex_in_sync.
  - lia.
  - lia.
  - lia.
  - unfold zlen. rewrite length_replicate. lia.
  - exists s', q'. split; [exact E | exact HI].
Defined.


(** ** Initialisation *)

Definition ex_blk : pci_device := mk_pdev 0 3 0 0x1AF4 0x1042 1 0 0 0 [0xC000; 0; 0; 0; 17179869184; 0] [64; 0; 0; 0; 16384; 0] [1; 0; 0; 0; 0; 0] 11 1 0.
Definition ex_world : world (C := regs) (D := disk_device) (P := pmm) := mk_world ex_regs ex_space (ex_queue None) no_devices.
Definition ex_bd : block_device := mk_dev (fun sec buf n => (n, buf)).

Lemma ex_bars i : 0 <= i < 6 -> good_bar ex_blk i.
Proof.
  intros Hi. assert (HC : i = 0 \/ i = 1 \/ i = 2 \/ i = 3 \/ i = 4 \/ i = 5) by lia.
  destruct HC as [-> | [-> | [-> | [-> | [-> | ->]]]]]; (eexists _, _; split; [reflexivity |]; split; [reflexivity |]; lia).
Qed.

Lemma ex_caps_end : caps_end PCIE_VIRT_BASE ex_blk (mastering PCIE_VIRT_BASE ex_blk ex_regs).
Proof. apply (caps_end_check _ _ _ virtio_boot (None, virtio_boot)). vm_compute. reflexivity. Qed.

Lemma ex_window : window_ok ex_root virtio_boot ex_space.
Proof. do 2 (split; [done |]). split; [by vm_compute |]. intros a _. reflexivity. Qed.

Definition init_code (r : res (Z * virtio * world (C := regs) (D := disk_device) (P := pmm))) : Z := match r with Ok (c, _, _) => c | _ => -2 end.

Lemma ex_init_code : init_code (virtio_pci_blk_init PCIE_VIRT_BASE ex_root [(0, ex_blk)] ex_bd virtio_boot ex_world) = 0.
Proof. vm_compute. reflexivity. Qed.

Lemma ex_init_ready r s' w' : virtio_pci_blk_init PCIE_VIRT_BASE ex_root [(0, ex_blk)] ex_bd virtio_boot ex_world = Ok (r, s', w') -> r <> -1.
Proof. intros E. pose proof (eq_trans (eq_sym (f_equal init_code E)) ex_init_code) as H. cbn in H. lia. Qed.


(** ** Defects *)

(** the registers of the disk and those of the network card have the same virtual
    address: once the disk is there, mapping the card's registers panics *)
Example disk_then_nic : match virtio_pci_blk_init PCIE_VIRT_BASE ex_root [(0, ex_blk)] ex_bd virtio_boot ex_world with
  | Ok (0, _, w) => e1000_map_bar ex_root 0xFEB80000 (w_vm w) = Panic
  | _ => False
  end.
Proof. vm_compute. reflexivity. Qed.

(** after a sector that cannot be read, the driver does not wait any more: reading a
    good sector fails *)
Example failure_persists : match virtio_pci_blk_bd_read 6 (replicate 512 0) 1 ex_driver_state (ex_queue (Some 6)) with
  | Ok (r, _, s, q) => r = -1 /\ match virtio_pci_blk_bd_read 5 (replicate 512 0) 1 s q with Ok (r, _, _, _) => r = -1 | _ => False end
  | _ => False
  end.
Proof. vm_compute. by split. Qed.
