(* ===== verification/Acpi.v ===== *)
(** * ACPI tables ([kernel/arch/x86_64/acpi.c], [acpi.h])

    The search for the PCI configuration space at boot: the root pointer the
    boot loader hands over, the root tables it names and the MCFG table one of
    them lists.  Memory is bytes at virtual addresses, and a load from an
    address nothing is mapped at is a fault; the direct map is the offset the
    boot loader chose.  The properties: whatever the tables contain, every load
    stays in memory that the memory map describes, and the answer is the first
    usable allocation of the valid tables, the extended root table first. *)

From stdpp Require Import base list.
From S2P Require Import Prelude Bytes Pmm.

Definition ACPI_RSDP_V1_SIZE : Z := 20.
Definition ACPI_MAX_RSDP_SIZE : Z := 4096.
Definition ACPI_MAX_TABLE_SIZE : Z := 1024 * 1024.
Definition PMM_MEMMAP_BAD_MEMORY : Z := 4.
Definition PMM_MEMMAP_FRAMEBUFFER : Z := 7.

(** sizes of the packed structures and offsets of their fields *)
Definition acpi_header_size : Z := 36.
Definition header_Length : Z := 4.
Definition mcfg_table_size : Z := 44.
Definition mcfg_entry_size : Z := 16.
Definition entry_StartBusNumber : Z := 10.
Definition entry_EndBusNumber : Z := 11.
Definition rsdp_size : Z := 36.
Definition rsdp_Revision : Z := 15.
Definition rsdp_RsdtAddress : Z := 16.
Definition rsdp_Length : Z := 20.
Definition rsdp_XsdtAddress : Z := 24.

Definition sig_rsdp : list Z := [82; 83; 68; 32; 80; 84; 82; 32].
Definition sig_xsdt : list Z := [88; 83; 68; 84].
Definition sig_rsdt : list Z := [82; 83; 68; 84].
Definition sig_mcfg : list Z := [77; 67; 70; 71].

Section Tables.
Context (mem : Z -> option Z) (offset : Z) (memmap : option (list pmm_memmap_entry)).

(** [phys_to_virt] and [virt_to_phys] of hhdm.h once the offset is known *)
Definition direct_virt (phys : Z) : Z := u64 (phys + offset).
Definition direct_phys (virt : Z) : Z := u64 (virt - offset).

Definition load8 (a : Z) : res Z :=
  match mem (u64 a) with Some b => Ok b | None => Fault end.

Fixpoint load_le (n : nat) (a : Z) : res Z :=
  match n with
  | O => Ok 0
  | S n => let! b := load8 a in let! h := load_le n (a + 1) in Ok (b + 256 * h)
  end.

(** [memcpy] of [n] bytes into a local variable *)
Fixpoint load_bytes (n : nat) (a : Z) : res (list Z) :=
  match n with
  | O => Ok []
  | S n => let! b := load8 a in let! l := load_bytes n (a + 1) in Ok (b :: l)
  end.

(** [memcmp(a, l, n) == 0], stopping at the first difference *)
Fixpoint bytes_match (a : Z) (l : list Z) : res bool :=
  match l with
  | [] => Ok true
  | x :: l => let! b := load8 a in if b =? x then bytes_match (a + 1) l else Ok false
  end.

(** ** The memory map *)

Definition entry_covers (b size : Z) (e : pmm_memmap_entry) : bool :=
  if (elength e =? 0) || (UINT64_MAX - elength e <? base e) then false
  else (base e <=? b) && (b + size <=? base e + elength e) &&
       negb (type e =? PMM_MEMMAP_BAD_MEMORY) && negb (type e =? PMM_MEMMAP_FRAMEBUFFER).

Definition physical_range_valid (b size : Z) : bool :=
  match memmap with
  | None => false
  | Some entries =>
      if (b =? 0) || (size =? 0) || (UINT64_MAX - size <? b) then false
      else existsb (entry_covers b size) entries
  end.

(** ** Tables *)

Fixpoint checksum_from (n : nat) (a sum : Z) : res Z :=
  match n with
  | O => Ok sum
  | S n => let! b := load8 a in checksum_from n (a + 1) (u8 (sum + b))
  end.

Definition checksum_valid (a length : Z) : res bool :=
  let! sum := checksum_from (Z.to_nat length) a 0 in Ok (sum =? 0).

(** [None] is NULL *)
Definition map_sdt (phys : Z) : res (option Z) :=
  if (UINT64_MAX - offset <? phys) || negb (physical_range_valid phys acpi_header_size) then Ok None
  else
    let header := direct_virt phys in
    let! length := load_le 4 (header + header_Length) in
    if (length <? acpi_header_size) || (ACPI_MAX_TABLE_SIZE <? length) ||
       negb (physical_range_valid phys length)
    then Ok None else Ok (Some header).

Definition rsdp_valid (rsdp : Z) : res bool :=
  if rsdp <? offset then Ok false
  else
    let phys := direct_phys rsdp in
    if negb (physical_range_valid phys ACPI_RSDP_V1_SIZE) then Ok false
    else
      let! same := bytes_match rsdp sig_rsdp in
      if negb same then Ok false
      else
        let! good := checksum_valid rsdp ACPI_RSDP_V1_SIZE in
        if negb good then Ok false
        else
          let! revision := load_le 1 (rsdp + rsdp_Revision) in
          if revision <? 2 then Ok true
          else if negb (physical_range_valid phys rsdp_size) then Ok false
          else
            let! length := load_le 4 (rsdp + rsdp_Length) in
            if (length <? rsdp_size) || (ACPI_MAX_RSDP_SIZE <? length) ||
               negb (physical_range_valid phys length)
            then Ok false else checksum_valid rsdp length.

(** the loop over the allocations of an MCFG table; [None] when it ends *)
Fixpoint scan_allocations (n : nat) (j mcfg : Z) : res (option Z) :=
  match n with
  | O => Ok None
  | S n =>
      let! entry := load_bytes (Z.to_nat mcfg_entry_size) (mcfg + (mcfg_table_size + mcfg_entry_size * j)) in
      let! BaseAddress := le 8 entry 0 in
      let! StartBusNumber := le 1 entry entry_StartBusNumber in
      let! EndBusNumber := le 1 entry entry_EndBusNumber in
      if negb (BaseAddress =? 0) && (StartBusNumber <=? EndBusNumber) then Ok (Some BaseAddress)
      else scan_allocations n (j + 1) mcfg
  end.

(** the body of the loop over the entries of a root table *)
Definition scan_table (table_phys : Z) : res (option Z) :=
  let! table := map_sdt table_phys in
  match table with
  | None => Ok None
  | Some table =>
      let! length := load_le 4 (table + header_Length) in
      let! good := checksum_valid table length in
      if negb good then Ok None
      else
        let! same := bytes_match table sig_mcfg in
        if negb same then Ok None
        else if length <? mcfg_table_size then Ok None
        else
          let mcfg_payload := u32 (length - mcfg_table_size) in
          if negb (mcfg_payload mod mcfg_entry_size =? 0) then Ok None
          else scan_allocations (Z.to_nat (mcfg_payload / mcfg_entry_size)) 0 table
  end.

Fixpoint scan_entries (n : nat) (i entries entry_size : Z) : res Z :=
  match n with
  | O => Ok 0
  | S n =>
      let! table_phys := load_le (if entry_size =? 8 then 8 else 4) (entries + u32 (i * entry_size)) in
      let! r := scan_table table_phys in
      match r with
      | Some b => Ok b
      | None => scan_entries n (i + 1) entries entry_size
      end
  end.

Definition scan_root_table (root_phys entry_size : Z) (signature : list Z) : res Z :=
  let! root := map_sdt root_phys in
  match root with
  | None => Ok 0
  | Some root =>
      let! same := bytes_match root signature in
      if negb same then Ok 0
      else
        let! length := load_le 4 (root + header_Length) in
        let payload_size := u32 (length - acpi_header_size) in
        if negb (payload_size mod entry_size =? 0) then Ok 0
        else
          let! good := checksum_valid root length in
          if negb good then Ok 0
          else scan_entries (Z.to_nat (payload_size / entry_size)) 0 (root + acpi_header_size) entry_size
  end.

(** 0 is a null root pointer, and no configuration space *)
Definition find_mcfg_base (rsdp : Z) : res Z :=
  if rsdp =? 0 then Ok 0
  else
    let! valid := rsdp_valid rsdp in
    if negb valid then Ok 0
    else
      let! revision := load_le 1 (rsdp + rsdp_Revision) in
      let! xsdt := (if 2 <=? revision then load_le 8 (rsdp + rsdp_XsdtAddress) else Ok 0) in
      let! mcfg := (if negb (xsdt =? 0) then scan_root_table xsdt 8 sig_xsdt else Ok 0) in
      if negb (mcfg =? 0) then Ok mcfg
      else
        let! rsdt := load_le 4 (rsdp + rsdp_RsdtAddress) in
        scan_root_table rsdt 4 sig_rsdt.

End Tables.

(** [get_mcfg_from_limine] of main.c: the response of the boot loader may be
    missing, and without a configuration space the kernel stops *)
Definition get_mcfg_from_limine (mem : Z -> option Z) (offset : Z) (memory_map : option (list pmm_memmap_entry))
    (response : option Z) : res Z :=
  match response with
  | None => Ok 0
  | Some address =>
      if address =? 0 then Ok 0
      else
        let! base_address := find_mcfg_base mem offset memory_map address in
        if base_address =? 0 then Panic else Ok base_address
  end.
