(* ===== verification/AcpiSpec.v ===== *)
(** * What the search of the ACPI tables finds

    A valid table is a list of bytes: the memory map describes all of it, its
    length field is within bounds and its bytes sum to zero.  The reference
    walks lists; the code is proved to compute its first element, with every
    load inside memory that the map describes. *)

From stdpp Require Import base list.
From S2P Require Import Prelude Bytes Pmm Acpi.

(** the little-endian number of some bytes *)
Definition num (l : list Z) : Z := foldr (fun b h => b + 256 * h) 0 l.
Definition sum8 (l : list Z) : Z := foldr Z.add 0 l mod 256.

(** the pieces of [k] bytes from [from] on *)
Definition chunks (from k : Z) (l : list Z) : list (list Z) :=
  (fun i => slice l (from + k * i) k) <$> seqZ 0 ((zlen l - from) / k).

Section Spec.
Context (mem : Z -> option Z) (offset : Z) (memmap : option (list pmm_memmap_entry)).

Definition describes (b n : Z) (e : pmm_memmap_entry) : Prop :=
  (elength e ≠ 0 /\ base e + elength e < 2 ^ 64) /\ base e <= b /\ b + n <= base e + elength e /\
  type e ∉ [PMM_MEMMAP_BAD_MEMORY; PMM_MEMMAP_FRAMEBUFFER].

(** one entry of the map describes the [n] bytes at [b] *)
Definition covered (b n : Z) : Prop :=
  b ≠ 0 /\ n ≠ 0 /\ b + n < 2 ^ 64 /\ Exists (describes b n) (default [] memmap).

#[global] Instance covered_dec b n : Decision (covered b n).
Proof. unfold covered, describes. apply _. Defined.

(** the direct map reaches the memory the map describes *)
Definition direct_map : Prop :=
  forall p e, e ∈ default [] memmap -> describes p 1 e -> exists b, mem (u64 (p + offset)) = Some b /\ is_u8 b.

Definition contents (phys n : Z) : list Z :=
  (fun i => default 0 (mem (u64 (phys + offset + i)))) <$> seqZ 0 n.

(** the valid table at a physical address *)
Definition sdt (phys : Z) : option (list Z) :=
  let n := num (slice (contents phys acpi_header_size) header_Length 4) in
  if bool_decide (phys + offset < 2 ^ 64 /\ covered phys acpi_header_size /\
                  (acpi_header_size <= n <= ACPI_MAX_TABLE_SIZE) /\ covered phys n /\ sum8 (contents phys n) = 0)
  then Some (contents phys n) else None.

Definition allocation (entry : list Z) : option Z :=
  let b := num (slice entry 0 8) in
  if bool_decide (b ≠ 0 /\ num (slice entry entry_StartBusNumber 1) <= num (slice entry entry_EndBusNumber 1))
  then Some b else None.

(** the usable allocations of a table, none unless it is an MCFG table *)
Definition allocations (l : list Z) : list Z :=
  if bool_decide (take 4 l = sig_mcfg /\ mcfg_table_size <= zlen l /\ (zlen l - mcfg_table_size) mod mcfg_entry_size = 0)
  then omap allocation (chunks mcfg_table_size mcfg_entry_size l) else [].

(** the tables a root table lists *)
Definition listed (root_phys k : Z) (signature : list Z) : list Z :=
  match sdt root_phys with
  | Some l =>
      if bool_decide (take 4 l = signature /\ (zlen l - acpi_header_size) mod k = 0)
      then num <$> chunks acpi_header_size k l else []
  | None => []
  end.

Definition root_allocations (root_phys k : Z) (signature : list Z) : list Z :=
  t ← listed root_phys k signature; from_option allocations [] (sdt t).

(** the bytes of a valid root pointer *)
Definition root_pointer (rsdp : Z) : option (list Z) :=
  let phys := direct_phys offset rsdp in
  let l := contents phys ACPI_RSDP_V1_SIZE in
  let n := num (slice (contents phys rsdp_size) rsdp_Length 4) in
  if bool_decide (rsdp ≠ 0 /\ offset <= rsdp /\ covered phys ACPI_RSDP_V1_SIZE /\ take 8 l = sig_rsdp /\ sum8 l = 0)
  then
    if bool_decide (num (slice l rsdp_Revision 1) < 2) then Some l
    else if bool_decide (covered phys rsdp_size /\ (rsdp_size <= n <= ACPI_MAX_RSDP_SIZE) /\ covered phys n /\
                         sum8 (contents phys n) = 0)
    then Some (contents phys n) else None
  else None.

Definition mcfg_allocations (rsdp : Z) : list Z :=
  match root_pointer rsdp with
  | None => []
  | Some l =>
      (if bool_decide (2 <= num (slice l rsdp_Revision 1))
       then root_allocations (num (slice l rsdp_XsdtAddress 8)) 8 sig_xsdt else []) ++
      root_allocations (num (slice l rsdp_RsdtAddress 4)) 4 sig_rsdt
  end.

End Spec.

(** ** Loads from a list of bytes in memory *)

Lemma num_nonneg l : bytes l -> 0 <= num l.
Proof. induction 1; simpl; unfold is_u8 in *; lia. Qed.

Lemma slice_image l i n : bytes l -> bytes (slice l i n).
Proof. intros H. unfold slice. by apply Forall_take, Forall_drop. Qed.

Lemma slice_cons l i n b : 0 <= i -> 0 <= n -> l !! Z.to_nat i = Some b -> slice l i (n + 1) = b :: slice l (i + 1) n.
Proof.
  intros Hi Hn Hb. unfold slice. rewrite (drop_S _ _ _ Hb).
  replace (Z.to_nat (n + 1)) with (S (Z.to_nat n)) by lia. simpl. do 3 f_equal. lia.
Qed.

Lemma le_num n l i : inside l i (Z.of_nat n) -> le n l i = Ok (num (slice l i (Z.of_nat n))).
Proof.
  revert i. induction n as [| n IH]; intros i (Hi & _ & Hn); [done |].
  destruct (byte_at_inside l i) as (b & Hb & Eb); [red; lia |].
  cbn [le]. rewrite Eb. cbn [res_bind]. rewrite IH by (red; lia). cbn [res_bind].
  rewrite Nat2Z.inj_succ, <- Z.add_1_r, (slice_cons l i _ b) by (done || lia). done.
Qed.

Section Loads.
Context (mem : Z -> option Z).

(** the bytes [l] are in memory at [a] *)
Definition maps (a : Z) (l : list Z) : Prop :=
  bytes l /\ forall k b, l !! k = Some b -> mem (u64 (a + Z.of_nat k)) = Some b.

Lemma maps_u64 a l : maps a l -> maps (u64 a) l.
Proof.
  intros [Hl H]. split; [done |]. intros k b E. rewrite <- (H k b E). f_equal. unfold u64. apply Zplus_mod_idemp_l.
Qed.

Lemma load8_at a l k : maps a l -> inside l k 1 -> exists b, l !! Z.to_nat k = Some b /\ is_u8 b /\ load8 mem (a + k) = Ok b.
Proof.
  intros [Hl H] (Hk & _ & Hn). destruct (lookup_lt_is_Some_2 l (Z.to_nat k)) as [b Hb]; [lia |].
  exists b. split; [done |]. split; [exact (Forall_lookup_1 _ _ _ _ Hl Hb) |].
  unfold load8. specialize (H _ _ Hb). rewrite Z2Nat.id in H by lia. by rewrite H.
Qed.

Lemma load_at n a l k : maps a l -> inside l k (Z.of_nat n) -> load_le mem n (a + k) = Ok (num (slice l k (Z.of_nat n))).
Proof.
  intros Hm. revert k. induction n as [| n IH]; intros k (Hk & _ & Hn); [done |].
  destruct (load8_at a l k Hm) as (b & Hb & _ & Eb); [red; lia |].
  cbn [load_le]. rewrite Eb. cbn [res_bind]. rewrite <- Z.add_assoc, IH by (red; lia). cbn [res_bind].
  rewrite Nat2Z.inj_succ, <- Z.add_1_r, (slice_cons l k _ b) by (done || lia). done.
Qed.

Lemma load_bytes_at n a l k : maps a l -> inside l k (Z.of_nat n) -> load_bytes mem n (a + k) = Ok (slice l k (Z.of_nat n)).
Proof.
  intros Hm. revert k. induction n as [| n IH]; intros k (Hk & _ & Hn); [done |].
  destruct (load8_at a l k Hm) as (b & Hb & _ & Eb); [red; lia |].
  cbn [load_bytes]. rewrite Eb. cbn [res_bind]. rewrite <- Z.add_assoc, IH by (red; lia). cbn [res_bind].
  rewrite Nat2Z.inj_succ, <- Z.add_1_r, (slice_cons l k _ b) by (done || lia). done.
Qed.

Lemma bytes_match_at a l k s : maps a l -> inside l k (zlen s) ->
  bytes_match mem (a + k) s = Ok (bool_decide (slice l k (zlen s) = s)).
Proof.
  intros Hm. revert k. induction s as [| x s IH]; intros k (Hk & _ & Hn); [done |].
  unfold zlen in *. cbn [length] in *.
  destruct (load8_at a l k Hm) as (b & Hb & _ & Eb); [red; lia |].
  cbn [bytes_match]. rewrite Eb. cbn [res_bind].
  rewrite Nat2Z.inj_succ, <- Z.add_1_r, (slice_cons l k _ b) by (done || lia).
  destruct (Z.eqb_spec b x) as [-> | Hne].
  - rewrite <- Z.add_assoc, IH by (red; lia). f_equal. apply bool_decide_ext. split; congruence.
  - rewrite bool_decide_false; [done | congruence].
Qed.

Lemma checksum_at n a l k s : maps a l -> inside l k (Z.of_nat n) -> is_u8 s ->
  checksum_from mem n (a + k) s = Ok (u8 (s + foldr Z.add 0 (slice l k (Z.of_nat n)))).
Proof.
  intros Hm. revert k s. induction n as [| n IH]; intros k s (Hk & _ & Hn) Hs.
  { cbn. rewrite Z.add_0_r. unfold u8. by rewrite Z.mod_small. }
  destruct (load8_at a l k Hm) as (b & Hb & _ & Eb); [red; lia |].
  cbn [checksum_from]. rewrite Eb. cbn [res_bind].
  rewrite <- Z.add_assoc, IH; [| red; lia | apply Z.mod_pos_bound; lia].
  rewrite Nat2Z.inj_succ, <- Z.add_1_r, (slice_cons l k _ b) by (done || lia). simpl. f_equal.
  unfold u8. rewrite Zplus_mod_idemp_l. f_equal. lia.
Qed.

Lemma checksum_valid_at a l : maps a l -> checksum_valid mem a (zlen l) = Ok (bool_decide (sum8 l = 0)).
Proof.
  intros Hm. unfold checksum_valid. rewrite <- (Z.add_0_r a).
  rewrite (checksum_at _ a l 0 0 Hm); [| unfold zlen; red; lia | red; lia]. cbn [res_bind]. f_equal.
  unfold slice, zlen. rewrite !Nat2Z.id, drop_0, firstn_all. unfold sum8, u8. rewrite Z.add_0_l.
  case_bool_decide; zbool; done.
Qed.

End Loads.

(** ** Memory the map describes *)

Section Covered.
Context (mem : Z -> option Z) (offset : Z) (memmap : option (list pmm_memmap_entry)).
Context (Hmap : direct_map mem offset memmap).

Lemma physical_range_covered b n : physical_range_valid memmap b n = bool_decide (covered memmap b n).
Proof.
  unfold physical_range_valid, covered. destruct memmap as [es |]; simpl.
  2: { rewrite bool_decide_false; [done |]. intros (_ & _ & _ & H). by apply Exists_nil in H. }
  case_bool_decide as H.
  - destruct H as (? & ? & ? & He%Exists_exists). destruct He as (e & Hin & (? & ?) & ? & ? & Ht).
    zbool; simpl; try lia. apply existsb_exists. exists e. split; [by apply list_elem_of_In |].
    unfold entry_covers. rewrite !not_elem_of_cons in Ht. zbool; simpl; try lia; naive_solver.
  - zbool; simpl; [done .. |]. apply Bool.not_true_iff_false. intros (e & Hin & He)%existsb_exists.
    apply H. do 3 (split; [lia |]). apply Exists_exists. exists e. split; [by apply list_elem_of_In |].
    unfold entry_covers in He. unfold describes. rewrite !not_elem_of_cons. zbool; simpl in He; try done; try lia.
    split; [lia |]. do 2 (split; [lia |]). split; [done |]. split; [done |]. apply not_elem_of_nil.
Qed.

Lemma image_length p n : 0 <= n -> zlen (contents mem offset p n) = n.
Proof. intros H. unfold contents, zlen. rewrite length_fmap, length_seqZ. lia. Qed.

Lemma contents_lookup p n k : (k < Z.to_nat n)%nat ->
  contents mem offset p n !! k = Some (default 0 (mem (u64 (p + offset + Z.of_nat k)))).
Proof. intros H. unfold contents. rewrite list_lookup_fmap, lookup_seqZ_lt by lia. done. Qed.

(** a longer read begins with the shorter one *)
Lemma contents_slice p m n i k : 0 <= i -> i + k <= m <= n ->
  slice (contents mem offset p m) i k = slice (contents mem offset p n) i k.
Proof.
  intros Hi Hk. unfold slice. apply list_eq. intros j.
  destruct (decide (j < Z.to_nat k)%nat).
  - rewrite !lookup_take_lt, !lookup_drop, !contents_lookup by lia. done.
  - rewrite !lookup_take_ge by lia. done.
Qed.

Lemma covered_maps p n : covered memmap p n -> 0 <= n -> maps mem (p + offset) (contents mem offset p n).
Proof.
  intros (_ & _ & _ & He%Exists_exists) Hn. destruct He as (e & Hin & Hl & ? & ? & Ht).
  assert (Hb : forall k, (k < Z.to_nat n)%nat -> exists b, mem (u64 (p + offset + Z.of_nat k)) = Some b /\ is_u8 b).
  { intros k Hk. destruct (Hmap (p + Z.of_nat k) e Hin) as (b & Eb & Hu).
    { split; [done |]. do 2 (split; [lia |]). done. }
    exists b. split; [| done]. rewrite <- Eb. do 2 f_equal. lia. }
  assert (Hlen : length (contents mem offset p n) = Z.to_nat n).
  { pose proof (image_length p n Hn). unfold zlen in *. lia. }
  split.
  - apply Forall_lookup. intros k b E. pose proof (lookup_lt_Some _ _ _ E).
    rewrite contents_lookup in E by lia. destruct (Hb k) as (b' & Eb & Hu); [lia |]. rewrite Eb in E. by simplify_eq/=.
  - intros k b E. pose proof (lookup_lt_Some _ _ _ E).
    rewrite contents_lookup in E by lia. destruct (Hb k) as (b' & Eb & Hu); [lia |]. rewrite Eb in E. by simplify_eq/=.
Qed.

(** ** Tables *)

(** the mapped table at [phys] has [n] bytes *)
Definition mapped_table (phys n : Z) : Prop :=
  maps mem (direct_virt offset phys) (contents mem offset phys n) /\
  acpi_header_size <= n <= ACPI_MAX_TABLE_SIZE /\
  num (slice (contents mem offset phys n) header_Length 4) = n.

Lemma map_sdt_ok phys :
  (exists n, map_sdt mem offset memmap phys = Ok (Some (direct_virt offset phys)) /\ mapped_table phys n /\
     sdt mem offset memmap phys = if bool_decide (sum8 (contents mem offset phys n) = 0)
                                  then Some (contents mem offset phys n) else None) \/
  (map_sdt mem offset memmap phys = Ok None /\ sdt mem offset memmap phys = None).
Proof.
  unfold map_sdt, sdt. set (n := num _). rewrite !physical_range_covered.
  destruct (decide (phys + offset < 2 ^ 64 /\ covered memmap phys acpi_header_size)) as [[Hw Hc] | Hno].
  2: { right. rewrite (bool_decide_false (_ /\ _)) by tauto. split; [| done].
       destruct (Z.ltb_spec (UINT64_MAX - offset) phys); [done |]. rewrite bool_decide_false; [done |].
       intros Hc. apply Hno. split; [lia | done]. }
  rewrite (bool_decide_true (covered _ phys acpi_header_size)) by done.
  destruct (Z.ltb_spec (UINT64_MAX - offset) phys); [lia |]. cbn [orb negb].
  assert (H36 : zlen (contents mem offset phys acpi_header_size) = 36) by (by apply image_length).
  assert (Hm : maps mem (direct_virt offset phys) (contents mem offset phys acpi_header_size)).
  { apply maps_u64, covered_maps; [done |]. unfold acpi_header_size. lia. }
  rewrite (load_at mem 4 _ _ _ Hm) by (unfold zlen, header_Length in *; red; lia).
  cbn [res_bind]. change (num _) with n.
  destruct (decide (acpi_header_size <= n <= ACPI_MAX_TABLE_SIZE /\ covered memmap phys n)) as [[Hn Hc'] | Hno].
  2: { right. rewrite (bool_decide_false (_ /\ _)) by tauto. split; [| done].
       destruct (Z.ltb_spec n acpi_header_size); [done |]. destruct (Z.ltb_spec ACPI_MAX_TABLE_SIZE n); [done |].
       rewrite physical_range_covered, bool_decide_false; [done |]. intros Hc'. apply Hno. split; [lia | done]. }
  left. exists n. rewrite physical_range_covered, (bool_decide_true (covered _ phys n)) by done.
  destruct (Z.ltb_spec n acpi_header_size); [lia |]. destruct (Z.ltb_spec ACPI_MAX_TABLE_SIZE n); [lia |].
  split; [done |]. split.
  - split; [apply maps_u64, covered_maps; [done |]; unfold acpi_header_size in *; lia |]. split; [lia |].
    unfold n at 2. f_equal. symmetry. apply contents_slice; unfold header_Length, acpi_header_size in *; lia.
  - case_bool_decide as Hs; case_bool_decide as Hs2; tauto.
Qed.

Lemma mapped_length phys n : mapped_table phys n -> zlen (contents mem offset phys n) = n.
Proof. intros (_ & H & _). apply image_length. unfold acpi_header_size in *. lia. Qed.

Lemma load_Length phys n : mapped_table phys n -> load_le mem 4 (direct_virt offset phys + header_Length) = Ok n.
Proof.
  intros H. pose proof (mapped_length _ _ H) as Hl. destruct H as (Hm & Hn & En).
  rewrite (load_at mem 4 _ _ _ Hm); [by f_equal |]. unfold zlen, header_Length, acpi_header_size in *. red. lia.
Qed.

Lemma table_checksum phys n : mapped_table phys n ->
  checksum_valid mem (direct_virt offset phys) n = Ok (bool_decide (sum8 (contents mem offset phys n) = 0)).
Proof.
  intros H. pose proof (mapped_length _ _ H) as Hl. destruct H as (Hm & _).
  rewrite <- Hl at 1. by apply checksum_valid_at.
Qed.

Lemma table_signature phys n s : mapped_table phys n -> zlen s = 4 ->
  bytes_match mem (direct_virt offset phys) s = Ok (bool_decide (take 4 (contents mem offset phys n) = s)).
Proof.
  intros H Hs. pose proof (mapped_length _ _ H) as Hl. destruct H as (Hm & Hn & _).
  rewrite <- (Z.add_0_r (direct_virt _ _)), (bytes_match_at mem _ _ _ _ Hm).
  - by rewrite Hs.
  - rewrite Hs. unfold zlen, acpi_header_size in *. red. lia.
Qed.

Lemma scan_allocations_ok n j a l : maps mem a l -> 0 <= j -> mcfg_table_size + mcfg_entry_size * (j + Z.of_nat n) <= zlen l ->
  scan_allocations mem n j a =
  Ok (head (omap allocation ((fun i => slice l (mcfg_table_size + mcfg_entry_size * i) mcfg_entry_size) <$> seqZ j (Z.of_nat n)))).
Proof.
  intros Hm. revert j. induction n as [| n IH]; intros j Hj Hn; [done |].
  cbn [scan_allocations]. unfold mcfg_table_size, mcfg_entry_size in *.
  rewrite (load_bytes_at mem _ a l _ Hm) by (unfold zlen in *; red; lia). cbn [res_bind].
  change (Z.of_nat (Z.to_nat 16)) with 16.
  set (e := slice l (44 + 16 * j) 16).
  assert (He : length e = 16%nat).
  { unfold e. pose proof (slice_length l (44 + 16 * j) 16). unfold zlen, inside in *. lia. }
  rewrite !le_num by (unfold entry_StartBusNumber, entry_EndBusNumber, inside; lia). cbn [res_bind].
  rewrite seqZ_cons by lia. rewrite fmap_cons. fold e. cbn [omap list_omap]. unfold allocation at 1.
  case_bool_decide as Hb.
  - change (Z.of_nat 8) with 8. change (Z.of_nat 1) with 1. zbool; first [done | lia].
  - change (Z.of_nat 8) with 8. change (Z.of_nat 1) with 1. replace (Z.pred (Z.of_nat (S n))) with (Z.of_nat n) by lia. rewrite <- Z.add_1_r, <- IH by lia.
    zbool; try done. exfalso. apply Hb. split; [done |]. assumption.
Qed.

Lemma scan_table_ok phys :
  scan_table mem offset memmap phys = Ok (head (from_option allocations [] (sdt mem offset memmap phys))).
Proof.
  unfold scan_table. destruct (map_sdt_ok phys) as [(n & -> & Ht & ->) | (-> & ->)]; [| done].
  cbn [res_bind]. rewrite (load_Length _ _ Ht). cbn [res_bind]. rewrite (table_checksum _ _ Ht). cbn [res_bind].
  case_bool_decide; [| done]. cbn [negb from_option]. rewrite (table_signature _ _ _ Ht) by done. cbn [res_bind].
  unfold allocations. rewrite (mapped_length _ _ Ht).
  destruct (decide (take 4 (contents mem offset phys n) = sig_mcfg)) as [E | E].
  2: { rewrite !bool_decide_false by tauto. done. }
  rewrite (bool_decide_true (take _ _ = _)) by done. cbn [negb].
  destruct Ht as (Hm & Hn & Hl). unfold acpi_header_size, ACPI_MAX_TABLE_SIZE, mcfg_table_size, mcfg_entry_size in *.
  destruct (Z.ltb_spec n 44). { rewrite bool_decide_false by (intros (_ & ? & _); lia). done. }
  rewrite u32_small by (red; lia).
  destruct (Z.eqb_spec ((n - 44) mod 16) 0); cbn [negb].
  2: { rewrite bool_decide_false by tauto. done. }
  rewrite bool_decide_true by done. rewrite (scan_allocations_ok _ _ _ _ Hm); [| lia |].
  - unfold chunks. rewrite image_length, Z2Nat.id by zlia. done.
  - rewrite image_length by lia. unfold mcfg_table_size, mcfg_entry_size. zlia.
Qed.

Lemma head_app {A} (l k : list A) : head (l ++ k) = match head l with Some x => Some x | None => head k end.
Proof. by destruct l. Qed.

Lemma scan_entries_ok n i a l k : maps mem a l -> k = 8 \/ k = 4 -> 0 <= i ->
  acpi_header_size + k * (i + Z.of_nat n) <= zlen l <= ACPI_MAX_TABLE_SIZE ->
  scan_entries mem offset memmap n i (a + acpi_header_size) k =
  Ok (default 0 (head (t ← num <$> ((fun i => slice l (acpi_header_size + k * i) k) <$> seqZ i (Z.of_nat n));
                       from_option allocations [] (sdt mem offset memmap t)))).
Proof.
  intros Hm Hk. unfold acpi_header_size, ACPI_MAX_TABLE_SIZE. revert i.
  induction n as [| n IH]; intros i Hi Hn; [done |].
  cbn [scan_entries]. rewrite u32_small by (red; destruct Hk; subst k; lia).
  replace (a + 36 + i * k) with (a + (36 + k * i)) by lia.
  assert (El : load_le mem (if k =? 8 then 8 else 4) (a + (36 + k * i)) = Ok (num (slice l (36 + k * i) k))).
  { rewrite (load_at mem _ _ _ _ Hm) by (unfold zlen in *; red; destruct Hk; subst k; simpl; lia).
    do 3 f_equal. destruct Hk; by subst k. }
  rewrite El. cbn [res_bind]. rewrite scan_table_ok. cbn [res_bind].
  rewrite seqZ_cons by lia. rewrite !fmap_cons, bind_cons, head_app. destruct (head _) as [b |]; [done |].
  replace (Z.pred (Z.of_nat (S n))) with (Z.of_nat n) by lia. rewrite <- Z.add_1_r. apply IH; lia.
Qed.

Lemma scan_root_ok root k s : k = 8 \/ k = 4 -> zlen s = 4 ->
  scan_root_table mem offset memmap root k s = Ok (default 0 (head (root_allocations mem offset memmap root k s))).
Proof.
  intros Hk Hs. unfold scan_root_table, root_allocations, listed.
  destruct (map_sdt_ok root) as [(n & -> & Ht & ->) | (-> & ->)]; [| done].
  cbn [res_bind]. rewrite (table_signature _ _ _ Ht Hs), (load_Length _ _ Ht). cbn [res_bind]. rewrite (table_checksum _ _ Ht). cbn [res_bind].
  pose proof (mapped_length _ _ Ht) as Hl. pose proof Ht as (Hm & Hn & _).
  rewrite u32_small by (unfold acpi_header_size, ACPI_MAX_TABLE_SIZE in *; red; lia).
  destruct (decide (take 4 (contents mem offset root n) = s)) as [E | E].
  2: { rewrite !bool_decide_false by tauto. case_bool_decide; cbn; [| done]. rewrite bool_decide_false by tauto. done. }
  rewrite (bool_decide_true (take _ _ = _)) by done. cbn [negb].
  destruct (Z.eqb_spec ((n - acpi_header_size) mod k) 0) as [E0 | E0]; cbn [negb].
  2: { case_bool_decide; [| done]. rewrite bool_decide_false; [done |]. rewrite Hl. tauto. }
  case_bool_decide; [| done]. cbn [negb]. rewrite bool_decide_true by (rewrite Hl; tauto).
  rewrite (scan_entries_ok _ _ _ _ _ Hm Hk); [| lia |].
  - unfold chunks. rewrite Hl, Z2Nat.id; [done |]. apply Z.div_pos; lia.
  - rewrite Hl. split; [| lia]. rewrite Z.add_0_l, Z2Nat.id by (apply Z.div_pos; lia).
    pose proof (Z.mul_div_le (n - acpi_header_size) k). lia.
Qed.

Lemma allocations_nonzero l : 0 ∉ allocations l.
Proof.
  unfold allocations. case_bool_decide; [| apply not_elem_of_nil].
  intros (e & _ & He)%list_elem_of_omap. unfold allocation in He. case_bool_decide; naive_solver.
Qed.

Lemma root_allocations_nonzero root k s : 0 ∉ root_allocations mem offset memmap root k s.
Proof.
  unfold root_allocations. intros (t & Ht & _)%list_elem_of_bind. destruct (sdt _ _ _ t); simpl in Ht.
  - by apply allocations_nonzero in Ht.
  - by apply elem_of_nil in Ht.
Qed.

(** ** The root pointer *)

(** the part of the root pointer that revision 2 adds *)
Lemma rsdp_extended p rsdp :
  p + offset = rsdp -> 2 <= num (slice (contents mem offset p ACPI_RSDP_V1_SIZE) rsdp_Revision 1) ->
  let n := num (slice (contents mem offset p rsdp_size) rsdp_Length 4) in
  let found := if bool_decide (covered memmap p rsdp_size /\ (rsdp_size <= n <= ACPI_MAX_RSDP_SIZE) /\
                               covered memmap p n /\ sum8 (contents mem offset p n) = 0)
               then Some (contents mem offset p n) else None in
  let checked :=
    if negb (bool_decide (covered memmap p rsdp_size)) then Ok false
    else
      let! length := load_le mem 4 (rsdp + rsdp_Length) in
      if (length <? rsdp_size) || (ACPI_MAX_RSDP_SIZE <? length) || negb (physical_range_valid memmap p length)
      then Ok false else checksum_valid mem rsdp length in
  (exists l, found = Some l /\ checked = Ok true /\
     maps mem rsdp l /\ 20 <= zlen l /\ (2 <= num (slice l rsdp_Revision 1) -> 36 <= zlen l)) \/
  (found = None /\ checked = Ok false).
Proof.
  intros Ep Hrev n found checked. unfold found, checked.
  destruct (decide (covered memmap p rsdp_size)) as [Hc | Hc].
  2: { right. rewrite !bool_decide_false by tauto. done. }
  rewrite (bool_decide_true (covered _ p rsdp_size)) by done. cbn [negb].
  assert (Hm : maps mem rsdp (contents mem offset p rsdp_size))
    by (rewrite <- Ep; apply covered_maps; [done |]; unfold rsdp_size; lia).
  rewrite (load_at mem 4 _ _ _ Hm)
    by (pose proof (image_length p rsdp_size); unfold zlen, rsdp_Length, rsdp_size in *; red; lia).
  cbn [res_bind]. change (Z.of_nat 4) with 4. fold n. rewrite physical_range_covered.
  destruct (decide (rsdp_size <= n <= ACPI_MAX_RSDP_SIZE /\ covered memmap p n)) as [[Hn Hc'] | Hno].
  2: { right. rewrite (bool_decide_false (_ /\ _)) by tauto. split; [done |].
       destruct (Z.ltb_spec n rsdp_size); [done |]. destruct (Z.ltb_spec ACPI_MAX_RSDP_SIZE n); [done |].
       rewrite bool_decide_false; [done |]. intros Hc'. apply Hno. split; [lia | done]. }
  rewrite (bool_decide_true (covered _ p n)) by done.
  destruct (Z.ltb_spec n rsdp_size); [lia |]. destruct (Z.ltb_spec ACPI_MAX_RSDP_SIZE n); [lia |]. cbn [negb orb].
  clearbody n. unfold rsdp_size, ACPI_MAX_RSDP_SIZE in *.
  assert (Hl : zlen (contents mem offset p n) = n) by (apply image_length; lia).
  assert (Hm' : maps mem rsdp (contents mem offset p n)) by (rewrite <- Ep; apply covered_maps; [done | lia]).
  assert (Hk : checksum_valid mem rsdp n = Ok (bool_decide (sum8 (contents mem offset p n) = 0))).
  { rewrite <- Hl at 1. by apply checksum_valid_at. }
  rewrite Hk. destruct (decide (sum8 (contents mem offset p n) = 0)).
  - left. exists (contents mem offset p n). rewrite !bool_decide_true by done.
    do 3 (split; [done |]). rewrite Hl. lia.
  - right. rewrite !bool_decide_false by tauto. done.
Qed.

Lemma rsdp_valid_ok rsdp : is_u64 offset -> is_u64 rsdp -> rsdp ≠ 0 ->
  (exists l, root_pointer mem offset memmap rsdp = Some l /\ rsdp_valid mem offset memmap rsdp = Ok true /\
     maps mem rsdp l /\ 20 <= zlen l /\ (2 <= num (slice l rsdp_Revision 1) -> 36 <= zlen l)) \/
  (root_pointer mem offset memmap rsdp = None /\ rsdp_valid mem offset memmap rsdp = Ok false).
Proof.
  intros Ho Hr Hnz. unfold root_pointer, rsdp_valid. rewrite !physical_range_covered.
  destruct (Z.ltb_spec rsdp offset) as [Hlt | Hle]. { right. rewrite bool_decide_false by lia. done. }
  replace (direct_phys offset rsdp) with (rsdp - offset)
    by (unfold direct_phys; rewrite u64_small; [done |]; unfold is_u64 in *; lia).
  set (p := rsdp - offset) in *. assert (Ep : p + offset = rsdp) by (unfold p; lia). clearbody p.
  destruct (decide (covered memmap p ACPI_RSDP_V1_SIZE)) as [Hc | Hc].
  2: { right. rewrite !bool_decide_false by tauto. done. }
  rewrite (bool_decide_true (covered _ p _)) by done. cbn [negb].
  set (l := contents mem offset p ACPI_RSDP_V1_SIZE).
  assert (Hl : zlen l = 20) by (by apply image_length).
  assert (Hm : maps mem rsdp l) by (rewrite <- Ep; apply covered_maps; [done |]; unfold ACPI_RSDP_V1_SIZE; lia).
  assert (Hs : bytes_match mem rsdp sig_rsdp = Ok (bool_decide (take 8 l = sig_rsdp))).
  { rewrite <- (Z.add_0_r rsdp). apply (bytes_match_at mem _ _ 0 sig_rsdp Hm). unfold zlen in *. simpl. red. lia. }
  rewrite Hs. cbn [res_bind].
  destruct (decide (take 8 l = sig_rsdp)) as [Es | Es].
  2: { right. rewrite !bool_decide_false by tauto. done. }
  rewrite (bool_decide_true (take 8 l = _)) by done. cbn [negb].
  assert (Hk : checksum_valid mem rsdp ACPI_RSDP_V1_SIZE = Ok (bool_decide (sum8 l = 0))).
  { change ACPI_RSDP_V1_SIZE with 20. rewrite <- Hl. by apply checksum_valid_at. }
  rewrite Hk. cbn [res_bind].
  destruct (decide (sum8 l = 0)) as [E0 | E0].
  2: { right. rewrite !bool_decide_false by tauto. done. }
  rewrite (bool_decide_true (sum8 l = 0)), (bool_decide_true (rsdp ≠ 0 /\ _)) by done. cbn [negb].
  assert (H1 : load_le mem 1 (rsdp + rsdp_Revision) = Ok (num (slice l rsdp_Revision 1))).
  { apply (load_at mem 1 _ _ _ Hm). unfold zlen, rsdp_Revision in *. red. lia. }
  rewrite H1. cbn [res_bind].
  destruct (Z.ltb_spec (num (slice l rsdp_Revision 1)) 2).
  { left. exists l. rewrite bool_decide_true by done. split; [done |]. split; [done |]. split; [done |]. lia. }
  rewrite (bool_decide_false (_ < 2)) by lia.
  apply (rsdp_extended p rsdp); done.
Qed.

End Covered.

(** C28: the answer is the first usable allocation among those the valid tables list, 0 when
    there is none.  The search returns whatever the tables contain and loads no byte outside the memory that
    the memory map describes: the direct map is the only memory it is given. *)
Theorem find_mcfg_correct mem offset memmap rsdp :
  direct_map mem offset memmap -> is_u64 offset -> is_u64 rsdp ->
  find_mcfg_base mem offset memmap rsdp = Ok (default 0 (head (mcfg_allocations mem offset memmap rsdp))).
Proof.
  intros Hmap Ho Hr. unfold find_mcfg_base, mcfg_allocations.
  destruct (Z.eqb_spec rsdp 0) as [-> | Hnz].
  { unfold root_pointer. rewrite bool_decide_false by tauto. done. }
  destruct (rsdp_valid_ok mem offset memmap Hmap rsdp Ho Hr Hnz) as [(l & -> & -> & Hm & Hl & Hl2) | (-> & ->)]; [| done].
  cbn [res_bind negb]. unfold zlen in *.
  rewrite (load_at mem 1 _ _ _ Hm) by (unfold rsdp_Revision; red; lia). cbn [res_bind]. change (Z.of_nat 1) with 1.
  assert (Hrsdt : load_le mem 4 (rsdp + rsdp_RsdtAddress) = Ok (num (slice l rsdp_RsdtAddress 4))).
  { apply (load_at mem 4 _ _ _ Hm). unfold rsdp_RsdtAddress. red. lia. }
  destruct (Z.leb_spec 2 (num (slice l rsdp_Revision 1))) as [Hrev | Hrev].
  2: { rewrite bool_decide_false by lia. cbn [res_bind Z.eqb negb app]. rewrite Hrsdt. cbn [res_bind]. apply scan_root_ok; auto. }
  rewrite bool_decide_true by lia.
  rewrite (load_at mem 8 _ _ _ Hm) by (unfold rsdp_XsdtAddress; red; lia). cbn [res_bind]. change (Z.of_nat 8) with 8.
  set (x := num _). set (xs := root_allocations _ _ _ x _ _).
  assert (Hx : (if negb (x =? 0) then scan_root_table mem offset memmap x 8 sig_xsdt else Ok 0) = Ok (default 0 (head xs))).
  { destruct (Z.eqb_spec x 0) as [E |]; cbn [negb]; [| apply scan_root_ok; auto].
    unfold xs. rewrite E. unfold root_allocations, listed, sdt. rewrite bool_decide_false; [done |].
    intros (_ & (? & _) & _). done. }
  rewrite Hx. cbn [res_bind]. rewrite head_app.
  destruct xs as [| b xs'] eqn:E; cbn [head default from_option id Z.eqb negb].
  - rewrite Hrsdt. cbn [res_bind]. apply scan_root_ok; auto.
  - destruct (Z.eqb_spec b 0) as [-> |]; [| done]. exfalso.
    apply (root_allocations_nonzero mem offset memmap x 8 sig_xsdt). fold xs. rewrite E. left.
Qed.

(** ** A firmware with tables

    One page at 4096 holds the root pointer, an extended root table that lists
    a table with a wrong checksum and an MCFG table, whose first allocation has no address, and a root table. *)
Module Firmware.

Definition offset : Z := 18446603336221196288.
Definition memory_map : option (list pmm_memmap_entry) :=
  Some [mk_entry 0 4096 1; mk_entry 4096 4096 2; mk_entry 8192 65536 PMM_MEMMAP_BAD_MEMORY].

(** [l] with the byte at [i] chosen so that all bytes sum to zero *)
Definition balanced (i : nat) (l : list Z) : list Z := <[i := (- foldr Z.add 0 (<[i := 0]> l)) mod 256]> l.

Definition table (signature payload : list Z) : list Z :=
  balanced 9 (signature ++ enc 4 (36 + zlen payload) ++ replicate 28 0 ++ payload).
Definition mcfg_entry (b first last : Z) : list Z := enc 8 b ++ [0; 0; first; last; 0; 0; 0; 0].

Definition mcfg : list Z := table sig_mcfg (replicate 8 0 ++ mcfg_entry 0 0 255 ++ mcfg_entry 3758096384 0 255).
Definition broken : list Z := sig_mcfg ++ enc 4 44 ++ replicate 36 1.
Definition rsdp_bytes : list Z :=
  balanced 32 (balanced 8 (sig_rsdp ++ replicate 7 0 ++ [2] ++ enc 4 4224) ++ enc 4 36 ++ enc 8 4160 ++ replicate 4 0).
Definition page_of (xsdt_bytes : list Z) : list Z :=
  let at_64 := rsdp_bytes ++ replicate 28 0 in
  let at_128 := at_64 ++ take 64 (xsdt_bytes ++ replicate 64 0) in
  let at_192 := at_128 ++ take 64 (table sig_rsdt (enc 4 4288) ++ replicate 64 0) in
  let at_320 := at_192 ++ take 128 (mcfg ++ replicate 128 0) in
  at_320 ++ broken.

Definition xsdt : list Z := table sig_xsdt (enc 8 4416 ++ enc 8 4288).

Definition memory (page : list Z) (a : Z) : option Z :=
  if (offset + 4096 <=? a) && (a <? offset + 8192) then Some (nth (Z.to_nat (a - offset - 4096)) page 0)
  else if (offset <=? a) && (a <? offset + 4096) then Some 0 else None.

Lemma memory_direct page : bytes page -> direct_map (memory page) offset memory_map.
Proof.
  intros Hp p e He Hd. unfold memory_map in He. simpl in He. lmem_simpl. unfold memory.
  assert (Hr : 0 <= p < 8192).
  { destruct Hd as (_ & ? & ? & Ht). rewrite !not_elem_of_cons in Ht.
    destruct He as [-> | [-> | [-> | []]]]; simpl in *; first [lia | tauto]. }
  rewrite u64_small by (unfold offset; red; lia).
  destruct (Z.ltb_spec p 4096).
  - exists 0. split; [| red; lia]. unfold offset. zbool; try lia. done.
  - exists (nth (Z.to_nat (p + offset - offset - 4096)) page 0). split; [unfold offset; zbool; try lia; done |].
    rewrite nth_lookup. destruct (page !! _) eqn:E; simpl; [exact (Forall_lookup_1 _ _ _ _ Hp E) | red; lia].
Qed.

Lemma memory_bytes x : forallb (fun b => (0 <=? b) && (b <? 256)) (page_of x) = true ->
  direct_map (memory (page_of x)) offset memory_map.
Proof. intros H. apply memory_direct, bytes_check, H. Qed.

Lemma find_mcfg_witness :
  find_mcfg_base (memory (page_of xsdt)) offset memory_map (offset + 4096) = Ok 3758096384.
Proof.
  rewrite (find_mcfg_correct (memory (page_of xsdt)) offset memory_map (offset + 4096)).
  - vm_compute. reflexivity.
  - apply memory_bytes. vm_compute. reflexivity.
  - unfold offset, is_u64. lia.
  - unfold offset, is_u64. lia.
Defined.

(** a damaged extended root table makes the kernel fall back on the other *)
Example find_mcfg_fallback :
  find_mcfg_base (memory (page_of (<[36%nat := 0]> xsdt))) offset memory_map (offset + 4096) = Ok 3758096384 /\
  listed (memory (page_of (<[36%nat := 0]> xsdt))) offset memory_map 4160 8 sig_xsdt = [].
Proof. vm_compute. done. Qed.

(** a firmware without root pointer stops the boot *)
Example no_tables_panic :
  get_mcfg_from_limine (memory (page_of xsdt)) offset memory_map (Some (offset + 4160)) = Panic /\
  get_mcfg_from_limine (memory (page_of xsdt)) offset memory_map None = Ok 0.
Proof. vm_compute. done. Qed.

End Firmware.
