(* ===== verification/Interrupt.v ===== *)
(** * Interrupt dispatch ([kernel/arch/x86_64/idt.c], [ipi.c], [kernel/serial_input.h])

    The C side of an interrupt: the dispatcher by vector, the timer, keyboard
    and serial handlers, and the messages between processors with their tables
    of callbacks.  What a port answers is an input of the step; effects on
    hardware and calls of function pointers are recorded in order.  The
    console is that of Console.v and the tick that of Sched.v. *)

From stdpp Require Import base list.
From S2P Require Import Prelude Sched Console Font.

Definition SC_LSHIFT : Z := 42.
Definition SC_RSHIFT : Z := 54.
Definition SC_LCTRL : Z := 29.
Definition SC_LALT : Z := 56.
Definition SC_CAPSLOCK : Z := 58.
Definition SC_BREAK : Z := 128.
Definition IPI_VECTOR_TLB : Z := 253.
Definition IPI_VECTOR_SELFTEST : Z := 252.
Definition IPI_VECTOR_RESCHEDULE : Z := 251.
Definition IPI_MAX_CALLBACKS : nat := 4.
Definition PCI_IRQ_VECTOR_BASE : Z := 34.
Definition TTY_MONITOR : Z := 9.
Definition IDLE_PID : Z := 0.

Definition scancode_to_ascii : list Z :=
  [0; 27; 49; 50; 51; 52; 53; 54; 55; 56; 57; 48; 45; 61; 8; 9; 113; 119; 101; 114; 116; 121; 117; 105; 111; 112; 91; 93; 10;
   0; 97; 115; 100; 102; 103; 104; 106; 107; 108; 59; 39; 96; 0; 92; 122; 120; 99; 118; 98; 110; 109; 44; 46; 47; 0; 42; 0; 32].
Definition scancode_to_ascii_shifted : list Z :=
  [0; 27; 33; 64; 35; 36; 37; 94; 38; 42; 40; 41; 95; 43; 8; 9; 81; 87; 69; 82; 84; 89; 85; 73; 79; 80; 123; 125; 10;
   0; 65; 83; 68; 70; 71; 72; 74; 75; 76; 58; 34; 126; 0; 124; 90; 88; 67; 86; 66; 78; 77; 60; 62; 63; 0; 42; 0; 32].

(** the vectors for which the processor pushes an error code *)
Definition EXCEPTION_HAS_ERRCODE : Z := 0x60227D00.
Definition has_error_code (vec : Z) : bool := (vec <? 32) && Z.testbit EXCEPTION_HAS_ERRCODE vec.

(** ** State *)

Record keyboard := mk_kb { kb_shift : Z; kb_ctrl : Z; kb_alt : Z; kb_caps : Z }.

Inductive effect :=
  | Eoi
  | Flush_tlb
  | Call (f : Z)             (** a call of a function pointer *)
  | Send_ipi (vector : Z).   (** to every other processor *)

Record irq_state := mk_irq {
  kb : keyboard;
  serial_esc : Z;
  monitor_ready : bool;
  con : console;
  cores : machine;
  ids : gmap Z Z;                 (** [id] of the threads *)
  total_ticks : gmap Z Z;         (** of the processor contexts *)
  idle_ticks : gmap Z Z;
  g_e1000_irq_vector : Z;
  g_e1000_irq_handler : Z;        (** 0 is NULL *)
  g_tlb_callbacks : list Z;
  g_selftest_callbacks : list Z;
  g_reschedule_count : list Z;
  effects : list effect }.

Definition set_kb (k : keyboard) (s : irq_state) : irq_state :=
  mk_irq k (serial_esc s) (monitor_ready s) (con s) (cores s) (ids s) (total_ticks s) (idle_ticks s) (g_e1000_irq_vector s)
    (g_e1000_irq_handler s) (g_tlb_callbacks s) (g_selftest_callbacks s) (g_reschedule_count s) (effects s).
Definition set_esc (e : Z) (s : irq_state) : irq_state :=
  mk_irq (kb s) e (monitor_ready s) (con s) (cores s) (ids s) (total_ticks s) (idle_ticks s) (g_e1000_irq_vector s)
    (g_e1000_irq_handler s) (g_tlb_callbacks s) (g_selftest_callbacks s) (g_reschedule_count s) (effects s).
Definition set_con (k : console) (s : irq_state) : irq_state :=
  mk_irq (kb s) (serial_esc s) (monitor_ready s) k (cores s) (ids s) (total_ticks s) (idle_ticks s) (g_e1000_irq_vector s)
    (g_e1000_irq_handler s) (g_tlb_callbacks s) (g_selftest_callbacks s) (g_reschedule_count s) (effects s).
Definition set_cores (m : machine) (s : irq_state) : irq_state :=
  mk_irq (kb s) (serial_esc s) (monitor_ready s) (con s) m (ids s) (total_ticks s) (idle_ticks s) (g_e1000_irq_vector s)
    (g_e1000_irq_handler s) (g_tlb_callbacks s) (g_selftest_callbacks s) (g_reschedule_count s) (effects s).
Definition set_ticks (total idle : gmap Z Z) (s : irq_state) : irq_state :=
  mk_irq (kb s) (serial_esc s) (monitor_ready s) (con s) (cores s) (ids s) total idle (g_e1000_irq_vector s)
    (g_e1000_irq_handler s) (g_tlb_callbacks s) (g_selftest_callbacks s) (g_reschedule_count s) (effects s).
Definition set_e1000 (vector handler : Z) (s : irq_state) : irq_state :=
  mk_irq (kb s) (serial_esc s) (monitor_ready s) (con s) (cores s) (ids s) (total_ticks s) (idle_ticks s) vector
    handler (g_tlb_callbacks s) (g_selftest_callbacks s) (g_reschedule_count s) (effects s).
Definition set_callbacks (tlb selftest : list Z) (s : irq_state) : irq_state :=
  mk_irq (kb s) (serial_esc s) (monitor_ready s) (con s) (cores s) (ids s) (total_ticks s) (idle_ticks s) (g_e1000_irq_vector s)
    (g_e1000_irq_handler s) tlb selftest (g_reschedule_count s) (effects s).
Definition set_counts (l : list Z) (s : irq_state) : irq_state :=
  mk_irq (kb s) (serial_esc s) (monitor_ready s) (con s) (cores s) (ids s) (total_ticks s) (idle_ticks s) (g_e1000_irq_vector s)
    (g_e1000_irq_handler s) (g_tlb_callbacks s) (g_selftest_callbacks s) l (effects s).
Definition emit (l : list effect) (s : irq_state) : irq_state :=
  mk_irq (kb s) (serial_esc s) (monitor_ready s) (con s) (cores s) (ids s) (total_ticks s) (idle_ticks s) (g_e1000_irq_vector s)
    (g_e1000_irq_handler s) (g_tlb_callbacks s) (g_selftest_callbacks s) (g_reschedule_count s) (effects s ++ l).

Definition idt_register_e1000_irq (irq_line : Z) (s : irq_state) : irq_state :=
  set_e1000 (PCI_IRQ_VECTOR_BASE + irq_line) (g_e1000_irq_handler s) s.
Definition idt_register_e1000_irq_handler (handler : Z) (s : irq_state) : irq_state :=
  set_e1000 (g_e1000_irq_vector s) handler s.

(** ** Messages between processors *)

(** the first slot that holds [cb], from [i] on *)
Fixpoint callback_slot (table : list Z) (cb : Z) (i : nat) : option nat :=
  match table with
  | [] => None
  | x :: table => if x =? cb then Some i else callback_slot table cb (S i)
  end.

Definition ipi_callback_set (table : list Z) (cb : Z) : list Z :=
  if cb =? 0 then table
  else
    match callback_slot table cb 0 with
    | Some _ => table
    | None =>
        match callback_slot table 0 0 with
        | Some i => <[i := cb]> table
        | None => table
        end
    end.

Definition ipi_callback_clear (table : list Z) (cb : Z) : list Z :=
  if cb =? 0 then table
  else
    match callback_slot table cb 0 with
    | Some i => <[i := 0]> table
    | None => table
    end.

Definition ipi_callback_invoke (table : list Z) : list effect :=
  omap (fun cb => if cb =? 0 then None else Some (Call cb)) table.

Definition ipi_tlb_set_callback (cb : Z) (s : irq_state) : irq_state :=
  set_callbacks (ipi_callback_set (g_tlb_callbacks s) cb) (g_selftest_callbacks s) s.
Definition ipi_tlb_clear_callback (cb : Z) (s : irq_state) : irq_state :=
  set_callbacks (ipi_callback_clear (g_tlb_callbacks s) cb) (g_selftest_callbacks s) s.
Definition ipi_selftest_set_callback (cb : Z) (s : irq_state) : irq_state :=
  set_callbacks (g_tlb_callbacks s) (ipi_callback_set (g_selftest_callbacks s) cb) s.
Definition ipi_selftest_clear_callback (cb : Z) (s : irq_state) : irq_state :=
  set_callbacks (g_tlb_callbacks s) (ipi_callback_clear (g_selftest_callbacks s) cb) s.

(** on processor [c]; a processor whose context is its own needs no message *)
Definition ipi_reschedule_send (c cpu_id : Z) (s : irq_state) : irq_state :=
  if MAX_CPUS <=? cpu_id then s
  else
    match cpus (cores s) !! cpu_id with
    | None => s
    | Some _ =>
        let s := set_cores (ipi_reschedule_cpu cpu_id (cores s)) s in
        if cpu_id =? c then s else emit [Send_ipi IPI_VECTOR_RESCHEDULE] s
    end.

Definition ipi_reschedule_ack (c : Z) (s : irq_state) : irq_state :=
  if (0 <=? c) && (c <? MAX_CPUS) then
    set_counts (alter (fun n => u64 (n + 1)) (Z.to_nat c) (g_reschedule_count s)) s
  else s.

Definition ipi_reschedule_count (cpu_id : Z) (s : irq_state) : Z :=
  if MAX_CPUS <=? cpu_id then 0 else default 0 (g_reschedule_count s !! Z.to_nat cpu_id).

(** ** Input *)

(** what the ports answer: the scan code, the line status and the character
    of the serial port *)
Record ports := mk_ports { scancode : Z; lsr : Z; rbr : Z }.

Definition switch_tty (id : Z) (s : irq_state) : res irq_state :=
  let! k := tty_switch fontdata_8x16 id (con s) in Ok (set_con k s).

(** the keys that switch terminals while Alt is down; [false] when the handler
    returns at once *)
Definition alt_switch (make : Z) (s : irq_state) : res (bool * irq_state) :=
  let go id := let! s := switch_tty id s in Ok (true, s) in
  let guarded id := if negb (monitor_ready s) then Ok (false, s) else go id in
  let alt := negb (kb_alt (kb s) =? 0) in
  if alt && (make =? 10) then guarded TTY_MONITOR
  else if alt && (make =? 11) then go 0
  else if alt && (make =? 9) then guarded 8
  else if alt && (make =? 8) then guarded 7
  else if alt && (make =? 7) then guarded 6
  else Ok (true, s).

(** CapsLock swaps the case of letters *)
Definition caps_letter (c : Z) : Z :=
  if (97 <=? c) && (c <=? 122) then c - 32
  else if (65 <=? c) && (c <=? 90) then c + 32
  else c.

(** a key that is not a modifier goes down *)
Definition typed_key (make : Z) (s : irq_state) : res irq_state :=
  let k := kb s in
  if Z.of_nat (length scancode_to_ascii) <=? make then Ok s
  else
    let c := nth (Z.to_nat make) (if negb (kb_shift k =? 0) then scancode_to_ascii_shifted else scancode_to_ascii) 0 in
    if c =? 0 then Ok s
    else
      let c := if negb (kb_caps k =? 0) then caps_letter c else c in
      if negb (kb_ctrl k =? 0) && (97 <=? c) && (c <=? 122) then Ok s
      else if c =? 99 then let! n := fb_clear_screen 0 (con s) in Ok (set_con n s)
      else Ok s.

(** the branch of vector 33 of [irq_handler] *)
Definition keyboard_irq (sc : Z) (s : irq_state) : res irq_state :=
  let make := Z.land sc (u8 (Z.lnot SC_BREAK)) in
  let is_break := negb (Z.land sc SC_BREAK =? 0) in
  let k := kb s in
  let down := if is_break then 0 else 1 in
  if (make =? SC_LSHIFT) || (make =? SC_RSHIFT) then Ok (set_kb (mk_kb down (kb_ctrl k) (kb_alt k) (kb_caps k)) s)
  else if make =? SC_LCTRL then Ok (set_kb (mk_kb (kb_shift k) down (kb_alt k) (kb_caps k)) s)
  else if make =? SC_LALT then Ok (set_kb (mk_kb (kb_shift k) (kb_ctrl k) down (kb_caps k)) s)
  else if make =? SC_CAPSLOCK then
    if negb is_break then Ok (set_kb (mk_kb (kb_shift k) (kb_ctrl k) (kb_alt k) (Z.lxor (kb_caps k) 1)) s) else Ok s
  else if is_break then Ok s
  else
    let! (continue, s) := alt_switch make s in
    if negb continue then Ok s
    else typed_key make s.

Definition serial_input_process (ch : Z) (s : irq_state) : res irq_state :=
  if negb (serial_esc s =? 0) then
    let s := set_esc 0 s in
    if (48 <=? ch) && (ch <=? 57) then
      let tty_id := ch - 48 in
      if (6 <=? tty_id) && negb (monitor_ready s) then Ok s else switch_tty tty_id s
    else Ok s
  else if ch =? 27 then Ok (set_esc 1 s)
  else if (97 <=? ch) && (ch <=? 122) then Ok (set_con (send [ch] (con s)) s)
  else Ok s.

(** the branch of the timer, on processor [c] *)
Definition timer_irq (c : Z) (s : irq_state) : res irq_state :=
  let! m := timer_handler c (cores s) in
  let s := set_cores m s in
  let! ctx := get_cpu c m in
  let total := <[c := u64 (default 0 (total_ticks s !! c) + 1)]> (total_ticks s) in
  match ids s !! current ctx with
  | None => Fault
  | Some id =>
      Ok (set_ticks total
            (if id =? IDLE_PID then <[c := u64 (default 0 (idle_ticks s !! c) + 1)]> (idle_ticks s) else idle_ticks s) s)
  end.

Definition irq_handler (c irq : Z) (p : ports) (s : irq_state) : res irq_state :=
  if irq =? 32 then timer_irq c s
  else if negb (g_e1000_irq_vector s =? 0) && (irq =? g_e1000_irq_vector s) then
    if negb (g_e1000_irq_handler s =? 0) then Ok (emit [Call (g_e1000_irq_handler s)] s) else Ok s
  else if irq =? 33 then keyboard_irq (scancode p) s
  else if irq =? 36 then
    if negb (Z.land (lsr p) 1 =? 0) then serial_input_process (rbr p) s else Ok s
  else Ok s.

(** ** The dispatcher *)

Inductive next :=
  | Return
  | Page_fault            (** to [page_fault_handler], of Mmap.v *)
  | Halt.                 (** [exception_handler] reports and stops *)

Definition idt_handler (c int_no : Z) (p : ports) (s : irq_state) : res (next * irq_state) :=
  if int_no =? IPI_VECTOR_TLB then
    Ok (Return, emit (Eoi :: Flush_tlb :: ipi_callback_invoke (g_tlb_callbacks s)) s)
  else if int_no =? IPI_VECTOR_SELFTEST then
    Ok (Return, emit (Eoi :: ipi_callback_invoke (g_selftest_callbacks s)) s)
  else if int_no =? IPI_VECTOR_RESCHEDULE then
    Ok (Return, ipi_reschedule_ack c (emit [Eoi] s))
  else if int_no =? 3 then Panic
  else if int_no <? 32 then
    if int_no =? 14 then Ok (Page_fault, s) else Ok (Halt, s)
  else if int_no =? 255 then Ok (Return, s)
  else if (32 <=? int_no) && (int_no <=? 47) then
    let! s := irq_handler c int_no p (emit [Eoi] s) in Ok (Return, s)
  else if int_no =? 128 then Ok (Return, s)
  else Ok (Return, emit [Eoi] s).
