(* ===== verification/InterruptSpec.v ===== *)
(** * What interrupts do

    Keys are described by their history: a modifier is down when its last event
    was a press, CapsLock is the parity of its presses.  The keyboard handler is
    proved to act accordingly, and any sequence of interrupts to be served
    without fault, each acknowledged once and first.  The callback tables are
    sets of at most four functions. *)

From stdpp Require Import base list.
From S2P Require Import Prelude RunQueue Sched Console Font ConsoleSpec Interrupt.

(** ** Keys *)

Definition make_of (sc : Z) : Z := Z.land sc 127.
Definition pressed (sc : Z) : bool := sc <? 128.

(** the last event of the keys [makes] was a press *)
Definition held (makes : list Z) (history : list Z) : bool :=
  from_option pressed false (last (filter (fun sc => make_of sc ∈ makes) history)).

Definition caps_on (history : list Z) : bool := Nat.odd (length (filter (fun sc => sc = SC_CAPSLOCK) history)).

(** what a key asks of the console *)
Inductive key_act := Nothing | Clears | Switches (id : Z).
#[export] Instance key_act_dec : EqDecision key_act.
Proof. solve_decision. Defined.
#[export] Instance keyboard_dec : EqDecision keyboard.
Proof. solve_decision. Defined.

(** the letter c alone clears the screen, and with Alt the digits 6 to 9 and 0
    switch terminals, 6 to 9 once the monitor runs *)
Definition key_asks (shift ctrl alt caps ready : bool) (sc : Z) : key_act :=
  if sc =? 46 then if Bool.eqb shift caps && negb ctrl then Clears else Nothing
  else if alt && (sc =? 11) then Switches 0
  else if alt && ready && (7 <=? sc) && (sc <=? 10) then Switches (sc - 1)
  else Nothing.

Definition key_act_after (ready : bool) (history : list Z) (sc : Z) : key_act :=
  key_asks (held [SC_LSHIFT; SC_RSHIFT] history) (held [SC_LCTRL] history) (held [SC_LALT] history) (caps_on history) ready sc.

(** the modifiers after some keys *)
Definition kb_of (shift ctrl alt caps : bool) : keyboard := mk_kb (Z.b2z shift) (Z.b2z ctrl) (Z.b2z alt) (Z.b2z caps).
Definition modifiers (history : list Z) : keyboard :=
  kb_of (held [SC_LSHIFT; SC_RSHIFT] history) (held [SC_LCTRL] history) (held [SC_LALT] history) (caps_on history).

Lemma held_snoc makes h sc : held makes (h ++ [sc]) = if bool_decide (make_of sc ∈ makes) then pressed sc else held makes h.
Proof.
  unfold held. rewrite filter_app, filter_cons, filter_nil. case_decide; case_bool_decide; try done.
  - by rewrite last_snoc.
  - by rewrite app_nil_r.
Qed.

Lemma caps_snoc h sc : caps_on (h ++ [sc]) = xorb (caps_on h) (bool_decide (sc = SC_CAPSLOCK)).
Proof.
  unfold caps_on. rewrite filter_app, filter_cons, filter_nil, length_app. case_decide; case_bool_decide; try done; cbn [length].
  - rewrite Nat.odd_add. by destruct (Nat.odd _).
  - rewrite Nat.add_0_r. by destruct (Nat.odd _).
Qed.

(** the handler as a function of the modifiers *)
Definition key_action (k : keyboard) (ready : bool) (sc : Z) : keyboard * key_act :=
  let make := Z.land sc 127 in
  let is_break := negb (Z.land sc 128 =? 0) in
  let down := if is_break then 0 else 1 in
  if (make =? 42) || (make =? 54) then (mk_kb down (kb_ctrl k) (kb_alt k) (kb_caps k), Nothing)
  else if make =? 29 then (mk_kb (kb_shift k) down (kb_alt k) (kb_caps k), Nothing)
  else if make =? 56 then (mk_kb (kb_shift k) (kb_ctrl k) down (kb_caps k), Nothing)
  else if make =? 58 then
    (if negb is_break then mk_kb (kb_shift k) (kb_ctrl k) (kb_alt k) (Z.lxor (kb_caps k) 1) else k, Nothing)
  else if is_break then (k, Nothing)
  else
    let alt := negb (kb_alt k =? 0) in
    let c := nth (Z.to_nat make) (if negb (kb_shift k =? 0) then scancode_to_ascii_shifted else scancode_to_ascii) 0 in
    let c := if negb (kb_caps k =? 0) then caps_letter c else c in
    (k, if alt && (make =? 11) then Switches 0
        else if alt && ready && (7 <=? make) && (make <=? 10) then Switches (make - 1)
        else if (c =? 99) && negb (negb (kb_ctrl k =? 0) && (97 <=? c) && (c <=? 122)) then Clears else Nothing).

(** every key under every setting of the modifiers *)
Lemma key_action_ok shift ctrl alt caps ready sc : 0 <= sc < 256 ->
  key_action (kb_of shift ctrl alt caps) ready sc =
  (kb_of (if bool_decide (make_of sc ∈ [SC_LSHIFT; SC_RSHIFT]) then pressed sc else shift)
     (if bool_decide (make_of sc ∈ [SC_LCTRL]) then pressed sc else ctrl)
     (if bool_decide (make_of sc ∈ [SC_LALT]) then pressed sc else alt)
     (xorb caps (bool_decide (sc = SC_CAPSLOCK))), key_asks shift ctrl alt caps ready sc).
Proof.
  intros Hsc. assert (Hin : sc ∈ seqZ 0 256) by (apply elem_of_seqZ; lia). clear Hsc. revert sc Hin. apply Forall_forall.
  destruct shift, ctrl, alt, caps, ready; apply (bool_decide_unpack _); vm_compute; exact I.
Qed.

Definition act_ops (a : key_act) : list console_op :=
  match a with Nothing => [] | Clears => [Clear] | Switches id => [Switch id] end.

Definition letter (k : keyboard) (make : Z) : Z :=
  let c := nth (Z.to_nat make) (if negb (kb_shift k =? 0) then scancode_to_ascii_shifted else scancode_to_ascii) 0 in
  if negb (kb_caps k =? 0) then caps_letter c else c.
Definition clears (k : keyboard) (make : Z) : bool :=
  let c := letter k make in (c =? 99) && negb (negb (kb_ctrl k =? 0) && (97 <=? c) && (c <=? 122)).

Lemma typed_key_ok make s : 0 <= make ->
  typed_key make s = if clears (kb s) make then let! n := fb_clear_screen 0 (con s) in Ok (set_con n s) else Ok s.
Proof.
  intros Hm. unfold typed_key, clears, letter. set (l := if negb (kb_shift (kb s) =? 0) then _ else _).
  assert (Hl : length l = 58%nat) by (unfold l; by destruct (negb _)).
  destruct (Z.leb_spec (Z.of_nat (length scancode_to_ascii)) make) as [Hge | Hlt].
  { change (length scancode_to_ascii) with 58%nat in Hge. rewrite nth_overflow by lia. by destruct (negb (kb_caps _ =? 0)). }
  destruct (Z.eqb_spec (nth (Z.to_nat make) l 0) 0) as [-> | _]; [by destruct (negb (kb_caps _ =? 0)) |].
  set (c := if negb (kb_caps (kb s) =? 0) then _ else _).
  destruct (negb _ && _ && _) eqn:E; cbn [negb]; [by rewrite andb_false_r |]. by rewrite andb_true_r.
Qed.

(** a digit row key clears nothing *)
Lemma digits_clear_nothing k make : 7 <= make <= 11 -> clears k make = false.
Proof.
  intros Hm. unfold clears, letter. assert (Hd : make = 7 \/ make = 8 \/ make = 9 \/ make = 10 \/ make = 11) by lia.
  destruct (negb (kb_shift k =? 0)), (negb (kb_caps k =? 0)); destruct Hd as [-> | [-> | [-> | [-> | ->]]]]; reflexivity.
Qed.

Lemma alt_switch_ok make s :
  let alt := negb (kb_alt (kb s) =? 0) in
  alt_switch make s =
  if alt && (make =? 11) then let! n := switch_tty 0 s in Ok (true, n)
  else if alt && monitor_ready s && (7 <=? make) && (make <=? 10) then let! n := switch_tty (make - 1) s in Ok (true, n)
  else Ok (negb (alt && (7 <=? make) && (make <=? 10)), s).
Proof.
  intros alt. unfold alt_switch, TTY_MONITOR. fold alt. destruct alt; [| done]. cbn [andb].
  destruct (monitor_ready s); cbn [negb andb]; zbool; subst; try done; lia.
Qed.

(** the handler does what the modifiers and the key ask *)
Lemma keyboard_irq_action sc s : 0 <= sc < 256 ->
  keyboard_irq sc s =
  let (k, a) := key_action (kb s) (monitor_ready s) sc in
  let! n := for_loop (act_ops a) console_step (con s) in Ok (set_con n (set_kb k s)).
Proof.
  intros Hsc. unfold keyboard_irq, key_action. change (u8 (Z.lnot SC_BREAK)) with 127. change SC_BREAK with 128.
  unfold SC_LSHIFT, SC_RSHIFT, SC_LCTRL, SC_LALT, SC_CAPSLOCK.
  assert (Hm : 0 <= Z.land sc 127 < 128).
  { change 127 with (Z.ones 7). rewrite Z.land_ones by lia. apply Z.mod_pos_bound. lia. }
  set (make := Z.land sc 127) in *. set (brk := negb (Z.land sc 128 =? 0)). clearbody make brk.
  assert (Hid : forall k, set_con (con s) (set_kb k s) = set_kb k s) by (by destruct s).
  assert (Hid' : set_kb (kb s) s = s) by (by destruct s).
  destruct ((make =? 42) || (make =? 54)); [by rewrite <- Hid |].
  destruct (make =? 29); [by rewrite <- Hid |]. destruct (make =? 56); [by rewrite <- Hid |].
  destruct (make =? 58). { destruct brk; cbn [negb act_ops for_loop res_bind]; [by rewrite Hid, Hid' | by rewrite <- Hid]. }
  destruct brk; [cbn [negb act_ops for_loop res_bind]; by rewrite Hid, Hid' |].
  fold (letter (kb s) make). fold (clears (kb s) make). cbn [negb]. rewrite alt_switch_ok.
  assert (Hcl : forall s', kb s' = kb s -> 7 <= make <= 11 -> typed_key make s' = Ok s').
  { intros s' E Hd. rewrite typed_key_ok, E, digits_clear_nothing by lia. done. }
  destruct (_ && (make =? 11)) eqn:E1; [| destruct (_ && _ && (7 <=? make) && (make <=? 10)) eqn:E2];
    cbn [act_ops for_loop console_step res_bind]; unfold switch_tty.
  - destruct (tty_switch _ 0 (con s)); cbn [res_bind negb]; [| done | done]. rewrite Hcl by (done || lia). by rewrite Hid'.
  - destruct (tty_switch _ _ (con s)); cbn [res_bind negb]; [| done | done]. rewrite Hcl by (done || lia). by rewrite Hid'.
  - destruct (negb (kb_alt (kb s) =? 0) && (7 <=? make) && (make <=? 10)) eqn:E3; cbn [negb].
    + rewrite digits_clear_nothing by lia. cbn. by rewrite Hid, Hid'.
    + rewrite typed_key_ok by lia. rewrite Hid'. destruct (clears (kb s) make); cbn [act_ops for_loop console_step res_bind]; [| by destruct s].
      by destruct (fb_clear_screen 0 (con s)).
Qed.

(** ** A sequence of keys *)

(** the console operations a sequence of scan codes asks for *)
Definition key_ops (ready : bool) (history scs : list Z) : list console_op :=
  concat (imap (fun i sc => act_ops (key_act_after ready (history ++ take i scs) sc)) scs).

Lemma key_ops_cons ready h sc scs : key_ops ready h (sc :: scs) = act_ops (key_act_after ready h sc) ++ key_ops ready (h ++ [sc]) scs.
Proof.
  unfold key_ops. rewrite imap_cons. cbn [concat take]. rewrite app_nil_r. f_equal. f_equal. apply imap_ext. intros i x _.
  cbn [compose]. by rewrite <- app_assoc.
Qed.

Lemma for_loop_app {A S} (l k : list A) (f : A -> S -> res S) s : for_loop (l ++ k) f s = let! s := for_loop l f s in for_loop k f s.
Proof. revert s. induction l as [| a l IH]; intros s; [done |]. cbn. destruct (f a s); [apply IH | done | done]. Qed.

Lemma keyboard_step ready h sc s : 0 <= sc < 256 -> kb s = modifiers h -> monitor_ready s = ready ->
  keyboard_irq sc s =
  let! n := for_loop (act_ops (key_act_after ready h sc)) console_step (con s) in Ok (set_con n (set_kb (modifiers (h ++ [sc])) s)).
Proof.
  intros Hsc Hk <-. rewrite keyboard_irq_action by done. rewrite Hk. unfold modifiers at 1. rewrite key_action_ok by done.
  unfold modifiers, key_act_after. by rewrite !held_snoc, caps_snoc.
Qed.

(** the modifiers and the console after any keys *)
Lemma keyboard_correct scs h s : Forall (fun sc => 0 <= sc < 256) scs -> kb s = modifiers h ->
  for_loop scs keyboard_irq s =
  let! n := for_loop (key_ops (monitor_ready s) h scs) console_step (con s) in Ok (set_con n (set_kb (modifiers (h ++ scs)) s)).
Proof.
  intros HF. revert h s. induction HF as [| sc scs Hsc HF IH]; intros h s Hk.
  { cbn. rewrite app_nil_r, <- Hk. by destruct s. }
  cbn [for_loop]. rewrite (keyboard_step (monitor_ready s) h) by done. rewrite key_ops_cons, for_loop_app.
  destruct (for_loop (act_ops _) _ _) as [n | |]; cbn [res_bind]; [| done | done].
  rewrite (IH (h ++ [sc])) by done. cbn [monitor_ready con set_con set_kb]. rewrite <- app_assoc. done.
Qed.

(** ** Any sequence of interrupts *)

Record interrupt := mk_int { on : Z; vector : Z; inputs : ports }.

(** the interrupted code goes on only when the handler returns *)
Definition serve (i : interrupt) (s : irq_state) : res irq_state :=
  let! (n, s) := idt_handler (on i) (vector i) (inputs i) s in
  match n with Return => Ok s | _ => Fault end.

(** the vectors of devices and of messages between processors *)
Definition external (v : Z) : Prop := 32 <= v <= 47 \/ IPI_VECTOR_RESCHEDULE <= v <= IPI_VECTOR_TLB.

Definition input_ok (i : interrupt) : Prop := 0 <= scancode (inputs i) < 256 /\ external (vector i).

(** the vector is that of [v] and not of the network card, which is looked at first *)
Definition is_for (v : Z) (s : irq_state) (i : interrupt) : bool :=
  (vector i =? v) && negb (g_e1000_irq_vector s =? v).

(** what an interrupt does to the hardware: the acknowledgement comes first *)
Definition served (s : irq_state) (i : interrupt) : list effect :=
  Eoi ::
  (if vector i =? IPI_VECTOR_TLB then Flush_tlb :: ipi_callback_invoke (g_tlb_callbacks s)
   else if vector i =? IPI_VECTOR_SELFTEST then ipi_callback_invoke (g_selftest_callbacks s)
   else if vector i =? 32 then []
   else if (32 <=? vector i) && (vector i <=? 47) && (vector i =? g_e1000_irq_vector s) && negb (g_e1000_irq_handler s =? 0)
   then [Call (g_e1000_irq_handler s)] else []).

Definition keys (s : irq_state) (i : interrupt) : list Z := if is_for 33 s i then [scancode (inputs i)] else [].

(** the characters that arrive on the serial line *)
Definition chars (s : irq_state) (i : interrupt) : list Z :=
  if is_for 36 s i && Z.testbit (lsr (inputs i)) 0 then [rbr (inputs i)] else [].

(** an escape and a digit switch terminals *)
Definition serial_asks (ready : bool) (esc : bool) (ch : Z) : list console_op :=
  if esc && (48 <=? ch) && (ch <=? 57) && (ready || (ch <=? 53)) then [Switch (ch - 48)] else [].

(** what the interrupts ask of the console, from a history of keys and the state
    of the escape sequence *)
Fixpoint asked (s : irq_state) (history : list Z) (esc : bool) (l : list interrupt) : list console_op :=
  match l with
  | [] => []
  | i :: l =>
      match keys s i, chars s i with
      | [sc], _ => act_ops (key_act_after (monitor_ready s) history sc) ++ asked s (history ++ [sc]) esc l
      | _, [ch] => serial_asks (monitor_ready s) esc ch ++ asked s history (negb esc && (ch =? 27)) l
      | _, _ => asked s history esc l
      end
  end.

Definition bsp_tick (i : interrupt) : Z := if (vector i =? 32) && (on i =? 0) then 1 else 0.

(** what interrupts leave alone *)
Definition same_setup (s s' : irq_state) : Prop :=
  monitor_ready s' = monitor_ready s /\ g_e1000_irq_vector s' = g_e1000_irq_vector s /\
  g_e1000_irq_handler s' = g_e1000_irq_handler s /\ g_tlb_callbacks s' = g_tlb_callbacks s /\
  g_selftest_callbacks s' = g_selftest_callbacks s /\ ids s' = ids s.

(** every processor has a context whose thread is there *)
Definition cores_ok (s : irq_state) (c : Z) : Prop :=
  exists ctx, cpus (cores s) !! c = Some ctx /\ is_Some (ids s !! current ctx).

Definition escaped (esc : bool) (s : irq_state) : Prop := serial_esc s = Z.b2z esc.

Section Served.
Context (fb : framebuffer).

(** the invariant, with room for [n] more interrupts *)
Definition good (n : nat) (h : list Z) (esc : bool) (s : irq_state) : Prop :=
  console_inv fb n (con s) /\ kb s = modifiers h /\ escaped esc s.

Lemma console_inv_less n k : console_inv fb (S n) k -> console_inv fb n k.
Proof.
  intros (H1 & H2 & H3 & H4). split; [done |]. split; [done |]. split; [| done]. eapply cursor_ok_le; [| exact H3]. lia.
Qed.

Lemma console_ops_ok n ops k : (length ops <= 1)%nat -> Forall op_ok ops -> console_inv fb (S n) k ->
  exists k', for_loop ops console_step k = Ok k' /\ console_inv fb n k' /\ current_tty_id k' = foldl next_tty (current_tty_id k) ops.
Proof.
  intros Hl HF HI. destruct ops as [| op [|]]; [| | simpl in Hl; lia].
  - exists k. split; [done |]. split; [by apply console_inv_less | done].
  - inversion HF. destruct (console_step_ok fb n op k) as (k' & E & HI' & HC & _); [done | done |].
    exists k'. cbn. rewrite E. cbn. done.
Qed.

Lemma act_ops_ok a : (length (act_ops a) <= 1)%nat /\ Forall op_ok (act_ops a).
Proof. destruct a; simpl; split; try lia; repeat constructor. Qed.

Lemma keyboard_served n h esc sc s : good (S n) h esc s -> 0 <= sc < 256 ->
  exists k, keyboard_irq sc s = Ok (set_con k (set_kb (modifiers (h ++ [sc])) s)) /\ console_inv fb n k /\
    current_tty_id k = foldl next_tty (current_tty_id (con s)) (act_ops (key_act_after (monitor_ready s) h sc)).
Proof.
  intros (HI & Hk & _) Hsc. rewrite (keyboard_step (monitor_ready s) h) by done.
  destruct (act_ops_ok (key_act_after (monitor_ready s) h sc)) as [Hl HF].
  destruct (console_ops_ok n _ (con s) Hl HF HI) as (k & -> & HI' & HC). exists k. done.
Qed.

Lemma send_inv n k l : console_inv fb n k -> console_inv fb n (send l k).
Proof. done. Qed.

Lemma serial_served n h esc ch s : good (S n) h esc s ->
  exists k, serial_input_process ch s = Ok (set_con k (set_esc (Z.b2z (negb esc && (ch =? 27))) s)) /\ console_inv fb n k /\
    current_tty_id k = foldl next_tty (current_tty_id (con s)) (serial_asks (monitor_ready s) esc ch).
Proof.
  intros (HI & _ & He). unfold escaped in He. unfold serial_input_process, serial_asks. rewrite He.
  pose proof (console_inv_less _ _ HI) as HI'.
  destruct esc; cbn [Z.b2z Z.eqb negb andb].
  - destruct ((48 <=? ch) && (ch <=? 57)) eqn:Ed; cbn [andb monitor_ready set_esc].
    2: { exists (con s). split; [by destruct s | done]. }
    destruct ((6 <=? ch - 48) && negb (monitor_ready s)) eqn:Eg.
    { replace (monitor_ready s || (ch <=? 53)) with false by (destruct (monitor_ready s); simpl in *; lia).
      exists (con s). split; [by destruct s | done]. }
    replace (monitor_ready s || (ch <=? 53)) with true by (destruct (monitor_ready s); simpl in *; lia).
    destruct (console_step_ok fb n (Switch (ch - 48)) (con s)) as (k & E & HK & HC & _); [done | done |].
    exists k. unfold switch_tty. cbn [con set_esc console_step] in *. rewrite E. done.
  - assert (Hs : set_esc 0 s = s) by (destruct s; simpl in *; by subst).
    destruct (Z.eqb_spec ch 27) as [-> |]. { exists (con s). split; [by destruct s | done]. }
    destruct ((97 <=? ch) && (ch <=? 122)).
    + exists (send [ch] (con s)). split; [| done]. cbn [Z.b2z]. by rewrite Hs.
    + exists (con s). split; [| done]. cbn [Z.b2z]. rewrite Hs. by destruct s.
Qed.

Lemma timer_served c s : cores_ok s c ->
  exists m total idle, timer_irq c s = Ok (set_ticks total idle (set_cores m s)) /\
    g_ticks m = g_ticks (cores s) + (if c =? 0 then 1 else 0) /\
    (forall c', cores_ok s c' -> cores_ok (set_ticks total idle (set_cores m s)) c').
Proof.
  intros (ctx & Hc & id & Hid). unfold timer_irq, timer_handler.
  set (m1 := if c =? 0 then _ else _).
  assert (Hm1 : cpus m1 = cpus (cores s)) by (unfold m1; by destruct (c =? 0)).
  assert (Ht : g_ticks m1 = g_ticks (cores s) + (if c =? 0 then 1 else 0)) by (unfold m1; destruct (c =? 0); simpl; lia).
  clearbody m1.
  assert (Hex : exists m, (if g_ticks m1 mod (TIMER_HZ / 10) =? 0
                  then let! ctx := get_cpu c m1 in Ok (put_cpu c (with_need_resched true ctx) m1) else Ok m1) = Ok m /\
                g_ticks m = g_ticks m1 /\
                (exists ctx', cpus m !! c = Some ctx' /\ current ctx' = current ctx) /\
                (forall c' x, cpus (cores s) !! c' = Some x -> exists x', cpus m !! c' = Some x' /\ current x' = current x)).
  { unfold get_cpu. rewrite Hm1, Hc. destruct (g_ticks m1 mod (TIMER_HZ / 10) =? 0); cbn [res_bind].
    - eexists. split; [done |]. split; [done |]. cbn [put_cpu cpus]. rewrite Hm1. split; [rewrite lookup_insert_eq; eauto |].
      intros c' x Hx. destruct (decide (c' = c)) as [-> |]; [rewrite lookup_insert_eq | rewrite lookup_insert_ne by done; eauto].
      eexists. split; [done |]. simpl. congruence.
    - exists m1. split; [done |]. split; [done |]. rewrite Hm1. split; eauto. }
  destruct Hex as (m & -> & Hg & (ctx' & Ec & Ecur) & Hall). cbn [res_bind]. unfold get_cpu. rewrite Ec. cbn [res_bind].
  cbn [ids set_cores]. rewrite Ecur, Hid. do 3 eexists. split; [done |]. split; [by rewrite Hg |].
  intros c' (x & Hx & Hi). destruct (Hall _ _ Hx) as (x' & Hx' & Ex). exists x'. split; [exact Hx' |]. simpl. by rewrite Ex.
Qed.

Lemma same_setup_refl s : same_setup s s.
Proof. done. Qed.

Definition served_well (n : nat) (h : list Z) (esc : bool) (i : interrupt) (s s' : irq_state) : Prop :=
  good n (h ++ keys s i) (match keys s i, chars s i with [], [ch] => negb esc && (ch =? 27) | _, _ => esc end) s' /\
  same_setup s s' /\ effects s' = effects s ++ served s i /\ g_ticks (cores s') = g_ticks (cores s) + bsp_tick i /\
  current_tty_id (con s') = foldl next_tty (current_tty_id (con s)) (asked s h esc [i]) /\
  (forall c, cores_ok s c -> cores_ok s' c).

Lemma land_1_bit x : negb (Z.land x 1 =? 0) = Z.testbit x 0.
Proof. change 1 with (Z.ones 1). rewrite Z.land_ones, Z.bit0_odd by lia. change (2 ^ 1) with 2. rewrite Zmod_odd. by destruct (Z.odd x). Qed.

Lemma emit_emit l k s : emit l (emit k s) = emit (k ++ l) s.
Proof. unfold emit. simpl. by rewrite <- app_assoc. Qed.

(** an interrupt that touches neither keys, serial line nor clock *)
Lemma quiet_served n h esc i s e : good (S n) h esc s -> keys s i = [] -> chars s i = [] -> bsp_tick i = 0 -> e = served s i ->
  served_well n h esc i s (emit e s).
Proof.
  intros (HI & Hk & He) E1 E2 E3 ->. unfold served_well. cbn [asked]. rewrite E1, E2, E3, app_nil_r, Z.add_0_r.
  split; [split; [by apply console_inv_less | done] |]. done.
Qed.

Lemma irq_served n h esc i s : good (S n) h esc s -> input_ok i -> cores_ok s (on i) -> 32 <= vector i <= 47 ->
  exists s', irq_handler (on i) (vector i) (inputs i) (emit [Eoi] s) = Ok s' /\ served_well n h esc i s s'.
Proof.
  intros HG (Hsc & _) HC Hv. unfold irq_handler. cbn [g_e1000_irq_vector g_e1000_irq_handler emit].
  assert (Hg : good (S n) h esc (emit [Eoi] s)) by exact HG. pose proof HG as (HI & Hk & He).
  assert (Hnk : vector i =? IPI_VECTOR_TLB = false /\ vector i =? IPI_VECTOR_SELFTEST = false) by (unfold IPI_VECTOR_TLB, IPI_VECTOR_SELFTEST; lia).
  destruct Hnk as [N1 N2].
  destruct (Z.eqb_spec (vector i) 32) as [E32 | N32].
  { destruct (timer_served (on i) (emit [Eoi] s) HC) as (m & t & d & -> & Ht & Hall). eexists. split; [done |].
    assert (K : keys s i = [] /\ chars s i = []) by (unfold keys, chars, is_for; by rewrite E32). destruct K as [K1 K2].
    unfold served_well. cbn [asked]. rewrite K1, K2, app_nil_r.
    split; [split; [by apply console_inv_less | done] |]. split; [done |].
    split. { unfold served. rewrite N1, N2, E32. done. }
    split. { unfold bsp_tick. rewrite E32. exact Ht. } split; [done | exact Hall]. }
  destruct (negb _ && (vector i =? g_e1000_irq_vector s)) eqn:EN.
  { assert (E : vector i = g_e1000_irq_vector s) by lia.
    assert (Q : keys s i = [] /\ chars s i = [] /\ bsp_tick i = 0)
      by (unfold keys, chars, is_for, bsp_tick; rewrite E in *; split_and!; zbool; done || lia).
    destruct Q as (Q1 & Q2 & Q3).
    destruct (negb (g_e1000_irq_handler s =? 0)) eqn:EH; eexists; (split; [reflexivity |]).
    - rewrite emit_emit. apply quiet_served; try done. unfold served. rewrite N1, N2, <- E, EH. zbool; try lia; done.
    - apply quiet_served; try done. unfold served. rewrite N1, N2, <- E, EH. zbool; try lia; done. }
  assert (HS : served s i = [Eoi]).
  { unfold served. rewrite N1, N2. destruct (negb (g_e1000_irq_handler s =? 0)); zbool; subst; try lia; done. }
  assert (HB : bsp_tick i = 0) by (unfold bsp_tick; zbool; done || lia).
  destruct (Z.eqb_spec (vector i) 33) as [E33 | N33].
  { assert (K : keys s i = [scancode (inputs i)]) by (unfold keys, is_for; rewrite E33 in *; zbool; done || lia).
    destruct (keyboard_served n h esc (scancode (inputs i)) _ Hg Hsc) as (k & -> & HK & HT). eexists. split; [done |].
    unfold served_well. cbn [asked]. rewrite K, HS, HB, app_nil_r. cbn [con set_con cores emit set_kb g_ticks]. rewrite Z.add_0_r. done. }
  destruct (Z.eqb_spec (vector i) 36) as [E36 | N36].
  2: { assert (K : keys s i = [] /\ chars s i = []) by (unfold keys, chars, is_for; zbool; done || lia). destruct K.
       eexists. split; [done |]. by apply quiet_served. }
  assert (K1 : keys s i = []) by (unfold keys, is_for; by rewrite E36).
  assert (K2 : chars s i = if negb (Z.land (lsr (inputs i)) 1 =? 0) then [rbr (inputs i)] else []).
  { unfold chars, is_for. rewrite E36 in *. rewrite land_1_bit. zbool; done || lia. }
  destruct (negb (Z.land (lsr (inputs i)) 1 =? 0)).
  2: { eexists. split; [done |]. by apply quiet_served. }
  destruct (serial_served n h esc (rbr (inputs i)) _ Hg) as (k & -> & HK & HT). eexists. split; [done |].
  unfold served_well. cbn [asked]. rewrite K1, K2, HS, HB, !app_nil_r. cbn [con set_con cores emit set_esc g_ticks]. rewrite Z.add_0_r. done.
Qed.

Lemma serve_ok n h esc i s : good (S n) h esc s -> input_ok i -> cores_ok s (on i) ->
  exists s', idt_handler (on i) (vector i) (inputs i) s = Ok (Return, s') /\ served_well n h esc i s s'.
Proof.
  intros HG HI HC. pose proof HI as (_ & Hv). unfold external, IPI_VECTOR_RESCHEDULE, IPI_VECTOR_TLB in Hv.
  unfold idt_handler, IPI_VECTOR_TLB, IPI_VECTOR_SELFTEST, IPI_VECTOR_RESCHEDULE.
  destruct Hv as [Hv | Hv].
  - replace (vector i =? 253) with false by lia. replace (vector i =? 252) with false by lia. replace (vector i =? 251) with false by lia.
    replace (vector i =? 3) with false by lia. replace (vector i <? 32) with false by lia. replace (vector i =? 255) with false by lia.
    replace ((32 <=? vector i) && (vector i <=? 47)) with true by lia.
    destruct (irq_served n h esc i s HG HI HC Hv) as (s' & -> & HW). eexists. done.
  - assert (Q : keys s i = [] /\ chars s i = [] /\ bsp_tick i = 0)
      by (unfold keys, chars, is_for, bsp_tick; split_and!; zbool; done || lia).
    destruct Q as (Q1 & Q2 & Q3).
    destruct (Z.eqb_spec (vector i) 253) as [E |]; [| destruct (Z.eqb_spec (vector i) 252) as [E |]; [| replace (vector i =? 251) with true by lia]];
      (eexists; split; [done |]).
    + apply quiet_served; try done. unfold served. by rewrite E.
    + apply quiet_served; try done. unfold served. by rewrite E.
    + assert (HS : served s i = [Eoi]) by (unfold served, IPI_VECTOR_TLB, IPI_VECTOR_SELFTEST; zbool; done || lia).
      pose proof (quiet_served n h esc i s [Eoi] HG Q1 Q2 Q3 (eq_sym HS)) as HW.
      unfold ipi_reschedule_ack. by destruct (_ && _).
Qed.

Lemma setup_served s s' : same_setup s s' ->
  (forall i, served s' i = served s i) /\ (forall i, keys s' i = keys s i) /\ (forall h esc l, asked s' h esc l = asked s h esc l).
Proof.
  intros (E1 & E2 & E3 & E4 & E5 & _).
  assert (K : forall i, keys s' i = keys s i) by (intros i; unfold keys, is_for; by rewrite E2).
  assert (C : forall i, chars s' i = chars s i) by (intros i; unfold chars, is_for; by rewrite E2).
  split; [intros i; unfold served; by rewrite E2, E3, E4, E5 |]. split; [done |].
  intros h esc l. revert h esc. induction l as [| i l IH]; intros h esc; [done |]. cbn [asked]. rewrite K, C, E1.
  destruct (keys s i) as [| sc [|]], (chars s i) as [| ch [|]]; by rewrite ?IH.
Qed.

(** what the interrupts ask is what the first asks and then the others *)
Lemma asked_cons s h esc i l :
  asked s h esc (i :: l) = asked s h esc [i] ++
    asked s (h ++ keys s i) (match keys s i, chars s i with [], [ch] => negb esc && (ch =? 27) | _, _ => esc end) l.
Proof.
  cbn [asked]. unfold keys, chars. destruct (is_for 33 s i); [by rewrite app_nil_r |].
  destruct (is_for 36 s i && _); rewrite ?app_nil_r; done.
Qed.


End Served.

(** ** Callback tables

    A table is a set of functions: a registered function is called once, and
    registering does nothing when the table is full. *)

Definition registered (table : list Z) : list Z := filter (fun x => x ≠ 0) table.

Lemma callback_slot_some table cb i j : callback_slot table cb i = Some j ->
  exists l k, table = l ++ cb :: k /\ cb ∉ l /\ (j = i + length l)%nat.
Proof.
  revert i. induction table as [| x table IH]; intros i; [done |]. cbn [callback_slot].
  destruct (Z.eqb_spec x cb) as [-> | Hne].
  - intros [= <-]. exists [], table. split; [done |]. split; [apply not_elem_of_nil | simpl; lia].
  - intros (l & k & -> & Hn & ->)%IH. exists (x :: l), k. split; [done |]. split; [| simpl; lia].
    rewrite not_elem_of_cons. done.
Qed.

Lemma callback_slot_none table cb i : callback_slot table cb i = None -> cb ∉ table.
Proof.
  revert i. induction table as [| x table IH]; intros i; [intros _; apply not_elem_of_nil |]. cbn [callback_slot].
  destruct (Z.eqb_spec x cb) as [-> | Hne]; [done |]. intros H%IH. rewrite not_elem_of_cons. done.
Qed.

Lemma callback_invoke table : ipi_callback_invoke table = Call <$> registered table.
Proof.
  unfold ipi_callback_invoke, registered. induction table as [| x table IH]; [done |]. rewrite filter_cons.
  cbn [omap list_omap]. destruct (Z.eqb_spec x 0); case_decide; try done. cbn. by f_equal.
Qed.

Lemma callback_set table cb : cb ≠ 0 -> NoDup (registered table) ->
  let t := ipi_callback_set table cb in
  length t = length table /\ NoDup (registered t) /\
  (if bool_decide (cb ∈ table \/ 0 ∉ table) then t = table else registered t ≡ₚ cb :: registered table).
Proof.
  intros Hcb HN. unfold ipi_callback_set. destruct (Z.eqb_spec cb 0) as [| _]; [done |].
  destruct (callback_slot table cb 0) as [i |] eqn:E.
  { apply callback_slot_some in E as (l & k & -> & _). rewrite bool_decide_true by (left; set_solver). done. }
  apply callback_slot_none in E. destruct (callback_slot table 0 0) as [i |] eqn:E0; cbn zeta.
  2: { apply callback_slot_none in E0. rewrite bool_decide_true by tauto. done. }
  apply callback_slot_some in E0 as (l & k & -> & _ & ->). cbn [Nat.add]. rewrite insert_app_r_alt, Nat.sub_diag by lia. cbn [insert list_insert].
  rewrite !length_app. split; [done |]. rewrite bool_decide_false by set_solver.
  assert (HP : registered (l ++ cb :: k) ≡ₚ cb :: registered (l ++ 0 :: k)).
  { unfold registered. rewrite !filter_app, !filter_cons, decide_True, decide_False by tauto. by rewrite Permutation_middle. }
  split; [| exact HP]. rewrite HP. apply NoDup_cons. split; [| done]. unfold registered. rewrite list_elem_of_filter. tauto.
Qed.

Lemma callback_clear table cb : cb ≠ 0 -> NoDup (registered table) ->
  let t := ipi_callback_clear table cb in
  length t = length table /\ NoDup (registered t) /\ (forall x, x ∈ registered t <-> x ∈ registered table /\ x ≠ cb).
Proof.
  intros Hcb HN. unfold ipi_callback_clear. destruct (Z.eqb_spec cb 0) as [| _]; [done |].
  destruct (callback_slot table cb 0) as [i |] eqn:E; cbn zeta.
  2: { apply callback_slot_none in E. split; [done |]. split; [done |]. intros x. unfold registered. rewrite list_elem_of_filter.
       split; [| tauto]. intros [? ?]. split; [done |]. by intros ->. }
  apply callback_slot_some in E as (l & k & -> & _ & ->). cbn [Nat.add]. rewrite insert_app_r_alt, Nat.sub_diag by lia. cbn [insert list_insert].
  rewrite !length_app. split; [done |].
  assert (HP : registered (l ++ cb :: k) ≡ₚ cb :: registered (l ++ 0 :: k)).
  { unfold registered. rewrite !filter_app, !filter_cons, decide_True, decide_False by tauto. by rewrite Permutation_middle. }
  rewrite HP, NoDup_cons in HN. destruct HN as [Hn HN]. split; [done |].
  intros x. rewrite HP, elem_of_cons. split; [| tauto]. intros Hx. split; [tauto |]. by intros ->.
Qed.

(** two processors that register at once: both have found the first slot free
    before either stores, and one function is lost *)
Example callback_race :
  let table := [0; 0; 0; 0] in
  callback_slot table 0 0 = Some 0%nat /\ registered (<[0%nat := 8]> (<[0%nat := 7]> table)) = [8].
Proof. done. Qed.

(** ** A run: Alt and 0, a message, the timer *)

Definition ex_machine : machine :=
  mk_machine ∅ {[ 0 := mk_cpu 100 100 runqueue_init runqueue_init 0 false 0 0 ]} 9.
Definition ex_state : irq_state :=
  mk_irq (mk_kb 0 0 0 0) 0 false booted ex_machine {[ 100 := 0 ]} ∅ ∅ 45 7000 [11; 0; 12; 0] [0; 0; 0; 0] (replicate 16 0) [].
Definition ex_interrupts : list interrupt :=
  [mk_int 0 33 (mk_ports 56 0 0); mk_int 0 33 (mk_ports 11 0 0); mk_int 0 253 (mk_ports 0 0 0); mk_int 0 32 (mk_ports 0 0 0)].

