(* ===== verification/Segments.v ===== *)
(** * Descriptor tables ([kernel/arch/x86_64/gdt.c], [ist.c], [idt.c])

    The tables the processor reads are kept as it reads them: a GDT is its
    bytes, a gate its fields.  The first part is the code that fills them; the
    second is how the processor uses them: the descriptor of a selector, the
    load of the task register, the gate of a vector, the stack of an
    interrupt and the right to use a port.  Addresses of static objects are
    parameters. *)

From stdpp Require Import base list.
From S2P Require Import Prelude Bytes Alloc.

Definition GDT_SIZE : Z := 10.
Definition USER_CS : Z := 35.
Definition USER_SS : Z := 27.
Definition gdt_entry_size : Z := 8.
Definition tss_entry_size : Z := 104.
Definition MAX_CPUS : Z := 16.
Definition NR_IST_SLOTS : Z := 4.
Definition IST_STACK_SIZE : Z := 2 * 4096.
Definition IST_SLOT_DF : Z := 1.
Definition IST_SLOT_NMI : Z := 2.
Definition IST_SLOT_MCE : Z := 3.

Record tss_entry := mk_tss { rsp0 : Z; rsp1 : Z; rsp2 : Z; ist : list Z; iopb_offset : Z }.
Record idt_entry := mk_gate {
  offset_low : Z; selector : Z; ist_index : Z; type_attr : Z; offset_mid : Z; offset_high : Z; reserved : Z }.

Definition zero_tss : tss_entry := mk_tss 0 0 0 (replicate 7 0) 0.
Definition zero_gate : idt_entry := mk_gate 0 0 0 0 0 0 0.

(** ** Descriptors *)

Definition gdt_set_entry_cpu (gdt : list Z) (n b limit access gran : Z) : res (list Z) :=
  write_bytes gdt (gdt_entry_size * n)
    (enc 2 (Z.land limit 65535) ++ enc 2 (Z.land b 65535) ++
     [Z.land (Z.shiftr b 16) 255; access; Z.lor (Z.land (Z.shiftr limit 16) 15) (Z.land gran 240); Z.land (Z.shiftr b 24) 255]).

Definition gdt_set_tss_ext (gdt : list Z) (n b limit : Z) : res (list Z) :=
  write_bytes gdt (gdt_entry_size * n)
    ([Z.land limit 255; Z.land (Z.shiftr limit 8) 255; Z.land b 255; Z.land (Z.shiftr b 8) 255; Z.land (Z.shiftr b 16) 255;
      0x89; Z.land (Z.shiftr limit 16) 15; Z.land (Z.shiftr b 24) 255] ++
     enc 4 (Z.land (Z.shiftr b 32) 0xFFFFFFFF) ++ replicate 4 0).

(** the segments, the same in both tables *)
Definition set_segments (gdt : list Z) : res (list Z) :=
  let! gdt := gdt_set_entry_cpu gdt 0 0 0 0 0 in
  let! gdt := gdt_set_entry_cpu gdt 1 0 0xFFFFFFFF 0x9A 0xAF in
  let! gdt := gdt_set_entry_cpu gdt 2 0 0xFFFFFFFF 0x92 0xAF in
  let! gdt := gdt_set_entry_cpu gdt 3 0 0xFFFFFFFF 0xF2 0xCF in
  gdt_set_entry_cpu gdt 4 0 0xFFFFFFFF 0xFA 0xAF.

(** ** How the processor reads them *)

Record segment := mk_segment {
  s_base : Z; s_limit : Z; s_type : Z; s_system : bool; s_dpl : Z; s_present : bool; s_long : bool; s_big : bool }.

Definition byte (l : list Z) (i : Z) : Z := nth (Z.to_nat i) l 0.

(** the descriptor in the eight bytes at [i] *)
Definition segment_at (l : list Z) (i : Z) : segment :=
  let raw := byte l i + 256 * byte l (i + 1) + 65536 * (byte l (i + 6) mod 16) in
  let flags := byte l (i + 6) in
  let access := byte l (i + 5) in
  mk_segment (byte l (i + 2) + 256 * byte l (i + 3) + 65536 * byte l (i + 4) + 16777216 * byte l (i + 7))
    (if Z.testbit flags 7 then 4096 * raw + 4095 else raw)
    (access mod 16) (negb (Z.testbit access 4)) (Z.land (Z.shiftr access 5) 3) (Z.testbit access 7)
    (Z.testbit flags 5) (Z.testbit flags 6).

(** the segment a selector names in a table of which [limit] bytes, less one,
    count *)
Definition select (l : list Z) (limit sel : Z) : option segment :=
  let i := 8 * (sel / 8) in
  if (limit <? i + 7) || Z.testbit sel 2 then None else Some (segment_at l i).

Definition is_code64 (dpl : Z) (s : segment) : bool :=
  s_present s && negb (s_system s) && Z.testbit (s_type s) 3 && s_long s && negb (s_big s) && (s_dpl s =? dpl).
Definition is_data (dpl : Z) (s : segment) : bool :=
  s_present s && negb (s_system s) && negb (Z.testbit (s_type s) 3) && Z.testbit (s_type s) 1 && (s_dpl s =? dpl).

(** the 64-bit task descriptor a selector names *)
Definition task_base (l : list Z) (i : Z) : Z :=
  s_base (segment_at l i) +
  4294967296 * (byte l (i + 8) + 256 * byte l (i + 9) + 65536 * byte l (i + 10) + 16777216 * byte l (i + 11)).

(** ** State *)

(** the registers of a processor that the tables are loaded into *)
Record core := mk_core { gdtr_base : Z; gdtr_limit : Z; tr_base : Z; tr_limit : Z; idtr : bool }.

Record segments (A : Type) := mk_seg {
  heap : A;
  tables : gmap Z (list Z);            (** the GDTs in memory, by address *)
  per_cpu_gdt : Z;                     (** 0 is NULL *)
  per_cpu_gdt_ptr : gmap Z (Z * Z);    (** base and limit; a slot not yet written is missing *)
  per_cpu_tss : list tss_entry;
  idt : list idt_entry;
  loaded : gmap Z core }.
Arguments mk_seg {A}.
Arguments heap {A}.
Arguments tables {A}.
Arguments per_cpu_gdt {A}.
Arguments per_cpu_gdt_ptr {A}.
Arguments per_cpu_tss {A}.
Arguments idt {A}.
Arguments loaded {A}.

Section Tables.
Context {A : Type} `{Allocator A}.
(** the addresses of the static objects and of the entry points *)
Context (g_bsp_gdt tss_address ist_stacks : Z) (isr_stub_table : list Z).
Context (ipi_tlb_entry ipi_selftest_entry ipi_reschedule_entry : Z).

Definition set_tables (t : gmap Z (list Z)) (s : segments A) : segments A :=
  mk_seg (heap s) t (per_cpu_gdt s) (per_cpu_gdt_ptr s) (per_cpu_tss s) (idt s) (loaded s).
Definition set_tss (t : list tss_entry) (s : segments A) : segments A :=
  mk_seg (heap s) (tables s) (per_cpu_gdt s) (per_cpu_gdt_ptr s) t (idt s) (loaded s).
Definition set_idt (t : list idt_entry) (s : segments A) : segments A :=
  mk_seg (heap s) (tables s) (per_cpu_gdt s) (per_cpu_gdt_ptr s) (per_cpu_tss s) t (loaded s).
Definition set_core (c : Z) (k : core) (s : segments A) : segments A :=
  mk_seg (heap s) (tables s) (per_cpu_gdt s) (per_cpu_gdt_ptr s) (per_cpu_tss s) (idt s) (<[c := k]> (loaded s)).

Definition core_of (c : Z) (s : segments A) : core := default (mk_core 0 0 0 0 false) (loaded s !! c).

(** ** Loading, on processor [c] *)

(** [gdt_reload]: the data selector 0x10 and the code selector 0x08 must be
    usable in the new table *)
Definition gdt_reload (c b limit : Z) (s : segments A) : res (segments A) :=
  match tables s !! b with
  | None => Fault
  | Some l =>
      match select l limit 0x10, select l limit 0x08 with
      | Some d, Some t =>
          if is_data 0 d && is_code64 0 t then
            let k := core_of c s in Ok (set_core c (mk_core b limit (tr_base k) (tr_limit k) (idtr k)) s)
          else Fault
      | _, _ => Fault
      end
  end.

(** [tss_load]: the descriptor must be an available task; it becomes busy *)
Definition tss_load (c : Z) (s : segments A) : res (segments A) :=
  let k := core_of c s in
  match tables s !! gdtr_base k with
  | None => Fault
  | Some l =>
      let i := 0x28 in
      let d := segment_at l i in
      if (gdtr_limit k <? i + 15) || negb (s_present d && s_system d && (s_type d =? 9)) then Fault
      else
        let l' := <[Z.to_nat (i + 5) := Z.lor (byte l (i + 5)) 2]> l in
        Ok (set_core c (mk_core (gdtr_base k) (gdtr_limit k) (task_base l i) (s_limit d) (idtr k))
              (set_tables (<[gdtr_base k := l']> (tables s)) s))
  end.

(** ** Interrupt stacks *)

Definition ist_stack_top (cpu_id slot : Z) : Z :=
  if (cpu_id <? 0) || (MAX_CPUS <=? cpu_id) then 0
  else if (slot <? 0) || (NR_IST_SLOTS <=? slot) then 0
  else ist_stacks + (cpu_id * NR_IST_SLOTS + slot) * IST_STACK_SIZE + IST_STACK_SIZE.

Definition ist_init_cpu (cpu_id : Z) (s : segments A) : segments A :=
  if (cpu_id <? 0) || (MAX_CPUS <=? cpu_id) then s
  else
    match per_cpu_tss s !! Z.to_nat cpu_id with
    | None => s
    | Some t =>
        let l := <[0%nat := 0]> (ist t) in
        let l := <[Z.to_nat (IST_SLOT_DF - 1) := ist_stack_top cpu_id IST_SLOT_DF]> l in
        let l := <[Z.to_nat (IST_SLOT_NMI - 1) := ist_stack_top cpu_id IST_SLOT_NMI]> l in
        let l := <[Z.to_nat (IST_SLOT_MCE - 1) := ist_stack_top cpu_id IST_SLOT_MCE]> l in
        let l := <[6%nat := 0]> (<[5%nat := 0]> (<[4%nat := 0]> (<[3%nat := 0]> l))) in
        set_tss (<[Z.to_nat cpu_id := mk_tss (rsp0 t) (rsp1 t) (rsp2 t) l (iopb_offset t)]> (per_cpu_tss s)) s
    end.

(** ** Tables of the processors *)

Definition tss_at (cpu_id : Z) : Z := tss_address + cpu_id * tss_entry_size.
Definition GDT_LIMIT : Z := gdt_entry_size * 7 - 1.

(** on processor [c] *)
Definition gdt_init_cpu (c cpu_id kernel_stack : Z) (s : segments A) : res (segments A) :=
  if (cpu_id <? 0) || (MAX_CPUS <=? cpu_id) then Fault
  else
    let! gdt := set_segments (replicate (Z.to_nat (gdt_entry_size * GDT_SIZE)) 0) in
    let s := set_tss (<[Z.to_nat cpu_id := mk_tss kernel_stack 0 0 (replicate 7 0) tss_entry_size]> (per_cpu_tss s)) s in
    let s := ist_init_cpu cpu_id s in
    let! gdt := gdt_set_tss_ext gdt 5 (tss_at cpu_id) (tss_entry_size - 1) in
    let! s := gdt_reload c g_bsp_gdt GDT_LIMIT (set_tables (<[g_bsp_gdt := gdt]> (tables s)) s) in
    tss_load c s.

(** the loop that allocates the table of each processor *)
Fixpoint alloc_tables (n : nat) (cpu : Z) (s : segments A) : res (segments A) :=
  match n with
  | O => Ok s
  | S n =>
      let! (p, a) := kmalloc (gdt_entry_size * GDT_SIZE) (heap s) in
      if p =? 0 then Panic
      else
        let! gdt := set_segments (replicate (Z.to_nat (gdt_entry_size * GDT_SIZE)) 0) in
        let! gdt := gdt_set_tss_ext gdt 5 (tss_at cpu) (tss_entry_size - 1) in
        alloc_tables n (cpu + 1)
          (mk_seg a (<[p := gdt]> (tables s)) (per_cpu_gdt s) (<[cpu := (p, GDT_LIMIT)]> (per_cpu_gdt_ptr s))
             (per_cpu_tss s) (idt s) (loaded s))
  end.

(** on processor [c], whose APIC identifier is [apic_id] *)
Definition gdt_init_dynamic (c apic_id n : Z) (s : segments A) : res (segments A) :=
  let! s :=
    (if per_cpu_gdt s =? 0 then
       let n := if MAX_CPUS <? n then MAX_CPUS else n in
       let! (g, a) := kmalloc (8 * MAX_CPUS) (heap s) in
       let! (q, a) := kmalloc (10 * MAX_CPUS) a in
       if (g =? 0) || (q =? 0) then Panic
       else alloc_tables (Z.to_nat n) 0 (mk_seg a (tables s) g ∅ (per_cpu_tss s) (idt s) (loaded s))
     else Ok s) in
  match per_cpu_gdt_ptr s !! apic_id with
  | None => Fault
  | Some (b, limit) =>
      let! s := gdt_reload c b limit s in
      tss_load c s
  end.

Definition tss_set_rsp0 (cpu_id v : Z) (s : segments A) : segments A :=
  if cpu_id <? MAX_CPUS then
    set_tss (alter (fun t => mk_tss v (rsp1 t) (rsp2 t) (ist t) (iopb_offset t)) (Z.to_nat cpu_id) (per_cpu_tss s)) s
  else s.

Definition get_per_cpu_tss_rsp0 (cpu : Z) (s : segments A) : res Z :=
  match per_cpu_tss s !! Z.to_nat cpu with Some t => Ok (rsp0 t) | None => Fault end.

(** ** Gates *)

Definition idt_set_gate_ist (num b sel flags ist_slot : Z) (l : list idt_entry) : list idt_entry :=
  <[Z.to_nat (u8 num) :=
      mk_gate (u16 (Z.land b 65535)) sel ist_slot flags (u16 (Z.land (Z.shiftr b 16) 65535)) (u32 (Z.land (Z.shiftr b 32) 0xFFFFFFFF)) 0]> l.

Definition idt_set_gate (num b sel flags : Z) (l : list idt_entry) : list idt_entry :=
  idt_set_gate_ist num b sel flags 0 l.

Definition stub (i : Z) : Z := nth (Z.to_nat i) isr_stub_table 0.

Fixpoint install_stubs (n : nat) (i : Z) (l : list idt_entry) : list idt_entry :=
  match n with
  | O => l
  | S n => install_stubs n (i + 1) (idt_set_gate i (stub i) 0x08 0x8E l)
  end.

Definition idt_register_ipis (l : list idt_entry) : list idt_entry :=
  let l := idt_set_gate 253 ipi_tlb_entry 0x08 0x8E l in
  let l := idt_set_gate 252 ipi_selftest_entry 0x08 0x8E l in
  idt_set_gate 251 ipi_reschedule_entry 0x08 0x8E l.

Definition load_idt (c : Z) (s : segments A) : segments A :=
  let k := core_of c s in set_core c (mk_core (gdtr_base k) (gdtr_limit k) (tr_base k) (tr_limit k) true) s.

Definition idt_init (c : Z) (s : segments A) : segments A :=
  let l := install_stubs 48 0 (idt s) in
  let l := idt_set_gate_ist 2 (stub 2) 0x08 0x8E IST_SLOT_NMI l in
  let l := idt_set_gate_ist 8 (stub 8) 0x08 0x8E IST_SLOT_DF l in
  let l := idt_set_gate_ist 18 (stub 18) 0x08 0x8E IST_SLOT_MCE l in
  let s := load_idt c (set_idt l s) in
  set_idt (idt_register_ipis (idt s)) s.

Definition idt_ap_init (c : Z) (s : segments A) : segments A := load_idt c s.

(** ** How the processor uses them *)

(** the entry point of a vector and its stack index; [None] is a fault *)
Definition gate_of (v : Z) (s : segments A) : option (Z * Z) :=
  match idt s !! Z.to_nat v with
  | Some g =>
      if Z.testbit (type_attr g) 7 && (type_attr g mod 32 =? 14) then
        Some (offset_low g + 65536 * offset_mid g + 4294967296 * offset_high g, ist_index g)
      else None
  | None => None
  end.

(** the task of processor [c]: the register holds the address of one *)
Definition task_of (c : Z) (s : segments A) : option tss_entry :=
  let d := tr_base (core_of c s) - tss_address in
  if (0 <=? d) && (d mod tss_entry_size =? 0) then per_cpu_tss s !! Z.to_nat (d / tss_entry_size) else None.

(** the stack pointer with which vector [v] starts pushing on processor [c] *)
Definition stack_for (c v : Z) (user : bool) (rsp : Z) (s : segments A) : option Z :=
  match gate_of v s, task_of c s with
  | Some (_, i), Some t =>
      if negb (i =? 0) then ist t !! Z.to_nat (i - 1)
      else Some (if user then rsp0 t else rsp)
  | _, _ => None
  end.

Definition tss_bytes (t : tss_entry) : list Z :=
  enc 4 0 ++ enc 8 (rsp0 t) ++ enc 8 (rsp1 t) ++ enc 8 (rsp2 t) ++ enc 8 0 ++ concat (enc 8 <$> ist t) ++ enc 8 0 ++
  enc 2 0 ++ enc 2 (iopb_offset t).

(** a byte access to a port from user mode: the two bytes of the permission map
    that are read must be inside the task segment, and the bit clear *)
Definition port_allowed (c port : Z) (s : segments A) : bool :=
  match task_of c s with
  | None => false
  | Some t =>
      let i := iopb_offset t + port / 8 in
      (i + 1 <=? tr_limit (core_of c s)) && negb (Z.testbit (byte (tss_bytes t) i) (port mod 8))
  end.

(** ** The order of the boot *)

(** the first processor, with [n] processors in all *)
Definition boot_bsp (kernel_stack stack_top n : Z) (s : segments A) : res (segments A) :=
  let! s := gdt_init_cpu 0 0 kernel_stack s in
  let! s := gdt_init_dynamic 0 0 n (idt_init 0 s) in
  Ok (tss_set_rsp0 0 stack_top s).

(** another one *)
Definition boot_ap (c apic_id stack_top : Z) (s : segments A) : res (segments A) :=
  let! s := gdt_init_dynamic c apic_id c s in
  Ok (tss_set_rsp0 c stack_top (idt_ap_init c s)).

End Tables.
