(* ===== verification/SegmentsSpec.v ===== *)
(** * What the descriptor tables give each processor

    After the boot every processor runs on a table of its own, in which the
    selectors of the kernel name the segments they should, its task register
    holds its own task, and each vector leads to its entry point.  The stacks
    of fatal exceptions and the protection of ports are those of the first
    processor only. *)

From stdpp Require Import base list.
From S2P Require Import Prelude Bytes Alloc Console Segments.

(** ** One table *)

Definition seg_bytes : list Z :=
  [0; 0; 0; 0; 0; 0; 0; 0;  255; 255; 0; 0; 0; 154; 175; 0;  255; 255; 0; 0; 0; 146; 175; 0;
   255; 255; 0; 0; 0; 242; 207; 0;  255; 255; 0; 0; 0; 250; 175; 0].

(** the table whose task is at [b], its descriptor available or busy *)
Definition table_for (b access : Z) : list Z :=
  seg_bytes ++
  [103; 0; Z.land b 255; Z.land (Z.shiftr b 8) 255; Z.land (Z.shiftr b 16) 255; access; 0; Z.land (Z.shiftr b 24) 255] ++
  enc 4 (Z.land (Z.shiftr b 32) 0xFFFFFFFF) ++ replicate 28 0.

Lemma segments_filled : set_segments (replicate 80 0) = Ok (seg_bytes ++ replicate 40 0).
Proof. vm_compute. reflexivity. Qed.

Lemma task_filled b : gdt_set_tss_ext (seg_bytes ++ replicate 40 0) 5 b (tss_entry_size - 1) = Ok (table_for b 0x89).
Proof. reflexivity. Qed.

Lemma task_base_ok b access : is_u64 b -> task_base (table_for b access) 0x28 = b.
Proof.
  intros Hb. unfold task_base, segment_at. cbn [s_base].
  change (byte (table_for b access) (40 + 2)) with (Z.land b 255).
  change (byte (table_for b access) (40 + 3)) with (Z.land (Z.shiftr b 8) 255).
  change (byte (table_for b access) (40 + 4)) with (Z.land (Z.shiftr b 16) 255).
  change (byte (table_for b access) (40 + 7)) with (Z.land (Z.shiftr b 24) 255).
  set (h := Z.land (Z.shiftr b 32) 0xFFFFFFFF).
  change (byte (table_for b access) (40 + 8)) with (h mod 256).
  change (byte (table_for b access) (40 + 9)) with (h / 256 mod 256).
  change (byte (table_for b access) (40 + 10)) with (h / 256 / 256 mod 256).
  change (byte (table_for b access) (40 + 11)) with (h / 256 / 256 / 256 mod 256).
  unfold h. change 255 with (Z.ones 8). change 0xFFFFFFFF with (Z.ones 32).
  rewrite !Z.land_ones, !Z.shiftr_div_pow2 by lia. unfold is_u64 in Hb.
  change (2 ^ 8) with 256. change (2 ^ 16) with 65536. change (2 ^ 24) with 16777216. change (2 ^ 32) with 4294967296.
  zlia.
Qed.

(** the selectors of the kernel *)
Lemma selectors_ok b access :
  let named sel := select (table_for b access) GDT_LIMIT sel in
  let flat t dpl long big := mk_segment 0 0xFFFFFFFF t false dpl true long big in
  named 0x08 = Some (flat 10 0 true false) /\ named 0x10 = Some (flat 2 0 true false) /\
  named USER_SS = Some (flat 2 3 false true) /\ named USER_CS = Some (flat 10 3 true false).
Proof. split_and!; reflexivity. Qed.

Lemma busy_table b : <[45%nat := Z.lor (byte (table_for b 0x89) 45) 2]> (table_for b 0x89) = table_for b 0x8B.
Proof. reflexivity. Qed.

Section Boot.
Context {A : Type} `{Allocator A}.
Context (g_bsp_gdt tss_address ist_stacks : Z) (isr_stub_table : list Z).
Context (ipi_tlb_entry ipi_selftest_entry ipi_reschedule_entry : Z).
Context (Htss : 0 <= tss_address /\ tss_address + MAX_CPUS * tss_entry_size <= 2 ^ 64).

Abbreviation seg := (segments A).
Abbreviation own_task c := (tss_at tss_address c).

Lemma task_u64 c : 0 <= c < 16 -> is_u64 (own_task c).
Proof. unfold tss_at, MAX_CPUS, tss_entry_size, is_u64 in *. lia. Qed.

Definition access_of (booted : list Z) (c : Z) : Z := if bool_decide (c ∈ booted) then 0x8B else 0x89.

(** the allocated tables of the first [n] processors, of which [booted] have
    loaded theirs; the blocks [L] are allocated *)
Record tables_ok (s : seg) (L : list (Z * Z)) (n : Z) (booted : list Z) : Prop := {
  to_live : live (heap s) L;
  to_pos : Forall (fun x => 0 < x.2) L;
  to_table : forall c, 0 <= c < n -> exists p, per_cpu_gdt_ptr s !! c = Some (p, GDT_LIMIT) /\ (p, 80) ∈ L /\
    tables s !! p = Some (table_for (own_task c) (access_of booted c));
  to_inj : forall c c' x, 0 <= c < n -> 0 <= c' < n -> per_cpu_gdt_ptr s !! c = Some x -> per_cpu_gdt_ptr s !! c' = Some x -> c = c' }.

Lemma alloc_tables_ok m n s L : 0 <= n -> n + Z.of_nat m <= 16 -> tables_ok s L n [] ->
  alloc_tables tss_address m n s = Panic \/
  exists s' L', alloc_tables tss_address m n s = Ok s' /\ tables_ok s' L' (n + Z.of_nat m) [] /\
    per_cpu_gdt s' = per_cpu_gdt s /\ per_cpu_tss s' = per_cpu_tss s /\ idt s' = idt s /\ loaded s' = loaded s.
Proof.
  revert n s L. induction m as [| m IH]; intros n s L Hn Hm HT.
  { right. exists s, L. rewrite Z.add_0_r. done. }
  cbn [alloc_tables]. destruct (kmalloc_live (heap s) L (gdt_entry_size * GDT_SIZE) (to_live _ _ _ _ HT)) as (p & a & -> & Hp).
  { unfold gdt_entry_size, GDT_SIZE. lia. }
  cbn [res_bind]. destruct (Z.eqb_spec p 0) as [| Hp0]; [by left |]. destruct Hp as [[? _] | [Hp Hl]]; [done |].
  change (replicate _ 0) with (replicate 80 0). rewrite segments_filled. cbn [res_bind]. rewrite task_filled. cbn [res_bind].
  assert (HP : Forall (fun x : Z * Z => 0 < x.2) ((p, 80) :: L)) by (constructor; [done | exact (to_pos _ _ _ _ HT)]).
  pose proof (live_nodup _ _ Hl HP) as HN. cbn in HN. apply NoDup_cons in HN as [Hfresh _].
  set (s1 := mk_seg a _ _ _ _ _ _).
  assert (HT1 : tables_ok s1 ((p, 80) :: L) (n + 1) []).
  { split; [done | done | |].
    - intros c Hc. cbn [per_cpu_gdt_ptr tables s1]. destruct (decide (c = n)) as [-> | Hne].
      + exists p. rewrite !lookup_insert_eq. split; [done |]. split; [left | done].
      + destruct (to_table _ _ _ _ HT c) as (q & E1 & Hq & E2); [lia |]. exists q.
        rewrite lookup_insert_ne by done. split; [done |]. split; [by right |]. rewrite lookup_insert_ne; [done |].
        intros ->. destruct Hfresh. apply list_elem_of_fmap. exists (q, 80). done.
    - cbn [per_cpu_gdt_ptr s1]. intros c c' x Hc Hc' E1 E2.
      assert (Hno : forall d, 0 <= d < n -> per_cpu_gdt_ptr s !! d ≠ Some (p, GDT_LIMIT)).
      { intros d Hd E. destruct (to_table _ _ _ _ HT d Hd) as (q & E3 & Hq & _). rewrite E in E3. simplify_eq.
        destruct Hfresh. apply list_elem_of_fmap. exists (q, 80). done. }
      destruct (decide (c = n)) as [-> |], (decide (c' = n)) as [-> |]; try done.
      + rewrite lookup_insert_eq in E1. rewrite lookup_insert_ne in E2 by done. simplify_eq. destruct (Hno c'); [lia | done].
      + rewrite lookup_insert_eq in E2. rewrite lookup_insert_ne in E1 by done. simplify_eq. destruct (Hno c); [lia | done].
      + rewrite lookup_insert_ne in E1, E2 by done. eapply (to_inj _ _ _ _ HT); [lia | lia | exact E1 | exact E2]. }
  destruct (IH (n + 1) s1 _ ltac:(lia) ltac:(lia) HT1) as [-> | (s' & L' & -> & HT' & Hr)]; [by left |].
  right. exists s', L'. split; [done |]. split; [| done]. by replace (n + Z.of_nat (S m)) with (n + 1 + Z.of_nat m) by lia.
Qed.

(** ** Loading the tables *)

Lemma load_table_ok c d p (s : seg) : 0 <= d < 16 -> tables s !! p = Some (table_for (own_task d) 0x89) ->
  (let! s := gdt_reload c p GDT_LIMIT s in tss_load c s) =
  Ok (set_core c (mk_core p GDT_LIMIT (own_task d) 103 (idtr (core_of c s))) (set_tables (<[p := table_for (own_task d) 0x8B]> (tables s)) s)).
Proof.
  intros Hd Ht. unfold gdt_reload. rewrite Ht. destruct (selectors_ok (own_task d) 0x89) as (-> & -> & _).
  change (is_data 0 _ && _) with true. cbn iota zeta. set (k := mk_core _ _ _ _ _). cbn [res_bind].
  assert (Hk : core_of c (set_core c k s) = k) by (unfold core_of; cbn [loaded set_core]; by rewrite lookup_insert_eq).
  unfold tss_load. rewrite Hk. cbn [gdtr_base k tables set_core]. rewrite Ht. cbn [gdtr_limit].
  change ((GDT_LIMIT <? 40 + 15) || _) with false. cbn iota zeta. f_equal. rewrite task_base_ok by (by apply task_u64).
  unfold set_core, set_tables. cbn [loaded tables heap per_cpu_gdt per_cpu_gdt_ptr per_cpu_tss idt]. rewrite insert_insert_eq. reflexivity.
Qed.

(** ** Gates *)

Context (Hstubs : length isr_stub_table = 48%nat /\ Forall is_u64 isr_stub_table).
Context (Hipis : is_u64 ipi_tlb_entry /\ is_u64 ipi_selftest_entry /\ is_u64 ipi_reschedule_entry).

Abbreviation entry v := (stub isr_stub_table v).

(** where a vector leads, with its stack index *)
Definition gate_wanted (v : Z) : option (Z * Z) :=
  if v <? 48 then Some (entry v, if v =? 2 then 2 else if v =? 8 then 1 else if v =? 18 then 3 else 0)
  else if v =? 251 then Some (ipi_reschedule_entry, 0)
  else if v =? 252 then Some (ipi_selftest_entry, 0)
  else if v =? 253 then Some (ipi_tlb_entry, 0)
  else None.

Definition gates_are (l : list idt_entry) (f : Z -> option (Z * Z)) : Prop :=
  length l = 256%nat /\ forall (s : seg) v, 0 <= v < 256 -> gate_of v (set_idt l s) = f v.

Lemma split_address b : is_u64 b ->
  u16 (Z.land b 65535) + 65536 * u16 (Z.land (Z.shiftr b 16) 65535) + 4294967296 * u32 (Z.land (Z.shiftr b 32) 0xFFFFFFFF) = b.
Proof.
  intros Hb. unfold is_u64 in Hb. change 65535 with (Z.ones 16). change 0xFFFFFFFF with (Z.ones 32).
  rewrite !Z.land_ones, !Z.shiftr_div_pow2 by lia. unfold u16, u32. change (2 ^ 16) with 65536. change (2 ^ 32) with 4294967296. zlia.
Qed.

Lemma gate_set l f num b i : gates_are l f -> 0 <= num < 256 -> is_u64 b ->
  gates_are (idt_set_gate_ist num b 0x08 0x8E i l) (fun v => if v =? num then Some (b, i) else f v).
Proof.
  intros [Hl Hf] Hn Hb. unfold idt_set_gate_ist. split; [by rewrite length_insert |]. intros s v Hv.
  unfold gate_of. cbn [idt set_idt]. unfold u8. rewrite Z.mod_small by lia.
  destruct (Z.eqb_spec v num) as [-> | Hne].
  - rewrite list_lookup_insert_eq by lia. cbn. by rewrite split_address.
  - rewrite list_lookup_insert_ne by lia. exact (Hf s v Hv).
Qed.

Lemma stub_u64 v : 0 <= v < 48 -> is_u64 (entry v).
Proof.
  intros Hv. destruct Hstubs as [Hl HF]. unfold stub. rewrite Forall_nth in HF. apply HF. lia.
Qed.

Lemma gates_ext l f g : gates_are l f -> (forall v, 0 <= v < 256 -> f v = g v) -> gates_are l g.
Proof. intros [Hl Hf] E. split; [done |]. intros s v Hv. rewrite Hf by done. by apply E. Qed.

Lemma stubs_installed n i l f : gates_are l f -> 0 <= i -> i + Z.of_nat n <= 48 ->
  gates_are (install_stubs isr_stub_table n i l) (fun v => if (i <=? v) && (v <? i + Z.of_nat n) then Some (entry v, 0) else f v).
Proof.
  revert i l f. induction n as [| n IH]; intros i l f Hg Hi Hn; cbn [install_stubs].
  { eapply gates_ext; [exact Hg |]. intros v Hv. zbool; cbn [andb]; done || lia. }
  eapply gates_ext; [apply (IH (i + 1)); [apply (gate_set l f i (entry i) 0 Hg); [lia | apply stub_u64; lia] | lia | lia] |].
  intros v Hv. cbn beta. destruct (Z.eqb_spec v i) as [-> |]; zbool; cbn [andb]; try done; lia.
Qed.

Definition final_idt : list idt_entry :=
  idt (idt_init isr_stub_table ipi_tlb_entry ipi_selftest_entry ipi_reschedule_entry 0
    (mk_seg tt ∅ 0 ∅ [] (replicate 256 zero_gate) ∅)).

Lemma final_gates : gates_are final_idt gate_wanted.
Proof.
  assert (H0 : gates_are (replicate 256 zero_gate) (fun _ => None)).
  { split; [done |]. intros s v Hv. unfold gate_of. cbn [idt set_idt]. rewrite lookup_replicate_2 by lia. done. }
  pose proof (stubs_installed 48 0 _ _ H0 ltac:(lia) ltac:(lia)) as H1.
  destruct Hipis as (U1 & U2 & U3).
  pose proof (gate_set _ _ 2 (entry 2) 2 H1 ltac:(lia) (stub_u64 2 ltac:(lia))) as H2.
  pose proof (gate_set _ _ 8 (entry 8) 1 H2 ltac:(lia) (stub_u64 8 ltac:(lia))) as H3.
  pose proof (gate_set _ _ 18 (entry 18) 3 H3 ltac:(lia) (stub_u64 18 ltac:(lia))) as H4.
  pose proof (gate_set _ _ 253 _ 0 H4 ltac:(lia) U1) as H5.
  pose proof (gate_set _ _ 252 _ 0 H5 ltac:(lia) U2) as H6.
  pose proof (gate_set _ _ 251 _ 0 H6 ltac:(lia) U3) as H7.
  eapply gates_ext; [exact H7 |]. intros v Hv. cbn beta. unfold gate_wanted.
  zbool; subst; cbn [andb]; try done; lia.
Qed.

(** ** The boot *)

Context (tops : Z -> Z).

(** the task of processor [c] once [booted] have run *)
Definition task_wanted (booted : list Z) (c : Z) : tss_entry :=
  if c =? 0 then
    mk_tss (tops 0) 0 0 [ist_stack_top ist_stacks 0 1; ist_stack_top ist_stacks 0 2; ist_stack_top ist_stacks 0 3; 0; 0; 0; 0] tss_entry_size
  else mk_tss (if bool_decide (c ∈ booted) then tops c else 0) 0 0 (replicate 7 0) 0.

Record booted_ok (s : seg) (L : list (Z * Z)) (n : Z) (booted : list Z) : Prop := {
  bo_tables : tables_ok s L n booted;
  bo_ptr : per_cpu_gdt s ≠ 0;
  bo_tss : per_cpu_tss s = task_wanted booted <$> seqZ 0 16;
  bo_idt : idt s = final_idt;
  bo_core : forall c, c ∈ booted -> 0 <= c < n /\ exists p, per_cpu_gdt_ptr s !! c = Some (p, GDT_LIMIT) /\
    loaded s !! c = Some (mk_core p GDT_LIMIT (own_task c) 103 true) }.

Lemma tasks_alter booted c : 0 < c < 16 ->
  alter (fun t => mk_tss (tops c) (rsp1 t) (rsp2 t) (ist t) (iopb_offset t)) (Z.to_nat c) (task_wanted booted <$> seqZ 0 16) =
  task_wanted (c :: booted) <$> seqZ 0 16.
Proof.
  intros Hc. apply list_eq. intros i.
  destruct (decide (i = Z.to_nat c)) as [-> | Hne].
  - rewrite list_lookup_alter_eq, !list_lookup_fmap, lookup_seqZ_lt by lia. cbn. unfold task_wanted.
    rewrite Z.add_0_l, Z2Nat.id by lia. destruct (Z.eqb_spec c 0); [lia |]. rewrite (bool_decide_true (c ∈ c :: _)) by left. done.
  - rewrite list_lookup_alter_ne, !list_lookup_fmap by done. destruct (seqZ 0 16 !! i) as [x |] eqn:E; [| done].
    apply lookup_seqZ in E as [-> Hi]. cbn. unfold task_wanted. destruct (_ =? 0); [done |]. do 2 f_equal.
    case_bool_decide as B1; case_bool_decide as B2; try done; rewrite elem_of_cons in B2; [tauto |]. destruct B2; [lia | tauto].
Qed.

(** loading the table of [c] *)
Lemma tables_load s L n booted c p : tables_ok s L n booted -> 0 <= c < n -> c ∉ booted ->
  per_cpu_gdt_ptr s !! c = Some (p, GDT_LIMIT) -> forall k,
  tables_ok (set_core c k (set_tables (<[p := table_for (own_task c) 0x8B]> (tables s)) s)) L n (c :: booted).
Proof.
  intros HT Hc Hn Hp k. destruct HT as [H1 H2 H3 H4]. split; [done | done | | done].
  intros d Hd. destruct (H3 d Hd) as (q & E1 & E2 & E3). exists q. split; [done |]. split; [done |].
  cbn [tables set_core set_tables]. unfold access_of. destruct (decide (d = c)) as [-> | Hne].
  - rewrite E1 in Hp. simplify_eq. rewrite lookup_insert_eq, bool_decide_true by left. done.
  - rewrite lookup_insert_ne; [| intros ->; apply Hne; exact (H4 _ _ _ Hd Hc E1 Hp)]. rewrite E3. unfold access_of.
    assert (bool_decide (d ∈ c :: booted) = bool_decide (d ∈ booted)) as -> by (apply bool_decide_ext; rewrite elem_of_cons; tauto). done.
Qed.

Lemma boot_ap_ok s L n booted c : n <= 16 -> booted_ok s L n booted -> 0 < c < n -> c ∉ booted ->
  exists s', boot_ap tss_address c c (tops c) s = Ok s' /\ booted_ok s' L n (c :: booted).
Proof.
  intros Hn16 [HT HP HS HI HC] Hc Hn. unfold boot_ap, gdt_init_dynamic.
  destruct (Z.eqb_spec (per_cpu_gdt s) 0); [done |]. cbn [res_bind].
  destruct (to_table _ _ _ _ HT c ltac:(lia)) as (p & E1 & _ & E2). rewrite E1.
  unfold access_of in E2. rewrite bool_decide_false in E2 by done.
  rewrite (load_table_ok c c p s) by (done || lia). cbn [res_bind]. eexists. split; [done |].
  unfold tss_set_rsp0, idt_ap_init, load_idt. destruct (Z.ltb_spec c MAX_CPUS); [| unfold MAX_CPUS in *; lia].
  set (k := mk_core p _ _ _ _). set (s1 := set_core c k _).
  assert (Hk : core_of c s1 = k) by (unfold core_of, s1; cbn [loaded set_core]; by rewrite lookup_insert_eq).
  rewrite Hk. cbn [gdtr_base gdtr_limit tr_base tr_limit k].
  split; cbn [per_cpu_gdt per_cpu_tss idt loaded per_cpu_gdt_ptr set_tss set_core s1 set_tables]; try done.
  - destruct (tables_load s L n booted c p HT ltac:(lia) Hn E1 k) as [H1 H2 H3 H4]. by split.
  - rewrite HS. apply tasks_alter. lia.
  - intros d Hd. rewrite elem_of_cons in Hd. rewrite insert_insert_eq. destruct (decide (d = c)) as [-> | Hne].
    + split; [lia |]. exists p. rewrite lookup_insert_eq. done.
    + destruct Hd as [-> | Hd]; [done |]. rewrite lookup_insert_ne by done. by apply HC.
Qed.

Definition at_start (a : A) : seg := mk_seg a ∅ 0 ∅ (replicate 16 zero_tss) (replicate 256 zero_gate) ∅.

Abbreviation bsp := (boot_bsp g_bsp_gdt tss_address ist_stacks isr_stub_table ipi_tlb_entry ipi_selftest_entry ipi_reschedule_entry).

(** the static table of the first processor *)
Lemma gdt_init_cpu_ok kernel_stack a :
  exists s, gdt_init_cpu g_bsp_gdt tss_address ist_stacks 0 0 kernel_stack (at_start a) = Ok s /\
    heap s = a /\ per_cpu_gdt s = 0 /\ per_cpu_gdt_ptr s = ∅ /\ idt s = replicate 256 zero_gate /\
    (exists k, loaded s = {[ 0 := k ]}) /\
    per_cpu_tss s = <[0%nat := mk_tss kernel_stack 0 0 (ist (task_wanted [] 0)) tss_entry_size]> (replicate 16 zero_tss).
Proof.
  unfold gdt_init_cpu. change (replicate (Z.to_nat _) 0) with (replicate 80 0). rewrite segments_filled. cbn [res_bind].
  change ((0 <? 0) || _) with false. cbn iota. rewrite task_filled. cbn [res_bind].
  rewrite (load_table_ok 0 0 g_bsp_gdt) by (lia || (cbn [tables set_tables]; apply lookup_insert_eq)).
  eexists. split; [done |]. do 4 (split; [done |]). split; [eexists; done |]. reflexivity.
Qed.

Lemma boot_bsp_ok kernel_stack n a L : live a L -> Forall (fun x => 0 < x.2) L -> 1 <= n <= 16 ->
  bsp kernel_stack (tops 0) n (at_start a) = Panic \/
  exists s L', bsp kernel_stack (tops 0) n (at_start a) = Ok s /\ booted_ok s L' n [0].
Proof.
  intros Hl HP Hn. unfold boot_bsp. destruct (gdt_init_cpu_ok kernel_stack a) as (s & -> & E1 & E2 & E3 & E4 & (k & E5) & E6).
  cbn [res_bind]. set (s1 := idt_init _ _ _ _ 0 s).
  assert (F : heap s1 = a /\ per_cpu_gdt s1 = 0 /\ per_cpu_gdt_ptr s1 = ∅ /\ per_cpu_tss s1 = per_cpu_tss s /\ idt s1 = final_idt /\
              idtr (core_of 0 s1) = true).
  { unfold s1, final_idt, idt_init. cbn [idt set_idt load_idt set_core]. rewrite E4. do 5 (split; [done |]).
    unfold core_of. cbn [loaded set_idt load_idt set_core]. by rewrite lookup_insert_eq. }
  destruct F as (F1 & F2 & F3 & F4 & F5 & F6). clearbody s1. unfold gdt_init_dynamic. rewrite F2. cbn [Z.eqb].
  replace (MAX_CPUS <? n) with false by (unfold MAX_CPUS; lia). rewrite F1.
  destruct (kmalloc_live a L (8 * MAX_CPUS) Hl ltac:(unfold MAX_CPUS; lia)) as (g & a1 & -> & Hg). cbn [res_bind].
  assert (HL1 : exists L1, live a1 L1 /\ Forall (fun x => 0 < x.2) L1).
  { destruct Hg as [[_ ?] | [_ ?]]; eexists; (split; [eassumption |]); [done | by constructor]. }
  destruct HL1 as (L1 & Hl1 & HP1).
  destruct (kmalloc_live a1 L1 (10 * MAX_CPUS) Hl1 ltac:(unfold MAX_CPUS; lia)) as (q & a2 & -> & Hq). cbn [res_bind].
  destruct ((g =? 0) || (q =? 0)) eqn:E0; [by left |].
  assert (HL2 : exists L2, live a2 L2 /\ Forall (fun x => 0 < x.2) L2).
  { destruct Hq as [[_ ?] | [_ ?]]; eexists; (split; [eassumption |]); [done | by constructor]. }
  destruct HL2 as (L2 & Hl2 & HP2).
  destruct (alloc_tables_ok (Z.to_nat n) 0 (mk_seg a2 (tables s1) g ∅ (per_cpu_tss s1) (idt s1) (loaded s1)) L2)
    as [-> | (s2 & L' & -> & HT & G1 & G2 & G3 & G4)]; [lia | lia | split; (done || lia) | by left |].
  cbn [res_bind]. rewrite Z.add_0_l, Z2Nat.id in HT by lia. right.
  destruct (to_table _ _ _ _ HT 0 ltac:(lia)) as (p & P1 & _ & P2). rewrite P1.
  rewrite (load_table_ok 0 0 p s2) by (done || lia). cbn [res_bind]. eexists _, L'. split; [done |].
  cbn [per_cpu_gdt per_cpu_tss idt loaded] in *. unfold tss_set_rsp0. change (0 <? MAX_CPUS) with true. cbn iota.
  split; cbn [per_cpu_gdt per_cpu_tss idt loaded per_cpu_gdt_ptr set_tss set_core set_tables].
  - destruct (tables_load s2 L' n [] 0 p HT ltac:(lia) (not_elem_of_nil _) P1 (mk_core p GDT_LIMIT (own_task 0) 103 (idtr (core_of 0 s2)))) as [H1 H2 H3 H4].
    by split.
  - rewrite G1. lia.
  - rewrite G2, F4, E6. reflexivity.
  - by rewrite G3, F5.
  - intros c Hc. apply list_elem_of_singleton in Hc as ->. split; [lia |]. exists p. split; [done |].
    rewrite lookup_insert_eq. unfold core_of in *. rewrite G4, F6. done.
Qed.

(** ** What a processor has *)

Lemma task_of_booted s L n booted c : booted_ok s L n booted -> n <= 16 -> c ∈ booted ->
  task_of tss_address c s = Some (task_wanted booted c) /\ tr_limit (core_of c s) = 103.
Proof.
  intros HB Hn Hc. destruct (bo_core _ _ _ _ HB c Hc) as (Hr & p & _ & E). unfold task_of, core_of. rewrite E. cbn [from_option id tr_base tr_limit]. unfold tss_at, tss_entry_size.
  replace (tss_address + c * 104 - tss_address) with (c * 104) by lia. rewrite Z.mod_mul, Z.div_mul by lia.
  replace (0 <=? c * 104) with true by lia. split; [| done].
  rewrite (bo_tss _ _ _ _ HB), list_lookup_fmap, lookup_seqZ_lt by lia. cbn. do 2 f_equal. lia.
Qed.

Lemma gates_booted s L n booted v : booted_ok s L n booted -> 0 <= v < 256 -> gate_of v s = gate_wanted v.
Proof.
  intros HB Hv. destruct final_gates as [_ HG]. rewrite <- (HG s v Hv). unfold gate_of. cbn [idt set_idt]. by rewrite (bo_idt _ _ _ _ HB).
Qed.

(** the table, the task and the gates of processor [c] *)
Definition segments_good (s : seg) (c : Z) : Prop :=
  exists k l t, loaded s !! c = Some k /\ idtr k = true /\ tables s !! gdtr_base k = Some l /\
    (let named sel := select l (gdtr_limit k) sel in
     let flat t dpl long big := mk_segment 0 0xFFFFFFFF t false dpl true long big in
     named 0x08 = Some (flat 10 0 true false) /\ named 0x10 = Some (flat 2 0 true false) /\
     named USER_SS = Some (flat 2 3 false true) /\ named USER_CS = Some (flat 10 3 true false)) /\
    task_of tss_address c s = Some t /\ tr_base k = own_task c /\ rsp0 t = tops c /\
    (forall v, 0 <= v < 256 -> gate_of v s = gate_wanted v) /\
    (forall v rsp, 0 <= v < 256 -> option_map snd (gate_wanted v) = Some 0 ->
       stack_for tss_address c v true rsp s = Some (tops c) /\ stack_for tss_address c v false rsp s = Some rsp).

Lemma booted_good s L n booted c : booted_ok s L n booted -> n <= 16 -> c ∈ booted -> segments_good s c.
Proof.
  intros HB Hn Hc. destruct (bo_core _ _ _ _ HB c Hc) as (Hr & p & E1 & E2).
  destruct (to_table _ _ _ _ (bo_tables _ _ _ _ HB) c Hr) as (q & E3 & _ & E4). rewrite E1 in E3. simplify_eq.
  destruct (task_of_booted _ _ _ _ _ HB Hn Hc) as [Ht _].
  assert (Er : rsp0 (task_wanted booted c) = tops c).
  { unfold task_wanted. destruct (Z.eqb_spec c 0) as [-> |]; [done |]. by rewrite bool_decide_true. }
  eexists _, _, _. split; [exact E2 |]. split; [done |]. split; [exact E4 |]. split; [apply selectors_ok |].
  split; [exact Ht |]. split; [done |]. split; [exact Er |].
  split; [intros v Hv; eapply gates_booted; eassumption |].
  intros v rsp Hv Hi. unfold stack_for. rewrite (gates_booted _ _ _ _ _ HB Hv), Ht.
  destruct (gate_wanted v) as [[e i] |]; cbn in Hi; [| done]. simplify_eq. cbn. by rewrite Er.
Qed.

(** the boot of the processors [aps] after the first, in this order *)
Definition boot_all (kernel_stack n : Z) (aps : list Z) (a : A) : res seg :=
  let! s := bsp kernel_stack (tops 0) n (at_start a) in
  for_loop aps (fun c s => boot_ap tss_address c c (tops c) s) s.

Lemma boot_aps_ok n aps s L booted : n <= 16 -> booted_ok s L n booted -> NoDup aps ->
  (forall c, c ∈ aps -> 0 < c < n /\ c ∉ booted) ->
  exists s', for_loop aps (fun c s => boot_ap tss_address c c (tops c) s) s = Ok s' /\ booted_ok s' L n (rev aps ++ booted).
Proof.
  intros Hn. revert s booted. induction aps as [| c aps IH]; intros s booted HB HN Hc; [by exists s |].
  apply NoDup_cons in HN as [Hno HN]. destruct (Hc c ltac:(left)) as [Hr Hb].
  destruct (boot_ap_ok s L n booted c Hn HB Hr Hb) as (s1 & E & HB1). cbn [for_loop]. rewrite E. cbn [res_bind].
  destruct (IH s1 (c :: booted) HB1 HN) as (s2 & E2 & HB2).
  { intros d Hd. destruct (Hc d ltac:(by right)) as [? ?]. split; [done |]. rewrite elem_of_cons. intros [-> | ?]; done. }
  exists s2. split; [exact E2 |]. cbn [rev]. by rewrite <- app_assoc.
Qed.

Lemma boot_all_ok kernel_stack n aps a L : live a L -> Forall (fun x => 0 < x.2) L -> 1 <= n <= 16 ->
  NoDup aps -> Forall (fun c => 0 < c < n) aps ->
  boot_all kernel_stack n aps a = Panic \/
  exists s L', boot_all kernel_stack n aps a = Ok s /\ booted_ok s L' n (rev aps ++ [0]).
Proof.
  intros Hl HP Hn HN HF. unfold boot_all.
  destruct (boot_bsp_ok kernel_stack n a L Hl HP Hn) as [-> | (s & L' & -> & HB)]; [by left |]. right. cbn [res_bind].
  destruct (boot_aps_ok n aps s L' [0] ltac:(lia) HB HN) as (s' & E & HB').
  { intros c Hc. rewrite Forall_forall in HF. specialize (HF c Hc). split; [done |]. intros ->%list_elem_of_singleton. lia. }
  exists s', L'. done.
Qed.

Lemma booted_elem c aps : c = 0 \/ c ∈ aps -> c ∈ rev aps ++ [0].
Proof. rewrite elem_of_app, list_elem_of_singleton, !list_elem_of_In, <- in_rev. tauto. Qed.

(** no stack for fatal exceptions, and the keyboard controller open to user code *)
Definition unprotected (s : seg) (c : Z) : Prop :=
  (forall v user rsp, v ∈ [2; 8; 18] -> stack_for tss_address c v user rsp s = Some 0) /\ port_allowed tss_address c 0x64 s = true.

Lemma ap_unprotected s L n booted c : booted_ok s L n booted -> n <= 16 -> c ∈ booted -> 0 < c < n -> unprotected s c.
Proof.
  intros HB Hn Hb Hc. destruct (task_of_booted s L n booted c HB Hn Hb) as [Ht Hlim].
  unfold task_wanted in Ht. destruct (Z.eqb_spec c 0) as [| _]; [lia |]. split.
  - intros v user rsp Hv. unfold stack_for. rewrite (gates_booted _ _ _ _ _ HB) by (lmem_simpl; lia). rewrite Ht.
    lmem_simpl. destruct Hv as [-> | [-> | [-> | []]]]; reflexivity.
  - unfold port_allowed. rewrite Ht, Hlim. reflexivity.
Qed.


End Boot.
