(* ===== verification/SegmentsRun.v ===== *)
(** * Three processors boot

    The theorems on descriptor tables at concrete addresses, with the kernel
    heap as allocator, and what happens when APIC identifiers have gaps. *)

From stdpp Require Import base list.
From S2P Require Import Prelude Bytes Alloc Heap Console Segments SegmentsSpec.

#[local] Instance seg_blocks : Allocator (kheap Heap.frames) := heap_allocator (Some 1).

Definition stubs : list Z := (fun i => 0xFFFFFFFF80001000 + 16 * i) <$> seqZ 0 48.
Definition gdt_at : Z := 0xFFFFFFFF80100000.
Definition tss_is_at : Z := 0xFFFFFFFF80101000.
Definition ist_at : Z := 0xFFFFFFFF80200000.
Definition tlb_at : Z := 0xFFFFFFFF80002000.
Definition stack_tops (c : Z) : Z := 0xFFFFFFFF90000000 + 65536 * c.

Abbreviation boot_run aps := (boot_all gdt_at tss_is_at ist_at stubs tlb_at (tlb_at + 16) (tlb_at + 32) stack_tops 0xFFFFFFFF80300000 3 aps ex_heap).

Lemma tss_fits : 0 <= tss_is_at /\ tss_is_at + MAX_CPUS * tss_entry_size <= 2 ^ 64.
Proof. split; vm_compute; congruence. Qed.
Lemma stubs_fit : length stubs = 48%nat /\ Forall is_u64 stubs.
Proof. split; [done |]. apply Forall_forall. intros x (i & -> & Hi%elem_of_seqZ)%list_elem_of_fmap. unfold is_u64. lia. Qed.
Lemma ipis_fit : is_u64 tlb_at /\ is_u64 (tlb_at + 16) /\ is_u64 (tlb_at + 32).
Proof. unfold tlb_at, is_u64. lia. Qed.

Definition seg_is_ok {B} (r : res B) : bool := match r with Ok _ => true | _ => false end.

Lemma run_is_ok : seg_is_ok (boot_run [2; 1]) = true.
Proof. vm_compute. reflexivity. Qed.

Lemma run_returns : exists s, boot_run [2; 1] = Ok s.
Proof. pose proof run_is_ok as H. destruct (boot_run [2; 1]) as [s | |]; [by exists s | discriminate H | discriminate H]. Qed.

Lemma aps_differ : NoDup [2; 1].
Proof. apply (bool_decide_unpack _). vm_compute. exact I. Qed.
Lemma aps_in_range : Forall (fun c => 0 < c < 3) [2; 1].
Proof. repeat constructor; lia. Qed.


(** the second processor of two has the APIC identifier 2: it loads a table
    that nobody wrote *)
Example sparse_apic_faults :
  (let! s := boot_bsp gdt_at tss_is_at ist_at stubs tlb_at (tlb_at + 16) (tlb_at + 32) 0xFFFFFFFF80300000 (stack_tops 0) 2 (at_start ex_heap) in
   boot_ap tss_is_at 1 2 (stack_tops 1) s) = Fault.
Proof. vm_compute. reflexivity. Qed.
