(* ===== verification/Trap.v ===== *)
(** * Entering and leaving the kernel ([idt_stubs.S], [syscall_entry.asm], [switch.asm], [entry_arch.h], [syscall.c])

    The assembly paths, one definition per path over the registers of a
    processor and memory by 8-byte words: the stubs of interrupts, the entry
    of system calls and the switch between threads.  The instructions that
    change privilege (delivery of an interrupt, IRETQ, SYSCALL, SYSRET, SWAPGS)
    are those of the architecture.  A load from a word that is not there is a
    fault. *)

From stdpp Require Import base list.
From S2P Require Import Prelude Console.

Inductive reg := RAX | RBX | RCX | RDX | RBP | RSI | RDI | R8 | R9 | R10 | R11 | R12 | R13 | R14 | R15.
#[export] Instance reg_dec : EqDecision reg.
Proof. solve_decision. Defined.

Record cpu := mk_cpu {
  regs : reg -> Z; rsp : Z; rip : Z; cs : Z; ss : Z; rflags : Z;
  gs_base : Z; kernel_gs_base : Z;
  fpu : Z }.                         (** the floating-point state, as one value *)

Record st := mk_st {
  c : cpu;
  mem : gmap Z Z;
  fpu_state : gmap Z Z }.            (** the save areas of the threads *)

Definition set_reg (r : reg) (v : Z) (s : st) : st :=
  let k := c s in
  mk_st (mk_cpu (fun x => if decide (x = r) then v else regs k x) (rsp k) (rip k) (cs k) (ss k) (rflags k) (gs_base k) (kernel_gs_base k) (fpu k))
    (mem s) (fpu_state s).
Definition set_rsp (v : Z) (s : st) : st :=
  let k := c s in
  mk_st (mk_cpu (regs k) v (rip k) (cs k) (ss k) (rflags k) (gs_base k) (kernel_gs_base k) (fpu k)) (mem s) (fpu_state s).
Definition set_rip (v : Z) (s : st) : st :=
  let k := c s in
  mk_st (mk_cpu (regs k) (rsp k) v (cs k) (ss k) (rflags k) (gs_base k) (kernel_gs_base k) (fpu k)) (mem s) (fpu_state s).
Definition set_rflags (v : Z) (s : st) : st :=
  let k := c s in
  mk_st (mk_cpu (regs k) (rsp k) (rip k) (cs k) (ss k) v (gs_base k) (kernel_gs_base k) (fpu k)) (mem s) (fpu_state s).
Definition set_segs (code stack : Z) (s : st) : st :=
  let k := c s in
  mk_st (mk_cpu (regs k) (rsp k) (rip k) code stack (rflags k) (gs_base k) (kernel_gs_base k) (fpu k)) (mem s) (fpu_state s).
Definition set_fpu (v : Z) (s : st) : st :=
  let k := c s in
  mk_st (mk_cpu (regs k) (rsp k) (rip k) (cs k) (ss k) (rflags k) (gs_base k) (kernel_gs_base k) v) (mem s) (fpu_state s).

(** ** Instructions *)

Definition store (a v : Z) (s : st) : st := mk_st (c s) (<[a := v]> (mem s)) (fpu_state s).
Definition load (a : Z) (s : st) : res Z := match mem s !! a with Some v => Ok v | None => Fault end.

Definition push (v : Z) (s : st) : st :=
  let sp := u64 (rsp (c s) - 8) in store sp v (set_rsp sp s).
Definition pop (s : st) : res (Z * st) :=
  let! v := load (rsp (c s)) s in Ok (v, set_rsp (u64 (rsp (c s) + 8)) s).

Definition push_reg (r : reg) (s : st) : st := push (regs (c s) r) s.
Definition pop_reg (r : reg) (s : st) : res st := let! (v, s) := pop s in Ok (set_reg r v s).

Definition swapgs (s : st) : st :=
  let k := c s in
  mk_st (mk_cpu (regs k) (rsp k) (rip k) (cs k) (ss k) (rflags k) (kernel_gs_base k) (gs_base k) (fpu k)) (mem s) (fpu_state s).

(** ** Interrupts *)

(** the exceptions for which the processor pushes an error code *)
Definition cpu_pushes_code : list Z := [8; 10; 11; 12; 13; 14; 17; 21; 29; 30].

(** delivery through an interrupt gate with kernel code segment: [sp] is where
    the stack starts *)
Definition deliver (v ec sp entry : Z) (s : st) : st :=
  let k := c s in
  let s := set_rsp (align_down 16 sp) s in
  let s := push (rip k) (push (cs k) (push (rflags k) (push (rsp k) (push (ss k) s)))) in
  let s := if bool_decide (v ∈ cpu_pushes_code) then push ec s else s in
  let s := set_segs 0x08 (if Z.land (cs k) 3 =? 0 then ss k else 0) s in
  set_rflags (Z.land (rflags k) (Z.lnot 0x14300)) (set_rip entry s).

(** the stubs made with [ISR_ERRCODE]; the others push a zero *)
Definition isr_errcode : list Z := [8; 10; 11; 12; 13; 14; 17; 21; 29; 30].
Definition isr_stub (v : Z) (s : st) : st :=
  if bool_decide (v ∈ isr_errcode) then push v s else push v (push 0 s).

(** [INTERRUPT_FRAME_CS_END] and [INTERRUPT_FRAME_CS] of asm_offsets.c *)
Definition INTERRUPT_FRAME_CS_END : Z := 24.
Definition INTERRUPT_FRAME_CS : Z := 144.

Definition PUSH_ALL (s : st) : st :=
  foldl (fun s r => push_reg r s) s [R15; R14; R13; R12; R11; R10; R9; R8; RDI; RSI; RBP; RDX; RCX; RBX; RAX].
Definition POP_ALL (s : st) : res st :=
  for_loop [RAX; RBX; RCX; RDX; RBP; RSI; RDI; R8; R9; R10; R11; R12; R13; R14; R15] pop_reg s.

(** to the call of [idt_handler] *)
Definition common_stub (s : st) : res st :=
  let! code := load (rsp (c s) + INTERRUPT_FRAME_CS_END) s in
  let s := if Z.land code 3 =? 0 then s else swapgs s in
  let s := PUSH_ALL s in
  Ok (set_reg RDI (rsp (c s)) s).

Definition iretq (s : st) : res st :=
  let! (ip, s) := pop s in
  let! (code, s) := pop s in
  let! (flags, s) := pop s in
  let! (sp, s) := pop s in
  let! (stack, s) := pop s in
  Ok (set_rflags flags (set_segs code stack (set_rsp sp (set_rip ip s)))).

(** after the handler and any rescheduling *)
Definition ret_from_intr (s : st) : res st :=
  let! code := load (rsp (c s) + INTERRUPT_FRAME_CS) s in
  let s := if Z.land code 3 =? 0 then s else swapgs s in
  let! s := POP_ALL s in
  iretq (set_rsp (u64 (rsp (c s) + 16)) s).

(** ** System calls *)

(** the model-specific registers [syscall_init] writes *)
Record msrs := mk_msrs { efer : Z; star : Z; lstar : Z; sfmask : Z }.

Definition syscall_init (syscall_entry : Z) (m : msrs) : msrs :=
  mk_msrs (Z.lor (efer m) 1) (Z.lor (Z.shiftl 0x13 48) (Z.shiftl 0x08 32)) syscall_entry 0x202.

(** the SYSCALL instruction *)
Definition syscall_insn (m : msrs) (s : st) : st :=
  let k := c s in
  let s := set_reg R11 (rflags k) (set_reg RCX (rip k) s) in
  let code := Z.land (Z.shiftr (star m) 32) 0xFFFC in
  set_rflags (Z.land (rflags k) (Z.lnot (sfmask m))) (set_segs code (code + 8) (set_rip (lstar m) s)).

(** the SYSRET instruction with a 64-bit operand *)
Definition sysret_flags (f : Z) : Z := Z.lor (Z.land f 0x3C7FD7) 2.
Definition sysret (m : msrs) (s : st) : st :=
  let k := c s in
  let sel := Z.shiftr (star m) 48 in
  set_rflags (sysret_flags (regs k R11))
    (set_segs (Z.lor (sel + 16) 3) (Z.lor (sel + 8) 3) (set_rip (regs k RCX) s)).

(** offsets in [struct cpu_context] and [struct thread], from asm_offsets.c *)
Section Paths.
Context (CPU_CTX_USER_RSP CPU_CTX_CURRENT THREAD_KSTACK : Z).

Definition USER_CS_SEL : Z := 35.
Definition USER_SS_SEL : Z := 27.

(** to the call of [syscall_handler] *)
Definition syscall_entry (s : st) : res st :=
  let s := swapgs s in
  let s := store (gs_base (c s) + CPU_CTX_USER_RSP) (rsp (c s)) s in
  let! t := load (gs_base (c s) + CPU_CTX_CURRENT) s in
  let s := set_rsp t s in
  let! top := load (rsp (c s) + THREAD_KSTACK) s in
  let s := push USER_SS_SEL (set_rsp top s) in
  let! user_rsp := load (gs_base (c s) + CPU_CTX_USER_RSP) s in
  let s := push_reg RCX (push USER_CS_SEL (push_reg R11 (push user_rsp s))) in
  let s := foldl (fun s r => push_reg r s) s [RBP; RBX; RDI; RSI; RDX; R10; R8; R9; R15; R14; R13; R12; RAX] in
  Ok (set_reg RDI (rsp (c s)) s).

(** after the handler, to SYSRET *)
Definition syscall_exit (s : st) : res st :=
  let! s := for_loop [RAX; R12; R13; R14; R15; R9; R8; R10; RDX; RSI; RDI; RBX; RBP] pop_reg s in
  let! s := pop_reg RCX s in
  let s := set_rsp (u64 (rsp (c s) + 8)) s in
  let! s := pop_reg R11 s in
  let! (user_rsp, s) := pop s in
  let s := store (gs_base (c s) + CPU_CTX_USER_RSP) user_rsp s in
  let s := set_rsp (u64 (rsp (c s) + 8)) s in
  let! sp := load (gs_base (c s) + CPU_CTX_USER_RSP) s in
  Ok (swapgs (set_rsp sp s)).

(** ** Threads *)

(** the registers of C code a switch keeps, in the order they are pushed *)
Definition switched_regs : list reg := [RBP; RBX; R12; R13; R14; R15; RDI].

(** [switch_to(old, new)] with the arguments in RDI and RSI; the stack pointer
    is the first field of a thread *)
Definition switch_to (s : st) : res st :=
  let s := push (rflags (c s)) s in
  let s := foldl (fun s r => push_reg r s) s switched_regs in
  let old := regs (c s) RDI in
  let s := store old (rsp (c s)) s in
  let s := mk_st (c s) (mem s) (<[old := fpu (c s)]> (fpu_state s)) in
  let new := regs (c s) RSI in
  let! sp := load new s in
  let s := set_rsp sp s in
  match fpu_state s !! new with
  | None => Fault
  | Some f =>
      let s := set_fpu f s in
      let! s := for_loop (rev switched_regs) pop_reg s in
      let! (flags, s) := pop s in
      let! (ip, s) := pop (set_rflags flags s) in
      Ok (set_rip ip s)
  end.

(** [arch_user_thread_entry_stub] from the point where the task register is
    set: the frame at the top of the kernel stack, and IRETQ *)
Definition enter_user (kernel_stack_top entry_point user_stack : Z) (s : st) : res st :=
  let top := align_down 16 kernel_stack_top in
  let sp := top - 40 in
  let s := store sp entry_point s in
  let s := store (sp + 8) USER_CS_SEL s in
  let s := store (sp + 16) 0x202 s in
  let s := store (sp + 24) user_stack s in
  let s := store (sp + 32) USER_SS_SEL s in
  iretq (set_rsp sp (swapgs s)).

End Paths.
