(* ===== verification/TrapSpec.v ===== *)
(** * What the paths into and out of the kernel keep

    An interrupt hands its handler the frame of the interrupted code and
    returns to it with every register as it was; a system call keeps all
    registers but those of its convention; a thread that is switched away and
    back continues where it was.  In each case the code in between may do what
    it likes outside the saved words. *)

From stdpp Require Import base list.
From S2P Require Import Prelude Console Process Trap.

(** ** Pushing and popping words *)

Definition with_sp (v : Z) (k : cpu) : cpu :=
  mk_cpu (regs k) v (rip k) (cs k) (ss k) (rflags k) (gs_base k) (kernel_gs_base k) (fpu k).

Definition pushes (vs : list Z) (s : st) : st := foldl (fun s v => push v s) s vs.

(** memory after pushing words from [sp] down *)
Fixpoint put (sp : Z) (vs : list Z) (m : gmap Z Z) : gmap Z Z :=
  match vs with
  | [] => m
  | v :: vs => put (sp - 8) vs (<[sp - 8 := v]> m)
  end.

Definition bytes_of (vs : list Z) : Z := 8 * Z.of_nat (length vs).

Lemma pushes_eq vs s : bytes_of vs <= rsp (c s) -> rsp (c s) < 2 ^ 64 ->
  pushes vs s = mk_st (with_sp (rsp (c s) - bytes_of vs) (c s)) (put (rsp (c s)) vs (mem s)) (fpu_state s).
Proof.
  unfold bytes_of. revert s. induction vs as [| v vs IH]; intros s H1 H2; cbn [pushes foldl length].
  - destruct s as [k m f]. destruct k. unfold with_sp. cbn. do 2 f_equal. lia.
  - cbn [length] in H1. fold (pushes vs (push v s)).
    assert (E : push v s = mk_st (with_sp (rsp (c s) - 8) (c s)) (<[rsp (c s) - 8 := v]> (mem s)) (fpu_state s)).
    { unfold push, store, set_rsp, with_sp. cbn. rewrite u64_small by (red; lia). done. }
    rewrite E, IH by (cbn; lia). cbn [c mem fpu_state rsp with_sp put]. f_equal. unfold with_sp. cbn. f_equal. lia.
Qed.

Lemma push_regs_words rs s : foldl (fun s r => push_reg r s) s rs = pushes (regs (c s) <$> rs) s.
Proof.
  unfold pushes. revert s. induction rs as [| r rs IH]; intros s; [done |]. cbn [foldl fmap list_fmap]. rewrite IH.
  change (regs (c (push_reg r s))) with (regs (c s)). done.
Qed.

Lemma pushes_regs vs s : regs (c (pushes vs s)) = regs (c s).
Proof. unfold pushes. revert s. induction vs as [| v vs IH]; intros s; [done |]. cbn [foldl]. by rewrite IH. Qed.

Lemma pushes_app vs ws s : pushes ws (pushes vs s) = pushes (vs ++ ws) s.
Proof. unfold pushes. by rewrite foldl_app. Qed.

Lemma put_app sp vs ws m : put sp (vs ++ ws) m = put (sp - bytes_of vs) ws (put sp vs m).
Proof.
  unfold bytes_of. revert sp m. induction vs as [| v vs IH]; intros sp m; cbn [app put length].
  - f_equal. lia.
  - rewrite IH. f_equal. lia.
Qed.

Lemma put_outside sp vs m a : a < sp - bytes_of vs \/ sp <= a -> put sp vs m !! a = m !! a.
Proof.
  unfold bytes_of. revert sp m. induction vs as [| v vs IH]; intros sp m H; cbn [put]; [done |]. cbn [length] in H.
  rewrite IH by lia. apply lookup_insert_ne. lia.
Qed.

Lemma put_lookup sp vs m i v : vs !! i = Some v -> put sp vs m !! (sp - 8 * (Z.of_nat i + 1)) = Some v.
Proof.
  revert sp m i. induction vs as [| w vs IH]; intros sp m i H; [done |]. destruct i as [| i]; cbn [put].
  - cbn in H. simplify_eq. rewrite put_outside by lia. replace (sp - 8 * (Z.of_nat 0 + 1)) with (sp - 8) by lia. apply lookup_insert_eq.
  - rewrite <- (IH (sp - 8) (<[sp - 8 := w]> m) i H). f_equal. lia.
Qed.

(** the words of [vs] are in memory from [a] up *)
Definition holds (m : gmap Z Z) (a : Z) (vs : list Z) : Prop := forall i v, vs !! i = Some v -> m !! (a + 8 * Z.of_nat i) = Some v.

Lemma put_holds sp vs m : holds (put sp vs m) (sp - bytes_of vs) (rev vs).
Proof.
  revert sp m. induction vs as [| w vs IH]; intros sp m i v Hi; [done |]. cbn [rev put] in *. unfold bytes_of in *. cbn [length].
  destruct (decide (i < length (rev vs))%nat) as [Hl | Hl].
  - rewrite lookup_app_l in Hi by done. rewrite <- (IH (sp - 8) (<[sp - 8 := w]> m) i v Hi). f_equal. lia.
  - rewrite lookup_app_r in Hi by lia. rewrite length_rev in *. apply list_lookup_singleton_Some in Hi as [E ->].
    rewrite put_outside by (unfold bytes_of; lia). replace (sp - 8 * Z.of_nat (S (length vs)) + 8 * Z.of_nat i) with (sp - 8) by lia.
    apply lookup_insert_eq.
Qed.

Lemma holds_app m a vs ws : holds m a (vs ++ ws) -> holds m a vs /\ holds m (a + bytes_of vs) ws.
Proof.
  intros H. split; intros i v Hi.
  - apply H. by apply lookup_app_l_Some.
  - unfold bytes_of. rewrite <- (H (length vs + i)%nat v).
    + f_equal. lia.
    + rewrite lookup_app_r by lia. rewrite <- Hi. f_equal. lia.
Qed.

Lemma holds_cons m a v vs : holds m a (v :: vs) -> m !! a = Some v /\ holds m (a + 8) vs.
Proof. intros H. destruct (holds_app m a [v] vs H) as [H1 H2]. split; [rewrite <- (H1 0%nat v eq_refl); f_equal; simpl; lia | done]. Qed.

Definition set_regs (rs : list reg) (vs : list Z) (s : st) : st := foldl (fun s x => set_reg x.1 x.2 s) s (zip rs vs).

Lemma set_regs_other rs vs s :
  let s' := set_regs rs vs s in
  rsp (c s') = rsp (c s) /\ rip (c s') = rip (c s) /\ cs (c s') = cs (c s) /\ ss (c s') = ss (c s) /\ rflags (c s') = rflags (c s) /\
  gs_base (c s') = gs_base (c s) /\ kernel_gs_base (c s') = kernel_gs_base (c s) /\ fpu (c s') = fpu (c s) /\
  mem s' = mem s /\ fpu_state s' = fpu_state s.
Proof.
  unfold set_regs. revert s. induction (zip rs vs) as [| [r v] l IH]; intros s; cbn [foldl]; [done |].
  exact (IH (set_reg r v s)).
Qed.

Lemma set_regs_sp rs vs p s : set_regs rs vs (set_rsp p s) = set_rsp p (set_regs rs vs s).
Proof. unfold set_regs. revert s. induction (zip rs vs) as [| [r v] l IH]; intros s; cbn [foldl]; [done | by rewrite <- IH]. Qed.

Lemma pops_eq rs vs s : length rs = length vs -> holds (mem s) (rsp (c s)) vs -> 0 <= rsp (c s) -> rsp (c s) + bytes_of vs < 2 ^ 64 ->
  for_loop rs pop_reg s = Ok (set_rsp (rsp (c s) + bytes_of vs) (set_regs rs vs s)).
Proof.
  unfold bytes_of. revert vs s. induction rs as [| r rs IH]; intros vs s Hl Hh H0 H1; destruct vs as [| v vs]; try done.
  { cbn. rewrite Z.add_0_r. by destruct s as [[] ? ?]. }
  apply holds_cons in Hh as [Hv Hh]. cbn [for_loop length] in *. unfold pop_reg at 1, pop, load. rewrite Hv. cbn [res_bind].
  rewrite u64_small by (red; lia). rewrite (IH vs) by (cbn; lia || done || exact Hh).
  change (rsp (c (set_reg r v (set_rsp (rsp (c s) + 8) s)))) with (rsp (c s) + 8). f_equal.
  change (set_reg r v (set_rsp (rsp (c s) + 8) s)) with (set_rsp (rsp (c s) + 8) (set_reg r v s)). rewrite set_regs_sp.
  change (set_regs (r :: rs) (v :: vs) s) with (set_regs rs vs (set_reg r v s)). unfold set_rsp at 1 2.
  unfold set_rsp. cbn [c rsp regs rip cs ss rflags gs_base kernel_gs_base fpu mem fpu_state length]. f_equal. f_equal. lia.
Qed.

(** ** Interrupts *)

(** [struct interrupt_frame] of the interrupted code *)
Definition interrupt_frame (k : cpu) (v code : Z) : list Z :=
  (regs k <$> [RAX; RBX; RCX; RDX; RBP; RSI; RDI; R8; R9; R10; R11; R12; R13; R14; R15]) ++
  [v; code; rip k; cs k; rflags k; rsp k; ss k].

Definition error_code (v ec : Z) : Z := if bool_decide (v ∈ cpu_pushes_code) then ec else 0.
Definition from_user (k : cpu) : bool := negb (Z.land (cs k) 3 =? 0).

(** the processor and the stub together push seven words for every vector *)
Lemma stub_words v ec sp entry s :
  let k := c s in
  isr_stub v (deliver v ec sp entry s) =
  set_rflags (Z.land (rflags k) (Z.lnot 0x14300))
    (set_rip entry (set_segs 0x08 (if Z.land (cs k) 3 =? 0 then ss k else 0)
      (pushes [ss k; rsp k; rflags k; cs k; rip k; error_code v ec; v] (set_rsp (align_down 16 sp) s)))).
Proof.
  intros k. unfold isr_stub, deliver, error_code. change isr_errcode with cpu_pushes_code.
  destruct (bool_decide (v ∈ cpu_pushes_code)); reflexivity.
Qed.

Lemma push_all_words s : PUSH_ALL s = pushes (regs (c s) <$> [R15; R14; R13; R12; R11; R10; R9; R8; RDI; RSI; RBP; RDX; RCX; RBX; RAX]) s.
Proof. apply push_regs_words. Qed.

(** what the handler starts with *)
Definition at_handler (v ec sp entry : Z) (s s1 : st) : Prop :=
  let k := c s in
  let frame := align_down 16 sp - 176 in
  rsp (c s1) = frame /\ regs (c s1) RDI = frame /\ cs (c s1) = 0x08 /\ Z.testbit (rflags (c s1)) 9 = false /\
  (gs_base (c s1), kernel_gs_base (c s1)) = (if from_user k then (kernel_gs_base k, gs_base k) else (gs_base k, kernel_gs_base k)) /\
  holds (mem s1) frame (interrupt_frame k v (error_code v ec)) /\
  (forall a, a < frame \/ align_down 16 sp <= a -> mem s1 !! a = mem s !! a) /\ fpu (c s1) = fpu k /\ fpu_state s1 = fpu_state s.

Lemma interrupt_entry_ok v ec sp entry s : 176 <= align_down 16 sp < 2 ^ 64 ->
  exists s1, common_stub (isr_stub v (deliver v ec sp entry s)) = Ok s1 /\ at_handler v ec sp entry s s1.
Proof.
  intros Hb. unfold at_handler. rewrite stub_words. set (b := align_down 16 sp) in *. clearbody b.
  set (k := c s). set (e := error_code v ec). clearbody e.
  rewrite pushes_eq by (unfold bytes_of; cbn [c rsp set_rsp length]; lia). set (W := [_; _; _; _; _; _; _]). change (rsp (c (set_rsp b s))) with b. change (bytes_of W) with 56.
  set (s0 := set_rflags _ _).
  assert (Hs0 : rsp (c s0) = b - 56 /\ mem s0 = put b W (mem s) /\ regs (c s0) = regs k /\ gs_base (c s0) = gs_base k /\
                kernel_gs_base (c s0) = kernel_gs_base k /\ cs (c s0) = 0x08 /\ fpu (c s0) = fpu k /\ fpu_state s0 = fpu_state s /\
                rflags (c s0) = Z.land (rflags k) (Z.lnot 0x14300)) by done.
  clearbody s0. destruct Hs0 as (E1 & E2 & E3 & E4 & E5 & E6 & E7 & E8 & E9).
  unfold common_stub, load, INTERRUPT_FRAME_CS_END. rewrite E1, E2.
  assert (Hcs : put b W (mem s) !! (b - 56 + 24) = Some (cs k)).
  { rewrite <- (put_lookup b W (mem s) 3 (cs k) eq_refl). f_equal. lia. }
  rewrite Hcs. cbn [res_bind]. rewrite push_all_words.
  set (s2 := if Z.land (cs k) 3 =? 0 then s0 else swapgs s0).
  assert (Hs2 : rsp (c s2) = b - 56 /\ mem s2 = put b W (mem s) /\ regs (c s2) = regs k /\ cs (c s2) = 0x08 /\ fpu (c s2) = fpu k /\
                fpu_state s2 = fpu_state s /\ rflags (c s2) = Z.land (rflags k) (Z.lnot 0x14300) /\
                (gs_base (c s2), kernel_gs_base (c s2)) = if from_user k then (kernel_gs_base k, gs_base k) else (gs_base k, kernel_gs_base k)).
  { unfold s2, from_user. destruct (Z.land (cs k) 3 =? 0); cbn; rewrite ?E4, ?E5; done. }
  clearbody s2. destruct Hs2 as (F1 & F2 & F3 & F4 & F5 & F6 & F7 & F8). rewrite F3.
  rewrite pushes_eq by (rewrite F1; unfold bytes_of; cbn [length fmap list_fmap]; lia). rewrite F1, F2. set (R := regs k <$> _).
  replace (put (b - 56) R (put b W (mem s))) with (put b (W ++ R) (mem s)) by (rewrite put_app; f_equal).
  change (bytes_of R) with 120. eexists. split; [reflexivity |]. cbn [c regs rsp cs rflags gs_base kernel_gs_base fpu mem fpu_state set_reg with_sp].
  replace (b - 56 - 120) with (b - 176) by lia. rewrite decide_True by done.
  do 2 (split; [done |]). split; [done |]. split. { rewrite F7, Z.land_spec, Z.lnot_spec by lia. change (Z.testbit 0x14300 9) with true. apply andb_false_r. }
  split; [done |]. split; [apply (put_holds b (W ++ R) (mem s)) |].
  split; [| done]. intros a Ha. apply put_outside. change (bytes_of (W ++ R)) with 176. lia.
Qed.

(** every register as it was *)
Definition same_cpu (k k' : cpu) : Prop :=
  (forall r, regs k' r = regs k r) /\ rsp k' = rsp k /\ rip k' = rip k /\ cs k' = cs k /\ ss k' = ss k /\ rflags k' = rflags k /\
  gs_base k' = gs_base k /\ kernel_gs_base k' = kernel_gs_base k.

Lemma pop_eq v s : mem s !! rsp (c s) = Some v -> 0 <= rsp (c s) -> rsp (c s) + 8 < 2 ^ 64 -> pop s = Ok (v, set_rsp (rsp (c s) + 8) s).
Proof. intros Hv H0 H1. unfold pop, load. rewrite Hv. cbn [res_bind]. by rewrite u64_small by (red; lia). Qed.

Lemma iretq_ok ip code flags sp stack s : holds (mem s) (rsp (c s)) [ip; code; flags; sp; stack] -> 0 <= rsp (c s) -> rsp (c s) + 40 < 2 ^ 64 ->
  exists s', iretq s = Ok s' /\ regs (c s') = regs (c s) /\ rip (c s') = ip /\ cs (c s') = code /\ rflags (c s') = flags /\ rsp (c s') = sp /\
    ss (c s') = stack /\ gs_base (c s') = gs_base (c s) /\ kernel_gs_base (c s') = kernel_gs_base (c s) /\ fpu (c s') = fpu (c s) /\
    mem s' = mem s /\ fpu_state s' = fpu_state s.
Proof.
  intros Hh H0 H1. do 5 (apply holds_cons in Hh as [? Hh]). unfold iretq.
  rewrite (pop_eq ip) by (done || lia). cbn [res_bind].
  rewrite (pop_eq code) by (cbn [c rsp set_rsp mem]; done || lia). cbn [res_bind c rsp set_rsp].
  rewrite (pop_eq flags) by (cbn [c rsp set_rsp mem]; done || lia). cbn [res_bind c rsp set_rsp].
  rewrite (pop_eq sp) by (cbn [c rsp set_rsp mem]; done || lia). cbn [res_bind c rsp set_rsp].
  rewrite (pop_eq stack) by (cbn [c rsp set_rsp mem]; done || lia). cbn [res_bind c rsp set_rsp].
  eexists. split; [reflexivity |]. done.
Qed.

Lemma interrupt_exit_ok k v code s : let frame := rsp (c s) in
  0 <= frame -> frame + 176 < 2 ^ 64 -> holds (mem s) frame (interrupt_frame k v code) ->
  (gs_base (c s), kernel_gs_base (c s)) = (if from_user k then (kernel_gs_base k, gs_base k) else (gs_base k, kernel_gs_base k)) ->
  exists s', ret_from_intr s = Ok s' /\ same_cpu k (c s') /\ fpu (c s') = fpu (c s) /\ mem s' = mem s /\ fpu_state s' = fpu_state s.
Proof.
  intros frame H0 H1 Hh Hg. unfold ret_from_intr, load, INTERRUPT_FRAME_CS.
  assert (Ecs : mem s !! (rsp (c s) + 144) = Some (cs k)) by (exact (Hh 18%nat (cs k) eq_refl)). rewrite Ecs. cbn [res_bind].
  set (s1 := if Z.land (cs k) 3 =? 0 then s else swapgs s).
  assert (Hs1 : rsp (c s1) = frame /\ mem s1 = mem s /\ fpu (c s1) = fpu (c s) /\ fpu_state s1 = fpu_state s /\
                gs_base (c s1) = gs_base k /\ kernel_gs_base (c s1) = kernel_gs_base k).
  { unfold s1, from_user in *. destruct (Z.land (cs k) 3 =? 0); cbn in *; simplify_eq; done. }
  clearbody s1. destruct Hs1 as (E1 & E2 & E3 & E4 & E5 & E6).
  unfold interrupt_frame in Hh. apply holds_app in Hh as [HR HW].
  set (V := regs k <$> _) in HR. unfold POP_ALL. set (RS := [RAX; _; _; _; _; _; _; _; _; _; _; _; _; _; _]) in *.
  rewrite (pops_eq RS V) by (first [done | rewrite E1, ?E2; first [exact HR | exact H0 | unfold bytes_of; cbn [V RS length fmap list_fmap]; lia]]).
  cbn [res_bind]. pose proof (set_regs_other RS V s1) as Ho. cbn zeta in Ho.
  set (s2 := set_regs RS V s1) in *. destruct Ho as (_ & _ & _ & _ & _ & G1 & G2 & G3 & G4 & G5).
  assert (HV : forall r, regs (c s2) r = regs k r) by (intros []; reflexivity). clearbody s2.
  change (rsp (c (set_rsp (rsp (c s1) + bytes_of V) s2))) with (rsp (c s1) + bytes_of V). rewrite E1. change (bytes_of V) with 120.
  rewrite u64_small by (red; lia). change (set_rsp ?a (set_rsp ?b ?x)) with (set_rsp a x).
  apply holds_cons in HW as [_ HW]. apply holds_cons in HW as [_ HW]. change (bytes_of (regs k <$> RS)) with 120 in HW.
  replace (frame + 120 + 8 + 8) with (frame + 120 + 16) in HW by lia.
  destruct (iretq_ok (rip k) (cs k) (rflags k) (rsp k) (ss k) (set_rsp (frame + 120 + 16) s2))
    as (s3 & -> & R1 & R2 & R3 & R4 & R5 & R6 & R7 & R8 & R9 & R10 & R11); [cbn; rewrite G4, E2; exact HW | cbn; lia | cbn [c rsp set_rsp]; lia |].
  exists s3. split; [done |]. cbn [c regs set_rsp gs_base kernel_gs_base fpu mem fpu_state] in *. split.
  - split; [intros r; by rewrite R1 |]. do 5 (split; [done |]). split; congruence.
  - split; [congruence |]. split; congruence.
Qed.


(** ** System calls *)

(** [struct trap_frame] of the calling code *)
Definition call_frame (k : cpu) (rax : Z) : list Z :=
  [rax; regs k R12; regs k R13; regs k R14; regs k R15; regs k R9; regs k R8; regs k R10; regs k RDX; regs k RSI; regs k RDI;
   regs k RBX; regs k RBP; rip k; USER_CS_SEL; rflags k; rsp k; USER_SS_SEL].

Section Syscall.
Context (CPU_CTX_USER_RSP CPU_CTX_CURRENT THREAD_KSTACK syscall_address : Z).

Abbreviation slot ctx := (ctx + CPU_CTX_USER_RSP).

(** the context names the current thread [t], whose kernel stack ends at
    [top]; none of these words is on that stack *)
Definition ctx_ok (ctx t top : Z) (m : gmap Z Z) : Prop :=
  m !! (ctx + CPU_CTX_CURRENT) = Some t /\ m !! (t + THREAD_KSTACK) = Some top /\ 144 <= top < 2 ^ 64 /\
  slot ctx ≠ ctx + CPU_CTX_CURRENT /\ slot ctx ≠ t + THREAD_KSTACK /\ (slot ctx < top - 144 \/ top <= slot ctx).

(** what the handler starts with *)
Definition at_syscall (top : Z) (s s1 : st) : Prop :=
  let k := c s in
  let frame := top - 144 in
  rsp (c s1) = frame /\ regs (c s1) RDI = frame /\ cs (c s1) = 0x08 /\ ss (c s1) = 0x10 /\ Z.testbit (rflags (c s1)) 9 = false /\
  gs_base (c s1) = kernel_gs_base k /\ kernel_gs_base (c s1) = gs_base k /\ holds (mem s1) frame (call_frame k (regs k RAX)) /\
  (forall a, a < frame \/ top <= a -> a ≠ slot (kernel_gs_base k) -> mem s1 !! a = mem s !! a) /\ fpu (c s1) = fpu k.

Lemma syscall_entry_ok m0 t top s : ctx_ok (kernel_gs_base (c s)) t top (mem s) ->
  let m := syscall_init syscall_address m0 in
  exists s1, syscall_entry CPU_CTX_USER_RSP CPU_CTX_CURRENT THREAD_KSTACK (syscall_insn m s) = Ok s1 /\ at_syscall top s s1 /\
    rflags (c s1) = Z.land (rflags (c s)) (Z.lnot 0x202).
Proof.
  intros (H1 & H2 & H3 & H4 & H5 & H6) m. unfold syscall_entry. set (k := c s) in *.
  set (s0 := swapgs (syscall_insn m s)).
  assert (Hs0 : rsp (c s0) = rsp k /\ mem s0 = mem s /\ gs_base (c s0) = kernel_gs_base k /\ kernel_gs_base (c s0) = gs_base k /\
                cs (c s0) = 0x08 /\ ss (c s0) = 0x10 /\ fpu (c s0) = fpu k /\ rflags (c s0) = Z.land (rflags k) (Z.lnot 0x202) /\
                regs (c s0) RCX = rip k /\ regs (c s0) R11 = rflags k /\ (forall r, r ≠ RCX -> r ≠ R11 -> regs (c s0) r = regs k r)).
  { do 10 (split; [reflexivity |]). intros r N1 N2. cbn. rewrite !decide_False by done. done. }
  clearbody s0. destruct Hs0 as (E1 & E2 & E3 & E4 & E5 & E6 & E7 & E8 & E9 & E10 & E11).
  unfold load. cbn [c store mem set_rsp rsp gs_base]. rewrite E1, E2, E3. rewrite lookup_insert_ne by done. rewrite H1. cbn [res_bind c rsp set_rsp mem store].
  rewrite lookup_insert_ne by done. rewrite H2. cbn [res_bind].
  set (M := <[slot (kernel_gs_base k) := rsp k]> (mem s)).
  assert (HP : push USER_SS_SEL (set_rsp top (set_rsp t (store (slot (kernel_gs_base k)) (rsp k) s0))) =
               pushes [USER_SS_SEL] (set_rsp top (store (slot (kernel_gs_base k)) (rsp k) s0))) by reflexivity.
  rewrite HP. rewrite pushes_eq by (unfold bytes_of; cbn [c rsp set_rsp length]; lia). cbn [c rsp set_rsp with_sp gs_base mem store fpu_state put].
  rewrite E2, E3. fold M. rewrite lookup_insert_ne by lia. unfold M at 1. rewrite lookup_insert_eq. cbn [res_bind].
  set (sA := mk_st _ _ _).
  change (push_reg RCX (push USER_CS_SEL (push_reg R11 (push (rsp k) sA))))
    with (pushes [rsp k; regs (c s0) R11; USER_CS_SEL; regs (c s0) RCX] sA).
  rewrite push_regs_words, pushes_regs, pushes_app. change (regs (c sA)) with (regs (c s0)). set (W := _ ++ _).
  rewrite pushes_eq by (try change (bytes_of W) with 136; change (rsp (c sA)) with (top - 8); lia).
  change (rsp (c sA)) with (top - 8). change (mem sA) with (put top [USER_SS_SEL] M).
  change (put (top - 8) W (put top [USER_SS_SEL] M)) with (put top (USER_SS_SEL :: W) M).
  assert (HW : rev (USER_SS_SEL :: W) = call_frame k (regs k RAX)).
  { unfold W. rewrite E9, E10. cbn [fmap list_fmap]. rewrite !E11 by done. reflexivity. }
  change (bytes_of W) with 136. replace (top - 8 - 136) with (top - 144) by lia.
  eexists. split; [reflexivity |]. split; [| exact E8].
  unfold at_syscall. fold k. cbn [c regs rsp cs ss rflags gs_base kernel_gs_base fpu mem set_reg with_sp sA]. rewrite decide_True by done.
  do 2 (split; [done |]). split; [done |]. split; [done |].
  split. { rewrite E8, Z.land_spec, Z.lnot_spec by lia. change (Z.testbit 0x202 9) with true. apply andb_false_r. }
  do 2 (split; [done |]). split; [rewrite <- HW; exact (put_holds top (USER_SS_SEL :: W) M) |]. split; [| done].
  intros a Ha Hne. rewrite put_outside by (change (bytes_of (USER_SS_SEL :: W)) with 144; lia). unfold M. by apply lookup_insert_ne.
Qed.
(** the registers after a system call that answers [rax] *)
Definition after_syscall (k k' : cpu) (rax : Z) : Prop :=
  regs k' RAX = rax /\ regs k' RCX = rip k /\ regs k' R11 = rflags k /\ (forall r, r ∉ [RAX; RCX; R11] -> regs k' r = regs k r) /\
  rip k' = rip k /\ rsp k' = rsp k /\ rflags k' = sysret_flags (rflags k) /\ cs k' = USER_CS_SEL /\ ss k' = USER_SS_SEL /\
  gs_base k' = gs_base k /\ kernel_gs_base k' = kernel_gs_base k.

(** the end of the exit path, from the return address on *)
Lemma return_words k s : holds (mem s) (rsp (c s)) [rip k; USER_CS_SEL; rflags k; rsp k; USER_SS_SEL] ->
  0 <= rsp (c s) -> rsp (c s) + 40 < 2 ^ 64 ->
  exists s', (let! s := pop_reg RCX s in
    let s := set_rsp (u64 (rsp (c s) + 8)) s in
    let! s := pop_reg R11 s in
    let! (user_rsp, s) := pop s in
    let s := store (gs_base (c s) + CPU_CTX_USER_RSP) user_rsp s in
    let s := set_rsp (u64 (rsp (c s) + 8)) s in
    let! sp := load (gs_base (c s) + CPU_CTX_USER_RSP) s in
    Ok (swapgs (set_rsp sp s))) = Ok s' /\
    regs (c s') RCX = rip k /\ regs (c s') R11 = rflags k /\ rsp (c s') = rsp k /\
    (forall r, r ≠ RCX -> r ≠ R11 -> regs (c s') r = regs (c s) r) /\
    gs_base (c s') = kernel_gs_base (c s) /\ kernel_gs_base (c s') = gs_base (c s) /\ fpu (c s') = fpu (c s) /\
    mem s' = <[gs_base (c s) + CPU_CTX_USER_RSP := rsp k]> (mem s).
Proof.
  intros HW H0 H1. do 5 (apply holds_cons in HW as [? HW]). unfold pop_reg.
  rewrite (pop_eq (rip k)) by (done || lia). cbn [res_bind].
  set (s2 := set_rsp (u64 _) _).
  assert (F : rsp (c s2) = rsp (c s) + 8 + 8 /\ mem s2 = mem s /\ gs_base (c s2) = gs_base (c s) /\ kernel_gs_base (c s2) = kernel_gs_base (c s) /\
              fpu (c s2) = fpu (c s) /\ regs (c s2) RCX = rip k /\ forall r, r ≠ RCX -> regs (c s2) r = regs (c s) r).
  { unfold s2. cbn [c rsp set_rsp set_reg regs mem gs_base kernel_gs_base fpu]. rewrite u64_small by (red; lia). do 6 (split; [done |]).
    intros r Hr. by rewrite decide_False. }
  clearbody s2. destruct F as (F1 & F2 & F3 & F4 & F5 & F6 & F7).
  rewrite (pop_eq (rflags k)) by (rewrite ?F1, ?F2; (done || lia)). cbn [res_bind].
  set (s3 := set_reg R11 _ _).
  assert (F : rsp (c s3) = rsp (c s) + 8 + 8 + 8 /\ mem s3 = mem s /\ gs_base (c s3) = gs_base (c s) /\ kernel_gs_base (c s3) = kernel_gs_base (c s) /\
              fpu (c s3) = fpu (c s) /\ regs (c s3) RCX = rip k /\ regs (c s3) R11 = rflags k /\
              forall r, r ≠ RCX -> r ≠ R11 -> regs (c s3) r = regs (c s) r).
  { unfold s3. cbn [c rsp set_rsp set_reg regs mem gs_base kernel_gs_base fpu]. rewrite F1. do 5 (split; [done |]). split; [exact F6 |]. split; [done |].
    intros r N1 N2. rewrite decide_False by done. by apply F7. }
  clearbody s3. clear F6 F7. destruct F as (J1 & J2 & J3 & J4 & J5 & J6 & J7 & J8).
  rewrite (pop_eq (rsp k)) by (rewrite ?J1, ?J2; (done || lia)). cbn [res_bind].
  unfold load. cbn [c mem set_rsp store gs_base]. rewrite lookup_insert_eq. cbn [res_bind].
  eexists. split; [reflexivity |]. cbn [c rsp set_rsp swapgs store regs mem gs_base kernel_gs_base fpu]. rewrite J2, J3, J4, J5. done.
Qed.

Lemma syscall_exit_ok m0 k rax s : let frame := rsp (c s) in
  0 <= frame -> frame + 144 < 2 ^ 64 -> holds (mem s) frame (call_frame k rax) ->
  slot (gs_base (c s)) < frame \/ frame + 144 <= slot (gs_base (c s)) ->
  gs_base (c s) = kernel_gs_base k -> kernel_gs_base (c s) = gs_base k ->
  exists s', syscall_exit CPU_CTX_USER_RSP s = Ok s' /\ let s3 := sysret (syscall_init syscall_address m0) s' in
    after_syscall k (c s3) rax /\ fpu (c s3) = fpu (c s) /\ mem s3 = <[slot (kernel_gs_base k) := rsp k]> (mem s).
Proof.
  intros frame H0 H1 Hh Ha G1 G2. unfold syscall_exit.
  set (RS := [RAX; R12; R13; R14; R15; R9; R8; R10; RDX; RSI; RDI; RBX; RBP]).
  set (V := [rax; regs k R12; regs k R13; regs k R14; regs k R15; regs k R9; regs k R8; regs k R10; regs k RDX; regs k RSI; regs k RDI; regs k RBX; regs k RBP]).
  change (call_frame k rax) with (V ++ [rip k; USER_CS_SEL; rflags k; rsp k; USER_SS_SEL]) in Hh. apply holds_app in Hh as [HV HW].
  rewrite (pops_eq RS V) by (done || (unfold bytes_of; cbn [V length]; lia)). cbn [res_bind]. fold frame.
  pose proof (set_regs_other RS V s) as Ho. cbn zeta in Ho. set (s1 := set_regs RS V s) in *.
  destruct Ho as (_ & _ & _ & _ & _ & E1 & E2 & E3 & E4 & _).
  assert (HR : regs (c s1) RAX = rax /\ forall r, r ∉ [RAX; RCX; R11] -> regs (c s1) r = regs k r).
  { split; [reflexivity |]. intros r Hr. destruct r; try reflexivity; destruct Hr; repeat (left || right). }
  clearbody s1. destruct HR as [HR1 HR2]. change (bytes_of V) with 104 in *.
  destruct (return_words k (set_rsp (frame + 104) s1)) as (s2 & E & T1 & T2 & T3 & T4 & T5 & T6 & T7 & T8).
  { cbn [c rsp set_rsp mem]. rewrite E4. exact HW. }
  { cbn [c rsp set_rsp]. lia. }
  { cbn [c rsp set_rsp]. lia. }
  cbn [c rsp set_rsp] in T4, T5, T6, T7, T8. exists s2. split; [exact E |].
  unfold after_syscall, sysret. cbn [c mem fpu regs rsp rip cs ss rflags gs_base kernel_gs_base set_rflags set_segs set_rip].
  rewrite T1, T2, T3, T5, T6, T7, T8. cbn [mem c set_rsp]. rewrite ?E1, ?E2, ?E3, ?E4, ?G1, ?G2. split; [| done].
  split; [rewrite T4 by done; exact HR1 |]. do 2 (split; [done |]).
  split. { intros r Hr. rewrite <- (HR2 r Hr). apply T4; intros ->; apply Hr; repeat (left || right). }
  do 6 (split; [done |]). done.
Qed.

(** C12: A system call is transparent but for its convention.  The handler runs on the kernel stack of
    the current thread, with interrupts off and the kernel's per-processor data, and is given a frame with the caller's
    registers; the only other word written is the context's copy of the user stack pointer.  Whatever happens in between,
    if the frame is left but for the answer in RAX, the caller goes on after the call with its stack, its GS base and all
    registers but RAX, RCX and R11.  Single stepping of the caller is not switched off by the entry. *)
Theorem syscall_transparent m0 t top s : ctx_ok (kernel_gs_base (c s)) t top (mem s) ->
  let m := syscall_init syscall_address m0 in
  exists s1, syscall_entry CPU_CTX_USER_RSP CPU_CTX_CURRENT THREAD_KSTACK (syscall_insn m s) = Ok s1 /\ at_syscall top s s1 /\
    Z.testbit (rflags (c s1)) 8 = Z.testbit (rflags (c s)) 8 /\
    forall s2 rax, rsp (c s2) = rsp (c s1) -> gs_base (c s2) = gs_base (c s1) -> kernel_gs_base (c s2) = kernel_gs_base (c s1) ->
      mem s2 !! rsp (c s1) = Some rax -> (forall a, rsp (c s1) < a < rsp (c s1) + 144 -> mem s2 !! a = mem s1 !! a) ->
      exists s', syscall_exit CPU_CTX_USER_RSP s2 = Ok s' /\ after_syscall (c s) (c (sysret m s')) rax /\ fpu (c s') = fpu (c s2).
Proof.
  intros HC m. destruct (syscall_entry_ok m0 t top s HC) as (s1 & E & HA & HF). exists s1. split; [done |]. split; [done |].
  split. { rewrite HF, Z.land_spec, Z.lnot_spec by lia. change (Z.testbit 0x202 8) with false. apply andb_true_r. }
  intros s2 rax Hsp G1 G2 Hrax Hm. destruct HA as (E1 & _ & _ & _ & _ & K1 & K2 & Hh & _).
  destruct HC as (_ & _ & H3 & _ & _ & H6).
  destruct (syscall_exit_ok m0 (c s) rax s2) as (s' & E' & HS & HP & _).
  - lia.
  - rewrite Hsp. lia.
  - rewrite Hsp, E1. intros i x Hi. destruct i as [| i].
    + cbn in Hi. simplify_eq. rewrite E1 in Hrax. by rewrite Z.add_0_r.
    + rewrite Hm; [by apply Hh |]. apply lookup_lt_Some in Hi. cbn in Hi. lia.
  - rewrite Hsp, E1, G1, K1. lia.
  - congruence.
  - congruence.
  - exists s'. done.
Qed.

End Syscall.

(** ** Threads *)

(** the words a suspended thread has on its stack: the registers of C code that
    a call keeps, the flags and where it goes on *)
Definition context (k : cpu) (ret : Z) : list Z :=
  [regs k RDI; regs k R15; regs k R14; regs k R13; regs k R12; regs k RBX; regs k RBP; rflags k; ret].

(** thread [t] is suspended at stack pointer [sp] with these words and
    floating-point state *)
Definition suspended (t sp : Z) (ws : list Z) (f : Z) (s : st) : Prop :=
  mem s !! t = Some sp /\ holds (mem s) sp ws /\ fpu_state s !! t = Some f /\ 0 <= sp /\ sp + 72 < 2 ^ 64.

Definition apart (a n b m : Z) : Prop := a + n <= b \/ b + m <= a.

(** what a switch touches: the stack below the caller's return address and the
    pointer of the thread that leaves *)
Definition untouched (old b t sp : Z) : Prop :=
  t ≠ old /\ apart t 8 (b - 64) 64 /\ apart sp 72 (b - 64) 64 /\ apart sp 72 old 8.

Definition running (ws : list Z) (f sp : Z) (k : cpu) : Prop :=
  ws = context k (rip k) /\ fpu k = f /\ rsp k = sp + 72.

Lemma holds_ext m m' a ws : holds m a ws -> (forall x, a <= x < a + bytes_of ws -> m' !! x = m !! x) -> holds m' a ws.
Proof. intros H E i v Hi. rewrite E; [by apply H |]. apply lookup_lt_Some in Hi. unfold bytes_of. lia. Qed.

(** the second half: loading a suspended thread *)
Lemma resume_ok new sp ws f s : suspended new sp ws f s -> length ws = 9%nat ->
  exists s', (let! p := load new s in
    let s := set_rsp p s in
    match fpu_state s !! new with
    | None => Fault
    | Some f =>
        let s := set_fpu f s in
        let! s := for_loop (rev switched_regs) pop_reg s in
        let! (flags, s) := pop s in
        let! (ip, s) := pop (set_rflags flags s) in
        Ok (set_rip ip s)
    end) = Ok s' /\ running ws f sp (c s') /\ mem s' = mem s /\ fpu_state s' = fpu_state s.
Proof.
  intros (Hp & Hh & Hf & H0 & H1) Hl. unfold load. rewrite Hp. cbn [res_bind]. cbn [fpu_state set_rsp]. rewrite Hf.
  destruct ws as [| w0 [| w1 [| w2 [| w3 [| w4 [| w5 [| w6 [| w7 [| w8 [|]]]]]]]]]]; try done.
  set (V := [w0; w1; w2; w3; w4; w5; w6]). change [w0; w1; w2; w3; w4; w5; w6; w7; w8] with (V ++ [w7; w8]) in *.
  apply holds_app in Hh as [HV HW]. set (s1 := set_fpu f (set_rsp sp s)).
  rewrite (pops_eq (rev switched_regs) V s1) by (done || (unfold bytes_of; cbn [V length s1 c rsp set_fpu set_rsp]; lia)). cbn [res_bind].
  change (rsp (c s1)) with sp. change (bytes_of V) with 56 in *.
  pose proof (set_regs_other (rev switched_regs) V s1) as Ho. cbn zeta in Ho. set (s2 := set_regs (rev switched_regs) V s1) in *.
  destruct Ho as (_ & _ & _ & _ & _ & _ & _ & E1 & E2 & E3).
  assert (HR : [regs (c s2) RDI; regs (c s2) R15; regs (c s2) R14; regs (c s2) R13; regs (c s2) R12; regs (c s2) RBX; regs (c s2) RBP] = V) by reflexivity.
  clearbody s2. apply holds_cons in HW as [H7 HW]. apply holds_cons in HW as [H8 _].
  rewrite (pop_eq w7) by (cbn [c rsp set_rsp mem]; rewrite ?E2; (done || lia)). cbn [res_bind].
  rewrite (pop_eq w8) by (cbn [c rsp set_rsp set_rflags mem]; rewrite ?E2; (done || lia)). cbn [res_bind].
  eexists. split; [reflexivity |]. cbn [c mem fpu_state set_rip set_rsp set_rflags]. split; [| split; [exact E2 | exact E3]].
  unfold running, context. cbn [regs rflags rip fpu rsp]. split; [| split; [exact E1 | lia]].
  unfold V in HR. by simplify_eq.
Qed.

Lemma switch_resumes s old new ret sp ws f : let b := rsp (c s) in
  regs (c s) RDI = old -> regs (c s) RSI = new -> mem s !! b = Some ret -> 64 <= b -> b + 8 < 2 ^ 64 -> apart old 8 (b - 64) 72 ->
  suspended new sp ws f s -> length ws = 9%nat -> untouched old b new sp ->
  exists s', switch_to s = Ok s' /\ running ws f sp (c s') /\ suspended old (b - 64) (context (c s) ret) (fpu (c s)) s' /\
    (forall a, a ≠ old -> a < b - 64 \/ b <= a -> mem s' !! a = mem s !! a) /\
    (forall t, t ≠ old -> fpu_state s' !! t = fpu_state s !! t).
Proof.
  intros b Ho Hn Hr H0 H1 Ha HS Hl (U1 & U2 & U3 & U4). unfold switch_to. rewrite push_regs_words.
  change (push (rflags (c s)) s) with (pushes [rflags (c s)] s). set (W := [rflags (c s)] ++ (regs (c s) <$> switched_regs)).
  assert (HP : pushes (regs (c (pushes [rflags (c s)] s)) <$> switched_regs) (pushes [rflags (c s)] s) =
               mk_st (with_sp (b - 64) (c s)) (put b W (mem s)) (fpu_state s)).
  { rewrite pushes_regs, pushes_app. apply (pushes_eq W s); fold b; [change (bytes_of W) with 64 |]; lia. }
  rewrite HP. cbn [c regs with_sp rsp fpu mem fpu_state store]. rewrite Ho, Hn.
  set (s1 := mk_st _ _ _).
  assert (HW : rev W ++ [ret] = context (c s) ret) by reflexivity.
  assert (Hold : forall a, a ≠ old -> a < b - 64 \/ b <= a -> mem s1 !! a = mem s !! a).
  { intros a N1 N2. cbn [s1 mem]. rewrite lookup_insert_ne by done. apply put_outside. change (bytes_of W) with 64. lia. }
  assert (HS1 : suspended new sp ws f s1).
  { destruct HS as (E1 & E2 & E3 & E4 & E5). unfold apart in *.
    split; [rewrite Hold by lia; done |]. split; [eapply holds_ext; [exact E2 |] |].
    { intros x Hx. unfold bytes_of in Hx. rewrite Hl in Hx. apply Hold; lia. }
    split; [cbn [s1 fpu_state]; by rewrite lookup_insert_ne |]. done. }
  destruct (resume_ok new sp ws f s1 HS1 Hl) as (s' & E' & HR & HM & HF). exists s'. split; [exact E' |]. split; [done |].
  assert (Hctx : holds (mem s1) (b - 64) (context (c s) ret)).
  { rewrite <- HW. intros i v Hi. unfold apart in Ha.
    destruct (decide (i < length (rev W))%nat) as [Hi' | Hi'].
    - rewrite lookup_app_l in Hi by done. cbn [s1 mem]. change (length (rev W)) with 8%nat in Hi'. rewrite lookup_insert_ne by lia.
      exact (put_holds b W (mem s) i v Hi).
    - rewrite lookup_app_r in Hi by lia. change (length (rev W)) with 8%nat in *. apply list_lookup_singleton_Some in Hi as [Ei ->].
      rewrite Hold by lia. rewrite <- Hr. f_equal. lia. }
  split; [| split; rewrite ?HM, ?HF; [done |]].
  - split; [rewrite HM; cbn [s1 mem]; apply lookup_insert_eq |]. split; [rewrite HM; exact Hctx |].
    split; [rewrite HF; cbn [s1 fpu_state]; apply lookup_insert_eq | lia].
  - intros t Ht. cbn [s1 fpu_state]. by apply lookup_insert_ne.
Qed.

(** a call of [switch_to] by thread [old], with its return address on the stack *)
Definition switches (old new ret : Z) (s : st) : Prop :=
  regs (c s) RDI = old /\ regs (c s) RSI = new /\ mem s !! rsp (c s) = Some ret /\ 64 <= rsp (c s) /\ rsp (c s) + 8 < 2 ^ 64 /\
  apart old 8 (rsp (c s) - 64) 72.

(** C13: Switching between threads.  A switch from one thread to a suspended one loads the registers,
    flags, floating-point state, stack and return address of that thread and changes nothing in memory but the stack of
    the leaving thread below its return address and its stack pointer.  However many switches later, when any thread
    switches back and the words and the save area of the first thread are as they were left, its call returns: the
    registers that C code keeps, the flags, the floating-point state and the stack pointer are those of the call. *)
Theorem switch_correct s old new ret sp ws f :
  switches old new ret s -> suspended new sp ws f s -> length ws = 9%nat -> untouched old (rsp (c s)) new sp ->
  exists s', switch_to s = Ok s' /\ running ws f sp (c s') /\
    (forall a, a ≠ old -> a < rsp (c s) - 64 \/ rsp (c s) <= a -> mem s' !! a = mem s !! a) /\
    forall s2 x ret2, switches x old ret2 s2 -> untouched x (rsp (c s2)) old (rsp (c s) - 64) ->
      mem s2 !! old = mem s' !! old -> (forall a, rsp (c s) - 64 <= a < rsp (c s) + 8 -> mem s2 !! a = mem s' !! a) ->
      fpu_state s2 !! old = fpu_state s' !! old ->
      exists s3, switch_to s2 = Ok s3 /\ rip (c s3) = ret /\ rsp (c s3) = rsp (c s) + 8 /\ rflags (c s3) = rflags (c s) /\
        fpu (c s3) = fpu (c s) /\ forall r, r ∈ switched_regs -> regs (c s3) r = regs (c s) r.
Proof.
  intros (S1 & S2 & S3 & S4 & S5 & S6) HS Hl HU.
  destruct (switch_resumes s old new ret sp ws f S1 S2 S3 S4 S5 S6 HS Hl HU) as (s' & E & HR & (P1 & P2 & P3 & P4 & P5) & HM & _).
  exists s'. split; [done |]. split; [done |]. split; [done |].
  intros s2 x ret2 (X1 & X2 & X3 & X4 & X5 & X6) HU2 M1 M2 M3.
  destruct (switch_resumes s2 x old ret2 (rsp (c s) - 64) (context (c s) ret) (fpu (c s)) X1 X2 X3 X4 X5 X6) as (s3 & E3 & (R1 & R2 & R3) & _).
  - split; [by rewrite M1 |]. split; [| split; [by rewrite M3 | lia]]. eapply holds_ext; [exact P2 |]. intros a Ha. apply M2.
    change (bytes_of (context (c s) ret)) with 72 in Ha. lia.
  - done.
  - done.
  - exists s3. split; [done |]. unfold context in R1. simplify_eq. split; [done |]. split; [lia |]. do 2 (split; [done |]).
    intros r Hr. unfold switched_regs in Hr. lmem_simpl. naive_solver.
Qed.

(** ** Threads that have not run yet *)

Definition store_all (l : list (Z * Z)) (m : gmap Z Z) : gmap Z Z := foldl (fun m x => <[x.1 := x.2]> m) m l.

Lemma push_words_put top l m : (push_words top l).1 = top - bytes_of l /\ store_all (push_words top l).2 m = put top l m.
Proof.
  unfold bytes_of. revert top m. induction l as [| w l IH]; intros top m; cbn [push_words]; [cbn; split; [lia | done] |].
  destruct (push_words (top - 8) l) as [q ws] eqn:E. destruct (IH (top - 8) (<[top - 8 := w]> m)) as [H1 H2]. rewrite E in *.
  cbn [fst snd length store_all foldl put] in *. split; [lia |]. exact H2.
Qed.

(** a kernel thread starts at [ret_from_fork] with its function in R15, its
    argument in RDI and interrupts on *)
Lemma new_thread_suspended ret_from_fork stack_top entry data q l t m s f :
  arch_thread_init_frame ret_from_fork stack_top entry data = Ok (q, l) -> 80 <= stack_top < 2 ^ 64 ->
  mem s = <[t := q]> (store_all l m) -> apart t 8 (stack_top - 80) 80 -> fpu_state s !! t = Some f ->
  suspended t q [data; entry; 0; 0; 0; 0; 0; 0x202; ret_from_fork] f s /\ q + 72 = stack_top - 8 /\ stack_top mod 16 = 0.
Proof.
  unfold arch_thread_init_frame. destruct (Z.eqb_spec (Z.land stack_top 15) 0) as [Ha |]; cbn [negb]; [| done].
  set (W := [0; ret_from_fork; 0x202; 0; 0; 0; 0; 0; entry; data]). destruct (push_words stack_top W) as [q' l'] eqn:E.
  destruct (push_words_put stack_top W m) as [H1 H2]. rewrite E in *. cbn [fst snd] in *. intros [= <- <-] Ht Hm Hx Hf.
  change (bytes_of W) with 80 in H1. unfold apart in Hx.
  split; [| split; [lia | change 15 with (Z.ones 4) in Ha; rewrite Z.land_ones in Ha by lia; done]].
  split; [rewrite Hm; apply lookup_insert_eq |]. split; [| split; [done | lia]].
  assert (HW : holds (mem s) (stack_top - 80) (rev W)).
  { rewrite Hm, H2. intros i v Hi. pose proof (lookup_lt_Some _ _ _ Hi) as Hi'. change (length (rev W)) with 10%nat in Hi'.
    rewrite lookup_insert_ne by lia. exact (put_holds stack_top W m i v Hi). }
  rewrite H1. change (rev W) with ([data; entry; 0; 0; 0; 0; 0; 0x202; ret_from_fork] ++ [0]) in HW. by apply holds_app in HW as [? _].
Qed.

(** the call of [thread_entry_point] there leaves the stack pointer a multiple
    of 16 where the calling convention asks for 8 more *)
Lemma entry_misaligned stack_top : stack_top mod 16 = 0 -> (stack_top - 8 - 8) mod 16 = 0.
Proof. intros H. zlia. Qed.

(** entering user mode for the first time *)
Lemma enter_user_ok top entry_point user_stack s : 40 <= align_down 16 top < 2 ^ 64 ->
  exists s', enter_user top entry_point user_stack s = Ok s' /\ rip (c s') = entry_point /\ rsp (c s') = user_stack /\
    cs (c s') = USER_CS_SEL /\ ss (c s') = USER_SS_SEL /\ Z.testbit (rflags (c s')) 9 = true /\
    gs_base (c s') = kernel_gs_base (c s) /\ kernel_gs_base (c s') = gs_base (c s).
Proof.
  intros Hb. unfold enter_user. set (b := align_down 16 top) in *. clearbody b.
  set (s1 := set_rsp _ _).
  destruct (iretq_ok entry_point USER_CS_SEL 0x202 user_stack USER_SS_SEL s1) as (s' & E & _ & R2 & R3 & R4 & R5 & R6 & R7 & R8 & _).
  - change (rsp (c s1)) with (b - 40). intros i v Hi. cbn [s1 mem set_rsp swapgs store].
    destruct i as [| [| [| [| [| i]]]]]; cbn in Hi; simplify_eq.
    all: rewrite !lookup_insert; repeat case_decide; done || lia.
  - change (rsp (c s1)) with (b - 40). lia.
  - change (rsp (c s1)) with (b - 40). lia.
  - exists s'. rewrite R2, R3, R4, R5, R6, R7, R8. done.
Qed.

(** ** A user thread is interrupted, calls the kernel and is switched *)

Definition ex_user : cpu := mk_cpu (fun _ => 7) 0x7000 0x400000 USER_CS_SEL USER_SS_SEL 0x302 0 0x9000 5.


(** the context at 0x9000 names the thread at 0xA000, whose stack ends at 0x20000 *)
Definition ex_kernel_words : gmap Z Z := {[ 0x9038 := 0xA000; 0xA050 := 0x20000 ]}.

Lemma syscall_transparent_witness :
  exists s1, syscall_entry 8 56 80 (syscall_insn (syscall_init 0x1000 (mk_msrs 0 0 0 0)) (mk_st ex_user ex_kernel_words ∅)) = Ok s1 /\
    rsp (c s1) = 0x20000 - 144 /\ Z.testbit (rflags (c s1)) 8 = true.
Proof.
  destruct (syscall_transparent 8 56 80 0x1000 (mk_msrs 0 0 0 0) 0xA000 0x20000 (mk_st ex_user ex_kernel_words ∅)) as (s1 & E & HA & HT & _).
  - split; [reflexivity |]. split; [reflexivity |]. cbn. lia.
  - exists s1. split; [exact E |]. destruct HA as (H1 & _). split; [exact H1 |]. rewrite HT. reflexivity.
Defined.

(** thread 0xA000 switches to 0xB000, suspended at 0x30000 *)
Definition ex_words : list Z := [1; 2; 3; 4; 5; 6; 7; 0x202; 0x5000].
Definition ex_switching : st :=
  mk_st (mk_cpu (fun r => if decide (r = RDI) then 0xA000 else if decide (r = RSI) then 0xB000 else 9) 0x20000 0 8 16 2 0x9000 0 77)
    (<[0x20000 := 0x4000]> (<[0xB000 := 0x30000]> (put 0x30048 (rev ex_words) ∅))) {[ 0xB000 := 66 ]}.

Lemma switch_correct_witness : exists s', switch_to ex_switching = Ok s' /\ rip (c s') = 0x5000 /\ fpu (c s') = 66 /\ rsp (c s') = 0x30048.
Proof.
  destruct (switch_correct ex_switching 0xA000 0xB000 0x4000 0x30000 ex_words 66) as (s' & E & (H1 & H2 & H3) & _).
  - unfold switches, apart. cbn. split_and!; try reflexivity; lia.
  - unfold suspended. split; [reflexivity |]. split; [| split; [reflexivity | lia]].
    intros i v Hi. do 9 (destruct i as [| i]; [injection Hi as <-; reflexivity |]). discriminate Hi.
  - reflexivity.
  - unfold untouched, apart. cbn. lia.
  - exists s'. split; [exact E |]. unfold ex_words, context in H1. split; [by injection H1 |]. done.
Defined.
